(* ===== verification/_CoqProject ===== *)
-Q . S2P
Prelude.v
Idf.v
Logic.v
CLib.v
Protocol.v
Nvs.v
TestEnv.v
BootManager.v
WifiCreds.v
CFloat.v
Led.v
Posix.v
FileHelpers.v
CardShape.v
SdCard.v
Resources.v
HttpPool.v
Writer.v
Download.v
DownloadFile.v
DownloadFrames.v
DownloadFolder.v
PingPong.v
InitWifi.v
Main.v
MainSpec.v
Jsmn.v
Adler.v
Puff.v
PuffTables.v
PuffSafe.v
PuffSpec.v
NgBuf.v
HuffTable.v
Huffman.v
HuffSpec.v
HpackInt.v
Pq.v
PqSpec.v
NgStream.v
Sched.v
SchedSpec.v
NgMap.v
NgMapSpec.v
Rcbuf.v
HdStatic.v
HdTable.v
HdTableSpec.v
HdDeflate.v
HdInflate.v
Hpack.v
HpackParse.v
HdDeflateSpec.v
HdInflateSpec.v
HdLink.v
NgHelper.v
NgFlow.v
NgFrame.v
NgFrameSpec.v
NgPadSpec.v
NgHeadersSpec.v
Sfparse.v
SfparseGrammar.v
SfparseSpec.v
SfparseText.v
NgHttp.v
NgPrioritySpec.v
NgHttpSpec.v
NgHttpRules.v
