(* ===== verification/Prelude.v ===== *)
(** * Simibox downloader firmware: verification library

    The program (under [src/src/]) is the downloader firmware of a children's music
    box on an ESP32: it boots next to the musicbox firmware, reads in NVS which
    folder was requested, connects to WiFi, downloads the folder from an HTTP server
    to the SD card, checks it, swaps it into place, reports in NVS and restarts into
    the musicbox.  The library models every function of these sources, and of the
    vendored components they are shipped with ([src/managed_components/]) the parts that
    are algorithms of their own: the JSON tokenizer jsmn, zlib's reference inflater puff
    and its Adler-32 checksum, and of nghttp2 the data structures, HPACK, the frames, the
    structured fields, the HTTP semantics, the scheduler and the window of the
    connection.

    _How the code is modelled._

    - [Prelude], [CLib], [CFloat]: monad notation, machine-width integers, C strings
      and buffers, [float] and [double] (IEEE 754 in [SpecFloat], with sinf a
      parameter).
    - [Idf]: the platform.  Each ESP-IDF, FreeRTOS, HTTP and SD driver call is a
      constructor of [cmd]; what it does and answers is the parameter [handle] of the
      class [Env], over an arbitrary world.  The firmware is written in the monad
      [Idf.M]: globals, world, trace of the calls, and a stop ([esp_restart], a failed
      [ESP_ERROR_CHECK], an idle loop, undefined behaviour).  An overflow of a signed
      counter or of a conversion ([ExUndefined]) and the use of a closed file or a NULL
      handle ([ExMisuse]) are different stops: the theorems that allow the first exclude
      the second.
    - [Logic]: [wp] (weakest preconditions), [uses] (which classes of calls a function
      makes), [stops], and their frame rules.
    - [Nvs]: the laws of NVS as a class.  What a read gives ([nvs_store]) is not what a
      restart finds ([nvs_saved]): a set is readable at once and certain only after the
      commit of its namespace.  The namespaces that components of the system keep for
      themselves, as the WiFi driver does, are not part of either ([nvs_private]).
      [TestEnv]: a concrete platform that meets all interfaces, on which the witnesses
      run; its WiFi driver writes to flash.
    - [Posix]: stdio, stat and dirent on a tree of files, where every operation may
      fail, a write may be short and flushed data may be lost.

    _The firmware._

    - [Protocol]: [simibox_nvs_protocol.h], [downloader_config.h].
    - [BootManager]: [simibox_boot_manager_idf.c].  Saving and loading, a request, a
      failure with its retry count, a success: what each leaves in NVS, and for a save
      what survives a restart, whichever write or commit fails.
    - [WifiCreds]: [simibox_wifi_creds_idf.c], with its event handler delivered at
      every driver call.  Which networks are loaded, how they are sorted, which are
      tried in which order and which one is connected to, how long it can take, and the
      wake-up that can be lost.
    - [Led]: [simibox_led_idf.c] and its animation task.
    - [FileHelpers], [SdCard], [HttpPool], [Writer], [Download], [InitWifi]: the parts
      of [simibox_download.cpp], in the order of the file; [SdCard] relates what
      [mount_sd] answers to the result of every mount it asks for.  [CardShape] (the removal of
      a directory ends, and removes what it should), [Resources] (what is acquired is
      released), [DownloadFrames] and [DownloadFile] (one file: the bytes on the card
      are a prefix of those received, all of them if the card takes what is flushed; on
      every path what was acquired is released, once), [DownloadFolder] (a folder: a success is
      verified, a failure keeps the old folder, nothing is leaked; the swap can lose
      both).
    - [PingPong]: the network loop and the writer task as two threads over the two
      buffers, the job and its semaphores: every schedule ends in the same state, and
      the two never touch the same buffer.
    - [Main]: [downloader_main.cpp].  [MainSpec]: an abstract boot protocol on the NVS
      store, which [app_main] refines on a device that boots with its NVS intact, a card
      of well-formed names and bounded depth and a folder name of one component,
      whatever the WiFi, the server and the calls on card and NVS answer; the recovery
      of NVS; the boot counter.

    _jsmn and zlib._

    - [Jsmn]: [jsmn.h].  Safety and resumability in the four builds, soundness of the
      tokens, agreement of the counting run and the filling run.
    - [Adler]: [adler32.c].  No sum overflows, the checksum and the combination.
    - [Puff]: [puff.c].  [PuffTables]: [construct] against the canonical code;
      [PuffSafe]: a program logic for its monad (input, output, [longjmp]);
      [PuffSpec]: safety and termination on every input, equality of the two builds,
      the round trip of stored blocks, completeness of complete codes.

    _nghttp2_ ([nghttp2/lib/]), from the data structures up.  Memory is a counter of
    requests and blocks with the allocator [malloc_ok] as a parameter, so that every
    theorem holds whichever allocation fails; undefined behaviour is [None].

    - [NgBuf]: [nghttp2_buf.c], buffers and chains of buffers: what is written is what
      the chain holds, and every chunk is given back.
    - [NgMap]: [nghttp2_map.c], the Robin Hood hash map over the array of its buckets.
      [NgMapSpec]: it refines a finite map, under every hash function and seed.
    - [Pq]: [nghttp2_pq.c], a binary heap whose entries know their position.  [PqSpec]:
      it refines a bag ordered by the comparison.
    - [Rcbuf]: [nghttp2_rcbuf.c], the reference counts of the strings of HPACK.
    - [NgHelper]: [nghttp2_helper.c], byte order, tables of characters, windows.
    - [NgStream]: [nghttp2_stream.c], the record of a stream.  [Sched]: the queues of
      streams with DATA to send in [nghttp2_session.c].  [SchedSpec]: the queues and the
      flags of the streams agree after every operation, the streams are served by
      urgency, and a server whose most urgent streams are incremental lets none of them
      wait for ever.
    - HPACK.  [HuffTable], [Huffman] and [HuffSpec]: the two tables of
      [nghttp2_hd_huffman_data.c], encoder and decoder; the decoder accepts exactly what
      the code of RFC 7541 allows, and inverts the encoder.  [HpackInt]: integers.
      [HdStatic], [HdTable], [HdDeflate], [HdInflate]: [nghttp2_hd.c], the static table,
      the dynamic table with its hash map, the encoder, and the decoder as the state
      machine it is, fed any fragment at a time.  [Hpack]: what RFC 7541 says a header
      block means; [HpackParse]: a decoder for it on whole blocks.  [HdTableSpec]: the
      ring buffer and the hash map are the list of the entries.  [HdDeflateSpec]: a
      block that is encoded means the fields it was given.  [HdInflateSpec]: fed in any
      fragments, the decoder gives what the reference decoder gives, and no input makes
      it read out of bounds or run for ever.  [HdLink]: an encoder and a decoder that
      start together stay together, over any series of blocks and changes of the table.
    - Frames.  [NgFrame]: [nghttp2_frame.c], and the checks on a frame that
      [nghttp2_session.c] makes before it hands a payload over.  [NgFrameSpec]: what is
      packed is unpacked; an ORIGIN payload is accepted if and only if it is well
      formed.  [NgPadSpec]: padding is what the receiver takes off.  [NgHeadersSpec]: a
      header block, cut into HEADERS and CONTINUATION, is a series of frames whose
      payloads together mean the fields.
    - [NgFlow]: the receive window of the connection ([nghttp2_session.c],
      [nghttp2_submit.c]) with a peer who keeps to it: no window overflows, and with
      automatic updates nobody is blamed; if the application sets the window through the session
      only, and allocations succeed, the peer is not left without one.
    - Structured fields.  [Sfparse]: [sfparse.c], the parser as the state machine it is
      and the decoders of strings.  [SfparseGrammar]: RFC 9651 as functions on texts,
      but for inner lists as items, which the code accepts.  [SfparseSpec]: the calls of
      the parser walk through the events of the text, whichever parameters and inner
      lists the caller skips.  [SfparseText]: strings,
      byte sequences and display strings survive being written and read.
    - [NgHttp]: [nghttp2_http.c], which fields a message may have.  [NgPrioritySpec]: the
      priority field means what RFC 9218 says.  [NgHttpSpec]: what the handlers of a
      request compute together, field after field.  [NgHttpRules]: a request is accepted
      if and only if it keeps a list of rules written without the code's tables and
      flags: those of RFC 9113 (and RFC 8441 for extended CONNECT) but for four
      differences that the file names, such as regular fields of an illegal name, which
      are left out instead of refused.

    _Bounds and fuel._

    The loop of a transfer has a fuel of rounds; 4096 are enough, since every round but
    the last moves a full buffer and the 32-bit byte counter overflows before (which is
    undefined behaviour, a stop of the model).  The removal of a tree has its depth as
    fuel; the theorems ask for more than the depth of the card's tree, which no
    operation of the firmware raises by more than one.  The loops of jsmn and puff have
    the text and the bits left as fuel; those of sfparse and of the priority field the
    length of the text and a constant.  The decoder of HPACK has two steps a byte
    ([inflate_fuel]), a header block one call a byte and one more
    ([header_block_fuel]); the probes of the two hash maps have the number of buckets or
    entries, the counting of an ORIGIN payload its length.  Other loops are bounded in
    the code.  A theorem that mentions fuel also states that the result is reached.

    _Not modelled._

    Log lines, time measurements and the [sd_diag_*] functions, which only log and are
    compiled out; the internals of ESP-IDF and of cJSON (interfaces).  Of nghttp2: the two
    loops of [nghttp2_session.c] that drive everything above through the callbacks of the
    application, its SETTINGS, the windows of single streams, and most of
    [nghttp2_submit.c]; [sfparse.c] is the build without AVX2; the handlers of responses in
    [nghttp2_http.c] are modelled without a theorem of their own.  The programs of
    nghttp2 ([nghttp2/src/], in C++) and its tests; the rest of zlib; esp-dsp, the
    websocket client and the display driver, none of which the program calls; build files
    and generated code.  The animation task of the LED is interleaved with its callers in
    [Led] only, and the writer task with the network loop in [PingPong] only; elsewhere
    each runs when it is started. *)

From Stdlib Require Export ZArith List Bool Lia String Ascii.
From stdpp Require Export base tactics decidable option list.
Export ListNotations.
#[global] Open Scope Z_scope.
#[global] Open Scope list_scope.

(** ** Monads *)

(** The operations every effectful model of the library is written with; the
    instances are the machine monad of [Idf] and the decoder's monad of [Puff]. *)
Class Monad (m : Type -> Type) := {
  ret : forall {A}, A -> m A;
  bind : forall {A B}, m A -> (A -> m B) -> m B
}.

Declare Scope fw_scope.
Delimit Scope fw_scope with fw.
Notation "x <- m ;; k" := (bind m (fun x => k))
  (at level 100, m at next level, right associativity) : fw_scope.
Notation "'let!' p := m 'in' k" := (bind m (fun x => match x with p => k end))
  (at level 100, p pattern, m at next level, k at level 100,
   right associativity) : fw_scope.
Notation "m ;; k" := (bind m (fun _ => k))
  (at level 100, right associativity) : fw_scope.
#[global] Open Scope fw_scope.

Section Combinators.
Context {m : Type -> Type} `{Monad m}.

(** [if (c) body] with no [else]. *)
Definition when (c : bool) (body : m unit) : m unit :=
  if c then body else ret tt.

(** A [for] loop over the elements of a list, without [break]. *)
Fixpoint for_each {A} (l : list A) (body : A -> m unit) : m unit :=
  match l with
  | [] => ret tt
  | a :: l' => body a ;; for_each l' body
  end.

(** [for (i = 0; i < n; i++) body], the body not reading [i]. *)
Fixpoint repeat_m (n : nat) (body : m unit) : m unit :=
  match n with
  | O => ret tt
  | S n' => body ;; repeat_m n' body
  end.
End Combinators.

(** ** Machine-width integers *)

(** Unsigned conversions wrap; the widths are those of the source's types. *)
Definition u8 (x : Z) : Z := x mod 2 ^ 8.
Definition u16 (x : Z) : Z := x mod 2 ^ 16.
Definition u32 (x : Z) : Z := x mod 2 ^ 32.

(** Signed conversion of an [int8_t]. *)
Definition s8 (x : Z) : Z := (x + 2 ^ 7) mod 2 ^ 8 - 2 ^ 7.

(** Whether a value is representable as a C [int] of the target (32 bits). *)
Definition in_int (x : Z) : bool := (- 2 ^ 31 <=? x) && (x <? 2 ^ 31).

(** Whether a value is representable as an [int64_t]. *)
Definition in_int64 (x : Z) : bool := (- 2 ^ 63 <=? x) && (x <? 2 ^ 63).

Lemma u8_range x : 0 <= u8 x < 256.
Proof. apply Z.mod_pos_bound; lia. Qed.

Lemma u16_range x : 0 <= u16 x < 65536.
Proof. apply Z.mod_pos_bound; lia. Qed.

Lemma u32_range x : 0 <= u32 x < 4294967296.
Proof. apply Z.mod_pos_bound; lia. Qed.

Lemma u8_small x : 0 <= x < 256 -> u8 x = x.
Proof. intros. apply Z.mod_small; lia. Qed.

Lemma u8_idem x : u8 (u8 x) = u8 x.
Proof. apply u8_small, u8_range. Qed.

Lemma u32_small x : 0 <= x < 4294967296 -> u32 x = x.
Proof. intros. apply Z.mod_small; lia. Qed.

Lemma s8_range x : -128 <= s8 x < 128.
Proof. unfold s8. pose proof (Z.mod_pos_bound (x + 2 ^ 7) (2 ^ 8)). lia. Qed.

Create HintDb width.
#[export] Hint Resolve u8_range u16_range u32_range s8_range : width.

(** [lor] of two error codes is zero exactly when both are. *)
Lemma lor_zero a b : Z.lor a b = 0 <-> a = 0 /\ b = 0.
Proof. apply Z.lor_eq_0_iff. Qed.

(** Bits put above a number that has none there. *)
Lemma lor_add v b c : 0 <= c -> 0 <= v < 2 ^ c -> Z.lor v (Z.shiftl b c) = v + b * 2 ^ c.
Proof.
  intros Hc Hv. rewrite <- Z.shiftl_mul_pow2 by done. symmetry. apply Z.add_nocarry_lor.
  apply Z.bits_inj'. intros n Hn. rewrite Z.land_spec, Z.bits_0.
  destruct (Z.lt_ge_cases n c) as [Hlt|Hge].
  - rewrite Z.shiftl_spec_low by done. apply andb_false_r.
  - destruct (decide (v = 0)) as [->|Hne]; [by rewrite Z.bits_0|].
    rewrite Z.bits_above_log2; [done|lia|]. apply Z.log2_lt_pow2; [lia|].
    apply Z.lt_le_trans with (2 ^ c); [lia|]. by apply Z.pow_le_mono_r.
Qed.

(** ** Tactics *)

(** Split hypotheses and goals along conjunctions, existentials and
    boolean connectives. *)
Ltac crush_hyps :=
  repeat match goal with
    | H : _ /\ _ |- _ => destruct H
    | H : exists _, _ |- _ => destruct H
    | H : (_ && _)%bool = true |- _ => apply andb_prop in H
    | H : (_ && _)%bool = false |- _ => apply andb_false_iff in H
    | H : (_ || _)%bool = false |- _ => apply orb_false_elim in H
    | H : negb _ = true |- _ => apply negb_true_iff in H
    | H : negb _ = false |- _ => apply negb_false_iff in H
    | H : Z.eqb _ _ = true |- _ => apply Z.eqb_eq in H
    | H : Z.eqb _ _ = false |- _ => apply Z.eqb_neq in H
    | H : Z.ltb _ _ = true |- _ => apply Z.ltb_lt in H
    | H : Z.ltb _ _ = false |- _ => apply Z.ltb_ge in H
    | H : Z.leb _ _ = true |- _ => apply Z.leb_le in H
    | H : Z.leb _ _ = false |- _ => apply Z.leb_gt in H
    | H : Nat.ltb _ _ = true |- _ => apply Nat.ltb_lt in H
    | H : Nat.ltb _ _ = false |- _ => apply Nat.ltb_ge in H
    | H : Nat.eqb _ _ = true |- _ => apply Nat.eqb_eq in H
    | H : Nat.eqb _ _ = false |- _ => apply Nat.eqb_neq in H
    end.

(** Case analysis on the condition of the first [if] or [match] of the goal. *)
Ltac case_goal :=
  match goal with
  | |- context [match ?x with _ => _ end] =>
      lazymatch x with
      | context [match _ with _ => _ end] => fail
      | _ => let E := fresh "E" in destruct x eqn:E
      end
  end.

(** ** Lists *)

Lemma existsb_false_Forall {A} (f : A -> bool) l :
  existsb f l = false <-> Forall (fun a => f a = false) l.
Proof.
  induction l as [|a l IH]; simpl; [intuition constructor|].
  rewrite orb_false_iff, IH, Forall_cons. tauto.
Qed.

Lemma existsb_app_true {A} (f : A -> bool) l l' :
  existsb f (l ++ l') = existsb f l || existsb f l'.
Proof. apply existsb_app. Qed.

(** The last element of a list that satisfies a test, if any. *)
Fixpoint find_last {A} (f : A -> bool) (l : list A) : option A :=
  match l with
  | [] => None
  | a :: l' => match find_last f l' with
               | Some b => Some b
               | None => if f a then Some a else None
               end
  end.

Lemma find_last_snoc {A} (f : A -> bool) l a :
  find_last f (l ++ [a]) = if f a then Some a else find_last f l.
Proof.
  induction l as [|b l IH]; simpl; [done|].
  rewrite IH. by destruct (f a).
Qed.

Lemma find_last_Some {A} (f : A -> bool) l a :
  find_last f l = Some a -> In a l /\ f a = true.
Proof.
  induction l as [|b l IH]; simpl; [done|].
  destruct (find_last f l) as [c|].
  - intros [= ->]. destruct IH; auto.
  - destruct (f b) eqn:E; [|done]. intros [= ->]. auto.
Qed.

(** The elements of an option. *)
Definition opt_list {A} (o : option A) : list A :=
  match o with Some a => [a] | None => [] end.

Lemma omap_cons_opt {A B} (f : A -> option B) a l :
  omap f (a :: l) = opt_list (f a) ++ omap f l.
Proof. simpl. by destruct (f a). Qed.
