(* ===== verification/Idf.v ===== *)
(** * The platform interface

    Everything the firmware calls outside its own sources (ESP-IDF drivers,
    FreeRTOS, NVS, the HTTP client, the physical SD card) is one constructor
    of [cmd].  What such a call does is the parameter [handle] of the class
    [Env]: an arbitrary function of an arbitrary world type.  The firmware is
    written in the monad [M], which threads the component's globals, the world
    and the trace of the calls made so far, and stops on [esp_restart], a
    failed [ESP_ERROR_CHECK], C undefined behaviour or an idle loop. *)

From S2P Require Import Prelude.

(** ** Error codes of [esp_err.h] and [nvs.h] the sources name *)

Definition ESP_OK : Z := 0.
Definition ESP_FAIL : Z := -1.
Definition ESP_ERR_NO_MEM : Z := 0x101.
Definition ESP_ERR_INVALID_ARG : Z := 0x102.
Definition ESP_ERR_INVALID_STATE : Z := 0x103.
Definition ESP_ERR_NOT_FOUND : Z := 0x105.
Definition ESP_ERR_TIMEOUT : Z := 0x107.
Definition ESP_ERR_NVS_NO_FREE_PAGES : Z := 0x110d.
Definition ESP_ERR_NVS_NEW_VERSION_FOUND : Z := 0x1110.

Definition is_ok (e : Z) : bool := e =? ESP_OK.

Lemma is_ok_spec e : is_ok e = true <-> e = ESP_OK.
Proof. apply Z.eqb_eq. Qed.

(** ** Data exchanged with the platform *)

Inductive nvs_mode := NVS_READONLY | NVS_READWRITE.

(** The events the two WiFi handlers of the sources tell apart. *)
Inductive wifi_event :=
| STA_START
| STA_CONNECTED
| STA_DISCONNECTED (reason : Z)
| STA_GOT_IP
| OTHER_EVENT.

(** The fields of [wifi_ap_record_t] the sources read. *)
Record ap_record := ApRecord {
  ap_ssid : string;
  ap_rssi : Z;
  ap_primary : Z
}.

(** The part of [sdmmc_card_t] the sources read: an identity, and whether the
    host has a [set_card_clk] hook. *)
Record card := Card { card_id : Z; card_has_set_clk : bool }.

Record partition := Partition { part_label : string; part_address : Z }.

Inductive part_query :=
| ByLabel (label : string)      (** APP, SUBTYPE_ANY, label *)
| ByOta0.                       (** APP, SUBTYPE_APP_OTA_0, no label *)

(** What [esp_http_client_read] reports: an error, or the bytes received (none
    at the end of the body). *)
Inductive read_result := ReadErr | ReadData (bs : list ascii).

Inductive gpio_mode := GPIO_MODE_INPUT | GPIO_MODE_OUTPUT.

Inductive led_channel := LEDC_CHANNEL_R | LEDC_CHANNEL_G | LEDC_CHANNEL_B.

(** The parameters of [esp_wifi_scan_start] that the source sets. *)
Record scan_config := ScanConfig {
  scan_show_hidden : bool;
  scan_active_min : Z;
  scan_active_max : Z
}.

(** ** The calls *)

Inductive cmd : Type -> Type :=
(* NVS *)
| NvsFlashInit : cmd Z
| NvsFlashErase : cmd Z
| NvsOpen (ns : string) (mode : nvs_mode) : cmd (Z * Z)
| NvsClose (h : Z) : cmd unit
| NvsEraseAll (h : Z) : cmd Z
| NvsCommit (h : Z) : cmd Z
| NvsGetU8 (h : Z) (key : string) : cmd (Z * Z)
| NvsSetU8 (h : Z) (key : string) (v : Z) : cmd Z
| NvsGetU32 (h : Z) (key : string) : cmd (Z * Z)
| NvsSetU32 (h : Z) (key : string) (v : Z) : cmd Z
| NvsGetStr (h : Z) (key : string) (len : nat) : cmd (Z * string)
| NvsSetStr (h : Z) (key : string) (v : string) : cmd Z
(* network interface, WiFi driver, event loop *)
| EspNetifInit : cmd Z
| EspEventLoopCreateDefault : cmd Z
| EspNetifCreateDefaultWifiSta : cmd unit
| EspWifiInit : cmd Z
| EspEventHandlerRegister (what : string) : cmd Z
| EspWifiSetModeSta : cmd Z
| EspWifiSetPsNone : cmd Z
| EspWifiSetBandwidthHt40 : cmd Z
| EspWifiSetProtocolBgn : cmd Z
| EspWifiStart : cmd Z
| EspWifiConnect : cmd Z
| EspWifiDisconnect : cmd Z
| EspWifiSetConfig (ssid pass : list ascii) : cmd Z
| EspWifiStaGetApInfo : cmd (Z * ap_record)
| EspWifiScanStart (cfg : scan_config) : cmd Z
| EspWifiScanGetApRecords (max : nat) : cmd (Z * list ap_record)
(* events delivered to the handler, now or during a blocking wait *)
| PollEvents : cmd (list wifi_event)
| WaitEvents (ticks_ms : Z) : cmd (list wifi_event)
(* LED controller *)
| LedcTimerConfig (freq : Z) : cmd Z
| LedcChannelConfig (ch : led_channel) (gpio duty : Z) : cmd Z
| LedcSetDuty (ch : led_channel) (duty : Z) : cmd Z
| LedcUpdateDuty (ch : led_channel) : cmd Z
(* FreeRTOS *)
| MutexCreateRecursive : cmd bool
| MutexTakeRecursive : cmd unit
| MutexGiveRecursive : cmd unit
| SemCreateBinary : cmd (option Z)
| SemDelete (s : Z) : cmd unit
| SemGive (s : Z) : cmd unit
| SemTake (s : Z) : cmd unit
| TaskCreatePinned (name : string) (stack prio core : Z) : cmd bool
| TaskDelete : cmd unit
| TaskIsCurrent (name : string) : cmd bool
| TaskGetTickCount : cmd Z
| VTaskDelay (ms : Z) : cmd unit
| VTaskDelayUntil (ms : Z) : cmd unit
(* GPIO, SPI bus, SD card driver *)
| GpioConfig (mask : Z) (mode : gpio_mode) (pullup : bool) : cmd Z
| GpioSetLevel (pin level : Z) : cmd Z
| EtsDelayUs (us : Z) : cmd unit
| SpiBusInitialize : cmd Z
| SpiBusFree : cmd Z
| SdspiMount (mount_point : string) (freq_khz : Z) : cmd (Z * card)
| SdcardUnmount (mount_point : string) (c : card) : cmd Z
| SetCardClk (c : card) (freq_khz : Z) : cmd Z
(* heap *)
| HeapMallocPsram (size : Z) : cmd (option Z)
| HeapFree (p : Z) : cmd unit
(* HTTP client *)
| HttpInit (url : string) : cmd (option Z)
| HttpSetUrl (c : Z) (url : string) : cmd Z
| HttpOpen (c : Z) : cmd Z
| HttpFetchHeaders (c : Z) : cmd Z
| HttpGetStatusCode (c : Z) : cmd Z
| HttpRead (c : Z) (len : Z) : cmd read_result
| HttpPerform (c : Z) : cmd (Z * list (bool * string))
| HttpClose (c : Z) : cmd Z
| HttpCleanup (c : Z) : cmd Z
(* what the card makes of each file operation *)
| IoOpen (path : string) : cmd bool
| IoWrite (n : nat) : cmd nat
| IoDrain (n : nat) : cmd nat
| IoRead (n : nat) : cmd nat
| IoTell (size : Z) : cmd Z
| IoStat (path : string) : cmd bool
| IoMkdir (path : string) : cmd bool
| IoOpendir (path : string) : cmd bool
| IoUnlink (path : string) : cmd bool
| IoRmdir (path : string) : cmd bool
| IoRename (from to : string) : cmd bool
(* system *)
| EspLogLevelSet (level : string) : cmd unit
| EspPartitionFindFirst (q : part_query) : cmd (option partition)
| EspOtaSetBootPartition (p : partition) : cmd Z
| EspOtaGetRunningPartition : cmd partition.

(** One entry of the trace: a call and what it returned. *)
Inductive event :=
| Ev (X : Type) (c : cmd X) (r : X).
Arguments Ev {X} c r.

(** The platform: any world, and any behaviour of the calls on it. *)
Class Env := {
  world : Type;
  handle : forall X, cmd X -> world -> X * world
}.
Arguments handle {_ X} c w.

(** ** The machine monad *)

(** Why a computation stopped instead of returning. *)
Inductive exit :=
| ExRestart                     (** [esp_restart()] *)
| ExAbort                       (** [ESP_ERROR_CHECK] failed: [abort()] *)
| ExUndefined                   (** C undefined behaviour of arithmetic: an overflow,
                                    a conversion out of range *)
| ExMisuse                      (** a NULL or closed handle was used *)
| ExIdle                        (** the endless delay loop of the dev build *)
| ExFuel.                       (** the fuel of a loop of the model ran out *)

Inductive outcome (A : Type) :=
| Ret (a : A)
| Halt (x : exit).
Arguments Ret {A} a.
Arguments Halt {A} x.

(** The state of a run: the globals [G] of the component, the world, and the
    trace of calls, newest first. *)
Record sys `{Env} (G : Type) := Sys {
  glob : G;
  wld : world;
  trace : list event
}.
Arguments Sys {_ G}.
Arguments glob {_ G}.
Arguments wld {_ G}.
Arguments trace {_ G}.

Section Machine.
Context `{Env}.

Definition M (G A : Type) : Type := sys G -> outcome A * sys G.

Definition m_ret {G A} (a : A) : M G A := fun s => (Ret a, s).

Definition m_bind {G A B} (m : M G A) (k : A -> M G B) : M G B :=
  fun s => match m s with
           | (Ret a, s') => k a s'
           | (Halt x, s') => (Halt x, s')
           end.

#[global] Instance M_Monad G : Monad (M G) := {
  ret := fun A a => m_ret a;
  bind := fun A B m k => m_bind m k
}.

Definition halt {G A} (x : exit) : M G A := fun s => (Halt x, s).

Definition get {G} : M G G := fun s => (Ret (glob s), s).

Definition put {G} (g : G) : M G unit :=
  fun s => (Ret tt, Sys g (wld s) (trace s)).

Definition modify {G} (f : G -> G) : M G unit :=
  fun s => (Ret tt, Sys (f (glob s)) (wld s) (trace s)).

Definition call {G X} (c : cmd X) : M G X :=
  fun s => let '(r, w') := handle c (wld s) in
           (Ret r, Sys (glob s) w' (Ev c r :: trace s)).

(** A call whose result the source ignores. *)
Definition call_ {G X} (c : cmd X) : M G unit := _ <- call c ;; ret tt.

(** [ESP_ERROR_CHECK(m)]: any error aborts the program. *)
Definition esp_error_check {G} (m : M G Z) : M G unit :=
  e <- m ;; if is_ok e then ret tt else halt ExAbort.
End Machine.

(** ** Components inside a larger program *)

(** A component's globals as a field of the caller's. *)
Record lens (G L : Type) := Lens {
  lget : G -> L;
  lset : L -> G -> G
}.
Arguments Lens {G L}.
Arguments lget {G L}.
Arguments lset {G L}.

Class LensLaws {G L} (l : lens G L) := {
  lget_lset : forall a g, lget l (lset l a g) = a;
  lset_lget : forall g, lset l (lget l g) g = g;
  lset_lset : forall a b g, lset l a (lset l b g) = lset l a g
}.

(** Run a component's operation on its field. *)
Definition zoom `{Env} {G L A} (l : lens G L) (m : M L A) : M G A :=
  fun s =>
    let '(o, s') := m (Sys (lget l (glob s)) (wld s) (trace s)) in
    (o, Sys (lset l (glob s') (glob s)) (wld s') (trace s')).

(** A field of a field. *)
Definition lens_comp {G L K} (l : lens G L) (k : lens L K) : lens G K :=
  Lens (fun g => lget k (lget l g)) (fun a g => lset l (lset k a (lget l g)) g).
