(* ===== verification/Logic.v ===== *)
(** * The program logic of the machine monad

    [wp] is the weakest precondition of a computation of [Idf.M]; [uses cs m]
    says that [m] makes only calls of the classes [cs], whatever the platform
    answers, so that everything the other classes determine (the NVS contents,
    the live HTTP clients, the boot partition, ...) is framed for free. *)

From S2P Require Import Prelude Idf.

(** ** Classes of calls *)

Inductive cls := CNvs | CFlash | CErase | CWifi | CEvents | CLedc | CMutex | CSem | CTask
               | CDelay | CGpio | CSd | CHeap | CHttp | CRecv | CIo | CSys.

#[export] Instance cls_eq_dec : EqDecision cls.
Proof. solve_decision. Defined.

Definition class_of {X} (c : cmd X) : cls :=
  match c with
  | NvsFlashInit => CFlash
  | NvsFlashErase => CErase
  | NvsOpen _ _ | NvsClose _ | NvsEraseAll _ | NvsCommit _ | NvsGetU8 _ _
  | NvsSetU8 _ _ _ | NvsGetU32 _ _ | NvsSetU32 _ _ _ | NvsGetStr _ _ _
  | NvsSetStr _ _ _ => CNvs
  | EspNetifInit | EspEventLoopCreateDefault | EspNetifCreateDefaultWifiSta
  | EspWifiInit | EspEventHandlerRegister _ | EspWifiSetModeSta | EspWifiSetPsNone
  | EspWifiSetBandwidthHt40 | EspWifiSetProtocolBgn | EspWifiStart
  | EspWifiConnect | EspWifiDisconnect | EspWifiSetConfig _ _ | EspWifiStaGetApInfo
  | EspWifiScanStart _ | EspWifiScanGetApRecords _ => CWifi
  | PollEvents | WaitEvents _ => CEvents
  | LedcTimerConfig _ | LedcChannelConfig _ _ _ | LedcSetDuty _ _
  | LedcUpdateDuty _ => CLedc
  | MutexCreateRecursive | MutexTakeRecursive | MutexGiveRecursive => CMutex
  | SemCreateBinary | SemDelete _ | SemGive _ | SemTake _ => CSem
  | TaskCreatePinned _ _ _ _ | TaskDelete | TaskIsCurrent _ | TaskGetTickCount => CTask
  | VTaskDelay _ | VTaskDelayUntil _ => CDelay
  | GpioConfig _ _ _ | GpioSetLevel _ _ | EtsDelayUs _ => CGpio
  | SpiBusInitialize | SpiBusFree | SdspiMount _ _ | SdcardUnmount _ _
  | SetCardClk _ _ => CSd
  | HeapMallocPsram _ | HeapFree _ => CHeap
  | HttpInit _ | HttpSetUrl _ _ | HttpOpen _ | HttpPerform _ | HttpClose _
  | HttpCleanup _ => CHttp
  | HttpFetchHeaders _ | HttpGetStatusCode _ | HttpRead _ _ => CRecv
  | IoOpen _ | IoWrite _ | IoDrain _ | IoRead _ | IoTell _ | IoStat _ | IoMkdir _
  | IoOpendir _ | IoUnlink _ | IoRmdir _ | IoRename _ _ => CIo
  | EspLogLevelSet _ | EspPartitionFindFirst _ | EspOtaSetBootPartition _
  | EspOtaGetRunningPartition => CSys
  end.

Definition ev_class (e : event) : cls := match e with Ev c _ => class_of c end.

Section Wp.
Context `{Env}.

(** ** Weakest preconditions *)

Definition wp {G A} (m : M G A) (Q : outcome A -> sys G -> Prop) (s : sys G) : Prop :=
  Q (fst (m s)) (snd (m s)).

Lemma wp_mono {G A} (m : M G A) (P Q : outcome A -> sys G -> Prop) s :
  wp m P s -> (forall o s', P o s' -> Q o s') -> wp m Q s.
Proof. unfold wp. auto. Qed.

Lemma wp_conj {G A} (m : M G A) (P Q : outcome A -> sys G -> Prop) s :
  wp m P s -> wp m Q s -> wp m (fun o s' => P o s' /\ Q o s') s.
Proof. by split. Qed.

(** What holds of the outcome of a concrete run. *)
Lemma wp_at {G A} (m : M G A) (Q : outcome A -> sys G -> Prop) s o :
  wp m Q s -> fst (m s) = o -> Q o (snd (m s)).
Proof. by intros Hw <-. Qed.

Lemma wp_ret {G A} (a : A) (Q : outcome A -> sys G -> Prop) s :
  Q (Ret a) s -> wp (ret a) Q s.
Proof. done. Qed.

Lemma wp_halt {G A} x (Q : outcome A -> sys G -> Prop) s :
  Q (Halt x) s -> wp (halt x) Q s.
Proof. done. Qed.

Lemma wp_get {G} (Q : outcome G -> sys G -> Prop) s :
  Q (Ret (glob s)) s -> wp get Q s.
Proof. done. Qed.

Lemma wp_put {G} g (Q : outcome unit -> sys G -> Prop) s :
  Q (Ret tt) (Sys g (wld s) (trace s)) -> wp (put g) Q s.
Proof. done. Qed.

Lemma wp_modify {G} f (Q : outcome unit -> sys G -> Prop) s :
  Q (Ret tt) (Sys (f (glob s)) (wld s) (trace s)) -> wp (modify f) Q s.
Proof. done. Qed.

Lemma wp_bind {G A B} (m : M G A) (k : A -> M G B) Q s :
  wp m (fun o s' => match o with Ret a => wp (k a) Q s' | Halt x => Q (Halt x) s' end) s ->
  wp (bind m k) Q s.
Proof.
  unfold wp; simpl. unfold m_bind. by destruct (m s) as [[a|x] s'].
Qed.

Lemma wp_call {G X} (c : cmd X) (Q : outcome X -> sys G -> Prop) s :
  (forall r w', handle c (wld s) = (r, w') ->
     Q (Ret r) (Sys (glob s) w' (Ev c r :: trace s))) ->
  wp (call c) Q s.
Proof.
  intros HQ. unfold wp, call. destruct (handle c (wld s)) as [r w'] eqn:E.
  simpl. by apply HQ.
Qed.

Lemma wp_call_ {G X} (c : cmd X) (Q : outcome unit -> sys G -> Prop) s :
  (forall r w', handle c (wld s) = (r, w') ->
     Q (Ret tt) (Sys (glob s) w' (Ev c r :: trace s))) ->
  wp (call_ c) Q s.
Proof. intros HQ. apply wp_bind, wp_call. intros. apply wp_ret. by apply HQ. Qed.

Lemma wp_zoom {G L A} (l : lens G L) (m : M L A) Q s :
  wp m (fun o s' => Q o (Sys (lset l (glob s') (glob s)) (wld s') (trace s')))
     (Sys (lget l (glob s)) (wld s) (trace s)) ->
  wp (zoom l m) Q s.
Proof.
  unfold wp, zoom. by destruct (m _) as [o s'].
Qed.

Lemma wp_check {G} (m : M G Z) Q s :
  wp m (fun o s' => match o with
                    | Ret e => if is_ok e then Q (Ret tt) s' else Q (Halt ExAbort) s'
                    | Halt x => Q (Halt x) s'
                    end) s ->
  wp (esp_error_check m) Q s.
Proof.
  intros Hm. apply wp_bind. eapply wp_mono; [exact Hm|]. intros [e|x] s'; [|done].
  simpl. by destruct (is_ok e).
Qed.

Lemma wp_when {G} c (m : M G unit) Q s :
  (c = true -> wp m Q s) -> (c = false -> Q (Ret tt) s) -> wp (when c m) Q s.
Proof. unfold when. destruct c; intros; [auto|]. apply wp_ret; auto. Qed.

(** ** Frames *)

(** What the world and the trace go through in a run that makes only calls of
    the classes [cs]: any preorder those calls respect relates the two ends. *)
Definition wt : Type := world * list event.

Definition respects (cs : list cls) (R : wt -> wt -> Prop) : Prop :=
  PreOrder R /\
  forall X (c : cmd X) w tr r w', class_of c ∈ cs -> handle c w = (r, w') ->
    R (w, tr) (w', Ev c r :: tr).

Definition uses {G A} (cs : list cls) (m : M G A) : Prop :=
  forall R, respects cs R -> forall s,
    R (wld s, trace s) (wld (snd (m s)), trace (snd (m s))).

Lemma uses_ret {G A} cs (a : A) : uses (G:=G) cs (ret a).
Proof. intros R [HR _] s. reflexivity. Qed.

Lemma uses_halt {G A} cs x : uses (G:=G) (A:=A) cs (halt x).
Proof. intros R [HR _] s. reflexivity. Qed.

Lemma uses_get {G} cs : uses (G:=G) cs get.
Proof. intros R [HR _] s. reflexivity. Qed.

Lemma uses_put {G} cs (g : G) : uses cs (put g).
Proof. intros R [HR _] s. reflexivity. Qed.

Lemma uses_modify {G} cs (f : G -> G) : uses cs (modify f).
Proof. intros R [HR _] s. reflexivity. Qed.

Lemma uses_call {G X} cs (c : cmd X) : class_of c ∈ cs -> uses (G:=G) cs (call c).
Proof.
  intros Hc R [HR HC] s. unfold call.
  destruct (handle c (wld s)) as [r w'] eqn:E. simpl. eauto.
Qed.

Lemma uses_bind {G A B} cs (m : M G A) (k : A -> M G B) :
  uses cs m -> (forall a, uses cs (k a)) -> uses cs (bind m k).
Proof.
  intros Hm Hk R HR s. destruct HR as [HP HC]. simpl. unfold m_bind.
  specialize (Hm R (conj HP HC) s). destruct (m s) as [[a|x] s']; simpl in *; [|done].
  etransitivity; [exact Hm|]. apply Hk. by split.
Qed.

Lemma uses_call_ {G X} cs (c : cmd X) : class_of c ∈ cs -> uses (G:=G) cs (call_ c).
Proof. intros. apply uses_bind; [by apply uses_call|]. intros. apply uses_ret. Qed.

Lemma uses_weaken {G A} cs cs' (m : M G A) : cs ⊆ cs' -> uses cs m -> uses cs' m.
Proof. intros Hs Hm R [HP HC]. apply Hm. split; [done|]. eauto. Qed.

Lemma uses_zoom {G L A} cs (l : lens G L) (m : M L A) : uses cs m -> uses cs (zoom l m).
Proof.
  intros Hm R HR s. unfold zoom.
  specialize (Hm R HR (Sys (lget l (glob s)) (wld s) (trace s))).
  by destruct (m _).
Qed.

Lemma uses_check {G} cs (m : M G Z) : uses cs m -> uses cs (esp_error_check m).
Proof.
  intros. apply uses_bind; [done|]. intros e.
  destruct (is_ok e); [apply uses_ret|apply uses_halt].
Qed.

Lemma uses_when {G} cs c (m : M G unit) : uses cs m -> uses cs (when c m).
Proof. intros. unfold when. destruct c; [done|apply uses_ret]. Qed.

Lemma uses_for_each {G A} cs (l : list A) (body : A -> M G unit) :
  (forall a, uses cs (body a)) -> uses cs (for_each l body).
Proof.
  intros Hb. induction l; simpl; [apply uses_ret|]. apply uses_bind; auto.
Qed.

Lemma uses_repeat {G} cs n (body : M G unit) : uses cs body -> uses cs (repeat_m n body).
Proof.
  intros Hb. induction n; simpl; [apply uses_ret|]. apply uses_bind; auto.
Qed.

(** The events a [uses cs] computation adds are all of those classes. *)
Lemma uses_events {G A} cs (m : M G A) s : uses cs m ->
  exists t, trace (snd (m s)) = t ++ trace s /\ Forall (fun e => ev_class e ∈ cs) t.
Proof.
  intros Hm.
  apply (Hm (fun a b => exists t, b.2 = t ++ a.2 /\ Forall (fun e => ev_class e ∈ cs) t)).
  split; [split|].
  - intros [w tr]. exists []. auto.
  - intros [w tr] [w2 tr2] [w3 tr3] (t & -> & Ht) (t' & -> & Ht'). exists (t' ++ t).
    rewrite <- app_assoc. split; [done|]. by apply Forall_app.
  - intros X c w tr r w' Hc _. exists [Ev c r]. simpl. auto.
Qed.
End Wp.

(** ** What happens to the globals *)

Section Moves.
Context `{Env}.

(** Every run of [m], whatever the platform answers and however it ends, moves
    the globals along the preorder [R]. *)
Definition moves {G A} (R : G -> G -> Prop) (m : M G A) : Prop :=
  forall s, R (glob s) (glob (snd (m s))).

Context {G : Type} (R : G -> G -> Prop) {HR : PreOrder R}.

Lemma moves_ret {A} (a : A) : moves R (ret a).
Proof. intros s. reflexivity. Qed.

Lemma moves_halt {A} x : moves R (halt (A:=A) x).
Proof. intros s. reflexivity. Qed.

Lemma moves_get : moves R get.
Proof. intros s. reflexivity. Qed.

Lemma moves_call {X} (c : cmd X) : moves R (call c).
Proof. intros s. unfold call. destruct (handle c (wld s)). reflexivity. Qed.

Lemma moves_modify f : (forall g, R g (f g)) -> moves R (modify f).
Proof. intros Hf s. apply Hf. Qed.

Lemma moves_bind {A B} (m : M G A) (k : A -> M G B) :
  moves R m -> (forall a, moves R (k a)) -> moves R (bind m k).
Proof.
  intros Hm Hk s. simpl. unfold m_bind. specialize (Hm s).
  destruct (m s) as [[a|x] s']; simpl in *; [|done]. etransitivity; [exact Hm|apply Hk].
Qed.

(** Reading the globals: the rest may rely on what it read. *)
Lemma moves_get_bind {B} (k : G -> M G B) :
  (forall s, R (glob s) (glob (snd (k (glob s) s)))) -> moves R (bind get k).
Proof. intros Hk s. apply Hk. Qed.

Lemma moves_call_ {X} (c : cmd X) : moves R (call_ c).
Proof. apply moves_bind; [apply moves_call|]. intros. apply moves_ret. Qed.

Lemma moves_when c (m : M G unit) : moves R m -> moves R (when c m).
Proof. intros. destruct c; [done|apply moves_ret]. Qed.

Lemma moves_check (m : M G Z) : moves R m -> moves R (esp_error_check m).
Proof.
  intros. apply moves_bind; [done|]. intros e.
  destruct (is_ok e); [apply moves_ret|apply moves_halt].
Qed.

Lemma moves_for_each {A} (l : list A) (body : A -> M G unit) :
  (forall a, moves R (body a)) -> moves R (for_each l body).
Proof. intros Hb. induction l; simpl; [apply moves_ret|]. by apply moves_bind. Qed.

Lemma moves_repeat n (body : M G unit) : moves R body -> moves R (repeat_m n body).
Proof. intros Hb. induction n; simpl; [apply moves_ret|]. by apply moves_bind. Qed.

Lemma moves_zoom {L A} (l : lens G L) (RL : L -> L -> Prop) (m : M L A) :
  moves RL m -> (forall g b, RL (lget l g) b -> R g (lset l b g)) -> moves R (zoom l m).
Proof.
  intros Hm Hl s. unfold zoom.
  specialize (Hm (Sys (lget l (glob s)) (wld s) (trace s))).
  destruct (m _) as [o s']. simpl in *. auto.
Qed.

(** A [moves] fact strengthens any postcondition. *)
Lemma wp_moves {A} (m : M G A) Q s :
  moves R m -> wp m (fun o s' => R (glob s) (glob s') -> Q o s') s -> wp m Q s.
Proof. intros Hm Hw. apply Hw, Hm. Qed.
End Moves.

(** ** How a computation stops *)

Section Stops.
Context `{Env}.

(** Every run of [m] returns or halts for a reason in [P]. *)
Definition stops {G A} (P : exit -> Prop) (m : M G A) : Prop :=
  forall s, match fst (m s) with Ret _ => True | Halt x => P x end.

Context (P : exit -> Prop).

Lemma stops_ret {G A} (a : A) : stops P (ret (m:=M G) a).
Proof. done. Qed.

Lemma stops_halt {G A} x : P x -> stops P (halt (G:=G) (A:=A) x).
Proof. by intros ??. Qed.

Lemma stops_get {G} : stops P (get (G:=G)).
Proof. done. Qed.

Lemma stops_put {G} (g : G) : stops P (put g).
Proof. done. Qed.

Lemma stops_modify {G} (f : G -> G) : stops P (modify f).
Proof. done. Qed.

Lemma stops_call {G X} (c : cmd X) : stops P (call (G:=G) c).
Proof. intros s. unfold call. by destruct (handle c (wld s)). Qed.

Lemma stops_bind {G A B} (m : M G A) (k : A -> M G B) :
  stops P m -> (forall a, stops P (k a)) -> stops P (bind m k).
Proof.
  intros Hm Hk s. specialize (Hm s). simpl. unfold m_bind.
  destruct (m s) as [[a|x] s']; [apply Hk|exact Hm].
Qed.

Lemma stops_call_ {G X} (c : cmd X) : stops P (call_ (G:=G) c).
Proof. apply stops_bind; [apply stops_call|]. intros. apply stops_ret. Qed.

Lemma stops_when {G} c (m : M G unit) : stops P m -> stops P (when c m).
Proof. by destruct c. Qed.

Lemma stops_check {G} (m : M G Z) : stops P m -> P ExAbort -> stops P (esp_error_check m).
Proof.
  intros Hm Hx. apply stops_bind; [done|]. intros e.
  destruct (is_ok e); [apply stops_ret|by apply stops_halt].
Qed.

Lemma stops_for_each {G A} (l : list A) (body : A -> M G unit) :
  (forall a, stops P (body a)) -> stops P (for_each l body).
Proof. intros Hb. induction l; simpl; [apply stops_ret|]. by apply stops_bind. Qed.

Lemma stops_repeat {G} n (body : M G unit) : stops P body -> stops P (repeat_m n body).
Proof. intros Hb. induction n; simpl; [apply stops_ret|]. by apply stops_bind. Qed.

Lemma stops_zoom {G L A} (l : lens G L) (m : M L A) : stops P m -> stops P (zoom l m).
Proof.
  intros Hm s. unfold zoom. specialize (Hm (Sys (lget l (glob s)) (wld s) (trace s))).
  by destruct (m _).
Qed.

Lemma wp_stops {G A} (m : M G A) Q s :
  stops P m ->
  wp m (fun o s' => match o with Ret _ => True | Halt x => P x end -> Q o s') s -> wp m Q s.
Proof. intros Hm Hw. apply Hw, Hm. Qed.
End Stops.

Lemma stops_mono `{Env} {G A} (P Q : exit -> Prop) (m : M G A) :
  (forall x, P x -> Q x) -> stops P m -> stops Q m.
Proof. intros HPQ Hm s. specialize (Hm s). destruct (fst (m s)); auto. Qed.

(** ** Automation *)

(** Membership and inclusion of class lists, by evaluation. *)
Definition cls_mem (c : cls) (cs : list cls) : bool := bool_decide (c ∈ cs).

Lemma cls_mem_elem c cs : cls_mem c cs = true -> c ∈ cs.
Proof. apply bool_decide_eq_true_1. Qed.

Lemma cls_subset cs cs' : forallb (fun c => cls_mem c cs') cs = true -> cs ⊆ cs'.
Proof.
  intros Hf c Hc. apply cls_mem_elem. rewrite forallb_forall in Hf. apply Hf.
  by apply list_elem_of_In.
Qed.

Create HintDb uses.
#[export] Hint Resolve uses_ret uses_halt uses_get uses_put uses_modify : uses.


(** Decide [uses cs m] by the structure of [m]; calls of other components'
    operations are found in the hint database. *)
Ltac uses_step :=
  lazymatch goal with
  | |- uses _ (bind _ _) => apply uses_bind; [|intro]
  | |- uses _ (call _) => apply uses_call, cls_mem_elem; reflexivity
  | |- uses _ (call_ _) => apply uses_call_, cls_mem_elem; reflexivity
  | |- uses _ (ret _) => apply uses_ret
  | |- uses _ (halt _) => apply uses_halt
  | |- uses _ get => apply uses_get
  | |- uses _ (put _) => apply uses_put
  | |- uses _ (modify _) => apply uses_modify
  | |- uses _ (when _ _) => apply uses_when
  | |- uses _ (esp_error_check _) => apply uses_check
  | |- uses _ (for_each _ _) => apply uses_for_each; intro; cbv beta
  | |- uses _ (repeat_m _ _) => apply uses_repeat
  | |- uses _ (match ?x with _ => _ end) => destruct x
  | |- uses _ (zoom _ _) => apply uses_zoom
  | |- uses _ _ => first [ solve [eauto with uses]
                         | eapply uses_weaken; [|solve [eauto with uses]];
                           apply cls_subset; reflexivity ]
  end.
Ltac uses_auto := repeat uses_step.

(** One step of symbolic execution of the [wp] goal. *)
Ltac wp_step :=
  lazymatch goal with
  | |- wp (bind _ _) _ _ => apply wp_bind
  | |- wp (ret _) _ _ => apply wp_ret
  | |- wp (halt _) _ _ => apply wp_halt
  | |- wp get _ _ => apply wp_get
  | |- wp (put _) _ _ => apply wp_put
  | |- wp (modify _) _ _ => apply wp_modify
  | |- wp (call _) _ _ => apply wp_call; intros ? ? ?
  | |- wp (call_ _) _ _ => apply wp_call_; intros ? ? ?
  | |- wp (when _ _) _ _ => apply wp_when; intros ?
  | |- wp (esp_error_check _) _ _ => apply wp_check
  | |- wp (zoom _ _) _ _ => apply wp_zoom
  end.
Ltac wp_steps := repeat (wp_step; cbn beta iota zeta; simpl glob; simpl wld; simpl trace).

Create HintDb moves.
#[export] Hint Extern 0 (PreOrder _) => typeclasses eauto : moves.

(** Decide [moves R m] by the structure of [m]; what remains are the updates of
    the globals and the operations not in the hint database. *)
Ltac moves_step :=
  lazymatch goal with
  | |- moves _ (bind _ _) => apply moves_bind; [typeclasses eauto| |intro]
  | |- moves _ (call _) => apply moves_call; typeclasses eauto
  | |- moves _ (call_ _) => apply moves_call_; typeclasses eauto
  | |- moves _ (ret _) => apply moves_ret; typeclasses eauto
  | |- moves _ (halt _) => apply moves_halt; typeclasses eauto
  | |- moves _ get => apply moves_get; typeclasses eauto
  | |- moves _ (when _ _) => apply moves_when; [typeclasses eauto|]
  | |- moves _ (esp_error_check _) => apply moves_check; [typeclasses eauto|]
  | |- moves _ (for_each _ _) => apply moves_for_each; [typeclasses eauto|intro; cbv beta]
  | |- moves _ (repeat_m _ _) => apply moves_repeat; [typeclasses eauto|]
  | |- moves _ (match ?x with _ => _ end) => destruct x
  | |- moves _ _ => solve [eauto with moves]
  end.
Ltac moves_auto := repeat moves_step.

Create HintDb stops.

(** Decide [stops P m] by the structure of [m]; the reasons that remain to be
    in [P] are tried by computation. *)
Ltac stops_step :=
  lazymatch goal with
  | |- stops _ (bind _ _) => apply stops_bind; [|intro]
  | |- stops _ (call _) => apply stops_call
  | |- stops _ (call_ _) => apply stops_call_
  | |- stops _ (ret _) => apply stops_ret
  | |- stops _ (halt _) => apply stops_halt; first [reflexivity | done]
  | |- stops _ get => apply stops_get
  | |- stops _ (put _) => apply stops_put
  | |- stops _ (modify _) => apply stops_modify
  | |- stops _ (when _ _) => apply stops_when
  | |- stops _ (esp_error_check _) => apply stops_check; [|first [reflexivity | done]]
  | |- stops _ (for_each _ _) => apply stops_for_each; intro; cbv beta
  | |- stops _ (repeat_m _ _) => apply stops_repeat
  | |- stops _ (zoom _ _) => apply stops_zoom
  | |- stops _ (match ?x with _ => _ end) => destruct x
  | |- stops _ _ => solve [eauto with stops]
  end.
Ltac stops_auto := repeat stops_step.
