(* ===== verification/CLib.v ===== *)
(** * C strings and buffers

    The part of the C standard library the sources use on [char] arrays:
    fixed-size buffers are lists of characters of constant length, a C string
    is the part of a buffer before its first NUL. *)

From S2P Require Import Prelude.

Abbreviation char := ascii.
Definition NUL : char := "000"%char.

(** The C string a buffer holds: everything before the first NUL. *)
Fixpoint cstr (b : list char) : string :=
  match b with
  | [] => EmptyString
  | c :: b' => if Ascii.eqb c NUL then EmptyString else String c (cstr b')
  end.

(** A C string holds no NUL. *)
Fixpoint no_nul (s : string) : bool :=
  match s with
  | EmptyString => true
  | String c s' => negb (Ascii.eqb c NUL) && no_nul s'
  end.

Definition chars (s : string) : list char := list_ascii_of_string s.

(** [memset(b, 0, n)] *)
Definition zeros (n : nat) : list char := replicate n NUL.

(** [strncpy(dst, src, n)]: the characters of [src] up to [n] of them, padded
    with NULs to [n]; what follows the first [n] bytes of [dst] is kept. *)
Definition strncpy (dst : list char) (src : string) (n : nat) : list char :=
  take n (chars src ++ zeros n) ++ drop n dst.

(** [dst[i] = c] *)
Definition set_char (dst : list char) (i : nat) (c : char) : list char := <[i := c]> dst.

(** What a successful [nvs_get_str] leaves in the caller's buffer: the string
    and its terminator over the front of it. *)
Definition put_cstr (dst : list char) (s : string) : list char :=
  (chars s ++ [NUL]) ++ drop (S (String.length s)) dst.

(** [strlen] of a buffer *)
Definition strlen (b : list char) : nat := String.length (cstr b).

(** [strcmp(a, b) == 0] *)
Definition strcmp_eq (a b : string) : bool := String.eqb a b.

(** Decimal digits of a small natural number, for the [%d] of [snprintf]. *)
Definition digit (n : Z) : string :=
  String (ascii_of_nat (48 + Z.to_nat n)) EmptyString.

(** [snprintf(key, 32, "%s%d", prefix, i)] for [0 <= i <= 9], the only values
    the sources format. *)
Definition snprintf_key (prefix : string) (i : Z) : string := (prefix ++ digit i)%string.

(** The value of an [unsigned char]. *)
Definition bval (c : char) : Z := Z.of_N (N_of_ascii c).

Lemma bval_range c : 0 <= bval c < 256.
Proof. destruct c as [[] [] [] [] [] [] [] []]; vm_compute; split; congruence. Qed.

(** ** Facts about buffers *)

Lemma length_chars s : length (chars s) = String.length s.
Proof. induction s; simpl; auto. Qed.

Lemma chars_app s t : chars (s ++ t)%string = chars s ++ chars t.
Proof. induction s; simpl; congruence. Qed.

Lemma string_of_chars s : string_of_list_ascii (chars s) = s.
Proof. apply string_of_list_ascii_of_string. Qed.

Lemma chars_inj s t : chars s = chars t -> s = t.
Proof. intros E. rewrite <- (string_of_chars s), E. apply string_of_chars. Qed.

Lemma length_app_string (s t : string) :
  String.length (s ++ t) = (String.length s + String.length t)%nat.
Proof. by rewrite <- !length_chars, chars_app, length_app. Qed.

Lemma app_assoc_string (a b c : string) : ((a ++ b) ++ c = a ++ (b ++ c))%string.
Proof. apply chars_inj. by rewrite !chars_app, app_assoc. Qed.

Lemma app_nil_string (a : string) : (a ++ "")%string = a.
Proof. apply chars_inj. by rewrite chars_app, app_nil_r. Qed.

Lemma length_strncpy dst src n :
  (n <= length dst)%nat -> length (strncpy dst src n) = length dst.
Proof.
  intros. unfold strncpy, zeros.
  rewrite length_app, length_take, length_app, length_replicate, length_drop. lia.
Qed.

Lemma length_put_cstr dst s :
  (S (String.length s) <= length dst)%nat -> length (put_cstr dst s) = length dst.
Proof.
  intros. unfold put_cstr. rewrite !length_app, length_drop, length_chars. simpl. lia.
Qed.

Lemma length_set_char dst i c : length (set_char dst i c) = length dst.
Proof. apply length_insert. Qed.

(** A terminated copy of a string reads back as that string. *)
Lemma cstr_chars_nul s rest : no_nul s = true -> cstr (chars s ++ NUL :: rest) = s.
Proof.
  induction s as [|c s IH]; simpl; [done|].
  intros Hn. apply andb_prop in Hn as [Hc Hs]. apply negb_true_iff in Hc.
  rewrite Hc. f_equal. auto.
Qed.

Lemma cstr_put_cstr dst s : no_nul s = true -> cstr (put_cstr dst s) = s.
Proof. intros. unfold put_cstr. rewrite <- app_assoc. by apply cstr_chars_nul. Qed.

Lemma cstr_zeros n : cstr (zeros n) = EmptyString.
Proof. by destruct n. Qed.

Lemma no_nul_cstr b : no_nul (cstr b) = true.
Proof.
  induction b as [|c b IH]; simpl; [done|].
  destruct (Ascii.eqb c NUL) eqn:E; simpl; [done|]. by rewrite E.
Qed.

(** The first [n] characters of a string. *)
Definition truncate (n : nat) (s : string) : string := substring 0 n s.

Lemma chars_truncate n s : chars (truncate n s) = take n (chars s).
Proof.
  unfold truncate. revert n. induction s as [|c s IH]; intros [|n]; simpl; try done.
  by rewrite <- IH.
Qed.

Lemma no_nul_truncate n s : no_nul s = true -> no_nul (truncate n s) = true.
Proof.
  unfold truncate. revert n. induction s as [|c s IH]; intros [|n]; simpl; try done.
  intros Hn. apply andb_prop in Hn as [-> Hs]. simpl. auto.
Qed.

Lemma truncate_all n s : (String.length s <= n)%nat -> truncate n s = s.
Proof.
  intros. apply chars_inj. rewrite chars_truncate. apply take_ge.
  rewrite length_chars. lia.
Qed.

Lemma length_truncate n s : String.length (truncate n s) = Nat.min n (String.length s).
Proof. rewrite <- length_chars, chars_truncate, length_take, length_chars. lia. Qed.

(** The source's idiom [strncpy(d, s, sizeof d - 1); d[sizeof d - 1] = 0]
    stores the string cut to the buffer's size minus one. *)
Lemma cstr_strncpy_term dst src n :
  length dst = S n -> no_nul src = true ->
  cstr (set_char (strncpy dst src n) n NUL) = truncate n src.
Proof.
  intros Hl Hn. unfold set_char, strncpy.
  assert (Hr : <[n:=NUL]> (take n (chars src ++ zeros n) ++ drop n dst)
               = take n (chars src ++ zeros n) ++ [NUL]).
  { rewrite insert_app_r_alt.
    - rewrite length_take, length_app. unfold zeros. rewrite length_replicate.
      replace (n - _)%nat with O by lia.
      destruct (drop n dst) as [|x [|y l]] eqn:E; [|done|];
        apply (f_equal length) in E; rewrite length_drop in E; simpl in E; lia.
    - rewrite length_take, length_app. unfold zeros. rewrite length_replicate. lia. }
  rewrite Hr. clear Hr. destruct (decide (n <= String.length src)%nat).
  - rewrite take_app_le by (rewrite length_chars; lia).
    rewrite <- chars_truncate. apply cstr_chars_nul. by apply no_nul_truncate.
  - rewrite take_app_ge by (rewrite length_chars; lia).
    rewrite length_chars. unfold zeros. rewrite take_replicate.
    rewrite truncate_all by lia. rewrite <- app_assoc.
    replace (n `min` n)%nat with n by lia.
    destruct (Nat.min (n - String.length src) n) as [|k] eqn:E; [lia|]. simpl.
    by apply cstr_chars_nul.
Qed.

(** [strncpy] into a larger zero-filled buffer keeps the string terminated. *)
Lemma cstr_strncpy_zeros m src n :
  (n < m)%nat -> no_nul src = true ->
  cstr (strncpy (zeros m) src n) = truncate n src.
Proof.
  intros Hl Hn. unfold strncpy, zeros. rewrite drop_replicate.
  destruct (decide (n <= String.length src)%nat).
  - rewrite take_app_le by (rewrite length_chars; lia).
    rewrite <- chars_truncate. destruct (m - n)%nat eqn:E; [lia|]. simpl.
    apply cstr_chars_nul. by apply no_nul_truncate.
  - rewrite take_app_ge by (rewrite length_chars; lia).
    rewrite length_chars, take_replicate, truncate_all by lia. rewrite <- app_assoc.
    destruct (Nat.min (n - String.length src) n) as [|k] eqn:E; [lia|]. simpl.
    by apply cstr_chars_nul.
Qed.

(** [strncpy] into a zeroed field that holds the string exactly. *)
Lemma cstr_strncpy_nul m src :
  (String.length src <= m)%nat -> no_nul src = true ->
  cstr (strncpy (zeros m) src m ++ [NUL]) = src.
Proof.
  intros Hl Hn. unfold strncpy, zeros. rewrite drop_replicate, Nat.sub_diag, app_nil_r.
  rewrite take_app_ge by (rewrite length_chars; lia).
  rewrite length_chars, take_replicate, <- app_assoc.
  destruct (Nat.min (m - String.length src) m); simpl; by apply cstr_chars_nul.
Qed.

Create HintDb cstr.
#[export] Hint Resolve no_nul_cstr no_nul_truncate : cstr.
