(* ===== verification/Protocol.v ===== *)
(** * Shared constants

    [simibox_nvs_protocol.h]: the NVS namespace, keys, boot reasons and error
    codes the three firmwares agree on; [downloader_config.h]: the build-time
    settings of the downloader, as functions of its one switch
    [DOWNLOADER_DEV_MODE]. *)

From S2P Require Import Prelude.
#[local] Open Scope string_scope.
#[local] Open Scope Z_scope.

(** ** NVS protocol *)

Definition SIMIBOX_NVS_NAMESPACE : string := "bootmgr".

Definition NVS_KEY_REASON : string := "reason".
Definition NVS_KEY_FOLDER : string := "folder".
Definition NVS_KEY_RETRY : string := "retry".
Definition NVS_KEY_ERROR : string := "error".
Definition NVS_KEY_PROGRESS : string := "progress".
Definition NVS_KEY_SIZE : string := "size".
Definition NVS_KEY_VOLUME : string := "volume".
Definition NVS_KEY_MAX_VOL : string := "maxvol".
Definition NVS_KEY_SSID : string := "ssid".
Definition NVS_KEY_BOOT_COUNT : string := "boot_cnt".

Inductive boot_reason_t :=
| BOOT_REASON_NORMAL
| BOOT_REASON_DOWNLOAD_REQUEST
| BOOT_REASON_DOWNLOAD_SUCCESS
| BOOT_REASON_DOWNLOAD_FAILED
| BOOT_REASON_FACTORY_RESET.

(** The integer an enumerator stands for. *)
Definition boot_reason_code (r : boot_reason_t) : Z :=
  match r with
  | BOOT_REASON_NORMAL => 0
  | BOOT_REASON_DOWNLOAD_REQUEST => 1
  | BOOT_REASON_DOWNLOAD_SUCCESS => 2
  | BOOT_REASON_DOWNLOAD_FAILED => 3
  | BOOT_REASON_FACTORY_RESET => 4
  end.
Coercion boot_reason_code : boot_reason_t >-> Z.

Inductive download_error_t :=
| DOWNLOAD_ERROR_NONE
| DOWNLOAD_ERROR_WIFI_CONNECT
| DOWNLOAD_ERROR_SERVER_UNREACHABLE
| DOWNLOAD_ERROR_DOWNLOAD_FAILED
| DOWNLOAD_ERROR_VERIFICATION_FAILED
| DOWNLOAD_ERROR_SD_CARD
| DOWNLOAD_ERROR_TIMEOUT.

Definition download_error_code (e : download_error_t) : Z :=
  match e with
  | DOWNLOAD_ERROR_NONE => 0
  | DOWNLOAD_ERROR_WIFI_CONNECT => 1
  | DOWNLOAD_ERROR_SERVER_UNREACHABLE => 2
  | DOWNLOAD_ERROR_DOWNLOAD_FAILED => 3
  | DOWNLOAD_ERROR_VERIFICATION_FAILED => 4
  | DOWNLOAD_ERROR_SD_CARD => 5
  | DOWNLOAD_ERROR_TIMEOUT => 6
  end.
Coercion download_error_code : download_error_t >-> Z.

Definition MUSICBOX_PARTITION_LABEL : string := "musicbox".

Definition MAX_DOWNLOAD_RETRIES : Z := 3.
Definition MAX_BOOT_FAILURES : Z := 5.

Definition SIMIBOX_NEEDS_DOWNLOAD (reason : Z) : bool :=
  reason =? BOOT_REASON_DOWNLOAD_REQUEST.

Definition SIMIBOX_DOWNLOAD_COMPLETED (reason : Z) : bool :=
  (reason =? BOOT_REASON_DOWNLOAD_SUCCESS) || (reason =? BOOT_REASON_DOWNLOAD_FAILED).

(** ** Downloader configuration *)

Definition TEST_FOLDER : string := "mozart".
Definition TEST_WIFI_SSID : string := "Parcela 41".
Definition TEST_WIFI_PASS : string := "parcela41wifi".

Definition SD_SPI_FREQ_KHZ : Z := 10000.
Definition HTTP_REUSE_CONNECTION : bool := true.
Definition HTTP_BUFFER_SIZE : Z := 32 * 1024.
Definition PSRAM_STAGING_BUFFER_SIZE : Z := 3 * 1024 * 1024.
Definition SD_WRITE_CHUNK_SIZE : Z := 128 * 1024.

(** The derived settings: the first argument is [DOWNLOADER_DEV_MODE]. *)
Definition FORCE_DOWNLOAD (dev : bool) : bool := dev.
Definition SEED_WIFI_CREDS (dev : bool) : bool := dev.
Definition STAY_IN_DOWNLOADER (dev : bool) : bool := false.
Definition DEFAULT_LOG_LEVEL (dev : bool) : string :=
  if dev then "ESP_LOG_DEBUG" else "ESP_LOG_INFO".
Definition SKIP_WIFI_SCAN (dev : bool) : bool := dev.

(** ** Decoding *)

(** The enumerator an integer stands for, if any. *)
Definition boot_reason_of (n : Z) : option boot_reason_t :=
  find (fun r => boot_reason_code r =? n)
    [BOOT_REASON_NORMAL; BOOT_REASON_DOWNLOAD_REQUEST; BOOT_REASON_DOWNLOAD_SUCCESS;
     BOOT_REASON_DOWNLOAD_FAILED; BOOT_REASON_FACTORY_RESET].

Lemma boot_reason_of_code (r : boot_reason_t) : boot_reason_of r = Some r.
Proof. by destruct r. Qed.

Lemma boot_reason_code_inj (r r' : boot_reason_t) : (r : Z) = r' -> r = r'.
Proof. by destruct r, r'. Qed.

Lemma boot_reason_code_u8 (r : boot_reason_t) : 0 <= r < 256.
Proof. destruct r; simpl; lia. Qed.

Lemma download_error_code_inj (e e' : download_error_t) : (e : Z) = e' -> e = e'.
Proof. by destruct e, e'. Qed.

Lemma download_error_code_u8 (e : download_error_t) : 0 <= e < 256.
Proof. destruct e; simpl; lia. Qed.

#[export] Hint Resolve boot_reason_code_u8 download_error_code_u8 : width.
