(* ===== verification/Nvs.v ===== *)
(** * The NVS interface

    What the firmware relies on of ESP-IDF's non-volatile storage, as a class:
    the values a program reads back, indexed by namespace and key, those that
    survive a restart, the open handles, and what each call does to them.  The
    namespaces that components of the system keep to themselves are left out:
    the WiFi driver writes its own when a network is configured.  The boot
    manager and the main program are verified against this interface;
    [TestEnv] has an implementation. *)

From stdpp Require Import gmap strings.
From S2P Require Import Prelude Idf Logic Protocol.

Inductive nvs_val := VU8 (v : Z) | VU32 (v : Z) | VStr (s : string).

Abbreviation nvs_key := (string * string)%type.
Abbreviation nvs_map := (gmap (string * string) nvs_val).

(** The namespace of the saved networks, [NVS_NAMESPACE] of
    [simibox_wifi_creds_idf.c]. *)
Definition WIFI_CREDS_NAMESPACE : string := "wifi_creds".

Class NvsLaws `{Env} := {
  (** The namespaces components of the system write on their own: the WiFi driver
      remembers its network in one (nvs.net80211), the PHY its calibration in
      another.  The two of the program are not among them. *)
  nvs_private : string -> bool;
  nvs_program_ns ns :
    ns = SIMIBOX_NVS_NAMESPACE \/ ns = WIFI_CREDS_NAMESPACE -> nvs_private ns = false;

  (** The values [nvs_get_*] reads back in the other namespaces, by namespace and
      key. *)
  nvs_store : world -> nvs_map;
  nvs_store_private w k : nvs_private k.1 = true -> nvs_store w !! k = None;
  (** Those of them that are in flash: what can be read back after a restart. *)
  nvs_saved : world -> nvs_map;
  (** The namespace of every open handle. *)
  nvs_ns : world -> gmap Z string;

  (** Calls outside NVS leave those namespaces alone; so does [nvs_flash_init],
      which reads the partition and erases nothing. *)
  nvs_frame {X} (c : cmd X) w r w' :
    class_of c <> CNvs -> class_of c <> CErase -> handle c w = (r, w') ->
    nvs_store w' = nvs_store w /\ nvs_ns w' = nvs_ns w;

  (** A value reaches the flash at a commit, or before if the system likes. *)
  nvs_saved_law {X} (c : cmd X) w r w' :
    class_of c <> CErase -> handle c w = (r, w') ->
    forall k, nvs_saved w' !! k = nvs_saved w !! k \/ nvs_saved w' !! k = nvs_store w' !! k;

  nvs_open_law ns m w e h w' :
    handle (NvsOpen ns m) w = ((e, h), w') ->
    nvs_store w' = nvs_store w /\
    (if is_ok e then h <> 0 /\ nvs_ns w !! h = None /\ nvs_ns w' = <[h := ns]> (nvs_ns w)
     else nvs_ns w' = nvs_ns w);

  nvs_close_law h w r w' :
    handle (NvsClose h) w = (r, w') ->
    nvs_store w' = nvs_store w /\ nvs_ns w' = delete h (nvs_ns w);

  nvs_commit_law h w e w' :
    handle (NvsCommit h) w = (e, w') ->
    nvs_store w' = nvs_store w /\ nvs_ns w' = nvs_ns w /\
    (is_ok e = true -> forall ns k, nvs_ns w !! h = Some ns ->
       nvs_saved w' !! (ns, k) = nvs_store w' !! (ns, k));

  nvs_erase_all_law h ns w e w' :
    nvs_ns w !! h = Some ns -> handle (NvsEraseAll h) w = (e, w') ->
    nvs_ns w' = nvs_ns w /\
    (forall k, k.1 <> ns -> nvs_store w' !! k = nvs_store w !! k) /\
    (is_ok e = true -> forall k, k.1 = ns -> nvs_store w' !! k = None);

  nvs_get_u8_law h ns k w e v w' :
    nvs_ns w !! h = Some ns -> nvs_private ns = false ->
    handle (NvsGetU8 h k) w = ((e, v), w') ->
    nvs_store w' = nvs_store w /\ nvs_ns w' = nvs_ns w /\
    match nvs_store w !! (ns, k) with
    | Some (VU8 x) => e = ESP_OK /\ v = x
    | _ => is_ok e = false
    end;

  nvs_get_u32_law h ns k w e v w' :
    nvs_ns w !! h = Some ns -> nvs_private ns = false ->
    handle (NvsGetU32 h k) w = ((e, v), w') ->
    nvs_store w' = nvs_store w /\ nvs_ns w' = nvs_ns w /\
    match nvs_store w !! (ns, k) with
    | Some (VU32 x) => e = ESP_OK /\ v = x
    | _ => is_ok e = false
    end;

  (** [nvs_get_str] fails unless the string and its terminator fit. *)
  nvs_get_str_law h ns k len w e s w' :
    nvs_ns w !! h = Some ns -> nvs_private ns = false ->
    handle (NvsGetStr h k len) w = ((e, s), w') ->
    nvs_store w' = nvs_store w /\ nvs_ns w' = nvs_ns w /\
    match nvs_store w !! (ns, k) with
    | Some (VStr x) => if (String.length x <? len)%nat then e = ESP_OK /\ s = x
                       else is_ok e = false
    | _ => is_ok e = false
    end;

  (** A successful write is read back; a failed one can only have touched its
      own key. *)
  nvs_set_u8_law h ns k v w e w' :
    nvs_ns w !! h = Some ns -> nvs_private ns = false ->
    handle (NvsSetU8 h k v) w = (e, w') ->
    nvs_ns w' = nvs_ns w /\
    (if is_ok e then nvs_store w' = <[(ns, k) := VU8 v]> (nvs_store w)
     else forall k', k' <> (ns, k) -> nvs_store w' !! k' = nvs_store w !! k');

  nvs_set_u32_law h ns k v w e w' :
    nvs_ns w !! h = Some ns -> nvs_private ns = false ->
    handle (NvsSetU32 h k v) w = (e, w') ->
    nvs_ns w' = nvs_ns w /\
    (if is_ok e then nvs_store w' = <[(ns, k) := VU32 v]> (nvs_store w)
     else forall k', k' <> (ns, k) -> nvs_store w' !! k' = nvs_store w !! k');

  nvs_set_str_law h ns k v w e w' :
    nvs_ns w !! h = Some ns -> nvs_private ns = false ->
    handle (NvsSetStr h k v) w = (e, w') ->
    nvs_ns w' = nvs_ns w /\
    (if is_ok e then nvs_store w' = <[(ns, k) := VStr v]> (nvs_store w)
     else forall k', k' <> (ns, k) -> nvs_store w' !! k' = nvs_store w !! k')
}.

Section Frame.
Context `{NvsLaws}.

(** A computation that makes no NVS call leaves the store and the handles
    as they were. *)
Lemma nvs_uses_frame {G A} cs (m : M G A) s :
  uses cs m -> cls_mem CNvs cs = false -> cls_mem CErase cs = false ->
  nvs_store (wld (snd (m s))) = nvs_store (wld s) /\
  nvs_ns (wld (snd (m s))) = nvs_ns (wld s).
Proof.
  intros Hm H1 H2. unfold cls_mem in *.
  apply bool_decide_eq_false in H1, H2.
  apply (Hm (fun a b => nvs_store b.1 = nvs_store a.1 /\ nvs_ns b.1 = nvs_ns a.1)).
  split; [split|].
  - done.
  - intros ??? [] []; split; congruence.
  - intros X c w tr r w' Hc Hh. simpl. eapply nvs_frame; [| |exact Hh]; congruence.
Qed.

Lemma wp_nvs_frame {G A} cs (m : M G A) (Q : outcome A -> sys G -> Prop) s :
  uses cs m -> cls_mem CNvs cs = false -> cls_mem CErase cs = false ->
  wp m (fun o s' => nvs_store (wld s') = nvs_store (wld s) ->
                    nvs_ns (wld s') = nvs_ns (wld s) -> Q o s') s ->
  wp m Q s.
Proof.
  intros Hm H1 H2 Hw. destruct (nvs_uses_frame cs m s Hm H1 H2). by apply Hw.
Qed.
End Frame.

Section Kept.
Context `{NvsLaws}.

(** Every value that survives a restart did so before, or can be read now. *)
Definition flushes (w w' : world) : Prop :=
  forall k, nvs_saved w' !! k = nvs_saved w !! k \/ nvs_saved w' !! k = nvs_store w' !! k.

Lemma flushes_call {X} (c : cmd X) w r w' :
  class_of c <> CErase -> handle c w = (r, w') -> flushes w w'.
Proof. intros Hc Hh k. by eapply nvs_saved_law. Qed.

Lemma flushes_trans w1 w2 w3 :
  flushes w1 w2 -> flushes w2 w3 -> nvs_store w3 = nvs_store w2 -> flushes w1 w3.
Proof. intros F1 F2 E k. destruct (F2 k), (F1 k); rewrite E in *; [left|right..]; congruence. Qed.

(** The store is the same and no open handle was lost. *)
Definition nvs_same (w w' : world) : Prop :=
  nvs_store w' = nvs_store w /\
  forall h ns, nvs_ns w !! h = Some ns -> nvs_ns w' !! h = Some ns.

#[export] Instance nvs_same_PreOrder : PreOrder nvs_same.
Proof.
  split; [by split|]. intros ??? [E1 F1] [E2 F2]. split; [congruence|]. auto.
Qed.

(** Moreover, nothing was saved but what was pending. *)
Definition nvs_quiet (w w' : world) : Prop := nvs_same w w' /\ flushes w w'.

#[export] Instance nvs_quiet_PreOrder : PreOrder nvs_quiet.
Proof.
  split; [intros w; split; [done|by left]|]. intros w1 w2 w3 [E1 S1] [E2 S2].
  split; [by etransitivity|]. eapply flushes_trans; [exact S1|exact S2|apply E2].
Qed.

Lemma nvs_uses_quiet {G A} cs (m : M G A) s :
  uses cs m -> cls_mem CNvs cs = false -> cls_mem CErase cs = false ->
  nvs_quiet (wld s) (wld (snd (m s))).
Proof.
  intros Hm H1 H2. unfold cls_mem in *. apply bool_decide_eq_false in H1, H2.
  apply (Hm (fun a b => nvs_quiet a.1 b.1)). split; [split|].
  - intros ?. reflexivity.
  - intros ???. by etransitivity.
  - intros X c w tr r w' Hc Hh. simpl.
    destruct (nvs_frame c w r w') as [E F]; [congruence..|exact Hh|].
    split; [split; [done|by rewrite F]|]. intros k. eapply nvs_saved_law; [|exact Hh]. congruence.
Qed.

Lemma wp_nvs_quiet {G A} cs (m : M G A) (Q : outcome A -> sys G -> Prop) s :
  uses cs m -> cls_mem CNvs cs = false -> cls_mem CErase cs = false ->
  wp m (fun o s' => nvs_quiet (wld s) (wld s') -> Q o s') s -> wp m Q s.
Proof. intros Hm H1 H2 Hw. by apply Hw, (nvs_uses_quiet cs). Qed.

(** Nothing changed but the keys [ks]; what was pending may have been saved. *)
Definition nvs_outside (ks : list nvs_key) (w w' : world) : Prop :=
  forall k, k ∉ ks -> nvs_store w' !! k = nvs_store w !! k /\
    (nvs_saved w' !! k = nvs_saved w !! k \/ nvs_saved w' !! k = nvs_store w !! k).

#[export] Instance nvs_outside_PreOrder ks : PreOrder (nvs_outside ks).
Proof.
  split; [intros w k _; by auto|]. intros w1 w2 w3 H12 H23 k Hk.
  destruct (H12 k Hk) as [E1 S1], (H23 k Hk) as [E2 S2]. split; [congruence|].
  destruct S1, S2; [left|right..]; congruence.
Qed.

Lemma same_outside ks w w' :
  nvs_store w' = nvs_store w -> flushes w w' -> nvs_outside ks w w'.
Proof. intros E F k _. destruct (F k) as [-> | ->]; rewrite E; auto. Qed.

(** A write, successful or not, leaves the other keys alone. *)
Lemma set_keeps (e : Z) (k : nvs_key) (v : nvs_val) (a b : nvs_map) :
  (if is_ok e then a = <[k := v]> b else forall k', k' <> k -> a !! k' = b !! k') ->
  forall k', k' <> k -> a !! k' = b !! k'.
Proof.
  destruct (is_ok e); [|done]. intros -> k' Hk. by apply lookup_insert_ne.
Qed.

Lemma set_outside {X} (c : cmd X) r ks (e : Z) (k : nvs_key) (v : nvs_val) w w' :
  class_of c <> CErase -> handle c w = (r, w') -> k ∈ ks ->
  (if is_ok e then nvs_store w' = <[k := v]> (nvs_store w)
   else forall k', k' <> k -> nvs_store w' !! k' = nvs_store w !! k') ->
  nvs_outside ks w w'.
Proof.
  intros Hc Hh Hin Hs k' Hk.
  assert (E : nvs_store w' !! k' = nvs_store w !! k') by (eapply set_keeps; [exact Hs|congruence]).
  split; [done|]. rewrite <- E. by eapply nvs_saved_law.
Qed.

(** The results of the writes and commits of a trace, newest first. *)
Definition nvs_write_of (e : event) : option Z :=
  match e with Ev c r =>
    match c in cmd X return X -> option Z with
    | NvsSetU8 _ _ _ | NvsSetU32 _ _ _ | NvsSetStr _ _ _ | NvsCommit _ => fun e => Some e
    | _ => fun _ => None
    end r
  end.
Definition nvs_writes (tr : list event) : list Z := omap nvs_write_of tr.

(** The program's two namespaces. *)
Lemma simibox_not_private : nvs_private SIMIBOX_NVS_NAMESPACE = false.
Proof. apply nvs_program_ns. by left. Qed.
Lemma wifi_creds_not_private : nvs_private "wifi_creds" = false.
Proof. apply nvs_program_ns. by right. Qed.
End Kept.
#[export] Hint Resolve simibox_not_private wifi_creds_not_private : core.
