(* ===== verification/TestEnv.v ===== *)
(** * A concrete platform

    An implementation of [Idf.Env] on which the definitions run and which meets
    the interfaces the theorems assume, so that every hypothesis of the
    development is shown to be satisfiable.  Calls answer with success; WiFi
    events, access points and HTTP data come from scripts in the world; an
    override may replace the answer to any call, by the number of calls made
    before it.  What is written to NVS can be read at once and is in flash after a
    commit; the WiFi driver saves the network it is told to join in a namespace of
    its own. *)

From stdpp Require Import gmap strings.
From S2P Require Import Prelude Idf Logic Nvs.
#[local] Open Scope Z_scope.

Record tworld := TWorld {
  tw_count : nat;                        (** calls made so far *)
  tw_next : Z;                           (** next fresh handle *)
  tw_store : nvs_map;                    (** what can be read back *)
  tw_saved : nvs_map;                    (** what is in flash *)
  tw_ns : gmap Z string;
  tw_polls : list (list wifi_event);     (** events before the next calls *)
  tw_waits : list (list wifi_event);     (** events during the next waits *)
  tw_ap : option ap_record;              (** the access point joined, if any *)
  tw_scan : list ap_record;
  tw_body : string;                      (** body of [esp_http_client_perform] *)
  tw_reads : list read_result;           (** results of the next HTTP reads *)
  tw_tick : Z
}.

Definition tw_init : tworld :=
  TWorld 0 1 ∅ ∅ ∅ [] [] None [] EmptyString [] 0.

Definition tw_fresh (w : tworld) : Z * tworld :=
  (tw_next w, TWorld (tw_count w) (tw_next w + 1) (tw_store w) (tw_saved w) (tw_ns w) (tw_polls w)
     (tw_waits w) (tw_ap w) (tw_scan w) (tw_body w) (tw_reads w) (tw_tick w)).

Definition tw_tally (w : tworld) : tworld :=
  TWorld (S (tw_count w)) (tw_next w) (tw_store w) (tw_saved w) (tw_ns w) (tw_polls w)
     (tw_waits w) (tw_ap w) (tw_scan w) (tw_body w) (tw_reads w) (tw_tick w).

Definition tw_nvs (store : nvs_map) (ns : gmap Z string) (w : tworld) : tworld :=
  TWorld (tw_count w) (tw_next w) store (tw_saved w) ns (tw_polls w)
     (tw_waits w) (tw_ap w) (tw_scan w) (tw_body w) (tw_reads w) (tw_tick w).

Definition tw_save (saved : nvs_map) (w : tworld) : tworld :=
  TWorld (tw_count w) (tw_next w) (tw_store w) saved (tw_ns w) (tw_polls w)
     (tw_waits w) (tw_ap w) (tw_scan w) (tw_body w) (tw_reads w) (tw_tick w).

(** The flash as the restart before this run left it. *)
Definition tw_flash (m : nvs_map) (w : tworld) : tworld := tw_save m (tw_nvs m ∅ w).

Definition tw_scripts (polls waits : list (list wifi_event)) (ap : option ap_record)
    (scan : list ap_record) (body : string) (reads : list read_result) (w : tworld)
  : tworld :=
  TWorld (tw_count w) (tw_next w) (tw_store w) (tw_saved w) (tw_ns w) polls waits ap scan body reads
    (tw_tick w).

(** The namespace and store key of a handle, when it is open. *)
Definition tw_get (w : tworld) (h : Z) (k : string) : option nvs_val :=
  ns ← tw_ns w !! h; tw_store w !! (ns, k).

Definition tw_set (w : tworld) (h : Z) (k : string) (v : nvs_val) : Z * tworld :=
  match tw_ns w !! h with
  | Some ns => (ESP_OK, tw_nvs (<[(ns, k) := v]> (tw_store w)) (tw_ns w) w)
  | None => (0x1107, w)
  end.

(** The namespace [ns] of [m] and the others of [m']. *)
Definition tw_merge (ns : string) (m m' : nvs_map) : nvs_map :=
  filter (fun kv => kv.1.1 = ns) m ∪ filter (fun kv => kv.1.1 <> ns) m'.

(** [nvs_commit]: what can be read back in the handle's namespace is saved. *)
Definition tw_commit (w : tworld) (h : Z) : Z * tworld :=
  match tw_ns w !! h with
  | Some ns => (ESP_OK, tw_save (tw_merge ns (tw_store w) (tw_saved w)) w)
  | None => (0x1107, w)
  end.

(** The driver's own namespace, written behind the program's back. *)
Definition DRIVER_NAMESPACE : string := "nvs.net80211".
Definition tw_remember (ssid : list ascii) (w : tworld) : tworld :=
  let put := <[(DRIVER_NAMESPACE, "sta.ssid"%string) := VStr (string_of_list_ascii ssid)]> in
  tw_save (put (tw_saved w)) (tw_nvs (put (tw_store w)) (tw_ns w) w).

Definition fresh_handle (w : tworld) : option Z * tworld :=
  let '(h, w') := tw_fresh w in (Some h, w').

Definition test_handle {X} (c : cmd X) (w : tworld) : X * tworld :=
  match c in cmd X return X * tworld with
  | NvsOpen ns _ =>
      let h := if decide (tw_next w <> 0 /\ tw_ns w !! tw_next w = None)
               then tw_next w else fresh (dom (tw_ns w) ∪ {[0]}) in
      let w' := snd (tw_fresh w) in
      ((ESP_OK, h), tw_nvs (tw_store w') (<[h := ns]> (tw_ns w')) w')
  | NvsClose h => (tt, tw_nvs (tw_store w) (delete h (tw_ns w)) w)
  | NvsEraseAll h =>
      match tw_ns w !! h with
      | Some ns => (ESP_OK, tw_nvs (filter (fun kv => kv.1.1 <> ns) (tw_store w)) (tw_ns w) w)
      | None => (0x1107, w)
      end
  | NvsGetU8 h k => match tw_get w h k with Some (VU8 v) => ((ESP_OK, v), w)
                                          | _ => ((0x1102, 0), w) end
  | NvsGetU32 h k => match tw_get w h k with Some (VU32 v) => ((ESP_OK, v), w)
                                           | _ => ((0x1102, 0), w) end
  | NvsGetStr h k len =>
      match tw_get w h k with
      | Some (VStr s) => if (String.length s <? len)%nat then ((ESP_OK, s), w)
                         else ((0x110c, EmptyString), w)
      | _ => ((0x1102, EmptyString), w)
      end
  | NvsSetU8 h k v => tw_set w h k (VU8 v)
  | NvsSetU32 h k v => tw_set w h k (VU32 v)
  | NvsSetStr h k v => tw_set w h k (VStr v)
  | NvsCommit h => tw_commit w h
  | EspWifiSetConfig ssid _ => (ESP_OK, tw_remember ssid w)
  | EspWifiStaGetApInfo =>
      match tw_ap w with
      | Some a => ((ESP_OK, a), w)
      | None => ((ESP_FAIL, ApRecord EmptyString 0 0), w)
      end
  | EspWifiScanGetApRecords n => ((ESP_OK, take n (tw_scan w)), w)
  | PollEvents =>
      match tw_polls w with
      | [] => ([], w)
      | e :: l => (e, tw_scripts l (tw_waits w) (tw_ap w) (tw_scan w) (tw_body w) (tw_reads w) w)
      end
  | WaitEvents _ =>
      match tw_waits w with
      | [] => ([], w)
      | e :: l => (e, tw_scripts (tw_polls w) l (tw_ap w) (tw_scan w) (tw_body w) (tw_reads w) w)
      end
  | TaskGetTickCount =>
      (tw_tick w, TWorld (tw_count w) (tw_next w) (tw_store w) (tw_saved w) (tw_ns w) (tw_polls w)
         (tw_waits w) (tw_ap w) (tw_scan w) (tw_body w) (tw_reads w) (tw_tick w + 10))
  | HttpPerform _ => ((ESP_OK, [(false, tw_body w)]), w)
  | HttpRead _ _ =>
      match tw_reads w with
      | [] => (ReadData [], w)
      | r :: l => (r, tw_scripts (tw_polls w) (tw_waits w) (tw_ap w) (tw_scan w) (tw_body w) l w)
      end
  | HttpInit _ => fresh_handle w
  | HeapMallocPsram _ => fresh_handle w
  | SemCreateBinary => fresh_handle w
  | HttpGetStatusCode _ => (200, w)
  | SdspiMount _ _ => ((ESP_OK, Card 1 true), w)
  | MutexCreateRecursive => (true, w)
  | TaskCreatePinned _ _ _ _ => (true, w)
  | TaskIsCurrent _ => (false, w)
  | IoOpen _ => (true, w)
  | IoWrite n => (n, w)
  | IoDrain n => (n, w)
  | IoRead n => (n, w)
  | IoTell size => (size, w)
  | IoStat _ => (true, w)
  | IoMkdir _ => (true, w)
  | IoOpendir _ => (true, w)
  | IoUnlink _ => (true, w)
  | IoRmdir _ => (true, w)
  | IoRename _ _ => (true, w)
  | EspPartitionFindFirst _ => (Some (Partition "musicbox" 0x150000), w)
  | EspOtaGetRunningPartition => (Partition "downldr" 0x550000, w)
  | NvsFlashInit | NvsFlashErase | EspNetifInit
  | EspEventLoopCreateDefault | EspWifiInit | EspEventHandlerRegister _
  | EspWifiSetModeSta | EspWifiSetPsNone | EspWifiSetBandwidthHt40
  | EspWifiSetProtocolBgn | EspWifiStart | EspWifiConnect | EspWifiDisconnect
  | EspWifiScanStart _ | LedcTimerConfig _
  | LedcChannelConfig _ _ _ | LedcSetDuty _ _ | LedcUpdateDuty _ | GpioConfig _ _ _
  | GpioSetLevel _ _ | SpiBusInitialize | SpiBusFree | SdcardUnmount _ _
  | SetCardClk _ _ | HttpSetUrl _ _ | HttpOpen _ | HttpFetchHeaders _ | HttpClose _
  | HttpCleanup _ | EspOtaSetBootPartition _ => (ESP_OK, w)
  | EspNetifCreateDefaultWifiSta | MutexTakeRecursive | MutexGiveRecursive
  | SemDelete _ | SemGive _ | SemTake _ | TaskDelete | VTaskDelay _
  | VTaskDelayUntil _ | EtsDelayUs _ | HeapFree _ | EspLogLevelSet _ => (tt, w)
  end.

(** The override: the answer to give instead, by the number of calls so far. *)
Definition override := nat -> forall X, cmd X -> option X.
Definition no_override : override := fun _ _ _ => None.

Definition test_env (ov : override) : Env := {|
  world := tworld;
  handle := fun X c w =>
    match ov (tw_count w) X c with
    | Some r => (r, tw_tally w)
    | None => let '(r, w') := test_handle c w in (r, tw_tally w')
    end
|}.

(** The platform without overrides. *)
Definition plain_env : Env := test_env no_override.

Definition test_start {G} (g : G) (w : tworld) : @sys plain_env G :=
  @Sys plain_env G g w [].

(** ** It implements the NVS interface *)

(** A map without the driver's namespace. *)
Definition shown (m : nvs_map) : nvs_map := filter (fun kv => kv.1.1 <> DRIVER_NAMESPACE) m.

Lemma shown_lookup m k :
  shown m !! k = if decide (k.1 = DRIVER_NAMESPACE) then None else m !! k.
Proof.
  unfold shown. rewrite map_lookup_filter. destruct (m !! k); cbn.
  - by repeat case_decide.
  - by case_decide.
Qed.

Lemma shown_in m (k : nvs_key) : k.1 <> DRIVER_NAMESPACE -> shown m !! k = m !! k.
Proof. intros Hk. rewrite shown_lookup. by case_decide. Qed.

Lemma shown_insert m (k : nvs_key) v :
  k.1 <> DRIVER_NAMESPACE -> shown (<[k := v]> m) = <[k := v]> (shown m).
Proof. intros Hk. by apply map_filter_insert_True. Qed.

Lemma shown_hidden m (k : nvs_key) v :
  k.1 = DRIVER_NAMESPACE -> shown (<[k := v]> m) = shown m.
Proof.
  intros Hk. apply map_eq. intros k'. rewrite !shown_lookup. case_decide; [done|].
  apply lookup_insert_ne. congruence.
Qed.

Lemma tw_merge_lookup ns m m' k :
  tw_merge ns m m' !! k = if decide (k.1 = ns) then m !! k else m' !! k.
Proof.
  unfold tw_merge. rewrite lookup_union, !map_lookup_filter.
  destruct (m !! k), (m' !! k); cbn; by repeat case_decide.
Qed.

Ltac test_calls Hh :=
  repeat match type of Hh with context [match ?x with _ => _ end] =>
    lazymatch type of x with list _ => idtac | option _ => idtac | nvs_val => idtac | bool => idtac end;
    destruct x; cbn in Hh end;
  inversion Hh; subst.

Lemma test_frame {X} (c : cmd X) w r w' :
  class_of c <> CNvs -> class_of c <> CErase -> @handle plain_env X c w = (r, w') ->
  shown (tw_store w') = shown (tw_store w) /\ tw_ns w' = tw_ns w.
Proof.
  intros H1 H2 Hh. destruct c; try (exfalso; apply H1; reflexivity);
    try (exfalso; apply H2; reflexivity); cbn in Hh; test_calls Hh; auto.
  split; [by apply shown_hidden|done].
Qed.

(** What a call leaves in flash was there, or can be read. *)
Lemma test_saved {X} (c : cmd X) w r w' :
  class_of c <> CErase -> @handle plain_env X c w = (r, w') ->
  forall k, shown (tw_saved w') !! k = shown (tw_saved w) !! k \/
            shown (tw_saved w') !! k = shown (tw_store w') !! k.
Proof.
  intros H2 Hh k. destruct c; try (exfalso; apply H2; reflexivity); cbn in Hh;
    unfold tw_get, tw_set, tw_commit in Hh; test_calls Hh; auto; cbn [tw_saved tw_store tw_save tw_nvs tw_tally].
  - rewrite !shown_lookup, tw_merge_lookup. repeat case_decide; auto.
  - left. unfold tw_remember. by apply f_equal with (f := fun m => m !! k), shown_hidden.
Qed.

Definition test_private (ns : string) : bool := bool_decide (ns = DRIVER_NAMESPACE).

Lemma test_public ns : test_private ns = false -> ns <> DRIVER_NAMESPACE.
Proof. apply bool_decide_eq_false. Qed.

Ltac get_obligation :=
  intros; cbn in *;
  match goal with Ho : tw_ns ?w !! ?h = Some _, Hp : test_private _ = _, Hh : _ = (_, _) |- _ =>
    unfold tw_get in Hh; rewrite Ho in Hh; cbn in Hh; apply test_public in Hp;
    rewrite shown_in by done end;
  repeat case_match; simplify_eq; cbn in *; auto; congruence.

Ltac set_obligation :=
  intros; cbn in *;
  match goal with Ho : tw_ns ?w !! ?h = Some _, Hp : test_private _ = _, Hh : _ = (_, _) |- _ =>
    unfold tw_set in Hh; rewrite Ho in Hh; apply pair_equal_spec in Hh as [<- <-];
    apply test_public in Hp end; split; [done|]; by apply shown_insert.

#[export] Program Instance plain_nvs : @NvsLaws plain_env := {|
  nvs_private := test_private;
  nvs_store w := shown (tw_store w);
  nvs_saved w := shown (tw_saved w);
  nvs_ns := tw_ns;
  nvs_frame := @test_frame;
  nvs_saved_law := @test_saved
|}.
Next Obligation. by intros ns [-> | ->]. Qed.
Next Obligation.
  intros w k Hk%bool_decide_eq_true. etransitivity; [apply shown_lookup|]. by apply decide_True.
Qed.
Next Obligation.
  intros ns m w e h w' Hh. cbn -[decide fresh] in Hh.
  apply pair_equal_spec in Hh as [Hh <-]. apply pair_equal_spec in Hh as [<- <-]. cbn -[decide fresh].
  split; [done|]. case_decide as D.
  - destruct D; auto.
  - pose proof (is_fresh (dom (tw_ns w) ∪ {[0]})) as Hf. set_unfold.
    split_and!; auto. apply not_elem_of_dom. tauto.
Qed.
Next Obligation. intros h w r w' Hh. by apply pair_equal_spec in Hh as [_ <-]. Qed.
Next Obligation.
  intros h w e w' Hh. cbn in Hh. unfold tw_commit in Hh.
  destruct (tw_ns w !! h) as [ns|] eqn:E; cbn in Hh; apply pair_equal_spec in Hh as [<- <-];
    cbn; split_and!; try done.
  intros _ ns' k [= <-]. rewrite !shown_lookup. case_decide; [done|].
  rewrite tw_merge_lookup. by rewrite decide_True.
Qed.
Next Obligation.
  intros h ns w e w' Ho Hh. cbn in Hh, Ho. unfold test_handle in Hh. rewrite Ho in Hh.
  apply pair_equal_spec in Hh as [<- <-]. cbn. split_and!; auto.
  - intros k Hk. rewrite !shown_lookup. case_decide; [done|].
    rewrite map_lookup_filter. destruct (tw_store w !! k); cbn; [|done]. by case_decide.
  - intros _ k Hk. rewrite shown_lookup. case_decide; [done|]. apply map_lookup_filter_None.
    right. intros ? _. simpl. congruence.
Qed.
Next Obligation. get_obligation. Qed.
Next Obligation. get_obligation. Qed.
Next Obligation. get_obligation. Qed.
Next Obligation. set_obligation. Qed.
Next Obligation. set_obligation. Qed.
Next Obligation. set_obligation. Qed.
