(* ===== verification/BootManager.v ===== *)
(** * Boot manager: [simibox_boot_manager_idf.c]

    The persistent boot state in NVS and its cache in RAM.  The two C globals
    are the record [bm]; a pointer parameter that may be NULL is an [option],
    and an out-parameter is part of the result. *)

From stdpp Require Import gmap strings.
From S2P Require Import Prelude Idf Logic CLib Protocol Nvs TestEnv.
#[local] Open Scope Z_scope.

(** ** State *)

(** [boot_state_t]: [folder] is a [char[64]], [last_ssid] a [char[32]]. *)
Record boot_state_t := BootState {
  reason : Z;
  folder : list char;
  retry_count : Z;
  last_error : Z;
  volume : Z;
  max_volume : Z;
  last_ssid : list char;
  download_size : Z;
  download_progress : Z
}.

Definition FOLDER_SIZE : nat := 64.
Definition LAST_SSID_SIZE : nat := 32.

(** The globals [g_nvs_handle] and [g_current_state]. *)
Record bm := Bm {
  g_nvs_handle : Z;
  g_current_state : boot_state_t
}.

Definition set_reason r st := BootState r (folder st) (retry_count st) (last_error st)
  (volume st) (max_volume st) (last_ssid st) (download_size st) (download_progress st).
Definition set_folder f st := BootState (reason st) f (retry_count st) (last_error st)
  (volume st) (max_volume st) (last_ssid st) (download_size st) (download_progress st).
Definition set_retry_count n st := BootState (reason st) (folder st) n (last_error st)
  (volume st) (max_volume st) (last_ssid st) (download_size st) (download_progress st).
Definition set_last_error e st := BootState (reason st) (folder st) (retry_count st) e
  (volume st) (max_volume st) (last_ssid st) (download_size st) (download_progress st).
Definition set_volume v st := BootState (reason st) (folder st) (retry_count st)
  (last_error st) v (max_volume st) (last_ssid st) (download_size st) (download_progress st).
Definition set_last_ssid s st := BootState (reason st) (folder st) (retry_count st)
  (last_error st) (volume st) (max_volume st) s (download_size st) (download_progress st).
Definition set_download_size n st := BootState (reason st) (folder st) (retry_count st)
  (last_error st) (volume st) (max_volume st) (last_ssid st) n (download_progress st).
Definition set_download_progress n st := BootState (reason st) (folder st) (retry_count st)
  (last_error st) (volume st) (max_volume st) (last_ssid st) (download_size st) n.

(** [memset(state, 0, sizeof)]; also the initial value of the globals. *)
Definition zero_state : boot_state_t :=
  BootState 0 (zeros FOLDER_SIZE) 0 0 0 0 (zeros LAST_SSID_SIZE) 0 0.

Definition bm_init : bm := Bm 0 zero_state.

(** The defaults [boot_mgr_load_state] writes before reading NVS. *)
Definition default_state : boot_state_t :=
  BootState BOOT_REASON_NORMAL (zeros FOLDER_SIZE) 0 0 6 12 (zeros LAST_SSID_SIZE) 0 0.

(** The literal of [boot_mgr_clear_state]. *)
Definition clean_state : boot_state_t :=
  BootState BOOT_REASON_NORMAL (zeros FOLDER_SIZE) 0 DOWNLOAD_ERROR_NONE 6 12
    (zeros LAST_SSID_SIZE) 0 0.

Section BootManager.
Context `{Env}.

Definition set_handle (h : Z) : M bm unit :=
  modify (fun b => Bm h (g_current_state b)).
Definition set_current (st : boot_state_t) : M bm unit :=
  modify (fun b => Bm (g_nvs_handle b) st).
Definition update_current (f : boot_state_t -> boot_state_t) : M bm unit :=
  modify (fun b => Bm (g_nvs_handle b) (f (g_current_state b))).

(** [nvs_get_u8(h, key, &x)] and the like: the out-parameter keeps its old
    value unless the call succeeds; its width is its type's. *)
Definition nvs_get_u8_into (h : Z) (key : string) (old : Z) : M bm Z :=
  let! (e, v) := call (NvsGetU8 h key) in
  ret (if is_ok e then u8 v else old).

Definition nvs_get_u32_into (h : Z) (key : string) (old : Z) : M bm Z :=
  let! (e, v) := call (NvsGetU32 h key) in
  ret (if is_ok e then u32 v else old).

Definition nvs_get_str_into (h : Z) (key : string) (buf : list char) : M bm (list char) :=
  let! (e, s) := call (NvsGetStr h key (length buf)) in
  ret (if is_ok e then put_cstr buf s else buf).

(** ** State management *)

Definition boot_mgr_save_state (state : option boot_state_t) : M bm Z :=
  g <- get ;;
  match state with
  | None => ret ESP_ERR_INVALID_STATE
  | Some st =>
      if g_nvs_handle g =? 0 then ret ESP_ERR_INVALID_STATE else
      let h := g_nvs_handle g in
      r1 <- call (NvsSetU8 h NVS_KEY_REASON (u8 (reason st))) ;;
      r2 <- call (NvsSetStr h NVS_KEY_FOLDER (cstr (folder st))) ;;
      r3 <- call (NvsSetU8 h NVS_KEY_RETRY (retry_count st)) ;;
      r4 <- call (NvsSetU8 h NVS_KEY_ERROR (u8 (last_error st))) ;;
      r5 <- call (NvsSetU8 h NVS_KEY_VOLUME (volume st)) ;;
      r6 <- call (NvsSetU8 h NVS_KEY_MAX_VOL (max_volume st)) ;;
      r7 <- call (NvsSetStr h NVS_KEY_SSID (cstr (last_ssid st))) ;;
      r8 <- call (NvsSetU32 h NVS_KEY_SIZE (download_size st)) ;;
      r9 <- call (NvsSetU8 h NVS_KEY_PROGRESS (download_progress st)) ;;
      let acc := fold_left Z.lor [r1; r2; r3; r4; r5; r6; r7; r8; r9] ESP_OK in
      r <- (if is_ok acc then call (NvsCommit h) else ret acc) ;;
      when (is_ok r) (set_current st) ;;
      ret r
  end.

(** [state] is the pointed-to object; the second result is what it holds
    afterwards. *)
Definition boot_mgr_load_state (state : option boot_state_t)
  : M bm (Z * option boot_state_t) :=
  g <- get ;;
  match state with
  | None => ret (ESP_ERR_INVALID_STATE, None)
  | Some st =>
      if g_nvs_handle g =? 0 then ret (ESP_ERR_INVALID_STATE, Some st) else
      let h := g_nvs_handle g in
      let d := default_state in
      rs <- nvs_get_u8_into h NVS_KEY_REASON (reason d) ;;
      fo <- nvs_get_str_into h NVS_KEY_FOLDER (folder d) ;;
      rt <- nvs_get_u8_into h NVS_KEY_RETRY (retry_count d) ;;
      er <- nvs_get_u8_into h NVS_KEY_ERROR (last_error d) ;;
      vo <- nvs_get_u8_into h NVS_KEY_VOLUME (volume d) ;;
      mv <- nvs_get_u8_into h NVS_KEY_MAX_VOL (max_volume d) ;;
      ss <- nvs_get_str_into h NVS_KEY_SSID (last_ssid d) ;;
      sz <- nvs_get_u32_into h NVS_KEY_SIZE (download_size d) ;;
      pr <- nvs_get_u8_into h NVS_KEY_PROGRESS (download_progress d) ;;
      let st' := BootState rs fo rt er vo mv ss sz pr in
      set_current st' ;;
      ret (ESP_OK, Some st')
  end.

Definition boot_mgr_clear_state : M bm Z := boot_mgr_save_state (Some clean_state).

Definition boot_mgr_init : M bm Z :=
  let! (e, h) := call (NvsOpen SIMIBOX_NVS_NAMESPACE NVS_READWRITE) in
  if negb (is_ok e) then ret e else
  set_handle h ;;
  g <- get ;;
  _ <- boot_mgr_load_state (Some (g_current_state g)) ;;
  ret ESP_OK.

(** ** Download workflow *)

Definition boot_mgr_request_download (fname : option string) (expected_size : Z)
  : M bm Z :=
  match fname with
  | None => ret ESP_ERR_INVALID_ARG
  | Some f =>
      g <- get ;;
      let st := set_reason BOOT_REASON_DOWNLOAD_REQUEST (g_current_state g) in
      let st := set_folder (strncpy (folder st) f (FOLDER_SIZE - 1)) st in
      let st := set_folder (set_char (folder st) (FOLDER_SIZE - 1) NUL) st in
      let st := set_retry_count 0 st in
      let st := set_last_error DOWNLOAD_ERROR_NONE st in
      let st := set_download_size expected_size st in
      let st := set_download_progress 0 st in
      boot_mgr_save_state (Some st)
  end.

(** [nvs_set_u8] of one key, then commit if it succeeded. *)
Definition set_u8_commit (h : Z) (key : string) (v : Z) : M bm Z :=
  r <- call (NvsSetU8 h key v) ;;
  if is_ok r then call (NvsCommit h) else ret r.

Definition boot_mgr_update_progress (percent : Z) : M bm Z :=
  g <- get ;;
  if g_nvs_handle g =? 0 then ret ESP_ERR_INVALID_STATE else
  update_current (set_download_progress percent) ;;
  set_u8_commit (g_nvs_handle g) NVS_KEY_PROGRESS percent.

Definition boot_mgr_report_success : M bm Z :=
  update_current (set_reason BOOT_REASON_DOWNLOAD_SUCCESS) ;;
  update_current (set_last_error DOWNLOAD_ERROR_NONE) ;;
  update_current (set_download_progress 100) ;;
  g <- get ;;
  boot_mgr_save_state (Some (g_current_state g)).

Definition boot_mgr_report_failure (error : download_error_t) : M bm Z :=
  update_current (set_reason BOOT_REASON_DOWNLOAD_FAILED) ;;
  update_current (set_last_error error) ;;
  update_current (fun st => set_retry_count (u8 (retry_count st + 1)) st) ;;
  g <- get ;;
  boot_mgr_save_state (Some (g_current_state g)).

Definition boot_mgr_needs_download : M bm bool :=
  g <- get ;;
  ret ((reason (g_current_state g) =? BOOT_REASON_DOWNLOAD_REQUEST)
       && (0 <? strlen (folder (g_current_state g)))%nat).

(** ** Volume *)

Definition boot_mgr_set_volume (vol : Z) : M bm Z :=
  g <- get ;;
  if g_nvs_handle g =? 0 then ret ESP_ERR_INVALID_STATE else
  update_current (set_volume vol) ;;
  set_u8_commit (g_nvs_handle g) NVS_KEY_VOLUME vol.

(** [vol] is the pointed-to byte, if the pointer is not NULL. *)
Definition boot_mgr_get_volume (vol : option Z) : M bm (Z * option Z) :=
  match vol with
  | None => ret (ESP_ERR_INVALID_ARG, None)
  | Some _ => g <- get ;; ret (ESP_OK, Some (volume (g_current_state g)))
  end.
End BootManager.

(** The parameter is the integer: any other value takes the [default] case. *)
Definition boot_mgr_get_error_string (error : Z) : string :=
  if error =? DOWNLOAD_ERROR_NONE then "No error"
  else if error =? DOWNLOAD_ERROR_WIFI_CONNECT then "WiFi connection failed"
  else if error =? DOWNLOAD_ERROR_SERVER_UNREACHABLE then "Server unreachable"
  else if error =? DOWNLOAD_ERROR_DOWNLOAD_FAILED then "Download failed"
  else if error =? DOWNLOAD_ERROR_VERIFICATION_FAILED then "Verification failed"
  else if error =? DOWNLOAD_ERROR_SD_CARD then "SD card error"
  else if error =? DOWNLOAD_ERROR_TIMEOUT then "Operation timeout"
  else "Unknown error".

(** ** Specification *)

(** What the boot manager promises over the logical NVS store: the state a
    store encodes, and the store a state is saved as. *)
Definition bm_key (k : string) : nvs_key := (SIMIBOX_NVS_NAMESPACE, k).

Definition lookup_u8 (m : nvs_map) (k : string) (d : Z) : Z :=
  match m !! bm_key k with Some (VU8 x) => u8 x | _ => d end.
Definition lookup_u32 (m : nvs_map) (k : string) (d : Z) : Z :=
  match m !! bm_key k with Some (VU32 x) => u32 x | _ => d end.
Definition lookup_str (m : nvs_map) (k : string) (buf : list char) : list char :=
  match m !! bm_key k with
  | Some (VStr s) => if (String.length s <? length buf)%nat then put_cstr buf s else buf
  | _ => buf
  end.

Definition load_spec (m : nvs_map) : boot_state_t :=
  let d := default_state in
  BootState (lookup_u8 m NVS_KEY_REASON (reason d))
    (lookup_str m NVS_KEY_FOLDER (folder d))
    (lookup_u8 m NVS_KEY_RETRY (retry_count d))
    (lookup_u8 m NVS_KEY_ERROR (last_error d))
    (lookup_u8 m NVS_KEY_VOLUME (volume d))
    (lookup_u8 m NVS_KEY_MAX_VOL (max_volume d))
    (lookup_str m NVS_KEY_SSID (last_ssid d))
    (lookup_u32 m NVS_KEY_SIZE (download_size d))
    (lookup_u8 m NVS_KEY_PROGRESS (download_progress d)).

Definition save_spec (st : boot_state_t) (m : nvs_map) : nvs_map :=
  <[bm_key NVS_KEY_PROGRESS := VU8 (download_progress st)]>
  (<[bm_key NVS_KEY_SIZE := VU32 (download_size st)]>
  (<[bm_key NVS_KEY_SSID := VStr (cstr (last_ssid st))]>
  (<[bm_key NVS_KEY_MAX_VOL := VU8 (max_volume st)]>
  (<[bm_key NVS_KEY_VOLUME := VU8 (volume st)]>
  (<[bm_key NVS_KEY_ERROR := VU8 (u8 (last_error st))]>
  (<[bm_key NVS_KEY_RETRY := VU8 (retry_count st)]>
  (<[bm_key NVS_KEY_FOLDER := VStr (cstr (folder st))]>
  (<[bm_key NVS_KEY_REASON := VU8 (u8 (reason st))]> m)))))))).

(** The keys [boot_mgr_save_state] writes. *)
Definition bm_keys : list nvs_key :=
  map bm_key [NVS_KEY_REASON; NVS_KEY_FOLDER; NVS_KEY_RETRY; NVS_KEY_ERROR;
              NVS_KEY_VOLUME; NVS_KEY_MAX_VOL; NVS_KEY_SSID; NVS_KEY_SIZE;
              NVS_KEY_PROGRESS].

(** A state the C type allows, with terminated strings. *)
Record bs_wf (st : boot_state_t) : Prop := {
  wf_reason : 0 <= reason st < 256;
  wf_folder : (strlen (folder st) < FOLDER_SIZE)%nat;
  wf_retry : 0 <= retry_count st < 256;
  wf_error : 0 <= last_error st < 256;
  wf_volume : 0 <= volume st < 256;
  wf_max_volume : 0 <= max_volume st < 256;
  wf_ssid : (strlen (last_ssid st) < LAST_SSID_SIZE)%nat;
  wf_size : 0 <= download_size st < 2 ^ 32;
  wf_progress : 0 <= download_progress st < 256
}.

(** Two states are the same for the program when their integers and the C
    strings in their buffers are: the bytes after a terminator are noise. *)
Record bs_equiv (a b : boot_state_t) : Prop := {
  eqv_reason : reason a = reason b;
  eqv_folder : cstr (folder a) = cstr (folder b);
  eqv_retry : retry_count a = retry_count b;
  eqv_error : last_error a = last_error b;
  eqv_volume : volume a = volume b;
  eqv_max_volume : max_volume a = max_volume b;
  eqv_ssid : cstr (last_ssid a) = cstr (last_ssid b);
  eqv_size : download_size a = download_size b;
  eqv_progress : download_progress a = download_progress b
}.

(** The NVS handle is open on the protocol's namespace. *)
Definition bm_open `{NvsLaws} (g : bm) (w : world) : Prop :=
  g_nvs_handle g <> 0 /\ nvs_ns w !! g_nvs_handle g = Some SIMIBOX_NVS_NAMESPACE.

Section Specs.
Context `{NvsLaws}.

(** What [boot_mgr_save_state] does: it returns [ESP_OK] exactly when the nine
    writes and the commit did; the whole record can then be read back, now and
    after a restart, and is the cache.  On an error the cache is as it was, and
    some of the nine keys may have been written.  In any case nothing changes
    outside them. *)
Definition save_post (st : boot_state_t) (s : sys bm) (o : outcome Z) (s' : sys bm) : Prop :=
  exists r, o = Ret r /\
    g_nvs_handle (glob s') = g_nvs_handle (glob s) /\
    nvs_ns (wld s') = nvs_ns (wld s) /\
    nvs_outside bm_keys (wld s) (wld s') /\
    (exists es, nvs_writes (trace s') = es ++ nvs_writes (trace s) /\
       (is_ok r = true <-> length es = 10%nat /\ Forall (fun e => e = ESP_OK) es)) /\
    (if is_ok r
     then nvs_store (wld s') = save_spec st (nvs_store (wld s)) /\
          (forall k, nvs_saved (wld s') !! bm_key k = nvs_store (wld s') !! bm_key k) /\
          g_current_state (glob s') = st
     else g_current_state (glob s') = g_current_state (glob s)).

(** [boot_mgr_load_state] decodes the store and leaves it as it was; it saves
    nothing that was not pending. *)
Definition load_post (s : sys bm) (o : outcome (Z * option boot_state_t)) (s' : sys bm)
  : Prop :=
  o = Ret (ESP_OK, Some (load_spec (nvs_store (wld s)))) /\
  g_current_state (glob s') = load_spec (nvs_store (wld s)) /\
  g_nvs_handle (glob s') = g_nvs_handle (glob s) /\
  nvs_ns (wld s') = nvs_ns (wld s) /\ nvs_store (wld s') = nvs_store (wld s) /\
  flushes (wld s) (wld s').

(** [boot_mgr_report_failure] saves this record. *)
Definition failed_state (error : download_error_t) (st : boot_state_t) : boot_state_t :=
  set_retry_count (u8 (retry_count st + 1))
    (set_last_error error (set_reason BOOT_REASON_DOWNLOAD_FAILED st)).

(** [boot_mgr_report_success] saves this record. *)
Definition success_state (st : boot_state_t) : boot_state_t :=
  set_download_progress 100
    (set_last_error DOWNLOAD_ERROR_NONE (set_reason BOOT_REASON_DOWNLOAD_SUCCESS st)).

Definition with_current (st : boot_state_t) (s : sys bm) : sys bm :=
  Sys (Bm (g_nvs_handle (glob s)) st) (wld s) (trace s).

(** The closed-handle errors: nothing happens at all. *)
Definition refused {A} (o : outcome A) (r : A) (s s' : sys bm) : Prop :=
  o = Ret r /\ s' = s.
End Specs.

#[export] Instance bs_equiv_Equivalence : Equivalence bs_equiv.
Proof.
  split.
  - intros x. by constructor.
  - intros x y []. by constructor.
  - intros x y z [] []. constructor; etransitivity; eauto.
Qed.

#[export] Instance strlen_folder_Proper :
  Proper (bs_equiv ==> eq) (fun st => strlen (folder st)).
Proof. intros a b E. unfold strlen. by rewrite (eqv_folder a b E). Qed.

#[export] Instance save_spec_Proper : Proper (bs_equiv ==> eq ==> eq) save_spec.
Proof. intros a b [] m m' ->. unfold save_spec. congruence. Qed.

(** ** Lemmas *)

Section Facts.
Context `{NvsLaws}.

Lemma set_ok (e : Z) (k : nvs_key) (v : nvs_val) (a b : nvs_map) :
  (if is_ok e then a = <[k := v]> b else forall k', k' <> k -> a !! k' = b !! k') ->
  e = ESP_OK -> a = <[k := v]> b.
Proof. by intros Hs ->. Qed.

(** [ret |= ...] is [ESP_OK] exactly when every operand is. *)
Lemma fold_lor_ok l : forall a,
  fold_left Z.lor l a = ESP_OK <-> a = ESP_OK /\ Forall (fun e => e = ESP_OK) l.
Proof.
  induction l as [|e l IH]; intros a; simpl.
  - rewrite Forall_nil. tauto.
  - rewrite IH, Forall_cons. unfold ESP_OK. rewrite lor_zero. tauto.
Qed.

Lemma bm_key_in k :
  k ∈ [NVS_KEY_REASON; NVS_KEY_FOLDER; NVS_KEY_RETRY; NVS_KEY_ERROR; NVS_KEY_VOLUME;
       NVS_KEY_MAX_VOL; NVS_KEY_SSID; NVS_KEY_SIZE; NVS_KEY_PROGRESS] ->
  (SIMIBOX_NVS_NAMESPACE, k) ∈ bm_keys.
Proof. apply (list_elem_of_fmap_2 bm_key). Qed.

(** One of the nine writes. *)
Ltac nvs_set :=
  let r := fresh "r" in let w' := fresh "w'" in let Hh := fresh "Hh" in
  let Hs := fresh "Hs" in let Hns := fresh "Hns" in let Hst := fresh "Hst" in
  apply wp_bind, wp_call; intros r w' Hh; cbn [glob wld trace] in *;
  pose proof Hh as Hs;
  match type of Hs with
  | handle (NvsSetU8 _ _ _) _ = _ => apply (nvs_set_u8_law _ SIMIBOX_NVS_NAMESPACE) in Hs
  | handle (NvsSetU32 _ _ _) _ = _ => apply (nvs_set_u32_law _ SIMIBOX_NVS_NAMESPACE) in Hs
  | handle (NvsSetStr _ _ _) _ = _ => apply (nvs_set_str_law _ SIMIBOX_NVS_NAMESPACE) in Hs
  end; [|congruence|apply simibox_not_private];
  destruct Hs as [Hns Hst];
  match type of Hst with if is_ok _ then _ = <[(_, ?k) := _]> _ else _ =>
    eapply (set_outside _ _ bm_keys) in Hh;
      [|done|apply (bm_key_in k), list_elem_of_In; simpl; tauto|exact Hst] end.

Lemma wp_save_state st s :
  bm_open (glob s) (wld s) ->
  wp (boot_mgr_save_state (Some st)) (save_post st s) s.
Proof.
  intros [Hnz Hopen]. apply wp_bind, wp_get.
  destruct (Z.eqb_spec (g_nvs_handle (glob s)) 0); [done|]. cbv zeta.
  do 9 nvs_set.
  match goal with |- context [fold_left Z.lor ?l ESP_OK] =>
    pose proof (fold_lor_ok l ESP_OK) as Hacc; set (acc := fold_left Z.lor l ESP_OK) in * end.
  assert (Hkeep : nvs_outside bm_keys (wld s) w'7) by (do 8 (etransitivity; [eassumption|]); done).
  apply wp_bind. destruct (is_ok acc) eqn:Eacc.
  - apply is_ok_spec, Hacc in Eacc as [_ Hall]. pose proof Hall as Hall'.
    repeat (apply Forall_cons in Hall as [? Hall]).
    repeat match goal with
      | Hs : (if is_ok ?e then _ else _), He : ?e = ESP_OK |- _ =>
          apply set_ok in Hs; [|exact He]
      end.
    apply wp_call. intros r8 w'8 Hc. cbn [glob wld trace] in *.
    assert (Hfl : flushes w'7 w'8) by (intros k; eapply nvs_saved_law; [|exact Hc]; done).
    apply nvs_commit_law in Hc as (Hcs & Hcn & Hcd).
    assert (Hk8 : nvs_outside bm_keys (wld s) w'8)
      by (etransitivity; [exact Hkeep|by apply same_outside]).
    assert (Hsave : nvs_store w'8 = save_spec st (nvs_store (wld s)))
      by (unfold save_spec, bm_key; congruence).
    assert (Hes : is_ok r8 = true <-> length [r8; r7; r6; r5; r4; r3; r2; r1; r0; r] = 10%nat /\
        Forall (fun e => e = ESP_OK) [r8; r7; r6; r5; r4; r3; r2; r1; r0; r]).
    { rewrite is_ok_spec. split; [intros ->; split; [done|]; by repeat constructor|].
      intros [_ F]. by inversion F. }
    assert (Hd : is_ok r8 = true -> forall k, nvs_saved w'8 !! bm_key k = nvs_store w'8 !! bm_key k)
      by (intros Hr k; apply Hcd; [done|congruence]).
    apply wp_bind, wp_when; intros Hr; [apply wp_modify, wp_ret|apply wp_ret];
      exists r8; rewrite Hr in *; cbn [glob wld trace]; split_and!; try done; try congruence; auto;
      exists [r8; r7; r6; r5; r4; r3; r2; r1; r0; r]; by split.
  - apply wp_ret, wp_bind, wp_when; intros Hr; [congruence|].
    apply wp_ret. exists acc. rewrite Eacc. cbn [glob wld trace].
    split_and!; try done; try congruence.
    exists [r7; r6; r5; r4; r3; r2; r1; r0; r]. split; [reflexivity|]. split; [done|by intros [? _]].
Qed.

Lemma wp_get_u8_into h k old Q s :
  nvs_ns (wld s) !! h = Some SIMIBOX_NVS_NAMESPACE ->
  (forall w' tr, nvs_store w' = nvs_store (wld s) -> nvs_ns w' = nvs_ns (wld s) ->
     flushes (wld s) w' ->
     Q (Ret (lookup_u8 (nvs_store (wld s)) k old)) (Sys (glob s) w' tr)) ->
  wp (nvs_get_u8_into h k old) Q s.
Proof.
  intros Ho HQ. apply wp_bind, wp_call. intros [e v] w' Hh.
  assert (Hfl : flushes (wld s) w') by (by eapply flushes_call, Hh).
  eapply nvs_get_u8_law in Hh as (Hs & Hn & Hv); [|exact Ho|done]. apply wp_ret.
  unfold lookup_u8, bm_key in *. 
  destruct (nvs_store (wld s) !! _) as [[x| |]|];
    [destruct Hv as [-> ->]; simpl|rewrite Hv..]; apply HQ; auto.
Qed.

Lemma wp_get_u32_into h k old Q s :
  nvs_ns (wld s) !! h = Some SIMIBOX_NVS_NAMESPACE ->
  (forall w' tr, nvs_store w' = nvs_store (wld s) -> nvs_ns w' = nvs_ns (wld s) ->
     flushes (wld s) w' ->
     Q (Ret (lookup_u32 (nvs_store (wld s)) k old)) (Sys (glob s) w' tr)) ->
  wp (nvs_get_u32_into h k old) Q s.
Proof.
  intros Ho HQ. apply wp_bind, wp_call. intros [e v] w' Hh.
  assert (Hfl : flushes (wld s) w') by (by eapply flushes_call, Hh).
  eapply nvs_get_u32_law in Hh as (Hs & Hn & Hv); [|exact Ho|done]. apply wp_ret.
  unfold lookup_u32, bm_key in *.
  destruct (nvs_store (wld s) !! _) as [[|x|]|];
    [rewrite Hv|destruct Hv as [-> ->]; simpl|rewrite Hv..]; apply HQ; auto.
Qed.

Lemma wp_get_str_into h k buf Q s :
  nvs_ns (wld s) !! h = Some SIMIBOX_NVS_NAMESPACE ->
  (forall w' tr, nvs_store w' = nvs_store (wld s) -> nvs_ns w' = nvs_ns (wld s) ->
     flushes (wld s) w' ->
     Q (Ret (lookup_str (nvs_store (wld s)) k buf)) (Sys (glob s) w' tr)) ->
  wp (nvs_get_str_into h k buf) Q s.
Proof.
  intros Ho HQ. apply wp_bind, wp_call. intros [e v] w' Hh.
  assert (Hfl : flushes (wld s) w') by (by eapply flushes_call, Hh).
  eapply nvs_get_str_law in Hh as (Hs & Hn & Hv); [|exact Ho|done]. apply wp_ret.
  unfold lookup_str, bm_key in *.
  destruct (nvs_store (wld s) !! _) as [[| |x]|];
    [rewrite Hv; apply HQ; auto..| |rewrite Hv; apply HQ; auto].
  destruct (String.length x <? length buf)%nat;
    [destruct Hv as [-> ->]|rewrite Hv]; apply HQ; auto.
Qed.

Ltac nvs_get :=
  apply wp_bind;
  first [apply wp_get_u8_into | apply wp_get_u32_into | apply wp_get_str_into];
  [cbn [glob wld]; congruence|]; intros ?w' ?tr ?Hs ?Hn ?Hfl; cbn [wld] in *.

Lemma wp_load_state st s :
  bm_open (glob s) (wld s) ->
  wp (boot_mgr_load_state (Some st)) (load_post s) s.
Proof.
  intros [Hnz Hopen]. apply wp_bind, wp_get.
  destruct (Z.eqb_spec (g_nvs_handle (glob s)) 0); [done|]. cbv zeta.
  do 9 nvs_get.
  apply wp_bind, wp_modify, wp_ret. unfold load_post. cbn [glob wld].
  assert (F : flushes (wld s) w'7)
    by (do 8 (eapply flushes_trans; [|eassumption|eassumption]); done).
  repeat match goal with Hs : nvs_store ?a = _ |- context [nvs_store ?a] => rewrite Hs end.
  split_and!; congruence || done.
Qed.

(** Encoding then decoding a state gives the state back. *)
Lemma lookup_str_stored m k buf b :
  m !! bm_key k = Some (VStr (cstr b)) -> (strlen b < length buf)%nat ->
  cstr (lookup_str m k buf) = cstr b.
Proof.
  intros Hm Hl. unfold lookup_str, strlen in *. rewrite Hm.
  destruct (Nat.ltb_spec (String.length (cstr b)) (length buf)); [|lia].
  apply cstr_put_cstr, no_nul_cstr.
Qed.

Lemma load_save_spec st m : bs_wf st -> bs_equiv (load_spec (save_spec st m)) st.
Proof.
  intros W. pose proof (wf_folder st W). pose proof (wf_ssid st W).
  constructor; cbn [load_spec reason folder retry_count last_error volume max_volume
                    last_ssid download_size download_progress];
    try (apply lookup_str_stored; [|done]);
    unfold lookup_u8, lookup_u32, save_spec, bm_key;
    repeat (rewrite lookup_insert_eq || rewrite lookup_insert_ne by done); try done;
    destruct W; rewrite ?u8_idem, ?u8_small, ?u32_small; auto.
Qed.

(** The buffer [boot_mgr_request_download] stores a folder name in. *)
Lemma request_folder_cstr f buf :
  length buf = FOLDER_SIZE -> no_nul f = true ->
  cstr (set_char (strncpy buf f (FOLDER_SIZE - 1)) (FOLDER_SIZE - 1) NUL)
  = truncate (FOLDER_SIZE - 1) f.
Proof. intros. by apply cstr_strncpy_term. Qed.

Lemma save_spec_lookup st m :
  save_spec st m !! bm_key NVS_KEY_REASON = Some (VU8 (u8 (reason st))) /\
  save_spec st m !! bm_key NVS_KEY_ERROR = Some (VU8 (u8 (last_error st))) /\
  save_spec st m !! bm_key NVS_KEY_RETRY = Some (VU8 (retry_count st)) /\
  save_spec st m !! bm_key NVS_KEY_PROGRESS = Some (VU8 (download_progress st)) /\
  save_spec st m !! bm_key NVS_KEY_FOLDER = Some (VStr (cstr (folder st))).
Proof.
  unfold save_spec, bm_key.
  repeat split; repeat (rewrite lookup_insert_eq || rewrite lookup_insert_ne by done); done.
Qed.

(** The frame of the boot manager: NVS calls only. *)
Lemma uses_save_state st : uses [CNvs] (boot_mgr_save_state st).
Proof. unfold boot_mgr_save_state. uses_auto. Qed.

Lemma uses_load_state st : uses [CNvs] (boot_mgr_load_state st).
Proof.
  unfold boot_mgr_load_state, nvs_get_u8_into, nvs_get_u32_into, nvs_get_str_into.
  uses_auto.
Qed.

#[local] Hint Resolve uses_save_state uses_load_state : uses.

Lemma uses_report_failure e : uses [CNvs] (boot_mgr_report_failure e).
Proof. unfold boot_mgr_report_failure, update_current. uses_auto. Qed.

Lemma uses_report_success : uses [CNvs] boot_mgr_report_success.
Proof. unfold boot_mgr_report_success, update_current. uses_auto. Qed.

Lemma uses_boot_mgr_init : uses [CNvs] boot_mgr_init.
Proof. unfold boot_mgr_init, set_handle. uses_auto. Qed.

Lemma uses_request_download f n : uses [CNvs] (boot_mgr_request_download f n).
Proof. unfold boot_mgr_request_download. uses_auto. Qed.

Lemma wp_report_failure e s :
  bm_open (glob s) (wld s) ->
  wp (boot_mgr_report_failure e)
     (save_post (failed_state e (g_current_state (glob s)))
        (with_current (failed_state e (g_current_state (glob s))) s)) s.
Proof.
  intros Ho. apply wp_bind, wp_modify, wp_bind, wp_modify, wp_bind, wp_modify, wp_bind, wp_get.
  exact (wp_save_state _ (with_current (failed_state e (g_current_state (glob s))) s) Ho).
Qed.

Lemma wp_report_success s :
  bm_open (glob s) (wld s) ->
  wp boot_mgr_report_success
     (save_post (success_state (g_current_state (glob s)))
        (with_current (success_state (g_current_state (glob s))) s)) s.
Proof.
  intros Ho. apply wp_bind, wp_modify, wp_bind, wp_modify, wp_bind, wp_modify, wp_bind, wp_get.
  exact (wp_save_state _ (with_current (success_state (g_current_state (glob s))) s) Ho).
Qed.

Lemma wp_boot_mgr_init s :
  wp boot_mgr_init (fun o s' =>
    exists e, o = Ret e /\ nvs_store (wld s') = nvs_store (wld s) /\
      flushes (wld s) (wld s') /\
      (forall h ns, nvs_ns (wld s) !! h = Some ns -> nvs_ns (wld s') !! h = Some ns) /\
      (is_ok e = true -> bm_open (glob s') (wld s') /\
         g_current_state (glob s') = load_spec (nvs_store (wld s)))) s.
Proof.
  apply wp_bind, wp_call. intros [e h] w' Hh.
  assert (Hfl : flushes (wld s) w') by (by eapply flushes_call, Hh).
  apply nvs_open_law in Hh as [Hs Hn]. destruct (is_ok e) eqn:E; simpl negb; cbn iota.
  - destruct Hn as (Hz & Hf & Hn). apply wp_bind, wp_modify, wp_bind, wp_get, wp_bind.
    eapply wp_mono.
    + apply wp_load_state. split; cbn [glob wld g_nvs_handle]; [done|].
      rewrite Hn. apply lookup_insert_eq.
    + intros o s' (-> & Hc & Hg & Hn' & Hs' & Hf'). cbn [glob wld g_nvs_handle] in *.
      apply wp_ret. exists ESP_OK. split_and!; try congruence.
      * by eapply flushes_trans.
      * intros h' ns Hl. rewrite Hn', Hn. rewrite lookup_insert_ne; congruence.
      * intros _. unfold bm_open. rewrite Hg, Hn', Hn, lookup_insert_eq.
        split; [done|]. congruence.
  - apply wp_ret. exists e. cbn [wld]. split_and!; congruence || done.
Qed.
End Facts.

#[export] Hint Resolve uses_save_state uses_load_state uses_report_failure
  uses_report_success uses_boot_mgr_init uses_request_download : uses.

(** ** Properties *)

Section Properties.
Context `{NvsLaws}.

(** C9: what [boot_mgr_save_state] stores, [boot_mgr_load_state] reads back:
    after a save that reports [ESP_OK], a load returns the same state (the
    same integers and the same C strings) and caches it. *)
Theorem save_load_roundtrip st st0 s :
  bs_wf st -> bm_open (glob s) (wld s) ->
  wp (r <- boot_mgr_save_state (Some st) ;;
      if is_ok r then p <- boot_mgr_load_state (Some st0) ;; ret (Some p) else ret None)
    (fun o s' => match o with
      | Ret None => True
      | Ret (Some (e, Some st')) =>
          e = ESP_OK /\ bs_equiv st' st /\ g_current_state (glob s') = st'
      | _ => False
      end) s.
Proof.
  intros W Ho. apply wp_bind. eapply wp_mono; [by apply wp_save_state|].
  intros o s' (r & -> & Hh & Hn & _ & _ & Hr). destruct (is_ok r); [|by apply wp_ret].
  destruct Hr as (Hst & _ & _). apply wp_bind. eapply wp_mono.
  { apply wp_load_state. unfold bm_open in *. rewrite Hh, Hn. exact Ho. }
  intros o' s'' (-> & Hc & _). apply wp_ret. split; [done|].
  rewrite Hc, Hst. split; [by apply load_save_spec|done].
Qed.

(** C10: [boot_mgr_save_state] returns [ESP_OK] exactly when it made ten writes,
    the nine sets and the commit, and each returned [ESP_OK] ([ret |= ...] hides
    no error).  Then the nine keys of the protocol hold the record, for a read
    now and after a restart, no other key was written, and the cache is the
    record.  On an error the cache is untouched; some of the nine keys may have
    been written, all of them when it was the commit that failed.  In any case
    every other key reads back as before, and survives a restart with the value
    it had or the one that was pending. *)
Theorem save_state_correct st s :
  bm_open (glob s) (wld s) ->
  wp (boot_mgr_save_state (Some st)) (save_post st s) s.
Proof. apply wp_save_state. Qed.

(** [boot_mgr_load_state] on a store without the protocol's keys (a fresh
    or erased namespace) returns the defaults: normal boot, volume 6 of 12,
    empty folder, no error. *)
Theorem load_state_defaults st0 s :
  bm_open (glob s) (wld s) ->
  (forall k, k ∈ bm_keys -> nvs_store (wld s) !! k = None) ->
  wp (boot_mgr_load_state (Some st0)) (fun o s' =>
    o = Ret (ESP_OK, Some default_state) /\ g_current_state (glob s') = default_state /\
    nvs_store (wld s') = nvs_store (wld s)) s.
Proof.
  intros Ho Hnone.
  assert (Hd : load_spec (nvs_store (wld s)) = default_state).
  { unfold load_spec, lookup_u8, lookup_u32, lookup_str.
    rewrite !Hnone by (apply list_elem_of_In; simpl; tauto). done. }
  eapply wp_mono; [by apply wp_load_state|].
  intros o s' (-> & Hc & _ & _ & Hs & _). by rewrite Hc, Hd.
Qed.

(** Requesting a download of a non-empty folder makes
    [boot_mgr_needs_download] true, stores the request (reason 1, the folder
    name cut to the 63 characters the buffer holds, a fresh retry budget) and
    keeps the user's settings; if the write fails the cache is as before. *)
Theorem request_download_needs f size s :
  bm_open (glob s) (wld s) ->
  length (folder (g_current_state (glob s))) = FOLDER_SIZE ->
  no_nul f = true -> f <> EmptyString ->
  wp (r <- boot_mgr_request_download (Some f) size ;;
      b <- boot_mgr_needs_download ;; ret (r, b))
    (fun o s' => exists r b, o = Ret (r, b) /\
      (if is_ok r then
         b = true /\
         nvs_store (wld s') !! bm_key NVS_KEY_REASON = Some (VU8 1) /\
         nvs_store (wld s') !! bm_key NVS_KEY_RETRY = Some (VU8 0) /\
         nvs_store (wld s') !! bm_key NVS_KEY_FOLDER = Some (VStr (truncate 63 f)) /\
         volume (g_current_state (glob s')) = volume (g_current_state (glob s)) /\
         max_volume (g_current_state (glob s')) = max_volume (g_current_state (glob s))
       else g_current_state (glob s') = g_current_state (glob s))) s.
Proof.
  intros Ho Hl Hn Hf. apply wp_bind, wp_bind, wp_get. cbv zeta.
  eapply wp_mono; [by apply wp_save_state|].
  intros o s' (r & -> & _ & _ & _ & _ & Hr). apply wp_bind, wp_bind, wp_get, wp_ret, wp_ret.
  eexists r, _. split; [done|]. destruct (is_ok r); [|done].
  destruct Hr as (Hst & _ & Hc).
  match type of Hst with _ = save_spec ?st _ =>
    destruct (save_spec_lookup st (nvs_store (wld s))) as (L1 & L2 & L3 & L4 & L5) end.
  rewrite Hst, Hc, L1, L3, L5. cbn [reason folder retry_count volume max_volume set_reason
    set_folder set_retry_count set_last_error set_download_size set_download_progress].
  unfold strlen. rewrite request_folder_cstr by done. split_and!; try done.
  apply andb_true_iff. split; [done|]. apply Nat.ltb_lt. rewrite length_truncate.
  unfold FOLDER_SIZE. destruct f; [done|]. simpl. lia.
Qed.

(** C11: after [boot_mgr_report_failure error] reports [ESP_OK], NVS says
    DOWNLOAD_FAILED with that error code and the retry counter is one more
    (modulo its 8 bits), the requested folder is kept, and every other
    namespace and key, the boot counter included, is untouched. *)
Theorem report_failure_correct error s :
  bm_open (glob s) (wld s) ->
  wp (boot_mgr_report_failure error) (fun o s' =>
    exists r, o = Ret r /\
      nvs_store (wld s') !! bm_key NVS_KEY_BOOT_COUNT
        = nvs_store (wld s) !! bm_key NVS_KEY_BOOT_COUNT /\
      (is_ok r = true ->
       nvs_store (wld s') !! bm_key NVS_KEY_REASON = Some (VU8 3) /\
       nvs_store (wld s') !! bm_key NVS_KEY_ERROR = Some (VU8 error) /\
       nvs_store (wld s') !! bm_key NVS_KEY_RETRY
         = Some (VU8 ((retry_count (g_current_state (glob s)) + 1) mod 256)) /\
       nvs_store (wld s') !! bm_key NVS_KEY_FOLDER
         = Some (VStr (cstr (folder (g_current_state (glob s))))))) s.
Proof.
  intros Ho. eapply wp_mono; [by apply wp_report_failure|].
  intros o s' (r & -> & _ & _ & Hk & _ & Hr). exists r. split; [done|]. split.
  { apply Hk. unfold bm_keys. rewrite list_elem_of_In. simpl. unfold bm_key.
    intuition discriminate. }
  intros E. rewrite E in Hr. destruct Hr as (Hst & _ & _).
  destruct (save_spec_lookup (failed_state error (g_current_state (glob s)))
              (nvs_store (wld s))) as (L1 & L2 & L3 & L4 & L5).
  cbn [with_current wld] in Hst. rewrite Hst, L1, L2, L3, L5. split_and!; try done.
  simpl. rewrite u8_small; auto with width.
Qed.

(** After [boot_mgr_report_success] reports [ESP_OK], NVS says
    DOWNLOAD_SUCCESS, no error and progress 100, for the requested folder, and
    [boot_mgr_needs_download] is false: the next boot does not download again. *)
Theorem report_success_correct s :
  bm_open (glob s) (wld s) ->
  wp (r <- boot_mgr_report_success ;; b <- boot_mgr_needs_download ;; ret (r, b))
    (fun o s' => exists r b, o = Ret (r, b) /\
      (is_ok r = true ->
       b = false /\
       nvs_store (wld s') !! bm_key NVS_KEY_REASON = Some (VU8 2) /\
       nvs_store (wld s') !! bm_key NVS_KEY_ERROR = Some (VU8 0) /\
       nvs_store (wld s') !! bm_key NVS_KEY_PROGRESS = Some (VU8 100) /\
       nvs_store (wld s') !! bm_key NVS_KEY_FOLDER
         = Some (VStr (cstr (folder (g_current_state (glob s))))))) s.
Proof.
  intros Ho. apply wp_bind. eapply wp_mono; [by apply wp_report_success|].
  intros o s' (r & -> & _ & _ & _ & _ & Hr). apply wp_bind, wp_bind, wp_get, wp_ret, wp_ret.
  eexists r, _. split; [done|]. intros E. rewrite E in Hr. destruct Hr as (Hst & _ & Hc).
  destruct (save_spec_lookup (success_state (g_current_state (glob s)))
              (nvs_store (wld s))) as (L1 & L2 & L3 & L4 & L5).
  cbn [with_current wld] in Hst. rewrite Hst, Hc, L1, L2, L4, L5. by split_and!.
Qed.
End Properties.

(** every error code of the protocol has a message of its own, and only
    codes outside the protocol read "Unknown error". *)
Theorem error_string_total_injective :
  (forall e e' : download_error_t,
     boot_mgr_get_error_string e = boot_mgr_get_error_string e' -> e = e') /\
  (forall n : Z, boot_mgr_get_error_string n = "Unknown error"%string <->
     forall e : download_error_t, n <> e).
Proof.
  split; [intros [] []; done|]. intros n. unfold boot_mgr_get_error_string. split.
  - intros Hs e ->. by destruct e.
  - intros Hn.
    pose proof (Hn DOWNLOAD_ERROR_NONE); pose proof (Hn DOWNLOAD_ERROR_WIFI_CONNECT);
    pose proof (Hn DOWNLOAD_ERROR_SERVER_UNREACHABLE);
    pose proof (Hn DOWNLOAD_ERROR_DOWNLOAD_FAILED);
    pose proof (Hn DOWNLOAD_ERROR_VERIFICATION_FAILED);
    pose proof (Hn DOWNLOAD_ERROR_SD_CARD); pose proof (Hn DOWNLOAD_ERROR_TIMEOUT).
    repeat match goal with |- context [n =? ?m] => destruct (Z.eqb_spec n m); [contradiction|] end.
    done.
Qed.

(** ** The hypotheses hold on a concrete platform *)

Definition ex_state : boot_state_t :=
  BootState 1 (put_cstr (zeros 64) "mozart") 1 0 7 12 (put_cstr (zeros 32) "home") 4096 0.

Definition ex_world : tworld :=
  tw_nvs ({[ ("simibox", "hmac")%string := VU8 42 ]}) ({[ 1 := SIMIBOX_NVS_NAMESPACE ]}) tw_init.

Definition ex_bm : @sys plain_env bm := test_start (Bm 1 ex_state) ex_world.

Lemma ex_state_wf : bs_wf ex_state.
Proof. split; vm_compute; try split; try done; lia. Qed.

Lemma ex_bm_open : @bm_open plain_env plain_nvs (glob ex_bm) (wld ex_bm).
Proof. by split. Qed.

Lemma save_load_roundtrip_witness :
  bs_wf ex_state /\
  wp (r <- boot_mgr_save_state (Some ex_state) ;;
      if is_ok r then p <- boot_mgr_load_state (Some zero_state) ;; ret (Some p) else ret None)
    (fun o s' => match o with
      | Ret None => True
      | Ret (Some (e, Some st')) =>
          e = ESP_OK /\ bs_equiv st' ex_state /\ g_current_state (glob s') = st'
      | _ => False
      end) ex_bm.
Proof.
  split; [apply ex_state_wf|].
  apply (save_load_roundtrip (H0 := plain_nvs) ex_state zero_state ex_bm);
    [apply ex_state_wf | apply ex_bm_open].
Defined.

(** On this platform the save succeeds, so the round trip is not vacuous. *)
Example ex_save_ok :
  fst (boot_mgr_save_state (Some ex_state) ex_bm) = Ret ESP_OK.
Proof. vm_compute. reflexivity. Qed.

Lemma save_state_correct_witness :
  wp (boot_mgr_save_state (Some ex_state))
     (save_post (H0 := plain_nvs) ex_state ex_bm) ex_bm.
Proof. apply (save_state_correct (H0 := plain_nvs)), ex_bm_open. Defined.

Lemma load_state_defaults_witness :
  (forall k, k ∈ bm_keys -> nvs_store (NvsLaws := plain_nvs) (wld ex_bm) !! k = None) /\
  wp (boot_mgr_load_state (Some ex_state)) (fun o s' =>
    o = Ret (ESP_OK, Some default_state) /\ g_current_state (glob s') = default_state /\
    nvs_store (NvsLaws := plain_nvs) (wld s') = nvs_store (wld ex_bm)) ex_bm.
Proof.
  assert (Hk : forall k, k ∈ bm_keys -> nvs_store (NvsLaws := plain_nvs) (wld ex_bm) !! k = None).
  { intros k Hk. apply list_elem_of_In in Hk. simpl in Hk.
    repeat destruct Hk as [<-|Hk]; try reflexivity. done. }
  split; [exact Hk|].
  apply (load_state_defaults (H0 := plain_nvs)); [apply ex_bm_open|exact Hk].
Defined.

Lemma request_download_needs_witness :
  wp (r <- boot_mgr_request_download (Some "bach"%string) 100 ;;
      b <- boot_mgr_needs_download ;; ret (r, b))
    (fun o s' => exists r b, o = Ret (r, b) /\
      (if is_ok r then
         b = true /\
         nvs_store (NvsLaws := plain_nvs) (wld s') !! bm_key NVS_KEY_REASON = Some (VU8 1) /\
         nvs_store (wld s') !! bm_key NVS_KEY_RETRY = Some (VU8 0) /\
         nvs_store (wld s') !! bm_key NVS_KEY_FOLDER
           = Some (VStr (truncate 63 "bach"%string)) /\
         volume (g_current_state (glob s')) = volume (g_current_state (glob ex_bm)) /\
         max_volume (g_current_state (glob s')) = max_volume (g_current_state (glob ex_bm))
       else g_current_state (glob s') = g_current_state (glob ex_bm))) ex_bm.
Proof.
  apply (request_download_needs (H0 := plain_nvs)); [apply ex_bm_open|done..].
Defined.

Lemma report_failure_correct_witness :
  wp (boot_mgr_report_failure DOWNLOAD_ERROR_SD_CARD) (fun o s' =>
    exists r, o = Ret r /\
      nvs_store (NvsLaws := plain_nvs) (wld s') !! bm_key NVS_KEY_BOOT_COUNT
        = nvs_store (wld ex_bm) !! bm_key NVS_KEY_BOOT_COUNT /\
      (is_ok r = true ->
       nvs_store (wld s') !! bm_key NVS_KEY_REASON = Some (VU8 3) /\
       nvs_store (wld s') !! bm_key NVS_KEY_ERROR = Some (VU8 DOWNLOAD_ERROR_SD_CARD) /\
       nvs_store (wld s') !! bm_key NVS_KEY_RETRY
         = Some (VU8 ((retry_count (g_current_state (glob ex_bm)) + 1) mod 256)) /\
       nvs_store (wld s') !! bm_key NVS_KEY_FOLDER
         = Some (VStr (cstr (folder (g_current_state (glob ex_bm))))))) ex_bm.
Proof. apply (report_failure_correct (H0 := plain_nvs)), ex_bm_open. Defined.

Lemma report_success_correct_witness :
  wp (r <- boot_mgr_report_success ;; b <- boot_mgr_needs_download ;; ret (r, b))
    (fun o s' => exists r b, o = Ret (r, b) /\
      (is_ok r = true ->
       b = false /\
       nvs_store (NvsLaws := plain_nvs) (wld s') !! bm_key NVS_KEY_REASON = Some (VU8 2) /\
       nvs_store (wld s') !! bm_key NVS_KEY_ERROR = Some (VU8 0) /\
       nvs_store (wld s') !! bm_key NVS_KEY_PROGRESS = Some (VU8 100) /\
       nvs_store (wld s') !! bm_key NVS_KEY_FOLDER
         = Some (VStr (cstr (folder (g_current_state (glob ex_bm))))))) ex_bm.
Proof. apply (report_success_correct (H0 := plain_nvs)), ex_bm_open. Defined.
