(* ===== verification/WifiCreds.v ===== *)
(** * WiFi credentials: [simibox_wifi_creds_idf.c]

    The saved networks, the event handler and the connection strategies.  The
    handler runs on the event task: it is interleaved with the caller at every
    driver call ([wcall] first delivers the events the platform has for us) and
    inside every blocking wait. *)

From Stdlib Require Import Sorted Permutation.
From stdpp Require Import gmap strings.
From S2P Require Import Prelude Idf Logic CLib Protocol Nvs TestEnv.
#[local] Open Scope Z_scope.

(** ** Event groups *)

(** What the sources rely on of FreeRTOS event groups. *)
Class EventGroup := {
  eg : Type;
  eg_new : eg;
  eg_get : eg -> Z;
  eg_set : Z -> eg -> eg;
  eg_clear : Z -> eg -> eg;
  eg_get_new : eg_get eg_new = 0;
  eg_get_set b g : eg_get (eg_set b g) = Z.lor (eg_get g) b;
  eg_get_clear b g : eg_get (eg_clear b g) = Z.ldiff (eg_get g) b
}.

Definition CONNECTED_BIT : Z := 1.
Definition DISCONNECTED_BIT : Z := 2.

(** ** State *)

Definition WIFI_MAX_NETWORKS : nat := 5.
Definition WIFI_SSID_MAX_LEN : nat := 33.
Definition WIFI_PASS_MAX_LEN : nat := 65.
Definition WIFI_SCAN_MAX_AP : nat := 20.

Record wifi_network_t := Network {
  ssid : list char;
  password : list char;
  rssi : Z
}.

Record wifi_creds_handle_t := CredsHandle {
  networks : list wifi_network_t;
  count : nat;
  initialized : bool
}.

(** The statics of the file and the object the callers' handle points to. *)
Record wg `{EventGroup} := Wg {
  wifi_event_group : eg;
  s_wifi_initialized : bool;
  s_is_connecting : bool;
  wh : wifi_creds_handle_t
}.

Arguments Wg {_}.
Arguments wifi_event_group {_}.
Arguments s_wifi_initialized {_}.
Arguments s_is_connecting {_}.
Arguments wh {_}.

Definition zero_network : wifi_network_t :=
  Network (zeros WIFI_SSID_MAX_LEN) (zeros WIFI_PASS_MAX_LEN) 0.

(** [memset(handle, 0, sizeof)] *)
Definition zero_handle : wifi_creds_handle_t :=
  CredsHandle (replicate WIFI_MAX_NETWORKS zero_network) 0 false.

Definition set_rssi (r : Z) (n : wifi_network_t) : wifi_network_t :=
  Network (ssid n) (password n) r.
Definition set_networks (l : list wifi_network_t) (h : wifi_creds_handle_t) :=
  CredsHandle l (count h) (initialized h).
Definition set_count (c : nat) (h : wifi_creds_handle_t) :=
  CredsHandle (networks h) c (initialized h).

(** [handle->networks[i].f = ...] *)
Definition update_network (i : nat) (f : wifi_network_t -> wifi_network_t)
    (h : wifi_creds_handle_t) : wifi_creds_handle_t :=
  set_networks (alter f i (networks h)) h.

(** Apply [f] to the elements the loops [for (j = 0; j < count; j++)] visit. *)
Definition on_saved (f : wifi_network_t -> wifi_network_t) (h : wifi_creds_handle_t)
  : wifi_creds_handle_t :=
  set_networks (map f (take (count h) (networks h)) ++ drop (count h) (networks h)) h.

(** ** Scan results *)

(** The body of the matching loops, for one access point and one network. *)
Definition match_network (ap : ap_record) (n : wifi_network_t) : wifi_network_t :=
  if strcmp_eq (ap_ssid ap) (cstr (ssid n)) then set_rssi (s8 (ap_rssi ap)) n else n.

Definition match_aps (aps : list ap_record) (h : wifi_creds_handle_t) : wifi_creds_handle_t :=
  fold_left (fun h ap => on_saved (match_network ap) h) aps h.

(** One pass of the bubble sort: [k] comparisons of neighbours from the front. *)
Fixpoint bubble_pass (k : nat) (l : list wifi_network_t) : list wifi_network_t :=
  match k, l with
  | S k', a :: b :: l' =>
      if rssi a <? rssi b then b :: bubble_pass k' (a :: l') else a :: bubble_pass k' (b :: l')
  | _, _ => l
  end.

(** Passes of [k], [k - 1], ..., 1 comparisons. *)
Fixpoint bubble_sort (k : nat) (l : list wifi_network_t) : list wifi_network_t :=
  match k with
  | O => l
  | S k' => bubble_sort k' (bubble_pass k l)
  end.

Definition sort_networks (h : wifi_creds_handle_t) : wifi_creds_handle_t :=
  set_networks (bubble_sort (count h - 1) (networks h)) h.

Section WifiCreds.
Context `{Env, EventGroup}.

Definition set_group (f : eg -> eg) : M wg unit :=
  modify (fun g => Wg (f (wifi_event_group g)) (s_wifi_initialized g) (s_is_connecting g) (wh g)).
Definition set_connecting (b : bool) : M wg unit :=
  modify (fun g => Wg (wifi_event_group g) (s_wifi_initialized g) b (wh g)).
Definition set_wifi_initialized (b : bool) : M wg unit :=
  modify (fun g => Wg (wifi_event_group g) b (s_is_connecting g) (wh g)).
Definition set_wh (f : wifi_creds_handle_t -> wifi_creds_handle_t) : M wg unit :=
  modify (fun g => Wg (wifi_event_group g) (s_wifi_initialized g) (s_is_connecting g) (f (wh g))).

(** ** The event handler and its interleaving *)

Definition wifi_event_handler (e : wifi_event) : M wg unit :=
  match e with
  | STA_START | STA_CONNECTED | OTHER_EVENT => ret tt
  | STA_DISCONNECTED _ =>
      set_group (eg_clear CONNECTED_BIT) ;;
      set_group (eg_set DISCONNECTED_BIT) ;;
      g <- get ;;
      when (s_is_connecting g) (call_ EspWifiConnect)
  | STA_GOT_IP =>
      set_group (eg_set CONNECTED_BIT) ;;
      set_group (eg_clear DISCONNECTED_BIT) ;;
      set_connecting false
  end.

(** Run the handler on the events delivered at this point. *)
Definition pump : M wg unit :=
  evs <- call PollEvents ;; for_each evs wifi_event_handler.

Definition wcall {X} (c : cmd X) : M wg X := pump ;; call c.
Definition wcall_ {X} (c : cmd X) : M wg unit := pump ;; call_ c.

Definition has_bit (g : wg) : bool :=
  negb (Z.land (eg_get (wifi_event_group g)) CONNECTED_BIT =? 0).

(** The handler runs on the events of the wait until the bit is set. *)
Fixpoint wait_events (evs : list wifi_event) : M wg unit :=
  match evs with
  | [] => ret tt
  | e :: evs' =>
      wifi_event_handler e ;;
      g <- get ;;
      if has_bit g then ret tt else wait_events evs'
  end.

(** [xEventGroupWaitBits(group, CONNECTED_BIT, pdFALSE, pdFALSE, ms)], and the
    test of the bit in what it returns. *)
Definition wait_connected (ms : Z) : M wg bool :=
  g <- get ;;
  if has_bit g then ret true else
  evs <- call (WaitEvents ms) ;;
  wait_events evs ;;
  g' <- get ;;
  ret (has_bit g').

(** ** Initialization *)

(** [handle] says whether the pointer is non-NULL. *)
Definition wifi_creds_init (handle : bool) : M wg Z :=
  if negb handle then ret ESP_ERR_INVALID_ARG else
  set_wh (fun _ => zero_handle) ;;
  call_ NvsFlashInit ;;
  esp_error_check (call EspNetifInit) ;;
  esp_error_check (call EspEventLoopCreateDefault) ;;
  call_ EspNetifCreateDefaultWifiSta ;;
  esp_error_check (call EspWifiInit) ;;
  set_group (fun _ => eg_new) ;;
  esp_error_check (call (EspEventHandlerRegister "WIFI_EVENT")) ;;
  esp_error_check (wcall (EspEventHandlerRegister "IP_EVENT_STA_GOT_IP")) ;;
  esp_error_check (wcall EspWifiSetModeSta) ;;
  esp_error_check (wcall EspWifiSetPsNone) ;;
  esp_error_check (wcall EspWifiSetBandwidthHt40) ;;
  esp_error_check (wcall EspWifiSetProtocolBgn) ;;
  esp_error_check (wcall EspWifiStart) ;;
  set_wh (fun h => CredsHandle (networks h) (count h) true) ;;
  set_wifi_initialized true ;;
  ret ESP_OK.

(** ** Waiting for a connection *)

Definition wifi_creds_wait_for_connection (timeout_ms : Z) : M wg Z :=
  let! (e, _) := wcall EspWifiStaGetApInfo in
  if is_ok e then ret ESP_OK else
  set_connecting true ;;
  wcall_ EspWifiConnect ;;
  bits <- wait_connected timeout_ms ;;
  set_connecting false ;;
  if (bits : bool) then wcall_ EspWifiStaGetApInfo ;; ret ESP_OK
  else ret ESP_ERR_TIMEOUT.

(** ** Loading the saved networks *)

(** One iteration of the loop of [wifi_creds_load]; the two [continue]s leave
    the slot, whatever was written in it, unused. *)
Definition load_network (nvs : Z) (i : nat) : M wg unit :=
  g <- get ;;
  let c := count (wh g) in
  let! (e1, s) := call (NvsGetStr nvs (snprintf_key "ssid_" (Z.of_nat i)) WIFI_SSID_MAX_LEN) in
  if negb (is_ok e1) then ret tt else
  set_wh (update_network c (fun n => Network (put_cstr (ssid n) s) (password n) (rssi n))) ;;
  let! (e2, p) := call (NvsGetStr nvs (snprintf_key "pass_" (Z.of_nat i)) WIFI_PASS_MAX_LEN) in
  if negb (is_ok e2) then ret tt else
  set_wh (update_network c (fun n => Network (ssid n) (put_cstr (password n) p) (rssi n))) ;;
  set_wh (update_network c (set_rssi (-100))) ;;
  set_wh (fun h => set_count (S (count h)) h).

Definition wifi_creds_load (handle : bool) : M wg Z :=
  g <- get ;;
  if negb handle || negb (initialized (wh g)) then ret ESP_ERR_INVALID_STATE else
  let! (e, nvs) := call (NvsOpen "wifi_creds" NVS_READONLY) in
  if negb (is_ok e) then ret ESP_OK else
  let! (e2, v) := call (NvsGetU8 nvs "count") in
  let cnt := u8 v in
  if negb (is_ok e2) || (cnt =? 0) then call_ (NvsClose nvs) ;; ret ESP_OK else
  set_wh (set_count 0) ;;
  for_each (seq 0 (Nat.min (Z.to_nat cnt) WIFI_MAX_NETWORKS)) (load_network nvs) ;;
  call_ (NvsClose nvs) ;;
  ret ESP_OK.

(** ** Scanning *)

Definition wifi_creds_scan_and_match (handle : bool) : M wg Z :=
  g <- get ;;
  if negb handle || negb (initialized (wh g)) then ret ESP_ERR_INVALID_STATE else
  set_wh (on_saved (set_rssi (-100))) ;;
  e1 <- wcall (EspWifiScanStart (ScanConfig false 100 1500)) ;;
  if negb (is_ok e1) then ret e1 else
  let! (e2, aps) := wcall (EspWifiScanGetApRecords WIFI_SCAN_MAX_AP) in
  if negb (is_ok e2) then ret e2 else
  set_wh (match_aps aps) ;;
  set_wh sort_networks ;;
  ret ESP_OK.

(** ** Connecting to the best saved network *)

(** [wifi_config.sta]: the zeroed [ssid[32]] and [password[64]] after the two
    [strncpy]. *)
Definition sta_ssid (n : wifi_network_t) : list char := strncpy (zeros 32) (cstr (ssid n)) 32.
Definition sta_password (n : wifi_network_t) : list char :=
  strncpy (zeros 64) (cstr (password n)) 64.

(** One iteration of the connection loop; [true] is [return ESP_OK]. *)
Definition try_network (wait_ms : Z) (n : wifi_network_t) : M wg bool :=
  if rssi n <=? -100 then ret false else
  wcall_ EspWifiDisconnect ;;
  cfg_err <- wcall (EspWifiSetConfig (sta_ssid n) (sta_password n)) ;;
  if negb (is_ok cfg_err) then ret false else
  con_err <- wcall EspWifiConnect ;;
  if negb (is_ok con_err) then ret false else
  wcall_ EspWifiSetPsNone ;;
  wcall_ EspWifiSetBandwidthHt40 ;;
  pump ;;
  set_group (eg_clear CONNECTED_BIT) ;;
  bits <- wait_connected wait_ms ;;
  if (bits : bool) then set_connecting false ;; ret true else ret false.

Fixpoint try_networks (wait_ms : Z) (l : list wifi_network_t) : M wg bool :=
  match l with
  | [] => ret false
  | n :: l' =>
      ok <- try_network wait_ms n ;;
      if (ok : bool) then ret true else try_networks wait_ms l'
  end.

Definition any_visible (h : wifi_creds_handle_t) : bool :=
  existsb (fun n => -100 <? rssi n) (take (count h) (networks h)).

Definition wifi_creds_connect_best (handle : bool) (timeout_ms : Z) : M wg Z :=
  g <- get ;;
  if negb handle || negb (initialized (wh g)) then ret ESP_ERR_INVALID_STATE else
  if (count (wh g) =? 0)%nat then ret ESP_ERR_NOT_FOUND else
  _ <- wifi_creds_scan_and_match handle ;;
  set_connecting true ;;
  g1 <- get ;;
  when (negb (any_visible (wh g1)) && (0 <? count (wh g1))%nat)
    (set_wh (update_network 0 (set_rssi (-99)))) ;;
  g2 <- get ;;
  ok <- try_networks (timeout_ms / Z.of_nat (count (wh g2)))
          (take (count (wh g2)) (networks (wh g2))) ;;
  if (ok : bool) then ret ESP_OK else set_connecting false ;; ret ESP_FAIL.

Definition wifi_creds_connect_auto (handle : bool) (timeout_ms : Z) : M wg Z :=
  g <- get ;;
  if negb handle || negb (initialized (wh g)) then ret ESP_ERR_INVALID_STATE else
  r1 <- wifi_creds_wait_for_connection (timeout_ms / 2) ;;
  if is_ok r1 then ret ESP_OK else
  r2 <- wifi_creds_load handle ;;
  g' <- get ;;
  if negb (is_ok r2) || (count (wh g') =? 0)%nat
  then wifi_creds_wait_for_connection (timeout_ms / 2)
  else wifi_creds_connect_best handle (timeout_ms / 2).

(** ** Information *)

(** [buf] is the caller's buffer ([None] for NULL), [max_len] its size. *)
Definition wifi_creds_get_current_ssid (buf : option (list char)) (max_len : nat)
  : M wg (Z * option (list char)) :=
  match buf with
  | None => ret (ESP_ERR_INVALID_ARG, None)
  | Some b =>
      if (max_len =? 0)%nat then ret (ESP_ERR_INVALID_ARG, Some b) else
      let! (e, ap) := wcall EspWifiStaGetApInfo in
      ret (e, Some (if is_ok e
                    then set_char (strncpy b (ap_ssid ap) (max_len - 1)) (max_len - 1) NUL
                    else b))
  end.

Definition wifi_creds_get_connection_info : M wg (Z * option (Z * Z)) :=
  let! (e, ap) := wcall EspWifiStaGetApInfo in
  ret (e, if is_ok e then Some (s8 (ap_rssi ap), u8 (ap_primary ap)) else None).

Definition wifi_creds_is_connected : M wg bool :=
  let! (e, _) := wcall EspWifiStaGetApInfo in ret (is_ok e).
End WifiCreds.

(** ** Specification *)

Definition by_rssi_desc (a b : wifi_network_t) : Prop := rssi b <= rssi a.

(** The network as the scan leaves it: the signal of the last access point in
    the driver's list that has its SSID. *)
Definition scanned (aps : list ap_record) (n : wifi_network_t) : wifi_network_t :=
  match find_last (fun ap => strcmp_eq (ap_ssid ap) (cstr (ssid n))) aps with
  | Some ap => set_rssi (s8 (ap_rssi ap)) n
  | None => n
  end.

(** The credentials of entry [i] of the namespace, if both strings are there and
    fit their buffers. *)
Definition saved_pair (m : nvs_map) (i : nat) : option (string * string) :=
  match m !! ("wifi_creds"%string, snprintf_key "ssid_" (Z.of_nat i)),
        m !! ("wifi_creds"%string, snprintf_key "pass_" (Z.of_nat i)) with
  | Some (VStr s), Some (VStr p) =>
      if (String.length s <? WIFI_SSID_MAX_LEN)%nat && (String.length p <? WIFI_PASS_MAX_LEN)%nat
      then Some (s, p) else None
  | _, _ => None
  end.

Definition creds_of (n : wifi_network_t) : string * string := (cstr (ssid n), cstr (password n)).

(** The credentials in the used slots. *)
Definition loaded (h : wifi_creds_handle_t) : list (string * string) :=
  map creds_of (take (count h) (networks h)).

Definition wh_wf (h : wifi_creds_handle_t) : Prop :=
  length (networks h) = WIFI_MAX_NETWORKS /\ (count h <= WIFI_MAX_NETWORKS)%nat.

(** Milliseconds a trace spends in event-group waits. *)
Definition wait_of (e : event) : Z :=
  match e with Ev c _ => match c with WaitEvents ms => ms | _ => 0 end end.
Definition waited (tr : list event) : Z := fold_right (fun e a => wait_of e + a) 0 tr.

(** The configurations a trace gave the driver, newest first. *)
Definition config_of (e : event) : option (list char * list char) :=
  match e with Ev c _ => match c with EspWifiSetConfig ss pw => Some (ss, pw) | _ => None end end.
Definition configured (tr : list event) : list (list char * list char) := omap config_of tr.

(** One attempt to join [n], as the trace shows it: the driver is configured for
    it, once; if that works it is asked to connect; if that works too the attempt
    fails only after a wait for the address. *)
Definition attempt (ms : Z) (n : wifi_network_t) (b : bool) (tr tr' : list event) : Prop :=
  exists before e after,
    tr' = after ++ Ev (EspWifiSetConfig (sta_ssid n) (sta_password n)) e :: before ++ tr /\
    configured before = [] /\ configured after = [] /\
    if is_ok e
    then exists r a c, after = a ++ Ev EspWifiConnect r :: c /\
      if is_ok r then b = true \/ (exists evs, Ev (WaitEvents ms) evs ∈ a) else b = false
    else b = false.

(** The networks of [l] in range are tried in order, up to the first that
    connects. *)
Fixpoint tries (ms : Z) (l : list wifi_network_t) (ok : bool) (tr tr' : list event) : Prop :=
  match l with
  | [] => ok = false /\ tr' = tr
  | n :: l' =>
      if rssi n <=? -100 then tries ms l' ok tr tr' else
      exists b tr1, attempt ms n b tr tr1 /\
        if b : bool then ok = true /\ tr' = tr1 else tries ms l' ok tr1 tr'
  end.

(** With no saved network in range the first is tried all the same. *)
Definition fallback (h : wifi_creds_handle_t) : wifi_creds_handle_t :=
  if negb (any_visible h) && (0 <? count h)%nat then update_network 0 (set_rssi (-99)) h else h.

Section Quiet.
Context `{Env, EventGroup}.

(** What the handler leaves alone. *)
Definition quiet (s s' : sys wg) : Prop :=
  wh (glob s') = wh (glob s) /\
  s_wifi_initialized (glob s') = s_wifi_initialized (glob s) /\
  waited (trace s') = waited (trace s).

#[export] Instance quiet_PreOrder : PreOrder quiet.
Proof. split; [done|]. intros ??? (?&?&?) (?&?&?). split_and!; congruence. Qed.

Lemma wp_handler e s :
  wp (wifi_event_handler e) (fun o s' => o = Ret tt /\ quiet s s') s.
Proof.
  destruct e; try done.
  apply wp_bind, wp_modify, wp_bind, wp_modify, wp_bind, wp_get, wp_when; [|done].
  intros _. apply wp_call_. intros r w' _. split_and!; done.
Qed.

Lemma wp_for_each_handler evs : forall s,
  wp (for_each evs wifi_event_handler) (fun o s' => o = Ret tt /\ quiet s s') s.
Proof.
  induction evs as [|e evs IH]; intros s; simpl; [done|].
  apply wp_bind. eapply wp_mono; [apply wp_handler|]. intros o s' [-> Hq].
  eapply wp_mono; [apply IH|]. intros o s'' [-> Hq']. split; [done|]. by etransitivity.
Qed.

Lemma wp_pump Q s : (forall s', quiet s s' -> Q (Ret tt) s') -> wp pump Q s.
Proof.
  intros HQ. apply wp_bind, wp_call. intros evs w' _.
  eapply wp_mono; [apply wp_for_each_handler|]. intros o s' [-> Hq]. apply HQ.
  etransitivity; [|exact Hq]. by split_and!.
Qed.

Lemma wp_wcall {X} (c : cmd X) Q s :
  (forall r, wait_of (Ev c r) = 0) ->
  (forall r s', quiet s s' -> (exists tr, trace s' = Ev c r :: tr) -> Q (Ret r) s') ->
  wp (wcall c) Q s.
Proof.
  intros Hc HQ. apply wp_bind, wp_pump. intros s1 (E1&E2&E3). apply wp_call. intros r w' _.
  apply HQ; [|eauto]. split_and!; try done. cbn [trace waited fold_right]. rewrite Hc.
  exact E3.
Qed.

Lemma wp_wcall_ {X} (c : cmd X) Q s :
  (forall r, wait_of (Ev c r) = 0) ->
  (forall s', quiet s s' -> Q (Ret tt) s') -> wp (wcall_ c) Q s.
Proof.
  intros Hc HQ. apply wp_bind, wp_pump. intros s1 (E1&E2&E3). apply wp_call_. intros r w' _.
  apply HQ. split_and!; try done. cbn [trace waited fold_right]. rewrite Hc. exact E3.
Qed.

Lemma wp_wait_events evs : forall s,
  wp (wait_events evs) (fun o s' => o = Ret tt /\ quiet s s') s.
Proof.
  induction evs as [|e evs IH]; intros s; simpl; [done|].
  apply wp_bind. eapply wp_mono; [apply wp_handler|]. intros o s' [-> Hq].
  apply wp_bind, wp_get. destruct (has_bit (glob s')); [by apply wp_ret|].
  eapply wp_mono; [apply IH|]. intros o s'' [-> Hq']. split; [done|]. by etransitivity.
Qed.

(** A wait costs at most its timeout and reports the bit it saw. *)
Lemma wp_wait_connected ms Q s :
  0 <= ms ->
  (forall s', wh (glob s') = wh (glob s) ->
     waited (trace s') <= waited (trace s) + ms -> Q (Ret (has_bit (glob s'))) s') ->
  wp (wait_connected ms) Q s.
Proof.
  intros Hms HQ. apply wp_bind, wp_get. destruct (has_bit (glob s)) eqn:E.
  - apply wp_ret. rewrite <- E. apply HQ; [done|lia].
  - apply wp_bind, wp_call. intros evs w' _. apply wp_bind.
    eapply wp_mono; [apply wp_wait_events|]. intros o s' [-> (E1&E2&E3)].
    apply wp_bind, wp_get, wp_ret. apply HQ; [done|].
    rewrite E3. cbn [trace waited fold_right wait_of]. fold (waited (trace s)). lia.
Qed.

(** One attempt: bounded by its share of the time; when it succeeds the bit is
    set and the handler no longer reconnects. *)
Lemma wp_try_network ms n s :
  0 <= ms ->
  wp (try_network ms n) (fun o s' => exists b, o = Ret b /\
    wh (glob s') = wh (glob s) /\ waited (trace s') <= waited (trace s) + ms /\
    (b = true -> has_bit (glob s') = true /\ s_is_connecting (glob s') = false)) s.
Proof.
  intros Hms. unfold try_network.
  assert (Hno : forall s', quiet s s' ->
    exists b, Ret false = Ret b /\ wh (glob s') = wh (glob s) /\
      waited (trace s') <= waited (trace s) + ms /\
      (b = true -> has_bit (glob s') = true /\ s_is_connecting (glob s') = false)).
  { intros s' (E1&E2&E3). exists false. split_and!; try done. lia. }
  destruct (rssi n <=? -100); [apply wp_ret, Hno; done|].
  apply wp_bind, wp_wcall_; [done|]. intros s1 Q1.
  apply wp_bind, wp_wcall; [done|]. intros r1 s2 Q2 _.
  destruct (is_ok r1); simpl negb; cbn iota; [|apply wp_ret, Hno; by do 2 etransitivity].
  apply wp_bind, wp_wcall; [done|]. intros r2 s3 Q3 _.
  destruct (is_ok r2); simpl negb; cbn iota; [|apply wp_ret, Hno; by do 3 etransitivity].
  apply wp_bind, wp_wcall_; [done|]. intros s4 Q4.
  apply wp_bind, wp_wcall_; [done|]. intros s5 Q5.
  apply wp_bind, wp_pump. intros s6 Q6.
  assert (Q : quiet s s6) by (do 5 (etransitivity; [eassumption|]); done).
  destruct Q as (E1&E2&E3).
  apply wp_bind, wp_modify, wp_bind, wp_wait_connected; [done|].
  cbn [glob trace wh]. intros s7 Hw Hwt.
  destruct (has_bit (glob s7)) eqn:E; [apply wp_bind, wp_modify, wp_ret|apply wp_ret].
  - exists true. cbn [glob trace wh]. split; [done|]. split; [congruence|].
    split; [lia|]. by split.
  - exists false. split; [done|]. split; [congruence|]. by split; [lia|].
Qed.

Lemma wp_try_networks ms l : 0 <= ms -> forall s,
  wp (try_networks ms l) (fun o s' => exists b, o = Ret b /\
    wh (glob s') = wh (glob s) /\
    waited (trace s') <= waited (trace s) + ms * Z.of_nat (length l) /\
    (b = true -> has_bit (glob s') = true /\ s_is_connecting (glob s') = false)) s.
Proof.
  intros Hms. induction l as [|n l IH]; intros s; simpl try_networks.
  - apply wp_ret. exists false. simpl. split_and!; try done. lia.
  - apply wp_bind. eapply wp_mono; [by apply wp_try_network|].
    intros o s1 (b & -> & Hw & Ht & Hb). destruct b.
    + apply wp_ret. exists true. simpl length. split; [done|]. split; [done|].
      split; [nia|]. exact Hb.
    + eapply wp_mono; [apply IH|]. intros o s2 (b & -> & Hw2 & Ht2 & Hb2). exists b.
      simpl length. split; [done|]. split; [congruence|]. split; [lia|]. exact Hb2.
Qed.
End Quiet.

(** ** What the trace shows *)

Section Traced.
Context `{Env, EventGroup}.

(** Calls that do not configure the driver. *)
Definition grew (tr tr' : list event) : Prop := exists evs, tr' = evs ++ tr /\ configured evs = [].

#[export] Instance grew_PreOrder : PreOrder grew.
Proof.
  split; [by exists []|]. intros a b c (e1 & -> & C1) (e2 & -> & C2).
  exists (e2 ++ e1). split; [by rewrite app_assoc|]. unfold configured in *.
  by rewrite omap_app, C1, C2.
Qed.

Lemma grew_configured tr tr' : grew tr tr' -> configured tr' = configured tr.
Proof. intros (e & -> & C). unfold configured in *. by rewrite omap_app, C. Qed.

Definition discreet {G A} (m : M G A) : Prop := forall s, grew (trace s) (trace (snd (m s))).

Lemma discreet_still {G A} (m : M G A) : (forall s, trace (snd (m s)) = trace s) -> discreet m.
Proof. intros Hm s. by rewrite Hm. Qed.

Lemma discreet_call {G X} (c : cmd X) : (forall r, config_of (Ev c r) = None) -> discreet (G:=G) (call c).
Proof.
  intros Hc s. unfold call. destruct (handle c (wld s)) as [r w']. exists [Ev c r].
  split; [done|]. unfold configured.
  change (omap config_of [Ev c r]) with (opt_list (config_of (Ev c r))). by rewrite Hc.
Qed.

Lemma discreet_bind {G A B} (m : M G A) (k : A -> M G B) :
  discreet m -> (forall a, discreet (k a)) -> discreet (bind m k).
Proof.
  intros Hm Hk s. specialize (Hm s). simpl. unfold m_bind.
  destruct (m s) as [[a|x] s']; [|done]. etransitivity; [exact Hm|apply Hk].
Qed.

Lemma discreet_call_ {G X} (c : cmd X) : (forall r, config_of (Ev c r) = None) -> discreet (G:=G) (call_ c).
Proof. intros Hc. apply discreet_bind; [by apply discreet_call|intros a; by apply discreet_still]. Qed.

Lemma discreet_handler e : discreet (wifi_event_handler e).
Proof.
  destruct e; try (by apply discreet_still). do 2 (apply discreet_bind; [by apply discreet_still|intros _]).
  apply discreet_bind; [by apply discreet_still|]. intros g. unfold when.
  destruct (s_is_connecting g); [by apply discreet_call_|by apply discreet_still].
Qed.

Lemma discreet_pump : discreet pump.
Proof.
  apply discreet_bind; [by apply discreet_call|]. intros evs. induction evs; simpl; [by apply discreet_still|].
  apply discreet_bind; [apply discreet_handler|done].
Qed.

Lemma discreet_wcall {X} (c : cmd X) : (forall r, config_of (Ev c r) = None) -> discreet (wcall c).
Proof. intros Hc. apply discreet_bind; [apply discreet_pump|intros _; by apply discreet_call]. Qed.

Lemma discreet_wcall_ {X} (c : cmd X) : (forall r, config_of (Ev c r) = None) -> discreet (wcall_ c).
Proof. intros Hc. apply discreet_bind; [apply discreet_pump|intros _; by apply discreet_call_]. Qed.

Lemma discreet_wait_events evs : discreet (wait_events evs).
Proof.
  induction evs; simpl; [by apply discreet_still|]. apply discreet_bind; [apply discreet_handler|]. intros _.
  apply discreet_bind; [by apply discreet_still|]. intros g. destruct (has_bit g); [by apply discreet_still|done].
Qed.

Lemma wp_discreet {G A} (m : M G A) (Q : outcome A -> sys G -> Prop) s :
  discreet m -> wp m (fun o s' => grew (trace s) (trace s') -> Q o s') s -> wp m Q s.
Proof. intros Hm Hw. apply Hw, Hm. Qed.

Lemma wp_wait_traced ms s :
  wp (wait_connected ms) (fun o s' => exists b evs, o = Ret b /\
    trace s' = evs ++ trace s /\ configured evs = [] /\
    (b = true \/ exists x, Ev (WaitEvents ms) x ∈ evs)) s.
Proof.
  apply wp_bind, wp_get. destruct (has_bit (glob s)); [apply wp_ret; exists true, []; auto|].
  apply wp_bind, wp_call. intros x w' _. apply wp_bind, wp_discreet; [apply discreet_wait_events|].
  eapply wp_mono; [apply wp_wait_events|]. intros o s1 [-> _] (evs & T & C). cbn [trace] in T.
  apply wp_bind, wp_get, wp_ret. exists (has_bit (glob s1)), (evs ++ [Ev (WaitEvents ms) x]).
  split; [done|]. split; [by rewrite T, <- app_assoc|]. split.
  - unfold configured in *. by rewrite omap_app, C.
  - right. exists x. apply elem_of_app. right. by left.
Qed.

Lemma wp_attempt ms n s :
  wp (try_network ms n) (fun o s' => exists b, o = Ret b /\
    if rssi n <=? -100 then b = false /\ s' = s else attempt ms n b (trace s) (trace s')) s.
Proof.
  unfold try_network. destruct (rssi n <=? -100); [by apply wp_ret; exists false|].
  apply wp_bind, wp_discreet; [by apply discreet_wcall_|]. apply wp_wcall_; [done|]. intros s1 _ G1.
  apply wp_bind, wp_bind, wp_discreet; [apply discreet_pump|]. apply wp_pump. intros s2 _ G2.
  apply wp_call. intros e w' _. cbn [trace]. set (ev := Ev (EspWifiSetConfig _ _) e).
  assert (G02 : grew (trace s) (trace s2)) by (by etransitivity).
  destruct G02 as (before & -> & Cb). clear s1 G1 G2.
  assert (Hstop : forall s' : sys wg, trace s' = ev :: before ++ trace s -> is_ok e = false ->
    exists b, Ret false = Ret b /\ attempt ms n b (trace s) (trace s')).
  { intros s' T Ee. exists false. split; [done|]. exists before, e, []. by rewrite Ee. }
  destruct (is_ok e) eqn:Ee; cbn [negb]; cbv iota; [|by apply wp_ret, Hstop].
  apply wp_bind, wp_discreet; [by apply discreet_wcall|]. apply wp_wcall; [done|].
  intros r s3 _ [tr T3] (ev3 & G3 & C3). cbn [trace] in G3.
  assert (Hc : exists c, ev3 = Ev EspWifiConnect r :: c).
  { rewrite T3 in G3. destruct ev3 as [|x c]; [|injection G3 as <- _; by exists c].
    by injection G3 as G3 _. }
  destruct Hc as [c ->].
  destruct (is_ok r) eqn:Er; cbn [negb]; cbv iota.
  2: { apply wp_ret. exists false. split; [done|]. exists before, e, (Ev EspWifiConnect r :: c).
       rewrite Ee. split_and!; [by rewrite G3|done..|]. exists r, [], c. by rewrite Er. }
  apply wp_bind, wp_discreet; [by apply discreet_wcall_|]. apply wp_wcall_; [done|]. intros s4 _ G4.
  apply wp_bind, wp_discreet; [by apply discreet_wcall_|]. apply wp_wcall_; [done|]. intros s5 _ G5.
  apply wp_bind, wp_discreet; [apply discreet_pump|]. apply wp_pump. intros s6 _ G6.
  assert (G36 : grew (trace s3) (trace s6)) by (do 2 (etransitivity; [eassumption|]); done).
  destruct G36 as (mid & T6 & C6). apply wp_bind, wp_modify, wp_bind.
  eapply wp_mono; [apply wp_wait_traced|]. cbn [trace]. intros o s7 (b & evs & -> & T7 & C7 & Hb).
  assert (Hdone : forall s' : sys wg, trace s' = trace s7 ->
    exists b', Ret b = Ret b' /\ attempt ms n b' (trace s) (trace s')).
  { intros s' ->. exists b. split; [done|].
    exists before, e, ((evs ++ mid) ++ Ev EspWifiConnect r :: c). rewrite Ee. split_and!; [|done| |].
    - rewrite T7, T6, G3. by rewrite <- !app_assoc.
    - unfold configured in *. by rewrite !omap_app, C7, C6.
    - exists r, (evs ++ mid), c. rewrite Er. split; [done|]. destruct Hb as [->|[x Hx]]; [by left|].
      right. exists x. apply elem_of_app. by left. }
  destruct b; [apply wp_bind, wp_modify, wp_ret|apply wp_ret]; by apply Hdone.
Qed.

Lemma wp_tries ms l : forall s,
  wp (try_networks ms l) (fun o s' => exists b, o = Ret b /\ tries ms l b (trace s) (trace s')) s.
Proof.
  induction l as [|n l IH]; intros s; cbn [try_networks tries]; [by apply wp_ret; exists false|].
  apply wp_bind. eapply wp_mono; [apply wp_attempt|]. intros o s1 (b & -> & Hb).
  destruct (rssi n <=? -100); [destruct Hb as [-> ->]; apply IH|].
  destruct b; [apply wp_ret; exists true; split; [done|]; by exists true, (trace s1)|].
  eapply wp_mono; [apply IH|]. intros o s2 (b & -> & Ht). exists b. split; [done|].
  by exists false, (trace s1).
Qed.

Lemma discreet_scan h : discreet (wifi_creds_scan_and_match h).
Proof.
  apply discreet_bind; [by apply discreet_still|]. intros g.
  destruct (negb h || negb (initialized (wh g))); [by apply discreet_still|].
  apply discreet_bind; [by apply discreet_still|]. intros _. apply discreet_bind; [by apply discreet_wcall|].
  intros e1. destruct (negb (is_ok e1)); [by apply discreet_still|].
  apply discreet_bind; [by apply discreet_wcall|]. intros [e2 aps]. destruct (negb (is_ok e2)); [by apply discreet_still|].
  do 2 (apply discreet_bind; [by apply discreet_still|intros _]). by apply discreet_still.
Qed.
End Traced.

(** ** Sorting and matching *)

Lemma bubble_pass_app k l r :
  length l = S k -> bubble_pass k (l ++ r) = bubble_pass k l ++ r.
Proof.
  revert l. induction k as [|k IH]; intros [|a [|b l]] Hl; simpl in *; try done.
  destruct (rssi a <? rssi b); simpl; f_equal; apply (IH (_ :: l)); simpl; lia.
Qed.

Lemma bubble_pass_perm k l : Permutation (bubble_pass k l) l.
Proof.
  revert l. induction k as [|k IH]; intros [|a [|b l]]; simpl; try done.
  destruct (rssi a <? rssi b); [rewrite IH; apply Permutation_swap | by rewrite IH].
Qed.

(** A pass over [k + 1] elements puts a weakest one last. *)
Lemma bubble_pass_last k l :
  length l = S k ->
  exists l' m, bubble_pass k l = l' ++ [m] /\ Forall (fun x => rssi m <= rssi x) l'.
Proof.
  revert l. induction k as [|k IH]; intros [|a [|b l]] Hl; simpl in *; try done.
  - by exists [], a.
  - destruct (Z.ltb_spec (rssi a) (rssi b)).
    + destruct (IH (a :: l)) as (l' & m & E & F); [simpl; lia|].
      exists (b :: l'), m. rewrite E. split; [done|]. constructor; [|done].
      assert (Hin : In a (l' ++ [m])).
      { apply Permutation_in with (a :: l); [|left; done]. rewrite <- E. symmetry.
        apply bubble_pass_perm. }
      apply in_app_iff in Hin as [Hin|[<-|[]]]; [|lia].
      rewrite Forall_forall in F. specialize (F a). rewrite list_elem_of_In in F. specialize (F Hin). lia.
    + destruct (IH (b :: l)) as (l' & m & E & F); [simpl; lia|].
      exists (a :: l'), m. rewrite E. split; [done|]. constructor; [|done].
      assert (Hin : In b (l' ++ [m])).
      { apply Permutation_in with (b :: l); [|left; done]. rewrite <- E. symmetry.
        apply bubble_pass_perm. }
      apply in_app_iff in Hin as [Hin|[<-|[]]]; [|lia].
      rewrite Forall_forall in F. specialize (F b). rewrite list_elem_of_In in F. specialize (F Hin). lia.
Qed.

(** Equal signals keep their order. *)
Lemma bubble_pass_stable v k l :
  List.filter (fun n => rssi n =? v) (bubble_pass k l) = List.filter (fun n => rssi n =? v) l.
Proof.
  revert l. induction k as [|k IH]; intros [|a [|b l]]; try done. simpl.
  destruct (Z.ltb_spec (rssi a) (rssi b)); cbn [List.filter]; rewrite IH; cbn [List.filter];
    [|done].
  destruct (Z.eqb_spec (rssi a) v), (Z.eqb_spec (rssi b) v); try done; lia.
Qed.

Lemma bubble_sort_app k l r :
  length l = S k -> bubble_sort k (l ++ r) = bubble_sort k l ++ r.
Proof.
  revert l r. induction k as [|k IH]; intros l r Hl; [done|]. cbn [bubble_sort].
  rewrite bubble_pass_app by done.
  destruct (bubble_pass_last (S k) l Hl) as (l' & m & E & _). rewrite E.
  assert (length l' = S k).
  { apply (f_equal length) in E. rewrite (Permutation_length (bubble_pass_perm (S k) l)), length_app in E. simpl in E. lia. }
  rewrite <- app_assoc. rewrite !IH by done. by rewrite <- app_assoc.
Qed.

Lemma bubble_sort_perm k l : Permutation (bubble_sort k l) l.
Proof.
  revert l. induction k as [|k IH]; intros l; [done|]. cbn [bubble_sort].
  by rewrite IH, bubble_pass_perm.
Qed.

Lemma bubble_sort_stable v k l :
  List.filter (fun n => rssi n =? v) (bubble_sort k l) = List.filter (fun n => rssi n =? v) l.
Proof.
  revert l. induction k as [|k IH]; intros l; [done|]. cbn [bubble_sort].
  by rewrite IH, bubble_pass_stable.
Qed.

Lemma StronglySorted_snoc {A} (R : A -> A -> Prop) l x :
  StronglySorted R l -> Forall (fun y => R y x) l -> StronglySorted R (l ++ [x]).
Proof.
  induction 1 as [|y l Hs IH Hf]; intros Hx; simpl; [by repeat constructor|].
  apply Forall_cons in Hx as [Hy Hx]. constructor; [auto|].
  apply Forall_app. split; [done|]. by constructor.
Qed.

Lemma bubble_sort_sorted k l :
  length l = S k -> StronglySorted by_rssi_desc (bubble_sort k l).
Proof.
  revert l. induction k as [|k IH]; intros l Hl.
  - destruct l as [|a [|]]; try done. simpl. by repeat constructor.
  - cbn [bubble_sort]. destruct (bubble_pass_last (S k) l Hl) as (l' & m & E & F). rewrite E.
    assert (Hl' : length l' = S k).
    { apply (f_equal length) in E. rewrite (Permutation_length (bubble_pass_perm (S k) l)), length_app in E. simpl in E. lia. }
    rewrite bubble_sort_app by done. apply StronglySorted_snoc; [by apply IH|].
    by rewrite bubble_sort_perm.
Qed.

Lemma on_saved_compose f g h : on_saved f (on_saved g h) = on_saved (fun n => f (g n)) h.
Proof.
  unfold on_saved, set_networks. cbn [networks count initialized]. f_equal.
  destruct (decide (count h <= length (networks h))%nat).
  - rewrite take_app_length', drop_app_length' by (rewrite length_map, length_take; lia).
    by rewrite map_map.
  - rewrite !(take_ge (networks h)), !(drop_ge (networks h)), !app_nil_r by lia.
    rewrite take_ge, drop_ge by (rewrite length_map; lia). by rewrite map_map, app_nil_r.
Qed.

Lemma match_aps_scanned aps h : match_aps aps h = on_saved (scanned aps) h.
Proof.
  unfold match_aps. rewrite <- fold_left_rev_right.
  rewrite <- (rev_involutive aps) at 2. induction (rev aps) as [|ap l IH]; simpl.
  - unfold on_saved, scanned, set_networks. simpl. rewrite map_id, take_drop. by destruct h.
  - rewrite IH, on_saved_compose. unfold on_saved. do 2 f_equal. apply map_ext. intros n.
    unfold scanned, match_network. rewrite find_last_snoc.
    assert (Hs : ssid (match find_last (fun ap0 => strcmp_eq (ap_ssid ap0) (cstr (ssid n))) (rev l)
                 with Some ap0 => set_rssi (s8 (ap_rssi ap0)) n | None => n end) = ssid n)
      by (by destruct (find_last _ _)).
    rewrite Hs. destruct (strcmp_eq (ap_ssid ap) (cstr (ssid n))); [|done].
    by destruct (find_last _ _).
Qed.

(** ** Loading *)

Section Load.
Context `{NvsLaws, EventGroup}.

Definition nvs_kept (s s' : sys wg) : Prop := nvs_store (wld s') = nvs_store (wld s).

Lemma take_alter {A} (f : A -> A) i (l : list A) : take i (alter f i l) = take i l.
Proof.
  apply list_eq. intros j. destruct (decide (j < i)%nat).
  - rewrite !lookup_take_lt by done. rewrite list_lookup_alter_ne; [done|lia].
  - by rewrite !lookup_take_ge by lia.
Qed.

Lemma take_S_alter {A} (f : A -> A) i (l : list A) x :
  l !! i = Some x -> take (S i) (alter f i l) = take i l ++ [f x].
Proof.
  intros Hx. rewrite (take_S_r _ _ (f x)).
  - by rewrite take_alter.
  - by rewrite list_lookup_alter_eq, Hx.
Qed.

(** What a [char[n]] slot reads after [nvs_get_str] succeeded. *)
Lemma get_str_slot h k len w e v w' ns :
  nvs_ns w !! h = Some ns -> nvs_private ns = false ->
  handle (NvsGetStr h k len) w = ((e, v), w') ->
  nvs_store w' = nvs_store w /\ nvs_ns w' = nvs_ns w /\
  (if is_ok e then nvs_store w !! (ns, k) = Some (VStr v) /\ (String.length v < len)%nat
   else forall x, nvs_store w !! (ns, k) = Some (VStr x) -> (len <= String.length x)%nat).
Proof.
  intros Ho Hp Hh. eapply nvs_get_str_law in Hh as (Hs & Hn & Hv); [|exact Ho|done].
  split; [done|]. split; [done|].
  destruct (nvs_store w !! (ns, k)) as [[| |x]|]; try (rewrite Hv; congruence).
  destruct (Nat.ltb_spec (String.length x) len).
  - by destruct Hv as [-> ->].
  - rewrite Hv. intros ? [= ->]. done.
Qed.

Definition no_nul_store (m : nvs_map) : Prop :=
  forall k x, m !! ("wifi_creds"%string, k) = Some (VStr x) -> no_nul x = true.

Definition load_step_post (i : nat) (s : sys wg) (o : outcome unit) (s' : sys wg) : Prop :=
  o = Ret tt /\ nvs_store (wld s') = nvs_store (wld s) /\ nvs_ns (wld s') = nvs_ns (wld s) /\
  wh_wf (wh (glob s')) /\ initialized (wh (glob s')) = initialized (wh (glob s)) /\
  (count (wh (glob s')) <= S (count (wh (glob s))))%nat /\
  (Forall (fun n => rssi n = -100) (take (count (wh (glob s))) (networks (wh (glob s)))) ->
   Forall (fun n => rssi n = -100) (take (count (wh (glob s'))) (networks (wh (glob s'))))) /\
  loaded (wh (glob s'))
    = loaded (wh (glob s)) ++ opt_list (saved_pair (nvs_store (wld s)) i).

Ltac solve_wf :=
  unfold wh_wf, WIFI_MAX_NETWORKS in *; cbn [networks count]; rewrite ?length_alter; lia.

Lemma wp_load_network nvs i s :
  nvs_ns (wld s) !! nvs = Some "wifi_creds"%string -> no_nul_store (nvs_store (wld s)) ->
  wh_wf (wh (glob s)) -> (count (wh (glob s)) < WIFI_MAX_NETWORKS)%nat ->
  wp (load_network nvs i) (load_step_post i s) s.
Proof.
  intros Ho Hnn Hwf Hc. destruct s as [g w tr]; cbn [glob wld] in *.
  destruct g as [egv si sc [nets c ini]]; cbn [wh networks count] in *.
  destruct Hwf as [Hlen _]; cbn [networks] in Hlen.
  destruct (lookup_lt_is_Some_2 nets c) as [n Hn]; [lia|].
  unfold load_step_post. apply wp_bind, wp_get. cbv zeta. cbn [glob wh count].
  apply wp_bind, wp_call. intros [e1 ss] w1 Hh1.
  apply (get_str_slot _ _ _ _ _ _ _ "wifi_creds"%string) in Hh1 as (S1 & N1 & V1); [|exact Ho|done].
  cbn [glob wld wh networks count initialized] in *.
  unfold loaded, saved_pair; cbn [networks count].
  destruct (is_ok e1) eqn:E1; simpl negb; cbn iota.
  2:{ apply wp_ret. cbn [glob wld wh networks count initialized].
      split_and!; try done; try lia; try solve_wf.
      - destruct (nvs_store w !! _) as [[| |x]|]; cbn [opt_list]; rewrite ?app_nil_r; try done.
        specialize (V1 x eq_refl).
        destruct (nvs_store w !! _) as [[| |y]|]; cbn [opt_list]; rewrite ?app_nil_r; try done.
        destruct (Nat.ltb_spec (String.length x) WIFI_SSID_MAX_LEN); [lia|].
        rewrite ?andb_false_r; cbn [andb opt_list]; by rewrite app_nil_r. }
  destruct V1 as [V1 L1]. apply wp_bind, wp_modify, wp_bind, wp_call.
  intros [e2 pp] w2 Hh2. cbn [glob wld wh] in *.
  apply (get_str_slot _ _ _ _ _ _ _ "wifi_creds"%string) in Hh2 as (S2 & N2 & V2);
    [|by rewrite N1|done].
  rewrite S1 in V2. rewrite V1.
  destruct (Nat.ltb_spec (String.length ss) WIFI_SSID_MAX_LEN); [|lia].
  destruct (is_ok e2) eqn:E2; simpl negb; cbn iota.
  2:{ apply wp_ret. unfold update_network, set_networks. cbn [glob wld wh networks count initialized].
      rewrite take_alter. unfold WIFI_MAX_NETWORKS in *.
      split_and!; try congruence; try lia; try done; try solve_wf.
      - destruct (nvs_store w !! (_, snprintf_key "pass_" _)) as [[| |y]|]; cbn [opt_list]; rewrite ?app_nil_r; try done.
        specialize (V2 y eq_refl).
        destruct (Nat.ltb_spec (String.length y) WIFI_PASS_MAX_LEN); [lia|].
        rewrite ?andb_false_r; cbn [andb opt_list]; by rewrite app_nil_r. }
  destruct V2 as [V2 L2]. rewrite V2.
  destruct (Nat.ltb_spec (String.length pp) WIFI_PASS_MAX_LEN); [|lia].
  apply wp_bind, wp_modify, wp_bind, wp_modify, wp_modify.
  unfold update_network, set_networks, set_count. cbn [glob wld wh networks count initialized].
  erewrite take_S_alter by (rewrite !list_lookup_alter_eq, Hn; reflexivity).
  rewrite !take_alter.
  unfold WIFI_MAX_NETWORKS in *.
  split_and!; try congruence; try lia; try solve_wf.
  - intros Hf. apply Forall_app. split; [done|]. by repeat constructor.
  - rewrite map_app. unfold creds_of, set_rssi. cbn [map ssid password andb opt_list].
    rewrite !cstr_put_cstr by (eapply Hnn; eassumption). done.
Qed.
End Load.

Section Facts.
Context `{NvsLaws, EventGroup}.

Lemma wp_load_networks nvs : forall ids s,
  nvs_ns (wld s) !! nvs = Some "wifi_creds"%string -> no_nul_store (nvs_store (wld s)) ->
  wh_wf (wh (glob s)) -> (count (wh (glob s)) + length ids <= WIFI_MAX_NETWORKS)%nat ->
  Forall (fun n => rssi n = -100) (take (count (wh (glob s))) (networks (wh (glob s)))) ->
  wp (for_each ids (load_network nvs)) (fun o s' =>
    o = Ret tt /\ nvs_store (wld s') = nvs_store (wld s) /\ nvs_ns (wld s') = nvs_ns (wld s) /\
    wh_wf (wh (glob s')) /\ initialized (wh (glob s')) = initialized (wh (glob s)) /\
    Forall (fun n => rssi n = -100) (take (count (wh (glob s'))) (networks (wh (glob s')))) /\
    loaded (wh (glob s'))
      = loaded (wh (glob s)) ++ omap (saved_pair (nvs_store (wld s))) ids) s.
Proof.
  induction ids as [|i ids IH]; intros s Ho Hnn Hwf Hc Hf.
  - apply wp_ret. simpl. rewrite app_nil_r. by split_and!.
  - simpl in Hc. apply wp_bind. eapply wp_mono; [apply wp_load_network; auto; lia|].
    intros o s1 (-> & E1 & E2 & W & Ei & Ec & F & L).
    eapply wp_mono; [apply IH|].
    + by rewrite E2.
    + by rewrite E1.
    + done.
    + lia.
    + auto.
    + intros o s2 (-> & E3 & E4 & W2 & Ei2 & F2 & L2).
      rewrite omap_cons_opt, app_assoc, <- L, L2, E1. split_and!; congruence.
Qed.

(** A computation without event-group calls waits for nothing. *)
Lemma waited_uses {A} cs (m : M wg A) s :
  uses cs m -> cls_mem CEvents cs = false -> waited (trace (snd (m s))) = waited (trace s).
Proof.
  intros Hm Hc. apply bool_decide_eq_false in Hc.
  destruct (uses_events cs m s Hm) as (t & -> & Ht). induction Ht as [|[X c r] t He Ht IH]; [done|].
  simpl app. cbn [waited fold_right]. fold (waited (t ++ trace s)). rewrite IH.
  destruct c; simpl; try done; by contradict Hc.
Qed.

Lemma uses_load h : uses [CNvs] (wifi_creds_load h).
Proof. unfold wifi_creds_load, load_network, set_wh. uses_auto. Qed.

(** The networks [wifi_creds_load] finds in the namespace. *)
Definition saved_networks (m : nvs_map) : list (string * string) :=
  match m !! ("wifi_creds"%string, "count"%string) with
  | Some (VU8 c) => omap (saved_pair m) (seq 0 (Nat.min (Z.to_nat (u8 c)) WIFI_MAX_NETWORKS))
  | _ => []
  end.

Definition load_post (s : sys wg) (o : outcome Z) (s' : sys wg) : Prop :=
  o = Ret ESP_OK /\ nvs_same (wld s) (wld s') /\ wh_wf (wh (glob s')) /\
  initialized (wh (glob s')) = true /\
  ((exists e h, trace s' = Ev (NvsOpen "wifi_creds" NVS_READONLY) (e, h) :: trace s /\
      is_ok e = false /\ wh (glob s') = wh (glob s)) \/
   saved_networks (nvs_store (wld s)) = [] /\ wh (glob s') = wh (glob s) \/
   loaded (wh (glob s')) = saved_networks (nvs_store (wld s)) /\
   Forall (fun n => rssi n = -100) (take (count (wh (glob s'))) (networks (wh (glob s'))))).

Lemma nvs_close_same w h ns w1 w2 w3 r :
  nvs_same w w1 -> nvs_ns w !! h = None -> nvs_ns w1 = <[h := ns]> (nvs_ns w) ->
  nvs_store w2 = nvs_store w1 -> nvs_ns w2 = nvs_ns w1 ->
  handle (NvsClose h) w2 = (r, w3) -> nvs_same w w3.
Proof.
  intros [E1 _] Hf N1 E2 N2 Hh. apply nvs_close_law in Hh as [E3 N3].
  split; [congruence|]. intros h' ns' Hl. rewrite N3, N2, N1.
  rewrite lookup_delete_ne, lookup_insert_ne by congruence. done.
Qed.

Lemma wp_load s :
  initialized (wh (glob s)) = true -> no_nul_store (nvs_store (wld s)) ->
  wh_wf (wh (glob s)) -> wp (wifi_creds_load true) (load_post s) s.
Proof.
  intros Hi Hnn Hwf. apply wp_bind, wp_get. rewrite Hi. simpl orb. cbn iota.
  apply wp_bind, wp_call. intros [e nvs] w1 Hh. apply nvs_open_law in Hh as [S1 N1].
  destruct (is_ok e) eqn:E; simpl negb; cbn iota.
  2:{ apply wp_ret. split_and!; try done; [split; cbn; [done|by rewrite N1]|].
      left. by exists e, nvs. }
  destruct N1 as (_ & Hfresh & N1).
  assert (H01 : nvs_same (wld s) w1).
  { split; [done|]. intros h' ns Hl. rewrite N1, lookup_insert_ne; congruence. }
  assert (Hopen : nvs_ns w1 !! nvs = Some "wifi_creds"%string)
    by (rewrite N1; apply lookup_insert_eq).
  apply wp_bind, wp_call. intros [e2 v] w2 Hh2. cbn [glob wld] in *.
  eapply nvs_get_u8_law in Hh2 as (S2 & N2 & V2); [|exact Hopen|done]. cbv zeta.
  destruct (negb (is_ok e2) || (u8 v =? 0)) eqn:Eskip.
  - apply wp_bind, wp_call_. intros r w3 Hc. apply wp_ret.
    assert (H03 : nvs_same (wld s) w3) by (eapply nvs_close_same; eauto).
    split_and!; try done. right; left. split; [|done]. rewrite S1 in V2.
    unfold saved_networks. destruct (nvs_store (wld s) !! _) as [[c| |]|]; try done.
    destruct V2 as [-> ->]. apply Z.eqb_eq in Eskip. by rewrite Eskip.
  - apply orb_false_elim in Eskip as [Eok Ez]. apply negb_false_iff in Eok.
    rewrite S1 in V2.
    apply wp_bind, wp_modify, wp_bind. eapply wp_mono.
    { apply wp_load_networks; cbn [glob wld wh set_count count networks].
      - by rewrite N2.
      - by rewrite S2, S1.
      - destruct Hwf. split; [done|]. cbn. lia.
      - rewrite length_seq. lia.
      - by constructor. }
    cbn [glob wld wh set_count count networks initialized].
    intros o s3 (-> & S3 & N3 & W3 & I3 & F3 & L3).
    apply wp_bind, wp_call_. intros r w4 Hc. apply wp_ret.
    assert (H04 : nvs_same (wld s) w4)
      by (eapply nvs_close_same; [exact H01|exact Hfresh|exact N1| | |exact Hc]; congruence).
    split_and!; try done; [cbn; congruence|]. right; right. split; [|done].
    cbn [glob wh]. rewrite L3. unfold saved_networks, loaded. cbn [map take count networks].
    destruct (nvs_store (wld s) !! _) as [[c| |]|]; try congruence.
    destruct V2 as [-> ->]. by rewrite S2, S1.
Qed.

(** The last call was one of the two of a scan, and failed. *)
Definition scan_failed (tr : list event) : Prop :=
  exists tr0, (exists r, is_ok r = false /\ tr = Ev (EspWifiScanStart (ScanConfig false 100 1500)) r :: tr0) \/
    (exists e aps, is_ok e = false /\ tr = Ev (EspWifiScanGetApRecords WIFI_SCAN_MAX_AP) (e, aps) :: tr0).

(** Scanning: what the networks become, and from which records. *)
Definition scan_post (s : sys wg) (o : outcome Z) (s' : sys wg) : Prop :=
  exists r, o = Ret r /\ waited (trace s') = waited (trace s) /\
    count (wh (glob s')) = count (wh (glob s)) /\
    if is_ok r
    then exists aps tr,
      trace s' = Ev (EspWifiScanGetApRecords WIFI_SCAN_MAX_AP) (ESP_OK, aps) :: tr /\
      wh (glob s') = sort_networks (on_saved (scanned aps)
                       (on_saved (set_rssi (-100)) (wh (glob s))))
    else wh (glob s') = on_saved (set_rssi (-100)) (wh (glob s)) /\ scan_failed (trace s').

Lemma wp_scan_and_match s :
  initialized (wh (glob s)) = true ->
  wp (wifi_creds_scan_and_match true) (scan_post s) s.
Proof.
  intros Hi. apply wp_bind, wp_get. rewrite Hi. simpl orb. cbn iota.
  apply wp_bind, wp_modify, wp_bind, wp_wcall; [done|]. cbn [glob wh trace].
  intros r1 s1 (W1 & _ & T1) [tr1 Htr1]. cbn [glob wh trace] in *.
  destruct (is_ok r1) eqn:E1; simpl negb; cbn iota.
  2:{ apply wp_ret. exists r1. rewrite E1, W1. split_and!; try done. exists tr1. left. by exists r1. }
  apply wp_bind, wp_wcall; [done|]. intros [r2 aps] s2 (W2 & _ & T2) [tr Htr].
  destruct (is_ok r2) eqn:E2; simpl negb; cbn iota.
  2:{ apply wp_ret. exists r2. rewrite E2, W2, W1. split_and!; try done; [congruence|].
      exists tr. right. by exists r2, aps. }
  apply is_ok_spec in E2 as ->.
  apply wp_bind, wp_modify, wp_bind, wp_modify, wp_ret. exists ESP_OK. cbn [glob wh trace].
  rewrite match_aps_scanned, W2, W1. split_and!; try done; [congruence|].
  simpl is_ok. cbn iota. exists aps, tr. done.
Qed.

(** [wait_for_connection] waits once. *)
Lemma wp_wait_for_connection ms s :
  0 <= ms ->
  wp (wifi_creds_wait_for_connection ms) (fun o s' => exists r, o = Ret r /\
    wh (glob s') = wh (glob s) /\ waited (trace s') <= waited (trace s) + ms /\
    (r = ESP_OK \/ r = ESP_ERR_TIMEOUT)) s.
Proof.
  intros Hms. apply wp_bind, wp_wcall; [done|]. intros [e ap] s1 (W1 & _ & T1) _.
  destruct (is_ok e).
  { apply wp_ret. exists ESP_OK. split_and!; try done; [lia|by left]. }
  apply wp_bind, wp_modify, wp_bind, wp_wcall_; [done|]. intros s2 (W2 & _ & T2).
  apply wp_bind, wp_wait_connected; [done|]. intros s3 W3 T3.
  apply wp_bind, wp_modify. cbn [glob wh trace] in *.
  destruct (has_bit (glob s3)).
  - apply wp_bind, wp_wcall_; [done|]. intros s4 (W4 & _ & T4). cbn [glob wh trace] in *.
    apply wp_ret. exists ESP_OK. split; [done|]. split; [congruence|]. split; [lia|by left].
  - apply wp_ret. exists ESP_ERR_TIMEOUT. cbn [glob wh trace].
    split; [done|]. split; [congruence|]. split; [lia|by right].
Qed.

(** The networks after the scan: out of range if the scan failed, else sorted by
    the signals of the records it got; [tr] is the trace then. *)
Definition after_scan (h0 h : wifi_creds_handle_t) (tr : list event) : Prop :=
  let unseen := on_saved (set_rssi (-100)) h0 in
  h = unseen /\ scan_failed tr \/ exists aps tr0,
    tr = Ev (EspWifiScanGetApRecords WIFI_SCAN_MAX_AP) (ESP_OK, aps) :: tr0 /\
    h = sort_networks (on_saved (scanned aps) unseen).

(** [connect_best] tries the networks the scan found, strongest first, and shares
    its timeout out over the saved ones. *)
Definition connect_post (ms : Z) (s : sys wg) (o : outcome Z) (s' : sys wg) : Prop :=
  exists r, o = Ret r /\ (r = ESP_OK \/ r = ESP_FAIL) /\
    s_is_connecting (glob s') = false /\
    (r = ESP_OK -> has_bit (glob s') = true) /\
    waited (trace s') <= waited (trace s) + ms /\
    exists h tr, after_scan (wh (glob s)) h tr /\ configured tr = configured (trace s) /\
      wh (glob s') = fallback h /\ count h = count (wh (glob s)) /\
      tries (ms / Z.of_nat (count h)) (take (count h) (networks (fallback h))) (is_ok r)
        tr (trace s').

Lemma wp_connect_best ms s :
  0 <= ms -> initialized (wh (glob s)) = true -> (0 < count (wh (glob s)))%nat ->
  wp (wifi_creds_connect_best true ms) (connect_post ms s) s.
Proof.
  intros Hms Hi Hc. apply wp_bind, wp_get. rewrite Hi. simpl orb. cbn iota.
  destruct (Nat.eqb_spec (count (wh (glob s))) 0); [lia|].
  apply wp_bind, wp_discreet; [apply discreet_scan|]. eapply wp_mono; [by apply wp_scan_and_match|].
  intros o s1 (r1 & -> & T1 & C1 & Hs1) G1%grew_configured.
  assert (A1 : after_scan (wh (glob s)) (wh (glob s1)) (trace s1)).
  { destruct (is_ok r1); [right|left; exact Hs1]. destruct Hs1 as (aps & tr & ? & ?). by exists aps, tr. }
  apply wp_bind, wp_modify, wp_bind, wp_get, wp_bind. cbn [glob wh].
  apply wp_mono with (P := fun o s2 => o = Ret tt /\ trace s2 = trace s1 /\
    wh (glob s2) = fallback (wh (glob s1)) /\ count (wh (glob s2)) = count (wh (glob s))).
  { unfold fallback. apply wp_when; intros E; [apply wp_modify|]; rewrite E; by split_and!. }
  intros o s2 (-> & T2 & F2 & C2). apply wp_bind, wp_get, wp_bind.
  rewrite C2. set (k := ms / Z.of_nat (count (wh (glob s)))).
  assert (Hk : 0 <= k) by (apply Z.div_pos; lia).
  assert (Hkm : k * Z.of_nat (count (wh (glob s))) <= ms).
  { rewrite Z.mul_comm. apply Z.mul_div_le. lia. }
  eapply wp_mono; [apply wp_conj; [by apply wp_try_networks|apply wp_tries]|].
  intros o s3 [(b & -> & W3 & T3 & Hb) (b' & [= <-] & T)].
  assert (Hle : waited (trace s3) <= waited (trace s) + ms).
  { rewrite T2, length_take in T3. nia. }
  assert (Ht : exists h tr, after_scan (wh (glob s)) h tr /\ configured tr = configured (trace s) /\
      wh (glob s3) = fallback h /\ count h = count (wh (glob s)) /\
      tries (ms / Z.of_nat (count h)) (take (count h) (networks (fallback h))) b tr (trace s3)).
  { exists (wh (glob s1)), (trace s1). rewrite C1, W3, <- F2. by rewrite T2 in T. }
  destruct b; [apply wp_ret; exists ESP_OK|apply wp_bind, wp_modify, wp_ret; exists ESP_FAIL].
  - destruct Hb; [done|]. split_and!; auto.
  - cbn [glob trace wh]. split_and!; auto. done.
Qed.
End Facts.

Section Frames.
Context `{Env, EventGroup}.

Lemma uses_handler e : uses [CWifi] (wifi_event_handler e).
Proof. destruct e; unfold wifi_event_handler, set_group, set_connecting; uses_auto. Qed.
#[local] Hint Resolve uses_handler : uses.

Lemma uses_pump : uses [CWifi; CEvents] pump.
Proof. unfold pump. uses_auto. Qed.
#[local] Hint Resolve uses_pump : uses.

Lemma uses_wcall {X} cs (c : cmd X) :
  class_of c ∈ cs -> CWifi ∈ cs -> CEvents ∈ cs -> uses cs (wcall c).
Proof.
  intros. apply uses_bind; [|intros; by apply uses_call].
  eapply uses_weaken; [|apply uses_pump]. intros x Hx.
  apply list_elem_of_In in Hx as [<-|[<-|[]]]; done.
Qed.

Lemma uses_wcall_ {X} cs (c : cmd X) :
  class_of c ∈ cs -> CWifi ∈ cs -> CEvents ∈ cs -> uses cs (wcall_ c).
Proof.
  intros. apply uses_bind; [|intros; by apply uses_call_].
  eapply uses_weaken; [|apply uses_pump]. intros x Hx.
  apply list_elem_of_In in Hx as [<-|[<-|[]]]; done.
Qed.

#[local] Hint Extern 1 (uses _ (wcall _)) =>
  (apply uses_wcall; apply cls_mem_elem; reflexivity) : uses.
#[local] Hint Extern 1 (uses _ (wcall_ _)) =>
  (apply uses_wcall_; apply cls_mem_elem; reflexivity) : uses.

Lemma uses_wait_events evs : uses [CWifi] (wait_events evs).
Proof. induction evs; cbn [wait_events]; uses_auto. Qed.
#[local] Hint Resolve uses_wait_events : uses.

Lemma uses_wait_connected ms : uses [CWifi; CEvents] (wait_connected ms).
Proof. unfold wait_connected. uses_auto. Qed.
#[local] Hint Resolve uses_wait_connected : uses.

Lemma uses_wait_for ms : uses [CWifi; CEvents] (wifi_creds_wait_for_connection ms).
Proof. unfold wifi_creds_wait_for_connection, set_connecting. uses_auto. Qed.

Lemma uses_scan h : uses [CWifi; CEvents] (wifi_creds_scan_and_match h).
Proof. unfold wifi_creds_scan_and_match, set_wh. uses_auto. Qed.
#[local] Hint Resolve uses_scan : uses.

Lemma uses_try_networks ms l : uses [CWifi; CEvents] (try_networks ms l).
Proof.
  induction l; cbn [try_networks]; unfold try_network, set_group, set_connecting; uses_auto.
Qed.
#[local] Hint Resolve uses_try_networks : uses.

Lemma uses_connect_best h ms : uses [CWifi; CEvents] (wifi_creds_connect_best h ms).
Proof. unfold wifi_creds_connect_best, set_wh, set_connecting. uses_auto. Qed.

Lemma uses_wifi_init h : uses [CFlash; CWifi; CEvents] (wifi_creds_init h).
Proof.
  unfold wifi_creds_init, set_wh, set_group, set_wifi_initialized. uses_auto.
Qed.

Lemma uses_is_connected : uses [CWifi; CEvents] wifi_creds_is_connected.
Proof. unfold wifi_creds_is_connected. uses_auto. Qed.

Lemma uses_current_ssid b n : uses [CWifi; CEvents] (wifi_creds_get_current_ssid b n).
Proof. unfold wifi_creds_get_current_ssid. uses_auto. Qed.

Lemma uses_connection_info : uses [CWifi; CEvents] wifi_creds_get_connection_info.
Proof. unfold wifi_creds_get_connection_info. uses_auto. Qed.
End Frames.
#[export] Hint Resolve uses_wait_for uses_scan uses_connect_best uses_wifi_init
  uses_is_connected uses_current_ssid uses_connection_info uses_load : uses.

(** Bit 0 of the group. *)
Lemma has_bit_testbit `{EventGroup} g : has_bit g = Z.testbit (eg_get (wifi_event_group g)) 0.
Proof.
  unfold has_bit, CONNECTED_BIT. change 1 with (Z.ones 1).
  rewrite Z.land_ones by lia. change (2 ^ 1) with 2. rewrite <- Z.bit0_mod.
  by destruct (Z.testbit _ 0).
Qed.

(** The slots after sorting: the used ones sorted, the others in place. *)
Lemma sort_networks_prefix h :
  (count h <= length (networks h))%nat ->
  networks (sort_networks h)
  = bubble_sort (count h - 1) (take (count h) (networks h)) ++ drop (count h) (networks h).
Proof.
  intros Hc. unfold sort_networks. cbn [networks set_networks].
  destruct (count h) as [|c] eqn:E; [done|].
  rewrite <- (take_drop (S c) (networks h)) at 1. apply bubble_sort_app.
  rewrite length_take. lia.
Qed.

(** FreeRTOS event groups as discreet bit masks. *)
#[export] Instance z_group : EventGroup := {|
  eg := Z; eg_new := 0; eg_get := fun g => g;
  eg_set := fun b g => Z.lor g b; eg_clear := fun b g => Z.ldiff g b;
  eg_get_new := eq_refl; eg_get_set := fun b g => eq_refl; eg_get_clear := fun b g => eq_refl
|}.

(** ** Properties *)

Section Properties.
Context `{NvsLaws, EventGroup}.

(** C12: [wifi_creds_load] returns [ESP_OK] and fills the slots, without gaps and
    in order, with exactly the credentials of the first five entries whose two
    strings are present and fit (an unreadable entry is skipped, not left as a
    hole); it never uses more than the five slots, marks every loaded network
    as out of range, and leaves NVS and its handles as they were.  The handle
    object is only left alone when the namespace cannot be opened or holds no
    network. *)
Theorem load_finds_saved_networks s :
  initialized (wh (glob s)) = true -> no_nul_store (nvs_store (wld s)) ->
  wh_wf (wh (glob s)) -> wp (wifi_creds_load true) (load_post s) s.
Proof. apply wp_load. Qed.

(** C13: a successful scan leaves the used slots sorted by signal, strongest
    first, as a stable permutation of the saved networks in which each has the
    signal of the last record with its SSID, or -100 when there is none; the
    unused slots are untouched. *)
Theorem scan_sorts_by_signal s :
  initialized (wh (glob s)) = true -> wh_wf (wh (glob s)) ->
  wp (wifi_creds_scan_and_match true) (fun o s' => exists r, o = Ret r /\
    (is_ok r = true -> exists aps tr,
       trace s' = Ev (EspWifiScanGetApRecords WIFI_SCAN_MAX_AP) (ESP_OK, aps) :: tr /\
       let c := count (wh (glob s)) in
       let before := map (fun n => scanned aps (set_rssi (-100) n))
                         (take c (networks (wh (glob s)))) in
       let after := take c (networks (wh (glob s'))) in
       StronglySorted by_rssi_desc after /\ Permutation after before /\
       (forall v, List.filter (fun n => rssi n =? v) after
                  = List.filter (fun n => rssi n =? v) before) /\
       drop c (networks (wh (glob s'))) = drop c (networks (wh (glob s))))) s.
Proof.
  intros Hi [Hl Hc]. eapply wp_mono; [by apply wp_scan_and_match|].
  intros o s' (r & -> & _ & _ & Hr). exists r. split; [done|]. intros E. rewrite E in Hr.
  destruct Hr as (aps & tr & Ht & Hw). exists aps, tr. split; [done|]. cbv zeta.
  rewrite on_saved_compose in Hw. set (f := fun n => scanned aps (set_rssi (-100) n)) in *.
  rewrite Hw, sort_networks_prefix;
    unfold on_saved; cbn [networks count set_networks];
    rewrite ?length_app, ?length_map, ?length_take, ?length_drop; [|lia].
  set (c := count (wh (glob s))) in *. set (l := networks (wh (glob s))) in *.
  assert (Ht' : take c (map f (take c l) ++ drop c l) = map f (take c l))
    by (apply take_app_length'; rewrite length_map, length_take; lia).
  assert (Hd' : drop c (map f (take c l) ++ drop c l) = drop c l)
    by (apply drop_app_length'; rewrite length_map, length_take; lia).
  rewrite Ht', Hd'.
  assert (Hlen : length (bubble_sort (c - 1) (map f (take c l))) = c).
  { rewrite (Permutation_length (bubble_sort_perm _ _)), length_map, length_take. lia. }
  rewrite take_app_length', drop_app_length' by done. split_and!.
  - destruct (decide (c = 0%nat)) as [->|]; [by constructor|].
    apply bubble_sort_sorted. rewrite length_map, length_take. lia.
  - apply bubble_sort_perm.
  - intros v. apply bubble_sort_stable.
  - done.
Qed.


(** C15: [wifi_creds_connect_auto], through all its fallbacks (driver's network,
    saved networks, driver's network again), always returns and waits at most
    its timeout. *)
Theorem connect_auto_bounded ms s :
  0 <= ms -> initialized (wh (glob s)) = true -> no_nul_store (nvs_store (wld s)) ->
  wh_wf (wh (glob s)) ->
  wp (wifi_creds_connect_auto true ms) (fun o s' =>
    exists r, o = Ret r /\ waited (trace s') <= waited (trace s) + ms) s.
Proof.
  intros Hms Hi Hnn Hwf. apply wp_bind, wp_get. rewrite Hi. simpl orb. cbn iota.
  assert (Hh : 0 <= ms / 2) by (apply Z.div_pos; lia).
  assert (Hh2 : 2 * (ms / 2) <= ms) by (apply Z.mul_div_le; lia).
  apply wp_bind, (wp_nvs_frame [CWifi; CEvents]); [apply uses_wait_for|done..|].
  eapply wp_mono; [by apply wp_wait_for_connection|].
  intros o s1 (r1 & -> & W1 & T1 & _) S1 _.
  destruct (is_ok r1); [apply wp_ret; exists ESP_OK; split; [done|lia]|].
  apply wp_bind. pose proof (waited_uses [CNvs] (wifi_creds_load true) s1 (uses_load true) eq_refl)
    as Tl.
  unfold wp. destruct (wifi_creds_load true s1) as [o2 s2] eqn:El.
  assert (Hp : load_post s1 o2 s2).
  { pose proof (wp_load s1) as Hw. unfold wp in Hw. rewrite El in Hw.
    apply Hw; rewrite ?W1, ?S1; done. }
  cbn [fst snd] in *. destruct Hp as (-> & _ & W2 & I2 & _).
  apply wp_bind, wp_get. simpl negb. simpl orb.
  destruct (Nat.eqb_spec (count (wh (glob s2))) 0).
  - eapply wp_mono; [by apply wp_wait_for_connection|].
    intros o s3 (r3 & -> & _ & T3 & _). exists r3. split; [done|lia].
  - eapply wp_mono; [apply wp_connect_best; [done..|lia]|].
    intros o s3 (r3 & -> & _ & _ & _ & T3 & _). exists r3. split; [done|lia].
Qed.
End Properties.

(** the event handler asks the driver to reconnect exactly on a
    disconnection while a connection attempt is running; a disconnection clears
    the CONNECTED bit, getting an address sets it and ends the reconnecting, and
    every other event changes nothing. *)
Theorem handler_reconnects_iff_connecting `{Env, EventGroup} e s :
  wp (wifi_event_handler e) (fun o s' => o = Ret tt /\ wh (glob s') = wh (glob s) /\
    match e with
    | STA_DISCONNECTED _ =>
        has_bit (glob s') = false /\
        s_is_connecting (glob s') = s_is_connecting (glob s) /\
        (if s_is_connecting (glob s)
         then exists r, trace s' = Ev EspWifiConnect r :: trace s
         else trace s' = trace s)
    | STA_GOT_IP =>
        has_bit (glob s') = true /\ s_is_connecting (glob s') = false /\ trace s' = trace s
    | _ => s' = s
    end) s.
Proof.
  destruct e; try done.
  - apply wp_bind, wp_modify, wp_bind, wp_modify, wp_bind, wp_get.
    assert (Hb : forall g : wg, wifi_event_group g
      = eg_set DISCONNECTED_BIT (eg_clear CONNECTED_BIT (wifi_event_group (glob s))) ->
      has_bit g = false).
    { intros g Hg. rewrite has_bit_testbit, Hg, eg_get_set, eg_get_clear.
      rewrite Z.lor_spec, Z.ldiff_spec. unfold CONNECTED_BIT, DISCONNECTED_BIT. simpl.
      by rewrite andb_false_r. }
    apply wp_when; cbn [glob s_is_connecting]; intros Ec.
    + apply wp_call_. intros r w' _. rewrite Ec. split_and!; try done; [by apply Hb|eauto].
    + rewrite Ec. split_and!; try done. by apply Hb.
  - apply wp_bind, wp_modify, wp_bind, wp_modify, wp_modify. split_and!; try done.
    rewrite has_bit_testbit. cbn [glob wifi_event_group].
    rewrite eg_get_clear, eg_get_set, Z.ldiff_spec, Z.lor_spec.
    unfold CONNECTED_BIT, DISCONNECTED_BIT. simpl. by rewrite orb_true_r.
Qed.

(** the buffer sizes of the header are sufficient: for a network whose SSID
    and password are terminated in their buffers, the two [strncpy] into the
    driver's unterminated [ssid[32]] and [password[64]] fields lose nothing. *)
Theorem sta_config_lossless n :
  (strlen (ssid n) < WIFI_SSID_MAX_LEN)%nat -> (strlen (password n) < WIFI_PASS_MAX_LEN)%nat ->
  length (sta_ssid n) = 32%nat /\ cstr (sta_ssid n ++ [NUL]) = cstr (ssid n) /\
  length (sta_password n) = 64%nat /\ cstr (sta_password n ++ [NUL]) = cstr (password n).
Proof.
  unfold strlen, WIFI_SSID_MAX_LEN, WIFI_PASS_MAX_LEN. intros Hs Hp.
  unfold sta_ssid, sta_password.
  rewrite !length_strncpy by (unfold zeros; rewrite length_replicate; lia).
  unfold zeros at 1 3. rewrite !length_replicate.
  rewrite !cstr_strncpy_nul by (auto using no_nul_cstr; lia). done.
Qed.

(** ** The hypotheses hold on a concrete platform *)

Definition ex_net (s p : string) (r : Z) : wifi_network_t :=
  Network (put_cstr (zeros 33) s) (put_cstr (zeros 65) p) r.

Definition ex_handle : wifi_creds_handle_t :=
  CredsHandle [ex_net "home" "secret" (-100); ex_net "work" "hunter2" (-100);
               zero_network; zero_network; zero_network] 2 true.

Definition ex_wg : wg := Wg 0 true false ex_handle.

Definition ex_wifi_world : tworld :=
  tw_scripts [] [] None [ApRecord "work" (-50) 6; ApRecord "home" (-60) 1; ApRecord "work" (-70) 11]
    "" []
    (tw_nvs (list_to_map [ (("wifi_creds", "count"), VU8 3);
                           (("wifi_creds", "ssid_0"), VStr "home"); (("wifi_creds", "pass_0"), VStr "a");
                           (("wifi_creds", "ssid_1"), VStr "gone");
                           (("wifi_creds", "ssid_2"), VStr "work"); (("wifi_creds", "pass_2"), VStr "b") ]
             : nvs_map)%string ∅ tw_init).

Definition ex_wifi : @sys plain_env wg := test_start ex_wg ex_wifi_world.

Lemma ex_no_nul : no_nul_store (nvs_store (NvsLaws := plain_nvs) ex_wifi_world).
Proof.
  intros k x Hk. change (shown (tw_store ex_wifi_world) !! ("wifi_creds"%string, k) = Some (VStr x)) in Hk.
  rewrite shown_in in Hk by done. unfold ex_wifi_world in Hk. apply elem_of_list_to_map_2, list_elem_of_In in Hk. simpl in Hk.
  repeat destruct Hk as [[= <- <-]|Hk]; try done; by repeat destruct Hk as [[=]|Hk].
Qed.

Lemma ex_wh_wf : wh_wf ex_handle.
Proof. split; simpl; unfold WIFI_MAX_NETWORKS; lia. Qed.

Lemma load_finds_saved_networks_witness :
  no_nul_store (nvs_store (NvsLaws := plain_nvs) ex_wifi_world) /\
  wp (wifi_creds_load true) (load_post (H0 := plain_nvs) ex_wifi) ex_wifi.
Proof.
  split; [apply ex_no_nul|].
  apply (load_finds_saved_networks (H0 := plain_nvs)); [done|apply ex_no_nul|apply ex_wh_wf].
Defined.

(** The incomplete entry 1 is skipped. *)
Example ex_load_result :
  loaded (wh (glob (snd (wifi_creds_load true ex_wifi)))) = [("home", "a"); ("work", "b")]%string.
Proof. vm_compute. reflexivity. Qed.

Lemma scan_sorts_by_signal_witness :
  wp (wifi_creds_scan_and_match true) (fun o s' => exists r, o = Ret r /\
    (is_ok r = true -> exists aps tr,
       trace s' = Ev (EspWifiScanGetApRecords WIFI_SCAN_MAX_AP) (ESP_OK, aps) :: tr /\
       let c := count (wh (glob ex_wifi)) in
       let before := map (fun n => scanned aps (set_rssi (-100) n))
                         (take c (networks (wh (glob ex_wifi)))) in
       let after := take c (networks (wh (glob s'))) in
       StronglySorted by_rssi_desc after /\ Permutation after before /\
       (forall v, List.filter (fun n => rssi n =? v) after
                  = List.filter (fun n => rssi n =? v) before) /\
       drop c (networks (wh (glob s'))) = drop c (networks (wh (glob ex_wifi))))) ex_wifi.
Proof. apply (scan_sorts_by_signal (H := plain_env)); [done|apply ex_wh_wf]. Defined.


(** Both networks are in range; the stronger does not answer, the other does. *)
Example ex_best_tries :
  let r := wifi_creds_connect_best true 20000 (test_start ex_wg
    (tw_scripts [] [[]; [STA_GOT_IP]] None (tw_scan ex_wifi_world) EmptyString [] ex_wifi_world)) in
  fst r = Ret ESP_OK /\
  map (fun c => cstr (c.1 ++ [NUL])) (rev (configured (trace (snd r)))) = ["home"; "work"]%string.
Proof. vm_compute. by split. Qed.

Lemma connect_auto_bounded_witness :
  wp (wifi_creds_connect_auto true 20000) (fun o s' =>
    exists r, o = Ret r /\ waited (trace s') <= waited (trace ex_wifi) + 20000) ex_wifi.
Proof.
  apply (connect_auto_bounded (H0 := plain_nvs)); [done|done|apply ex_no_nul|apply ex_wh_wf].
Defined.

(** On a scripted platform the waits are really taken: 10 s for the driver's
    network, then 5 s for each of the two loaded ones. *)
Example ex_auto_waits :
  waited (trace (snd (wifi_creds_connect_auto true 20000 ex_wifi))) = 20000.
Proof. vm_compute. reflexivity. Qed.

Lemma sta_config_lossless_witness :
  length (sta_ssid (ex_net "home" "secret" 0)) = 32%nat /\
  cstr (sta_ssid (ex_net "home" "secret" 0) ++ [NUL]) = "home"%string /\
  length (sta_password (ex_net "home" "secret" 0)) = 64%nat /\
  cstr (sta_password (ex_net "home" "secret" 0) ++ [NUL]) = "secret"%string.
Proof.
  apply (sta_config_lossless (ex_net "home" "secret" 0)); unfold strlen; simpl;
    unfold WIFI_SSID_MAX_LEN, WIFI_PASS_MAX_LEN; lia.
Defined.

(** ** A lost wake-up *)

(** One saved network, in range; the address arrives while the driver settings
    are re-applied, before the source clears the CONNECTED bit. *)
Definition lost_handle : wifi_creds_handle_t :=
  CredsHandle [ex_net "home" "secret" (-100); zero_network; zero_network; zero_network;
               zero_network] 1 true.

Definition lost_world : tworld :=
  tw_scripts [[]; []; []; []; []; []; []; [STA_GOT_IP]] [] (Some (ApRecord "home" (-50) 6))
    [ApRecord "home" (-50) 6] "" [] tw_init.

Definition lost_start : @sys plain_env wg := test_start (Wg 0 true false lost_handle) lost_world.

(** [wifi_creds_connect_best] clears the CONNECTED bit after it has asked the
    driver to connect, so an address obtained in between is lost: there is a run
    in which the station joins the network and gets its address, and the
    function waits out its whole timeout and reports [ESP_FAIL]. *)
Theorem connect_best_loses_early_wakeup :
  exists s : @sys plain_env wg,
    initialized (wh (glob s)) = true /\ count (wh (glob s)) = 1%nat /\
    let s' := snd (wifi_creds_connect_best true 20000 s) in
    fst (wifi_creds_connect_best true 20000 s) = Ret ESP_FAIL /\
    In (Ev PollEvents [STA_GOT_IP]) (trace s') /\
    fst (wifi_creds_is_connected s') = Ret true /\
    waited (trace s') = 20000.
Proof.
  exists lost_start. split; [done|]. split; [done|]. cbv zeta.
  split; [vm_compute; reflexivity|]. split; [|split; vm_compute; reflexivity].
  vm_compute. auto.
Qed.
