(* ===== verification/CFloat.v ===== *)
(** * C floating point

    [float] and [double] as IEEE 754 binary32 and binary64, in the executable
    specification of the Standard Library ([SpecFloat]), with the conversions
    the sources use.  A conversion to an integer type whose value does not fit
    is undefined behaviour in C: it is [None] here. *)

From Stdlib Require Import SpecFloat.
From S2P Require Import Prelude.
#[local] Open Scope Z_scope.

Abbreviation float32 := spec_float.
Abbreviation float64 := spec_float.

Definition f32_of_Z (n : Z) : float32 := binary_normalize 24 128 n 0 false.
Definition f64_of_Z (n : Z) : float64 := binary_normalize 53 1024 n 0 false.

Definition f32_add : float32 -> float32 -> float32 := SFadd 24 128.
Definition f32_sub : float32 -> float32 -> float32 := SFsub 24 128.
Definition f32_mul : float32 -> float32 -> float32 := SFmul 24 128.
Definition f32_div : float32 -> float32 -> float32 := SFdiv 24 128.
Definition f64_mul : float64 -> float64 -> float64 := SFmul 53 1024.

(** A decimal literal [p/q] of type [float], for [p] and [q] below [2^24]. *)
Definition f32_lit (p q : Z) : float32 := f32_div (f32_of_Z p) (f32_of_Z q).

(** Conversions between the two formats. *)
Definition sf_normalize (prec emax : Z) (x : spec_float) : spec_float :=
  match x with
  | S754_finite s m e => binary_normalize prec emax (cond_Zopp s (Zpos m)) e s
  | _ => x
  end.
Definition f64_of_f32 (x : float32) : float64 := sf_normalize 53 1024 x.
Definition f32_of_f64 (x : float64) : float32 := sf_normalize 24 128 x.

(** [M_PI], the double nearest to pi. *)
Definition M_PI : float64 := S754_finite false 7074237752028440 (-51).

(** The integral part of a finite number. *)
Definition sf_trunc (x : spec_float) : option Z :=
  match x with
  | S754_zero _ => Some 0
  | S754_finite s m e =>
      let a := if 0 <=? e then Zpos m * 2 ^ e else Zpos m / 2 ^ (- e) in
      Some (cond_Zopp s a)
  | _ => None
  end.

(** [(uint16_t)x], [(size_t)x] on this 32-bit target, [(int64_t)x]. *)
Definition sf_to_range (lo hi : Z) (x : spec_float) : option Z :=
  match sf_trunc x with
  | Some n => if (lo <=? n) && (n <? hi) then Some n else None
  | None => None
  end.
Definition sf_to_u16 : spec_float -> option Z := sf_to_range 0 (2 ^ 16).
Definition sf_to_size_t : spec_float -> option Z := sf_to_range 0 (2 ^ 32).
Definition sf_to_int64 : spec_float -> option Z := sf_to_range (- 2 ^ 63) (2 ^ 63).

(** [fmodf(x, y)] for finite [x] and [y <> 0]: exact, with the sign of [x]. *)
Definition fmodf (x y : float32) : float32 :=
  match x, y with
  | S754_finite sx mx ex, S754_finite _ my ey =>
      let e := Z.min ex ey in
      let X := Zpos mx * 2 ^ (ex - e) in
      let Y := Zpos my * 2 ^ (ey - e) in
      binary_normalize 24 128 (cond_Zopp sx (X mod Y)) e sx
  | S754_zero sx, S754_finite _ _ _ => x
  | S754_finite _ _ _, S754_infinity _ | S754_zero _, S754_infinity _ => x
  | _, _ => S754_nan
  end.

Definition fabsf (x : float32) : float32 := SFabs x.

(** Sanity of the formats: the literals of the sources are the floats the
    compiler emits. *)
Example lit_0_01 : f32_lit 1 100 = S754_finite false 10737418 (-30).
Proof. vm_compute. reflexivity. Qed.

Example lit_one_sixth : f32_lit 1 6 = S754_finite false 11184811 (-26).
Proof. vm_compute. reflexivity. Qed.

Example fmod_example : fmodf (f32_lit 11 2) (f32_of_Z 2) = f32_lit 3 2.
Proof. vm_compute. reflexivity. Qed.

(** A number in range converts to its integral part. *)
Lemma sf_to_range_Some lo hi x n :
  sf_to_range lo hi x = Some n -> sf_trunc x = Some n /\ lo <= n < hi.
Proof.
  unfold sf_to_range. destruct (sf_trunc x) as [k|]; [|done].
  destruct ((lo <=? k) && (k <? hi)) eqn:E; [|done]. intros [= ->]. crush_hyps. done.
Qed.

(** Small integers are represented exactly. *)
Lemma f64_of_Z_trunc_200 :
  forallb (fun n => match sf_to_size_t (f64_of_Z (Z.of_nat n)) with
                    | Some k => k =? Z.of_nat n | None => false end) (seq 0 200) = true.
Proof. vm_compute. reflexivity. Qed.
