(* ===== verification/Led.v ===== *)
(** * LED: [simibox_led_idf.c]

    The RGB LED: duty writes behind a recursive mutex, the pattern state, the
    animation step and the task that runs it.  [sinf] is the C library's and is
    a parameter; all other arithmetic is computed in binary32/binary64. *)

From Stdlib Require Import SpecFloat.
From S2P Require Import Prelude Idf Logic CFloat TestEnv.
#[local] Open Scope Z_scope.

(** ** State *)

Inductive led_pattern_t :=
| LED_PATTERN_NONE
| LED_PATTERN_WIFI_CONNECTING
| LED_PATTERN_DOWNLOADING
| LED_PATTERN_DOWNLOAD_RAINBOW
| LED_PATTERN_SUCCESS
| LED_PATTERN_ERROR
| LED_PATTERN_RETRY
| LED_PATTERN_PROGRESS.

#[export] Instance led_pattern_eq_dec : EqDecision led_pattern_t.
Proof. solve_decision. Defined.

Record led_state_t := LedState {
  pattern : led_pattern_t;
  last_update : Z;
  hue : float32;
  progress_percent : Z;
  blink_state : bool
}.

(** [led_state], [s_led_task], [s_ledc_mutex], [s_led_task_stop]: the handles by
    whether they are non-NULL. *)
Record led_g := LedG {
  led_state : led_state_t;
  s_led_task : bool;
  s_ledc_mutex : bool;
  s_led_task_stop : bool
}.

Definition led_state_init : led_state_t := LedState LED_PATTERN_NONE 0 (S754_zero false) 0 false.
Definition led_g_init : led_g := LedG led_state_init false false false.

Definition set_pattern p st := LedState p (last_update st) (hue st) (progress_percent st) (blink_state st).
Definition set_last_update t st := LedState (pattern st) t (hue st) (progress_percent st) (blink_state st).
Definition set_hue h st := LedState (pattern st) (last_update st) h (progress_percent st) (blink_state st).
Definition set_progress_percent n st := LedState (pattern st) (last_update st) (hue st) n (blink_state st).
Definition set_blink_state b st := LedState (pattern st) (last_update st) (hue st) (progress_percent st) b.

Definition LED_R_PIN : Z := 14.
Definition LED_G_PIN : Z := 27.
Definition LED_B_PIN : Z := 12.
Definition LEDC_DUTY_RES : Z := 12.
Definition LEDC_FREQUENCY : Z := 5000.
Definition LEDC_MAX_DUTY : Z := Z.shiftl 1 LEDC_DUTY_RES - 1.

Definition LED_TASK_STACK : Z := 3072.
Definition LED_TASK_PRIORITY : Z := 2.
Definition LED_TASK_CORE : Z := 1.
Definition LED_FRAME_MS : Z := 10.
Definition portTICK_PERIOD_MS : Z := 1.

(** ** Colours *)

(** The clamp of [led_set_color] on one [uint16_t]. *)
Definition clamp_duty (x : Z) : Z := if LEDC_MAX_DUTY <? x then LEDC_MAX_DUTY else x.

(** [(uint16_t)(x * LEDC_MAX_DUTY)] *)
Definition to_duty (x : float32) : option Z := sf_to_u16 (f32_mul x (f32_of_Z LEDC_MAX_DUTY)).

(** The result is [None] when a conversion is undefined. *)
Definition hsv_to_rgb (h s v : float32) : option (Z * Z * Z) :=
  let one := f32_of_Z 1 in
  let c := f32_mul v s in
  let x := f32_mul c (f32_sub one
             (fabsf (f32_sub (fmodf (f32_mul h (f32_of_Z 6)) (f32_of_Z 2)) one))) in
  let m := f32_sub v c in
  let z := S754_zero false in
  let '(rf, gf, bf) :=
    if SFltb h (f32_lit 1 6) then (c, x, z)
    else if SFltb h (f32_lit 2 6) then (x, c, z)
    else if SFltb h (f32_lit 3 6) then (z, c, x)
    else if SFltb h (f32_lit 4 6) then (z, x, c)
    else if SFltb h (f32_lit 5 6) then (x, z, c)
    else (c, z, x) in
  match to_duty (f32_add rf m), to_duty (f32_add gf m), to_duty (f32_add bf m) with
  | Some r, Some g, Some b => Some (r, g, b)
  | _, _, _ => None
  end.

(** [hue += step; if (hue >= 1.0f) hue -= 1.0f] *)
Definition advance_hue (step h : float32) : float32 :=
  let h' := f32_add h step in
  if SFleb (f32_of_Z 1) h' then f32_sub h' (f32_of_Z 1) else h'.

(** [hue += 0.01f; if (hue >= 1.0f) hue = 0] *)
Definition advance_hue_reset (h : float32) : float32 :=
  let h' := f32_add h (f32_lit 1 100) in
  if SFleb (f32_of_Z 1) h' then S754_zero false else h'.

(** [progress] and [hue_step] of the accelerating rainbow. *)
Definition rainbow_progress (percent : Z) : float32 := f32_div (f32_of_Z percent) (f32_of_Z 100).
Definition rainbow_step (percent : Z) : float32 :=
  let p := rainbow_progress percent in
  f32_add (f32_lit 3 1000) (f32_mul (f32_mul p p) (f32_lit 40 1000)).

(** The C library's [sinf]. *)
Class MathLib := { sinf : float32 -> float32 }.

Section Led.
Context `{Env, MathLib}.

Definition update_led_state (f : led_state_t -> led_state_t) : M led_g unit :=
  modify (fun g => LedG (f (led_state g)) (s_led_task g) (s_ledc_mutex g) (s_led_task_stop g)).
Definition set_led_task (b : bool) : M led_g unit :=
  modify (fun g => LedG (led_state g) b (s_ledc_mutex g) (s_led_task_stop g)).
Definition set_ledc_mutex (b : bool) : M led_g unit :=
  modify (fun g => LedG (led_state g) (s_led_task g) b (s_led_task_stop g)).
Definition set_led_task_stop (b : bool) : M led_g unit :=
  modify (fun g => LedG (led_state g) (s_led_task g) (s_ledc_mutex g) b).

(** [if (s_ledc_mutex) xSemaphoreTakeRecursive(...)] and its counterpart *)
Definition take_mutex : M led_g unit :=
  g <- get ;; when (s_ledc_mutex g) (call_ MutexTakeRecursive).
Definition give_mutex : M led_g unit :=
  g <- get ;; when (s_ledc_mutex g) (call_ MutexGiveRecursive).

(** A conversion that may be undefined. *)
Definition defined {A} (o : option A) : M led_g A :=
  match o with Some a => ret a | None => halt ExUndefined end.

(** ** Colour output *)

(** The parameters are [uint16_t]. *)
Definition led_set_color (r g b : Z) : M led_g unit :=
  let r := clamp_duty (u16 r) in
  let g := clamp_duty (u16 g) in
  let b := clamp_duty (u16 b) in
  take_mutex ;;
  call_ (LedcSetDuty LEDC_CHANNEL_R r) ;;
  call_ (LedcSetDuty LEDC_CHANNEL_G g) ;;
  call_ (LedcSetDuty LEDC_CHANNEL_B b) ;;
  call_ (LedcUpdateDuty LEDC_CHANNEL_R) ;;
  call_ (LedcUpdateDuty LEDC_CHANNEL_G) ;;
  call_ (LedcUpdateDuty LEDC_CHANNEL_B) ;;
  give_mutex.

Definition led_show_solid (r g b : Z) : M led_g unit :=
  take_mutex ;;
  update_led_state (set_pattern LED_PATTERN_NONE) ;;
  led_set_color r g b ;;
  give_mutex.

(** ** Pattern setters *)

Definition led_show_wifi_connecting : M led_g unit :=
  update_led_state (set_pattern LED_PATTERN_WIFI_CONNECTING) ;;
  update_led_state (set_hue (S754_zero false)).

Definition led_show_downloading : M led_g unit :=
  update_led_state (set_pattern LED_PATTERN_DOWNLOADING) ;;
  update_led_state (set_hue (S754_zero false)).

(** [percent] is a [uint8_t]. *)
Definition led_show_download_progress (percent : Z) : M led_g unit :=
  update_led_state (set_pattern LED_PATTERN_DOWNLOAD_RAINBOW) ;;
  update_led_state (set_progress_percent (if 100 <? u8 percent then 100 else u8 percent)).

Definition led_show_success : M led_g unit :=
  update_led_state (set_pattern LED_PATTERN_SUCCESS) ;;
  led_set_color 0 LEDC_MAX_DUTY 0.

Definition led_show_error : M led_g unit :=
  update_led_state (set_pattern LED_PATTERN_ERROR) ;;
  update_led_state (set_blink_state false).

Definition led_show_retry : M led_g unit :=
  update_led_state (set_pattern LED_PATTERN_RETRY) ;;
  update_led_state (set_blink_state false).

Definition led_show_progress (percent : Z) : M led_g unit :=
  update_led_state (set_pattern LED_PATTERN_PROGRESS) ;;
  update_led_state (set_progress_percent (u8 percent)) ;;
  if 100 <=? u8 percent then
    led_set_color 0 LEDC_MAX_DUTY 0 ;;
    update_led_state (set_pattern LED_PATTERN_SUCCESS)
  else ret tt.

(** ** The animation step *)

(** [(sinf(x * 2.0f * M_PI) + 1.0f) / 2.0f]: the product with [M_PI] is a
    [double], narrowed again for [sinf]. *)
Definition half_sine (x : float32) : float32 :=
  let arg := f32_of_f64 (f64_mul (f64_of_f32 (f32_mul x (f32_of_Z 2))) M_PI) in
  f32_div (f32_add (sinf arg) (f32_of_Z 1)) (f32_of_Z 2).

Definition step_wifi_connecting (now : Z) : M led_g unit :=
  update_led_state (set_last_update now) ;;
  update_led_state (fun st => set_hue (advance_hue_reset (hue st)) st) ;;
  g <- get ;;
  let brightness := half_sine (hue (led_state g)) in
  let brightness := f32_add (f32_lit 2 10) (f32_mul brightness (f32_lit 8 10)) in
  duty <- defined (sf_to_u16 (f32_mul (f32_of_Z LEDC_MAX_DUTY) brightness)) ;;
  led_set_color duty 0 duty.

Definition step_downloading (now : Z) : M led_g unit :=
  update_led_state (set_last_update now) ;;
  update_led_state (fun st => set_hue (advance_hue (f32_lit 1 100) (hue st)) st) ;;
  g <- get ;;
  let! (r, gr, b) := defined (hsv_to_rgb (hue (led_state g)) (f32_of_Z 1) (f32_of_Z 1)) in
  led_set_color r gr b.

Definition step_download_rainbow (now : Z) : M led_g unit :=
  update_led_state (set_last_update now) ;;
  g0 <- get ;;
  let percent := progress_percent (led_state g0) in
  let progress := rainbow_progress percent in
  update_led_state (fun st => set_hue (advance_hue (rainbow_step percent) (hue st)) st) ;;
  g <- get ;;
  let pulse_freq := f32_add (f32_of_Z 2) (f32_mul progress (f32_of_Z 8)) in
  let pulse := half_sine (f32_mul (f32_mul (f32_of_Z now) pulse_freq) (f32_lit 1 1000)) in
  let brightness := f32_add (f32_lit 6 10) (f32_mul pulse (f32_lit 4 10)) in
  let! (r, gr, b) := defined (hsv_to_rgb (hue (led_state g)) (f32_of_Z 1) brightness) in
  led_set_color r gr b.

(** The pulse period of the legacy progress pattern: unsigned arithmetic. *)
Definition cycle_time (percent : Z) : Z :=
  let c := u32 (2000 - percent * 15) in if c <? 200 then 200 else c.

Definition step_progress (now : Z) : M led_g unit :=
  update_led_state (set_last_update now) ;;
  g <- get ;;
  let percent := progress_percent (led_state g) in
  let ct := f32_of_Z (cycle_time percent) in
  let phase := f32_div (fmodf (f32_of_Z now) ct) ct in
  let brightness := half_sine phase in
  duty <- defined (sf_to_u16 (f32_mul (f32_of_Z LEDC_MAX_DUTY) brightness)) ;;
  if percent <? 25 then led_set_color duty 0 0
  else if percent <? 50 then led_set_color duty (duty / 2) 0
  else if percent <? 75 then led_set_color duty duty 0
  else led_set_color 0 duty 0.

(** The error and retry patterns differ in their period only. *)
Definition step_blink (now : Z) : M led_g unit :=
  update_led_state (set_last_update now) ;;
  update_led_state (fun st => set_blink_state (negb (blink_state st)) st) ;;
  g <- get ;;
  led_set_color (if blink_state (led_state g) then LEDC_MAX_DUTY else 0) 0 0.

(** The [switch] of the step. *)
Definition animate_pattern (p : led_pattern_t) (elapsed now : Z) : M led_g unit :=
  match p with
  | LED_PATTERN_WIFI_CONNECTING => when (20 <=? elapsed) (step_wifi_connecting now)
  | LED_PATTERN_DOWNLOADING => when (20 <=? elapsed) (step_downloading now)
  | LED_PATTERN_DOWNLOAD_RAINBOW => when (10 <=? elapsed) (step_download_rainbow now)
  | LED_PATTERN_PROGRESS => when (30 <=? elapsed) (step_progress now)
  | LED_PATTERN_ERROR => when (300 <=? elapsed) (step_blink now)
  | LED_PATTERN_RETRY => when (100 <=? elapsed) (step_blink now)
  | LED_PATTERN_SUCCESS | LED_PATTERN_NONE => ret tt
  end.

Definition led_animate_step : M led_g unit :=
  t <- call TaskGetTickCount ;;
  let now := u32 (t * portTICK_PERIOD_MS) in
  g <- get ;;
  let elapsed := u32 (now - last_update (led_state g)) in
  take_mutex ;;
  g' <- get ;;
  animate_pattern (pattern (led_state g')) elapsed now ;;
  give_mutex.

Definition led_update : M led_g unit :=
  g <- get ;;
  if s_led_task g then
    cur <- call (TaskIsCurrent "led_anim") ;;
    if (cur : bool) then led_animate_step else ret tt
  else led_animate_step.

(** ** The animation task *)

(** [fuel] frames of the task's loop, which ends when the stop flag is set. *)
Fixpoint led_task_loop (fuel : nat) : M led_g unit :=
  g <- get ;;
  if s_led_task_stop g then ret tt else
  match fuel with
  | O => halt ExFuel
  | S fuel' =>
      led_animate_step ;;
      call_ (VTaskDelayUntil LED_FRAME_MS) ;;
      led_task_loop fuel'
  end.

Definition led_task (fuel : nat) : M led_g unit :=
  call_ TaskGetTickCount ;;
  led_task_loop fuel ;;
  set_led_task false ;;
  call_ TaskDelete.

Definition led_start_task : M led_g Z :=
  g <- get ;;
  if s_led_task g then ret ESP_OK else
  set_led_task_stop false ;;
  ok <- call (TaskCreatePinned "led_anim" LED_TASK_STACK LED_TASK_PRIORITY LED_TASK_CORE) ;;
  if negb ok then set_led_task false ;; ret ESP_ERR_NO_MEM
  else set_led_task true ;; ret ESP_OK.

Definition led_stop_task : M led_g unit :=
  g <- get ;;
  if negb (s_led_task g) then ret tt else
  set_led_task_stop true ;;
  call_ (VTaskDelay (LED_FRAME_MS * 3)).

(** ** Initialization *)

Definition led_init : M led_g Z :=
  g <- get ;;
  ok <- (if s_ledc_mutex g then ret true
         else b <- call MutexCreateRecursive ;; set_ledc_mutex b ;; ret b) ;;
  if negb ok then ret ESP_ERR_NO_MEM else
  esp_error_check (call (LedcTimerConfig LEDC_FREQUENCY)) ;;
  esp_error_check (call (LedcChannelConfig LEDC_CHANNEL_R LED_R_PIN 0)) ;;
  esp_error_check (call (LedcChannelConfig LEDC_CHANNEL_G LED_G_PIN 0)) ;;
  esp_error_check (call (LedcChannelConfig LEDC_CHANNEL_B LED_B_PIN 0)) ;;
  led_set_color 0 0 0 ;;
  led_start_task.
End Led.

(** ** Specification *)

(** The operations of the module, as one type. *)
Inductive led_op :=
| OpSetColor (r g b : Z)
| OpShowSolid (r g b : Z)
| OpShowWifiConnecting
| OpShowDownloading
| OpShowDownloadProgress (percent : Z)
| OpShowSuccess
| OpShowError
| OpShowRetry
| OpShowProgress (percent : Z)
| OpUpdate
| OpAnimate.

Definition run_led_op `{Env, MathLib} (o : led_op) : M led_g unit :=
  match o with
  | OpSetColor r g b => led_set_color r g b
  | OpShowSolid r g b => led_show_solid r g b
  | OpShowWifiConnecting => led_show_wifi_connecting
  | OpShowDownloading => led_show_downloading
  | OpShowDownloadProgress p => led_show_download_progress p
  | OpShowSuccess => led_show_success
  | OpShowError => led_show_error
  | OpShowRetry => led_show_retry
  | OpShowProgress p => led_show_progress p
  | OpUpdate => led_update
  | OpAnimate => led_animate_step
  end.

(** The lock discipline, as a checker of traces: the depth at which the
    recursive mutex is held, or [None] once a LEDC register was written outside
    it, with a duty beyond the timer's resolution, or the mutex was given
    without being held. *)
Definition lock_step (e : event) (d : option nat) : option nat :=
  match d, e with
  | Some n, Ev c _ =>
      match c, n with
      | MutexTakeRecursive, _ => Some (S n)
      | MutexGiveRecursive, S n' => Some n'
      | MutexGiveRecursive, O => None
      | LedcSetDuty _ duty, S _ =>
          if (0 <=? duty) && (duty <=? LEDC_MAX_DUTY) then d else None
      | LedcUpdateDuty _, S _ => d
      | LedcSetDuty _ _, O | LedcUpdateDuty _, O => None
      | _, _ => d
      end
  | None, _ => None
  end.
Definition lock_depth (tr : list event) : option nat := fold_right lock_step (Some O) tr.

(** Milliseconds between the frames of a pattern; [None] for static ones. *)
Definition frame_interval (p : led_pattern_t) : option Z :=
  match p with
  | LED_PATTERN_WIFI_CONNECTING | LED_PATTERN_DOWNLOADING => Some 20
  | LED_PATTERN_DOWNLOAD_RAINBOW => Some 10
  | LED_PATTERN_PROGRESS => Some 30
  | LED_PATTERN_ERROR => Some 300
  | LED_PATTERN_RETRY => Some 100
  | LED_PATTERN_SUCCESS | LED_PATTERN_NONE => None
  end.

Definition frame_due (st : led_state_t) (now : Z) : bool :=
  match frame_interval (pattern st) with
  | Some ms => ms <=? u32 (now - last_update st)
  | None => false
  end.

(** Frames until the hue wraps around, for the rainbow at a percentage. *)
Fixpoint cycle_frames (fuel : nat) (step h : float32) : option Z :=
  match fuel with
  | O => None
  | S fuel' =>
      let h' := advance_hue step h in
      if SFltb h' h then Some 1
      else match cycle_frames fuel' step h' with Some n => Some (n + 1) | None => None end
  end.
Definition rainbow_cycle (percent : Z) : option Z :=
  cycle_frames 400 (rainbow_step percent) (S754_zero false).

Fixpoint nonincreasing (l : list Z) : bool :=
  match l with
  | a :: ((b :: _) as l') => (b <=? a) && nonincreasing l'
  | _ => true
  end.

Section Discipline.
Context `{Env, MathLib}.

(** The mutex exists and is held [n] deep by this task. *)
Definition held (n : nat) (s : sys led_g) : Prop :=
  s_ledc_mutex (glob s) = true /\ lock_depth (trace s) = Some n.

(** [m] takes the depth from [n] to [n'], and stops only in an undefined
    conversion, never having broken the discipline. *)
Definition locks {A} (n n' : nat) (m : M led_g A) : Prop :=
  forall s, held n s -> wp m (fun o s' =>
    match o with
    | Ret _ => held n' s'
    | Halt x => x = ExUndefined /\ lock_depth (trace s') <> None
    end) s.

Lemma clamp_duty_range x : 0 <= clamp_duty (u16 x) <= LEDC_MAX_DUTY.
Proof.
  unfold clamp_duty. pose proof (u16_range x).
  destruct (Z.ltb_spec LEDC_MAX_DUTY (u16 x)); [|lia]. by vm_compute.
Qed.

Lemma locks_ret {A} n (a : A) : locks n n (ret a).
Proof. intros s Hs. by apply wp_ret. Qed.

Lemma locks_bind {A B} n n1 n2 (m : M led_g A) (k : A -> M led_g B) :
  locks n n1 m -> (forall a, locks n1 n2 (k a)) -> locks n n2 (bind m k).
Proof.
  intros Hm Hk s Hs. apply wp_bind. eapply wp_mono; [by apply Hm|].
  intros [a|x] s'; [apply Hk|done].
Qed.

Lemma locks_update n f : locks n n (update_led_state f).
Proof. intros s [Hm Hl]. by apply wp_modify. Qed.

Lemma locks_get n : locks n n get.
Proof. intros s Hs. by apply wp_get. Qed.

Lemma locks_take n : locks n (S n) take_mutex.
Proof.
  intros s [Hm Hl]. apply wp_bind, wp_get. rewrite Hm. apply wp_call_.
  intros r w' _. split; [done|]. simpl. by rewrite Hl.
Qed.

Lemma locks_give n : locks (S n) n give_mutex.
Proof.
  intros s [Hm Hl]. apply wp_bind, wp_get. rewrite Hm. apply wp_call_.
  intros r w' _. split; [done|]. simpl. by rewrite Hl.
Qed.

(** A call the checker lets pass at this depth. *)
Lemma locks_call {X} n (c : cmd X) :
  (forall r, lock_step (Ev c r) (Some n) = Some n) -> locks n n (call c).
Proof.
  intros Hc s [Hm Hl]. apply wp_call. intros r w' _. split; [done|].
  simpl. by rewrite Hl.
Qed.

Lemma locks_call_ {X} n (c : cmd X) :
  (forall r, lock_step (Ev c r) (Some n) = Some n) -> locks n n (call_ c).
Proof. intros Hc. eapply locks_bind; [by apply locks_call|]. intros. apply locks_ret. Qed.

Lemma locks_set_duty n ch x : locks (S n) (S n) (call_ (LedcSetDuty ch (clamp_duty (u16 x)))).
Proof.
  apply locks_call_. intros r. simpl. pose proof (clamp_duty_range x) as [H1 H2].
  apply Z.leb_le in H1, H2. by rewrite H1, H2.
Qed.

Lemma locks_defined {A} n (o : option A) : locks n n (defined o).
Proof.
  intros s [Hm Hl]. destruct o; [by apply wp_ret|]. apply wp_halt. split; [done|].
  by rewrite Hl.
Qed.

Lemma locks_when n c m : locks n n m -> locks n n (when c m).
Proof. intros Hm. unfold when. destruct c; [done|apply locks_ret]. Qed.
End Discipline.

(** Decide [locks] by the structure of the computation. *)
Ltac locks_auto :=
  repeat lazymatch goal with
    | |- locks _ _ (bind take_mutex _) => eapply locks_bind; [apply locks_take|intro]
    | |- locks _ _ (bind _ _) => eapply locks_bind; [|intro]
    | |- locks _ _ (match ?x with _ => _ end) => destruct x
    | |- _ => first
        [ apply locks_give | apply locks_update | apply locks_get | apply locks_defined
        | apply locks_set_duty | apply locks_when | apply locks_ret
        | apply locks_call_; intros; reflexivity | apply locks_call; intros; reflexivity
        | solve [auto with locks] ]
    end.
Create HintDb locks.

Section LedFacts.
Context `{Env, MathLib}.

Lemma locks_set_color n r g b : locks n n (led_set_color r g b).
Proof. unfold led_set_color. locks_auto. Qed.
#[local] Hint Resolve locks_set_color : locks.

Lemma locks_steps n now :
  locks n n (step_wifi_connecting now) /\ locks n n (step_downloading now) /\
  locks n n (step_download_rainbow now) /\ locks n n (step_progress now) /\
  locks n n (step_blink now).
Proof. split_and!; unfold step_wifi_connecting, step_downloading, step_download_rainbow,
  step_progress, step_blink; locks_auto. Qed.

Lemma locks_animate n : locks n n led_animate_step.
Proof.
  unfold led_animate_step. do 2 (eapply locks_bind; [by first [apply locks_call|apply locks_get]|intro]).
  cbv zeta. eapply locks_bind; [apply locks_take|intros _].
  eapply locks_bind; [apply locks_get|intro g].
  eapply locks_bind; [|intro; apply locks_give].
  pose proof (locks_steps (S n) (u32 (a * portTICK_PERIOD_MS))) as (?&?&?&?&?).
  unfold animate_pattern.
  destruct (pattern (led_state g)); try apply locks_ret; by apply locks_when.
Qed.
#[local] Hint Resolve locks_animate : locks.

Lemma locks_op n o : locks n n (run_led_op o).
Proof.
  destruct o; simpl; unfold led_show_solid, led_show_wifi_connecting, led_show_downloading,
    led_show_download_progress, led_show_success, led_show_error, led_show_retry,
    led_show_progress, led_update; locks_auto.
Qed.

Lemma locks_ops n ops : locks n n (for_each ops run_led_op).
Proof.
  induction ops as [|o ops IH]; [apply locks_ret|]. eapply locks_bind; [apply locks_op|auto].
Qed.
End LedFacts.

(** What a frame keeps once its time is recorded. *)
Definition frame_kept (g : led_g) : Z * led_pattern_t * Z * bool :=
  (last_update (led_state g), pattern (led_state g), progress_percent (led_state g),
   s_ledc_mutex g).

Section Pacing.
Context `{Env, MathLib}.

Definition frame_rel (g g' : led_g) : Prop := frame_kept g' = frame_kept g.

#[export] Instance frame_rel_PreOrder : PreOrder frame_rel.
Proof. split; [done|]. unfold frame_rel. intros ???. congruence. Qed.

Lemma keeps_defined {A} (o : option A) : moves frame_rel (defined o).
Proof. by destruct o. Qed.

Lemma keeps_hue f : moves frame_rel (update_led_state (fun st => set_hue (f st) st)).
Proof. done. Qed.

Lemma keeps_blink f : moves frame_rel (update_led_state (fun st => set_blink_state (f st) st)).
Proof. done. Qed.
#[local] Hint Resolve keeps_defined keeps_hue keeps_blink : moves.

Lemma keeps_set_color r g b : moves frame_rel (led_set_color r g b).
Proof. unfold led_set_color, take_mutex, give_mutex. cbv zeta. moves_auto. Qed.
#[local] Hint Resolve keeps_set_color : moves.

(** After recording its time, a step keeps it, the pattern and the percentage. *)
Lemma step_records now m s :
  m = step_wifi_connecting now \/ m = step_downloading now \/
  m = step_download_rainbow now \/ m = step_progress now \/ m = step_blink now ->
  frame_kept (glob (snd (m s)))
  = (now, pattern (led_state (glob s)), progress_percent (led_state (glob s)),
     s_ledc_mutex (glob s)).
Proof.
  assert (Hrec : forall k : M led_g unit, moves frame_rel k ->
    frame_kept (glob (snd ((update_led_state (set_last_update now) ;; k) s)))
    = (now, pattern (led_state (glob s)), progress_percent (led_state (glob s)),
       s_ledc_mutex (glob s))) by (intros k Hk; simpl; unfold m_bind; simpl; by rewrite Hk).
  intros [->|[->|[->|[->| ->]]]];
    unfold step_wifi_connecting, step_downloading, step_download_rainbow, step_progress, step_blink;
    apply Hrec; moves_auto.
Qed.

(** The [switch] steps a frame exactly when it is due. *)
Lemma animate_pattern_paced now s :
  let st := led_state (glob s) in
  let r := animate_pattern (pattern st) (u32 (now - last_update st)) now s in
  if frame_due st now
  then frame_kept (glob (snd r)) = (now, pattern st, progress_percent st, s_ledc_mutex (glob s))
  else r = (Ret tt, s).
Proof.
  cbv zeta. unfold frame_due, frame_interval, animate_pattern.
  destruct (pattern (led_state (glob s))) eqn:E; try done; rewrite <- E;
    case_goal; try done; apply step_records; tauto.
Qed.

(** Taking or giving the mutex returns, and touches nothing else. *)
Definition mutex_only (m : M led_g unit) : Prop :=
  forall s, fst (m s) = Ret tt /\ glob (snd (m s)) = glob s /\
    exists new, trace (snd (m s)) = new ++ trace s /\ Forall (fun e => ev_class e = CMutex) new.

Lemma mutex_only_when (f : led_g -> bool) (c : cmd unit) :
  class_of c = CMutex -> mutex_only (g <- get ;; when (f g) (call_ c)).
Proof.
  intros Hc s. simpl. unfold m_bind, get, when. simpl. destruct (f (glob s)).
  - unfold call_, call. simpl. unfold m_bind. destruct (handle c (wld s)) as [r w']. simpl.
    split_and!; [done..|]. exists [Ev c r]. split; [done|]. by repeat constructor.
  - split_and!; [done..|]. by exists [].
Qed.
End Pacing.

Section LedFrames.
Context `{Env, MathLib}.

Lemma uses_update_led_state cs f : uses cs (update_led_state f).
Proof. apply uses_modify. Qed.

Lemma uses_defined {A} cs (o : option A) : uses cs (defined o).
Proof. destruct o; [apply uses_ret|apply uses_halt]. Qed.
#[local] Hint Resolve uses_update_led_state uses_defined : uses.

Lemma uses_set_color r g b : uses [CLedc; CMutex] (led_set_color r g b).
Proof. unfold led_set_color, take_mutex, give_mutex. cbv zeta. uses_auto. Qed.
#[local] Hint Resolve uses_set_color : uses.

Lemma uses_show_solid r g b : uses [CLedc; CMutex] (led_show_solid r g b).
Proof. unfold led_show_solid, take_mutex, give_mutex. uses_auto. Qed.

Lemma uses_animate : uses [CLedc; CMutex; CTask] led_animate_step.
Proof.
  unfold led_animate_step, take_mutex, give_mutex, animate_pattern, step_wifi_connecting,
    step_downloading, step_download_rainbow, step_progress, step_blink.
  cbv zeta. uses_auto.
Qed.

Lemma uses_led_update : uses [CLedc; CMutex; CTask] led_update.
Proof. pose proof uses_animate. unfold led_update. uses_auto. Qed.

(** The pattern setters that write no register. *)
Lemma uses_setters percent :
  uses [] led_show_wifi_connecting /\ uses [] led_show_downloading /\
  uses [] (led_show_download_progress percent) /\ uses [] led_show_error /\
  uses [] led_show_retry.
Proof.
  split_and!; unfold led_show_wifi_connecting, led_show_downloading, led_show_download_progress,
    led_show_error, led_show_retry; uses_auto.
Qed.

Lemma uses_show_success : uses [CLedc; CMutex] led_show_success.
Proof. unfold led_show_success. uses_auto. Qed.

Lemma uses_led_init : uses [CLedc; CMutex; CTask] led_init.
Proof.
  unfold led_init, led_start_task, set_ledc_mutex, set_led_task_stop, set_led_task. uses_auto.
Qed.

(** The LED code stops early only in an undefined conversion. *)
Definition undefined_only (x : exit) : Prop := x = ExUndefined.

Lemma stops_update_led f : stops undefined_only (update_led_state f).
Proof. apply stops_modify. Qed.

Lemma stops_defined {A} (o : option A) : stops undefined_only (defined o).
Proof. destruct o; [apply stops_ret|by apply stops_halt]. Qed.
#[local] Hint Resolve stops_update_led stops_defined : stops.

Lemma stops_set_color r g b : stops undefined_only (led_set_color r g b).
Proof. unfold led_set_color, take_mutex, give_mutex. cbv zeta. stops_auto. Qed.
#[local] Hint Resolve stops_set_color : stops.

Lemma stops_led_update : stops undefined_only led_update.
Proof.
  unfold led_update, led_animate_step, take_mutex, give_mutex, animate_pattern,
    step_wifi_connecting, step_downloading, step_download_rainbow, step_progress, step_blink.
  cbv zeta. stops_auto.
Qed.

Lemma stops_show_download_progress n : stops undefined_only (led_show_download_progress n).
Proof. unfold led_show_download_progress. stops_auto. Qed.
End LedFrames.
#[export] Hint Resolve uses_set_color uses_show_solid uses_led_update uses_show_success
  uses_led_init : uses.
#[export] Hint Resolve stops_update_led stops_defined stops_set_color stops_led_update
  stops_show_download_progress : stops.

(** ** Properties *)

Section Properties.
Context `{Env, MathLib}.

(** Once the mutex exists, no sequence of LED operations breaks the lock
    discipline: every LEDC register is written under the recursive mutex, with a
    duty the 12-bit timer can represent, and the mutex is given back on every
    path, as often as it was taken. *)
Theorem led_lock_discipline ops s :
  s_ledc_mutex (glob s) = true -> lock_depth (trace s) = Some O ->
  wp (for_each ops run_led_op) (fun o s' =>
    match o with
    | Ret _ => s_ledc_mutex (glob s') = true /\ lock_depth (trace s') = Some O
    | Halt x => x = ExUndefined /\ lock_depth (trace s') <> None
    end) s.
Proof. intros Hm Hl. apply locks_ops. by split. Qed.

(** [led_set_color] clamps each component to the timer's maximum and
    latches all three channels after all three were set, whatever the driver
    answers. *)
Theorem led_set_color_writes r g b s :
  s_ledc_mutex (glob s) = true ->
  wp (led_set_color r g b) (fun o s' => o = Ret tt /\ glob s' = glob s /\
    exists e1 e2 e3 e4 e5 e6 u v,
      trace s' =
        [Ev MutexGiveRecursive v;
         Ev (LedcUpdateDuty LEDC_CHANNEL_B) e6;
         Ev (LedcUpdateDuty LEDC_CHANNEL_G) e5;
         Ev (LedcUpdateDuty LEDC_CHANNEL_R) e4;
         Ev (LedcSetDuty LEDC_CHANNEL_B (Z.min (b mod 65536) 4095)) e3;
         Ev (LedcSetDuty LEDC_CHANNEL_G (Z.min (g mod 65536) 4095)) e2;
         Ev (LedcSetDuty LEDC_CHANNEL_R (Z.min (r mod 65536) 4095)) e1;
         Ev MutexTakeRecursive u] ++ trace s) s.
Proof.
  intros Hm.
  assert (Hc : forall x, clamp_duty (u16 x) = Z.min (x mod 65536) 4095).
  { intros x. unfold clamp_duty, u16. change LEDC_MAX_DUTY with 4095.
    change (2 ^ 16) with 65536. destruct (Z.ltb_spec 4095 (x mod 65536)); lia. }
  unfold led_set_color. cbv zeta. rewrite !Hc.
  apply wp_bind, wp_bind, wp_get. rewrite Hm. apply wp_call_. intros ? ? _.
  do 6 (apply wp_bind, wp_call_; intros ? ? _).
  apply wp_bind, wp_get. cbn [glob]. rewrite Hm. apply wp_call_. intros ? ? _.
  split_and!; [done|done|]. repeat eexists.
Qed.

(** a frame is stepped exactly when its pattern's interval has passed since
    the last one, measured modulo [2^32]: otherwise the state is unchanged and no
    LEDC register is written, and a frame that is stepped records its time and
    keeps the pattern and the percentage. *)
Theorem animate_step_paced s :
  let st := led_state (glob s) in
  wp led_animate_step (fun o s' =>
    exists t, let now := u32 (t * portTICK_PERIOD_MS) in
      if frame_due st now
      then last_update (led_state (glob s')) = now /\
           pattern (led_state (glob s')) = pattern st /\
           progress_percent (led_state (glob s')) = progress_percent st
      else o = Ret tt /\ glob s' = glob s /\
           exists new, trace s' = new ++ trace s /\ Forall (fun e => ev_class e <> CLedc) new) s.
Proof.
  cbv zeta. unfold led_animate_step. apply wp_bind, wp_call. intros t w1 _. cbv zeta.
  apply wp_bind, wp_get. set (now := u32 (t * portTICK_PERIOD_MS)).
  set (s1 := Sys (glob s) w1 (Ev TaskGetTickCount t :: trace s)).
  destruct (mutex_only_when s_ledc_mutex MutexTakeRecursive eq_refl s1) as (R1 & G1 & n1 & T1 & F1).
  apply wp_bind. unfold wp at 1, take_mutex. rewrite R1. set (s2 := snd _) in *.
  apply wp_bind, wp_get, wp_bind. rewrite G1. cbn [glob s1].
  pose proof (animate_pattern_paced now s2) as Hp. cbv zeta in Hp. rewrite G1 in Hp. cbn [glob s1] in Hp.
  unfold wp at 1. destruct (frame_due (led_state (glob s)) now) eqn:Ed.
  - destruct (animate_pattern _ _ now s2) as [[[]|x] s3]; simpl in Hp |- *;
      injection Hp as Hl Hpat Hpr Hmx; exists t; fold now; rewrite Ed; [|done].
    destruct (mutex_only_when s_ledc_mutex MutexGiveRecursive eq_refl s3) as (R3 & G3 & _).
    unfold wp, give_mutex. by rewrite G3.
  - rewrite Hp. simpl.
    destruct (mutex_only_when s_ledc_mutex MutexGiveRecursive eq_refl s2) as (R3 & G3 & n3 & T3 & F3).
    exists t. fold now. rewrite Ed. unfold give_mutex. split_and!; [done|by rewrite G3, G1|].
    exists (n3 ++ n1 ++ [Ev TaskGetTickCount t]).
    rewrite T3, T1. cbn [trace s1]. rewrite <- !app_assoc. split; [done|].
    rewrite !Forall_app. split_and!.
    + eapply Forall_impl; [exact F3|]. by intros e ->.
    + eapply Forall_impl; [exact F1|]. by intros e ->.
    + by repeat constructor.
Qed.

(** while the animation task runs, a call of [led_update] from any other
    task does nothing (it only asks which task is calling), so every frame is
    stepped once. *)
Theorem led_update_dropped s w' :
  s_led_task (glob s) = true -> handle (TaskIsCurrent "led_anim") (wld s) = (false, w') ->
  led_update s = (Ret tt, Sys (glob s) w' (Ev (TaskIsCurrent "led_anim") false :: trace s)).
Proof.
  intros Ht Hc. unfold led_update. simpl. unfold m_bind, get, call. simpl. by rewrite Ht, Hc.
Qed.
End Properties.

(** the download rainbow accelerates with progress: a full turn of the hue
    takes 334 frames (3.3 s at 100 Hz) at 0%, 77 at 50% and 24 at 100%, and never
    more frames at a higher percentage. *)
Theorem rainbow_accelerates :
  map rainbow_cycle [0; 50; 100] = [Some 334; Some 77; Some 24] /\
  nonincreasing (omap (fun p => rainbow_cycle (Z.of_nat p)) (seq 0 101)) = true /\
  forallb (fun p => bool_decide (rainbow_cycle (Z.of_nat p) <> None)) (seq 0 101) = true.
Proof. split_and!; vm_compute; reflexivity. Qed.

(** ** The hypotheses hold on a concrete platform *)

#[local] Instance ex_math : MathLib := {| sinf := fun _ => S754_zero false |}.

Definition ex_led : @sys plain_env led_g := test_start (LedG led_state_init true true false) tw_init.

Lemma led_lock_discipline_witness :
  wp (for_each [OpShowWifiConnecting; OpAnimate; OpShowProgress 100; OpUpdate; OpShowSolid 0 70000 5]
        run_led_op) (fun o s' =>
    match o with
    | Ret _ => s_ledc_mutex (glob s') = true /\ lock_depth (trace s') = Some O
    | Halt x => x = ExUndefined /\ lock_depth (trace s') <> None
    end) ex_led.
Proof. apply (led_lock_discipline (H := plain_env)); reflexivity. Defined.

(** The run above returns, and writes the LED. *)
Example ex_led_run :
  let r := for_each [OpShowSuccess; OpShowSolid 0 70000 5] run_led_op ex_led in
  fst r = Ret tt /\ length (filter (fun e => ev_class e = CLedc) (trace (snd r))) = 12%nat.
Proof. vm_compute. auto. Qed.

Lemma led_set_color_writes_witness :
  exists tr, trace (snd (led_set_color 70000 4095 9 ex_led)) = tr /\ length tr = 8%nat.
Proof.
  destruct (led_set_color_writes (H := plain_env) 70000 4095 9 ex_led eq_refl)
    as (_ & _ & e1 & e2 & e3 & e4 & e5 & e6 & u & v & E).
  eexists. split; [exact E|reflexivity].
Defined.

Lemma led_update_dropped_witness :
  led_update ex_led
  = (Ret tt, @Sys plain_env _ (glob ex_led) (tw_tally tw_init) [Ev (TaskIsCurrent "led_anim") false]).
Proof. apply (led_update_dropped (H := plain_env)); reflexivity. Defined.
