(* ===== verification/Posix.v ===== *)
(** * Files: the part of [stdio], [stat] and [dirent] the sources use

    The card's contents are a tree; the C library's view of it is the record
    [posix] (the tree and the open streams).  What an operation would do to the
    tree is computed here; whether the card lets it happen is asked of the
    platform ([IoOpen], [IoWrite], ...), so every operation can fail, a write can
    be short, and buffered data can fail to reach the card when it is flushed.
    A path is resolved by its components: empty ones are dropped, and ["."] and
    [".."] are names like any other (FatFs is built without relative paths). *)

From stdpp Require Import gmap strings.
From S2P Require Import Prelude Idf Logic.
#[local] Open Scope Z_scope.

(** ** Paths *)

Abbreviation path := (list string).

(** The components of a path string; [acc] is the component being read. *)
Fixpoint split_from (acc : string) (s : string) : path :=
  let flush := if String.eqb acc "" then [] else [acc] in
  match s with
  | EmptyString => flush
  | String c s' =>
      if Ascii.eqb c "/" then flush ++ split_from "" s'
      else split_from (acc ++ String c EmptyString) s'
  end.
Definition split_path (s : string) : path := split_from "" s.

(** [dir + "/" + name] *)
Definition join (dir name : string) : string := (dir ++ "/" ++ name)%string.

(** Two paths part ways at some component. *)
Fixpoint diverge (p q : path) : bool :=
  match p, q with
  | a :: p', b :: q' => if String.eqb a b then diverge p' q' else true
  | _, _ => false
  end.

(** ** The tree *)

#[warnings="-register-all"]
Inductive node :=
| File (data : list ascii)
| Dir (entries : list (string * node)).

Definition is_dir (n : node) : bool := match n with Dir _ => true | File _ => false end.

(** [st_size] of a file; directories report 0. *)
Definition node_size (n : node) : Z :=
  match n with File d => Z.of_nat (length d) | Dir _ => 0 end.

Fixpoint find_entry (c : string) (es : list (string * node)) : option node :=
  match es with
  | [] => None
  | (k, n) :: es' => if String.eqb k c then Some n else find_entry c es'
  end.

Definition drop_entry (c : string) (es : list (string * node)) : list (string * node) :=
  List.filter (fun kn => negb (String.eqb (fst kn) c)) es.

Definition set_entry (c : string) (o : option node) (es : list (string * node))
  : list (string * node) :=
  match o with Some n => drop_entry c es ++ [(c, n)] | None => drop_entry c es end.

Fixpoint lookup_path (p : path) (n : node) : option node :=
  match p with
  | [] => Some n
  | c :: p' => match n with
               | Dir es => match find_entry c es with
                           | Some n' => lookup_path p' n'
                           | None => None
                           end
               | File _ => None
               end
  end.

(** Replace what is at a path; nothing happens if its directory is missing, and
    the root cannot be replaced. *)
Fixpoint set_path (p : path) (o : option node) (n : node) : node :=
  match p, n with
  | [], _ => n
  | _, File _ => n
  | c :: p', Dir es =>
      match p' with
      | [] => Dir (set_entry c o es)
      | _ => match find_entry c es with
             | Some n' => Dir (set_entry c (Some (set_path p' o n')) es)
             | None => n
             end
      end
  end.

(** Whether the directory that would hold the path exists. *)
Fixpoint parent_ok (p : path) (n : node) : bool :=
  match p, n with
  | [], _ => false
  | c :: p', Dir es =>
      match p' with
      | [] => true
      | _ => match find_entry c es with Some n' => parent_ok p' n' | None => false end
      end
  | _, File _ => false
  end.

(** Levels of directories at and below a node. *)
Fixpoint depth (n : node) : nat :=
  match n with
  | File _ => 0
  | Dir es =>
      S ((fix go es := match es with
                       | [] => O
                       | kn :: es' => Nat.max (depth (snd kn)) (go es')
                       end) es)
  end%nat.

Lemma node_ind' (P : node -> Prop) :
  (forall d, P (File d)) ->
  (forall es, Forall (fun kn => P (snd kn)) es -> P (Dir es)) ->
  forall n, P n.
Proof.
  intros HF HD. fix IH 1. intros [d|es]; [apply HF|]. apply HD.
  induction es as [|[k n] es IHes]; constructor; [apply IH|exact IHes].
Qed.

(** ** Streams *)

(** An open [FILE]: where it writes, the read position, and the bytes accepted
    but not yet on the card. *)
Record stream := Stream {
  st_path : path;
  st_pos : nat;
  st_pending : list ascii
}.

Record posix := Posix {
  root : node;
  streams : gmap Z stream;
  next_fd : Z
}.

Section Posix.
Context `{Env}.

Definition set_root (f : node -> node) : M posix unit :=
  modify (fun g => Posix (f (root g)) (streams g) (next_fd g)).
Definition set_stream (fd : Z) (o : option stream) : M posix unit :=
  modify (fun g => Posix (root g)
    (match o with Some st => <[fd := st]> (streams g) | None => delete fd (streams g) end)
    (next_fd g)).
Definition get_stream (fd : Z) : M posix stream :=
  g <- get ;;
  match streams g !! fd with Some st => ret st | None => halt ExMisuse end.

Definition new_stream (p : path) : M posix Z :=
  g <- get ;;
  put (Posix (root g) (<[next_fd g := Stream p 0 []]> (streams g)) (next_fd g + 1)) ;;
  ret (next_fd g).

(** [fopen(path, "w")] and ["wb"]: the file is created or truncated. *)
Definition fopen_w (name : string) : M posix (option Z) :=
  let p := split_path name in
  ok <- call (IoOpen name) ;;
  g <- get ;;
  let writable := match lookup_path p (root g) with
                  | Some n => negb (is_dir n)
                  | None => parent_ok p (root g)
                  end in
  if (ok : bool) && writable
  then set_root (set_path p (Some (File []))) ;; fd <- new_stream p ;; ret (Some fd)
  else ret None.

(** [fopen(path, "rb")] *)
Definition fopen_r (name : string) : M posix (option Z) :=
  let p := split_path name in
  ok <- call (IoOpen name) ;;
  g <- get ;;
  match lookup_path p (root g) with
  | Some (File _) => if (ok : bool) then fd <- new_stream p ;; ret (Some fd) else ret None
  | _ => ret None
  end.

(** [fwrite(bs, 1, n, f)]: the number of bytes taken. *)
Definition fwrite (fd : Z) (bs : list ascii) : M posix nat :=
  st <- get_stream fd ;;
  k <- call (IoWrite (length bs)) ;;
  let k := Nat.min k (length bs) in
  set_stream fd (Some (Stream (st_path st) (st_pos st) (st_pending st ++ take k bs))) ;;
  ret k.

(** Append bytes to the file at a path. *)
Definition append_file (p : path) (bs : list ascii) (n : node) : node :=
  match bs, lookup_path p n with
  | _ :: _, Some (File d) => set_path p (Some (File (d ++ bs))) n
  | _, _ => n
  end.

(** [fflush(f)]: some of the pending bytes reach the card. *)
Definition fflush (fd : Z) : M posix unit :=
  st <- get_stream fd ;;
  k <- call (IoDrain (length (st_pending st))) ;;
  set_root (append_file (st_path st) (take k (st_pending st))) ;;
  set_stream fd (Some (Stream (st_path st) (st_pos st) (drop k (st_pending st)))).

(** [fclose(f)]: flushes, and what does not reach the card is lost. *)
Definition fclose (fd : Z) : M posix unit := fflush fd ;; set_stream fd None.

Definition file_data (p : path) (n : node) : list ascii :=
  match lookup_path p n with Some (File d) => d | _ => [] end.

Definition set_pos (fd : Z) (f : stream -> node -> nat) : M posix unit :=
  st <- get_stream fd ;; g <- get ;;
  set_stream fd (Some (Stream (st_path st) (f st (root g)) (st_pending st))).

(** [fseek(f, 0, SEEK_END)], [fseek(f, 0, SEEK_SET)], [ftell(f)] *)
Definition fseek_end (fd : Z) : M posix unit :=
  set_pos fd (fun st n => length (file_data (st_path st) n)).
Definition fseek_set (fd : Z) : M posix unit := set_pos fd (fun _ _ => O).
Definition ftell (fd : Z) : M posix Z :=
  st <- get_stream fd ;;
  r <- call (IoTell (Z.of_nat (st_pos st))) ;;
  ret (if r <? 0 then -1 else Z.of_nat (st_pos st)).

(** [fread(out, 1, n, f)]: the bytes read. *)
Definition fread (fd : Z) (n : nat) : M posix (list ascii) :=
  st <- get_stream fd ;;
  g <- get ;;
  let avail := take n (drop (st_pos st) (file_data (st_path st) (root g))) in
  k <- call (IoRead (length avail)) ;;
  let got := take k avail in
  set_stream fd (Some (Stream (st_path st) (st_pos st + length got) (st_pending st))) ;;
  ret got.

(** [stat]: what is there, if it can be read. *)
Definition stat (name : string) : M posix (option node) :=
  ok <- call (IoStat name) ;;
  g <- get ;;
  ret (if (ok : bool) then lookup_path (split_path name) (root g) else None).

(** [true] is success (the C functions return 0). *)
Definition mkdir (name : string) : M posix bool :=
  let p := split_path name in
  ok <- call (IoMkdir name) ;;
  g <- get ;;
  match lookup_path p (root g) with
  | Some _ => ret false
  | None => if (ok : bool) && parent_ok p (root g)
            then set_root (set_path p (Some (Dir []))) ;; ret true
            else ret false
  end.

(** Files and empty directories go. *)
Definition removable (n : node) : bool :=
  match n with File _ | Dir [] => true | Dir _ => false end.

Definition unlink (name : string) : M posix bool :=
  let p := split_path name in
  ok <- call (IoUnlink name) ;;
  g <- get ;;
  match lookup_path p (root g) with
  | Some n => if (ok : bool) && removable n
              then set_root (set_path p None) ;; ret true else ret false
  | None => ret false
  end.

Definition rmdir (name : string) : M posix bool :=
  let p := split_path name in
  ok <- call (IoRmdir name) ;;
  g <- get ;;
  match lookup_path p (root g) with
  | Some (Dir []) => if (ok : bool) then set_root (set_path p None) ;; ret true else ret false
  | _ => ret false
  end.

(** The subtree moves; the new name must have a directory to live in, and must
    not be that of a directory with something in it. *)
Definition rename (from to : string) : M posix bool :=
  let p := split_path from in
  let q := split_path to in
  ok <- call (IoRename from to) ;;
  g <- get ;;
  match lookup_path p (root g) with
  | Some n =>
      let r := set_path p None (root g) in
      let free := match lookup_path q r with Some x => removable x | None => true end in
      if (ok : bool) && parent_ok q r && free
      then set_root (fun _ => set_path q (Some n) r) ;; ret true
      else ret false
  | None => ret false
  end.

(** [opendir] and the whole [readdir] loop: the names in the directory when it
    was opened. *)
Definition read_dir (name : string) : M posix (option (list string)) :=
  ok <- call (IoOpendir name) ;;
  g <- get ;;
  match lookup_path (split_path name) (root g) with
  | Some (Dir es) => if (ok : bool) then ret (Some (map fst es)) else ret None
  | _ => ret None
  end.
End Posix.

(** ** Laws of the tree *)

Lemma find_drop_same c es : find_entry c (drop_entry c es) = None.
Proof.
  induction es as [|[k n] es IH]; [done|]. simpl.
  destruct (String.eqb k c) eqn:E; simpl; [done|]. by rewrite E.
Qed.

Lemma find_drop_other c c' es : c' <> c -> find_entry c' (drop_entry c es) = find_entry c' es.
Proof.
  intros Hc. induction es as [|[k n] es IH]; [done|]. simpl.
  destruct (String.eqb_spec k c) as [->|]; simpl.
  - destruct (String.eqb_spec c c'); [congruence|done].
  - by rewrite IH.
Qed.

Lemma find_app c es es' :
  find_entry c (es ++ es')
  = match find_entry c es with Some n => Some n | None => find_entry c es' end.
Proof. induction es as [|[k n] es IH]; [done|]. simpl. by destruct (String.eqb k c). Qed.

Lemma find_set_same c o es : find_entry c (set_entry c o es) = o.
Proof.
  destruct o; simpl; [|apply find_drop_same].
  rewrite find_app, find_drop_same. simpl. by rewrite String.eqb_refl.
Qed.

Lemma find_set_other c c' o es : c' <> c -> find_entry c' (set_entry c o es) = find_entry c' es.
Proof.
  intros Hc. destruct o; simpl; [|by apply find_drop_other].
  rewrite find_app, find_drop_other by done. simpl.
  destruct (String.eqb_spec c c'); [congruence|]. by destruct (find_entry c' es).
Qed.

Lemma find_entry_In c es n : find_entry c es = Some n -> In (c, n) es.
Proof.
  induction es as [|[k m] es IH]; [done|]. simpl.
  destruct (String.eqb_spec k c) as [->|]; [|auto]. intros [= ->]. by left.
Qed.

Lemma lookup_app p q n :
  lookup_path (p ++ q) n
  = match lookup_path p n with Some n' => lookup_path q n' | None => None end.
Proof.
  revert n. induction p as [|c p IH]; intros n; [done|]. simpl.
  destruct n as [d|es]; [done|]. destruct (find_entry c es); [apply IH|done].
Qed.

Lemma parent_ok_lookup p n x : p <> [] -> lookup_path p n = Some x -> parent_ok p n = true.
Proof.
  revert n. induction p as [|c p IH]; intros n Hp; [done|]. simpl.
  destruct n as [d|es]; [done|]. destruct p as [|c' p]; [done|].
  destruct (find_entry c es); [|done]. by apply IH.
Qed.

Lemma lookup_set_same p o n : parent_ok p n = true -> lookup_path p (set_path p o n) = o.
Proof.
  revert n. induction p as [|c p IH]; intros n; [done|]. destruct n as [d|es]; [done|].
  destruct p as [|c' p].
  - intros _. cbn [set_path lookup_path]. rewrite find_set_same. by destruct o.
  - cbn [parent_ok set_path]. destruct (find_entry c es) eqn:E; [|done]. intros Hp.
    cbn [lookup_path]. rewrite find_set_same. by apply IH.
Qed.

Lemma lookup_set_diverge p q o n :
  diverge p q = true -> lookup_path q (set_path p o n) = lookup_path q n.
Proof.
  revert q n. induction p as [|c p IH]; intros [|c' q] n; try done.
  destruct n as [d|es]; [by destruct p|]. simpl diverge.
  destruct (String.eqb_spec c c') as [<-|Hc]; intros Hd.
  - destruct p as [|c2 p]; [by destruct q|]. cbn [set_path].
    destruct (find_entry c es) as [m|] eqn:E; [|done].
    cbn [lookup_path]. rewrite find_set_same, E. by apply IH.
  - assert (Hf : forall o', lookup_path (c' :: q) (Dir (set_entry c o' es))
                            = lookup_path (c' :: q) (Dir es)).
    { intros o'. cbn [lookup_path]. by rewrite find_set_other by congruence. }
    destruct p as [|c2 p]; cbn [set_path]; [done|]. by destruct (find_entry c es).
Qed.

Lemma diverge_app_l r p q : diverge r q = true -> diverge (r ++ p) q = true.
Proof.
  revert q. induction r as [|c r IH]; intros [|c' q]; try done. simpl.
  destruct (String.eqb c c'); auto.
Qed.

Lemma diverge_sym p q : diverge p q = diverge q p.
Proof.
  revert q. induction p as [|c p IH]; intros [|c' q]; try done. simpl.
  rewrite String.eqb_sym. destruct (String.eqb c' c); auto.
Qed.

Lemma diverge_app_same r p q : diverge (r ++ p) (r ++ q) = diverge p q.
Proof. induction r as [|c r IH]; [done|]. simpl. by rewrite String.eqb_refl. Qed.

Lemma append_file_diverge p q bs n :
  diverge p q = true -> lookup_path q (append_file p bs n) = lookup_path q n.
Proof.
  intros Hd. unfold append_file.
  destruct bs, (lookup_path p n) as [[d|]|]; try done.
  by apply lookup_set_diverge.
Qed.

(** ** Laws of paths *)

Lemma split_from_acc acc s t :
  split_from acc (s ++ String "/" t) = split_from acc s ++ split_from "" t.
Proof.
  revert acc. induction s as [|c s IH]; intros acc; simpl; [done|].
  destruct (Ascii.eqb c "/"); [|apply IH]. rewrite IH. by rewrite app_assoc.
Qed.

Lemma split_join d s : split_path (join d s) = split_path d ++ split_path s.
Proof. apply split_from_acc. Qed.

(** ** Depth *)

Definition depth_entries (es : list (string * node)) : nat :=
  fold_right (fun kn a => Nat.max (depth (snd kn)) a) O es.

Lemma depth_Dir es : depth (Dir es) = S (depth_entries es).
Proof. reflexivity. Qed.

Lemma depth_pos es : (0 < depth (Dir es))%nat.
Proof. simpl; lia. Qed.

Lemma depth_find c es m : find_entry c es = Some m -> (depth m <= depth_entries es)%nat.
Proof.
  induction es as [|[k n] es IH]; [done|]. simpl. destruct (String.eqb k c).
  - intros [= ->]. lia.
  - intros Hf. apply IH in Hf. lia.
Qed.

Lemma depth_drop c es : (depth_entries (drop_entry c es) <= depth_entries es)%nat.
Proof.
  induction es as [|[k n] es IH]; [done|]. simpl. destruct (String.eqb k c); simpl; lia.
Qed.

Lemma depth_app es es' :
  depth_entries (es ++ es') = Nat.max (depth_entries es) (depth_entries es').
Proof. induction es as [|kn es IH]; simpl; [done|]. rewrite IH. lia. Qed.

Lemma depth_set c m m' es :
  find_entry c es = Some m -> (depth m' <= depth m)%nat ->
  (depth_entries (set_entry c (Some m') es) <= depth_entries es)%nat.
Proof.
  intros Hf Hd. pose proof (depth_find _ _ _ Hf). pose proof (depth_drop c es).
  simpl. rewrite depth_app. simpl. lia.
Qed.

(** ** Removal *)

(** The names in a directory. *)
Definition names (n : node) : list string :=
  match n with Dir es => map fst es | File _ => [] end.

(** What may be left of a subtree: nothing new, nothing deeper. *)
Definition shrunk_node (m m' : node) : Prop :=
  (depth m' <= depth m)%nat /\ names m' ⊆ names m /\ is_dir m' = is_dir m.

#[export] Instance shrunk_node_PreOrder : PreOrder shrunk_node.
Proof.
  split; [intros n; unfold shrunk_node; by split_and!|]. intros a b c (?&?&?) (?&?&?).
  split_and!; [lia|set_solver|congruence].
Qed.

Lemma names_drop c es : map fst (drop_entry c es) ⊆ map fst es.
Proof.
  induction es as [|[k n] es IH]; [done|]. simpl. destruct (String.eqb k c); simpl;
    [by apply list_subseteq_cons|by apply list_subseteq_skip].
Qed.

Lemma find_entry_name c es n : find_entry c es = Some n -> c ∈ map fst es.
Proof.
  intros Hf. apply find_entry_In in Hf. apply list_elem_of_In, in_map_iff. by exists (c, n).
Qed.

Lemma names_set c o es m : find_entry c es = Some m -> map fst (set_entry c o es) ⊆ map fst es.
Proof.
  intros Hf. apply find_entry_name in Hf. pose proof (names_drop c es).
  destruct o; simpl; [|done]. rewrite map_app.
  intros x Hx. apply elem_of_app in Hx as [Hx|Hx]; [auto|].
  apply list_elem_of_singleton in Hx. by subst.
Qed.

Lemma set_path_cons c c2 p o es :
  set_path (c :: c2 :: p) o (Dir es)
  = match find_entry c es with
    | Some n => Dir (set_entry c (Some (set_path (c2 :: p) o n)) es)
    | None => Dir es
    end.
Proof. reflexivity. Qed.

Lemma set_None_shrinks p n : shrunk_node n (set_path p None n).
Proof.
  revert n. induction p as [|c p IH]; intros n; [done|].
  destruct n as [d|es]; [by destruct p|]. destruct p as [|c2 p]; [|rewrite set_path_cons].
  - cbn [set_path]. split_and!; [|apply names_drop|done]. rewrite !depth_Dir. simpl.
    pose proof (depth_drop c es). lia.
  - destruct (find_entry c es) as [m|] eqn:E; [|done].
    split_and!; [|by eapply names_set|done]. rewrite !depth_Dir.
    destruct (IH m) as [Hd _]. pose proof (depth_set c m _ es E Hd). lia.
Qed.

Lemma set_None_lookup p q n m' :
  lookup_path q (set_path p None n) = Some m' ->
  exists m, lookup_path q n = Some m /\ shrunk_node m m'.
Proof.
  revert q n. induction p as [|c p IH]; intros q n Hl; [by exists m'|].
  destruct q as [|c' q].
  { pose proof (set_None_shrinks (c :: p) n) as Hs.
    change (Some (set_path (c :: p) None n) = Some m') in Hl.
    exists n. split; [done|]. by replace m' with (set_path (c :: p) None n) by congruence. }
  destruct n as [d|es]; [by destruct p|].
  destruct (decide (c' = c)) as [->|Hc].
  - destruct p as [|c2 p]; [cbn in Hl; by rewrite find_drop_same in Hl|rewrite set_path_cons in Hl].
    destruct (find_entry c es) as [m|] eqn:E.
    + cbn [lookup_path] in Hl. rewrite find_set_same in Hl.
      cbn [lookup_path]. rewrite E. by apply IH.
    + cbn [lookup_path] in Hl. by rewrite E in Hl.
  - exists m'. split; [|done]. cbn [lookup_path].
    destruct p as [|c2 p]; [|rewrite set_path_cons in Hl].
    + cbn in Hl. by rewrite find_drop_other in Hl.
    + destruct (find_entry c es); cbn [lookup_path] in Hl; [by rewrite find_set_other in Hl|done].
Qed.

(** ** Frames *)

(** Every open stream is on a file under [r]. *)
Definition inside (r : path) (g : posix) : Prop :=
  map_Forall (fun _ st => exists p, st_path st = r ++ p) (streams g).

(** Only what is under [r] changes. *)
Definition under (r : path) (g g' : posix) : Prop :=
  inside r g ->
  inside r g' /\
  forall q, diverge r q = true -> lookup_path q (root g') = lookup_path q (root g).

#[export] Instance under_PreOrder r : PreOrder (under r).
Proof.
  split; [by split|]. intros g1 g2 g3 H1 H2 Hi.
  destruct (H1 Hi) as [Hi2 E2]. destruct (H2 Hi2) as [Hi3 E3].
  split; [done|]. intros q Hq. by rewrite E3, E2.
Qed.

(** Nothing new appears in the tree, and no stream changes. *)
Definition shrinks (g g' : posix) : Prop :=
  streams g' = streams g /\
  forall q m', lookup_path q (root g') = Some m' ->
    exists m, lookup_path q (root g) = Some m /\ shrunk_node m m'.

#[export] Instance shrinks_PreOrder : PreOrder shrinks.
Proof.
  split; [split; [done|]; intros q m' Hl; by exists m'|].
  intros g1 g2 g3 [E1 H1] [E2 H2]. split; [congruence|]. intros q m3 Hl.
  destruct (H2 _ _ Hl) as (m2 & Hl2 & S2). destruct (H1 _ _ Hl2) as (m1 & Hl1 & S1).
  exists m1. split; [done|]. by etransitivity.
Qed.

Section Frames.
Context `{Env}.

Lemma moves_set_root r f :
  (forall n q, diverge r q = true -> lookup_path q (f n) = lookup_path q n) ->
  moves (under r) (set_root f).
Proof. intros Hf s Hi. split; [done|]. intros q Hq. by apply Hf. Qed.

Lemma under_set r p o : moves (under r) (set_root (set_path (r ++ p) o)).
Proof.
  apply moves_set_root. intros n q Hq. apply lookup_set_diverge. by apply diverge_app_l.
Qed.

Lemma under_new_stream r p : moves (under r) (new_stream (r ++ p)).
Proof.
  intros s Hi. split; [|done]. simpl. unfold inside. simpl.
  apply map_Forall_insert_2; [by exists p|done].
Qed.

(** An operation on an open stream. *)
Lemma get_stream_bind {A} fd (k : stream -> M posix A) r :
  (forall s st, inside r (glob s) -> streams (glob s) !! fd = Some st ->
     under r (glob s) (glob (snd (k st s)))) ->
  moves (under r) (bind (get_stream fd) k).
Proof.
  intros Hk s Hi. unfold get_stream. simpl. unfold m_bind, get. simpl.
  destruct (streams (glob s) !! fd) as [st|] eqn:E; [by apply Hk|by split].
Qed.

Lemma inside_lookup r g fd st :
  inside r g -> streams g !! fd = Some st -> exists p, st_path st = r ++ p.
Proof. intros Hi Hs. exact (Hi _ _ Hs). Qed.

Lemma under_set_stream r fd o :
  (forall st, o = Some st -> exists p, st_path st = r ++ p) -> moves (under r) (set_stream fd o).
Proof.
  intros Ho s Hi. split; [|done]. unfold inside in *. simpl. destruct o as [st|].
  - apply map_Forall_insert_2; auto.
  - by apply map_Forall_delete.
Qed.

Lemma under_fwrite r fd bs : moves (under r) (fwrite fd bs).
Proof.
  apply get_stream_bind. intros s st Hi Hs.
  destruct (inside_lookup _ _ _ _ Hi Hs) as [p Hp].
  revert s Hi Hs. refine (fun s _ _ => _ s). rewrite Hp.
  apply moves_bind; [typeclasses eauto|apply moves_call; typeclasses eauto|intros k].
  cbv zeta. apply moves_bind; [typeclasses eauto| |intros; apply moves_ret; typeclasses eauto].
  apply under_set_stream. intros ? [= <-]. by exists p.
Qed.

Lemma under_fflush r fd : moves (under r) (fflush fd).
Proof.
  apply get_stream_bind. intros s st Hi Hs.
  destruct (inside_lookup _ _ _ _ Hi Hs) as [p Hp].
  revert s Hi Hs. refine (fun s _ _ => _ s). rewrite Hp.
  apply moves_bind; [typeclasses eauto|apply moves_call; typeclasses eauto|intros k].
  apply moves_bind; [typeclasses eauto| |intros].
  - apply moves_set_root. intros n q Hq. apply append_file_diverge. by apply diverge_app_l.
  - apply under_set_stream. intros ? [= <-]. by exists p.
Qed.

Lemma under_fclose r fd : moves (under r) (fclose fd).
Proof.
  apply moves_bind; [typeclasses eauto|apply under_fflush|intros _].
  by apply under_set_stream.
Qed.

Lemma under_set_pos r fd f : moves (under r) (set_pos fd f).
Proof.
  apply get_stream_bind. intros s st Hi Hs.
  destruct (inside_lookup _ _ _ _ Hi Hs) as [p Hp].
  revert s Hi Hs. refine (fun s _ _ => _ s).
  apply moves_bind; [typeclasses eauto|apply moves_get; typeclasses eauto|intros g].
  apply under_set_stream. intros ? [= <-]. by exists p.
Qed.

Lemma under_ftell r fd : moves (under r) (ftell fd).
Proof.
  apply get_stream_bind. intros s st Hi Hs. revert s Hi Hs. refine (fun s _ _ => _ s).
  apply moves_bind; [typeclasses eauto|apply moves_call; typeclasses eauto|intros k].
  apply moves_ret. typeclasses eauto.
Qed.

Lemma under_fread r fd n : moves (under r) (fread fd n).
Proof.
  apply get_stream_bind. intros s st Hi Hs.
  destruct (inside_lookup _ _ _ _ Hi Hs) as [p Hp].
  revert s Hi Hs. refine (fun s _ _ => _ s).
  apply moves_bind; [typeclasses eauto|apply moves_get; typeclasses eauto|intros g].
  cbv zeta. apply moves_bind; [typeclasses eauto|apply moves_call; typeclasses eauto|intros k].
  apply moves_bind; [typeclasses eauto| |intros; apply moves_ret; typeclasses eauto].
  apply under_set_stream. intros ? [= <-]. by exists p.
Qed.
#[local] Hint Resolve under_set under_new_stream : moves.

(** Operations on a name under [r]. *)
Section Named.
Context (r p : path) (name : string) (Hn : split_path name = r ++ p).

Lemma under_fopen_w : moves (under r) (fopen_w name).
Proof. unfold fopen_w. cbv zeta. rewrite Hn. moves_auto. Qed.

Lemma under_fopen_r : moves (under r) (fopen_r name).
Proof. unfold fopen_r. cbv zeta. rewrite Hn. moves_auto. Qed.

Lemma under_mkdir : moves (under r) (mkdir name).
Proof. unfold mkdir. cbv zeta. rewrite Hn. moves_auto. Qed.

Lemma under_unlink : moves (under r) (unlink name).
Proof. unfold unlink. cbv zeta. rewrite Hn. moves_auto. Qed.

Lemma under_rmdir : moves (under r) (rmdir name).
Proof. unfold rmdir. cbv zeta. rewrite Hn. moves_auto. Qed.

Lemma under_rename to q : split_path to = r ++ q -> moves (under r) (rename name to).
Proof.
  intros Ht. unfold rename. cbv zeta. rewrite Hn, Ht.
  apply moves_bind; [typeclasses eauto|apply moves_call; typeclasses eauto|intros ok].
  apply moves_get_bind. intros s Hi.
  destruct (lookup_path (r ++ p) (root (glob s))) as [n|]; [|by split].
  destruct (_ && _ && _); [|by split]. split; [done|]. intros q' Hq. simpl.
  rewrite !lookup_set_diverge by (by apply diverge_app_l). done.
Qed.
End Named.

Lemma shrinks_set p : moves shrinks (set_root (set_path p None)).
Proof. intros s. split; [done|]. intros q m' Hl. exact (set_None_lookup _ _ _ _ Hl). Qed.
#[local] Hint Resolve shrinks_set : moves.

Lemma shrinks_unlink name : moves shrinks (unlink name).
Proof. unfold unlink. cbv zeta. moves_auto. Qed.

Lemma shrinks_rmdir name : moves shrinks (rmdir name).
Proof. unfold rmdir. cbv zeta. moves_auto. Qed.

(** Reading operations change nothing of the tree, for any [R]. *)
Lemma moves_stat R `{!PreOrder R} name : moves R (stat name).
Proof. unfold stat. moves_auto. Qed.

Lemma moves_read_dir R `{!PreOrder R} name : moves R (read_dir name).
Proof. unfold read_dir. moves_auto. Qed.

(** ** What the stream operations do *)

Lemma wp_get_stream fd st (Q : outcome stream -> sys posix -> Prop) s :
  streams (glob s) !! fd = Some st -> Q (Ret st) s -> wp (get_stream fd) Q s.
Proof. intros Hs HQ. apply wp_bind, wp_get. rewrite Hs. by apply wp_ret. Qed.

(** Whether [fopen(..., "w")] can succeed on a tree. *)
Definition writable (p : path) (n : node) : bool :=
  match lookup_path p n with Some m => negb (is_dir m) | None => parent_ok p n end.

Definition with_stream (fd : Z) (st : stream) (g : posix) : posix :=
  Posix (root g) (<[fd := st]> (streams g)) (next_fd g).

Definition opened (p : path) (g : posix) : posix :=
  Posix (set_path p (Some (File [])) (root g)) (<[next_fd g := Stream p 0 []]> (streams g))
    (next_fd g + 1).

Lemma wp_fopen_w name (Q : outcome (option Z) -> sys posix -> Prop) s :
  (forall s', glob s' = glob s -> Q (Ret None) s') ->
  (forall s', writable (split_path name) (root (glob s)) = true ->
     glob s' = opened (split_path name) (glob s) -> Q (Ret (Some (next_fd (glob s)))) s') ->
  wp (fopen_w name) Q s.
Proof.
  intros H1 H2. apply wp_bind, wp_call. intros ok w1 _. apply wp_bind, wp_get. cbn [glob].
  fold (writable (split_path name) (root (glob s))).
  destruct (ok && writable _ _) eqn:E; [|by apply wp_ret, H1].
  apply andb_prop in E as [_ E].
  apply wp_bind, wp_modify, wp_bind, wp_bind, wp_get, wp_bind, wp_put, wp_ret, wp_ret.
  by apply H2.
Qed.

Lemma wp_fwrite fd st bs (Q : outcome nat -> sys posix -> Prop) s :
  streams (glob s) !! fd = Some st ->
  (forall k s', (k <= length bs)%nat ->
     glob s' = with_stream fd (Stream (st_path st) (st_pos st) (st_pending st ++ take k bs))
                 (glob s) -> Q (Ret k) s') ->
  wp (fwrite fd bs) Q s.
Proof.
  intros Hs HQ. apply wp_bind. eapply wp_get_stream; [exact Hs|].
  apply wp_bind, wp_call. intros k w1 _. apply wp_bind, wp_modify, wp_ret, HQ; [lia|done].
Qed.

Lemma wp_fflush fd st (Q : outcome unit -> sys posix -> Prop) s :
  streams (glob s) !! fd = Some st ->
  (forall k s', k = fst (handle (IoDrain (length (st_pending st))) (wld s)) ->
     glob s' = Posix (append_file (st_path st) (take k (st_pending st)) (root (glob s)))
                 (<[fd := Stream (st_path st) (st_pos st) (drop k (st_pending st))]>
                    (streams (glob s))) (next_fd (glob s)) -> Q (Ret tt) s') ->
  wp (fflush fd) Q s.
Proof.
  intros Hs HQ. apply wp_bind. eapply wp_get_stream; [exact Hs|].
  apply wp_bind, wp_call. intros k w1 Hk. apply wp_bind, wp_modify, wp_modify.
  apply (HQ k); [by rewrite Hk|done].
Qed.

Lemma wp_fclose fd st (Q : outcome unit -> sys posix -> Prop) s :
  streams (glob s) !! fd = Some st ->
  (forall k s', k = fst (handle (IoDrain (length (st_pending st))) (wld s)) ->
     glob s' = Posix (append_file (st_path st) (take k (st_pending st)) (root (glob s)))
                 (delete fd (streams (glob s))) (next_fd (glob s)) -> Q (Ret tt) s') ->
  wp (fclose fd) Q s.
Proof.
  intros Hs HQ. apply wp_bind. eapply wp_fflush; [exact Hs|]. intros k s1 Hk E.
  apply wp_modify, (HQ k); [done|]. cbn [glob]. rewrite E. simpl. by rewrite delete_insert_eq.
Qed.

Lemma wp_unlink name (Q : outcome bool -> sys posix -> Prop) s :
  (forall b s', glob s' = glob s \/
     (exists n, lookup_path (split_path name) (root (glob s)) = Some n /\
        glob s' = Posix (set_path (split_path name) None (root (glob s)))
                    (streams (glob s)) (next_fd (glob s))) ->
     Q (Ret b) s') ->
  wp (unlink name) Q s.
Proof.
  intros HQ. apply wp_bind, wp_call. intros ok w' _. apply wp_bind, wp_get. cbn [glob].
  destruct (lookup_path _ _) eqn:E; [|apply wp_ret, HQ; by left].
  destruct (ok && removable n); [|apply wp_ret, HQ; by left].
  apply wp_bind, wp_modify, wp_ret, HQ. right. eauto.
Qed.

Lemma wp_rename from to (Q : outcome bool -> sys posix -> Prop) s :
  (forall s', glob s' = glob s -> Q (Ret false) s') ->
  (forall n s', lookup_path (split_path from) (root (glob s)) = Some n ->
     glob s' = Posix (set_path (split_path to) (Some n)
                        (set_path (split_path from) None (root (glob s))))
                 (streams (glob s)) (next_fd (glob s)) ->
     parent_ok (split_path to) (set_path (split_path from) None (root (glob s))) = true ->
     Q (Ret true) s') ->
  wp (rename from to) Q s.
Proof.
  intros H1 H2. apply wp_bind, wp_call. intros ok w' _. apply wp_bind, wp_get. cbn [glob].
  destruct (lookup_path (split_path from) _) as [n|] eqn:E; [|by apply wp_ret, H1].
  cbv zeta. destruct (ok && _ && _) eqn:Eb; [|by apply wp_ret, H1].
  apply andb_prop in Eb as [Eb _]. apply andb_prop in Eb as [_ Eb].
  apply wp_bind, wp_modify, wp_ret. by apply (H2 n).
Qed.

Lemma lookup_append p bs n d :
  p <> [] -> lookup_path p n = Some (File d) ->
  lookup_path p (append_file p bs n) = Some (File (d ++ bs)).
Proof.
  intros Hp Hl. unfold append_file. destruct bs; rewrite Hl; [by rewrite app_nil_r|].
  apply lookup_set_same. by eapply parent_ok_lookup.
Qed.

(** ** Classes of calls *)

Lemma uses_get_stream fd : uses [CIo] (get_stream fd).
Proof. unfold get_stream. uses_auto. Qed.

Lemma uses_set_stream fd o : uses [CIo] (set_stream fd o).
Proof. apply uses_modify. Qed.

Lemma uses_set_root f : uses [CIo] (set_root f).
Proof. apply uses_modify. Qed.

Lemma uses_new_stream p : uses [CIo] (new_stream p).
Proof. unfold new_stream. uses_auto. Qed.
#[local] Hint Resolve uses_get_stream uses_set_stream uses_set_root uses_new_stream : uses.

Lemma uses_fopen_w name : uses [CIo] (fopen_w name).
Proof. unfold fopen_w. cbv zeta. uses_auto. Qed.

Lemma uses_fopen_r name : uses [CIo] (fopen_r name).
Proof. unfold fopen_r. cbv zeta. uses_auto. Qed.

Lemma uses_fwrite fd bs : uses [CIo] (fwrite fd bs).
Proof. unfold fwrite. cbv zeta. uses_auto. Qed.

Lemma uses_fflush fd : uses [CIo] (fflush fd).
Proof. unfold fflush. cbv zeta. uses_auto. Qed.

Lemma uses_set_pos fd f : uses [CIo] (set_pos fd f).
Proof. unfold set_pos. cbv zeta. uses_auto. Qed.

Lemma uses_ftell fd : uses [CIo] (ftell fd).
Proof. unfold ftell. cbv zeta. uses_auto. Qed.

Lemma uses_fread fd n : uses [CIo] (fread fd n).
Proof. unfold fread. cbv zeta. uses_auto. Qed.

Lemma uses_stat name : uses [CIo] (stat name).
Proof. unfold stat. cbv zeta. uses_auto. Qed.

Lemma uses_mkdir name : uses [CIo] (mkdir name).
Proof. unfold mkdir. cbv zeta. uses_auto. Qed.

Lemma uses_unlink name : uses [CIo] (unlink name).
Proof. unfold unlink. cbv zeta. uses_auto. Qed.

Lemma uses_rmdir name : uses [CIo] (rmdir name).
Proof. unfold rmdir. cbv zeta. uses_auto. Qed.

Lemma uses_rename name to : uses [CIo] (rename name to).
Proof. unfold rename. cbv zeta. uses_auto. Qed.

Lemma uses_read_dir name : uses [CIo] (read_dir name).
Proof. unfold read_dir. cbv zeta. uses_auto. Qed.

Lemma uses_fclose fd : uses [CIo] (fclose fd).
Proof. apply uses_bind; [apply uses_fflush|intros _; apply uses_set_stream]. Qed.
End Frames.

#[export] Hint Resolve moves_stat moves_read_dir under_fwrite under_fflush under_fclose
  under_set_pos under_ftell under_fread shrinks_unlink shrinks_rmdir : moves.
#[export] Hint Resolve uses_fopen_w uses_fopen_r uses_fwrite uses_fflush uses_fclose uses_set_pos
  uses_ftell uses_fread uses_stat uses_mkdir uses_unlink uses_rmdir uses_rename
  uses_read_dir : uses.
