(* ===== verification/FileHelpers.v ===== *)
(** * File helpers of [simibox_download.cpp]

    [read_text_file], [file_size_bytes] and [delete_tree], over [Posix]. *)

From stdpp Require Import gmap strings.
From S2P Require Import Prelude Idf Logic Posix TestEnv.
#[local] Open Scope Z_scope.

Section Helpers.
Context `{Env}.

(** The result is [None] for [false]; the string is only used when [true]. *)
Definition read_text_file (name : string) : M posix (option (list ascii)) :=
  f <- fopen_r name ;;
  match f with
  | None => ret None
  | Some fd =>
      fseek_end fd ;;
      n <- ftell fd ;;
      fseek_set fd ;;
      if n <? 0 then fclose fd ;; ret None else
      got <- fread fd (Z.to_nat n) ;;
      fclose fd ;;
      ret (if Z.of_nat (length got) =? n then Some got else None)
  end.

(** [*out = (size_t)st.st_size] *)
Definition file_size_bytes (name : string) : M posix (option Z) :=
  st <- stat name ;;
  ret (match st with Some n => Some (u32 (node_size n)) | None => None end).

Definition dot_name (name : string) : bool :=
  String.eqb name "." || String.eqb name "..".

(** One round of the [readdir] loop; [rec] is the recursive call. *)
Definition delete_entry (rec : string -> M posix unit) (dir name : string) : M posix unit :=
  if dot_name name then ret tt else
  st <- stat (join dir name) ;;
  match st with
  | Some (Dir _) => rec (join dir name)
  | _ => _ <- unlink (join dir name) ;; ret tt
  end.

(** The fuel bounds the depth of the recursion. *)
Fixpoint delete_tree (fuel : nat) (dir : string) : M posix unit :=
  match fuel with
  | O => halt ExFuel
  | S fuel' =>
      d <- read_dir dir ;;
      match d with
      | None => ret tt
      | Some entries =>
          for_each entries (delete_entry (delete_tree fuel') dir) ;;
          _ <- rmdir dir ;; ret tt
      end
  end.
End Helpers.

(** ** Specification *)

(** Every name in a tree satisfies [P]. *)
Definition names_with (P : string -> Prop) (n : node) : Prop :=
  forall p m c, lookup_path p n = Some m -> c ∈ names m -> P c.

(** The same of the part of a tree at and below a path. *)
Definition names_under (P : string -> Prop) (r : path) (n : node) : Prop :=
  forall p m c, lookup_path (r ++ p) n = Some m -> c ∈ names m -> P c.

(** The names of a tree are single components of paths. *)
Definition component (c : string) : Prop := split_path c = [c].

(** No name is [.] or [..], which FatFs does not store. *)
Definition plain_name (c : string) : Prop := component c /\ dot_name c = false.

(** The card refuses nothing [delete_tree] asks. *)
Class ReliableCard `{Env} := {
  io_stat name w : fst (handle (IoStat name) w) = true;
  io_opendir name w : fst (handle (IoOpendir name) w) = true;
  io_unlink name w : fst (handle (IoUnlink name) w) = true;
  io_rmdir name w : fst (handle (IoRmdir name) w) = true
}.

Section Facts.
Context `{Env}.

Lemma names_shrinks P g g' :
  shrinks g g' -> names_with P (root g) -> names_with P (root g').
Proof.
  intros [_ Hs] Hn p m c Hl Hc. destruct (Hs _ _ Hl) as (m0 & Hl0 & _ & Hi & _).
  eapply Hn; [exact Hl0|]. by apply Hi.
Qed.

Lemma names_under_shrinks P r g g' :
  shrinks g g' -> names_under P r (root g) -> names_under P r (root g').
Proof.
  intros [_ Hs] Hn p m c Hl Hc. destruct (Hs _ _ Hl) as (m0 & Hl0 & _ & Hi & _).
  eapply Hn; [exact Hl0|]. by apply Hi.
Qed.

Lemma names_under_at P r n m c :
  names_under P r n -> lookup_path r n = Some m -> c ∈ names m -> P c.
Proof. intros Hn Hl. apply (Hn []). by rewrite app_nil_r. Qed.

Lemma shrinks_delete_tree fuel dir : moves shrinks (delete_tree fuel dir).
Proof.
  revert dir. induction fuel as [|fuel IH]; intros dir; cbn [delete_tree]; unfold delete_entry; moves_auto.
Qed.

Lemma under_delete_tree fuel dir r p :
  split_path dir = r ++ p -> moves (under r) (delete_tree fuel dir).
Proof.
  revert dir p. induction fuel as [|fuel IH]; intros dir p Hd; cbn [delete_tree]; unfold delete_entry; [moves_auto|].
  assert (Hj : forall name, split_path (join dir name) = r ++ (p ++ split_path name))
    by (intros name; by rewrite split_join, Hd, <- app_assoc).
  moves_auto; first [by eapply IH | by eapply under_unlink | by eapply under_rmdir].
Qed.

Lemma uses_delete_tree fuel dir : uses [CIo] (delete_tree fuel dir).
Proof.
  revert dir. induction fuel as [|fuel IH]; intros dir; cbn [delete_tree]; unfold delete_entry; uses_auto; auto.
Qed.

(** ** Termination of the recursion *)

(** The loop over the entries: what each round establishes for its name, and the
    rest of the loop cannot undo, holds for all of them at the end. *)
Lemma wp_entries (P : string -> posix -> Prop) (body : string -> M posix unit)
    (entries : list string) (g0 : posix) s :
  shrinks g0 (glob s) ->
  (forall c g g', P c g -> shrinks g g' -> P c g') ->
  (forall c, moves shrinks (body c)) ->
  (forall c s', c ∈ entries -> shrinks g0 (glob s') ->
     wp (body c) (fun o s2 => o = Ret tt /\ P c (glob s2)) s') ->
  wp (for_each entries body) (fun o s' => o = Ret tt /\ shrinks g0 (glob s') /\
    forall c, c ∈ entries -> P c (glob s')) s.
Proof.
  intros Hs HP Hm Hb. revert s Hs.
  induction entries as [|c es IH]; intros s Hs; cbn [for_each].
  { apply wp_ret. split_and!; [done|done|]. intros c Hc. by apply elem_of_nil in Hc. }
  apply wp_bind. apply (wp_moves shrinks); [apply Hm|].
  eapply wp_mono; [apply Hb; [left|done]|]. intros o s' [-> Pc] Hs'.
  apply (wp_moves shrinks); [apply moves_for_each; [typeclasses eauto|done]|].
  eapply wp_mono; [apply IH; [|by etransitivity]; intros c' s2 Hin; apply Hb; by right|].
  intros o2 s2 (-> & Hs2 & Hall) Hmv. split_and!; [done|done|].
  intros c' Hc'. apply elem_of_cons in Hc' as [->|Hc']; [by eapply HP|auto].
Qed.

Lemma wp_stat name (Q : outcome (option node) -> sys posix -> Prop) s :
  (forall w', Q (Ret (if fst (handle (IoStat name) (wld s))
                      then lookup_path (split_path name) (root (glob s)) else None))
     (Sys (glob s) w' (Ev (IoStat name) (fst (handle (IoStat name) (wld s))) :: trace s))) ->
  wp (stat name) Q s.
Proof.
  intros HQ. apply wp_bind, wp_call. intros ok w' E. apply wp_bind, wp_get, wp_ret.
  specialize (HQ w'). by rewrite E in HQ.
Qed.

Lemma depth_child dir c n m (g0 g : posix) :
  lookup_path (split_path dir) (root g0) = Some n -> is_dir n = true ->
  split_path c = [c] -> shrinks g0 g ->
  lookup_path (split_path (join dir c)) (root g) = Some m -> (depth m < depth n)%nat.
Proof.
  intros Hn Hd Hc [_ Hs] Hm. destruct (Hs _ _ Hm) as (m0 & Hm0 & Hdep & _).
  rewrite split_join, lookup_app, Hn, Hc in Hm0. destruct n as [|es]; [done|].
  simpl in Hm0. destruct (find_entry c es) eqn:E; [|done]. injection Hm0 as ->.
  pose proof (depth_find _ _ _ E). rewrite depth_Dir. lia.
Qed.

(** Enough fuel: the depth of what is at the path. *)
Definition tree_depth (dir : string) (n : node) : nat :=
  match lookup_path (split_path dir) n with Some m => Nat.max 1 (depth m) | None => 1%nat end.

Lemma wp_delete_tree_returns fuel dir s :
  names_with component (root (glob s)) -> (tree_depth dir (root (glob s)) <= fuel)%nat ->
  wp (delete_tree fuel dir) (fun o _ => o = Ret tt) s.
Proof.
  revert dir s. induction fuel as [|fuel IH]; intros dir s Hok Hf; unfold tree_depth in Hf.
  { destruct (lookup_path _ _); lia. }
  cbn [delete_tree]. apply wp_bind, wp_bind, wp_call. intros ok w' _.
  apply wp_bind, wp_get. cbn [glob].
  destruct (lookup_path (split_path dir) (root (glob s))) as [[d|es]|] eqn:El;
    [by apply wp_ret, wp_ret| |by apply wp_ret, wp_ret].
  destruct ok; [|by apply wp_ret, wp_ret]. apply wp_ret, wp_bind.
  eapply wp_mono; [apply (wp_entries (fun _ _ => True) _ _ (glob s)); [done|done| |]|].
  - intros c. pose proof shrinks_delete_tree. unfold delete_entry. moves_auto.
  - intros c s' Hc Hs'. unfold delete_entry.
    pose proof (Hok _ _ _ El Hc) as Hsc.
    destruct (dot_name c); [by apply wp_ret|].
    assert (Hleaf : forall s2, wp (_ <- unlink (join dir c) ;; ret tt)
                                 (fun (o : outcome unit) _ => o = Ret tt /\ True) s2).
    { intros s2. apply wp_bind, wp_unlink. intros b s3 _. by apply wp_ret. }
    apply wp_bind, wp_stat. intros w2.
    destruct (fst _); [|apply Hleaf].
    destruct (lookup_path (split_path (join dir c)) (root (glob s'))) as [[|es']|] eqn:Eb;
      [apply Hleaf| |apply Hleaf].
    eapply wp_mono; [apply IH; [by eapply names_shrinks|]|by intros o s3 ->].
    cbn [glob]. unfold tree_depth. rewrite Eb. pose proof (depth_pos es').
    pose proof (depth_child dir c (Dir es) _ _ _ El eq_refl Hsc Hs' Eb). lia.
  - intros o s' (-> & _). apply wp_bind. unfold rmdir. apply wp_bind, wp_call. intros b w2 _.
    apply wp_bind, wp_get. repeat case_match; by repeat first [apply wp_ret|apply wp_bind, wp_modify].
Qed.

(** ** Removal on a card that refuses nothing *)

Lemma handle_fst {X} (c : cmd X) w r w' x : fst (handle c w) = x -> handle c w = (r, w') -> r = x.
Proof. by intros <- ->. Qed.

Lemma gone_shrinks p g g' :
  lookup_path p (root g) = None -> shrinks g g' -> lookup_path p (root g') = None.
Proof.
  intros Hn [_ Hs]. destruct (lookup_path p (root g')) eqn:E; [|done].
  destruct (Hs _ _ E) as (m & Hm & _). congruence.
Qed.

Lemma wp_unlink_gone `{!ReliableCard} name s :
  split_path name <> [] ->
  (forall n, lookup_path (split_path name) (root (glob s)) = Some n -> removable n = true) ->
  wp (unlink name) (fun o s' =>
    (exists b, o = Ret b) /\ lookup_path (split_path name) (root (glob s')) = None) s.
Proof.
  intros Hne Hr. apply wp_bind, wp_call. intros ok w' Hh.
  apply (handle_fst _ _ _ _ true) in Hh as ->; [|apply io_unlink].
  apply wp_bind, wp_get. cbn [glob].
  destruct (lookup_path _ _) as [n|] eqn:E; [|apply wp_ret; by split; [eexists|]].
  rewrite (Hr n eq_refl). apply wp_bind, wp_modify, wp_ret. split; [by eexists|]. simpl.
  apply lookup_set_same. by eapply parent_ok_lookup.
Qed.

(** A directory whose former entries are all gone is empty or gone. *)
Lemma emptied dir es (g g' : posix) :
  names_under plain_name (split_path dir) (root g) ->
  lookup_path (split_path dir) (root g) = Some (Dir es) -> shrinks g g' ->
  (forall c, c ∈ map fst es -> lookup_path (split_path (join dir c)) (root g') = None) ->
  lookup_path (split_path dir) (root g') = None \/
  lookup_path (split_path dir) (root g') = Some (Dir []).
Proof.
  intros Hok Hl [_ Hs] Hg. destruct (lookup_path _ (root g')) as [m|] eqn:E; [right|by left].
  destruct (Hs _ _ E) as (m0 & Hm0 & _ & Hi & Hd). rewrite Hl in Hm0. injection Hm0 as <-.
  destruct m as [|es']; [done|]. destruct es' as [|[c n] es']; [done|].
  assert (Hc : c ∈ map fst es) by (apply Hi; left).
  specialize (Hg c Hc). rewrite split_join, lookup_app, E in Hg.
  destruct (names_under_at _ _ _ _ _ Hok Hl Hc) as [Hsc _]. rewrite Hsc in Hg. simpl in Hg.
  by rewrite String.eqb_refl in Hg.
Qed.

Lemma wp_delete_tree_removes `{!ReliableCard} fuel dir es s :
  names_under plain_name (split_path dir) (root (glob s)) -> split_path dir <> [] ->
  lookup_path (split_path dir) (root (glob s)) = Some (Dir es) ->
  (depth (Dir es) <= fuel)%nat ->
  wp (delete_tree fuel dir) (fun o s' =>
    o = Ret tt /\ lookup_path (split_path dir) (root (glob s')) = None) s.
Proof.
  revert dir es s. induction fuel as [|fuel IH]; intros dir es s Hok Hne El Hf.
  { pose proof (depth_pos es). lia. }
  cbn [delete_tree]. apply wp_bind, wp_bind, wp_call. intros ok w' Hh.
  apply (handle_fst _ _ _ _ true) in Hh as ->; [|apply io_opendir].
  apply wp_bind, wp_get. cbn [glob]. rewrite El. apply wp_ret, wp_bind.
  eapply wp_mono;
    [apply (wp_entries (fun c g => lookup_path (split_path (join dir c)) (root g) = None)
              _ _ (glob s)); [done| | |]|].
  - intros c g g' Hg Hs. by eapply gone_shrinks.
  - intros c. pose proof shrinks_delete_tree. unfold delete_entry. moves_auto.
  - intros c s' Hc Hs'. unfold delete_entry.
    destruct (names_under_at _ _ _ _ _ Hok El Hc) as [Hsc Hdot]. rewrite Hdot.
    assert (Hj : split_path (join dir c) <> []).
    { rewrite split_join. by destruct (split_path dir). }
    apply wp_bind, wp_stat. intros w2. rewrite io_stat.
    destruct (lookup_path (split_path (join dir c)) (root (glob s'))) as [[|es']|] eqn:Eb.
    1,3: apply wp_bind; eapply wp_mono;
         [apply wp_unlink_gone; [done|]; cbn [glob]; rewrite Eb; by intros ? [= <-]|];
         intros o s2 [[b ->] Hg]; by apply wp_ret.
    apply (IH _ es'); [|done|done|].
    { intros p m x. rewrite split_join, <- app_assoc. by apply (names_under_shrinks _ _ _ _ Hs' Hok). }
    pose proof (depth_child dir c (Dir es) _ _ _ El eq_refl Hsc Hs' Eb). lia.
  - intros o s' (-> & Hs & Hg). apply wp_bind. unfold rmdir. apply wp_bind, wp_call.
    intros b w2 Hb. apply (handle_fst _ _ _ _ true) in Hb as ->; [|apply io_rmdir].
    apply wp_bind, wp_get. cbn [glob].
    destruct (emptied dir es _ _ Hok El Hs Hg) as [E|E]; rewrite E.
    + by apply wp_ret, wp_ret.
    + apply wp_bind, wp_modify, wp_ret, wp_ret. split; [done|]. simpl.
      apply lookup_set_same. by eapply parent_ok_lookup.
Qed.

(** ** Reading a file *)

(** The state of a run that has one more stream than [g]. *)
Definition reading (g : posix) (fd : Z) (p : path) (pos : nat) (g' : posix) : Prop :=
  root g' = root g /\ streams g' !! fd = Some (Stream p pos []) /\
  delete fd (streams g') = delete fd (streams g).

Lemma wp_set_pos g fd p pos f (Q : outcome unit -> sys posix -> Prop) s :
  reading g fd p pos (glob s) ->
  (forall s', reading g fd p (f (Stream p pos []) (root g)) (glob s') -> Q (Ret tt) s') ->
  wp (set_pos fd f) Q s.
Proof.
  intros (Hr & Hs & Hd) HQ. apply wp_bind. eapply wp_get_stream; [exact Hs|].
  apply wp_bind, wp_get, wp_modify, HQ. split_and!; simpl; [done|by rewrite lookup_insert_eq, Hr|].
  by rewrite delete_insert_eq.
Qed.

Lemma wp_fclose_read g fd p pos (Q : outcome unit -> sys posix -> Prop) s :
  reading g fd p pos (glob s) ->
  (forall s', root (glob s') = root g -> streams (glob s') = delete fd (streams g) ->
     Q (Ret tt) s') -> wp (fclose fd) Q s.
Proof.
  intros (Hr & Hs & Hd) HQ. apply wp_bind, wp_bind. eapply wp_get_stream; [exact Hs|].
  apply wp_bind, wp_call. intros k w' _. apply wp_bind, wp_modify, wp_modify, wp_modify, HQ; simpl.
  - by rewrite take_nil.
  - by rewrite delete_insert_eq.
Qed.

(** The answer is the whole file or nothing, and the tree is not touched. *)
Lemma wp_read_text_file name s :
  wp (read_text_file name) (fun o s' => root (glob s') = root (glob s) /\
    (streams (glob s) = ∅ -> streams (glob s') = ∅) /\
    exists r, o = Ret r /\
      forall d, r = Some d -> lookup_path (split_path name) (root (glob s)) = Some (File d)) s.
Proof.
  assert (Hno : forall (d : list ascii), None = Some d ->
    lookup_path (split_path name) (root (glob s)) = Some (File d)) by done.
  apply wp_bind. unfold fopen_r. cbv zeta. apply wp_bind, wp_call. intros ok w1 _.
  apply wp_bind, wp_get. cbn [glob].
  destruct (lookup_path (split_path name) (root (glob s))) as [[d|es]|] eqn:El;
    [|apply wp_ret, wp_ret; eauto..].
  destruct ok; [|apply wp_ret, wp_ret; eauto].
  apply wp_bind. unfold new_stream. apply wp_bind, wp_get, wp_bind, wp_put, wp_ret, wp_ret.
  cbn [glob]. set (fd := next_fd (glob s)).
  set (g0 := glob s) in *. set (p := split_path name) in *.
  apply wp_bind. eapply (wp_set_pos g0 fd p 0); [split_and!; simpl; [done|apply lookup_insert_eq|apply delete_insert_eq]|].
  intros s1 R1. cbn in R1. unfold file_data in R1. rewrite El in R1.
  apply wp_bind. unfold ftell. apply wp_bind. eapply wp_get_stream; [apply R1|].
  apply wp_bind, wp_call. intros t w2 _. apply wp_ret. cbn [st_pos].
  set (n := if t <? 0 then -1 else Z.of_nat (length d)).
  apply wp_bind. eapply (wp_set_pos g0 fd p); [exact R1|]. intros s2 R2. cbn in R2.
  destruct (n <? 0) eqn:En.
  { apply wp_bind. eapply wp_fclose_read; [exact R2|]. intros s3 E3 C3. apply wp_ret. split_and!; [done| |eauto]. rewrite C3. by intros ->. }
  apply wp_bind. unfold fread. apply wp_bind. eapply wp_get_stream; [apply R2|].
  apply wp_bind, wp_get. cbn [st_path st_pos st_pending].
  destruct R2 as (R2 & S2 & D2). rewrite R2. unfold file_data. rewrite El. cbv zeta.
  apply wp_bind, wp_call. intros k w3 _. rewrite drop_0.
  apply wp_bind, wp_modify, wp_ret.
  set (got := take k (take (Z.to_nat n) d)). apply wp_bind.
  eapply (wp_fclose_read g0 fd p); [split_and!; simpl; [exact R2|apply lookup_insert_eq|by rewrite delete_insert_eq]|].
  intros s3 E3 C3. apply wp_ret. split; [exact E3|]. split; [rewrite C3; by intros ->|].
  eexists. split; [done|].
  intros d' Hd'. destruct (Z.of_nat (length got) =? n) eqn:Eg; [|done].
  injection Hd' as <-. apply Z.eqb_eq in Eg. apply Z.ltb_ge in En. f_equal. f_equal.
  subst n. destruct (t <? 0); [lia|]. subst got. rewrite Nat2Z.id in *.
  rewrite length_take, length_take in Eg.
  rewrite (take_ge d) by lia. by rewrite take_ge by lia.
Qed.

(** [stat] of a file reports its length modulo the width of [size_t]. *)
Lemma wp_file_size_bytes name (Q : outcome (option Z) -> sys posix -> Prop) s :
  (forall ok w' tr', Q (Ret (match lookup_path (split_path name) (root (glob s)) with
                             | Some n => if (ok : bool) then Some (u32 (node_size n)) else None
                             | None => None
                             end)) (Sys (glob s) w' tr')) ->
  wp (file_size_bytes name) Q s.
Proof.
  intros HQ. apply wp_bind, wp_stat. intros w'. apply wp_ret.
  pose proof (HQ (fst (handle (IoStat name) (wld s))) w') as HQ'. clear HQ.
  destruct (fst (handle (IoStat name) (wld s))), (lookup_path _ _); apply HQ'.
Qed.
End Facts.
