(* ===== verification/CardShape.v ===== *)
(** * Invariants of the card's tree

    How deep the tree can get and what names it can hold, over every operation
    of [Posix]: what the recursive removal needs to terminate. *)

From stdpp Require Import gmap strings.
From S2P Require Import Prelude Idf Logic CLib Posix FileHelpers TestEnv.
#[local] Open Scope Z_scope.

(** ** Depth *)

Lemma depth_lookup p n m :
  lookup_path p n = Some m -> (length p + depth m <= depth n)%nat.
Proof.
  revert n. induction p as [|c p IH]; intros n; cbn [lookup_path length].
  { intros [= ->]. lia. }
  destruct n as [|es]; [done|]. destruct (find_entry c es) eqn:E; [|done].
  intros Hl. apply IH in Hl. pose proof (depth_find _ _ _ E). rewrite depth_Dir. lia.
Qed.

Lemma depth_parent p n : parent_ok p n = true -> (length p <= depth n)%nat.
Proof.
  revert n. induction p as [|c p IH]; intros n; [done|]. cbn [parent_ok length].
  destruct n as [|es]; [done|]. rewrite depth_Dir.
  destruct p as [|c2 p]; [simpl; lia|]. destruct (find_entry c es) eqn:E; [|done].
  intros Hp. apply IH in Hp. pose proof (depth_find _ _ _ E). lia.
Qed.

Lemma depth_set_entry c n es :
  (depth_entries (set_entry c (Some n) es) <= Nat.max (depth_entries es) (depth n))%nat.
Proof.
  simpl. rewrite depth_app. pose proof (depth_drop c es). simpl. lia.
Qed.

Lemma depth_set_path p n r :
  (depth (set_path p (Some n) r) <= Nat.max (depth r) (length p + depth n))%nat.
Proof.
  revert r. induction p as [|c p IH]; intros r; [simpl; lia|].
  destruct r as [d|es]; [destruct p; simpl; lia|].
  destruct p as [|c2 p]; [|rewrite set_path_cons].
  - cbn [set_path length]. rewrite !depth_Dir. pose proof (depth_set_entry c n es). lia.
  - destruct (find_entry c es) as [m|] eqn:E; [|lia]. rewrite !depth_Dir.
    pose proof (depth_set_entry c (set_path (c2 :: p) (Some n) m) es).
    pose proof (IH m). pose proof (depth_find _ _ _ E). simpl length in *. lia.
Qed.

Lemma depth_set_None p r : (depth (set_path p None r) <= depth r)%nat.
Proof. apply set_None_shrinks. Qed.

(** ** Names *)

Lemma names_with_Dir P es :
  names_with P (Dir es) <->
  (forall c, c ∈ map fst es -> P c) /\
  (forall c n, find_entry c es = Some n -> names_with P n).
Proof.
  split.
  - intros Hn. split; [exact (fun c => Hn [] _ c eq_refl)|].
    intros c n Hf p m x Hl. apply (Hn (c :: p)). cbn [lookup_path]. by rewrite Hf.
  - intros [H1 H2] p m x Hl. destruct p as [|c p].
    + injection Hl as <-. apply H1.
    + cbn [lookup_path] in Hl. destruct (find_entry c es) eqn:E; [|done]. by eapply H2.
Qed.

Lemma names_set_path P p n r :
  names_with P r -> names_with P n -> Forall P p -> names_with P (set_path p (Some n) r).
Proof.
  intros Hr Hn Hp. revert r Hr. induction Hp as [|c p Hc Hp IH]; intros r Hr; [done|].
  destruct r as [d|es]; [by destruct p|]. apply names_with_Dir in Hr as [H1 H2].
  assert (Hset : forall x, names_with P x -> names_with P (Dir (set_entry c (Some x) es))).
  { intros x Hx. apply names_with_Dir. split.
    - intros y Hy. simpl in Hy. rewrite map_app in Hy.
      apply elem_of_app in Hy as [Hy|Hy]; [by apply H1, (names_drop c)|].
      by apply list_elem_of_singleton in Hy as ->.
    - intros y m. destruct (decide (y = c)) as [->|].
      + rewrite find_set_same. by intros [= <-].
      + rewrite find_set_other by done. apply H2. }
  destruct p as [|c2 p]; [by apply Hset|]. rewrite set_path_cons.
  destruct (find_entry c es) as [m|] eqn:E; [|by apply names_with_Dir].
  by eapply Hset, IH, H2.
Qed.

Lemma names_set_None P p r : names_with P r -> names_with P (set_path p None r).
Proof.
  intros Hr q m c Hl Hc. destruct (set_None_lookup _ _ _ _ Hl) as (m0 & Hl0 & _ & Hs & _).
  by eapply Hr, Hs.
Qed.

Lemma names_lookup P p n m : names_with P n -> lookup_path p n = Some m -> names_with P m.
Proof.
  intros Hn Hl q m' c Hq. apply (Hn (p ++ q)). by rewrite lookup_app, Hl.
Qed.

Lemma names_File P d : names_with P (File d).
Proof. intros [|? p] m c; [|done]. intros [= <-] Hc. by apply elem_of_nil in Hc. Qed.

Lemma names_empty P : names_with P (Dir []).
Proof. apply names_with_Dir. split; [|done]. intros c Hc. by apply elem_of_nil in Hc. Qed.

(** ** Components *)

(** The characters of a component: a path separator is not one of them. *)
Fixpoint no_slash (s : string) : bool :=
  match s with EmptyString => true | String c s' => negb (Ascii.eqb c "/") && no_slash s' end.

Lemma no_slash_app s t : no_slash (s ++ t) = no_slash s && no_slash t.
Proof. induction s as [|c s IH]; [done|]. simpl. by rewrite IH, andb_assoc. Qed.

Lemma split_no_slash s : forall acc, no_slash s = true -> (acc ++ s)%string <> EmptyString ->
  split_from acc s = [(acc ++ s)%string].
Proof.
  induction s as [|c s IH]; intros acc Hs Hne; simpl.
  - rewrite app_nil_string in *. by destruct (String.eqb_spec acc "").
  - simpl in Hs. apply andb_prop in Hs as [Hc Hs]. apply negb_true_iff in Hc. rewrite Hc.
    rewrite IH; [by rewrite app_assoc_string|done|]. by destruct acc.
Qed.

Lemma split_components s acc :
  no_slash acc = true -> Forall component (split_from acc s).
Proof.
  assert (Hflush : forall acc, no_slash acc = true ->
    Forall component (if String.eqb acc "" then [] else [acc])).
  { intros a Ha. destruct (String.eqb_spec a ""); [done|]. constructor; [|done].
    by apply (split_no_slash a ""). }
  revert acc. induction s as [|c s IH]; intros acc Hacc; simpl; [by apply Hflush|].
  destruct (Ascii.eqb c "/") eqn:Ec.
  - apply Forall_app. split; [by apply Hflush|by apply IH].
  - apply IH. rewrite no_slash_app, Hacc. simpl. by rewrite Ec.
Qed.

Lemma path_components name : Forall component (split_path name).
Proof. by apply split_components. Qed.

(** ** Every operation keeps the shape *)

Lemma depth_set_extra p n r : (depth (set_path p (Some n) r) <= depth r + depth n)%nat.
Proof.
  revert r. induction p as [|c p IH]; intros r; [simpl; lia|].
  destruct r as [d|es]; [destruct p; simpl; lia|].
  destruct p as [|c2 p]; [|rewrite set_path_cons].
  - cbn [set_path]. rewrite !depth_Dir. pose proof (depth_set_entry c n es). lia.
  - destruct (find_entry c es) as [m|] eqn:E; [|lia]. rewrite !depth_Dir.
    pose proof (depth_set_entry c (set_path (c2 :: p) (Some n) m) es).
    pose proof (IH m). pose proof (depth_find _ _ _ E). lia.
Qed.

(** The names of a tree stay path components and it gets no deeper. *)
Definition node_shape (n n' : node) : Prop :=
  (names_with component n -> names_with component n') /\ (depth n' <= depth n)%nat.
Definition shape (g g' : posix) : Prop := node_shape (root g) (root g').

#[export] Instance shape_PreOrder : PreOrder shape.
Proof.
  split; [by split|]. intros a b c [H1 H2] [H3 H4]. split; [auto|lia].
Qed.

Lemma shrinks_shape g g' : shrinks g g' -> shape g g'.
Proof.
  intros Hs. split; [by apply names_shrinks|]. destruct Hs as [_ Hs].
  destruct (Hs [] _ eq_refl) as (m & [= <-] & Hd & _). exact Hd.
Qed.

Lemma shape_file p d n : Forall component p -> node_shape n (set_path p (Some (File d)) n).
Proof.
  intros Hp. split.
  - intros Hn. apply names_set_path; [done|apply names_File|done].
  - pose proof (depth_set_extra p (File d) n). simpl in *. lia.
Qed.

Lemma lookup_names P p n m : names_with P n -> lookup_path p n = Some m -> Forall P p.
Proof.
  revert n. induction p as [|c p IH]; intros n Hn Hl; [done|]. cbn [lookup_path] in Hl.
  destruct n as [|es]; [done|]. destruct (find_entry c es) eqn:E; [|done].
  apply names_with_Dir in Hn as [H1 H2]. constructor; [by eapply H1, find_entry_name|].
  by eapply IH, Hl; eauto.
Qed.

Lemma shape_append p bs n : node_shape n (append_file p bs n).
Proof.
  unfold append_file. destruct bs; [done|].
  destruct (lookup_path p n) as [[d|]|] eqn:E; try done. split.
  - intros Hn. apply names_set_path; [done|apply names_File|by eapply lookup_names].
  - pose proof (depth_set_extra p (File (d ++ a :: bs)) n). simpl in *. lia.
Qed.

Lemma shape_rename p q n m :
  lookup_path p n = Some m -> Forall component q -> (length q <= length p)%nat ->
  node_shape n (set_path q (Some m) (set_path p None n)).
Proof.
  intros Hl Hq Hlen. split.
  - intros Hn. apply names_set_path; [by apply names_set_None|by eapply names_lookup|done].
  - pose proof (depth_set_path q m (set_path p None n)). pose proof (depth_set_None p n).
    pose proof (depth_lookup _ _ _ Hl). lia.
Qed.

Section Shape.
Context `{Env}.

Lemma shape_same_root g h : root g = root h -> shape g h.
Proof. unfold shape. by intros ->. Qed.

Lemma shape_set_stream fd o : moves shape (set_stream fd o).
Proof. intros s. by apply shape_same_root. Qed.

Lemma shape_set_root f : (forall n, node_shape n (f n)) -> moves shape (set_root f).
Proof. intros Hf s. apply Hf. Qed.

Lemma shape_get_stream fd : moves shape (get_stream fd).
Proof. unfold get_stream. moves_auto. Qed.

Lemma shape_new_stream p : moves shape (new_stream p).
Proof. intros s. by apply shape_same_root. Qed.
#[local] Hint Resolve shape_set_stream shape_get_stream shape_new_stream : moves.

Lemma shape_fopen_w name : moves shape (fopen_w name).
Proof.
  unfold fopen_w. cbv zeta. moves_auto. apply shape_set_root. intros n.
  apply shape_file, path_components.
Qed.

Lemma shape_fopen_r name : moves shape (fopen_r name).
Proof. unfold fopen_r. cbv zeta. moves_auto. Qed.

Lemma shape_fwrite fd bs : moves shape (fwrite fd bs).
Proof. unfold fwrite. cbv zeta. moves_auto. Qed.

Lemma shape_fflush fd : moves shape (fflush fd).
Proof.
  unfold fflush. moves_auto. apply shape_set_root. intros n. apply shape_append.
Qed.

Lemma shape_fclose fd : moves shape (fclose fd).
Proof.
  unfold fclose. moves_auto. unfold fflush. moves_auto. apply shape_set_root. intros n.
  apply shape_append.
Qed.

Lemma shape_set_pos fd f : moves shape (set_pos fd f).
Proof. unfold set_pos. moves_auto. Qed.

Lemma shape_ftell fd : moves shape (ftell fd).
Proof. unfold ftell. moves_auto. Qed.

Lemma shape_fread fd n : moves shape (fread fd n).
Proof. unfold fread. cbv zeta. moves_auto. Qed.

Lemma moves_shrinks_shape {A} (m : M posix A) : moves shrinks m -> moves shape m.
Proof. intros Hm s. apply shrinks_shape, Hm. Qed.

Lemma shape_rename_op from to :
  (length (split_path to) <= length (split_path from))%nat -> moves shape (rename from to).
Proof.
  intros Hlen. unfold rename. cbv zeta.
  apply moves_bind; [typeclasses eauto|apply moves_call; typeclasses eauto|intros ok].
  apply moves_get_bind. intros s.
  destruct (lookup_path _ (root (glob s))) as [m|] eqn:E; [|done].
  destruct (_ && _ && _); [|done]. simpl. apply shape_rename; [done|apply path_components|done].
Qed.
End Shape.
#[export] Hint Resolve shape_fopen_w shape_fopen_r shape_fwrite shape_fflush shape_fclose
  shape_set_pos shape_ftell shape_fread : moves.

(** ** Names in the same directory *)

Lemma parent_ok_dir r a n :
  parent_ok (r ++ [a]) n = true <-> exists es, lookup_path r n = Some (Dir es).
Proof.
  revert n. induction r as [|c r IH]; intros n.
  { simpl. destruct n as [|es]; split; try done; [by intros [? ?]|by exists es]. }
  cbn [app parent_ok lookup_path]. destruct n as [|es]; [split; [done|by intros [? ?]]|].
  destruct (r ++ [a]) as [|x l] eqn:E; [by apply app_eq_nil in E as [_ ?]|].
  destruct (find_entry c es) as [m|]; [|split; [done|by intros [? ?]]].
  exact (IH m).
Qed.

Lemma lookup_set_dir r b o n es :
  lookup_path r n = Some (Dir es) ->
  lookup_path r (set_path (r ++ [b]) o n) = Some (Dir (set_entry b o es)).
Proof.
  revert n. induction r as [|c r IH]; intros n; cbn [lookup_path app]; [by intros [= ->]|].
  destruct n as [|es0]; [done|]. destruct (find_entry c es0) as [m|] eqn:E; [|done]. intros Hl.
  destruct (r ++ [b]) as [|x l] eqn:El; [by apply app_eq_nil in El as [_ ?]|].
  rewrite set_path_cons, E, find_set_same. by apply IH.
Qed.

(** Replacing one name does not take the directory from under another. *)
Lemma parent_ok_sibling r a b o n :
  parent_ok (r ++ [a]) n = true -> parent_ok (r ++ [b]) (set_path (r ++ [a]) o n) = true.
Proof.
  intros Hp. apply parent_ok_dir in Hp as [es Hl]. apply parent_ok_dir.
  eexists. by apply lookup_set_dir.
Qed.

(** A folder on the card and its temporary twin. *)
Definition folder_name (folder : string) : Prop :=
  no_slash folder = true /\ folder <> EmptyString.

Lemma folder_path folder :
  folder_name folder -> split_path ("/sdcard/" ++ folder) = ["sdcard"%string; folder].
Proof.
  intros [Hs Hne]. change ("/sdcard/" ++ folder)%string with (join "/sdcard" folder).
  rewrite split_join. f_equal. by apply (split_no_slash folder "").
Qed.

Lemma tmp_path folder :
  folder_name folder ->
  split_path (("/sdcard/" ++ folder) ++ ".tmp") = ["sdcard"%string; (folder ++ ".tmp")%string].
Proof.
  intros [Hs Hne]. rewrite app_assoc_string. apply folder_path. split.
  - by rewrite no_slash_app, Hs.
  - by destruct folder.
Qed.

Lemma folder_ne_tmp folder : String.eqb folder (folder ++ ".tmp") = false.
Proof.
  apply String.eqb_neq. intros E. apply (f_equal String.length) in E.
  rewrite length_app_string in E. simpl in E. lia.
Qed.

Lemma folder_diverge folder :
  diverge ["sdcard"%string; folder] ["sdcard"%string; (folder ++ ".tmp")%string] = true.
Proof. cbn [diverge]. by rewrite folder_ne_tmp. Qed.

(** ** Deciding the names of a concrete tree *)

Fixpoint names_check (f : string -> bool) (n : node) : bool :=
  match n with
  | File _ => true
  | Dir es =>
      (fix go es := match es with
                    | [] => true
                    | kn :: es' => f (fst kn) && names_check f (snd kn) && go es'
                    end) es
  end.

Definition plain_check (c : string) : bool :=
  bool_decide (split_path c = [c]) && negb (dot_name c).

Lemma names_check_sound f n : names_check f n = true -> names_with (fun c => f c = true) n.
Proof.
  induction n as [d|es IH] using node_ind'; [intros _; apply names_File|]. intros Hc.
  assert (Hall : Forall (fun kn => f (fst kn) = true /\ names_with (fun c => f c = true) (snd kn)) es).
  { revert Hc IH. induction es as [|[k n] es IHes]; [done|]. simpl. intros Hc IH.
    apply andb_prop in Hc as [Hc He]. apply andb_prop in Hc as [Hk Hn].
    inversion IH; subst. constructor; auto. }
  rewrite Forall_forall in Hall. apply names_with_Dir. split.
  - intros c Hin. apply list_elem_of_fmap in Hin as ([k n] & -> & Hin). by apply (Hall (k, n)).
  - intros c n Hf. apply find_entry_In, list_elem_of_In in Hf. by apply (Hall (c, n)).
Qed.

Lemma plain_check_sound n : names_check plain_check n = true -> names_with plain_name n.
Proof.
  intros Hc p m c Hl Hin. pose proof (names_check_sound _ _ Hc p m c Hl Hin) as Hp.
  apply andb_prop in Hp as [Hs Hd]. apply bool_decide_eq_true_1 in Hs.
  split; [exact Hs|by apply negb_true_iff].
Qed.

Lemma plain_component n : names_with plain_name n -> names_with component n.
Proof. intros Hn p m c Hl Hin. by destruct (Hn p m c Hl Hin). Qed.

Lemma plain_under r n : names_with plain_name n -> names_under plain_name r n.
Proof. intros Hn p m c Hl. by apply (Hn (r ++ p)). Qed.

(** ** Properties of the recursive removal *)

Section Properties.
Context `{Env}.

(** C17: [delete_tree] always returns, on a tree of any shape and whatever the
    card answers; it opens, changes and creates nothing, and removes only what is
    at or below the directory. *)
Theorem delete_tree_correct fuel dir s :
  names_with component (root (glob s)) -> (depth (root (glob s)) < fuel)%nat ->
  streams (glob s) = ∅ ->
  wp (delete_tree fuel dir) (fun o s' =>
    o = Ret tt /\ streams (glob s') = ∅ /\
    (forall q n, lookup_path q (root (glob s')) = Some n ->
       exists m, lookup_path q (root (glob s)) = Some m /\ names n ⊆ names m) /\
    (forall q, diverge (split_path dir) q = true ->
       lookup_path q (root (glob s')) = lookup_path q (root (glob s)))) s.
Proof.
  intros Hn Hf Hc. apply (wp_moves shrinks); [apply shrinks_delete_tree|].
  apply (wp_moves (under (split_path dir)));
    [apply (under_delete_tree _ _ _ []); by rewrite app_nil_r|].
  eapply wp_mono; [apply wp_delete_tree_returns; [exact Hn|]|].
  - unfold tree_depth. destruct (lookup_path _ _) as [m|] eqn:E; [|lia].
    apply depth_lookup in E. lia.
  - intros o s' -> Hu [E Hs]. split_and!; [done|congruence| |].
    + intros q n Hl. destruct (Hs _ _ Hl) as (m & Hm & _ & Hi & _). by exists m.
    + apply Hu. unfold inside. rewrite Hc. apply map_Forall_empty.
Qed.

(** On a card that refuses nothing, [delete_tree] removes the directory with
    everything in it. *)
Theorem delete_tree_removes `{!ReliableCard} fuel dir es s :
  names_with plain_name (root (glob s)) -> split_path dir <> [] ->
  lookup_path (split_path dir) (root (glob s)) = Some (Dir es) ->
  (depth (root (glob s)) < fuel)%nat ->
  wp (delete_tree fuel dir) (fun o s' =>
    o = Ret tt /\ forall q, lookup_path (split_path dir ++ q) (root (glob s')) = None) s.
Proof.
  intros Hn Hne Hl Hf. eapply wp_mono; [apply (wp_delete_tree_removes _ _ es)|].
  - by apply plain_under.
  - done.
  - done.
  - apply depth_lookup in Hl. lia.
  - intros o s' [-> E]. split; [done|]. intros q. by rewrite lookup_app, E.
Qed.
End Properties.

(** ** Concrete runs *)

Definition ex_tree : node :=
  Dir [("sdcard", Dir [("a", Dir [("x", File []); ("b", Dir [("y", File [])])]); ("c", File [])])]%string.

Definition ex_posix : @sys plain_env posix := test_start (Posix ex_tree ∅ 3) tw_init.

Lemma ex_tree_plain : names_with plain_name ex_tree.
Proof. apply plain_check_sound. vm_compute. reflexivity. Qed.

Lemma ex_tree_depth : (depth ex_tree < 6)%nat.
Proof. vm_compute. lia. Qed.

Lemma delete_tree_correct_witness :
  let s' := snd (delete_tree 6 "/sdcard/a" ex_posix) in
  lookup_path ["sdcard"; "c"]%string (root (glob s')) = Some (File []).
Proof.
  destruct (delete_tree_correct (H := plain_env) 6 "/sdcard/a" ex_posix
    (plain_component _ ex_tree_plain) ex_tree_depth eq_refl) as (_ & _ & _ & Hu).
  exact (Hu ["sdcard"; "c"]%string eq_refl).
Defined.

#[local] Instance ex_reliable_card : @ReliableCard plain_env.
Proof. by split. Qed.

Lemma delete_tree_removes_witness :
  let s' := snd (delete_tree 6 "/sdcard/a" ex_posix) in
  lookup_path ["sdcard"; "a"; "b"]%string (root (glob s')) = None.
Proof.
  assert (Hne : split_path "/sdcard/a" <> []) by (vm_compute; discriminate).
  destruct (delete_tree_removes (H := plain_env) 6 "/sdcard/a" _ ex_posix
    ex_tree_plain Hne eq_refl ex_tree_depth) as (_ & Hu).
  exact (Hu ["b"]%string).
Defined.
