(* ===== verification/SdCard.v ===== *)
(** * SD card: the bus, the reset sequence and the mount of [simibox_download.cpp]

    The statics [s_card], [s_spi_bus_initialized] and [s_sd_freq_khz], and the
    card's file system.  [SD_VERBOSE_DIAGNOSTICS] is 0, so the diagnostics are
    empty; timing measurements and log lines are left out. *)

From stdpp Require Import gmap strings.
From S2P Require Import Prelude Idf Logic Protocol Posix FileHelpers TestEnv.
#[local] Open Scope Z_scope.

Definition SD_CS_PIN : Z := 5.
Definition SD_MOSI_PIN : Z := 23.
Definition SD_MISO_PIN : Z := 19.
Definition SD_CLK_PIN : Z := 18.
Definition RFID_SS_PIN : Z := 21.
Definition RFID_RST_PIN : Z := 4.

(** [1ULL << pin] *)
Definition pin_mask (pin : Z) : Z := Z.shiftl 1 pin.

Record sd_g := SdG {
  fs : posix;
  s_card : option card;
  s_spi_bus_initialized : bool;
  s_sd_freq_khz : Z
}.

Definition fs_lens : lens sd_g posix :=
  Lens fs (fun p g => SdG p (s_card g) (s_spi_bus_initialized g) (s_sd_freq_khz g)).

#[export] Instance fs_lens_laws : LensLaws fs_lens.
Proof. split; by intros; try destruct g. Qed.

Definition SD_FREQ_LADDER : list Z := [20000; 10000; 4000].

Definition sd_next_lower_freq (cur : Z) : Z :=
  match find (fun f => f <? cur) SD_FREQ_LADDER with Some f => f | None => -1 end.

Definition mount_ladder : list Z := [SD_SPI_FREQ_KHZ; 10000; 4000; 400].

(** [cmd0] and its bits, most significant first. *)
Definition cmd0 : list Z := [0x40; 0x00; 0x00; 0x00; 0x00; 0x95].
Definition byte_bits (byte : Z) : list Z :=
  map (fun bit => Z.land (Z.shiftr byte bit) 1) [7; 6; 5; 4; 3; 2; 1; 0].

Section SdCard.
Context `{Env}.

Definition set_s_card (c : option card) : M sd_g unit :=
  modify (fun g => SdG (fs g) c (s_spi_bus_initialized g) (s_sd_freq_khz g)).
Definition set_spi_bus (b : bool) : M sd_g unit :=
  modify (fun g => SdG (fs g) (s_card g) b (s_sd_freq_khz g)).
Definition set_s_sd_freq_khz (f : Z) : M sd_g unit :=
  modify (fun g => SdG (fs g) (s_card g) (s_spi_bus_initialized g) f).

Definition gpio_set_level (pin level : Z) : M sd_g unit := call_ (GpioSetLevel pin level).

(** ** Clock *)

Definition set_sd_freq (freq_khz : Z) : M sd_g bool :=
  g <- get ;;
  match s_card g with
  | None => ret false
  | Some c =>
      if negb (card_has_set_clk c) then ret false else
      err <- call (SetCardClk c freq_khz) ;;
      ret (is_ok err)
  end.

(** ** Reset *)

Definition sd_power_init : M sd_g unit := ret tt.
Definition sd_power_on : M sd_g unit := ret tt.
Definition sd_power_off : M sd_g unit := ret tt.
Definition sd_power_cycle : M sd_g unit := ret tt.

(** The body of the bit-banging loops: a low and a high half of 2 us. *)
Definition clock_pulse : M sd_g unit :=
  gpio_set_level SD_CLK_PIN 0 ;;
  call_ (EtsDelayUs 2) ;;
  gpio_set_level SD_CLK_PIN 1 ;;
  call_ (EtsDelayUs 2).

Definition send_bit (b : Z) : M sd_g unit :=
  gpio_set_level SD_MOSI_PIN b ;; clock_pulse.

Definition toggle_cs : M sd_g unit :=
  gpio_set_level SD_CS_PIN 1 ;;
  repeat_m 8 clock_pulse ;;
  gpio_set_level SD_CS_PIN 0 ;;
  call_ (EtsDelayUs 100) ;;
  gpio_set_level SD_CS_PIN 1 ;;
  call_ (EtsDelayUs 100).

Definition sd_aggressive_card_reset : M sd_g unit :=
  call_ (GpioConfig (Z.lor (Z.lor (pin_mask SD_CS_PIN) (pin_mask SD_CLK_PIN))
                       (pin_mask SD_MOSI_PIN)) GPIO_MODE_OUTPUT false) ;;
  call_ (GpioConfig (pin_mask SD_MISO_PIN) GPIO_MODE_INPUT true) ;;
  call_ (GpioConfig (Z.lor (pin_mask RFID_SS_PIN) (pin_mask RFID_RST_PIN))
           GPIO_MODE_OUTPUT true) ;;
  gpio_set_level RFID_SS_PIN 1 ;;
  gpio_set_level RFID_RST_PIN 1 ;;
  gpio_set_level SD_CS_PIN 1 ;;
  gpio_set_level SD_CLK_PIN 0 ;;
  gpio_set_level SD_MOSI_PIN 1 ;;
  (* Phase A *)
  gpio_set_level SD_CS_PIN 0 ;;
  repeat_m 512 clock_pulse ;;
  gpio_set_level SD_CS_PIN 1 ;;
  call_ (VTaskDelay 20) ;;
  (* Phase B *)
  repeat_m 5 toggle_cs ;;
  call_ (VTaskDelay 20) ;;
  (* Phase C *)
  gpio_set_level SD_CS_PIN 1 ;;
  repeat_m 160 clock_pulse ;;
  (* Phase D *)
  gpio_set_level SD_CS_PIN 0 ;;
  for_each cmd0 (fun byte => for_each (byte_bits byte) send_bit) ;;
  gpio_set_level SD_MOSI_PIN 1 ;;
  repeat_m 80 clock_pulse ;;
  gpio_set_level SD_CS_PIN 1 ;;
  call_ (VTaskDelay 50).

Definition force_clean_sd_bus : M sd_g unit :=
  g <- get ;;
  match s_card g with
  | Some c => call_ (SdcardUnmount "/sdcard" c) ;; set_s_card None
  | None => ret tt
  end ;;
  g' <- get ;;
  when (s_spi_bus_initialized g') (call_ SpiBusFree ;; set_spi_bus false) ;;
  call_ (VTaskDelay 50) ;;
  sd_power_cycle ;;
  sd_aggressive_card_reset ;;
  call_ (GpioConfig (Z.lor (pin_mask SD_CS_PIN) (pin_mask RFID_SS_PIN)) GPIO_MODE_OUTPUT true) ;;
  gpio_set_level SD_CS_PIN 1 ;;
  gpio_set_level RFID_SS_PIN 1 ;;
  gpio_set_level RFID_RST_PIN 1 ;;
  call_ (VTaskDelay 100).

(** ** Mounting *)

Definition init_pulse : M sd_g unit :=
  gpio_set_level SD_CLK_PIN 1 ;;
  call_ (EtsDelayUs 5) ;;
  gpio_set_level SD_CLK_PIN 0 ;;
  call_ (EtsDelayUs 5).

(** The retry ladder from rung [i] on; [false] when every rung failed. *)
Fixpoint mount_rungs (mount_point : string) (i : nat) (prev_freq : Z) (rungs : list Z)
  : M sd_g bool :=
  match rungs with
  | [] => ret false
  | freq :: rungs' =>
      if prev_freq <=? freq then mount_rungs mount_point (S i) prev_freq rungs' else
      when (0 <? i)%nat
        (gpio_set_level SD_CS_PIN 1 ;; call_ (VTaskDelay (200 * Z.of_nat i))) ;;
      let! (e, c) := call (SdspiMount mount_point freq) in
      if is_ok e
      then set_s_card (Some c) ;; set_s_sd_freq_khz freq ;; ret true
      else mount_rungs mount_point (S i) freq rungs'
  end.

Definition mount_sd (mount_point : string) : M sd_g bool :=
  call_ (GpioConfig (Z.lor (Z.lor (pin_mask RFID_SS_PIN) (pin_mask SD_CS_PIN))
                       (pin_mask RFID_RST_PIN)) GPIO_MODE_OUTPUT true) ;;
  gpio_set_level RFID_SS_PIN 1 ;;
  gpio_set_level SD_CS_PIN 1 ;;
  gpio_set_level RFID_RST_PIN 1 ;;
  call_ (VTaskDelay 50) ;;
  r0 <- call SpiBusInitialize ;;
  r <- (if r0 =? ESP_ERR_INVALID_STATE
        then call_ SpiBusFree ;; call_ (VTaskDelay 50) ;; call SpiBusInitialize
        else ret r0) ;;
  if negb (is_ok r) then ret false else
  set_spi_bus true ;;
  gpio_set_level SD_CS_PIN 1 ;;
  gpio_set_level SD_CLK_PIN 0 ;;
  repeat_m 80 init_pulse ;;
  call_ (VTaskDelay 10) ;;
  ok <- mount_rungs mount_point 0 1000000 mount_ladder ;;
  if (ok : bool) then ret true else
  call_ SpiBusFree ;;
  set_spi_bus false ;;
  ret false.

(** The marker file written before a healthy card is unmounted.  [fsync] has no
    effect on the model: what [fflush] got to the card is on the card. *)
Definition write_marker (name text : string) (then_remove : bool) : M posix unit :=
  f <- fopen_w name ;;
  match f with
  | Some fd =>
      _ <- fwrite fd (list_ascii_of_string text) ;;
      fflush fd ;;
      fclose fd ;;
      when then_remove (_ <- unlink name ;; ret tt)
  | None => ret tt
  end.

Definition unmount_sd (mount_point : string) (card_healthy : bool) : M sd_g unit :=
  when card_healthy
    (zoom fs_lens (write_marker (mount_point ++ "/.sync") "sync" true) ;;
     call_ (VTaskDelay 200)) ;;
  g <- get ;;
  match s_card g with
  | Some c => call_ (SdcardUnmount mount_point c) ;; set_s_card None
  | None => ret tt
  end ;;
  call_ (VTaskDelay 200) ;;
  g' <- get ;;
  when (s_spi_bus_initialized g') (call_ SpiBusFree ;; set_spi_bus false) ;;
  gpio_set_level SD_CS_PIN 1 ;;
  sd_power_cycle.
End SdCard.

(** ** Specification *)

(** What a trace makes of the SPI bus: up after a successful initialization,
    down after it is freed. *)
Definition bus_step (e : event) (up : bool) : bool :=
  match e with Ev c r =>
    match c in cmd X return X -> bool with
    | SpiBusInitialize => fun r => is_ok r || up
    | SpiBusFree => fun _ => false
    | _ => fun _ => up
    end r
  end.
Definition bus_up (tr : list event) : bool := fold_right bus_step false tr.

(** The mount calls of a trace, in order: where, at what frequency, and what came
    of it. *)
Definition mount_of (e : event) : list (string * Z * (Z * card)) :=
  match e with Ev c r =>
    match c in cmd X return X -> list (string * Z * (Z * card)) with
    | SdspiMount mp f => fun r => [(mp, f, r)]
    | _ => fun _ => []
    end r
  end.
Definition mounts (tr : list event) : list (string * Z * (Z * card)) := rev (flat_map mount_of tr).
Definition mount_freqs (tr : list event) : list Z := map (fun m => m.1.2) (mounts tr).

(** The mount calls of a ladder: one per frequency, until the first that works. *)
Definition mount_failed (m : string * Z * (Z * card)) : Prop := is_ok m.2.1 = false.
Definition mount_all_fail (mp : string) (freqs : list Z) (tried : list (string * Z * (Z * card))) : Prop :=
  map fst tried = map (fun f => (mp, f)) freqs /\ Forall mount_failed tried.
Definition mount_worked (mp : string) (freqs : list Z) (tried : list (string * Z * (Z * card)))
    (f : Z) (c : card) : Prop :=
  exists before after failed e, freqs = before ++ f :: after /\
    mount_all_fail mp before failed /\ is_ok e = true /\ tried = failed ++ [(mp, f, (e, c))].

(** The flag agrees with the bus, and a mounted card has it up. *)
Definition sd_inv `{Env} (s : sys sd_g) : Prop :=
  bus_up (trace s) = s_spi_bus_initialized (glob s) /\
  (s_card (glob s) <> None -> s_spi_bus_initialized (glob s) = true).

(** The levels of the SPI pins a trace leaves, and the (CS, MOSI) levels the
    card samples at each rising clock edge. *)
Record pins := Pins { p_cs : Z; p_clk : Z; p_mosi : Z }.

Definition pin_step (p : pins) (pin level : Z) : pins :=
  if pin =? SD_CS_PIN then Pins level (p_clk p) (p_mosi p)
  else if pin =? SD_CLK_PIN then Pins (p_cs p) level (p_mosi p)
  else if pin =? SD_MOSI_PIN then Pins (p_cs p) (p_clk p) level
  else p.

Definition cmd_write {X} (c : cmd X) : option (Z * Z) :=
  match c with GpioSetLevel pin level => Some (pin, level) | _ => None end.
Definition gpio_write (e : event) : option (Z * Z) := match e with Ev c _ => cmd_write c end.

Fixpoint samples (p : pins) (writes : list (Z * Z)) : list (Z * Z) :=
  match writes with
  | [] => []
  | (pin, level) :: l =>
      let p' := pin_step p pin level in
      if (pin =? SD_CLK_PIN) && (level =? 1) && (p_clk p =? 0)
      then (p_cs p', p_mosi p') :: samples p' l
      else samples p' l
  end.

(** The writes of a trace, oldest first. *)
Definition gpio_writes (tr : list event) : list (Z * Z) := rev (omap gpio_write tr).

Definition pulse_writes : list (Z * Z) := [(SD_CLK_PIN, 0); (SD_CLK_PIN, 1)].

Definition reset_writes : list (Z * Z) :=
  [(RFID_SS_PIN, 1); (RFID_RST_PIN, 1); (SD_CS_PIN, 1); (SD_CLK_PIN, 0); (SD_MOSI_PIN, 1);
   (SD_CS_PIN, 0)] ++
  concat (replicate 512 pulse_writes) ++
  [(SD_CS_PIN, 1)] ++
  concat (replicate 5 ([(SD_CS_PIN, 1)] ++ concat (replicate 8 pulse_writes) ++
                       [(SD_CS_PIN, 0); (SD_CS_PIN, 1)])) ++
  [(SD_CS_PIN, 1)] ++
  concat (replicate 160 pulse_writes) ++
  [(SD_CS_PIN, 0)] ++
  flat_map (fun byte => flat_map (fun b => (SD_MOSI_PIN, b) :: pulse_writes) (byte_bits byte)) cmd0 ++
  [(SD_MOSI_PIN, 1)] ++
  concat (replicate 80 pulse_writes) ++
  [(SD_CS_PIN, 1)].

Section Waveform.
Context `{Env}.

(** [m] returns, leaves the globals, and writes these levels. *)
Definition writes (l : list (Z * Z)) (m : M sd_g unit) : Prop :=
  forall s, wp m (fun o s' => o = Ret tt /\ glob s' = glob s /\
    gpio_writes (trace s') = gpio_writes (trace s) ++ l) s.

Lemma gpio_writes_cons e tr : gpio_writes (e :: tr) = gpio_writes tr ++ opt_list (gpio_write e).
Proof.
  unfold gpio_writes. rewrite omap_cons_opt, rev_app_distr. by destruct (gpio_write e).
Qed.

Lemma writes_call {X} (c : cmd X) : writes (opt_list (cmd_write c)) (call_ c).
Proof.
  intros s. apply wp_call_. intros r w' _. split_and!; [done|done|]. cbn [trace].
  by rewrite gpio_writes_cons.
Qed.

Lemma writes_bind l1 l2 m k : writes l1 m -> writes l2 k -> writes (l1 ++ l2) (m ;; k).
Proof.
  intros Hm Hk s. apply wp_bind. eapply wp_mono; [apply Hm|]. intros o s1 (-> & E1 & T1).
  eapply wp_mono; [apply Hk|]. intros o s2 (-> & E2 & T2).
  split_and!; [done|congruence|]. by rewrite T2, T1, app_assoc.
Qed.

Lemma writes_repeat l m n : writes l m -> writes (concat (replicate n l)) (repeat_m n m).
Proof.
  intros Hm. induction n as [|n IH]; [|by apply writes_bind].
  intros s. apply wp_ret. by rewrite app_nil_r.
Qed.

Lemma writes_for_each {A} (f : A -> list (Z * Z)) body (l : list A) :
  (forall a, writes (f a) (body a)) -> writes (flat_map f l) (for_each l body).
Proof.
  intros Hb. induction l as [|a l IH]; [|by apply writes_bind].
  intros s. apply wp_ret. by rewrite app_nil_r.
Qed.

Lemma writes_eq l l' m : writes l m -> l = l' -> writes l' m.
Proof. by intros ? <-. Qed.

Lemma writes_pulse : writes pulse_writes clock_pulse.
Proof.
  eapply writes_eq; [repeat first [apply writes_call|apply writes_bind]|reflexivity].
Qed.

Lemma writes_reset : writes reset_writes sd_aggressive_card_reset.
Proof.
  pose proof writes_pulse as Hp.
  assert (Ht : writes ([(SD_CS_PIN, 1)] ++ concat (replicate 8 pulse_writes) ++
                       [(SD_CS_PIN, 0); (SD_CS_PIN, 1)]) toggle_cs).
  { eapply writes_eq;
      [repeat first [apply writes_repeat; exact Hp|apply writes_call|apply writes_bind]|].
    reflexivity. }
  assert (Hb : forall b, writes ((SD_MOSI_PIN, b) :: pulse_writes) (send_bit b)).
  { intros b. eapply writes_eq; [apply writes_bind; [apply writes_call|exact Hp]|reflexivity]. }
  assert (Hc : writes (flat_map (fun byte => flat_map (fun b => (SD_MOSI_PIN, b) :: pulse_writes)
                                               (byte_bits byte)) cmd0)
                 (for_each cmd0 (fun byte => for_each (byte_bits byte) send_bit))).
  { apply writes_for_each. intros byte. by apply writes_for_each. }
  eapply writes_eq.
  { unfold sd_aggressive_card_reset.
    repeat first [ exact Hc | apply writes_repeat; exact Hp | apply writes_repeat; exact Ht
                 | apply writes_call | apply writes_bind ]. }
  vm_compute. reflexivity.
Qed.
End Waveform.

(** The rungs the ladder really tries: only ever downwards. *)
Fixpoint rung_freqs (prev_freq : Z) (rungs : list Z) : list Z :=
  match rungs with
  | [] => []
  | f :: l => if prev_freq <=? f then rung_freqs prev_freq l else f :: rung_freqs f l
  end.

Section Facts.
Context `{Env}.

(** Computations without SD calls leave the bus and the mount attempts alone. *)
Lemma bus_uses {G A} cs (m : M G A) s :
  uses cs m -> cls_mem CSd cs = false ->
  bus_up (trace (snd (m s))) = bus_up (trace s) /\
  mounts (trace (snd (m s))) = mounts (trace s).
Proof.
  intros Hm Hc. unfold cls_mem in Hc. apply bool_decide_eq_false in Hc.
  apply (Hm (fun a b => bus_up b.2 = bus_up a.2 /\ mounts b.2 = mounts a.2)).
  split; [split; [done|]|].
  - intros ??? [E1 F1] [E2 F2]. split; congruence.
  - intros X c w tr r w' Hin _. simpl. unfold mounts. simpl.
    destruct c; try (by split); simpl in Hin; done.
Qed.

Lemma wp_bus_uses {G A} cs (m : M G A) Q s :
  uses cs m -> cls_mem CSd cs = false ->
  wp m (fun o s' => bus_up (trace s') = bus_up (trace s) ->
                    mounts (trace s') = mounts (trace s) -> Q o s') s -> wp m Q s.
Proof. intros Hm Hc Hw. destruct (bus_uses cs m s Hm Hc). by apply Hw. Qed.

(** ** Straight-line device code *)

(** [m] returns and keeps the globals. *)
Definition quiet {G} (m : M G unit) : Prop :=
  forall s, fst (m s) = Ret tt /\ glob (snd (m s)) = glob s.

Lemma quiet_call {G X} (c : cmd X) : quiet (G:=G) (call_ c).
Proof. intros s. unfold call_, call. simpl. unfold m_bind. by destruct (handle c (wld s)). Qed.

Lemma quiet_ret {G} : quiet (G:=G) (ret tt).
Proof. done. Qed.

Lemma quiet_bind {G} (m k : M G unit) : quiet m -> quiet k -> quiet (m ;; k).
Proof.
  intros Hm Hk s. simpl. unfold m_bind. destruct (Hm s) as [R1 E1].
  destruct (m s) as [o s1]. simpl in *. rewrite R1. destruct (Hk s1) as [R2 E2].
  by rewrite E2.
Qed.

Lemma quiet_repeat {G} n (m : M G unit) : quiet m -> quiet (repeat_m n m).
Proof. intros Hm. induction n; [done|]. by apply quiet_bind. Qed.

Lemma quiet_when {G} c (m : M G unit) : quiet m -> quiet (when c m).
Proof. by destruct c. Qed.

(** Step over a quiet computation that makes no SD call. *)
Lemma wp_quiet {G A} cs (m : M G unit) (k : M G A) Q s :
  quiet m -> uses cs m -> cls_mem CSd cs = false ->
  (forall s', glob s' = glob s -> bus_up (trace s') = bus_up (trace s) ->
     mounts (trace s') = mounts (trace s) -> wp k Q s') ->
  wp (m ;; k) Q s.
Proof.
  intros Hq Hu Hc Hk. apply wp_bind. unfold wp. destruct (Hq s) as [R E]. rewrite R.
  destruct (bus_uses cs m s Hu Hc) as [B F]. by apply Hk.
Qed.

Lemma quiet_reset : quiet sd_aggressive_card_reset.
Proof. intros s. destruct (writes_reset s) as (? & ? & _). done. Qed.

Lemma uses_reset : uses [CGpio; CDelay] sd_aggressive_card_reset.
Proof.
  unfold sd_aggressive_card_reset, toggle_cs, send_bit, clock_pulse, gpio_set_level. uses_auto.
Qed.

Lemma wp_free_bus {A} (k : M sd_g A) Q s :
  (forall s', bus_up (trace s') = false ->
     mounts (trace s') = mounts (trace s) ->
     glob s' = SdG (fs (glob s)) (s_card (glob s)) false (s_sd_freq_khz (glob s)) -> wp k Q s') ->
  wp ((call_ SpiBusFree ;; set_spi_bus false) ;; k) Q s.
Proof.
  intros Hk. apply wp_bind, wp_bind, wp_call_. intros r w' _. apply wp_modify.
  apply Hk; [done|done|done].
Qed.

Lemma mount_fails_cons mp f l m tried :
  m.1 = (mp, f) -> mount_failed m -> mount_all_fail mp l tried -> mount_all_fail mp (f :: l) (m :: tried).
Proof. intros Em Hm [E F]. split; [cbn; by rewrite Em, E|by constructor]. Qed.

Lemma mount_works_cons mp f l m tried g c :
  m.1 = (mp, f) -> mount_failed m -> mount_worked mp l tried g c ->
  mount_worked mp (f :: l) (m :: tried) g c.
Proof.
  intros Em Hm (b & a & t & e & -> & Ht & Ok & ->). exists (f :: b), a, (m :: t), e.
  split_and!; [done|by apply mount_fails_cons|done|done].
Qed.

Lemma wp_mount_rungs mp i prev rungs s :
  wp (mount_rungs mp i prev rungs) (fun o s' => exists b tried,
    o = Ret b /\ bus_up (trace s') = bus_up (trace s) /\
    mounts (trace s') = mounts (trace s) ++ tried /\
    s_spi_bus_initialized (glob s') = s_spi_bus_initialized (glob s) /\
    fs (glob s') = fs (glob s) /\
    if (b : bool)
    then exists f c, mount_worked mp (rung_freqs prev rungs) tried f c /\
      s_card (glob s') = Some c /\ s_sd_freq_khz (glob s') = f
    else glob s' = glob s /\ mount_all_fail mp (rung_freqs prev rungs) tried) s.
Proof.
  revert i prev s. induction rungs as [|f l IH]; intros i prev s; cbn [mount_rungs rung_freqs].
  { apply wp_ret. exists false, []. rewrite app_nil_r. by split_and!. }
  destruct (prev <=? f); [apply IH|].
  apply (wp_quiet [CGpio; CDelay]).
  { apply quiet_when, quiet_bind; apply quiet_call. }
  { unfold gpio_set_level. uses_auto. }
  { reflexivity. }
  intros s1 G1 B1 F1. apply wp_bind, wp_call. intros [e c] w' _. cbn beta iota.
  set (s2 := Sys (glob s1) w' (Ev (SdspiMount mp f) (e, c) :: trace s1)).
  assert (F2 : mounts (trace s2) = mounts (trace s) ++ [(mp, f, (e, c))]).
  { unfold mounts in *. simpl. rewrite F1. done. }
  destruct (is_ok e) eqn:Ee.
  - apply wp_bind, wp_modify, wp_bind, wp_modify, wp_ret.
    exists true, [(mp, f, (e, c))]. cbn. split_and!; try done; try congruence.
    exists f, c. split; [|done]. by exists [], (rung_freqs f l), [], e.
  - eapply wp_mono; [apply IH|].
    intros o s' (b & tried & -> & B & F & I & FS & Hb). exists b, ((mp, f, (e, c)) :: tried).
    split_and!; try done.
    + by rewrite B.
    + rewrite F, F2. by rewrite <- app_assoc.
    + rewrite I. cbn. congruence.
    + rewrite FS. cbn. congruence.
    + destruct b; [destruct Hb as (g & d & Hw & Hg)|destruct Hb as [-> Ha]].
      * exists g, d. split; [|exact Hg]. by apply mount_works_cons.
      * split; [by rewrite <- G1|]. by apply mount_fails_cons.
Qed.

Lemma wp_write_marker name text rm s :
  wp (write_marker name text rm) (fun o s' =>
    o = Ret tt /\ (streams (glob s) = ∅ -> streams (glob s') = ∅)) s.
Proof.
  apply wp_bind, wp_fopen_w; [intros s1 E; apply wp_ret; by rewrite E|]. intros s1 _ E1.
  assert (S1 : streams (glob s1) !! next_fd (glob s) = Some (Stream (split_path name) 0 []))
    by (rewrite E1; apply lookup_insert_eq).
  apply wp_bind. eapply wp_fwrite; [exact S1|]. intros k s2 _ E2.
  apply wp_bind. eapply wp_fflush; [rewrite E2; apply lookup_insert_eq|]. intros k2 s3 _ E3.
  apply wp_bind. eapply wp_fclose; [rewrite E3; apply lookup_insert_eq|]. intros k3 s4 _ E4.
  assert (C4 : streams (glob s) = ∅ -> streams (glob s4) = ∅).
  { intros E. rewrite E4, E3, E2, E1. simpl. rewrite E. by rewrite !delete_insert_eq, delete_empty. }
  apply wp_when; intros _; [|done]. apply wp_bind, wp_unlink.
  intros b s' Hs'. apply wp_ret. split; [done|]. intros E.
  destruct Hs' as [-> | (n & _ & ->)]; auto.
Qed.

Lemma uses_write_marker name text rm : uses [CIo] (write_marker name text rm).
Proof.
  unfold write_marker. uses_auto.
Qed.
End Facts.

(** ** Releasing the card *)

Section Release.
Context `{Env}.

Definition released (s : sys sd_g) : Prop :=
  s_card (glob s) = None /\ s_spi_bus_initialized (glob s) = false /\ bus_up (trace s) = false.

Lemma released_inv s : released s -> sd_inv s.
Proof. intros (Hc & Hb & Hu). split; [congruence|]. by rewrite Hc. Qed.

(** The two blocks [force_clean_sd_bus] and [unmount_sd] share. *)
Lemma wp_drop_card {A} mp (k : M sd_g A) Q s :
  (forall s', s_card (glob s') = None -> fs (glob s') = fs (glob s) ->
     s_spi_bus_initialized (glob s') = s_spi_bus_initialized (glob s) ->
     s_sd_freq_khz (glob s') = s_sd_freq_khz (glob s) ->
     bus_up (trace s') = bus_up (trace s) -> wp k Q s') ->
  wp (g <- get ;;
      match s_card g with
      | Some c => call_ (SdcardUnmount mp c) ;; set_s_card None
      | None => ret tt
      end ;; k) Q s.
Proof.
  intros Hk. apply wp_bind, wp_get, wp_bind. destruct (s_card (glob s)) as [c|] eqn:E.
  - apply wp_bind, wp_call_. intros r w' _. apply wp_modify. by apply Hk.
  - apply wp_ret. by apply Hk.
Qed.

Lemma wp_drop_bus {A} (k : M sd_g A) Q s :
  bus_up (trace s) = s_spi_bus_initialized (glob s) ->
  (forall s', s_card (glob s') = s_card (glob s) -> fs (glob s') = fs (glob s) ->
     s_spi_bus_initialized (glob s') = false -> bus_up (trace s') = false -> wp k Q s') ->
  wp (g <- get ;; when (s_spi_bus_initialized g) (call_ SpiBusFree ;; set_spi_bus false) ;; k) Q s.
Proof.
  intros Hb Hk. apply wp_bind, wp_get, wp_bind, wp_when; intros E.
  - apply wp_bind, wp_call_. intros r w' _. apply wp_modify. by apply Hk.
  - apply Hk; congruence.
Qed.

Lemma wp_delay {A} ms (k : M sd_g A) Q s :
  (forall s', glob s' = glob s -> bus_up (trace s') = bus_up (trace s) -> wp k Q s') ->
  wp (call_ (VTaskDelay ms) ;; k) Q s.
Proof. intros Hk. apply wp_bind, wp_call_. intros r w' _. by apply Hk. Qed.
End Release.

(** ** Mounting, cleaning up, unmounting *)

Section Operations.
Context `{Env}.

Lemma wp_mount_sd mp s :
  sd_inv s -> s_spi_bus_initialized (glob s) = false ->
  wp (mount_sd mp) (fun o s' => exists b tried,
    o = Ret b /\ sd_inv s' /\ fs (glob s') = fs (glob s) /\
    mounts (trace s') = mounts (trace s) ++ tried /\
    if (b : bool)
    then s_spi_bus_initialized (glob s') = true /\
         exists f c, mount_worked mp [10000; 4000; 400] tried f c /\
           s_card (glob s') = Some c /\ s_sd_freq_khz (glob s') = f
    else s_card (glob s') = None /\ bus_up (trace s') = false /\
         (mount_all_fail mp [10000; 4000; 400] tried \/
          tried = [] /\ exists r tr, trace s' = Ev SpiBusInitialize r :: tr /\ is_ok r = false)) s.
Proof.
  intros [Hb Hc] Hf.
  assert (Hn : s_card (glob s) = None) by (destruct (s_card (glob s)); [by rewrite Hc in Hf|done]).
  unfold mount_sd, gpio_set_level.
  do 5 (apply (wp_quiet [CGpio; CDelay]); [apply quiet_call|uses_auto|done|intros ? ? ? ?]).
  assert (Hs5 : exists s5, s5 = s'3 /\ glob s5 = glob s /\ bus_up (trace s5) = false /\
    mounts (trace s5) = mounts (trace s)) by (eexists; split_and!; [done|congruence..]).
  destruct Hs5 as (s5 & <- & G5 & B5 & F5). clear -Hn Hf G5 B5 F5.
  set (Init := fun (o : outcome Z) s' => exists r, o = Ret r /\ glob s' = glob s /\
    bus_up (trace s') = is_ok r /\ mounts (trace s') = mounts (trace s) /\
    exists tr, trace s' = Ev SpiBusInitialize r :: tr).
  assert (HI : forall s2, glob s2 = glob s -> bus_up (trace s2) = false ->
    mounts (trace s2) = mounts (trace s) -> wp (call SpiBusInitialize) Init s2).
  { intros s2 G2 B2 F2. apply wp_call. intros r w' _. exists r. split_and!; try done; [|by eexists].
    simpl. rewrite B2. by rewrite orb_false_r. }
  apply wp_bind. eapply wp_mono; [by apply HI|]. intros o s6 (r0 & -> & G6 & B6 & F6 & T6).
  apply wp_bind. apply (wp_mono _ Init).
  { destruct (r0 =? ESP_ERR_INVALID_STATE); [|apply wp_ret; by exists r0].
    apply wp_bind, wp_call_. intros u w' _. apply wp_bind, wp_call_. intros v w2 _.
    by apply HI. }
  intros o s7 (r & -> & G7 & B7 & F7 & tr7 & T7). revert B7. destruct (is_ok r) eqn:Er; intros B7; cbn [negb].
  2: { apply wp_ret. exists false, []. rewrite app_nil_r, G7, Hn. split_and!; try done.
       - split; [by rewrite B7, G7, Hf|by rewrite G7, Hn].
       - right. split; [done|]. by exists r, tr7. }
  apply wp_bind, wp_modify.
  do 4 (apply (wp_quiet [CGpio; CDelay]);
    [unfold init_pulse, gpio_set_level; repeat first [apply quiet_call|apply quiet_repeat|apply quiet_bind]
    |unfold init_pulse, gpio_set_level; uses_auto|done|intros ? ? ? ?]).
  cbn [glob trace] in *.
  match goal with |- wp _ _ ?t =>
    assert (Gs : glob t = SdG (fs (glob s)) None true (s_sd_freq_khz (glob s))) by congruence;
    assert (Bs : bus_up (trace t) = true) by congruence;
    assert (Fs : mounts (trace t) = mounts (trace s)) by congruence
  end.
  apply wp_bind. eapply wp_mono; [apply wp_mount_rungs|].
  intros o s8 (b & tried & -> & B8 & F8 & I8 & FS8 & Hres).
  change (rung_freqs 1000000 mount_ladder) with [10000; 4000; 400] in *.
  rewrite Gs in *. cbn in I8, FS8. destruct b.
  - apply wp_ret. exists true, tried. destruct Hres as (f & c & Hw & Hc & Hk).
    split_and!; try done; [split; congruence|congruence|]. by exists f, c.
  - destruct Hres as [Hg Hf']. apply wp_bind, wp_call_. intros u w' _. apply wp_bind, wp_modify, wp_ret.
    exists false, tried. cbn. rewrite Hg. cbn.
    split_and!; try done; [|by left]. rewrite <- Fs. exact F8.
Qed.

Lemma wp_force_clean s :
  sd_inv s ->
  wp force_clean_sd_bus (fun o s' => o = Ret tt /\ released s' /\ fs (glob s') = fs (glob s)) s.
Proof.
  intros [Hb _]. apply wp_drop_card. intros s1 C1 S1 I1 _ B1.
  apply wp_drop_bus; [congruence|]. intros s2 C2 S2 I2 B2.
  apply wp_delay. intros s3 G3 B3. apply wp_bind, wp_ret.
  apply (wp_quiet [CGpio; CDelay]); [apply quiet_reset|apply uses_reset|done|].
  intros s4 G4 B4 _. unfold gpio_set_level.
  do 4 (apply (wp_quiet [CGpio]); [apply quiet_call|uses_auto|done|intros ? ? ? _]).
  apply wp_call_. intros r w' _. split; [done|]. unfold released. cbn [glob].
  split_and!; try congruence. change (bus_up (trace s'2) = false). congruence.
Qed.

Lemma wp_unmount_sd mp healthy s :
  sd_inv s ->
  wp (unmount_sd mp healthy) (fun o s' =>
    o = Ret tt /\ released s' /\ (healthy = false -> fs (glob s') = fs (glob s))) s.
Proof.
  intros [Hb _]. unfold unmount_sd. apply wp_bind.
  apply (wp_mono _ (fun o s1 => o = Ret tt /\
    bus_up (trace s1) = s_spi_bus_initialized (glob s1) /\
    (healthy = false -> fs (glob s1) = fs (glob s)))).
  { apply wp_when; intros Eh; [|done].
    apply wp_bind. eapply (wp_bus_uses [CIo]);
      [apply uses_zoom, uses_write_marker|done|].
    apply wp_zoom. eapply wp_mono; [apply wp_write_marker|]. intros o s1 [-> _] B1 _.
    apply wp_call_. intros r w' _. split_and!; [done| |by rewrite Eh].
    change (bus_up (trace s1) = s_spi_bus_initialized (glob s)). cbn [trace] in B1. congruence. }
  intros o s1 (-> & B1 & H1).
  apply wp_drop_card. intros s2 C2 S2 I2 _ B2. apply wp_delay. intros s3 G3 B3.
  apply wp_drop_bus; [congruence|]. intros s4 C4 S4 I4 B4.
  unfold gpio_set_level. apply wp_bind, wp_call_. intros r w' _. apply wp_ret.
  unfold released. cbn [glob]. split_and!; try congruence.
  - change (bus_up (trace s4) = false). done.
  - intros E. specialize (H1 E). congruence.
Qed.

Lemma uses_force_clean : uses [CGpio; CDelay; CSd] force_clean_sd_bus.
Proof.
  pose proof uses_reset. unfold force_clean_sd_bus, set_s_card, set_spi_bus, gpio_set_level, sd_power_init,
    sd_power_cycle, sd_power_off, sd_power_on. uses_auto.
Qed.

Lemma uses_mount_sd mp : uses [CGpio; CDelay; CSd] (mount_sd mp).
Proof.
  assert (Hr : forall l i prev, uses [CGpio; CDelay; CSd] (mount_rungs mp i prev l)).
  { induction l; intros; cbn [mount_rungs]; unfold set_s_card, set_s_sd_freq_khz, gpio_set_level; uses_auto. }
  unfold mount_sd, set_spi_bus, set_s_card, init_pulse, gpio_set_level, sd_power_init, sd_power_cycle,
    sd_power_off, sd_power_on. cbv zeta. uses_auto.
Qed.

Lemma uses_unmount_sd mp healthy : uses [CGpio; CDelay; CSd; CIo] (unmount_sd mp healthy).
Proof.
  pose proof uses_write_marker. unfold unmount_sd, set_s_card, set_spi_bus, gpio_set_level, sd_power_cycle.
  uses_auto.
Qed.
End Operations.

(** ** Properties *)

Section Properties.
Context `{Env}.

(** C16: [mount_sd] asks the driver to mount at 10000, 4000 and 400 kHz, in this
    order, until a call returns [ESP_OK].  It returns [true] exactly when one did:
    every call before that one failed, the card it returned is the mounted card,
    its frequency is remembered, and the bus is up.  When it returns [false] no
    card is mounted and the SPI bus is not held, either because it could not be
    initialised, and nothing was tried, or because all three calls failed and the
    bus was freed again. *)
Theorem mount_sd_correct mp s :
  sd_inv s -> s_spi_bus_initialized (glob s) = false ->
  wp (mount_sd mp) (fun o s' => exists b tried,
    o = Ret b /\ sd_inv s' /\ fs (glob s') = fs (glob s) /\
    mounts (trace s') = mounts (trace s) ++ tried /\
    if (b : bool)
    then s_spi_bus_initialized (glob s') = true /\
         exists f c, mount_worked mp [10000; 4000; 400] tried f c /\
           s_card (glob s') = Some c /\ s_sd_freq_khz (glob s') = f
    else s_card (glob s') = None /\ bus_up (trace s') = false /\
         (mount_all_fail mp [10000; 4000; 400] tried \/
          tried = [] /\ exists r tr, trace s' = Ev SpiBusInitialize r :: tr /\ is_ok r = false)) s.
Proof. apply wp_mount_sd. Qed.

(** [force_clean_sd_bus] always returns, and leaves no card mounted and the
    bus down, with the flags saying so. *)
Theorem force_clean_releases s :
  sd_inv s ->
  wp force_clean_sd_bus (fun o s' => o = Ret tt /\ released s' /\ fs (glob s') = fs (glob s)) s.
Proof. apply wp_force_clean. Qed.

(** [unmount_sd] always returns and releases the card and the bus, whether
    or not the card is healthy, and writes nothing to an unhealthy card. *)
Theorem unmount_releases mp healthy s :
  sd_inv s ->
  wp (unmount_sd mp healthy) (fun o s' =>
    o = Ret tt /\ released s' /\ (healthy = false -> fs (glob s') = fs (glob s))) s.
Proof. apply wp_unmount_sd. Qed.

(** Whatever levels the pins start from, the card sees, at the rising
    clock edges of the reset sequence, 512 clocks with CS low (a stuck transfer
    is clocked out), 40 and 160 with CS high, then CS low and exactly the 48 bits
    of CMD0 with its CRC, and 80 clocks more for the answer; no [gpio] error can
    disturb the sequence. *)
Theorem reset_waveform s :
  wp sd_aggressive_card_reset (fun o s' => o = Ret tt /\ glob s' = glob s /\
    exists l, gpio_writes (trace s') = gpio_writes (trace s) ++ l /\
      forall p, samples p l =
        replicate 512 (0, 1) ++ replicate (5 * 8) (1, 1) ++ replicate 160 (1, 1) ++
        map (fun b => (0, b))
          [0;1;0;0;0;0;0;0; 0;0;0;0;0;0;0;0; 0;0;0;0;0;0;0;0; 0;0;0;0;0;0;0;0;
           0;0;0;0;0;0;0;0; 1;0;0;1;0;1;0;1] ++
        replicate 80 (0, 1)) s.
Proof.
  eapply wp_mono; [apply writes_reset|]. intros o s' (-> & G & W).
  split_and!; [done|done|]. exists reset_writes. split; [done|].
  intros [cs clk mosi]. vm_compute. reflexivity.
Qed.

(** the fallback frequency is the highest of the ladder strictly below the
    current one, and stepping down ends after at most three steps. *)
Theorem next_lower_freq_correct cur :
  let f := sd_next_lower_freq cur in
  (f <> -1 -> In f SD_FREQ_LADDER /\ f < cur /\
     forall f', In f' SD_FREQ_LADDER -> f' < cur -> f' <= f) /\
  (f = -1 <-> cur <= 4000) /\
  sd_next_lower_freq (sd_next_lower_freq (sd_next_lower_freq (sd_next_lower_freq cur))) = -1.
Proof.
  cbv zeta. unfold sd_next_lower_freq, SD_FREQ_LADDER. cbn [find].
  destruct (Z.ltb_spec 20000 cur); [|destruct (Z.ltb_spec 10000 cur);
    [|destruct (Z.ltb_spec 4000 cur)]]; cbn -[Z.lt Z.le];
    split_and!; try lia; try reflexivity;
    intros _; split_and!; try lia; try tauto; intros f' Hf; intuition lia.
Qed.
End Properties.

(** ** The hypotheses hold on a concrete platform *)

Definition ex_sd : @sys plain_env sd_g :=
  test_start (SdG (Posix (Dir []) ∅ 3) None false 10000) tw_init.

Lemma ex_sd_inv : sd_inv ex_sd.
Proof. by split. Qed.

Example ex_mounts : fst (mount_sd "/sdcard" ex_sd) = Ret true.
Proof. vm_compute. reflexivity. Qed.

Lemma mount_sd_correct_witness :
  exists tried f c, fst (mount_sd "/sdcard" ex_sd) = Ret true /\
    mount_worked "/sdcard" [10000; 4000; 400] tried f c /\
    s_card (glob (snd (mount_sd "/sdcard" ex_sd))) = Some c.
Proof.
  destruct (mount_sd_correct (H := plain_env) "/sdcard" ex_sd ex_sd_inv eq_refl)
    as (b & tried & E & _ & _ & _ & Hb).
  rewrite ex_mounts in E. injection E as <-. destruct Hb as (_ & f & c & Hw & Hc & _). exists tried, f, c.
  exact (conj ex_mounts (conj Hw Hc)).
Defined.

(** When the card only answers at 400 kHz, all three frequencies are tried. *)
Definition slow_card : override := fun _ X c =>
  match c in cmd X return option X with
  | SdspiMount _ f => if f =? 400 then None else Some (ESP_FAIL, Card 0 false)
  | _ => None
  end.
Example ex_mount_slow :
  let r := mount_sd (H := test_env slow_card) "/sdcard"
             (@Sys (test_env slow_card) _ (glob ex_sd) tw_init []) in
  fst r = Ret true /\ mount_freqs (trace (snd r)) = [10000; 4000; 400] /\
  s_sd_freq_khz (glob (snd r)) = 400.
Proof. vm_compute. auto. Qed.

Lemma force_clean_releases_witness :
  released (snd (force_clean_sd_bus (snd (mount_sd "/sdcard" ex_sd)))).
Proof.
  assert (Hi : sd_inv (snd (mount_sd "/sdcard" ex_sd))) by (split; vm_compute; auto).
  destruct (force_clean_releases (H := plain_env) _ Hi) as (_ & Hr & _). exact Hr.
Defined.

Lemma unmount_releases_witness :
  released (snd (unmount_sd "/sdcard" true (snd (mount_sd "/sdcard" ex_sd)))).
Proof.
  assert (Hi : sd_inv (snd (mount_sd "/sdcard" ex_sd))) by (split; vm_compute; auto).
  destruct (unmount_releases (H := plain_env) "/sdcard" true _ Hi) as (_ & Hr & _). exact Hr.
Defined.
