(* ===== verification/Resources.v ===== *)
(** * Resource accounting

    A checker of traces for handles that are acquired, used and released: HTTP
    clients, heap blocks, semaphores.  [owns cl tr hs] says that in the trace
    every use and every release was of a handle live at that point, and that the
    handles live at its end are [hs]. *)

From Stdlib Require Import Permutation.
From S2P Require Import Prelude Idf Logic.
#[local] Open Scope Z_scope.

Inductive rop := RNone | RAcquire (h : option Z) | RUse (h : Z) | RRelease (h : Z).

Fixpoint remove_one (h : Z) (live : list Z) : list Z :=
  match live with
  | [] => []
  | a :: l => if h =? a then l else a :: remove_one h l
  end.

Definition rstep (cl : event -> rop) (e : event) (o : option (list Z)) : option (list Z) :=
  match o with
  | None => None
  | Some live =>
      match cl e with
      | RNone => Some live
      | RAcquire h => Some (opt_list h ++ live)
      | RUse h => if existsb (Z.eqb h) live then Some live else None
      | RRelease h => if existsb (Z.eqb h) live then Some (remove_one h live) else None
      end
  end.
Definition live_after (cl : event -> rop) (tr : list event) : option (list Z) :=
  fold_right (rstep cl) (Some []) tr.

Definition owns (cl : event -> rop) (tr : list event) (hs : list Z) : Prop :=
  exists l, live_after cl tr = Some l /\ Permutation l hs.

(** The three kinds of handles. *)
Definition http_rop (e : event) : rop :=
  match e with Ev c r =>
    match c in cmd X return X -> rop with
    | HttpInit _ => RAcquire
    | HttpSetUrl h _ => fun _ => RUse h
    | HttpOpen h => fun _ => RUse h
    | HttpFetchHeaders h => fun _ => RUse h
    | HttpGetStatusCode h => fun _ => RUse h
    | HttpRead h _ => fun _ => RUse h
    | HttpPerform h => fun _ => RUse h
    | HttpClose h => fun _ => RUse h
    | HttpCleanup h => fun _ => RRelease h
    | _ => fun _ => RNone
    end r
  end.

Definition heap_rop (e : event) : rop :=
  match e with Ev c r =>
    match c in cmd X return X -> rop with
    | HeapMallocPsram _ => RAcquire
    | HeapFree h => fun _ => RRelease h
    | _ => fun _ => RNone
    end r
  end.

Definition sem_rop (e : event) : rop :=
  match e with Ev c r =>
    match c in cmd X return X -> rop with
    | SemCreateBinary => RAcquire
    | SemGive h => fun _ => RUse h
    | SemTake h => fun _ => RUse h
    | SemDelete h => fun _ => RRelease h
    | _ => fun _ => RNone
    end r
  end.

Section Facts.
Context (cl : event -> rop).

Lemma owns_nil : owns cl [] [].
Proof. by exists []. Qed.

#[export] Instance owns_Proper tr : Proper (Permutation (A:=Z) ==> iff) (owns cl tr).
Proof.
  intros hs hs' Hp. split; intros (l & Hl & P); exists l; (split; [done|]).
  - by etransitivity.
  - etransitivity; [exact P|by symmetry].
Qed.

Lemma existsb_In h l : existsb (Z.eqb h) l = true <-> In h l.
Proof.
  rewrite existsb_exists. split.
  - intros (x & Hx & E). apply Z.eqb_eq in E. by subst.
  - intros Hh. exists h. split; [done|apply Z.eqb_refl].
Qed.

Lemma remove_one_perm h l : In h l -> Permutation l (h :: remove_one h l).
Proof.
  induction l as [|a l IH]; simpl; [done|]. destruct (Z.eqb_spec h a) as [->|Hne]; [done|].
  intros [?|Hin]; [congruence|]. rewrite perm_swap. constructor. auto.
Qed.

Lemma live_cons e tr : live_after cl (e :: tr) = rstep cl e (live_after cl tr).
Proof. reflexivity. Qed.

Lemma owns_none e tr hs : cl e = RNone -> owns cl tr hs -> owns cl (e :: tr) hs.
Proof.
  intros He (l & Hl & P). exists l. split; [|done].
  rewrite live_cons, Hl. simpl. by rewrite He.
Qed.

Lemma owns_acquire e tr hs h :
  cl e = RAcquire h -> owns cl tr hs -> owns cl (e :: tr) (opt_list h ++ hs).
Proof.
  intros He (l & Hl & P). exists (opt_list h ++ l). split; [|by apply Permutation_app_head].
  rewrite live_cons, Hl. simpl. by rewrite He.
Qed.

Lemma owns_use e tr hs h :
  cl e = RUse h -> In h hs -> owns cl tr hs -> owns cl (e :: tr) hs.
Proof.
  intros He Hh (l & Hl & P). exists l. split; [|done].
  assert (Hin : existsb (Z.eqb h) l = true)
    by (apply existsb_In; by eapply Permutation_in; [symmetry|]).
  rewrite live_cons, Hl. simpl. by rewrite He, Hin.
Qed.

Lemma owns_release e tr hs h :
  cl e = RRelease h -> owns cl tr (h :: hs) -> owns cl (e :: tr) hs.
Proof.
  intros He (l & Hl & P). exists (remove_one h l).
  assert (Hin : In h l) by (eapply Permutation_in; [symmetry; exact P|by left]).
  split.
  - rewrite live_cons, Hl. simpl. rewrite He. apply existsb_In in Hin. by rewrite Hin.
  - apply (Permutation_cons_inv (a:=h)). rewrite <- P. symmetry. by apply remove_one_perm.
Qed.
End Facts.

Section Uses.
Context `{Env}.

(** Computations that make no call of the kind keep what is owned. *)
Lemma owns_uses {G A} (cl : event -> rop) cs (m : M G A) s hs :
  uses cs m -> (forall e, ev_class e ∈ cs -> cl e = RNone) ->
  owns cl (trace s) hs -> owns cl (trace (snd (m s))) hs.
Proof.
  intros Hm Hc. apply (Hm (fun a b => owns cl a.2 hs -> owns cl b.2 hs)).
  split; [split; [intros a Ha; exact Ha|]|].
  - intros a b c H1 H2 Ha. exact (H2 (H1 Ha)).
  - intros X c w tr r w' Hin _. apply owns_none, Hc. exact Hin.
Qed.

Lemma rop_class_http cs :
  cls_mem CHttp cs = false -> cls_mem CRecv cs = false ->
  forall e, ev_class e ∈ cs -> http_rop e = RNone.
Proof.
  intros Hc Hr [X c r] Hin. unfold cls_mem in Hc, Hr.
  apply bool_decide_eq_false in Hc, Hr. destruct c; try done; simpl in Hin; contradiction.
Qed.

Lemma rop_class_heap cs : cls_mem CHeap cs = false -> forall e, ev_class e ∈ cs -> heap_rop e = RNone.
Proof.
  intros Hc [X c r] Hin. unfold cls_mem in Hc. apply bool_decide_eq_false in Hc.
  destruct c; try done; simpl in Hin; contradiction.
Qed.

Lemma rop_class_sem cs : cls_mem CSem cs = false -> forall e, ev_class e ∈ cs -> sem_rop e = RNone.
Proof.
  intros Hc [X c r] Hin. unfold cls_mem in Hc. apply bool_decide_eq_false in Hc.
  destruct c; try done; simpl in Hin; contradiction.
Qed.
End Uses.
