(* ===== verification/HttpPool.v ===== *)
(** * The HTTP connection pool of [simibox_download.cpp]

    [s_http_client] and [s_http_base_host], with [HTTP_REUSE_CONNECTION] set (its
    value in [downloader_config.h]).  A [std::string] is a string, a client
    handle an integer the platform chose. *)

From S2P Require Import Prelude Idf Logic CLib Protocol Resources TestEnv.
#[local] Open Scope Z_scope.

Record pool := Pool {
  s_http_client : option Z;
  s_http_base_host : string
}.

Definition pool_init : pool := Pool None EmptyString.

(** [client == s_http_client] *)
Definition is_pooled (client : Z) (g : pool) : bool :=
  match s_http_client g with Some c => client =? c | None => false end.

(** [url.find("://")], then the part up to the next slash or the end. *)
Definition extract_host (url : string) : string :=
  match String.index 0 "://" url with
  | None => EmptyString
  | Some i =>
      let start := (i + 3)%nat in
      let stop := match String.index start "/" url with
                  | Some j => j
                  | None => String.length url
                  end in
      substring start (stop - start) url
  end.

Section HttpPool.
Context `{Env}.

Definition get_http_client (url : string) : M pool (option Z) :=
  let host := extract_host url in
  g <- get ;;
  match s_http_client g with
  | Some c =>
      if String.eqb (s_http_base_host g) host
      then call_ (HttpSetUrl c url) ;; ret (Some c)
      else
        call_ (HttpCleanup c) ;;
        put (Pool None (s_http_base_host g)) ;;
        client <- call (HttpInit url) ;;
        put (Pool client host) ;;
        ret client
  | None =>
      client <- call (HttpInit url) ;;
      put (Pool client host) ;;
      ret client
  end.

Definition release_http_client (client : Z) (force_cleanup : bool) : M pool unit :=
  g <- get ;;
  if negb force_cleanup && is_pooled client g then ret tt else
  call_ (HttpClose client) ;;
  call_ (HttpCleanup client) ;;
  g' <- get ;;
  when (is_pooled client g') (put pool_init).

Definition cleanup_http_pool : M pool unit :=
  g <- get ;;
  match s_http_client g with
  | Some c => call_ (HttpCleanup c) ;; put pool_init
  | None => ret tt
  end.
End HttpPool.

(** ** Specification *)

(** The only live client is the pooled one. *)
Definition pool_inv (g : pool) (tr : list event) : Prop :=
  owns http_rop tr (opt_list (s_http_client g)).

Section Facts.
Context `{Env}.

(** A call on the pooled client. *)
Lemma wp_http_use {X} (c : cmd X) h (Q : outcome X -> sys pool -> Prop) s :
  (forall r, http_rop (Ev c r) = RUse h) ->
  s_http_client (glob s) = Some h -> pool_inv (glob s) (trace s) ->
  (forall r s', glob s' = glob s -> pool_inv (glob s') (trace s') -> Q (Ret r) s') ->
  wp (call c) Q s.
Proof.
  intros Hc Hh Hp HQ. apply wp_call. intros r w' _. apply HQ; [done|].
  eapply owns_use; [apply Hc|cbn [glob]; rewrite Hh; by left|exact Hp].
Qed.

Lemma wp_get_http_client url s :
  pool_inv (glob s) (trace s) ->
  wp (get_http_client url) (fun o s' => exists c, o = Ret c /\
    pool_inv (glob s') (trace s') /\ s_http_client (glob s') = c) s.
Proof.
  intros Hp. apply wp_bind, wp_get.
  assert (Hi : forall s1, owns http_rop (trace s1) [] ->
    wp (client <- call (HttpInit url) ;; put (Pool client (extract_host url)) ;; ret client)
      (fun o s' => exists c, o = Ret c /\
         pool_inv (glob s') (trace s') /\ s_http_client (glob s') = c) s1).
  { intros s1 H1. apply wp_bind, wp_call. intros r w' _. apply wp_bind, wp_put, wp_ret.
    exists r. split_and!; [done| |done]. unfold pool_inv. cbn [trace glob s_http_client].
    rewrite <- (app_nil_r (opt_list r)). by eapply owns_acquire. }
  unfold pool_inv in Hp. destruct (s_http_client (glob s)) as [c|] eqn:Ec; [|by apply Hi].
  destruct (String.eqb _ _).
  - apply wp_bind, wp_call_. intros r w' _. apply wp_ret. exists (Some c).
    split_and!; [done| |done]. unfold pool_inv. cbn [glob trace]. rewrite Ec.
    eapply owns_use; [reflexivity|by left|exact Hp].
  - apply wp_bind, wp_call_. intros r w' _. apply wp_bind, wp_put, Hi. cbn [trace].
    by eapply owns_release.
Qed.

Lemma wp_release c force s :
  pool_inv (glob s) (trace s) -> s_http_client (glob s) = Some c ->
  wp (release_http_client c force) (fun o s' => o = Ret tt /\
    pool_inv (glob s') (trace s') /\
    s_http_client (glob s') = (if force then None else Some c)) s.
Proof.
  intros Hp Hc. apply wp_bind, wp_get.
  assert (Hpool : is_pooled c (glob s) = true) by (unfold is_pooled; rewrite Hc; apply Z.eqb_refl).
  rewrite Hpool. destruct force; simpl negb; cbn [andb]; [|by apply wp_ret].
  apply wp_bind, wp_call_. intros r1 w1 _. apply wp_bind, wp_call_. intros r2 w2 _.
  apply wp_bind, wp_get. cbn [glob]. rewrite Hpool. apply wp_put. split_and!; [done| |done].
  unfold pool_inv in *. cbn [trace glob]. rewrite Hc in Hp.
  eapply owns_release; [reflexivity|]. eapply owns_use; [reflexivity|by left|exact Hp].
Qed.

Lemma wp_cleanup_pool s :
  pool_inv (glob s) (trace s) ->
  wp cleanup_http_pool (fun o s' => o = Ret tt /\
    pool_inv (glob s') (trace s') /\ s_http_client (glob s') = None) s.
Proof.
  intros Hp. apply wp_bind, wp_get. unfold pool_inv in Hp.
  destruct (s_http_client (glob s)) as [c|] eqn:Ec.
  - apply wp_bind, wp_call_. intros r w' _. apply wp_put. split_and!; [done| |done].
    unfold pool_inv. cbn [trace glob]. by eapply owns_release.
  - apply wp_ret. split_and!; [done| |done]. unfold pool_inv. by rewrite Ec.
Qed.

Lemma uses_pool url c force :
  uses [CHttp] (get_http_client url) /\ uses [CHttp] (release_http_client c force) /\
  uses [CHttp] cleanup_http_pool.
Proof.
  split_and!; unfold get_http_client, release_http_client, cleanup_http_pool; cbv zeta; uses_auto.
Qed.
End Facts.

(** ** Host extraction *)

#[local] Open Scope string_scope.

Fixpoint has_char (c : ascii) (s : string) : bool :=
  match s with EmptyString => false | String c' s' => Ascii.eqb c' c || has_char c s' end.

Lemma prefix_refl_app s t : String.prefix s (s ++ t) = true.
Proof. induction s as [|c s IH]; simpl; [by destruct t|]. destruct (ascii_dec c c); done. Qed.

(** The first occurrence of a string whose first character does not occur
    before it. *)
Lemma index_first c p s t :
  has_char c s = false ->
  String.index 0 (String c p) (s ++ String c (p ++ t)) = Some (String.length s).
Proof.
  induction s as [|d s IH]; intros Hs.
  - simpl. destruct (ascii_dec c c); [|done]. by rewrite prefix_refl_app.
  - simpl in Hs. apply orb_false_elim in Hs as [Hd Hs]. simpl.
    destruct (ascii_dec c d) as [->|]; [by rewrite Ascii.eqb_refl in Hd|].
    by rewrite IH.
Qed.

Lemma index_none c s : has_char c s = false -> String.index 0 (String c "") s = None.
Proof.
  induction s as [|d s IH]; intros Hs; [done|].
  simpl in Hs. apply orb_false_elim in Hs as [Hd Hs]. simpl.
  destruct (ascii_dec c d) as [->|]; [by rewrite Ascii.eqb_refl in Hd|].
  by rewrite IH.
Qed.

Lemma index_skip p pre s :
  String.index (String.length pre) p (pre ++ s)
  = match String.index 0 p s with Some i => Some (String.length pre + i)%nat | None => None end.
Proof.
  induction pre as [|c pre IH]; [simpl; by case_match|]. simpl.
  rewrite IH. by destruct (String.index 0 p s).
Qed.

Lemma substring_all s : substring 0 (String.length s) s = s.
Proof. induction s; simpl; congruence. Qed.

Lemma substring_app pre s : substring (String.length pre) (String.length s) (pre ++ s) = s.
Proof. induction pre as [|c pre IH]; [apply substring_all|done]. Qed.

Lemma substring_prefix s t : substring 0 (String.length s) (s ++ t) = s.
Proof. induction s; simpl; [by destruct t|]. congruence. Qed.

Lemma substring_skip pre n s : substring (String.length pre) n (pre ++ s) = substring 0 n s.
Proof. induction pre as [|c pre IH]; simpl; [done|]. done. Qed.

(** ** Properties *)

(** For every URL of the form [scheme://host/rest], with or without the
    rest, [extract_host] is exactly the host, so two URLs share a pooled
    connection if and only if their hosts are equal. *)
Theorem extract_host_correct scheme host rest :
  has_char ":" scheme = false -> has_char "/" host = false ->
  extract_host (scheme ++ "://" ++ host) = host /\
  extract_host (scheme ++ "://" ++ host ++ "/" ++ rest) = host.
Proof.
  intros Hs Hh. unfold extract_host.
  assert (Hl : forall t, (String.length scheme + 3)%nat = String.length (scheme ++ "://")
                       /\ (scheme ++ "://" ++ t = (scheme ++ "://") ++ t)%string).
  { intros t. by rewrite length_app_string, app_assoc_string. }
  assert (Hi : forall t, String.index 0 "://" (scheme ++ "://" ++ t) = Some (String.length scheme))
    by (intros t; exact (index_first ":" "//" scheme t Hs)).
  split; rewrite Hi, (proj1 (Hl host)), (proj2 (Hl _)), index_skip.
  - rewrite index_none by done. rewrite (length_app_string (scheme ++ "://") host).
    replace (_ + String.length host - _)%nat with (String.length host) by lia.
    apply substring_app.
  - assert (Hj : String.index 0 "/" (host ++ "/" ++ rest) = Some (String.length host))
      by exact (index_first "/" "" host rest Hh).
    rewrite Hj.
    replace (_ + String.length host - _)%nat with (String.length host) by lia.
    rewrite substring_skip. apply substring_prefix.
Qed.

(** While a client is pooled for the URL's host, [get_http_client] makes no
    new connection: the same client is returned and the only call is the one
    that sets its URL. *)
Theorem same_host_reuses `{Env} url c s :
  s_http_client (glob s) = Some c -> s_http_base_host (glob s) = extract_host url ->
  wp (get_http_client url) (fun o s' => o = Ret (Some c) /\ glob s' = glob s /\
    exists r, trace s' = Ev (HttpSetUrl c url) r :: trace s) s.
Proof.
  intros Hc Hh. apply wp_bind, wp_get. rewrite Hc, Hh, String.eqb_refl.
  apply wp_bind, wp_call_. intros r w' _. apply wp_ret. by split_and!; [| |exists r].
Qed.

(** ** The hypotheses hold on a concrete platform *)

Lemma extract_host_correct_witness :
  extract_host "https://x.lambda-url.us-east-2.on.aws" = "x.lambda-url.us-east-2.on.aws"%string /\
  extract_host "https://x.lambda-url.us-east-2.on.aws/?folder=mozart"
  = "x.lambda-url.us-east-2.on.aws"%string.
Proof.
  apply (extract_host_correct "https" "x.lambda-url.us-east-2.on.aws" "?folder=mozart");
    reflexivity.
Defined.

Definition ex_pool : @sys plain_env pool := test_start (Pool (Some 7) "a.b") tw_init.

Lemma same_host_reuses_witness :
  wp (get_http_client "https://a.b/track01.mp3") (fun o s' => o = Ret (Some 7) /\
    glob s' = glob ex_pool /\
    exists r, trace s' = Ev (HttpSetUrl 7 "https://a.b/track01.mp3") r :: trace ex_pool) ex_pool.
Proof. apply (same_host_reuses (H := plain_env)); reflexivity. Defined.
