(* ===== verification/Writer.v ===== *)
(** * The staging buffers and the SD writer of [simibox_download.cpp]

    Allocation of the two PSRAM buffers, the body of the writer task for one
    buffer, and the start and stop of the task.  The interleaving of the writer
    with the network side is [PingPong]; here the job is a computation. *)

From Stdlib Require Import Permutation.
From stdpp Require Import gmap strings.
From S2P Require Import Prelude Idf Logic Protocol Resources Posix TestEnv.
#[local] Open Scope Z_scope.

(** ** State *)

(** [s_buf[2]] and [s_buf_capacity]. *)
Record pp_bufs := PpBufs {
  s_buf0 : option Z;
  s_buf1 : option Z;
  s_buf_capacity : Z
}.

Definition pp_init : pp_bufs := PpBufs None None 0.

(** [s_sd_job] and [s_sd_task_handle] (by whether it is non-NULL); [job_data] is
    what the job's pointer and length designate. *)
Record sd_write_job := SdWriteJob {
  job_file : Z;
  job_data : list ascii;
  sd_error : bool;
  job_done : bool;
  sem_job_ready : option Z;
  sem_job_done : option Z;
  job_stop : bool;
  s_sd_task_handle : bool
}.

Definition job_init : sd_write_job := SdWriteJob 0 [] false false None None false false.

Definition try_halves : list Z := [PSRAM_STAGING_BUFFER_SIZE / 2; 1 * 1024 * 1024; 512 * 1024].

(** [sizeof(dram_bounce)] *)
Definition DRAM_BOUNCE : nat := Z.to_nat 32768.

Definition is_some {A} (o : option A) : bool := match o with Some _ => true | None => false end.

Section Writer.
Context `{Env}.

(** ** Buffers *)

Definition free_buf (o : option Z) : M pp_bufs unit :=
  match o with Some p => call_ (HeapFree p) | None => ret tt end.

Fixpoint try_alloc (halves : list Z) : M pp_bufs unit :=
  match halves with
  | [] => ret tt
  | half :: halves' =>
      a <- call (HeapMallocPsram half) ;;
      b <- call (HeapMallocPsram half) ;;
      modify (fun g => PpBufs a b (s_buf_capacity g)) ;;
      if is_some a && is_some b then modify (fun g => PpBufs a b half) else
      free_buf a ;; modify (fun g => PpBufs None (s_buf1 g) (s_buf_capacity g)) ;;
      free_buf b ;; modify (fun g => PpBufs (s_buf0 g) None (s_buf_capacity g)) ;;
      try_alloc halves'
  end.

Definition ensure_pingpong_buffers : M pp_bufs unit :=
  g <- get ;;
  if is_some (s_buf0 g) then ret tt else try_alloc try_halves.

Definition free_pingpong_buffers : M pp_bufs unit :=
  g <- get ;;
  free_buf (s_buf0 g) ;; modify (fun g => PpBufs None (s_buf1 g) (s_buf_capacity g)) ;;
  g' <- get ;;
  free_buf (s_buf1 g') ;; modify (fun g => PpBufs (s_buf0 g) None (s_buf_capacity g)) ;;
  modify (fun g => PpBufs (s_buf0 g) (s_buf1 g) 0).

(** ** One job of the writer *)

(** One chunk through the bounce buffer, retried once; [false] is an error. *)
Definition write_chunk (fd : Z) (chunk : list ascii) : M posix bool :=
  written <- fwrite fd chunk ;;
  if (written =? length chunk)%nat then ret true else
  call_ (VTaskDelay 50) ;;
  w2 <- fwrite fd (drop written chunk) ;;
  ret (written + w2 =? length chunk)%nat.

(** The inner [while]: the result is the local [error].  Every chunk is at least
    one byte long, so [length rest] bounds the rounds. *)
Fixpoint write_chunks (fuel : nat) (fd : Z) (rest : list ascii) : M posix bool :=
  match rest, fuel with
  | [], _ => ret false
  | _, O => halt ExFuel
  | _, S fuel' =>
      ok <- write_chunk fd (take DRAM_BOUNCE rest) ;;
      if negb ok then ret true else
      call_ (VTaskDelay 1) ;;
      write_chunks fuel' fd (drop DRAM_BOUNCE rest)
  end.

Definition write_job (fd : Z) (data : list ascii) : M posix bool :=
  write_chunks (length data) fd data.

(** ** The task *)

Definition update_job (f : sd_write_job -> sd_write_job) : M sd_write_job unit := modify f.

Definition set_sems (r d : option Z) (j : sd_write_job) : sd_write_job :=
  SdWriteJob (job_file j) (job_data j) (sd_error j) (job_done j) r d (job_stop j)
    (s_sd_task_handle j).
Definition set_flags (err dn stp : bool) (j : sd_write_job) : sd_write_job :=
  SdWriteJob (job_file j) (job_data j) err dn (sem_job_ready j) (sem_job_done j) stp
    (s_sd_task_handle j).
Definition set_handle (h : bool) (j : sd_write_job) : sd_write_job :=
  SdWriteJob (job_file j) (job_data j) (sd_error j) (job_done j) (sem_job_ready j)
    (sem_job_done j) (job_stop j) h.
Definition set_job_data (d : list ascii) (j : sd_write_job) : sd_write_job :=
  SdWriteJob (job_file j) d (sd_error j) (job_done j) (sem_job_ready j)
    (sem_job_done j) (job_stop j) (s_sd_task_handle j).
Definition set_job_file (fd : Z) (j : sd_write_job) : sd_write_job :=
  SdWriteJob fd (job_data j) (sd_error j) (job_done j) (sem_job_ready j)
    (sem_job_done j) (job_stop j) (s_sd_task_handle j).

(** A semaphore operation on a handle that may be NULL. *)
Definition on_sem (f : Z -> cmd unit) (o : option Z) : M sd_write_job unit :=
  match o with Some h => call_ (f h) | None => halt ExMisuse end.

Definition start_sd_writer_task : M sd_write_job bool :=
  r <- call SemCreateBinary ;;
  update_job (fun j => set_sems r (sem_job_done j) j) ;;
  d <- call SemCreateBinary ;;
  update_job (fun j => set_sems (sem_job_ready j) d j) ;;
  update_job (set_flags false true false) ;;
  if negb (is_some r) || negb (is_some d) then ret false else
  ok <- call (TaskCreatePinned "sd_writer" 4096 5 1) ;;
  if negb ok then ret false else
  update_job (set_handle true) ;;
  ret true.

Definition delete_sem (o : option Z) : M sd_write_job unit :=
  match o with Some h => call_ (SemDelete h) | None => ret tt end.

Definition stop_sd_writer_task : M sd_write_job unit :=
  g <- get ;;
  when (s_sd_task_handle g)
    (update_job (fun j => set_flags (sd_error j) (job_done j) true j) ;;
     on_sem SemGive (sem_job_ready g) ;;
     call_ (VTaskDelay 100) ;;
     update_job (set_handle false)) ;;
  g' <- get ;;
  delete_sem (sem_job_ready g') ;; update_job (fun j => set_sems None (sem_job_done j) j) ;;
  delete_sem (sem_job_done g') ;; update_job (fun j => set_sems (sem_job_ready j) None j).
End Writer.

(** ** Specification *)

(** The heap blocks live after a trace are the two buffers. *)
Definition bufs_inv (g : pp_bufs) (tr : list event) : Prop :=
  owns heap_rop tr (opt_list (s_buf0 g) ++ opt_list (s_buf1 g)).

(** Both buffers are there and have one of the capacities, or neither is. *)
Definition bufs_wf (g : pp_bufs) : Prop :=
  match s_buf0 g, s_buf1 g with
  | Some _, Some _ => In (s_buf_capacity g) try_halves
  | None, None => True
  | _, _ => False
  end.

(** The semaphores live after a trace are the job's, and a running task has
    both. *)
Definition job_inv (j : sd_write_job) (tr : list event) : Prop :=
  owns sem_rop tr (opt_list (sem_job_ready j) ++ opt_list (sem_job_done j)) /\
  (s_sd_task_handle j = true -> is_some (sem_job_ready j) = true /\ is_some (sem_job_done j) = true).

Section Facts.
Context `{Env}.

Lemma wp_free_buf {A} o hs (k : M pp_bufs A) Q s :
  owns heap_rop (trace s) (opt_list o ++ hs) ->
  (forall s', glob s' = glob s -> owns heap_rop (trace s') hs -> wp k Q s') ->
  wp (free_buf o ;; k) Q s.
Proof.
  intros Ho Hk. apply wp_bind. destruct o as [p|]; [|apply wp_ret; by apply Hk].
  apply wp_call_. intros r w' _. apply Hk; [done|]. by eapply owns_release.
Qed.

Lemma wp_try_alloc halves s :
  s_buf0 (glob s) = None -> s_buf1 (glob s) = None -> owns heap_rop (trace s) [] ->
  incl halves try_halves ->
  wp (try_alloc halves) (fun o s' => o = Ret tt /\
    bufs_wf (glob s') /\ bufs_inv (glob s') (trace s')) s.
Proof.
  revert s. induction halves as [|half l IH]; intros s H0 H1 Ho Hi; cbn [try_alloc].
  { apply wp_ret. unfold bufs_wf, bufs_inv. by rewrite H0, H1. }
  apply wp_bind, wp_call. intros a w1 _. apply wp_bind, wp_call. intros b w2 _.
  apply wp_bind, wp_modify. cbn [glob wld trace].
  set (tr := Ev (HeapMallocPsram half) b :: Ev (HeapMallocPsram half) a :: trace s).
  assert (Hab : owns heap_rop tr (opt_list a ++ opt_list b)).
  { rewrite Permutation_app_comm. eapply owns_acquire; [reflexivity|].
    rewrite <- (app_nil_r (opt_list a)). by eapply owns_acquire. }
  destruct (is_some a && is_some b) eqn:E.
  - apply wp_modify. split_and!; [done| |done].
    destruct a, b; try done. apply Hi. by left.
  - apply (wp_free_buf a (opt_list b)); [done|]. intros s1 G1 O1. apply wp_bind, wp_modify.
    apply (wp_free_buf b []); [by rewrite app_nil_r|]. intros s2 G2 O2. apply wp_bind, wp_modify.
    apply IH; cbn; [rewrite G2|..|done|intros x Hx; apply Hi; by right]; try done.
Qed.

Lemma wp_ensure_buffers s :
  bufs_wf (glob s) -> bufs_inv (glob s) (trace s) ->
  wp ensure_pingpong_buffers (fun o s' => o = Ret tt /\
    bufs_wf (glob s') /\ bufs_inv (glob s') (trace s')) s.
Proof.
  intros Hw Hi. apply wp_bind, wp_get. unfold bufs_wf, bufs_inv in Hw, Hi.
  destruct (s_buf0 (glob s)) as [a|] eqn:E0.
  - apply wp_ret. unfold bufs_wf, bufs_inv. by rewrite E0.
  - destruct (s_buf1 (glob s)) eqn:E1; [done|]. apply wp_try_alloc; [done|done|done|].
    by intros x Hx.
Qed.

Lemma wp_free_buffers s :
  bufs_inv (glob s) (trace s) ->
  wp free_pingpong_buffers (fun o s' => o = Ret tt /\ glob s' = pp_init /\
    owns heap_rop (trace s') []) s.
Proof.
  intros Hi. apply wp_bind, wp_get.
  apply (wp_free_buf _ (opt_list (s_buf1 (glob s)))); [exact Hi|]. intros s1 G1 O1.
  apply wp_bind, wp_modify, wp_bind, wp_get. cbn [glob s_buf1].
  apply (wp_free_buf _ []); [by rewrite app_nil_r, G1|]. intros s2 G2 O2.
  apply wp_bind, wp_modify, wp_modify. split_and!; [done| |done]. cbn. by rewrite G2.
Qed.

(** ** The job *)

Lemma with_stream_twice fd a b g : with_stream fd a (with_stream fd b g) = with_stream fd a g.
Proof. unfold with_stream. simpl. by rewrite insert_insert_eq. Qed.

Definition push (st : stream) (bs : list ascii) : stream :=
  Stream (st_path st) (st_pos st) (st_pending st ++ bs).

Lemma push_push st a b : push (push st a) b = push st (a ++ b).
Proof. unfold push. simpl. by rewrite app_assoc. Qed.

Lemma push_nil st : push st [] = st.
Proof. unfold push. rewrite app_nil_r. by destruct st. Qed.

Lemma wp_write_chunk fd st chunk s :
  streams (glob s) !! fd = Some st ->
  wp (write_chunk fd chunk) (fun o s' => exists ok n, o = Ret ok /\ (n <= length chunk)%nat /\
    (ok = true <-> n = length chunk) /\
    glob s' = with_stream fd (push st (take n chunk)) (glob s)) s.
Proof.
  intros Hs. apply wp_bind. eapply wp_fwrite; [exact Hs|]. intros k s1 Hk E1.
  destruct (Nat.eqb_spec k (length chunk)) as [->|Hne].
  { apply wp_ret. exists true, (length chunk). by split_and!. }
  apply wp_bind, wp_call_. intros r w' _. apply wp_bind. eapply wp_fwrite.
  { cbn [glob]. rewrite E1. apply lookup_insert_eq. }
  intros k2 s2 Hk2 E2. cbn [glob] in E2. rewrite E1, with_stream_twice in E2.
  rewrite length_drop in Hk2. apply wp_ret. exists (k + k2 =? length chunk)%nat, (k + k2)%nat.
  split_and!; [done|lia|apply Nat.eqb_eq|]. rewrite E2. f_equal. unfold push. simpl.
  f_equal. rewrite <- app_assoc. f_equal. by rewrite take_take_drop.
Qed.

(** The writer hands every byte to the file, in order, exactly when it reports
    no error; otherwise it stops at a proper prefix. *)
Lemma wp_write_chunks fuel fd st data s :
  (length data <= fuel)%nat -> streams (glob s) !! fd = Some st ->
  wp (write_chunks fuel fd data) (fun o s' => exists err n, o = Ret err /\
    (n <= length data)%nat /\ (err = false <-> n = length data) /\
    glob s' = with_stream fd (push st (take n data)) (glob s)) s.
Proof.
  revert data st s. induction fuel as [|fuel IH]; intros data st s Hf Hs.
  all: destruct data as [|c data]; cbn [write_chunks].
  1,3: apply wp_ret; exists false, O; split_and!; try done;
       rewrite take_nil, push_nil; unfold with_stream; rewrite insert_id by done;
       by destruct (glob s).
  { simpl in Hf. lia. }
  set (d := c :: data) in *.
  assert (Hd : (0 < length (take DRAM_BOUNCE d))%nat).
  { rewrite length_take. unfold DRAM_BOUNCE, d. simpl length. lia. }
  apply wp_bind. eapply wp_mono; [by apply wp_write_chunk|].
  intros o s1 (ok & n & -> & Hn & Hok & E1). rewrite length_take in Hn, Hok, Hd.
  rewrite take_take, Nat.min_l in E1 by lia.
  destruct ok; cbn [negb].
  - destruct Hok as [Hok _]. specialize (Hok eq_refl). subst n.
    apply wp_bind, wp_call_. intros r w' _. eapply wp_mono.
    { apply (IH _ (push st (take (Nat.min DRAM_BOUNCE (length d)) d))).
      - rewrite length_drop. lia.
      - cbn [glob]. rewrite E1. apply lookup_insert_eq. }
    intros o s2 (err & n & -> & Hn2 & Herr & E2). rewrite length_drop in Hn2, Herr.
    cbn [glob] in E2. rewrite E1, with_stream_twice, push_push in E2.
    exists err, (Nat.min DRAM_BOUNCE (length d) + n)%nat. split_and!; [done|lia|rewrite Herr; lia|].
    rewrite E2. f_equal. f_equal.
    destruct (Nat.le_gt_cases (length d) DRAM_BOUNCE).
    + rewrite (drop_ge d) by lia. rewrite take_nil, app_nil_r, !(take_ge d) by lia. done.
    + rewrite Nat.min_l by lia. by rewrite take_take_drop.
  - apply wp_ret. exists true, n. split_and!; [done|lia| |done].
    split; [done|]. intros ->. destruct (Nat.eq_dec (length d) (DRAM_BOUNCE `min` length d)%nat).
    + destruct Hok as [_ Hok]. specialize (Hok e). done.
    + lia.
Qed.

(** ** The task *)

Lemma wp_start_task s :
  sem_job_ready (glob s) = None -> sem_job_done (glob s) = None ->
  s_sd_task_handle (glob s) = false -> job_inv (glob s) (trace s) ->
  wp start_sd_writer_task (fun o s' => exists b, o = Ret b /\
    job_inv (glob s') (trace s') /\ s_sd_task_handle (glob s') = b) s.
Proof.
  intros Hr Hd Hh [Ho _]. rewrite Hr, Hd in Ho.
  apply wp_bind, wp_call. intros r w1 _. apply wp_bind, wp_modify.
  apply wp_bind, wp_call. intros d w2 _. apply wp_bind, wp_modify, wp_bind, wp_modify.
  cbn [glob wld trace].
  set (tr := Ev SemCreateBinary d :: Ev SemCreateBinary r :: trace s).
  assert (Hrd : owns sem_rop tr (opt_list r ++ opt_list d)).
  { rewrite Permutation_app_comm. eapply owns_acquire; [reflexivity|].
    rewrite <- (app_nil_r (opt_list r)). by eapply owns_acquire. }
  destruct (is_some r) eqn:Er, (is_some d) eqn:Ed; cbn [negb orb];
    try (apply wp_ret; exists false; split_and!; [done|by split; cbn; [|congruence]|done]).
  apply wp_bind, wp_call. intros ok w3 _.
  assert (Hrd' : forall e, sem_rop e = RNone -> owns sem_rop (e :: tr) (opt_list r ++ opt_list d))
    by (intros; by apply owns_none).
  destruct ok; cbn [negb].
  - apply wp_bind, wp_modify, wp_ret. exists true. split_and!; [done| |done].
    split; [by apply Hrd'|done].
  - apply wp_ret. exists false. split_and!; [done| |done]. split; [by apply Hrd'|].
    cbn. congruence.
Qed.

Lemma wp_delete_sem {A} o hs (k : M sd_write_job A) Q s :
  owns sem_rop (trace s) (opt_list o ++ hs) ->
  (forall s', glob s' = glob s -> owns sem_rop (trace s') hs -> wp k Q s') ->
  wp (delete_sem o ;; k) Q s.
Proof.
  intros Ho Hk. apply wp_bind. destruct o as [p|]; [|apply wp_ret; by apply Hk].
  apply wp_call_. intros r w' _. apply Hk; [done|]. by eapply owns_release.
Qed.

Lemma wp_stop_task s :
  job_inv (glob s) (trace s) ->
  wp stop_sd_writer_task (fun o s' => o = Ret tt /\
    sem_job_ready (glob s') = None /\ sem_job_done (glob s') = None /\
    s_sd_task_handle (glob s') = false /\ owns sem_rop (trace s') []) s.
Proof.
  intros [Ho Hh]. apply wp_bind, wp_get, wp_bind.
  apply (wp_mono _ (fun o s' => o = Ret tt /\ s_sd_task_handle (glob s') = false /\
    owns sem_rop (trace s') (opt_list (sem_job_ready (glob s')) ++ opt_list (sem_job_done (glob s'))))).
  { apply wp_when; intros E; [|by split_and!]. destruct (Hh E) as [Hr _].
    destruct (sem_job_ready (glob s)) as [r|] eqn:Er; [|done].
    apply wp_bind, wp_modify, wp_bind, wp_call_. intros u w' _.
    apply wp_bind, wp_call_. intros v w2 _. apply wp_modify. split_and!; [done|done|].
    cbn. rewrite Er. apply owns_none; [done|]. by eapply owns_use; [|left|]. }
  intros o s1 (-> & H1 & O1). apply wp_bind, wp_get.
  apply (wp_delete_sem _ (opt_list (sem_job_done (glob s1)))); [done|]. intros s2 G2 O2.
  apply wp_bind, wp_modify.
  apply (wp_delete_sem _ []); [by rewrite app_nil_r|]. intros s3 G3 O3. apply wp_modify.
  cbn [glob trace] in *. rewrite G3. cbn. by rewrite G2.
Qed.
End Facts.
