(* ===== verification/Download.v ===== *)
(** * The folder download: [simibox_download.cpp]

    [update_led_progress], [download_file_standalone],
    [verify_download_integrity] and [download_simi_folder], over the components
    they use.  The writer task is run at the moment its semaphore is given (see
    [PingPong] for the interleavings); time measurements and log lines are left
    out. *)

From Stdlib Require Import SpecFloat.
From stdpp Require Import gmap strings.
From S2P Require Import Prelude Idf Logic CLib Protocol CFloat Led Posix FileHelpers SdCard.
From S2P Require Import HttpPool Writer.
#[local] Open Scope Z_scope.

(** ** cJSON *)

(** The JSON library (a component of ESP-IDF): the parser and the accessors the
    sources call.  A missing item is the NULL pointer, [None]. *)
Class CJson := {
  json : Type;
  cJSON_Parse : string -> option json;
  cJSON_IsArray : json -> bool;
  json_items : json -> list json;               (** [cJSON_ArrayForEach] *)
  cJSON_GetObjectItem : json -> string -> option json;
  json_string : json -> option string;          (** [valuestring], if a string *)
  json_number : json -> option float64          (** [valuedouble], if a number *)
}.

(** [cJSON_IsString(item)], with its [valuestring], on a pointer that may be NULL. *)
Definition item_string `{CJson} (o : option json) : option string :=
  match o with Some j => json_string j | None => None end.
Definition item_number `{CJson} (o : option json) : option float64 :=
  match o with Some j => json_number j | None => None end.

(** ** State *)

Record dl_g := DlG {
  led : led_g;
  sd : sd_g;
  http : pool;
  bufs : pp_bufs;
  job : sd_write_job;
  s_total_expected_bytes : Z;
  s_total_downloaded_bytes : Z
}.

Definition led_lens : lens dl_g led_g := Lens led (fun x g =>
  DlG x (sd g) (http g) (bufs g) (job g) (s_total_expected_bytes g) (s_total_downloaded_bytes g)).
Definition sd_lens : lens dl_g sd_g := Lens sd (fun x g =>
  DlG (led g) x (http g) (bufs g) (job g) (s_total_expected_bytes g) (s_total_downloaded_bytes g)).
Definition http_lens : lens dl_g pool := Lens http (fun x g =>
  DlG (led g) (sd g) x (bufs g) (job g) (s_total_expected_bytes g) (s_total_downloaded_bytes g)).
Definition bufs_lens : lens dl_g pp_bufs := Lens bufs (fun x g =>
  DlG (led g) (sd g) (http g) x (job g) (s_total_expected_bytes g) (s_total_downloaded_bytes g)).
Definition job_lens : lens dl_g sd_write_job := Lens job (fun x g =>
  DlG (led g) (sd g) (http g) (bufs g) x (s_total_expected_bytes g) (s_total_downloaded_bytes g)).
Definition dfs_lens : lens dl_g posix := lens_comp sd_lens fs_lens.

Inductive DlResult := OK | SD_FAILED | NET_FAILED | OTHER_FAILED.

Definition is_sd_failed (r : DlResult) : bool := match r with SD_FAILED => true | _ => false end.

(** [http_event_list_handler] on one [HTTP_EVENT_ON_DATA]. *)
Definition http_event_list_handler (body : string) (ev : bool * string) : string :=
  let '(chunked, data) := ev in if (chunked : bool) then body else (body ++ data)%string.

(** [(uint8_t)((downloaded * 100) / expected)], then the clamp. *)
Definition progress_percent_of (downloaded expected : Z) : Z :=
  let percent := u8 (Z.quot (downloaded * 100) expected) in
  if 100 <? percent then 100 else percent.

Section Download.
Context `{Env, MathLib, CJson}.

Definition set_expected (n : Z) : M dl_g unit := modify (fun g =>
  DlG (led g) (sd g) (http g) (bufs g) (job g) n (s_total_downloaded_bytes g)).
Definition set_downloaded (n : Z) : M dl_g unit := modify (fun g =>
  DlG (led g) (sd g) (http g) (bufs g) (job g) (s_total_expected_bytes g) n).

Definition on_led {A} (m : M led_g A) : M dl_g A := zoom led_lens m.
Definition on_sd {A} (m : M sd_g A) : M dl_g A := zoom sd_lens m.
Definition on_http {A} (m : M pool A) : M dl_g A := zoom http_lens m.
Definition on_bufs {A} (m : M pp_bufs A) : M dl_g A := zoom bufs_lens m.
Definition on_job {A} (m : M sd_write_job A) : M dl_g A := zoom job_lens m.
Definition on_fs {A} (m : M posix A) : M dl_g A := zoom dfs_lens m.

(** The pointer a call dereferences. *)
Definition nonnull {A} (o : option A) : M dl_g A :=
  match o with Some a => ret a | None => halt ExMisuse end.

Definition update_led_progress : M dl_g unit :=
  g <- get ;;
  when (0 <? s_total_expected_bytes g)
    (if negb (in_int64 (s_total_downloaded_bytes g * 100)) then halt ExUndefined else
     on_led (led_show_download_progress
       (progress_percent_of (s_total_downloaded_bytes g) (s_total_expected_bytes g)))) ;;
  on_led led_update.

(** ** Connecting *)

(** The attempts of the connection loop still to run; [client] and [clen] are
    the variables of the function, and [None] is [return NET_FAILED]. *)
Fixpoint http_connect (url : string) (attempts : list nat) (client : option Z) (clen : Z)
  : M dl_g (option (option Z * Z)) :=
  match attempts with
  | [] => ret (Some (client, clen))
  | attempt :: attempts' =>
      client <- on_http (get_http_client url) ;;
      match client with
      | None => ret None
      | Some c =>
          err <- call (HttpOpen c) ;;
          if negb (is_ok err) then
            on_http (release_http_client c true) ;;
            if (attempt =? 0)%nat then http_connect url attempts' (Some c) clen else ret None
          else
            clen <- call (HttpFetchHeaders c) ;;
            status <- call (HttpGetStatusCode c) ;;
            if status =? 200 then ret (Some (Some c, clen)) else
            on_http (release_http_client c true) ;;
            if (status <=? 0) && (attempt =? 0)%nat
            then http_connect url attempts' (Some c) clen
            else ret None
      end
  end.

(** ** The ping-pong loop *)

(** PHASE 1: fill one buffer.  The result is its contents, [total], and
    [net_error].  A read brings at most as many bytes as were asked for. *)
Fixpoint fill_buffer (fuel : nat) (client : Z) (cap : Z) (filled : list ascii) (total : Z)
  : M dl_g (list ascii * Z * bool) :=
  if cap <=? Z.of_nat (length filled) then ret (filled, total, false) else
  match fuel with
  | O => halt ExFuel
  | S fuel' =>
      r <- call (HttpRead client (cap - Z.of_nat (length filled))) ;;
      match r with
      | ReadErr => ret (filled, total, true)
      | ReadData bs =>
          let bs := take (Z.to_nat (cap - Z.of_nat (length filled))) bs in
          let n := Z.of_nat (length bs) in
          if n =? 0 then ret (filled, total, false) else
          g <- get ;;
          if negb (in_int (total + n)) || negb (in_int64 (s_total_downloaded_bytes g + n))
          then halt ExUndefined else
          set_downloaded (s_total_downloaded_bytes g + n) ;;
          update_led_progress ;;
          fill_buffer fuel' client cap (filled ++ bs) (total + n)
      end
  end.

(** The writer task from [xSemaphoreTake(sem_job_ready)] to
    [xSemaphoreGive(sem_job_done)]. *)
Definition run_writer : M dl_g unit :=
  g <- get ;;
  on_job (on_sem SemTake (sem_job_ready (job g))) ;;
  error <- on_fs (write_job (job_file (job g)) (job_data (job g))) ;;
  on_job (update_job (fun j => set_flags error true (job_stop j) j)) ;;
  on_job (on_sem SemGive (sem_job_done (job g))).

(** KICK OFF, with the writer running at once. *)
Definition kick_writer (data : list ascii) : M dl_g unit :=
  g <- get ;;
  on_job (update_job (set_job_data data)) ;;
  on_job (update_job (fun j => set_flags false false (job_stop j) j)) ;;
  on_job (on_sem SemGive (sem_job_ready (job g))) ;;
  run_writer.

(** Wait for the pending write; the result is [s_sd_job.sd_error]. *)
Definition await_writer : M dl_g bool :=
  g <- get ;;
  on_job (on_sem SemTake (sem_job_done (job g))) ;;
  g' <- get ;;
  ret (sd_error (job g')).

(** The result of the loop: [total], [net_error], [sd_error],
    [sd_write_pending]. *)
Record pp_result := PpResult {
  r_total : Z;
  r_net_error : bool;
  r_sd_error : bool;
  r_pending : bool
}.

Definition pp_round (k : M dl_g pp_result) (data : list ascii) (cap total : Z) : M dl_g pp_result :=
  kick_writer data ;;
  if Z.of_nat (length data) <? cap then ret (PpResult total false false true) else k.

Fixpoint pp_loop (fuel : nat) (client : Z) (pending : bool) (total : Z) : M dl_g pp_result :=
  match fuel with
  | O => halt ExFuel
  | S fuel' =>
      g <- get ;;
      let cap := s_buf_capacity (bufs g) in
      let! (data, total, net_error) := fill_buffer (Z.to_nat cap) client cap [] total in
      if (net_error : bool) || (length data =? 0)%nat
      then ret (PpResult total net_error false pending) else
      if (pending : bool) then
        err <- await_writer ;;
        if (err : bool) then ret (PpResult total false true false)
        else pp_round (pp_loop fuel' client true total) data cap total
      else pp_round (pp_loop fuel' client true total) data cap total
  end.

(** ** One file *)

(** From the wait for the final write to the return; [fsync] has nothing left to
    do here, since what [fflush] drains is on the card. *)
Definition finish_file (client : Z) (f : Z) (out_part out_path : string) (clen : Z)
    (r : pp_result) : M dl_g DlResult :=
  err <- (if r_pending r then await_writer else ret false) ;;
  let sd_error := r_sd_error r || err in
  on_http (release_http_client client (sd_error || r_net_error r)) ;;
  if (sd_error : bool) then
    on_fs (fclose f) ;;
    ret SD_FAILED
  else if r_net_error r then
    on_fs (fflush f) ;;
    on_fs (fclose f) ;;
    _ <- on_fs (unlink out_part) ;;
    ret NET_FAILED
  else
    on_fs (fflush f) ;;
    on_fs (fclose f) ;;
    if ((0 <? clen) && negb (r_total r =? clen)) || (r_total r =? 0) then
      _ <- on_fs (unlink out_part) ;;
      ret OTHER_FAILED
    else
      ok <- on_fs (rename out_part out_path) ;;
      if negb ok then
        _ <- on_fs (unlink out_part) ;;
        ret SD_FAILED
      else
        update_led_progress ;;
        ret OK.

Definition download_file_standalone (fuel : nat) (url out_path : string) : M dl_g DlResult :=
  let out_part := (out_path ++ ".part")%string in
  conn <- http_connect url [0; 1]%nat None 0 ;;
  match conn with
  | None => ret NET_FAILED
  | Some (client, clen) =>
      on_bufs ensure_pingpong_buffers ;;
      g <- get ;;
      if negb (is_some (s_buf0 (bufs g))) || negb (is_some (s_buf1 (bufs g))) then
        c <- nonnull client ;;
        on_http (release_http_client c true) ;;
        ret OTHER_FAILED
      else
        f <- on_fs (fopen_w out_part) ;;
        match f with
        | None =>
            c <- nonnull client ;;
            on_http (release_http_client c true) ;;
            ret SD_FAILED
        | Some f =>
            started <- (if s_sd_task_handle (job g) then ret true
                        else on_job start_sd_writer_task) ;;
            if negb started then
              on_fs (fclose f) ;;
              c <- nonnull client ;;
              on_http (release_http_client c true) ;;
              ret OTHER_FAILED
            else
              on_job (update_job (set_job_file f)) ;;
              c <- nonnull client ;;
              r <- pp_loop fuel c false 0 ;;
              finish_file c f out_part out_path clen r
        end
  end.

(** ** Verification *)

(** The body of the loop over the manifest's [files]; the result is whether the
    entry is acceptable. *)
Definition verify_entry (folder_abs_path : string) (item : json) : M posix bool :=
  match item_string (cJSON_GetObjectItem item "name"),
        item_number (cJSON_GetObjectItem item "size") with
  | Some filename, Some valuedouble =>
      match sf_to_size_t valuedouble with
      | None => halt ExUndefined
      | Some expected_size =>
          r <- file_size_bytes (join folder_abs_path filename) ;;
          ret (match r with
               | None => false
               | Some actual_size => actual_size =? expected_size
               end)
      end
  | _, _ => ret true
  end.

Fixpoint verify_entries (folder_abs_path : string) (items : list json) (all_ok : bool)
  : M posix bool :=
  match items with
  | [] => ret all_ok
  | item :: items' =>
      ok <- verify_entry folder_abs_path item ;;
      verify_entries folder_abs_path items' (all_ok && ok)
  end.

Definition verify_download_integrity (folder_abs_path : string) : M posix bool :=
  content <- read_text_file (join folder_abs_path "manifest.json") ;;
  match content with
  | None => ret false
  | Some bs =>
      match cJSON_Parse (cstr bs) with
      | None => ret false
      | Some root =>
          match cJSON_GetObjectItem root "files" with
          | Some files_array =>
              if cJSON_IsArray files_array
              then verify_entries folder_abs_path (json_items files_array) true
              else ret false
          | None => ret false
          end
      end
  end.

(** ** The folder *)

(** One item of the list: the entry to download, and its size if it has one. *)
Definition list_entry (item : json) : option (string * string * option float64) :=
  match item_string (cJSON_GetObjectItem item "filename"),
        item_string (cJSON_GetObjectItem item "url") with
  | Some filename, Some furl =>
      Some (filename, furl, item_number (cJSON_GetObjectItem item "size"))
  | _, _ => None
  end.

(** The loop over the items, adding up the announced sizes. *)
Fixpoint collect_files (items : list json) : M dl_g (list (string * string)) :=
  match items with
  | [] => ret []
  | item :: items' =>
      match list_entry item with
      | None => collect_files items'
      | Some (filename, furl, fsize) =>
          match fsize with
          | None => ret tt
          | Some d =>
              match sf_to_int64 d with
              | None => halt ExUndefined
              | Some n =>
                  g <- get ;;
                  if in_int64 (s_total_expected_bytes g + n)
                  then set_expected (s_total_expected_bytes g + n) else halt ExUndefined
              end
          end ;;
          rest <- collect_files items' ;;
          ret ((filename, furl) :: rest)
      end
  end.

(** 1) Fetch the file list; [None] is [return false]. *)
Definition fetch_list (lambda_url folder : string) : M dl_g (option (list (string * string))) :=
  client <- call (HttpInit (lambda_url ++ "/?folder=" ++ folder)) ;;
  match client with
  | None => ret None
  | Some c =>
      let! (err, data) := call (HttpPerform c) in
      let body := fold_left http_event_list_handler data EmptyString in
      call_ (HttpCleanup c) ;;
      if negb (is_ok err) then ret None else
      match cJSON_Parse (cstr (chars body)) with
      | None => ret None
      | Some root =>
          if negb (cJSON_IsArray root) then ret None else
          file_list <- collect_files (json_items root) ;;
          if negb (existsb (fun it => strcmp_eq (fst it) "manifest.json") file_list)
          then ret None
          else
            g <- get ;;
            when (s_total_expected_bytes g =? 0)
              (set_expected (u32 (u32 (u32 (Z.of_nat (length file_list) * 2) * 1024) * 1024))) ;;
            ret (Some file_list)
      end
  end.

(** 3) The retry loop of one file: the SD clock steps down while the card
    fails. *)
Fixpoint retry_file (steps fuel : nat) (url out_final : string) (result : DlResult)
  : M dl_g DlResult :=
  if negb (is_sd_failed result) then ret result else
  g <- get ;;
  let lower := sd_next_lower_freq (s_sd_freq_khz (sd g)) in
  if lower <? 0 then ret result else
  ok <- on_sd (set_sd_freq lower) ;;
  if negb ok then ret result else
  on_sd (set_s_sd_freq_khz lower) ;;
  _ <- on_fs (unlink (out_final ++ ".part")) ;;
  call_ (VTaskDelay 150) ;;
  match steps with
  | O => halt ExFuel
  | S steps' =>
      result' <- download_file_standalone fuel url out_final ;;
      retry_file steps' fuel url out_final result'
  end.

(** The files in order, until one fails; the last failure, if any. *)
Fixpoint download_files (fuel : nat) (tmp_dir : string) (l : list (string * string))
  : M dl_g DlResult :=
  match l with
  | [] => ret OK
  | (name, url) :: l' =>
      update_led_progress ;;
      let out_final := join tmp_dir name in
      r0 <- download_file_standalone fuel url out_final ;;
      r <- retry_file 3 fuel url out_final r0 ;;
      match r with
      | OK => _ <- on_fs (stat out_final) ;; download_files fuel tmp_dir l'
      | _ => ret r
      end
  end.

(** 2) A fresh temporary directory. *)
Definition prepare_tmp (tree_fuel : nat) (tmp_dir : string) : M dl_g bool :=
  st <- on_fs (stat tmp_dir) ;;
  when (is_some st) (on_fs (delete_tree tree_fuel tmp_dir)) ;;
  on_fs (mkdir tmp_dir).

(** 4) to 6): verify, swap, mark. *)
Definition finalize (tree_fuel : nat) (tmp_dir final_dir : string) : M dl_g bool :=
  verified <- on_fs (verify_download_integrity tmp_dir) ;;
  if negb verified then on_fs (delete_tree tree_fuel tmp_dir) ;; ret false else
  st <- on_fs (stat final_dir) ;;
  when (is_some st) (on_fs (delete_tree tree_fuel final_dir)) ;;
  ok <- on_fs (rename tmp_dir final_dir) ;;
  if negb ok then on_fs (delete_tree tree_fuel tmp_dir) ;; ret false else
  on_fs (write_marker (join final_dir ".ok") (String.append "OK" (String "010" "")) false) ;;
  ret true.

(** The result, and what was stored through [out_sd_failed] ([None]: nothing).
    [fuel] bounds the rounds of the ping-pong loop, [tree_fuel] the depth of a
    directory tree. *)
Definition download_simi_folder (fuel tree_fuel : nat) (folder lambda_url : string)
  : M dl_g (bool * option bool) :=
  set_expected 0 ;;
  set_downloaded 0 ;;
  on_led (led_show_download_progress 0) ;;
  on_led led_update ;;
  l <- fetch_list lambda_url folder ;;
  match l with
  | None => ret (false, None)
  | Some file_list =>
      let final_dir := ("/sdcard/" ++ folder)%string in
      let tmp_dir := (final_dir ++ ".tmp")%string in
      ready <- prepare_tmp tree_fuel tmp_dir ;;
      if negb ready then ret (false, None) else
      result <- download_files fuel tmp_dir file_list ;;
      on_http cleanup_http_pool ;;
      on_job stop_sd_writer_task ;;
      on_bufs free_pingpong_buffers ;;
      match result with
      | OK =>
          on_led (led_show_download_progress 100) ;;
          on_led led_update ;;
          call_ (VTaskDelay 200) ;;
          ok <- finalize tree_fuel tmp_dir final_dir ;;
          ret (ok, if ok then Some false else None)
      | _ =>
          when (negb (is_sd_failed result)) (on_fs (delete_tree tree_fuel tmp_dir)) ;;
          ret (false, Some (is_sd_failed result))
      end
  end.
End Download.

(** ** What the download calls *)

(** Every class of calls the download makes: in particular no NVS call, no WiFi
    call and none that concerns the boot partition. *)
Definition download_classes : list cls :=
  [CLedc; CMutex; CTask; CSem; CDelay; CSd; CHeap; CHttp; CRecv; CIo].

Section Uses.
Context `{Env, MathLib, CJson}.

Lemma uses_write_job fd data : uses [CIo; CDelay] (write_job fd data).
Proof.
  unfold write_job. generalize (length data) as n. intros n. revert data.
  induction n as [|n IH]; intros [|a data]; cbn [write_chunks]; unfold write_chunk; uses_auto.
Qed.

Lemma uses_show_progress n : uses [] (led_show_download_progress n).
Proof. apply (uses_setters n). Qed.
#[local] Hint Resolve uses_write_job uses_show_progress : uses.

Lemma uses_progress : uses [CLedc; CMutex; CTask] update_led_progress.
Proof. unfold update_led_progress, on_led. uses_auto. Qed.
#[local] Hint Resolve uses_progress : uses.

Lemma uses_get_client url : uses [CHttp] (get_http_client url).
Proof. apply (uses_pool url 0 true). Qed.

Lemma uses_release_client c force : uses [CHttp] (release_http_client c force).
Proof. apply (uses_pool EmptyString c force). Qed.

Lemma uses_cleanup_pool : uses [CHttp] cleanup_http_pool.
Proof. apply (uses_pool EmptyString 0 true). Qed.
#[local] Hint Resolve uses_get_client uses_release_client uses_cleanup_pool : uses.

Lemma uses_buffers : uses [CHeap] ensure_pingpong_buffers /\ uses [CHeap] free_pingpong_buffers.
Proof.
  assert (Hf : forall o, uses [CHeap] (free_buf o)) by (intros []; unfold free_buf; uses_auto).
  assert (Ht : forall l, uses [CHeap] (try_alloc l))
    by (induction l; cbn [try_alloc]; uses_auto).
  split; unfold ensure_pingpong_buffers, free_pingpong_buffers; uses_auto.
Qed.

Lemma uses_on_sem (fc : Z -> cmd unit) o :
  (forall h, class_of (fc h) = CSem) -> uses [CSem] (on_sem fc o).
Proof.
  intros Hc. destruct o; [|apply uses_halt]. apply uses_call_. rewrite Hc. left.
Qed.

Lemma uses_task : uses [CSem; CTask] start_sd_writer_task /\
  uses [CSem; CTask; CDelay] stop_sd_writer_task.
Proof.
  assert (Hu : forall f cs, uses cs (update_job f)) by (intros; apply uses_modify).
  assert (Hd : forall o, uses [CSem] (delete_sem o)) by (intros []; unfold delete_sem; uses_auto).
  assert (Hg : forall o, uses [CSem] (on_sem SemGive o)) by (intros; by apply uses_on_sem).
  split; unfold start_sd_writer_task, stop_sd_writer_task; uses_auto.
Qed.

Lemma uses_http_connect url attempts client clen :
  uses [CHttp; CRecv] (http_connect url attempts client clen).
Proof.
  revert client clen. induction attempts; intros; cbn [http_connect]; unfold on_http; uses_auto.
Qed.
#[local] Hint Resolve uses_http_connect : uses.

Lemma uses_kick data : uses download_classes (kick_writer data).
Proof.
  assert (Hu : forall f cs, uses cs (update_job f)) by (intros; apply uses_modify).
  assert (Hg : forall o, uses [CSem] (on_sem SemGive o)) by (intros; by apply uses_on_sem).
  assert (Ht : forall o, uses [CSem] (on_sem SemTake o)) by (intros; by apply uses_on_sem).
  unfold kick_writer, run_writer, on_job, on_fs. uses_auto.
Qed.

Lemma uses_await : uses download_classes await_writer.
Proof.
  assert (Ht : forall o, uses [CSem] (on_sem SemTake o)) by (intros; by apply uses_on_sem).
  unfold await_writer, on_job. uses_auto.
Qed.
#[local] Hint Resolve uses_kick uses_await : uses.

Lemma uses_fill fuel c cap filled total : uses download_classes (fill_buffer fuel c cap filled total).
Proof.
  revert filled total. induction fuel; intros; cbn [fill_buffer]; cbv zeta; unfold set_downloaded;
    uses_auto.
Qed.
#[local] Hint Resolve uses_fill : uses.

Lemma uses_pp_loop fuel c pending total : uses download_classes (pp_loop fuel c pending total).
Proof.
  revert pending total. induction fuel; intros; cbn [pp_loop]; cbv zeta; unfold pp_round; uses_auto.
Qed.
#[local] Hint Resolve uses_pp_loop : uses.

Lemma uses_finish c f part out clen r : uses download_classes (finish_file c f part out clen r).
Proof. unfold finish_file, on_http, on_fs. cbv zeta. uses_auto. Qed.
#[local] Hint Resolve uses_finish : uses.

Lemma uses_file fuel url out : uses download_classes (download_file_standalone fuel url out).
Proof.
  destruct uses_buffers as [He _]. destruct uses_task as [Ht _].
  assert (Hu : forall f cs, uses cs (update_job f)) by (intros; apply uses_modify).
  assert (Hn : forall (o : option Z) cs, uses cs (nonnull o))
    by (intros []; [intros; apply uses_ret|intros; apply uses_halt]).
  unfold download_file_standalone, on_bufs, on_fs, on_http, on_job. cbv zeta. uses_auto.
Qed.
End Uses.
#[export] Hint Resolve uses_write_job uses_show_progress uses_progress uses_get_client
  uses_release_client uses_cleanup_pool uses_http_connect uses_kick uses_await uses_fill
  uses_pp_loop uses_finish uses_file : uses.
