(* ===== verification/DownloadFile.v ===== *)
(** * Theorems on the download of one file

    What [download_file_standalone] leaves behind on every path: the handles it
    owns, the bytes it put in the file, and why it ends. *)

From Stdlib Require Import Permutation.
From stdpp Require Import gmap strings.
From S2P Require Import Prelude Idf Logic CLib Protocol CFloat Led Posix FileHelpers SdCard.
From S2P Require Import Resources HttpPool Writer Download TestEnv.
#[local] Open Scope Z_scope.

(** ** What the network delivered *)

Definition http_recv (e : event) : list ascii :=
  match e with Ev c r =>
    match c in cmd X return X -> list ascii with
    | HttpRead _ len => fun r =>
        match r with ReadData bs => take (Z.to_nat len) bs | ReadErr => [] end
    | _ => fun _ => []
    end r
  end.

(** All bytes read from the network in a trace, in order. *)
Definition received (tr : list event) : list ascii :=
  fold_right (fun e acc => acc ++ http_recv e) [] tr.

Lemma received_cons e tr : received (e :: tr) = received tr ++ http_recv e.
Proof. reflexivity. Qed.

(** The status and the length the server announced last. *)
Definition http_answer (e : event) (a : option Z * option Z) : option Z * option Z :=
  match e with Ev c r =>
    match c in cmd X return X -> option Z * option Z with
    | HttpGetStatusCode _ => fun status => (Some status, snd a)
    | HttpFetchHeaders _ => fun len => (fst a, Some len)
    | _ => fun _ => a
    end r
  end.

Definition answer (tr : list event) : option Z * option Z :=
  fold_right http_answer (None, None) tr.

Lemma answer_cons e tr : answer (e :: tr) = http_answer e (answer tr).
Proof. reflexivity. Qed.

(** ** Traces that only involve other devices *)

(** Nothing was acquired, released or received in between. *)
Record still (tr tr' : list event) : Prop := {
  still_http hs : owns http_rop tr hs -> owns http_rop tr' hs;
  still_heap hs : owns heap_rop tr hs -> owns heap_rop tr' hs;
  still_sem hs : owns sem_rop tr hs -> owns sem_rop tr' hs;
  still_recv : received tr' = received tr;
  still_answer : answer tr' = answer tr
}.

#[export] Instance still_PreOrder : PreOrder still.
Proof.
  split; [by split|]. intros a b c [] []. split; auto; congruence.
Qed.

Definition other_device (cs : list cls) : bool :=
  negb (cls_mem CHttp cs) && negb (cls_mem CRecv cs) && negb (cls_mem CHeap cs) &&
  negb (cls_mem CSem cs).

(** ** The handles of the download *)

(** Every client, heap block and semaphore that is live is the one the globals
    hold, and nothing was used after it was released. *)
Record dl_owns (g : dl_g) (tr : list event) : Prop := {
  own_http : pool_inv (http g) tr;
  own_heap : bufs_inv (bufs g) tr;
  own_wf : bufs_wf (bufs g);
  own_sem : job_inv (job g) tr
}.

(** No writer task means no semaphores: [start_sd_writer_task] may be called. *)
Definition job_ready (j : sd_write_job) : Prop :=
  s_sd_task_handle j = false -> sem_job_ready j = None /\ sem_job_done j = None.

Section Still.
Context `{Env}.

(** Nothing comes from the server but through the calls of class [CRecv]. *)
Lemma received_uses {G A} cs (m : M G A) s :
  uses cs m -> cls_mem CRecv cs = false ->
  received (trace (snd (m s))) = received (trace s) /\
  answer (trace (snd (m s))) = answer (trace s).
Proof.
  intros Hm Hc. unfold cls_mem in Hc. apply bool_decide_eq_false in Hc.
  apply (Hm (fun a b => received b.2 = received a.2 /\ answer b.2 = answer a.2)).
  split; [split; [done|]|].
  - intros ??? [] []. split; congruence.
  - intros X c w tr r w' Hin _. cbn [snd]. rewrite received_cons, answer_cons.
    destruct c; try (by rewrite app_nil_r); simpl in Hin; contradiction.
Qed.

Lemma still_uses {G A} cs (m : M G A) s :
  uses cs m -> other_device cs = true -> still (trace s) (trace (snd (m s))).
Proof.
  intros Hm Hc. unfold other_device in Hc. crush_hyps.
  split; try (intros hs; eapply owns_uses;
    [exact Hm|first [by apply rop_class_http|by apply rop_class_heap|by apply rop_class_sem]]).
  all: by eapply received_uses.
Qed.

Lemma wp_still {G A} cs (m : M G A) Q s :
  uses cs m -> other_device cs = true ->
  wp m (fun o s' => still (trace s) (trace s') -> Q o s') s -> wp m Q s.
Proof. intros Hm Hc Hw. apply Hw. by eapply still_uses. Qed.

Lemma dl_owns_still g g' tr tr' :
  dl_owns g tr -> still tr tr' -> http g' = http g -> bufs g' = bufs g -> job g' = job g ->
  dl_owns g' tr'.
Proof.
  intros [Hh Hb Hw [Hs Hj]] [S1 S2 S3 _ _] E1 E2 E3. split.
  - unfold pool_inv. rewrite E1. by apply S1.
  - unfold bufs_inv. rewrite E2. by apply S2.
  - by rewrite E2.
  - split; rewrite E3; [by apply S3|done].
Qed.
End Still.

(** ** The state of a transfer *)

Section Transfer.
Context `{Env, MathLib}.

(** What a transfer into stream [f] does not touch: the tree, the other streams,
    and what the server announced. *)
Definition rest : Type := node * gmap Z stream * (option Z * option Z).
Definition rest_of (f : Z) (g : posix) (tr : list event) : rest :=
  (root g, delete f (streams g), answer tr).

(** Client [c] is connected, the writer runs, the output file [f] is open on
    [p] with [pend] handed to it so far, and the rest is [r0]. *)
Record xfer (c f : Z) (p : path) (pend : list ascii) (r0 : rest) (s : sys dl_g) : Prop := {
  x_owns : dl_owns (glob s) (trace s);
  x_client : s_http_client (http (glob s)) = Some c;
  x_task : s_sd_task_handle (job (glob s)) = true;
  x_file : job_file (job (glob s)) = f;
  x_bufs : In (s_buf_capacity (bufs (glob s))) try_halves;
  x_stream : streams (fs (sd (glob s))) !! f = Some (Stream p 0 pend);
  x_rest : rest_of f (fs (sd (glob s))) (trace s) = r0
}.

Lemma xfer_cap c f p pend r0 s :
  xfer c f p pend r0 s -> 524288 <= s_buf_capacity (bufs (glob s)) <= 1572864.
Proof.
  intros [_ _ _ _ Hb _ _].
  change try_halves with [1572864; 1048576; 524288] in Hb. simpl in Hb. lia.
Qed.

(** A step that concerns the LED, the counters or the card's driver only. *)
Lemma xfer_step c f p pend r0 s s' :
  xfer c f p pend r0 s -> still (trace s) (trace s') ->
  sd (glob s') = sd (glob s) -> http (glob s') = http (glob s) ->
  bufs (glob s') = bufs (glob s) -> job (glob s') = job (glob s) ->
  xfer c f p pend r0 s'.
Proof.
  intros [] Hs E1 E2 E3 E4. split; rewrite ?E1, ?E2, ?E3, ?E4; try done.
  - by eapply dl_owns_still.
  - unfold rest_of. by rewrite (still_answer _ _ Hs).
Qed.

(** Everything but the LED's state and the byte counters. *)
Definition transfer_parts (g : dl_g) : sd_g * pool * pp_bufs * sd_write_job :=
  (sd g, http g, bufs g, job g).
Definition same_parts (g g' : dl_g) : Prop := transfer_parts g' = transfer_parts g.

#[export] Instance same_parts_PreOrder : PreOrder same_parts.
Proof. split; [done|]. intros ???. unfold same_parts. congruence. Qed.

Lemma parts_on_led {A} (m : M led_g A) : moves same_parts (on_led m).
Proof.
  apply (moves_zoom same_parts _ (fun _ _ => True)); [by intros ?|done].
Qed.

Lemma parts_progress : moves same_parts update_led_progress.
Proof.
  pose proof @parts_on_led. unfold update_led_progress. moves_auto.
Qed.

Lemma stops_progress : stops undefined_only update_led_progress.
Proof. unfold update_led_progress, on_led. stops_auto. Qed.

(** Showing the progress concerns nobody else. *)
Lemma wp_progress c f p pend r0 (Q : outcome unit -> sys dl_g -> Prop) s :
  xfer c f p pend r0 s ->
  (forall s', xfer c f p pend r0 s' -> received (trace s') = received (trace s) ->
     bufs (glob s') = bufs (glob s) -> job (glob s') = job (glob s) ->
     Q (Ret tt) s' /\ Q (Halt ExUndefined) s') ->
  wp update_led_progress Q s.
Proof.
  intros Hx HQ. apply (wp_stops _ _ _ _ stops_progress).
  apply (wp_moves same_parts); [apply parts_progress|].
  eapply wp_still; [apply uses_progress|reflexivity|].
  unfold wp. intros Hs Hp Hst. unfold same_parts, transfer_parts in Hp. injection Hp as E1 E2 E3 E4.
  destruct (HQ (snd (update_led_progress s))) as [Q1 Q2].
  { by eapply xfer_step. }
  { apply Hs. }
  { done. }
  { done. }
  destruct (fst (update_led_progress s)) as [[]|x]; [done|]. by rewrite Hst.
Qed.

(** A call on the connected client. *)
Lemma xfer_http {X} (cm : cmd X) r w' c f p pend r0 s :
  xfer c f p pend r0 s -> http_rop (Ev cm r) = RUse c ->
  heap_rop (Ev cm r) = RNone -> sem_rop (Ev cm r) = RNone ->
  (forall a, http_answer (Ev cm r) a = a) ->
  xfer c f p pend r0 (Sys (glob s) w' (Ev cm r :: trace s)).
Proof.
  intros [[Hh Hb Hw [Hs Hj]] Hc Ht Hf Hcap Hst Hr] E1 E2 E3 E4. split; try done.
  2: { cbn [glob trace]. unfold rest_of. by rewrite answer_cons, E4. }
  split; try done.
  - eapply owns_use; [exact E1|cbn; rewrite Hc; by left|exact Hh].
  - by apply owns_none.
  - split; [by apply owns_none|done].
Qed.

Lemma xfer_downloaded n c f p pend r0 s :
  xfer c f p pend r0 s ->
  xfer c f p pend r0
    (Sys (DlG (led (glob s)) (sd (glob s)) (http (glob s)) (bufs (glob s)) (job (glob s))
            (s_total_expected_bytes (glob s)) n) (wld s) (trace s)).
Proof. intros [[] ? ? ? ? ? ?]. by split; [split|..]. Qed.

(** One buffer: what it holds is what the network delivered, it never exceeds
    the capacity, and a short buffer without an error is the end of the body. *)
Lemma wp_fill_buffer fuel c cap filled total f p pend r0 s :
  xfer c f p pend r0 s -> Z.of_nat (length filled) <= cap -> in_int total = true ->
  cap <= Z.of_nat fuel + Z.of_nat (length filled) ->
  wp (fill_buffer fuel c cap filled total) (fun o s' =>
    match o with
    | Ret (data, total', err) => exists new,
        xfer c f p pend r0 s' /\
        bufs (glob s') = bufs (glob s) /\ job (glob s') = job (glob s) /\
        data = filled ++ new /\ total' = total + Z.of_nat (length new) /\
        in_int total' = true /\ Z.of_nat (length data) <= cap /\
        received (trace s') = received (trace s) ++ new
    | Halt x => x = ExUndefined
    end) s.
Proof.
  revert filled total s. induction fuel as [|fuel IH]; intros filled total s Hx Hl Hi Hf;
    cbn [fill_buffer]; destruct (Z.leb_spec cap (Z.of_nat (length filled))) as [Hfull|Hroom].
  1,3: apply wp_ret; exists []; rewrite !app_nil_r; cbn [length]; rewrite Z.add_0_r; by split_and!.
  { lia. }
  apply wp_bind, wp_call. intros r w' _.
  set (len := cap - Z.of_nat (length filled)) in *.
  assert (Hx1 : xfer c f p pend r0 (Sys (glob s) w' (Ev (HttpRead c len) r :: trace s)))
    by (by apply xfer_http).
  destruct r as [|bs].
  { apply wp_ret. exists []. rewrite !app_nil_r. cbn [length]. rewrite Z.add_0_r.
    split_and!; try done. cbn [trace]. by rewrite received_cons, app_nil_r. }
  set (bs' := take (Z.to_nat len) bs).
  assert (Hb : Z.of_nat (length bs') <= len).
  { unfold bs'. rewrite length_take. lia. }
  destruct (Z.eqb_spec (Z.of_nat (length bs')) 0) as [E0|E0].
  { apply wp_ret. exists []. rewrite !app_nil_r. cbn [length]. rewrite Z.add_0_r.
    split_and!; try done. cbn [trace]. rewrite received_cons. simpl. fold bs'.
    destruct bs'; [by rewrite app_nil_r|done]. }
  apply wp_bind, wp_get.
  destruct (in_int (total + Z.of_nat (length bs'))) eqn:Ei; [|by apply wp_halt].
  destruct (in_int64 _); [|by apply wp_halt]. cbn [negb orb].
  apply wp_bind, wp_modify, wp_bind.
  eapply wp_progress; [apply xfer_downloaded; exact Hx1|].
  intros s2 Hx2 R2 B2 J2. split; [|done].
  eapply wp_mono; [apply (IH (filled ++ bs')); [done| |done|]|].
  { rewrite length_app. lia. }
  { rewrite length_app. lia. }
  intros [[[data t'] err]|x] s3; [|done].
  intros (new & Hx3 & B3 & J3 & -> & -> & Hi3 & Hl3 & R3). exists (bs' ++ new).
  split_and!; try done.
  - rewrite B3, B2. done.
  - rewrite J3, J2. done.
  - by rewrite <- app_assoc.
  - rewrite length_app. lia.
  - rewrite R3, R2. cbn [trace]. rewrite received_cons. simpl. fold bs'.
    by rewrite <- app_assoc.
Qed.

(** ** Handing a buffer to the writer *)

(** Giving and taking the job's semaphores. *)
Lemma wp_on_sem (fc : Z -> cmd unit) sel c f p pend r0 (Q : outcome unit -> sys dl_g -> Prop) s :
  (forall h r, sem_rop (Ev (fc h) r) = RUse h /\ http_rop (Ev (fc h) r) = RNone /\
               heap_rop (Ev (fc h) r) = RNone /\ http_recv (Ev (fc h) r) = [] /\
               forall a, http_answer (Ev (fc h) r) a = a) ->
  sel = sem_job_ready (job (glob s)) \/ sel = sem_job_done (job (glob s)) ->
  xfer c f p pend r0 s ->
  (forall s', xfer c f p pend r0 s' -> glob s' = glob s ->
     received (trace s') = received (trace s) -> Q (Ret tt) s') ->
  wp (on_job (on_sem fc sel)) Q s.
Proof.
  intros Hfc Hsel [[Hh Hb Hw [Hs Hj]] Hc Ht Hf Hcap Hst Hr] HQ.
  destruct (Hj Ht) as [S1 S2].
  assert (Hh' : exists h, sel = Some h /\
    In h (opt_list (sem_job_ready (job (glob s))) ++ opt_list (sem_job_done (job (glob s))))).
  { destruct (sem_job_ready (job (glob s))) as [a|], (sem_job_done (job (glob s))) as [b|]; try done.
    destruct Hsel as [-> | ->]; [exists a|exists b]; simpl; tauto. }
  destruct Hh' as (h & -> & Hin). apply wp_zoom, wp_call_. intros r w' _. cbn.
  destruct (Hfc h r) as (E1 & E2 & E3 & E4 & E5).
  assert (Hg : DlG (led (glob s)) (sd (glob s)) (http (glob s)) (bufs (glob s)) (job (glob s))
    (s_total_expected_bytes (glob s)) (s_total_downloaded_bytes (glob s)) = glob s)
    by (by destruct (glob s)).
  rewrite Hg. apply HQ; [|done|cbn [trace]; by rewrite received_cons, E4, app_nil_r].
  split; try done; [|cbn [glob trace]; unfold rest_of; by rewrite answer_cons, E5].
  split; try done; [by apply owns_none|by apply owns_none|].
  split; [|done]. by eapply owns_use.
Qed.

Lemma sem_give_rop h r :
  sem_rop (Ev (SemGive h) r) = RUse h /\ http_rop (Ev (SemGive h) r) = RNone /\
  heap_rop (Ev (SemGive h) r) = RNone /\ http_recv (Ev (SemGive h) r) = [] /\
  forall a, http_answer (Ev (SemGive h) r) a = a.
Proof. done. Qed.

Lemma sem_take_rop h r :
  sem_rop (Ev (SemTake h) r) = RUse h /\ http_rop (Ev (SemTake h) r) = RNone /\
  heap_rop (Ev (SemTake h) r) = RNone /\ http_recv (Ev (SemTake h) r) = [] /\
  forall a, http_answer (Ev (SemTake h) r) a = a.
Proof. done. Qed.

(** Setting fields of the job that are neither its file nor its handles. *)
Lemma wp_update_job g (c f : Z) (p : path) pend r0 (Q : outcome unit -> sys dl_g -> Prop) s :
  xfer c f p pend r0 s ->
  (forall j, job_file (g j) = job_file j /\ sem_job_ready (g j) = sem_job_ready j /\
             sem_job_done (g j) = sem_job_done j /\ s_sd_task_handle (g j) = s_sd_task_handle j) ->
  (forall s', xfer c f p pend r0 s' -> trace s' = trace s ->
     job (glob s') = g (job (glob s)) -> bufs (glob s') = bufs (glob s) -> Q (Ret tt) s') ->
  wp (on_job (update_job g)) Q s.
Proof.
  intros [[Hh Hb Hw [Hs Hj]] Hc Ht Hf Hcap Hst Hr] Hg HQ. apply wp_zoom, wp_modify.
  destruct (Hg (job (glob s))) as (G1 & G2 & G3 & G4).
  apply HQ; try done. split; cbn -[rest_of]; try done; [|congruence|congruence].
  split; try done. split; cbn; rewrite G2, G3; [done|]. intros _. by apply Hj.
Qed.

(** The writer's job on the open file. *)
Lemma wp_write_on_fs data c f p pend r0 (Q : outcome bool -> sys dl_g -> Prop) s :
  xfer c f p pend r0 s ->
  (forall err n s', (n <= length data)%nat -> (err = false <-> n = length data) ->
     xfer c f p (pend ++ take n data) r0 s' -> received (trace s') = received (trace s) ->
     job (glob s') = job (glob s) -> bufs (glob s') = bufs (glob s) -> Q (Ret err) s') ->
  wp (on_fs (write_job f data)) Q s.
Proof.
  intros Hx HQ. pose proof Hx as [Ho Hc Ht Hf Hcap Hst Hr].
  eapply (wp_still [CIo; CDelay]); [apply uses_zoom, uses_write_job|reflexivity|].
  apply wp_zoom. eapply wp_mono; [apply wp_write_chunks; [done|exact Hst]|].
  intros o s' (err & n & -> & Hn & He & E) Hstill. apply (HQ err n); try done.
  - split; cbn; try done.
    + eapply dl_owns_still; [exact Ho|exact Hstill|done..].
    + rewrite E. apply lookup_insert_eq.
    + rewrite <- Hr, E. unfold rest_of. simpl.
      rewrite delete_insert_eq. f_equal. apply Hstill.
  - apply Hstill.
Qed.

(** KICK OFF: the buffer is in the file, or [s_sd_job.sd_error] is set. *)
Lemma wp_kick_writer data c f p pend r0 (Q : outcome unit -> sys dl_g -> Prop) s :
  xfer c f p pend r0 s ->
  (forall err n s', (err = false -> n = length data) -> xfer c f p (pend ++ take n data) r0 s' ->
     received (trace s') = received (trace s) -> sd_error (job (glob s')) = err ->
     bufs (glob s') = bufs (glob s) -> Q (Ret tt) s') ->
  wp (kick_writer data) Q s.
Proof.
  intros Hx HQ. apply wp_bind, wp_get, wp_bind.
  eapply wp_update_job; [exact Hx|done|]. intros s1 X1 T1 J1 B1.
  apply wp_bind. eapply wp_update_job; [exact X1|done|]. intros s2 X2 T2 J2 B2.
  apply wp_bind. eapply (wp_on_sem SemGive); [apply sem_give_rop| |exact X2|].
  { left. by rewrite J2, J1. }
  intros s3 X3 G3 R3. unfold run_writer. apply wp_bind, wp_get, wp_bind.
  eapply (wp_on_sem SemTake); [apply sem_take_rop|by left|exact X3|].
  intros s4 X4 G4 R4. apply wp_bind.
  assert (Hd : job_data (job (glob s3)) = data) by (by rewrite G3, J2, J1).
  rewrite (x_file _ _ _ _ _ _ X3), Hd.
  eapply wp_write_on_fs; [exact X4|]. intros err n s5 Hn He X5 R5 J5 B5.
  apply wp_bind. eapply wp_update_job; [exact X5|done|]. intros s6 X6 T6 J6 B6.
  eapply (wp_on_sem SemGive); [apply sem_give_rop| |exact X6|].
  { right. by rewrite J6, J5, G4. }
  intros s7 X7 G7 R7. apply (HQ err n); [tauto|exact X7| | |].
  - congruence.
  - by rewrite G7, J6.
  - rewrite G7, B6, B5, G4, G3, B2, B1. done.
Qed.

Lemma wp_await_writer c f p pend r0 (Q : outcome bool -> sys dl_g -> Prop) s :
  xfer c f p pend r0 s ->
  (forall s', xfer c f p pend r0 s' -> glob s' = glob s ->
     received (trace s') = received (trace s) -> Q (Ret (sd_error (job (glob s)))) s') ->
  wp await_writer Q s.
Proof.
  intros Hx HQ. apply wp_bind, wp_get, wp_bind.
  eapply (wp_on_sem SemTake); [apply sem_take_rop|by right|exact Hx|].
  intros s1 X1 G1 R1. apply wp_bind, wp_get, wp_ret. rewrite G1. by apply HQ.
Qed.

(** ** The loop *)

(** What the loop guarantees when it ends: every byte received was counted, and
    without an error every one of them was handed to the file. *)
Definition loop_post (c f : Z) (p : path) (r0 : rest) (base : list ascii)
    (o : outcome pp_result) (s' : sys dl_g) : Prop :=
  match o with
  | Ret r => exists pend got,
      xfer c f p pend r0 s' /\ received (trace s') = base ++ got /\
      r_total r = Z.of_nat (length got) /\ in_int (r_total r) = true /\
      (r_net_error r = false -> r_sd_error r = false ->
       (r_pending r = true -> sd_error (job (glob s')) = false) -> pend = got)
  | Halt x => x = ExUndefined
  end.

(** Each full buffer adds its capacity to [total], an [int]: enough rounds for
    [total] to overflow are enough rounds. *)
Lemma wp_pp_loop fuel c pending total f p pend got r0 base s :
  xfer c f p pend r0 s -> received (trace s) = base ++ got ->
  total = Z.of_nat (length got) -> in_int total = true ->
  2 ^ 31 <= total + Z.of_nat fuel * s_buf_capacity (bufs (glob s)) ->
  ((pending = true -> sd_error (job (glob s)) = false) -> pend = got) ->
  wp (pp_loop fuel c pending total) (loop_post c f p r0 base) s.
Proof.
  revert pending total pend got s.
  induction fuel as [|fuel IH]; intros pending total pend got s Hx Hr Ht Hi Hf Hp;
    pose proof (xfer_cap _ _ _ _ _ _ Hx) as Hcap; cbn [pp_loop].
  { unfold in_int in Hi. crush_hyps. lia. }
  apply wp_bind, wp_get. set (cap := s_buf_capacity (bufs (glob s))) in *. cbv zeta.
  apply wp_bind. eapply wp_mono.
  { apply wp_fill_buffer; [exact Hx|simpl; lia|exact Hi|simpl length; lia]. }
  intros [[[data t'] err]|x] s1; [|done].
  intros (new & X1 & B1 & J1 & -> & -> & I1 & L1 & R1). cbn [app] in *.
  assert (Ht1 : total + Z.of_nat (length new) = Z.of_nat (length (got ++ new)))
    by (rewrite length_app; lia).
  assert (Rn : received (trace s1) = base ++ (got ++ new)) by (by rewrite R1, Hr, app_assoc).
  (* the job's flag is the one the writer left *)
  assert (Hround : forall s2, xfer c f p got r0 s2 -> received (trace s2) = base ++ (got ++ new) ->
    s_buf_capacity (bufs (glob s2)) = cap ->
    wp (pp_round (pp_loop fuel c true (total + Z.of_nat (length new))) new cap
          (total + Z.of_nat (length new))) (loop_post c f p r0 base) s2).
  { intros s2 X2 R2 C2. apply wp_bind. eapply wp_kick_writer; [exact X2|].
    intros e n s3 He X3 R3 J3 B3.
    assert (Hok : (true = true -> sd_error (job (glob s3)) = false) -> got ++ take n new = got ++ new).
    { intros Hq. specialize (Hq eq_refl). rewrite J3 in Hq. rewrite (He Hq). by rewrite take_ge. }
    destruct (Z.ltb_spec (Z.of_nat (length new)) cap) as [Hs|Hs].
    - apply wp_ret. exists (got ++ take n new), (got ++ new).
      split_and!; [done|by rewrite R3|done|done|]. cbn. auto.
    - eapply IH; [exact X3|by rewrite R3|done|done| |exact Hok].
      rewrite B3, C2. lia. }
  destruct (err || (length new =? 0)%nat) eqn:Ee.
  - apply wp_ret. exists pend, (got ++ new). split_and!; [done|done|done|done|].
    cbn. intros -> _ Hq. cbn in Ee. apply Nat.eqb_eq in Ee. destruct new; [|done].
    rewrite app_nil_r. apply Hp. intros Hpend. rewrite <- J1. auto.
  - assert (Hc1 : s_buf_capacity (bufs (glob s1)) = cap) by (by rewrite B1).
    destruct pending.
    + apply wp_bind. eapply wp_await_writer; [exact X1|]. intros s2 X2 G2 R2.
      destruct (sd_error (job (glob s1))) eqn:Es.
      * apply wp_ret. exists pend, (got ++ new). by split_and!; [|rewrite R2|..].
      * apply Hround; [|by rewrite R2|by rewrite G2].
        assert (Hpg : pend = got) by (apply Hp; intros _; congruence). by subst pend.
    + apply Hround; [|done|done]. assert (Hpg : pend = got) by (by apply Hp). by subst pend.
Qed.


(** ** Connecting and disconnecting *)

(** What is left of the globals when only the pool is touched. *)
Definition non_http (g : dl_g) : sd_g * pp_bufs * sd_write_job := (sd g, bufs g, job g).

(** An operation of the pool. *)
Lemma wp_on_http {A} (m : M pool A) (P : outcome A -> pool -> Prop) Q s :
  dl_owns (glob s) (trace s) -> uses [CHttp] m ->
  wp m (fun o s' => pool_inv (glob s') (trace s') /\ P o (glob s'))
     (Sys (http (glob s)) (wld s) (trace s)) ->
  (forall o s', dl_owns (glob s') (trace s') -> received (trace s') = received (trace s) ->
     answer (trace s') = answer (trace s) ->
     non_http (glob s') = non_http (glob s) -> P o (http (glob s')) -> Q o s') ->
  wp (on_http m) Q s.
Proof.
  intros [Hh Hb Hw [Hs Hj]] Hu Hm HQ. apply wp_zoom.
  set (s0 := Sys (http (glob s)) (wld s) (trace s)) in *.
  assert (H1 : owns heap_rop (trace (snd (m s0))) (opt_list (s_buf0 (bufs (glob s))) ++ opt_list (s_buf1 (bufs (glob s)))))
    by (eapply owns_uses; [exact Hu|by apply rop_class_heap|exact Hb]).
  assert (H2 : owns sem_rop (trace (snd (m s0))) (opt_list (sem_job_ready (job (glob s))) ++ opt_list (sem_job_done (job (glob s)))))
    by (eapply owns_uses; [exact Hu|by apply rop_class_sem|exact Hs]).
  pose proof (received_uses [CHttp] m s0 Hu eq_refl) as [H3 H4].
  destruct Hm as [Hm1 Hm2]. apply HQ; [by split|exact H3|exact H4|done|exact Hm2].
Qed.

Lemma wp_dl_http {X} (cm : cmd X) c (Q : outcome X -> sys dl_g -> Prop) s :
  dl_owns (glob s) (trace s) -> s_http_client (http (glob s)) = Some c ->
  (forall r, http_rop (Ev cm r) = RUse c /\ heap_rop (Ev cm r) = RNone /\
             sem_rop (Ev cm r) = RNone /\ http_recv (Ev cm r) = []) ->
  (forall r s', glob s' = glob s -> dl_owns (glob s') (trace s') ->
     received (trace s') = received (trace s) ->
     answer (trace s') = http_answer (Ev cm r) (answer (trace s)) -> Q (Ret r) s') ->
  wp (call cm) Q s.
Proof.
  intros [Hh Hb Hw [Hs Hj]] Hc Hr HQ. apply wp_call. intros r w' _.
  destruct (Hr r) as (E1 & E2 & E3 & E4). apply HQ; [done| | |done].
  - split; [|by apply owns_none|done|split; [by apply owns_none|done]].
    eapply owns_use; [exact E1|cbn; rewrite Hc; by left|exact Hh].
  - cbn [trace]. by rewrite received_cons, E4, app_nil_r.
Qed.

Definition connect_post (s : sys dl_g) (o : outcome (option (option Z * Z))) (s' : sys dl_g) : Prop :=
  exists r, o = Ret r /\ dl_owns (glob s') (trace s') /\
    received (trace s') = received (trace s) /\ non_http (glob s') = non_http (glob s) /\
    match r with
    | Some (client, clen) => client <> None /\ s_http_client (http (glob s')) = client /\
        answer (trace s') = (Some 200, Some clen)
    | None => True
    end.

(** The client is the pooled one, and releasing it for good empties the pool. *)
Lemma wp_drop_client {A} c (k : M dl_g A) Q s :
  dl_owns (glob s) (trace s) -> s_http_client (http (glob s)) = Some c ->
  (forall s', dl_owns (glob s') (trace s') -> received (trace s') = received (trace s) ->
     answer (trace s') = answer (trace s) ->
     non_http (glob s') = non_http (glob s) -> wp k Q s') ->
  wp (on_http (release_http_client c true) ;; k) Q s.
Proof.
  intros Ho Hc Hk. apply wp_bind.
  eapply (wp_on_http _ (fun o _ => o = Ret tt)); [exact Ho|apply (uses_pool EmptyString c true)| |].
  - eapply wp_mono; [apply wp_release; [apply Ho|exact Hc]|]. intros o s' (-> & Hp & _). done.
  - intros o s' Ho' R' A' N' ->. by apply Hk.
Qed.

Lemma wp_http_attempt url attempt rest client clen s :
  (attempt = 1%nat /\ rest = [] \/
   attempt = 0%nat /\ forall c client s1, dl_owns (glob s1) (trace s1) ->
     wp (http_connect url rest client c) (connect_post s1) s1) ->
  dl_owns (glob s) (trace s) ->
  wp (http_connect url (attempt :: rest) client clen) (connect_post s) s.
Proof.
  intros Hrest Ho. cbn [http_connect]. apply wp_bind.
  eapply (wp_on_http _ (fun o g => o = Ret (s_http_client g)));
    [exact Ho|apply (uses_pool url 0 true)| |].
  { eapply wp_mono; [apply wp_get_http_client, Ho|]. intros o s' (c & -> & Hp & Hc). by rewrite Hc. }
  intros o s1 O1 R1 A1 N1 ->. destruct (s_http_client (http (glob s1))) as [c|] eqn:Ec.
  2: { apply wp_ret. exists None. by split_and!. }
  assert (Hgo : forall s2 client' clen', dl_owns (glob s2) (trace s2) ->
    received (trace s2) = received (trace s) -> non_http (glob s2) = non_http (glob s) ->
    attempt = 0%nat -> wp (http_connect url rest client' clen') (connect_post s) s2).
  { intros s2 cl' cn' O2 R2 N2 E. destruct Hrest as [[? _]|[_ Hw]]; [congruence|].
    eapply wp_mono; [by apply Hw|]. intros o s3 (r & -> & O3 & R3 & N3 & H3).
    exists r. split_and!; try done; congruence. }
  assert (Hnone : forall s2, dl_owns (glob s2) (trace s2) ->
    received (trace s2) = received (trace s) -> non_http (glob s2) = non_http (glob s) ->
    connect_post s (Ret None) s2) by (intros s2 ? ? ?; exists None; by split_and!).
  apply wp_bind. eapply (wp_dl_http (HttpOpen c)); [exact O1|exact Ec|done|].
  intros err s2 G2 O2 R2 A2. rewrite <- G2 in Ec.
  destruct (is_ok err); cbn [negb].
  - apply wp_bind. eapply (wp_dl_http (HttpFetchHeaders c)); [exact O2|exact Ec|done|].
    intros clen' s3 G3 O3 R3 A3. rewrite <- G3 in Ec. apply wp_bind.
    eapply (wp_dl_http (HttpGetStatusCode c)); [exact O3|exact Ec|done|].
    intros status s4 G4 O4 R4 A4. rewrite <- G4 in Ec.
    assert (N4 : non_http (glob s4) = non_http (glob s)) by congruence.
    destruct (Z.eqb_spec status 200) as [->|].
    + apply wp_ret. exists (Some (Some c, clen')). split_and!; try done; try congruence.
      by rewrite A4, A3.
    + apply wp_drop_client; [done|done|]. intros s5 O5 R5 A5 N5.
      destruct ((status <=? 0) && (attempt =? 0)%nat) eqn:E.
      * apply andb_prop in E as [_ E]. apply Nat.eqb_eq in E. apply Hgo; congruence.
      * apply wp_ret, Hnone; congruence.
  - assert (N2 : non_http (glob s2) = non_http (glob s)) by congruence.
    apply wp_drop_client; [done|done|]. intros s5 O5 R5 A5 N5.
    destruct (Nat.eqb_spec attempt 0); [apply Hgo|apply wp_ret, Hnone]; congruence.
Qed.

Lemma wp_http_connect url s :
  dl_owns (glob s) (trace s) ->
  wp (http_connect url [0; 1]%nat None 0) (connect_post s) s.
Proof.
  intros Ho. apply wp_http_attempt; [right; split; [done|]|done].
  intros c client s1 O1. apply wp_http_attempt; [by left|done].
Qed.

(** ** Closing the file *)

(** The card takes everything it is handed when a stream is flushed. *)
Definition card_drains : Prop := forall n w, (n <= fst (handle (IoDrain n) w))%nat.

Definition non_sd (g : dl_g) : pool * pp_bufs * sd_write_job := (http g, bufs g, job g).

(** The handles are accounted for, the writer task runs, the open streams are
    [others], and the server sent [recv] and announced [ans]. *)
Record settled (others : gmap Z stream) (recv : list ascii) (ans : option Z * option Z)
    (s : sys dl_g) : Prop := {
  t_owns : dl_owns (glob s) (trace s);
  t_task : s_sd_task_handle (job (glob s)) = true;
  t_streams : streams (fs (sd (glob s))) = others;
  t_recv : received (trace s) = recv;
  t_answer : answer (trace s) = ans
}.

(** An operation on files. *)
Lemma wp_on_fs {A} (m : M posix A) (P : outcome A -> posix -> Prop) Q s :
  dl_owns (glob s) (trace s) -> uses [CIo] m ->
  wp m (fun o s' => P o (glob s')) (Sys (fs (sd (glob s))) (wld s) (trace s)) ->
  (forall o s', dl_owns (glob s') (trace s') -> received (trace s') = received (trace s) ->
     answer (trace s') = answer (trace s) ->
     non_sd (glob s') = non_sd (glob s) -> P o (fs (sd (glob s'))) -> Q o s') ->
  wp (on_fs m) Q s.
Proof.
  intros Ho Hu Hm HQ.
  eapply (wp_still [CIo]); [apply uses_zoom, Hu|reflexivity|].
  apply wp_zoom. eapply wp_mono; [exact Hm|]. intros o s' HP Hst.
  apply HQ; [|apply Hst|apply Hst|done|exact HP].
  by eapply dl_owns_still.
Qed.

(** The same with [f] still open on [p], [pend] waiting in it, over [r0]. *)
Record closing (f : Z) (p : path) (pend : list ascii) (r0 : rest) (recv : list ascii)
    (s : sys dl_g) : Prop := {
  c_owns : dl_owns (glob s) (trace s);
  c_task : s_sd_task_handle (job (glob s)) = true;
  c_stream : streams (fs (sd (glob s))) !! f = Some (Stream p 0 pend);
  c_rest : rest_of f (fs (sd (glob s))) (trace s) = r0;
  c_recv : received (trace s) = recv
}.

(** What is in the tree after the pending bytes were drained in two steps: the
    second step is that of [fclose]. *)
Definition drained (p : path) (pend : list ascii) (n n' : node) : Prop :=
  forall d0, lookup_path p n = Some (File d0) -> exists d lost,
    pend = d ++ lost /\ lookup_path p n' = Some (File (d0 ++ d)) /\
    (card_drains -> lost = []).

Lemma wp_close_only {A} f p pend n others ans recv (k : M dl_g A) Q s :
  p <> [] -> closing f p pend (n, others, ans) recv s ->
  (forall s', settled others recv ans s' -> drained p pend n (root (fs (sd (glob s')))) ->
     wp k Q s') ->
  wp (on_fs (fclose f) ;; k) Q s.
Proof.
  intros Hp [Ho Ht Hs Hr Hc] Hk. injection Hr as R1 R2 R3. apply wp_bind.
  eapply (wp_on_fs _ (fun o g => o = Ret tt /\ streams g = others /\ drained p pend n (root g)));
    [exact Ho|apply uses_fclose| |].
  - eapply wp_fclose; [exact Hs|]. intros k1 s1 -> ->. cbn. split_and!; [done|done|].
    intros d0 Hd. rewrite R1. eexists _, (drop _ pend). split; [by rewrite take_drop|].
    split; [by apply lookup_append|]. intros Hall. apply drop_ge, Hall.
  - intros o s1 O1 C1 A1 N1 (-> & S1 & D1). apply Hk; [|done].
    injection N1 as N1 N2 N3. split; congruence.
Qed.

Lemma wp_flush_close {A} f p pend n others ans recv (k : M dl_g A) Q s :
  p <> [] -> closing f p pend (n, others, ans) recv s ->
  (forall s', settled others recv ans s' -> drained p pend n (root (fs (sd (glob s')))) ->
     wp k Q s') ->
  wp (on_fs (fflush f) ;; on_fs (fclose f) ;; k) Q s.
Proof.
  intros Hp [Ho Ht Hs Hr Hc] Hk. injection Hr as R1 R2 R3. apply wp_bind.
  set (j := fst (handle (IoDrain (length pend)) (wld s))).
  eapply (wp_on_fs _ (fun o g => o = Ret tt /\ streams g !! f = Some (Stream p 0 (drop j pend)) /\
      delete f (streams g) = others /\ root g = append_file p (take j pend) n));
    [exact Ho|apply uses_fflush| |].
  - eapply wp_fflush; [exact Hs|]. intros k1 s1 -> ->. cbn. split_and!; [done|..].
    + apply lookup_insert_eq.
    + by rewrite delete_insert_eq.
    + by rewrite R1.
  - intros o s1 O1 C1 A1 N1 (-> & S1 & D1 & T1). injection N1 as N1 N2 N3.
    eapply (wp_close_only f p (drop j pend) (root (fs (sd (glob s1)))) others ans recv); [done| |].
    + split; [done|congruence|done| |congruence]. unfold rest_of. congruence.
    + intros s2 S2 D2. apply Hk; [done|]. intros d0 Hd.
      destruct (D2 (d0 ++ take j pend)) as (d & lost & E1 & E2 & E3).
      { rewrite T1. by apply lookup_append. }
      exists (take j pend ++ d), lost. split_and!; [|by rewrite app_assoc|done].
      rewrite <- app_assoc, <- E1. by rewrite take_drop.
Qed.

(** What a removal or a renaming leaves settled. *)
Lemma wp_settled {A} (m : M posix A) (P : outcome A -> posix -> Prop) others recv ans Q s :
  settled others recv ans s -> uses [CIo] m ->
  wp m (fun o s' => streams (glob s') = streams (fs (sd (glob s))) /\ P o (glob s'))
    (Sys (fs (sd (glob s))) (wld s) (trace s)) ->
  (forall o s', settled others recv ans s' -> P o (fs (sd (glob s'))) -> Q o s') ->
  wp (on_fs m) Q s.
Proof.
  intros [Ho Ht Hs Hr Ha] Hu Hm HQ.
  eapply (wp_on_fs _ (fun o g => streams g = streams (fs (sd (glob s))) /\ P o g));
    [exact Ho|exact Hu|exact Hm|].
  intros o s1 O1 C1 A1 N1 (S1 & P1). injection N1 as N1 N2 N3. apply HQ; [|done].
  split; congruence.
Qed.

(** ** The whole function *)

(** What [download_file_standalone] leaves behind: the handles are accounted
    for, the file it opened is closed, and on [OK] the server answered 200, as
    many bytes came as it announced, and what is at [out_path] is a prefix of
    them, all of them on a card that drains. *)
Definition file_post (base : list ascii) (others : gmap Z stream) (out_path : string)
    (o : outcome DlResult) (s' : sys dl_g) : Prop :=
  match o with
  | Halt x => x = ExUndefined
  | Ret r =>
      dl_owns (glob s') (trace s') /\
      streams (fs (sd (glob s'))) = others /\
      (r = OK \/ r = SD_FAILED -> job_ready (job (glob s'))) /\
      exists got, received (trace s') = base ++ got /\
        (r = OK -> exists len d lost,
           got <> [] /\ answer (trace s') = (Some 200, Some len) /\
           (0 < len -> Z.of_nat (length got) = len) /\
           got = d ++ lost /\ (card_drains -> lost = []) /\
           lookup_path (split_path out_path) (root (fs (sd (glob s')))) = Some (File d))
  end.

Lemma file_post_settled base others out_path r got recv ans s :
  settled others recv ans s -> recv = base ++ got -> r <> OK ->
  file_post base others out_path (Ret r) s.
Proof.
  intros [Ho Ht Hs Hr Ha] -> Hn. split_and!; [done|done| |].
  - intros _ Hf. congruence.
  - exists got. split; [done|]. by intros ->.
Qed.

Lemma wp_progress_settled others recv ans (Q : outcome unit -> sys dl_g -> Prop) s :
  settled others recv ans s ->
  (forall s', settled others recv ans s' -> sd (glob s') = sd (glob s) ->
     Q (Ret tt) s' /\ Q (Halt ExUndefined) s') ->
  wp update_led_progress Q s.
Proof.
  intros [Ho Ht Hs Hr Ha] HQ. apply (wp_stops _ _ _ _ stops_progress).
  apply (wp_moves same_parts); [apply parts_progress|].
  eapply wp_still; [apply uses_progress|reflexivity|].
  unfold wp. intros Hst Hp Hx. unfold same_parts, transfer_parts in Hp. injection Hp as E1 E2 E3 E4.
  destruct (HQ (snd (update_led_progress s))) as [Q1 Q2]; [|done|].
  - split; rewrite ?E1, ?E4; try done.
    + by eapply dl_owns_still.
    + by rewrite (still_recv _ _ Hst).
    + by rewrite (still_answer _ _ Hst).
  - destruct (fst (update_led_progress s)) as [[]|x]; [done|]. by rewrite Hx.
Qed.

(** The removal of the partial file. *)
Lemma wp_drop_part {A} name others recv ans (k : M dl_g A) Q s :
  settled others recv ans s -> (forall s', settled others recv ans s' -> wp k Q s') ->
  wp (_ <- on_fs (unlink name) ;; k) Q s.
Proof.
  intros Hs Hk. apply wp_bind.
  eapply (wp_settled _ (fun o _ => exists b, o = Ret b)); [exact Hs|apply uses_unlink| |].
  - apply wp_unlink. intros b s1 [-> | (n & _ & ->)]; (split; [done|by exists b]).
  - intros o s1 S1 [b ->]. by apply Hk.
Qed.

(** The end of a complete download: the partial file takes its name. *)
Lemma wp_publish out_part out_path base others got len s :
  settled others (base ++ got) (Some 200, Some len) s ->
  got <> [] -> (0 < len -> Z.of_nat (length got) = len) ->
  (exists d lost, got = d ++ lost /\ (card_drains -> lost = []) /\
     lookup_path (split_path out_part) (root (fs (sd (glob s)))) = Some (File d)) ->
  wp (ok <- on_fs (rename out_part out_path) ;;
      if negb ok then _ <- on_fs (unlink out_part) ;; ret SD_FAILED
      else update_led_progress ;; ret OK)
    (file_post base others out_path) s.
Proof.
  intros Hs Hg Hl (d & lost & E1 & E2 & E3). apply wp_bind.
  eapply (wp_settled _ (fun o g => exists b, o = Ret b /\
    (b = true -> lookup_path (split_path out_path) (root g) = Some (File d))));
    [exact Hs|apply uses_rename| |].
  - apply wp_rename.
    + intros s1 ->. split; [done|]. by exists false.
    + intros n s1 Hn -> Hpar. split; [done|]. exists true. split; [done|]. intros _. cbn [root].
      rewrite lookup_set_same by done. cbn [glob] in Hn. by rewrite <- Hn.
  - intros o s1 S1 ([] & -> & B1); cbn [negb].
    + apply wp_bind. eapply wp_progress_settled; [exact S1|]. intros s2 S2 F2. split; [|done].
      apply wp_ret. destruct S2 as [O2 T2 St2 R2 A2]. split_and!; [done|done| |].
      { intros _ Hf. congruence. }
      exists got. split; [done|]. intros _. exists len, d, lost. rewrite F2. by split_and!; try apply B1.
    + eapply wp_drop_part; [exact S1|]. intros s2 S2. apply wp_ret.
      by eapply file_post_settled; [exact S2| |].
Qed.

(** Waiting for the last write. *)
Lemma wp_last_write b c f p pend r0 s :
  xfer c f p pend r0 s ->
  wp (if (b : bool) then await_writer else ret false) (fun o s' => exists err,
    o = Ret err /\ xfer c f p pend r0 s' /\ received (trace s') = received (trace s) /\
    (err = false -> b = true -> sd_error (job (glob s)) = false)) s.
Proof.
  intros Hx. destruct b.
  - eapply wp_await_writer; [exact Hx|]. intros s1 X1 G1 R1. eexists. by split_and!.
  - apply wp_ret. exists false. by split_and!.
Qed.

(** Letting the client go, for good or for the next file. *)
Lemma wp_release_closing {A} c force f p pend r0 recv (k : M dl_g A) Q s :
  xfer c f p pend r0 s -> received (trace s) = recv ->
  (forall s', closing f p pend r0 recv s' -> wp k Q s') ->
  wp (on_http (release_http_client c force) ;; k) Q s.
Proof.
  intros [Ho Hc Ht Hf Hb Hs Hr] He Hk. apply wp_bind.
  eapply (wp_on_http _ (fun o _ => o = Ret tt)); [exact Ho|apply (uses_pool EmptyString c force)| |].
  - eapply wp_mono; [apply wp_release; [apply Ho|exact Hc]|]. intros o s' (-> & Hp & _). done.
  - intros o s1 O1 R1 A1 N1 ->. apply Hk. injection N1 as N1 N2 N3.
    split; [done|congruence|congruence| |congruence].
    rewrite <- Hr. unfold rest_of. congruence.
Qed.

Lemma wp_finish_file c f out_part out_path clen r pend got n others base s :
  xfer c f (split_path out_part) pend (n, others, (Some 200, Some clen)) s ->
  received (trace s) = base ++ got -> r_total r = Z.of_nat (length got) ->
  (r_net_error r = false -> r_sd_error r = false ->
     (r_pending r = true -> sd_error (job (glob s)) = false) -> pend = got) ->
  split_path out_part <> [] -> lookup_path (split_path out_part) n = Some (File []) ->
  wp (finish_file c f out_part out_path clen r) (file_post base others out_path) s.
Proof.
  intros Hx Hr Ht Hp Hne Hl. apply wp_bind.
  eapply wp_mono; [eapply wp_last_write; exact Hx|]. intros o s1 (err & -> & X1 & R1 & E1).
  cbv zeta. rewrite Hr in R1. eapply wp_release_closing; [exact X1|exact R1|].
  intros s2 C2. destruct (r_sd_error r || err) eqn:Es.
  { eapply wp_close_only; [done|exact C2|]. intros s3 S3 _. apply wp_ret.
    by eapply file_post_settled; [exact S3| |]. }
  apply orb_false_elim in Es as [Es ->]. destruct (r_net_error r) eqn:En.
  { eapply wp_flush_close; [done|exact C2|]. intros s3 S3 _.
    eapply wp_drop_part; [exact S3|]. intros s4 S4. apply wp_ret.
    by eapply file_post_settled; [exact S4| |]. }
  eapply wp_flush_close; [done|exact C2|]. intros s3 S3 D3.
  destruct (_ || _) eqn:Ec.
  { eapply wp_drop_part; [exact S3|]. intros s4 S4. apply wp_ret.
    by eapply file_post_settled; [exact S4| |]. }
  apply orb_false_elim in Ec as [Ec E0]. rewrite Ht in Ec, E0. apply Z.eqb_neq in E0.
  assert (pend = got) as -> by auto.
  eapply wp_publish; [exact S3| | |].
  - by intros ->.
  - intros Hlen. apply Z.ltb_lt in Hlen. rewrite Hlen in Ec. cbn in Ec.
    apply negb_false_iff, Z.eqb_eq in Ec. done.
  - destruct (D3 [] Hl) as (d & lost & -> & Hd & Hlost). exists d, lost. by split_and!.
Qed.
End Transfer.

(** Every name that ends in a suffix without a slash has a last component. *)
Lemma split_suffix acc s t c :
  Ascii.eqb c "/" = false -> split_from acc (s ++ String c t) <> [].
Proof.
  intros Hc. revert acc. induction s as [|a s IH]; intros acc; simpl.
  - rewrite Hc.
    assert (Hg : forall t acc, acc <> EmptyString -> split_from acc t <> []).
    { clear. intros t. induction t as [|a t IH]; intros acc Ha; cbn [split_from].
      - by destruct (String.eqb_spec acc "").
      - destruct (Ascii.eqb a "/"); [|apply IH; by destruct acc].
        destruct (String.eqb_spec acc ""); [done|]. done. }
    apply Hg. by destruct acc.
  - destruct (Ascii.eqb a "/"); [|apply IH]. intros E. apply app_eq_nil in E as [_ E].
    by apply IH in E.
Qed.

Lemma part_path out_path : split_path (out_path ++ ".part") <> [].
Proof. by apply split_suffix. Qed.

Section WholeFile.
Context `{Env, MathLib}.

(** Between two operations: the handles are accounted for and no file is open;
    [fs0], [recv] and [j] are what the file system, the network and the job were. *)
Record resting (fs0 : posix) (recv : list ascii) (ans : option Z * option Z) (j : sd_write_job)
    (client : option Z) (s : sys dl_g) : Prop := {
  k_owns : dl_owns (glob s) (trace s);
  k_client : s_http_client (http (glob s)) = client;
  k_fs : fs (sd (glob s)) = fs0;
  k_recv : received (trace s) = recv;
  k_answer : answer (trace s) = ans;
  k_job : job (glob s) = j
}.

(** The allocation of the buffers. *)
Lemma wp_buffers fs0 recv ans j client (Q : outcome unit -> sys dl_g -> Prop) s :
  resting fs0 recv ans j client s ->
  (forall s', resting fs0 recv ans j client s' -> Q (Ret tt) s') ->
  wp (on_bufs ensure_pingpong_buffers) Q s.
Proof.
  intros [[Hh Hb Hw [Hs Hj]] Hc Hf Hr Ha Hjb] HQ. apply wp_zoom.
  set (s0 := Sys (bufs (glob s)) (wld s) (trace s)).
  destruct uses_buffers as [Hu _].
  assert (H1 := owns_uses http_rop _ _ s0 _ Hu (rop_class_http [CHeap] eq_refl eq_refl) Hh).
  assert (H2 := owns_uses sem_rop _ _ s0 _ Hu (rop_class_sem [CHeap] eq_refl) Hs).
  destruct (received_uses [CHeap] _ s0 Hu eq_refl) as [H3 H4].
  destruct (wp_ensure_buffers s0 Hw Hb) as (E & H5 & H6).
  change (Sys (lget bufs_lens (glob s)) (wld s) (trace s)) with s0.
  unfold wp. rewrite E. apply HQ.
  by split; [split|..|exact (eq_trans H3 Hr)|exact (eq_trans H4 Ha)|].
Qed.

(** The creation of the writer task. *)
Lemma wp_start fs0 recv ans j client (Q : outcome bool -> sys dl_g -> Prop) s :
  resting fs0 recv ans j client s -> s_sd_task_handle j = false -> job_ready j ->
  (forall b j' s', resting fs0 recv ans j' client s' -> bufs (glob s') = bufs (glob s) ->
     s_sd_task_handle j' = b -> Q (Ret b) s') ->
  wp (on_job start_sd_writer_task) Q s.
Proof.
  intros [[Hh Hb Hw Hjob] Hc Hf Hr Ha Hjb] Hhd Hrd HQ. apply wp_zoom.
  set (s0 := Sys (job (glob s)) (wld s) (trace s)).
  destruct uses_task as [Hu _].
  assert (H1 := owns_uses http_rop _ _ s0 _ Hu (rop_class_http [CSem; CTask] eq_refl eq_refl) Hh).
  assert (H2 := owns_uses heap_rop _ _ s0 _ Hu (rop_class_heap [CSem; CTask] eq_refl) Hb).
  destruct (received_uses [CSem; CTask] _ s0 Hu eq_refl) as [H3 H4].
  rewrite <- Hjb in Hhd, Hrd. destruct (Hrd Hhd) as [E1 E2].
  destruct (wp_start_task s0 E1 E2 Hhd Hjob) as (b & E & H5 & H6).
  change (Sys (lget job_lens (glob s)) (wld s) (trace s)) with s0.
  unfold wp. rewrite E.
  eapply HQ; [|done|exact H6].
  by split; [split|..|exact (eq_trans H3 Hr)|exact (eq_trans H4 Ha)|].
Qed.

(** A client that is dropped on the way out. *)
Lemma wp_give_up out_path client r base s fs0 recv ans j got :
  resting fs0 recv ans j client s -> client <> None -> recv = base ++ got -> streams fs0 = ∅ ->
  r <> OK -> (r = SD_FAILED -> job_ready j) ->
  wp (c <- nonnull client ;; on_http (release_http_client c true) ;; ret r)
    (file_post base ∅ out_path) s.
Proof.
  intros [Ho Hc Hf Hr Ha Hjb] Hn Hg Hst Hok Hsd. destruct client as [c|]; [|done].
  apply wp_bind, wp_ret, wp_drop_client; [done|done|]. intros s1 O1 R1 A1 N1.
  apply wp_ret. injection N1 as N1 N2 N3. split_and!; [done|congruence| |].
  - intros [->|E]; [done|]. rewrite N3, Hjb. auto.
  - exists got. split; [congruence|]. by intros ->.
Qed.


Lemma wp_open_part fs0 recv ans j client name (Q : outcome (option Z) -> sys dl_g -> Prop) s :
  resting fs0 recv ans j client s ->
  (forall s', resting fs0 recv ans j client s' -> Q (Ret None) s') ->
  (forall s', writable (split_path name) (root fs0) = true ->
     resting (opened (split_path name) fs0) recv ans j client s' ->
     bufs (glob s') = bufs (glob s) -> Q (Ret (Some (next_fd fs0))) s') ->
  wp (on_fs (fopen_w name)) Q s.
Proof.
  intros [Ho Hc Hf Hr Ha Hj] H1 H2.
  eapply (wp_on_fs _ (fun o g => o = Ret None /\ g = fs0 \/
      o = Ret (Some (next_fd fs0)) /\ g = opened (split_path name) fs0 /\
      writable (split_path name) (root fs0) = true)); [exact Ho|apply uses_fopen_w| |].
  - apply wp_fopen_w; cbn [glob]; rewrite Hf; [intros s1 ->; by left|].
    intros s1 Hw ->. by right.
  - intros o s1 O1 R1 A1 N1 HP. injection N1 as N1 N2 N3.
    destruct HP as [[-> E]|(-> & E & Hw)].
    + apply H1. split; congruence.
    + apply H2; [done| |done]. split; congruence.
Qed.

(** The whole function with the streams all closed before. *)
Lemma opened_file p fs0 :
  p <> [] -> writable p (root fs0) = true ->
  lookup_path p (root (opened p fs0)) = Some (File []).
Proof.
  intros Hp Hw. apply lookup_set_same. unfold writable in Hw.
  destruct (lookup_path p (root fs0)) eqn:E; [|done]. by eapply parent_ok_lookup.
Qed.

(** From the start of the writer to the end of the function. *)
Lemma wp_transfer fuel c clen f out_part out_path fs1 base j s :
  resting fs1 base (Some 200, Some clen) j (Some c) s ->
  s_sd_task_handle j = true -> (4096 <= fuel)%nat ->
  is_some (s_buf0 (bufs (glob s))) && is_some (s_buf1 (bufs (glob s))) = true ->
  streams fs1 = {[ f := Stream (split_path out_part) 0 [] ]} ->
  split_path out_part <> [] ->
  lookup_path (split_path out_part) (root fs1) = Some (File []) ->
  wp (on_job (update_job (set_job_file f)) ;;
      c <- nonnull (Some c) ;;
      r <- pp_loop fuel c false 0 ;;
      finish_file c f out_part out_path clen r) (file_post base ∅ out_path) s.
Proof.
  intros [[Hh Hb Hw [Hs Hj]] Hc Hf Hr Ha Hjb] Ht Hfu Hbb Hst Hp Hl.
  assert (Hcap : In (s_buf_capacity (bufs (glob s))) try_halves).
  { unfold bufs_wf in Hw. destruct (s_buf0 _), (s_buf1 _); try done. }
  apply wp_bind, wp_zoom, wp_modify. cbn [wld trace].
  set (s1 := Sys _ _ _).
  assert (X1 : xfer c f (split_path out_part) [] (root fs1, ∅, (Some 200, Some clen)) s1).
  { subst j s1. split; cbn [glob wld trace].
    - split; [done..|]. by split.
    - done.
    - done.
    - done.
    - done.
    - change (streams (fs (sd (glob s))) !! f = Some (Stream (split_path out_part) 0 [])).
      rewrite Hf, Hst. apply lookup_insert_eq.
    - unfold rest_of. rewrite Ha. cbn. rewrite Hf, Hst. f_equal. f_equal.
      apply delete_singleton_eq. }
  apply wp_bind, wp_ret, wp_bind. eapply wp_mono.
  { eapply (wp_pp_loop fuel c false 0 f _ [] [] _ base); [exact X1|by rewrite app_nil_r|done|done| |done].
    pose proof (xfer_cap _ _ _ _ _ _ X1). nia. }
  intros [r|x] s2; [|done]. intros (pend & got & X2 & R2 & T2 & _ & P2).
  by eapply wp_finish_file.
Qed.

Lemma wp_download_file fuel url out_path s :
  dl_owns (glob s) (trace s) -> job_ready (job (glob s)) ->
  streams (fs (sd (glob s))) = ∅ -> (4096 <= fuel)%nat ->
  wp (download_file_standalone fuel url out_path) (file_post (received (trace s)) ∅ out_path) s.
Proof.
  intros Ho Hrd Hst Hfu. unfold download_file_standalone. cbv zeta.
  apply wp_bind. eapply wp_mono; [by apply wp_http_connect|].
  intros o s1 (r & -> & O1 & R1 & N1 & H1). injection N1 as N1 N2 N3.
  destruct r as [[client clen]|].
  2: { apply wp_ret. split_and!; [done|congruence|by intros []|].
       exists []. rewrite app_nil_r. by split. }
  destruct H1 as (Hc & Ec & Ea).
  assert (K1 : resting (fs (sd (glob s))) (received (trace s)) (Some 200, Some clen)
                 (job (glob s)) client s1) by (split; congruence).
  apply wp_bind. eapply wp_buffers; [exact K1|]. intros s2 K2. apply wp_bind, wp_get.
  assert (Hgot : received (trace s) = received (trace s) ++ []) by (by rewrite app_nil_r).
  destruct (negb _ || negb _) eqn:Eb.
  { by eapply wp_give_up; [exact K2|..]. }
  apply wp_bind. eapply wp_open_part; [exact K2| |].
  { intros s3 K3. by eapply wp_give_up; [exact K3|..]. }
  intros s3 Hw K3 B3. apply wp_bind.
  set (p := split_path (out_path ++ ".part")) in *.
  set (fs1 := opened p (fs (sd (glob s)))) in *.
  assert (Hs1 : streams fs1 = {[ next_fd (fs (sd (glob s))) := Stream p 0 [] ]})
    by (unfold fs1; simpl; by rewrite Hst).
  assert (Hl : lookup_path p (root fs1) = Some (File [])) by (by apply opened_file; [apply part_path|]).
  destruct client as [c|]; [|done].
  assert (Hb3 : forall s4, bufs (glob s4) = bufs (glob s2) ->
    is_some (s_buf0 (bufs (glob s4))) && is_some (s_buf1 (bufs (glob s4))) = true)
    by (intros s4 ->; by destruct (is_some _), (is_some _)).
  rewrite (k_job _ _ _ _ _ _ K2).
  destruct (s_sd_task_handle (job (glob s))) eqn:Et.
  { apply wp_ret. cbn [negb].
    eapply wp_transfer; [exact K3|exact Et|exact Hfu|by apply Hb3|exact Hs1|apply part_path|exact Hl]. }
  eapply wp_start; [exact K3|exact Et|exact Hrd|]. intros b j' s4 K4 B4 T4.
  destruct b; cbn [negb].
  { eapply wp_transfer;
      [exact K4|exact T4|exact Hfu|apply Hb3; congruence|exact Hs1|apply part_path|exact Hl]. }
  apply wp_bind. eapply (wp_on_fs _ (fun o g => o = Ret tt /\ streams g = ∅)); 
    [apply K4|apply uses_fclose| |].
  { rewrite (k_fs _ _ _ _ _ _ K4). eapply wp_fclose; [cbn [glob]; rewrite Hs1; apply lookup_singleton_eq|].
    intros k s5 _ ->. split; [done|]. cbn [glob streams]. rewrite Hs1. apply delete_singleton_eq. }
  intros o s5 O5 R5 A5 N5 [-> S5]. injection N5 as N5 N6 N7.
  eapply (wp_give_up _ _ _ _ _ (fs (sd (glob s5))) (received (trace s)) (Some 200, Some clen) j');
    [|done|exact Hgot|done|done|done].
  destruct K4. split; congruence.
Qed.
End WholeFile.

(** ** Properties *)

Section Properties.
Context `{Env, MathLib}.

(** C7: when [download_file_standalone] returns [OK], the server had answered
    200, the body is not empty and as long as the length announced (if one was),
    and the file at [out_path] holds a prefix of exactly the bytes received,
    in order; all of them on a card that takes what is flushed to it.  The
    function always ends: it returns, or it runs into undefined behaviour
    (an overflow of its byte counters, or of a colour). *)
Theorem download_file_correct fuel url out_path s :
  dl_owns (glob s) (trace s) -> job_ready (job (glob s)) ->
  streams (fs (sd (glob s))) = ∅ -> (4096 <= fuel)%nat ->
  wp (download_file_standalone fuel url out_path) (fun o s' =>
    match o with
    | Ret OK => exists got len d lost,
        received (trace s') = received (trace s) ++ got /\ got <> [] /\
        answer (trace s') = (Some 200, Some len) /\ (0 < len -> Z.of_nat (length got) = len) /\
        got = d ++ lost /\ (card_drains -> lost = []) /\
        lookup_path (split_path out_path) (root (fs (sd (glob s')))) = Some (File d)
    | Ret _ => True
    | Halt x => x = ExUndefined
    end) s.
Proof.
  intros Ho Hj Hs Hf. eapply wp_mono; [by apply wp_download_file|].
  intros [[]|x] s'; try done. intros (_ & _ & _ & got & R & HOK).
  destruct (HOK eq_refl) as (len & d & lost & ?). exists got, len, d, lost. tauto.
Qed.

(** C8: [download_file_standalone] never uses a closed file, a NULL client or a
    NULL semaphore: it returns, or a 64-bit counter or a colour overflows
    ([ExUndefined]; the misuse of a handle is [ExMisuse] and does not occur).
    Whatever it returns, errors included, the HTTP clients, PSRAM blocks and
    semaphores that are live are exactly those the globals still name, none was
    used or released after its release, every file is closed, and after [OK] and
    [SD_FAILED] the function may be called again. *)
Theorem download_file_cleans_up fuel url out_path s :
  dl_owns (glob s) (trace s) -> job_ready (job (glob s)) ->
  streams (fs (sd (glob s))) = ∅ -> (4096 <= fuel)%nat ->
  wp (download_file_standalone fuel url out_path) (fun o s' =>
    match o with
    | Ret r => dl_owns (glob s') (trace s') /\ streams (fs (sd (glob s'))) = ∅ /\
        (r = OK \/ r = SD_FAILED -> job_ready (job (glob s')))
    | Halt x => x = ExUndefined
    end) s.
Proof.
  intros Ho Hj Hs Hf. eapply wp_mono; [by apply wp_download_file|].
  intros [r|x] s'; [|done]. intros (? & ? & ? & _). by split_and!.
Qed.
End Properties.

(** ** Concrete runs *)

#[local] Instance ex_math : MathLib := {| sinf := fun _ => SpecFloat.S754_zero false |}.

(** A mounted, empty card. *)
Definition card_root : node := Dir [("sdcard", Dir [])].

Definition dl_start (n : node) : dl_g :=
  DlG led_g_init (SdG (Posix n ∅ 3) (Some (Card 1 true)) true 10000) pool_init pp_init job_init 0 0.

(** The network delivers [bodies], then the end of the body. *)
Definition dl_reads (bodies : list string) : tworld :=
  tw_scripts [] [] None [] EmptyString (map (fun b => ReadData (chars b)) bodies) tw_init.

Definition ex_dl (ov : override) (bodies : list string) : @sys (test_env ov) dl_g :=
  @Sys (test_env ov) dl_g (dl_start card_root) (dl_reads bodies) [].

Lemma dl_owns_start n : dl_owns (dl_start n) [].
Proof. split; [by exists []|by exists []|done|by split; [exists []|]]. Qed.

#[local] Abbreviation ex_run :=
  (download_file_standalone (H := test_env no_override) 4096 "http://h/t.mp3" "/sdcard/t.mp3"
     (ex_dl no_override ["abc"; "de"])).

Lemma ex_run_ok : fst ex_run = Ret OK.
Proof. vm_compute. reflexivity. Qed.

Lemma ex_run_received : received (trace (snd ex_run)) = chars "abcde".
Proof. vm_compute. reflexivity. Qed.

(** The five bytes received are the file. *)
Lemma download_file_correct_witness :
  lookup_path (split_path "/sdcard/t.mp3") (root (fs (sd (glob (snd ex_run)))))
  = Some (File (chars "abcde")).
Proof.
  pose proof (wp_at _ _ _ _ (download_file_correct (H := test_env no_override) 4096
    "http://h/t.mp3" "/sdcard/t.mp3" (ex_dl no_override ["abc"; "de"]) (dl_owns_start _)
    (fun _ => conj eq_refl eq_refl) eq_refl (le_n _)) ex_run_ok) as Hw.
  destruct Hw as (got & len & d & lost & R & _ & _ & _ & E & Hl & Hd).
  rewrite ex_run_received, E, Hl, app_nil_r in R by (intros n w; apply le_n).
  change (chars "abcde" = d) in R. rewrite R. exact Hd.
Defined.

Lemma download_file_cleans_up_witness :
  dl_owns (glob (snd ex_run)) (trace (snd ex_run)) /\ streams (fs (sd (glob (snd ex_run)))) = ∅.
Proof.
  pose proof (wp_at _ _ _ _ (download_file_cleans_up (H := test_env no_override) 4096
    "http://h/t.mp3" "/sdcard/t.mp3" (ex_dl no_override ["abc"; "de"]) (dl_owns_start _)
    (fun _ => conj eq_refl eq_refl) eq_refl (le_n _)) ex_run_ok) as Hw.
  destruct Hw as (H1 & H2 & _). exact (conj H1 H2).
Defined.

(** A card on which nothing that is flushed arrives. *)
Definition leaky_card : override := fun _ X c =>
  match c in cmd X return option X with IoDrain _ => Some O | _ => None end.

(** [fflush] and [fclose] are not checked: on a card that loses what is
    flushed, the download of a file reports [OK] and leaves it empty. *)
Theorem flush_errors_ignored :
  let r := download_file_standalone (H := test_env leaky_card) 4096 "http://h/t.mp3"
             "/sdcard/t.mp3" (ex_dl leaky_card ["abc"; "de"]) in
  fst r = Ret OK /\
  lookup_path ["sdcard"; "t.mp3"] (root (fs (sd (glob (snd r))))) = Some (File []).
Proof. vm_compute. auto. Qed.
