(* ===== verification/DownloadFrames.v ===== *)
(** * What the download does to the card, whatever the platform answers

    A relation between file systems that the file operations of the download
    respect holds from the beginning to the end of its parts ([lifted]): used
    with [Posix.under] (nothing outside a directory changes) and with
    [CardShape.shape] (the tree gets no deeper). *)

From stdpp Require Import gmap strings.
From S2P Require Import Prelude Idf Logic CLib Protocol CFloat Led Posix FileHelpers CardShape.
From S2P Require Import SdCard Resources HttpPool Writer Download.
#[local] Open Scope Z_scope.

Definition lifted (R : sd_g -> sd_g -> Prop) (g g' : dl_g) : Prop := R (sd g) (sd g').

(** A relation between file systems, the card's driver aside. *)
Definition on_files (R0 : posix -> posix -> Prop) (g g' : sd_g) : Prop := R0 (fs g) (fs g').

#[export] Instance on_files_PreOrder R0 `{!PreOrder R0} : PreOrder (on_files R0).
Proof. split; unfold on_files; [intros ?; reflexivity|intros ???; apply transitivity]. Qed.

#[export] Instance lifted_PreOrder R `{!PreOrder R} : PreOrder (lifted R).
Proof. split; unfold lifted; [intros ?; reflexivity|intros ???; apply transitivity]. Qed.

Section Lift.
Context `{Env, MathLib, CJson}.
(** What holds of the driver's state and the files when [R0] holds of the files. *)
Context (R : sd_g -> sd_g -> Prop) `{!PreOrder R} (R0 : posix -> posix -> Prop) `{!PreOrder R0}
  (HR0 : forall g p, R0 (fs g) p -> R g (lset fs_lens p g)).

Lemma lift_fs {A} (m : M posix A) : moves R0 m -> moves (lifted R) (on_fs m).
Proof.
  intros Hm. apply (moves_zoom (lifted R) dfs_lens R0); [done|]. intros g b Hb. by apply HR0.
Qed.

Lemma lift_led {A} (m : M led_g A) : moves (lifted R) (on_led m).
Proof. intros s. unfold on_led, zoom, lifted. by destruct (m _). Qed.

Lemma lift_http {A} (m : M pool A) : moves (lifted R) (on_http m).
Proof. intros s. unfold on_http, zoom, lifted. by destruct (m _). Qed.

Lemma lift_bufs {A} (m : M pp_bufs A) : moves (lifted R) (on_bufs m).
Proof. intros s. unfold on_bufs, zoom, lifted. by destruct (m _). Qed.

Lemma lift_job {A} (m : M sd_write_job A) : moves (lifted R) (on_job m).
Proof. intros s. unfold on_job, zoom, lifted. by destruct (m _). Qed.

Lemma lift_sd {A} (m : M sd_g A) : moves R m -> moves (lifted R) (on_sd m).
Proof. intros Hm. by apply (moves_zoom (lifted R) sd_lens R). Qed.

Lemma lift_expected n : moves (lifted R) (set_expected n).
Proof. intros s. unfold lifted. reflexivity. Qed.

Lemma lift_downloaded n : moves (lifted R) (set_downloaded n).
Proof. intros s. unfold lifted. reflexivity. Qed.

Lemma lift_nonnull {A} (o : option A) : moves (lifted R) (nonnull o).
Proof. destruct o; unfold nonnull; moves_auto. Qed.
#[local] Hint Resolve lift_fs lift_led lift_http lift_bufs lift_job lift_expected lift_downloaded
  lift_nonnull : moves.

Lemma lift_progress : moves (lifted R) update_led_progress.
Proof. unfold update_led_progress. moves_auto. Qed.
#[local] Hint Resolve lift_progress : moves.

Lemma lift_connect url attempts client clen :
  moves (lifted R) (http_connect url attempts client clen).
Proof. revert client clen. induction attempts; intros; cbn [http_connect]; moves_auto. Qed.

Lemma lift_fill fuel c cap filled total : moves (lifted R) (fill_buffer fuel c cap filled total).
Proof. revert filled total. induction fuel; intros; cbn [fill_buffer]; cbv zeta; moves_auto. Qed.
#[local] Hint Resolve lift_connect lift_fill : moves.

(** Writing to open streams. *)
Context (Hwrite : forall fd bs, moves R0 (fwrite fd bs))
  (Hflush : forall fd, moves R0 (fflush fd)) (Hclose : forall fd, moves R0 (fclose fd)).

Lemma lift_write_job fd data : moves R0 (write_job fd data).
Proof.
  unfold write_job. generalize (length data) as n. intros n. revert data.
  induction n; intros [|]; cbn [write_chunks]; unfold write_chunk; moves_auto.
Qed.
#[local] Hint Resolve lift_write_job : moves.

Lemma lift_kick data : moves (lifted R) (kick_writer data).
Proof. unfold kick_writer, run_writer. moves_auto. Qed.

Lemma lift_await : moves (lifted R) await_writer.
Proof. unfold await_writer. moves_auto. Qed.
#[local] Hint Resolve lift_kick lift_await : moves.

Lemma lift_pp_loop fuel c pending total : moves (lifted R) (pp_loop fuel c pending total).
Proof.
  revert pending total. induction fuel; intros; cbn [pp_loop]; cbv zeta; unfold pp_round; moves_auto.
Qed.
#[local] Hint Resolve lift_pp_loop : moves.

(** The three operations on names: creating and removing the partial file, and
    giving it its name. *)
Section OneFile.
Context (out_path : string)
  (Hopen : moves R0 (fopen_w (out_path ++ ".part")))
  (Hunlink : moves R0 (unlink (out_path ++ ".part")))
  (Hrename : moves R0 (rename (out_path ++ ".part") out_path)).

Lemma lift_file fuel url : moves (lifted R) (download_file_standalone fuel url out_path).
Proof.
  unfold download_file_standalone. cbv zeta. unfold finish_file. cbv zeta. moves_auto.
Qed.
#[local] Hint Resolve lift_file : moves.

Lemma lift_set_freq f : moves (lifted R) (on_sd (set_sd_freq f)).
Proof.
  apply lift_sd. unfold set_sd_freq. moves_auto.
Qed.

(** Stepping down the clock is recorded in the driver's state. *)
Context (Hfreq : forall f, moves R (set_s_sd_freq_khz f)).

Lemma lift_retry steps fuel url r : moves (lifted R) (retry_file steps fuel url out_path r).
Proof.
  revert r. induction steps; intros; cbn [retry_file]; cbv zeta; moves_auto;
    try apply lift_set_freq; by apply lift_sd.
Qed.
End OneFile.

Lemma lift_files fuel tmp l :
  (forall name, moves R0 (fopen_w (join tmp name ++ ".part"))) ->
  (forall name, moves R0 (unlink (join tmp name ++ ".part"))) ->
  (forall name, moves R0 (rename (join tmp name ++ ".part") (join tmp name))) ->
  (forall f, moves R (set_s_sd_freq_khz f)) ->
  moves (lifted R) (download_files fuel tmp l).
Proof.
  intros Ho Hu Hr Hf. induction l as [|[name url] l IH]; cbn [download_files]; cbv zeta; moves_auto.
  - by apply lift_file.
  - by apply lift_retry.
Qed.

Lemma lift_collect l : moves (lifted R) (collect_files l).
Proof. induction l; cbn [collect_files]; moves_auto. Qed.

Lemma lift_fetch url folder : moves (lifted R) (fetch_list url folder).
Proof. pose proof lift_collect. unfold fetch_list. cbv zeta. moves_auto. Qed.
End Lift.

(** ** Instances *)

Lemma split_from_ne acc s : acc <> EmptyString -> split_from acc s <> [].
Proof.
  revert acc. induction s as [|a s IH]; intros acc Ha; simpl.
  - by destruct (String.eqb_spec acc "").
  - destruct (Ascii.eqb a "/"); [|apply IH; by destruct acc].
    destruct (String.eqb_spec acc ""); [done|]. done.
Qed.

(** A longer name has no fewer components. *)
Lemma split_longer acc s t :
  (length (split_from acc s) <= length (split_from acc (s ++ t)))%nat.
Proof.
  revert acc. induction s as [|a s IH]; intros acc; simpl.
  - destruct (String.eqb_spec acc ""); simpl; [lia|].
    pose proof (split_from_ne acc t).
    change ("" ++ t)%string with t. destruct (split_from acc t); [by tauto|simpl; lia].
  - destruct (Ascii.eqb a "/"); [|apply IH]. rewrite !length_app. specialize (IH EmptyString). lia.
Qed.

Lemma split_part tmp name :
  split_path (join tmp name ++ ".part") = split_path tmp ++ split_path (name ++ ".part").
Proof. rewrite <- split_join. f_equal. unfold join. by rewrite !app_assoc_string. Qed.

Section Instances.
Context `{Env, MathLib, CJson}.

(** The download of a file leaves the driver's clock alone. *)
Definition same_freq (g g' : sd_g) : Prop := s_sd_freq_khz g' = s_sd_freq_khz g.

#[export] Instance same_freq_PreOrder : PreOrder same_freq.
Proof. split; unfold same_freq; [done|intros ???; congruence]. Qed.

Lemma freq_file fuel url out : moves (lifted same_freq) (download_file_standalone fuel url out).
Proof.
  assert (PreOrder (fun _ _ : posix => True)) by done.
  by apply (lift_file same_freq (fun _ _ => True)).
Qed.

Lemma shape_fs g p : shape (fs g) p -> on_files shape g (lset fs_lens p g).
Proof. done. Qed.

Lemma shape_file_download fuel url out :
  moves (lifted (on_files shape)) (download_file_standalone fuel url out).
Proof.
  apply (lift_file _ shape shape_fs); auto with moves.
  - apply moves_shrinks_shape, shrinks_unlink.
  - apply shape_rename_op, split_longer.
Qed.

Lemma shape_retry steps fuel url out r :
  moves (lifted (on_files shape)) (retry_file steps fuel url out r).
Proof.
  apply (lift_retry _ shape shape_fs); auto with moves.
  - apply moves_shrinks_shape, shrinks_unlink.
  - apply shape_rename_op, split_longer.
  - intros f s. unfold on_files. reflexivity.
Qed.

Lemma shape_files fuel tmp l : moves (lifted (on_files shape)) (download_files fuel tmp l).
Proof.
  apply (lift_files _ shape shape_fs); auto with moves.
  - intros name. apply moves_shrinks_shape, shrinks_unlink.
  - intros name. apply shape_rename_op, split_longer.
  - intros f s. unfold on_files. reflexivity.
Qed.

(** The files of a folder are downloaded into the temporary directory. *)
Lemma under_files fuel tmp l :
  moves (lifted (on_files (under (split_path tmp)))) (download_files fuel tmp l).
Proof.
  apply (lift_files _ (under (split_path tmp)) (fun _ _ h => h)); auto with moves.
  - intros name. eapply under_fopen_w, split_part.
  - intros name. eapply under_unlink, split_part.
  - intros name. eapply under_rename; [apply split_part|apply split_join].
  - intros f s. unfold on_files. reflexivity.
Qed.

(** Nothing on the card changes while the list is fetched. *)
Definition same_sd (g g' : sd_g) : Prop := g' = g.

#[export] Instance same_sd_PreOrder : PreOrder same_sd.
Proof. split; unfold same_sd; [done|intros ???; congruence]. Qed.

Lemma card_fetch url folder : moves (lifted same_sd) (fetch_list url folder).
Proof. by apply (lift_fetch same_sd). Qed.
End Instances.
