(* ===== verification/DownloadFolder.v ===== *)
(** * Theorems on the download of a folder

    [download_simi_folder] from the list to the swap of the directories: it ends,
    gives back what it acquired, leaves the previous folder alone when it fails
    before the swap, and puts a verified folder in its place when it succeeds. *)

From Stdlib Require Import Permutation.
From stdpp Require Import gmap strings.
From S2P Require Import Prelude Idf Logic CLib Protocol CFloat Led Posix FileHelpers CardShape.
From S2P Require Import SdCard Resources HttpPool Writer Download DownloadFile DownloadFrames.
From S2P Require Import TestEnv.
#[local] Open Scope Z_scope.

(** ** Between two files *)

(** What holds after a file whose outcome was [r]: the handles are accounted
    for, no file is open, the tree is at most [D] deep, and after [OK] and
    [SD_FAILED] another file may follow. *)
Record after `{Env} (D : nat) (r : DlResult) (s : sys dl_g) : Prop := {
  a_owns : dl_owns (glob s) (trace s);
  a_closed : streams (fs (sd (glob s))) = ∅;
  a_names : names_with component (root (fs (sd (glob s))));
  a_depth : (depth (root (fs (sd (glob s)))) <= D)%nat;
  a_job : r = OK \/ r = SD_FAILED -> job_ready (job (glob s))
}.

(** The frequencies of the ladder below one. *)
Definition ladder_below (cur : Z) : nat := length (List.filter (fun f => f <? cur) SD_FREQ_LADDER).

Lemma ladder_step cur :
  0 <= sd_next_lower_freq cur ->
  (ladder_below (sd_next_lower_freq cur) < ladder_below cur)%nat.
Proof.
  unfold sd_next_lower_freq, ladder_below, SD_FREQ_LADDER. cbn [find List.filter].
  destruct (Z.ltb_spec 20000 cur), (Z.ltb_spec 10000 cur), (Z.ltb_spec 4000 cur);
    cbn; lia.
Qed.

Lemma ladder_three cur : (ladder_below cur <= 3)%nat.
Proof.
  unfold ladder_below, SD_FREQ_LADDER. cbn [List.filter].
  repeat case_match; simpl; lia.
Qed.

Section Folder.
Context `{Env, MathLib, CJson}.

Lemma wp_file_after fuel url out D s :
  after D OK s -> (4096 <= fuel)%nat ->
  wp (download_file_standalone fuel url out) (fun o s' =>
    match o with
    | Ret r => after D r s' /\ s_sd_freq_khz (sd (glob s')) = s_sd_freq_khz (sd (glob s))
    | Halt x => x = ExUndefined
    end) s.
Proof.
  intros [Ho Hc Hn Hd Hj] Hf.
  apply (wp_moves (lifted (on_files shape))); [apply shape_file_download|].
  apply (wp_moves (lifted same_freq)); [apply freq_file|].
  eapply wp_mono; [by apply wp_download_file; auto|].
  intros [r|x] s' Hp Hfr [Hs1 Hs2]; [|exact Hp].
  destruct Hp as (Ho' & Hc' & Hj' & _). split; [|exact Hfr].
  split; try done; [by apply Hs1|by etransitivity].
Qed.

(** An operation on files that leaves no stream open. *)
Lemma wp_after_fs {A} (m : M posix A) (P : outcome A -> posix -> Prop) D r
    (Q : outcome A -> sys dl_g -> Prop) s :
  after D r s -> uses [CIo] m -> moves shape m ->
  wp m (fun o s' => streams (glob s') = ∅ /\ P o (glob s'))
    (Sys (fs (sd (glob s))) (wld s) (trace s)) ->
  (forall o s', after D r s' -> s_sd_freq_khz (sd (glob s')) = s_sd_freq_khz (sd (glob s)) ->
     non_sd (glob s') = non_sd (glob s) -> P o (fs (sd (glob s'))) -> Q o s') ->
  wp (on_fs m) Q s.
Proof.
  intros [Ho Hc Hn Hd Hj] Hu Hs Hm HQ.
  apply (wp_moves (lifted (on_files shape))); [by apply (lift_fs _ shape shape_fs)|].
  apply (wp_moves (lifted same_freq));
    [by apply (lift_fs same_freq (fun _ _ => True))|].
  eapply (wp_on_fs _ (fun o g => streams g = ∅ /\ P o g)); [exact Ho|exact Hu|exact Hm|].
  intros o s' O' R' A' N' (C' & P') Hfr [Hs1 Hs2].
  apply HQ; [|exact Hfr|exact N'|exact P']. injection N' as N1 N2 N3.
  split; [exact O'|exact C'|by apply Hs1|by etransitivity|]. rewrite N3. exact Hj.
Qed.

(** A removal. *)
Lemma wp_after_unlink {A} name D r (k : M dl_g A) Q s :
  after D r s ->
  (forall s', after D r s' -> s_sd_freq_khz (sd (glob s')) = s_sd_freq_khz (sd (glob s)) ->
     wp k Q s') ->
  wp (_ <- on_fs (unlink name) ;; k) Q s.
Proof.
  intros Ha Hk. apply wp_bind.
  eapply (wp_after_fs _ (fun o _ => exists b, o = Ret b));
    [exact Ha|apply uses_unlink|apply moves_shrinks_shape, shrinks_unlink| |].
  - pose proof (a_closed _ _ _ Ha). apply wp_unlink.
    intros b s1 [-> | (n & _ & ->)]; (split; [done|by exists b]).
  - intros o s1 A1 F1 N1 [b ->]. by apply Hk.
Qed.

(** A computation that concerns the LED or the delays only. *)
Lemma after_still D r s s' :
  after D r s -> still (trace s) (trace s') -> sd (glob s') = sd (glob s) ->
  http (glob s') = http (glob s) -> bufs (glob s') = bufs (glob s) ->
  job (glob s') = job (glob s) -> after D r s'.
Proof.
  intros [] Hs E1 E2 E3 E4. split; rewrite ?E1, ?E4; try done. by eapply dl_owns_still.
Qed.

Lemma after_same D r s s' :
  after D r s -> still (trace s) (trace s') -> same_parts (glob s) (glob s') -> after D r s'.
Proof.
  intros Ha Hs Hp. unfold same_parts, transfer_parts in Hp. injection Hp as E1 E2 E3 E4.
  by eapply after_still.
Qed.

Lemma wp_after_parts {A} (m : M dl_g A) cs D r (Q : outcome A -> sys dl_g -> Prop) s :
  after D r s -> uses cs m -> other_device cs = true -> moves same_parts m ->
  wp m (fun o s' => after D r s' -> same_parts (glob s) (glob s') -> Q o s') s ->
  wp m Q s.
Proof.
  intros Ha Hu Hc Hp Hw. apply (wp_moves same_parts); [exact Hp|].
  eapply wp_still; [exact Hu|exact Hc|]. eapply wp_mono; [exact Hw|].
  intros o s' HQ Hst Hsm. apply HQ; [|exact Hsm]. by eapply after_same.
Qed.

(** Stepping the card's clock down. *)
Lemma wp_set_freq f D r (Q : outcome bool -> sys dl_g -> Prop) s :
  after D r s ->
  (forall b s', after D r s' -> sd (glob s') = sd (glob s) -> Q (Ret b) s') ->
  wp (on_sd (set_sd_freq f)) Q s.
Proof.
  intros Ha HQ.
  assert (Hu : uses [CSd] (on_sd (set_sd_freq f))).
  { unfold on_sd, set_sd_freq. uses_auto. }
  eapply (wp_after_parts _ [CSd] D r); [exact Ha|exact Hu|reflexivity| |].
  - apply (moves_zoom same_parts sd_lens eq); [|by intros g b <-].
    unfold set_sd_freq. moves_auto.
  - assert (Hret : forall s0, wp (set_sd_freq f) (fun o _ => exists b, o = Ret b) s0).
    { intros s0. unfold set_sd_freq. apply wp_bind, wp_get.
      destruct (s_card (glob s0)) as [c|]; [|apply wp_ret; by exists false].
      destruct (negb _); [apply wp_ret; by exists false|].
      apply wp_bind, wp_call. intros e w' _. apply wp_ret. by exists (is_ok e). }
    apply wp_zoom. eapply wp_mono; [apply Hret|]. intros o s' [b ->] A1 Hp.
    apply HQ; [exact A1|]. unfold same_parts, transfer_parts in Hp. by injection Hp.
Qed.

(** The retries of one file: at most one per frequency of the ladder. *)
Lemma wp_retry steps fuel url out D r s :
  after D r s -> (4096 <= fuel)%nat ->
  (ladder_below (s_sd_freq_khz (sd (glob s))) <= steps)%nat ->
  wp (retry_file steps fuel url out r) (fun o s' =>
    match o with Ret r' => after D r' s' | Halt x => x = ExUndefined end) s.
Proof.
  revert r s. induction steps as [|steps IH]; intros r s Ha Hf Hl; cbn [retry_file].
  all: destruct (is_sd_failed r) eqn:Er; cbn [negb]; [|by apply wp_ret].
  all: apply wp_bind, wp_get; cbv zeta; set (cur := s_sd_freq_khz (sd (glob s))) in *.
  all: destruct (Z.ltb_spec (sd_next_lower_freq cur) 0) as [|Hlow]; [by apply wp_ret|].
  all: pose proof (ladder_step cur Hlow) as Hstep.
  { lia. }
  apply wp_bind. eapply wp_set_freq; [exact Ha|]. intros ok s1 A1 S1.
  destruct ok; cbn [negb]; [|by apply wp_ret].
  apply wp_bind, wp_zoom, wp_modify. cbn [wld trace].
  assert (r = SD_FAILED) as -> by (by destruct r).
  set (s2 := Sys _ _ _).
  assert (A2 : after D OK s2).
  { destruct A1 as [[Hh Hb Hw Hj] Hc Hn Hd Hjob]. split; try done. intros _. apply Hjob. auto. }
  eapply wp_after_unlink; [exact A2|]. intros s3 A3 F3. apply wp_bind.
  eapply (wp_after_parts _ [CDelay]); [exact A3|uses_auto|reflexivity|apply moves_call_; typeclasses eauto|].
  apply wp_call_. intros u w' _ A4 _.
  apply wp_bind. eapply wp_mono; [by apply wp_file_after|].
  intros [r'|x] s5; [|done]. intros [A5 F5]. apply IH; [exact A5|exact Hf|].
  rewrite F5. cbn [glob]. rewrite F3.
  change (s_sd_freq_khz (sd (glob s2))) with (sd_next_lower_freq cur). lia.
Qed.

Lemma wp_progress_after D r (Q : outcome unit -> sys dl_g -> Prop) s :
  after D r s ->
  (forall s', after D r s' -> same_parts (glob s) (glob s') ->
     Q (Ret tt) s' /\ Q (Halt ExUndefined) s') ->
  wp update_led_progress Q s.
Proof.
  intros Ha HQ. apply (wp_stops _ _ _ _ stops_progress).
  eapply (wp_after_parts _ [CLedc; CMutex; CTask]);
    [exact Ha|apply uses_progress|reflexivity|apply parts_progress|].
  unfold wp. intros A1 P1 Hx. destruct (HQ _ A1 P1) as [Q1 Q2].
  destruct (fst (update_led_progress s)) as [[]|x]; [done|]. by rewrite Hx.
Qed.

Lemma wp_stat_after name D r (Q : outcome (option node) -> sys dl_g -> Prop) s :
  after D r s ->
  (forall o s', after D r s' -> non_sd (glob s') = non_sd (glob s) ->
     fs (sd (glob s')) = fs (sd (glob s)) ->
     (forall n, o = Some n -> lookup_path (split_path name) (root (fs (sd (glob s)))) = Some n) ->
     Q (Ret o) s') ->
  wp (on_fs (stat name)) Q s.
Proof.
  intros Ha HQ.
  eapply (wp_after_fs _ (fun o g => g = fs (sd (glob s)) /\ exists x, o = Ret x /\
    forall n, x = Some n -> lookup_path (split_path name) (root (fs (sd (glob s)))) = Some n));
    [exact Ha|apply uses_stat|apply moves_stat; typeclasses eauto| |].
  - apply wp_stat. intros w'. split; [apply Ha|]. split; [done|].
    eexists. split; [done|]. intros n. by destruct (fst (handle _ _)).
  - intros o s' A1 _ N1 (E & x & -> & Hx). by apply HQ.
Qed.

(** The files of the list, until one fails. *)
Lemma wp_files fuel tmp l D s :
  after D OK s -> (4096 <= fuel)%nat ->
  wp (download_files fuel tmp l) (fun o s' =>
    match o with Ret r => after D r s' | Halt x => x = ExUndefined end) s.
Proof.
  intros Ha Hf. revert s Ha. induction l as [|[name url] l IH]; intros s Ha; cbn [download_files].
  { by apply wp_ret. }
  apply wp_bind. eapply wp_progress_after; [exact Ha|]. intros s1 A1 _. split; [|done].
  cbv zeta. apply wp_bind. eapply wp_mono; [by apply wp_file_after|].
  intros [r|x] s2; [|done]. intros [A2 _]. apply wp_bind.
  eapply wp_mono; [apply wp_retry; [exact A2|exact Hf|apply ladder_three]|].
  intros [r'|x] s3; [|done]. intros A3. destruct r'; try (by apply wp_ret).
  apply wp_bind. eapply wp_stat_after; [exact A3|]. intros o s4 A4 _ _ _. by apply IH.
Qed.

(** ** The list *)

Lemma uses_collect l : uses [] (collect_files l).
Proof. induction l; cbn [collect_files]; unfold set_expected; uses_auto. Qed.

Lemma parts_collect l : moves same_parts (collect_files l).
Proof.
  induction l; cbn [collect_files]; moves_auto. unfold set_expected. by apply moves_modify.
Qed.

Lemma stops_collect l : stops undefined_only (collect_files l).
Proof. induction l; cbn [collect_files]; unfold set_expected; stops_auto. Qed.

(** One request with a client of its own. *)
Lemma wp_one_request {A} url D (k : option (Z * list (bool * string)) -> M dl_g A) Q s :
  after D OK s ->
  (forall o s', after D OK s' -> same_parts (glob s) (glob s') -> wp (k o) Q s') ->
  wp (client <- call (HttpInit url) ;;
      match client with
      | None => k None
      | Some c =>
          let! (err, data) := call (HttpPerform c) in
          call_ (HttpCleanup c) ;; k (Some (err, data))
      end) Q s.
Proof.
  intros Ha Hk. pose proof Ha as [[Hh Hb Hw [Hs Hj]] Hc Hn Hd Hjob].
  assert (Hx : forall tr w, owns http_rop tr (opt_list (s_http_client (http (glob s)))) ->
    owns heap_rop tr (opt_list (s_buf0 (bufs (glob s))) ++ opt_list (s_buf1 (bufs (glob s)))) ->
    owns sem_rop tr (opt_list (sem_job_ready (job (glob s))) ++ opt_list (sem_job_done (job (glob s)))) ->
    after D OK (Sys (glob s) w tr)).
  { by intros tr w ? ? ?. }
  apply wp_bind, wp_call. intros [c|] w' _.
  - apply wp_bind, wp_call. intros [err data] w2 _. apply wp_bind, wp_call_. intros u w3 _.
    apply Hk; [|done]. apply Hx.
    + eapply owns_release; [reflexivity|]. eapply owns_use; [reflexivity|by left|].
      by apply (owns_acquire http_rop (Ev (HttpInit url) (Some c)) _ _ (Some c)).
    + do 3 (apply owns_none; [done|]). exact Hb.
    + do 3 (apply owns_none; [done|]). exact Hs.
  - apply Hk; [|done]. apply Hx; [|by apply owns_none..].
    by apply (owns_acquire http_rop (Ev (HttpInit url) None) _ _ None).
Qed.

Lemma wp_fetch url folder D s :
  after D OK s ->
  wp (fetch_list url folder) (fun o s' =>
    match o with
    | Ret _ => after D OK s' /\ same_parts (glob s) (glob s')
    | Halt x => x = ExUndefined
    end) s.
Proof.
  intros Ha.
  eapply (wp_one_request _ D (fun o => match o with
    | None => ret None
    | Some (err, data) =>
        let body := fold_left http_event_list_handler data EmptyString in
        if negb (is_ok err) then ret None else
        match cJSON_Parse (cstr (chars body)) with
        | None => ret None
        | Some r =>
            if negb (cJSON_IsArray r) then ret None else
            file_list <- collect_files (json_items r) ;;
            if negb (existsb (fun it => strcmp_eq (fst it) "manifest.json") file_list)
            then ret None
            else
              g <- get ;;
              when (s_total_expected_bytes g =? 0)
                (set_expected (u32 (u32 (u32 (Z.of_nat (length file_list) * 2) * 1024) * 1024))) ;;
              ret (Some file_list)
        end
    end)); [exact Ha|].
  intros [[err data]|] s1 A1 P1; [|by apply wp_ret]. cbv zeta.
  destruct (negb (is_ok err)); [by apply wp_ret|].
  destruct (cJSON_Parse _) as [r|]; [|by apply wp_ret].
  destruct (negb (cJSON_IsArray r)); [by apply wp_ret|].
  apply wp_bind, (wp_stops _ _ _ _ (stops_collect _)).
  eapply (wp_after_parts _ []); [exact A1|apply uses_collect|reflexivity|apply parts_collect|].
  unfold wp. intros A2 P2 Hx. destruct (fst (collect_files _ s1)) as [l|x]; [|exact Hx].
  set (s2 := snd (collect_files _ s1)) in *.
  assert (P3 : same_parts (glob s) (glob s2)) by (etransitivity; eassumption).
  change (wp (if negb (existsb (fun it => strcmp_eq (fst it) "manifest.json") l)
            then ret None
            else
              g <- get ;;
              when (s_total_expected_bytes g =? 0)
                (set_expected (u32 (u32 (u32 (Z.of_nat (length l) * 2) * 1024) * 1024))) ;;
              ret (Some l)) (fun o s' =>
    match o with
    | Ret _ => after D OK s' /\ same_parts (glob s) (glob s')
    | Halt x => x = ExUndefined
    end) s2).
  destruct (negb _); [by apply wp_ret|].
  apply wp_bind, wp_get, wp_bind, wp_when; intros _; [|by apply wp_ret].
  apply wp_modify, wp_ret. split; [|exact P3]. eapply after_same; [exact A2|done|done].
Qed.

(** ** Verification *)

(** What [verify_entry] accepts: an entry without a name or a size, or a file of
    that size (as a [size_t]). *)
Definition entry_ok (t : node) (item : json) : Prop :=
  match item_string (cJSON_GetObjectItem item "name"),
        item_number (cJSON_GetObjectItem item "size") with
  | Some filename, Some v => exists n,
      lookup_path (split_path filename) t = Some n /\ sf_to_size_t v = Some (u32 (node_size n))
  | _, _ => True
  end.

(** A directory whose manifest is there, parses, and tells the size of every
    file it names. *)
Definition verified (t : node) : Prop :=
  exists d r files, lookup_path ["manifest.json"] t = Some (File d) /\
    cJSON_Parse (cstr d) = Some r /\ cJSON_GetObjectItem r "files" = Some files /\
    cJSON_IsArray files = true /\ Forall (entry_ok t) (json_items files).

Lemma uses_verify dir : uses [CIo] (verify_download_integrity dir).
Proof.
  assert (Hf : forall name, uses [CIo] (file_size_bytes name)) by (intros; unfold file_size_bytes; uses_auto).
  assert (Hr : forall name, uses [CIo] (read_text_file name)) by (intros; unfold read_text_file, fseek_end, fseek_set; uses_auto).
  assert (Hv : forall l b, uses [CIo] (verify_entries dir l b)).
  { induction l; intros; cbn [verify_entries]; unfold verify_entry; uses_auto; auto. }
  unfold verify_download_integrity. uses_auto; auto.
Qed.

Lemma shape_verify dir : moves shape (verify_download_integrity dir).
Proof.
  assert (Hf : forall name, moves shape (file_size_bytes name)) by (intros; unfold file_size_bytes; moves_auto).
  assert (Hr : forall name, moves shape (read_text_file name)) by (intros; unfold read_text_file, fseek_end, fseek_set; moves_auto).
  assert (Hv : forall l b, moves shape (verify_entries dir l b)).
  { induction l; intros; cbn [verify_entries]; unfold verify_entry; moves_auto; auto. }
  unfold verify_download_integrity. moves_auto; auto.
Qed.

Lemma wp_verify_entries dir l t b s :
  lookup_path (split_path dir) (root (glob s)) = Some t ->
  wp (verify_entries dir l b) (fun o s' =>
    match o with
    | Ret r => glob s' = glob s /\ (r = true -> b = true /\ Forall (entry_ok t) l)
    | Halt x => x = ExUndefined
    end) s.
Proof.
  intros Ht. revert b s Ht. induction l as [|item l IH]; intros b s Ht; cbn [verify_entries].
  { by apply wp_ret. }
  apply wp_bind, (wp_mono _ (fun o s' => match o with
    | Ret ok => glob s' = glob s /\ (ok = true -> entry_ok t item)
    | Halt x => x = ExUndefined end)).
  - unfold verify_entry, entry_ok. destruct (item_string _) as [f|]; [|by apply wp_ret].
    destruct (item_number _) as [v|]; [|by apply wp_ret].
    destruct (sf_to_size_t v) as [sz|]; [|by apply wp_halt].
    apply wp_bind, wp_file_size_bytes. intros ok w' tr'. apply wp_ret. split; [done|].
    rewrite split_join, lookup_app, Ht.
    destruct (lookup_path (split_path f) t) as [n|]; [|done]. destruct ok; [|done].
    intros E. apply Z.eqb_eq in E. exists n. by rewrite E.
  - intros [ok|x] s1; [|done]. intros [G1 E1].
    eapply wp_mono; [apply IH; by rewrite G1|]. intros [r|x] s2; [|done].
    intros [G2 E2]. split; [congruence|]. intros Hr. destruct (E2 Hr) as [Hb Hl].
    apply andb_prop in Hb as [-> Hok]. split; [done|]. constructor; auto.
Qed.

Lemma wp_verify dir s :
  wp (verify_download_integrity dir) (fun o s' =>
    match o with
    | Ret r => root (glob s') = root (glob s) /\ (streams (glob s) = ∅ -> streams (glob s') = ∅) /\
        (r = true -> exists t, lookup_path (split_path dir) (root (glob s)) = Some t /\ verified t)
    | Halt x => x = ExUndefined
    end) s.
Proof.
  apply wp_bind. eapply wp_mono; [apply wp_read_text_file|].
  intros o s1 (R1 & C1 & content & -> & Hc). destruct content as [d|]; [|by apply wp_ret].
  specialize (Hc d eq_refl). rewrite split_join, lookup_app in Hc.
  destruct (lookup_path (split_path dir) (root (glob s))) as [t|] eqn:Et; [|done].
  destruct (cJSON_Parse (cstr d)) as [r|] eqn:Ep; [|by apply wp_ret].
  destruct (cJSON_GetObjectItem r "files") as [files|] eqn:Ef; [|by apply wp_ret].
  destruct (cJSON_IsArray files) eqn:Ea; [|by apply wp_ret].
  eapply wp_mono; [eapply (wp_verify_entries _ _ t); by rewrite R1|].
  intros [b|x] s2; [|done]. intros [G2 E2]. rewrite G2. split_and!; [done|done|].
  intros Hb. destruct (E2 Hb) as [_ Hl]. exists t. split; [done|]. by exists d, r, files.
Qed.

(** ** Directories *)

Lemma wp_delete_after fuel dir D r (Q : outcome unit -> sys dl_g -> Prop) s :
  after D r s -> (Nat.max 1 D <= fuel)%nat ->
  (forall s', after D r s' -> non_sd (glob s') = non_sd (glob s) ->
     shrinks (fs (sd (glob s))) (fs (sd (glob s'))) -> Q (Ret tt) s') ->
  wp (on_fs (delete_tree fuel dir)) Q s.
Proof.
  intros Ha Hf HQ.
  eapply (wp_after_fs _ (fun o g => o = Ret tt /\ shrinks (fs (sd (glob s))) g));
    [exact Ha|apply uses_delete_tree|apply moves_shrinks_shape, shrinks_delete_tree| |].
  - apply (wp_moves shrinks); [apply shrinks_delete_tree|].
    eapply wp_mono; [apply wp_delete_tree_returns; [apply Ha|]|].
    + cbn [glob]. unfold tree_depth. pose proof (a_depth _ _ _ Ha) as Hd.
      destruct (lookup_path _ _) as [m|] eqn:E; [|lia]. apply depth_lookup in E. lia.
    + intros o s' -> Hs. destruct Hs as [Hst Hsh]. split; [|by split].
      rewrite Hst. apply Ha.
  - intros o s' A1 _ N1 [-> S1]. by apply HQ.
Qed.

(** [mkdir] may add a level. *)
Lemma wp_mkdir_after name D (Q : outcome bool -> sys dl_g -> Prop) s :
  after D OK s ->
  (forall b s', after (S D) OK s' -> non_sd (glob s') = non_sd (glob s) -> Q (Ret b) s') ->
  wp (on_fs (mkdir name)) Q s.
Proof.
  intros Ha HQ. pose proof Ha as [Ho Hc Hn Hd Hj].
  eapply (wp_on_fs _ (fun o g => exists b, o = Ret b /\ streams g = ∅ /\
    names_with component (root g) /\ (depth (root g) <= S D)%nat)); [exact Ho|apply uses_mkdir| |].
  - apply wp_bind, wp_call. intros ok w' _. apply wp_bind, wp_get. cbn [glob].
    assert (Hno : names_with component (root (fs (sd (glob s)))) /\
      (depth (root (fs (sd (glob s)))) <= S D)%nat) by (split; [done|lia]).
    destruct (lookup_path _ _); [apply wp_ret; by exists false|].
    destruct (_ && _); [|apply wp_ret; by exists false].
    apply wp_bind, wp_modify, wp_ret. exists true. cbn [glob root streams]. split_and!; try done.
    + apply names_set_path; [done|apply names_empty|apply path_components].
    + pose proof (depth_set_extra (split_path name) (Dir []) (root (fs (sd (glob s))))).
      simpl depth in *. lia.
  - intros o s' O1 R1 A1 N1 (b & -> & C1 & M1 & D1). apply HQ; [|exact N1].
    injection N1 as N1 N2 N3. split; try done. by rewrite N3.
Qed.

Lemma wp_prepare fuel tmp D s :
  after D OK s -> (Nat.max 1 D <= fuel)%nat ->
  wp (prepare_tmp fuel tmp) (fun o s' => exists b, o = Ret b /\ after (S D) OK s' /\
    non_sd (glob s') = non_sd (glob s)) s.
Proof.
  intros Ha Hf. apply wp_bind. eapply wp_stat_after; [exact Ha|]. intros o s1 A1 N1 _ _.
  apply wp_bind, (wp_mono _ (fun o s' => o = Ret tt /\ after D OK s' /\
    non_sd (glob s') = non_sd (glob s))).
  - apply wp_when; intros _; [|done]. eapply wp_delete_after; [exact A1|exact Hf|].
    intros s2 A2 N2 _. split_and!; [done|done|congruence].
  - intros o2 s2 (-> & A2 & N2). eapply wp_mkdir_after; [exact A2|].
    intros b s3 A3 N3. exists b. split_and!; [done|done|congruence].
Qed.

(** ** Giving everything back *)

(** No client, buffer, semaphore or task is left. *)
Definition cleared (g : dl_g) : Prop :=
  s_http_client (http g) = None /\ bufs g = pp_init /\ sem_job_ready (job g) = None /\
  sem_job_done (job g) = None /\ s_sd_task_handle (job g) = false.

Lemma wp_stop_after D r (Q : outcome unit -> sys dl_g -> Prop) s :
  after D r s ->
  (forall s', after D OK s' -> sem_job_ready (job (glob s')) = None ->
     sem_job_done (job (glob s')) = None -> s_sd_task_handle (job (glob s')) = false ->
     http (glob s') = http (glob s) -> sd (glob s') = sd (glob s) -> Q (Ret tt) s') ->
  wp (on_job stop_sd_writer_task) Q s.
Proof.
  intros [[Hh Hb Hw Hjob] Hc Hn Hd Hj] HQ. apply wp_zoom.
  set (s0 := Sys (job (glob s)) (wld s) (trace s)). destruct uses_task as [_ Hu].
  assert (E1 := owns_uses http_rop _ _ s0 _ Hu (rop_class_http [CSem; CTask; CDelay] eq_refl eq_refl) Hh).
  assert (E2 := owns_uses heap_rop _ _ s0 _ Hu (rop_class_heap [CSem; CTask; CDelay] eq_refl) Hb).
  destruct (wp_stop_task s0 Hjob) as (E & J1 & J2 & J3 & J4).
  set (s1 := snd (stop_sd_writer_task s0)) in *.
  assert (Hji : job_inv (glob s1) (trace s1)) by (split; [by rewrite J1, J2|by rewrite J3]).
  change (Sys (lget job_lens (glob s)) (wld s) (trace s)) with s0.
  unfold wp. rewrite E. by apply HQ.
Qed.

Lemma wp_free_after D (Q : outcome unit -> sys dl_g -> Prop) s :
  after D OK s ->
  (forall s', after D OK s' -> bufs (glob s') = pp_init -> http (glob s') = http (glob s) ->
     job (glob s') = job (glob s) -> sd (glob s') = sd (glob s) -> Q (Ret tt) s') ->
  wp (on_bufs free_pingpong_buffers) Q s.
Proof.
  intros [[Hh Hb Hw [Hs Hjb]] Hc Hn Hd Hj] HQ. apply wp_zoom.
  set (s0 := Sys (bufs (glob s)) (wld s) (trace s)). destruct uses_buffers as [_ Hu].
  assert (E1 := owns_uses http_rop _ _ s0 _ Hu (rop_class_http [CHeap] eq_refl eq_refl) Hh).
  assert (E2 := owns_uses sem_rop _ _ s0 _ Hu (rop_class_sem [CHeap] eq_refl) Hs).
  destruct (wp_free_buffers s0 Hb) as (E & J1 & J2).
  set (s1 := snd (free_pingpong_buffers s0)) in *.
  assert (Hbi : bufs_inv (glob s1) (trace s1) /\ bufs_wf (glob s1)) by (by rewrite J1).
  destruct Hbi as [Hbi Hbw].
  change (Sys (lget bufs_lens (glob s)) (wld s) (trace s)) with s0.
  unfold wp. rewrite E. by apply HQ.
Qed.

Lemma wp_give_back {A} D r (k : M dl_g A) Q s :
  after D r s ->
  (forall s', after D OK s' -> cleared (glob s') -> sd (glob s') = sd (glob s) -> wp k Q s') ->
  wp (on_http cleanup_http_pool ;; on_job stop_sd_writer_task ;;
      on_bufs free_pingpong_buffers ;; k) Q s.
Proof.
  intros Ha Hk. apply wp_bind.
  eapply (wp_on_http _ (fun o g => o = Ret tt /\ s_http_client g = None));
    [apply Ha|apply uses_cleanup_pool| |].
  { eapply wp_mono; [apply wp_cleanup_pool, Ha|]. by intros o s' (-> & ? & ?). }
  intros o s1 O1 _ _ N1 [-> HN]. injection N1 as N1 N2 N3.
  assert (A1 : after D r s1).
  { destruct Ha as [_ Hc Hn Hd Hj]. split; rewrite ?N1, ?N3; done. }
  apply wp_bind. eapply wp_stop_after; [exact A1|]. intros s2 A2 J1 J2 J3 HH2 S2.
  apply wp_bind. eapply wp_free_after; [exact A2|]. intros s3 A3 B3 HH3 J4 S3.
  apply Hk; [exact A3| |congruence]. unfold cleared. rewrite HH3, HH2, J4. by split_and!.
Qed.

(** ** The swap *)

(** The card's tree. *)
Definition tree (s : sys dl_g) : node := root (fs (sd (glob s))).

Lemma wp_verify_after dir D r (Q : outcome bool -> sys dl_g -> Prop) s :
  after D r s ->
  (forall b s', after D r s' -> non_sd (glob s') = non_sd (glob s) -> tree s' = tree s ->
     (b = true -> exists t, lookup_path (split_path dir) (tree s) = Some t /\ verified t) ->
     Q (Ret b) s') ->
  (forall s', Q (Halt ExUndefined) s') ->
  wp (on_fs (verify_download_integrity dir)) Q s.
Proof.
  intros [Ho Hc Hn Hd Hj] HQ Hx.
  eapply (wp_on_fs _ (fun o g => match o with
    | Ret b => root g = tree s /\ streams g = ∅ /\
        (b = true -> exists t, lookup_path (split_path dir) (tree s) = Some t /\ verified t)
    | Halt x => x = ExUndefined end)); [exact Ho|apply uses_verify| |].
  - eapply wp_mono; [apply wp_verify|]. intros [b|x] s'; [|done].
    intros (R1 & C1 & V1). split; [exact R1|]. split; [by apply C1|exact V1].
  - intros [b|x] s' O' R' A' N' P'; [|rewrite P'; apply Hx].
    destruct P' as (R1 & C1 & V1). apply HQ; try done. injection N' as N1 N2 N3.
    split; try done; [by rewrite R1|by rewrite R1|by rewrite N3].
Qed.

(** What a removal under [r] leaves alone. *)
Lemma wp_delete_under fuel dir r p D d (Q : outcome unit -> sys dl_g -> Prop) s :
  after D d s -> (Nat.max 1 D <= fuel)%nat -> split_path dir = r ++ p ->
  (forall s', after D d s' -> non_sd (glob s') = non_sd (glob s) ->
     (forall q, diverge r q = true -> lookup_path q (tree s') = lookup_path q (tree s)) ->
     Q (Ret tt) s') ->
  wp (on_fs (delete_tree fuel dir)) Q s.
Proof.
  intros Ha Hf Hp HQ.
  apply (wp_moves (lifted (on_files (under r)))).
  { apply (lift_fs _ (under r) (fun _ _ h => h)). by eapply under_delete_tree. }
  eapply wp_delete_after; [exact Ha|exact Hf|]. intros s' A' N' _ Hu.
  apply HQ; [done|done|]. apply Hu. unfold inside. rewrite (a_closed _ _ _ Ha). apply map_Forall_empty.
Qed.

Lemma shape_marker name text b : moves shape (write_marker name text b).
Proof. unfold write_marker. moves_auto. apply moves_shrinks_shape, shrinks_unlink. Qed.

Lemma under_marker r p name text : split_path name = r ++ p ->
  moves (under r) (write_marker name text false).
Proof. intros Hn. unfold write_marker, when. moves_auto. by eapply under_fopen_w. Qed.

Lemma wp_marker_after name text D r (Q : outcome unit -> sys dl_g -> Prop) s :
  after D r s ->
  (forall s', after D r s' -> non_sd (glob s') = non_sd (glob s) ->
     (forall q, diverge (split_path name) q = true -> lookup_path q (tree s') = lookup_path q (tree s)) ->
     Q (Ret tt) s') ->
  wp (on_fs (write_marker name text false)) Q s.
Proof.
  intros Ha HQ.
  apply (wp_moves (lifted (on_files (under (split_path name))))).
  { apply (lift_fs _ (under (split_path name)) (fun _ _ h => h)).
    apply (under_marker _ []). by rewrite app_nil_r. }
  eapply (wp_after_fs _ (fun o _ => o = Ret tt));
    [exact Ha|apply uses_write_marker|apply shape_marker| |].
  - eapply wp_mono; [apply wp_write_marker|]. intros o s' [-> Hc]. split; [|done].
    apply Hc, Ha.
  - intros o s' A' _ N' -> Hu. apply HQ; [done|done|]. apply Hu.
    unfold inside. rewrite (a_closed _ _ _ Ha). apply map_Forall_empty.
Qed.

(** The rename that publishes a folder. *)
Lemma wp_rename_after from to D r (Q : outcome bool -> sys dl_g -> Prop) s :
  after D r s -> (length (split_path to) <= length (split_path from))%nat ->
  (forall s', after D r s' -> non_sd (glob s') = non_sd (glob s) -> tree s' = tree s ->
     Q (Ret false) s') ->
  (forall n s', after D r s' -> non_sd (glob s') = non_sd (glob s) ->
     lookup_path (split_path from) (tree s) = Some n ->
     lookup_path (split_path to) (tree s') = Some n -> Q (Ret true) s') ->
  wp (on_fs (rename from to)) Q s.
Proof.
  intros Ha Hl K1 K2.
  eapply (wp_after_fs _ (fun o g => o = Ret false /\ root g = tree s \/
    o = Ret true /\ exists n, lookup_path (split_path from) (tree s) = Some n /\
      lookup_path (split_path to) (root g) = Some n));
    [exact Ha|apply uses_rename|by apply shape_rename_op| |].
  - pose proof (a_closed _ _ _ Ha) as Hc. apply wp_rename.
    + intros s' ->. split; [done|]. by left.
    + intros n s' Hn -> Hp. split; [done|]. right. split; [done|]. exists n. split; [done|].
      by apply lookup_set_same.
  - intros o s' A' _ N' [[-> E]|(-> & n & E1 & E2)]; [by apply K1|by apply (K2 n)].
Qed.

(** What is at [final] is the directory [t], up to the marker [.ok]. *)
Definition in_place (final : path) (t n : node) : Prop :=
  forall q, diverge [".ok"%string] q = true -> lookup_path (final ++ q) n = lookup_path q t.

(** Nothing outside [r] changed. *)
Definition untouched (r : path) (n n' : node) : Prop :=
  forall q, diverge r q = true -> lookup_path q n' = lookup_path q n.

(** The paths of a folder. *)
Lemma tmp_longer folder :
  (length (split_path ("/sdcard/" ++ folder)) <=
   length (split_path (("/sdcard/" ++ folder) ++ ".tmp")))%nat.
Proof. apply split_longer. Qed.

Lemma marker_path folder :
  split_path (join ("/sdcard/" ++ folder) ".ok")
  = split_path ("/sdcard/" ++ folder) ++ [".ok"%string].
Proof. apply split_join. Qed.

(** Replacing the old folder by the verified one. *)
Lemma wp_swap fuel folder D t (Q : outcome bool -> sys dl_g -> Prop) s :
  let final := ("/sdcard/" ++ folder)%string in
  let tmp := (final ++ ".tmp")%string in
  folder_name folder -> after D OK s -> (Nat.max 1 D <= fuel)%nat ->
  lookup_path (split_path tmp) (tree s) = Some t ->
  (forall b s', after D OK s' -> non_sd (glob s') = non_sd (glob s) ->
     (b = true -> in_place (split_path final) t (tree s')) -> Q (Ret b) s') ->
  wp (st <- on_fs (stat final) ;;
      when (is_some st) (on_fs (delete_tree fuel final)) ;;
      ok <- on_fs (rename tmp final) ;;
      if negb ok then on_fs (delete_tree fuel tmp) ;; ret false else
      on_fs (write_marker (join final ".ok") (String.append "OK" (String "010" "")) false) ;;
      ret true) Q s.
Proof.
  cbv zeta. intros Hfn Ha Hf Ht HQ.
  set (final := ("/sdcard/" ++ folder)%string) in *. set (tmp := (final ++ ".tmp")%string) in *.
  apply wp_bind. eapply wp_stat_after; [exact Ha|]. intros st s1 A1 N1 F1 _.
  apply wp_bind, (wp_mono _ (fun o s' => o = Ret tt /\ after D OK s' /\
    non_sd (glob s') = non_sd (glob s) /\ lookup_path (split_path tmp) (tree s') = Some t)).
  - apply wp_when; intros _; [|split_and!; try done; unfold tree; by rewrite F1].
    eapply (wp_delete_under _ _ (split_path final) []); [exact A1|exact Hf|by rewrite app_nil_r|].
    intros s2 A2 N2 U2. split_and!; [done|done|congruence|].
    rewrite U2; [unfold tree; by rewrite F1|].
    unfold tmp, final. rewrite folder_path, tmp_path by done. apply folder_diverge.
  - intros o s2 (-> & A2 & N2 & T2). apply wp_bind.
    eapply wp_rename_after; [exact A2|apply tmp_longer| |].
    + intros s3 A3 N3 _. cbn [negb]. apply wp_bind.
      eapply wp_delete_after; [exact A3|exact Hf|]. intros s4 A4 N4 _. apply wp_ret.
      apply HQ; [done|congruence|done].
    + intros n s3 A3 N3 E3 L3. cbn [negb]. assert (n = t) as -> by congruence.
      apply wp_bind. eapply wp_marker_after; [exact A3|]. intros s4 A4 N4 U4. apply wp_ret.
      apply HQ; [done|congruence|]. intros _ q Hq.
      rewrite U4; [by rewrite lookup_app, L3|].
      unfold final. rewrite marker_path. by rewrite diverge_app_same.
Qed.

Definition finalize_post (folder : string) (D : nat) (s : sys dl_g)
    (o : outcome bool) (s' : sys dl_g) : Prop :=
  match o with
  | Ret b => after D OK s' /\ non_sd (glob s') = non_sd (glob s) /\
      (b = true -> exists t, verified t /\
         in_place (split_path ("/sdcard/" ++ folder)) t (tree s'))
  | Halt x => x = ExUndefined
  end.

Lemma wp_finalize fuel folder D s :
  folder_name folder -> after D OK s -> (Nat.max 1 D <= fuel)%nat ->
  wp (finalize fuel (("/sdcard/" ++ folder) ++ ".tmp") ("/sdcard/" ++ folder))
    (finalize_post folder D s) s.
Proof.
  intros Hfn Ha Hf. apply wp_bind. eapply wp_verify_after; [exact Ha| |done].
  intros b s1 A1 N1 T1 V1. destruct b; cbn [negb].
  - destruct (V1 eq_refl) as (t & Ht & Hv).
    eapply (wp_swap fuel folder D t); [done|exact A1|exact Hf|by rewrite T1|].
    intros b s2 A2 N2 P2. split_and!; [done|congruence|]. intros Hb. exists t. auto.
  - apply wp_bind. eapply wp_delete_after; [exact A1|exact Hf|]. intros s2 A2 N2 _.
    apply wp_ret. split_and!; [done|congruence|done].
Qed.

(** ** The whole download *)

Lemma wp_led_after (m : M led_g unit) D r (Q : outcome unit -> sys dl_g -> Prop) s :
  after D r s -> uses [CLedc; CMutex; CTask] m -> stops undefined_only m ->
  (forall s', after D r s' -> same_parts (glob s) (glob s') -> Q (Ret tt) s') ->
  (forall s', Q (Halt ExUndefined) s') ->
  wp (on_led m) Q s.
Proof.
  intros Ha Hu Hs HQ Hx.
  assert (Hs' : stops undefined_only (on_led m)) by (by apply stops_zoom).
  apply (wp_stops _ _ _ _ Hs').
  eapply (wp_after_parts _ [CLedc; CMutex; CTask]);
    [exact Ha|by apply uses_zoom|reflexivity|apply parts_on_led|].
  unfold wp. intros A1 P1 E. destruct (fst (on_led m s)) as [[]|x]; [by apply HQ|].
  rewrite E. apply Hx.
Qed.

(** Showing a progress. *)
Lemma wp_show {A} n D r (k : M dl_g A) Q s :
  after D r s ->
  (forall s', after D r s' -> same_parts (glob s) (glob s') -> wp k Q s') ->
  (forall s', Q (Halt ExUndefined) s') ->
  wp (on_led (led_show_download_progress n) ;; on_led led_update ;; k) Q s.
Proof.
  intros Ha Hk Hx. apply wp_bind. eapply wp_led_after; [exact Ha| | | |exact Hx].
  - eapply uses_weaken; [|apply uses_show_progress]. apply list_subseteq_nil.
  - apply stops_show_download_progress.
  - intros s1 A1 P1. apply wp_bind. eapply wp_led_after; [exact A1| | | |exact Hx].
    + apply uses_led_update.
    + apply stops_led_update.
    + intros s2 A2 P2. apply Hk; [done|]. by etransitivity.
Qed.

Definition folder_post (folder : string) (D : nat) (s : sys dl_g)
    (o : outcome (bool * option bool)) (s' : sys dl_g) : Prop :=
  match o with
  | Ret (b, _) => after (S D) OK s' /\ (cleared (glob s) -> cleared (glob s')) /\
      (b = true -> exists t, verified t /\
         in_place (split_path ("/sdcard/" ++ folder)) t (tree s'))
  | Halt x => x = ExUndefined
  end.

Lemma cleared_parts g g' : non_sd g' = non_sd g -> cleared g -> cleared g'.
Proof. intros E. injection E as E1 E2 E3. unfold cleared. by rewrite E1, E2, E3. Qed.

Lemma same_parts_non_sd g g' : same_parts g g' -> non_sd g' = non_sd g.
Proof. unfold same_parts, transfer_parts, non_sd. intros E. by injection E as E1 -> -> ->. Qed.

Lemma after_deeper D r s : after D r s -> after (S D) r s.
Proof. intros []. split; try done. lia. Qed.

#[export] Instance untouched_PreOrder r : PreOrder (untouched r).
Proof. split; [done|]. intros a b c Hx Hy q Hq. by rewrite Hy, Hx. Qed.

(** A part of the download that changes only what is under [r]. *)
Lemma wp_untouched {A} (m : M dl_g A) r D d (Q : outcome A -> sys dl_g -> Prop) s :
  after D d s -> moves (lifted (on_files (under r))) m ->
  wp m (fun o s' => untouched r (tree s) (tree s') -> Q o s') s -> wp m Q s.
Proof.
  intros Ha Hm Hw. apply (wp_moves _ _ _ _ Hm). eapply wp_mono; [exact Hw|].
  intros o s' HQ Hu. assert (Hi : inside r (fs (sd (glob s)))).
  { unfold inside. rewrite (a_closed _ _ _ Ha). apply map_Forall_empty. }
  apply HQ. exact (proj2 (Hu Hi)).
Qed.

Lemma under_prepare fuel tmp :
  moves (lifted (on_files (under (split_path tmp)))) (prepare_tmp fuel tmp).
Proof.
  pose proof (fun m => lift_fs (on_files (under (split_path tmp))) (under (split_path tmp))
    (fun _ _ h => h) (A := unit) m) as Hu.
  assert (Hnil : split_path tmp = split_path tmp ++ []) by (by rewrite app_nil_r).
  unfold prepare_tmp. moves_auto.
  - apply (lift_fs _ (under (split_path tmp)) (fun _ _ h => h)), moves_stat. typeclasses eauto.
  - eapply Hu, under_delete_tree, Hnil.
  - apply (lift_fs _ (under (split_path tmp)) (fun _ _ h => h)). eapply under_mkdir, Hnil.
Qed.

Lemma tree_parts s s' : same_parts (glob s) (glob s') -> tree s' = tree s.
Proof. unfold same_parts, transfer_parts, tree. intros E. by injection E as -> _ _ _. Qed.

(** The download up to the swap: on every failure the handles are given back and
    nothing outside the temporary directory has changed. *)
Lemma wp_phases fuel tree_fuel folder url D (Q : outcome (bool * option bool) -> sys dl_g -> Prop) s :
  let final := ("/sdcard/" ++ folder)%string in
  let tmp := (final ++ ".tmp")%string in
  after D OK s -> (4096 <= fuel)%nat -> (S D <= tree_fuel)%nat ->
  (forall x s', after (S D) OK s' -> (cleared (glob s) -> cleared (glob s')) ->
     untouched (split_path tmp) (tree s) (tree s') -> Q (Ret (false, x)) s') ->
  (forall s', after (S D) OK s' -> cleared (glob s') ->
     untouched (split_path tmp) (tree s) (tree s') ->
     wp (ok <- finalize tree_fuel tmp final ;; ret (ok, if ok then Some false else None)) Q s') ->
  (forall s', Q (Halt ExUndefined) s') ->
  wp (download_simi_folder fuel tree_fuel folder url) Q s.
Proof.
  cbv zeta. intros Ha Hf Ht HQ Hfin Hx. unfold download_simi_folder.
  set (final := ("/sdcard/" ++ folder)%string) in *. set (tmp := (final ++ ".tmp")%string) in *.
  apply wp_bind, wp_modify, wp_bind, wp_modify. cbn [glob wld trace].
  match goal with |- wp _ _ ?t => set (s0 := t) end.
  assert (A0 : after D OK s0) by (by eapply after_same).
  assert (P0 : same_parts (glob s) (glob s0)) by done. clearbody s0.
  eapply wp_show; [exact A0| |exact Hx]. intros s1 A1 P1. apply wp_bind.
  eapply wp_mono; [by apply wp_fetch|].
  intros [o|x] s2; [|by intros ->]. intros [A2 P2].
  assert (P : same_parts (glob s) (glob s2)) by (by do 2 (etransitivity; [eassumption|])).
  pose proof (same_parts_non_sd _ _ P) as N2.
  assert (U2 : untouched (split_path tmp) (tree s) (tree s2)) by (by rewrite (tree_parts _ _ P)).
  clear P P0 P1 P2 A0 A1 s0 s1. destruct o as [file_list|].
  2: { apply wp_ret, HQ; [by apply after_deeper|by apply cleared_parts|done]. }
  apply wp_bind, (wp_untouched _ (split_path tmp) D OK); [exact A2|apply under_prepare|].
  eapply wp_mono; [apply (wp_prepare _ _ D); [exact A2|lia]|].
  intros o s3 (ready & -> & A3 & N3) U3. destruct ready; cbn [negb].
  2: { apply wp_ret, HQ; [done|apply cleared_parts; congruence|by etransitivity]. }
  apply wp_bind, (wp_untouched _ (split_path tmp) (S D) OK); [exact A3|apply under_files|].
  eapply wp_mono; [by apply wp_files|].
  intros [r|x] s4; [|by intros ->]. intros A4 U4.
  eapply wp_give_back; [exact A4|]. intros s5 A5 C5 S5.
  assert (U5 : untouched (split_path tmp) (tree s) (tree s5)).
  { unfold tree at 2. rewrite S5. by do 2 (etransitivity; [eassumption|]). }
  assert (Hfail : forall (c : bool) x, wp (when c (on_fs (delete_tree tree_fuel tmp)) ;; ret (false, x)) Q s5).
  { intros c x. apply wp_bind, wp_when; intros _; [|by apply wp_ret, HQ].
    eapply (wp_delete_under _ _ (split_path tmp) []); [exact A5|lia|by rewrite app_nil_r|].
    intros s7 A7 N7 U7. apply wp_ret, HQ; [done|intros _; by eapply cleared_parts|].
    by etransitivity. }
  destruct r; try (by apply Hfail).
  eapply wp_show; [exact A5| |exact Hx]. intros s6 A6 P6.
  apply wp_bind. eapply (wp_after_parts _ [CDelay]);
    [exact A6|uses_auto|reflexivity|apply moves_call_; typeclasses eauto|].
  apply wp_call_. intros u w' _ A7 _.
  apply Hfin; [exact A7|by eapply cleared_parts, C5; apply same_parts_non_sd|].
  change (untouched (split_path tmp) (tree s) (tree s6)). by rewrite (tree_parts _ _ P6).
Qed.

Lemma wp_folder fuel tree_fuel folder url D s :
  folder_name folder -> after D OK s -> (4096 <= fuel)%nat -> (S D <= tree_fuel)%nat ->
  wp (download_simi_folder fuel tree_fuel folder url) (folder_post folder D s) s.
Proof.
  intros Hfn Ha Hf Ht. apply (wp_phases _ _ _ _ D); [exact Ha|exact Hf|exact Ht| | |done].
  - intros x s' A' C' _. by split_and!.
  - intros s' A' C' _. apply wp_bind.
    eapply wp_mono; [apply (wp_finalize _ _ (S D)); [done|exact A'|lia]|].
    intros [b|x] s8; [|done]. intros (A8 & N8 & V8). apply wp_ret.
    split_and!; [done| |exact V8]. intros _. by eapply cleared_parts.
Qed.
End Folder.

(** ** On a card that refuses nothing *)

(** Renames are refused only for the reasons [Posix.rename] knows. *)
Class ReliableRename `{Env} := {
  io_rename from to w : fst (handle (IoRename from to) w) = true
}.

Section Reliable.
Context `{Env, MathLib, CJson, !ReliableCard, !ReliableRename}.

(** The previous folder makes way, whatever it is. *)
Lemma wp_make_way {A} fuel final D (k : M dl_g A) Q s :
  after D OK s -> (Nat.max 1 D <= fuel)%nat -> split_path final <> [] ->
  names_under plain_name (split_path final) (tree s) ->
  (forall s', after D OK s' -> 
     (forall q, diverge (split_path final) q = true -> lookup_path q (tree s') = lookup_path q (tree s)) ->
     match lookup_path (split_path final) (tree s') with Some x => removable x | None => true end = true ->
     wp k Q s') ->
  wp (st <- on_fs (stat final) ;; when (is_some st) (on_fs (delete_tree fuel final)) ;; k) Q s.
Proof.
  intros Ha Hf Hne Hn HQ. apply wp_bind.
  eapply (wp_after_fs _ (fun o g => g = fs (sd (glob s)) /\
      o = Ret (lookup_path (split_path final) (tree s))));
    [exact Ha|apply uses_stat|apply moves_stat; typeclasses eauto| |].
  { apply wp_stat. intros w'. rewrite io_stat. split; [apply Ha|]. by split. }
  intros o s1 A1 _ N1 [E1 ->]. assert (T1 : tree s1 = tree s) by (unfold tree; by rewrite E1).
  rewrite <- T1 in Hn |- *.
  assert (Hkeep : forall s', (forall q, diverge (split_path final) q = true ->
      lookup_path q (tree s') = lookup_path q (tree s1)) ->
    forall q, diverge (split_path final) q = true -> lookup_path q (tree s') = lookup_path q (tree s))
    by (intros s' Hs'; by rewrite <- T1).
  destruct (lookup_path (split_path final) (tree s1)) as [n|] eqn:El; cbn [is_some].
  2: { apply wp_bind, wp_ret, HQ; [done|by apply Hkeep|by rewrite El]. }
  set (P := fun n => match lookup_path (split_path final) n with
                     | Some x => removable x | None => true end = true).
  assert (Hp : wp (delete_tree fuel final) (fun _ s' => P (root (glob s')))
                 (Sys (fs (sd (glob s1))) (wld s1) (trace s1))).
  { destruct n as [d|es].
    - apply (wp_moves shrinks); [apply shrinks_delete_tree|]. intros [_ Hs]. unfold P.
      destruct (lookup_path _ (root (glob (snd _)))) as [m|] eqn:Em; [|done].
      destruct (Hs _ _ Em) as (m0 & Em0 & _ & _ & Hd). unfold tree in El.
      cbn [glob] in Em0. rewrite El in Em0. injection Em0 as <-. by destruct m.
    - eapply wp_mono; [apply (wp_delete_tree_removes _ _ es); [exact Hn|done|exact El|]|].
      + pose proof (depth_lookup _ _ _ El) as Hd. pose proof (a_depth _ _ _ A1) as Hd1.
        unfold tree in Hd. lia.
      + intros o s' [_ E]. unfold P. by rewrite E. }
  assert (Hp' : wp (on_fs (delete_tree fuel final)) (fun _ s' => P (tree s')) s1)
    by (apply wp_zoom; exact Hp).
  apply wp_bind. unfold when. eapply wp_mono.
  { eapply wp_conj; [exact Hp'|].
    eapply (wp_delete_under _ _ (split_path final) [] _ _ (fun o s' => o = Ret tt /\ after D OK s' /\
      untouched (split_path final) (tree s1) (tree s'))); [exact A1|exact Hf|by rewrite app_nil_r|].
    by intros s' A' _ U'. }
  intros o s' (P' & -> & A' & U'). apply HQ; [done|by apply Hkeep|exact P'].
Qed.

(** Making way, swapping and marking cannot fail. *)
Lemma wp_swap_succeeds fuel folder D t (Q : outcome bool -> sys dl_g -> Prop) s :
  let final := ("/sdcard/" ++ folder)%string in
  let tmp := (final ++ ".tmp")%string in
  folder_name folder -> after D OK s -> (Nat.max 1 D <= fuel)%nat ->
  names_under plain_name (split_path final) (tree s) ->
  lookup_path (split_path tmp) (tree s) = Some t ->
  (forall s', Q (Ret true) s') ->
  wp (st <- on_fs (stat final) ;;
      when (is_some st) (on_fs (delete_tree fuel final)) ;;
      ok <- on_fs (rename tmp final) ;;
      if negb ok then on_fs (delete_tree fuel tmp) ;; ret false else
      on_fs (write_marker (join final ".ok") (String.append "OK" (String "010" "")) false) ;;
      ret true) Q s.
Proof.
  cbv zeta. intros Hfn Ha Hf Hn Ht HQ.
  pose proof (folder_path folder Hfn) as Efin. pose proof (tmp_path folder Hfn) as Etmp.
  pose proof (folder_diverge folder) as Ediv. rewrite <- Efin, <- Etmp in Ediv.
  set (final := ("/sdcard/" ++ folder)%string) in *. set (tmp := (final ++ ".tmp")%string) in *.
  eapply wp_make_way; [exact Ha|exact Hf|by rewrite Efin|exact Hn|]. intros s1 A1 U1 F1.
  assert (Ht1 : lookup_path (split_path tmp) (tree s1) = Some t) by (by rewrite U1).
  apply wp_bind.
  set (r := set_path (split_path tmp) None (tree s1)).
  assert (Hpar : parent_ok (split_path final) r = true).
  { unfold r. rewrite Efin, Etmp in *. apply (parent_ok_sibling ["sdcard"%string]).
    by apply (parent_ok_lookup _ _ t). }
  assert (Hfree : match lookup_path (split_path final) r with Some x => removable x | None => true end = true).
  { unfold r. rewrite lookup_set_diverge; [exact F1|]. by rewrite diverge_sym. }
  eapply (wp_after_fs _ (fun o _ => o = Ret true));
    [exact A1|apply uses_rename|apply shape_rename_op, tmp_longer| |].
  { unfold rename. cbv zeta. apply wp_bind, wp_call. intros ok w' Hok.
    apply (handle_fst _ _ _ _ true) in Hok as ->; [|apply io_rename].
    apply wp_bind, wp_get. cbn [glob]. unfold tree in Ht1, r. rewrite Ht1. fold r.
    rewrite Hpar, Hfree. apply wp_bind, wp_modify, wp_ret. split; [apply A1|done]. }
  intros o s2 A2 _ _ ->. cbn [negb]. apply wp_bind. eapply wp_marker_after; [exact A2|].
  intros s3 _ _ _. by apply wp_ret.
Qed.

(** A failing [finalize] has only removed the temporary directory. *)
Lemma wp_finalize_keeps fuel folder D s :
  folder_name folder -> after D OK s -> (Nat.max 1 D <= fuel)%nat ->
  names_under plain_name (split_path ("/sdcard/" ++ folder)) (tree s) ->
  wp (finalize fuel (("/sdcard/" ++ folder) ++ ".tmp") ("/sdcard/" ++ folder)) (fun o s' =>
    o = Ret false ->
    untouched (split_path (("/sdcard/" ++ folder) ++ ".tmp")) (tree s) (tree s')) s.
Proof.
  intros Hfn Ha Hf Hn. apply wp_bind. eapply wp_verify_after; [exact Ha| |done].
  intros b s1 A1 N1 T1 V1. destruct b; cbn [negb].
  - destruct (V1 eq_refl) as (t & Ht & Hv).
    eapply (wp_swap_succeeds fuel folder D t); [done|exact A1|exact Hf|by rewrite T1|by rewrite T1|done].
  - apply wp_bind. eapply (wp_delete_under _ _ _ []); [exact A1|exact Hf|by rewrite app_nil_r|].
    intros s2 A2 N2 U2. apply wp_ret. intros _. by rewrite <- T1.
Qed.
End Reliable.

(** ** Properties *)

Section Properties.
Context `{Env, MathLib, CJson}.

(** C2: when [download_simi_folder] returns [true], the folder on the card is a
    directory [t] whose manifest parses and gives the size of every file it
    lists, up to the marker [.ok] written after the swap; and it always ends: it
    returns, or runs into undefined behaviour (a colour, a counter or a size out
    of range). *)
Theorem folder_success_verified fuel tree_fuel folder url D s :
  folder_name folder -> after D OK s -> (4096 <= fuel)%nat -> (S D <= tree_fuel)%nat ->
  wp (download_simi_folder fuel tree_fuel folder url) (fun o s' =>
    match o with
    | Ret (true, _) => exists t, verified t /\ in_place ["sdcard"%string; folder] t (tree s')
    | Ret (false, _) => True
    | Halt x => x = ExUndefined
    end) s.
Proof.
  intros Hfn Ha Hf Ht. eapply wp_mono; [by apply wp_folder|].
  intros [[[] x]|x] s' Hp; try done. destruct Hp as (_ & _ & Hv).
  rewrite (folder_path folder Hfn) in Hv. by apply Hv.
Qed.

(** C4: whatever [download_simi_folder] returns, no HTTP client, PSRAM buffer,
    semaphore or writer task is left, none was used or released after its
    release, no file is open, and it may be called again. *)
Theorem folder_gives_back fuel tree_fuel folder url D s :
  folder_name folder -> after D OK s -> cleared (glob s) ->
  (4096 <= fuel)%nat -> (S D <= tree_fuel)%nat ->
  wp (download_simi_folder fuel tree_fuel folder url) (fun o s' =>
    forall r, o = Ret r ->
      owns http_rop (trace s') [] /\ owns heap_rop (trace s') [] /\ owns sem_rop (trace s') [] /\
      cleared (glob s') /\ after (S D) OK s') s.
Proof.
  intros Hfn Ha Hc Hf Ht. eapply wp_mono; [by apply wp_folder|].
  intros o s' Hp [b x] ->. destruct Hp as (A' & C' & _). specialize (C' Hc).
  pose proof A' as [[Hh Hb _ [Hs _]] _ _ _ _]. pose proof C' as (E1 & E2 & E3 & E4 & _).
  unfold pool_inv in Hh. unfold bufs_inv in Hb. rewrite E1 in Hh. rewrite E2 in Hb.
  rewrite E3, E4 in Hs. by split_and!.
Qed.

(** C3: on a card that refuses no removal and no rename, a [download_simi_folder]
    that returns [false] has changed nothing outside its temporary directory: in
    particular the previous version of the folder is still there. *)
Theorem folder_failure_keeps_old `{!ReliableCard, !ReliableRename} fuel tree_fuel folder url D s :
  folder_name folder -> after D OK s -> (4096 <= fuel)%nat -> (S D <= tree_fuel)%nat ->
  names_under plain_name ["sdcard"%string; folder] (tree s) ->
  wp (download_simi_folder fuel tree_fuel folder url) (fun o s' =>
    forall x, o = Ret (false, x) ->
      untouched ["sdcard"%string; (folder ++ ".tmp")%string] (tree s) (tree s')) s.
Proof.
  intros Hfn Ha Hf Ht Hn.
  rewrite <- (folder_path folder Hfn) in Hn. rewrite <- (tmp_path folder Hfn).
  apply (wp_phases _ _ _ _ D); [exact Ha|exact Hf|exact Ht|by intros x s' _ _ Hu ? _| |done].
  intros s1 A1 _ U1. apply wp_bind.
  eapply wp_mono; [apply (wp_finalize_keeps _ _ (S D)); [done|exact A1|lia|]|].
  - intros p m c Hl. apply (Hn p m c). rewrite <- U1; [exact Hl|].
    rewrite (folder_path folder Hfn), (tmp_path folder Hfn). rewrite diverge_sym.
    apply diverge_app_l, folder_diverge.
  - intros [b|x] s2 Hb; [|done]. apply wp_ret. intros y [= -> _]. etransitivity; [exact U1|].
    by apply Hb.
Qed.
End Properties.

(** ** Concrete runs *)

#[local] Instance ex_math : MathLib := {| sinf := fun _ => SpecFloat.S754_zero false |}.

(** A JSON library that knows two documents: a list of two files, and the
    manifest that names the second with its size. *)
#[warnings="-register-all"]
Inductive toy_json :=
| TStr (s : string)
| TNum (f : float64)
| TArr (l : list toy_json)
| TObj (l : list (string * toy_json)).

Definition toy_list : toy_json := TArr [
  TObj [("filename", TStr "manifest.json"); ("url", TStr "http://h/m")];
  TObj [("filename", TStr "a.mp3"); ("url", TStr "http://h/a"); ("size", TNum (f64_of_Z 5))]]%string.
Definition toy_manifest : toy_json :=
  TObj [("files", TArr [TObj [("name", TStr "a.mp3"); ("size", TNum (f64_of_Z 5))]])]%string.

Fixpoint toy_find (k : string) (l : list (string * toy_json)) : option toy_json :=
  match l with
  | [] => None
  | (k', v) :: l' => if String.eqb k' k then Some v else toy_find k l'
  end.

#[local] Instance toy_cjson : CJson := {|
  json := toy_json;
  cJSON_Parse s := if String.eqb s "LIST" then Some toy_list
                   else if String.eqb s "MANIFEST" then Some toy_manifest else None;
  cJSON_IsArray j := match j with TArr _ => true | _ => false end;
  json_items j := match j with TArr l => l | _ => [] end;
  cJSON_GetObjectItem j k := match j with TObj l => toy_find k l | _ => None end;
  json_string j := match j with TStr s => Some s | _ => None end;
  json_number j := match j with TNum f => Some f | _ => None end
|}.

(** The previous version of the folder is on the card. *)
Definition old_card : node := Dir [("sdcard", Dir [("f", Dir [("old.mp3", File (chars "old"))])])]%string.

(** The server sends the list, then the two files. *)
Definition folder_world (file : string) : tworld :=
  tw_scripts [] [] None [] "LIST"
    [ReadData (chars "MANIFEST"); ReadData []; ReadData (chars file); ReadData []] tw_init.

Definition ex_folder (ov : override) (file : string) : @sys (test_env ov) dl_g :=
  @Sys (test_env ov) dl_g (dl_start old_card) (folder_world file) [].

#[local] Abbreviation folder_run ov file :=
  (download_simi_folder (H := test_env ov) 4096 10 "f" "http://l" (ex_folder ov file)).

#[local] Abbreviation tree_after ov file := (tree (H := test_env ov) (snd (folder_run ov file))).

Lemma ex_plain : names_with plain_name old_card.
Proof. apply plain_check_sound. vm_compute. reflexivity. Qed.

Lemma ex_after ov file : @after (test_env ov) 3 OK (ex_folder ov file).
Proof.
  split; [apply dl_owns_start|done|apply plain_component, ex_plain|simpl; lia|by intros _ _].
Qed.

Lemma ex_depth : (4 <= 10)%nat.
Proof. lia. Qed.

Lemma ex_cleared : cleared (dl_start old_card).
Proof. by split_and!. Qed.

Lemma ex_folder_name : folder_name "f".
Proof. by split. Qed.

Lemma ex_folder_ok : fst (folder_run no_override "abcde") = Ret (true, Some false).
Proof. vm_compute. reflexivity. Qed.

(** The new folder is there, complete. *)
Lemma folder_success_verified_witness :
  exists t, verified t /\ in_place ["sdcard"%string; "f"%string] t (tree_after no_override "abcde").
Proof.
  exact (wp_at _ _ _ _ (folder_success_verified (H := test_env no_override) 4096 10 "f" "http://l" 3
    (ex_folder no_override "abcde") ex_folder_name (ex_after _ _) (le_n _) ex_depth) ex_folder_ok).
Defined.

Lemma folder_gives_back_witness :
  cleared (glob (snd (folder_run no_override "abcde"))) /\
  owns heap_rop (trace (snd (folder_run no_override "abcde"))) [].
Proof.
  destruct (folder_gives_back (H := test_env no_override) 4096 10 "f" "http://l" 3
    (ex_folder no_override "abcde") ex_folder_name (ex_after _ _) ex_cleared (le_n _)
    ex_depth _ ex_folder_ok) as (_ & Hb & _ & Hc & _).
  exact (conj Hc Hb).
Defined.

(** A file that is shorter than its manifest says. *)
Lemma ex_folder_bad : fst (folder_run no_override "abcd") = Ret (false, None).
Proof. vm_compute. reflexivity. Qed.

#[local] Instance ex_reliable : @ReliableCard (test_env no_override).
Proof. by split. Qed.

#[local] Instance ex_renames : @ReliableRename (test_env no_override).
Proof. by split. Qed.

Lemma folder_failure_keeps_old_witness :
  lookup_path ["sdcard"; "f"; "old.mp3"]%string (tree_after no_override "abcd")
  = Some (File (chars "old")).
Proof.
  exact (folder_failure_keeps_old (H := test_env no_override) 4096 10 "f" "http://l" 3
    (ex_folder no_override "abcd") ex_folder_name (ex_after _ _) (le_n _) ex_depth
    (plain_under _ _ ex_plain) None ex_folder_bad ["sdcard"; "f"; "old.mp3"]%string eq_refl).
Defined.

(** A card that refuses to rename directories. *)
Definition no_rename : override := fun _ X c =>
  match c in cmd X return option X with
  | IoRename "/sdcard/f.tmp" _ => Some false
  | _ => None
  end.

(** The swap is not atomic: when the last rename fails, the previous folder
    has already been removed and the verified new one is removed too. *)
Theorem failed_swap_loses_both :
  fst (folder_run no_rename "abcde") = Ret (false, None) /\
  lookup_path ["sdcard"; "f"; "old.mp3"]%string (tree (H := test_env no_rename) (ex_folder no_rename "abcde"))
    = Some (File (chars "old")) /\
  lookup_path ["sdcard"; "f"]%string (tree_after no_rename "abcde") = None /\
  lookup_path ["sdcard"; "f.tmp"]%string (tree_after no_rename "abcde") = None.
Proof. vm_compute. auto. Qed.
