(* ===== verification/PingPong.v ===== *)
(** * The two tasks of a transfer, interleaved

    The loop of [download_file_standalone] and [sd_writer_task] as two threads
    over the memory they share: the two PSRAM buffers, [s_sd_job] and its two
    binary semaphores.  One step is one access to shared state (a read from the
    network into a buffer, one [fwrite] of a bounce buffer, one semaphore
    operation, one group of assignments to the job).  What the network delivers
    and how many bytes each [fwrite] takes are scripts of the initial state, so
    each thread is deterministic and only the scheduler chooses. *)

From stdpp Require Import list relations.
From S2P Require Import Prelude Idf.
#[local] Open Scope nat_scope.

(** ** State *)

Record shared := Shared {
  mem0 : list ascii;              (** [s_buf[0]], all its bytes *)
  mem1 : list ascii;              (** [s_buf[1]] *)
  jdata : bool;                   (** [s_sd_job.data]: is it [s_buf[1]]? *)
  jlen : nat;                     (** [s_sd_job.len] *)
  jerr : bool;                    (** [s_sd_job.sd_error] *)
  ready : bool;                   (** [sem_job_ready] was given *)
  done : bool                     (** [sem_job_done] was given *)
}.

Definition mem (b : bool) (h : shared) : list ascii := if b then mem1 h else mem0 h.

(** [memcpy] into a buffer at an offset. *)
Definition splice (off : nat) (bs m : list ascii) : list ascii :=
  take off m ++ bs ++ drop (off + length bs) m.

Definition set_mem (b : bool) (m : list ascii) (h : shared) : shared :=
  if b then Shared (mem0 h) m (jdata h) (jlen h) (jerr h) (ready h) (done h)
  else Shared m (mem1 h) (jdata h) (jlen h) (jerr h) (ready h) (done h).
Definition set_job (d : bool) (n : nat) (h : shared) : shared :=
  Shared (mem0 h) (mem1 h) d n false (ready h) (done h).
Definition set_jerr (e : bool) (h : shared) : shared :=
  Shared (mem0 h) (mem1 h) (jdata h) (jlen h) e (ready h) (done h).
Definition set_ready (b : bool) (h : shared) : shared :=
  Shared (mem0 h) (mem1 h) (jdata h) (jlen h) (jerr h) b (done h).
Definition set_done (b : bool) (h : shared) : shared :=
  Shared (mem0 h) (mem1 h) (jdata h) (jlen h) (jerr h) (ready h) b.

(** Where the network side is; the argument is [buf_filled]. *)
Inductive net_pc :=
| NRead (filled : nat)            (** the inner [while] *)
| NAfter (filled : nat)           (** [if (net_error || buf_filled == 0) break;] *)
| NTake (filled : nat)            (** [xSemaphoreTake(sem_job_done)] in the loop *)
| NKick (filled : nat)            (** the assignments to [s_sd_job] *)
| NGive (filled : nat)            (** [xSemaphoreGive(sem_job_ready)] *)
| NFinal                          (** the wait after the loop *)
| NEnd.

Record net := Net {
  npc : net_pc;
  cur : bool;
  pending : bool;                 (** [sd_write_pending] *)
  net_error : bool;
  sd_error : bool;
  reads : list read_result;       (** what the next reads bring; then the end *)
  handed : list ascii;            (** history: the bytes of all jobs so far *)
  recv : list ascii               (** history: the bytes read so far *)
}.

Inductive wr_pc :=
| WWait                                    (** [xSemaphoreTake(sem_job_ready)] *)
| WWrite (off : nat)                       (** the [while] over the chunks *)
| WRetry (off : nat) (rest : list ascii)   (** the second [fwrite] of a chunk *)
| WFlag (error : bool)                     (** [job->sd_error = error] *)
| WGive.                                   (** [xSemaphoreGive(sem_job_done)] *)

Record wr := Wr {
  wpc : wr_pc;
  accepts : list nat;             (** how much the next writes take; then all *)
  file : list ascii               (** the bytes handed to the file *)
}.

Record pst := P { nt : net; sh : shared; wt : wr }.

Section Steps.
(** [s_buf_capacity] and [sizeof(dram_bounce)] *)
Context (cap bounce : nat).

Definition goto (pc : net_pc) (n : net) : net :=
  Net pc (cur n) (pending n) (net_error n) (sd_error n) (reads n) (handed n) (recv n).

(** ** The network side *)

Definition net_step (s : pst) : option pst :=
  let n := nt s in
  let h := sh s in
  match npc n with
  | NRead filled =>
      if cap <=? filled then Some (P (goto (NAfter filled) n) h (wt s)) else
      match reads n with
      | [] => Some (P (goto (NAfter filled) n) h (wt s))
      | ReadErr :: rs =>
          Some (P (Net (NAfter filled) (cur n) (pending n) true (sd_error n) rs (handed n) (recv n))
                  h (wt s))
      | ReadData bs :: rs =>
          let bs := take (cap - filled) bs in
          match bs with
          | [] => Some (P (Net (NAfter filled) (cur n) (pending n) (net_error n) (sd_error n) rs
                             (handed n) (recv n)) h (wt s))
          | _ => Some (P (Net (NRead (filled + length bs)) (cur n) (pending n) (net_error n)
                             (sd_error n) rs (handed n) (recv n ++ bs))
                          (set_mem (cur n) (splice filled bs (mem (cur n) h)) h) (wt s))
          end
      end
  | NAfter filled =>
      if net_error n || (filled =? 0) then Some (P (goto NFinal n) h (wt s))
      else if pending n then Some (P (goto (NTake filled) n) h (wt s))
      else Some (P (goto (NKick filled) n) h (wt s))
  | NTake filled =>
      if done h then
        Some (P (Net (if jerr h then NFinal else NKick filled) (cur n) false (net_error n)
                   (sd_error n || jerr h) (reads n) (handed n) (recv n))
                (set_done false h) (wt s))
      else None
  | NKick filled =>
      Some (P (Net (NGive filled) (cur n) true (net_error n) (sd_error n) (reads n)
                 (handed n ++ take filled (mem (cur n) h)) (recv n))
              (set_job (cur n) filled h) (wt s))
  | NGive filled =>
      Some (P (Net (if filled <? cap then NFinal else NRead 0) (negb (cur n)) (pending n)
                 (net_error n) (sd_error n) (reads n) (handed n) (recv n))
              (set_ready true h) (wt s))
  | NFinal =>
      if pending n then
        if done h then
          Some (P (Net NEnd (cur n) false (net_error n) (sd_error n || jerr h) (reads n)
                     (handed n) (recv n)) (set_done false h) (wt s))
        else None
      else Some (P (goto NEnd n) h (wt s))
  | NEnd => None
  end.

(** ** The writer *)

(** [fwrite] of a list: how much is taken, and the rest of the script. *)
Definition accept (n : nat) (l : list nat) : nat * list nat :=
  match l with [] => (n, []) | k :: l' => (Nat.min k n, l') end.

Definition wr_step (s : pst) : option pst :=
  let h := sh s in
  let w := wt s in
  match wpc w with
  | WWait =>
      if ready h then Some (P (nt s) (set_ready false h) (Wr (WWrite 0) (accepts w) (file w)))
      else None
  | WWrite off =>
      if off <? jlen h then
        let chunk := take bounce (drop off (take (jlen h) (mem (jdata h) h))) in
        let '(k, l) := accept (length chunk) (accepts w) in
        Some (P (nt s) h
                (Wr (if k =? length chunk then WWrite (off + length chunk)
                     else WRetry off (drop k chunk)) l (file w ++ take k chunk)))
      else Some (P (nt s) h (Wr (WFlag false) (accepts w) (file w)))
  | WRetry off rest =>
      let chunk := take bounce (drop off (take (jlen h) (mem (jdata h) h))) in
      let '(k, l) := accept (length rest) (accepts w) in
      Some (P (nt s) h
              (Wr (if k =? length rest then WWrite (off + length chunk) else WFlag true) l
                 (file w ++ take k rest)))
  | WFlag e => Some (P (nt s) (set_jerr e h) (Wr WGive (accepts w) (file w)))
  | WGive => Some (P (nt s) (set_done true h) (Wr WWait (accepts w) (file w)))
  end.

(** Any thread that can move may be scheduled. *)
Inductive step (s s' : pst) : Prop :=
| step_net : net_step s = Some s' -> step s s'
| step_wr : wr_step s = Some s' -> step s s'.

(** The state when the file has just been opened: both buffers are allocated
    and the writer waits. *)
Definition start (m0 m1 : list ascii) (rs : list read_result) (ks : list nat) : pst :=
  P (Net (NRead 0) false false false false rs [] [])
    (Shared m0 m1 false 0 false false false) (Wr WWait ks []).

Definition finished (s : pst) : Prop := npc (nt s) = NEnd /\ wpc (wt s) = WWait.
End Steps.

(** ** The protocol *)

Section Proofs.
Context (cap bounce : nat) (Hcap : 0 < cap) (Hbounce : 0 < bounce).

(** The bytes of the job, and the chunk at an offset. *)
Definition job (h : shared) : list ascii := take (jlen h) (mem (jdata h) h).
Definition chunk (off : nat) (h : shared) : list ascii := take bounce (drop off (job h)).

(** The writer has nothing to do. *)
Definition idle (s : pst) : Prop :=
  wpc (wt s) = WWait /\ ready (sh s) = false /\ done (sh s) = false.

(** A job is under way: exactly one of the two semaphores and the writer holds
    it, and [before] is what the file had before it. *)
Definition job_phase (s : pst) (before : list ascii) : Prop :=
  let h := sh s in
  let w := wt s in
  match wpc w with
  | WWait => ready h = true /\ done h = false /\ file w = before \/
             ready h = false /\ done h = true /\ (jerr h = false -> file w = before ++ job h)
  | WWrite off => ready h = false /\ done h = false /\ off <= jlen h /\
             file w = before ++ take off (job h)
  | WRetry off rest => ready h = false /\ done h = false /\ off < jlen h /\
             file w ++ rest = before ++ take (off + length (chunk off h)) (job h)
  | WFlag e => ready h = false /\ done h = false /\ (e = false -> file w = before ++ job h)
  | WGive => ready h = false /\ done h = false /\ (jerr h = false -> file w = before ++ job h)
  end.

(** While the network side fills [s_buf[cur]]: the pending job is in the other
    buffer, and without one the file has everything that was handed over. *)
Definition between (s : pst) : Prop :=
  if pending (nt s) then
    jdata (sh s) = negb (cur (nt s)) /\
    exists before, handed (nt s) = before ++ job (sh s) /\ job_phase s before
  else idle s /\ file (wt s) = handed (nt s).

Definition filling (f : nat) (s : pst) : Prop :=
  f <= cap /\ recv (nt s) = handed (nt s) ++ take f (mem (cur (nt s)) (sh s)).

Definition inv (s : pst) : Prop :=
  let n := nt s in
  length (mem0 (sh s)) = cap /\ length (mem1 (sh s)) = cap /\ jlen (sh s) <= cap /\
  match npc n with
  | NRead f | NAfter f => sd_error n = false /\ filling f s /\ between s
  | NTake f => sd_error n = false /\ filling f s /\ pending n = true /\ between s
  | NKick f => sd_error n = false /\ filling f s /\ pending n = false /\ between s
  | NGive f => sd_error n = false /\ f <= cap /\ recv n = handed n /\ pending n = true /\
      idle s /\ jdata (sh s) = cur n /\ handed n = file (wt s) ++ job (sh s)
  | NFinal => sd_error n = true /\ pending n = false /\ idle s \/
      sd_error n = false /\ (net_error n = false -> recv n = handed n) /\ between s
  | NEnd => pending n = false /\ idle s /\
      (net_error n = false -> sd_error n = false -> file (wt s) = recv n)
  end.

Lemma length_mem b s : inv s -> length (mem b (sh s)) = cap.
Proof. intros (H0 & H1 & _). by destruct b. Qed.

Lemma chunk_app off h :
  take off (job h) ++ chunk off h = take (off + length (chunk off h)) (job h).
Proof.
  rewrite <- take_take_drop. f_equal. unfold chunk. rewrite length_take.
  destruct (Nat.le_gt_cases bounce (length (drop off (job h)))).
  - by rewrite Nat.min_l.
  - rewrite Nat.min_r by lia. by rewrite !take_ge by lia.
Qed.

Lemma length_job_le h : length (job h) <= jlen h.
Proof. unfold job. rewrite length_take. lia. Qed.

Lemma length_chunk_le off h : off <= jlen h -> off + length (chunk off h) <= jlen h.
Proof.
  intros Ho. unfold chunk. rewrite length_take, length_drop. pose proof (length_job_le h). lia.
Qed.

(** What a step of the writer does not touch. *)
Definition same_net (s s' : pst) : Prop :=
  nt s' = nt s /\ mem0 (sh s') = mem0 (sh s) /\ mem1 (sh s') = mem1 (sh s) /\
  jdata (sh s') = jdata (sh s) /\ jlen (sh s') = jlen (sh s).

Lemma wr_step_same s s' : wr_step bounce s = Some s' -> same_net s s'.
Proof.
  intros Hs. unfold wr_step in Hs.
  destruct (wpc (wt s)); repeat case_match; simplify_eq; by repeat split.
Qed.

Lemma same_net_job s s' : same_net s s' -> job (sh s') = job (sh s).
Proof.
  intros (_ & E0 & E1 & E2 & E3). unfold job, mem. by rewrite E0, E1, E2, E3.
Qed.

(** A step of the writer takes the job one step further. *)
Lemma wr_step_phase s s' before :
  job_phase s before -> wr_step bounce s = Some s' -> job_phase s' before.
Proof.
  intros Hp Hs. unfold wr_step in Hs. unfold job_phase in Hp.
  destruct (wpc (wt s)) as [|off|off rest|e|] eqn:Ew.
  - destruct (ready (sh s)) eqn:Er; [|done]. simplify_eq. cbn.
    destruct Hp as [(_ & Hd & Hf)|(? & _)]; [|done]. split_and!; [done|done|lia|].
    by rewrite app_nil_r.
  - destruct Hp as (Hr & Hd & Ho & Hf). destruct (Nat.ltb_spec off (jlen (sh s))) as [Hlt|Hge].
    + fold (job (sh s)) in Hs. fold (chunk off (sh s)) in Hs.
      destruct (accept _ _) as [k l] eqn:Ea. simplify_eq. unfold job_phase. cbn.
      destruct (Nat.eqb_spec k (length (chunk off (sh s)))) as [->|Hk]; cbn.
      * split_and!; [done|done|by apply length_chunk_le; lia|].
        rewrite take_ge by lia. rewrite Hf, <- app_assoc. by rewrite chunk_app.
      * split_and!; [done|done|done|].
        change (chunk off _) with (chunk off (sh s)).
        rewrite <- app_assoc, take_drop, Hf, <- app_assoc. by rewrite chunk_app.
    + simplify_eq. unfold job_phase. cbn. split_and!; [done|done|]. intros _.
      rewrite Hf. f_equal. rewrite take_ge; [done|]. pose proof (length_job_le (sh s)). lia.
  - destruct Hp as (Hr & Hd & Ho & Hf). fold (job (sh s)) in Hs. fold (chunk off (sh s)) in Hs.
    destruct (accept _ _) as [k l] eqn:Ea. simplify_eq. unfold job_phase. cbn.
    destruct (Nat.eqb_spec k (length rest)) as [->|Hk]; cbn; [|by split_and!].
    split_and!; [done|done|by apply length_chunk_le; lia|]. by rewrite take_ge by lia.
  - simplify_eq. unfold job_phase. cbn. tauto.
  - simplify_eq. unfold job_phase. cbn. right. tauto.
Qed.

Lemma idle_blocks s : idle s -> wr_step bounce s = None.
Proof. intros (E & Er & _). unfold wr_step. by rewrite E, Er. Qed.

Lemma wr_step_between s s' :
  between s -> wr_step bounce s = Some s' -> between s' /\ pending (nt s) = true.
Proof.
  intros Hb Hs. unfold between in *. pose proof (wr_step_same _ _ Hs) as Hn.
  pose proof (same_net_job _ _ Hn) as Hj. destruct Hn as (E & _ & _ & Ed & _). rewrite E.
  destruct (pending (nt s)).
  - split; [|done]. rewrite Ed, Hj. destruct Hb as (? & before & ? & Hp). split; [done|].
    exists before. split; [done|]. by eapply wr_step_phase.
  - destruct Hb as [Hi _]. by rewrite idle_blocks in Hs.
Qed.

Lemma wr_step_inv s s' : inv s -> wr_step bounce s = Some s' -> inv s'.
Proof.
  intros (L0 & L1 & L2 & Hp) Hs. pose proof (wr_step_same _ _ Hs) as (E & E0 & E1 & E2 & E3).
  unfold inv. rewrite E, E0, E1, E3. split_and!; try done.
  assert (Hfill : forall f, filling f s -> filling f s')
    by (intros f; unfold filling, mem; by rewrite E, E0, E1).
  destruct (npc (nt s)) as [f|f|f|f|f| |].
  - destruct Hp as (? & Hf & Hb). destruct (wr_step_between _ _ Hb Hs). auto.
  - destruct Hp as (? & Hf & Hb). destruct (wr_step_between _ _ Hb Hs). auto.
  - destruct Hp as (? & Hf & ? & Hb). destruct (wr_step_between _ _ Hb Hs). auto.
  - destruct Hp as (? & Hf & ? & Hb). destruct (wr_step_between _ _ Hb Hs). congruence.
  - destruct Hp as (? & ? & ? & ? & Hi & _). by rewrite idle_blocks in Hs.
  - destruct Hp as [(? & ? & Hi)|(? & ? & Hb)]; [by rewrite idle_blocks in Hs|].
    destruct (wr_step_between _ _ Hb Hs). auto.
  - destruct Hp as (? & Hi & _). by rewrite idle_blocks in Hs.
Qed.

(** The buffer after a read: the part filled before is still there. *)
Lemma take_splice f bs m :
  f + length bs <= length m -> take (f + length bs) (splice f bs m) = take f m ++ bs.
Proof.
  intros Hl. unfold splice. rewrite app_assoc, take_app_length'; [done|].
  rewrite length_app, length_take. lia.
Qed.

Lemma length_splice f bs m : f + length bs <= length m -> length (splice f bs m) = length m.
Proof.
  intros Hl. unfold splice. rewrite !length_app, length_take, length_drop. lia.
Qed.

(** Filling one buffer does not change the job in the other. *)
Lemma job_set_mem b m h : jdata h = negb b -> job (set_mem b m h) = job h.
Proof. intros E. unfold job. destruct b; simpl in *; by rewrite E. Qed.

Lemma mem_set_mem b m h : mem b (set_mem b m h) = m.
Proof. by destruct b. Qed.

Lemma phase_set_mem before n n' b m h w :
  jdata h = negb b -> job_phase (P n h w) before -> job_phase (P n' (set_mem b m h) w) before.
Proof.
  intros E Hp. unfold job_phase in *. cbn in *. unfold chunk in *.
  rewrite (job_set_mem b m h E). by destruct b.
Qed.

Lemma idle_set_mem n n' b m h w : idle (P n h w) -> idle (P n' (set_mem b m h) w).
Proof. by destruct b. Qed.

(** The network side reads into its buffer. *)
Lemma net_read_inv f bs rs s :
  inv s -> npc (nt s) = NRead f -> bs <> [] -> f + length bs <= cap ->
  inv (P (Net (NRead (f + length bs)) (cur (nt s)) (pending (nt s)) (net_error (nt s))
            (sd_error (nt s)) rs (handed (nt s)) (recv (nt s) ++ bs))
         (set_mem (cur (nt s)) (splice f bs (mem (cur (nt s)) (sh s))) (sh s)) (wt s)).
Proof.
  intros Hi Hn Hbs Hle. pose proof (length_mem (cur (nt s)) s Hi) as Hm.
  destruct Hi as (L0 & L1 & L2 & Hp). rewrite Hn in Hp. destruct Hp as (He & [Hf Hr] & Hb).
  destruct s as [n h w]. cbn [nt sh wt] in *.
  assert (Hl : length (splice f bs (mem (cur n) h)) = cap) by (rewrite length_splice; lia).
  unfold inv. cbn [nt sh wt npc sd_error]. split_and!; [by destruct (cur n)..| |done| |].
  - by destruct (cur n).
  - unfold filling. cbn [nt sh recv handed cur]. rewrite mem_set_mem, take_splice by lia.
    split; [done|]. by rewrite Hr, app_assoc.
  - unfold between in *. cbn [nt sh wt pending cur handed] in *. destruct (pending n).
    + destruct Hb as (Hd & before & Hh & Hp). split; [by destruct (cur n)|].
      exists before. rewrite job_set_mem by done. split; [done|]. by eapply phase_set_mem.
    + destruct Hb as [Hi Hfile]. split; [|done]. by eapply idle_set_mem.
Qed.

(** Taking [sem_job_done]: the writer is at rest and, without an error, the file
    has all that was handed over. *)
Lemma take_done s :
  between s -> pending (nt s) = true -> done (sh s) = true ->
  wpc (wt s) = WWait /\ ready (sh s) = false /\
  (jerr (sh s) = false -> file (wt s) = handed (nt s)).
Proof.
  intros Hb Hp Hd. unfold between in Hb. rewrite Hp in Hb. destruct Hb as (_ & before & -> & Hph).
  unfold job_phase in Hph. destruct (wpc (wt s)).
  - destruct Hph as [(_ & ? & _)|(? & _ & ?)]; [congruence|auto].
  - destruct Hph as (_ & ? & _). congruence.
  - destruct Hph as (_ & ? & _). congruence.
  - destruct Hph as (_ & ? & _). congruence.
  - destruct Hph as (_ & ? & _). congruence.
Qed.

Lemma net_step_inv s s' : inv s -> net_step cap s = Some s' -> inv s'.
Proof.
  intros Hi Hs. unfold net_step in Hs. pose proof Hi as (L0 & L1 & L2 & Hp).
  destruct (npc (nt s)) as [f|f|f|f|f| |] eqn:En.
  - destruct Hp as (He & Hf & Hb).
    assert (Hsame : forall ne rs, inv (P (Net (NAfter f) (cur (nt s)) (pending (nt s)) ne
      (sd_error (nt s)) rs (handed (nt s)) (recv (nt s))) (sh s) (wt s))) by (intros; by split_and!).
    destruct (cap <=? f) eqn:Ec; [simplify_eq; apply Hsame|]. apply Nat.leb_gt in Ec.
    destruct (reads (nt s)) as [|[|bs] rs]; [simplify_eq; apply Hsame..|].
    destruct (take (cap - f) bs) as [|c l] eqn:Et; simplify_eq; [apply Hsame|].
    apply net_read_inv; [done|done|done|]. apply (f_equal length) in Et.
    rewrite length_take in Et. lia.
  - destruct Hp as (He & Hf & Hb).
    destruct (net_error (nt s) || (f =? 0)) eqn:Ee; [|destruct (pending (nt s)) eqn:Epd];
      simplify_eq; split_and!; try done.
    right. split_and!; [done| |done]. cbn [nt net_error goto recv handed]. intros Hne.
    rewrite Hne in Ee. cbn in Ee. apply Nat.eqb_eq in Ee as ->. destruct Hf as [_ ->].
    by rewrite app_nil_r.
  - destruct Hp as (He & Hf & Hpd & Hb). destruct (done (sh s)) eqn:Ed; [|done]. simplify_eq.
    destruct (take_done s Hb Hpd Ed) as (Hw & Hr & Hfile).
    destruct (jerr (sh s)) eqn:Ej; split_and!; try done.
    + left. cbn. by rewrite orb_true_r.
    + cbn -[between]. split_and!; [by rewrite orb_false_r|done|done|].
      split; [done|by apply Hfile].
  - destruct Hp as (He & [Hf Hr] & Hpd & Hb). simplify_eq. unfold between in Hb. rewrite Hpd in Hb.
    destruct Hb as [Hidle Hfile]. split_and!; try done. cbn [nt handed wt sh]. by rewrite Hfile.
  - destruct Hp as (He & Hf & Hr & Hpd & (Hw & _ & Hd) & Hj & Hh). simplify_eq.
    assert (Hbt : forall pc, between (P (Net pc (negb (cur (nt s))) (pending (nt s))
      (net_error (nt s)) (sd_error (nt s)) (reads (nt s)) (handed (nt s)) (recv (nt s)))
      (set_ready true (sh s)) (wt s))).
    { intros pc. unfold between. cbn [nt pending]. rewrite Hpd. split; [by cbn; rewrite negb_involutive|].
      exists (file (wt s)). split; [done|]. unfold job_phase. cbn [wt sh]. rewrite Hw. by left. }
    destruct (f <? cap); split_and!; try done.
    + right. by split_and!.
    + cbn -[between]. split_and!; [done| |apply Hbt]. split; cbn; [lia|by rewrite app_nil_r].
  - destruct (pending (nt s)) eqn:Epd.
    + destruct (done (sh s)) eqn:Ed; [|done]. simplify_eq.
      destruct Hp as [(? & ? & _)|(He & Hrh & Hb)]; [congruence|].
      destruct (take_done s Hb Epd Ed) as (Hw & Hr & Hfile). split_and!; try done.
      cbn -[idle]. split_and!; [done|done|]. intros Hne Hse. rewrite Hrh by done. apply Hfile.
      by apply orb_false_elim in Hse as [_ ?].
    + simplify_eq. destruct Hp as [(He & ? & Hidle)|(He & Hrh & Hb)]; split_and!; try done;
        cbn -[idle].
      * split_and!; [done|done|congruence].
      * unfold between in Hb. rewrite Epd in Hb. destruct Hb as [Hidle Hfile].
        split_and!; [done|done|]. intros Hne _. by rewrite Hrh.
  - done.
Qed.

Lemma step_inv s s' : inv s -> step cap bounce s s' -> inv s'.
Proof. intros Hi [Hs|Hs]; [by eapply net_step_inv|by eapply wr_step_inv]. Qed.

Lemma steps_inv s s' : rtc (step cap bounce) s s' -> inv s -> inv s'.
Proof. induction 1; [done|]. intros. by eauto using step_inv. Qed.

Lemma start_inv m0 m1 rs ks : length m0 = cap -> length m1 = cap -> inv (start m0 m1 rs ks).
Proof.
  intros ? ?. split_and!; try done; [cbn; lia|]. cbn -[between filling].
  split_and!; [done| |by split_and!]. split; [lia|done].
Qed.

(** ** No two accesses to one buffer *)

(** The buffer the network side writes in its next step. *)
Definition net_writes (s : pst) : option bool :=
  match npc (nt s) with NRead _ => Some (cur (nt s)) | _ => None end.
(** The buffer the writer reads in its next step. *)
Definition wr_reads (s : pst) : option bool :=
  match wpc (wt s) with WWrite _ | WRetry _ _ => Some (jdata (sh s)) | _ => None end.

Lemma inv_no_race s b b' :
  inv s -> net_writes s = Some b -> wr_reads s = Some b' -> b' = negb b.
Proof.
  intros (_ & _ & _ & Hp) Hn Hw. unfold net_writes in Hn. destruct (npc (nt s)); simplify_eq.
  destruct Hp as (_ & _ & Hb). unfold between in Hb. unfold wr_reads in Hw.
  destruct (pending (nt s)).
  - destruct Hb as [Hd _]. destruct (wpc (wt s)); by simplify_eq.
  - destruct Hb as [(Hi & _) _]. by rewrite Hi in Hw.
Qed.

(** ** No deadlock *)

Lemma between_moves s :
  between s -> pending (nt s) = true -> done (sh s) = false ->
  exists s', wr_step bounce s = Some s'.
Proof.
  intros Hb Hp Hd. unfold between in Hb. rewrite Hp in Hb. destruct Hb as (_ & before & _ & Hph).
  unfold job_phase in Hph. unfold wr_step. destruct (wpc (wt s)) as [|off|off rest|e|].
  - destruct Hph as [(-> & _)|(_ & E & _)]; [eauto|congruence].
  - destruct (off <? jlen (sh s)); [|eauto]. destruct (accept _ _). eauto.
  - destruct (accept _ _). eauto.
  - eauto.
  - eauto.
Qed.

Lemma inv_moves s : inv s -> finished s \/ exists s', step cap bounce s s'.
Proof.
  intros (_ & _ & _ & Hp). destruct (net_step cap s) as [s'|] eqn:E; [right; eauto using step_net|].
  unfold net_step in E. destruct (npc (nt s)) as [f|f|f|f|f| |] eqn:En.
  - by repeat case_match.
  - by repeat case_match.
  - destruct Hp as (_ & _ & Hpd & Hb). destruct (done (sh s)) eqn:Ed; [done|].
    destruct (between_moves s Hb Hpd Ed) as [s' ?]. right. eauto using step_wr.
  - done.
  - done.
  - destruct (pending (nt s)) eqn:Hpd; [|done]. destruct (done (sh s)) eqn:Ed; [done|].
    destruct Hp as [(_ & ? & _)|(_ & _ & Hb)]; [done|].
    destruct (between_moves s Hb Hpd Ed) as [s' ?]. right. eauto using step_wr.
  - left. split; [done|]. apply Hp.
Qed.

(** ** Termination *)

(** How many steps the network side can still make, at most. *)
Definition net_rank (pc : net_pc) : nat :=
  match pc with
  | NRead f => if f =? 0 then 3 else 8
  | NAfter f => if f =? 0 then 2 else 7
  | NTake _ => 6 | NKick _ => 5 | NGive _ => 4 | NFinal => 1 | NEnd => 0
  end.
Definition net_work (n : net) : nat := 10 * length (reads n) + net_rank (npc n).

(** How many steps the writer can still make in its job, at most. *)
Definition wr_work (s : pst) : nat :=
  match wpc (wt s) with
  | WWait => if ready (sh s) then 3 * jlen (sh s) + 5 else 0
  | WWrite off => 3 * (jlen (sh s) - off) + 4
  | WRetry off _ => 3 * (jlen (sh s) - off) + 3
  | WFlag _ => 2
  | WGive => 1
  end.

Definition work (s : pst) : nat := (3 * cap + 10) * net_work (nt s) + wr_work s.

Lemma wr_work_le s : jlen (sh s) <= cap -> wr_work s < 3 * cap + 10.
Proof. intros Hl. unfold wr_work. destruct (wpc _); [destruct (ready _)|..]; lia. Qed.

Lemma rank_read_le f : net_rank (NRead f) <= 8.
Proof. cbn. destruct (f =? 0); lia. Qed.

Lemma net_step_work s s' : net_step cap s = Some s' -> net_work (nt s') < net_work (nt s).
Proof.
  unfold net_step, net_work. intros Hs. destruct (npc (nt s)) as [f|f|f|f|f| |] eqn:En.
  - destruct (cap <=? f); [simplify_eq; cbn; destruct (f =? 0); lia|].
    destruct (reads (nt s)) as [|[|bs] rs] eqn:Er;
      [simplify_eq; cbn; rewrite ?Er; destruct (f =? 0); cbn; lia..|].
    destruct (take (cap - f) bs) as [|c l]; simplify_eq.
    + cbn. destruct (f =? 0); lia.
    + pose proof (rank_read_le (f + length (c :: l))). cbn [nt reads npc]. cbn [length].
      assert (3 <= net_rank (NRead f)) by (cbn; destruct (f =? 0); lia). cbn [length] in *. lia.
  - destruct (net_error (nt s)); cbn [orb] in Hs; [simplify_eq; cbn; destruct (f =? 0); lia|].
    destruct (Nat.eqb_spec f 0) as [->|Hf0]; [simplify_eq; cbn; lia|].
    apply Nat.eqb_neq in Hf0. destruct (pending (nt s)); simplify_eq; cbn; rewrite ?Hf0; lia.
  - destruct (done (sh s)); [|done]. simplify_eq. cbn. destruct (jerr (sh s)); cbn; lia.
  - simplify_eq. cbn. lia.
  - simplify_eq. destruct (f <? cap); cbn; lia.
  - destruct (pending (nt s)); [destruct (done (sh s)); [|done]|]; simplify_eq; cbn; lia.
  - done.
Qed.

Lemma length_chunk_pos off s :
  inv s -> off < jlen (sh s) -> 0 < length (chunk off (sh s)).
Proof.
  intros Hi Ho. pose proof (length_mem (jdata (sh s)) s Hi) as Hm. destruct Hi as (_ & _ & Hl & _).
  unfold chunk, job. rewrite length_take, length_drop, length_take. lia.
Qed.

Lemma inv_working s : inv s -> wpc (wt s) <> WWait -> exists before, job_phase s before.
Proof.
  intros (_ & _ & _ & Hp) Hw. assert (Hi : ~ idle s) by (by intros (E & _)).
  assert (Hb : between s -> exists before, job_phase s before).
  { unfold between. destruct (pending (nt s)); [intros (_ & b & _ & ?); eauto|tauto]. }
  destruct (npc (nt s)); tauto.
Qed.

Lemma wr_step_work s s' :
  inv s -> wr_step bounce s = Some s' -> nt s' = nt s /\ wr_work s' < wr_work s.
Proof.
  intros Hi Hs. split; [by apply (wr_step_same _ _ Hs)|]. unfold wr_step in Hs. unfold wr_work at 2.
  destruct (wpc (wt s)) as [|off|off rest|e|] eqn:Ew.
  - destruct (ready (sh s)); [|done]. simplify_eq. cbn. lia.
  - destruct (Nat.ltb_spec off (jlen (sh s))) as [Ho|Ho]; [|simplify_eq; cbn; lia].
    fold (job (sh s)) in Hs. fold (chunk off (sh s)) in Hs.
    pose proof (length_chunk_pos off s Hi Ho).
    destruct (accept _ _) as [k l]. simplify_eq. unfold wr_work. cbn.
    destruct (k =? _); lia.
  - assert (Ho : off < jlen (sh s)).
    { destruct (inv_working s Hi) as [b Hb]; [congruence|]. unfold job_phase in Hb.
      rewrite Ew in Hb. tauto. }
    fold (job (sh s)) in Hs. fold (chunk off (sh s)) in Hs.
    pose proof (length_chunk_pos off s Hi Ho).
    destruct (accept _ _) as [k l]. simplify_eq. unfold wr_work. cbn. destruct (k =? _); lia.
  - simplify_eq. cbn. lia.
  - simplify_eq. unfold wr_work. cbn. destruct (inv_working s Hi) as [b Hb]; [congruence|].
    unfold job_phase in Hb. rewrite Ew in Hb. destruct Hb as (-> & _). lia.
Qed.

Lemma step_work s s' : inv s -> step cap bounce s s' -> work s' < work s.
Proof.
  intros Hi Hs. unfold work. destruct Hs as [Hs|Hs].
  - pose proof (net_step_work _ _ Hs). pose proof (net_step_inv _ _ Hi Hs) as (_ & _ & Hl & _).
    pose proof (wr_work_le _ Hl). nia.
  - destruct (wr_step_work _ _ Hi Hs) as [-> ?]. lia.
Qed.

(** ** Independence of the schedule *)

(** The writer does not look at the network side, nor at the other buffer. *)
Lemma wr_step_nt n n' h w h2 w2 :
  wr_step bounce (P n h w) = Some (P n h2 w2) -> wr_step bounce (P n' h w) = Some (P n' h2 w2).
Proof.
  unfold wr_step. cbn [nt sh wt]. intros Hs.
  destruct (wpc w); repeat case_match; by simplify_eq.
Qed.

Lemma wr_step_set_mem n b m h w h2 w2 :
  jdata h = negb b -> wr_step bounce (P n h w) = Some (P n h2 w2) ->
  wr_step bounce (P n (set_mem b m h) w) = Some (P n (set_mem b m h2) w2).
Proof.
  intros Ed. unfold wr_step. cbn [nt sh wt].
  assert (E : job (set_mem b m h) = job h) by (by apply job_set_mem). unfold job in E.
  rewrite E. assert (El : jlen (set_mem b m h) = jlen h) by (by destruct b). rewrite El.
  assert (Er : ready (set_mem b m h) = ready h) by (by destruct b). rewrite Er.
  intros Hs. destruct (wpc w); repeat case_match; simplify_eq; by destruct b.
Qed.

(** Steps of the two sides commute. *)
Lemma step_commutes s s1 s2 :
  inv s -> net_step cap s = Some s1 -> wr_step bounce s = Some s2 ->
  exists s', wr_step bounce s1 = Some s' /\ net_step cap s2 = Some s'.
Proof.
  intros Hi Hn Hw. destruct (wr_step_same _ _ Hw) as (En & E0 & E1 & Ed & El).
  assert (Hid : ~ idle s) by (intros Hid; by rewrite (idle_blocks s Hid) in Hw).
  assert (Hbt : between s -> pending (nt s) = true)
    by (intros Hb; by destruct (wr_step_between _ _ Hb Hw)).
  destruct s as [n h w]. destruct s2 as [n2 h2 w2]. cbn [nt sh wt] in *. subst n2.
  pose proof Hi as (_ & _ & _ & Hp). cbn [nt] in Hp.
  assert (Em : mem (cur n) h2 = mem (cur n) h) by (unfold mem; by rewrite E0, E1).
  unfold net_step in Hn |- *. cbn [nt sh wt] in *. rewrite ?Em.
  destruct (npc n) as [f|f|f|f|f| |] eqn:Epc.
  - destruct Hp as (_ & _ & Hb). pose proof (Hbt Hb) as Hpd. unfold between in Hb.
    cbn [nt] in Hb. rewrite Hpd in Hb. destruct Hb as [Hd _].
    repeat case_match; simplify_eq; eexists; (split; [|reflexivity]); cbn [nt sh wt];
      rewrite ?Em; eapply wr_step_nt; try apply wr_step_set_mem; eauto.
  - repeat case_match; simplify_eq; eexists; (split; [|reflexivity]); by eapply wr_step_nt.
  - destruct Hp as (_ & _ & Hpd & Hb). exfalso. destruct (done h) eqn:Edn; [|done].
    destruct (take_done _ Hb Hpd Edn) as (Ew & Er & _). unfold wr_step in Hw. cbn in *.
    by rewrite Ew, Er in Hw.
  - destruct Hp as (_ & _ & Hpd & Hb). by rewrite Hbt in Hpd.
  - tauto.
  - exfalso. destruct Hp as [Hp|(_ & _ & Hb)]; [tauto|]. pose proof (Hbt Hb) as Hpd.
    rewrite Hpd in Hn. destruct (done h) eqn:Edn; [|done].
    destruct (take_done _ Hb Hpd Edn) as (Ew & Er & _). unfold wr_step in Hw. cbn in *.
    by rewrite Ew, Er in Hw.
  - done.
Qed.

Lemma finished_stops s s' : inv s -> finished s -> rtc (step cap bounce) s s' -> s' = s.
Proof.
  intros (_ & _ & _ & Hp) [Hn Hw] Hs. rewrite Hn in Hp.
  inversion Hs as [|? y ? [Hy|Hy]]; subst; [done| |].
  - unfold net_step in Hy. by rewrite Hn in Hy.
  - rewrite idle_blocks in Hy; [done|tauto].
Qed.

(** Every schedule ends, and all end in the same state. *)
Lemma inv_converges s :
  inv s -> sn (step cap bounce) s /\
  exists s', finished s' /\ forall s1, rtc (step cap bounce) s s1 -> rtc (step cap bounce) s1 s'.
Proof.
  remember (work s) as k eqn:Ek. revert s Ek.
  induction (lt_wf k) as [k _ IH]. intros s -> Hi.
  assert (Hnext : forall s1, step cap bounce s s1 -> sn (step cap bounce) s1 /\
    exists s', finished s' /\ forall s2, rtc (step cap bounce) s1 s2 -> rtc (step cap bounce) s2 s').
  { intros s1 Hs. exact (IH _ (step_work _ _ Hi Hs) s1 eq_refl (step_inv _ _ Hi Hs)). }
  split; [constructor; intros s1 Hs; by apply Hnext|].
  destruct (inv_moves s Hi) as [Hf|[s1 Hs]].
  - exists s. split; [done|]. intros s1 Hs. inversion Hs as [|? y ? Hy]; subst; [done|].
    exfalso. destruct Hf as [Hn Hw]. destruct Hi as (_ & _ & _ & Hp). rewrite Hn in Hp.
    destruct Hy as [Hy|Hy]; [unfold net_step in Hy; by rewrite Hn in Hy|].
    rewrite idle_blocks in Hy; [done|tauto].
  - destruct (Hnext s1 Hs) as (_ & s' & Hf & Hall). exists s'. split; [done|].
    intros s2 Hs2. inversion Hs2 as [|? y ? Hy Hrest]; subst; [eapply rtc_l; [done|by apply Hall]|].
    destruct (Hnext y Hy) as (_ & s'' & Hf'' & Hall''). 
    assert (Hjoin : exists z, rtc (step cap bounce) s1 z /\ rtc (step cap bounce) y z).
    { destruct Hs as [Hs|Hs], Hy as [Hy|Hy].
      - assert (s1 = y) as -> by congruence. eauto.
      - destruct (step_commutes s s1 y Hi Hs Hy) as (z & ? & ?).
        exists z. split; apply rtc_once; [by apply step_wr|by apply step_net].
      - destruct (step_commutes s y s1 Hi Hy Hs) as (z & ? & ?).
        exists z. split; apply rtc_once; [by apply step_net|by apply step_wr].
      - assert (s1 = y) as -> by congruence. eauto. }
    destruct Hjoin as (z & Hz1 & Hz2).
    assert (s' = s'') as ->.
    { apply (finished_stops s'' s'); [|done|].
      - eapply steps_inv, step_inv; [|exact Hi|exact Hy]. apply Hall''. done.
      - apply Hall. eapply rtc_trans; [exact Hz1|by apply Hall'']. }
    by apply Hall''.
Qed.
End Proofs.

(** ** Properties *)

Section Properties.
Context (cap bounce : nat).

(** C6: whatever the schedule of the two tasks, the transfer of a file ends; it can
    only stop with both sides at rest, and every schedule stops in the same state.
    In particular the sequential order, in which the writer runs as soon as a
    buffer is handed over, gives the result of all of them. *)
Theorem transfer_schedule_independent m0 m1 rs ks :
  0 < cap -> 0 < bounce -> length m0 = cap -> length m1 = cap ->
  sn (step cap bounce) (start m0 m1 rs ks) /\
  exists s', finished s' /\
    forall s, rtc (step cap bounce) (start m0 m1 rs ks) s ->
      rtc (step cap bounce) s s' /\ (nf (step cap bounce) s -> s = s').
Proof.
  intros Hc Hb L0 L1.
  destruct (inv_converges cap bounce Hc Hb _ (start_inv cap bounce Hc Hb m0 m1 rs ks L0 L1))
    as (Hsn & s' & Hf & Hall).
  split; [done|]. exists s'. split; [done|]. intros s Hs. split; [by apply Hall|].
  intros Hnf. destruct (Hall s Hs) as [|? y ? Hy]; [done|]. destruct Hnf. by exists y.
Qed.

(** C5: at every moment of every schedule the network side and the writer work on
    different buffers, and when the transfer is over without an error of the
    network or of the card the file holds exactly the bytes that were read, in
    order. *)
Theorem transfer_correct m0 m1 rs ks s :
  0 < cap -> 0 < bounce -> length m0 = cap -> length m1 = cap ->
  rtc (step cap bounce) (start m0 m1 rs ks) s ->
  (forall b b', net_writes s = Some b -> wr_reads s = Some b' -> b' = negb b) /\
  (finished s -> net_error (nt s) = false -> sd_error (nt s) = false ->
     file (wt s) = recv (nt s)).
Proof.
  intros Hc Hb L0 L1 Hs.
  pose proof (steps_inv cap bounce Hc Hb _ _ Hs (start_inv cap bounce Hc Hb m0 m1 rs ks L0 L1)) as Hi.
  split; [intros b b'; by apply (inv_no_race cap bounce)|].
  intros [Hn _]. destruct Hi as (_ & _ & _ & Hp). rewrite Hn in Hp. tauto.
Qed.
End Properties.

(** ** A concrete transfer: buffers of two bytes, one short write *)

Definition ex_reads : list read_result :=
  [ReadData ["a"; "b"; "c"]; ReadData ["d"]; ReadData ["e"]]%char.
Definition ex_start : pst := start ["0"; "0"]%char ["0"; "0"]%char ex_reads [1].

(** The network side first, whenever it can move. *)
Fixpoint run (fuel : nat) (s : pst) : pst :=
  match fuel with
  | O => s
  | S fuel =>
      match net_step 2 s with
      | Some s' => run fuel s'
      | None => match wr_step 1 s with Some s' => run fuel s' | None => s end
      end
  end.

Lemma run_rtc fuel s : rtc (step 2 1) s (run fuel s).
Proof.
  revert s. induction fuel as [|fuel IH]; intros s; [done|]. cbn [run].
  destruct (net_step 2 s) eqn:E; [eapply rtc_l; [by apply step_net|by apply IH]|].
  destruct (wr_step 1 s) eqn:E'; [eapply rtc_l; [by apply step_wr|by apply IH]|done].
Qed.

Lemma transfer_schedule_independent_witness :
  exists s', finished s' /\ s' = run 100 ex_start.
Proof.
  destruct (transfer_schedule_independent 2 1 ["0"; "0"]%char ["0"; "0"]%char ex_reads [1]
    (le_S _ _ (le_n 1)) (le_n 1) eq_refl eq_refl) as (_ & s' & Hf & Hall).
  exists s'. split; [exact Hf|]. symmetry. apply (Hall (run 100 ex_start) (run_rtc 100 ex_start)).
  intros [y [Hy|Hy]]; vm_compute in Hy; discriminate Hy.
Defined.

Lemma transfer_correct_witness :
  file (wt (run 100 ex_start)) = recv (nt (run 100 ex_start)).
Proof.
  apply (transfer_correct 2 1 ["0"; "0"]%char ["0"; "0"]%char ex_reads [1] (run 100 ex_start)
    (le_S _ _ (le_n 1)) (le_n 1) eq_refl eq_refl (run_rtc 100 ex_start)); by vm_compute.
Defined.

Lemma ex_file : file (wt (run 100 ex_start)) = ["a"; "b"; "d"; "e"]%char.
Proof. by vm_compute. Qed.
