(* ===== verification/InitWifi.v ===== *)
(** * [simibox_download::init_wifi]

    The connection helper of [simibox_download.cpp], with its own event group and
    handler.  The program connects through [WifiCreds] instead; the helper is
    exported by the header.  As there, the handler runs at every driver call made
    after its registration and inside the blocking wait. *)

From S2P Require Import Prelude Idf Logic CLib WifiCreds TestEnv.
#[local] Open Scope Z_scope.

Definition WIFI_CONNECTED : Z := 1.

Section InitWifi.
Context `{Env, EventGroup}.

(** The only static is [s_wifi_event_group]. *)
Definition set_bits (b : Z) : M eg unit := modify (eg_set b).

Definition wifi_event_handler (e : wifi_event) : M eg unit :=
  match e with
  | STA_START => call_ EspWifiConnect
  | STA_DISCONNECTED _ => call_ EspWifiConnect
  | STA_GOT_IP => set_bits WIFI_CONNECTED
  | STA_CONNECTED | OTHER_EVENT => ret tt
  end.

Definition deliver : M eg unit := evs <- call PollEvents ;; for_each evs wifi_event_handler.
Definition checked (c : cmd Z) : M eg unit := esp_error_check (deliver ;; call c).

Definition connected (g : eg) : bool := negb (Z.land (eg_get g) WIFI_CONNECTED =? 0).

Fixpoint await_events (evs : list wifi_event) : M eg unit :=
  match evs with
  | [] => ret tt
  | e :: evs' =>
      wifi_event_handler e ;;
      g <- get ;;
      if connected g then ret tt else await_events evs'
  end.

(** [xEventGroupWaitBits(group, WIFI_CONNECTED, pdFALSE, pdTRUE, ms)] *)
Definition wait_bits (ms : Z) : M eg bool :=
  deliver ;;
  g <- get ;;
  if connected g then ret true else
  evs <- call (WaitEvents ms) ;;
  await_events evs ;;
  g' <- get ;;
  ret (connected g').

Definition init_wifi (ssid pass : string) : M eg unit :=
  esp_error_check (call NvsFlashInit) ;;
  esp_error_check (call EspNetifInit) ;;
  modify (fun _ => eg_new) ;;
  esp_error_check (call EspEventLoopCreateDefault) ;;
  call_ EspNetifCreateDefaultWifiSta ;;
  esp_error_check (call EspWifiInit) ;;
  esp_error_check (call (EspEventHandlerRegister "WIFI_EVENT")) ;;
  checked (EspEventHandlerRegister "IP_EVENT_STA_GOT_IP") ;;
  checked EspWifiSetModeSta ;;
  checked (EspWifiSetConfig (strncpy (zeros 32) ssid 31) (strncpy (zeros 64) pass 63)) ;;
  checked EspWifiStart ;;
  checked EspWifiSetPsNone ;;
  checked EspWifiSetBandwidthHt40 ;;
  checked EspWifiSetProtocolBgn ;;
  bits <- wait_bits 15000 ;;
  when (negb bits) (call_ (VTaskDelay 2000) ;; halt ExRestart).
End InitWifi.

(** ** Specification *)

Section Facts.
Context `{Env, EventGroup}.

Definition ready_or_gone (o : outcome unit) (s' : sys eg) : Prop :=
  match o with
  | Ret _ => connected (glob s') = true
  | Halt x => x = ExAbort \/ x = ExRestart /\ connected (glob s') = false
  end.

Lemma wp_await_events evs : forall s, wp (await_events evs) (fun o _ => o = Ret tt) s.
Proof.
  induction evs as [|e evs IH]; intros s; [done|]. cbn [await_events].
  apply wp_bind, (wp_mono _ (fun o _ => o = Ret tt)).
  - destruct e; unfold wifi_event_handler, set_bits; first [by apply wp_call_|done].
  - intros o s1 ->. apply wp_bind, wp_get. by destruct (connected (glob s1)).
Qed.

Lemma wp_wait_bits ms s :
  wp (wait_bits ms) (fun o s' => o = Ret (connected (glob s'))) s.
Proof.
  assert (Hd : forall s1, wp deliver (fun o _ => o = Ret tt) s1).
  { intros s1. apply wp_bind, wp_call. intros evs w' _.
    generalize (Sys (glob s1) w' (Ev PollEvents evs :: trace s1)). clear w'.
    induction evs as [|e evs IH]; intros s2; [done|]. cbn [for_each].
    apply wp_bind, (wp_mono _ (fun o _ => o = Ret tt)).
    - destruct e; unfold wifi_event_handler, set_bits; first [by apply wp_call_|done].
    - intros o s3 ->. apply IH. }
  apply wp_bind. eapply wp_mono; [apply Hd|]. intros o s1 ->. apply wp_bind, wp_get.
  destruct (connected (glob s1)) eqn:E; [apply wp_ret; by rewrite E|].
  apply wp_bind, wp_call. intros evs w' _. apply wp_bind.
  eapply wp_mono; [apply wp_await_events|]. intros o s2 ->. by apply wp_bind, wp_get, wp_ret.
Qed.

(** [init_wifi] returns only connected: otherwise an error of a driver aborts, or
    the wait of 15 s ends without an address and the chip restarts. *)
Lemma init_wifi_connected ssid pass s : wp (init_wifi ssid pass) ready_or_gone s.
Proof.
  assert (Hc : forall (m : M eg unit) k s1,
    stops (fun x => x = ExAbort) m -> (forall a s2, wp (k a) ready_or_gone s2) ->
    wp (bind m k) ready_or_gone s1).
  { intros m k s1 Hm Hk. apply wp_bind, (wp_stops _ _ _ _ Hm). unfold wp.
    destruct (fst (m s1)) as [a|x]; [intros _; apply Hk|by left]. }
  assert (Hh : forall e, stops (fun x => x = ExAbort) (wifi_event_handler e))
    by (intros []; unfold wifi_event_handler, set_bits; stops_auto).
  assert (Hk : forall c, stops (fun x => x = ExAbort) (checked c)).
  { intros c. unfold checked, deliver. stops_auto. }
  unfold init_wifi.
  do 14 (apply Hc; [first [apply Hk|stops_auto]|intros _ ?]).
  apply wp_bind. eapply wp_mono; [apply wp_wait_bits|]. intros o sw ->.
  apply wp_when; intros E; [apply negb_true_iff in E|by apply negb_false_iff in E].
  apply wp_bind, wp_call_. intros r w' _. apply wp_halt. by right.
Qed.
End Facts.
