(* ===== verification/Main.v ===== *)
(** * The main program: [downloader_main.cpp]

    [app_main] over the components: the recovery of NVS, the boot counter, the
    boot state, the WiFi connection, the download with its report, and the return
    to the musicbox firmware.  The build switch [DOWNLOADER_DEV_MODE] is a
    parameter; what [#if] selects is an [if] on the setting it derives.  The LED
    animation task is not interleaved here (see [Led]). *)

From stdpp Require Import gmap strings.
From S2P Require Import Prelude Idf Logic CLib Protocol Nvs BootManager WifiCreds CFloat Led.
From S2P Require Import Posix FileHelpers SdCard HttpPool Writer Download.
#[local] Open Scope Z_scope.

(** ** State *)

(** The globals of the program: those of the components, the WiFi handle being
    part of [wg], and the static [boot_state]. *)
Record mg `{EventGroup} := Mg {
  boot : bm;
  wifi : wg;
  dl : dl_g;
  boot_state : boot_state_t
}.
Arguments Mg {_}.
Arguments boot {_}.
Arguments wifi {_}.
Arguments dl {_}.
Arguments boot_state {_}.

Definition boot_lens `{EventGroup} : lens mg bm :=
  Lens boot (fun x g => Mg x (wifi g) (dl g) (boot_state g)).
Definition wifi_lens `{EventGroup} : lens mg wg :=
  Lens wifi (fun x g => Mg (boot g) x (dl g) (boot_state g)).
Definition dl_lens `{EventGroup} : lens mg dl_g :=
  Lens dl (fun x g => Mg (boot g) (wifi g) x (boot_state g)).

Definition LAMBDA_URL : string :=
  "https://oqgyreq4gabsrqvfu4i3lxumse0mrcdb.lambda-url.us-east-2.on.aws/".

Section Main.
Context `{Env, EventGroup, MathLib, CJson}.
(** [DOWNLOADER_DEV_MODE]; the fuel of the download ([download_simi_folder]). *)
Context (dev : bool) (fuel tree_fuel : nat).

Definition in_boot {A} (m : M bm A) : M mg A := zoom boot_lens m.
Definition in_wifi {A} (m : M wg A) : M mg A := zoom wifi_lens m.
Definition in_dl {A} (m : M dl_g A) : M mg A := zoom dl_lens m.
Definition in_led {A} (m : M led_g A) : M mg A := in_dl (on_led m).
Definition in_sd {A} (m : M sd_g A) : M mg A := in_dl (on_sd m).

Definition update_boot_state (f : boot_state_t -> boot_state_t) : M mg unit :=
  modify (fun g => Mg (boot g) (wifi g) (dl g) (f (boot_state g))).

(** [boot_mgr_load_state(&boot_state)] *)
Definition load_boot_state : M mg Z :=
  g <- get ;;
  let! (e, o) := in_boot (boot_mgr_load_state (Some (boot_state g))) in
  match o with Some st => update_boot_state (fun _ => st) | None => ret tt end ;;
  ret e.

(** ** Returning to musicbox *)

Definition find_musicbox_partition : M mg (option partition) :=
  p <- call (EspPartitionFindFirst (ByLabel MUSICBOX_PARTITION_LABEL)) ;;
  match p with
  | Some p => ret (Some p)
  | None => call (EspPartitionFindFirst ByOta0)
  end.

(** [esp_restart] does not return. *)
Definition boot_musicbox_and_restart : M mg unit :=
  if STAY_IN_DOWNLOADER dev then halt ExRestart else
  mainp <- find_musicbox_partition ;;
  match mainp with
  | None => halt ExRestart
  | Some p =>
      esp_error_check (call (EspOtaSetBootPartition p)) ;;
      halt ExRestart
  end.

(** ** WiFi *)

Definition seed_wifi_credentials : M mg unit :=
  let! (ret_, nvs) := call (NvsOpen "wifi_creds" NVS_READWRITE) in
  if negb (is_ok ret_) then ret tt else
  call_ (NvsEraseAll nvs) ;;
  call_ (NvsSetU8 nvs "count" 1) ;;
  call_ (NvsSetStr nvs "ssid_0" TEST_WIFI_SSID) ;;
  call_ (NvsSetStr nvs "pass_0" TEST_WIFI_PASS) ;;
  call_ (NvsCommit nvs) ;;
  call_ (NvsClose nvs).

(** The polling loop of [connect_to_wifi_debug_mode]. *)
Fixpoint debug_poll (n : nat) : M mg bool :=
  match n with
  | O => in_led led_show_error ;; ret false
  | S n =>
      in_led led_update ;;
      call_ (VTaskDelay 100) ;;
      let! (e, _) := in_wifi (wcall EspWifiStaGetApInfo) in
      if is_ok e then
        update_boot_state (fun st =>
          set_last_ssid (strncpy (last_ssid st) TEST_WIFI_SSID (LAST_SSID_SIZE - 1)) st) ;;
        in_led (led_show_solid 0 LEDC_MAX_DUTY 0) ;;
        call_ (VTaskDelay 1000) ;;
        ret true
      else debug_poll n
  end.

Definition connect_to_wifi_debug_mode : M mg bool :=
  in_led led_show_wifi_connecting ;;
  esp_error_check (in_wifi (wifi_creds_init true)) ;;
  esp_error_check (in_wifi (wcall (EspWifiSetConfig
    (strncpy (zeros 32) TEST_WIFI_SSID 32) (strncpy (zeros 64) TEST_WIFI_PASS 64)))) ;;
  esp_error_check (in_wifi (wcall EspWifiConnect)) ;;
  debug_poll 300.

(** The pause between two attempts: it ends early when a connection comes in. *)
Fixpoint connect_pause (n : nat) : M mg unit :=
  match n with
  | O => ret tt
  | S n =>
      c <- in_wifi wifi_creds_is_connected ;;
      if (c : bool) then ret tt else
      in_led led_update ;; call_ (VTaskDelay 100) ;; connect_pause n
  end.

Fixpoint connect_attempts (n : nat) : M mg Z :=
  match n with
  | O => ret ESP_FAIL
  | S n' =>
      r <- in_wifi (wifi_creds_wait_for_connection 10000) ;;
      if is_ok r then ret ESP_OK else
      connect_pause 10 ;;
      c <- in_wifi wifi_creds_is_connected ;;
      if (c : bool) then ret ESP_OK else
      match n' with O => ret r | _ => connect_attempts n' end
  end.

(** The second source of credentials, tried when the first gave no connection. *)
Definition connect_saved (r : Z) : M mg Z :=
  if is_ok r then ret r else
  in_led led_show_wifi_connecting ;;
  e <- in_wifi (wifi_creds_load true) ;;
  g <- get ;;
  if is_ok e && (0 <? count (wh (wifi g)))%nat
  then in_wifi (wifi_creds_connect_best true 20000)
  else ret r.

Definition connect_to_wifi_with_feedback : M mg bool :=
  if SKIP_WIFI_SCAN dev && SEED_WIFI_CREDS dev then connect_to_wifi_debug_mode else
  in_led led_show_wifi_connecting ;;
  repeat_m 20 (in_led led_update ;; call_ (VTaskDelay 50)) ;;
  e <- in_wifi (wifi_creds_init true) ;;
  if negb (is_ok e) then in_led led_show_error ;; ret false else
  r1 <- connect_attempts 3 ;;
  r <- connect_saved r1 ;;
  if negb (is_ok r) then in_led led_show_error ;; ret false else
  let! (_, ssid) := in_wifi (wifi_creds_get_current_ssid (Some (zeros 33)) 33) in
  _ <- in_wifi wifi_creds_get_connection_info ;;
  update_boot_state (fun st => set_last_ssid
    (strncpy (last_ssid st) (cstr (default [] ssid)) (LAST_SSID_SIZE - 1)) st) ;;
  in_led (led_show_solid 0 LEDC_MAX_DUTY 0) ;;
  call_ (VTaskDelay 500) ;;
  ret true.

(** ** The download *)

(** One step of the colour wheel shown after a success. *)
Definition wheel_step (i : Z) : M mg unit :=
  let hue := (i * 12) mod 360 in
  let r := if hue <? 120 then LEDC_MAX_DUTY else 0 in
  let g := if (120 <=? hue) && (hue <? 240) then LEDC_MAX_DUTY else 0 in
  let b := if 240 <=? hue then LEDC_MAX_DUTY else 0 in
  in_led (led_set_color r g b) ;;
  call_ (VTaskDelay 100).

Definition handle_download_with_retry : M mg bool :=
  in_led led_show_downloading ;;
  in_sd force_clean_sd_bus ;;
  mounted <- in_sd (mount_sd "/sdcard") ;;
  if negb mounted then
    in_led led_show_error ;;
    call_ (VTaskDelay 2000) ;;
    in_sd (unmount_sd "/sdcard" false) ;;
    _ <- in_boot (boot_mgr_report_failure DOWNLOAD_ERROR_SD_CARD) ;;
    ret false
  else
  g <- get ;;
  let! (success, out) := in_dl (download_simi_folder fuel tree_fuel
                                  (cstr (folder (boot_state g))) LAMBDA_URL) in
  let sd_failed := default false out in
  in_sd (unmount_sd "/sdcard" (negb sd_failed)) ;;
  call_ (VTaskDelay 1000) ;;
  if (success : bool) then
    in_led led_show_success ;;
    call_ (VTaskDelay 2000) ;;
    for_each (map Z.of_nat (seq 0 30)) wheel_step ;;
    ret true
  else
    in_led led_show_error ;;
    repeat_m 10 (in_led led_update ;; call_ (VTaskDelay 200)) ;;
    _ <- in_boot (boot_mgr_report_failure
      (if sd_failed then DOWNLOAD_ERROR_SD_CARD else DOWNLOAD_ERROR_DOWNLOAD_FAILED)) ;;
    ret false.

(** ** NVS at the start *)

(** Erase one of the namespaces the downloader owns. *)
Definition erase_namespace (ns : string) : M mg unit :=
  let! (e, h) := call (NvsOpen ns NVS_READWRITE) in
  when (is_ok e)
    (call_ (NvsEraseAll h) ;; call_ (NvsCommit h) ;; call_ (NvsClose h)).

Definition nvs_recovery : M mg unit :=
  err <- call NvsFlashInit ;;
  when ((err =? ESP_ERR_NVS_NO_FREE_PAGES) || (err =? ESP_ERR_NVS_NEW_VERSION_FOUND))
    (erase_namespace "bootmgr" ;;
     erase_namespace "wifi_creds" ;;
     erase_namespace "known_nets" ;;
     err2 <- call NvsFlashInit ;;
     when (negb (is_ok err2))
       (esp_error_check (call NvsFlashErase) ;;
        esp_error_check (call NvsFlashInit))).

(** [nvs_set_u8(boot_nvs, NVS_KEY_BOOT_COUNT, v)] in a handle of its own, if it
    opens. *)
Definition reset_boot_count : M mg unit :=
  let! (e, h) := call (NvsOpen SIMIBOX_NVS_NAMESPACE NVS_READWRITE) in
  when (is_ok e)
    (call_ (NvsSetU8 h NVS_KEY_BOOT_COUNT 0) ;; call_ (NvsCommit h) ;; call_ (NvsClose h)).

(** The safe mode after too many boots. *)
Definition give_up_booting : M mg unit :=
  reset_boot_count ;;
  _ <- in_led led_init ;;
  in_led led_show_error ;;
  repeat_m 30 (in_led led_update ;; call_ (VTaskDelay 100)) ;;
  boot_musicbox_and_restart.

Definition count_boot : M mg unit :=
  let! (e, h) := call (NvsOpen SIMIBOX_NVS_NAMESPACE NVS_READWRITE) in
  when (is_ok e)
    (let! (e2, v) := call (NvsGetU8 h NVS_KEY_BOOT_COUNT) in
     let boot_count := u8 ((if is_ok e2 then u8 v else 0) + 1) in
     call_ (NvsSetU8 h NVS_KEY_BOOT_COUNT boot_count) ;;
     call_ (NvsCommit h) ;;
     call_ (NvsClose h) ;;
     when (MAX_BOOT_FAILURES <=? boot_count) give_up_booting).

(** ** [app_main] *)

(** What follows the report of a success. *)
Definition after_success : M mg unit :=
  _ <- in_boot boot_mgr_report_success ;;
  reset_boot_count ;;
  if STAY_IN_DOWNLOADER dev then in_led led_show_success ;; halt ExIdle
  else boot_musicbox_and_restart.

(** From the request on: the retry limit, the connection, the download. *)
Definition serve_request : M mg unit :=
  needs <- in_boot boot_mgr_needs_download ;;
  when (negb needs) boot_musicbox_and_restart ;;
  g <- get ;;
  when (3 <=? retry_count (boot_state g))
    (_ <- in_boot (boot_mgr_report_failure DOWNLOAD_ERROR_DOWNLOAD_FAILED) ;;
     in_led led_show_error ;;
     call_ (VTaskDelay 3000) ;;
     boot_musicbox_and_restart) ;;
  connected <- connect_to_wifi_with_feedback ;;
  when (negb connected)
    (_ <- in_boot (boot_mgr_report_failure DOWNLOAD_ERROR_WIFI_CONNECT) ;;
     call_ (VTaskDelay 3000) ;;
     boot_musicbox_and_restart) ;;
  success <- handle_download_with_retry ;;
  if (success : bool) then after_success
  else call_ (VTaskDelay 2000) ;; boot_musicbox_and_restart.

Definition app_main : M mg unit :=
  call_ (EspLogLevelSet (DEFAULT_LOG_LEVEL dev)) ;;
  nvs_recovery ;;
  when (SEED_WIFI_CREDS dev) seed_wifi_credentials ;;
  count_boot ;;
  _ <- in_led led_init ;;
  in_led (led_set_color LEDC_MAX_DUTY 0 LEDC_MAX_DUTY) ;;
  esp_error_check (in_boot boot_mgr_init) ;;
  esp_error_check load_boot_state ;;
  call_ EspOtaGetRunningPartition ;;
  when (FORCE_DOWNLOAD dev)
    (_ <- in_boot (boot_mgr_request_download (Some TEST_FOLDER) 0) ;;
     _ <- load_boot_state ;;
     ret tt) ;;
  serve_request.
End Main.
