(* ===== verification/MainSpec.v ===== *)
(** * Theorems on the main program

    What [app_main] makes of the boot protocol, in the build without
    [DOWNLOADER_DEV_MODE]: an abstract transition of the NVS store, chosen by a
    verdict.  [app_main] refines it, under hypotheses on the platform that its
    theorem lists. *)

From stdpp Require Import gmap strings.
From S2P Require Import Prelude Idf Logic CLib Protocol Nvs BootManager WifiCreds CFloat Led.
From S2P Require Import Posix FileHelpers CardShape SdCard Resources HttpPool Writer Download.
From S2P Require Import DownloadFile DownloadFrames DownloadFolder Main TestEnv.
#[local] Open Scope Z_scope.

(** ** Computations that leave the protocol alone *)

(** The reasons to stop other than a restart. *)
Definition crash (x : exit) : Prop := x = ExAbort \/ x = ExUndefined.

Lemma crash_undefined x : undefined_only x -> crash x.
Proof. intros ->. by right. Qed.

Lemma crash_abort : crash ExAbort.
Proof. by left. Qed.
#[local] Hint Resolve crash_abort : core.

(** Classes of calls that touch neither NVS nor what the download owns. *)
Definition calm_classes (cs : list cls) : bool :=
  other_device cs && negb (cls_mem CSd cs) && negb (cls_mem CNvs cs) && negb (cls_mem CErase cs).

Section Calm.
Context `{NvsLaws, EventGroup, MathLib, CJson}.

(** The part of the globals that matters to the protocol. *)
Definition core (g : mg) : bm * list char * (sd_g * pool * pp_bufs * sd_write_job) :=
  (boot g, folder (boot_state g), transfer_parts (dl g)).
Definition same_core (g g' : mg) : Prop := core g' = core g.

#[export] Instance same_core_PreOrder : PreOrder same_core.
Proof. split; [done|]. unfold same_core. intros ???. congruence. Qed.

Record calm (s s' : sys mg) : Prop := {
  calm_core : same_core (glob s) (glob s');
  calm_nvs : nvs_quiet (wld s) (wld s');
  calm_still : still (trace s) (trace s');
  calm_bus : bus_up (trace s') = bus_up (trace s)
}.

#[export] Instance calm_PreOrder : PreOrder calm.
Proof.
  split; [by split|]. intros a b c [] []. split; [by etransitivity|by etransitivity|by etransitivity|congruence].
Qed.

(** Every run is calm, and crashes if it does not return. *)
Definition calmly {A} (m : M mg A) : Prop := (forall s, calm s (snd (m s))) /\ stops crash m.

Lemma calmly_ret {A} (a : A) : calmly (ret a).
Proof. by split. Qed.

Lemma calmly_get : calmly get.
Proof. by split. Qed.

Lemma calmly_bind {A B} (m : M mg A) (k : A -> M mg B) :
  calmly m -> (forall a, calmly (k a)) -> calmly (bind m k).
Proof.
  intros [Hm Sm] Hk. split; [|apply stops_bind; [done|]; intros a; apply Hk].
  intros s. specialize (Hm s). simpl. unfold m_bind.
  destruct (m s) as [[a|x] s']; simpl in *; [|done]. etransitivity; [exact Hm|apply Hk].
Qed.

Lemma calmly_frame {A} cs (m : M mg A) :
  uses cs m -> calm_classes cs = true -> moves same_core m -> stops crash m -> calmly m.
Proof.
  intros Hu Hc Hm Hs. unfold calm_classes in Hc. crush_hyps. split; [|done]. intros s. split.
  - apply Hm.
  - by eapply nvs_uses_quiet.
  - by eapply still_uses.
  - by eapply bus_uses.
Qed.

Lemma calmly_delay ms : calmly (call_ (VTaskDelay ms)).
Proof. apply (calmly_frame [CDelay]); [uses_auto|done|moves_auto|stops_auto]. Qed.

Lemma calmly_repeat n (m : M mg unit) : calmly m -> calmly (repeat_m n m).
Proof. intros Hm. induction n; cbn [repeat_m]; [apply calmly_ret|by apply calmly_bind]. Qed.

Lemma calmly_for_each {A} (l : list A) (body : A -> M mg unit) :
  (forall a, calmly (body a)) -> calmly (for_each l body).
Proof. intros Hb. induction l; cbn [for_each]; [apply calmly_ret|by apply calmly_bind]. Qed.

Lemma core_led {A} (m : M led_g A) : moves same_core (in_led m).
Proof.
  apply (moves_zoom same_core dl_lens same_parts).
  - by apply (moves_zoom same_parts led_lens (fun _ _ => True)).
  - intros g b Hb. unfold same_core, core. cbn. by rewrite Hb.
Qed.

Lemma calmly_led {A} (m : M led_g A) :
  uses [CLedc; CMutex; CTask] m -> stops crash m -> calmly (in_led m).
Proof.
  intros Hu Hs. apply (calmly_frame [CLedc; CMutex; CTask]);
    [by do 2 apply uses_zoom|done|apply core_led|by do 2 apply stops_zoom].
Qed.

Lemma core_wifi {A} (m : M wg A) : moves same_core (in_wifi m).
Proof. by apply (moves_zoom same_core wifi_lens (fun _ _ => True)). Qed.

Lemma calmly_wifi {A} (m : M wg A) :
  uses [CFlash; CWifi; CEvents] m -> stops crash m -> calmly (in_wifi m).
Proof.
  intros Hu Hs. apply (calmly_frame [CFlash; CWifi; CEvents]);
    [by apply uses_zoom|done|apply core_wifi|by apply stops_zoom].
Qed.

Lemma wp_calm {A} (m : M mg A) (Q : outcome A -> sys mg -> Prop) s :
  calmly m ->
  (forall a s', calm s s' -> Q (Ret a) s') ->
  (forall x s', crash x -> calm s s' -> Q (Halt x) s') -> wp m Q s.
Proof.
  intros [Hc Hs] HQ HX. unfold wp. specialize (Hc s). specialize (Hs s).
  destruct (fst (m s)); auto.
Qed.
End Calm.

(** ** The LED and WiFi operations of the main program *)

Create HintDb calmly.

Section Pieces.
Context `{NvsLaws, EventGroup, MathLib, CJson}.

Lemma stops_crash {G A} (m : M G A) : stops undefined_only m -> stops crash m.
Proof. apply stops_mono, crash_undefined. Qed.

Ltac calmly_setter :=
  apply calmly_led; unfold led_show_error, led_show_wifi_connecting, led_show_downloading,
    led_show_success, led_show_solid, take_mutex, give_mutex;
  [uses_auto|apply stops_crash; stops_auto].

Lemma calmly_error : calmly (in_led led_show_error).
Proof. calmly_setter. Qed.
Lemma calmly_wifi_led : calmly (in_led led_show_wifi_connecting).
Proof. calmly_setter. Qed.
Lemma calmly_downloading : calmly (in_led led_show_downloading).
Proof. calmly_setter. Qed.
Lemma calmly_success : calmly (in_led led_show_success).
Proof. calmly_setter. Qed.
Lemma calmly_solid r g b : calmly (in_led (led_show_solid r g b)).
Proof. calmly_setter. Qed.
Lemma calmly_color r g b : calmly (in_led (led_set_color r g b)).
Proof. apply calmly_led; [uses_auto|apply stops_crash; stops_auto]. Qed.
Lemma calmly_update : calmly (in_led led_update).
Proof. apply calmly_led; [uses_auto|apply stops_crash; stops_auto]. Qed.

Lemma calmly_led_init : calmly (in_led led_init).
Proof.
  apply calmly_led; [uses_auto|].
  unfold led_init, led_start_task, set_ledc_mutex, set_led_task_stop, set_led_task.
  pose proof (fun r g b => stops_crash _ (stops_set_color r g b)).
  stops_auto.
Qed.

Lemma stops_handler e : stops crash (wifi_event_handler e).
Proof. destruct e; unfold wifi_event_handler, set_group, set_connecting; stops_auto. Qed.
#[local] Hint Resolve stops_handler : stops.

Lemma stops_pump : stops crash pump.
Proof. unfold pump. stops_auto. Qed.
#[local] Hint Resolve stops_pump : stops.

Lemma stops_wcall {X} (c : cmd X) : stops crash (wcall c) /\ stops crash (wcall_ c).
Proof. split; unfold wcall, wcall_; stops_auto. Qed.
#[local] Hint Extern 1 (stops _ (wcall _)) => apply stops_wcall : stops.
#[local] Hint Extern 1 (stops _ (wcall_ _)) => apply stops_wcall : stops.

Lemma stops_wait_connected ms : stops crash (wait_connected ms).
Proof.
  unfold wait_connected. assert (Hw : forall evs, stops crash (wait_events evs))
    by (induction evs; cbn [wait_events]; stops_auto).
  stops_auto.
Qed.
#[local] Hint Resolve stops_wait_connected : stops.

Lemma stops_connect_best h ms : stops crash (wifi_creds_connect_best h ms).
Proof.
  assert (Ht : forall w l, stops crash (try_networks w l))
    by (induction l; cbn [try_networks]; unfold try_network, set_group, set_connecting; stops_auto).
  unfold wifi_creds_connect_best, wifi_creds_scan_and_match, set_wh, set_connecting. stops_auto.
Qed.

Lemma calmly_init : calmly (in_wifi (wifi_creds_init true)).
Proof.
  apply calmly_wifi; [uses_auto|].
  unfold wifi_creds_init, set_wh, set_group, set_wifi_initialized. stops_auto.
Qed.

Lemma calmly_wait ms : calmly (in_wifi (wifi_creds_wait_for_connection ms)).
Proof.
  apply calmly_wifi; [uses_auto|]. unfold wifi_creds_wait_for_connection, set_connecting. stops_auto.
Qed.

Lemma calmly_is_connected : calmly (in_wifi wifi_creds_is_connected).
Proof. apply calmly_wifi; [uses_auto|]. unfold wifi_creds_is_connected. stops_auto. Qed.

Lemma calmly_best ms : calmly (in_wifi (wifi_creds_connect_best true ms)).
Proof. apply calmly_wifi; [uses_auto|apply stops_connect_best]. Qed.

Lemma calmly_ssid b n : calmly (in_wifi (wifi_creds_get_current_ssid b n)).
Proof. apply calmly_wifi; [uses_auto|]. unfold wifi_creds_get_current_ssid. stops_auto. Qed.

Lemma calmly_info : calmly (in_wifi wifi_creds_get_connection_info).
Proof. apply calmly_wifi; [uses_auto|]. unfold wifi_creds_get_connection_info. stops_auto. Qed.

(** A loop whose body returns and keeps an invariant. *)
Lemma wp_for_each_inv {G A} (I : sys G -> Prop) (l : list A) (body : A -> M G unit) s :
  (forall a s1, I s1 -> wp (body a) (fun o s2 => o = Ret tt /\ I s2) s1) ->
  I s -> wp (for_each l body) (fun o s' => o = Ret tt /\ I s') s.
Proof.
  intros Hb. revert s. induction l as [|a l IH]; intros s Hi; [by apply wp_ret|].
  apply wp_bind. eapply wp_mono; [by apply Hb|]. intros o s1 [-> Hi1]. by apply IH.
Qed.

(** The handle [h] was opened since [w0], and nothing was written. *)
Definition opened (w0 : world) (h : Z) (s : sys wg) : Prop :=
  nvs_store (wld s) = nvs_store w0 /\
  nvs_ns (wld s) = <[h := "wifi_creds"%string]> (nvs_ns w0) /\ flushes w0 (wld s).

Lemma wp_get_opened {A} w0 h key n (k : Z * string -> M wg A) Q s :
  opened w0 h s -> (forall r s', opened w0 h s' -> wp (k r) Q s') ->
  wp (bind (call (NvsGetStr h key n)) k) Q s.
Proof.
  intros (E1 & E2 & E3) Hk. apply wp_bind, wp_call. intros [e x] w' Hc.
  assert (Hfl : flushes (wld s) w') by (by eapply flushes_call, Hc).
  eapply nvs_get_str_law in Hc as (S1 & N1 & _); [|rewrite E2; apply lookup_insert_eq|done].
  apply Hk. split_and!; cbn; [congruence..|by eapply flushes_trans].
Qed.

Lemma wp_load_network_opened w0 h i s :
  opened w0 h s -> wp (load_network h i) (fun o s' => o = Ret tt /\ opened w0 h s') s.
Proof.
  intros Ho. apply wp_bind, wp_get. cbv zeta. eapply wp_get_opened; [exact Ho|].
  intros [e1 x] s1 O1. destruct (is_ok e1); cbn [negb]; cbv iota; [|by apply wp_ret].
  apply wp_bind, wp_modify. eapply wp_get_opened; [exact O1|]. intros [e2 y] s2 O2.
  destruct (is_ok e2); cbn [negb]; cbv iota; [|by apply wp_ret].
  do 2 apply wp_bind, wp_modify. by apply wp_modify.
Qed.

(** Reading the saved networks opens a handle of its own and closes it. *)
Lemma wp_load_same s :
  wp (wifi_creds_load true) (fun o s' => o = Ret ESP_OK \/ o = Ret ESP_ERR_INVALID_STATE) s /\
  nvs_quiet (wld s) (wld (snd (wifi_creds_load true s))).
Proof.
  set (P := fun (o : outcome Z) (s' : sys wg) =>
    (o = Ret ESP_OK \/ o = Ret ESP_ERR_INVALID_STATE) /\ nvs_quiet (wld s) (wld s')).
  cut (wp (wifi_creds_load true) P s); [intros [Hp1 Hp2]; by split|].
  apply wp_bind, wp_get. destruct (initialized (wh (glob s))); cbn [negb orb];
    [|apply wp_ret; split; [by right|done]].
  apply wp_bind, wp_call. intros [e nvs] w1 Hh.
  assert (F1 : flushes (wld s) w1) by (by eapply flushes_call, Hh). apply nvs_open_law in Hh as [S1 N1].
  destruct (is_ok e); cbn [negb]; cbv iota;
    [|apply wp_ret; split; [by left|split; [split; cbn; [done|by rewrite N1]|exact F1]]].
  destruct N1 as (_ & Hf & N1). apply wp_bind, wp_call. intros [e2 v] w2 Hh2. cbn [glob wld] in *.
  assert (F2 : flushes w1 w2) by (by eapply flushes_call, Hh2).
  eapply nvs_get_u8_law in Hh2 as (S2 & N2 & _); [|rewrite N1; apply lookup_insert_eq|done]. cbv zeta.
  assert (Hclose : forall s1, opened (wld s) nvs s1 -> wp (call_ (NvsClose nvs) ;; ret ESP_OK) P s1).
  { intros s1 (E1 & E2 & E3). apply wp_bind, wp_call_. intros r w3 Hc. apply wp_ret. split; [by left|].
    split; [|eapply flushes_trans; [exact E3|by eapply flushes_call, Hc|by eapply nvs_close_law]].
    eapply (nvs_close_same (wld s) nvs _ (wld s1) (wld s1) w3); try done; cbn.
    split; [done|]. intros h' ns' Hl. rewrite E2, lookup_insert_ne; [done|congruence]. }
  assert (O2 : opened (wld s) nvs (Sys (glob s) w2 (Ev (NvsGetU8 nvs "count") (e2, v) ::
    Ev (NvsOpen "wifi_creds" NVS_READONLY) (e, nvs) :: trace s)))
    by (split_and!; cbn; [congruence..|by eapply flushes_trans]).
  destruct (_ || _); [by apply Hclose|].
  apply wp_bind, wp_modify. apply wp_bind. eapply wp_mono; [apply (wp_for_each_inv (opened (wld s) nvs))|].
  - intros i s1 O1. by apply wp_load_network_opened.
  - exact O2.
  - intros o s1 [-> O1]. by apply Hclose.
Qed.

Lemma calmly_load : calmly (in_wifi (wifi_creds_load true)).
Proof.
  split; intros s.
  - destruct (wp_load_same (Sys (wifi (glob s)) (wld s) (trace s))) as [_ Hn]. split.
    + apply core_wifi.
    + unfold in_wifi, zoom. change (lget wifi_lens (glob s)) with (wifi (glob s)).
      by destruct (wifi_creds_load true _).
    + eapply (still_uses [CNvs]); [apply uses_zoom; uses_auto|done].
    + eapply (bus_uses [CNvs]); [apply uses_zoom; uses_auto|done].
  - destruct (wp_load_same (Sys (wifi (glob s)) (wld s) (trace s))) as [Ho _]. unfold wp in Ho.
    unfold in_wifi, zoom. change (lget wifi_lens (glob s)) with (wifi (glob s)).
    destruct (wifi_creds_load true _) as [o s1]. cbn [fst] in *. by destruct Ho as [-> | ->].
Qed.

Lemma calmly_connection (f : boot_state_t -> boot_state_t) :
  (forall st, folder (f st) = folder st) -> calmly (update_boot_state f).
Proof.
  intros Hf. split; [|apply stops_modify]. intros s. split; try done.
  unfold same_core, core. cbn. by rewrite Hf.
Qed.

#[local] Hint Resolve calmly_ret calmly_get calmly_error calmly_wifi_led calmly_downloading
  calmly_success calmly_solid calmly_color calmly_update calmly_init calmly_wait calmly_load
  calmly_is_connected calmly_best calmly_ssid calmly_info calmly_delay : calmly.

Ltac calmly_step :=
  lazymatch goal with
  | |- calmly (bind _ _) => apply calmly_bind; [|intro]
  | |- calmly (repeat_m _ _) => apply calmly_repeat
  | |- calmly (for_each _ _) => apply calmly_for_each; intro
  | |- calmly (match ?x with _ => _ end) => destruct x
  | |- calmly (update_boot_state _) => by apply calmly_connection
  | |- calmly _ => solve [eauto with calmly]
  end.

Lemma calmly_pause n : calmly (connect_pause n).
Proof. induction n; cbn [connect_pause]; repeat calmly_step. Qed.
#[local] Hint Resolve calmly_pause : calmly.

Lemma calmly_attempts n : calmly (connect_attempts n).
Proof. induction n; cbn [connect_attempts]; repeat calmly_step; done. Qed.
#[local] Hint Resolve calmly_attempts : calmly.

Lemma calmly_connect : calmly (connect_to_wifi_with_feedback false).
Proof. unfold connect_to_wifi_with_feedback, connect_saved. cbn [SKIP_WIFI_SCAN andb]. repeat calmly_step. Qed.

Lemma calmly_wheel i : calmly (wheel_step i).
Proof. unfold wheel_step. cbv zeta. repeat calmly_step. Qed.
End Pieces.
#[export] Hint Resolve calmly_ret calmly_get calmly_error calmly_wifi_led calmly_downloading
  calmly_success calmly_solid calmly_color calmly_update calmly_init calmly_wait calmly_load
  calmly_is_connected calmly_best calmly_ssid calmly_info calmly_delay calmly_led_init
  calmly_connect calmly_wheel : calmly.

(** ** The protocol *)

Definition cnt_key : nvs_key := bm_key NVS_KEY_BOOT_COUNT.

(** The keys the main program owns. *)
Definition own_keys : list nvs_key := cnt_key :: bm_keys.

(** The store after the boot counter was incremented. *)
Definition bumped_count (m : nvs_map) : Z := u8 (lookup_u8 m NVS_KEY_BOOT_COUNT 0 + 1).
Definition bumped (m : nvs_map) : nvs_map := <[cnt_key := VU8 (bumped_count m)]> m.

(** How a boot of the downloader can end. *)
Inductive verdict :=
| TooManyBoots
| NoRequest
| TooManyRetries
| NoConnection
| CardFailed
| TransferFailed
| Downloaded.

(** The conditions under which it ends so, as far as the store tells. *)
Definition requested (m : nvs_map) : bool :=
  SIMIBOX_NEEDS_DOWNLOAD (reason (load_spec m)) && (0 <? strlen (folder (load_spec m)))%nat.
Definition enabled (m : nvs_map) (v : verdict) : bool :=
  let crashing := MAX_BOOT_FAILURES <=? bumped_count m in
  let retried := MAX_DOWNLOAD_RETRIES <=? retry_count (load_spec m) in
  match v with
  | TooManyBoots => crashing
  | NoRequest => negb crashing && negb (requested m)
  | TooManyRetries => negb crashing && requested m && retried
  | _ => negb crashing && requested m && negb retried
  end.

(** What the next firmware finds. *)
Definition failed_store (e : download_error_t) (m : nvs_map) : nvs_map :=
  save_spec (failed_state e (load_spec m)) (bumped m).
Definition protocol (m : nvs_map) (v : verdict) : nvs_map :=
  match v with
  | TooManyBoots => <[cnt_key := VU8 0]> (bumped m)
  | NoRequest => bumped m
  | TooManyRetries => failed_store DOWNLOAD_ERROR_DOWNLOAD_FAILED m
  | NoConnection => failed_store DOWNLOAD_ERROR_WIFI_CONNECT m
  | CardFailed => failed_store DOWNLOAD_ERROR_SD_CARD m
  | TransferFailed => failed_store DOWNLOAD_ERROR_DOWNLOAD_FAILED m
  | Downloaded => <[cnt_key := VU8 0]> (save_spec (success_state (load_spec m)) (bumped m))
  end.

(** NVS that has room and does not fail. *)
Class ReliableNvs `{NvsLaws} : Prop := {
  rel_open ns mode w : is_ok (fst (fst (handle (NvsOpen ns mode) w))) = true;
  rel_set_u8 h ns k v w :
    nvs_ns w !! h = Some ns -> is_ok (fst (handle (NvsSetU8 h k v) w)) = true;
  rel_set_u32 h ns k v w :
    nvs_ns w !! h = Some ns -> is_ok (fst (handle (NvsSetU32 h k v) w)) = true;
  rel_set_str h ns k v w :
    nvs_ns w !! h = Some ns -> is_ok (fst (handle (NvsSetStr h k v) w)) = true;
  rel_commit h ns w :
    nvs_ns w !! h = Some ns -> is_ok (fst (handle (NvsCommit h) w)) = true
}.

(** The partition is healthy at boot: no recovery is needed. *)
Class SoundFlash `{Env} : Prop := {
  sound_init w : fst (handle NvsFlashInit w) <> ESP_ERR_NVS_NO_FREE_PAGES /\
                 fst (handle NvsFlashInit w) <> ESP_ERR_NVS_NEW_VERSION_FOUND
}.

(** The restart comes right after the musicbox partition was selected, or after
    both searches for it found nothing. *)
Definition to_musicbox (tr : list event) : Prop :=
  (exists p q tr', tr = Ev (EspOtaSetBootPartition p) ESP_OK ::
     Ev (EspPartitionFindFirst q) (Some p) :: tr' /\ (q = ByLabel "musicbox" \/ q = ByOta0)) \/
  (exists tr', tr = Ev (EspPartitionFindFirst ByOta0) None ::
     Ev (EspPartitionFindFirst (ByLabel "musicbox")) None :: tr').

Section Nvs.
Context `{NvsLaws, EventGroup, MathLib, CJson}.

(** The store, now and after a restart, is [m] if NVS is reliable, and [m0]
    outside [ks] in any case. *)
Record at_store (ks : list nvs_key) (m0 m : nvs_map) (w : world) : Prop := {
  as_kept k : k ∉ ks -> nvs_store w !! k = m0 !! k /\ nvs_saved w !! k = m0 !! k;
  as_store : ReliableNvs -> nvs_store w = m /\ nvs_saved w = m
}.

Lemma at_store_start ks m w : nvs_store w = m -> nvs_saved w = m -> at_store ks m m w.
Proof. intros Hs Hf. split; [intros k _; by rewrite Hs, Hf|done]. Qed.

Lemma at_store_quiet ks m0 m w w' :
  nvs_store w' = nvs_store w -> flushes w w' -> at_store ks m0 m w -> at_store ks m0 m w'.
Proof.
  intros E F [K S]. split.
  - intros k Hk. destruct (K k Hk) as [K1 K2], (F k) as [-> | ->]; by rewrite E.
  - intros R. destruct (S R) as [S1 S2]. split; [congruence|]. apply map_eq. intros k.
    destruct (F k) as [-> | ->]; congruence.
Qed.

Lemma nvs_quiet_at_store ks m0 m w w' : nvs_quiet w w' -> at_store ks m0 m w -> at_store ks m0 m w'.
Proof. intros [[E _] F]. by apply at_store_quiet. Qed.

Lemma at_store_weaken ks ks' m0 m w :
  ks ⊆ ks' -> at_store ks m0 m w -> at_store ks' m0 m w.
Proof. intros Hk [K S]. split; [|done]. intros k Hn. apply K. auto. Qed.

(** A write through an open handle, committed. *)
Lemma at_store_committed ks m0 m h k v w e1 w1 e2 w2 :
  at_store ks m0 m w -> bm_key k ∈ ks -> nvs_ns w !! h = Some SIMIBOX_NVS_NAMESPACE ->
  handle (NvsSetU8 h k v) w = (e1, w1) -> handle (NvsCommit h) w1 = (e2, w2) ->
  at_store ks m0 (<[bm_key k := VU8 v]> m) w2 /\ nvs_ns w2 = nvs_ns w.
Proof.
  intros [K S] Hin Ho Hc Hd.
  pose proof (fun R : ReliableNvs => rel_set_u8 h _ k v w Ho) as Hok. rewrite Hc in Hok. cbn in Hok.
  pose proof Hc as Hc'. eapply nvs_set_u8_law in Hc' as [N T]; [|exact Ho|done].
  eapply (set_outside _ _ [bm_key k]) in Hc; [|done|by left|exact T].
  assert (Ho1 : nvs_ns w1 !! h = Some SIMIBOX_NVS_NAMESPACE) by congruence.
  pose proof (fun R : ReliableNvs => rel_commit h _ w1 Ho1) as Hok2. rewrite Hd in Hok2. cbn in Hok2.
  assert (Hfl : flushes w1 w2) by (by eapply flushes_call, Hd).
  apply nvs_commit_law in Hd as (S2 & N2 & D2).
  assert (Hout : nvs_outside [bm_key k] w w2) by (etransitivity; [exact Hc|by apply same_outside]).
  split; [split|congruence].
  - intros k' Hk'. destruct (K k' Hk') as [K1 K2], (Hout k') as [E1 E2].
    { intros ->%list_elem_of_singleton. done. }
    split; [congruence|]. destruct E2; congruence.
  - intros R. destruct (S R) as [S1 F1]. rewrite (Hok R), S1 in T.
    assert (E2 : nvs_store w2 = <[bm_key k := VU8 v]> m) by (rewrite S2; exact T). split; [done|].
    apply map_eq. intros [ns k']. destruct (decide (ns = SIMIBOX_NVS_NAMESPACE)) as [->|Hns].
    + by rewrite (D2 (Hok2 R) _ _ Ho1), E2.
    + assert (Hk' : (ns, k') <> bm_key k) by (intros [= -> _]; done).
      destruct (Hout (ns, k')) as [_ [-> | ->]]; [by intros ?%list_elem_of_singleton|..];
        rewrite lookup_insert_ne by done; congruence.
Qed.

(** Everything but the store, as the download sees it. *)
Record tidy (s s' : sys mg) : Prop := {
  tidy_core : same_core (glob s) (glob s');
  tidy_handles h ns : nvs_ns (wld s) !! h = Some ns -> nvs_ns (wld s') !! h = Some ns;
  tidy_still : still (trace s) (trace s');
  tidy_bus : bus_up (trace s') = bus_up (trace s)
}.

#[export] Instance tidy_PreOrder : PreOrder tidy.
Proof.
  split; [by split|]. intros a b c [] []. split; [by etransitivity|auto|by etransitivity|congruence].
Qed.

Lemma calm_tidy s s' : calm s s' -> tidy s s'.
Proof. intros [C [[_ N] _] S B]. by split. Qed.

Lemma calm_at_store ks m0 m s s' : calm s s' -> at_store ks m0 m (wld s) -> at_store ks m0 m (wld s').
Proof. intros [_ N _ _]. by apply nvs_quiet_at_store. Qed.

(** [nvs_set_u8] of the boot counter in a handle of its own, committed and closed. *)
Lemma set_commit_close ks m0 m w h w0 v e1 w1 e2 w2 r w3 :
  at_store ks m0 m w -> cnt_key ∈ ks ->
  nvs_ns w0 !! h = None -> nvs_ns w = <[h := SIMIBOX_NVS_NAMESPACE]> (nvs_ns w0) ->
  handle (NvsSetU8 h NVS_KEY_BOOT_COUNT v) w = (e1, w1) ->
  handle (NvsCommit h) w1 = (e2, w2) -> handle (NvsClose h) w2 = (r, w3) ->
  at_store ks m0 (<[cnt_key := VU8 v]> m) w3 /\ nvs_ns w3 = nvs_ns w0.
Proof.
  intros Ha Hin Hf Hn Hs Hc Hd.
  eapply at_store_committed in Hc as [A2 N2];
    [|exact Ha|exact Hin|rewrite Hn; apply lookup_insert_eq|exact Hs].
  assert (Hfl : flushes w2 w3) by (by eapply flushes_call, Hd).
  apply nvs_close_law in Hd as [S3 N3]. split; [by eapply at_store_quiet|].
  rewrite N3, N2, Hn. rewrite delete_insert_eq. by apply delete_id.
Qed.

Lemma wp_reset_boot_count ks m0 m (Q : outcome unit -> sys mg -> Prop) s :
  at_store ks m0 m (wld s) -> cnt_key ∈ ks ->
  (forall s', at_store ks m0 (<[cnt_key := VU8 0]> m) (wld s') -> tidy s s' -> Q (Ret tt) s') ->
  wp reset_boot_count Q s.
Proof.
  intros Ha Hin HQ.
  apply (wp_still [CNvs]); [unfold reset_boot_count; uses_auto|done|].
  apply (wp_bus_uses [CNvs]); [unfold reset_boot_count; uses_auto|done|].
  apply wp_bind, wp_call. intros [e h] w1 Ho.
  pose proof (fun R : ReliableNvs => rel_open SIMIBOX_NVS_NAMESPACE NVS_READWRITE (wld s)) as Hok.
  rewrite Ho in Hok. cbn in Hok. assert (F1 : flushes (wld s) w1) by (by eapply flushes_call, Ho).
  apply nvs_open_law in Ho as [S1 N1]. pose proof (at_store_quiet _ _ _ _ _ S1 F1 Ha) as A1.
  apply wp_when; intros E; rewrite E in N1.
  - destruct N1 as (_ & Hf & N1). apply wp_bind, wp_call_. intros e1 w2 H1'.
    apply wp_bind, wp_call_. intros e2 w3 H2'. apply wp_call_. intros r w4 H3'.
    cbn [glob wld trace] in *. intros B _ St. edestruct set_commit_close as [A4 N4];
      [exact A1|exact Hin|exact Hf|exact N1|eassumption..|].
    apply HQ; [exact A4|]. split; [done| |exact St|exact B]. cbn. by rewrite N4.
  - intros B _ St. apply HQ.
    + split; [apply A1|]. intros R. by rewrite (Hok R) in E.
    + split; [done| |exact St|exact B]. cbn. by rewrite N1.
Qed.

Lemma wp_boot_musicbox (Q : outcome unit -> sys mg -> Prop) s :
  (forall x s', glob s' = glob s -> nvs_quiet (wld s) (wld s') ->
     x = ExAbort \/ x = ExRestart /\ to_musicbox (trace s') -> Q (Halt x) s') ->
  wp (boot_musicbox_and_restart false) Q s.
Proof.
  intros HQ. apply (wp_nvs_quiet [CSys]);
    [unfold boot_musicbox_and_restart, find_musicbox_partition; uses_auto|done|done|].
  unfold boot_musicbox_and_restart. cbn [STAY_IN_DOWNLOADER].
  assert (Hset : forall p q s1, q = ByLabel "musicbox" \/ q = ByOta0 -> glob s1 = glob s ->
    (exists tr, trace s1 = Ev (EspPartitionFindFirst q) (Some p) :: tr) ->
    wp (esp_error_check (call (EspOtaSetBootPartition p)) ;; halt ExRestart) (fun o s' =>
      nvs_quiet (wld s) (wld s') -> Q o s') s1).
  { intros p q s1 Hq G [tr T]. apply wp_bind, wp_check, wp_call. intros e w' _.
    destruct (is_ok e) eqn:E; [apply wp_halt|]; intros S; apply HQ; [exact G|exact S| |exact G|exact S|].
    - right. split; [done|]. left. apply is_ok_spec in E as ->. exists p, q, tr. cbn. by rewrite T.
    - by left. }
  unfold find_musicbox_partition. apply wp_bind, wp_bind, wp_call. intros [p|] w' _.
  - apply wp_ret. apply (Hset p (ByLabel "musicbox")); [by left|done|by eexists].
  - apply wp_call. intros [p|] w2 _.
    + apply (Hset p ByOta0); [by right|done|by eexists].
    + apply wp_halt. intros S. apply HQ; [done|exact S|]. right. split; [done|]. right. by eexists.
Qed.

(** ** How the program ends *)

(** The card's tree. *)
Definition card_tree (s : sys mg) : node := root (fs (sd (dl (glob s)))).

(** [app_main] started on the store [m0] ended as the protocol says; what the
    next firmware finds is what is saved. *)
Definition ended (m0 : nvs_map) (o : outcome unit) (s' : sys mg) : Prop :=
  exists x, o = Halt x /\
    (forall k, k ∉ own_keys ->
       nvs_store (wld s') !! k = m0 !! k /\ nvs_saved (wld s') !! k = m0 !! k) /\
    (crash x \/ x = ExRestart /\ to_musicbox (trace s') /\ exists v,
       (ReliableNvs -> enabled m0 v = true /\ nvs_store (wld s') = protocol m0 v /\
          nvs_saved (wld s') = protocol m0 v) /\
       (v = Downloaded -> exists t, verified t /\
          in_place ["sdcard"%string; cstr (folder (load_spec m0))] t (card_tree s'))).

Lemma ended_crash ks m0 m x s : ks ⊆ own_keys -> crash x -> at_store ks m0 m (wld s) ->
  ended m0 (Halt x) s.
Proof.
  intros Hk Hx [K _]. exists x. split_and!; [done| |by left]. intros k Hn. apply K. auto.
Qed.

(** Returning to musicbox with a verdict. *)
Lemma wp_end v ks m0 s :
  ks ⊆ own_keys -> at_store ks m0 (protocol m0 v) (wld s) ->
  (ReliableNvs -> enabled m0 v = true) ->
  (v = Downloaded -> exists t, verified t /\
     in_place ["sdcard"%string; cstr (folder (load_spec m0))] t (card_tree s)) ->
  wp (boot_musicbox_and_restart false) (ended m0) s.
Proof.
  intros Hk Ha He Hd. apply wp_boot_musicbox. intros x s' G S Hx.
  pose proof (nvs_quiet_at_store _ _ _ _ _ S Ha) as Ha'. destruct Hx as [-> | [-> T]].
  - eapply ended_crash; [exact Hk|by left|exact Ha'].
  - exists ExRestart. split_and!; [done|intros k Hn; apply Ha'; auto|].
    right. split_and!; [done|done|]. exists v. split; [intros R; split; [auto|by apply Ha']|].
    unfold card_tree in *. by rewrite G.
Qed.

(** A calm part on the way there. *)
Lemma wp_calm_end {A} (m : M mg A) (k : A -> M mg unit) ks m0 m1 s :
  calmly m -> ks ⊆ own_keys -> at_store ks m0 m1 (wld s) ->
  (forall a s', calm s s' -> at_store ks m0 m1 (wld s') -> wp (k a) (ended m0) s') ->
  wp (bind m k) (ended m0) s.
Proof.
  intros Hm Hk Ha HQ. apply wp_bind, wp_calm; [exact Hm| |].
  - intros a s' C. apply HQ; [exact C|by eapply calm_at_store].
  - intros x s' Hx C. eapply ended_crash; [exact Hk|exact Hx|by eapply calm_at_store].
Qed.

Lemma calm_tree s s' : calm s s' -> card_tree s' = card_tree s.
Proof.
  intros [C _ _ _]. unfold same_core, core, transfer_parts in C. unfold card_tree.
  by injection C as _ _ -> _ _ _.
Qed.

Lemma cnt_own : [cnt_key] ⊆ own_keys.
Proof. intros k Hk. apply list_elem_of_singleton in Hk as ->. by left. Qed.

(** Too many boots: the counter is reset, the error is shown. *)
Lemma wp_too_many m0 s :
  at_store [cnt_key] m0 (bumped m0) (wld s) ->
  (ReliableNvs -> enabled m0 TooManyBoots = true) ->
  wp (give_up_booting false) (ended m0) s.
Proof.
  intros Ha He. apply wp_bind. eapply wp_reset_boot_count; [exact Ha|by left|].
  intros s1 A1 _. eapply wp_calm_end; [apply calmly_led_init|apply cnt_own|exact A1|].
  intros _ s2 _ A2. eapply wp_calm_end; [apply calmly_error|apply cnt_own|exact A2|].
  intros _ s3 _ A3. eapply wp_calm_end; [|apply cnt_own|exact A3|].
  { apply calmly_repeat, calmly_bind; [apply calmly_update|intros; apply calmly_delay]. }
  intros _ s4 _ A4. by eapply (wp_end TooManyBoots); [apply cnt_own|exact A4| |].
Qed.

(** [nvs_get_u8] of the boot counter. *)
Lemma read_count m w h e v w' :
  nvs_store w = m -> nvs_ns w !! h = Some SIMIBOX_NVS_NAMESPACE ->
  handle (NvsGetU8 h NVS_KEY_BOOT_COUNT) w = ((e, v), w') ->
  nvs_store w' = m /\ nvs_ns w' = nvs_ns w /\ flushes w w' /\
  u8 ((if is_ok e then u8 v else 0) + 1) = bumped_count m.
Proof.
  intros Hm Ho Hc. assert (F : flushes w w') by (by eapply flushes_call, Hc).
  eapply nvs_get_u8_law in Hc as (S & N & Hv); [|exact Ho|done].
  split_and!; [congruence|done|done|]. rewrite Hm in Hv. unfold bumped_count, lookup_u8, bm_key.
  destruct (m !! _) as [[x| |]|]; [destruct Hv as [-> ->]; done|by rewrite Hv..].
Qed.

Lemma still_event {X} (c : cmd X) r tr : class_of c = CNvs -> still tr (Ev c r :: tr).
Proof.
  intros Hc. split; try (intros hs; apply owns_none; by destruct c).
  - rewrite received_cons. destruct c; try done; cbn; by rewrite app_nil_r.
  - rewrite answer_cons. by destruct c.
Qed.

Lemma wp_count_boot m0 (k : M mg unit) s :
  nvs_store (wld s) = m0 -> at_store [cnt_key] m0 m0 (wld s) ->
  (forall s', at_store [cnt_key] m0 (bumped m0) (wld s') -> tidy s s' ->
     (ReliableNvs -> (MAX_BOOT_FAILURES <=? bumped_count m0) = false) -> wp k (ended m0) s') ->
  wp (count_boot false ;; k) (ended m0) s.
Proof.
  intros Hm A0 Hk. apply wp_bind, wp_bind, wp_call. intros [e h] w1 Ho.
  pose proof (fun R : ReliableNvs => rel_open SIMIBOX_NVS_NAMESPACE NVS_READWRITE (wld s)) as Hok.
  rewrite Ho in Hok. cbn in Hok. assert (F1 : flushes (wld s) w1) by (by eapply flushes_call, Ho).
  apply nvs_open_law in Ho as [S1 N1]. pose proof (at_store_quiet _ _ _ _ _ S1 F1 A0) as A1.
  rewrite Hm in S1.
  apply wp_when; intros E; rewrite E in N1.
  - destruct N1 as (_ & Hf & N1). apply wp_bind, wp_call. intros [e2 v] w2 Hg.
    cbn [glob wld trace] in *. cbv zeta.
    eapply read_count in Hg as (S2 & N2 & F2 & Hv); [|exact S1|rewrite N1; apply lookup_insert_eq].
    rewrite Hv. assert (A2 : at_store [cnt_key] m0 m0 w2) by (eapply at_store_quiet; [|exact F2|exact A1]; congruence).
    apply wp_bind, wp_call_. intros e3 w3 H3'. apply wp_bind, wp_call_. intros e4 w4 H4'.
    apply wp_bind, wp_call_. intros r w5 H5'. cbn [glob wld trace] in *.
    edestruct (set_commit_close [cnt_key] m0 m0) as [A5 N5];
      [exact A2|by left|exact Hf|congruence|eassumption..|].
    apply wp_when; intros Hmax.
    + eapply wp_mono; [apply (wp_too_many m0); [exact A5|by intros _]|].
      intros o s' (x & -> & He). exists x. by split.
    + apply Hk; [exact A5| |by intros _]. split; [done|cbn; by rewrite N5| |done]. cbn.
      by do 5 (etransitivity; [|apply still_event; reflexivity]).
  - apply Hk; [| |intros R; by rewrite (Hok R) in E]. 
    + split; [apply A1|]. intros R. by rewrite (Hok R) in E.
    + split; [done| |by apply still_event|done]. cbn. by rewrite N1.
Qed.
End Nvs.

(** ** The boot manager on reliable storage *)

Section Reliable.
Context `{NvsLaws} (R : ReliableNvs).

Lemma set_u8_ok h ns k v w e w' :
  nvs_ns w !! h = Some ns -> nvs_private ns = false -> handle (NvsSetU8 h k v) w = (e, w') ->
  is_ok e = true /\ nvs_ns w' !! h = Some ns.
Proof.
  intros Ho Hp Hc. pose proof (rel_set_u8 h ns k v w Ho) as Hok. rewrite Hc in Hok.
  split; [done|]. eapply nvs_set_u8_law in Hc as [-> _]; [done|exact Ho|exact Hp].
Qed.

Lemma set_u32_ok h ns k v w e w' :
  nvs_ns w !! h = Some ns -> nvs_private ns = false -> handle (NvsSetU32 h k v) w = (e, w') ->
  is_ok e = true /\ nvs_ns w' !! h = Some ns.
Proof.
  intros Ho Hp Hc. pose proof (rel_set_u32 h ns k v w Ho) as Hok. rewrite Hc in Hok.
  split; [done|]. eapply nvs_set_u32_law in Hc as [-> _]; [done|exact Ho|exact Hp].
Qed.

Lemma set_str_ok h ns k v w e w' :
  nvs_ns w !! h = Some ns -> nvs_private ns = false -> handle (NvsSetStr h k v) w = (e, w') ->
  is_ok e = true /\ nvs_ns w' !! h = Some ns.
Proof.
  intros Ho Hp Hc. pose proof (rel_set_str h ns k v w Ho) as Hok. rewrite Hc in Hok.
  split; [done|]. eapply nvs_set_str_law in Hc as [-> _]; [done|exact Ho|exact Hp].
Qed.

Lemma wp_save_reliable st s :
  bm_open (glob s) (wld s) -> wp (boot_mgr_save_state (Some st)) (fun o _ => o = Ret ESP_OK) s.
Proof.
  intros [Hnz Ho]. apply wp_bind, wp_get.
  destruct (Z.eqb_spec (g_nvs_handle (glob s)) 0); [done|]. cbv zeta.
  do 9 (apply wp_bind, wp_call; intros ? ? Hc; cbn [wld] in *;
    first [eapply set_u8_ok in Hc as [? Ho']|eapply set_u32_ok in Hc as [? Ho']
          |eapply set_str_ok in Hc as [? Ho']]; [|exact Ho|done];
    clear Ho; rename Ho' into Ho).
  repeat match goal with He : is_ok _ = true |- _ => apply is_ok_spec in He as -> end.
  change (fold_left Z.lor _ ESP_OK) with ESP_OK. apply wp_bind, wp_call. intros r wf Hc. cbn [wld] in *.
  pose proof (rel_commit _ _ _ Ho) as Hr. rewrite Hc in Hr. cbn [fst] in Hr.
  apply wp_bind, wp_when; rewrite Hr; intros; [|done]. apply wp_modify, wp_ret.
  by apply is_ok_spec in Hr as ->.
Qed.
End Reliable.

Section Boot.
Context `{NvsLaws, EventGroup, MathLib, CJson}.

(** The boot manager was initialised on the store [m0] and nothing was reported. *)
Definition bm_ready (m0 : nvs_map) (s : sys mg) : Prop :=
  bm_open (boot (glob s)) (wld s) /\ g_current_state (boot (glob s)) = load_spec m0.

Lemma calm_bm_ready m0 s s' : calm s s' -> bm_ready m0 s -> bm_ready m0 s'.
Proof.
  intros [C [[_ N] _] _ _] [[Hz Ho] Hg]. unfold same_core, core in C. injection C as Eb _ _ _ _ _.
  unfold bm_ready, bm_open. rewrite Eb. auto.
Qed.

(** The boot counter is not part of the boot state. *)
Lemma load_spec_kept m m0 : (forall k, k ∉ [cnt_key] -> m !! k = m0 !! k) -> load_spec m = load_spec m0.
Proof.
  intros Hk. unfold load_spec, lookup_u8, lookup_u32, lookup_str.
  by rewrite !Hk by (intros Hin; apply list_elem_of_singleton in Hin; discriminate Hin).
Qed.

(** An operation of the boot manager, as the main program sees it. *)
Lemma wp_in_boot {A} (m : M bm A) (Q : outcome A -> sys mg -> Prop) s :
  uses [CNvs] m ->
  wp m (fun o s1 => forall s', glob s' = lset boot_lens (glob s1) (glob s) -> wld s' = wld s1 ->
      still (trace s) (trace s') -> bus_up (trace s') = bus_up (trace s) -> Q o s')
    (Sys (boot (glob s)) (wld s) (trace s)) ->
  wp (in_boot m) Q s.
Proof.
  intros Hu Hm. apply (wp_still [CNvs]); [by apply uses_zoom|done|].
  apply (wp_bus_uses [CNvs]); [by apply uses_zoom|done|]. apply wp_zoom.
  eapply wp_mono; [exact Hm|]. intros o s1 HQ Hb _ Hs. by apply HQ.
Qed.

Lemma wp_main_init m0 m1 (k : M mg unit) s :
  at_store [cnt_key] m0 m1 (wld s) ->
  (forall s', at_store [cnt_key] m0 m1 (wld s') -> bm_ready m0 s' ->
     still (trace s) (trace s') -> bus_up (trace s') = bus_up (trace s) ->
     dl (glob s') = dl (glob s) -> wp k (ended m0) s') ->
  wp (esp_error_check (in_boot boot_mgr_init) ;; k) (ended m0) s.
Proof.
  intros Ha Hk. apply wp_bind, wp_check, wp_in_boot; [uses_auto|].
  eapply wp_mono; [apply wp_boot_mgr_init|]. intros o s1 (e & -> & S & F & _ & Hok) s' G W St B.
  cbn [wld] in S, F. assert (A' : at_store [cnt_key] m0 m1 (wld s'))
    by (rewrite W; by eapply at_store_quiet).
  destruct (is_ok e) eqn:E; [|by eapply ended_crash; [apply cnt_own|left|exact A']].
  destruct (Hok eq_refl) as [Hop Hg]. cbn [wld] in Hg. apply Hk; [exact A'| |done|done|by rewrite G].
  split; rewrite G; cbn; [by rewrite W|]. rewrite Hg. apply load_spec_kept. intros k' Hk'. by apply Ha.
Qed.

Lemma wp_main_load m0 m1 (k : M mg unit) s :
  at_store [cnt_key] m0 m1 (wld s) -> bm_ready m0 s ->
  (forall s', at_store [cnt_key] m0 m1 (wld s') -> bm_ready m0 s' ->
     still (trace s) (trace s') -> bus_up (trace s') = bus_up (trace s) ->
     dl (glob s') = dl (glob s) -> boot_state (glob s') = load_spec m0 -> wp k (ended m0) s') ->
  wp (esp_error_check load_boot_state ;; k) (ended m0) s.
Proof.
  intros Ha [Ho Hc] Hk. apply wp_bind, wp_check, wp_bind, wp_get, wp_bind, wp_in_boot; [uses_auto|].
  eapply wp_mono; [by apply wp_load_state|]. intros o s1 (-> & Hg & Hh & N & S & F) s' G W St B.
  cbn [wld glob] in *. apply wp_bind, wp_modify, wp_ret.
  assert (Hl : load_spec (nvs_store (wld s)) = load_spec m0) 
    by (apply load_spec_kept; intros k' Hk'; by apply Ha).
  assert (A' : at_store [cnt_key] m0 m1 (wld s')) by (rewrite W; by eapply at_store_quiet).
  cbn [is_ok]. apply Hk; cbn; [exact A'| |exact St|exact B|by rewrite G|exact Hl].
  split; cbn; rewrite G; cbn; [|by rewrite Hg]. destruct Ho. unfold bm_open. by rewrite Hh, W, N.
Qed.

(** Reporting: the store is what the protocol says if NVS is reliable. *)
Lemma at_store_saved m0 (st : boot_state_t) (s s' : sys bm) o :
  at_store [cnt_key] m0 (bumped m0) (wld s) -> save_post st s o s' ->
  (ReliableNvs -> o = Ret ESP_OK) ->
  at_store own_keys m0 (save_spec st (bumped m0)) (wld s').
Proof.
  intros [K S] (r & -> & _ & _ & Hk & _ & Hr) Hok. split.
  - intros k [Hc Hn]%not_elem_of_cons. destruct (Hk k Hn) as [E F], (K k) as [K1 K2].
    { by intros Hin%list_elem_of_singleton. }
    split; [congruence|]. destruct F; congruence.
  - intros Hrel. destruct (S Hrel) as [S1 S2]. specialize (Hok Hrel). injection Hok as ->.
    cbn [is_ok] in Hr. destruct Hr as (Es & Ef & _).
    assert (E : nvs_store (wld s') = save_spec st (bumped m0)) by (by rewrite Es, S1).
    split; [done|]. apply map_eq. intros [ns k]. rewrite <- E.
    destruct (decide (ns = SIMIBOX_NVS_NAMESPACE)) as [->|Hns]; [by apply Ef|].
    destruct (Hk (ns, k)) as [E1 F1]; [|destruct F1; congruence].
    intros (k' & [= E' _] & _)%list_elem_of_fmap. congruence.
Qed.

Lemma wp_report m0 (report : M bm Z) (f : boot_state_t -> boot_state_t)
    (Q : outcome Z -> sys mg -> Prop) s :
  uses [CNvs] report ->
  (forall s1, bm_open (glob s1) (wld s1) ->
     wp report (save_post (f (g_current_state (glob s1)))
       (with_current (f (g_current_state (glob s1))) s1)) s1) ->
  (ReliableNvs -> forall s1, bm_open (glob s1) (wld s1) -> wp report (fun o _ => o = Ret ESP_OK) s1) ->
  at_store [cnt_key] m0 (bumped m0) (wld s) -> bm_ready m0 s ->
  (forall r s', at_store own_keys m0 (save_spec (f (load_spec m0)) (bumped m0)) (wld s') ->
     dl (glob s') = dl (glob s) -> Q (Ret r) s') ->
  wp (in_boot report) Q s.
Proof.
  intros Hu Hp Hrel Ha [Ho Hc] HQ. apply wp_in_boot; [exact Hu|].
  set (s0 := Sys (boot (glob s)) (wld s) (trace s)). specialize (Hp s0 Ho).
  assert (Hr : ReliableNvs -> fst (report s0) = Ret ESP_OK) by (intros R; exact (Hrel R s0 Ho)).
  unfold wp in *. intros s' G W _ _. destruct (Hp) as (r & E & _). rewrite E. apply HQ; [|by rewrite G].
  rewrite W. change (g_current_state (glob s0)) with (g_current_state (boot (glob s))) in Hp.
  rewrite Hc in Hp. eapply at_store_saved; [|exact Hp|exact Hr]. exact Ha.
Qed.

Lemma wp_failure m0 e (Q : outcome Z -> sys mg -> Prop) s :
  at_store [cnt_key] m0 (bumped m0) (wld s) -> bm_ready m0 s ->
  (forall r s', at_store own_keys m0 (failed_store e m0) (wld s') ->
     dl (glob s') = dl (glob s) -> Q (Ret r) s') ->
  wp (in_boot (boot_mgr_report_failure e)) Q s.
Proof.
  apply wp_report; [uses_auto|apply wp_report_failure|].
  intros R s1 Ho. do 3 apply wp_bind, wp_modify. apply wp_bind, wp_get. by apply wp_save_reliable.
Qed.

Lemma wp_success m0 (Q : outcome Z -> sys mg -> Prop) s :
  at_store [cnt_key] m0 (bumped m0) (wld s) -> bm_ready m0 s ->
  (forall r s', at_store own_keys m0 (save_spec (success_state (load_spec m0)) (bumped m0)) (wld s') ->
     dl (glob s') = dl (glob s) -> Q (Ret r) s') ->
  wp (in_boot boot_mgr_report_success) Q s.
Proof.
  apply wp_report; [uses_auto|apply wp_report_success|].
  intros R s1 Ho. do 3 apply wp_bind, wp_modify. apply wp_bind, wp_get. by apply wp_save_reliable.
Qed.
End Boot.

(** ** The download in the main program *)

Section Card.
Context `{NvsLaws, EventGroup, MathLib, CJson}.

Lemma uses_folder fuel tree_fuel folder url :
  uses download_classes (download_simi_folder fuel tree_fuel folder url).
Proof.
  pose proof uses_verify. pose proof uses_collect. pose proof uses_delete_tree.
  pose proof uses_write_marker. pose proof uses_stat. pose proof uses_mkdir.
  destruct uses_buffers as [_ Hfree]. destruct uses_task as [_ Hstop].
  assert (Hset : forall f, uses download_classes (on_sd (set_sd_freq f)))
    by (intros; unfold on_sd, set_sd_freq; uses_auto).
  assert (Hre : forall steps u o r, uses download_classes (retry_file steps fuel u o r)).
  { induction steps; intros; cbn [retry_file]; cbv zeta; unfold on_fs; uses_auto;
      unfold on_sd, set_s_sd_freq_khz; uses_auto. }
  assert (Hfs : forall tmp l, uses download_classes (download_files fuel tmp l)).
  { induction l as [|[name u] l IH]; cbn [download_files]; cbv zeta; unfold on_fs; uses_auto. }
  unfold download_simi_folder, fetch_list, prepare_tmp, finalize, on_fs, on_led, on_http, on_bufs,
    on_job, set_expected, set_downloaded. cbv zeta. uses_auto.
Qed.

(** What the download and the card do not touch. *)
Record beside (s s' : sys mg) : Prop := {
  b_boot : boot (glob s') = boot (glob s);
  b_folder : folder (boot_state (glob s')) = folder (boot_state (glob s));
  b_nvs : nvs_quiet (wld s) (wld s')
}.

#[export] Instance beside_PreOrder : PreOrder beside.
Proof. split; [by split|]. intros a b c [] []. split; [congruence..|by etransitivity]. Qed.

Lemma calm_beside s s' : calm s s' -> beside s s'.
Proof. intros [C N _ _]. unfold same_core, core in C. injection C as ? ? _ _ _ _. by split. Qed.

(** Booted on [m0], and nothing reported yet. *)
Record booted (m0 : nvs_map) (s : sys mg) : Prop := {
  bo_store : at_store [cnt_key] m0 (bumped m0) (wld s);
  bo_ready : bm_ready m0 s;
  bo_folder : folder (boot_state (glob s)) = folder (load_spec m0)
}.

Lemma booted_beside m0 s s' : beside s s' -> booted m0 s -> booted m0 s'.
Proof.
  intros [Eb Ef Nq] [A [[Hz Ho] Hg] F]. split; [by eapply nvs_quiet_at_store| |congruence].
  destruct Nq as [[_ N] _].
  unfold bm_ready, bm_open. rewrite Eb. auto.
Qed.

Definition dls (s : sys mg) : sys dl_g := Sys (dl (glob s)) (wld s) (trace s).
Definition sds (s : sys mg) : sys sd_g := Sys (sd (dl (glob s))) (wld s) (trace s).

Lemma wp_in_dl {A} cs (m : M dl_g A) (Q : outcome A -> sys mg -> Prop) s :
  uses cs m -> cls_mem CNvs cs = false -> cls_mem CErase cs = false ->
  wp m (fun o s1 => forall s', dls s' = s1 -> beside s s' -> Q o s') (dls s) ->
  wp (in_dl m) Q s.
Proof.
  intros Hu Hn He Hm. apply wp_zoom. change (Sys (lget dl_lens _) _ _) with (dls s).
  pose proof (nvs_uses_quiet cs m (dls s) Hu Hn He) as Hk.
  unfold wp in *. apply Hm; [by destruct (snd (m (dls s)))|]. by split.
Qed.

(** The same for the operations on the card: the download's handles stay. *)
Lemma wp_in_sd {A} (m : M sd_g A) (Q : outcome A -> sys mg -> Prop) s :
  uses [CGpio; CDelay; CSd; CIo] m ->
  wp m (fun o s1 => forall s', sds s' = s1 -> beside s s' -> still (trace s) (trace s') ->
      non_sd (dl (glob s')) = non_sd (dl (glob s)) -> Q o s') (sds s) ->
  wp (in_sd m) Q s.
Proof.
  intros Hu Hm. eapply wp_in_dl; [by apply uses_zoom|done|done|].
  apply (wp_still [CGpio; CDelay; CSd; CIo]); [by apply uses_zoom|done|].
  apply wp_zoom. change (Sys (lget sd_lens _) _ _) with (sds s).
  eapply wp_mono; [exact Hm|]. intros o s1 HQ St s' D B.
  assert (Eg : dl (glob s') = lset sd_lens (glob s1) (dl (glob s))) by (by injection D).
  assert (Ew : wld s' = wld s1) by (by injection D).
  assert (Et : trace s' = trace s1) by (by injection D).
  apply HQ; [|exact B|by rewrite Et|by rewrite Eg].
  unfold sds. rewrite Eg, Ew, Et. by destruct s1.
Qed.

(** The card can be used: the download's invariant and the driver's. *)
Record card_ready (D : nat) (s : sys mg) : Prop := {
  cr_after : after D OK (dls s);
  cr_inv : sd_inv (sds s)
}.

Lemma after_sd D s s' :
  after D OK (dls s) -> still (trace s) (trace s') -> non_sd (dl (glob s')) = non_sd (dl (glob s)) ->
  fs (sd (dl (glob s'))) = fs (sd (dl (glob s))) -> after D OK (dls s').
Proof.
  intros [Ho Hc Hn Hd Hj] St N F. unfold dls in *. cbn [glob trace] in *.
  injection N as N1 N2 N3. split; cbn [glob trace]; rewrite ?F, ?N3; try done.
  by eapply dl_owns_still.
Qed.

Lemma card_ready_parts D s s' :
  same_parts (dl (glob s)) (dl (glob s')) -> still (trace s) (trace s') ->
  bus_up (trace s') = bus_up (trace s) -> card_ready D s -> card_ready D s'.
Proof.
  intros C St B [Ha [I1 I2]]. injection C as E1 E2 E3 E4. split.
  - eapply after_sd; [exact Ha|exact St|unfold non_sd; congruence|congruence].
  - unfold sd_inv, sds in *. cbn [glob trace] in *. by rewrite B, E1.
Qed.

Lemma core_parts g g' : same_core g g' -> same_parts (dl g) (dl g').
Proof.
  unfold same_core, core, same_parts, transfer_parts. intros C. by injection C as _ _ -> -> -> ->.
Qed.

Lemma calm_card_ready D s s' : calm s s' -> card_ready D s -> card_ready D s'.
Proof. intros [C _ St B]. apply card_ready_parts; [by apply core_parts|done|done]. Qed.

Lemma tidy_card_ready D s s' : tidy s s' -> card_ready D s -> card_ready D s'.
Proof. intros [C _ St B]. apply card_ready_parts; [by apply core_parts|done|done]. Qed.

Lemma wp_main_clean D (Q : outcome unit -> sys mg -> Prop) s :
  card_ready D s ->
  (forall s', card_ready D s' -> s_spi_bus_initialized (sd (dl (glob s'))) = false ->
     beside s s' -> Q (Ret tt) s') ->
  wp (in_sd force_clean_sd_bus) Q s.
Proof.
  intros [Ha Hi] HQ. apply wp_in_sd; [eapply uses_weaken; [|apply uses_force_clean]; apply cls_subset; reflexivity|].
  eapply wp_mono; [by apply wp_force_clean|]. intros o s1 (-> & Hr & F) s' D' B St N.
  assert (Eg : sd (dl (glob s')) = glob s1) by (by rewrite <- D').
  apply HQ; [|rewrite Eg; apply Hr|exact B]. split.
  - eapply after_sd; [exact Ha|exact St|exact N|]. by rewrite Eg, F.
  - rewrite D'. by apply released_inv.
Qed.

Lemma wp_main_mount D (Q : outcome bool -> sys mg -> Prop) s :
  card_ready D s -> s_spi_bus_initialized (sd (dl (glob s))) = false ->
  (forall b s', card_ready D s' -> beside s s' -> Q (Ret b) s') ->
  wp (in_sd (mount_sd "/sdcard")) Q s.
Proof.
  intros [Ha Hi] Hb HQ. apply wp_in_sd; [eapply uses_weaken; [|apply uses_mount_sd]; apply cls_subset; reflexivity|].
  eapply wp_mono; [by apply wp_mount_sd|]. intros o s1 (b & tried & -> & I & F & _) s' D' B St N.
  assert (Eg : sd (dl (glob s')) = glob s1) by (by rewrite <- D').
  apply HQ; [|exact B]. split; [|by rewrite D'].
  eapply after_sd; [exact Ha|exact St|exact N|]. by rewrite Eg, F.
Qed.

(** Unmounting writes at most its marker. *)
Lemma under_unmount healthy :
  moves (on_files (under ["sdcard"; ".sync"]%string)) (unmount_sd "/sdcard" healthy).
Proof.
  assert (Hw : moves (under ["sdcard"; ".sync"]%string) (write_marker "/sdcard/.sync" "sync" true)).
  { unfold write_marker, when. moves_auto;
      [by eapply (under_fopen_w _ []) |by eapply (under_unlink _ [])]. }
  assert (Hz : moves (on_files (under ["sdcard"; ".sync"]%string))
    (zoom fs_lens (write_marker "/sdcard/.sync" "sync" true))) by (by eapply moves_zoom).
  unfold unmount_sd, set_s_card, set_spi_bus, gpio_set_level, sd_power_cycle.
  change ("/sdcard" ++ "/.sync")%string with "/sdcard/.sync"%string.
  moves_auto; intros ?; unfold on_files; reflexivity.
Qed.

Lemma wp_unmount_returns mp healthy s : wp (unmount_sd mp healthy) (fun o _ => o = Ret tt) s.
Proof.
  assert (Hs : forall (m : M sd_g unit) s1, stops (fun _ => False) m -> wp m (fun o _ => o = Ret tt) s1).
  { intros m s1 Hm. specialize (Hm s1). unfold wp. by destruct (fst (m s1)) as [[]|]. }
  apply wp_bind, (wp_mono _ (fun o _ => o = Ret tt)).
  - apply wp_when; intros _; [|done]. apply wp_bind, wp_zoom.
    eapply wp_mono; [apply wp_write_marker|]. intros o s1 [-> _]. by apply wp_call_.
  - intros o s1 ->. apply Hs. unfold set_s_card, set_spi_bus, gpio_set_level, sd_power_cycle. stops_auto.
Qed.

Lemma wp_main_unmount healthy (Q : outcome unit -> sys mg -> Prop) s :
  streams (fs (sd (dl (glob s)))) = ∅ ->
  (forall s', beside s s' -> untouched ["sdcard"; ".sync"]%string (card_tree s) (card_tree s') ->
     Q (Ret tt) s') ->
  wp (in_sd (unmount_sd "/sdcard" healthy)) Q s.
Proof.
  intros Hc HQ. apply wp_in_sd; [apply uses_unmount_sd|].
  apply (wp_moves _ _ _ _ (under_unmount healthy)).
  eapply wp_mono; [by apply wp_unmount_returns|]. intros o s1 -> Hu s' D' B _ _.
  assert (Eg : sd (dl (glob s')) = glob s1) by (by rewrite <- D').
  apply HQ; [exact B|]. unfold card_tree. rewrite Eg. refine (proj2 (Hu _)).
  unfold inside. cbn [sds glob fs]. rewrite Hc. apply map_Forall_empty.
Qed.

(** ** Serving a request *)

Context (m0 : nvs_map) (fuel tree_fuel D : nat).

(** The folder the store asks for. *)
Definition asked : string := cstr (folder (load_spec m0)).

Context (Hasked : requested m0 = true -> folder_name asked /\ asked <> ".sync"%string)
  (Hfuel : (4096 <= fuel)%nat) (Htree : (S D <= tree_fuel)%nat).

(** The requested folder is on the card, verified. *)
Definition delivered (s : sys mg) : Prop :=
  exists t, verified t /\ in_place ["sdcard"%string; asked] t (card_tree s).

Lemma delivered_untouched s s' :
  asked <> ".sync"%string ->
  untouched ["sdcard"; ".sync"]%string (card_tree s) (card_tree s') -> delivered s -> delivered s'.
Proof.
  intros Hsync Hu (t & Hv & Hp). exists t. split; [done|]. intros q Hq. rewrite Hu; [by apply Hp|].
  cbn [diverge app]. rewrite String.eqb_refl.
  by destruct (String.eqb_spec ".sync" asked) as [E|].
Qed.

(** What the attempt leaves: a delivered folder and nothing reported yet, or a
    reported failure. *)
Definition attempt_post (o : outcome bool) (s' : sys mg) : Prop :=
  match o with
  | Ret true => booted m0 s' /\ delivered s'
  | Ret false => exists v, (v = CardFailed \/ v = TransferFailed) /\
      at_store own_keys m0 (protocol m0 v) (wld s')
  | Halt x => ended m0 (Halt x) s'
  end.

Lemma wp_calm_attempt {A} (m : M mg A) (k : A -> M mg bool) s :
  calmly m -> booted m0 s ->
  (forall a s', calm s s' -> booted m0 s' -> wp (k a) attempt_post s') ->
  wp (bind m k) attempt_post s.
Proof.
  intros Hm Hb Hk. apply wp_bind, wp_calm; [exact Hm| |].
  - intros a s' C. apply Hk; [done|]. eapply booted_beside, Hb. by apply calm_beside.
  - intros x s' Hx C. eapply ended_crash; [apply cnt_own|exact Hx|].
    eapply calm_at_store, Hb. exact C.
Qed.

(** A failure is reported, then the rest is calm. *)
Lemma wp_report_attempt v e s :
  booted m0 s -> (v = CardFailed \/ v = TransferFailed) -> protocol m0 v = failed_store e m0 ->
  wp (_ <- in_boot (boot_mgr_report_failure e) ;; ret false) attempt_post s.
Proof.
  intros [A R F] Hv Hp. apply wp_bind. eapply wp_failure; [exact A|exact R|].
  intros r s' A' _. apply wp_ret. exists v. by rewrite Hp.
Qed.

Lemma wp_handle s :
  requested m0 = true -> booted m0 s -> card_ready D s ->
  wp (handle_download_with_retry fuel tree_fuel) attempt_post s.
Proof.
  intros Hrq Hb Hc. destruct (Hasked Hrq) as [Hname Hsync].
  apply wp_calm_attempt; [apply calmly_downloading|exact Hb|]. intros _ s1 C1 B1.
  pose proof (calm_card_ready _ _ _ C1 Hc) as R1.
  apply wp_bind. eapply wp_main_clean; [exact R1|]. intros s2 R2 F2 E2.
  apply wp_bind. eapply wp_main_mount; [exact R2|exact F2|]. intros mounted s3 R3 E3.
  assert (B3 : booted m0 s3) by (eapply booted_beside, B1; by etransitivity).
  clear s s1 s2 Hb Hc C1 B1 R1 R2 F2 E2 E3. destruct mounted; cbn [negb].
  - apply wp_bind, wp_get, wp_bind.
    eapply wp_in_dl; [apply uses_folder|done|done|].
    rewrite (bo_folder _ _ B3). fold asked.
    eapply wp_mono; [apply (wp_folder _ _ _ _ D); [done|apply R3|done|done]|].
    intros [[success out]|x] s4 P4 s5 D5 E5; cbv beta iota.
    2: { eapply ended_crash; [apply cnt_own|right; exact P4|]. eapply booted_beside, B3. exact E5. }
    pose proof (booted_beside _ _ _ E5 B3) as B5. destruct P4 as ([_ Hcl _ _ _] & _ & Hd).
    assert (Hd5 : success = true -> delivered s5).
    { intros Hs. destruct (Hd Hs) as (t & Hv & Hp). exists t. split; [done|].
      rewrite folder_path in Hp by done. unfold tree in Hp. rewrite <- D5 in Hp. exact Hp. }
    rewrite <- D5 in Hcl. clear Hd D5 E5. cbv zeta.
    apply wp_bind. eapply wp_main_unmount; [exact Hcl|]. intros s6 E6 U6.
    pose proof (booted_beside _ _ _ E6 B5) as B6. 
    apply wp_calm_attempt; [apply calmly_delay|exact B6|]. intros _ s7 C7 B7.
    assert (Hd7 : success = true -> delivered s7).
    { intros Hs. eapply delivered_untouched; [exact Hsync| |by apply Hd5]. by rewrite (calm_tree _ _ C7). }
    destruct success.
    + apply wp_calm_attempt; [apply calmly_success|exact B7|]. intros _ s8 C8 B8.
      apply wp_calm_attempt; [apply calmly_delay|exact B8|]. intros _ s9 C9 B9.
      apply wp_calm_attempt; [by apply calmly_for_each, calmly_wheel|exact B9|].
      intros _ s10 C10 B10. apply wp_ret. split; [exact B10|].
      destruct (Hd7 eq_refl) as (t & Hv & Hp). exists t. split; [done|].
      by rewrite (calm_tree _ _ C10), (calm_tree _ _ C9), (calm_tree _ _ C8).
    + apply wp_calm_attempt; [apply calmly_error|exact B7|]. intros _ s8 _ B8.
      apply wp_calm_attempt; [|exact B8|].
      { apply calmly_repeat, calmly_bind; [apply calmly_update|intros; apply calmly_delay]. }
      intros _ s9 _ B9. destruct (default false out);
        [apply (wp_report_attempt CardFailed)|apply (wp_report_attempt TransferFailed)]; auto.
  - apply wp_calm_attempt; [apply calmly_error|exact B3|]. intros _ s4 C4 B4.
    apply wp_calm_attempt; [apply calmly_delay|exact B4|]. intros _ s5 C5 B5.
    assert (R5 : card_ready D s5) by (eapply calm_card_ready; [|exact R3]; by etransitivity).
    apply wp_bind. eapply wp_main_unmount; [apply (a_closed _ _ _ (cr_after _ _ R5))|].
    intros s6 E6 _. eapply (wp_report_attempt CardFailed); [|auto|done]. by eapply booted_beside.
Qed.

(** A calm part of a booted run. *)
Lemma wp_calm_booted {A} (m : M mg A) (k : A -> M mg unit) s :
  calmly m -> booted m0 s -> card_ready D s ->
  (forall a s', calm s s' -> booted m0 s' -> card_ready D s' -> wp (k a) (ended m0) s') ->
  wp (bind m k) (ended m0) s.
Proof.
  intros Hm Hb Hc Hk. apply wp_bind, wp_calm; [exact Hm| |].
  - intros a s' C. apply Hk; [done| |by eapply calm_card_ready].
    eapply booted_beside, Hb. by apply calm_beside.
  - intros x s' Hx C. eapply ended_crash; [apply cnt_own|exact Hx|].
    eapply calm_at_store, Hb. exact C.
Qed.

(** Reporting a failure and returning to musicbox. *)
Lemma wp_fail_end v e (k : M mg unit) s :
  booted m0 s -> protocol m0 v = failed_store e m0 -> (ReliableNvs -> enabled m0 v = true) ->
  v <> Downloaded ->
  (forall s', at_store own_keys m0 (protocol m0 v) (wld s') -> wp k (ended m0) s') ->
  wp (_ <- in_boot (boot_mgr_report_failure e) ;; k) (ended m0) s.
Proof.
  intros [A R F] Hp He Hv Hk. apply wp_bind. eapply wp_failure; [exact A|exact R|].
  intros r s' A' _. apply Hk. by rewrite Hp.
Qed.

Lemma wp_calm_restart v ms s :
  at_store own_keys m0 (protocol m0 v) (wld s) -> (ReliableNvs -> enabled m0 v = true) ->
  v <> Downloaded ->
  wp (call_ (VTaskDelay ms) ;; boot_musicbox_and_restart false) (ended m0) s.
Proof.
  intros A He Hv. eapply wp_calm_end; [apply calmly_delay|done|exact A|].
  intros _ s' _ A'. eapply (wp_end v); [done|exact A'|exact He|done].
Qed.

Lemma wp_after_success s :
  booted m0 s -> delivered s -> (ReliableNvs -> enabled m0 Downloaded = true) ->
  wp (after_success false) (ended m0) s.
Proof.
  intros [A R F] (t & Hv & Hp) He. apply wp_bind. eapply wp_success; [exact A|exact R|].
  intros r s1 A1 G1. apply wp_bind. eapply wp_reset_boot_count; [exact A1|by left|].
  intros s2 A2 T2. cbn [STAY_IN_DOWNLOADER]. cbv iota.
  eapply (wp_end Downloaded); [done|exact A2|exact He|]. intros _. exists t. split; [done|].
  unfold card_tree in *. pose proof (core_parts _ _ (tidy_core _ _ T2)) as C.
  injection C as -> _ _ _. by rewrite G1.
Qed.

Lemma wp_serve s :
  booted m0 s -> boot_state (glob s) = load_spec m0 -> card_ready D s ->
  (ReliableNvs -> (MAX_BOOT_FAILURES <=? bumped_count m0) = false) ->
  wp (serve_request false fuel tree_fuel) (ended m0) s.
Proof.
  intros Hb Hst Hc Hlow. pose proof Hb as [A [Ho Hg] F].
  apply wp_bind, wp_zoom, wp_bind, wp_get, wp_ret.
  assert (Es : Sys (lset boot_lens (boot (glob s)) (glob s)) (wld s) (trace s) = s)
    by (by destruct s as [[]]).
  cbn [glob wld trace]. change (lget boot_lens (glob s)) with (boot (glob s)). rewrite Es, Hg.
  change ((reason (load_spec m0) =? BOOT_REASON_DOWNLOAD_REQUEST) && _) with (requested m0).
  apply wp_bind, wp_when; intros Hr; [apply negb_true_iff in Hr|apply negb_false_iff in Hr].
  { apply (wp_mono _ (ended m0)); [|by intros o s' (x & -> & He); exists x].
    eapply (wp_end NoRequest); [apply cnt_own|exact A| |done].
    intros R. unfold enabled. by rewrite (Hlow R), Hr. }
  apply wp_bind, wp_get. rewrite Hst.
  apply wp_bind, wp_when; intros Ht; [|].
  { apply (wp_mono _ (ended m0)); [|by intros o s' (x & -> & He); exists x].
    assert (He : ReliableNvs -> enabled m0 TooManyRetries = true).
    { intros R. unfold enabled. rewrite (Hlow R), Hr. exact Ht. }
    eapply (wp_fail_end TooManyRetries); [done|done|exact He|done|]. intros s1 A1.
    eapply wp_calm_end; [apply calmly_error|done|exact A1|]. intros _ s2 _ A2.
    by apply (wp_calm_restart TooManyRetries). }
  assert (Hen : forall v, v = NoConnection \/ v = CardFailed \/ v = TransferFailed \/ v = Downloaded ->
    ReliableNvs -> enabled m0 v = true).
  { intros v Hv R. unfold enabled, MAX_DOWNLOAD_RETRIES. rewrite (Hlow R), Hr, Ht.
    by destruct Hv as [-> | [-> | [-> | ->]]]. }
  eapply wp_calm_booted; [apply calmly_connect|exact Hb|exact Hc|].
  intros connected s1 _ B1 R1. apply wp_bind, wp_when; intros Hcon.
  { apply (wp_mono _ (ended m0)); [|by intros o s' (x & -> & He); exists x].
    eapply (wp_fail_end NoConnection); [done|done|auto|done|]. intros s2 A2.
    apply (wp_calm_restart NoConnection); auto. }
  apply wp_bind. eapply wp_mono; [by apply wp_handle|].
  intros [[]|x] s2 P; [|destruct P as (v & Hv & A2)|exact P].
  - destruct P as [B2 D2]. apply wp_after_success; auto.
  - apply (wp_calm_restart v); [done|apply Hen; tauto|by destruct Hv as [-> | ->]].
Qed.
End Card.

(** ** Properties *)

(** The zero-initialised program at power-on, with the card that is inserted. *)
Definition power_on `{Env, EventGroup} (card : node) (w : world) : sys mg :=
  Sys (Mg bm_init (Wg eg_new false false zero_handle)
         (DlG led_g_init (SdG (Posix card ∅ 3) None false SD_SPI_FREQ_KHZ) pool_init pp_init
            job_init 0 0)
         zero_state) w [].

Section Properties.
Context `{NvsLaws, EventGroup, MathLib, CJson}.

Lemma wp_recovery `{!SoundFlash} (k : M mg unit) Q s :
  (forall s', calm s s' -> wp k Q s') -> wp (nvs_recovery ;; k) Q s.
Proof.
  intros Hk. apply wp_bind, wp_bind.
  assert (Hc : forall s', snd (call NvsFlashInit s) = s' -> calm s s').
  { intros s' <-. destruct (calmly_frame [CFlash] (call NvsFlashInit)) as [Hc _];
      [uses_auto|done|moves_auto|stops_auto|]. apply Hc. }
  apply wp_call. intros r w' Hh. specialize (Hc (Sys (glob s) w' (Ev NvsFlashInit r :: trace s))).
  pose proof (sound_init (wld s)) as [H1' H2']. rewrite Hh in H1', H2'. cbn [fst] in *.
  apply wp_when; intros E.
  - apply orb_true_iff in E as [E%Z.eqb_eq|E%Z.eqb_eq]; done.
  - apply Hk, Hc. unfold call. by rewrite Hh.
Qed.

(** The calls on the whole partition a trace made, in order. *)
Inductive flash_op := FInit (e : Z) | FErase (e : Z).
Definition flash_op_of (e : event) : option flash_op :=
  match e with Ev c r =>
    match c in cmd X return X -> option flash_op with
    | NvsFlashInit => fun e => Some (FInit e)
    | NvsFlashErase => fun e => Some (FErase e)
    | _ => fun _ => None
    end r
  end.
Definition flash_ops (tr : list event) : list flash_op := rev (omap flash_op_of tr).

(** Whether the result of [nvs_flash_init] asks for a recovery. *)
Definition needs_recovery (e : Z) : bool :=
  (e =? ESP_ERR_NVS_NO_FREE_PAGES) || (e =? ESP_ERR_NVS_NEW_VERSION_FOUND).

Lemma flash_ops_cons e tr : flash_ops (e :: tr) = flash_ops tr ++ opt_list (flash_op_of e).
Proof.
  unfold flash_ops. cbn [omap list_omap]. destruct (flash_op_of e); cbn [rev opt_list]; [done|].
  by rewrite app_nil_r.
Qed.

Lemma flash_uses {G A} (m : M G A) s :
  uses [CNvs] m -> flash_ops (trace (snd (m s))) = flash_ops (trace s).
Proof.
  intros Hm. apply (Hm (fun a b => flash_ops b.2 = flash_ops a.2)). split; [split; [done|]|].
  - intros ???. congruence.
  - intros X c w tr r w' Hin%list_elem_of_singleton _. cbn [snd]. rewrite flash_ops_cons.
    destruct c; try discriminate Hin; cbn; by rewrite app_nil_r.
Qed.

Lemma wp_erase_namespace ns (k : M mg unit) Q s :
  (forall s', flash_ops (trace s') = flash_ops (trace s) -> wp k Q s') ->
  wp (erase_namespace ns ;; k) Q s.
Proof.
  intros Hk. assert (Hu : uses [CNvs] (erase_namespace ns)) by (unfold erase_namespace; uses_auto).
  apply wp_bind. pose proof (flash_uses (erase_namespace ns) s Hu) as Hf.
  assert (Hr : fst (erase_namespace ns s) = Ret tt).
  { assert (Hs : stops (fun _ => False) (erase_namespace ns)) by (unfold erase_namespace; stops_auto).
    specialize (Hs s). by destruct (fst (erase_namespace ns s)) as [[]|]. }
  unfold wp. rewrite Hr. by apply Hk.
Qed.

(** NVS at power-on: the partition is initialised once when that works or
    fails for another reason than a lack of pages or a new format; otherwise the
    three namespaces are cleared and it is initialised again; only when that fails
    too is the whole partition erased, and then the program goes on only if both
    the erasure and a third initialisation succeed. *)
Theorem nvs_recovery_last_resort s :
  wp nvs_recovery (fun o s' => exists e ops, flash_ops (trace s') = flash_ops (trace s) ++ FInit e :: ops /\
    if needs_recovery e then exists e2 ops2, ops = FInit e2 :: ops2 /\
      if is_ok e2 then ops2 = [] /\ o = Ret tt
      else exists r, (is_ok r = false /\ ops2 = [FErase r] /\ o = Halt ExAbort) \/
        exists e3, is_ok r = true /\ ops2 = [FErase r; FInit e3] /\
          o = if is_ok e3 then Ret tt else Halt ExAbort
    else ops = [] /\ o = Ret tt) s.
Proof.
  apply wp_bind, wp_call. intros e w1 _. fold (needs_recovery e). apply wp_when; intros E.
  2: { exists e, []. rewrite E. cbn [trace]. by rewrite flash_ops_cons. }
  apply wp_erase_namespace. intros sa Ea. apply wp_erase_namespace. intros sb Eb.
  apply wp_erase_namespace. intros sc Ec. apply wp_bind, wp_call. intros e2 w2 _. cbn [trace] in *.
  assert (F : flash_ops (Ev NvsFlashInit e2 :: trace sc) = flash_ops (trace s) ++ [FInit e; FInit e2]).
  { rewrite flash_ops_cons, Ec, Eb, Ea, flash_ops_cons. cbn. by rewrite <- app_assoc. }
  apply wp_when; intros E2; [apply negb_true_iff in E2|apply negb_false_iff in E2].
  2: { exists e, [FInit e2]. rewrite E. split; [exact F|]. exists e2, []. by rewrite E2. }
  apply wp_bind, wp_check, wp_call. intros r w3 _. destruct (is_ok r) eqn:Er.
  - apply wp_check, wp_call. intros e3 w4 _.
    assert (F3 : flash_ops (Ev NvsFlashInit e3 :: Ev NvsFlashErase r :: Ev NvsFlashInit e2 :: trace sc)
      = flash_ops (trace s) ++ [FInit e; FInit e2; FErase r; FInit e3]).
    { rewrite 2!flash_ops_cons, F. cbn. by rewrite <- !app_assoc. }
    assert (G3 : exists e2' ops2, [FInit e2; FErase r; FInit e3] = FInit e2' :: ops2 /\
      if is_ok e2' then ops2 = [] /\ (if is_ok e3 then Ret tt else Halt ExAbort) = Ret tt
      else exists r', (is_ok r' = false /\ ops2 = [FErase r'] /\
                       (if is_ok e3 then Ret tt else Halt ExAbort) = Halt (A:=unit) ExAbort) \/
        exists e3', is_ok r' = true /\ ops2 = [FErase r'; FInit e3'] /\
          (if is_ok e3 then Ret tt else Halt ExAbort) = if is_ok e3' then Ret tt else Halt ExAbort).
    { exists e2, [FErase r; FInit e3]. rewrite E2. split; [done|]. exists r. right. by exists e3. }
    destruct (is_ok e3); exists e, [FInit e2; FErase r; FInit e3]; rewrite E; by split.
  - exists e, [FInit e2; FErase r]. rewrite E. split.
    + cbn [trace]. rewrite flash_ops_cons, F. cbn. by rewrite <- app_assoc.
    + exists e2, [FErase r]. rewrite E2. split; [done|]. exists r. by left.
Qed.

Lemma wp_sys_call {X} (c : cmd X) (Q : outcome unit -> sys mg -> Prop) s :
  class_of c = CSys -> (forall s', glob s' = glob s -> calm s s' -> Q (Ret tt) s') -> wp (call_ c) Q s.
Proof.
  intros Hc HQ.
  destruct (calmly_frame [CSys] (call_ (G:=mg) c)) as [Hcalm _];
    [apply uses_call_; rewrite Hc; by left|done|moves_auto|stops_auto|].
  specialize (Hcalm s). assert (E : fst (call_ c s) = Ret tt /\ glob (snd (call_ c s)) = glob s).
  { unfold call_, call. simpl. unfold m_bind. by destruct (handle c (wld s)). }
  destruct E as [E1 E2]. unfold wp. rewrite E1. by apply HQ.
Qed.

(** C1: [app_main] of the release build at power-on, when what can be read of NVS
    is what was saved.  The device is assumed as follows: [nvs_flash_init] asks
    for no recovery; no name on the card contains a slash or is empty, and its
    directories are at most [D] deep; the folder asked for, if one is, has a name
    that is a single path component and is not .sync; the fuel is at least the
    buffer size.  The calls may answer anything else.  Then [app_main] never
    returns, and it uses no closed file and no NULL handle: it restarts, or aborts
    in an [ESP_ERROR_CHECK], or one of its counters overflows.  In every case
    nothing in NVS outside the ten keys of the boot protocol has changed or will
    have after the restart; the namespaces that components of the system keep to
    themselves, the WiFi driver's among them, are not looked at ([nvs_private]).
    It restarts into musicbox, when that partition can be found, and if NVS is
    reliable what it left saved is what the abstract protocol says for a verdict
    the store at power-on allows: in particular a download is reported as a
    success only if the requested folder is on the card, verified. *)
Theorem app_main_refines_protocol `{!SoundFlash} fuel tree_fuel D card w :
  names_with component card -> (depth card <= D)%nat ->
  (requested (nvs_store w) = true ->
     folder_name (asked (nvs_store w)) /\ asked (nvs_store w) <> ".sync"%string) ->
  nvs_saved w = nvs_store w ->
  (4096 <= fuel)%nat -> (S D <= tree_fuel)%nat ->
  wp (app_main false fuel tree_fuel) (ended (nvs_store w)) (power_on card w).
Proof.
  intros Hn Hd Ha Hs Hf Ht. set (m0 := nvs_store w) in *.
  assert (R0 : card_ready D (power_on card w)).
  { split; [|by split]. split; [|done|exact Hn|exact Hd|by intros _ _].
    split; [by exists []|by exists []|done|by split; [exists []|]]. }
  assert (W0 : at_store [cnt_key] m0 m0 (wld (power_on card w))) by (by apply at_store_start).
  assert (V0 : nvs_store (wld (power_on card w)) = m0) by done.
  revert R0 W0 V0. generalize (power_on card w). intros s R0 W0 V0.
  apply wp_bind, wp_sys_call; [done|]. intros s1 _ C1. apply wp_recovery. intros s2 C2. cbn [SEED_WIFI_CREDS]. apply wp_bind, wp_ret.
  assert (C02 : calm s s2) by (by etransitivity). 
  pose proof (calm_at_store _ _ _ _ _ C02 W0) as W2.
  assert (V2 : nvs_store (wld s2) = m0) by (rewrite <- V0; apply (calm_nvs _ _ C02)).
  pose proof (calm_card_ready _ _ _ C02 R0) as R2. clear C1 C2 C02 R0 W0 V0 s s1.
  apply wp_count_boot; [exact V2|exact W2|]. intros s3 A3 T3 Hlow.
  pose proof (tidy_card_ready _ _ _ T3 R2) as R3.
  eapply wp_calm_end; [apply calmly_led_init|apply cnt_own|exact A3|]. intros _ s4 C4 A4.
  pose proof (calm_card_ready _ _ _ C4 R3) as R4.
  eapply wp_calm_end; [apply calmly_color|apply cnt_own|exact A4|]. intros _ s5 C5 A5.
  pose proof (calm_card_ready _ _ _ C5 R4) as R5.
  eapply wp_main_init; [exact A5|]. intros s6 A6 B6 S6 U6 G6.
  eapply wp_main_load; [exact A6|exact B6|]. intros s7 A7 B7 S7 U7 G7 F7.
  assert (R7 : card_ready D s7).
  { eapply card_ready_parts; [| | |exact R5]; [by rewrite G7, G6|by etransitivity|congruence]. }
  apply wp_bind, wp_sys_call; [done|]. intros s8 G8 C8. cbn [FORCE_DOWNLOAD].
  apply wp_bind, wp_ret, (wp_serve _ _ _ D); [exact Ha|exact Hf|exact Ht| | | |exact Hlow].
  - split; [by eapply calm_at_store|by eapply calm_bm_ready|by rewrite G8, F7].
  - by rewrite G8.
  - by eapply calm_card_ready.
Qed.
End Properties.

(** ** Concrete boots *)

#[local] Existing Instance DownloadFolder.ex_math.
#[local] Existing Instance toy_cjson.

#[local] Instance ex_sound : @SoundFlash plain_env.
Proof. by split. Qed.

(** Musicbox asked for the folder [f]. *)
Definition ex_request : nvs_map :=
  <[bm_key NVS_KEY_FOLDER := VStr "f"]> (<[bm_key NVS_KEY_REASON := VU8 1]> ∅).

(** A box in reach of an access point; the server answers as in [DownloadFolder]. *)
Definition boot_world (m : nvs_map) : tworld :=
  tw_scripts [] [] (Some (ApRecord "home" (-50) 6)) [] "LIST"
    [ReadData (chars "MANIFEST"); ReadData []; ReadData (chars "abcde"); ReadData []]
    (tw_flash m tw_init).

#[local] Abbreviation boot_run m :=
  (app_main (H := plain_env) false 4096 10 (power_on (H := plain_env) old_card (boot_world m))).

Lemma ex_boot_restarts : fst (boot_run ex_request) = Halt ExRestart.
Proof. vm_compute. reflexivity. Qed.

#[local] Instance ex_reliable_nvs : @ReliableNvs plain_env plain_nvs.
Proof.
  split; [done|..]; intros; cbn in *; unfold tw_set, tw_commit;
    repeat match goal with Ho : _ = Some _ |- _ => rewrite Ho end; done.
Qed.

Lemma ex_store : nvs_store (NvsLaws := plain_nvs) (boot_world ex_request) = ex_request.
Proof. vm_compute. reflexivity. Qed.

Lemma ex_asked (m := nvs_store (NvsLaws := plain_nvs) (boot_world ex_request)) :
  requested m = true -> folder_name (asked m) /\ asked m <> ".sync"%string.
Proof. subst m. rewrite ex_store. intros _. split; [by split|done]. Qed.

Lemma app_main_refines_protocol_witness :
  exists v, enabled ex_request v = true /\
    nvs_saved (NvsLaws := plain_nvs) (wld (snd (boot_run ex_request))) = protocol ex_request v /\
    to_musicbox (trace (snd (boot_run ex_request))).
Proof.
  destruct (app_main_refines_protocol (H := plain_env) (H0 := plain_nvs) 4096 10 3 old_card
    (boot_world ex_request) (plain_component _ ex_plain) (le_n _) ex_asked eq_refl (le_n _) ex_depth)
    as (x & E & _ & [Hc|(_ & T & v & Hv & _)]).
  - rewrite ex_boot_restarts in E. injection E as <-. destruct Hc as [Hc|Hc]; discriminate Hc.
  - exists v. destruct (Hv ex_reliable_nvs) as (He & _ & Hs). rewrite ex_store in He, Hs.
    exact (conj He (conj Hs T)).
Defined.

#[local] Instance nvs_val_eq_dec : EqDecision nvs_val.
Proof. solve_decision. Defined.

(** The store the next boot finds: what was saved. *)
Definition after_boot (m : nvs_map) : nvs_map := shown (tw_saved (wld (snd (boot_run m)))).

(** The counter that is to detect a crash loop counts every boot that does not
    end in a download: after four uneventful boots without a request the fifth is
    treated as a crash loop. *)
Theorem idle_boots_look_like_crashes :
  let m := after_boot (after_boot (after_boot (after_boot ∅))) in
  map (fun k => lookup_u8 m k 0) [NVS_KEY_BOOT_COUNT; NVS_KEY_REASON] = [4; 0] /\
  enabled m TooManyBoots = true /\ enabled m NoRequest = false /\
  after_boot m = protocol m TooManyBoots.
Proof.
  cbv zeta. split_and!; [vm_compute; reflexivity..|].
  apply (bool_decide_eq_true_1 _). vm_compute. reflexivity.
Qed.

(** The request is served: the success is in NVS and the folder on the card. *)
Lemma ex_boot_served :
  after_boot ex_request = protocol ex_request Downloaded /\
  lookup_path ["sdcard"; "f"; "a.mp3"]%string (card_tree (snd (boot_run ex_request)))
  = Some (File (chars "abcde")).
Proof. split; [apply (bool_decide_eq_true_1 _)|]; vm_compute; reflexivity. Qed.
