(* ===== verification/Jsmn.v ===== *)
(** * The JSON tokenizer: [jsmn.h]

    The vendored component [espressif__jsmn]: [jsmn_parse] splits a JSON text into
    tokens, each with its type, its boundaries in the text and the number of its
    children.  The build switches [JSMN_STRICT] and [JSMN_PARENT_LINKS] are
    parameters.  A NULL token array is [None]; an access outside an array (and a
    loop that does not end within its fuel) makes the result [None]. *)

From stdpp Require Import list.
From S2P Require Import Prelude CLib.
#[local] Open Scope nat_scope.

(** ** Data *)

Inductive jsmntype_t := JSMN_UNDEFINED | JSMN_OBJECT | JSMN_ARRAY | JSMN_STRING | JSMN_PRIMITIVE.

#[export] Instance jsmntype_eq_dec : EqDecision jsmntype_t.
Proof. solve_decision. Defined.

Definition JSMN_ERROR_NOMEM : Z := -1.
Definition JSMN_ERROR_INVAL : Z := -2.
Definition JSMN_ERROR_PART : Z := -3.

(** [jsmntok_t]; [parent] is there with [JSMN_PARENT_LINKS] only. *)
Record jsmntok_t := Tok {
  type : jsmntype_t;
  tstart : Z;
  tend : Z;
  size : Z;
  parent : Z
}.

Record jsmn_parser := Parser {
  pos : nat;
  toknext : nat;
  toksuper : Z
}.

Definition jsmn_init : jsmn_parser := Parser 0 0 (-1).

(** The conversion of [unsigned int] arithmetic to [int]. *)
Definition to_int (z : Z) : Z := ((z + 2 ^ 31) mod 2 ^ 32 - 2 ^ 31)%Z.

Definition with_pos (n : nat) (p : jsmn_parser) := Parser n (toknext p) (toksuper p).
Definition with_super (z : Z) (p : jsmn_parser) := Parser (pos p) (toknext p) z.
Definition with_type (y : jsmntype_t) (t : jsmntok_t) := Tok y (tstart t) (tend t) (size t) (parent t).
Definition with_start (z : Z) (t : jsmntok_t) := Tok (type t) z (tend t) (size t) (parent t).
Definition with_end (z : Z) (t : jsmntok_t) := Tok (type t) (tstart t) z (size t) (parent t).
Definition more_size (t : jsmntok_t) := Tok (type t) (tstart t) (tend t) (size t + 1) (parent t).
Definition with_parent (z : Z) (t : jsmntok_t) := Tok (type t) (tstart t) (tend t) (size t) z.

(** The contents of the two out-parameters, and an array that may be NULL. *)
Abbreviation tokens := (option (list jsmntok_t)).

(** An error code, or go on with the parser, the tokens and the count. *)
Abbreviation outcome := (Z * jsmn_parser * tokens + jsmn_parser * tokens * Z)%type.

(** [tokens[i]] for an [int] index. *)
Definition tok_at (ts : list jsmntok_t) (i : Z) : option jsmntok_t :=
  if (i <? 0)%Z then None else ts !! Z.to_nat i.
Definition tok_set (ts : list jsmntok_t) (i : Z) (f : jsmntok_t -> jsmntok_t)
  : option (list jsmntok_t) :=
  t ← tok_at ts i; Some (<[Z.to_nat i := f t]> ts).

(** Started and not ended. *)
Definition unclosed (t : jsmntok_t) : bool :=
  negb (tstart t =? -1)%Z && (tend t =? -1)%Z.

Definition is_type (y : jsmntype_t) (t : jsmntok_t) : bool := bool_decide (type t = y).

Section Jsmn.
Context (strict links : bool).
(** The text, all [len] bytes of it, and the size of the token array. *)
Context (js : list ascii) (num_tokens : nat).

(** [parser->pos < len && js[parser->pos] != 0] and the character there. *)
Definition cur (n : nat) : option ascii :=
  c ← js !! n; if Ascii.eqb c NUL then None else Some c.

(** ** Tokens *)

Definition jsmn_alloc_token (p : jsmn_parser) (ts : list jsmntok_t)
  : option (option (nat * jsmn_parser * list jsmntok_t)) :=
  if num_tokens <=? toknext p then Some None else
  t ← ts !! toknext p;
  let t' := Tok (type t) (-1) (-1) 0 (if links then (-1)%Z else parent t) in
  Some (Some (toknext p, Parser (pos p) (S (toknext p)) (toksuper p), <[toknext p := t']> ts)).

Definition jsmn_fill_token (y : jsmntype_t) (s e : Z) (t : jsmntok_t) : jsmntok_t :=
  Tok y s e 0 (parent t).

(** What [jsmn_parse_primitive] and [jsmn_parse_string] do with the token they
    found between [s] and [e]: allocate and fill it, or restore the position. *)
Definition emit (y : jsmntype_t) (start s e : nat) (p : jsmn_parser) (ts : list jsmntok_t)
  : option (Z * jsmn_parser * tokens) :=
  a ← jsmn_alloc_token p ts;
  match a with
  | None => Some (JSMN_ERROR_NOMEM, with_pos start p, Some ts)
  | Some (i, p', ts') =>
      ts2 ← tok_set ts' (Z.of_nat i) (fun t =>
              let t' := jsmn_fill_token y (to_int (Z.of_nat s)) (to_int (Z.of_nat e)) t in
              if links then with_parent (toksuper p) t' else t');
      Some (0%Z, p', Some ts2)
  end.

(** ** Primitives *)

Inductive scan := Found (n : nat) | Ended (n : nat) | Invalid.

Definition ends_primitive (c : ascii) : bool :=
  negb strict && Ascii.eqb c ":" || Ascii.eqb c "009" || Ascii.eqb c "013" || Ascii.eqb c "010" ||
  Ascii.eqb c " " || Ascii.eqb c "," || Ascii.eqb c "]" || Ascii.eqb c "}".

Definition unprintable (c : ascii) : bool :=
  (nat_of_ascii c <? 32) || (127 <=? nat_of_ascii c).

Fixpoint scan_primitive (fuel n : nat) : option scan :=
  match fuel with
  | O => None
  | S fuel =>
      match cur n with
      | None => Some (Ended n)
      | Some c =>
          if ends_primitive c then Some (Found n)
          else if unprintable c then Some Invalid
          else scan_primitive fuel (S n)
      end
  end.

Definition jsmn_parse_primitive (p : jsmn_parser) (tk : tokens)
  : option (Z * jsmn_parser * tokens) :=
  let start := pos p in
  let found n :=
    match tk with
    | None => Some (0%Z, with_pos (n - 1) p, None)
    | Some ts =>
        '(r, p', tk') ← emit JSMN_PRIMITIVE start start n p ts;
        Some (r, if (r <? 0)%Z then p' else with_pos (n - 1) p', tk')
    end in
  r ← scan_primitive (S (length js)) start;
  match r with
  | Found n => found n
  | Ended n => if strict then Some (JSMN_ERROR_PART, with_pos start p, tk) else found n
  | Invalid => Some (JSMN_ERROR_INVAL, with_pos start p, tk)
  end.

(** ** Strings *)

Definition is_hex (c : ascii) : bool :=
  let n := nat_of_ascii c in
  (48 <=? n) && (n <=? 57) || (65 <=? n) && (n <=? 70) || (97 <=? n) && (n <=? 102).

(** The loop over at most four hexadecimal digits; [None]: another character. *)
Fixpoint skip_hex (k n : nat) : option nat :=
  match k with
  | O => Some n
  | S k =>
      match cur n with
      | None => Some n
      | Some c => if is_hex c then skip_hex k (S n) else None
      end
  end.

Definition simple_escape (c : ascii) : bool :=
  existsb (Ascii.eqb c) ["034"; "/"; "\"; "b"; "f"; "r"; "n"; "t"]%char.

(** The loop of [jsmn_parse_string] from [n] on: [Found] at the closing quote. *)
Fixpoint scan_string (fuel n : nat) : option scan :=
  match fuel with
  | O => None
  | S fuel =>
      match cur n with
      | None => Some (Ended n)
      | Some c =>
          if Ascii.eqb c "034" then Some (Found n)
          else if Ascii.eqb c "\" then
            match js !! S n with
            | None => scan_string fuel (S n)
            | Some e =>
                if simple_escape e then scan_string fuel (S (S n))
                else if Ascii.eqb e "u" then
                  match skip_hex 4 (S (S n)) with
                  | Some n' => scan_string fuel n'
                  | None => Some Invalid
                  end
                else Some Invalid
            end
          else scan_string fuel (S n)
      end
  end.

Definition jsmn_parse_string (p : jsmn_parser) (tk : tokens)
  : option (Z * jsmn_parser * tokens) :=
  let start := pos p in
  r ← scan_string (S (length js)) (S start);
  match r with
  | Found n =>
      match tk with
      | None => Some (0%Z, with_pos n p, None)
      | Some ts => emit JSMN_STRING start (S start) n (with_pos n p) ts
      end
  | Ended _ => Some (JSMN_ERROR_PART, with_pos start p, tk)
  | Invalid => Some (JSMN_ERROR_INVAL, with_pos start p, tk)
  end.

(** ** The parser *)

(** [tokens[parser->toksuper].size++] when there is a superior token. *)
Definition grow_super (p : jsmn_parser) (ts : list jsmntok_t) : option (list jsmntok_t) :=
  if (toksuper p =? -1)%Z then Some ts else tok_set ts (toksuper p) more_size.

(** [case '{'] and [case '[']. *)
Definition open_bracket (c : ascii) (p : jsmn_parser) (tk : tokens) (count : Z) : option outcome :=
  let count := (count + 1)%Z in
  match tk with
  | None => Some (inr (p, None, count))
  | Some ts =>
      a ← jsmn_alloc_token p ts;
      match a with
      | None => Some (inl (JSMN_ERROR_NOMEM, p, Some ts))
      | Some (i, p, ts) =>
          k ← (if (toksuper p =? -1)%Z then Some (Some ts) else
               t ← tok_at ts (toksuper p);
               if strict && is_type JSMN_OBJECT t then Some None else
               ts ← tok_set ts (toksuper p) more_size;
               ts ← (if links then tok_set ts (Z.of_nat i) (with_parent (toksuper p)) else Some ts);
               Some (Some ts));
          match k with
          | None => Some (inl (JSMN_ERROR_INVAL, p, Some ts))
          | Some ts =>
              ts ← tok_set ts (Z.of_nat i) (fun t => with_start (to_int (Z.of_nat (pos p)))
                     (with_type (if Ascii.eqb c "{" then JSMN_OBJECT else JSMN_ARRAY) t));
              Some (inr (with_super (to_int (Z.of_nat (toknext p) - 1)) p, Some ts, count))
          end
      end
  end.

(** The search, downwards from [n - 1], for the bracket that is open; [Some None]
    is none, [inl] an open bracket of the other type. *)
Fixpoint find_open (ts : list jsmntok_t) (ok : jsmntok_t -> bool) (n : nat)
  : option (option (nat * jsmntok_t)) :=
  match n with
  | O => Some None
  | S i => t ← ts !! i; if ok t then Some (Some (i, t)) else find_open ts ok i
  end.

(** The loop of the build with parent links: up the parents from token [i]. *)
Fixpoint climb (fuel : nat) (ts : list jsmntok_t) (y : jsmntype_t) (super i : Z)
  : option (option (Z * option jsmntok_t)) :=
  match fuel with
  | O => None
  | S fuel =>
      t ← tok_at ts i;
      if unclosed t then
        if negb (is_type y t) then Some None else Some (Some (i, Some t))
      else if (parent t =? -1)%Z then
        if negb (is_type y t) || (super =? -1)%Z then Some None else Some (Some (i, None))
      else climb fuel ts y super (parent t)
  end.

(** [case '}'] and [case ']']. *)
Definition close_bracket (c : ascii) (p : jsmn_parser) (tk : tokens) (count : Z) : option outcome :=
  match tk with
  | None => Some (inr (p, None, count))
  | Some ts =>
      let y := if Ascii.eqb c "}" then JSMN_OBJECT else JSMN_ARRAY in
      let bad := Some (inl (JSMN_ERROR_INVAL, p, Some ts)) in
      let ended ts i := tok_set ts i (with_end (to_int (Z.of_nat (pos p) + 1))) in
      if links then
        if toknext p <? 1 then bad else
        r ← climb (toknext p) ts y (toksuper p) (Z.of_nat (toknext p) - 1)%Z;
        match r with
        | None => bad
        | Some (_, None) => Some (inr (p, Some ts, count))
        | Some (i, Some t) =>
            ts ← ended ts i;
            Some (inr (with_super (parent t) p, Some ts, count))
        end
      else
        r ← find_open ts unclosed (toknext p);
        match r with
        | None => bad
        | Some (i, t) =>
            if negb (is_type y t) then bad else
            ts ← ended ts (Z.of_nat i);
            r2 ← find_open ts unclosed (S i);
            Some (inr (with_super (match r2 with Some (j, _) => Z.of_nat j | None => (-1)%Z end) p,
                       Some ts, count))
        end
  end.

Definition is_container (t : jsmntok_t) : bool :=
  is_type JSMN_ARRAY t || is_type JSMN_OBJECT t.

(** [case ',']. *)
Definition comma (p : jsmn_parser) (tk : tokens) (count : Z) : option outcome :=
  match tk with
  | None => Some (inr (p, None, count))
  | Some ts =>
      if (toksuper p =? -1)%Z then Some (inr (p, tk, count)) else
      t ← tok_at ts (toksuper p);
      if is_container t then Some (inr (p, tk, count)) else
      if links then Some (inr (with_super (parent t) p, tk, count)) else
      r ← find_open ts (fun t => is_container t && unclosed t) (toknext p);
      Some (inr (match r with Some (i, _) => with_super (Z.of_nat i) p | None => p end, tk, count))
  end.

(** After a string or a primitive. *)
Definition value (r : option (Z * jsmn_parser * tokens)) (count : Z) : option outcome :=
  '(r, p, tk) ← r;
  if (r <? 0)%Z then Some (inl (r, p, tk)) else
  match tk with
  | None => Some (inr (p, None, (count + 1)%Z))
  | Some ts => ts ← grow_super p ts; Some (inr (p, Some ts, (count + 1)%Z))
  end.

(** Strict mode: where a primitive may not stand. *)
Definition strict_key (p : jsmn_parser) (tk : tokens) : option bool :=
  match tk with
  | None => Some false
  | Some ts =>
      if (toksuper p =? -1)%Z then Some false else
      t ← tok_at ts (toksuper p);
      Some (is_type JSMN_OBJECT t || is_type JSMN_STRING t && negb (size t =? 0)%Z)
  end.

Definition starts_primitive (c : ascii) : bool :=
  existsb (Ascii.eqb c)
    ["-"; "0"; "1"; "2"; "3"; "4"; "5"; "6"; "7"; "8"; "9"; "t"; "f"; "n"]%char.

(** The body of the loop at the character [c]. *)
Definition parse_char (c : ascii) (p : jsmn_parser) (tk : tokens) (count : Z) : option outcome :=
  if Ascii.eqb c "{" || Ascii.eqb c "[" then open_bracket c p tk count
  else if Ascii.eqb c "}" || Ascii.eqb c "]" then close_bracket c p tk count
  else if Ascii.eqb c "034" then value (jsmn_parse_string p tk) count
  else if Ascii.eqb c "009" || Ascii.eqb c "013" || Ascii.eqb c "010" || Ascii.eqb c " "
  then Some (inr (p, tk, count))
  else if Ascii.eqb c ":" then Some (inr (with_super (to_int (Z.of_nat (toknext p) - 1)) p, tk, count))
  else if Ascii.eqb c "," then comma p tk count
  else if strict then
    if starts_primitive c then
      b ← strict_key p tk;
      if (b : bool) then Some (inl (JSMN_ERROR_INVAL, p, tk))
      else value (jsmn_parse_primitive p tk) count
    else Some (inl (JSMN_ERROR_INVAL, p, tk))
  else value (jsmn_parse_primitive p tk) count.

(** After the loop: an open bracket is an incomplete text. *)
Definition parse_end (p : jsmn_parser) (tk : tokens) (count : Z)
  : option (Z * jsmn_parser * tokens) :=
  match tk with
  | None => Some (count, p, tk)
  | Some ts =>
      r ← find_open ts unclosed (toknext p);
      Some (match r with Some _ => JSMN_ERROR_PART | None => count end, p, tk)
  end.

Fixpoint parse_loop (fuel : nat) (p : jsmn_parser) (tk : tokens) (count : Z)
  : option (Z * jsmn_parser * tokens) :=
  match fuel with
  | O => None
  | S fuel =>
      match cur (pos p) with
      | None => parse_end p tk count
      | Some c =>
          r ← parse_char c p tk count;
          match r with
          | inl e => Some e
          | inr (p, tk, count) => parse_loop fuel (with_pos (S (pos p)) p) tk count
          end
      end
  end.

(** The result, and what is left in the parser and the tokens. *)
Definition jsmn_parse (p : jsmn_parser) (tk : tokens) : option (Z * jsmn_parser * tokens) :=
  parse_loop (S (length js)) p tk (to_int (Z.of_nat (toknext p))).
End Jsmn.

(** ** Facts *)

Lemma to_int_small z : (-1 <= z < 2 ^ 31)%Z -> to_int z = z.
Proof. intros Hz. unfold to_int. rewrite Z.mod_small; lia. Qed.

Lemma tok_at_lt ts (i : Z) : (0 <= i < Z.of_nat (length ts))%Z ->
  exists t, tok_at ts i = Some t /\ ts !! Z.to_nat i = Some t.
Proof.
  intros Hi. unfold tok_at. destruct (Z.ltb_spec i 0); [lia|].
  destruct (lookup_lt_is_Some_2 ts (Z.to_nat i)) as [t E]; [lia|]. by exists t.
Qed.

Lemma tok_at_nat ts (i : nat) t : ts !! i = Some t -> tok_at ts (Z.of_nat i) = Some t.
Proof. intros E. unfold tok_at. destruct (Z.ltb_spec (Z.of_nat i) 0); [lia|]. by rewrite Nat2Z.id. Qed.

Lemma tok_set_nat ts (i : nat) t f : ts !! i = Some t -> tok_set ts (Z.of_nat i) f = Some (<[i := f t]> ts).
Proof. intros E. unfold tok_set. rewrite (tok_at_nat _ _ _ E). simpl. by rewrite Nat2Z.id. Qed.

Section Facts.
Context (strict links : bool) (js : list ascii) (num_tokens : nat).
Context (Hlen : (Z.of_nat (length js) < 2 ^ 31)%Z) (Hnum : (Z.of_nat num_tokens < 2 ^ 31)%Z).

Lemma cur_Some n c : cur js n = Some c -> js !! n = Some c /\ n < length js.
Proof.
  unfold cur. destruct (js !! n) as [d|] eqn:E; [|done]. simpl. destruct (Ascii.eqb d NUL); [done|].
  intros [= ->]. split; [done|]. by eapply lookup_lt_Some.
Qed.

Lemma cur_lt n : n < length js \/ cur js n = None.
Proof.
  destruct (Nat.lt_ge_cases n (length js)); [by left|]. right. unfold cur. by rewrite lookup_ge_None_2.
Qed.

(** What the two scans say of the characters they passed. *)
Definition in_primitive (c : ascii) : Prop := ends_primitive strict c = false /\ unprintable c = false.

Lemma scan_primitive_ends fuel n :
  length js - n < fuel -> n <= length js ->
  exists r, scan_primitive strict js fuel n = Some r /\
    match r with
    | Found m | Ended m => n <= m <= length js /\
        forall k, n <= k < m -> exists c, js !! k = Some c /\ in_primitive c
    | Invalid => True
    end /\
    (r = Found n -> exists c, cur js n = Some c /\ ends_primitive strict c = true) /\
    (r = Ended n -> cur js n = None).
Proof.
  revert n. induction fuel as [|fuel IH]; intros n Hf Hn; [lia|]. cbn [scan_primitive].
  destruct (cur js n) as [c|] eqn:E.
  - destruct (ends_primitive strict c) eqn:Ee.
    + eexists. split; [done|]. split; [split; [lia|intros; lia]|]. split; [eauto|done].
    + destruct (unprintable c) eqn:Eu; [eexists; done|].
      apply cur_Some in E as [E Hlt]. destruct (IH (S n)) as (r & Hr & Hp & _); [lia|lia|].
      exists r. split; [done|]. split.
      * destruct r; try done; destruct Hp as [Hm Hk]; (split; [lia|]); intros k Hkk;
          (destruct (decide (k = n)) as [->|]; [by exists c|apply Hk; lia]).
      * split; intros ->; cbn in Hp; lia.
  - eexists. split; [done|]. split; [split; [lia|intros; lia]|]. by split.
Qed.

Lemma skip_hex_le k n m : skip_hex js k n = Some m -> n <= length js -> n <= m <= length js.
Proof.
  revert n. induction k as [|k IH]; intros n; cbn [skip_hex]; [intros [= ->]; lia|].
  destruct (cur js n) as [c|] eqn:E; [|intros [= ->]; lia]. apply cur_Some in E as [_ Hlt].
  destruct (is_hex c); [|done]. intros Hs ?. apply IH in Hs; lia.
Qed.

Lemma scan_string_ends fuel n :
  length js - n < fuel -> n <= length js ->
  exists r, scan_string js fuel n = Some r /\
    match r with Found m => n <= m < length js /\ js !! m = Some "034"%char | _ => True end.
Proof.
  revert n. induction fuel as [|fuel IH]; intros n Hf Hn; [lia|]. cbn [scan_string].
  destruct (cur js n) as [c|] eqn:E; [|by eexists].
  apply cur_Some in E as [E Hlt].
  assert (Hrec : forall n', n < n' <= length js -> exists r, scan_string js fuel n' = Some r /\
    match r with Found m => n <= m < length js /\ js !! m = Some "034"%char | _ => True end).
  { intros n' Hn'. destruct (IH n') as (r & Hr & Hp); [lia|lia|]. exists r. split; [done|].
    destruct r; try done. destruct Hp. split; [lia|done]. }
  destruct (Ascii.eqb_spec c "034") as [->|]; [eexists; split; [done|]; by split; [lia|]|].
  destruct (Ascii.eqb c "\"); [|apply Hrec; lia].
  destruct (js !! S n) as [e|] eqn:Ee; [|apply Hrec; lia]. apply lookup_lt_Some in Ee.
  destruct (simple_escape e); [apply Hrec; lia|].
  destruct (Ascii.eqb e "u"); [|by eexists].
  destruct (skip_hex js 4 (S (S n))) as [m|] eqn:Es; [|by eexists].
  apply skip_hex_le in Es; [|lia]. apply Hrec. lia.
Qed.

(** ** The invariant *)

(** The state between two characters: everything is within its array. *)
Record wf (p : jsmn_parser) (ts : list jsmntok_t) : Prop := {
  wf_pos : pos p <= length js;
  wf_next : toknext p <= num_tokens;
  wf_room : num_tokens <= length ts;
  wf_super : (-1 <= toksuper p < Z.of_nat (toknext p))%Z;
  wf_parent : links = true -> forall i t, i < toknext p -> ts !! i = Some t ->
    (-1 <= parent t < Z.of_nat i)%Z
}.

(** A closed token of the kind, in the text. *)
Definition bracketed (o c : ascii) (t : jsmntok_t) : Prop :=
  exists s, tstart t = Z.of_nat s /\ js !! s = Some o /\
    (tend t = (-1)%Z \/
     exists e, tend t = Z.of_nat (S e) /\ s < e < length js /\ js !! e = Some c).

Definition spans (t : jsmntok_t) : Prop :=
  match type t with
  | JSMN_UNDEFINED => False
  | JSMN_OBJECT => bracketed "{" "}" t
  | JSMN_ARRAY => bracketed "[" "]" t
  | JSMN_STRING => exists s e, tstart t = Z.of_nat (S s) /\ tend t = Z.of_nat e /\
      s < e /\ js !! s = Some "034"%char /\ js !! e = Some "034"%char
  | JSMN_PRIMITIVE => exists s e, tstart t = Z.of_nat s /\ tend t = Z.of_nat e /\ s < e /\
      forall n, s <= n < e -> exists c, js !! n = Some c /\ in_primitive c
  end.

(** Of two tokens, the second starts later, and is inside the first or after it. *)
Definition nested (t t' : jsmntok_t) : Prop :=
  (tstart t < tstart t')%Z /\
  (tend t = -1 \/ tend t <= tstart t' \/ (tend t' <> -1 /\ tend t' <= tend t))%Z.

Record sound (p : jsmn_parser) (ts : list jsmntok_t) : Prop := {
  so_spans i t : i < toknext p -> ts !! i = Some t ->
    spans t /\ (tstart t < Z.of_nat (pos p))%Z /\ (tend t <= Z.of_nat (pos p))%Z;
  so_nested i j t t' : i < j < toknext p -> ts !! i = Some t -> ts !! j = Some t' -> nested t t'
}.

(** ** The operations *)

Lemma wf_lookup p ts i : wf p ts -> i < toknext p -> exists t, ts !! i = Some t.
Proof. intros [] Hi. apply lookup_lt_is_Some_2. lia. Qed.

(** The token array after a new token was put at its end. *)
Lemma sound_new p p' ts t :
  wf p ts -> sound p ts -> toknext p < num_tokens ->
  toknext p' = S (toknext p) -> pos p <= pos p' ->
  spans t -> (Z.of_nat (pos p) <= tstart t < Z.of_nat (S (pos p')))%Z ->
  (tend t <= Z.of_nat (S (pos p')))%Z ->
  sound (with_pos (S (pos p')) p') (<[toknext p := t]> ts).
Proof.
  intros [Hw1 Hw2 Hw3 _ _] [S1 S2] Hn Hp' Hle Hs Ht He.
  assert (Hl : toknext p < length ts) by lia. split; cbn [with_pos toknext pos].
  - intros i u Hi Hu. destruct (decide (i = toknext p)) as [->|Hne].
    + rewrite list_lookup_insert_eq in Hu by done. injection Hu as <-. split; [done|lia].
    + rewrite list_lookup_insert_ne in Hu by done. destruct (S1 i u) as (? & ? & ?); [lia|done|].
      split; [done|lia].
  - intros i j u u' Hij Hu Hu'. rewrite list_lookup_insert_ne in Hu by lia.
    destruct (decide (j = toknext p)) as [->|Hne].
    + rewrite list_lookup_insert_eq in Hu' by done. injection Hu' as <-.
      destruct (S1 i u) as (_ & ? & ?); [lia|done|]. split; lia.
    + rewrite list_lookup_insert_ne in Hu' by done. by apply (S2 i j); [lia|..].
Qed.

(** Changes that keep the boundaries and the types. *)
Definition same_span (t t' : jsmntok_t) : Prop :=
  type t' = type t /\ tstart t' = tstart t /\ tend t' = tend t /\ parent t' = parent t.

Lemma same_span_spans t t' : same_span t t' -> spans t -> spans t'.
Proof. intros (E1 & E2 & E3 & _). unfold spans, bracketed. by rewrite E1, E2, E3. Qed.

Lemma wf_grow p ts :
  wf p ts -> exists ts', grow_super p ts = Some ts' /\ length ts' = length ts /\
    forall i t', ts' !! i = Some t' -> exists t, ts !! i = Some t /\ same_span t t'.
Proof.
  intros Hw. unfold grow_super. destruct (Z.eqb_spec (toksuper p) (-1)).
  { exists ts. split; [done|]. split; [done|]. intros i t Ht. by exists t. }
  destruct Hw as [_ Hn Hr Hs _]. destruct (tok_at_lt ts (toksuper p)) as (t & E1 & E2); [lia|].
  unfold tok_set. rewrite E1. simpl. eexists. split; [done|]. split; [apply length_insert|].
  intros i t' Ht'. apply list_lookup_insert_Some in Ht' as [(<- & <- & _)|[_ ?]]; [by exists t|by exists t'].
Qed.

Lemma wf_same p ts ts' :
  wf p ts -> length ts' = length ts ->
  (forall i t', ts' !! i = Some t' -> exists t, ts !! i = Some t /\ same_span t t') -> wf p ts'.
Proof.
  intros [] Hl Hs. split; try done; [lia|]. intros Hk i t' Hi Ht'.
  destruct (Hs _ _ Ht') as (t & Ht & _ & _ & _ & ->). eauto.
Qed.

Lemma sound_same p ts ts' :
  sound p ts -> (forall i t', ts' !! i = Some t' -> exists t, ts !! i = Some t /\ same_span t t') ->
  sound p ts'.
Proof.
  intros [S1 S2] Hs. split.
  - intros i t' Hi Ht'. destruct (Hs _ _ Ht') as (t & Ht & Hsp). destruct (S1 i t Hi Ht) as (H1 & H2 & H3).
    split; [by eapply same_span_spans|]. destruct Hsp as (_ & -> & -> & _). done.
  - intros i j t t' Hij Ht Ht'. destruct (Hs _ _ Ht) as (u & Hu & _ & E1 & E2 & _).
    destruct (Hs _ _ Ht') as (u' & Hu' & _ & E3 & E4 & _). unfold nested. rewrite E1, E2, E3, E4.
    by apply (S2 i j).
Qed.

(** What one character does: an error leaves a state that can be resumed, and
    otherwise the invariant holds at the next character. *)
Definition char_post (p : jsmn_parser) (ts : list jsmntok_t) (count : Z) (o : outcome) : Prop :=
  match o with
  | inl (r, p', tk) => (r < 0)%Z /\ exists ts', tk = Some ts' /\ wf p' ts'
  | inr (p', tk, count') => exists ts', tk = Some ts' /\
      wf (with_pos (S (pos p')) p') ts' /\ pos p <= pos p' /\
      (count' - count = Z.of_nat (toknext p') - Z.of_nat (toknext p))%Z /\
      (links = false -> sound p ts -> sound (with_pos (S (pos p')) p') ts')
  end.

Lemma emit_post y start s e p ts :
  wf p ts -> exists r p' tk, emit links num_tokens y start s e p ts = Some (r, p', tk) /\
    (r = JSMN_ERROR_NOMEM /\ p' = with_pos start p /\ tk = Some ts \/
     r = 0%Z /\ toknext p < num_tokens /\ p' = Parser (pos p) (S (toknext p)) (toksuper p) /\
     exists pr, tk = Some (<[toknext p := Tok y (to_int (Z.of_nat s)) (to_int (Z.of_nat e)) 0 pr]> ts) /\
       (links = true -> pr = toksuper p)).
Proof.
  intros [Hw1 Hw2 Hw3 _ _]. unfold emit, jsmn_alloc_token.
  destruct (Nat.leb_spec num_tokens (toknext p)) as [Hf|Hf].
  - do 3 eexists. split; [done|]. by left.
  - destruct (lookup_lt_is_Some_2 ts (toknext p)) as [t Et]; [lia|]. rewrite Et. simpl.
    erewrite tok_set_nat by (apply list_lookup_insert_eq; lia). simpl.
    do 3 eexists. split; [done|]. right. split_and!; try done.
    rewrite list_insert_insert_eq. destruct links; eexists; by split.
Qed.

Lemma wf_pushed p ts n t :
  wf p ts -> toknext p < num_tokens -> n <= length js ->
  (links = true -> (-1 <= parent t < Z.of_nat (toknext p))%Z) ->
  wf (Parser n (S (toknext p)) (toksuper p)) (<[toknext p := t]> ts).
Proof.
  intros [H1 H2 H3 H4 H5] Hn Hle Hpar. split; cbn [pos toknext toksuper]; rewrite ?length_insert; try lia.
  intros Hk i u Hi Hu. destruct (decide (i = toknext p)) as [->|Hne].
  - rewrite list_lookup_insert_eq in Hu by lia. injection Hu as <-. auto.
  - rewrite list_lookup_insert_ne in Hu by done. apply H5; [done|lia|done].
Qed.

Lemma with_pos_twice n m p : with_pos n (with_pos m p) = with_pos n p.
Proof. done. Qed.

Lemma wf_restart p ts : wf p ts -> wf (with_pos (pos p) p) ts.
Proof. by destruct p. Qed.

(** A value was emitted: count it in the superior token. *)
Lemma value_post p ts count y n s e :
  wf p ts -> pos p <= n < length js -> pos p <= s <= n -> s <= e <= S n ->
  (forall pr, spans (Tok y (Z.of_nat s) (Z.of_nat e) 0 pr)) ->
  forall r0 p0 tk0, emit links num_tokens y (pos p) s e p ts = Some (r0, p0, tk0) ->
  exists o, value (Some (r0, if (r0 <? 0)%Z then p0 else with_pos n p0, tk0)) count = Some o /\
    char_post p ts count o.
Proof.
  intros Hw Hn Hs He Hsp r0 p0 tk0 Hem.
  destruct (emit_post y (pos p) s e p ts Hw) as (r & p' & tk & E & Hcase).
  rewrite Hem in E. injection E as -> -> ->.
  destruct Hcase as [(-> & -> & ->)|(-> & Hroom & -> & pr & -> & Hpr)]; cbn.
  - eexists. split; [done|]. split; [done|]. exists ts. split; [done|by apply wf_restart].
  - rewrite !to_int_small by lia.
    set (t := Tok y (Z.of_nat s) (Z.of_nat e) 0 pr).
    set (p1 := with_pos n (Parser (pos p) (S (toknext p)) (toksuper p))).
    assert (Hw1 : wf p1 (<[toknext p := t]> ts)).
    { apply (wf_pushed p ts n t); [done|done|lia|]. intros Hk. cbn. rewrite (Hpr Hk). apply Hw. }
    destruct (wf_grow p1 _ Hw1) as (ts' & Eg & Hl & Hsame).
    change (grow_super _ _) with (grow_super p1 (<[toknext p := t]> ts)). rewrite Eg. simpl.
    eexists. split; [done|]. exists ts'. split_and!; [done| |cbn; lia|cbn; lia|].
    + assert (Hw2 : wf (with_pos (S n) p1) (<[toknext p := t]> ts)) by (destruct Hw1; split; try done; cbn; lia).
      eapply wf_same; [exact Hw2|done|exact Hsame].
    + intros _ Hso. eapply sound_same; [|exact Hsame].
      apply (sound_new p p1); cbn; try done; try lia. apply Hsp.
Qed.

(** The position moved before or after the token is emitted. *)
Lemma emit_later y start s e n p ts :
  emit links num_tokens y start s e (with_pos n p) ts
  = '(r, p', tk) ← emit links num_tokens y start s e p ts;
    Some (r, if (r <? 0)%Z then p' else with_pos n p', tk).
Proof.
  unfold emit, jsmn_alloc_token. cbn [with_pos toknext toksuper pos].
  destruct (num_tokens <=? toknext p); [done|]. destruct (ts !! toknext p); [|done]. simpl.
  by destruct (tok_set _ _ _).
Qed.

Lemma string_post p ts count :
  wf p ts -> cur js (pos p) = Some "034"%char ->
  exists o, value (jsmn_parse_string links js num_tokens p (Some ts)) count = Some o /\ char_post p ts count o.
Proof.
  intros Hw Hc. apply cur_Some in Hc as [Hc Hlt].
  unfold jsmn_parse_string.
  destruct (scan_string_ends (S (length js)) (S (pos p))) as (r & -> & Hr); [lia|lia|]. simpl.
  destruct r as [m|m|].
  - destruct Hr as [Hm Hq].
    rewrite emit_later. destruct (emit_post JSMN_STRING (pos p) (S (pos p)) m p ts Hw) as (r & p' & tk & E & _).
    rewrite E. simpl. eapply (value_post p ts count JSMN_STRING m (S (pos p)) m); try done; try lia.
    intros pr. exists (pos p), m. split_and!; cbn; try done; lia.
  - eexists. split; [done|]. split; [done|]. exists ts. split; [done|by apply wf_restart].
  - eexists. split; [done|]. split; [done|]. exists ts. split; [done|by apply wf_restart].
Qed.

Lemma primitive_post p ts count c :
  wf p ts -> cur js (pos p) = Some c -> ends_primitive strict c = false ->
  exists o, value (jsmn_parse_primitive strict links js num_tokens p (Some ts)) count = Some o /\
    char_post p ts count o.
Proof.
  intros Hw Hc Hend. pose proof (cur_Some _ _ Hc) as [Hjs Hlt].
  unfold jsmn_parse_primitive.
  destruct (scan_primitive_ends (S (length js)) (pos p)) as (r & -> & Hr & Hf & He); [lia|lia|]. simpl.
  assert (Hbad : forall e, (e < 0)%Z -> exists o, value (Some (e, with_pos (pos p) p, Some ts)) count = Some o /\
    char_post p ts count o).
  { intros e Hneg. unfold value. simpl. destruct (Z.ltb_spec e 0); [|lia]. eexists. split; [done|].
    split; [done|]. exists ts. split; [done|by apply wf_restart]. }
  assert (Hfound : forall m, pos p < m <= length js ->
    (forall k, pos p <= k < m -> exists c, js !! k = Some c /\ in_primitive c) ->
    exists o, value ('(r, p', tk') ← emit links num_tokens JSMN_PRIMITIVE (pos p) (pos p) m p ts;
        Some (r, if (r <? 0)%Z then p' else with_pos (m - 1) p', tk')) count = Some o /\ char_post p ts count o).
  { intros m Hm Hk.
    destruct (emit_post JSMN_PRIMITIVE (pos p) (pos p) m p ts Hw) as (r1 & p' & tk & E & _).
    rewrite E. simpl. eapply (value_post p ts count JSMN_PRIMITIVE (m - 1) (pos p) m); try done; try lia.
    intros pr. exists (pos p), m. by split_and!; cbn; try lia. }
  destruct r as [m|m|]; [| |by apply Hbad].
  - apply Hfound; [|apply Hr]. destruct Hr as [Hr _]. destruct (decide (m = pos p)) as [->|]; [|lia].
    destruct (Hf eq_refl) as (c' & Hc' & He'). congruence.
  - destruct strict; [by apply Hbad|]. apply Hfound; [|apply Hr].
    destruct Hr as [Hr _]. destruct (decide (m = pos p)) as [->|]; [|lia]. rewrite He in Hc; done.
Qed.

Lemma wf_with_super z p ts : (-1 <= z < Z.of_nat (toknext p))%Z -> wf p ts -> wf (with_super z p) ts.
Proof. by intros Hz []. Qed.

Lemma wf_with_pos n p ts : n <= length js -> wf p ts -> wf (with_pos n p) ts.
Proof. by intros Hn []. Qed.

Lemma sound_super z p ts : sound p ts -> sound (with_super z p) ts.
Proof. by intros []. Qed.

Lemma sound_later p ts n : pos p <= n -> sound p ts -> sound (with_pos n p) ts.
Proof.
  intros Hn [S1 S2]. split; [|done]. cbn. intros i t Hi Ht. destruct (S1 i t Hi Ht) as (? & ? & ?).
  split; [done|]. lia.
Qed.

(** Counting in the superior token, with a new token at the end of the array. *)
Lemma grow_under p ts x :
  wf p ts -> toknext p < num_tokens -> toksuper p <> (-1)%Z ->
  exists u ts', tok_at (<[toknext p := x]> ts) (toksuper p) = Some u /\
    tok_set (<[toknext p := x]> ts) (toksuper p) more_size = Some (<[toknext p := x]> ts') /\
    wf p ts' /\ (sound p ts -> sound p ts') /\ length ts' = length ts.
Proof.
  intros Hw Hroom Hs. destruct (wf_grow p ts Hw) as (ts' & Eg & Hl & Hsame).
  unfold grow_super in Eg. destruct (Z.eqb_spec (toksuper p) (-1)); [done|].
  pose proof (wf_super _ _ Hw). pose proof (wf_room _ _ Hw).
  destruct (tok_at_lt ts (toksuper p)) as (u & E1 & E2); [lia|].
  assert (E3 : tok_at (<[toknext p := x]> ts) (toksuper p) = Some u).
  { unfold tok_at in *. destruct (toksuper p <? 0)%Z; [done|]. rewrite list_lookup_insert_ne; [done|lia]. }
  exists u, ts'. split; [done|]. split.
  - unfold tok_set in *. rewrite E3. rewrite E1 in Eg. simpl in *. injection Eg as <-.
    by rewrite list_insert_insert_ne by lia.
  - split_and!; [by eapply wf_same|intros; by eapply sound_same|done].
Qed.

(** The array with an open bracket at its end. *)
Lemma opened_post p ts count c par :
  wf p ts -> cur js (pos p) = Some c -> c = "{"%char \/ c = "["%char -> toknext p < num_tokens ->
  (links = true -> (-1 <= par < Z.of_nat (toknext p))%Z) ->
  let y := if Ascii.eqb c "{" then JSMN_OBJECT else JSMN_ARRAY in
  forall ts0 sz, (sound p ts0 -> sound p ts) ->
  char_post p ts0 count
    (inr (with_super (to_int (Z.of_nat (S (toknext p)) - 1)) (Parser (pos p) (S (toknext p)) (toksuper p)),
          Some (<[toknext p := Tok y (to_int (Z.of_nat (pos p))) (-1) sz par]> ts), (count + 1)%Z)).
Proof.
  intros Hw Hc Hcc Hroom Hpar y ts0 sz Hso. apply cur_Some in Hc as [Hjs Hlt].
  pose proof (wf_room _ _ Hw) as Hr2.
  rewrite !to_int_small by lia. eexists. split; [done|]. split_and!; cbn [pos with_super toknext with_pos]; try lia.
  - apply wf_with_pos; [lia|]. apply wf_with_super; [cbn; lia|].
    apply wf_pushed; [done|done|lia|exact Hpar].
  - intros _ Hs0. apply Hso in Hs0.
    apply (sound_new p (with_super (Z.of_nat (S (toknext p)) - 1) (Parser (pos p) (S (toknext p)) (toksuper p))));
      cbn; try done; try lia.
    unfold y, spans. destruct Hcc as [-> | ->]; cbn; exists (pos p); split_and!; try done; by left.
Qed.

Lemma open_post p ts count c :
  wf p ts -> cur js (pos p) = Some c -> c = "{"%char \/ c = "["%char ->
  exists o, open_bracket strict links num_tokens c p (Some ts) count = Some o /\ char_post p ts count o.
Proof.
  intros Hw Hc Hcc. unfold open_bracket, jsmn_alloc_token.
  pose proof (wf_next _ _ Hw) as H1. pose proof (wf_room _ _ Hw) as H2. pose proof (wf_super _ _ Hw) as H3.
  pose proof (wf_pos _ _ Hw) as H4.
  destruct (Nat.leb_spec num_tokens (toknext p)) as [Hf|Hf].
  { eexists. split; [done|]. split; [done|]. exists ts. by split. }
  destruct (lookup_lt_is_Some_2 ts (toknext p)) as [t0 Et0]; [lia|].
  rewrite Et0. cbn [mbind option_bind toksuper].
  set (x := Tok (type t0) (-1) (-1) 0 (if links then (-1)%Z else parent t0)).
  destruct (Z.eqb_spec (toksuper p) (-1)) as [Es|Es].
  - cbn [mbind option_bind]. erewrite tok_set_nat by (apply list_lookup_insert_eq; lia).
    cbn [mbind option_bind pos toknext]. eexists. split; [done|]. rewrite list_insert_insert_eq.
    apply (opened_post p ts count c (parent x)); try done.
    intros ->. cbn. lia.
  - destruct (grow_under p ts x Hw Hf Es) as (u & ts' & E1 & E2 & Hw' & Hso & Hl).
    rewrite E1. cbn [mbind option_bind]. destruct (strict && is_type JSMN_OBJECT u).
    + cbn [mbind option_bind]. eexists. split; [done|]. split; [done|]. eexists. split; [done|].
      apply (wf_pushed p ts (pos p) x); [done|done|lia|]. intros ->. cbn. lia.
    + rewrite E2. cbn [mbind option_bind].
      assert (Ek : exists par, (if links then tok_set (<[toknext p:=x]> ts') (Z.of_nat (toknext p)) (with_parent (toksuper p))
          else Some (<[toknext p:=x]> ts')) = Some (<[toknext p := with_parent par x]> ts') /\
          (links = true -> par = toksuper p)).
      { destruct links.
        - erewrite tok_set_nat by (apply list_lookup_insert_eq; lia). rewrite list_insert_insert_eq. by eexists.
        - exists (parent x). by destruct x. }
      destruct Ek as (par & Ek & Hpar). cbn [toksuper]. rewrite Ek. cbn [mbind option_bind].
      erewrite tok_set_nat by (apply list_lookup_insert_eq; lia). cbn [mbind option_bind pos toknext].
      eexists. split; [done|]. rewrite list_insert_insert_eq.
      apply (opened_post p ts' count c par); try done.
      intros Hk. rewrite (Hpar Hk). lia.
Qed.

Lemma find_open_spec ts ok n :
  n <= length ts -> exists r, find_open ts ok n = Some r /\
    match r with
    | None => forall j u, j < n -> ts !! j = Some u -> ok u = false
    | Some (i, t) => i < n /\ ts !! i = Some t /\ ok t = true /\
        forall j u, i < j < n -> ts !! j = Some u -> ok u = false
    end.
Proof.
  induction n as [|n IH]; intros Hn; cbn [find_open].
  - exists None. split; [done|]. intros; lia.
  - destruct (lookup_lt_is_Some_2 ts n) as [t Et]; [lia|]. rewrite Et. cbn [mbind option_bind].
    destruct (ok t) eqn:Eo.
    + exists (Some (n, t)). split_and!; try done; [lia|]. intros; lia.
    + destruct IH as (r & -> & Hr); [lia|]. exists r. split; [done|].
      assert (Hj : forall j u, j < S n -> j <> n \/ ts !! j = Some u -> ts !! j = Some u -> j < n \/ ok u = false).
      { intros j u Hj _ Hu. destruct (decide (j = n)) as [->|]; [right; congruence|left; lia]. }
      destruct r as [[i u]|].
      * destruct Hr as (Hi & Hu & Ho & Hall). split_and!; [lia|done|done|].
        intros j v Hjj Hv. destruct (Hj j v) as [?|?]; [lia|by right|done| |done]. apply (Hall j); [lia|done].
      * intros j v Hjj Hv. destruct (Hj j v) as [?|?]; [lia|by right|done| |done]. by apply (Hr j).
Qed.

Lemma climb_spec p ts y super i fuel :
  wf p ts -> links = true -> (0 <= i < Z.of_nat (toknext p))%Z -> (i < Z.of_nat fuel)%Z ->
  exists r, climb fuel ts y super i = Some r /\
    match r with
    | Some (j, Some t) => (0 <= j < Z.of_nat (toknext p))%Z /\ tok_at ts j = Some t
    | _ => True
    end.
Proof.
  intros Hw Hk. revert i. induction fuel as [|fuel IH]; intros i Hi Hf; [lia|]. cbn [climb].
  destruct (tok_at_lt ts i) as (t & E1 & E2); [destruct Hw; lia|]. rewrite E1. cbn [mbind option_bind].
  destruct (unclosed t); [destruct (is_type y t); cbn [negb]; eexists; by split|].
  destruct (Z.eqb_spec (parent t) (-1)); [destruct (_ || _); eexists; by split|].
  pose proof (wf_parent _ _ Hw Hk (Z.to_nat i) t) as Hp. apply IH; destruct Hp; try done; lia.
Qed.

Lemma wf_ended p ts j t e :
  wf p ts -> ts !! j = Some t -> wf p (<[j := with_end e t]> ts).
Proof.
  intros [H1 H2 H3 H4 H5] Ht. pose proof (lookup_lt_Some _ _ _ Ht).
  split; rewrite ?length_insert; try done. intros Hk i u Hi Hu.
  destruct (decide (i = j)) as [->|Hne].
  - rewrite list_lookup_insert_eq in Hu by done. injection Hu as <-. by apply (H5 Hk j t).
  - rewrite list_lookup_insert_ne in Hu by done. by apply H5.
Qed.

Lemma unclosed_spec t s : tstart t = Z.of_nat s -> unclosed t = (tend t =? -1)%Z.
Proof. intros E. unfold unclosed. rewrite E. by destruct (Z.eqb_spec (Z.of_nat s) (-1)); [lia|]. Qed.

(** Every token of a sound array starts somewhere. *)
Lemma spans_start t : spans t -> exists s, tstart t = Z.of_nat s.
Proof.
  unfold spans, bracketed. destruct (type t); [done| | | |].
  - intros (s & E & _). by exists s.
  - intros (s & E & _). by exists s.
  - intros (s & _ & E & _). by exists (S s).
  - intros (s & _ & E & _). by exists s.
Qed.

(** Closing the innermost open bracket. *)
Lemma sound_close p ts i t c y :
  sound p ts -> cur js (pos p) = Some c -> y = (if Ascii.eqb c "}" then JSMN_OBJECT else JSMN_ARRAY) ->
  c = "}"%char \/ c = "]"%char ->
  i < toknext p -> ts !! i = Some t -> unclosed t = true -> is_type y t = true ->
  (forall j u, i < j < toknext p -> ts !! j = Some u -> unclosed u = false) ->
  sound (with_pos (S (pos p)) p) (<[i := with_end (Z.of_nat (S (pos p))) t]> ts).
Proof.
  intros [S1 S2] Hc Hy Hcc Hi Ht Hu Hty Hall. apply cur_Some in Hc as [Hjs Hlt].
  pose proof (lookup_lt_Some _ _ _ Ht) as Hlen'. apply bool_decide_eq_true_1 in Hty.
  destruct (S1 i t Hi Ht) as (Hsp & Hst & _). destruct (spans_start t Hsp) as [s Es].
  rewrite (unclosed_spec _ _ Es) in Hu. apply Z.eqb_eq in Hu.
  assert (Hnew : spans (with_end (Z.of_nat (S (pos p))) t)).
  { unfold spans in *. rewrite Hty in Hsp. cbn [with_end type]. rewrite Hty.
    assert (Hend : forall o, bracketed o c t -> bracketed o c (with_end (Z.of_nat (S (pos p))) t)).
    { intros o (s' & E & Ho & _). exists s'. split_and!; try done. right. exists (pos p).
      split_and!; try done; lia. }
    destruct Hcc as [-> | ->]; rewrite Hy in *; cbn in *; by apply Hend. }
  split; cbn [with_pos toknext pos].
  - intros j u Hj Hju. destruct (decide (j = i)) as [->|Hne].
    + rewrite list_lookup_insert_eq in Hju by done. injection Hju as <-. split; [done|]. cbn. lia.
    + rewrite list_lookup_insert_ne in Hju by done. destruct (S1 j u Hj Hju) as (? & ? & ?). split; [done|lia].
  - intros j k u v Hjk Hju Hkv. destruct (decide (j = i)) as [->|Hji].
    + rewrite list_lookup_insert_eq in Hju by done. injection Hju as <-.
      rewrite list_lookup_insert_ne in Hkv by lia. destruct (S2 i k t v Hjk Ht Hkv) as [Hs _].
      split; [done|]. right. right. destruct (S1 k v) as (Hv1 & Hv2 & Hv3); [lia|done|].
      destruct (spans_start v Hv1) as [sv Ev]. pose proof (Hall k v ltac:(lia) Hkv) as Hcl.
      rewrite (unclosed_spec _ _ Ev) in Hcl. apply Z.eqb_neq in Hcl. cbn. lia.
    + rewrite list_lookup_insert_ne in Hju by done. destruct (decide (k = i)) as [->|Hki].
      * rewrite list_lookup_insert_eq in Hkv by done. injection Hkv as <-.
        destruct (S2 j i u t Hjk Hju Ht) as [Hs Hn]. split; [done|]. cbn. lia.
      * rewrite list_lookup_insert_ne in Hkv by done. by apply (S2 j k).
Qed.

Lemma close_post p ts count c :
  wf p ts -> cur js (pos p) = Some c -> c = "}"%char \/ c = "]"%char ->
  exists o, close_bracket links c p (Some ts) count = Some o /\ char_post p ts count o.
Proof.
  intros Hw Hc Hcc. unfold close_bracket. cbv zeta.
  set (y := if Ascii.eqb c "}" then JSMN_OBJECT else JSMN_ARRAY).
  pose proof (wf_next _ _ Hw) as H1. pose proof (wf_room _ _ Hw) as H2.
  pose proof (cur_Some _ _ Hc) as [Hjs Hlt].
  assert (Hbad : exists o, Some (inl (JSMN_ERROR_INVAL, p, Some ts)) = Some o /\ char_post p ts count o).
  { eexists. split; [done|]. split; [done|]. exists ts. by split. }
  assert (Hkeep : forall ts' z, wf p ts' -> (-1 <= z < Z.of_nat (toknext p))%Z ->
    (links = false -> sound p ts -> sound (with_pos (S (pos p)) p) ts') ->
    exists o, Some (inr (with_super z p, Some ts', count)) = Some o /\ char_post p ts count o).
  { intros ts' z Hw' Hz Hso. eexists. split; [done|]. exists ts'.
    split; [done|]. split; [by apply wf_with_pos; [|apply wf_with_super]|]. cbn. split; [lia|].
    split; [lia|]. intros Hl Hs. exact (sound_super z _ _ (Hso Hl Hs)). }
  destruct links eqn:Hk.
  - destruct (Nat.ltb_spec (toknext p) 1); [done|].
    destruct (climb_spec p ts y (toksuper p) (Z.of_nat (toknext p) - 1) (toknext p) Hw Hk) as (r & -> & Hr);
      [lia|lia|]. cbn [mbind option_bind].
    destruct r as [[j [t|]]|]; [| |done].
    + destruct Hr as [Hj Ht]. unfold tok_set. rewrite Ht. cbn [mbind option_bind].
      unfold tok_at in Ht. destruct (j <? 0)%Z; [done|].
      apply Hkeep; [by apply wf_ended| |done].
      pose proof (wf_parent _ _ Hw Hk (Z.to_nat j) t) as Hp. destruct Hp; try done; lia.
    + destruct (Hkeep ts (toksuper p)) as (o & Eo & Ho); [done|by apply Hw|done|]. exists o.
      split; [|done]. rewrite <- Eo. by destruct p.
  - destruct (find_open_spec ts unclosed (toknext p)) as (r & -> & Hr); [lia|]. cbn [mbind option_bind].
    destruct r as [[i t]|]; [|done]. destruct Hr as (Hi & Ht & Hu & Hall).
    destruct (is_type y t) eqn:Ety; cbn [negb]; [|done].
    erewrite tok_set_nat by exact Ht. cbn [mbind option_bind].
    destruct (find_open_spec (<[i := with_end (to_int (Z.of_nat (pos p) + 1)) t]> ts) unclosed (S i))
      as (r2 & -> & Hr2); [rewrite length_insert; lia|]. cbn [mbind option_bind].
    apply Hkeep.
    + by apply wf_ended.
    + destruct r2 as [[j u]|]; [|lia]. destruct Hr2 as (Hj & _). lia.
    + intros _ Hs. rewrite to_int_small by lia.
      replace (Z.of_nat (pos p) + 1)%Z with (Z.of_nat (S (pos p))) by lia.
      by eapply (sound_close p ts i t c y).
Qed.

Lemma comma_post p ts count :
  wf p ts -> pos p < length js ->
  exists o, comma links p (Some ts) count = Some o /\ char_post p ts count o.
Proof.
  intros Hw Hlt. pose proof (wf_next _ _ Hw) as H1. pose proof (wf_room _ _ Hw) as H2.
  pose proof (wf_super _ _ Hw) as H3.
  assert (Hkeep : forall z, (-1 <= z < Z.of_nat (toknext p))%Z ->
    exists o, Some (inr (with_super z p, Some ts, count)) = Some o /\ char_post p ts count o).
  { intros z Hz. eexists. split; [done|]. exists ts.
    split; [done|]. split; [by apply wf_with_pos; [|apply wf_with_super]|]. cbn. split; [lia|].
    split; [lia|]. intros _ Hs. apply (sound_super z) in Hs. apply (sound_later (with_super z p)); [cbn; lia|done]. }
  assert (Hsame : exists o, Some (inr (p, Some ts, count)) = Some o /\ char_post p ts count o).
  { destruct (Hkeep (toksuper p) H3) as (o & Eo & Ho). exists o. split; [|done]. rewrite <- Eo. by destruct p. }
  unfold comma. destruct (Z.eqb_spec (toksuper p) (-1)); [done|].
  destruct (tok_at_lt ts (toksuper p)) as (t & E1 & E2); [lia|]. rewrite E1. cbn [mbind option_bind].
  destruct (is_container t); [done|]. destruct links eqn:Hk.
  - apply Hkeep. pose proof (wf_parent _ _ Hw Hk (Z.to_nat (toksuper p)) t) as Hp. destruct Hp; try done; lia.
  - destruct (find_open_spec ts (fun t => is_container t && unclosed t) (toknext p)) as (r & -> & Hr); [lia|].
    cbn [mbind option_bind]. destruct r as [[i u]|]; [|done]. apply Hkeep. destruct Hr. lia.
Qed.

Lemma skip_post p p' ts count :
  wf p' ts -> pos p' < length js -> pos p' = pos p -> toknext p' = toknext p ->
  (sound p ts -> sound p' ts) -> char_post p ts count (inr (p', Some ts, count)).
Proof.
  intros Hw Hlt Ep En Hso. exists ts. split; [done|]. split; [apply wf_with_pos; [lia|done]|].
  split; [lia|]. split; [lia|]. intros _ Hs. apply (sound_later p'); [lia|auto].
Qed.

Lemma parse_char_post p ts count c :
  wf p ts -> cur js (pos p) = Some c ->
  exists o, parse_char strict links js num_tokens c p (Some ts) count = Some o /\ char_post p ts count o.
Proof.
  intros Hw Hc. pose proof (cur_Some _ _ Hc) as [Hjs Hlt]. unfold parse_char.
  destruct (Ascii.eqb_spec c "{") as [->|N1]; [apply open_post; auto|].
  destruct (Ascii.eqb_spec c "[") as [->|N2]; [apply open_post; auto|]. cbn [orb].
  destruct (Ascii.eqb_spec c "}") as [->|N3]; [apply close_post; auto|].
  destruct (Ascii.eqb_spec c "]") as [->|N4]; [apply close_post; auto|]. cbn [orb].
  destruct (Ascii.eqb_spec c "034") as [->|N5]; [by apply string_post|].
  assert (Hprim : ends_primitive strict c = false ->
    exists o, value (jsmn_parse_primitive strict links js num_tokens p (Some ts)) count = Some o /\
      char_post p ts count o) by (intros; eapply primitive_post; eauto).
  unfold ends_primitive in Hprim.
  destruct (Ascii.eqb c "009" || Ascii.eqb c "013" || Ascii.eqb c "010" || Ascii.eqb c " ") eqn:Ews.
  { eexists. split; [done|]. by apply skip_post. }
  apply orb_false_iff in Ews as [Ews W4]. apply orb_false_iff in Ews as [Ews W3].
  apply orb_false_iff in Ews as [W1 W2]. rewrite W1, W2, W3, W4 in Hprim.
  destruct (Ascii.eqb_spec c ":") as [->|N6].
  { eexists. split; [done|]. pose proof (wf_next _ _ Hw). apply skip_post; try done; [|apply sound_super].
    apply wf_with_super; [|done]. rewrite to_int_small; lia. }
  destruct (Ascii.eqb_spec c ",") as [->|N7]; [by apply comma_post|].
  destruct (Ascii.eqb_spec c "]"); [done|]. destruct (Ascii.eqb_spec c "}"); [done|].
  specialize (Hprim ltac:(by rewrite andb_false_r)).
  assert (Hinval : exists o, Some (inl (JSMN_ERROR_INVAL, p, Some ts)) = Some o /\ char_post p ts count o).
  { eexists. split; [done|]. split; [done|]. by exists ts. }
  destruct (strict : bool); [|exact Hprim]. destruct (starts_primitive c); [|exact Hinval].
  unfold strict_key. destruct (Z.eqb_spec (toksuper p) (-1)); [exact Hprim|].
  pose proof (wf_super _ _ Hw). pose proof (wf_room _ _ Hw). pose proof (wf_next _ _ Hw).
  destruct (tok_at_lt ts (toksuper p)) as (t & E1 & E2); [lia|]. rewrite E1. cbn [mbind option_bind].
  destruct (_ || _); [exact Hinval|exact Hprim].
Qed.

(** No token is open. *)
Definition all_closed (p : jsmn_parser) (ts : list jsmntok_t) : Prop :=
  forall i t, i < toknext p -> ts !! i = Some t -> unclosed t = false.

Lemma parse_loop_post fuel p ts count :
  wf p ts -> length js - pos p < fuel -> count = Z.of_nat (toknext p) ->
  exists r p' ts', parse_loop strict links js num_tokens fuel p (Some ts) count = Some (r, p', Some ts') /\
    wf p' ts' /\
    ((0 <= r)%Z -> r = Z.of_nat (toknext p') /\ all_closed p' ts' /\
       (links = false -> sound p ts -> sound p' ts')).
Proof.
  revert p ts count. induction fuel as [|fuel IH]; intros p ts count Hw Hf Hcount; [lia|].
  cbn [parse_loop]. destruct (cur js (pos p)) as [c|] eqn:Hc.
  - destruct (parse_char_post p ts count c Hw Hc) as (o & -> & Ho). cbn [mbind option_bind].
    destruct o as [[[r p'] tk]|[[p' tk] count']].
    + destruct Ho as (Hneg & ts' & -> & Hw'). exists r, p', ts'. split; [done|]. split; [done|lia].
    + destruct Ho as (ts' & -> & Hw' & Hpos & Hcnt & Hso).
      destruct (IH _ ts' count' Hw') as (r & p2 & ts2 & E & Hw2 & Hr).
      * apply cur_Some in Hc as [_ Hlt]. cbn. lia.
      * cbn. lia.
      * exists r, p2, ts2. split; [done|]. split; [done|]. intros Hge. destruct (Hr Hge) as (H1 & H2 & H3).
        split; [done|]. split; auto.
  - unfold parse_end. destruct (find_open_spec ts unclosed (toknext p)) as (r & -> & Hr).
    { destruct Hw; lia. }
    cbn [mbind option_bind]. do 3 eexists. split; [done|]. split; [done|].
    destruct r as [[i t]|]; [intros; done|]. intros _. split_and!; try done.
Qed.

(** ** The run without a token array *)

(** What a character does with tokens ([o]) and without ([on]). *)
Definition sim_post (p : jsmn_parser) (count : Z) (o : outcome) (on : option outcome) : Prop :=
  match o with
  | inl (r, _, _) => r = JSMN_ERROR_NOMEM ->
      num_tokens <= toknext p /\ exists q', on = Some (inr (q', None, (count + 1)%Z))
  | inr (p', _, count') => exists q', on = Some (inr (q', None, count')) /\ pos q' = pos p'
  end.

Lemma value_sim p ts count y start s e n pe q r0 p0 tk0 :
  wf p ts -> emit links num_tokens y start s e p ts = Some (r0, p0, tk0) -> pe = with_pos n p0 ->
  forall o, value (Some (r0, (if (r0 <? 0)%Z then p0 else pe), tk0)) count = Some o ->
  sim_post p count o (value (Some (0%Z, with_pos n q, None)) count).
Proof.
  intros Hw Hem -> o Ho. destruct (emit_post y start s e p ts Hw) as (r & p' & tk & E & Hcase).
  rewrite Hem in E. injection E as -> -> ->.
  destruct Hcase as [(-> & -> & ->)|(-> & Hroom & -> & pr & -> & _)]; cbn in Ho.
  - injection Ho as <-. unfold sim_post. cbn. intros _. split; [|by eexists].
    unfold emit, jsmn_alloc_token in Hem.
    destruct (Nat.leb_spec num_tokens (toknext p)); [done|].
    destruct (ts !! toknext p); [|done]. cbn [mbind option_bind] in Hem.
    by destruct (tok_set _ _ _).
  - destruct (grow_super _ _); [|done]. cbn in Ho. injection Ho as <-. cbn. eexists. by split.
Qed.

Lemma string_sim p ts q count o :
  wf p ts -> pos q = pos p ->
  value (jsmn_parse_string links js num_tokens p (Some ts)) count = Some o ->
  sim_post p count o (value (jsmn_parse_string links js num_tokens q None) count).
Proof.
  intros Hw Hq. unfold jsmn_parse_string. rewrite Hq.
  destruct (scan_string js (S (length js)) (S (pos p))) as [[m|m|]|]; cbn [mbind option_bind].
  - rewrite emit_later. destruct (emit _ _ _ _ _ _ p ts) as [[[r p'] tk]|] eqn:Ee; [|done].
    cbn [mbind option_bind]. eapply value_sim; eauto.
  - cbn. by intros [= <-].
  - cbn. by intros [= <-].
  - done.
Qed.

Lemma primitive_sim p ts q count o :
  wf p ts -> pos q = pos p ->
  value (jsmn_parse_primitive strict links js num_tokens p (Some ts)) count = Some o ->
  sim_post p count o (value (jsmn_parse_primitive strict links js num_tokens q None) count).
Proof.
  intros Hw Hq. unfold jsmn_parse_primitive. rewrite Hq.
  assert (Hf : forall m, value ('(r, p', tk') ← emit links num_tokens JSMN_PRIMITIVE (pos p) (pos p) m p ts;
        Some (r, if (r <? 0)%Z then p' else with_pos (m - 1) p', tk')) count = Some o ->
    sim_post p count o (value (Some (0%Z, with_pos (m - 1) q, None)) count)).
  { intros m. destruct (emit _ _ _ _ _ _ p ts) as [[[r p'] tk]|] eqn:Ee; [|done].
    cbn [mbind option_bind]. eapply value_sim; eauto. }
  destruct (scan_primitive strict js (S (length js)) (pos p)) as [[m|m|]|]; cbn [mbind option_bind].
  - apply Hf.
  - destruct strict; [|apply Hf]. cbn. by intros [= <-].
  - cbn. by intros [= <-].
  - done.
Qed.

Lemma open_sim p ts q count c o :
  pos q = pos p -> open_bracket strict links num_tokens c p (Some ts) count = Some o ->
  sim_post p count o (open_bracket strict links num_tokens c q None count).
Proof.
  intros Hq. unfold open_bracket, jsmn_alloc_token.
  destruct (Nat.leb_spec num_tokens (toknext p)); cbn [mbind option_bind].
  { intros [= <-]. intros _. split; [done|]. by eexists. }
  destruct (ts !! toknext p) as [t|]; [|done]. cbn [mbind option_bind].
  match goal with |- context [if (?z =? -1)%Z then ?a else ?b] =>
    destruct (if (z =? -1)%Z then a else b) as [[ts'|]|] end; cbn [mbind option_bind];
    [|by intros [= <-]|done].
  destruct (tok_set _ _ _); [|done]. cbn [mbind option_bind]. intros [= <-]. by eexists.
Qed.

Lemma close_sim p ts q count c o :
  pos q = pos p -> close_bracket links c p (Some ts) count = Some o ->
  sim_post p count o (close_bracket links c q None count).
Proof.
  intros Hq. unfold close_bracket. cbv zeta.
  assert (Hbad : Some (inl (JSMN_ERROR_INVAL, p, Some ts)) = Some o -> sim_post p count o (Some (inr (q, None, count))))
    by (by intros [= <-]).
  assert (Hgo : forall p' tk', pos p' = pos p -> Some (inr (p', tk', count)) = Some o ->
    sim_post p count o (Some (inr (q, None, count)))).
  { intros p' tk' Hp [= <-]. exists q. split; [done|]. congruence. }
  destruct links.
  - destruct (toknext p <? 1); [done|]. destruct (climb _ _ _ _ _) as [[[j [t|]]|]|]; cbn [mbind option_bind]; try done.
    + destruct (tok_set _ _ _); [|done]. by apply Hgo.
    + by apply Hgo.
  - destruct (find_open ts unclosed (toknext p)) as [[[i t]|]|]; cbn [mbind option_bind]; try done.
    destruct (negb _); [done|]. destruct (tok_set _ _ _); cbn [mbind option_bind]; [|done].
    destruct (find_open _ _ (S i)); [|done]. by apply Hgo.
Qed.

Lemma comma_sim p ts q count o :
  pos q = pos p -> comma links p (Some ts) count = Some o ->
  sim_post p count o (comma links q None count).
Proof.
  intros Hq. unfold comma.
  assert (Hgo : forall p' tk', pos p' = pos p -> Some (inr (p', tk', count)) = Some o ->
    sim_post p count o (Some (inr (q, None, count)))).
  { intros p' tk' Hp [= <-]. exists q. split; [done|]. congruence. }
  destruct (toksuper p =? -1)%Z; [by apply Hgo|].
  destruct (tok_at ts (toksuper p)) as [t|]; [|done]. cbn [mbind option_bind].
  destruct (is_container t); [by apply Hgo|]. destruct links; [by apply Hgo|].
  destruct (find_open _ _ _) as [[[i u]|]|]; [| |done]; by apply Hgo.
Qed.

Lemma parse_char_sim p ts q count c o :
  wf p ts -> pos q = pos p ->
  parse_char strict links js num_tokens c p (Some ts) count = Some o ->
  sim_post p count o (parse_char strict links js num_tokens c q None count).
Proof.
  intros Hw Hq. unfold parse_char.
  destruct (_ || _); [by apply open_sim|]. destruct (_ || _); [by apply close_sim|].
  destruct (Ascii.eqb c "034"); [by apply string_sim|].
  destruct (_ || _); [intros [= <-]; by exists q|].
  destruct (Ascii.eqb c ":"); [intros [= <-]; by eexists|].
  destruct (Ascii.eqb c ","); [by apply comma_sim|].
  pose proof (primitive_sim p ts q count o Hw Hq) as Hprim.
  destruct (strict : bool) eqn:Es; [|exact Hprim]. destruct (starts_primitive c); [|by intros [= <-]].
  destruct (strict_key p (Some ts)) as [[]|]; cbn [mbind option_bind]; [by intros [= <-]|exact Hprim|done].
Qed.

(** Without tokens the count never goes down, and the position stays in the text. *)
Definition null_post (q : jsmn_parser) (count : Z) (o : outcome) : Prop :=
  match o with
  | inl (r, q', tk) => (r < 0)%Z /\ tk = None
  | inr (q', tk, count') => tk = None /\ (count <= count')%Z /\ pos q <= pos q' < length js
  end.

Lemma value_null q count r q1 :
  (r < 0)%Z \/ pos q <= pos q1 < length js ->
  exists o, value (Some (r, q1, None)) count = Some o /\ null_post q count o.
Proof.
  intros Hr. unfold value. cbn. destruct (Z.ltb_spec r 0) as [Hneg|Hneg]; eexists; (split; [done|]).
  - by split.
  - destruct Hr; [lia|]. split; [done|]. split; [lia|done].
Qed.

Lemma string_null q count :
  pos q < length js ->
  exists o, value (jsmn_parse_string links js num_tokens q None) count = Some o /\ null_post q count o.
Proof.
  intros Hlt. unfold jsmn_parse_string.
  destruct (scan_string_ends (S (length js)) (S (pos q))) as (r & -> & Hr); [lia|lia|]. cbn [mbind option_bind].
  destruct r as [m|m|]; apply value_null; [right; cbn; lia|by left..].
Qed.

Lemma primitive_null q count c :
  cur js (pos q) = Some c -> ends_primitive strict c = false ->
  exists o, value (jsmn_parse_primitive strict links js num_tokens q None) count = Some o /\ null_post q count o.
Proof.
  intros Hc Hend. pose proof (cur_Some _ _ Hc) as [_ Hlt]. unfold jsmn_parse_primitive.
  destruct (scan_primitive_ends (S (length js)) (pos q)) as (r & -> & Hr & Hf & He); [lia|lia|].
  cbn [mbind option_bind]. destruct r as [m|m|]; [| |by apply value_null; left].
  - apply value_null. right. cbn. destruct Hr as [Hr _]. destruct (decide (m = pos q)) as [->|]; [|lia].
    destruct (Hf eq_refl) as (c' & Hc' & He'). congruence.
  - assert (m <> pos q) by (intros ->; specialize (He eq_refl); congruence).
    destruct strict; apply value_null; [by left|right; cbn; lia].
Qed.

Lemma parse_char_null q count c :
  cur js (pos q) = Some c ->
  exists o, parse_char strict links js num_tokens c q None count = Some o /\ null_post q count o.
Proof.
  intros Hc. pose proof (cur_Some _ _ Hc) as [_ Hlt].
  assert (Hskip : forall q' k, pos q' = pos q -> (0 <= k)%Z ->
    exists o, Some (inr (q', None, (count + k)%Z)) = Some o /\ null_post q count o).
  { intros q' k Hq Hk. eexists. split; [done|]. split; [done|]. lia. }
  assert (Hkeep : forall q', pos q' = pos q ->
    exists o, Some (inr (q', None, count)) = Some o /\ null_post q count o).
  { intros q' Hq. destruct (Hskip q' 0%Z Hq) as (o & E & Ho); [done|]. rewrite Z.add_0_r in E. eauto. }
  unfold parse_char.
  destruct (Ascii.eqb c "{" || Ascii.eqb c "["); [by apply Hskip|].
  destruct (Ascii.eqb c "}" || Ascii.eqb c "]") eqn:E1; [by apply Hkeep|].
  destruct (Ascii.eqb c "034"); [by apply string_null|].
  destruct (Ascii.eqb c "009" || Ascii.eqb c "013" || Ascii.eqb c "010" || Ascii.eqb c " ") eqn:E2; [by apply Hkeep|].
  destruct (Ascii.eqb c ":") eqn:E3; [by apply Hkeep|]. destruct (Ascii.eqb c ",") eqn:E4; [by apply Hkeep|].
  assert (Hend : ends_primitive strict c = false).
  { apply orb_false_iff in E1 as [F1 F2]. unfold ends_primitive. rewrite E3, E4, F1, F2, andb_false_r.
    by rewrite !orb_false_r, orb_false_l. }
  pose proof (primitive_null q count c Hc Hend) as Hprim.
  destruct (strict : bool); [|exact Hprim]. destruct (starts_primitive c); [exact Hprim|].
  eexists. by split.
Qed.

Lemma parse_loop_null fuel q count :
  pos q <= length js -> length js - pos q < fuel ->
  exists n q', parse_loop strict links js num_tokens fuel q None count = Some (n, q', None) /\
    ((0 <= n)%Z -> (count <= n)%Z).
Proof.
  revert q count. induction fuel as [|fuel IH]; intros q count Hq Hf; [lia|]. cbn [parse_loop].
  destruct (cur js (pos q)) as [c|] eqn:Hc; [|by do 2 eexists; split].
  destruct (parse_char_null q count c Hc) as (o & -> & Ho). cbn [mbind option_bind].
  destruct o as [[[r q'] tk]|[[q' tk] count']].
  - destruct Ho as [Hneg ->]. do 2 eexists. split; [done|]. lia.
  - destruct Ho as (-> & Hle & Hp). destruct (IH (with_pos (S (pos q')) q') count') as (n & q2 & -> & Hn); cbn; try lia.
    do 2 eexists. split; [done|]. lia.
Qed.

Lemma parse_loop_sim fuel p ts q count r p' tk' :
  wf p ts -> length js - pos p < fuel -> pos q = pos p -> count = Z.of_nat (toknext p) ->
  parse_loop strict links js num_tokens fuel p (Some ts) count = Some (r, p', tk') ->
  exists n q', parse_loop strict links js num_tokens fuel q None count = Some (n, q', None) /\
    ((0 <= r)%Z -> n = r /\ pos q' = pos p') /\
    (r = JSMN_ERROR_NOMEM -> (0 <= n)%Z -> (Z.of_nat num_tokens < n)%Z).
Proof.
  revert p ts q count. induction fuel as [|fuel IH]; intros p ts q count Hw Hf Hq Hcount; [done|].
  cbn [parse_loop]. rewrite Hq. destruct (cur js (pos p)) as [c|] eqn:Hc.
  - destruct (parse_char_post p ts count c Hw Hc) as (o & Eo & Ho). rewrite Eo. cbn [mbind option_bind].
    pose proof (parse_char_sim p ts q count c o Hw Hq Eo) as Hsim.
    destruct (parse_char_null q count c) as (on & En & Hn); [congruence|]. rewrite En in *. cbn [mbind option_bind].
    apply cur_Some in Hc as [_ Hlt].
    destruct o as [[[r1 p1] tk]|[[p1 tk] count']].
    + destruct Ho as (Hneg & _). intros [= -> -> ->].
      destruct on as [[[n q'] tkn]|[[q' tkn] countn]].
      * destruct Hn as [Hn ->]. do 2 eexists. split; [done|]. split; lia.
      * destruct Hn as (-> & Hle & Hpq).
        destruct (parse_loop_null fuel (with_pos (S (pos q')) q') countn) as (n & q2 & -> & Hn2); [cbn; lia..|].
        do 2 eexists. split; [done|]. split; [lia|]. intros Hr Hpos. destruct (Hsim Hr) as (Hfull & q3 & [= -> ->]).
        specialize (Hn2 Hpos). lia.
    + destruct Ho as (ts' & -> & Hw' & Hpos & Hcnt & _). destruct Hsim as (q' & [= ->] & Hqp).
      intros Hl. apply (IH (with_pos (S (pos p1)) p1) ts'); [exact Hw'|cbn; lia|cbn; lia|cbn; lia|exact Hl].
  - unfold parse_end. destruct (find_open ts unclosed (toknext p)) as [[k|]|]; cbn [mbind option_bind]; [| |done];
      intros [= <- <- <-]; do 2 eexists; (split; [done|]).
    + split; [intros; done|done].
    + split; [done|]. intros E. unfold JSMN_ERROR_NOMEM in E. lia.
Qed.
End Facts.
(** Without tokens [num_tokens] is not looked at. *)
Lemma parse_loop_null_num strict links js n m fuel q count :
  parse_loop strict links js n fuel q None count = parse_loop strict links js m fuel q None count.
Proof.
  revert q count. induction fuel as [|fuel IH]; intros q count; [done|]. cbn [parse_loop].
  destruct (cur js (pos q)) as [c|] eqn:Hc; [|done].
  assert (E : parse_char strict links js n c q None count = parse_char strict links js m c q None count) by done.
  rewrite E. destruct (parse_char_null strict links js m q count c Hc) as (o & -> & Ho). cbn [mbind option_bind].
  destruct o as [e|[[q' tk] count']]; [done|]. destruct Ho as (-> & _). apply IH.
Qed.

(** ** Examples *)

Definition blank : jsmntok_t := Tok JSMN_UNDEFINED 0 0 0 0.

(** A text written with single quotes. *)
Definition quoted (s : string) : list ascii :=
  map (fun c => if Ascii.eqb c "'" then "034"%char else c) (list_ascii_of_string s).

Definition ex_text : list ascii := quoted "{ 'a': [1, true], 'b\u00e9': null }".

(** ** Properties *)

(** C21: Nothing [jsmn_parse] does leaves its arrays.  From any state with the
    position in the text, at most [num_tokens] tokens used and the superior token
    (and the parent links) pointing to earlier tokens, in all four builds, it
    returns, with a code, and leaves such a state: the call can be repeated after
    an error, with more tokens or more text.  Without a token array it returns too. *)
Theorem jsmn_parse_safe strict links js num_tokens p ts :
  (Z.of_nat (length js) < 2 ^ 31)%Z -> (Z.of_nat num_tokens < 2 ^ 31)%Z ->
  wf links js num_tokens p ts ->
  (exists r p' ts', jsmn_parse strict links js num_tokens p (Some ts) = Some (r, p', Some ts') /\
     wf links js num_tokens p' ts') /\
  (exists n p', jsmn_parse strict links js num_tokens p None = Some (n, p', None)).
Proof.
  intros Hlen Hnum Hw. unfold jsmn_parse. pose proof (wf_next _ _ _ _ _ Hw). pose proof (wf_pos _ _ _ _ _ Hw).
  rewrite to_int_small by lia. split.
  - destruct (parse_loop_post strict links js num_tokens Hlen Hnum (S (length js)) p ts (Z.of_nat (toknext p)))
      as (r & p' & ts' & E & Hw' & _); [done|lia|done|]. eauto 6.
  - destruct (parse_loop_null strict links js num_tokens (S (length js)) p (Z.of_nat (toknext p)))
      as (n & p' & E & _); [lia|lia|]. eauto.
Qed.

Lemma wf_init links js num_tokens ts : num_tokens <= length ts -> wf links js num_tokens jsmn_init ts.
Proof. intros Hn. split; cbn; try lia. Qed.

(** C22: The tokens are those of the text.  When the build without parent links
    returns a count from a fresh parser, that is the number of tokens it filled;
    each of them is ended, an object or an array from its bracket to the bracket
    that closes it, a string between its quotes, a primitive a run of characters
    that no delimiter interrupts; and of two tokens the later one starts later, and
    is inside the earlier one or after it. *)
Theorem jsmn_tokens_sound strict js num_tokens ts :
  (Z.of_nat (length js) < 2 ^ 31)%Z -> (Z.of_nat num_tokens < 2 ^ 31)%Z -> num_tokens <= length ts ->
  exists r p ts', jsmn_parse strict false js num_tokens jsmn_init (Some ts) = Some (r, p, Some ts') /\
    ((0 <= r)%Z -> r = Z.of_nat (toknext p) /\
       (forall i t, i < toknext p -> ts' !! i = Some t -> spans strict js t /\ unclosed t = false) /\
       (forall i j t t', i < j < toknext p -> ts' !! i = Some t -> ts' !! j = Some t' -> nested t t')).
Proof.
  intros Hlen Hnum Hts. unfold jsmn_parse. change (to_int _) with 0%Z.
  destruct (parse_loop_post strict false js num_tokens Hlen Hnum (S (length js)) jsmn_init ts 0)
    as (r & p & ts' & E & _ & Hr); [by apply wf_init|cbn; lia|done|].
  exists r, p, ts'. split; [done|]. intros Hge. destruct (Hr Hge) as (Hn & Hc & Hso). split; [done|].
  destruct Hso as [S1 S2]; [done|by split; cbn; intros; lia|]. split; [|exact S2].
  intros i t Hi Ht. split; [by apply (S1 i t)|by apply (Hc i t)].
Qed.

(** Counting first and parsing then works.  When the run without tokens
    says [n], the run with an array of at least [n] tokens never runs out of
    tokens, and when it succeeds it fills exactly [n] and stops at the same place. *)
Theorem jsmn_two_passes strict links js num_tokens ts n q :
  (Z.of_nat (length js) < 2 ^ 31)%Z -> (Z.of_nat num_tokens < 2 ^ 31)%Z -> num_tokens <= length ts ->
  jsmn_parse strict links js 0 jsmn_init None = Some (n, q, None) -> (0 <= n <= Z.of_nat num_tokens)%Z ->
  exists r p ts', jsmn_parse strict links js num_tokens jsmn_init (Some ts) = Some (r, p, Some ts') /\
    r <> JSMN_ERROR_NOMEM /\ ((0 <= r)%Z -> r = n /\ toknext p = Z.to_nat n /\ pos p = pos q).
Proof.
  intros Hlen Hnum Hts Hnull Hn. unfold jsmn_parse in *. change (to_int _) with 0%Z in *.
  rewrite (parse_loop_null_num strict links js 0 num_tokens) in Hnull.
  pose proof (wf_init links js num_tokens ts Hts) as Hw.
  destruct (parse_loop_post strict links js num_tokens Hlen Hnum (S (length js)) jsmn_init ts 0)
    as (r & p & ts' & E & _ & Hr); [done|cbn; lia|done|].
  destruct (parse_loop_sim strict links js num_tokens Hlen Hnum (S (length js)) jsmn_init ts jsmn_init 0 r p (Some ts'))
    as (m & q' & E' & Heq & Hmem); [done|cbn; lia|done|done|done|].
  rewrite Hnull in E'. injection E' as -> ->. exists r, p, ts'. split; [done|]. split.
  - intros Hr'. specialize (Hmem Hr'). lia.
  - intros Hge. destruct (Heq Hge) as [-> Hp]. destruct (Hr Hge) as [-> _]. rewrite Nat2Z.id. auto.
Qed.

Lemma jsmn_parse_safe_witness :
  exists r p' ts', jsmn_parse true true ex_text 3 jsmn_init (Some (replicate 3 blank)) = Some (r, p', Some ts') /\
    r = JSMN_ERROR_NOMEM /\ wf true ex_text 3 p' ts'.
Proof.
  destruct (jsmn_parse_safe true true ex_text 3 jsmn_init (replicate 3 blank)) as [(r & p' & ts' & E & Hw) _];
    [vm_compute; done..|by apply wf_init; cbn; lia|].
  exists r, p', ts'. split; [done|]. split; [|done].
  assert (Hr : (fun x => fst (fst x)) <$> jsmn_parse true true ex_text 3 jsmn_init (Some (replicate 3 blank))
    = Some JSMN_ERROR_NOMEM) by (vm_compute; reflexivity).
  rewrite E in Hr. by injection Hr.
Defined.

Lemma jsmn_tokens_sound_witness :
  exists p ts', jsmn_parse true false ex_text 8 jsmn_init (Some (replicate 8 blank)) = Some (7%Z, p, Some ts') /\
    (forall i t, i < 7 -> ts' !! i = Some t -> spans true ex_text t /\ unclosed t = false).
Proof.
  destruct (jsmn_tokens_sound true ex_text 8 (replicate 8 blank)) as (r & p & ts' & E & Hr);
    [vm_compute; done..|cbn; lia|].
  assert (Hr' : (fun x => fst (fst x)) <$> jsmn_parse true false ex_text 8 jsmn_init (Some (replicate 8 blank))
    = Some 7%Z) by (vm_compute; reflexivity).
  rewrite E in Hr'. injection Hr' as ->. destruct Hr as (Hn & H1 & _); [done|].
  exists p, ts'. split; [done|]. intros i t Hi. apply H1. lia.
Defined.

Lemma jsmn_two_passes_witness :
  exists p ts', jsmn_parse false true ex_text 7 jsmn_init (Some (replicate 7 blank)) = Some (7%Z, p, Some ts') /\
    toknext p = 7.
Proof.
  assert (Hr' : (fun x => fst (fst x)) <$> jsmn_parse false true ex_text 7 jsmn_init (Some (replicate 7 blank))
    = Some 7%Z) by (vm_compute; reflexivity).
  edestruct (jsmn_two_passes false true ex_text 7 (replicate 7 blank) 7) as (r & p & ts' & E & Hno & Hr);
    [vm_compute; done..|cbn; lia|vm_compute; reflexivity|lia|].
  rewrite E in Hr'. injection Hr' as ->. exists p, ts'. split; [done|]. by apply Hr.
Defined.
