(* ===== verification/Adler.v ===== *)
(** * The Adler-32 checksum: [adler32.c]

    [zlib/adler32.c] of the vendored zlib: the checksum with its deferred modulo
    operations, and the combination of two checksums.  [NO_DIVIDE] is a parameter;
    [uLong] is the 32-bit type of the target.  Reading outside the buffer makes the
    result [None]. *)

From stdpp Require Import list.
From S2P Require Import Prelude CLib.

Definition BASE : Z := 65521.
Definition NMAX : Z := 5552.

(** [DO1], with its two sums. *)
Definition DO1 (st : Z * Z) (b : Z) : Z * Z :=
  let adler := u32 (fst st + b) in
  (adler, u32 (snd st + adler)).

(** [n] of them, with [buf] moved on. *)
Definition do_bytes (n : nat) (st : Z * Z) (buf : list char) : option ((Z * Z) * list char) :=
  if (n <=? length buf)%nat
  then Some (fold_left DO1 (map bval (take n buf)) st, drop n buf)
  else None.

(** [DO16(buf); buf += 16;] [n] times. *)
Fixpoint do_16s (n : nat) (st : Z * Z) (buf : list char) : option ((Z * Z) * list char) :=
  match n with
  | O => Some (st, buf)
  | S n =>
      '(st, buf) ← do_bytes 16 st buf;
      do_16s n st buf
  end.

Section Adler.
Context (no_divide : bool).

Definition CHOP (a : Z) : Z :=
  let tmp := Z.shiftr a 16 in
  let a := Z.land a 65535 in
  u32 (a + u32 (u32 (Z.shiftl tmp 4) - tmp)).

Definition MOD28 (a : Z) : Z :=
  if no_divide then
    let a := CHOP a in
    if BASE <=? a then u32 (a - BASE) else a
  else a mod BASE.

Definition MOD (a : Z) : Z :=
  if no_divide then MOD28 (CHOP a) else a mod BASE.

(** On [z_off64_t]; not negative. *)
Definition MOD63 (a : Z) : Z :=
  if no_divide then
    let tmp := Z.shiftr a 32 in
    let a := Z.land a 4294967295 in
    let a := a + (Z.shiftl tmp 8 - Z.shiftl tmp 5 + tmp) in
    let tmp := Z.shiftr a 16 in
    let a := Z.land a 65535 in
    let a := a + (Z.shiftl tmp 4 - tmp) in
    let tmp := Z.shiftr a 16 in
    let a := Z.land a 65535 in
    let a := a + (Z.shiftl tmp 4 - tmp) in
    if BASE <=? a then a - BASE else a
  else a mod BASE.

(** [adler | (sum2 << 16)] *)
Definition recombine (st : Z * Z) : Z := Z.lor (fst st) (u32 (Z.shiftl (snd st) 16)).

(** The loop over the blocks of [NMAX] bytes. *)
Fixpoint nmax_loop (fuel : nat) (st : Z * Z) (buf : list char) (len : Z)
  : option ((Z * Z) * list char * Z) :=
  match fuel with
  | O => None
  | S fuel =>
      if NMAX <=? len then
        '(st, buf) ← do_16s (Z.to_nat (NMAX / 16)) st buf;
        nmax_loop fuel (MOD (fst st), MOD (snd st)) buf (len - NMAX)
      else Some (st, buf, len)
  end.

Definition adler32_z (adler : Z) (buf : option (list char)) (len : Z) : option Z :=
  let sum2 := Z.land (Z.shiftr adler 16) 65535 in
  let adler := Z.land adler 65535 in
  if len =? 1 then
    c ← (b ← buf; head b);
    let adler := u32 (adler + bval c) in
    let adler := if BASE <=? adler then u32 (adler - BASE) else adler in
    let sum2 := u32 (sum2 + adler) in
    let sum2 := if BASE <=? sum2 then u32 (sum2 - BASE) else sum2 in
    Some (recombine (adler, sum2))
  else
  match buf with
  | None => Some 1
  | Some buf =>
      if len <? 16 then
        '((adler, sum2), _) ← do_bytes (Z.to_nat len) (adler, sum2) buf;
        let adler := if BASE <=? adler then u32 (adler - BASE) else adler in
        Some (recombine (adler, MOD28 sum2))
      else
        '(st, buf, len) ← nmax_loop (S (Z.to_nat (len / NMAX))) (adler, sum2) buf len;
        if len =? 0 then Some (recombine st) else
        '(st, buf) ← do_16s (Z.to_nat (len / 16)) st buf;
        '(st, _) ← do_bytes (Z.to_nat (len mod 16)) st buf;
        Some (recombine (MOD (fst st), MOD (snd st)))
  end.

Definition adler32 (adler : Z) (buf : option (list char)) (len : Z) : option Z :=
  adler32_z adler buf len.

Definition adler32_combine_ (adler1 adler2 len2 : Z) : Z :=
  if len2 <? 0 then 4294967295 else
  let rem := u32 (MOD63 len2) in
  let sum1 := Z.land adler1 65535 in
  let sum2 := MOD (u32 (rem * sum1)) in
  let sum1 := u32 (sum1 + u32 (u32 (Z.land adler2 65535 + BASE) - 1)) in
  let sum2 := u32 (sum2 +
    u32 (u32 (u32 (Z.land (Z.shiftr adler1 16) 65535 + Z.land (Z.shiftr adler2 16) 65535) + BASE) - rem)) in
  let sum1 := if BASE <=? sum1 then u32 (sum1 - BASE) else sum1 in
  let sum1 := if BASE <=? sum1 then u32 (sum1 - BASE) else sum1 in
  let sum2 := if Z.shiftl BASE 1 <=? sum2 then u32 (sum2 - Z.shiftl BASE 1) else sum2 in
  let sum2 := if BASE <=? sum2 then u32 (sum2 - BASE) else sum2 in
  recombine (sum1, sum2).

Definition adler32_combine (adler1 adler2 len2 : Z) : Z := adler32_combine_ adler1 adler2 len2.
End Adler.

Example adler_wikipedia : adler32 false 1 (Some (chars "Wikipedia")) 9 = Some 300286872.
Proof. vm_compute. reflexivity. Qed.

(** ** The specification *)

(** The two sums of RFC 1950, reduced at every byte. *)
Definition adler_step (st : Z * Z) (b : Z) : Z * Z :=
  let a := (fst st + b) mod BASE in (a, (snd st + a) mod BASE).
Definition adler_sums (st : Z * Z) (l : list Z) : Z * Z := fold_left adler_step l st.

Definition reduced (st : Z * Z) : Prop := 0 <= fst st < BASE /\ 0 <= snd st < BASE.

Definition residues (st : Z * Z) : Z * Z := (fst st mod BASE, snd st mod BASE).

Lemma residues_reduced st : reduced st -> residues st = st.
Proof. intros [H1 H2]. destruct st. unfold residues. cbn in *. by rewrite !Z.mod_small. Qed.

Lemma reduced_residues st : reduced (residues st).
Proof. split; by apply Z.mod_pos_bound. Qed.

Lemma reduced_sums st l : reduced st -> reduced (adler_sums st l).
Proof.
  revert st. induction l as [|b l IH]; intros st H; [done|]. apply IH. split; by apply Z.mod_pos_bound.
Qed.

Definition bytes (l : list Z) : Prop := Forall (fun b => 0 <= b < 256) l.

Lemma bytes_bval l : bytes (map bval l).
Proof. apply Forall_forall. intros b Hb. apply list_elem_of_In, in_map_iff in Hb as (c & <- & _). apply bval_range. Qed.

(** ** The sums do not overflow *)

(** How large the sums are after [i] bytes since they were reduced. *)
Definition within (i : Z) (st : Z * Z) : Prop :=
  0 <= fst st <= BASE - 1 + 255 * i /\ 0 <= 2 * snd st <= (i + 1) * (2 * (BASE - 1) + 255 * i).

Lemma within_step i st b :
  0 <= i < NMAX -> 0 <= b < 256 -> within i st ->
  DO1 st b = (fst st + b, snd st + (fst st + b)) /\ within (i + 1) (DO1 st b).
Proof.
  unfold NMAX, within, BASE. intros Hi Hb [Ha Hs].
  assert (2 * (snd st + (fst st + b)) <= (i + 1 + 1) * (2 * (65521 - 1) + 255 * (i + 1))) by nia.
  assert ((i + 1 + 1) * (2 * (65521 - 1) + 255 * (i + 1)) <= 5553 * 1546800) by nia.
  assert (E : DO1 st b = (fst st + b, snd st + (fst st + b))).
  { unfold DO1. by rewrite (u32_small (fst st + b)), u32_small by lia. }
  rewrite E. cbn [fst snd]. split; [done|]. lia.
Qed.

Lemma within_u32 i st : 0 <= i <= NMAX -> within i st -> 0 <= fst st < 2 ^ 32 /\ 0 <= snd st < 2 ^ 32.
Proof.
  unfold within, NMAX, BASE. intros Hi [Ha Hs].
  assert ((i + 1) * (2 * (65521 - 1) + 255 * i) <= 5553 * 1546800) by nia. lia.
Qed.

Lemma within_reduced st : reduced st -> within 0 st.
Proof. unfold reduced, within. lia. Qed.

(** Up to [NMAX] bytes need one reduction, at the end. *)
Lemma deferred i l st :
  0 <= i -> i + Z.of_nat (length l) <= NMAX -> bytes l -> within i st ->
  within (i + Z.of_nat (length l)) (fold_left DO1 l st) /\
  residues (fold_left DO1 l st) = adler_sums (residues st) l.
Proof.
  revert i st. induction l as [|b l IH]; intros i st Hi Hn Hl Hw; cbn [fold_left length] in *.
  { by rewrite Z.add_0_r. }
  apply Forall_cons in Hl as [Hb Hl]. destruct (within_step i st b) as [E Hw']; [lia|done|done|].
  destruct (IH (i + 1) (DO1 st b)) as [H1 H2]; [lia|lia|done|done|].
  split; [by replace (i + Z.of_nat (S (length l))) with (i + 1 + Z.of_nat (length l)) by lia|].
  rewrite H2. unfold adler_sums at 2. cbn [fold_left]. unfold adler_sums. f_equal.
  rewrite E. unfold residues, adler_step. cbn [fst snd].
  by rewrite Zplus_mod_idemp_l, Zplus_mod_idemp_r, Zplus_mod_idemp_l.
Qed.

(** ** The reductions *)

(** 65536 is 15 modulo [BASE]. *)
Lemma CHOP_spec a : 0 <= a < 2 ^ 32 ->
  CHOP a = a mod 65536 + 15 * (a / 65536) /\ CHOP a mod BASE = a mod BASE.
Proof.
  intros Ha. assert (E : CHOP a = a mod 65536 + 15 * (a / 65536)).
  { unfold CHOP. rewrite (Z.land_ones a 16 ltac:(done) : Z.land a 65535 = _), Z.shiftr_div_pow2, Z.shiftl_mul_pow2 by done.
    change (2 ^ 16) with 65536. change (2 ^ 4) with 16. change (2 ^ 32) with 4294967296 in Ha.
    assert (0 <= a mod 65536 < 65536) by (apply Z.mod_pos_bound; lia).
    assert (0 <= a / 65536 < 65536) by (Z.div_mod_to_equations; lia).
    rewrite (u32_small (a / 65536 * 16)) by lia. rewrite (u32_small (a / 65536 * 16 - a / 65536)) by lia.
    rewrite u32_small; lia. }
  split; [exact E|]. rewrite E. rewrite (Z.div_mod a 65536) at 3 by done.
  replace (65536 * (a / 65536) + a mod 65536) with (a mod 65536 + 15 * (a / 65536) + (a / 65536) * BASE) by (unfold BASE; lia).
  by rewrite Z.mod_add.
Qed.

Lemma subtract_once a : 0 <= a < 2 * BASE -> (if BASE <=? a then u32 (a - BASE) else a) = a mod BASE.
Proof.
  intros Ha. destruct (Z.leb_spec BASE a).
  - rewrite u32_small by (unfold BASE in *; lia). apply (Z.mod_unique _ _ 1); lia.
  - symmetry. apply Z.mod_small. lia.
Qed.

Lemma MOD28_spec nd a : 0 <= a < 2 ^ 28 -> MOD28 nd a = a mod BASE.
Proof.
  intros Ha. unfold MOD28. destruct nd; [|done]. cbv zeta.
  change (2 ^ 28) with 268435456 in Ha. destruct (CHOP_spec a) as [E1 E2]; [lia|].
  rewrite subtract_once; [done|]. rewrite E1. unfold BASE. Z.div_mod_to_equations. lia.
Qed.

Lemma MOD_spec nd a : 0 <= a < 2 ^ 32 -> MOD nd a = a mod BASE.
Proof.
  intros Ha. unfold MOD. destruct nd; [|done]. destruct (CHOP_spec a Ha) as [E1 E2].
  rewrite MOD28_spec; [done|]. rewrite E1. change (2 ^ 32) with 4294967296 in Ha. change (2 ^ 28) with 268435456.
  Z.div_mod_to_equations. lia.
Qed.

(** Replacing the high part, when [p] is [k] modulo [BASE]. *)
Lemma fold_high x p k m : 0 < p -> p = k + m * BASE -> (x mod p + k * (x / p)) mod BASE = x mod BASE.
Proof.
  intros Hp E. rewrite (Z.div_mod x p) at 3 by lia. generalize (x mod p), (x / p). intros r q.
  replace (p * q + r) with (r + k * q + (q * m) * BASE) by (rewrite E; ring). by rewrite Z.mod_add.
Qed.

Lemma MOD63_spec nd a : 0 <= a < 2 ^ 63 -> MOD63 nd a = a mod BASE.
Proof.
  intros Ha. unfold MOD63. destruct nd; [|done]. cbv zeta.
  assert (E16 : forall x, Z.land x 65535 = x mod 65536) by (intros x; exact (Z.land_ones x 16 ltac:(done))).
  assert (E32 : forall x, Z.land x 4294967295 = x mod 4294967296) by (intros x; exact (Z.land_ones x 32 ltac:(done))).
  rewrite !E16, E32, !Z.shiftr_div_pow2, !Z.shiftl_mul_pow2 by done.
  change (2 ^ 16) with 65536. change (2 ^ 32) with 4294967296. change (2 ^ 63) with 9223372036854775808 in Ha.
  change (2 ^ 8) with 256. change (2 ^ 5) with 32. change (2 ^ 4) with 16.
  replace (a mod 4294967296 + (a / 4294967296 * 256 - a / 4294967296 * 32 + a / 4294967296))
    with (a mod 4294967296 + 225 * (a / 4294967296)) by lia.
  set (a1 := a mod 4294967296 + 225 * (a / 4294967296)).
  assert (H1 : 0 <= a1 < 2 ^ 40) by (subst a1; change (2 ^ 40) with 1099511627776; Z.div_mod_to_equations; lia).
  assert (R1 : a1 mod BASE = a mod BASE) by (apply (fold_high a _ _ 65551); done).
  clearbody a1. change (2 ^ 40) with 1099511627776 in H1.
  replace (a1 mod 65536 + (a1 / 65536 * 16 - a1 / 65536)) with (a1 mod 65536 + 15 * (a1 / 65536)) by lia.
  set (a2 := a1 mod 65536 + 15 * (a1 / 65536)).
  assert (H2 : 0 <= a2 < 268435456) by (subst a2; Z.div_mod_to_equations; lia).
  assert (R2 : a2 mod BASE = a1 mod BASE) by (apply (fold_high a1 _ _ 1); done).
  clearbody a2. replace (a2 mod 65536 + (a2 / 65536 * 16 - a2 / 65536)) with (a2 mod 65536 + 15 * (a2 / 65536)) by lia.
  assert (R3 : (a2 mod 65536 + 15 * (a2 / 65536)) mod BASE = a2 mod BASE) by (apply (fold_high a2 _ _ 1); done).
  assert (H3 : 0 <= a2 mod 65536 + 15 * (a2 / 65536) < 2 * BASE) by (unfold BASE; Z.div_mod_to_equations; lia).
  rewrite <- R1, <- R2, <- R3, <- subtract_once by done.
  destruct (Z.leb_spec BASE (a2 mod 65536 + 15 * (a2 / 65536))); [|done]. rewrite u32_small; [done|].
  unfold BASE in *. lia.
Qed.

(** ** The blocks *)

Lemma do_bytes_some n st buf : (n <= length buf)%nat ->
  do_bytes n st buf = Some (fold_left DO1 (map bval (take n buf)) st, drop n buf).
Proof. intros Hn. unfold do_bytes. by destruct (Nat.leb_spec n (length buf)); [|lia]. Qed.

Lemma do_16s_some n st buf : (16 * n <= length buf)%nat ->
  do_16s n st buf = Some (fold_left DO1 (map bval (take (16 * n) buf)) st, drop (16 * n) buf).
Proof.
  revert st buf. induction n as [|n IH]; intros st buf Hn; [by rewrite Nat.mul_0_r|]. cbn [do_16s].
  rewrite do_bytes_some by lia. cbn [mbind option_bind]. rewrite IH by (rewrite length_drop; lia).
  replace (16 * S n)%nat with (16 + 16 * n)%nat by lia.
  rewrite drop_drop, <- take_take_drop, map_app, fold_left_app. done.
Qed.

Lemma adler_sums_app st l l' : adler_sums st (l ++ l') = adler_sums (adler_sums st l) l'.
Proof. apply fold_left_app. Qed.

(** A block of at most [NMAX] bytes and the two reductions. *)
Lemma block_spec nd st l :
  reduced st -> bytes l -> Z.of_nat (length l) <= NMAX ->
  let st' := fold_left DO1 l st in (MOD nd (fst st'), MOD nd (snd st')) = adler_sums st l.
Proof.
  intros Hr Hl Hn st'. destruct (deferred 0 l st) as [Hw Hres]; [done|lia|done|by apply within_reduced|].
  destruct (within_u32 (0 + Z.of_nat (length l)) st') as [H1 H2]; [lia|exact Hw|]. rewrite !MOD_spec by done.
  rewrite <- (residues_reduced st Hr) at 1. exact Hres.
Qed.

Lemma nmax_loop_spec nd fuel st buf :
  reduced st -> Z.of_nat (length buf) / NMAX < Z.of_nat fuel ->
  exists st' buf' len', nmax_loop nd fuel st buf (Z.of_nat (length buf)) = Some (st', buf', len') /\
    len' = Z.of_nat (length buf') /\ len' < NMAX /\ reduced st' /\
    adler_sums st (map bval buf) = adler_sums st' (map bval buf').
Proof.
  revert st buf. induction fuel as [|fuel IH]; intros st buf Hr Hf.
  { pose proof (Z.div_pos (Z.of_nat (length buf)) NMAX ltac:(lia) ltac:(done)). lia. }
  cbn [nmax_loop]. destruct (Z.leb_spec NMAX (Z.of_nat (length buf))) as [Hge|Hlt].
  - set (n := Z.to_nat (NMAX / 16)). assert (Hn : Z.of_nat (16 * n) = NMAX) by (vm_compute; reflexivity).
    clearbody n. rewrite do_16s_some by lia. cbn [mbind option_bind].
    rewrite block_spec; [|done|apply bytes_bval|rewrite length_map, length_take; lia].
    replace (Z.of_nat (length buf) - NMAX) with (Z.of_nat (length (drop (16 * n) buf))) by (rewrite length_drop; lia).
    destruct (IH (adler_sums st (map bval (take (16 * n) buf))) (drop (16 * n) buf)) as (st' & buf' & len' & E & H1 & H2 & H3 & H4).
    + by apply reduced_sums.
    + rewrite length_drop, Nat2Z.inj_sub, Hn by lia.
      replace (Z.of_nat (length buf) - NMAX) with (Z.of_nat (length buf) + (-1) * NMAX) by lia.
      rewrite Z.div_add by done. lia.
    + exists st', buf', len'. split; [exact E|]. do 3 (split; [done|]). rewrite <- H4, <- adler_sums_app, <- map_app.
      by rewrite take_drop.
  - exists st, buf, (Z.of_nat (length buf)). done.
Qed.

(** ** Packing the two sums *)

Lemma recombine_spec st : reduced st -> recombine st = fst st + snd st * 65536.
Proof.
  unfold reduced, BASE. intros [Ha Hs]. unfold recombine. rewrite u32_small.
  - rewrite lor_add; [done|done|]. change (2 ^ 16) with 65536. lia.
  - rewrite Z.shiftl_mul_pow2 by done. change (2 ^ 16) with 65536. lia.
Qed.

Lemma unpack st : reduced st ->
  Z.land (recombine st) 65535 = fst st /\ Z.land (Z.shiftr (recombine st) 16) 65535 = snd st.
Proof.
  intros Hr. rewrite (recombine_spec st Hr). destruct Hr as [Ha Hs]. unfold BASE in *.
  assert (E16 : forall x, Z.land x 65535 = x mod 65536) by (intros x; exact (Z.land_ones x 16 ltac:(done))).
  rewrite !E16, Z.shiftr_div_pow2 by done. change (2 ^ 16) with 65536. Z.div_mod_to_equations. lia.
Qed.

(** ** Properties *)

(** The last bytes, less than [NMAX] of them. *)
Lemma tail_spec nd st buf len :
  reduced st -> len = Z.of_nat (length buf) -> len < NMAX ->
  ('(st, buf) ← do_16s (Z.to_nat (len / 16)) st buf;
   '(st, _) ← do_bytes (Z.to_nat (len mod 16)) st buf;
   Some (recombine (MOD nd (fst st), MOD nd (snd st)))) = Some (recombine (adler_sums st (map bval buf))).
Proof.
  intros Hr -> Hlt. set (n := Z.to_nat (Z.of_nat (length buf) / 16)). set (m := Z.to_nat (Z.of_nat (length buf) mod 16)).
  assert (Hnm : (16 * n + m = length buf)%nat) by (subst n m; Z.div_mod_to_equations; lia). clearbody n m.
  rewrite do_16s_some by lia. cbn [mbind option_bind].
  rewrite do_bytes_some by (rewrite length_drop; lia). cbn [mbind option_bind].
  rewrite <- fold_left_app, <- map_app, take_take_drop, take_ge by lia.
  rewrite block_spec; [done|done|apply bytes_bval|rewrite length_map; lia].
Qed.

Lemma wp_adler32 no_divide st buf :
  reduced st ->
  adler32 no_divide (recombine st) (Some buf) (Z.of_nat (length buf))
  = Some (recombine (adler_sums st (map bval buf))).
Proof.
  intros Hr. unfold adler32, adler32_z. destruct (unpack st Hr) as [-> ->]. cbv zeta.
  pose proof (within_reduced st Hr) as Hw. pose proof (bytes_bval buf) as Hb.
  destruct (Z.eqb_spec (Z.of_nat (length buf)) 1) as [E1|E1].
  { destruct buf as [|c [|? ?]]; [done| |cbn in E1; lia]. cbn [mbind option_bind head map].
    pose proof (bval_range c). destruct Hr as [Ha Hs].
    rewrite (u32_small (fst st + bval c)) by (unfold BASE in *; lia).
    rewrite subtract_once by (unfold BASE in *; lia).
    pose proof (Z.mod_pos_bound (fst st + bval c) BASE ltac:(done)).
    rewrite u32_small by (unfold BASE in *; lia). rewrite subtract_once by (unfold BASE in *; lia). done. }
  destruct (Z.ltb_spec (Z.of_nat (length buf)) 16) as [E2|E2].
  { rewrite Nat2Z.id, <- surjective_pairing, do_bytes_some, take_ge by lia. cbn [mbind option_bind].
    destruct (deferred 0 (map bval buf) st) as [Hw' Hres]; [done|rewrite length_map; unfold NMAX; lia|done|done|].
    rewrite length_map in Hw'. set (st' := fold_left DO1 (map bval buf) st) in *.
    rewrite (residues_reduced st Hr) in Hres. rewrite <- Hres. destruct st' as [a s]. unfold residues, within in *. cbn [fst snd] in *.
    unfold BASE in Hw'. rewrite subtract_once by (unfold BASE; lia). rewrite MOD28_spec; [done|].
    change (2 ^ 28) with 268435456. nia. }
  rewrite <- surjective_pairing.
  destruct (nmax_loop_spec no_divide (S (Z.to_nat (Z.of_nat (length buf) / NMAX))) st buf Hr)
    as (st' & buf' & len' & -> & Hl & Hlt & Hr' & Hsum).
  { rewrite Nat2Z.inj_succ, Z2Nat.id; [lia|]. apply Z.div_pos; [lia|done]. }
  cbn [mbind option_bind]. rewrite Hsum. destruct (Z.eqb_spec len' 0) as [Ez|Ez].
  - destruct buf'; [done|]. cbn in Hl. lia.
  - by apply tail_spec.
Qed.

(** The checksum is Adler-32.  From any checksum with reduced sums and for any
    buffer, [adler32], with its modulo operations deferred over up to 5552 bytes on
    32-bit arithmetic, in both builds, reads exactly the buffer and gives the two sums
    of the specification, which reduces at every byte: no addition overflows. *)
Theorem adler32_correct no_divide st buf :
  reduced st ->
  adler32 no_divide (recombine st) (Some buf) (Z.of_nat (length buf))
  = Some (recombine (adler_sums st (map bval buf))).
Proof. apply wp_adler32. Qed.

(** The sums without any reduction. *)
Definition plain_step (st : Z * Z) (b : Z) : Z * Z := (fst st + b, snd st + (fst st + b)).

Lemma plain_sums l st : residues (fold_left plain_step l st) = adler_sums (residues st) l.
Proof.
  revert st. induction l as [|b l IH]; intros st; [done|]. cbn [fold_left]. rewrite IH.
  unfold adler_sums at 2. cbn [fold_left]. unfold adler_sums. f_equal. unfold residues, plain_step, adler_step. cbn [fst snd].
  by rewrite Zplus_mod_idemp_l, Zplus_mod_idemp_r, Zplus_mod_idemp_l.
Qed.

Lemma plain_linear l a s :
  let st := fold_left plain_step l (0, 0) in
  fold_left plain_step l (a, s) = (a + fst st, s + Z.of_nat (length l) * a + snd st).
Proof.
  induction l as [|b l IH] using rev_ind; [cbn; f_equal; lia|]. cbv zeta in *.
  rewrite !fold_left_app, IH, length_app. cbn [fold_left length plain_step]. unfold plain_step. cbn [fst snd].
  f_equal; lia.
Qed.

Lemma subtract_twice a : 0 <= a < 3 * BASE ->
  (let a := if BASE <=? a then u32 (a - BASE) else a in if BASE <=? a then u32 (a - BASE) else a) = a mod BASE.
Proof.
  intros Ha. cbv zeta. destruct (Z.leb_spec BASE a).
  - rewrite u32_small by (unfold BASE in *; lia). rewrite subtract_once by lia.
    replace a with ((a - BASE) + 1 * BASE) at 2 by lia. by rewrite Z.mod_add.
  - by rewrite subtract_once by lia.
Qed.

Lemma subtract_two a : 0 <= a < 4 * BASE ->
  (let a := if Z.shiftl BASE 1 <=? a then u32 (a - Z.shiftl BASE 1) else a in
   if BASE <=? a then u32 (a - BASE) else a) = a mod BASE.
Proof.
  intros Ha. cbv zeta. change (Z.shiftl BASE 1) with (2 * BASE). destruct (Z.leb_spec (2 * BASE) a).
  - rewrite u32_small by (unfold BASE in *; lia). rewrite subtract_once by lia.
    replace a with ((a - 2 * BASE) + 2 * BASE) at 2 by lia. by rewrite Z.mod_add.
  - by rewrite subtract_once by lia.
Qed.

(** What [adler32_combine_] computes. *)
Lemma combine_sums nd st1 st2 len2 :
  reduced st1 -> reduced st2 -> 0 <= len2 < 2 ^ 63 ->
  adler32_combine nd (recombine st1) (recombine st2) len2
  = recombine (residues (fst st1 + fst st2 - 1, snd st1 + snd st2 + len2 * (fst st1 - 1))).
Proof.
  intros H1 H2 Hl. unfold adler32_combine, adler32_combine_.
  destruct (Z.ltb_spec len2 0); [lia|]. destruct (unpack st1 H1) as [-> ->]. destruct (unpack st2 H2) as [-> ->].
  rewrite MOD63_spec by done. pose proof (Z.mod_pos_bound len2 BASE ltac:(done)) as Hm.
  destruct H1 as [Ha1 Hs1], H2 as [Ha2 Hs2]. destruct st1 as [a1 s1], st2 as [a2 s2]. cbn [fst snd] in *.
  rewrite (u32_small (len2 mod BASE)) by (unfold BASE in *; lia).
  assert (Hp : 0 <= len2 mod BASE * a1 < 4294967296) by (unfold BASE in *; nia).
  rewrite (u32_small (len2 mod BASE * a1)) by exact Hp. rewrite MOD_spec by exact Hp.
  pose proof (Z.mod_pos_bound (len2 mod BASE * a1) BASE ltac:(done)) as Hq.
  rewrite (u32_small (a2 + BASE)), (u32_small (a2 + BASE - 1)), (u32_small (a1 + _)) by (unfold BASE in *; lia).
  rewrite (u32_small (s1 + s2)), (u32_small (s1 + s2 + BASE)), (u32_small (s1 + s2 + BASE - _)),
    (u32_small (_ + (s1 + s2 + BASE - _))) by (unfold BASE in *; lia).
  pose proof (subtract_twice (a1 + (a2 + BASE - 1)) ltac:(lia)) as E1. cbv zeta in E1 |- *. rewrite E1.
  pose proof (subtract_two ((len2 mod BASE * a1) mod BASE + (s1 + s2 + BASE - len2 mod BASE)) ltac:(lia)) as E2.
  cbv zeta in E2. rewrite E2. unfold residues. cbn [fst snd]. f_equal. f_equal.
  - replace (a1 + (a2 + BASE - 1)) with (a1 + a2 - 1 + 1 * BASE) by lia. by rewrite Z.mod_add.
  - rewrite Zplus_mod_idemp_l.
    replace (len2 mod BASE * a1 + (s1 + s2 + BASE - len2 mod BASE))
      with (s1 + s2 + len2 * (a1 - 1) + (1 - (len2 / BASE) * (a1 - 1)) * BASE); [by rewrite Z.mod_add|].
    rewrite (Z.mod_eq len2 BASE) by done. ring.
Qed.

(** Two checksums combine to the checksum of the two buffers.  Given the
    checksum of the first buffer (from any start), that of the second one from 1, and
    the second one's length, [adler32_combine] gives what [adler32] gives when it goes
    on over the second buffer, in both builds. *)
Theorem adler32_combine_correct no_divide st buf c2 :
  reduced st -> Z.of_nat (length buf) < 2 ^ 63 ->
  adler32 no_divide 1 (Some buf) (Z.of_nat (length buf)) = Some c2 ->
  adler32 no_divide (recombine st) (Some buf) (Z.of_nat (length buf))
  = Some (adler32_combine no_divide (recombine st) c2 (Z.of_nat (length buf))).
Proof.
  intros Hr Hlen. assert (H1 : reduced (1, 0)) by done.
  assert (E : forall st0, reduced st0 -> adler32 no_divide (recombine st0) (Some buf) (Z.of_nat (length buf))
    = Some (recombine (adler_sums st0 (map bval buf)))) by (intros; by apply wp_adler32).
  change 1 with (recombine (1, 0)) at 1. rewrite (E _ H1), (E _ Hr). intros [= <-]. f_equal.
  rewrite combine_sums by (done || (split; [lia|done]) || by apply reduced_sums). f_equal.
  destruct st as [a s]. rewrite <- (residues_reduced (a, s) Hr) at 1. rewrite <- (residues_reduced (1, 0) H1).
  rewrite <- !plain_sums, (plain_linear _ a s), (plain_linear _ 1 0), length_map. set (p := fold_left plain_step (map bval buf) (0, 0)).
  unfold residues. cbn [fst snd]. f_equal.
  - replace (a + (1 + fst p) mod BASE - 1) with ((1 + fst p) mod BASE + (a - 1)) by lia.
    rewrite Zplus_mod_idemp_l. f_equal. lia.
  - set (n := Z.of_nat (length buf)).
    replace (s + (0 + n * 1 + snd p) mod BASE + n * (a - 1)) with ((0 + n * 1 + snd p) mod BASE + (s + n * (a - 1))) by lia.
    rewrite Zplus_mod_idemp_l. f_equal. lia.
Qed.

(** ** Witnesses *)

Lemma adler32_correct_witness :
  adler32 true (recombine (17, 4)) (Some (chars "Wikipedia")) 9
  = Some (recombine (adler_sums (17, 4) (map bval (chars "Wikipedia")))).
Proof. apply (adler32_correct true (17, 4) (chars "Wikipedia")). vm_compute. repeat split; congruence. Defined.

Lemma adler32_combine_correct_witness :
  adler32 false 300286872 (Some (chars "Wikipedia")) 9 = Some (adler32_combine false 300286872 300286872 9).
Proof.
  pose proof (adler32_combine_correct false (300286872 mod 65536, 300286872 / 65536) (chars "Wikipedia") 300286872) as H.
  assert (E : recombine (300286872 mod 65536, 300286872 / 65536) = 300286872) by (vm_compute; reflexivity).
  rewrite E in H. change (Z.of_nat (length (chars "Wikipedia"))) with 9 in H. apply H.
  - vm_compute. repeat split; congruence.
  - vm_compute. reflexivity.
  - vm_compute. reflexivity.
Defined.
