(* ===== verification/Puff.v ===== *)
(** * The reference inflater: [puff.c]

    [zlib/contrib/puff] of the vendored zlib: a complete inflate, written to specify
    the deflate format.  [SLOW] (the choice between the two [decode] functions) is a
    parameter; [INFLATE_ALLOW_INVALID_DISTANCE_TOOFAR_ARRR] is not defined.
    [unsigned long] is the 32-bit type of the target.  [longjmp] is an outcome, an
    access outside an array (and a loop that does not end within its fuel) another. *)

From stdpp Require Import list.
From S2P Require Import Prelude CLib.

(** ** Arrays *)

(** [a[i]] and [a[i] = x] for an [int] index; [None] is outside the array. *)
Definition aget {A} (a : list A) (i : Z) : option A :=
  if i <? 0 then None else a !! Z.to_nat i.
Definition aset {A} (a : list A) (i : Z) (x : A) : option (list A) :=
  _ ← aget a i; Some (<[Z.to_nat i := x]> a).

(** A [for] loop whose body changes [a] and may leave an array. *)
Fixpoint ofold {A B} (f : A -> B -> option A) (a : A) (l : list B) : option A :=
  match l with
  | [] => Some a
  | b :: l => a ← f a b; ofold f a l
  end.

(** The conversion to [unsigned char]. *)
Definition byte (z : Z) : char := ascii_of_N (Z.to_N (u8 z)).

Definition MAXBITS : Z := 15.
Definition MAXLCODES : Z := 286.
Definition MAXDCODES : Z := 30.
Definition MAXCODES : Z := MAXLCODES + MAXDCODES.
Definition FIXLCODES : Z := 288.

(** ** The state *)

(** [struct state]; [env] is the outcome [Longjmp]. *)
Record state := State {
  out : option (list char);
  outlen : Z;
  outcnt : Z;
  in_ : list char;
  inlen : Z;
  incnt : Z;
  bitbuf : Z;
  bitcnt : Z
}.

Definition set_out o s := State o (outlen s) (outcnt s) (in_ s) (inlen s) (incnt s) (bitbuf s) (bitcnt s).
Definition set_outcnt n s := State (out s) (outlen s) n (in_ s) (inlen s) (incnt s) (bitbuf s) (bitcnt s).
Definition set_incnt n s := State (out s) (outlen s) (outcnt s) (in_ s) (inlen s) n (bitbuf s) (bitcnt s).
Definition set_bits b c s := State (out s) (outlen s) (outcnt s) (in_ s) (inlen s) (incnt s) b c.

Inductive res (A : Type) := Ret (a : A) (s : state) | Longjmp (s : state) | Stuck.
Arguments Ret {A}. Arguments Longjmp {A}. Arguments Stuck {A}.

Definition M (A : Type) : Type := state -> res A.

#[export] Instance M_monad : Monad M := {
  ret A a := fun s => Ret a s;
  bind A B m f := fun s =>
    match m s with Ret a s' => f a s' | Longjmp s' => Longjmp s' | Stuck => Stuck end
}.

Definition get : M state := fun s => Ret s s.
Definition upd (f : state -> state) : M unit := fun s => Ret tt (f s).
Definition longjmp {A} : M A := fun s => Longjmp s.
Definition stuck {A} : M A := fun _ => Stuck.
Definition lift {A} (o : option A) : M A := fun s => match o with Some a => Ret a s | None => Stuck end.

(** [s->in[s->incnt++]] *)
Definition next_byte : M Z :=
  s <- get ;;
  c <- lift (aget (in_ s) (incnt s)) ;;
  upd (set_incnt (u32 (incnt s + 1))) ;;
  ret (bval c).

(** [s->out[s->outcnt] = c; s->outcnt++] *)
Definition put (c : char) : M unit :=
  s <- get ;;
  o <- lift (o ← out s; aset o (outcnt s) c) ;;
  upd (set_out (Some o)) ;;
  upd (set_outcnt (u32 (outcnt s + 1))).

(** ** [bits] *)

Fixpoint load (fuel : nat) (need val : Z) : M Z :=
  match fuel with
  | O => stuck
  | S fuel =>
      s <- get ;;
      if bitcnt s <? need then
        if incnt s =? inlen s then longjmp else
        b <- next_byte ;;
        upd (fun s' => set_bits (bitbuf s') (bitcnt s' + 8) s') ;;
        load fuel need (Z.lor val (Z.shiftl b (bitcnt s)))
      else ret val
  end.

Definition bits (need : Z) : M Z :=
  s <- get ;;
  val <- load (S (Z.to_nat need)) need (bitbuf s) ;;
  upd (fun s => set_bits (Z.shiftr val need) (bitcnt s - need) s) ;;
  ret (Z.land val (Z.shiftl 1 need - 1)).

(** ** [stored] *)

(** [while (len--) s->out[s->outcnt++] = s->in[s->incnt++];] *)
Definition copy_in (len : nat) : M unit :=
  repeat_m len (b <- next_byte ;; put (byte b)).

Definition stored : M Z :=
  upd (set_bits 0 0) ;;
  s <- get ;;
  if inlen s <? u32 (incnt s + 4) then ret 2 else
  b0 <- next_byte ;;
  b1 <- next_byte ;;
  let len := Z.lor b0 (Z.shiftl b1 8) in
  b2 <- next_byte ;;
  if negb (b2 =? Z.land (u32 (Z.lnot len)) 255) then ret (-2) else
  b3 <- next_byte ;;
  if negb (b3 =? Z.land (Z.shiftr (u32 (Z.lnot len)) 8) 255) then ret (-2) else
  s <- get ;;
  if inlen s <? u32 (incnt s + len) then ret 2 else
  match out s with
  | Some _ =>
      if outlen s <? u32 (outcnt s + len) then ret 1 else
      copy_in (Z.to_nat len) ;;
      ret 0
  | None =>
      upd (set_outcnt (u32 (outcnt s + len))) ;;
      upd (set_incnt (u32 (incnt s + len))) ;;
      ret 0
  end.

(** ** [decode] *)

Record huffman := Huffman {
  hcount : list Z;
  hsymbol : list Z
}.

(** The [SLOW] one; [k] is the number of lengths left to try. *)
Fixpoint decode_loop (h : huffman) (k : nat) (len code first index : Z) : M Z :=
  match k with
  | O => ret (-10)
  | S k =>
      b <- bits 1 ;;
      let code := Z.lor code b in
      count <- lift (aget (hcount h) len) ;;
      if code - count <? first then lift (aget (hsymbol h) (index + (code - first)))
      else decode_loop h k (len + 1) (Z.shiftl code 1) (Z.shiftl (first + count) 1) (index + count)
  end.

Definition decode_slow (h : huffman) : M Z := decode_loop h (Z.to_nat MAXBITS) 1 0 0 0.

(** The other one: the two nested loops as one, the inner loop over when [left] is 0. *)
Fixpoint fast_loop (h : huffman) (fuel : nat) (len code first index buf left : Z) : M Z :=
  match fuel with
  | O => stuck
  | S fuel =>
      if left =? 0 then
        let left := MAXBITS + 1 - len in
        if left =? 0 then ret (-10) else
        s <- get ;;
        if incnt s =? inlen s then longjmp else
        buf <- next_byte ;;
        fast_loop h fuel len code first index buf (if 8 <? left then 8 else left)
      else
        let code := Z.lor code (Z.land buf 1) in
        let buf := Z.shiftr buf 1 in
        count <- lift (aget (hcount h) len) ;;
        if code - count <? first then
          upd (fun s => set_bits buf (Z.land (bitcnt s - len) 7) s) ;;
          lift (aget (hsymbol h) (index + (code - first)))
        else fast_loop h fuel (len + 1) (Z.shiftl code 1) (Z.shiftl (first + count) 1)
               (index + count) buf (left - 1)
  end.

Definition decode_fast (h : huffman) : M Z :=
  s <- get ;;
  fast_loop h 40 1 0 0 0 (bitbuf s) (bitcnt s).

Definition decode (slow : bool) (h : huffman) : M Z :=
  if slow then decode_slow h else decode_fast h.

(** ** [construct] *)

(** [n], [n + 1], ..., [n + k - 1] *)
Definition range (n k : Z) : list Z := map (fun i => n + Z.of_nat i) (seq 0 (Z.to_nat k)).

Definition count_lengths (length : list Z) (n : Z) : option (list Z) :=
  ofold (fun count symbol => l ← aget length symbol; c ← aget count l; aset count l (c + 1))
    (replicate (Z.to_nat (MAXBITS + 1)) 0) (range 0 n).

(** The codes left at each length; the first negative one is returned at once. *)
Fixpoint codes_left (count : list Z) (lens : list Z) (left : Z) : option Z :=
  match lens with
  | [] => Some left
  | len :: lens =>
      c ← aget count len;
      let left := Z.shiftl left 1 - c in
      if left <? 0 then Some left else codes_left count lens left
  end.

Definition offsets (count : list Z) : option (list Z) :=
  ofold (fun offs len => o ← aget offs len; c ← aget count len; aset offs (len + 1) (o + c))
    (replicate (Z.to_nat (MAXBITS + 1)) 0) (range 1 (MAXBITS - 1)).

Definition sort_symbols (length : list Z) (n : Z) (offs symbols : list Z) : option (list Z * list Z) :=
  ofold (fun '(offs, symbols) symbol =>
           l ← aget length symbol;
           if l =? 0 then Some (offs, symbols) else
           o ← aget offs l;
           symbols ← aset symbols o symbol;
           offs ← aset offs l (o + 1);
           Some (offs, symbols))
    (offs, symbols) (range 0 n).

Definition construct (h : huffman) (length : list Z) (n : Z) : option (Z * huffman) :=
  count ← count_lengths length n;
  c0 ← aget count 0;
  if c0 =? n then Some (0, Huffman count (hsymbol h)) else
  left ← codes_left count (range 1 MAXBITS) 1;
  if left <? 0 then Some (left, Huffman count (hsymbol h)) else
  offs ← offsets count;
  '(_, symbols) ← sort_symbols length n offs (hsymbol h);
  Some (left, Huffman count symbols).

(** ** [codes] *)

Definition lens : list Z :=
  [3; 4; 5; 6; 7; 8; 9; 10; 11; 13; 15; 17; 19; 23; 27; 31;
   35; 43; 51; 59; 67; 83; 99; 115; 131; 163; 195; 227; 258].
Definition lext : list Z :=
  [0; 0; 0; 0; 0; 0; 0; 0; 1; 1; 1; 1; 2; 2; 2; 2;
   3; 3; 3; 3; 4; 4; 4; 4; 5; 5; 5; 5; 0].
Definition dists : list Z :=
  [1; 2; 3; 4; 5; 7; 9; 13; 17; 25; 33; 49; 65; 97; 129; 193;
   257; 385; 513; 769; 1025; 1537; 2049; 3073; 4097; 6145;
   8193; 12289; 16385; 24577].
Definition dext : list Z :=
  [0; 0; 0; 0; 1; 1; 2; 2; 3; 3; 4; 4; 5; 5; 6; 6;
   7; 7; 8; 8; 9; 9; 10; 10; 11; 11;
   12; 12; 13; 13].

(** [base[symbol] + bits(s, ext[symbol])] *)
Definition extended (base ext : list Z) (symbol : Z) : M Z :=
  b <- lift (aget base symbol) ;;
  e <- lift (aget ext symbol) ;;
  x <- bits e ;;
  ret (b + x).

(** The copy from [dist] bytes back, byte by byte. *)
Definition copy_back (len : nat) (dist : Z) : M unit :=
  repeat_m len (
    s <- get ;;
    c <- lift (o ← out s; aget o (outcnt s - dist)) ;;
    put c).

Section Decoder.
Context (slow : bool).

(** The body of the loop; [Some] is a return, with 0 at the end-of-block symbol. *)
Definition codes_step (lencode distcode : huffman) : M (option Z) :=
  symbol <- decode slow lencode ;;
  if symbol <? 0 then ret (Some symbol) else
  if symbol <? 256 then
    s <- get ;;
    match out s with
    | Some _ =>
        if outcnt s =? outlen s then ret (Some 1) else
        put (byte symbol) ;;
        ret None
    | None => upd (set_outcnt (u32 (outcnt s + 1))) ;; ret None
    end
  else if symbol =? 256 then ret (Some 0)
  else
    let symbol := symbol - 257 in
    if 29 <=? symbol then ret (Some (-10)) else
    len <- extended lens lext symbol ;;
    symbol <- decode slow distcode ;;
    if symbol <? 0 then ret (Some symbol) else
    dist <- extended dists dext symbol ;;
    s <- get ;;
    if outcnt s <? dist then ret (Some (-11)) else
    match out s with
    | Some _ =>
        if outlen s <? u32 (outcnt s + len) then ret (Some 1) else
        copy_back (Z.to_nat len) dist ;;
        ret None
    | None => upd (set_outcnt (u32 (outcnt s + len))) ;; ret None
    end.

Fixpoint codes_loop (fuel : nat) (lencode distcode : huffman) : M Z :=
  match fuel with
  | O => stuck
  | S fuel =>
      r <- codes_step lencode distcode ;;
      match r with
      | Some err => ret err
      | None => codes_loop fuel lencode distcode
      end
  end.

(** More than the number of bits there are. *)
Definition enough (s : state) : nat := S (8 * length (in_ s) + 8).

Definition codes (lencode distcode : huffman) : M Z :=
  s <- get ;;
  codes_loop (enough s) lencode distcode.

(** ** [fixed] *)

Definition fixed_lengths : list Z :=
  replicate 144 8 ++ replicate 112 9 ++ replicate 24 7 ++ replicate 8 8.
Definition fixed_distances : list Z :=
  replicate 30 5 ++ drop 30 fixed_lengths.

(** What the first call leaves in the static tables, which no call changes again. *)
Definition fixed_tables : option (huffman * huffman) :=
  '(_, lencode) ← construct (Huffman [] (replicate 288 0)) fixed_lengths FIXLCODES;
  '(_, distcode) ← construct (Huffman [] (replicate 30 0)) fixed_distances MAXDCODES;
  Some (lencode, distcode).

Definition fixed : M Z :=
  let! (lencode, distcode) := lift fixed_tables in
  codes lencode distcode.

(** ** [dynamic] *)

Definition order : list Z :=
  [16; 17; 18; 0; 8; 7; 9; 6; 10; 5; 11; 4; 12; 3; 13; 2; 14; 1; 15].

(** The arrays on the stack, with what they happen to hold. *)
Context (lengths0 lensym0 distsym0 : list Z).

(** The code lengths of the code lengths: [ncode] are read, the others are 0. *)
Fixpoint read_order (index : list Z) (ncode : Z) (lengths : list Z) : M (list Z) :=
  match index with
  | [] => ret lengths
  | i :: index =>
      v <- (if 0 <? ncode then bits 3 else ret 0) ;;
      lengths <- lift (aset lengths i v) ;;
      read_order index (ncode - 1) lengths
  end.

(** [while (symbol--) lengths[index++] = len;] *)
Fixpoint fill (n : nat) (index len : Z) (lengths : list Z) : option (list Z) :=
  match n with
  | O => Some lengths
  | S n => lengths ← aset lengths index len; fill n (index + 1) len lengths
  end.

(** The code lengths; [inl] is a return. *)
Fixpoint read_lengths (fuel : nat) (lencode : huffman) (total index : Z) (lengths : list Z)
  : M (Z + list Z) :=
  match fuel with
  | O => stuck
  | S fuel =>
      if negb (index <? total) then ret (inr lengths) else
      symbol <- decode slow lencode ;;
      if symbol <? 0 then ret (inl symbol) else
      if symbol <? 16 then
        lengths <- lift (aset lengths index symbol) ;;
        read_lengths fuel lencode total (index + 1) lengths
      else if (symbol =? 16) && (index =? 0) then ret (inl (-5))
      else
        len <- (if symbol =? 16 then lift (aget lengths (index - 1)) else ret 0) ;;
        n <- (if symbol =? 16 then b <- bits 2 ;; ret (3 + b)
              else if symbol =? 17 then b <- bits 3 ;; ret (3 + b)
              else b <- bits 7 ;; ret (11 + b)) ;;
        if total <? index + n then ret (inl (-6)) else
        lengths <- lift (fill (Z.to_nat n) index len lengths) ;;
        read_lengths fuel lencode total (index + n) lengths
  end.

(** [err && (err < 0 || n != h.count[0] + h.count[1])] *)
Definition bad_code (err n : Z) (h : huffman) : option bool :=
  if err =? 0 then Some false else
  if err <? 0 then Some true else
  c0 ← aget (hcount h) 0;
  c1 ← aget (hcount h) 1;
  Some (negb (n =? c0 + c1)).

Definition dynamic : M Z :=
  nlen <- bits 5 ;;
  let nlen := nlen + 257 in
  ndist <- bits 5 ;;
  let ndist := ndist + 1 in
  ncode <- bits 4 ;;
  let ncode := ncode + 4 in
  if (MAXLCODES <? nlen) || (MAXDCODES <? ndist) then ret (-3) else
  lengths <- read_order order ncode lengths0 ;;
  let! (err, lencode) := lift (construct (Huffman [] lensym0) lengths 19) in
  if negb (err =? 0) then ret (-4) else
  r <- read_lengths (S (Z.to_nat MAXCODES)) lencode (nlen + ndist) 0 lengths ;;
  match r with
  | inl err => ret err
  | inr lengths =>
      eob <- lift (aget lengths 256) ;;
      if eob =? 0 then ret (-9) else
      let! (err, lencode) := lift (construct lencode lengths nlen) in
      bad <- lift (bad_code err nlen lencode) ;;
      if (bad : bool) then ret (-7) else
      let! (err, distcode) := lift (construct (Huffman [] distsym0) (drop (Z.to_nat nlen) lengths) ndist) in
      bad <- lift (bad_code err ndist distcode) ;;
      if (bad : bool) then ret (-8) else
      codes lencode distcode
  end.

(** ** [puff] *)

(** One block: whether it is the last one, and the error. *)
Definition block : M (bool * Z) :=
  last <- bits 1 ;;
  type <- bits 2 ;;
  err <- (if type =? 0 then stored else if type =? 1 then fixed
          else if type =? 2 then dynamic else ret (-1)) ;;
  ret (negb (last =? 0), err).

Fixpoint blocks (fuel : nat) : M Z :=
  match fuel with
  | O => stuck
  | S fuel =>
      let! (last, err) := block in
      if negb (err =? 0) then ret err
      else if (last : bool) then ret 0
      else blocks fuel
  end.

(** The result, with [dest], [*destlen] and [*sourcelen] as they are left. *)
Definition puff (dest : option (list char)) (destlen : Z) (source : list char) (sourcelen : Z)
  : option (Z * option (list char) * Z * Z) :=
  let s := State dest destlen 0 source sourcelen 0 0 0 in
  let finish err s :=
    if err <=? 0 then Some (err, out s, outcnt s, incnt s)
    else Some (err, out s, destlen, sourcelen) in
  match blocks (enough s) s with
  | Ret err s' => finish err s'
  | Longjmp s' => finish 2 s'
  | Stuck => None
  end.
End Decoder.

(** ** Examples *)

Definition junk : list Z := replicate 316 7.
Definition of_bytes (l : list Z) : list char := map byte l.

(** 'hello hello hello' in one fixed block. *)
Definition ex_hello : list char :=
  of_bytes [203; 72; 205; 201; 201; 87; 200; 64; 144; 0].

Example puff_hello :
  puff false junk junk junk (Some (replicate 17 "."%char)) 17 ex_hello 10
  = Some (0, Some (chars "hello hello hello"), 17, 10).
Proof. vm_compute. reflexivity. Qed.

(** 150 characters in one dynamic block, with both decoders. *)
Definition ex_dynamic : list char :=
  of_bytes [37; 141; 73; 1; 192; 64; 12; 2; 173; 196; 26; 3; 254; 53; 116; 161; 175; 112; 5; 68; 108; 73;
    24; 208; 67; 232; 82; 106; 249; 113; 151; 171; 126; 47; 82; 133; 69; 53; 80; 51; 199; 209; 151; 212; 62;
    155; 151; 204; 45; 114; 132; 71; 180; 170; 254; 83; 191; 112; 107; 108; 106; 189; 169; 130; 254; 141; 15].

Definition ex_plain : string :=
  "abdccaaabcbbbacaaba daabccacbaccaba aaaabba abaacabacbbbaaabacba aad b baabcdaaca ccb abd baaab bdbabdabaccaabaab ccbcaabbbacabdaabcabaacdbbbabaabaaca".

Example puff_dynamic :
  puff false junk junk junk (Some (replicate 150 "."%char)) 150 ex_dynamic 67
    = Some (0, Some (chars ex_plain), 150, 67) /\
  puff true junk junk junk (Some (replicate 150 "."%char)) 150 ex_dynamic 67
    = Some (0, Some (chars ex_plain), 150, 67).
Proof. vm_compute. split; reflexivity. Qed.
