(* ===== verification/PuffTables.v ===== *)
(** * The tables of [puff.c]: [construct] and the canonical code

    [construct] against its specification: the counts are the tallies of the
    lengths, the symbols are sorted by length and then by value, and the result
    tells a complete code from the others by the Kraft sum. *)

From stdpp Require Import list.
From S2P Require Import Prelude CLib Puff.

(** ** Arrays *)

Lemma aget_nat {A} (a : list A) (i : nat) : aget a (Z.of_nat i) = a !! i.
Proof. unfold aget. destruct (Z.ltb_spec (Z.of_nat i) 0); [lia|]. by rewrite Nat2Z.id. Qed.

Lemma aget_Z {A} (a : list A) i : 0 <= i -> aget a i = a !! Z.to_nat i.
Proof. intros Hi. unfold aget. destruct (Z.ltb_spec i 0); [lia|done]. Qed.

Lemma aset_nat {A} (a : list A) (i : nat) x : (i < length a)%nat -> aset a (Z.of_nat i) x = Some (<[i := x]> a).
Proof.
  intros Hi. unfold aset. rewrite aget_nat. destruct (lookup_lt_is_Some_2 a i Hi) as [y ->].
  cbn. by rewrite Nat2Z.id.
Qed.

Lemma ofold_app {A B} (f : A -> B -> option A) a l l' : ofold f a (l ++ l') = (a' ← ofold f a l; ofold f a' l').
Proof. revert a. induction l as [|b l IH]; intros a; [done|]. cbn. destruct (f a b); [apply IH|done]. Qed.

Lemma range_S n : range 0 (Z.of_nat (S n)) = range 0 (Z.of_nat n) ++ [Z.of_nat n].
Proof. unfold range. rewrite !Nat2Z.id, seq_S, map_app. done. Qed.

(** ** Specification *)

(** How often [l] is in the list. *)
Definition occurs (l : Z) (ls : list Z) : nat := length (List.filter (Z.eqb l) ls).

(** [count[]] *)
Definition tally (ls : list Z) : list Z := map (fun l => Z.of_nat (occurs (Z.of_nat l) ls)) (seq 0 16).

(** The symbols, from [i] on, whose length is [l]. *)
Fixpoint syms (i : Z) (l : Z) (ls : list Z) : list Z :=
  match ls with
  | [] => []
  | x :: ls => if x =? l then i :: syms (i + 1) l ls else syms (i + 1) l ls
  end.

(** The symbols sorted by length, then by value; those of length 0 left out. *)
Definition sorted_symbols (ls : list Z) : list Z :=
  concat (map (fun l => syms 0 (Z.of_nat l) ls) (seq 1 15)).

(** The Kraft sum, in units of the longest codes. *)
Definition kraft (ls : list Z) : Z :=
  fold_right (fun l k => (if l =? 0 then 0 else 2 ^ (MAXBITS - l)) + k) 0 ls.

Definition code_lengths (ls : list Z) : Prop := Forall (fun l => 0 <= l <= MAXBITS) ls.

(** ** The counts *)

Lemma occurs_snoc l ls x : occurs l (ls ++ [x]) = (occurs l ls + if Z.eqb l x then 1 else 0)%nat.
Proof. unfold occurs. rewrite List.filter_app, length_app. cbn. by destruct (l =? x). Qed.

Lemma tally_lookup ls l : (l < 16)%nat -> tally ls !! l = Some (Z.of_nat (occurs (Z.of_nat l) ls)).
Proof. intros Hl. unfold tally. rewrite list_lookup_fmap, lookup_seq_lt by done. done. Qed.

Lemma tally_snoc ls x (n : nat) :
  x = Z.of_nat n -> (n < 16)%nat ->
  tally (ls ++ [x]) = <[n := Z.of_nat (occurs x ls) + 1]> (tally ls).
Proof.
  intros -> Hn. apply list_eq. intros i. destruct (Nat.lt_ge_cases i 16) as [Hi|Hi].
  - rewrite tally_lookup by done. destruct (decide (i = n)) as [->|Hne].
    + rewrite list_lookup_insert_eq by done. rewrite occurs_snoc, Z.eqb_refl. f_equal. lia.
    + rewrite list_lookup_insert_ne, tally_lookup, occurs_snoc by done.
      destruct (Z.eqb_spec (Z.of_nat i) (Z.of_nat n)); [lia|]. f_equal. lia.
  - by rewrite !lookup_ge_None_2 by (rewrite ?length_insert; exact Hi).
Qed.

Lemma take_snoc {A} (ls : list A) n x : ls !! n = Some x -> take (S n) ls = take n ls ++ [x].
Proof. apply take_S_r. Qed.

Lemma code_length_nat x : 0 <= x <= MAXBITS -> exists n, x = Z.of_nat n /\ (n < 16)%nat.
Proof. intros Hx. exists (Z.to_nat x). unfold MAXBITS in *. lia. Qed.

Lemma code_lengths_at ls k x : code_lengths ls -> ls !! k = Some x -> 0 <= x <= MAXBITS.
Proof. intros H Hx. by apply (Forall_lookup_1 _ _ _ _ H Hx). Qed.

Lemma count_lengths_spec ls (k : nat) :
  (k <= length ls)%nat -> code_lengths (take k ls) -> count_lengths ls (Z.of_nat k) = Some (tally (take k ls)).
Proof.
  unfold count_lengths. induction k as [|k IH]; intros Hk Hls; [done|].
  destruct (lookup_lt_is_Some_2 ls k) as [x Hx]; [lia|].
  rewrite range_S, ofold_app. rewrite (take_snoc _ _ _ Hx) in *.
  apply Forall_app in Hls as [Hls Hx']. rewrite IH by (done || lia). cbn [mbind option_bind ofold].
  rewrite aget_nat, Hx. cbn [mbind option_bind]. apply Forall_cons in Hx' as [Hx' _].
  destruct (code_length_nat x Hx') as (n & -> & Hn). rewrite aget_nat, tally_lookup by done.
  cbn [mbind option_bind]. rewrite aset_nat by done. by rewrite (tally_snoc _ _ n).
Qed.

(** ** The codes left *)

Lemma occurs_cons l x ls : occurs l (x :: ls) = ((if Z.eqb l x then 1 else 0) + occurs l ls)%nat.
Proof. unfold occurs. cbn. by destruct (l =? x). Qed.

(** A weighted count, over the lengths in [L]. *)
Definition weigh (w : Z -> Z) (L ls : list Z) : Z :=
  fold_right Z.add 0 (map (fun l => Z.of_nat (occurs l ls) * w l) L).

Lemma weigh_cons w L x ls : weigh w L (x :: ls) = Z.of_nat (occurs x L) * w x + weigh w L ls.
Proof.
  induction L as [|l L IH]; [done|]. cbn [weigh map fold_right] in *. fold (weigh w L ls) (weigh w L (x :: ls)).
  rewrite IH, !occurs_cons. rewrite (Z.eqb_sym x l). destruct (Z.eqb_spec l x) as [->|]; lia.
Qed.

Lemma weigh_nil w L : weigh w L [] = 0.
Proof. induction L as [|l L IH]; [done|]. exact IH. Qed.

(** Every code length but 0 is one of 1, ..., 15. *)
Lemma occurs_range x : 0 <= x <= MAXBITS -> occurs x (range 1 MAXBITS) = if Z.eqb x 0 then 0%nat else 1%nat.
Proof.
  intros Hx. destruct (code_length_nat x Hx) as (n & -> & Hn).
  do 16 (destruct n as [|n]; [reflexivity|]). lia.
Qed.

Definition kraft_weight (l : Z) : Z := 2 ^ (MAXBITS - l).

Lemma kraft_tally ls : code_lengths ls -> kraft ls = weigh kraft_weight (range 1 MAXBITS) ls.
Proof.
  induction 1 as [|x ls Hx Hls IH]; [by rewrite weigh_nil|]. rewrite weigh_cons, <- IH, (occurs_range x Hx).
  cbn [kraft fold_right]. fold (kraft ls). unfold kraft_weight. destruct (Z.eqb_spec x 0); lia.
Qed.

Lemma kraft_nonneg ls : 0 <= kraft ls.
Proof.
  induction ls as [|x ls IH]; [done|]. cbn. fold (kraft ls). destruct (x =? 0); [lia|].
  pose proof (Z.pow_nonneg 2 (MAXBITS - x)). lia.
Qed.

Lemma range_cons (n k : nat) :
  range (Z.of_nat n) (Z.of_nat (S k)) = Z.of_nat n :: range (Z.of_nat (S n)) (Z.of_nat k).
Proof.
  unfold range. rewrite !Nat2Z.id. cbn [seq map]. f_equal; [lia|].
  rewrite <- seq_shift, List.map_map. apply map_ext. lia.
Qed.

Lemma weigh_nonneg w L ls : (forall l, 0 <= w l) -> 0 <= weigh w L ls.
Proof.
  intros Hw. induction L as [|l L IH]; [done|]. cbn. fold (weigh w L ls). pose proof (Hw l). nia.
Qed.

Lemma kraft_weight_nonneg l : 0 <= kraft_weight l.
Proof. by apply Z.pow_nonneg. Qed.

Lemma codes_left_from ls (k n : nat) left :
  (n + k = 16)%nat -> 0 <= left ->
  let rest := weigh kraft_weight (range (Z.of_nat n) (Z.of_nat k)) ls in
  exists r, codes_left (tally ls) (range (Z.of_nat n) (Z.of_nat k)) left = Some r /\
    (r < 0 <-> left * 2 ^ Z.of_nat k < rest) /\ (0 <= r -> r = left * 2 ^ Z.of_nat k - rest).
Proof.
  revert n left. induction k as [|k IH]; intros n left Hn Hl rest; subst rest.
  - exists left. split; [done|]. change (weigh _ _ _) with 0. change (2 ^ _) with 1. lia.
  - rewrite range_cons. cbn [codes_left]. rewrite aget_nat, tally_lookup by lia. cbn [mbind option_bind].
    rewrite Z.shiftl_mul_pow2 by lia. cbn [weigh map fold_right]. fold (weigh kraft_weight (range (Z.of_nat (S n)) (Z.of_nat k)) ls).
    set (c := Z.of_nat (occurs (Z.of_nat n) ls)).
    assert (Ew : kraft_weight (Z.of_nat n) = 2 ^ Z.of_nat k) by (unfold kraft_weight, MAXBITS; f_equal; lia).
    rewrite Ew. replace (Z.of_nat (S k)) with (Z.of_nat k + 1) by lia. rewrite Z.pow_add_r by lia.
    pose proof (Z.pow_pos_nonneg 2 (Z.of_nat k)).
    pose proof (weigh_nonneg kraft_weight (range (Z.of_nat (S n)) (Z.of_nat k)) ls kraft_weight_nonneg).
    destruct (Z.ltb_spec (left * 2 ^ 1 - c) 0) as [Hneg|Hpos].
    + exists (left * 2 ^ 1 - c). split; [done|]. split; [split; [intros _|lia]|lia]. nia.
    + destruct (IH (S n) (left * 2 ^ 1 - c)) as (r & E & Hr & Hr'); [lia|lia|].
      exists r. split; [done|]. split; [rewrite Hr|intros Hge; rewrite (Hr' Hge)]; nia.
Qed.

(** What [codes_left] returns: the codes that are missing, or something negative. *)
Lemma codes_left_spec ls :
  code_lengths ls -> exists left, codes_left (tally ls) (range 1 MAXBITS) 1 = Some left /\
    (left < 0 <-> 2 ^ MAXBITS < kraft ls) /\ (0 <= left -> left = 2 ^ MAXBITS - kraft ls).
Proof.
  intros Hls. rewrite (kraft_tally _ Hls).
  destruct (codes_left_from ls 15 1 1) as (r & E & Hr); [done|done|]. exists r. split; [exact E|].
  rewrite Z.mul_1_l in Hr. exact Hr.
Qed.

(** ** The offsets *)

(** How many codes are shorter. *)
Definition base (ls : list Z) (l : nat) : nat :=
  list_sum (map (fun j => occurs (Z.of_nat j) ls) (seq 1 (l - 1))).

Lemma base_S ls l : (1 <= l)%nat -> base ls (S l) = (base ls l + occurs (Z.of_nat l) ls)%nat.
Proof.
  intros Hl. unfold base. replace (S l - 1)%nat with (S (l - 1)) by lia.
  rewrite seq_S, map_app, list_sum_app. cbn. replace (S (l - 1)) with l by lia. lia.
Qed.

Lemma base_mono ls l l' : (1 <= l)%nat -> (l < l')%nat -> (base ls l + occurs (Z.of_nat l) ls <= base ls l')%nat.
Proof.
  intros Hl. induction 1 as [|l' Hlt IH]; [rewrite base_S by done; done|].
  rewrite base_S by lia. lia.
Qed.

Lemma offsets_from ls (k : nat) :
  (k <= 14)%nat ->
  exists offs, ofold (fun offs len => o ← aget offs len; c ← aget (tally ls) len; aset offs (len + 1) (o + c))
      (replicate 16 0) (range 1 (Z.of_nat k)) = Some offs /\ length offs = 16%nat /\
    forall l, (1 <= l <= S k)%nat -> offs !! l = Some (Z.of_nat (base ls l)).
Proof.
  induction k as [|k IH]; intros Hk.
  - exists (replicate 16 0). split; [done|]. split; [done|]. intros l Hl. by replace l with 1%nat by lia.
  - destruct IH as (offs & E & Hlen & Ho); [lia|].
    assert (Er : range 1 (Z.of_nat (S k)) = range 1 (Z.of_nat k) ++ [Z.of_nat (S k)]).
    { unfold range. rewrite !Nat2Z.id, seq_S, map_app. cbn. do 2 f_equal. lia. }
    rewrite Er, ofold_app, E. cbn [mbind option_bind ofold].
    rewrite !aget_nat, (Ho (S k)), tally_lookup by lia. cbn [mbind option_bind].
    replace (Z.of_nat (S k) + 1) with (Z.of_nat (S (S k))) by lia. rewrite aset_nat by lia.
    cbn [mbind option_bind]. eexists. split; [done|]. split; [by rewrite length_insert|].
    intros l Hl. destruct (decide (l = S (S k))) as [->|Hne].
    + rewrite list_lookup_insert_eq by lia. rewrite (base_S ls (S k)) by lia. f_equal. lia.
    + rewrite list_lookup_insert_ne by done. apply Ho. lia.
Qed.

Lemma offsets_spec ls :
  exists offs, offsets (tally ls) = Some offs /\ length offs = 16%nat /\
    forall l, (1 <= l <= 15)%nat -> offs !! l = Some (Z.of_nat (base ls l)).
Proof. apply (offsets_from ls 14). lia. Qed.

(** ** The symbols *)

Lemma syms_snoc i l ls x : syms i l (ls ++ [x]) = syms i l ls ++ (if Z.eqb x l then [i + Z.of_nat (length ls)] else []).
Proof.
  revert i. induction ls as [|y ls IH]; intros i; cbn [syms app length].
  - rewrite Z.add_0_r. by destruct (x =? l).
  - rewrite IH. replace (i + 1 + Z.of_nat (length ls)) with (i + Z.of_nat (S (length ls))) by lia.
    by destruct (y =? l).
Qed.

Lemma length_syms i l ls : length (syms i l ls) = occurs l ls.
Proof.
  revert i. induction ls as [|x ls IH]; intros i; [done|]. rewrite occurs_cons. cbn [syms].
  rewrite (Z.eqb_sym x l). destruct (l =? x); cbn [length]; by rewrite IH.
Qed.

Lemma occurs_take l ls k : (occurs l (take k ls) <= occurs l ls)%nat.
Proof.
  rewrite <- (take_drop k ls) at 2. unfold occurs. rewrite List.filter_app, length_app. lia.
Qed.

Lemma base_cons x ls l : (1 <= l)%nat ->
  base (x :: ls) l = (base ls l + if bool_decide (1 <= x < Z.of_nat l)%Z then 1 else 0)%nat.
Proof.
  intros Hl. induction Hl as [|l Hl IH]; [by rewrite bool_decide_eq_false_2 by lia|].
  rewrite !base_S, IH, occurs_cons by done.
  destruct (Z.eqb_spec (Z.of_nat l) x); repeat case_bool_decide; lia.
Qed.

Lemma base_total ls : code_lengths ls -> (base ls 16 + occurs 0 ls = length ls)%nat.
Proof.
  induction 1 as [|x ls Hx Hls IH]; [done|]. rewrite base_cons, occurs_cons by lia. cbn [length].
  unfold MAXBITS in Hx. destruct (Z.eqb_spec 0 x); case_bool_decide; lia.
Qed.

(** After the first [k] symbols were placed. *)
Record placed (ls mem : list Z) (k : nat) (offs mem' : list Z) : Prop := {
  pl_offs_length : length offs = 16%nat;
  pl_length : length mem' = length mem;
  pl_offs l : (1 <= l <= 15)%nat ->
    offs !! l = Some (Z.of_nat (base ls l + occurs (Z.of_nat l) (take k ls)));
  pl_syms l j : (1 <= l <= 15)%nat -> (j < occurs (Z.of_nat l) (take k ls))%nat ->
    mem' !! (base ls l + j)%nat = syms 0 (Z.of_nat l) (take k ls) !! j;
  pl_rest i : (base ls 16 <= i)%nat -> mem' !! i = mem !! i
}.

Lemma placed_skip ls mem k offs mem' x :
  placed ls mem k offs mem' -> ls !! k = Some x -> x = 0 -> placed ls mem (S k) offs mem'.
Proof.
  intros [] Hx ->.
  assert (E : forall l, (1 <= l)%nat -> occurs (Z.of_nat l) (take (S k) ls) = occurs (Z.of_nat l) (take k ls) /\
      syms 0 (Z.of_nat l) (take (S k) ls) = syms 0 (Z.of_nat l) (take k ls)).
  { intros l Hl. rewrite (take_snoc _ _ _ Hx), occurs_snoc, syms_snoc.
    destruct (Z.eqb_spec (Z.of_nat l) 0); [lia|]. destruct (Z.eqb_spec 0 (Z.of_nat l)); [lia|].
    rewrite app_nil_r. split; [lia|done]. }
  split; try done.
  - intros l Hl. rewrite (proj1 (E l ltac:(lia))). by apply pl_offs0.
  - intros l j Hl. rewrite (proj1 (E l ltac:(lia))), (proj2 (E l ltac:(lia))). by apply pl_syms0.
Qed.

Lemma occurs_next ls k m : ls !! k = Some (Z.of_nat m) ->
  (occurs (Z.of_nat m) (take k ls) < occurs (Z.of_nat m) ls)%nat.
Proof.
  intros Hx. pose proof (occurs_take (Z.of_nat m) ls (S k)) as H.
  rewrite (take_snoc _ _ _ Hx), occurs_snoc, Z.eqb_refl in H. lia.
Qed.

(** Where a symbol goes is inside the codes of its length. *)
Lemma place_bound ls k m : ls !! k = Some (Z.of_nat m) -> (1 <= m <= 15)%nat ->
  (base ls m + occurs (Z.of_nat m) (take k ls) < base ls 16)%nat.
Proof.
  intros Hx Hm. pose proof (occurs_next _ _ _ Hx). pose proof (base_mono ls m 16). lia.
Qed.

(** Two places of different lengths are different. *)
Lemma places_differ ls l m j i : (1 <= l)%nat -> (1 <= m)%nat -> l <> m ->
  (j < occurs (Z.of_nat l) ls)%nat -> (i < occurs (Z.of_nat m) ls)%nat ->
  (base ls l + j)%nat <> (base ls m + i)%nat.
Proof.
  intros Hl Hm Hne Hj Hi. destruct (Nat.lt_gt_cases l m) as [[Hlt|Hlt] _]; [done|..].
  - pose proof (base_mono ls l m Hl Hlt). lia.
  - pose proof (base_mono ls m l Hm Hlt). lia.
Qed.

Lemma placed_step ls mem k offs mem' m :
  placed ls mem k offs mem' -> ls !! k = Some (Z.of_nat m) -> (1 <= m <= 15)%nat ->
  (base ls 16 <= length mem)%nat ->
  let o := (base ls m + occurs (Z.of_nat m) (take k ls))%nat in
  placed ls mem (S k) (<[m := Z.of_nat o + 1]> offs) (<[o := Z.of_nat k]> mem').
Proof.
  intros [Hol Hml Ho Hs Hr] Hx Hm Hmem o. pose proof (place_bound _ _ _ Hx Hm) as Hb. fold o in Hb.
  pose proof (occurs_next _ _ _ Hx) as Hocc. pose proof (lookup_lt_Some _ _ _ Hx) as Hk.
  split; rewrite ?length_insert; try done.
  - intros l Hl. rewrite (take_snoc _ _ _ Hx), occurs_snoc.
    destruct (decide (l = m)) as [->|Hne].
    + rewrite list_lookup_insert_eq, Z.eqb_refl by lia. f_equal. subst o. lia.
    + rewrite list_lookup_insert_ne, Ho by done. destruct (Z.eqb_spec (Z.of_nat l) (Z.of_nat m)); [lia|].
      f_equal. lia.
  - intros l j Hl. rewrite (take_snoc _ _ _ Hx), occurs_snoc, syms_snoc, length_take_le by lia.
    rewrite (Z.eqb_sym (Z.of_nat m)). pose proof (length_syms 0 (Z.of_nat l) (take k ls)) as Hlen.
    destruct (Z.eqb_spec (Z.of_nat l) (Z.of_nat m)) as [E|E]; intros Hj.
    + apply Nat2Z.inj in E as ->. destruct (decide (j = occurs (Z.of_nat m) (take k ls))) as [->|Hne].
      * fold o. rewrite list_lookup_insert_eq by lia. by rewrite lookup_app_r, Hlen, Nat.sub_diag by lia.
      * rewrite list_lookup_insert_ne by (subst o; lia). rewrite Hs by lia. by rewrite lookup_app_l by lia.
    + rewrite app_nil_r. rewrite list_lookup_insert_ne; [apply Hs; lia|]. apply not_eq_sym.
      pose proof (occurs_take (Z.of_nat l) ls k). apply places_differ; lia.
  - intros i Hi. rewrite list_lookup_insert_ne by lia. by apply Hr.
Qed.

Lemma sort_symbols_placed a ls mem offs (k : nat) :
  code_lengths ls -> (length ls <= length mem)%nat ->
  (forall i, (i < length ls)%nat -> a !! i = ls !! i) ->
  placed ls mem 0 offs mem -> (k <= length ls)%nat ->
  exists offs' mem', sort_symbols a (Z.of_nat k) offs mem = Some (offs', mem') /\ placed ls mem k offs' mem'.
Proof.
  intros Hls Hmem Ha H0. unfold sort_symbols. induction k as [|k IH]; intros Hk; [by exists offs, mem|].
  destruct IH as (offs' & mem' & E & Hp); [lia|]. rewrite range_S, ofold_app, E. cbn [mbind option_bind ofold].
  destruct (lookup_lt_is_Some_2 ls k) as [x Hx]; [lia|]. rewrite aget_nat, Ha, Hx by lia. cbn [mbind option_bind].
  destruct (Z.eqb_spec x 0) as [Ez|Ez]; [do 2 eexists; split; [done|by eapply placed_skip]|].
  destruct (code_length_nat x) as (m & -> & Hm); [by eapply code_lengths_at|].
  pose proof (base_total ls Hls). pose proof (place_bound ls k m Hx) as Hb.
  rewrite aget_nat, (pl_offs _ _ _ _ _ Hp) by lia. cbn [mbind option_bind].
  pose proof (pl_length _ _ _ _ _ Hp). pose proof (pl_offs_length _ _ _ _ _ Hp).
  rewrite !aset_nat by lia. cbn [mbind option_bind].
  do 2 eexists. split; [done|]. apply placed_step; [done|done|lia|lia].
Qed.

(** ** [construct] *)

(** A list that holds given blocks one after the other. *)
Lemma blocks_at {A} (bs : list (list A)) (mem : list A) :
  (forall i b j, bs !! i = Some b -> (j < length b)%nat ->
     mem !! (list_sum (map length (take i bs)) + j)%nat = b !! j) ->
  take (length (concat bs)) mem = concat bs.
Proof.
  revert mem. induction bs as [|b bs IH]; intros mem Hb; [done|]. cbn [concat]. rewrite length_app.
  assert (E : take (length b) mem = b).
  { apply list_eq. intros j. destruct (Nat.lt_ge_cases j (length b)) as [Hj|Hj].
    - rewrite lookup_take_lt by done. exact (Hb 0%nat b j eq_refl Hj).
    - rewrite lookup_take_ge by done. by rewrite lookup_ge_None_2. }
  rewrite <- take_take_drop, E. f_equal. apply IH. intros i c j Hi Hj. rewrite lookup_drop.
  rewrite <- (Hb (S i) c j Hi Hj). cbn. fold (list_sum (map length (take i bs))). f_equal. lia.
Qed.

Lemma sorted_length ls : length (sorted_symbols ls) = base ls 16.
Proof.
  unfold sorted_symbols, base. change (16 - 1)%nat with 15%nat. induction (seq 1 15) as [|l L IH]; [done|].
  cbn. by rewrite length_app, length_syms, IH.
Qed.

Lemma blocks_before ls i : (i <= 15)%nat ->
  list_sum (map length (take i (map (fun l => syms 0 (Z.of_nat l) ls) (seq 1 15)))) = base ls (S i).
Proof.
  intros Hi. unfold base. replace (S i - 1)%nat with i by lia.
  rewrite List.firstn_map, take_seq, Nat.min_l, List.map_map by lia. f_equal. apply map_ext. intros l. apply length_syms.
Qed.

(** All symbols placed: the table is sorted. *)
Lemma placed_all ls mem offs mem' :
  placed ls mem (length ls) offs mem' ->
  mem' = sorted_symbols ls ++ drop (length (sorted_symbols ls)) mem.
Proof.
  intros Hp. rewrite <- (take_drop (length (sorted_symbols ls)) mem'). f_equal.
  - apply blocks_at. intros i b j Hi Hj. rewrite list_lookup_fmap in Hi.
    destruct (Nat.lt_ge_cases i 15) as [Hlt|Hge]; [|by rewrite lookup_seq_ge in Hi].
    rewrite lookup_seq_lt in Hi by done. cbn in Hi. injection Hi as <-.
    rewrite blocks_before by lia. rewrite length_syms in Hj.
    pose proof (pl_syms _ _ _ _ _ Hp (S i) j) as H. rewrite take_ge in H by done. apply H; [lia|done].
  - apply list_eq. intros i. rewrite !lookup_drop. apply (pl_rest _ _ _ _ _ Hp). rewrite sorted_length. lia.
Qed.

(** The specification of [construct]: the tables and the result. *)
Record constructed (h : huffman) (ls : list Z) (err : Z) (h' : huffman) : Prop := {
  co_count : hcount h' = tally ls;
  co_empty : occurs 0 ls = length ls -> err = 0;
  co_over : occurs 0 ls <> length ls -> err < 0 <-> 2 ^ MAXBITS < kraft ls;
  co_left : occurs 0 ls <> length ls -> 0 <= err -> err = 2 ^ MAXBITS - kraft ls;
  co_symbol : 0 <= err -> hsymbol h' = sorted_symbols ls ++ drop (length (sorted_symbols ls)) (hsymbol h);
  co_length : length (hsymbol h') = length (hsymbol h)
}.

Lemma no_codes ls : code_lengths ls -> occurs 0 ls = length ls -> sorted_symbols ls = [].
Proof. intros Hls H. apply length_zero_iff_nil. rewrite sorted_length. pose proof (base_total ls Hls). lia. Qed.

Lemma wp_construct h a (n : nat) :
  (n <= length a)%nat -> (n <= length (hsymbol h))%nat -> code_lengths (take n a) ->
  exists err h', construct h a (Z.of_nat n) = Some (err, h') /\ constructed h (take n a) err h'.
Proof.
  intros Hn Hmem Hls. set (ls := take n a) in *.
  assert (Hlen : length ls = n) by (subst ls; rewrite length_take; lia).
  unfold construct. rewrite count_lengths_spec by done. fold ls. cbn [mbind option_bind].
  change 0 with (Z.of_nat 0). rewrite aget_nat, tally_lookup by lia. cbn [mbind option_bind]. change (Z.of_nat 0) with 0.
  destruct (Z.eqb_spec (Z.of_nat (occurs 0 ls)) (Z.of_nat n)) as [E|E].
  - do 2 eexists. split; [done|]. assert (E' : occurs 0 ls = length ls) by lia.
    split; cbn [hcount hsymbol]; try done. intros _. by rewrite (no_codes ls Hls E').
  - destruct (codes_left_spec ls Hls) as (left & -> & Hneg & Hpos). cbn [mbind option_bind].
    destruct (Z.ltb_spec left 0).
    + do 2 eexists. split; [done|]. split; cbn [hcount hsymbol]; try done; lia.
    + destruct (offsets_spec ls) as (offs & -> & Hol & Ho). cbn [mbind option_bind].
      destruct (sort_symbols_placed a ls (hsymbol h) offs n) as (offs' & mem' & -> & Hp); try done; try lia.
      * intros i Hi. subst ls. rewrite lookup_take_lt by lia. done.
      * split; try done;
          [|intros l j _ Hj; change (occurs _ (take 0 ls)) with 0%nat in Hj; lia].
        intros l Hl. rewrite Ho by done. change (occurs _ (take 0 ls)) with 0%nat. by rewrite Nat.add_0_r.
      * cbn [mbind option_bind]. do 2 eexists. split; [done|]. rewrite <- Hlen in Hp.
        split; cbn [hcount hsymbol]; try done; [lia| |apply (pl_length _ _ _ _ _ Hp)].
        intros _. by eapply placed_all.
Qed.

(** ** Tables *)

(** A table [construct] made for the lengths [ls]. *)
Record table (h : huffman) (ls : list Z) : Prop := {
  tb_lengths : code_lengths ls;
  tb_count : hcount h = tally ls;
  tb_symbol : exists rest, hsymbol h = sorted_symbols ls ++ rest
}.

Lemma constructed_table h ls err h' :
  constructed h ls err h' -> code_lengths ls -> 0 <= err -> table h' ls.
Proof. intros Hc Hls Herr. split; [done|apply Hc|]. eexists. by apply (co_symbol _ _ _ _ Hc). Qed.

Lemma table_count h ls (l : nat) : table h ls -> (l < 16)%nat ->
  aget (hcount h) (Z.of_nat l) = Some (Z.of_nat (occurs (Z.of_nat l) ls)).
Proof. intros [_ -> _] Hl. by rewrite aget_nat, tally_lookup. Qed.

Lemma syms_lookup i l ls j s : syms i l ls !! j = Some s -> 
  i <= s < i + Z.of_nat (length ls) /\ ls !! Z.to_nat (s - i) = Some l.
Proof.
  revert i j. induction ls as [|x ls IH]; intros i j Hs; [done|]. cbn [syms] in Hs. cbn [length].
  assert (Hrec : forall k, syms (i + 1) l ls !! k = Some s ->
    i <= s < i + Z.of_nat (S (length ls)) /\ (x :: ls) !! Z.to_nat (s - i) = Some l).
  { intros k Hk. apply IH in Hk as [Hk1 Hk2]. split; [lia|].
    replace (Z.to_nat (s - i)) with (S (Z.to_nat (s - (i + 1)))) by lia. done. }
  destruct (Z.eqb_spec x l) as [->|]; [|by apply (Hrec j)]. destruct j as [|j]; [|by apply (Hrec j)].
  injection Hs as ->. split; [lia|]. by rewrite Z.sub_diag.
Qed.

Lemma sorted_lookup ls (l : nat) j :
  (1 <= l <= 15)%nat -> (j < occurs (Z.of_nat l) ls)%nat ->
  sorted_symbols ls !! (base ls l + j)%nat = syms 0 (Z.of_nat l) ls !! j.
Proof.
  intros Hl Hj. unfold sorted_symbols.
  replace (seq 1 15) with (seq 1 (l - 1) ++ l :: seq (S l) (15 - l)).
  - rewrite map_app, concat_app. cbn [map concat].
    assert (E : length (concat (map (fun l => syms 0 (Z.of_nat l) ls) (seq 1 (l - 1)))) = base ls l).
    { unfold base. induction (seq 1 (l - 1)) as [|m L IH]; [done|]. cbn [map concat].
      rewrite length_app, length_syms, IH. done. }
    rewrite lookup_app_r by lia. rewrite E. replace (_ + _ - _)%nat with j by lia.
    apply lookup_app_l. by rewrite length_syms.
  - replace 15%nat with ((l - 1) + S (15 - l))%nat at 2 by lia. rewrite seq_app. cbn [seq].
    by replace (1 + (l - 1))%nat with l by lia.
Qed.

(** The symbol a code of length [l] stands for. *)
Lemma table_symbol h ls (l j : nat) :
  table h ls -> (1 <= l <= 15)%nat -> (j < occurs (Z.of_nat l) ls)%nat ->
  exists sym, aget (hsymbol h) (Z.of_nat (base ls l + j)) = Some sym /\
    syms 0 (Z.of_nat l) ls !! j = Some sym /\
    0 <= sym < Z.of_nat (length ls) /\ ls !! Z.to_nat sym = Some (Z.of_nat l).
Proof.
  intros [_ _ [rest E]] Hl Hj. rewrite aget_nat, E.
  destruct (lookup_lt_is_Some_2 (syms 0 (Z.of_nat l) ls) j) as [sym Hs]; [by rewrite length_syms|].
  exists sym. rewrite lookup_app_l.
  - rewrite sorted_lookup, Hs by done. split; [done|]. split; [done|].
    apply syms_lookup in Hs as [Hs1 Hs2]. rewrite Z.sub_0_r in Hs2. split; [lia|done].
  - rewrite sorted_length. pose proof (base_mono ls l 16). lia.
Qed.
