(* ===== verification/PuffSafe.v ===== *)
(** * [puff.c]: no access outside the arrays, termination, the two decoders

    A small program logic for the monad of [Puff] and the rules of its operations:
    none leaves an array, every loop ends, and both [decode] functions give the same
    result.  The properties are in [PuffSpec]. *)

From stdpp Require Import list.
From S2P Require Import Prelude CLib Puff PuffTables.

(** ** Bits *)

Lemma land_mask v n : 0 <= n -> Z.land v (Z.shiftl 1 n - 1) = v mod 2 ^ n.
Proof.
  intros Hn. rewrite <- Z.land_ones by done. by rewrite Z.ones_equiv, Z.shiftl_mul_pow2, Z.mul_1_l, Z.sub_1_r by done.
Qed.

(** ** The arrays of [fixed] and [dynamic] *)

Lemma construct_table h a (n : nat) err h' :
  (n <= length a)%nat -> (n <= length (hsymbol h))%nat -> code_lengths (take n a) ->
  construct h a (Z.of_nat n) = Some (err, h') -> 0 <= err -> table h' (take n a).
Proof.
  intros H1 H2 H3 E Herr. destruct (wp_construct h a n H1 H2 H3) as (err' & h'' & E' & Hc).
  rewrite E' in E. injection E as -> ->. by eapply constructed_table.
Qed.

Lemma wp_fixed_tables :
  exists lc dc, fixed_tables = Some (lc, dc) /\ table lc fixed_lengths /\ table dc (replicate 30 5).
Proof.
  unfold fixed_tables.
  destruct (construct (Huffman [] (replicate 288 0)) fixed_lengths FIXLCODES) as [[e1 lc]|] eqn:E1; [|by vm_compute in E1].
  destruct (construct (Huffman [] (replicate 30 0)) fixed_distances MAXDCODES) as [[e2 dc]|] eqn:E2; [|by vm_compute in E2].
  cbn [mbind option_bind]. exists lc, dc. split; [done|].
  assert (He1 : 0 <= e1) by (apply (f_equal (fmap fst)) in E1; vm_compute in E1; injection E1 as <-; done).
  assert (He2 : 0 <= e2) by (apply (f_equal (fmap fst)) in E2; vm_compute in E2; injection E2 as <-; done).
  assert (Hcl : forallb (fun l => (0 <=? l) && (l <=? MAXBITS)) fixed_lengths = true) by (vm_compute; reflexivity).
  assert (Hls : code_lengths fixed_lengths).
  { apply Forall_forall. intros l Hl. rewrite forallb_forall in Hcl. apply list_elem_of_In, Hcl in Hl.
    crush_hyps. lia. }
  split.
  - refine (construct_table (Huffman [] (replicate 288 0)) fixed_lengths 288 e1 lc _ _ _ E1 He1); [vm_compute; lia..|exact Hls].
  - refine (construct_table (Huffman [] (replicate 30 0)) fixed_distances 30 e2 dc _ _ _ E2 He2); [vm_compute; lia..|].
    change (take 30 fixed_distances) with (replicate 30 5). apply Forall_replicate. unfold MAXBITS. lia.
Qed.

Definition small (top v : Z) : Prop := 0 <= v <= top.

(** [a[j]] is there and at most [top]. *)
Definition has (top : Z) (a : list Z) (j : Z) : Prop := exists v, aget a j = Some v /\ small top v.

Lemma has_insert top a i v j :
  0 <= i -> 0 <= j -> (Z.to_nat i < length a)%nat -> small top v -> i = j \/ has top a j ->
  has top (<[Z.to_nat i := v]> a) j.
Proof.
  intros Hi Hj Hlen Hv H. unfold has. rewrite aget_Z by done. destruct (decide (i = j)) as [->|Hne].
  - rewrite list_lookup_insert_eq by done. by exists v.
  - rewrite list_lookup_insert_ne by lia. destruct H as [|(w & Hw & Hs)]; [done|]. exists w.
    by rewrite aget_Z in Hw.
Qed.

Lemma aset_Z {A} (a : list A) i x : 0 <= i -> (Z.to_nat i < length a)%nat -> aset a i x = Some (<[Z.to_nat i := x]> a).
Proof. intros Hi Hl. rewrite <- (Z2Nat.id i) at 1 by done. by apply aset_nat. Qed.

Lemma fill_spec n index len a :
  0 <= index -> (Z.to_nat index + n <= length a)%nat -> small 15 len ->
  (forall j, 0 <= j < index -> has 15 a j) ->
  exists a', fill n index len a = Some a' /\ length a' = length a /\
    forall j, 0 <= j < index + Z.of_nat n -> has 15 a' j.
Proof.
  revert index a. induction n as [|n IH]; intros index a Hi Hl Hlen Ha; cbn [fill].
  { exists a. split; [done|]. split; [done|]. intros j Hj. apply Ha. lia. }
  rewrite aset_Z by lia. cbn [mbind option_bind].
  destruct (IH (index + 1) (<[Z.to_nat index := len]> a)) as (a' & E & E2 & Ha').
  - lia.
  - rewrite length_insert. lia.
  - done.
  - intros j Hj. apply has_insert; try done; [lia|lia|]. destruct (decide (index = j)); [by left|right].
    apply Ha. lia.
  - exists a'. split; [done|]. rewrite length_insert in E2. split; [done|]. intros j Hj. apply Ha'. lia.
Qed.

Lemma has_code_lengths top a (n : nat) (k : nat) :
  top <= MAXBITS -> (forall j, 0 <= j < Z.of_nat (k + n) -> has top a j) -> code_lengths (take n (drop k a)).
Proof.
  intros Htop Ha. apply Forall_lookup. intros i v Hv.
  destruct (Nat.lt_ge_cases i n) as [Hi|Hi]; [|by rewrite lookup_take_ge in Hv].
  rewrite lookup_take_lt, lookup_drop in Hv by done.
  destruct (Ha (Z.of_nat (k + i))) as (w & Hw & Hs); [lia|]. rewrite aget_nat in Hw. rewrite Hv in Hw.
  injection Hw as ->. destruct Hs. lia.
Qed.

Lemma bad_code_spec err n h ls : table h ls \/ err < 0 -> exists b, bad_code err n h = Some b /\ (b = false -> 0 <= err).
Proof.
  intros Ht. unfold bad_code. destruct (Z.eqb_spec err 0); [exists false; split; [done|lia]|].
  destruct (Z.ltb_spec err 0); [by exists true|]. destruct Ht as [Ht|]; [|lia].
  pose proof (table_count h ls 0 Ht ltac:(lia)) as E0. pose proof (table_count h ls 1 Ht ltac:(lia)) as E1.
  change (Z.of_nat 0) with 0 in E0. change (Z.of_nat 1) with 1 in E1. rewrite E0, E1. by eexists.
Qed.

Lemma lor_bit code b : code mod 2 = 0 -> 0 <= b < 2 ^ 1 -> Z.lor code b = code + b.
Proof.
  intros Hc Hb. rewrite (Z.div_mod code 2) at 1 by done. rewrite Hc, Z.add_0_r, (Z.mul_comm 2), Z.lor_comm.
  rewrite <- (Z.shiftl_mul_pow2 _ 1) by done. rewrite (lor_add b _ 1) by lia.
  rewrite (Z.div_mod code 2) at 2 by done. lia.
Qed.

Lemma shift_even z : Z.shiftl z 1 mod 2 = 0.
Proof. rewrite Z.shiftl_mul_pow2 by done. by apply Z.mod_mul. Qed.

(** What the comparison of one length finds. *)
Lemma decode_hit h ls (l : nat) code first :
  table h ls -> (1 <= l <= 15)%nat -> first <= code < first + Z.of_nat (occurs (Z.of_nat l) ls) ->
  exists sym, aget (hsymbol h) (Z.of_nat (base ls l) + (code - first)) = Some sym /\
    syms 0 (Z.of_nat l) ls !! Z.to_nat (code - first) = Some sym /\
    0 <= sym < Z.of_nat (length ls) /\ ls !! Z.to_nat sym = Some (Z.of_nat l).
Proof.
  intros Ht Hl Hc. destruct (table_symbol h ls l (Z.to_nat (code - first)) Ht Hl) as (sym & E & H); [lia|].
  exists sym. split; [|exact H]. rewrite <- E. f_equal. lia.
Qed.

(** [base[symbol] + bits(s, ext[symbol])] with tables that cover the symbol. *)
Definition extension (base ext : list Z) (n : nat) (top : Z) : bool :=
  forallb (fun i => match base !! i, ext !! i with
                    | Some b, Some e => (0 <? b) && (0 <=? e) && (b + 2 ^ e <=? top)
                    | _, _ => false
                    end) (seq 0 n).

Lemma lengths_extension : extension lens lext 29 290 = true.
Proof. vm_compute. reflexivity. Qed.

Lemma distances_extension : extension dists dext 30 32769 = true.
Proof. vm_compute. reflexivity. Qed.

Lemma length_two_bytes b0 b1 : 0 <= b0 < 256 -> 0 <= b1 < 256 -> 0 <= Z.lor b0 (Z.shiftl b1 8) < 65536.
Proof. intros H0 H1. rewrite lor_add by (cbn; lia). change (2 ^ 8) with 256. lia. Qed.

Definition same_but_bits (s s' : state) : Prop := exists b c, s' = set_bits b c s.

Definition agree {A} (bad : A -> Prop) (r r' : res A) : Prop :=
  match r, r' with
  | Ret a s, Ret a' s' => a = a' /\ (s = s' \/ bad a /\ same_but_bits s s')
  | Longjmp s, Longjmp s' => same_but_bits s s'
  | Stuck, Stuck => True
  | _, _ => False
  end.

Lemma same_but_bits_sym s s' : same_but_bits s s' -> same_but_bits s' s.
Proof. intros (b & c & ->). exists (bitbuf s), (bitcnt s). by destruct s. Qed.

Lemma land_7 z : Z.land z 7 = z mod 8.
Proof. exact (Z.land_ones z 3 ltac:(done)). Qed.

Lemma u32_count z : 0 <= z <= 2 ^ 32 - 1 -> u32 z = z.
Proof. intros Hz. apply u32_small. lia. Qed.

Lemma order_all (j : nat) : (j < 19)%nat -> In (Z.of_nat j) order.
Proof. intros Hj. do 19 (destruct j as [|j]; [cbn; tauto|]). lia. Qed.

Lemma order_small i : In i order -> 0 <= i < 19.
Proof. cbn. lia. Qed.

(** ** The invariant *)

Section Safe.
(** The input, and the size of the output buffer if there is one. *)
Context (src : list char) (dlen : Z) (room : bool).
Context (Hsrc : Z.of_nat (length src) + 65536 <= 2 ^ 32).
Context (Hdlen : room = true -> 0 <= dlen /\ dlen + 65536 <= 2 ^ 32).

Record ok (s : state) : Prop := {
  ok_in : in_ s = src;
  ok_inlen : inlen s = Z.of_nat (length src);
  ok_incnt : 0 <= incnt s <= inlen s;
  ok_outlen : outlen s = dlen;
  ok_out : match out s with
           | Some o => room = true /\ Z.of_nat (length o) = dlen /\ 0 <= outcnt s <= dlen
           | None => room = false /\ 0 <= outcnt s < 2 ^ 32
           end
}.

Record bits_ok (s : state) : Prop := {
  bk_cnt : 0 <= bitcnt s < 8;
  bk_buf : 0 <= bitbuf s < 2 ^ bitcnt s
}.

(** The number of bits not read yet. *)
Definition left (s : state) : Z := 8 * (inlen s - incnt s) + bitcnt s.

(** ** A program logic *)

Definition runs {A} (m : M A) (s : state) (Q : A -> state -> Prop) : Prop :=
  match m s with
  | Ret a s' => Q a s'
  | Longjmp s' => ok s'
  | Stuck => False
  end.

Lemma runs_bind {A B} (m : M A) (f : A -> M B) s Q :
  runs m s (fun a s' => runs (f a) s' Q) -> runs (bind m f) s Q.
Proof. unfold runs. cbn. by destruct (m s). Qed.

Lemma runs_mono {A} (m : M A) s (Q Q' : A -> state -> Prop) :
  runs m s Q -> (forall a s', Q a s' -> Q' a s') -> runs m s Q'.
Proof. unfold runs. destruct (m s); auto. Qed.

Lemma runs_ret {A} (a : A) s (Q : A -> state -> Prop) : Q a s -> runs (ret a) s Q.
Proof. done. Qed.

Lemma runs_get s (Q : state -> state -> Prop) : Q s s -> runs get s Q.
Proof. done. Qed.

Lemma runs_upd f s (Q : unit -> state -> Prop) : Q tt (f s) -> runs (upd f) s Q.
Proof. done. Qed.

Lemma runs_lift {A} (o : option A) a s (Q : A -> state -> Prop) : o = Some a -> Q a s -> runs (lift o) s Q.
Proof. by intros ->. Qed.

Lemma runs_longjmp {A} s (Q : A -> state -> Prop) : ok s -> runs longjmp s Q.
Proof. done. Qed.

Lemma next_byte_eq s :
  ok s -> incnt s < inlen s ->
  exists c, src !! Z.to_nat (incnt s) = Some c /\
    next_byte s = Ret (bval c) (set_incnt (incnt s + 1) s).
Proof.
  intros [E1 E2 E3 _ _] Hlt. destruct (lookup_lt_is_Some_2 src (Z.to_nat (incnt s))) as [c Hc]; [lia|].
  exists c. split; [done|]. unfold next_byte, bind, get, lift, upd, ret. cbn.
  rewrite aget_Z, E1, Hc by lia. by rewrite u32_count by lia.
Qed.

Lemma ok_set_incnt s n : ok s -> 0 <= n <= inlen s -> ok (set_incnt n s).
Proof. by intros [] Hn. Qed.

Lemma ok_set_bits s b c : ok s -> ok (set_bits b c s).
Proof. by intros []. Qed.

Lemma runs_next_byte s (Q : Z -> state -> Prop) :
  ok s -> incnt s < inlen s ->
  (forall b, 0 <= b < 256 -> ok (set_incnt (incnt s + 1) s) -> Q b (set_incnt (incnt s + 1) s)) ->
  runs next_byte s Q.
Proof.
  intros Hok Hlt HQ. destruct (next_byte_eq s Hok Hlt) as (c & _ & E). unfold runs. rewrite E.
  apply HQ; [apply bval_range|]. apply ok_set_incnt; [done|]. destruct Hok. lia.
Qed.

(** The output is what it was. *)
Definition same_out (s s' : state) : Prop := out s' = out s /\ outcnt s' = outcnt s.

Lemma runs_load fuel need val s :
  ok s -> 0 <= need -> 0 <= bitcnt s < need + 8 -> 0 <= val < 2 ^ bitcnt s ->
  need - bitcnt s < Z.of_nat fuel -> (0 < fuel)%nat ->
  runs (load fuel need val) s (fun v s' =>
    ok s' /\ same_out s s' /\ need <= bitcnt s' < need + 8 /\ 0 <= v < 2 ^ bitcnt s' /\ left s' = left s).
Proof.
  revert val s. induction fuel as [|fuel IH]; intros val s Hok Hneed Hcnt Hval Hf Hpos; [lia|].
  cbn [load]. apply runs_bind, runs_get. destruct (Z.ltb_spec (bitcnt s) need) as [Hlt|Hge].
  - destruct (Z.eqb_spec (incnt s) (inlen s)) as [Ei|Ei]; [by apply runs_longjmp|].
    apply runs_bind, runs_next_byte; [done|destruct Hok; lia|]. intros b Hb Hok'.
    apply runs_bind, runs_upd. set (s1 := set_bits _ _ _).
    eapply runs_mono; [apply (IH _ s1)|].
    + by apply ok_set_bits.
    + done.
    + cbn. lia.
    + cbn. rewrite lor_add by lia. rewrite Z.pow_add_r by lia. nia.
    + cbn. lia.
    + lia.
    + intros v s' (H1 & H2 & H3 & H4 & H5). do 4 (split; [done|]). rewrite H5. unfold left. cbn. lia.
  - apply runs_ret. do 2 (split; [done|]). split; [lia|]. done.
Qed.

(** [bits]: as many bits fewer, and less than eight in the buffer. *)
Lemma runs_bits need s (Q : Z -> state -> Prop) :
  ok s -> bits_ok s -> 0 <= need ->
  (forall v s', ok s' -> bits_ok s' -> same_out s s' -> 0 <= v < 2 ^ need -> left s' = left s - need -> Q v s') ->
  runs (bits need) s Q.
Proof.
  intros Hok [Hc Hb] Hneed HQ. unfold bits. apply runs_bind, runs_get. apply runs_bind.
  eapply runs_mono; [apply runs_load; try done; lia|].
  intros v s' (H1 & H2 & H3 & H4 & H5). apply runs_bind, runs_upd, runs_ret.
  rewrite land_mask by done. apply HQ.
  - by apply ok_set_bits.
  - split; cbn; [lia|]. rewrite Z.shiftr_div_pow2 by done. split; [apply Z.div_pos; lia|].
    apply Z.div_lt_upper_bound; [lia|]. rewrite <- Z.pow_add_r by lia. replace (need + _) with (bitcnt s') by lia. lia.
  - done.
  - apply Z.mod_pos_bound. lia.
  - unfold left in *. cbn. lia.
Qed.

(** ** [decode] *)

(** After [decode]: a symbol that has a code, or the error. *)
Definition decoded (ls : list Z) (s : state) (sym : Z) (s' : state) : Prop :=
  ok s' /\ same_out s s' /\
  (sym = -10 \/
   0 <= sym < Z.of_nat (length ls) /\ ls !! Z.to_nat sym <> Some 0 /\ bits_ok s' /\ left s' < left s).

Lemma runs_decode_loop h ls (k l : nat) code first s :
  table h ls -> ok s -> bits_ok s -> (l + k = 16)%nat -> (1 <= l)%nat -> first <= code -> code mod 2 = 0 ->
  runs (decode_loop h k (Z.of_nat l) code first (Z.of_nat (base ls l))) s (decoded ls s).
Proof.
  intros Ht. revert l code first s. induction k as [|k IH]; intros l code first s Hok Hb Hk Hl Hc Hev.
  { apply runs_ret. split; [done|]. split; [done|]. by left. }
  cbn [decode_loop]. apply runs_bind, runs_bits; [done|done|done|]. intros b s' Hok' Hb' Hso Hbr Hleft.
  rewrite lor_bit by done. apply runs_bind. eapply runs_lift; [by apply (table_count h ls); [|lia]|].
  destruct (Z.ltb_spec (code + b - Z.of_nat (occurs (Z.of_nat l) ls)) first) as [Hhit|Hmiss].
  - destruct (decode_hit h ls l (code + b) first Ht) as (sym & E & _ & Hsym & Hlen); [lia|lia|].
    eapply runs_lift; [exact E|]. split; [done|]. split; [done|]. right. split; [done|].
    split; [|split; [done|lia]]. rewrite Hlen. intros [= ?]. lia.
  - replace (Z.of_nat l + 1) with (Z.of_nat (S l)) by lia.
    replace (Z.of_nat (base ls l) + _) with (Z.of_nat (base ls (S l))) by (rewrite base_S by done; lia).
    eapply runs_mono; [apply IH; try done; try lia|].
    + rewrite !Z.shiftl_mul_pow2 by done. lia.
    + apply shift_even.
    + intros sym s2 (H1 & [H2 H3] & H4). destruct Hso as [Hso1 Hso2]. split; [done|]. split; [split; congruence|].
      destruct H4 as [->|(H4 & H5 & H6 & H7)]; [by left|]. right. do 3 (split; [done|]). lia.
Qed.

Lemma runs_decode_slow h ls s :
  table h ls -> ok s -> bits_ok s -> runs (decode_slow h) s (decoded ls s).
Proof. intros Ht Hok Hb. by apply (runs_decode_loop h ls 15 1 0 0). Qed.

(** ** The two versions of [decode] *)

(** The same outcome; after an error code only the bit buffer may differ, and
    nothing but the output is looked at after a [longjmp]. *)
Lemma bits1_some s :
  0 < bitcnt s -> bits 1 s = Ret (Z.land (bitbuf s) 1) (set_bits (Z.shiftr (bitbuf s) 1) (bitcnt s - 1) s).
Proof.
  intros Hc. unfold bits, bind, get, upd, ret. cbn [M_monad]. change (S (Z.to_nat 1)) with 2%nat. cbn [load].
  unfold bind, get, ret. cbn [M_monad]. destruct (Z.ltb_spec (bitcnt s) 1); [lia|]. done.
Qed.

Lemma bits1_none s :
  ok s -> bits_ok s -> bitcnt s = 0 ->
  bits 1 s = if incnt s =? inlen s then Longjmp s else
    match next_byte s with
    | Ret b s' => Ret (Z.land b 1) (set_bits (Z.shiftr b 1) 7 s')
    | _ => Stuck
    end.
Proof.
  intros Hok [Hc Hb] E. rewrite E in Hb.
  assert (Eb : bitbuf s = 0) by lia.
  unfold bits, bind, get, upd, ret. cbn [M_monad]. change (S (Z.to_nat 1)) with 2%nat. cbn [load].
  unfold bind, get, ret. cbn [M_monad]. rewrite E, Eb. change (0 <? 1) with true. cbv iota.
  destruct (Z.eqb_spec (incnt s) (inlen s)); [done|].
  destruct (next_byte_eq s Hok) as (c & _ & ->); [destruct Hok; lia|]. cbn.
  rewrite E, Z.shiftl_0_r. done.
Qed.

Lemma next_byte_bits b c s :
  next_byte (set_bits b c s) =
    match next_byte s with Ret v s' => Ret v (set_bits b c s') | Longjmp _ => Stuck | Stuck => Stuck end.
Proof.
  unfold next_byte, bind, get, lift, upd, ret. cbn. by destruct (aget (in_ s) (incnt s)).
Qed.

(** The bit at hand is [b]; the two loops go on from it alike. *)
Lemma fast_bit h (k fuel : nat) len code first index b c f :
  (forall code' first' index', agree (fun sym => sym < 0)
     (decode_loop h k (len + 1) code' first' index' (set_bits (Z.shiftr b 1) c f))
     (fast_loop h fuel (len + 1) code' first' index' (Z.shiftr b 1) (Z.min c (Z.of_nat k)) f)) ->
  0 <= c < 8 -> (bitcnt f - len) mod 8 = c ->
  agree (fun sym => sym < 0)
    ((let code := Z.lor code (Z.land b 1) in
      count <- lift (aget (hcount h) len) ;;
      if code - count <? first then lift (aget (hsymbol h) (index + (code - first)))
      else decode_loop h k (len + 1) (Z.shiftl code 1) (Z.shiftl (first + count) 1) (index + count))
       (set_bits (Z.shiftr b 1) c f))
    (fast_loop h (S fuel) len code first index b (Z.min (c + 1) (Z.of_nat (S k))) f).
Proof.
  intros IH Hc Hmod. cbn [fast_loop]. destruct (Z.eqb_spec (Z.min (c + 1) (Z.of_nat (S k))) 0); [lia|].
  cbv zeta. set (code' := Z.lor code (Z.land b 1)). unfold bind, lift. cbn [M_monad].
  destruct (aget (hcount h) len) as [count|]; [|done].
  destruct (Z.ltb_spec (code' - count) first).
  - unfold upd. rewrite land_7, Hmod. destruct (aget (hsymbol h) _); [|done]. split; [done|by left].
  - replace (Z.min (c + 1) (Z.of_nat (S k)) - 1) with (Z.min c (Z.of_nat k)) by lia. apply IH.
Qed.

Lemma fast_refill h fuel len code first index buf f :
  fast_loop h (S fuel) len code first index buf 0 f
  = let left := MAXBITS + 1 - len in
    if left =? 0 then Ret (-10) f else
    if incnt f =? inlen f then Longjmp f else
    match next_byte f with
    | Ret b f' => fast_loop h fuel len code first index b (if 8 <? left then 8 else left) f'
    | Longjmp f' => Longjmp f'
    | Stuck => Stuck
    end.
Proof.
  cbn [fast_loop]. change (0 =? 0) with true. cbv zeta iota. destruct (_ =? 0); [done|].
  unfold bind, get. cbn [M_monad]. by destruct (incnt f =? inlen f).
Qed.

Lemma fast_agrees h (k l : nat) code first index b c f fuel :
  ok f -> 0 <= c < 8 -> 0 <= b < 2 ^ c -> (l + k = 16)%nat -> (2 * k < fuel)%nat ->
  (bitcnt f + 1 - Z.of_nat l) mod 8 = c ->
  agree (fun sym => sym < 0)
    (decode_loop h k (Z.of_nat l) code first index (set_bits b c f))
    (fast_loop h fuel (Z.of_nat l) code first index b (Z.min c (Z.of_nat k)) f).
Proof.
  revert l code first index b c f fuel. induction k as [|k IH]; intros l code first index b c f fuel Hok Hc Hb Hl Hf Hm.
  { destruct fuel as [|fuel]; [lia|]. cbn [decode_loop fast_loop]. rewrite Z.min_r by lia. change (Z.of_nat 0) with 0.
    cbn [Z.eqb]. replace (MAXBITS + 1 - Z.of_nat l) with 0 by (unfold MAXBITS; lia). cbn [Z.eqb].
    split; [done|]. right. split; [done|]. apply same_but_bits_sym. by exists b, c. }
  cbn [decode_loop]. set (s := set_bits b c f).
  assert (Hs : ok s) by by apply ok_set_bits. assert (Hbs : bits_ok s) by by split.
  destruct (decide (c = 0)) as [Ec|Ec].
  - destruct fuel as [|[|fuel]]; [lia|lia|]. rewrite (Z.min_l c) by lia. rewrite Ec, fast_refill. cbv zeta.
    destruct (Z.eqb_spec (MAXBITS + 1 - Z.of_nat l) 0); [unfold MAXBITS in *; lia|].
    unfold bind at 1. cbn [M_monad]. rewrite (bits1_none s Hs Hbs Ec).
    change (incnt s) with (incnt f). change (inlen s) with (inlen f).
    destruct (Z.eqb_spec (incnt f) (inlen f)) as [Ei|Ei].
    { apply same_but_bits_sym. by exists b, c. }
    unfold s. rewrite next_byte_bits.
    destruct (next_byte_eq f Hok) as (ch & _ & ->); [destruct Hok; lia|].
    set (f' := set_incnt (incnt f + 1) f). change (set_bits _ 7 (set_bits b c f')) with (set_bits (Z.shiftr (bval ch) 1) 7 f').
    replace (if 8 <? MAXBITS + 1 - Z.of_nat l then 8 else MAXBITS + 1 - Z.of_nat l)
      with (Z.min (7 + 1) (Z.of_nat (S k))) by (unfold MAXBITS; destruct (Z.ltb_spec 8 (15 + 1 - Z.of_nat l)); lia).
    pose proof (bval_range ch) as Hch.
    apply fast_bit; [|done|].
    + intros code' first' index'. replace (Z.of_nat l + 1) with (Z.of_nat (S l)) by lia.
      apply IH; [|done| |lia|lia|].
      * apply ok_set_incnt; [done|]. destruct Hok; lia.
      * rewrite Z.shiftr_div_pow2 by done. split; [apply Z.div_pos; lia|]. apply Z.div_lt_upper_bound; lia.
      * change (bitcnt f') with (bitcnt f). rewrite Ec in Hm. Z.div_mod_to_equations. lia.
    + change (bitcnt f') with (bitcnt f). rewrite Ec in Hm. Z.div_mod_to_equations. lia.
  - destruct fuel as [|fuel]; [lia|].
    unfold bind at 1. cbn [M_monad]. rewrite (bits1_some s) by (cbn; lia).
    change (bitbuf s) with b. change (set_bits _ (bitcnt s - 1) s) with (set_bits (Z.shiftr b 1) (c - 1) f).
    replace (Z.min c (Z.of_nat (S k))) with (Z.min (c - 1 + 1) (Z.of_nat (S k))) by lia.
    apply fast_bit; [|lia|].
    + intros code' first' index'. replace (Z.of_nat l + 1) with (Z.of_nat (S l)) by lia.
      apply IH; [done|lia| |lia|lia|].
      * rewrite Z.shiftr_div_pow2 by done. split; [apply Z.div_pos; lia|]. apply Z.div_lt_upper_bound; [lia|].
        replace (2 ^ 1 * 2 ^ (c - 1)) with (2 ^ c); [lia|]. rewrite <- Z.pow_add_r by lia. f_equal. lia.
      * Z.div_mod_to_equations. lia.
    + Z.div_mod_to_equations. lia.
Qed.

Lemma decode_agrees h s :
  ok s -> bits_ok s -> agree (fun sym => sym < 0) (decode_slow h s) (decode_fast h s).
Proof.
  intros Hok [Hc Hb]. unfold decode_slow, decode_fast, bind, get. cbn [M_monad].
  rewrite <- (Z.min_l (bitcnt s) (Z.of_nat 15)) at 1 by lia.
  replace (decode_loop h (Z.to_nat MAXBITS) 1 0 0 0 s)
    with (decode_loop h 15 (Z.of_nat 1) 0 0 0 (set_bits (bitbuf s) (bitcnt s) s)) by by destruct s.
  apply (fast_agrees h 15 1); try done; [lia|]. rewrite Z.mod_small; lia.
Qed.

(** Both give a symbol that has a code, or an error. *)
Lemma runs_decode slow h ls s :
  table h ls -> ok s -> bits_ok s -> runs (decode slow h) s (decoded ls s).
Proof.
  intros Ht Hok Hb. pose proof (runs_decode_slow h ls s Ht Hok Hb) as Hs. destruct slow; [exact Hs|].
  pose proof (decode_agrees h s Hok Hb) as Ha. unfold decode, runs, agree in *.
  assert (Hbits : forall s1 s2, same_but_bits s1 s2 -> ok s1 -> ok s2 /\ same_out s1 s2).
  { intros s1 s2 (b & c & ->) H1. split; [by apply ok_set_bits|done]. }
  destruct (decode_slow h s) as [sym s1|s1|], (decode_fast h s) as [sym' s2|s2|]; try done.
  - destruct Ha as [<- [<-|[Hneg Hsb]]]; [done|]. destruct Hs as (H1 & H2 & H3).
    destruct (Hbits _ _ Hsb H1) as [H4 H5]. split; [done|]. split; [destruct H2, H5; split; congruence|].
    left. destruct H3 as [|[? _]]; [done|lia].
  - by apply (Hbits s1).
Qed.

(** ** Copies *)

(** The input side is what it was. *)
Definition same_in (s s' : state) : Prop :=
  incnt s' = incnt s /\ bitbuf s' = bitbuf s /\ bitcnt s' = bitcnt s.

Lemma put_eq c s o :
  ok s -> out s = Some o -> outcnt s < dlen ->
  put c s = Ret tt (set_outcnt (outcnt s + 1) (set_out (Some (<[Z.to_nat (outcnt s) := c]> o)) s)).
Proof.
  intros [_ _ _ _ Ho] E Hlt. rewrite E in Ho. destruct Ho as (Hr & Hl & Hc). destruct (Hdlen Hr).
  unfold put, bind, get, lift, upd, ret. cbn [M_monad]. rewrite E. cbn [mbind option_bind].
  unfold aset. rewrite aget_Z by lia. destruct (lookup_lt_is_Some_2 o (Z.to_nat (outcnt s))) as [x ->]; [lia|].
  cbn. by rewrite u32_count by lia.
Qed.

Lemma runs_put c s o (Q : unit -> state -> Prop) :
  ok s -> out s = Some o -> outcnt s < dlen ->
  (forall s' o', ok s' -> same_in s s' -> out s' = Some o' -> outcnt s' = outcnt s + 1 -> Q tt s') ->
  runs (put c) s Q.
Proof.
  intros Hok E Hlt HQ. unfold runs. rewrite (put_eq c s o) by done. eapply HQ; [|done|done|done].
  destruct Hok as [H1 H2 H3 H4 Ho]. rewrite E in Ho. destruct Ho as (Hr & Hl & Hc).
  split; try done. cbn. rewrite length_insert. split; [done|]. split; [done|lia].
Qed.

Lemma runs_copy_in n s o :
  ok s -> out s = Some o -> outcnt s + Z.of_nat n <= dlen -> incnt s + Z.of_nat n <= inlen s ->
  runs (copy_in n) s (fun _ s' => ok s' /\ bitbuf s' = bitbuf s /\ bitcnt s' = bitcnt s /\
    incnt s' = incnt s + Z.of_nat n).
Proof.
  unfold copy_in. revert s o. induction n as [|n IH]; intros s o Hok E Ho Hi; cbn [repeat_m].
  { apply runs_ret. split; [done|]. do 2 (split; [done|]). lia. }
  apply runs_bind, runs_bind, runs_next_byte; [done|lia|]. intros b Hb Hok1.
  eapply (runs_put _ _ o); [done|done|cbn; lia|]. intros s2 o2 Hok2 (E1 & E2 & E3) Eo Ec.
  cbn in E1, Ec. eapply runs_mono; [eapply (IH s2 o2); try done|].
  - lia.
  - rewrite (ok_inlen _ Hok2). rewrite (ok_inlen _ Hok) in Hi. lia.
  - cbn. intros _ s' (H1 & -> & -> & ->). rewrite E2, E3, E1. do 3 (split; [done|]). lia.
Qed.

Lemma runs_copy_back n dist s o :
  ok s -> out s = Some o -> outcnt s + Z.of_nat n <= dlen -> 0 <= dist <= outcnt s ->
  runs (copy_back n dist) s (fun _ s' => ok s' /\ same_in s s').
Proof.
  unfold copy_back. revert s o. induction n as [|n IH]; intros s o Hok E Ho Hd; cbn [repeat_m].
  { apply runs_ret. by split. }
  apply runs_bind, runs_bind, runs_get. apply runs_bind.
  pose proof (ok_out _ Hok) as Hout. rewrite E in Hout. destruct Hout as (_ & Hl & Hc).
  destruct (lookup_lt_is_Some_2 o (Z.to_nat (outcnt s - dist))) as [c Ec]; [lia|].
  eapply runs_lift. { rewrite E. cbn [mbind option_bind]. rewrite aget_Z by lia. exact Ec. }
  eapply (runs_put _ _ o); [done|done|lia|]. intros s2 o2 Hok2 Hin Eo Ecnt.
  eapply runs_mono; [eapply (IH s2 o2); try done; lia|]. cbn. intros _ s' (H1 & H2). split; [done|].
  destruct Hin as (? & ? & ?), H2 as (? & ? & ?). split; [congruence|]. split; congruence.
Qed.

(** ** Blocks *)

(** One of the documented result codes. *)
Definition result_code (err : Z) : Prop := -11 <= err <= 2.

(** After a part of a block: with 0 it goes on from a good bit buffer. *)
Definition block_post (s : state) (err : Z) (s' : state) : Prop :=
  ok s' /\ result_code err /\ (err = 0 -> bits_ok s' /\ left s' <= left s).

Lemma block_error s s' err : ok s' -> result_code err -> err <> 0 -> block_post s err s'.
Proof. intros H1 H2 H3. do 2 (split; [done|]). done. Qed.

Lemma ok_set_outcnt s n : ok s -> out s = None -> ok (set_outcnt (u32 n) s).
Proof.
  intros [H1 H2 H3 H4 Ho] E. rewrite E in Ho. destruct Ho as [Hr _]. split; try done. cbn. rewrite E.
  split; [done|]. pose proof (u32_range n). lia.
Qed.

Lemma runs_stored s : ok s -> bits_ok s -> runs stored s (block_post s).
Proof.
  intros Hok0 Hb0. unfold stored. apply runs_bind, runs_upd. set (s0 := set_bits 0 0 s).
  assert (Hok : ok s0) by by apply ok_set_bits.
  assert (Hi0 : incnt s0 = incnt s) by done.
  assert (Hz : bitbuf s0 = 0 /\ bitcnt s0 = 0) by done.
  assert (Hend : forall s', ok s' -> bitbuf s' = 0 /\ bitcnt s' = 0 -> incnt s <= incnt s' -> block_post s 0 s').
  { intros s' H1 [H2 H3] H4. split; [done|]. split; [by split|]. intros _. split.
    - split; rewrite ?H2, H3; [lia|done].
    - unfold left. rewrite H3, (ok_inlen _ H1), (ok_inlen _ Hok0). destruct Hb0. lia. }
  clearbody s0. apply runs_bind, runs_get.
  pose proof (ok_incnt _ Hok). pose proof (ok_inlen _ Hok). rewrite u32_count by lia.
  destruct (Z.ltb_spec (inlen s0) (incnt s0 + 4)); [by apply runs_ret, block_error|].
  apply runs_bind, runs_next_byte; [done|lia|]. intros b0 Hb0' Hok1.
  apply runs_bind, runs_next_byte; [done|cbn; lia|]. intros b1 Hb1 Hok2.
  apply runs_bind, runs_next_byte; [done|cbn; lia|]. intros b2 Hb2 Hok3.
  destruct (negb _); [by apply runs_ret, block_error|].
  apply runs_bind, runs_next_byte; [done|cbn; lia|]. intros b3 Hb3 Hok4.
  destruct (negb _); [by apply runs_ret, block_error|].
  apply runs_bind, runs_get. 
  match type of Hok4 with ok ?x => set (s4 := x) in * end.
  pose proof (length_two_bytes b0 b1 Hb0' Hb1) as Hl. set (len := Z.lor _ _) in *.
  assert (Hi4 : incnt s4 = incnt s0 + 4) by (cbn; lia). assert (Hz4 : bitbuf s4 = 0 /\ bitcnt s4 = 0) by done.
  assert (Hl4 : inlen s4 = inlen s0) by done. clearbody s4 len. pose proof (ok_incnt _ Hok4).
  rewrite (u32_count (incnt s4 + len)) by lia.
  destruct (Z.ltb_spec (inlen s4) (incnt s4 + len)); [by apply runs_ret, block_error|].
  pose proof (ok_out _ Hok4) as Hout. destruct (out s4) as [o|] eqn:Eo.
  - destruct Hout as (Hr & Hol & Hoc). destruct (Hdlen Hr). rewrite (ok_outlen _ Hok4), u32_count by lia.
    destruct (Z.ltb_spec dlen (outcnt s4 + len)); [by apply runs_ret, block_error|].
    apply runs_bind. eapply runs_mono; [apply (runs_copy_in _ s4 o); try done; lia|].
    intros _ s' (G1 & G2 & G3 & G4). apply runs_ret, Hend; [done|destruct Hz4; split; congruence|lia].
  - apply runs_bind, runs_upd, runs_bind, runs_upd, runs_ret. apply Hend; [|done|cbn; lia].
    apply ok_set_incnt; [by apply ok_set_outcnt|cbn; lia].
Qed.

Lemma runs_extended base ext n top symbol s (Q : Z -> state -> Prop) :
  extension base ext n top = true -> 0 <= symbol < Z.of_nat n -> ok s -> bits_ok s ->
  (forall v s', ok s' -> bits_ok s' -> same_out s s' -> left s' <= left s -> 0 < v < top -> Q v s') ->
  runs (extended base ext symbol) s Q.
Proof.
  intros He Hs Hok Hb HQ. unfold extension in He. rewrite forallb_forall in He.
  specialize (He (Z.to_nat symbol)). rewrite in_seq in He. specialize (He ltac:(lia)).
  unfold extended. destruct (base !! Z.to_nat symbol) as [b|] eqn:Eb; [|done].
  destruct (ext !! Z.to_nat symbol) as [e|] eqn:Ee; [|done]. crush_hyps.
  apply runs_bind. eapply runs_lift; [by rewrite aget_Z by lia|]. apply runs_bind.
  eapply runs_lift; [by rewrite aget_Z by lia|]. apply runs_bind, runs_bits; [done|done|lia|].
  intros v s' H1' H2' H3' H4' H5'. apply runs_ret, HQ; try done; lia.
Qed.

Context (slow : bool).

Lemma runs_codes_step lc dc ll dl s :
  table lc ll -> table dc dl -> (length dl <= 30)%nat -> ok s -> bits_ok s ->
  runs (codes_step slow lc dc) s (fun r s' =>
    match r with
    | Some err => block_post s err s'
    | None => ok s' /\ bits_ok s' /\ left s' < left s
    end).
Proof.
  intros Hlc Hdc Hdl Hok Hb. unfold codes_step. apply runs_bind.
  eapply runs_mono; [apply (runs_decode slow lc ll s Hlc Hok Hb)|]. intros sym s1 (Hok1 & Hso1 & Hsym).
  destruct Hsym as [->|(Hsym & _ & Hb1 & Hleft1)]; [by apply runs_ret, block_error|].
  destruct (Z.ltb_spec sym 0); [lia|]. destruct (Z.ltb_spec sym 256).
  { apply runs_bind, runs_get. pose proof (ok_out _ Hok1) as Hout. destruct (out s1) as [o|] eqn:Eo.
    - rewrite (ok_outlen _ Hok1). destruct (Z.eqb_spec (outcnt s1) dlen); [by apply runs_ret, block_error|].
      apply runs_bind. eapply (runs_put _ _ o); [done|done|lia|]. intros s2 o2 Hok2 (E1 & E2 & E3) _ _.
      apply runs_ret. split; [done|]. split; [destruct Hb1; by split; rewrite ?E2, E3|].
      unfold left in *. rewrite E1, E3, (ok_inlen _ Hok2), <- (ok_inlen _ Hok1). done.
    - apply runs_bind, runs_upd, runs_ret. split; [by apply ok_set_outcnt|]. split; [by destruct Hb1|done]. }
  destruct (Z.eqb_spec sym 256).
  { apply runs_ret. split; [done|]. split; [by split|]. intros _. split; [done|lia]. }
  destruct (Z.leb_spec 29 (sym - 257)); [by apply runs_ret, block_error|].
  apply runs_bind. eapply (runs_extended _ _ 29 290); [apply lengths_extension|lia|done|done|].
  intros len s2 Hok2 Hb2 Hso2 Hleft2 Hlen. apply runs_bind.
  eapply runs_mono; [apply (runs_decode slow dc dl s2 Hdc Hok2 Hb2)|]. intros dsym s3 (Hok3 & Hso3 & Hdsym).
  destruct Hdsym as [->|(Hdsym & _ & Hb3 & Hleft3)]; [by apply runs_ret, block_error|].
  destruct (Z.ltb_spec dsym 0); [lia|].
  apply runs_bind. eapply (runs_extended _ _ 30 32769); [apply distances_extension|lia|done|done|].
  intros dist s4 Hok4 Hb4 Hso4 Hleft4 Hdist. apply runs_bind, runs_get.
  destruct (Z.ltb_spec (outcnt s4) dist); [by apply runs_ret, block_error|].
  pose proof (ok_out _ Hok4) as Hout. destruct (out s4) as [o|] eqn:Eo.
  - destruct Hout as (Hr & Hol & Hoc). destruct (Hdlen Hr). rewrite (ok_outlen _ Hok4), u32_count by lia.
    destruct (Z.ltb_spec dlen (outcnt s4 + len)); [by apply runs_ret, block_error|].
    apply runs_bind. eapply runs_mono; [apply (runs_copy_back _ dist s4 o); try done; lia|].
    intros _ s' (G1 & G2 & G3 & G4). apply runs_ret. split; [done|].
    split; [destruct Hb4; by split; rewrite ?G3, G4|].
    unfold left in *. rewrite G2, G4, (ok_inlen _ G1), <- (ok_inlen _ Hok4). lia.
  - apply runs_bind, runs_upd, runs_ret. split; [by apply ok_set_outcnt|]. split; [by destruct Hb4|].
    unfold left in *. cbn. lia.
Qed.

Lemma block_post_later s s1 err s' : left s1 <= left s -> block_post s1 err s' -> block_post s err s'.
Proof. intros Hl (H1 & H2 & H3). do 2 (split; [done|]). intros E. destruct (H3 E). split; [done|lia]. Qed.

Lemma left_nonneg s : ok s -> bits_ok s -> 0 <= left s.
Proof. intros [] []. unfold left. lia. Qed.

Lemma runs_codes_loop fuel lc dc ll dl s :
  table lc ll -> table dc dl -> (length dl <= 30)%nat -> ok s -> bits_ok s -> left s < Z.of_nat fuel ->
  runs (codes_loop slow fuel lc dc) s (block_post s).
Proof.
  intros Hlc Hdc Hdl. revert s. induction fuel as [|fuel IH]; intros s Hok Hb Hf.
  { pose proof (left_nonneg s Hok Hb). lia. }
  cbn [codes_loop]. apply runs_bind. eapply runs_mono; [by apply (runs_codes_step lc dc ll dl)|].
  intros [err|] s' H; [by apply runs_ret|]. destruct H as (H1 & H2 & H3).
  eapply runs_mono; [apply (IH s'); try done; lia|]. intros err s2. apply block_post_later. lia.
Qed.

Lemma enough_bits s : ok s -> bits_ok s -> left s < Z.of_nat (enough s).
Proof. intros [E1 E2 E3 _ _] []. unfold left, enough. rewrite E1. lia. Qed.

Lemma runs_codes lc dc ll dl s :
  table lc ll -> table dc dl -> (length dl <= 30)%nat -> ok s -> bits_ok s ->
  runs (codes slow lc dc) s (block_post s).
Proof.
  intros. unfold codes. apply runs_bind, runs_get. apply (runs_codes_loop _ lc dc ll dl); try done.
  by apply enough_bits.
Qed.

(** ** [fixed] *)

Lemma runs_fixed s : ok s -> bits_ok s -> runs (fixed slow) s (block_post s).
Proof.
  intros Hok Hb. destruct wp_fixed_tables as (lc & dc & E & Hlc & Hdc). unfold fixed.
  apply runs_bind. eapply runs_lift; [exact E|]. by apply (runs_codes lc dc fixed_lengths (replicate 30 5)).
Qed.

(** ** [dynamic] *)

Lemma runs_read_order idx ncode a s (Q : list Z -> state -> Prop) :
  Forall (fun i => 0 <= i /\ (Z.to_nat i < length a)%nat) idx -> ok s -> bits_ok s ->
  (forall a' s', ok s' -> bits_ok s' -> left s' <= left s -> length a' = length a ->
     (forall j, 0 <= j -> In j idx \/ has 15 a j -> has 15 a' j) -> Q a' s') ->
  runs (read_order idx ncode a) s Q.
Proof.
  revert ncode a s Q. induction idx as [|i idx IH]; intros ncode a s Q Hi Hok Hb HQ; cbn [read_order].
  { apply runs_ret, HQ; try done. intros j _ [[]|]; done. }
  apply Forall_cons in Hi as [[Hi0 Hi1] Hi].
  assert (Hgo : forall v s', ok s' -> bits_ok s' -> left s' <= left s -> small 15 v ->
    runs (lengths <- lift (aset a i v) ;; read_order idx (ncode - 1) lengths) s' Q).
  { intros v s' Hok' Hb' Hl' Hv. apply runs_bind. eapply runs_lift; [by apply aset_Z|].
    apply IH; try done. { by rewrite length_insert. }
    intros a' s2 H1 H2 H3 H4 H5. apply HQ; try done; [lia|by rewrite H4, length_insert|].
    intros j Hj [[->|Hin]|Hh]; apply H5; try done; [right|by left|right]; apply has_insert; auto. }
  apply runs_bind. destruct (0 <? ncode).
  - apply runs_bits; [done|done|done|]. intros v s' H1 H2 _ H4 H5. apply Hgo; try done; [lia|].
    unfold small. cbn in H4. lia.
  - by apply runs_ret, Hgo.
Qed.

(** The lengths read: all of them, none above 15. *)
Definition lengths_post (s : state) (total : Z) (a : list Z) (r : Z + list Z) (s' : state) : Prop :=
  match r with
  | inl err => ok s' /\ result_code err /\ err <> 0
  | inr a' => ok s' /\ bits_ok s' /\ left s' <= left s /\ length a' = length a /\
      forall j, 0 <= j < total -> has 15 a' j
  end.

Lemma runs_read_lengths fuel lc ll total index a s :
  table lc ll -> ok s -> bits_ok s -> 0 <= index -> (Z.to_nat total <= length a)%nat ->
  index <= total -> total - index < Z.of_nat fuel -> (forall j, 0 <= j < index -> has 15 a j) ->
  runs (read_lengths slow fuel lc total index a) s (lengths_post s total a).
Proof.
  intros Ht. revert index a s. induction fuel as [|fuel IH]; intros index a s Hok Hb Hi Hlen Htot Hf Ha; [lia|].
  cbn [read_lengths]. destruct (Z.ltb_spec index total) as [Hlt|Hge]; cbn [negb].
  2: { apply runs_ret. split; [done|]. split; [done|]. split; [done|]. split; [done|]. intros j Hj. apply Ha. lia. }
  apply runs_bind. eapply runs_mono; [by apply (runs_decode slow lc ll)|].
  intros sym s1 (Hok1 & _ & [->|(Hsym & _ & Hb1 & Hl1)]); [by apply runs_ret|].
  destruct (Z.ltb_spec sym 0); [lia|].
  assert (Hgo : forall i a' s', ok s' -> bits_ok s' -> left s' <= left s -> index < i <= total ->
    length a' = length a -> (forall j, 0 <= j < i -> has 15 a' j) ->
    runs (read_lengths slow fuel lc total i a') s' (lengths_post s total a)).
  { intros i a' s' G1 G2 G3 G4 G5 G6. eapply runs_mono; [apply (IH i a' s'); try done; try lia; by rewrite G5|].
    intros [err|a2] s2; [done|]. intros (K1 & K2 & K3 & K4 & K5). split; [done|]. split; [done|].
    split; [lia|]. split; [congruence|done]. }
  destruct (Z.ltb_spec sym 16).
  { apply runs_bind. eapply runs_lift; [apply aset_Z; lia|]. apply Hgo; try done; [lia|lia|by rewrite length_insert|].
    intros j Hj. apply has_insert; try lia; [unfold small; lia|]. destruct (decide (index = j)); [by left|].
    right. apply Ha. lia. }
  destruct ((sym =? 16) && (index =? 0)) eqn:E5; [by apply runs_ret|].
  apply runs_bind.
  assert (Hn : forall len, small 15 len -> runs (n <- (if sym =? 16 then b <- bits 2 ;; ret (3 + b)
              else if sym =? 17 then b <- bits 3 ;; ret (3 + b)
              else b <- bits 7 ;; ret (11 + b)) ;;
        if total <? index + n then ret (inl (-6)) else
        lengths <- lift (fill (Z.to_nat n) index len a) ;;
        read_lengths slow fuel lc total (index + n) lengths) s1 (lengths_post s total a)).
  { intros len Hl.
    assert (Hn : forall b n s', ok s' -> bits_ok s' -> left s' <= left s1 -> 0 <= b -> 0 < n ->
      runs (if total <? index + (n + b) then ret (inl (-6)) else
        lengths <- lift (fill (Z.to_nat (n + b)) index len a) ;;
        read_lengths slow fuel lc total (index + (n + b)) lengths) s' (lengths_post s total a)).
    { intros b n s' G1 G2 G3 G4 G5. destruct (Z.ltb_spec total (index + (n + b))); [by apply runs_ret|].
      destruct (fill_spec (Z.to_nat (n + b)) index len a) as (a' & E & E2 & Ha'); [done|lia|done|done|].
      apply runs_bind. eapply runs_lift; [exact E|]. apply Hgo; try done; [lia|lia|].
      intros j Hj. apply Ha'. lia. }
    apply runs_bind. destruct (sym =? 16); [|destruct (sym =? 17)];
      (apply runs_bind, runs_bits; [done|done|done|]; intros b s' G1 G2 _ G3 G4; apply runs_ret;
       apply Hn; try done; lia). }
  destruct (Z.eqb_spec sym 16) as [->|Hne].
  - cbn in E5. apply Z.eqb_neq in E5. destruct (Ha (index - 1)) as (v & Ev & Hv); [lia|].
    eapply runs_lift; [exact Ev|]. by apply Hn.
  - apply runs_ret. apply Hn. unfold small. lia.
Qed.

(** The arrays on the stack have the sizes the code declares. *)
Context (lengths0 lensym0 distsym0 : list Z).
Context (Hlengths0 : Z.of_nat (length lengths0) = MAXCODES) (Hlensym0 : Z.of_nat (length lensym0) = MAXLCODES)
  (Hdistsym0 : Z.of_nat (length distsym0) = MAXDCODES).

Lemma runs_tables a nlen ndist lc s0 s :
  ok s -> bits_ok s -> left s <= left s0 -> length a = length lengths0 ->
  257 <= nlen <= MAXLCODES -> 1 <= ndist <= MAXDCODES -> length (hsymbol lc) = length lensym0 ->
  (forall j, 0 <= j < nlen + ndist -> has 15 a j) ->
  runs (eob <- lift (aget a 256) ;;
      if eob =? 0 then ret (-9) else
      let! (err, lencode) := lift (construct lc a nlen) in
      bad <- lift (bad_code err nlen lencode) ;;
      if (bad : bool) then ret (-7) else
      let! (err, distcode) := lift (construct (Huffman [] distsym0) (drop (Z.to_nat nlen) a) ndist) in
      bad <- lift (bad_code err ndist distcode) ;;
      if (bad : bool) then ret (-8) else
      codes slow lencode distcode) s (block_post s0).
Proof.
  unfold MAXCODES, MAXLCODES, MAXDCODES in *. intros Hok Hb Hl Ha Hnl Hnd Hlc Hall.
  assert (exists n d : nat, nlen = Z.of_nat n /\ ndist = Z.of_nat d) as (n & d & -> & ->).
  { exists (Z.to_nat nlen), (Z.to_nat ndist). lia. }
  rewrite Nat2Z.id.
  destruct (Hall 256) as (eob & Eeob & _); [lia|]. apply runs_bind. eapply runs_lift; [exact Eeob|].
  destruct (eob =? 0); [by apply runs_ret, block_error|].
  destruct (wp_construct lc a n) as (e1 & h1 & E1 & Hc1); [lia|lia| |].
  { change a with (drop 0 a). apply (has_code_lengths 15); [done|]. intros j Hj. apply Hall. lia. }
  apply runs_bind. eapply runs_lift; [exact E1|].
  assert (Ht1 : 0 <= e1 -> table h1 (take n a)).
  { intros He. apply (constructed_table _ _ _ _ Hc1); [|done]. change a with (drop 0 a).
    apply (has_code_lengths 15); [done|]. intros j Hj. apply Hall. lia. }
  destruct (bad_code_spec e1 (Z.of_nat n) h1 (take n a)) as (b1 & Eb1 & Hb1).
  { destruct (Z.lt_ge_cases e1 0); [by right|left; auto]. }
  apply runs_bind. eapply runs_lift; [exact Eb1|]. destruct b1; [by apply runs_ret, block_error|].
  assert (Hcl2 : code_lengths (take d (drop n a))).
  { apply (has_code_lengths 15); [done|]. intros j Hj. apply Hall. lia. }
  destruct (wp_construct (Huffman [] distsym0) (drop n a) d) as (e2 & h2 & E2 & Hc2); [rewrite length_drop; lia|cbn; lia|done|].
  apply runs_bind. eapply runs_lift; [exact E2|].
  destruct (bad_code_spec e2 (Z.of_nat d) h2 (take d (drop n a))) as (b2 & Eb2 & Hb2).
  { destruct (Z.lt_ge_cases e2 0); [by right|left]. by apply (constructed_table _ _ _ _ Hc2). }
  apply runs_bind. eapply runs_lift; [exact Eb2|]. destruct b2; [by apply runs_ret, block_error|].
  eapply runs_mono; [apply (runs_codes h1 h2 (take n a) (take d (drop n a))); try done; auto|].
  - by apply (constructed_table _ _ _ _ Hc2); [|apply Hb2].
  - rewrite length_take. lia.
  - intros err s'. by apply block_post_later.
Qed.

Lemma runs_dynamic s : ok s -> bits_ok s -> runs (dynamic slow lengths0 lensym0 distsym0) s (block_post s).
Proof.
  intros Hok Hb. unfold dynamic.
  apply runs_bind, runs_bits; [done|done|done|]. intros nlen s1 Hok1 Hb1 _ Hn Hl1.
  apply runs_bind, runs_bits; [done|done|done|]. intros ndist s2 Hok2 Hb2 _ Hd Hl2.
  apply runs_bind, runs_bits; [done|done|done|]. intros ncode s3 Hok3 Hb3 _ Hc Hl3.
  destruct ((MAXLCODES <? nlen + 257) || (MAXDCODES <? ndist + 1)) eqn:Ebad; [by apply runs_ret, block_error|].
  crush_hyps. unfold MAXCODES, MAXLCODES, MAXDCODES in *.
  assert (Hlen0 : length lengths0 = 316%nat) by lia.
  apply runs_bind, runs_read_order; [|done|done|].
  { apply Forall_forall. intros i Hi%list_elem_of_In%order_small. rewrite Hlen0. lia. }
  intros a s4 Hok4 Hb4 Hl4 Ha Hall.
  assert (Hcl : code_lengths (take 19 a)).
  { change a with (drop 0 a). apply (has_code_lengths 15); [done|]. intros j Hj. apply Hall; [lia|left].
    rewrite <- (Z2Nat.id j) by lia. apply order_all. lia. }
  destruct (wp_construct (Huffman [] lensym0) a 19) as (e & h & E & Hcon); [lia|cbn; lia|done|].
  apply runs_bind. eapply runs_lift; [exact E|].
  cbv beta iota.
  destruct (Z.eqb_spec e 0) as [->|]; cbn [negb]; [|by apply runs_ret, block_error].
  apply runs_bind. eapply runs_mono.
  { apply (runs_read_lengths _ h (take 19 a)); try done; [by eapply constructed_table|lia|lia|lia|lia]. }
  intros [err|a'] s5; cbn [lengths_post].
  - intros (G1 & G2 & G3). by apply runs_ret, block_error.
  - intros (G1 & G2 & G3 & G4 & G5). apply (runs_tables a' (nlen + 257) (ndist + 1) h); try done; try lia.
    + unfold MAXLCODES. lia.
    + unfold MAXDCODES. lia.
    + by rewrite (co_length _ _ _ _ Hcon).
Qed.

(** ** [puff] *)

Lemma runs_block s :
  ok s -> bits_ok s -> runs (block slow lengths0 lensym0 distsym0) s (fun r s' =>
    ok s' /\ result_code (snd r) /\ (snd r = 0 -> bits_ok s' /\ left s' < left s)).
Proof.
  intros Hok Hb. unfold block.
  apply runs_bind, runs_bits; [done|done|done|]. intros last s1 Hok1 Hb1 _ Hn Hl1.
  apply runs_bind, runs_bits; [done|done|done|]. intros type s2 Hok2 Hb2 _ Hd Hl2.
  apply runs_bind. eapply (runs_mono _ _ (block_post s2)).
  - destruct (type =? 0); [by apply runs_stored|]. destruct (type =? 1); [by apply runs_fixed|].
    destruct (type =? 2); [by apply runs_dynamic|]. by apply runs_ret, block_error.
  - intros err s' (G1 & G2 & G3). apply runs_ret. split; [done|]. split; [done|]. cbn. intros E.
    destruct (G3 E). split; [done|lia].
Qed.

Lemma runs_blocks fuel s :
  ok s -> bits_ok s -> left s < Z.of_nat fuel ->
  runs (blocks slow lengths0 lensym0 distsym0 fuel) s (fun err s' => ok s' /\ result_code err).
Proof.
  revert s. induction fuel as [|fuel IH]; intros s Hok Hb Hf.
  { pose proof (left_nonneg s Hok Hb). lia. }
  cbn [blocks]. apply runs_bind. eapply runs_mono; [by apply runs_block|].
  intros [last err] s' (G1 & G2 & G3). cbn [snd] in *.
  destruct (Z.eqb_spec err 0) as [->|]; cbn [negb]; [|by apply runs_ret].
  destruct last; [by apply runs_ret|]. destruct G3; [done|]. apply IH; [done|done|lia].
Qed.
End Safe.
