(* ===== verification/PuffSpec.v ===== *)
(** * [puff.c]: its properties

    The theorems about [construct], [decode] and [puff], from the rules of
    [PuffSafe] and the tables of [PuffTables]. *)

From stdpp Require Import list.
From S2P Require Import Prelude CLib Puff PuffTables PuffSafe.

(** ** The two builds *)

Lemma same_but_bits_refl s : same_but_bits s s.
Proof. exists (bitbuf s), (bitcnt s). by destruct s. Qed.

Lemma agree_refl {A} (bad : A -> Prop) r : agree bad r r.
Proof. destruct r; [split; [done|by left]|apply same_but_bits_refl|done]. Qed.

Section Builds.
Context (src : list char) (dlen : Z) (room : bool).
Context (Hsrc : Z.of_nat (length src) + 65536 <= 2 ^ 32).
Context (Hdlen : room = true -> 0 <= dlen /\ dlen + 65536 <= 2 ^ 32).
Abbreviation ok := (ok src dlen room).
Abbreviation runs := (runs src dlen room).

Lemma agree_bind {A B} (bad : A -> Prop) (bad' : B -> Prop) (m m' : M A) (f f' : A -> M B) s Q :
  runs m s Q -> agree bad (m s) (m' s) ->
  (forall a s', Q a s' -> agree bad' (f a s') (f' a s')) ->
  (forall a s1 s2, bad a -> same_but_bits s1 s2 -> agree bad' (f a s1) (f' a s2)) ->
  agree bad' (bind m f s) (bind m' f' s).
Proof.
  unfold PuffSafe.runs, bind. cbn [M_monad]. intros Hr Ha Hgo Hbad.
  destruct (m s) as [a s1|s1|], (m' s) as [a' s2|s2|]; try done.
  destruct Ha as [<- [<-|[Hb Hs]]]; auto.
Qed.

Lemma agree_step {A B} (bad' : B -> Prop) (m : M A) (f f' : A -> M B) s Q :
  runs m s Q -> (forall a s', Q a s' -> agree bad' (f a s') (f' a s')) ->
  agree bad' (bind m f s) (bind m f' s).
Proof.
  intros Hr Hgo. apply (agree_bind (fun _ => False) _ _ _ _ _ _ Q); [done|apply agree_refl|done|done].
Qed.

Lemma agree_ret {A} (bad : A -> Prop) a s1 s2 : bad a -> same_but_bits s1 s2 -> agree bad (ret a s1) (ret a s2).
Proof. intros Hb Hs. split; [done|]. by right. Qed.

Definition negative (err : Z) : Prop := err < 0.

Lemma agree_decode {B} (bad' : B -> Prop) h ls s (f f' : Z -> M B) :
  table h ls -> ok s -> bits_ok s ->
  (forall sym s', decoded src dlen room ls s sym s' -> agree bad' (f sym s') (f' sym s')) ->
  (forall sym s1 s2, negative sym -> same_but_bits s1 s2 -> agree bad' (f sym s1) (f' sym s2)) ->
  agree bad' (bind (decode true h) f s) (bind (decode false h) f' s).
Proof.
  intros Ht Hok Hb Hgo Hbad. eapply (agree_bind negative); [by apply (runs_decode src dlen room Hsrc true)| |done|done].
  by apply (decode_agrees src dlen room Hsrc).
Qed.

(** [None] and the non-negative results are reached in the same state. *)
Definition step_bad (r : option Z) : Prop := match r with Some err => negative err | None => False end.

Lemma codes_step_agrees lc dc ll dl s :
  table lc ll -> table dc dl -> (length dl <= 30)%nat -> ok s -> bits_ok s ->
  agree step_bad (codes_step true lc dc s) (codes_step false lc dc s).
Proof.
  intros Hlc Hdc Hdl Hok Hb. unfold codes_step. eapply (agree_decode _ lc ll); [done|done|done| |].
  2: { intros sym s1 s2 Hneg Hs. destruct (Z.ltb_spec sym 0); [|unfold negative in *; lia]. by apply agree_ret. }
  intros sym s1 (Hok1 & _ & Hsym). destruct (Z.ltb_spec sym 0); [apply agree_refl|].
  destruct Hsym as [->|(Hsym & _ & Hb1 & _)]; [lia|].
  destruct (Z.ltb_spec sym 256); [apply agree_refl|]. destruct (Z.eqb_spec sym 256); [apply agree_refl|].
  cbv zeta. destruct (Z.leb_spec 29 (sym - 257)); [apply agree_refl|].
  apply (agree_step _ _ _ _ _ (fun _ s' => ok s' /\ bits_ok s')).
  { eapply (runs_extended _ _ _ Hsrc _ _ 29 290); [apply lengths_extension|lia|done|done|]. by intros. }
  intros len s2 [Hok2 Hb2]. eapply (agree_decode _ dc dl); [done|done|done| |].
  2: { intros dsym s3 s4 Hneg Hs. destruct (Z.ltb_spec dsym 0); [|unfold negative in *; lia]. by apply agree_ret. }
  intros dsym s3 _. destruct (dsym <? 0); apply agree_refl.
Qed.

Lemma codes_agrees lc dc ll dl s :
  table lc ll -> table dc dl -> (length dl <= 30)%nat -> ok s -> bits_ok s ->
  agree negative (codes true lc dc s) (codes false lc dc s).
Proof.
  intros Hlc Hdc Hdl Hok Hb. unfold codes, bind, get. cbn [M_monad].
  pose proof (enough_bits src dlen room s Hok Hb) as Hf. revert Hf. generalize (enough s) as fuel. intros fuel.
  revert s Hok Hb. induction fuel as [|fuel IH]; intros s Hok Hb Hf; [done|]. cbn [codes_loop].
  eapply (agree_bind step_bad); [by apply (runs_codes_step src dlen room Hsrc Hdlen true lc dc ll dl)|
    by apply (codes_step_agrees lc dc ll dl)| |].
  - intros [err|] s'; [intros _; apply agree_refl|]. intros (H1 & H2 & H3). apply IH; [done|done|lia].
  - intros [err|] s1 s2; [|done]. intros Hneg. by apply agree_ret.
Qed.

Lemma fixed_agrees s : ok s -> bits_ok s -> agree negative (fixed true s) (fixed false s).
Proof.
  intros Hok Hb. destruct wp_fixed_tables as (lc & dc & E & Hlc & Hdc). unfold fixed.
  assert (Hr : runs (lift fixed_tables) s (fun t s' => t = (lc, dc) /\ s' = s)) by (eapply runs_lift; [exact E|by split]).
  apply (agree_step _ _ _ _ _ _ Hr). intros t s' [-> ->]. by apply (codes_agrees lc dc fixed_lengths (replicate 30 5)).
Qed.

(** Of the code lengths. *)
Definition lengths_bad (r : Z + list Z) : Prop := match r with inl err => negative err | inr _ => False end.

Lemma read_lengths_agrees fuel lc ll total index a s :
  table lc ll -> ok s -> bits_ok s -> 0 <= index -> (Z.to_nat total <= length a)%nat ->
  index <= total -> total - index < Z.of_nat fuel -> (forall j, 0 <= j < index -> has 15 a j) ->
  agree lengths_bad (read_lengths true fuel lc total index a s) (read_lengths false fuel lc total index a s).
Proof.
  intros Ht. revert index a s. induction fuel as [|fuel IH]; intros index a s Hok Hb Hi Hlen Htot Hf Ha; [done|].
  cbn [read_lengths]. destruct (Z.ltb_spec index total) as [Hlt|Hge]; cbn [negb]; [|apply agree_refl].
  eapply (agree_decode _ lc ll); [done|done|done| |].
  2: { intros sym s1 s2 Hneg Hs. destruct (Z.ltb_spec sym 0); [|unfold negative in *; lia]. by apply agree_ret. }
  intros sym s1 (Hok1 & _ & Hsym). destruct (Z.ltb_spec sym 0); [apply agree_refl|].
  destruct Hsym as [->|(Hsym & _ & Hb1 & Hl1)]; [lia|].
  destruct (Z.ltb_spec sym 16).
  { apply (agree_step _ _ _ _ _ (fun a' s' => a' = <[Z.to_nat index := sym]> a /\ s' = s1)).
    { eapply runs_lift; [apply aset_Z; lia|done]. }
    intros a' s' [-> ->]. apply IH; try done; [lia|by rewrite length_insert|lia|lia|].
    intros j Hj. apply has_insert; try lia; [unfold small; lia|]. destruct (decide (index = j)); [by left|].
    right. apply Ha. lia. }
  destruct ((sym =? 16) && (index =? 0)) eqn:E5; [apply agree_refl|].
  apply (agree_step _ _ _ _ _ (fun len s' => small 15 len /\ s' = s1)).
  { destruct (Z.eqb_spec sym 16) as [->|]; [|by apply runs_ret].
    cbn in E5. apply Z.eqb_neq in E5. destruct (Ha (index - 1)) as (v & Ev & Hv); [lia|]. by eapply runs_lift. }
  intros len s' [Hl ->].
  apply (agree_step _ _ _ _ _ (fun n s' => ok s' /\ bits_ok s' /\ 0 < n)).
  { destruct (sym =? 16); [|destruct (sym =? 17)];
      (apply runs_bind, (runs_bits _ _ _ Hsrc); [done|done|done|]; intros b s' G1 G2 _ G3 G4; apply runs_ret;
       do 2 (split; [done|]); lia). }
  intros n s' (Hok' & Hb' & Hn). destruct (Z.ltb_spec total (index + n)); [apply agree_refl|].
  destruct (fill_spec (Z.to_nat n) index len a) as (a' & E & E2 & Ha'); [done|lia|done|done|].
  apply (agree_step _ _ _ _ _ (fun x s2 => x = a' /\ s2 = s')); [by eapply runs_lift|].
  intros x s2 [-> ->]. apply IH; try done; [lia|by rewrite E2|lia|]. intros j Hj. apply Ha'. lia.
Qed.

Lemma agree_lift {A B} (bad' : B -> Prop) (o : option A) (f f' : A -> M B) s :
  (forall a, o = Some a -> agree bad' (f a s) (f' a s)) ->
  agree bad' (bind (lift o) f s) (bind (lift o) f' s).
Proof. intros H. unfold bind, lift. cbn [M_monad]. destruct o; [by apply H|done]. Qed.

Context (lengths0 lensym0 distsym0 : list Z).
Context (Hlengths0 : Z.of_nat (length lengths0) = MAXCODES) (Hlensym0 : Z.of_nat (length lensym0) = MAXLCODES)
  (Hdistsym0 : Z.of_nat (length distsym0) = MAXDCODES).

(** Both blocks are decoded with the tables of the lengths in [a]. *)
Lemma tables_agree a (n d : nat) lc s :
  ok s -> bits_ok s -> length a = length lengths0 -> length (hsymbol lc) = length lensym0 ->
  (n <= 286)%nat -> (1 <= d <= 30)%nat ->
  (forall j, 0 <= j < Z.of_nat n + Z.of_nat d -> has 15 a j) ->
  forall e1 h1 b1 e2 h2 b2, construct lc a (Z.of_nat n) = Some (e1, h1) -> bad_code e1 (Z.of_nat n) h1 = Some b1 ->
  b1 = false -> construct (Huffman [] distsym0) (drop n a) (Z.of_nat d) = Some (e2, h2) ->
  bad_code e2 (Z.of_nat d) h2 = Some b2 -> b2 = false ->
  agree negative (codes true h1 h2 s) (codes false h1 h2 s).
Proof.
  unfold MAXCODES, MAXLCODES, MAXDCODES in *.
  intros Hok Hb Ha Hlc Hn Hd Hall e1 h1 b1 e2 h2 b2 E1 Eb1 -> E2 Eb2 ->.
  assert (Hcl1 : code_lengths (take n a)).
  { change a with (drop 0 a). apply (has_code_lengths 15); [done|]. intros j Hj. apply Hall. lia. }
  assert (Hcl2 : code_lengths (take d (drop n a))).
  { apply (has_code_lengths 15); [done|]. intros j Hj. apply Hall. lia. }
  assert (Hpos : forall e m h, bad_code e m h = Some false -> 0 <= e).
  { intros e m h. unfold bad_code. destruct (Z.eqb_spec e 0); [lia|]. by destruct (Z.ltb_spec e 0). }
  apply (codes_agrees h1 h2 (take n a) (take d (drop n a))); try done.
  - eapply construct_table; [| | |exact E1|by eapply Hpos]; [lia|lia|done].
  - eapply construct_table; [| | |exact E2|by eapply Hpos]; [rewrite length_drop; lia|cbn; lia|done].
  - rewrite length_take. lia.
Qed.

Lemma dynamic_agrees s :
  ok s -> bits_ok s ->
  agree negative (dynamic true lengths0 lensym0 distsym0 s) (dynamic false lengths0 lensym0 distsym0 s).
Proof.
  intros Hok Hb. unfold dynamic.
  assert (Hbits : forall need s0, 0 <= need -> ok s0 -> bits_ok s0 ->
    runs (bits need) s0 (fun v s' => ok s' /\ bits_ok s' /\ 0 <= v < 2 ^ need)).
  { intros need s0 H1 H2 H3. by apply (runs_bits _ _ _ Hsrc). }
  eapply (agree_step _ _ _ _ _ _ (Hbits 5 _ ltac:(done) Hok Hb)). intros nlen s1 (Hok1 & Hb1 & Hn).
  eapply (agree_step _ _ _ _ _ _ (Hbits 5 _ ltac:(done) Hok1 Hb1)). intros ndist s2 (Hok2 & Hb2 & Hd).
  eapply (agree_step _ _ _ _ _ _ (Hbits 4 _ ltac:(done) Hok2 Hb2)). intros ncode s3 (Hok3 & Hb3 & Hc).
  cbv zeta. destruct ((MAXLCODES <? nlen + 257) || (MAXDCODES <? ndist + 1)) eqn:Ebad; [apply agree_refl|].
  crush_hyps. unfold MAXCODES, MAXLCODES, MAXDCODES in *.
  assert (Hlen0 : length lengths0 = 316%nat) by lia.
  eapply (agree_step _ _ _ _ _ (fun a s' => ok s' /\ bits_ok s' /\ length a = length lengths0 /\
    forall j, 0 <= j < 19 -> has 15 a j)).
  { apply runs_read_order; [done| |done|done|].
    - apply Forall_forall. intros i Hi%list_elem_of_In%order_small. rewrite Hlen0. lia.
    - intros a s4 G1 G2 _ G3 G4. do 3 (split; [done|]). intros j Hj. apply G4; [lia|left].
      rewrite <- (Z2Nat.id j) by lia. apply order_all. lia. }
  intros a s4 (Hok4 & Hb4 & Ha & Hall).
  assert (Hcl : code_lengths (take 19 a)).
  { change a with (drop 0 a). apply (has_code_lengths 15); [done|]. intros j Hj. apply Hall. lia. }
  apply agree_lift. intros [e h] E. destruct (Z.eqb_spec e 0) as [->|]; cbn [negb]; [|apply agree_refl].
  destruct (wp_construct (Huffman [] lensym0) a 19) as (e' & h' & E' & Hcon); [lia|cbn; lia|done|].
  change (Z.of_nat 19) with 19 in E'. rewrite E in E'. injection E' as <- <-.
  pose proof (constructed_table _ _ _ _ Hcon Hcl ltac:(lia)) as Ht.
  eapply (agree_bind lengths_bad).
  { apply (runs_read_lengths src dlen room Hsrc true _ h (take 19 a) (nlen + 257 + (ndist + 1)) 0 a); try done; lia. }
  { apply (read_lengths_agrees _ h (take 19 a)); try done; lia. }
  2: { intros [err|] s1' s2'; [|done]. intros Hneg. by apply agree_ret. }
  intros [err|a'] s5; [intros _; apply agree_refl|]. intros (G1 & G2 & G3 & G4 & G5).
  apply agree_lift. intros eob _. destruct (eob =? 0); [apply agree_refl|].
  assert (exists n d : nat, nlen + 257 = Z.of_nat n /\ ndist + 1 = Z.of_nat d) as (n & d & En & Ed).
  { exists (Z.to_nat (nlen + 257)), (Z.to_nat (ndist + 1)). lia. }
  rewrite En, Ed in *. rewrite Nat2Z.id.
  apply agree_lift. intros [e1 h1] E1. apply agree_lift. intros b1 Eb1. destruct b1; [apply agree_refl|].
  apply agree_lift. intros [e2 h2] E2. apply agree_lift. intros b2 Eb2. destruct b2; [apply agree_refl|].
  eapply (tables_agree a' n d h); try done; try lia. by rewrite (co_length _ _ _ _ Hcon).
Qed.

Definition block_bad (r : bool * Z) : Prop := negative (snd r).

Lemma block_agrees s :
  ok s -> bits_ok s ->
  agree block_bad (block true lengths0 lensym0 distsym0 s) (block false lengths0 lensym0 distsym0 s).
Proof.
  intros Hok Hb. unfold block.
  assert (Hbits : forall need s0, 0 <= need -> ok s0 -> bits_ok s0 ->
    runs (bits need) s0 (fun v s' => ok s' /\ bits_ok s' /\ 0 <= v < 2 ^ need)).
  { intros need s0 H1 H2 H3. by apply (runs_bits _ _ _ Hsrc). }
  eapply (agree_step _ _ _ _ _ _ (Hbits 1 _ ltac:(done) Hok Hb)). intros last s1 (Hok1 & Hb1 & _).
  eapply (agree_step _ _ _ _ _ _ (Hbits 2 _ ltac:(done) Hok1 Hb1)). intros type s2 (Hok2 & Hb2 & _).
  destruct (type =? 0); [apply agree_refl|]. destruct (type =? 1).
  { eapply (agree_bind negative); [by apply (runs_fixed _ _ _ Hsrc Hdlen true)|by apply fixed_agrees|
      intros; apply agree_refl|]. intros err s1' s2' Hneg. by apply agree_ret. }
  destruct (type =? 2); [|apply agree_refl].
  eapply (agree_bind negative); [by apply (runs_dynamic _ _ _ Hsrc Hdlen true)|by apply dynamic_agrees|
    intros; apply agree_refl|]. intros err s1' s2' Hneg. by apply agree_ret.
Qed.

Lemma blocks_agree fuel s :
  ok s -> bits_ok s -> left s < Z.of_nat fuel ->
  agree negative (blocks true lengths0 lensym0 distsym0 fuel s) (blocks false lengths0 lensym0 distsym0 fuel s).
Proof.
  revert s. induction fuel as [|fuel IH]; intros s Hok Hb Hf; [done|]. cbn [blocks].
  eapply (agree_bind block_bad); [by apply (runs_block _ _ _ Hsrc Hdlen true)|by apply block_agrees| |].
  - intros [last err] s' (G1 & G2 & G3). cbn [snd] in *.
    destruct (Z.eqb_spec err 0) as [->|]; cbn [negb]; [|apply agree_refl]. destruct last; [apply agree_refl|].
    destruct G3; [done|]. apply IH; [done|done|lia].
  - intros [last err] s1 s2 Hneg Hs. unfold block_bad, negative in Hneg. cbn [snd] in Hneg.
    destruct (Z.eqb_spec err 0); [lia|]. by apply agree_ret.
Qed.
End Builds.

(** ** Properties *)

(** The buffers a caller may pass: the lengths say the truth, and neither buffer
    ends within the last 64 kilobytes of the address space. *)
Record good_call (dest : option (list char)) (destlen : Z) (source : list char) (sourcelen : Z) : Prop := {
  gc_source : sourcelen = Z.of_nat (length source) /\ sourcelen + 65536 <= 2 ^ 32;
  gc_dest o : dest = Some o -> destlen = Z.of_nat (length o) /\ destlen + 65536 <= 2 ^ 32
}.

(** The arrays on the stack have the sizes the code declares. *)
Record good_stack (lengths0 lensym0 distsym0 : list Z) : Prop := {
  gs_lengths : Z.of_nat (length lengths0) = MAXCODES;
  gs_lensym : Z.of_nat (length lensym0) = MAXLCODES;
  gs_distsym : Z.of_nat (length distsym0) = MAXDCODES
}.

Definition given {A} (o : option A) : bool := match o with Some _ => true | None => false end.

Lemma good_room dest destlen source sourcelen :
  good_call dest destlen source sourcelen -> given dest = true -> 0 <= destlen /\ destlen + 65536 <= 2 ^ 32.
Proof. intros [_ Hd]. destruct dest as [o|]; [|done]. intros _. destruct (Hd o eq_refl). lia. Qed.

Lemma good_start dest destlen source sourcelen :
  good_call dest destlen source sourcelen ->
  ok source destlen (given dest) (State dest destlen 0 source sourcelen 0 0 0).
Proof.
  intros [[-> Hs] Hd]. split; cbn; try done; [lia|]. destruct dest as [o|]; [|done].
  destruct (Hd o eq_refl). split; [done|]. lia.
Qed.

Lemma start_bits dest destlen source sourcelen : bits_ok (State dest destlen 0 source sourcelen 0 0 0).
Proof. by split. Qed.

(** C18: The reference inflater is safe on any input.  Whatever the source bytes, the
    size of the output buffer (none at all included), the build and the garbage on the
    stack, [puff] returns one of its documented codes: it reads and writes inside the
    buffers and tables only, and it terminates.  A positive code leaves both lengths
    alone; otherwise they tell bytes that were produced and consumed. *)
Theorem puff_safe slow lengths0 lensym0 distsym0 dest destlen source sourcelen :
  good_stack lengths0 lensym0 distsym0 -> good_call dest destlen source sourcelen ->
  exists err dest' dl sl,
    puff slow lengths0 lensym0 distsym0 dest destlen source sourcelen = Some (err, dest', dl, sl) /\
    -11 <= err <= 2 /\ length <$> dest' = length <$> dest /\
    (0 < err -> dl = destlen /\ sl = sourcelen) /\
    (err <= 0 -> 0 <= sl <= sourcelen /\ (is_Some dest -> 0 <= dl <= destlen)).
Proof.
  intros [G1 G2 G3] Hcall. pose proof (good_start _ _ _ _ Hcall) as Hok. pose proof (good_room _ _ _ _ Hcall) as Hroom.
  destruct (gc_source _ _ _ _ Hcall) as [Hsl Hsrc].
  set (s := State dest destlen 0 source sourcelen 0 0 0) in *.
  pose proof (enough_bits _ _ _ s Hok (start_bits _ _ _ _)) as Hf.
  assert (Hsrc' : Z.of_nat (length source) + 65536 <= 2 ^ 32) by lia.
  pose proof (runs_blocks source destlen (given dest) Hsrc' Hroom slow lengths0 lensym0 distsym0 G1 G2 G3
    (enough s) s Hok (start_bits _ _ _ _) Hf) as Hr.
  unfold puff. fold s.
  assert (Hend : forall err s', ok source destlen (given dest) s' -> result_code err ->
    exists err' dest' dl sl,
      (if err <=? 0 then Some (err, out s', outcnt s', incnt s') else Some (err, out s', destlen, sourcelen))
        = Some (err', dest', dl, sl) /\ -11 <= err' <= 2 /\ length <$> dest' = length <$> dest /\
      (0 < err' -> dl = destlen /\ sl = sourcelen) /\
      (err' <= 0 -> 0 <= sl <= sourcelen /\ (is_Some dest -> 0 <= dl <= destlen))).
  { intros err s' Hok' Hcode.
    assert (Hlen : length <$> out s' = length <$> dest /\ (is_Some dest -> 0 <= outcnt s' <= destlen)).
    { pose proof (ok_out _ _ _ _ Hok') as Ho. destruct dest as [o|]; destruct (out s') as [o'|]; cbn in Ho.
      - destruct (gc_dest _ _ _ _ Hcall o eq_refl). destruct Ho as (_ & Hl & Hc). split; [cbn; f_equal; lia|done].
      - by destruct Ho.
      - by destruct Ho.
      - split; [done|]. by intros []. }
    destruct Hlen as [Hlen Hcnt]. pose proof (ok_incnt _ _ _ _ Hok'). pose proof (ok_inlen _ _ _ _ Hok').
    destruct (Z.leb_spec err 0); do 4 eexists; (split; [done|]); (split; [done|]); (split; [done|]);
      (split; [lia|]); intros; [split; [lia|done]|lia]. }
  unfold runs in Hr. destruct (blocks _ _ _ _ (enough s) s) as [err s'|s'|]; [| |done].
  - destruct Hr. by apply Hend.
  - by apply (Hend 2).
Qed.

(** C19: The two builds of the inflater are the same function.  With [SLOW] (a bit at
    a time) and without (a byte at a time, the default), [puff] gives the same code,
    the same output and the same lengths, on every input. *)
Theorem puff_decoders_agree lengths0 lensym0 distsym0 dest destlen source sourcelen :
  good_stack lengths0 lensym0 distsym0 -> good_call dest destlen source sourcelen ->
  puff true lengths0 lensym0 distsym0 dest destlen source sourcelen
  = puff false lengths0 lensym0 distsym0 dest destlen source sourcelen.
Proof.
  intros [G1 G2 G3] Hcall. pose proof (good_start _ _ _ _ Hcall) as Hok. pose proof (good_room _ _ _ _ Hcall) as Hroom.
  destruct (gc_source _ _ _ _ Hcall) as [Hsl Hsrc].
  set (s := State dest destlen 0 source sourcelen 0 0 0) in *.
  pose proof (enough_bits _ _ _ s Hok (start_bits _ _ _ _)) as Hf.
  assert (Hsrc' : Z.of_nat (length source) + 65536 <= 2 ^ 32) by lia.
  pose proof (blocks_agree source destlen (given dest) Hsrc' Hroom lengths0 lensym0 distsym0 G1 G2 G3
    (enough s) s Hok (start_bits _ _ _ _) Hf) as Ha.
  unfold puff. fold s. unfold agree in Ha.
  destruct (blocks true _ _ _ (enough s) s) as [err s'|s'|], (blocks false _ _ _ (enough s) s) as [err' s''|s''|]; try done.
  - destruct Ha as [<- [<-|[Hneg (b & c & ->)]]]; done.
  - by destruct Ha as (b & c & ->).
Qed.

(** ** Complete codes *)

Section Complete.
Context (src : list char) (dlen : Z) (room : bool).
Context (Hsrc : Z.of_nat (length src) + 65536 <= 2 ^ 32).
Abbreviation ok := (ok src dlen room).
Abbreviation runs := (runs src dlen room).

(** While codes are missing, some code of the lengths to come is met. *)
Lemma decode_loop_complete h ls (k l : nat) code first lft s :
  table h ls -> ok s -> bits_ok s -> (l + k = 16)%nat -> (1 <= l)%nat -> first <= code -> code mod 2 = 0 ->
  codes_left (tally ls) (range (Z.of_nat l) (Z.of_nat k)) lft = Some 0 -> code + 1 < first + 2 * lft ->
  runs (decode_loop h k (Z.of_nat l) code first (Z.of_nat (base ls l))) s (fun sym _ => 0 <= sym).
Proof.
  intros Ht. revert l code first lft s. induction k as [|k IH]; intros l code first lft s Hok Hb Hk Hl Hc Hev Hcl Hlt.
  { injection Hcl as ->. lia. }
  cbn [decode_loop]. apply runs_bind, (runs_bits _ _ _ Hsrc); [done|done|done|]. intros b s' Hok' Hb' _ Hbr _.
  rewrite lor_bit by done. apply runs_bind. eapply runs_lift; [by apply (table_count h ls); [|lia]|].
  rewrite range_cons in Hcl. cbn [codes_left] in Hcl. rewrite aget_nat, tally_lookup in Hcl by lia.
  cbn [mbind option_bind] in Hcl. rewrite Z.shiftl_mul_pow2 in Hcl by done.
  destruct (Z.ltb_spec (lft * 2 ^ 1 - Z.of_nat (occurs (Z.of_nat l) ls)) 0) as [Hneg|Hpos].
  { injection Hcl as Hcl. lia. }
  destruct (Z.ltb_spec (code + b - Z.of_nat (occurs (Z.of_nat l) ls)) first) as [Hhit|Hmiss].
  - destruct (decode_hit h ls l (code + b) first Ht) as (sym & E & _ & Hsym & _); [lia|lia|].
    eapply runs_lift; [exact E|]. lia.
  - replace (Z.of_nat l + 1) with (Z.of_nat (S l)) by lia.
    replace (Z.of_nat (base ls l) + _) with (Z.of_nat (base ls (S l))) by (rewrite base_S by done; lia).
    rewrite !Z.shiftl_mul_pow2 by done.
    apply (IH _ _ _ (lft * 2 ^ 1 - Z.of_nat (occurs (Z.of_nat l) ls))); try done; try lia.
    by apply Z.mod_mul.
Qed.

Lemma decode_complete slow h ls s :
  table h ls -> codes_left (tally ls) (range 1 MAXBITS) 1 = Some 0 -> ok s -> bits_ok s ->
  runs (decode slow h) s (fun sym _ => 0 <= sym).
Proof.
  intros Ht Hcl Hok Hb.
  assert (Hs : runs (decode true h) s (fun sym _ => 0 <= sym)).
  { apply (decode_loop_complete h ls 15 1 0 0 1); try done. }
  destruct slow; [done|]. pose proof (decode_agrees src dlen room Hsrc h s Hok Hb) as Ha.
  unfold PuffSafe.runs, decode, agree in *.
  destruct (decode_slow h s) as [sym s1|s1|], (decode_fast h s) as [sym' s2|s2|]; try done.
  - by destruct Ha as [<- _].
  - destruct Ha as (b & c & ->). by apply ok_set_bits.
Qed.
End Complete.

(** C20: [construct] builds the canonical code.  For the first [n] entries of any list
    of code lengths up to 15, with room for [n] symbols: it returns, the counts are the
    tallies of the lengths, the symbols that have a code are sorted by length and then
    by value at the front of the table, and the result tells the over-subscribed codes
    (negative, exactly when the Kraft sum is above one), the complete ones (zero) and
    the incomplete ones (the number of 15-bit codes left). *)
Theorem construct_correct h a (n : nat) :
  (n <= length a)%nat -> (n <= length (hsymbol h))%nat -> code_lengths (take n a) ->
  let ls := take n a in
  exists err h', construct h a (Z.of_nat n) = Some (err, h') /\
    hcount h' = tally ls /\ length (hsymbol h') = length (hsymbol h) /\
    (0 <= err -> take (length (sorted_symbols ls)) (hsymbol h') = sorted_symbols ls) /\
    (if Nat.eqb (occurs 0 ls) n then err = 0
     else (err < 0 <-> 2 ^ MAXBITS < kraft ls) /\ (0 <= err -> err = 2 ^ MAXBITS - kraft ls)).
Proof.
  intros Hn Hmem Hls ls. destruct (wp_construct h a n Hn Hmem Hls) as (err & h' & E & Hc).
  exists err, h'. split; [done|]. split; [apply Hc|]. split; [apply Hc|]. split.
  - intros He. rewrite (co_symbol _ _ _ _ Hc He). by rewrite take_app_length.
  - assert (El : length ls = n) by (subst ls; rewrite length_take; lia). subst ls.
    destruct (Nat.eqb_spec (occurs 0 (take n a)) n) as [Ez|Ez].
    + apply (co_empty _ _ _ _ Hc). congruence.
    + assert (Hne : occurs 0 (take n a) <> length (take n a)) by congruence.
      split; [by apply (co_over _ _ _ _ Hc)|by apply (co_left _ _ _ _ Hc)].
Qed.

(** A complete code decodes every input.  When [construct] returns 0 for lengths that
    are not all zero, [decode] with that table, in both builds and from any state of the
    input, either runs out of input or returns a symbol that has a code: never the error. *)
Theorem complete_code_decodes slow h a (n : nat) h' src dlen room s :
  (n <= length a)%nat -> (n <= length (hsymbol h))%nat -> code_lengths (take n a) ->
  construct h a (Z.of_nat n) = Some (0, h') -> occurs 0 (take n a) <> n ->
  Z.of_nat (length src) + 65536 <= 2 ^ 32 -> ok src dlen room s -> bits_ok s ->
  match decode slow h' s with
  | Ret sym s' => 0 <= sym < Z.of_nat n /\ a !! Z.to_nat sym <> Some 0 /\ left s' < left s
  | Longjmp _ => True
  | Stuck => False
  end.
Proof.
  intros Hn Hmem Hls E Hne Hsrc Hok Hb.
  destruct (wp_construct h a n Hn Hmem Hls) as (err & h2 & E' & Hc). rewrite E in E'. injection E' as <- <-.
  assert (El : length (take n a) = n) by (rewrite length_take; lia).
  pose proof (constructed_table _ _ _ _ Hc Hls ltac:(lia)) as Ht.
  destruct (codes_left_spec (take n a) Hls) as (lft & Ecl & Hneg & Hpos).
  pose proof (co_left _ _ _ _ Hc ltac:(congruence) ltac:(lia)) as Hk.
  assert (lft = 0) as -> by lia.
  pose proof (decode_complete src dlen room Hsrc slow h' _ s Ht Ecl Hok Hb) as H1.
  pose proof (runs_decode src dlen room Hsrc slow h' _ s Ht Hok Hb) as H2.
  unfold runs in *. destruct (decode slow h' s) as [sym s'|s'|]; [|done|done].
  destruct H2 as (_ & _ & [->|(H2 & H3 & _ & H4)]); [lia|]. rewrite El in H2. split; [done|]. split; [|done].
  rewrite lookup_take_lt in H3 by lia. done.
Qed.

(** ** Stored blocks *)

(** A deflate stream of stored blocks, as an encoder without compression writes it. *)
Definition stored_block (last : bool) (chunk : list char) : list char :=
  let len := Z.of_nat (length chunk) in
  of_bytes [if last then 1 else 0; len mod 256; len / 256; 255 - len mod 256; 255 - len / 256] ++ chunk.

Fixpoint stored_stream (chunks : list (list char)) : list char :=
  match chunks with
  | [] => []
  | [c] => stored_block true c
  | c :: cs => stored_block false c ++ stored_stream cs
  end.

Lemma bval_byte z : 0 <= z < 256 -> bval (byte z) = z.
Proof. intros Hz. unfold bval, byte. rewrite u8_small, N_ascii_embedding by lia. lia. Qed.

Lemma byte_bval c : byte (bval c) = c.
Proof. unfold byte. rewrite u8_small by apply bval_range. unfold bval. by rewrite N2Z.id, ascii_N_embedding. Qed.

Lemma bits_have need s :
  0 <= need <= bitcnt s ->
  bits need s = Ret (Z.land (bitbuf s) (Z.shiftl 1 need - 1)) (set_bits (Z.shiftr (bitbuf s) need) (bitcnt s - need) s).
Proof.
  intros Hn. unfold bits, bind, get, upd, ret. cbn [M_monad load]. unfold bind, get, ret. cbn [M_monad].
  by destruct (Z.ltb_spec (bitcnt s) need); [lia|].
Qed.

(** The two bytes of a length, and their complements. *)
Lemma stored_length len : 0 <= len < 65536 -> Z.lor (len mod 256) (Z.shiftl (len / 256) 8) = len.
Proof.
  intros Hl. rewrite lor_add; [change (2 ^ 8) with 256; Z.div_mod_to_equations; lia|done|].
  change (2 ^ 8) with 256. apply Z.mod_pos_bound. lia.
Qed.

Lemma stored_complement len : 0 <= len < 65536 ->
  Z.land (u32 (Z.lnot len)) 255 = 255 - len mod 256 /\
  Z.land (Z.shiftr (u32 (Z.lnot len)) 8) 255 = 255 - len / 256.
Proof.
  intros Hl. change 255 with (Z.ones 8). rewrite !Z.land_ones, Z.shiftr_div_pow2 by done.
  assert (E : u32 (Z.lnot len) = 2 ^ 32 - 1 - len).
  { unfold Z.lnot, u32, Z.pred. symmetry. apply (Z.mod_unique _ _ (-1)); lia. }
  rewrite E. change (Z.ones 8) with 255. change (2 ^ 8) with 256. change (2 ^ 32) with 4294967296.
  Z.div_mod_to_equations. lia.
Qed.

Section Stored.
Context (src : list char) (dlen : Z).
Context (Hsrc : Z.of_nat (length src) + 65536 <= 2 ^ 32).
Context (Hdlen : 0 <= dlen /\ dlen + 65536 <= 2 ^ 32).

(** Between two bytes: [n] of them written, [i] read. *)
Definition at_ (o : list char) (n i : nat) : state :=
  State (Some o) dlen (Z.of_nat n) src (Z.of_nat (length src)) (Z.of_nat i) 0 0.

Lemma at_ok o n i : Z.of_nat (length o) = dlen -> (n <= length o)%nat -> (i <= length src)%nat -> ok src dlen true (at_ o n i).
Proof. intros H1 H2 H3. split; cbn; try done; [lia|]. split; [done|]. split; [done|lia]. Qed.

Lemma byte_at o n i c s :
  Z.of_nat (length o) = dlen -> (n <= length o)%nat -> src !! i = Some c ->
  (exists b k, s = set_bits b k (at_ o n i)) -> next_byte s = Ret (bval c) (set_bits (bitbuf s) (bitcnt s) (at_ o n (S i))).
Proof.
  intros H1 H2 Hc (b & k & ->). pose proof (lookup_lt_Some _ _ _ Hc). rewrite next_byte_bits.
  destruct (next_byte_eq src dlen true Hsrc (at_ o n i)) as (c' & Hc' & E); [apply at_ok; lia|cbn; lia|].
  rewrite E. cbn in Hc'. rewrite Nat2Z.id, Hc in Hc'. injection Hc' as <-. unfold at_, set_incnt, set_bits. cbn.
  do 2 f_equal. lia.
Qed.

Lemma copy_in_at c o n i :
  Z.of_nat (length o) = dlen -> (n + length c <= length o)%nat ->
  (forall j x, c !! j = Some x -> src !! (i + j)%nat = Some x) ->
  copy_in (length c) (at_ o n i)
    = Ret tt (at_ (take n o ++ c ++ drop (n + length c) o) (n + length c) (i + length c)).
Proof.
  unfold copy_in. revert o n i. induction c as [|x c IH]; intros o n i Ho Hn Hc; cbn [repeat_m length].
  { rewrite !Nat.add_0_r. cbn [app]. by rewrite take_drop. }
  cbn [length] in Hn. pose proof (Hc 0%nat x eq_refl) as Hx. rewrite Nat.add_0_r in Hx.
  pose proof (lookup_lt_Some _ _ _ Hx) as Hi.
  unfold bind at 1 2. cbn [M_monad].
  rewrite (byte_at o n i x (at_ o n i)); [|lia|lia|done|by exists 0, 0]. cbn [bitbuf bitcnt at_].
  change (set_bits 0 0 ?s) with s. rewrite byte_bval.
  rewrite (put_eq src dlen true ltac:(done) _ (at_ o n (S i)) o); [|apply at_ok; lia|done|cbn; lia].
  assert (E : set_outcnt (outcnt (at_ o n (S i)) + 1) (set_out (Some (<[Z.to_nat (outcnt (at_ o n (S i))) := x]> o)) (at_ o n (S i)))
    = at_ (<[n := x]> o) (S n) (S i)).
  { unfold at_, set_outcnt, set_out. cbn. rewrite Nat2Z.id. f_equal. lia. }
  rewrite E, IH.
  - f_equal. f_equal; [|lia|lia]. rewrite drop_insert_lt by lia.
    rewrite (take_S_r _ n x) by (apply list_lookup_insert_eq; lia). rewrite take_insert_ge by lia.
    rewrite <- app_assoc. cbn [app]. do 4 f_equal. lia.
  - by rewrite length_insert.
  - rewrite length_insert. lia.
  - intros j y Hj. replace (S i + j)%nat with (i + S j)%nat by lia. by apply Hc.
Qed.

(** [stored], after the three bits of the block header. *)
Lemma stored_at c o n i :
  let len := Z.of_nat (length c) in
  Z.of_nat (length o) = dlen -> (n + length c <= length o)%nat -> len < 65536 ->
  (i + 5 + length c <= length src)%nat ->
  (forall j z, of_bytes [len mod 256; len / 256; 255 - len mod 256; 255 - len / 256] !! j = Some z ->
     src !! (S i + j)%nat = Some z) ->
  (forall j x, c !! j = Some x -> src !! (i + 5 + j)%nat = Some x) ->
  stored (set_bits 0 5 (at_ o n (S i)))
    = Ret 0 (at_ (take n o ++ c ++ drop (n + length c) o) (n + length c) (i + 5 + length c)).
Proof.
  intros len Ho Hn Hlen Hi Hby Hc.
  pose proof (Z.mod_pos_bound len 256 ltac:(done)) as Hm.
  assert (Hd : 0 <= len / 256 < 256) by (Z.div_mod_to_equations; lia).
  destruct (stored_complement len) as [Ec1 Ec2]; [lia|].
  assert (Hnext : forall j z, (j < 4)%nat -> 0 <= z < 256 ->
    of_bytes [len mod 256; len / 256; 255 - len mod 256; 255 - len / 256] !! j = Some (byte z) ->
    next_byte (at_ o n (S i + j)) = Ret z (at_ o n (S (S i + j)))).
  { intros j z Hj Hz E. rewrite (byte_at o n (S i + j) (byte z)); [|lia|lia|by apply Hby|by exists 0, 0].
    by rewrite bval_byte. }
  pose proof (Hnext 0%nat (len mod 256) ltac:(lia) ltac:(lia) eq_refl) as E0.
  pose proof (Hnext 1%nat (len / 256) ltac:(lia) ltac:(lia) eq_refl) as E1.
  pose proof (Hnext 2%nat (255 - len mod 256) ltac:(lia) ltac:(lia) eq_refl) as E2.
  pose proof (Hnext 3%nat (255 - len / 256) ltac:(lia) ltac:(lia) eq_refl) as E3.
  rewrite Nat.add_0_r in E0. rewrite (Nat.add_1_r (S i)) in E1.
  replace (S i + 2)%nat with (S (S (S i))) in E2 by lia. replace (S i + 3)%nat with (S (S (S (S i)))) in E3 by lia.
  unfold stored. unfold bind at 1. unfold upd at 1. cbn [M_monad].
  change (set_bits 0 0 _) with (at_ o n (S i)). unfold bind at 1. unfold get at 1. cbn [M_monad].
  rewrite u32_count by (cbn; lia).
  destruct (Z.ltb_spec (inlen (at_ o n (S i))) (incnt (at_ o n (S i)) + 4)) as [Hlt|_]; [cbn in Hlt; lia|].
  unfold bind at 1. cbn [M_monad]. rewrite E0. unfold bind at 1. cbn [M_monad]. rewrite E1. cbv zeta.
  rewrite stored_length by lia.
  unfold bind at 1. cbn [M_monad]. rewrite E2, Ec1, Z.eqb_refl. cbn [negb].
  unfold bind at 1. cbn [M_monad]. rewrite E3, Ec2, Z.eqb_refl. cbn [negb].
  set (s5 := at_ o n (S (S (S (S (S i)))))). unfold bind at 1. unfold get at 1. cbn [M_monad].
  rewrite u32_count by (cbn; lia).
  destruct (Z.ltb_spec (inlen s5) (incnt s5 + len)) as [Hlt|_]; [cbn in Hlt; lia|].
  change (out s5) with (Some o). cbv iota. rewrite u32_count by (cbn; lia).
  destruct (Z.ltb_spec (outlen s5) (outcnt s5 + len)) as [Hlt|_]; [cbn in Hlt; lia|].
  subst len. rewrite Nat2Z.id. unfold bind at 1. cbn [M_monad].
  subst s5. replace (S (S (S (S (S i))))) with (i + 5)%nat by lia. by rewrite copy_in_at.
Qed.

Lemma block_at slow l0 l1 l2 (last : bool) c o n i :
  Z.of_nat (length o) = dlen -> (n + length c <= length o)%nat -> Z.of_nat (length c) < 65536 ->
  (forall j x, stored_block last c !! j = Some x -> src !! (i + j)%nat = Some x) ->
  block slow l0 l1 l2 (at_ o n i)
    = Ret (last, 0) (at_ (take n o ++ c ++ drop (n + length c) o) (n + length c) (i + length (stored_block last c))).
Proof.
  intros Ho Hn Hlen Hsrcat. set (len := Z.of_nat (length c)) in *.
  assert (Hi : (i + length (stored_block last c) <= length src)%nat).
  { destruct (lookup_lt_is_Some_2 (stored_block last c) (length (stored_block last c) - 1)) as [x Hx]; [cbn; lia|].
    apply Hsrcat, lookup_lt_Some in Hx. cbn in *. lia. }
  assert (Hlb : length (stored_block last c) = (5 + length c)%nat) by done. rewrite Hlb in *.
  assert (Hby : forall j z, of_bytes [if last then 1 else 0; len mod 256; len / 256; 255 - len mod 256; 255 - len / 256] !! j = Some z ->
    src !! (i + j)%nat = Some z).
  { intros j z Hj. apply Hsrcat. unfold stored_block. by apply lookup_app_l_Some. }
  pose proof (Z.mod_pos_bound len 256 ltac:(done)) as Hm.
  assert (Hd : 0 <= len / 256 < 256) by (Z.div_mod_to_equations; lia).
  set (hd := byte (if last then 1 else 0)). set (s1 := set_bits 0 7 (at_ o n (S i))).
  assert (Hhd : Z.land (bval hd) 1 = (if last then 1 else 0) /\ Z.shiftr (bval hd) 1 = 0).
  { subst hd. destruct last; by vm_compute. }
  assert (Eb1 : bits 1 (at_ o n i) = Ret (if last then 1 else 0) s1).
  { rewrite (bits1_none src dlen true Hsrc (at_ o n i)); [|apply at_ok; lia|done|done].
    destruct (Z.eqb_spec (incnt (at_ o n i)) (inlen (at_ o n i))) as [Ei|_]; [cbn in Ei; lia|].
    rewrite (byte_at o n i hd (at_ o n i)); [|lia|lia| |by exists 0, 0].
    - destruct Hhd as [-> ->]. done.
    - rewrite <- (Nat.add_0_r i). by apply Hby. }
  assert (Eb2 : bits 2 s1 = Ret 0 (set_bits 0 5 (at_ o n (S i)))) by (rewrite bits_have by (cbn; lia); done).
  unfold block, bind at 1. cbn [M_monad]. rewrite Eb1. unfold bind at 1. cbn [M_monad]. rewrite Eb2.
  change (0 =? 0) with true. cbv iota. unfold bind at 1. cbn [M_monad].
  rewrite (stored_at c o n i); [| done | done | done | lia | |].
  - unfold ret. cbn [M_monad]. rewrite Nat.add_assoc. by destruct last.
  - intros j z Hj. replace (S i + j)%nat with (i + S j)%nat by lia. by apply Hby.
  - intros j x Hj. rewrite <- Nat.add_assoc. apply Hsrcat. exact Hj.
Qed.

Definition short (c : list char) : Prop := Z.of_nat (length c) < 65536.

Lemma stream_at slow l0 l1 l2 chunks o n i fuel :
  chunks <> [] -> Forall short chunks -> Z.of_nat (length o) = dlen ->
  (n + length (concat chunks) <= length o)%nat -> (length chunks <= fuel)%nat ->
  (forall j x, stored_stream chunks !! j = Some x -> src !! (i + j)%nat = Some x) ->
  blocks slow l0 l1 l2 fuel (at_ o n i)
    = Ret 0 (at_ (take n o ++ concat chunks ++ drop (n + length (concat chunks)) o)
        (n + length (concat chunks)) (i + length (stored_stream chunks))).
Proof.
  revert o n i fuel. induction chunks as [|c cs IH]; intros o n i fuel Hne Hs Ho Hn Hf Hsrc'; [done|].
  apply Forall_cons in Hs as [Hc Hs]. destruct fuel as [|fuel]; [cbn in Hf; lia|]. cbn [blocks length] in *.
  cbn [concat] in Hn |- *. rewrite length_app in Hn.
  assert (Es : stored_stream (c :: cs) = stored_block (match cs with [] => true | _ => false end) c ++ stored_stream cs).
  { destruct cs; [|done]. cbn. by rewrite app_nil_r. }
  rewrite Es in Hsrc' |- *. unfold bind at 1. cbn [M_monad].
  rewrite (block_at slow l0 l1 l2 (match cs with [] => true | _ => false end) c o n i);
    [|done|lia|exact Hc|intros j x Hj; by apply Hsrc', lookup_app_l_Some].
  cbn [negb Z.eqb]. destruct cs as [|c' cs].
  - cbn [concat stored_stream]. rewrite !app_nil_r. done.
  - set (o' := take n o ++ c ++ drop (n + length c) o).
    assert (Ho' : length o' = length o).
    { unfold o'. rewrite !length_app, length_take, length_drop. lia. }
    assert (Etake : take (n + length c) o' = take n o ++ c).
    { unfold o'. rewrite app_assoc. apply take_app_length'. rewrite length_app, length_take. lia. }
    assert (Edrop : forall k, drop (n + length c + k) o' = drop (n + length c + k) o).
    { intros k. unfold o'. rewrite app_assoc, drop_app_ge by (rewrite length_app, length_take; lia).
      rewrite drop_drop, length_app, length_take. f_equal. lia. }
    rewrite IH; try done.
    + rewrite !length_app, !Nat.add_assoc, Etake, Edrop, <- !app_assoc. reflexivity.
    + by rewrite Ho'.
    + rewrite Ho'. lia.
    + lia.
    + intros j x Hj. rewrite <- Nat.add_assoc. apply Hsrc'. rewrite lookup_app_r by lia.
      rewrite <- Hj. f_equal. lia.
Qed.
End Stored.

Lemma stored_blocks_length chunks : (length chunks <= length (stored_stream chunks))%nat.
Proof.
  induction chunks as [|c cs IH]; [done|]. destruct cs; [cbn; lia|].
  assert (H : (5 <= length (stored_block false c))%nat) by (cbn; lia).
  change (stored_stream (c :: l :: cs)) with (stored_block false c ++ stored_stream (l :: cs)).
  rewrite length_app. cbn [length] in *. lia.
Qed.

(** What an encoder stores, the inflater gives back.  For any non-empty list of
    chunks of less than 64 kilobytes, [puff] on the stream of their stored blocks, with
    a buffer at least as long as the data, returns 0 with the chunks in order at the front
    of the buffer, the rest of the buffer as it was, and the exact lengths of both. *)
Theorem stored_roundtrip slow lengths0 lensym0 distsym0 buf chunks destlen sourcelen :
  chunks <> [] -> Forall short chunks -> (length (concat chunks) <= length buf)%nat ->
  good_call (Some buf) destlen (stored_stream chunks) sourcelen ->
  puff slow lengths0 lensym0 distsym0 (Some buf) destlen (stored_stream chunks) sourcelen
  = Some (0, Some (concat chunks ++ drop (length (concat chunks)) buf), Z.of_nat (length (concat chunks)), sourcelen).
Proof.
  intros Hne Hs Hlen [[Esl Hsl] Hd]. destruct (Hd buf eq_refl) as [Edl Hdl]. unfold puff.
  assert (E : blocks slow lengths0 lensym0 distsym0 (enough (State (Some buf) destlen 0 (stored_stream chunks) sourcelen 0 0 0))
    (State (Some buf) destlen 0 (stored_stream chunks) sourcelen 0 0 0)
    = Ret 0 (at_ (stored_stream chunks) destlen (concat chunks ++ drop (length (concat chunks)) buf)
        (length (concat chunks)) (length (stored_stream chunks)))).
  { rewrite Esl. apply (stream_at (stored_stream chunks) destlen) with (n := 0%nat) (i := 0%nat); try done; try lia.
    unfold enough. cbn [in_]. pose proof (stored_blocks_length chunks). lia. }
  rewrite E. cbn. by rewrite Esl.
Qed.

(** ** Witnesses *)

Definition ex_lengths : list Z := [3; 3; 3; 3; 3; 2; 4; 4].

Lemma good_junk : good_stack junk (take 286 junk) (take 30 junk).
Proof. by split. Qed.

Lemma puff_safe_witness :
  exists err dest' dl sl,
    puff false junk (take 286 junk) (take 30 junk) (Some (zeros 3)) 3 ex_hello 10 = Some (err, dest', dl, sl) /\
    length <$> dest' = Some 3%nat.
Proof.
  destruct (puff_safe false junk (take 286 junk) (take 30 junk) (Some (zeros 3)) 3 ex_hello 10)
    as (err & dest' & dl & sl & E & _ & H & _); [apply good_junk| |exists err, dest', dl, sl; split; [exact E|exact H]].
  split; [vm_compute; split; [reflexivity|congruence]|]. intros o [= <-]. vm_compute. split; [reflexivity|congruence].
Defined.

Lemma puff_decoders_agree_witness :
  puff true junk (take 286 junk) (take 30 junk) None 0 ex_dynamic 67
    = puff false junk (take 286 junk) (take 30 junk) None 0 ex_dynamic 67 /\
  puff false junk (take 286 junk) (take 30 junk) None 0 ex_dynamic 67 = Some (0, None, 150, 67).
Proof.
  split; [|vm_compute; reflexivity]. apply puff_decoders_agree; [apply good_junk|].
  split; [vm_compute; split; [reflexivity|congruence]|done].
Defined.

(** The code of section 3.2.2 of RFC 1951. *)
Lemma construct_correct_witness :
  exists err h', construct (Huffman [] (replicate 8 0)) ex_lengths 8 = Some (err, h') /\ err = 0 /\
    take 8 (hsymbol h') = [5; 0; 1; 2; 3; 4; 6; 7].
Proof.
  destruct (construct_correct (Huffman [] (replicate 8 0)) ex_lengths 8)
    as (err & h' & E & _ & _ & Hs & Hk); [cbn; lia|cbn; lia|repeat constructor; vm_compute; congruence|].
  exists err, h'. split; [exact E|]. assert (He : err = 0).
  { assert (Hkr : kraft (take 8 ex_lengths) = 2 ^ MAXBITS) by (vm_compute; reflexivity).
    change (Nat.eqb (occurs 0 (take 8 ex_lengths)) 8) with false in Hk. cbv iota in Hk. rewrite Hkr in Hk. lia. }
  split; [exact He|]. assert (Hpos : 0 <= err) by lia. exact (Hs Hpos).
Defined.

Lemma complete_code_decodes_witness :
  match construct (Huffman [] (replicate 8 0)) ex_lengths 8 with
  | Some (e, h) => e = 0 /\
      match decode false h (State None 0 0 [byte 77] 1 0 0 0) with
      | Ret sym s' => 0 <= sym < 8 /\ ex_lengths !! Z.to_nat sym <> Some 0 /\ left s' < 8
      | Longjmp _ => True
      | Stuck => False
      end
  | None => False
  end.
Proof.
  destruct (construct (Huffman [] (replicate 8 0)) ex_lengths 8) as [[e h]|] eqn:E; [|by vm_compute in E].
  assert (He : e = 0) by (apply (f_equal (fmap fst)) in E; vm_compute in E; by injection E as <-).
  split; [exact He|]. subst e.
  apply (complete_code_decodes false (Huffman [] (replicate 8 0)) ex_lengths 8 h [byte 77] 0 false
    (State None 0 0 [byte 77] 1 0 0 0)); try (cbn; lia); try (by vm_compute); try exact E.
  - repeat constructor; vm_compute; congruence.
Defined.

Lemma stored_roundtrip_witness :
  puff false [] [] [] (Some (zeros 8)) 8 (stored_stream [chars "ab"; []; chars "cde"]) 20
  = Some (0, Some (chars "abcde" ++ zeros 3), 5, 20).
Proof.
  apply (stored_roundtrip false [] [] [] (zeros 8) [chars "ab"; []; chars "cde"] 8 20); [done| |cbn; lia|].
  - repeat constructor.
  - split; [vm_compute; split; [reflexivity|congruence]|]. intros o [= <-]. vm_compute. split; [reflexivity|congruence].
Defined.
