(* ===== verification/NgBuf.v ===== *)
(** * The buffer chains of nghttp2: [nghttp2_buf.c], [nghttp2_buf.h]

    The output buffers of the HTTP/2 library: [nghttp2_buf], a block of memory
    with three positions, and [nghttp2_bufs], a list of such blocks that grows by
    whole chunks up to [max_chunk].

    Memory is the list of its bytes; a pointer into a block is an offset from its
    [begin].  A block of no bytes is the NULL block: the sources never allocate
    one.  The list of chunks is a list, [cur] an index into it.  The allocator,
    which the application supplies, is the parameter [malloc_ok]: it says which
    requests succeed; [junk] is what fresh memory holds.  Writing outside a block
    makes the result [None]. *)

From stdpp Require Import list.
From S2P Require Import Prelude CLib.

(** ** Error codes: [nghttp2.h] *)

Definition NGHTTP2_ERR_INVALID_ARGUMENT : Z := -501.
Definition NGHTTP2_ERR_BUFFER_ERROR : Z := -502.
Definition NGHTTP2_ERR_HEADER_COMP : Z := -523.
Definition NGHTTP2_ERR_NOMEM : Z := -901.

(** ** The allocator *)

(** How many requests it has seen, and how many blocks are allocated. *)
Record nghttp2_mem := Mem { requests : nat; live : Z }.

(** ** [nghttp2_buf] *)

Record nghttp2_buf := Buf { bytes : list char; pos : nat; last : nat; mark : nat }.

(** [nghttp2_buf_len], [nghttp2_buf_avail], [nghttp2_buf_mark_avail] and
    [nghttp2_buf_cap]; the offsets are [pos] and [last] themselves. *)
Definition nghttp2_buf_len (b : nghttp2_buf) : nat := last b - pos b.
Definition nghttp2_buf_cap (b : nghttp2_buf) : nat := length (bytes b).
Definition nghttp2_buf_avail (b : nghttp2_buf) : nat := nghttp2_buf_cap b - last b.
Definition nghttp2_buf_mark_avail (b : nghttp2_buf) : nat := mark b - last b.

Definition nghttp2_buf_shift_right (b : nghttp2_buf) (amt : nat) : nghttp2_buf :=
  Buf (bytes b) (pos b + amt) (last b + amt) (mark b).
Definition nghttp2_buf_shift_left (b : nghttp2_buf) (amt : nat) : nghttp2_buf :=
  Buf (bytes b) (pos b - amt) (last b - amt) (mark b).

Definition nghttp2_buf_init : nghttp2_buf := Buf [] 0 0 0.

(** [pos = last = mark = begin] *)
Definition nghttp2_buf_reset (b : nghttp2_buf) : nghttp2_buf := Buf (bytes b) 0 0 0.

Definition nghttp2_buf_wrap_init (begin : list char) : nghttp2_buf := Buf begin 0 0 0.

(** [*last = c], and the same with [last++]. *)
Definition hold (b : nghttp2_buf) (c : char) : option nghttp2_buf :=
  if (last b <? nghttp2_buf_cap b)%nat
  then Some (Buf (<[last b := c]> (bytes b)) (pos b) (last b) (mark b)) else None.
Definition step_last (b : nghttp2_buf) : nghttp2_buf := Buf (bytes b) (pos b) (S (last b)) (mark b).
Definition put (b : nghttp2_buf) (c : char) : option nghttp2_buf := step_last <$> hold b c.

(** The byte [last] points at. *)
Definition at_last (b : nghttp2_buf) : option char := bytes b !! last b.

(** [last = nghttp2_cpymem(last, p, n)], of at most [avail] bytes. *)
Definition cpymem (b : nghttp2_buf) (p : list char) : option nghttp2_buf :=
  if (length p <=? nghttp2_buf_avail b)%nat
  then Some (Buf (take (last b) (bytes b) ++ p ++ drop (last b + length p) (bytes b))
               (pos b) (last b + length p) (mark b))
  else None.

(** What a buffer holds: from [pos] to [last]. *)
Definition present (b : nghttp2_buf) : list char := take (nghttp2_buf_len b) (drop (pos b) (bytes b)).

(** [(uint8_t)z], and [x | y] on bytes. *)
Definition uint8 (z : Z) : char := ascii_of_N (Z.to_N (u8 z)).
Definition orc (x y : char) : char := uint8 (Z.lor (bval x) (bval y)).

(** ** [nghttp2_bufs] *)

Record nghttp2_bufs := Bufs {
  chain : list nghttp2_buf;   (* from [head] on *)
  cur : nat;
  chunk_length : nat;
  max_chunk : nat;
  chunk_used : nat;
  chunk_keep : nat;
  offset : nat
}.

Definition set_chain (c : list nghttp2_buf) (b : nghttp2_bufs) : nghttp2_bufs :=
  Bufs c (cur b) (chunk_length b) (max_chunk b) (chunk_used b) (chunk_keep b) (offset b).
Definition set_cur (n : nat) (b : nghttp2_bufs) : nghttp2_bufs :=
  Bufs (chain b) n (chunk_length b) (max_chunk b) (chunk_used b) (chunk_keep b) (offset b).
Definition set_chunk_used (n : nat) (b : nghttp2_bufs) : nghttp2_bufs :=
  Bufs (chain b) (cur b) (chunk_length b) (max_chunk b) n (chunk_keep b) (offset b).

(** [bufs->cur->buf = f(bufs->cur->buf)] *)
Definition on_cur (f : nghttp2_buf -> option nghttp2_buf) (b : nghttp2_bufs) : option nghttp2_bufs :=
  buf ← chain b !! cur b;
  buf' ← f buf;
  Some (set_chain (<[cur b := buf']> (chain b)) b).

Definition nghttp2_bufs_cur_avail (b : nghttp2_bufs) : option nat := nghttp2_buf_avail <$> chain b !! cur b.

Definition nghttp2_bufs_len (b : nghttp2_bufs) : nat :=
  fold_left (fun len buf => (len + nghttp2_buf_len buf)%nat) (chain b) 0%nat.

Definition nghttp2_bufs_rewind (b : nghttp2_bufs) : nghttp2_bufs := set_cur 0 b.

(** The loop of [nghttp2_bufs_seek_last_present]: [l] are the chunks from the
    index [i] on. *)
Fixpoint seek_last (l : list nghttp2_buf) (i c : nat) : nat :=
  match l with
  | [] => c
  | buf :: l => if (nghttp2_buf_len buf =? 0)%nat then c else seek_last l (S i) i
  end.

Definition nghttp2_bufs_seek_last_present (b : nghttp2_bufs) : nghttp2_bufs :=
  set_cur (seek_last (drop (cur b) (chain b)) (cur b) (cur b)) b.

Definition nghttp2_bufs_next_present (b : nghttp2_bufs) : bool :=
  match chain b !! S (cur b) with
  | Some buf => negb (nghttp2_buf_len buf =? 0)%nat
  | None => false
  end.

Definition nghttp2_bufs_fast_addb (b : nghttp2_bufs) (c : char) : option nghttp2_bufs :=
  on_cur (fun buf => put buf c) b.
Definition nghttp2_bufs_fast_addb_hold (b : nghttp2_bufs) (c : char) : option nghttp2_bufs :=
  on_cur (fun buf => hold buf c) b.
Definition nghttp2_bufs_fast_orb (b : nghttp2_bufs) (c : char) : option nghttp2_bufs :=
  on_cur (fun buf => x ← at_last buf; put buf (orc x c)) b.
Definition nghttp2_bufs_fast_orb_hold (b : nghttp2_bufs) (c : char) : option nghttp2_bufs :=
  on_cur (fun buf => x ← at_last buf; hold buf (orc x c)) b.

Section Alloc.
Context (malloc_ok : nat -> bool) (junk : nat -> nat -> char).

(** [malloc]: whether it succeeds. *)
Definition malloc (m : nghttp2_mem) : bool * nghttp2_mem :=
  let ok := malloc_ok (requests m) in
  (ok, Mem (S (requests m)) (if ok then live m + 1 else live m)).

(** [realloc] of a block that may be NULL. *)
Definition realloc (m : nghttp2_mem) (null : bool) : bool * nghttp2_mem :=
  let ok := malloc_ok (requests m) in
  (ok, Mem (S (requests m)) (if ok && null then live m + 1 else live m)).

(** [free] of a block that may be NULL. *)
Definition free (m : nghttp2_mem) (null : bool) : nghttp2_mem :=
  Mem (requests m) (if null then live m else live m - 1).

(** [n] fresh bytes. *)
Definition fresh_bytes (m : nghttp2_mem) (n : nat) : list char := map (junk (requests m)) (seq 0 n).

Definition nghttp2_buf_reserve (buf : nghttp2_buf) (new_cap : nat) (m : nghttp2_mem)
  : Z * nghttp2_buf * nghttp2_mem :=
  let cap := nghttp2_buf_cap buf in
  if (new_cap <=? cap)%nat then (0, buf, m) else
  let new_cap := Nat.max new_cap (cap * 2) in
  let '(ok, m') := realloc m (cap =? 0)%nat in
  if negb ok then (NGHTTP2_ERR_NOMEM, buf, m') else
  (0, Buf (bytes buf ++ fresh_bytes m (new_cap - cap)) (pos buf) (last buf) (mark buf), m').

Definition nghttp2_buf_init2 (initial : nat) (m : nghttp2_mem) : Z * nghttp2_buf * nghttp2_mem :=
  nghttp2_buf_reserve nghttp2_buf_init initial m.

Definition nghttp2_buf_free (buf : nghttp2_buf) (m : nghttp2_mem) : nghttp2_mem :=
  free m (nghttp2_buf_cap buf =? 0)%nat.

Definition buf_chain_new (chunk_length : nat) (m : nghttp2_mem) : Z * nghttp2_buf * nghttp2_mem :=
  let '(ok, m) := malloc m in
  if negb ok then (NGHTTP2_ERR_NOMEM, nghttp2_buf_init, m) else
  let '(rv, buf, m) := nghttp2_buf_init2 chunk_length m in
  if negb (rv =? 0) then (NGHTTP2_ERR_NOMEM, buf, free m false) else
  (0, buf, m).

Definition buf_chain_del (m : nghttp2_mem) (buf : nghttp2_buf) : nghttp2_mem :=
  free (nghttp2_buf_free buf m) false.

(** *** Initialisation

    A failed initialisation leaves [bufs] as it was. *)

Definition nghttp2_bufs_init3 (b : nghttp2_bufs) (chunk_length max_chunk chunk_keep offset : nat)
    (m : nghttp2_mem) : Z * nghttp2_bufs * nghttp2_mem :=
  if (chunk_keep =? 0)%nat || (max_chunk <? chunk_keep)%nat || (chunk_length <? offset)%nat
  then (NGHTTP2_ERR_INVALID_ARGUMENT, b, m) else
  let '(rv, buf, m) := buf_chain_new chunk_length m in
  if negb (rv =? 0) then (rv, b, m) else
  (0, Bufs [nghttp2_buf_shift_right buf offset] 0 chunk_length max_chunk 1 chunk_keep offset, m).

Definition nghttp2_bufs_init2 (b : nghttp2_bufs) (chunk_length max_chunk offset : nat)
    (m : nghttp2_mem) : Z * nghttp2_bufs * nghttp2_mem :=
  nghttp2_bufs_init3 b chunk_length max_chunk max_chunk offset m.

Definition nghttp2_bufs_init (b : nghttp2_bufs) (chunk_length max_chunk : nat)
    (m : nghttp2_mem) : Z * nghttp2_bufs * nghttp2_mem :=
  nghttp2_bufs_init2 b chunk_length max_chunk 0 m.

(** The chunks are deleted from [head] on. *)
Definition nghttp2_bufs_free (b : nghttp2_bufs) (m : nghttp2_mem) : nghttp2_bufs * nghttp2_mem :=
  (set_chain [] b, fold_left buf_chain_del (chain b) m).

Definition nghttp2_bufs_realloc (b : nghttp2_bufs) (chunk_length : nat) (m : nghttp2_mem)
  : Z * nghttp2_bufs * nghttp2_mem :=
  if (chunk_length <? offset b)%nat then (NGHTTP2_ERR_INVALID_ARGUMENT, b, m) else
  let '(rv, buf, m) := buf_chain_new chunk_length m in
  if negb (rv =? 0) then (rv, b, m) else
  let '(b, m) := nghttp2_bufs_free b m in
  (0, Bufs [nghttp2_buf_shift_right buf (offset b)] 0 chunk_length (max_chunk b) 1 (chunk_keep b) (offset b), m).

Definition nghttp2_bufs_wrap_init (b : nghttp2_bufs) (begin : list char) (m : nghttp2_mem)
  : Z * nghttp2_bufs * nghttp2_mem :=
  let '(ok, m) := malloc m in
  if negb ok then (NGHTTP2_ERR_NOMEM, b, m) else
  (0, Bufs [nghttp2_buf_wrap_init begin] 0 (length begin) 1 1 1 0, m).

(** [vec]: the blocks of memory of the application. *)
Definition nghttp2_bufs_wrap_init2 (b : nghttp2_bufs) (vec : list (list char)) (m : nghttp2_mem)
  : Z * nghttp2_bufs * nghttp2_mem :=
  let veclen := length vec in
  if (veclen =? 0)%nat then nghttp2_bufs_wrap_init b [] m else
  let '(ok, m) := malloc m in
  if negb ok then (NGHTTP2_ERR_NOMEM, b, m) else
  (0, Bufs (map nghttp2_buf_wrap_init vec) 0 0 veclen veclen veclen 0, m).

(** All chunks of wrapped buffers are one block. *)
Definition nghttp2_bufs_wrap_free (b : nghttp2_bufs) (m : nghttp2_mem) : nghttp2_mem :=
  free m (length (chain b) =? 0)%nat.

(** *** Writing *)

Definition bufs_alloc_chain (b : nghttp2_bufs) (m : nghttp2_mem) : Z * nghttp2_bufs * nghttp2_mem :=
  if (S (cur b) <? length (chain b))%nat then (0, set_cur (S (cur b)) b, m) else
  if (max_chunk b =? chunk_used b)%nat then (NGHTTP2_ERR_BUFFER_ERROR, b, m) else
  let '(rv, buf, m) := buf_chain_new (chunk_length b) m in
  if negb (rv =? 0) then (rv, b, m) else
  let b := set_chunk_used (S (chunk_used b)) b in
  (0, set_cur (S (cur b)) (set_chain (chain b ++ [nghttp2_buf_shift_right buf (offset b)]) b), m).

Definition nghttp2_bufs_advance := bufs_alloc_chain.

(** The loop of [nghttp2_bufs_add]; [data] are the bytes from [p] on. *)
Fixpoint add_loop (fuel : nat) (data : list char) (b : nghttp2_bufs) (m : nghttp2_mem)
  : option (Z * nghttp2_bufs * nghttp2_mem) :=
  match fuel with
  | O => None
  | S fuel =>
      if (length data =? 0)%nat then Some (0, b, m) else
      av ← nghttp2_bufs_cur_avail b;
      let nwrite := Nat.min av (length data) in
      if (nwrite =? 0)%nat then
        let '(rv, b, m) := bufs_alloc_chain b m in
        if negb (rv =? 0) then Some (rv, b, m) else add_loop fuel data b m
      else
        b ← on_cur (fun buf => cpymem buf (take nwrite data)) b;
        add_loop fuel (drop nwrite data) b m
  end.

(** Each turn writes a byte, or moves on to another of the at most [max_chunk]
    chunks. *)
Definition nghttp2_bufs_add (data : list char) (b : nghttp2_bufs) (m : nghttp2_mem) :=
  add_loop (S (length data + max_chunk b + length (chain b))) data b m.

Definition bufs_ensure_addb (b : nghttp2_bufs) (m : nghttp2_mem) : option (Z * nghttp2_bufs * nghttp2_mem) :=
  av ← nghttp2_bufs_cur_avail b;
  if (0 <? av)%nat then Some (0, b, m) else
  let '(rv, b, m) := bufs_alloc_chain b m in
  if negb (rv =? 0) then Some (rv, b, m) else Some (0, b, m).

Definition ensured (f : nghttp2_bufs -> option nghttp2_bufs) (b : nghttp2_bufs) (m : nghttp2_mem)
  : option (Z * nghttp2_bufs * nghttp2_mem) :=
  '(rv, b, m) ← bufs_ensure_addb b m;
  if negb (rv =? 0) then Some (rv, b, m) else
  b ← f b; Some (0, b, m).

Definition nghttp2_bufs_addb (c : char) := ensured (fun b => nghttp2_bufs_fast_addb b c).
Definition nghttp2_bufs_addb_hold (c : char) := ensured (fun b => nghttp2_bufs_fast_addb_hold b c).
Definition nghttp2_bufs_orb (c : char) := ensured (fun b => nghttp2_bufs_fast_orb b c).
Definition nghttp2_bufs_orb_hold (c : char) := ensured (fun b => nghttp2_bufs_fast_orb_hold b c).

(** *** Reading out and starting over *)

(** The loops that copy every chunk to the end of a block of [len] bytes. *)
Definition copy_chunks (b : nghttp2_bufs) (resbuf : nghttp2_buf) : option nghttp2_buf :=
  foldl (fun r buf => r ← r; cpymem r (present buf)) (Some resbuf) (chain b).

(** The length, [*out] if it is set, and the allocator. *)
Definition nghttp2_bufs_remove (b : nghttp2_bufs) (m : nghttp2_mem) : option (Z * option (list char) * nghttp2_mem) :=
  let len := nghttp2_bufs_len b in
  if (len =? 0)%nat then Some (0, None, m) else
  let '(ok, m') := malloc m in
  if negb ok then Some (NGHTTP2_ERR_NOMEM, None, m') else
  resbuf ← copy_chunks b (nghttp2_buf_wrap_init (fresh_bytes m len));
  Some (Z.of_nat len, Some (bytes resbuf), m').

(** [out]: the block of the caller. *)
Definition nghttp2_bufs_remove_copy (b : nghttp2_bufs) (out : list char) : option (nat * list char) :=
  resbuf ← copy_chunks b (nghttp2_buf_wrap_init out);
  Some (nghttp2_bufs_len b, bytes resbuf).

(** The first loop of [nghttp2_bufs_reset]: the chunks it has reset, and those
    after [ci], if it stopped at one. *)
Fixpoint reset_chunks (off k : nat) (l : list nghttp2_buf) : list nghttp2_buf * option (list nghttp2_buf) :=
  match l with
  | [] => ([], None)
  | buf :: l =>
      let buf := nghttp2_buf_shift_right (nghttp2_buf_reset buf) off in
      if (k =? 1)%nat then ([buf], Some l)
      else let '(kept, rest) := reset_chunks off (k - 1) l in (buf :: kept, rest)
  end.

Definition nghttp2_bufs_reset (b : nghttp2_bufs) (m : nghttp2_mem) : nghttp2_bufs * nghttp2_mem :=
  let '(kept, rest) := reset_chunks (offset b) (chunk_keep b) (chain b) in
  let b := set_chain kept b in
  let '(b, m) := match rest with
                 | Some rest => (set_chunk_used (chunk_keep b) b, fold_left buf_chain_del rest m)
                 | None => (b, m)
                 end in
  (set_cur 0 b, m).

End Alloc.

(** ** One buffer *)

Definition wf_buf (off : nat) (b : nghttp2_buf) : Prop :=
  (pos b <= last b)%nat /\ (last b <= nghttp2_buf_cap b)%nat /\ (off <= nghttp2_buf_cap b)%nat.

Lemma present_length off b : wf_buf off b -> length (present b) = nghttp2_buf_len b.
Proof.
  intros (H1 & H2 & _). unfold present, nghttp2_buf_len, nghttp2_buf_cap in *.
  rewrite length_take, length_drop. lia.
Qed.

Lemma cpymem_spec off b p : wf_buf off b -> (length p <= nghttp2_buf_avail b)%nat ->
  exists b', cpymem b p = Some b' /\ wf_buf off b' /\ present b' = present b ++ p /\
    nghttp2_buf_cap b' = nghttp2_buf_cap b /\ pos b' = pos b /\ last b' = (last b + length p)%nat.
Proof.
  intros (H1 & H2 & H3) Hp. unfold cpymem.
  destruct (Nat.leb_spec (length p) (nghttp2_buf_avail b)); [|lia].
  eexists; split; [reflexivity|].
  assert (Hc : nghttp2_buf_cap (Buf (take (last b) (bytes b) ++ p ++ drop (last b + length p) (bytes b))
      (pos b) (last b + length p) (mark b)) = nghttp2_buf_cap b).
  { unfold nghttp2_buf_avail, nghttp2_buf_cap in *. cbn.
    rewrite !length_app, length_take, length_drop. lia. }
  split_and!; try done.
  - unfold wf_buf. rewrite Hc. cbn. unfold nghttp2_buf_avail in Hp. lia.
  - unfold present, nghttp2_buf_len. cbn. unfold nghttp2_buf_cap in *.
    rewrite drop_app_le by (rewrite length_take; lia).
    assert (Hd : length (drop (pos b) (take (last b) (bytes b))) = (last b - pos b)%nat)
      by (rewrite length_drop, length_take; lia).
    replace (last b + length p - pos b)%nat with (length (drop (pos b) (take (last b) (bytes b))) + length p)%nat by lia.
    rewrite take_app_add, take_app_length. f_equal.
    rewrite skipn_firstn_comm. f_equal.
Qed.

Lemma hold_spec off b c : wf_buf off b -> (0 < nghttp2_buf_avail b)%nat ->
  exists b', hold b c = Some b' /\ wf_buf off b' /\ present b' = present b /\
    nghttp2_buf_cap b' = nghttp2_buf_cap b /\ pos b' = pos b /\ last b' = last b /\ at_last b' = Some c.
Proof.
  intros (H1 & H2 & H3) Hp. unfold hold, nghttp2_buf_avail in *.
  destruct (Nat.ltb_spec (last b) (nghttp2_buf_cap b)); [|lia].
  eexists; split; [reflexivity|]. unfold wf_buf, nghttp2_buf_cap, present, nghttp2_buf_len, at_last in *. cbn.
  rewrite length_insert. split_and!; try done.
  - rewrite drop_insert_ge by lia. by rewrite take_insert_ge by lia.
  - by rewrite list_lookup_insert_eq by lia.
Qed.

Lemma put_spec off b c : wf_buf off b -> (0 < nghttp2_buf_avail b)%nat ->
  exists b', put b c = Some b' /\ wf_buf off b' /\ present b' = present b ++ [c] /\
    nghttp2_buf_cap b' = nghttp2_buf_cap b /\ pos b' = pos b /\ last b' = S (last b).
Proof.
  intros Hw Hp. destruct (cpymem_spec off b [c] Hw) as (b' & E & W & P & C & Hpos & L); [cbn; lia|].
  exists b'. split; [|cbn in L; split_and!; try done; lia].
  rewrite <- E. unfold put, hold, cpymem, step_last, nghttp2_buf_avail, nghttp2_buf_cap in *.
  change (length [c]) with 1%nat. rewrite (proj2 (Nat.ltb_lt _ _)) by lia. rewrite (proj2 (Nat.leb_le _ _)) by lia.
  cbn. rewrite insert_take_drop by lia. by rewrite (Nat.add_1_r (last b)).
Qed.

(** ** Chains *)

(** All the bytes of [bufs], in order. *)
Definition contents (b : nghttp2_bufs) : list char := concat (map present (chain b)).

(** A chunk nothing has been written to. *)
Definition untouched (off : nat) (buf : nghttp2_buf) : Prop := pos buf = off /\ last buf = off.

(** The invariant: positions inside the blocks, [cur] a chunk of the chain, the
    chunks behind [cur] untouched, [chunk_used] the length of the chain. *)
Record wf (b : nghttp2_bufs) : Prop := {
  wf_chunks : Forall (wf_buf (offset b)) (chain b);
  wf_cur : (cur b < length (chain b))%nat;
  wf_tail : Forall (untouched (offset b)) (drop (S (cur b)) (chain b));
  wf_used : chunk_used b = length (chain b);
  wf_max : (chunk_used b <= max_chunk b)%nat;
  wf_keep : (0 < chunk_keep b <= max_chunk b)%nat;
  wf_grow : (chunk_used b < max_chunk b \/ chunk_keep b < max_chunk b)%nat -> (offset b <= chunk_length b)%nat
}.

(** Every chunk has room for a byte behind the offset. *)
Definition roomy (b : nghttp2_bufs) : Prop :=
  Forall (fun buf => (offset b < nghttp2_buf_cap buf)%nat) (chain b) /\ (offset b < chunk_length b)%nat.

(** The bytes that can still be written: in the chunks from [cur] on, and in
    those that can still be allocated. *)
Definition sum_nat (l : list nat) : nat := fold_right Nat.add 0%nat l.
Definition space (b : nghttp2_bufs) : nat :=
  sum_nat (map nghttp2_buf_avail (drop (cur b) (chain b)))
  + (max_chunk b - chunk_used b) * (chunk_length b - offset b).

(** The blocks of memory a chain is made of. *)
Definition blocks_of (buf : nghttp2_buf) : Z := if (nghttp2_buf_cap buf =? 0)%nat then 1 else 2.
Definition blocks (l : list nghttp2_buf) : Z := fold_right (fun buf n => blocks_of buf + n) 0 l.

Lemma blocks_app l l' : blocks (l ++ l') = blocks l + blocks l'.
Proof. unfold blocks. induction l as [|x l IH]; cbn; [done|]. rewrite IH. lia. Qed.

Lemma sum_nat_app l l' : sum_nat (l ++ l') = (sum_nat l + sum_nat l')%nat.
Proof. unfold sum_nat. induction l as [|x l IH]; cbn; [done|]. rewrite IH. lia. Qed.

(** A chain around its current chunk. *)
Lemma chain_split b : (cur b < length (chain b))%nat ->
  exists buf, chain b !! cur b = Some buf /\
    chain b = take (cur b) (chain b) ++ buf :: drop (S (cur b)) (chain b).
Proof.
  intros Hc. destruct (lookup_lt_is_Some_2 _ _ Hc) as [buf E]. exists buf. split; [done|].
  symmetry. by apply take_drop_middle.
Qed.

Lemma untouched_present off buf : untouched off buf -> present buf = [].
Proof. intros [H1 H2]. unfold present, nghttp2_buf_len. by rewrite H1, H2, Nat.sub_diag. Qed.

Lemma untouched_concat off l : Forall (untouched off) l -> concat (map present l) = [].
Proof. induction 1 as [|x l H _ IH]; [done|]. cbn. by rewrite (untouched_present off), IH. Qed.

Lemma on_cur_spec (f : nghttp2_buf -> option nghttp2_buf) b p buf buf' :
  wf b -> chain b !! cur b = Some buf -> f buf = Some buf' -> wf_buf (offset b) buf' ->
  present buf' = present buf ++ p -> nghttp2_buf_cap buf' = nghttp2_buf_cap buf ->
  exists b', on_cur f b = Some b' /\ wf b' /\ contents b' = contents b ++ p /\
    blocks (chain b') = blocks (chain b) /\ offset b' = offset b /\ max_chunk b' = max_chunk b /\
    cur b' = cur b /\ chunk_used b' = chunk_used b /\ chunk_length b' = chunk_length b /\
    chunk_keep b' = chunk_keep b /\ (roomy b -> roomy b') /\
    (space b' + nghttp2_buf_avail buf = space b + nghttp2_buf_avail buf')%nat.
Proof.
  intros W Hl Hf Hw Hp Hcap. destruct W as [W1 W2 W3 W4 W5 W6 W7].
  eexists. split; [unfold on_cur; rewrite Hl; cbn; rewrite Hf; reflexivity|].
  destruct (chain_split b W2) as (x & E & Esp). rewrite Hl in E. injection E as <-.
  assert (Ei : <[cur b := buf']> (chain b) = take (cur b) (chain b) ++ buf' :: drop (S (cur b)) (chain b))
    by (by apply insert_take_drop).
  unfold contents. cbn. rewrite Ei.
  assert (Hlen : length (take (cur b) (chain b)) = cur b) by (rewrite length_take; lia).
  split_and!; try done.
  - constructor; cbn.
    + rewrite Esp in W1. apply Forall_app in W1 as [Wa Wb]. inversion Wb; subst.
      apply Forall_app; split; [done|]. by constructor.
    + rewrite <- Ei, length_insert. lia.
    + rewrite <- Ei. by rewrite drop_insert_lt by lia.
    + by rewrite <- Ei, length_insert.
    + done.
    + done.
    + done.
  - transitivity (concat (map present (take (cur b) (chain b) ++ buf :: drop (S (cur b)) (chain b))) ++ p); [|by rewrite <- Esp].
    rewrite !map_app, !concat_app. cbn. rewrite (untouched_concat (offset b) (drop (S (cur b)) (chain b))) by done.
    rewrite !app_nil_r, Hp. by rewrite app_assoc.
  - transitivity (blocks (take (cur b) (chain b) ++ buf :: drop (S (cur b)) (chain b))); [|by rewrite <- Esp].
    rewrite !blocks_app. cbn. unfold blocks_of. by rewrite Hcap.
  - intros [R1 R2]. split; [|done]. cbn. rewrite <- Ei. apply Forall_insert; [done|]. rewrite Hcap.
    by apply (Forall_lookup_1 _ _ _ _ R1 Hl).
  - unfold space. cbn. rewrite <- Ei. rewrite (drop_S _ buf' (cur b)) by (by rewrite list_lookup_insert_eq by lia).
    rewrite (drop_S (chain b) buf (cur b)) by done. rewrite drop_insert_lt by lia. cbn. lia.
Qed.

Section Spec.
Context (malloc_ok : nat -> bool) (junk : nat -> nat -> char).

(** The blocks allocated by others. *)
Definition others (b : nghttp2_bufs) (m : nghttp2_mem) : Z := live m - blocks (chain b).

Lemma buf_chain_new_spec n m :
  let '(rv, buf, m') := buf_chain_new malloc_ok junk n m in
  (rv = 0 /\ live m' = live m + blocks_of buf /\ nghttp2_buf_cap buf = n /\ pos buf = 0%nat /\ last buf = 0%nat) \/
  (rv = NGHTTP2_ERR_NOMEM /\ live m' = live m /\ exists k, malloc_ok k = false).
Proof.
  unfold buf_chain_new, malloc. destruct (malloc_ok (requests m)) eqn:E1; cbn; [|right; eauto].
  unfold nghttp2_buf_init2, nghttp2_buf_reserve. cbn.
  destruct n as [|n]; cbn; [left; cbn; split_and!; lia|].
  destruct (malloc_ok (S (requests m))) eqn:E2; cbn.
  - left. unfold blocks_of, nghttp2_buf_cap. cbn. rewrite ?length_map, ?length_seq. split_and!; try lia; done.
  - right. split_and!; [done|lia|eauto].
Qed.

(** What [bufs_alloc_chain] does. *)
Lemma alloc_chain_spec b m av : wf b -> nghttp2_bufs_cur_avail b = Some av ->
  let '(rv, b', m') := bufs_alloc_chain malloc_ok junk b m in
  (rv = 0 /\ wf b' /\ contents b' = contents b /\ others b' m' = others b m /\ (space b' + av = space b)%nat /\
    cur b' = S (cur b) /\ max_chunk b' = max_chunk b /\ offset b' = offset b /\ (roomy b -> roomy b' /\ nghttp2_bufs_cur_avail b' <> Some 0%nat)) \/
  (rv = NGHTTP2_ERR_BUFFER_ERROR /\ b' = b /\ m' = m /\ space b = av) \/
  (rv = NGHTTP2_ERR_NOMEM /\ b' = b /\ live m' = live m /\ exists k, malloc_ok k = false).
Proof.
  intros W Hav. pose proof W as [W1 W2 W3 W4 W5 W6 W7]. unfold nghttp2_bufs_cur_avail in Hav.
  destruct (chain_split b W2) as (buf & E & Esp). rewrite E in Hav. cbn in Hav. injection Hav as Hav.
  unfold bufs_alloc_chain. destruct (Nat.ltb_spec (S (cur b)) (length (chain b))) as [Hlt|Hge].
  - left. split; [done|]. split.
    { constructor; cbn; try done. apply Forall_drop with (n := 1%nat) in W3. by rewrite drop_drop, Nat.add_1_r in W3. }
    split; [done|]. split; [done|]. split.
    { unfold space. cbn. rewrite (drop_S (chain b) buf (cur b) E). cbn. lia. }
    split; [done|]. split; [done|]. split; [done|]. intros [R1 R2]. split; [done|]. unfold nghttp2_bufs_cur_avail. cbn.
    destruct (lookup_lt_is_Some_2 _ _ Hlt) as [x Ex]. rewrite Ex. cbn. intros [= Hx].
    assert (Hu : untouched (offset b) x).
    { eapply Forall_lookup_1; [exact W3|]. rewrite lookup_drop, Nat.add_0_r. exact Ex. }
    assert (offset b < nghttp2_buf_cap x)%nat by (eapply Forall_lookup_1 in R1; eauto).
    destruct Hu. unfold nghttp2_buf_avail in Hx. lia.
  - assert (Hend : drop (S (cur b)) (chain b) = []) by (apply drop_ge; lia).
    assert (Hsp : space b = (av + (max_chunk b - chunk_used b) * (chunk_length b - offset b))%nat).
    { unfold space. rewrite (drop_S (chain b) buf (cur b) E), Hend. cbn. lia. }
    destruct (Nat.eqb_spec (max_chunk b) (chunk_used b)) as [Hm|Hm].
    { right. left. split; [done|]. split; [done|]. split; [done|]. rewrite Hsp, Hm, Nat.sub_diag. lia. }
    pose proof (buf_chain_new_spec (chunk_length b) m) as Hn.
    destruct (buf_chain_new malloc_ok junk (chunk_length b) m) as [[rv nb] m'].
    destruct Hn as [(-> & Hlive & Hcap & Hpos & Hlast)|(-> & Hlive & Hk)]; cbn [Z.eqb negb NGHTTP2_ERR_NOMEM].
    2: { right. right. done. }
    left. split; [done|]. cbv zeta. change (offset (set_chunk_used (S (chunk_used b)) b)) with (offset b).
    change (chain (set_chunk_used (S (chunk_used b)) b)) with (chain b). set (x := nghttp2_buf_shift_right nb (offset b)).
    assert (Hlen : length (chain b ++ [x]) = S (length (chain b))) by (rewrite length_app; cbn; lia).
    assert (Hxc : nghttp2_buf_cap x = chunk_length b) by done.
    assert (Hxp : pos x = offset b) by (cbn; lia).
    assert (Hxl : last x = offset b) by (cbn; lia).
    assert (Hg : (offset b <= chunk_length b)%nat) by (apply W7; lia).
    assert (Hxw : wf_buf (offset b) x) by (unfold wf_buf; rewrite Hxc, Hxp, Hxl; lia).
    assert (Hxb : blocks_of x = blocks_of nb) by done. clearbody x.
    split.
    { constructor; cbn [chain cur offset chunk_used max_chunk chunk_keep chunk_length set_cur set_chain set_chunk_used].
      - apply Forall_app. split; [done|]. constructor; [exact Hxw|constructor].
      - lia.
      - rewrite drop_ge by lia. constructor.
      - lia.
      - lia.
      - done.
      - intros _. exact Hg. }
    split.
    { unfold contents. cbn. rewrite map_app, concat_app. cbn [map concat]. 
      rewrite (untouched_present (offset b) x) by (by split). by rewrite !app_nil_r. }
    split.
    { unfold others. cbn.  rewrite blocks_app. cbn. rewrite Hxb. lia. }
    split.
    { rewrite Hsp. unfold space. cbn.  replace (S (cur b)) with (length (chain b)) by lia.
      rewrite drop_app_length. cbn. unfold nghttp2_buf_avail. rewrite Hxc, Hxl.
      replace (max_chunk b - chunk_used b)%nat with (S (max_chunk b - S (chunk_used b))) by lia. cbn. lia. }
    split; [done|]. split; [done|]. split; [done|]. intros [R1 R2]. split.
    { split; [|done]. cbn. apply Forall_app. split; [done|]. constructor; [|constructor].
      change (offset b < nghttp2_buf_cap x)%nat. by rewrite Hxc. }
    unfold nghttp2_bufs_cur_avail. cbn.  replace (S (cur b)) with (length (chain b)) by lia.
    rewrite list_lookup_middle by done. cbn. unfold nghttp2_buf_avail. rewrite Hxc, Hxl. intros [= Hx]. lia.
Qed.


Definition add_outcome (rv : Z) (n len sp : nat) : Prop :=
  (rv = 0 /\ n = len /\ (len <= sp)%nat) \/
  (rv = NGHTTP2_ERR_BUFFER_ERROR /\ n = sp /\ (sp < len)%nat) \/
  (rv = NGHTTP2_ERR_NOMEM /\ (n <= len)%nat /\ exists k, malloc_ok k = false).

Lemma add_loop_spec fuel : forall data b m, wf b ->
  (length data + (max_chunk b - cur b) < fuel)%nat ->
  exists rv b' m' n, add_loop malloc_ok junk fuel data b m = Some (rv, b', m') /\ wf b' /\
    contents b' = contents b ++ take n data /\ others b' m' = others b m /\
    add_outcome rv n (length data) (space b) /\ offset b' = offset b /\ (roomy b -> roomy b').
Proof.
  induction fuel as [|fuel IH]; intros data b m W Hf; [lia|]. cbn [add_loop].
  destruct (Nat.eqb_spec (length data) 0) as [Hd|Hd].
  { exists 0, b, m, 0%nat. rewrite app_nil_r. split_and!; try done. left. split_and!; lia. }
  destruct (chain_split b (wf_cur b W)) as (buf & E & _).
  assert (Hav : nghttp2_bufs_cur_avail b = Some (nghttp2_buf_avail buf)) by (unfold nghttp2_bufs_cur_avail; by rewrite E).
  rewrite Hav. cbn [option_bind mbind].
  destruct (Nat.eqb_spec (Nat.min (nghttp2_buf_avail buf) (length data)) 0) as [Hn|Hn].
  - assert (Ha : nghttp2_buf_avail buf = 0%nat) by lia. rewrite Ha in Hav.
    pose proof (alloc_chain_spec b m 0%nat W Hav) as Ha'.
    pose proof (wf_used b W). pose proof (wf_max b W). pose proof (wf_cur b W).
    destruct (bufs_alloc_chain malloc_ok junk b m) as [[rv b1] m1].
    destruct Ha' as [(-> & W1 & Hc & Ho & Hs & Hcur & Hmax & Hoff & HR)|[(-> & -> & -> & Hs)|(-> & -> & Hl & Hk)]]; cbn [Z.eqb negb NGHTTP2_ERR_NOMEM NGHTTP2_ERR_BUFFER_ERROR].
    + destruct (IH data b1 m1 W1) as (rv & b' & m' & n & E1 & W' & C' & O' & Out & F' & R'); [lia|].
      exists rv, b', m', n. rewrite E1, C', Hc, O', Ho. rewrite Nat.add_0_r in Hs. rewrite Hs in Out. split_and!; try done; [by rewrite F', Hoff|].
      intros HR1. apply R', HR, HR1.
    + eexists _, b, m, 0%nat. split; [done|]. rewrite app_nil_r. split_and!; try done.
      right. left. split_and!; [done|lia|lia].
    + eexists _, b, m1, 0%nat. split; [done|]. rewrite app_nil_r. split_and!; try done.
      * unfold others. by rewrite Hl.
      * right. right. split_and!; [done|lia|done].
  - set (k := Nat.min (nghttp2_buf_avail buf) (length data)) in *.
    assert (Hb : wf_buf (offset b) buf) by (apply (Forall_lookup_1 _ _ _ _ (wf_chunks b W) E)).
    assert (Hlk : length (take k data) = k) by (rewrite length_take; lia).
    destruct (cpymem_spec _ buf (take k data) Hb) as (buf' & Ec & Hw & Hp & Hcap & Hpos & Hlast); [rewrite Hlk; lia|].
    destruct (on_cur_spec (fun buf => cpymem buf (take k data)) b (take k data) buf buf' W E Ec Hw Hp Hcap)
      as (b1 & E1 & W1 & C1 & B1 & F1 & M1 & Cu1 & _ & _ & _ & R1 & S1).
    rewrite E1. cbn [option_bind mbind].
    assert (Hav' : (nghttp2_buf_avail buf' + k = nghttp2_buf_avail buf)%nat).
    { unfold nghttp2_buf_avail in *. rewrite Hcap, Hlast, Hlk. lia. }
    destruct (IH (drop k data) b1 m W1) as (rv & b' & m' & n & E2 & W' & C' & O' & Out & F' & R').
    { rewrite length_drop. lia. }
    exists rv, b', m', (k + n)%nat. rewrite E2, C', C1, O'. rewrite length_drop in Out.
    split_and!; try done.
    + rewrite <- app_assoc. f_equal. apply take_take_drop.
    + unfold others. by rewrite B1.
    + destruct Out as [(-> & -> & Hle)|[(-> & -> & Hlt)|(-> & Hle & Hk)]]; [left|right; left|right; right];
        (split; [done|]; split; [lia|]); [lia|lia|done].
    + by rewrite F', F1.
    + intros HR. by apply R', R1.
Qed.

Lemma add_spec data b m : wf b ->
  exists rv b' m' n, nghttp2_bufs_add malloc_ok junk data b m = Some (rv, b', m') /\ wf b' /\
    contents b' = contents b ++ take n data /\ others b' m' = others b m /\
    add_outcome rv n (length data) (space b) /\ offset b' = offset b /\ (roomy b -> roomy b').
Proof. intros W. apply add_loop_spec; [done|]. lia. Qed.

(** The writers of a single byte; [p] is what they append. *)
Lemma ensured_spec (f : nghttp2_buf -> option nghttp2_buf) (P : list char -> Prop) b m :
  wf b -> roomy b ->
  (forall off buf, wf_buf off buf -> (0 < nghttp2_buf_avail buf)%nat ->
     exists buf' p, f buf = Some buf' /\ wf_buf off buf' /\ present buf' = present buf ++ p /\
       nghttp2_buf_cap buf' = nghttp2_buf_cap buf /\ P p) ->
  exists rv b' m', ensured malloc_ok junk (on_cur f) b m = Some (rv, b', m') /\ wf b' /\ roomy b' /\
    others b' m' = others b m /\ offset b' = offset b /\
    ((rv = 0 /\ exists p, contents b' = contents b ++ p /\ P p) \/
     (rv = NGHTTP2_ERR_BUFFER_ERROR /\ contents b' = contents b /\ space b = 0%nat) \/
     (rv = NGHTTP2_ERR_NOMEM /\ contents b' = contents b /\ exists k, malloc_ok k = false)).
Proof.
  intros W R Hf.
  assert (Hw : forall b, wf b -> roomy b -> nghttp2_bufs_cur_avail b <> Some 0%nat ->
    exists b' p, on_cur f b = Some b' /\ wf b' /\ roomy b' /\ contents b' = contents b ++ p /\
      blocks (chain b') = blocks (chain b) /\ offset b' = offset b /\ P p).
  { clear b m W R. intros b W R Hav. destruct (chain_split b (wf_cur b W)) as (buf & E & _).
    unfold nghttp2_bufs_cur_avail in Hav. rewrite E in Hav. cbn in Hav.
    assert (Hb : wf_buf (offset b) buf) by (apply (Forall_lookup_1 _ _ _ _ (wf_chunks b W) E)).
    destruct (Hf _ buf Hb) as (buf' & p & E1 & Hw & Hp & Hc & HP).
    { destruct (nghttp2_buf_avail buf); [done|lia]. }
    destruct (on_cur_spec f b p buf buf' W E E1 Hw Hp Hc) as (b1 & E2 & W1 & C1 & B1 & F1 & _ & _ & _ & _ & _ & R1 & _).
    exists b1, p. split_and!; try done. by apply R1. }
  unfold ensured, bufs_ensure_addb. destruct (chain_split b (wf_cur b W)) as (buf & E & _).
  destruct (nghttp2_bufs_cur_avail b) as [av|] eqn:Hav.
  2: { unfold nghttp2_bufs_cur_avail in Hav. by rewrite E in Hav. }
  cbn [option_bind mbind]. destruct (Nat.ltb_spec 0 av) as [Hlt|Hge].
  - cbn [Z.eqb negb option_bind mbind]. destruct (Hw b W R) as (b' & p & -> & W' & R' & C' & B' & F' & HP); [rewrite Hav; intros [= ->]; lia|].
    cbn. exists 0, b', m. split_and!; try done; [unfold others; by rewrite B'|]. left. split; [done|]. by exists p.
  - assert (av = 0%nat) by lia. subst av. pose proof (alloc_chain_spec b m 0%nat W Hav) as Ha.
    destruct (bufs_alloc_chain malloc_ok junk b m) as [[rv b1] m1].
    destruct Ha as [(-> & W1 & Hc & Ho & Hs & Hcur & Hmax & Hoff & HR)|[(-> & -> & -> & Hs)|(-> & -> & Hl & Hk)]]; cbn [Z.eqb negb NGHTTP2_ERR_NOMEM NGHTTP2_ERR_BUFFER_ERROR].
    + cbn [option_bind mbind Z.eqb negb]. destruct (HR R) as [R1 Hne]. destruct (Hw b1 W1 R1 Hne) as (b' & p & -> & W' & R' & C' & B' & F' & HP).
      cbn. exists 0, b', m1. split_and!; try done.
      * unfold others in *. by rewrite B'.
      * by rewrite F', Hoff.
      * left. split; [done|]. exists p. split; [|done]. by rewrite C', Hc.
    + eexists _, b, m. split; [done|]. split_and!; try done. right. left. done.
    + eexists _, b, m1. split; [done|]. split_and!; try done; [unfold others; by rewrite Hl|]. right. right. done.
Qed.

(** *** Deleting and starting over *)

Lemma chain_del_live l : forall m, live (fold_left buf_chain_del l m) = live m - blocks l.
Proof.
  induction l as [|x l IH]; intros m; cbn [fold_left]; [cbn; lia|]. rewrite IH.
  change (blocks (x :: l)) with (blocks_of x + blocks l). unfold buf_chain_del, nghttp2_buf_free, free, blocks_of. cbn [live].
  destruct (nghttp2_buf_cap x =? 0)%nat; lia.
Qed.

Lemma reset_chunks_spec off l : forall k, (0 < k)%nat -> Forall (wf_buf off) l ->
  let '(kept, rest) := reset_chunks off k l in
  Forall (wf_buf off) kept /\ Forall (untouched off) kept /\
  length kept = Nat.min k (length l) /\
  map nghttp2_buf_cap kept = map nghttp2_buf_cap (take k l) /\
  blocks kept + match rest with Some rest => blocks rest | None => 0 end = blocks l /\
  match rest with Some _ => length kept = k | None => length kept = length l end.
Proof.
  induction l as [|x l IH]; intros k Hk Hw; cbn [reset_chunks].
  { rewrite take_nil. split_and!; try done. cbn. lia. }
  inversion_clear Hw as [|? ? (H1 & H2 & H3) Hl].
  set (y := nghttp2_buf_shift_right (nghttp2_buf_reset x) off).
  assert (Hy : wf_buf off y /\ untouched off y /\ nghttp2_buf_cap y = nghttp2_buf_cap x /\ blocks_of y = blocks_of x).
  { unfold wf_buf, untouched. cbn. split_and!; try done. }
  destruct Hy as (Y1 & Y2 & Y3 & Y4). clearbody y.
  destruct (Nat.eqb_spec k 1) as [->|Hne].
  - cbn. rewrite Y3, Y4. split_and!; try done; try (by apply Forall_singleton); unfold blocks; lia.
  - destruct k as [|[|k]]; [lia|lia|]. cbn [Nat.sub]. specialize (IH (S k) ltac:(lia) Hl).
    destruct (reset_chunks off (S k) l) as [kept rest]. destruct IH as (I1 & I2 & I3 & I4 & I5 & I6).
    split_and!.
    + by constructor.
    + by constructor.
    + cbn [length]. lia.
    + cbn [map take] in *. by rewrite Y3, I4.
    + cbn [blocks fold_right]. fold (blocks kept) (blocks l). rewrite Y4. lia.
    + cbn [length]. destruct rest; lia.
Qed.

Lemma reset_spec b m : wf b ->
  let '(b', m') := nghttp2_bufs_reset b m in
  wf b' /\ contents b' = [] /\ others b' m' = others b m /\ cur b' = 0%nat /\ offset b' = offset b /\
  length (chain b') = Nat.min (chunk_keep b) (length (chain b)) /\ (roomy b -> roomy b').
Proof.
  intros [W1 W2 W3 W4 W5 W6 W7]. unfold nghttp2_bufs_reset.
  pose proof (reset_chunks_spec (offset b) (chain b) (chunk_keep b) (proj1 W6) W1) as H.
  destruct (reset_chunks (offset b) (chunk_keep b) (chain b)) as [kept rest].
  destruct H as (H1 & H2 & H3 & H4 & H5 & H6).
  assert (HR : roomy b -> roomy (set_cur 0 (set_chain kept b))).
  { intros [R1 R2]. split; [|done]. cbn.
    apply (proj1 (List.Forall_map nghttp2_buf_cap (fun c => (offset b < c)%nat) kept)).
    rewrite H4. apply List.Forall_map. by apply Forall_take. }
  destruct rest as [rest|]; cbv beta iota zeta.
  - split; [constructor; cbn; try done; try (by apply Forall_drop); try (intros; apply W7); lia|].
    unfold contents, others. cbn [chain set_cur set_chunk_used set_chain]. rewrite chain_del_live, (untouched_concat (offset b)) by done.
    split; [done|]. split; [lia|]. split; [done|]. split; [done|]. by split.
  - split; [constructor; cbn; try done; try (by apply Forall_drop); try (intros; apply W7); lia|].
    unfold contents, others. cbn [chain set_cur set_chunk_used set_chain]. rewrite (untouched_concat (offset b)) by done.
    split; [done|]. split; [lia|]. split; [done|]. split; [done|]. by split.
Qed.

Lemma seek_spec b : wf b -> nghttp2_bufs_seek_last_present b = b.
Proof.
  intros W. destruct (chain_split b (wf_cur b W)) as (buf & E & _). pose proof (wf_tail b W) as T.
  unfold nghttp2_bufs_seek_last_present. rewrite (drop_S (chain b) buf (cur b) E). cbn [seek_last].
  assert (Hs : (if (nghttp2_buf_len buf =? 0)%nat then cur b else seek_last (drop (S (cur b)) (chain b)) (S (cur b)) (cur b)) = cur b).
  { destruct (nghttp2_buf_len buf =? 0)%nat; [done|].
    destruct (drop (S (cur b)) (chain b)) as [|x l]; [done|]. cbn [seek_last]. inversion_clear T as [|? ? [T1 T2] _].
    unfold nghttp2_buf_len. by rewrite T1, T2, Nat.sub_diag. }
  rewrite Hs. by destruct b.
Qed.

Lemma copy_chunks_spec l : forall buf off, wf_buf off buf -> (length (concat (map present l)) <= nghttp2_buf_avail buf)%nat ->
  exists buf', foldl (fun r x => r ← r; cpymem r (present x)) (Some buf) l = Some buf' /\
    take (last buf') (bytes buf') = take (last buf) (bytes buf) ++ concat (map present l) /\
    last buf' = (last buf + length (concat (map present l)))%nat /\
    nghttp2_buf_cap buf' = nghttp2_buf_cap buf /\ drop (last buf') (bytes buf') = drop (last buf') (bytes buf).
Proof.
  induction l as [|x l IH]; intros buf off Hw Hl; cbn [foldl concat map].
  { exists buf. rewrite app_nil_r, Nat.add_0_r. done. }
  cbn in Hl. rewrite length_app in Hl.
  destruct (cpymem_spec off buf (present x) Hw) as (b1 & E & W1 & P1 & C1 & Pos1 & L1); [lia|].
  cbn [mbind option_bind]. rewrite E.
  assert (Hb : bytes b1 = take (last buf) (bytes buf) ++ present x ++ drop (last b1) (bytes buf)).
  { unfold cpymem in E. destruct (_ <=? _)%nat; [|done]. injection E as <-. done. }
  destruct (IH b1 off W1) as (b2 & E2 & T2 & L2 & C2 & D2).
  { unfold nghttp2_buf_avail in *. rewrite C1, L1. lia. }
  exists b2. split; [done|]. destruct Hw as (H1 & H2 & H3). unfold nghttp2_buf_cap in *.
  assert (Hlt : length (take (last buf) (bytes buf)) = last buf) by (rewrite length_take; lia).
  split; [|split; [|split]].
  - rewrite T2. rewrite app_assoc. f_equal. rewrite Hb, app_assoc, L1.
    by apply take_app_length'; rewrite length_app; lia.
  - rewrite L2, L1, length_app. lia.
  - by rewrite C2.
  - rewrite D2, Hb, app_assoc, L2, L1. rewrite drop_app_ge by (rewrite length_app; lia).
    rewrite drop_drop. f_equal. rewrite length_app. lia.
Qed.

Lemma bufs_len_contents b : wf b -> nghttp2_bufs_len b = length (contents b).
Proof.
  intros W. pose proof (wf_chunks b W) as H. unfold nghttp2_bufs_len, contents.
  rewrite <- (Nat.add_0_l (length _)). generalize 0%nat. induction H as [|x l Hx _ IH]; intros n; cbn; [lia|].
  rewrite IH, length_app, (present_length (offset b)) by done. lia.
Qed.
End Spec.

(** ** Properties *)

(** The calls of a writer, after the initialisation. *)
Inductive bufs_op :=
| OpAdd (data : list char)
| OpAddb (c : char)
| OpAddbHold (c : char)
| OpOrb (c : char)
| OpOrbHold (c : char)
| OpAdvance
| OpReset
| OpRealloc (n : nat)
| OpSeek.

Section Properties.
Context (malloc_ok : nat -> bool) (junk : nat -> nat -> char).

Definition run_op (op : bufs_op) (b : nghttp2_bufs) (m : nghttp2_mem) : option (Z * nghttp2_bufs * nghttp2_mem) :=
  match op with
  | OpAdd data => nghttp2_bufs_add malloc_ok junk data b m
  | OpAddb c => nghttp2_bufs_addb malloc_ok junk c b m
  | OpAddbHold c => nghttp2_bufs_addb_hold malloc_ok junk c b m
  | OpOrb c => nghttp2_bufs_orb malloc_ok junk c b m
  | OpOrbHold c => nghttp2_bufs_orb_hold malloc_ok junk c b m
  | OpAdvance => Some (nghttp2_bufs_advance malloc_ok junk b m)
  | OpReset => let '(b, m) := nghttp2_bufs_reset b m in Some (0, b, m)
  | OpRealloc n => Some (nghttp2_bufs_realloc malloc_ok junk b n m)
  | OpSeek => Some (0, nghttp2_bufs_seek_last_present b, m)
  end.

Fixpoint run_ops (ops : list bufs_op) (b : nghttp2_bufs) (m : nghttp2_mem) : option (nghttp2_bufs * nghttp2_mem) :=
  match ops with
  | [] => Some (b, m)
  | op :: ops => '(_, b, m) ← run_op op b m; run_ops ops b m
  end.

Lemma at_last_avail off buf : wf_buf off buf -> (0 < nghttp2_buf_avail buf)%nat -> exists x, at_last buf = Some x.
Proof. intros (_ & H & _) Ha. apply lookup_lt_is_Some_2. unfold nghttp2_buf_avail, nghttp2_buf_cap in *. lia. Qed.

(** A new chain of one chunk, as [nghttp2_bufs_init3] and [nghttp2_bufs_realloc] make it. *)
Lemma first_chunk_spec n mc ck off m : (off < n)%nat -> (0 < ck <= mc)%nat ->
  let '(rv, buf, m') := buf_chain_new malloc_ok junk n m in
  let b := Bufs [nghttp2_buf_shift_right buf off] 0 n mc 1 ck off in
  (rv = 0 /\ wf b /\ roomy b /\ contents b = [] /\ live m' = live m + blocks (chain b)) \/ (rv = NGHTTP2_ERR_NOMEM /\ live m' = live m).
Proof.
  intros Hn Hk. pose proof (buf_chain_new_spec malloc_ok junk n m) as H.
  destruct (buf_chain_new malloc_ok junk n m) as [[rv buf] m'].
  destruct H as [(-> & Hl & Hc & Hp & Hla)|(-> & Hl & _)]; [left|by right]. split; [done|].
  set (x := nghttp2_buf_shift_right buf off).
  assert (Hxc : nghttp2_buf_cap x = n) by done.
  assert (Hxu : untouched off x) by (split; cbn; lia).
  assert (Hxw : wf_buf off x) by (destruct Hxu as [U1 U2]; unfold wf_buf; rewrite Hxc, U1, U2; lia).
  assert (Hxb : blocks_of x = blocks_of buf) by done. clearbody x.
  split; [constructor; cbn; try done; try lia; by apply Forall_singleton|].
  split; [split; cbn; [apply Forall_singleton; lia|done]|].
  split; [unfold contents; cbn; by rewrite (untouched_present off)|]. cbn. rewrite Hxb. lia.
Qed.

Lemma ensured_op (f : nghttp2_buf -> option nghttp2_buf) b m : wf b -> roomy b ->
  (forall off buf, wf_buf off buf -> (0 < nghttp2_buf_avail buf)%nat ->
     exists buf' p, f buf = Some buf' /\ wf_buf off buf' /\ present buf' = present buf ++ p /\
       nghttp2_buf_cap buf' = nghttp2_buf_cap buf /\ True) ->
  exists rv b' m', ensured malloc_ok junk (on_cur f) b m = Some (rv, b', m') /\
    wf b' /\ roomy b' /\ offset b' = offset b /\ others b' m' = others b m.
Proof.
  intros W R Hf. destruct (ensured_spec malloc_ok junk f (fun _ => True) b m W R Hf) as (rv & b' & m' & E & W' & R' & O & F & _).
  exists rv, b', m'. done.
Qed.

Lemma put_op off buf c : wf_buf off buf -> (0 < nghttp2_buf_avail buf)%nat ->
  exists buf' p, put buf c = Some buf' /\ wf_buf off buf' /\ present buf' = present buf ++ p /\
    nghttp2_buf_cap buf' = nghttp2_buf_cap buf /\ p = [c].
Proof. intros Hw Ha. destruct (put_spec off buf c Hw Ha) as (b' & E & H1 & H2 & H3 & _). by exists b', [c]. Qed.

Lemma hold_op off buf c : wf_buf off buf -> (0 < nghttp2_buf_avail buf)%nat ->
  exists buf' p, hold buf c = Some buf' /\ wf_buf off buf' /\ present buf' = present buf ++ p /\
    nghttp2_buf_cap buf' = nghttp2_buf_cap buf /\ p = [].
Proof.
  intros Hw Ha. destruct (hold_spec off buf c Hw Ha) as (b' & E & H1 & H2 & H3 & _).
  exists b', []. by rewrite app_nil_r.
Qed.

Lemma run_bufs_op op b m : wf b -> roomy b -> (forall n, op = OpRealloc n -> n <> offset b) ->
  exists rv b' m', run_op op b m = Some (rv, b', m') /\ wf b' /\ roomy b' /\ offset b' = offset b /\ others b' m' = others b m.
Proof.
  intros W R Hop. destruct op as [data|c|c|c|c| | |n|]; cbn [run_op].
  - destruct (add_spec malloc_ok junk data b m W) as (rv & b' & m' & n & E & W' & _ & O & _ & F & R').
    exists rv, b', m'. rewrite E. split_and!; try done. by apply R'.
  - apply (ensured_op (fun buf => put buf c)); [done..|]. intros off buf Hw Ha.
    destruct (put_op off buf c Hw Ha) as (b' & p & H1 & H2 & H3 & H4 & _). by exists b', p.
  - apply (ensured_op (fun buf => hold buf c)); [done..|]. intros off buf Hw Ha.
    destruct (hold_op off buf c Hw Ha) as (b' & p & H1 & H2 & H3 & H4 & _). by exists b', p.
  - apply (ensured_op (fun buf => x ← at_last buf; put buf (orc x c))); [done..|]. intros off buf Hw Ha.
    destruct (at_last_avail off buf Hw Ha) as [x ->]. cbn [mbind option_bind].
    destruct (put_op off buf (orc x c) Hw Ha) as (b' & p & H1 & H2 & H3 & H4 & _). by exists b', p.
  - apply (ensured_op (fun buf => x ← at_last buf; hold buf (orc x c))); [done..|]. intros off buf Hw Ha.
    destruct (at_last_avail off buf Hw Ha) as [x ->]. cbn [mbind option_bind].
    destruct (hold_op off buf (orc x c) Hw Ha) as (b' & p & H1 & H2 & H3 & H4 & _). by exists b', p.
  - destruct (chain_split b (wf_cur b W)) as (buf & E & _).
    pose proof (alloc_chain_spec malloc_ok junk b m (nghttp2_buf_avail buf) W) as H.
    unfold nghttp2_bufs_cur_avail in H. rewrite E in H. specialize (H eq_refl).
    unfold nghttp2_bufs_advance. destruct (bufs_alloc_chain malloc_ok junk b m) as [[rv b'] m'].
    exists rv, b', m'. split; [done|].
    destruct H as [(-> & W1 & Hc & Ho & Hs & Hcur & Hmax & Hoff & HR)|[(-> & -> & -> & Hs)|(-> & -> & Hl & Hk)]].
    + split; [done|]. split; [by apply HR|]. done.
    + done.
    + split_and!; try done. unfold others. by rewrite Hl.
  - pose proof (reset_spec b m W) as H. destruct (nghttp2_bufs_reset b m) as [b' m'].
    destruct H as (W' & _ & O & _ & F & _ & R'). exists 0, b', m'. split_and!; try done. by apply R'.
  - specialize (Hop n eq_refl). unfold nghttp2_bufs_realloc.
    destruct (Nat.ltb_spec n (offset b)) as [Hlt|Hge]; [by eexists _, b, m|].
    pose proof W as [W1 W2 W3 W4 W5 W6 W7]. pose proof (first_chunk_spec n (max_chunk b) (chunk_keep b) (offset b) m) as H.
    destruct (buf_chain_new malloc_ok junk n m) as [[rv buf] m1]. cbv zeta in H.
    destruct H as [(-> & W' & R' & _ & Hl)|(-> & Hl)]; [lia|lia|..].
    + unfold nghttp2_bufs_free. cbn [Z.eqb negb]. eexists 0, _, _. split; [reflexivity|].
      split_and!; try done. unfold others in *. rewrite chain_del_live. cbn [chain] in *. cbn [offset set_chain] in *. lia.
    + cbn. exists NGHTTP2_ERR_NOMEM, b, m1. split_and!; try done. unfold others. by rewrite Hl.
  - rewrite seek_spec by done. by exists 0, b, m.
Qed.

Lemma run_ops_spec ops : forall b m, wf b -> roomy b -> Forall (fun op => forall n, op = OpRealloc n -> n <> offset b) ops ->
  exists b' m', run_ops ops b m = Some (b', m') /\ wf b' /\ others b' m' = others b m.
Proof.
  induction ops as [|op ops IH]; intros b m W R Hops; [by exists b, m|]. inversion_clear Hops as [|? ? Hop Hrest].
  destruct (run_bufs_op op b m W R Hop) as (rv & b1 & m1 & E & W1 & R1 & F1 & O1).
  cbn [run_ops]. rewrite E. cbn [mbind option_bind]. rewrite <- F1 in Hrest.
  destruct (IH b1 m1 W1 R1 Hrest) as (b' & m' & E' & W' & O'). exists b', m'. by rewrite O'.
Qed.

(** After a successful initialisation with room behind the offset, no
    sequence of calls of a writer (appending blocks and bytes, or-ing bits,
    advancing, resetting, reallocating, seeking) touches memory outside a chunk,
    whichever allocations fail; and freeing the chain afterwards gives back every
    block of memory it was made of. *)
Theorem bufs_release b0 n mc ck off m0 b1 m1 ops :
  nghttp2_bufs_init3 malloc_ok junk b0 n mc ck off m0 = (0, b1, m1) -> (off < n)%nat ->
  Forall (fun op => forall k, op = OpRealloc k -> k <> off) ops ->
  exists b2 m2, run_ops ops b1 m1 = Some (b2, m2) /\ live (snd (nghttp2_bufs_free b2 m2)) = live m0.
Proof.
  intros Hi Hn Hops. unfold nghttp2_bufs_init3 in Hi.
  destruct (Nat.eqb_spec ck 0) as [|Hck]; [discriminate|].
  destruct (Nat.ltb_spec mc ck) as [|Hmc]; [discriminate|].
  destruct (Nat.ltb_spec n off) as [|_]; [lia|]. cbn [orb] in Hi.
  pose proof (first_chunk_spec n mc ck off m0 Hn) as H.
  destruct (buf_chain_new malloc_ok junk n m0) as [[rv buf] m']. cbv zeta in H.
  destruct H as [(-> & W & R & _ & Hl)|(-> & _)]; [lia| |discriminate]. cbn in Hi. injection Hi as <- <-.
  destruct (run_ops_spec ops _ m' W R) as (b2 & m2 & E & W2 & O2); [done|].
  exists b2, m2. split; [done|]. unfold nghttp2_bufs_free, others in *. cbn [snd]. rewrite chain_del_live. lia.
Qed.

(** [nghttp2_bufs_add] comes back, and appends the data: all of it, when it
    fits in the room that the chain has or can still get; exactly what fits, with
    [NGHTTP2_ERR_BUFFER_ERROR], when it does not; only a failed allocation makes
    it stop before.  The chain stays well formed and its blocks accounted for. *)
Theorem bufs_add_correct data b m : wf b ->
  exists rv b' m' n, nghttp2_bufs_add malloc_ok junk data b m = Some (rv, b', m') /\ wf b' /\
    contents b' = contents b ++ take n data /\ others b' m' = others b m /\
    ((rv = 0 /\ n = length data /\ (length data <= space b)%nat) \/
     (rv = NGHTTP2_ERR_BUFFER_ERROR /\ n = space b /\ (space b < length data)%nat) \/
     (rv = NGHTTP2_ERR_NOMEM /\ (n <= length data)%nat /\ exists k, malloc_ok k = false)).
Proof.
  intros W. destruct (add_spec malloc_ok junk data b m W) as (rv & b' & m' & n & E & W' & C & O & Out & _).
  by exists rv, b', m', n.
Qed.

(** [nghttp2_bufs_remove] copies out all the bytes, and nothing else changes. *)
Lemma bufs_remove_spec b m : wf b -> contents b <> [] ->
  exists len out m', nghttp2_bufs_remove malloc_ok junk b m = Some (len, out, m') /\
    ((len = Z.of_nat (length (contents b)) /\ out = Some (contents b) /\ live m' = live m + 1) \/
     (len = NGHTTP2_ERR_NOMEM /\ out = None /\ live m' = live m)).
Proof.
  intros W Hne. unfold nghttp2_bufs_remove. rewrite (bufs_len_contents b W).
  destruct (Nat.eqb_spec (length (contents b)) 0) as [H0|H0]; [by apply nil_length_inv in H0|].
  unfold malloc. destruct (malloc_ok (requests m)); cbn [negb].
  2: { by eexists _, None, _; split; [reflexivity|]; right. }
  set (buf := nghttp2_buf_wrap_init (fresh_bytes junk m (length (contents b)))).
  assert (Hcap : nghttp2_buf_cap buf = length (contents b)).
  { unfold nghttp2_buf_cap, buf, fresh_bytes. cbn. by rewrite length_map, length_seq. }
  assert (Hw : wf_buf 0 buf) by (unfold wf_buf; cbn; lia).
  destruct (copy_chunks_spec (chain b) buf 0 Hw) as (buf' & E & T & L & C & D).
  { unfold nghttp2_buf_avail. rewrite Hcap. cbn. unfold contents. lia. }
  unfold copy_chunks. rewrite E. cbn [mbind option_bind]. eexists _, _, _. split; [reflexivity|]. left.
  split; [done|]. split; [|done]. f_equal. cbn in L, T. fold (contents b) in L, T.
  rewrite take_0 in T. cbn [app] in T. rewrite <- T. symmetry. apply take_ge. unfold nghttp2_buf_cap in C, Hcap. lia.
Qed.
End Properties.

(** A chain of two chunks of four bytes each, with one byte of offset. *)
Definition small_bufs : nghttp2_bufs * nghttp2_mem :=
  let '(_, b, m) := nghttp2_bufs_init3 (fun _ => true) (fun _ _ => NUL) (Bufs [] 0 0 0 0 0 0) 4 2 1 1 (Mem 0 0) in (b, m).

Example small_bufs_add :
  let '(b, m) := small_bufs in
  match nghttp2_bufs_add (fun _ => true) (fun _ _ => NUL) (chars "abcdefgh") b m with
  | Some (rv, b, m) => (rv, string_of_list_ascii (contents b), live m, length (chain b)) = (NGHTTP2_ERR_BUFFER_ERROR, "abcdef"%string, 4, 2%nat)
  | None => False
  end.
Proof. reflexivity. Qed.

Lemma bufs_release_witness :
  exists b1 m1, nghttp2_bufs_init3 (fun _ => true) (fun _ _ => NUL) (Bufs [] 0 0 0 0 0 0) 4 2 1 1 (Mem 0 0) = (0, b1, m1) /\
    exists b2 m2, run_ops (fun _ => true) (fun _ _ => NUL) [OpAdd (chars "abcdefgh"); OpReset; OpAddb "x"%char] b1 m1 = Some (b2, m2) /\
      live (snd (nghttp2_bufs_free b2 m2)) = 0.
Proof.
  eexists _, _. split; [reflexivity|].
  eapply (bufs_release (fun _ => true) (fun _ _ => NUL) (Bufs [] 0 0 0 0 0 0) 4 2 1 1 (Mem 0 0)); [reflexivity|lia|].
  repeat (apply Forall_cons; split; [intros k Hk; discriminate Hk|]). apply Forall_nil. done.
Defined.

Lemma small_bufs_wf : wf (fst small_bufs).
Proof.
  assert (H : small_bufs = (Bufs [Buf [NUL; NUL; NUL; NUL] 1 1 0] 0 4 2 1 1 1, Mem 2 2)) by (vm_compute; reflexivity).
  rewrite H. constructor; cbn; try lia; repeat constructor; cbn; lia.
Qed.

Lemma bufs_add_correct_witness :
  exists rv b' m' n, nghttp2_bufs_add (fun _ => true) (fun _ _ => NUL) (chars "abc") (fst small_bufs) (snd small_bufs) = Some (rv, b', m') /\
    wf b' /\ contents b' = contents (fst small_bufs) ++ take n (chars "abc") /\ others b' m' = others (fst small_bufs) (snd small_bufs) /\
    ((rv = 0 /\ n = 3%nat /\ (3 <= space (fst small_bufs))%nat) \/
     (rv = NGHTTP2_ERR_BUFFER_ERROR /\ n = space (fst small_bufs) /\ (space (fst small_bufs) < 3)%nat) \/
     (rv = NGHTTP2_ERR_NOMEM /\ (n <= 3)%nat /\ exists k : nat, true = false)).
Proof. apply (bufs_add_correct (fun _ => true) (fun _ _ => NUL) (chars "abc")), small_bufs_wf. Defined.

(** A byte appended to a chain whose next chunk has no room is written past the
    end of that chunk: [bufs_ensure_addb] moves to it without looking at it.
    The chunks of [nghttp2_bufs_wrap_init2] are those of the application. *)
Lemma addb_overflows_empty_chunk :
  let '(_, b, m) := nghttp2_bufs_wrap_init2 (fun _ => true) (Bufs [] 0 0 0 0 0 0) [[NUL]; []] (Mem 0 0) in
  exists b' m', nghttp2_bufs_addb (fun _ => true) (fun _ _ => NUL) "a"%char b m = Some (0, b', m') /\
    nghttp2_bufs_addb (fun _ => true) (fun _ _ => NUL) "b"%char b' m' = None.
Proof. vm_compute. by eexists _, _. Qed.
