(* ===== verification/HuffTable.v ===== *)
(** * The tables of the HPACK Huffman code: [nghttp2_hd_huffman_data.c]

    The code of RFC 7541 and its decoding automaton, as the source lists them:
    [huff_sym_table] is the code of each of the 256 bytes and of EOS, the bits at
    the top of a 32-bit word; [huff_decode_table] is the transition on four bits
    from each of the 257 states.  The rows of the second are split over several
    definitions. *)

From S2P Require Import Prelude.

(** [nghttp2_hd_huffman.h] *)
Record nghttp2_huff_sym := Sym { nbits : Z; code : Z }.
Record nghttp2_huff_decode := Dec { fstate : Z; sym : Z }.

Definition NGHTTP2_HUFF_ACCEPTED : Z := Z.shiftl 1 14.
Definition NGHTTP2_HUFF_SYM : Z := Z.shiftl 1 15.

Definition huff_sym_table : list nghttp2_huff_sym := [
  Sym 13 0xffc00000; Sym 23 0xffffb000; Sym 28 0xfffffe20; Sym 28 0xfffffe30;
  Sym 28 0xfffffe40; Sym 28 0xfffffe50; Sym 28 0xfffffe60; Sym 28 0xfffffe70;
  Sym 28 0xfffffe80; Sym 24 0xffffea00; Sym 30 0xfffffff0; Sym 28 0xfffffe90;
  Sym 28 0xfffffea0; Sym 30 0xfffffff4; Sym 28 0xfffffeb0; Sym 28 0xfffffec0;
  Sym 28 0xfffffed0; Sym 28 0xfffffee0; Sym 28 0xfffffef0; Sym 28 0xffffff00;
  Sym 28 0xffffff10; Sym 28 0xffffff20; Sym 30 0xfffffff8; Sym 28 0xffffff30;
  Sym 28 0xffffff40; Sym 28 0xffffff50; Sym 28 0xffffff60; Sym 28 0xffffff70;
  Sym 28 0xffffff80; Sym 28 0xffffff90; Sym 28 0xffffffa0; Sym 28 0xffffffb0;
  Sym 6 0x50000000; Sym 10 0xfe000000; Sym 10 0xfe400000; Sym 12 0xffa00000;
  Sym 13 0xffc80000; Sym 6 0x54000000; Sym 8 0xf8000000; Sym 11 0xff400000;
  Sym 10 0xfe800000; Sym 10 0xfec00000; Sym 8 0xf9000000; Sym 11 0xff600000;
  Sym 8 0xfa000000; Sym 6 0x58000000; Sym 6 0x5c000000; Sym 6 0x60000000;
  Sym 5 0x0; Sym 5 0x8000000; Sym 5 0x10000000; Sym 6 0x64000000;
  Sym 6 0x68000000; Sym 6 0x6c000000; Sym 6 0x70000000; Sym 6 0x74000000;
  Sym 6 0x78000000; Sym 6 0x7c000000; Sym 7 0xb8000000; Sym 8 0xfb000000;
  Sym 15 0xfff80000; Sym 6 0x80000000; Sym 12 0xffb00000; Sym 10 0xff000000;
  Sym 13 0xffd00000; Sym 6 0x84000000; Sym 7 0xba000000; Sym 7 0xbc000000;
  Sym 7 0xbe000000; Sym 7 0xc0000000; Sym 7 0xc2000000; Sym 7 0xc4000000;
  Sym 7 0xc6000000; Sym 7 0xc8000000; Sym 7 0xca000000; Sym 7 0xcc000000;
  Sym 7 0xce000000; Sym 7 0xd0000000; Sym 7 0xd2000000; Sym 7 0xd4000000;
  Sym 7 0xd6000000; Sym 7 0xd8000000; Sym 7 0xda000000; Sym 7 0xdc000000;
  Sym 7 0xde000000; Sym 7 0xe0000000; Sym 7 0xe2000000; Sym 7 0xe4000000;
  Sym 8 0xfc000000; Sym 7 0xe6000000; Sym 8 0xfd000000; Sym 13 0xffd80000;
  Sym 19 0xfffe0000; Sym 13 0xffe00000; Sym 14 0xfff00000; Sym 6 0x88000000;
  Sym 15 0xfffa0000; Sym 5 0x18000000; Sym 6 0x8c000000; Sym 5 0x20000000;
  Sym 6 0x90000000; Sym 5 0x28000000; Sym 6 0x94000000; Sym 6 0x98000000;
  Sym 6 0x9c000000; Sym 5 0x30000000; Sym 7 0xe8000000; Sym 7 0xea000000;
  Sym 6 0xa0000000; Sym 6 0xa4000000; Sym 6 0xa8000000; Sym 5 0x38000000;
  Sym 6 0xac000000; Sym 7 0xec000000; Sym 6 0xb0000000; Sym 5 0x40000000;
  Sym 5 0x48000000; Sym 6 0xb4000000; Sym 7 0xee000000; Sym 7 0xf0000000;
  Sym 7 0xf2000000; Sym 7 0xf4000000; Sym 7 0xf6000000; Sym 15 0xfffc0000;
  Sym 11 0xff800000; Sym 14 0xfff40000; Sym 13 0xffe80000; Sym 28 0xffffffc0;
  Sym 20 0xfffe6000; Sym 22 0xffff4800; Sym 20 0xfffe7000; Sym 20 0xfffe8000;
  Sym 22 0xffff4c00; Sym 22 0xffff5000; Sym 22 0xffff5400; Sym 23 0xffffb200;
  Sym 22 0xffff5800; Sym 23 0xffffb400; Sym 23 0xffffb600; Sym 23 0xffffb800;
  Sym 23 0xffffba00; Sym 23 0xffffbc00; Sym 24 0xffffeb00; Sym 23 0xffffbe00;
  Sym 24 0xffffec00; Sym 24 0xffffed00; Sym 22 0xffff5c00; Sym 23 0xffffc000;
  Sym 24 0xffffee00; Sym 23 0xffffc200; Sym 23 0xffffc400; Sym 23 0xffffc600;
  Sym 23 0xffffc800; Sym 21 0xfffee000; Sym 22 0xffff6000; Sym 23 0xffffca00;
  Sym 22 0xffff6400; Sym 23 0xffffcc00; Sym 23 0xffffce00; Sym 24 0xffffef00;
  Sym 22 0xffff6800; Sym 21 0xfffee800; Sym 20 0xfffe9000; Sym 22 0xffff6c00;
  Sym 22 0xffff7000; Sym 23 0xffffd000; Sym 23 0xffffd200; Sym 21 0xfffef000;
  Sym 23 0xffffd400; Sym 22 0xffff7400; Sym 22 0xffff7800; Sym 24 0xfffff000;
  Sym 21 0xfffef800; Sym 22 0xffff7c00; Sym 23 0xffffd600; Sym 23 0xffffd800;
  Sym 21 0xffff0000; Sym 21 0xffff0800; Sym 22 0xffff8000; Sym 21 0xffff1000;
  Sym 23 0xffffda00; Sym 22 0xffff8400; Sym 23 0xffffdc00; Sym 23 0xffffde00;
  Sym 20 0xfffea000; Sym 22 0xffff8800; Sym 22 0xffff8c00; Sym 22 0xffff9000;
  Sym 23 0xffffe000; Sym 22 0xffff9400; Sym 22 0xffff9800; Sym 23 0xffffe200;
  Sym 26 0xfffff800; Sym 26 0xfffff840; Sym 20 0xfffeb000; Sym 19 0xfffe2000;
  Sym 22 0xffff9c00; Sym 23 0xffffe400; Sym 22 0xffffa000; Sym 25 0xfffff600;
  Sym 26 0xfffff880; Sym 26 0xfffff8c0; Sym 26 0xfffff900; Sym 27 0xfffffbc0;
  Sym 27 0xfffffbe0; Sym 26 0xfffff940; Sym 24 0xfffff100; Sym 25 0xfffff680;
  Sym 19 0xfffe4000; Sym 21 0xffff1800; Sym 26 0xfffff980; Sym 27 0xfffffc00;
  Sym 27 0xfffffc20; Sym 26 0xfffff9c0; Sym 27 0xfffffc40; Sym 24 0xfffff200;
  Sym 21 0xffff2000; Sym 21 0xffff2800; Sym 26 0xfffffa00; Sym 26 0xfffffa40;
  Sym 28 0xffffffd0; Sym 27 0xfffffc60; Sym 27 0xfffffc80; Sym 27 0xfffffca0;
  Sym 20 0xfffec000; Sym 24 0xfffff300; Sym 20 0xfffed000; Sym 21 0xffff3000;
  Sym 22 0xffffa400; Sym 21 0xffff3800; Sym 21 0xffff4000; Sym 23 0xffffe600;
  Sym 22 0xffffa800; Sym 22 0xffffac00; Sym 25 0xfffff700; Sym 25 0xfffff780;
  Sym 24 0xfffff400; Sym 24 0xfffff500; Sym 26 0xfffffa80; Sym 23 0xffffe800;
  Sym 26 0xfffffac0; Sym 27 0xfffffcc0; Sym 26 0xfffffb00; Sym 26 0xfffffb40;
  Sym 27 0xfffffce0; Sym 27 0xfffffd00; Sym 27 0xfffffd20; Sym 27 0xfffffd40;
  Sym 27 0xfffffd60; Sym 28 0xffffffe0; Sym 27 0xfffffd80; Sym 27 0xfffffda0;
  Sym 27 0xfffffdc0; Sym 27 0xfffffde0; Sym 27 0xfffffe00; Sym 26 0xfffffb80;
  Sym 30 0xfffffffc
].

Definition huff_rows_0 : list (list nghttp2_huff_decode) := [
  (* 0 *)
  [
    Dec 0x04 0; Dec 0x05 0; Dec 0x07 0; Dec 0x08 0;
    Dec 0x0b 0; Dec 0x0c 0; Dec 0x10 0; Dec 0x13 0;
    Dec 0x19 0; Dec 0x1c 0; Dec 0x20 0; Dec 0x23 0;
    Dec 0x2a 0; Dec 0x31 0; Dec 0x39 0; Dec 0x4040 0
  ];
  (* 1 *)
  [
    Dec 0xc000 48; Dec 0xc000 49; Dec 0xc000 50; Dec 0xc000 97;
    Dec 0xc000 99; Dec 0xc000 101; Dec 0xc000 105; Dec 0xc000 111;
    Dec 0xc000 115; Dec 0xc000 116; Dec 0x0d 0; Dec 0x0e 0;
    Dec 0x11 0; Dec 0x12 0; Dec 0x14 0; Dec 0x15 0
  ];
  (* 2 *)
  [
    Dec 0x8001 48; Dec 0xc016 48; Dec 0x8001 49; Dec 0xc016 49;
    Dec 0x8001 50; Dec 0xc016 50; Dec 0x8001 97; Dec 0xc016 97;
    Dec 0x8001 99; Dec 0xc016 99; Dec 0x8001 101; Dec 0xc016 101;
    Dec 0x8001 105; Dec 0xc016 105; Dec 0x8001 111; Dec 0xc016 111
  ];
  (* 3 *)
  [
    Dec 0x8002 48; Dec 0x8009 48; Dec 0x8017 48; Dec 0xc028 48;
    Dec 0x8002 49; Dec 0x8009 49; Dec 0x8017 49; Dec 0xc028 49;
    Dec 0x8002 50; Dec 0x8009 50; Dec 0x8017 50; Dec 0xc028 50;
    Dec 0x8002 97; Dec 0x8009 97; Dec 0x8017 97; Dec 0xc028 97
  ];
  (* 4 *)
  [
    Dec 0x8003 48; Dec 0x8006 48; Dec 0x800a 48; Dec 0x800f 48;
    Dec 0x8018 48; Dec 0x801f 48; Dec 0x8029 48; Dec 0xc038 48;
    Dec 0x8003 49; Dec 0x8006 49; Dec 0x800a 49; Dec 0x800f 49;
    Dec 0x8018 49; Dec 0x801f 49; Dec 0x8029 49; Dec 0xc038 49
  ];
  (* 5 *)
  [
    Dec 0x8003 50; Dec 0x8006 50; Dec 0x800a 50; Dec 0x800f 50;
    Dec 0x8018 50; Dec 0x801f 50; Dec 0x8029 50; Dec 0xc038 50;
    Dec 0x8003 97; Dec 0x8006 97; Dec 0x800a 97; Dec 0x800f 97;
    Dec 0x8018 97; Dec 0x801f 97; Dec 0x8029 97; Dec 0xc038 97
  ];
  (* 6 *)
  [
    Dec 0x8002 99; Dec 0x8009 99; Dec 0x8017 99; Dec 0xc028 99;
    Dec 0x8002 101; Dec 0x8009 101; Dec 0x8017 101; Dec 0xc028 101;
    Dec 0x8002 105; Dec 0x8009 105; Dec 0x8017 105; Dec 0xc028 105;
    Dec 0x8002 111; Dec 0x8009 111; Dec 0x8017 111; Dec 0xc028 111
  ]
].

Definition huff_rows_7 : list (list nghttp2_huff_decode) := [
  (* 7 *)
  [
    Dec 0x8003 99; Dec 0x8006 99; Dec 0x800a 99; Dec 0x800f 99;
    Dec 0x8018 99; Dec 0x801f 99; Dec 0x8029 99; Dec 0xc038 99;
    Dec 0x8003 101; Dec 0x8006 101; Dec 0x800a 101; Dec 0x800f 101;
    Dec 0x8018 101; Dec 0x801f 101; Dec 0x8029 101; Dec 0xc038 101
  ];
  (* 8 *)
  [
    Dec 0x8003 105; Dec 0x8006 105; Dec 0x800a 105; Dec 0x800f 105;
    Dec 0x8018 105; Dec 0x801f 105; Dec 0x8029 105; Dec 0xc038 105;
    Dec 0x8003 111; Dec 0x8006 111; Dec 0x800a 111; Dec 0x800f 111;
    Dec 0x8018 111; Dec 0x801f 111; Dec 0x8029 111; Dec 0xc038 111
  ];
  (* 9 *)
  [
    Dec 0x8001 115; Dec 0xc016 115; Dec 0x8001 116; Dec 0xc016 116;
    Dec 0xc000 32; Dec 0xc000 37; Dec 0xc000 45; Dec 0xc000 46;
    Dec 0xc000 47; Dec 0xc000 51; Dec 0xc000 52; Dec 0xc000 53;
    Dec 0xc000 54; Dec 0xc000 55; Dec 0xc000 56; Dec 0xc000 57
  ];
  (* 10 *)
  [
    Dec 0x8002 115; Dec 0x8009 115; Dec 0x8017 115; Dec 0xc028 115;
    Dec 0x8002 116; Dec 0x8009 116; Dec 0x8017 116; Dec 0xc028 116;
    Dec 0x8001 32; Dec 0xc016 32; Dec 0x8001 37; Dec 0xc016 37;
    Dec 0x8001 45; Dec 0xc016 45; Dec 0x8001 46; Dec 0xc016 46
  ];
  (* 11 *)
  [
    Dec 0x8003 115; Dec 0x8006 115; Dec 0x800a 115; Dec 0x800f 115;
    Dec 0x8018 115; Dec 0x801f 115; Dec 0x8029 115; Dec 0xc038 115;
    Dec 0x8003 116; Dec 0x8006 116; Dec 0x800a 116; Dec 0x800f 116;
    Dec 0x8018 116; Dec 0x801f 116; Dec 0x8029 116; Dec 0xc038 116
  ];
  (* 12 *)
  [
    Dec 0x8002 32; Dec 0x8009 32; Dec 0x8017 32; Dec 0xc028 32;
    Dec 0x8002 37; Dec 0x8009 37; Dec 0x8017 37; Dec 0xc028 37;
    Dec 0x8002 45; Dec 0x8009 45; Dec 0x8017 45; Dec 0xc028 45;
    Dec 0x8002 46; Dec 0x8009 46; Dec 0x8017 46; Dec 0xc028 46
  ];
  (* 13 *)
  [
    Dec 0x8003 32; Dec 0x8006 32; Dec 0x800a 32; Dec 0x800f 32;
    Dec 0x8018 32; Dec 0x801f 32; Dec 0x8029 32; Dec 0xc038 32;
    Dec 0x8003 37; Dec 0x8006 37; Dec 0x800a 37; Dec 0x800f 37;
    Dec 0x8018 37; Dec 0x801f 37; Dec 0x8029 37; Dec 0xc038 37
  ]
].

Definition huff_rows_14 : list (list nghttp2_huff_decode) := [
  (* 14 *)
  [
    Dec 0x8003 45; Dec 0x8006 45; Dec 0x800a 45; Dec 0x800f 45;
    Dec 0x8018 45; Dec 0x801f 45; Dec 0x8029 45; Dec 0xc038 45;
    Dec 0x8003 46; Dec 0x8006 46; Dec 0x800a 46; Dec 0x800f 46;
    Dec 0x8018 46; Dec 0x801f 46; Dec 0x8029 46; Dec 0xc038 46
  ];
  (* 15 *)
  [
    Dec 0x8001 47; Dec 0xc016 47; Dec 0x8001 51; Dec 0xc016 51;
    Dec 0x8001 52; Dec 0xc016 52; Dec 0x8001 53; Dec 0xc016 53;
    Dec 0x8001 54; Dec 0xc016 54; Dec 0x8001 55; Dec 0xc016 55;
    Dec 0x8001 56; Dec 0xc016 56; Dec 0x8001 57; Dec 0xc016 57
  ];
  (* 16 *)
  [
    Dec 0x8002 47; Dec 0x8009 47; Dec 0x8017 47; Dec 0xc028 47;
    Dec 0x8002 51; Dec 0x8009 51; Dec 0x8017 51; Dec 0xc028 51;
    Dec 0x8002 52; Dec 0x8009 52; Dec 0x8017 52; Dec 0xc028 52;
    Dec 0x8002 53; Dec 0x8009 53; Dec 0x8017 53; Dec 0xc028 53
  ];
  (* 17 *)
  [
    Dec 0x8003 47; Dec 0x8006 47; Dec 0x800a 47; Dec 0x800f 47;
    Dec 0x8018 47; Dec 0x801f 47; Dec 0x8029 47; Dec 0xc038 47;
    Dec 0x8003 51; Dec 0x8006 51; Dec 0x800a 51; Dec 0x800f 51;
    Dec 0x8018 51; Dec 0x801f 51; Dec 0x8029 51; Dec 0xc038 51
  ];
  (* 18 *)
  [
    Dec 0x8003 52; Dec 0x8006 52; Dec 0x800a 52; Dec 0x800f 52;
    Dec 0x8018 52; Dec 0x801f 52; Dec 0x8029 52; Dec 0xc038 52;
    Dec 0x8003 53; Dec 0x8006 53; Dec 0x800a 53; Dec 0x800f 53;
    Dec 0x8018 53; Dec 0x801f 53; Dec 0x8029 53; Dec 0xc038 53
  ];
  (* 19 *)
  [
    Dec 0x8002 54; Dec 0x8009 54; Dec 0x8017 54; Dec 0xc028 54;
    Dec 0x8002 55; Dec 0x8009 55; Dec 0x8017 55; Dec 0xc028 55;
    Dec 0x8002 56; Dec 0x8009 56; Dec 0x8017 56; Dec 0xc028 56;
    Dec 0x8002 57; Dec 0x8009 57; Dec 0x8017 57; Dec 0xc028 57
  ];
  (* 20 *)
  [
    Dec 0x8003 54; Dec 0x8006 54; Dec 0x800a 54; Dec 0x800f 54;
    Dec 0x8018 54; Dec 0x801f 54; Dec 0x8029 54; Dec 0xc038 54;
    Dec 0x8003 55; Dec 0x8006 55; Dec 0x800a 55; Dec 0x800f 55;
    Dec 0x8018 55; Dec 0x801f 55; Dec 0x8029 55; Dec 0xc038 55
  ]
].

Definition huff_rows_21 : list (list nghttp2_huff_decode) := [
  (* 21 *)
  [
    Dec 0x8003 56; Dec 0x8006 56; Dec 0x800a 56; Dec 0x800f 56;
    Dec 0x8018 56; Dec 0x801f 56; Dec 0x8029 56; Dec 0xc038 56;
    Dec 0x8003 57; Dec 0x8006 57; Dec 0x800a 57; Dec 0x800f 57;
    Dec 0x8018 57; Dec 0x801f 57; Dec 0x8029 57; Dec 0xc038 57
  ];
  (* 22 *)
  [
    Dec 0x1a 0; Dec 0x1b 0; Dec 0x1d 0; Dec 0x1e 0;
    Dec 0x21 0; Dec 0x22 0; Dec 0x24 0; Dec 0x25 0;
    Dec 0x2b 0; Dec 0x2e 0; Dec 0x32 0; Dec 0x35 0;
    Dec 0x3a 0; Dec 0x3d 0; Dec 0x41 0; Dec 0x4044 0
  ];
  (* 23 *)
  [
    Dec 0xc000 61; Dec 0xc000 65; Dec 0xc000 95; Dec 0xc000 98;
    Dec 0xc000 100; Dec 0xc000 102; Dec 0xc000 103; Dec 0xc000 104;
    Dec 0xc000 108; Dec 0xc000 109; Dec 0xc000 110; Dec 0xc000 112;
    Dec 0xc000 114; Dec 0xc000 117; Dec 0x26 0; Dec 0x27 0
  ];
  (* 24 *)
  [
    Dec 0x8001 61; Dec 0xc016 61; Dec 0x8001 65; Dec 0xc016 65;
    Dec 0x8001 95; Dec 0xc016 95; Dec 0x8001 98; Dec 0xc016 98;
    Dec 0x8001 100; Dec 0xc016 100; Dec 0x8001 102; Dec 0xc016 102;
    Dec 0x8001 103; Dec 0xc016 103; Dec 0x8001 104; Dec 0xc016 104
  ];
  (* 25 *)
  [
    Dec 0x8002 61; Dec 0x8009 61; Dec 0x8017 61; Dec 0xc028 61;
    Dec 0x8002 65; Dec 0x8009 65; Dec 0x8017 65; Dec 0xc028 65;
    Dec 0x8002 95; Dec 0x8009 95; Dec 0x8017 95; Dec 0xc028 95;
    Dec 0x8002 98; Dec 0x8009 98; Dec 0x8017 98; Dec 0xc028 98
  ];
  (* 26 *)
  [
    Dec 0x8003 61; Dec 0x8006 61; Dec 0x800a 61; Dec 0x800f 61;
    Dec 0x8018 61; Dec 0x801f 61; Dec 0x8029 61; Dec 0xc038 61;
    Dec 0x8003 65; Dec 0x8006 65; Dec 0x800a 65; Dec 0x800f 65;
    Dec 0x8018 65; Dec 0x801f 65; Dec 0x8029 65; Dec 0xc038 65
  ];
  (* 27 *)
  [
    Dec 0x8003 95; Dec 0x8006 95; Dec 0x800a 95; Dec 0x800f 95;
    Dec 0x8018 95; Dec 0x801f 95; Dec 0x8029 95; Dec 0xc038 95;
    Dec 0x8003 98; Dec 0x8006 98; Dec 0x800a 98; Dec 0x800f 98;
    Dec 0x8018 98; Dec 0x801f 98; Dec 0x8029 98; Dec 0xc038 98
  ]
].

Definition huff_rows_28 : list (list nghttp2_huff_decode) := [
  (* 28 *)
  [
    Dec 0x8002 100; Dec 0x8009 100; Dec 0x8017 100; Dec 0xc028 100;
    Dec 0x8002 102; Dec 0x8009 102; Dec 0x8017 102; Dec 0xc028 102;
    Dec 0x8002 103; Dec 0x8009 103; Dec 0x8017 103; Dec 0xc028 103;
    Dec 0x8002 104; Dec 0x8009 104; Dec 0x8017 104; Dec 0xc028 104
  ];
  (* 29 *)
  [
    Dec 0x8003 100; Dec 0x8006 100; Dec 0x800a 100; Dec 0x800f 100;
    Dec 0x8018 100; Dec 0x801f 100; Dec 0x8029 100; Dec 0xc038 100;
    Dec 0x8003 102; Dec 0x8006 102; Dec 0x800a 102; Dec 0x800f 102;
    Dec 0x8018 102; Dec 0x801f 102; Dec 0x8029 102; Dec 0xc038 102
  ];
  (* 30 *)
  [
    Dec 0x8003 103; Dec 0x8006 103; Dec 0x800a 103; Dec 0x800f 103;
    Dec 0x8018 103; Dec 0x801f 103; Dec 0x8029 103; Dec 0xc038 103;
    Dec 0x8003 104; Dec 0x8006 104; Dec 0x800a 104; Dec 0x800f 104;
    Dec 0x8018 104; Dec 0x801f 104; Dec 0x8029 104; Dec 0xc038 104
  ];
  (* 31 *)
  [
    Dec 0x8001 108; Dec 0xc016 108; Dec 0x8001 109; Dec 0xc016 109;
    Dec 0x8001 110; Dec 0xc016 110; Dec 0x8001 112; Dec 0xc016 112;
    Dec 0x8001 114; Dec 0xc016 114; Dec 0x8001 117; Dec 0xc016 117;
    Dec 0xc000 58; Dec 0xc000 66; Dec 0xc000 67; Dec 0xc000 68
  ];
  (* 32 *)
  [
    Dec 0x8002 108; Dec 0x8009 108; Dec 0x8017 108; Dec 0xc028 108;
    Dec 0x8002 109; Dec 0x8009 109; Dec 0x8017 109; Dec 0xc028 109;
    Dec 0x8002 110; Dec 0x8009 110; Dec 0x8017 110; Dec 0xc028 110;
    Dec 0x8002 112; Dec 0x8009 112; Dec 0x8017 112; Dec 0xc028 112
  ];
  (* 33 *)
  [
    Dec 0x8003 108; Dec 0x8006 108; Dec 0x800a 108; Dec 0x800f 108;
    Dec 0x8018 108; Dec 0x801f 108; Dec 0x8029 108; Dec 0xc038 108;
    Dec 0x8003 109; Dec 0x8006 109; Dec 0x800a 109; Dec 0x800f 109;
    Dec 0x8018 109; Dec 0x801f 109; Dec 0x8029 109; Dec 0xc038 109
  ];
  (* 34 *)
  [
    Dec 0x8003 110; Dec 0x8006 110; Dec 0x800a 110; Dec 0x800f 110;
    Dec 0x8018 110; Dec 0x801f 110; Dec 0x8029 110; Dec 0xc038 110;
    Dec 0x8003 112; Dec 0x8006 112; Dec 0x800a 112; Dec 0x800f 112;
    Dec 0x8018 112; Dec 0x801f 112; Dec 0x8029 112; Dec 0xc038 112
  ]
].

Definition huff_rows_35 : list (list nghttp2_huff_decode) := [
  (* 35 *)
  [
    Dec 0x8002 114; Dec 0x8009 114; Dec 0x8017 114; Dec 0xc028 114;
    Dec 0x8002 117; Dec 0x8009 117; Dec 0x8017 117; Dec 0xc028 117;
    Dec 0x8001 58; Dec 0xc016 58; Dec 0x8001 66; Dec 0xc016 66;
    Dec 0x8001 67; Dec 0xc016 67; Dec 0x8001 68; Dec 0xc016 68
  ];
  (* 36 *)
  [
    Dec 0x8003 114; Dec 0x8006 114; Dec 0x800a 114; Dec 0x800f 114;
    Dec 0x8018 114; Dec 0x801f 114; Dec 0x8029 114; Dec 0xc038 114;
    Dec 0x8003 117; Dec 0x8006 117; Dec 0x800a 117; Dec 0x800f 117;
    Dec 0x8018 117; Dec 0x801f 117; Dec 0x8029 117; Dec 0xc038 117
  ];
  (* 37 *)
  [
    Dec 0x8002 58; Dec 0x8009 58; Dec 0x8017 58; Dec 0xc028 58;
    Dec 0x8002 66; Dec 0x8009 66; Dec 0x8017 66; Dec 0xc028 66;
    Dec 0x8002 67; Dec 0x8009 67; Dec 0x8017 67; Dec 0xc028 67;
    Dec 0x8002 68; Dec 0x8009 68; Dec 0x8017 68; Dec 0xc028 68
  ];
  (* 38 *)
  [
    Dec 0x8003 58; Dec 0x8006 58; Dec 0x800a 58; Dec 0x800f 58;
    Dec 0x8018 58; Dec 0x801f 58; Dec 0x8029 58; Dec 0xc038 58;
    Dec 0x8003 66; Dec 0x8006 66; Dec 0x800a 66; Dec 0x800f 66;
    Dec 0x8018 66; Dec 0x801f 66; Dec 0x8029 66; Dec 0xc038 66
  ];
  (* 39 *)
  [
    Dec 0x8003 67; Dec 0x8006 67; Dec 0x800a 67; Dec 0x800f 67;
    Dec 0x8018 67; Dec 0x801f 67; Dec 0x8029 67; Dec 0xc038 67;
    Dec 0x8003 68; Dec 0x8006 68; Dec 0x800a 68; Dec 0x800f 68;
    Dec 0x8018 68; Dec 0x801f 68; Dec 0x8029 68; Dec 0xc038 68
  ];
  (* 40 *)
  [
    Dec 0x2c 0; Dec 0x2d 0; Dec 0x2f 0; Dec 0x30 0;
    Dec 0x33 0; Dec 0x34 0; Dec 0x36 0; Dec 0x37 0;
    Dec 0x3b 0; Dec 0x3c 0; Dec 0x3e 0; Dec 0x3f 0;
    Dec 0x42 0; Dec 0x43 0; Dec 0x45 0; Dec 0x4048 0
  ];
  (* 41 *)
  [
    Dec 0xc000 69; Dec 0xc000 70; Dec 0xc000 71; Dec 0xc000 72;
    Dec 0xc000 73; Dec 0xc000 74; Dec 0xc000 75; Dec 0xc000 76;
    Dec 0xc000 77; Dec 0xc000 78; Dec 0xc000 79; Dec 0xc000 80;
    Dec 0xc000 81; Dec 0xc000 82; Dec 0xc000 83; Dec 0xc000 84
  ]
].

Definition huff_rows_42 : list (list nghttp2_huff_decode) := [
  (* 42 *)
  [
    Dec 0x8001 69; Dec 0xc016 69; Dec 0x8001 70; Dec 0xc016 70;
    Dec 0x8001 71; Dec 0xc016 71; Dec 0x8001 72; Dec 0xc016 72;
    Dec 0x8001 73; Dec 0xc016 73; Dec 0x8001 74; Dec 0xc016 74;
    Dec 0x8001 75; Dec 0xc016 75; Dec 0x8001 76; Dec 0xc016 76
  ];
  (* 43 *)
  [
    Dec 0x8002 69; Dec 0x8009 69; Dec 0x8017 69; Dec 0xc028 69;
    Dec 0x8002 70; Dec 0x8009 70; Dec 0x8017 70; Dec 0xc028 70;
    Dec 0x8002 71; Dec 0x8009 71; Dec 0x8017 71; Dec 0xc028 71;
    Dec 0x8002 72; Dec 0x8009 72; Dec 0x8017 72; Dec 0xc028 72
  ];
  (* 44 *)
  [
    Dec 0x8003 69; Dec 0x8006 69; Dec 0x800a 69; Dec 0x800f 69;
    Dec 0x8018 69; Dec 0x801f 69; Dec 0x8029 69; Dec 0xc038 69;
    Dec 0x8003 70; Dec 0x8006 70; Dec 0x800a 70; Dec 0x800f 70;
    Dec 0x8018 70; Dec 0x801f 70; Dec 0x8029 70; Dec 0xc038 70
  ];
  (* 45 *)
  [
    Dec 0x8003 71; Dec 0x8006 71; Dec 0x800a 71; Dec 0x800f 71;
    Dec 0x8018 71; Dec 0x801f 71; Dec 0x8029 71; Dec 0xc038 71;
    Dec 0x8003 72; Dec 0x8006 72; Dec 0x800a 72; Dec 0x800f 72;
    Dec 0x8018 72; Dec 0x801f 72; Dec 0x8029 72; Dec 0xc038 72
  ];
  (* 46 *)
  [
    Dec 0x8002 73; Dec 0x8009 73; Dec 0x8017 73; Dec 0xc028 73;
    Dec 0x8002 74; Dec 0x8009 74; Dec 0x8017 74; Dec 0xc028 74;
    Dec 0x8002 75; Dec 0x8009 75; Dec 0x8017 75; Dec 0xc028 75;
    Dec 0x8002 76; Dec 0x8009 76; Dec 0x8017 76; Dec 0xc028 76
  ];
  (* 47 *)
  [
    Dec 0x8003 73; Dec 0x8006 73; Dec 0x800a 73; Dec 0x800f 73;
    Dec 0x8018 73; Dec 0x801f 73; Dec 0x8029 73; Dec 0xc038 73;
    Dec 0x8003 74; Dec 0x8006 74; Dec 0x800a 74; Dec 0x800f 74;
    Dec 0x8018 74; Dec 0x801f 74; Dec 0x8029 74; Dec 0xc038 74
  ];
  (* 48 *)
  [
    Dec 0x8003 75; Dec 0x8006 75; Dec 0x800a 75; Dec 0x800f 75;
    Dec 0x8018 75; Dec 0x801f 75; Dec 0x8029 75; Dec 0xc038 75;
    Dec 0x8003 76; Dec 0x8006 76; Dec 0x800a 76; Dec 0x800f 76;
    Dec 0x8018 76; Dec 0x801f 76; Dec 0x8029 76; Dec 0xc038 76
  ]
].

Definition huff_rows_49 : list (list nghttp2_huff_decode) := [
  (* 49 *)
  [
    Dec 0x8001 77; Dec 0xc016 77; Dec 0x8001 78; Dec 0xc016 78;
    Dec 0x8001 79; Dec 0xc016 79; Dec 0x8001 80; Dec 0xc016 80;
    Dec 0x8001 81; Dec 0xc016 81; Dec 0x8001 82; Dec 0xc016 82;
    Dec 0x8001 83; Dec 0xc016 83; Dec 0x8001 84; Dec 0xc016 84
  ];
  (* 50 *)
  [
    Dec 0x8002 77; Dec 0x8009 77; Dec 0x8017 77; Dec 0xc028 77;
    Dec 0x8002 78; Dec 0x8009 78; Dec 0x8017 78; Dec 0xc028 78;
    Dec 0x8002 79; Dec 0x8009 79; Dec 0x8017 79; Dec 0xc028 79;
    Dec 0x8002 80; Dec 0x8009 80; Dec 0x8017 80; Dec 0xc028 80
  ];
  (* 51 *)
  [
    Dec 0x8003 77; Dec 0x8006 77; Dec 0x800a 77; Dec 0x800f 77;
    Dec 0x8018 77; Dec 0x801f 77; Dec 0x8029 77; Dec 0xc038 77;
    Dec 0x8003 78; Dec 0x8006 78; Dec 0x800a 78; Dec 0x800f 78;
    Dec 0x8018 78; Dec 0x801f 78; Dec 0x8029 78; Dec 0xc038 78
  ];
  (* 52 *)
  [
    Dec 0x8003 79; Dec 0x8006 79; Dec 0x800a 79; Dec 0x800f 79;
    Dec 0x8018 79; Dec 0x801f 79; Dec 0x8029 79; Dec 0xc038 79;
    Dec 0x8003 80; Dec 0x8006 80; Dec 0x800a 80; Dec 0x800f 80;
    Dec 0x8018 80; Dec 0x801f 80; Dec 0x8029 80; Dec 0xc038 80
  ];
  (* 53 *)
  [
    Dec 0x8002 81; Dec 0x8009 81; Dec 0x8017 81; Dec 0xc028 81;
    Dec 0x8002 82; Dec 0x8009 82; Dec 0x8017 82; Dec 0xc028 82;
    Dec 0x8002 83; Dec 0x8009 83; Dec 0x8017 83; Dec 0xc028 83;
    Dec 0x8002 84; Dec 0x8009 84; Dec 0x8017 84; Dec 0xc028 84
  ];
  (* 54 *)
  [
    Dec 0x8003 81; Dec 0x8006 81; Dec 0x800a 81; Dec 0x800f 81;
    Dec 0x8018 81; Dec 0x801f 81; Dec 0x8029 81; Dec 0xc038 81;
    Dec 0x8003 82; Dec 0x8006 82; Dec 0x800a 82; Dec 0x800f 82;
    Dec 0x8018 82; Dec 0x801f 82; Dec 0x8029 82; Dec 0xc038 82
  ];
  (* 55 *)
  [
    Dec 0x8003 83; Dec 0x8006 83; Dec 0x800a 83; Dec 0x800f 83;
    Dec 0x8018 83; Dec 0x801f 83; Dec 0x8029 83; Dec 0xc038 83;
    Dec 0x8003 84; Dec 0x8006 84; Dec 0x800a 84; Dec 0x800f 84;
    Dec 0x8018 84; Dec 0x801f 84; Dec 0x8029 84; Dec 0xc038 84
  ]
].

Definition huff_rows_56 : list (list nghttp2_huff_decode) := [
  (* 56 *)
  [
    Dec 0xc000 85; Dec 0xc000 86; Dec 0xc000 87; Dec 0xc000 89;
    Dec 0xc000 106; Dec 0xc000 107; Dec 0xc000 113; Dec 0xc000 118;
    Dec 0xc000 119; Dec 0xc000 120; Dec 0xc000 121; Dec 0xc000 122;
    Dec 0x46 0; Dec 0x47 0; Dec 0x49 0; Dec 0x404a 0
  ];
  (* 57 *)
  [
    Dec 0x8001 85; Dec 0xc016 85; Dec 0x8001 86; Dec 0xc016 86;
    Dec 0x8001 87; Dec 0xc016 87; Dec 0x8001 89; Dec 0xc016 89;
    Dec 0x8001 106; Dec 0xc016 106; Dec 0x8001 107; Dec 0xc016 107;
    Dec 0x8001 113; Dec 0xc016 113; Dec 0x8001 118; Dec 0xc016 118
  ];
  (* 58 *)
  [
    Dec 0x8002 85; Dec 0x8009 85; Dec 0x8017 85; Dec 0xc028 85;
    Dec 0x8002 86; Dec 0x8009 86; Dec 0x8017 86; Dec 0xc028 86;
    Dec 0x8002 87; Dec 0x8009 87; Dec 0x8017 87; Dec 0xc028 87;
    Dec 0x8002 89; Dec 0x8009 89; Dec 0x8017 89; Dec 0xc028 89
  ];
  (* 59 *)
  [
    Dec 0x8003 85; Dec 0x8006 85; Dec 0x800a 85; Dec 0x800f 85;
    Dec 0x8018 85; Dec 0x801f 85; Dec 0x8029 85; Dec 0xc038 85;
    Dec 0x8003 86; Dec 0x8006 86; Dec 0x800a 86; Dec 0x800f 86;
    Dec 0x8018 86; Dec 0x801f 86; Dec 0x8029 86; Dec 0xc038 86
  ];
  (* 60 *)
  [
    Dec 0x8003 87; Dec 0x8006 87; Dec 0x800a 87; Dec 0x800f 87;
    Dec 0x8018 87; Dec 0x801f 87; Dec 0x8029 87; Dec 0xc038 87;
    Dec 0x8003 89; Dec 0x8006 89; Dec 0x800a 89; Dec 0x800f 89;
    Dec 0x8018 89; Dec 0x801f 89; Dec 0x8029 89; Dec 0xc038 89
  ];
  (* 61 *)
  [
    Dec 0x8002 106; Dec 0x8009 106; Dec 0x8017 106; Dec 0xc028 106;
    Dec 0x8002 107; Dec 0x8009 107; Dec 0x8017 107; Dec 0xc028 107;
    Dec 0x8002 113; Dec 0x8009 113; Dec 0x8017 113; Dec 0xc028 113;
    Dec 0x8002 118; Dec 0x8009 118; Dec 0x8017 118; Dec 0xc028 118
  ];
  (* 62 *)
  [
    Dec 0x8003 106; Dec 0x8006 106; Dec 0x800a 106; Dec 0x800f 106;
    Dec 0x8018 106; Dec 0x801f 106; Dec 0x8029 106; Dec 0xc038 106;
    Dec 0x8003 107; Dec 0x8006 107; Dec 0x800a 107; Dec 0x800f 107;
    Dec 0x8018 107; Dec 0x801f 107; Dec 0x8029 107; Dec 0xc038 107
  ]
].

Definition huff_rows_63 : list (list nghttp2_huff_decode) := [
  (* 63 *)
  [
    Dec 0x8003 113; Dec 0x8006 113; Dec 0x800a 113; Dec 0x800f 113;
    Dec 0x8018 113; Dec 0x801f 113; Dec 0x8029 113; Dec 0xc038 113;
    Dec 0x8003 118; Dec 0x8006 118; Dec 0x800a 118; Dec 0x800f 118;
    Dec 0x8018 118; Dec 0x801f 118; Dec 0x8029 118; Dec 0xc038 118
  ];
  (* 64 *)
  [
    Dec 0x8001 119; Dec 0xc016 119; Dec 0x8001 120; Dec 0xc016 120;
    Dec 0x8001 121; Dec 0xc016 121; Dec 0x8001 122; Dec 0xc016 122;
    Dec 0xc000 38; Dec 0xc000 42; Dec 0xc000 44; Dec 0xc000 59;
    Dec 0xc000 88; Dec 0xc000 90; Dec 0x4b 0; Dec 0x4e 0
  ];
  (* 65 *)
  [
    Dec 0x8002 119; Dec 0x8009 119; Dec 0x8017 119; Dec 0xc028 119;
    Dec 0x8002 120; Dec 0x8009 120; Dec 0x8017 120; Dec 0xc028 120;
    Dec 0x8002 121; Dec 0x8009 121; Dec 0x8017 121; Dec 0xc028 121;
    Dec 0x8002 122; Dec 0x8009 122; Dec 0x8017 122; Dec 0xc028 122
  ];
  (* 66 *)
  [
    Dec 0x8003 119; Dec 0x8006 119; Dec 0x800a 119; Dec 0x800f 119;
    Dec 0x8018 119; Dec 0x801f 119; Dec 0x8029 119; Dec 0xc038 119;
    Dec 0x8003 120; Dec 0x8006 120; Dec 0x800a 120; Dec 0x800f 120;
    Dec 0x8018 120; Dec 0x801f 120; Dec 0x8029 120; Dec 0xc038 120
  ];
  (* 67 *)
  [
    Dec 0x8003 121; Dec 0x8006 121; Dec 0x800a 121; Dec 0x800f 121;
    Dec 0x8018 121; Dec 0x801f 121; Dec 0x8029 121; Dec 0xc038 121;
    Dec 0x8003 122; Dec 0x8006 122; Dec 0x800a 122; Dec 0x800f 122;
    Dec 0x8018 122; Dec 0x801f 122; Dec 0x8029 122; Dec 0xc038 122
  ];
  (* 68 *)
  [
    Dec 0x8001 38; Dec 0xc016 38; Dec 0x8001 42; Dec 0xc016 42;
    Dec 0x8001 44; Dec 0xc016 44; Dec 0x8001 59; Dec 0xc016 59;
    Dec 0x8001 88; Dec 0xc016 88; Dec 0x8001 90; Dec 0xc016 90;
    Dec 0x4c 0; Dec 0x4d 0; Dec 0x4f 0; Dec 0x51 0
  ];
  (* 69 *)
  [
    Dec 0x8002 38; Dec 0x8009 38; Dec 0x8017 38; Dec 0xc028 38;
    Dec 0x8002 42; Dec 0x8009 42; Dec 0x8017 42; Dec 0xc028 42;
    Dec 0x8002 44; Dec 0x8009 44; Dec 0x8017 44; Dec 0xc028 44;
    Dec 0x8002 59; Dec 0x8009 59; Dec 0x8017 59; Dec 0xc028 59
  ]
].

Definition huff_rows_70 : list (list nghttp2_huff_decode) := [
  (* 70 *)
  [
    Dec 0x8003 38; Dec 0x8006 38; Dec 0x800a 38; Dec 0x800f 38;
    Dec 0x8018 38; Dec 0x801f 38; Dec 0x8029 38; Dec 0xc038 38;
    Dec 0x8003 42; Dec 0x8006 42; Dec 0x800a 42; Dec 0x800f 42;
    Dec 0x8018 42; Dec 0x801f 42; Dec 0x8029 42; Dec 0xc038 42
  ];
  (* 71 *)
  [
    Dec 0x8003 44; Dec 0x8006 44; Dec 0x800a 44; Dec 0x800f 44;
    Dec 0x8018 44; Dec 0x801f 44; Dec 0x8029 44; Dec 0xc038 44;
    Dec 0x8003 59; Dec 0x8006 59; Dec 0x800a 59; Dec 0x800f 59;
    Dec 0x8018 59; Dec 0x801f 59; Dec 0x8029 59; Dec 0xc038 59
  ];
  (* 72 *)
  [
    Dec 0x8002 88; Dec 0x8009 88; Dec 0x8017 88; Dec 0xc028 88;
    Dec 0x8002 90; Dec 0x8009 90; Dec 0x8017 90; Dec 0xc028 90;
    Dec 0xc000 33; Dec 0xc000 34; Dec 0xc000 40; Dec 0xc000 41;
    Dec 0xc000 63; Dec 0x50 0; Dec 0x52 0; Dec 0x54 0
  ];
  (* 73 *)
  [
    Dec 0x8003 88; Dec 0x8006 88; Dec 0x800a 88; Dec 0x800f 88;
    Dec 0x8018 88; Dec 0x801f 88; Dec 0x8029 88; Dec 0xc038 88;
    Dec 0x8003 90; Dec 0x8006 90; Dec 0x800a 90; Dec 0x800f 90;
    Dec 0x8018 90; Dec 0x801f 90; Dec 0x8029 90; Dec 0xc038 90
  ];
  (* 74 *)
  [
    Dec 0x8001 33; Dec 0xc016 33; Dec 0x8001 34; Dec 0xc016 34;
    Dec 0x8001 40; Dec 0xc016 40; Dec 0x8001 41; Dec 0xc016 41;
    Dec 0x8001 63; Dec 0xc016 63; Dec 0xc000 39; Dec 0xc000 43;
    Dec 0xc000 124; Dec 0x53 0; Dec 0x55 0; Dec 0x58 0
  ];
  (* 75 *)
  [
    Dec 0x8002 33; Dec 0x8009 33; Dec 0x8017 33; Dec 0xc028 33;
    Dec 0x8002 34; Dec 0x8009 34; Dec 0x8017 34; Dec 0xc028 34;
    Dec 0x8002 40; Dec 0x8009 40; Dec 0x8017 40; Dec 0xc028 40;
    Dec 0x8002 41; Dec 0x8009 41; Dec 0x8017 41; Dec 0xc028 41
  ];
  (* 76 *)
  [
    Dec 0x8003 33; Dec 0x8006 33; Dec 0x800a 33; Dec 0x800f 33;
    Dec 0x8018 33; Dec 0x801f 33; Dec 0x8029 33; Dec 0xc038 33;
    Dec 0x8003 34; Dec 0x8006 34; Dec 0x800a 34; Dec 0x800f 34;
    Dec 0x8018 34; Dec 0x801f 34; Dec 0x8029 34; Dec 0xc038 34
  ]
].

Definition huff_rows_77 : list (list nghttp2_huff_decode) := [
  (* 77 *)
  [
    Dec 0x8003 40; Dec 0x8006 40; Dec 0x800a 40; Dec 0x800f 40;
    Dec 0x8018 40; Dec 0x801f 40; Dec 0x8029 40; Dec 0xc038 40;
    Dec 0x8003 41; Dec 0x8006 41; Dec 0x800a 41; Dec 0x800f 41;
    Dec 0x8018 41; Dec 0x801f 41; Dec 0x8029 41; Dec 0xc038 41
  ];
  (* 78 *)
  [
    Dec 0x8002 63; Dec 0x8009 63; Dec 0x8017 63; Dec 0xc028 63;
    Dec 0x8001 39; Dec 0xc016 39; Dec 0x8001 43; Dec 0xc016 43;
    Dec 0x8001 124; Dec 0xc016 124; Dec 0xc000 35; Dec 0xc000 62;
    Dec 0x56 0; Dec 0x57 0; Dec 0x59 0; Dec 0x5a 0
  ];
  (* 79 *)
  [
    Dec 0x8003 63; Dec 0x8006 63; Dec 0x800a 63; Dec 0x800f 63;
    Dec 0x8018 63; Dec 0x801f 63; Dec 0x8029 63; Dec 0xc038 63;
    Dec 0x8002 39; Dec 0x8009 39; Dec 0x8017 39; Dec 0xc028 39;
    Dec 0x8002 43; Dec 0x8009 43; Dec 0x8017 43; Dec 0xc028 43
  ];
  (* 80 *)
  [
    Dec 0x8003 39; Dec 0x8006 39; Dec 0x800a 39; Dec 0x800f 39;
    Dec 0x8018 39; Dec 0x801f 39; Dec 0x8029 39; Dec 0xc038 39;
    Dec 0x8003 43; Dec 0x8006 43; Dec 0x800a 43; Dec 0x800f 43;
    Dec 0x8018 43; Dec 0x801f 43; Dec 0x8029 43; Dec 0xc038 43
  ];
  (* 81 *)
  [
    Dec 0x8002 124; Dec 0x8009 124; Dec 0x8017 124; Dec 0xc028 124;
    Dec 0x8001 35; Dec 0xc016 35; Dec 0x8001 62; Dec 0xc016 62;
    Dec 0xc000 0; Dec 0xc000 36; Dec 0xc000 64; Dec 0xc000 91;
    Dec 0xc000 93; Dec 0xc000 126; Dec 0x5b 0; Dec 0x5c 0
  ];
  (* 82 *)
  [
    Dec 0x8003 124; Dec 0x8006 124; Dec 0x800a 124; Dec 0x800f 124;
    Dec 0x8018 124; Dec 0x801f 124; Dec 0x8029 124; Dec 0xc038 124;
    Dec 0x8002 35; Dec 0x8009 35; Dec 0x8017 35; Dec 0xc028 35;
    Dec 0x8002 62; Dec 0x8009 62; Dec 0x8017 62; Dec 0xc028 62
  ];
  (* 83 *)
  [
    Dec 0x8003 35; Dec 0x8006 35; Dec 0x800a 35; Dec 0x800f 35;
    Dec 0x8018 35; Dec 0x801f 35; Dec 0x8029 35; Dec 0xc038 35;
    Dec 0x8003 62; Dec 0x8006 62; Dec 0x800a 62; Dec 0x800f 62;
    Dec 0x8018 62; Dec 0x801f 62; Dec 0x8029 62; Dec 0xc038 62
  ]
].

Definition huff_rows_84 : list (list nghttp2_huff_decode) := [
  (* 84 *)
  [
    Dec 0x8001 0; Dec 0xc016 0; Dec 0x8001 36; Dec 0xc016 36;
    Dec 0x8001 64; Dec 0xc016 64; Dec 0x8001 91; Dec 0xc016 91;
    Dec 0x8001 93; Dec 0xc016 93; Dec 0x8001 126; Dec 0xc016 126;
    Dec 0xc000 94; Dec 0xc000 125; Dec 0x5d 0; Dec 0x5e 0
  ];
  (* 85 *)
  [
    Dec 0x8002 0; Dec 0x8009 0; Dec 0x8017 0; Dec 0xc028 0;
    Dec 0x8002 36; Dec 0x8009 36; Dec 0x8017 36; Dec 0xc028 36;
    Dec 0x8002 64; Dec 0x8009 64; Dec 0x8017 64; Dec 0xc028 64;
    Dec 0x8002 91; Dec 0x8009 91; Dec 0x8017 91; Dec 0xc028 91
  ];
  (* 86 *)
  [
    Dec 0x8003 0; Dec 0x8006 0; Dec 0x800a 0; Dec 0x800f 0;
    Dec 0x8018 0; Dec 0x801f 0; Dec 0x8029 0; Dec 0xc038 0;
    Dec 0x8003 36; Dec 0x8006 36; Dec 0x800a 36; Dec 0x800f 36;
    Dec 0x8018 36; Dec 0x801f 36; Dec 0x8029 36; Dec 0xc038 36
  ];
  (* 87 *)
  [
    Dec 0x8003 64; Dec 0x8006 64; Dec 0x800a 64; Dec 0x800f 64;
    Dec 0x8018 64; Dec 0x801f 64; Dec 0x8029 64; Dec 0xc038 64;
    Dec 0x8003 91; Dec 0x8006 91; Dec 0x800a 91; Dec 0x800f 91;
    Dec 0x8018 91; Dec 0x801f 91; Dec 0x8029 91; Dec 0xc038 91
  ];
  (* 88 *)
  [
    Dec 0x8002 93; Dec 0x8009 93; Dec 0x8017 93; Dec 0xc028 93;
    Dec 0x8002 126; Dec 0x8009 126; Dec 0x8017 126; Dec 0xc028 126;
    Dec 0x8001 94; Dec 0xc016 94; Dec 0x8001 125; Dec 0xc016 125;
    Dec 0xc000 60; Dec 0xc000 96; Dec 0xc000 123; Dec 0x5f 0
  ];
  (* 89 *)
  [
    Dec 0x8003 93; Dec 0x8006 93; Dec 0x800a 93; Dec 0x800f 93;
    Dec 0x8018 93; Dec 0x801f 93; Dec 0x8029 93; Dec 0xc038 93;
    Dec 0x8003 126; Dec 0x8006 126; Dec 0x800a 126; Dec 0x800f 126;
    Dec 0x8018 126; Dec 0x801f 126; Dec 0x8029 126; Dec 0xc038 126
  ];
  (* 90 *)
  [
    Dec 0x8002 94; Dec 0x8009 94; Dec 0x8017 94; Dec 0xc028 94;
    Dec 0x8002 125; Dec 0x8009 125; Dec 0x8017 125; Dec 0xc028 125;
    Dec 0x8001 60; Dec 0xc016 60; Dec 0x8001 96; Dec 0xc016 96;
    Dec 0x8001 123; Dec 0xc016 123; Dec 0x60 0; Dec 0x6e 0
  ]
].

Definition huff_rows_91 : list (list nghttp2_huff_decode) := [
  (* 91 *)
  [
    Dec 0x8003 94; Dec 0x8006 94; Dec 0x800a 94; Dec 0x800f 94;
    Dec 0x8018 94; Dec 0x801f 94; Dec 0x8029 94; Dec 0xc038 94;
    Dec 0x8003 125; Dec 0x8006 125; Dec 0x800a 125; Dec 0x800f 125;
    Dec 0x8018 125; Dec 0x801f 125; Dec 0x8029 125; Dec 0xc038 125
  ];
  (* 92 *)
  [
    Dec 0x8002 60; Dec 0x8009 60; Dec 0x8017 60; Dec 0xc028 60;
    Dec 0x8002 96; Dec 0x8009 96; Dec 0x8017 96; Dec 0xc028 96;
    Dec 0x8002 123; Dec 0x8009 123; Dec 0x8017 123; Dec 0xc028 123;
    Dec 0x61 0; Dec 0x65 0; Dec 0x6f 0; Dec 0x85 0
  ];
  (* 93 *)
  [
    Dec 0x8003 60; Dec 0x8006 60; Dec 0x800a 60; Dec 0x800f 60;
    Dec 0x8018 60; Dec 0x801f 60; Dec 0x8029 60; Dec 0xc038 60;
    Dec 0x8003 96; Dec 0x8006 96; Dec 0x800a 96; Dec 0x800f 96;
    Dec 0x8018 96; Dec 0x801f 96; Dec 0x8029 96; Dec 0xc038 96
  ];
  (* 94 *)
  [
    Dec 0x8003 123; Dec 0x8006 123; Dec 0x800a 123; Dec 0x800f 123;
    Dec 0x8018 123; Dec 0x801f 123; Dec 0x8029 123; Dec 0xc038 123;
    Dec 0x62 0; Dec 0x63 0; Dec 0x66 0; Dec 0x69 0;
    Dec 0x70 0; Dec 0x77 0; Dec 0x86 0; Dec 0x99 0
  ];
  (* 95 *)
  [
    Dec 0xc000 92; Dec 0xc000 195; Dec 0xc000 208; Dec 0x64 0;
    Dec 0x67 0; Dec 0x68 0; Dec 0x6a 0; Dec 0x6b 0;
    Dec 0x71 0; Dec 0x74 0; Dec 0x78 0; Dec 0x7e 0;
    Dec 0x87 0; Dec 0x8e 0; Dec 0x9a 0; Dec 0xa9 0
  ];
  (* 96 *)
  [
    Dec 0x8001 92; Dec 0xc016 92; Dec 0x8001 195; Dec 0xc016 195;
    Dec 0x8001 208; Dec 0xc016 208; Dec 0xc000 128; Dec 0xc000 130;
    Dec 0xc000 131; Dec 0xc000 162; Dec 0xc000 184; Dec 0xc000 194;
    Dec 0xc000 224; Dec 0xc000 226; Dec 0x6c 0; Dec 0x6d 0
  ];
  (* 97 *)
  [
    Dec 0x8002 92; Dec 0x8009 92; Dec 0x8017 92; Dec 0xc028 92;
    Dec 0x8002 195; Dec 0x8009 195; Dec 0x8017 195; Dec 0xc028 195;
    Dec 0x8002 208; Dec 0x8009 208; Dec 0x8017 208; Dec 0xc028 208;
    Dec 0x8001 128; Dec 0xc016 128; Dec 0x8001 130; Dec 0xc016 130
  ]
].

Definition huff_rows_98 : list (list nghttp2_huff_decode) := [
  (* 98 *)
  [
    Dec 0x8003 92; Dec 0x8006 92; Dec 0x800a 92; Dec 0x800f 92;
    Dec 0x8018 92; Dec 0x801f 92; Dec 0x8029 92; Dec 0xc038 92;
    Dec 0x8003 195; Dec 0x8006 195; Dec 0x800a 195; Dec 0x800f 195;
    Dec 0x8018 195; Dec 0x801f 195; Dec 0x8029 195; Dec 0xc038 195
  ];
  (* 99 *)
  [
    Dec 0x8003 208; Dec 0x8006 208; Dec 0x800a 208; Dec 0x800f 208;
    Dec 0x8018 208; Dec 0x801f 208; Dec 0x8029 208; Dec 0xc038 208;
    Dec 0x8002 128; Dec 0x8009 128; Dec 0x8017 128; Dec 0xc028 128;
    Dec 0x8002 130; Dec 0x8009 130; Dec 0x8017 130; Dec 0xc028 130
  ];
  (* 100 *)
  [
    Dec 0x8003 128; Dec 0x8006 128; Dec 0x800a 128; Dec 0x800f 128;
    Dec 0x8018 128; Dec 0x801f 128; Dec 0x8029 128; Dec 0xc038 128;
    Dec 0x8003 130; Dec 0x8006 130; Dec 0x800a 130; Dec 0x800f 130;
    Dec 0x8018 130; Dec 0x801f 130; Dec 0x8029 130; Dec 0xc038 130
  ];
  (* 101 *)
  [
    Dec 0x8001 131; Dec 0xc016 131; Dec 0x8001 162; Dec 0xc016 162;
    Dec 0x8001 184; Dec 0xc016 184; Dec 0x8001 194; Dec 0xc016 194;
    Dec 0x8001 224; Dec 0xc016 224; Dec 0x8001 226; Dec 0xc016 226;
    Dec 0xc000 153; Dec 0xc000 161; Dec 0xc000 167; Dec 0xc000 172
  ];
  (* 102 *)
  [
    Dec 0x8002 131; Dec 0x8009 131; Dec 0x8017 131; Dec 0xc028 131;
    Dec 0x8002 162; Dec 0x8009 162; Dec 0x8017 162; Dec 0xc028 162;
    Dec 0x8002 184; Dec 0x8009 184; Dec 0x8017 184; Dec 0xc028 184;
    Dec 0x8002 194; Dec 0x8009 194; Dec 0x8017 194; Dec 0xc028 194
  ];
  (* 103 *)
  [
    Dec 0x8003 131; Dec 0x8006 131; Dec 0x800a 131; Dec 0x800f 131;
    Dec 0x8018 131; Dec 0x801f 131; Dec 0x8029 131; Dec 0xc038 131;
    Dec 0x8003 162; Dec 0x8006 162; Dec 0x800a 162; Dec 0x800f 162;
    Dec 0x8018 162; Dec 0x801f 162; Dec 0x8029 162; Dec 0xc038 162
  ];
  (* 104 *)
  [
    Dec 0x8003 184; Dec 0x8006 184; Dec 0x800a 184; Dec 0x800f 184;
    Dec 0x8018 184; Dec 0x801f 184; Dec 0x8029 184; Dec 0xc038 184;
    Dec 0x8003 194; Dec 0x8006 194; Dec 0x800a 194; Dec 0x800f 194;
    Dec 0x8018 194; Dec 0x801f 194; Dec 0x8029 194; Dec 0xc038 194
  ]
].

Definition huff_rows_105 : list (list nghttp2_huff_decode) := [
  (* 105 *)
  [
    Dec 0x8002 224; Dec 0x8009 224; Dec 0x8017 224; Dec 0xc028 224;
    Dec 0x8002 226; Dec 0x8009 226; Dec 0x8017 226; Dec 0xc028 226;
    Dec 0x8001 153; Dec 0xc016 153; Dec 0x8001 161; Dec 0xc016 161;
    Dec 0x8001 167; Dec 0xc016 167; Dec 0x8001 172; Dec 0xc016 172
  ];
  (* 106 *)
  [
    Dec 0x8003 224; Dec 0x8006 224; Dec 0x800a 224; Dec 0x800f 224;
    Dec 0x8018 224; Dec 0x801f 224; Dec 0x8029 224; Dec 0xc038 224;
    Dec 0x8003 226; Dec 0x8006 226; Dec 0x800a 226; Dec 0x800f 226;
    Dec 0x8018 226; Dec 0x801f 226; Dec 0x8029 226; Dec 0xc038 226
  ];
  (* 107 *)
  [
    Dec 0x8002 153; Dec 0x8009 153; Dec 0x8017 153; Dec 0xc028 153;
    Dec 0x8002 161; Dec 0x8009 161; Dec 0x8017 161; Dec 0xc028 161;
    Dec 0x8002 167; Dec 0x8009 167; Dec 0x8017 167; Dec 0xc028 167;
    Dec 0x8002 172; Dec 0x8009 172; Dec 0x8017 172; Dec 0xc028 172
  ];
  (* 108 *)
  [
    Dec 0x8003 153; Dec 0x8006 153; Dec 0x800a 153; Dec 0x800f 153;
    Dec 0x8018 153; Dec 0x801f 153; Dec 0x8029 153; Dec 0xc038 153;
    Dec 0x8003 161; Dec 0x8006 161; Dec 0x800a 161; Dec 0x800f 161;
    Dec 0x8018 161; Dec 0x801f 161; Dec 0x8029 161; Dec 0xc038 161
  ];
  (* 109 *)
  [
    Dec 0x8003 167; Dec 0x8006 167; Dec 0x800a 167; Dec 0x800f 167;
    Dec 0x8018 167; Dec 0x801f 167; Dec 0x8029 167; Dec 0xc038 167;
    Dec 0x8003 172; Dec 0x8006 172; Dec 0x800a 172; Dec 0x800f 172;
    Dec 0x8018 172; Dec 0x801f 172; Dec 0x8029 172; Dec 0xc038 172
  ];
  (* 110 *)
  [
    Dec 0x72 0; Dec 0x73 0; Dec 0x75 0; Dec 0x76 0;
    Dec 0x79 0; Dec 0x7b 0; Dec 0x7f 0; Dec 0x82 0;
    Dec 0x88 0; Dec 0x8b 0; Dec 0x8f 0; Dec 0x92 0;
    Dec 0x9b 0; Dec 0xa2 0; Dec 0xaa 0; Dec 0xb4 0
  ];
  (* 111 *)
  [
    Dec 0xc000 176; Dec 0xc000 177; Dec 0xc000 179; Dec 0xc000 209;
    Dec 0xc000 216; Dec 0xc000 217; Dec 0xc000 227; Dec 0xc000 229;
    Dec 0xc000 230; Dec 0x7a 0; Dec 0x7c 0; Dec 0x7d 0;
    Dec 0x80 0; Dec 0x81 0; Dec 0x83 0; Dec 0x84 0
  ]
].

Definition huff_rows_112 : list (list nghttp2_huff_decode) := [
  (* 112 *)
  [
    Dec 0x8001 176; Dec 0xc016 176; Dec 0x8001 177; Dec 0xc016 177;
    Dec 0x8001 179; Dec 0xc016 179; Dec 0x8001 209; Dec 0xc016 209;
    Dec 0x8001 216; Dec 0xc016 216; Dec 0x8001 217; Dec 0xc016 217;
    Dec 0x8001 227; Dec 0xc016 227; Dec 0x8001 229; Dec 0xc016 229
  ];
  (* 113 *)
  [
    Dec 0x8002 176; Dec 0x8009 176; Dec 0x8017 176; Dec 0xc028 176;
    Dec 0x8002 177; Dec 0x8009 177; Dec 0x8017 177; Dec 0xc028 177;
    Dec 0x8002 179; Dec 0x8009 179; Dec 0x8017 179; Dec 0xc028 179;
    Dec 0x8002 209; Dec 0x8009 209; Dec 0x8017 209; Dec 0xc028 209
  ];
  (* 114 *)
  [
    Dec 0x8003 176; Dec 0x8006 176; Dec 0x800a 176; Dec 0x800f 176;
    Dec 0x8018 176; Dec 0x801f 176; Dec 0x8029 176; Dec 0xc038 176;
    Dec 0x8003 177; Dec 0x8006 177; Dec 0x800a 177; Dec 0x800f 177;
    Dec 0x8018 177; Dec 0x801f 177; Dec 0x8029 177; Dec 0xc038 177
  ];
  (* 115 *)
  [
    Dec 0x8003 179; Dec 0x8006 179; Dec 0x800a 179; Dec 0x800f 179;
    Dec 0x8018 179; Dec 0x801f 179; Dec 0x8029 179; Dec 0xc038 179;
    Dec 0x8003 209; Dec 0x8006 209; Dec 0x800a 209; Dec 0x800f 209;
    Dec 0x8018 209; Dec 0x801f 209; Dec 0x8029 209; Dec 0xc038 209
  ];
  (* 116 *)
  [
    Dec 0x8002 216; Dec 0x8009 216; Dec 0x8017 216; Dec 0xc028 216;
    Dec 0x8002 217; Dec 0x8009 217; Dec 0x8017 217; Dec 0xc028 217;
    Dec 0x8002 227; Dec 0x8009 227; Dec 0x8017 227; Dec 0xc028 227;
    Dec 0x8002 229; Dec 0x8009 229; Dec 0x8017 229; Dec 0xc028 229
  ];
  (* 117 *)
  [
    Dec 0x8003 216; Dec 0x8006 216; Dec 0x800a 216; Dec 0x800f 216;
    Dec 0x8018 216; Dec 0x801f 216; Dec 0x8029 216; Dec 0xc038 216;
    Dec 0x8003 217; Dec 0x8006 217; Dec 0x800a 217; Dec 0x800f 217;
    Dec 0x8018 217; Dec 0x801f 217; Dec 0x8029 217; Dec 0xc038 217
  ];
  (* 118 *)
  [
    Dec 0x8003 227; Dec 0x8006 227; Dec 0x800a 227; Dec 0x800f 227;
    Dec 0x8018 227; Dec 0x801f 227; Dec 0x8029 227; Dec 0xc038 227;
    Dec 0x8003 229; Dec 0x8006 229; Dec 0x800a 229; Dec 0x800f 229;
    Dec 0x8018 229; Dec 0x801f 229; Dec 0x8029 229; Dec 0xc038 229
  ]
].

Definition huff_rows_119 : list (list nghttp2_huff_decode) := [
  (* 119 *)
  [
    Dec 0x8001 230; Dec 0xc016 230; Dec 0xc000 129; Dec 0xc000 132;
    Dec 0xc000 133; Dec 0xc000 134; Dec 0xc000 136; Dec 0xc000 146;
    Dec 0xc000 154; Dec 0xc000 156; Dec 0xc000 160; Dec 0xc000 163;
    Dec 0xc000 164; Dec 0xc000 169; Dec 0xc000 170; Dec 0xc000 173
  ];
  (* 120 *)
  [
    Dec 0x8002 230; Dec 0x8009 230; Dec 0x8017 230; Dec 0xc028 230;
    Dec 0x8001 129; Dec 0xc016 129; Dec 0x8001 132; Dec 0xc016 132;
    Dec 0x8001 133; Dec 0xc016 133; Dec 0x8001 134; Dec 0xc016 134;
    Dec 0x8001 136; Dec 0xc016 136; Dec 0x8001 146; Dec 0xc016 146
  ];
  (* 121 *)
  [
    Dec 0x8003 230; Dec 0x8006 230; Dec 0x800a 230; Dec 0x800f 230;
    Dec 0x8018 230; Dec 0x801f 230; Dec 0x8029 230; Dec 0xc038 230;
    Dec 0x8002 129; Dec 0x8009 129; Dec 0x8017 129; Dec 0xc028 129;
    Dec 0x8002 132; Dec 0x8009 132; Dec 0x8017 132; Dec 0xc028 132
  ];
  (* 122 *)
  [
    Dec 0x8003 129; Dec 0x8006 129; Dec 0x800a 129; Dec 0x800f 129;
    Dec 0x8018 129; Dec 0x801f 129; Dec 0x8029 129; Dec 0xc038 129;
    Dec 0x8003 132; Dec 0x8006 132; Dec 0x800a 132; Dec 0x800f 132;
    Dec 0x8018 132; Dec 0x801f 132; Dec 0x8029 132; Dec 0xc038 132
  ];
  (* 123 *)
  [
    Dec 0x8002 133; Dec 0x8009 133; Dec 0x8017 133; Dec 0xc028 133;
    Dec 0x8002 134; Dec 0x8009 134; Dec 0x8017 134; Dec 0xc028 134;
    Dec 0x8002 136; Dec 0x8009 136; Dec 0x8017 136; Dec 0xc028 136;
    Dec 0x8002 146; Dec 0x8009 146; Dec 0x8017 146; Dec 0xc028 146
  ];
  (* 124 *)
  [
    Dec 0x8003 133; Dec 0x8006 133; Dec 0x800a 133; Dec 0x800f 133;
    Dec 0x8018 133; Dec 0x801f 133; Dec 0x8029 133; Dec 0xc038 133;
    Dec 0x8003 134; Dec 0x8006 134; Dec 0x800a 134; Dec 0x800f 134;
    Dec 0x8018 134; Dec 0x801f 134; Dec 0x8029 134; Dec 0xc038 134
  ];
  (* 125 *)
  [
    Dec 0x8003 136; Dec 0x8006 136; Dec 0x800a 136; Dec 0x800f 136;
    Dec 0x8018 136; Dec 0x801f 136; Dec 0x8029 136; Dec 0xc038 136;
    Dec 0x8003 146; Dec 0x8006 146; Dec 0x800a 146; Dec 0x800f 146;
    Dec 0x8018 146; Dec 0x801f 146; Dec 0x8029 146; Dec 0xc038 146
  ]
].

Definition huff_rows_126 : list (list nghttp2_huff_decode) := [
  (* 126 *)
  [
    Dec 0x8001 154; Dec 0xc016 154; Dec 0x8001 156; Dec 0xc016 156;
    Dec 0x8001 160; Dec 0xc016 160; Dec 0x8001 163; Dec 0xc016 163;
    Dec 0x8001 164; Dec 0xc016 164; Dec 0x8001 169; Dec 0xc016 169;
    Dec 0x8001 170; Dec 0xc016 170; Dec 0x8001 173; Dec 0xc016 173
  ];
  (* 127 *)
  [
    Dec 0x8002 154; Dec 0x8009 154; Dec 0x8017 154; Dec 0xc028 154;
    Dec 0x8002 156; Dec 0x8009 156; Dec 0x8017 156; Dec 0xc028 156;
    Dec 0x8002 160; Dec 0x8009 160; Dec 0x8017 160; Dec 0xc028 160;
    Dec 0x8002 163; Dec 0x8009 163; Dec 0x8017 163; Dec 0xc028 163
  ];
  (* 128 *)
  [
    Dec 0x8003 154; Dec 0x8006 154; Dec 0x800a 154; Dec 0x800f 154;
    Dec 0x8018 154; Dec 0x801f 154; Dec 0x8029 154; Dec 0xc038 154;
    Dec 0x8003 156; Dec 0x8006 156; Dec 0x800a 156; Dec 0x800f 156;
    Dec 0x8018 156; Dec 0x801f 156; Dec 0x8029 156; Dec 0xc038 156
  ];
  (* 129 *)
  [
    Dec 0x8003 160; Dec 0x8006 160; Dec 0x800a 160; Dec 0x800f 160;
    Dec 0x8018 160; Dec 0x801f 160; Dec 0x8029 160; Dec 0xc038 160;
    Dec 0x8003 163; Dec 0x8006 163; Dec 0x800a 163; Dec 0x800f 163;
    Dec 0x8018 163; Dec 0x801f 163; Dec 0x8029 163; Dec 0xc038 163
  ];
  (* 130 *)
  [
    Dec 0x8002 164; Dec 0x8009 164; Dec 0x8017 164; Dec 0xc028 164;
    Dec 0x8002 169; Dec 0x8009 169; Dec 0x8017 169; Dec 0xc028 169;
    Dec 0x8002 170; Dec 0x8009 170; Dec 0x8017 170; Dec 0xc028 170;
    Dec 0x8002 173; Dec 0x8009 173; Dec 0x8017 173; Dec 0xc028 173
  ];
  (* 131 *)
  [
    Dec 0x8003 164; Dec 0x8006 164; Dec 0x800a 164; Dec 0x800f 164;
    Dec 0x8018 164; Dec 0x801f 164; Dec 0x8029 164; Dec 0xc038 164;
    Dec 0x8003 169; Dec 0x8006 169; Dec 0x800a 169; Dec 0x800f 169;
    Dec 0x8018 169; Dec 0x801f 169; Dec 0x8029 169; Dec 0xc038 169
  ];
  (* 132 *)
  [
    Dec 0x8003 170; Dec 0x8006 170; Dec 0x800a 170; Dec 0x800f 170;
    Dec 0x8018 170; Dec 0x801f 170; Dec 0x8029 170; Dec 0xc038 170;
    Dec 0x8003 173; Dec 0x8006 173; Dec 0x800a 173; Dec 0x800f 173;
    Dec 0x8018 173; Dec 0x801f 173; Dec 0x8029 173; Dec 0xc038 173
  ]
].

Definition huff_rows_133 : list (list nghttp2_huff_decode) := [
  (* 133 *)
  [
    Dec 0x89 0; Dec 0x8a 0; Dec 0x8c 0; Dec 0x8d 0;
    Dec 0x90 0; Dec 0x91 0; Dec 0x93 0; Dec 0x96 0;
    Dec 0x9c 0; Dec 0x9f 0; Dec 0xa3 0; Dec 0xa6 0;
    Dec 0xab 0; Dec 0xae 0; Dec 0xb5 0; Dec 0xbe 0
  ];
  (* 134 *)
  [
    Dec 0xc000 178; Dec 0xc000 181; Dec 0xc000 185; Dec 0xc000 186;
    Dec 0xc000 187; Dec 0xc000 189; Dec 0xc000 190; Dec 0xc000 196;
    Dec 0xc000 198; Dec 0xc000 228; Dec 0xc000 232; Dec 0xc000 233;
    Dec 0x94 0; Dec 0x95 0; Dec 0x97 0; Dec 0x98 0
  ];
  (* 135 *)
  [
    Dec 0x8001 178; Dec 0xc016 178; Dec 0x8001 181; Dec 0xc016 181;
    Dec 0x8001 185; Dec 0xc016 185; Dec 0x8001 186; Dec 0xc016 186;
    Dec 0x8001 187; Dec 0xc016 187; Dec 0x8001 189; Dec 0xc016 189;
    Dec 0x8001 190; Dec 0xc016 190; Dec 0x8001 196; Dec 0xc016 196
  ];
  (* 136 *)
  [
    Dec 0x8002 178; Dec 0x8009 178; Dec 0x8017 178; Dec 0xc028 178;
    Dec 0x8002 181; Dec 0x8009 181; Dec 0x8017 181; Dec 0xc028 181;
    Dec 0x8002 185; Dec 0x8009 185; Dec 0x8017 185; Dec 0xc028 185;
    Dec 0x8002 186; Dec 0x8009 186; Dec 0x8017 186; Dec 0xc028 186
  ];
  (* 137 *)
  [
    Dec 0x8003 178; Dec 0x8006 178; Dec 0x800a 178; Dec 0x800f 178;
    Dec 0x8018 178; Dec 0x801f 178; Dec 0x8029 178; Dec 0xc038 178;
    Dec 0x8003 181; Dec 0x8006 181; Dec 0x800a 181; Dec 0x800f 181;
    Dec 0x8018 181; Dec 0x801f 181; Dec 0x8029 181; Dec 0xc038 181
  ];
  (* 138 *)
  [
    Dec 0x8003 185; Dec 0x8006 185; Dec 0x800a 185; Dec 0x800f 185;
    Dec 0x8018 185; Dec 0x801f 185; Dec 0x8029 185; Dec 0xc038 185;
    Dec 0x8003 186; Dec 0x8006 186; Dec 0x800a 186; Dec 0x800f 186;
    Dec 0x8018 186; Dec 0x801f 186; Dec 0x8029 186; Dec 0xc038 186
  ];
  (* 139 *)
  [
    Dec 0x8002 187; Dec 0x8009 187; Dec 0x8017 187; Dec 0xc028 187;
    Dec 0x8002 189; Dec 0x8009 189; Dec 0x8017 189; Dec 0xc028 189;
    Dec 0x8002 190; Dec 0x8009 190; Dec 0x8017 190; Dec 0xc028 190;
    Dec 0x8002 196; Dec 0x8009 196; Dec 0x8017 196; Dec 0xc028 196
  ]
].

Definition huff_rows_140 : list (list nghttp2_huff_decode) := [
  (* 140 *)
  [
    Dec 0x8003 187; Dec 0x8006 187; Dec 0x800a 187; Dec 0x800f 187;
    Dec 0x8018 187; Dec 0x801f 187; Dec 0x8029 187; Dec 0xc038 187;
    Dec 0x8003 189; Dec 0x8006 189; Dec 0x800a 189; Dec 0x800f 189;
    Dec 0x8018 189; Dec 0x801f 189; Dec 0x8029 189; Dec 0xc038 189
  ];
  (* 141 *)
  [
    Dec 0x8003 190; Dec 0x8006 190; Dec 0x800a 190; Dec 0x800f 190;
    Dec 0x8018 190; Dec 0x801f 190; Dec 0x8029 190; Dec 0xc038 190;
    Dec 0x8003 196; Dec 0x8006 196; Dec 0x800a 196; Dec 0x800f 196;
    Dec 0x8018 196; Dec 0x801f 196; Dec 0x8029 196; Dec 0xc038 196
  ];
  (* 142 *)
  [
    Dec 0x8001 198; Dec 0xc016 198; Dec 0x8001 228; Dec 0xc016 228;
    Dec 0x8001 232; Dec 0xc016 232; Dec 0x8001 233; Dec 0xc016 233;
    Dec 0xc000 1; Dec 0xc000 135; Dec 0xc000 137; Dec 0xc000 138;
    Dec 0xc000 139; Dec 0xc000 140; Dec 0xc000 141; Dec 0xc000 143
  ];
  (* 143 *)
  [
    Dec 0x8002 198; Dec 0x8009 198; Dec 0x8017 198; Dec 0xc028 198;
    Dec 0x8002 228; Dec 0x8009 228; Dec 0x8017 228; Dec 0xc028 228;
    Dec 0x8002 232; Dec 0x8009 232; Dec 0x8017 232; Dec 0xc028 232;
    Dec 0x8002 233; Dec 0x8009 233; Dec 0x8017 233; Dec 0xc028 233
  ];
  (* 144 *)
  [
    Dec 0x8003 198; Dec 0x8006 198; Dec 0x800a 198; Dec 0x800f 198;
    Dec 0x8018 198; Dec 0x801f 198; Dec 0x8029 198; Dec 0xc038 198;
    Dec 0x8003 228; Dec 0x8006 228; Dec 0x800a 228; Dec 0x800f 228;
    Dec 0x8018 228; Dec 0x801f 228; Dec 0x8029 228; Dec 0xc038 228
  ];
  (* 145 *)
  [
    Dec 0x8003 232; Dec 0x8006 232; Dec 0x800a 232; Dec 0x800f 232;
    Dec 0x8018 232; Dec 0x801f 232; Dec 0x8029 232; Dec 0xc038 232;
    Dec 0x8003 233; Dec 0x8006 233; Dec 0x800a 233; Dec 0x800f 233;
    Dec 0x8018 233; Dec 0x801f 233; Dec 0x8029 233; Dec 0xc038 233
  ];
  (* 146 *)
  [
    Dec 0x8001 1; Dec 0xc016 1; Dec 0x8001 135; Dec 0xc016 135;
    Dec 0x8001 137; Dec 0xc016 137; Dec 0x8001 138; Dec 0xc016 138;
    Dec 0x8001 139; Dec 0xc016 139; Dec 0x8001 140; Dec 0xc016 140;
    Dec 0x8001 141; Dec 0xc016 141; Dec 0x8001 143; Dec 0xc016 143
  ]
].

Definition huff_rows_147 : list (list nghttp2_huff_decode) := [
  (* 147 *)
  [
    Dec 0x8002 1; Dec 0x8009 1; Dec 0x8017 1; Dec 0xc028 1;
    Dec 0x8002 135; Dec 0x8009 135; Dec 0x8017 135; Dec 0xc028 135;
    Dec 0x8002 137; Dec 0x8009 137; Dec 0x8017 137; Dec 0xc028 137;
    Dec 0x8002 138; Dec 0x8009 138; Dec 0x8017 138; Dec 0xc028 138
  ];
  (* 148 *)
  [
    Dec 0x8003 1; Dec 0x8006 1; Dec 0x800a 1; Dec 0x800f 1;
    Dec 0x8018 1; Dec 0x801f 1; Dec 0x8029 1; Dec 0xc038 1;
    Dec 0x8003 135; Dec 0x8006 135; Dec 0x800a 135; Dec 0x800f 135;
    Dec 0x8018 135; Dec 0x801f 135; Dec 0x8029 135; Dec 0xc038 135
  ];
  (* 149 *)
  [
    Dec 0x8003 137; Dec 0x8006 137; Dec 0x800a 137; Dec 0x800f 137;
    Dec 0x8018 137; Dec 0x801f 137; Dec 0x8029 137; Dec 0xc038 137;
    Dec 0x8003 138; Dec 0x8006 138; Dec 0x800a 138; Dec 0x800f 138;
    Dec 0x8018 138; Dec 0x801f 138; Dec 0x8029 138; Dec 0xc038 138
  ];
  (* 150 *)
  [
    Dec 0x8002 139; Dec 0x8009 139; Dec 0x8017 139; Dec 0xc028 139;
    Dec 0x8002 140; Dec 0x8009 140; Dec 0x8017 140; Dec 0xc028 140;
    Dec 0x8002 141; Dec 0x8009 141; Dec 0x8017 141; Dec 0xc028 141;
    Dec 0x8002 143; Dec 0x8009 143; Dec 0x8017 143; Dec 0xc028 143
  ];
  (* 151 *)
  [
    Dec 0x8003 139; Dec 0x8006 139; Dec 0x800a 139; Dec 0x800f 139;
    Dec 0x8018 139; Dec 0x801f 139; Dec 0x8029 139; Dec 0xc038 139;
    Dec 0x8003 140; Dec 0x8006 140; Dec 0x800a 140; Dec 0x800f 140;
    Dec 0x8018 140; Dec 0x801f 140; Dec 0x8029 140; Dec 0xc038 140
  ];
  (* 152 *)
  [
    Dec 0x8003 141; Dec 0x8006 141; Dec 0x800a 141; Dec 0x800f 141;
    Dec 0x8018 141; Dec 0x801f 141; Dec 0x8029 141; Dec 0xc038 141;
    Dec 0x8003 143; Dec 0x8006 143; Dec 0x800a 143; Dec 0x800f 143;
    Dec 0x8018 143; Dec 0x801f 143; Dec 0x8029 143; Dec 0xc038 143
  ];
  (* 153 *)
  [
    Dec 0x9d 0; Dec 0x9e 0; Dec 0xa0 0; Dec 0xa1 0;
    Dec 0xa4 0; Dec 0xa5 0; Dec 0xa7 0; Dec 0xa8 0;
    Dec 0xac 0; Dec 0xad 0; Dec 0xaf 0; Dec 0xb1 0;
    Dec 0xb6 0; Dec 0xb9 0; Dec 0xbf 0; Dec 0xcf 0
  ]
].

Definition huff_rows_154 : list (list nghttp2_huff_decode) := [
  (* 154 *)
  [
    Dec 0xc000 147; Dec 0xc000 149; Dec 0xc000 150; Dec 0xc000 151;
    Dec 0xc000 152; Dec 0xc000 155; Dec 0xc000 157; Dec 0xc000 158;
    Dec 0xc000 165; Dec 0xc000 166; Dec 0xc000 168; Dec 0xc000 174;
    Dec 0xc000 175; Dec 0xc000 180; Dec 0xc000 182; Dec 0xc000 183
  ];
  (* 155 *)
  [
    Dec 0x8001 147; Dec 0xc016 147; Dec 0x8001 149; Dec 0xc016 149;
    Dec 0x8001 150; Dec 0xc016 150; Dec 0x8001 151; Dec 0xc016 151;
    Dec 0x8001 152; Dec 0xc016 152; Dec 0x8001 155; Dec 0xc016 155;
    Dec 0x8001 157; Dec 0xc016 157; Dec 0x8001 158; Dec 0xc016 158
  ];
  (* 156 *)
  [
    Dec 0x8002 147; Dec 0x8009 147; Dec 0x8017 147; Dec 0xc028 147;
    Dec 0x8002 149; Dec 0x8009 149; Dec 0x8017 149; Dec 0xc028 149;
    Dec 0x8002 150; Dec 0x8009 150; Dec 0x8017 150; Dec 0xc028 150;
    Dec 0x8002 151; Dec 0x8009 151; Dec 0x8017 151; Dec 0xc028 151
  ];
  (* 157 *)
  [
    Dec 0x8003 147; Dec 0x8006 147; Dec 0x800a 147; Dec 0x800f 147;
    Dec 0x8018 147; Dec 0x801f 147; Dec 0x8029 147; Dec 0xc038 147;
    Dec 0x8003 149; Dec 0x8006 149; Dec 0x800a 149; Dec 0x800f 149;
    Dec 0x8018 149; Dec 0x801f 149; Dec 0x8029 149; Dec 0xc038 149
  ];
  (* 158 *)
  [
    Dec 0x8003 150; Dec 0x8006 150; Dec 0x800a 150; Dec 0x800f 150;
    Dec 0x8018 150; Dec 0x801f 150; Dec 0x8029 150; Dec 0xc038 150;
    Dec 0x8003 151; Dec 0x8006 151; Dec 0x800a 151; Dec 0x800f 151;
    Dec 0x8018 151; Dec 0x801f 151; Dec 0x8029 151; Dec 0xc038 151
  ];
  (* 159 *)
  [
    Dec 0x8002 152; Dec 0x8009 152; Dec 0x8017 152; Dec 0xc028 152;
    Dec 0x8002 155; Dec 0x8009 155; Dec 0x8017 155; Dec 0xc028 155;
    Dec 0x8002 157; Dec 0x8009 157; Dec 0x8017 157; Dec 0xc028 157;
    Dec 0x8002 158; Dec 0x8009 158; Dec 0x8017 158; Dec 0xc028 158
  ];
  (* 160 *)
  [
    Dec 0x8003 152; Dec 0x8006 152; Dec 0x800a 152; Dec 0x800f 152;
    Dec 0x8018 152; Dec 0x801f 152; Dec 0x8029 152; Dec 0xc038 152;
    Dec 0x8003 155; Dec 0x8006 155; Dec 0x800a 155; Dec 0x800f 155;
    Dec 0x8018 155; Dec 0x801f 155; Dec 0x8029 155; Dec 0xc038 155
  ]
].

Definition huff_rows_161 : list (list nghttp2_huff_decode) := [
  (* 161 *)
  [
    Dec 0x8003 157; Dec 0x8006 157; Dec 0x800a 157; Dec 0x800f 157;
    Dec 0x8018 157; Dec 0x801f 157; Dec 0x8029 157; Dec 0xc038 157;
    Dec 0x8003 158; Dec 0x8006 158; Dec 0x800a 158; Dec 0x800f 158;
    Dec 0x8018 158; Dec 0x801f 158; Dec 0x8029 158; Dec 0xc038 158
  ];
  (* 162 *)
  [
    Dec 0x8001 165; Dec 0xc016 165; Dec 0x8001 166; Dec 0xc016 166;
    Dec 0x8001 168; Dec 0xc016 168; Dec 0x8001 174; Dec 0xc016 174;
    Dec 0x8001 175; Dec 0xc016 175; Dec 0x8001 180; Dec 0xc016 180;
    Dec 0x8001 182; Dec 0xc016 182; Dec 0x8001 183; Dec 0xc016 183
  ];
  (* 163 *)
  [
    Dec 0x8002 165; Dec 0x8009 165; Dec 0x8017 165; Dec 0xc028 165;
    Dec 0x8002 166; Dec 0x8009 166; Dec 0x8017 166; Dec 0xc028 166;
    Dec 0x8002 168; Dec 0x8009 168; Dec 0x8017 168; Dec 0xc028 168;
    Dec 0x8002 174; Dec 0x8009 174; Dec 0x8017 174; Dec 0xc028 174
  ];
  (* 164 *)
  [
    Dec 0x8003 165; Dec 0x8006 165; Dec 0x800a 165; Dec 0x800f 165;
    Dec 0x8018 165; Dec 0x801f 165; Dec 0x8029 165; Dec 0xc038 165;
    Dec 0x8003 166; Dec 0x8006 166; Dec 0x800a 166; Dec 0x800f 166;
    Dec 0x8018 166; Dec 0x801f 166; Dec 0x8029 166; Dec 0xc038 166
  ];
  (* 165 *)
  [
    Dec 0x8003 168; Dec 0x8006 168; Dec 0x800a 168; Dec 0x800f 168;
    Dec 0x8018 168; Dec 0x801f 168; Dec 0x8029 168; Dec 0xc038 168;
    Dec 0x8003 174; Dec 0x8006 174; Dec 0x800a 174; Dec 0x800f 174;
    Dec 0x8018 174; Dec 0x801f 174; Dec 0x8029 174; Dec 0xc038 174
  ];
  (* 166 *)
  [
    Dec 0x8002 175; Dec 0x8009 175; Dec 0x8017 175; Dec 0xc028 175;
    Dec 0x8002 180; Dec 0x8009 180; Dec 0x8017 180; Dec 0xc028 180;
    Dec 0x8002 182; Dec 0x8009 182; Dec 0x8017 182; Dec 0xc028 182;
    Dec 0x8002 183; Dec 0x8009 183; Dec 0x8017 183; Dec 0xc028 183
  ];
  (* 167 *)
  [
    Dec 0x8003 175; Dec 0x8006 175; Dec 0x800a 175; Dec 0x800f 175;
    Dec 0x8018 175; Dec 0x801f 175; Dec 0x8029 175; Dec 0xc038 175;
    Dec 0x8003 180; Dec 0x8006 180; Dec 0x800a 180; Dec 0x800f 180;
    Dec 0x8018 180; Dec 0x801f 180; Dec 0x8029 180; Dec 0xc038 180
  ]
].

Definition huff_rows_168 : list (list nghttp2_huff_decode) := [
  (* 168 *)
  [
    Dec 0x8003 182; Dec 0x8006 182; Dec 0x800a 182; Dec 0x800f 182;
    Dec 0x8018 182; Dec 0x801f 182; Dec 0x8029 182; Dec 0xc038 182;
    Dec 0x8003 183; Dec 0x8006 183; Dec 0x800a 183; Dec 0x800f 183;
    Dec 0x8018 183; Dec 0x801f 183; Dec 0x8029 183; Dec 0xc038 183
  ];
  (* 169 *)
  [
    Dec 0xc000 188; Dec 0xc000 191; Dec 0xc000 197; Dec 0xc000 231;
    Dec 0xc000 239; Dec 0xb0 0; Dec 0xb2 0; Dec 0xb3 0;
    Dec 0xb7 0; Dec 0xb8 0; Dec 0xba 0; Dec 0xbb 0;
    Dec 0xc0 0; Dec 0xc7 0; Dec 0xd0 0; Dec 0xdf 0
  ];
  (* 170 *)
  [
    Dec 0x8001 188; Dec 0xc016 188; Dec 0x8001 191; Dec 0xc016 191;
    Dec 0x8001 197; Dec 0xc016 197; Dec 0x8001 231; Dec 0xc016 231;
    Dec 0x8001 239; Dec 0xc016 239; Dec 0xc000 9; Dec 0xc000 142;
    Dec 0xc000 144; Dec 0xc000 145; Dec 0xc000 148; Dec 0xc000 159
  ];
  (* 171 *)
  [
    Dec 0x8002 188; Dec 0x8009 188; Dec 0x8017 188; Dec 0xc028 188;
    Dec 0x8002 191; Dec 0x8009 191; Dec 0x8017 191; Dec 0xc028 191;
    Dec 0x8002 197; Dec 0x8009 197; Dec 0x8017 197; Dec 0xc028 197;
    Dec 0x8002 231; Dec 0x8009 231; Dec 0x8017 231; Dec 0xc028 231
  ];
  (* 172 *)
  [
    Dec 0x8003 188; Dec 0x8006 188; Dec 0x800a 188; Dec 0x800f 188;
    Dec 0x8018 188; Dec 0x801f 188; Dec 0x8029 188; Dec 0xc038 188;
    Dec 0x8003 191; Dec 0x8006 191; Dec 0x800a 191; Dec 0x800f 191;
    Dec 0x8018 191; Dec 0x801f 191; Dec 0x8029 191; Dec 0xc038 191
  ];
  (* 173 *)
  [
    Dec 0x8003 197; Dec 0x8006 197; Dec 0x800a 197; Dec 0x800f 197;
    Dec 0x8018 197; Dec 0x801f 197; Dec 0x8029 197; Dec 0xc038 197;
    Dec 0x8003 231; Dec 0x8006 231; Dec 0x800a 231; Dec 0x800f 231;
    Dec 0x8018 231; Dec 0x801f 231; Dec 0x8029 231; Dec 0xc038 231
  ];
  (* 174 *)
  [
    Dec 0x8002 239; Dec 0x8009 239; Dec 0x8017 239; Dec 0xc028 239;
    Dec 0x8001 9; Dec 0xc016 9; Dec 0x8001 142; Dec 0xc016 142;
    Dec 0x8001 144; Dec 0xc016 144; Dec 0x8001 145; Dec 0xc016 145;
    Dec 0x8001 148; Dec 0xc016 148; Dec 0x8001 159; Dec 0xc016 159
  ]
].

Definition huff_rows_175 : list (list nghttp2_huff_decode) := [
  (* 175 *)
  [
    Dec 0x8003 239; Dec 0x8006 239; Dec 0x800a 239; Dec 0x800f 239;
    Dec 0x8018 239; Dec 0x801f 239; Dec 0x8029 239; Dec 0xc038 239;
    Dec 0x8002 9; Dec 0x8009 9; Dec 0x8017 9; Dec 0xc028 9;
    Dec 0x8002 142; Dec 0x8009 142; Dec 0x8017 142; Dec 0xc028 142
  ];
  (* 176 *)
  [
    Dec 0x8003 9; Dec 0x8006 9; Dec 0x800a 9; Dec 0x800f 9;
    Dec 0x8018 9; Dec 0x801f 9; Dec 0x8029 9; Dec 0xc038 9;
    Dec 0x8003 142; Dec 0x8006 142; Dec 0x800a 142; Dec 0x800f 142;
    Dec 0x8018 142; Dec 0x801f 142; Dec 0x8029 142; Dec 0xc038 142
  ];
  (* 177 *)
  [
    Dec 0x8002 144; Dec 0x8009 144; Dec 0x8017 144; Dec 0xc028 144;
    Dec 0x8002 145; Dec 0x8009 145; Dec 0x8017 145; Dec 0xc028 145;
    Dec 0x8002 148; Dec 0x8009 148; Dec 0x8017 148; Dec 0xc028 148;
    Dec 0x8002 159; Dec 0x8009 159; Dec 0x8017 159; Dec 0xc028 159
  ];
  (* 178 *)
  [
    Dec 0x8003 144; Dec 0x8006 144; Dec 0x800a 144; Dec 0x800f 144;
    Dec 0x8018 144; Dec 0x801f 144; Dec 0x8029 144; Dec 0xc038 144;
    Dec 0x8003 145; Dec 0x8006 145; Dec 0x800a 145; Dec 0x800f 145;
    Dec 0x8018 145; Dec 0x801f 145; Dec 0x8029 145; Dec 0xc038 145
  ];
  (* 179 *)
  [
    Dec 0x8003 148; Dec 0x8006 148; Dec 0x800a 148; Dec 0x800f 148;
    Dec 0x8018 148; Dec 0x801f 148; Dec 0x8029 148; Dec 0xc038 148;
    Dec 0x8003 159; Dec 0x8006 159; Dec 0x800a 159; Dec 0x800f 159;
    Dec 0x8018 159; Dec 0x801f 159; Dec 0x8029 159; Dec 0xc038 159
  ];
  (* 180 *)
  [
    Dec 0xc000 171; Dec 0xc000 206; Dec 0xc000 215; Dec 0xc000 225;
    Dec 0xc000 236; Dec 0xc000 237; Dec 0xbc 0; Dec 0xbd 0;
    Dec 0xc1 0; Dec 0xc4 0; Dec 0xc8 0; Dec 0xcb 0;
    Dec 0xd1 0; Dec 0xd8 0; Dec 0xe0 0; Dec 0xee 0
  ];
  (* 181 *)
  [
    Dec 0x8001 171; Dec 0xc016 171; Dec 0x8001 206; Dec 0xc016 206;
    Dec 0x8001 215; Dec 0xc016 215; Dec 0x8001 225; Dec 0xc016 225;
    Dec 0x8001 236; Dec 0xc016 236; Dec 0x8001 237; Dec 0xc016 237;
    Dec 0xc000 199; Dec 0xc000 207; Dec 0xc000 234; Dec 0xc000 235
  ]
].

Definition huff_rows_182 : list (list nghttp2_huff_decode) := [
  (* 182 *)
  [
    Dec 0x8002 171; Dec 0x8009 171; Dec 0x8017 171; Dec 0xc028 171;
    Dec 0x8002 206; Dec 0x8009 206; Dec 0x8017 206; Dec 0xc028 206;
    Dec 0x8002 215; Dec 0x8009 215; Dec 0x8017 215; Dec 0xc028 215;
    Dec 0x8002 225; Dec 0x8009 225; Dec 0x8017 225; Dec 0xc028 225
  ];
  (* 183 *)
  [
    Dec 0x8003 171; Dec 0x8006 171; Dec 0x800a 171; Dec 0x800f 171;
    Dec 0x8018 171; Dec 0x801f 171; Dec 0x8029 171; Dec 0xc038 171;
    Dec 0x8003 206; Dec 0x8006 206; Dec 0x800a 206; Dec 0x800f 206;
    Dec 0x8018 206; Dec 0x801f 206; Dec 0x8029 206; Dec 0xc038 206
  ];
  (* 184 *)
  [
    Dec 0x8003 215; Dec 0x8006 215; Dec 0x800a 215; Dec 0x800f 215;
    Dec 0x8018 215; Dec 0x801f 215; Dec 0x8029 215; Dec 0xc038 215;
    Dec 0x8003 225; Dec 0x8006 225; Dec 0x800a 225; Dec 0x800f 225;
    Dec 0x8018 225; Dec 0x801f 225; Dec 0x8029 225; Dec 0xc038 225
  ];
  (* 185 *)
  [
    Dec 0x8002 236; Dec 0x8009 236; Dec 0x8017 236; Dec 0xc028 236;
    Dec 0x8002 237; Dec 0x8009 237; Dec 0x8017 237; Dec 0xc028 237;
    Dec 0x8001 199; Dec 0xc016 199; Dec 0x8001 207; Dec 0xc016 207;
    Dec 0x8001 234; Dec 0xc016 234; Dec 0x8001 235; Dec 0xc016 235
  ];
  (* 186 *)
  [
    Dec 0x8003 236; Dec 0x8006 236; Dec 0x800a 236; Dec 0x800f 236;
    Dec 0x8018 236; Dec 0x801f 236; Dec 0x8029 236; Dec 0xc038 236;
    Dec 0x8003 237; Dec 0x8006 237; Dec 0x800a 237; Dec 0x800f 237;
    Dec 0x8018 237; Dec 0x801f 237; Dec 0x8029 237; Dec 0xc038 237
  ];
  (* 187 *)
  [
    Dec 0x8002 199; Dec 0x8009 199; Dec 0x8017 199; Dec 0xc028 199;
    Dec 0x8002 207; Dec 0x8009 207; Dec 0x8017 207; Dec 0xc028 207;
    Dec 0x8002 234; Dec 0x8009 234; Dec 0x8017 234; Dec 0xc028 234;
    Dec 0x8002 235; Dec 0x8009 235; Dec 0x8017 235; Dec 0xc028 235
  ];
  (* 188 *)
  [
    Dec 0x8003 199; Dec 0x8006 199; Dec 0x800a 199; Dec 0x800f 199;
    Dec 0x8018 199; Dec 0x801f 199; Dec 0x8029 199; Dec 0xc038 199;
    Dec 0x8003 207; Dec 0x8006 207; Dec 0x800a 207; Dec 0x800f 207;
    Dec 0x8018 207; Dec 0x801f 207; Dec 0x8029 207; Dec 0xc038 207
  ]
].

Definition huff_rows_189 : list (list nghttp2_huff_decode) := [
  (* 189 *)
  [
    Dec 0x8003 234; Dec 0x8006 234; Dec 0x800a 234; Dec 0x800f 234;
    Dec 0x8018 234; Dec 0x801f 234; Dec 0x8029 234; Dec 0xc038 234;
    Dec 0x8003 235; Dec 0x8006 235; Dec 0x800a 235; Dec 0x800f 235;
    Dec 0x8018 235; Dec 0x801f 235; Dec 0x8029 235; Dec 0xc038 235
  ];
  (* 190 *)
  [
    Dec 0xc2 0; Dec 0xc3 0; Dec 0xc5 0; Dec 0xc6 0;
    Dec 0xc9 0; Dec 0xca 0; Dec 0xcc 0; Dec 0xcd 0;
    Dec 0xd2 0; Dec 0xd5 0; Dec 0xd9 0; Dec 0xdc 0;
    Dec 0xe1 0; Dec 0xe7 0; Dec 0xef 0; Dec 0xf6 0
  ];
  (* 191 *)
  [
    Dec 0xc000 192; Dec 0xc000 193; Dec 0xc000 200; Dec 0xc000 201;
    Dec 0xc000 202; Dec 0xc000 205; Dec 0xc000 210; Dec 0xc000 213;
    Dec 0xc000 218; Dec 0xc000 219; Dec 0xc000 238; Dec 0xc000 240;
    Dec 0xc000 242; Dec 0xc000 243; Dec 0xc000 255; Dec 0xce 0
  ];
  (* 192 *)
  [
    Dec 0x8001 192; Dec 0xc016 192; Dec 0x8001 193; Dec 0xc016 193;
    Dec 0x8001 200; Dec 0xc016 200; Dec 0x8001 201; Dec 0xc016 201;
    Dec 0x8001 202; Dec 0xc016 202; Dec 0x8001 205; Dec 0xc016 205;
    Dec 0x8001 210; Dec 0xc016 210; Dec 0x8001 213; Dec 0xc016 213
  ];
  (* 193 *)
  [
    Dec 0x8002 192; Dec 0x8009 192; Dec 0x8017 192; Dec 0xc028 192;
    Dec 0x8002 193; Dec 0x8009 193; Dec 0x8017 193; Dec 0xc028 193;
    Dec 0x8002 200; Dec 0x8009 200; Dec 0x8017 200; Dec 0xc028 200;
    Dec 0x8002 201; Dec 0x8009 201; Dec 0x8017 201; Dec 0xc028 201
  ];
  (* 194 *)
  [
    Dec 0x8003 192; Dec 0x8006 192; Dec 0x800a 192; Dec 0x800f 192;
    Dec 0x8018 192; Dec 0x801f 192; Dec 0x8029 192; Dec 0xc038 192;
    Dec 0x8003 193; Dec 0x8006 193; Dec 0x800a 193; Dec 0x800f 193;
    Dec 0x8018 193; Dec 0x801f 193; Dec 0x8029 193; Dec 0xc038 193
  ];
  (* 195 *)
  [
    Dec 0x8003 200; Dec 0x8006 200; Dec 0x800a 200; Dec 0x800f 200;
    Dec 0x8018 200; Dec 0x801f 200; Dec 0x8029 200; Dec 0xc038 200;
    Dec 0x8003 201; Dec 0x8006 201; Dec 0x800a 201; Dec 0x800f 201;
    Dec 0x8018 201; Dec 0x801f 201; Dec 0x8029 201; Dec 0xc038 201
  ]
].

Definition huff_rows_196 : list (list nghttp2_huff_decode) := [
  (* 196 *)
  [
    Dec 0x8002 202; Dec 0x8009 202; Dec 0x8017 202; Dec 0xc028 202;
    Dec 0x8002 205; Dec 0x8009 205; Dec 0x8017 205; Dec 0xc028 205;
    Dec 0x8002 210; Dec 0x8009 210; Dec 0x8017 210; Dec 0xc028 210;
    Dec 0x8002 213; Dec 0x8009 213; Dec 0x8017 213; Dec 0xc028 213
  ];
  (* 197 *)
  [
    Dec 0x8003 202; Dec 0x8006 202; Dec 0x800a 202; Dec 0x800f 202;
    Dec 0x8018 202; Dec 0x801f 202; Dec 0x8029 202; Dec 0xc038 202;
    Dec 0x8003 205; Dec 0x8006 205; Dec 0x800a 205; Dec 0x800f 205;
    Dec 0x8018 205; Dec 0x801f 205; Dec 0x8029 205; Dec 0xc038 205
  ];
  (* 198 *)
  [
    Dec 0x8003 210; Dec 0x8006 210; Dec 0x800a 210; Dec 0x800f 210;
    Dec 0x8018 210; Dec 0x801f 210; Dec 0x8029 210; Dec 0xc038 210;
    Dec 0x8003 213; Dec 0x8006 213; Dec 0x800a 213; Dec 0x800f 213;
    Dec 0x8018 213; Dec 0x801f 213; Dec 0x8029 213; Dec 0xc038 213
  ];
  (* 199 *)
  [
    Dec 0x8001 218; Dec 0xc016 218; Dec 0x8001 219; Dec 0xc016 219;
    Dec 0x8001 238; Dec 0xc016 238; Dec 0x8001 240; Dec 0xc016 240;
    Dec 0x8001 242; Dec 0xc016 242; Dec 0x8001 243; Dec 0xc016 243;
    Dec 0x8001 255; Dec 0xc016 255; Dec 0xc000 203; Dec 0xc000 204
  ];
  (* 200 *)
  [
    Dec 0x8002 218; Dec 0x8009 218; Dec 0x8017 218; Dec 0xc028 218;
    Dec 0x8002 219; Dec 0x8009 219; Dec 0x8017 219; Dec 0xc028 219;
    Dec 0x8002 238; Dec 0x8009 238; Dec 0x8017 238; Dec 0xc028 238;
    Dec 0x8002 240; Dec 0x8009 240; Dec 0x8017 240; Dec 0xc028 240
  ];
  (* 201 *)
  [
    Dec 0x8003 218; Dec 0x8006 218; Dec 0x800a 218; Dec 0x800f 218;
    Dec 0x8018 218; Dec 0x801f 218; Dec 0x8029 218; Dec 0xc038 218;
    Dec 0x8003 219; Dec 0x8006 219; Dec 0x800a 219; Dec 0x800f 219;
    Dec 0x8018 219; Dec 0x801f 219; Dec 0x8029 219; Dec 0xc038 219
  ];
  (* 202 *)
  [
    Dec 0x8003 238; Dec 0x8006 238; Dec 0x800a 238; Dec 0x800f 238;
    Dec 0x8018 238; Dec 0x801f 238; Dec 0x8029 238; Dec 0xc038 238;
    Dec 0x8003 240; Dec 0x8006 240; Dec 0x800a 240; Dec 0x800f 240;
    Dec 0x8018 240; Dec 0x801f 240; Dec 0x8029 240; Dec 0xc038 240
  ]
].

Definition huff_rows_203 : list (list nghttp2_huff_decode) := [
  (* 203 *)
  [
    Dec 0x8002 242; Dec 0x8009 242; Dec 0x8017 242; Dec 0xc028 242;
    Dec 0x8002 243; Dec 0x8009 243; Dec 0x8017 243; Dec 0xc028 243;
    Dec 0x8002 255; Dec 0x8009 255; Dec 0x8017 255; Dec 0xc028 255;
    Dec 0x8001 203; Dec 0xc016 203; Dec 0x8001 204; Dec 0xc016 204
  ];
  (* 204 *)
  [
    Dec 0x8003 242; Dec 0x8006 242; Dec 0x800a 242; Dec 0x800f 242;
    Dec 0x8018 242; Dec 0x801f 242; Dec 0x8029 242; Dec 0xc038 242;
    Dec 0x8003 243; Dec 0x8006 243; Dec 0x800a 243; Dec 0x800f 243;
    Dec 0x8018 243; Dec 0x801f 243; Dec 0x8029 243; Dec 0xc038 243
  ];
  (* 205 *)
  [
    Dec 0x8003 255; Dec 0x8006 255; Dec 0x800a 255; Dec 0x800f 255;
    Dec 0x8018 255; Dec 0x801f 255; Dec 0x8029 255; Dec 0xc038 255;
    Dec 0x8002 203; Dec 0x8009 203; Dec 0x8017 203; Dec 0xc028 203;
    Dec 0x8002 204; Dec 0x8009 204; Dec 0x8017 204; Dec 0xc028 204
  ];
  (* 206 *)
  [
    Dec 0x8003 203; Dec 0x8006 203; Dec 0x800a 203; Dec 0x800f 203;
    Dec 0x8018 203; Dec 0x801f 203; Dec 0x8029 203; Dec 0xc038 203;
    Dec 0x8003 204; Dec 0x8006 204; Dec 0x800a 204; Dec 0x800f 204;
    Dec 0x8018 204; Dec 0x801f 204; Dec 0x8029 204; Dec 0xc038 204
  ];
  (* 207 *)
  [
    Dec 0xd3 0; Dec 0xd4 0; Dec 0xd6 0; Dec 0xd7 0;
    Dec 0xda 0; Dec 0xdb 0; Dec 0xdd 0; Dec 0xde 0;
    Dec 0xe2 0; Dec 0xe4 0; Dec 0xe8 0; Dec 0xeb 0;
    Dec 0xf0 0; Dec 0xf3 0; Dec 0xf7 0; Dec 0xfa 0
  ];
  (* 208 *)
  [
    Dec 0xc000 211; Dec 0xc000 212; Dec 0xc000 214; Dec 0xc000 221;
    Dec 0xc000 222; Dec 0xc000 223; Dec 0xc000 241; Dec 0xc000 244;
    Dec 0xc000 245; Dec 0xc000 246; Dec 0xc000 247; Dec 0xc000 248;
    Dec 0xc000 250; Dec 0xc000 251; Dec 0xc000 252; Dec 0xc000 253
  ];
  (* 209 *)
  [
    Dec 0x8001 211; Dec 0xc016 211; Dec 0x8001 212; Dec 0xc016 212;
    Dec 0x8001 214; Dec 0xc016 214; Dec 0x8001 221; Dec 0xc016 221;
    Dec 0x8001 222; Dec 0xc016 222; Dec 0x8001 223; Dec 0xc016 223;
    Dec 0x8001 241; Dec 0xc016 241; Dec 0x8001 244; Dec 0xc016 244
  ]
].

Definition huff_rows_210 : list (list nghttp2_huff_decode) := [
  (* 210 *)
  [
    Dec 0x8002 211; Dec 0x8009 211; Dec 0x8017 211; Dec 0xc028 211;
    Dec 0x8002 212; Dec 0x8009 212; Dec 0x8017 212; Dec 0xc028 212;
    Dec 0x8002 214; Dec 0x8009 214; Dec 0x8017 214; Dec 0xc028 214;
    Dec 0x8002 221; Dec 0x8009 221; Dec 0x8017 221; Dec 0xc028 221
  ];
  (* 211 *)
  [
    Dec 0x8003 211; Dec 0x8006 211; Dec 0x800a 211; Dec 0x800f 211;
    Dec 0x8018 211; Dec 0x801f 211; Dec 0x8029 211; Dec 0xc038 211;
    Dec 0x8003 212; Dec 0x8006 212; Dec 0x800a 212; Dec 0x800f 212;
    Dec 0x8018 212; Dec 0x801f 212; Dec 0x8029 212; Dec 0xc038 212
  ];
  (* 212 *)
  [
    Dec 0x8003 214; Dec 0x8006 214; Dec 0x800a 214; Dec 0x800f 214;
    Dec 0x8018 214; Dec 0x801f 214; Dec 0x8029 214; Dec 0xc038 214;
    Dec 0x8003 221; Dec 0x8006 221; Dec 0x800a 221; Dec 0x800f 221;
    Dec 0x8018 221; Dec 0x801f 221; Dec 0x8029 221; Dec 0xc038 221
  ];
  (* 213 *)
  [
    Dec 0x8002 222; Dec 0x8009 222; Dec 0x8017 222; Dec 0xc028 222;
    Dec 0x8002 223; Dec 0x8009 223; Dec 0x8017 223; Dec 0xc028 223;
    Dec 0x8002 241; Dec 0x8009 241; Dec 0x8017 241; Dec 0xc028 241;
    Dec 0x8002 244; Dec 0x8009 244; Dec 0x8017 244; Dec 0xc028 244
  ];
  (* 214 *)
  [
    Dec 0x8003 222; Dec 0x8006 222; Dec 0x800a 222; Dec 0x800f 222;
    Dec 0x8018 222; Dec 0x801f 222; Dec 0x8029 222; Dec 0xc038 222;
    Dec 0x8003 223; Dec 0x8006 223; Dec 0x800a 223; Dec 0x800f 223;
    Dec 0x8018 223; Dec 0x801f 223; Dec 0x8029 223; Dec 0xc038 223
  ];
  (* 215 *)
  [
    Dec 0x8003 241; Dec 0x8006 241; Dec 0x800a 241; Dec 0x800f 241;
    Dec 0x8018 241; Dec 0x801f 241; Dec 0x8029 241; Dec 0xc038 241;
    Dec 0x8003 244; Dec 0x8006 244; Dec 0x800a 244; Dec 0x800f 244;
    Dec 0x8018 244; Dec 0x801f 244; Dec 0x8029 244; Dec 0xc038 244
  ];
  (* 216 *)
  [
    Dec 0x8001 245; Dec 0xc016 245; Dec 0x8001 246; Dec 0xc016 246;
    Dec 0x8001 247; Dec 0xc016 247; Dec 0x8001 248; Dec 0xc016 248;
    Dec 0x8001 250; Dec 0xc016 250; Dec 0x8001 251; Dec 0xc016 251;
    Dec 0x8001 252; Dec 0xc016 252; Dec 0x8001 253; Dec 0xc016 253
  ]
].

Definition huff_rows_217 : list (list nghttp2_huff_decode) := [
  (* 217 *)
  [
    Dec 0x8002 245; Dec 0x8009 245; Dec 0x8017 245; Dec 0xc028 245;
    Dec 0x8002 246; Dec 0x8009 246; Dec 0x8017 246; Dec 0xc028 246;
    Dec 0x8002 247; Dec 0x8009 247; Dec 0x8017 247; Dec 0xc028 247;
    Dec 0x8002 248; Dec 0x8009 248; Dec 0x8017 248; Dec 0xc028 248
  ];
  (* 218 *)
  [
    Dec 0x8003 245; Dec 0x8006 245; Dec 0x800a 245; Dec 0x800f 245;
    Dec 0x8018 245; Dec 0x801f 245; Dec 0x8029 245; Dec 0xc038 245;
    Dec 0x8003 246; Dec 0x8006 246; Dec 0x800a 246; Dec 0x800f 246;
    Dec 0x8018 246; Dec 0x801f 246; Dec 0x8029 246; Dec 0xc038 246
  ];
  (* 219 *)
  [
    Dec 0x8003 247; Dec 0x8006 247; Dec 0x800a 247; Dec 0x800f 247;
    Dec 0x8018 247; Dec 0x801f 247; Dec 0x8029 247; Dec 0xc038 247;
    Dec 0x8003 248; Dec 0x8006 248; Dec 0x800a 248; Dec 0x800f 248;
    Dec 0x8018 248; Dec 0x801f 248; Dec 0x8029 248; Dec 0xc038 248
  ];
  (* 220 *)
  [
    Dec 0x8002 250; Dec 0x8009 250; Dec 0x8017 250; Dec 0xc028 250;
    Dec 0x8002 251; Dec 0x8009 251; Dec 0x8017 251; Dec 0xc028 251;
    Dec 0x8002 252; Dec 0x8009 252; Dec 0x8017 252; Dec 0xc028 252;
    Dec 0x8002 253; Dec 0x8009 253; Dec 0x8017 253; Dec 0xc028 253
  ];
  (* 221 *)
  [
    Dec 0x8003 250; Dec 0x8006 250; Dec 0x800a 250; Dec 0x800f 250;
    Dec 0x8018 250; Dec 0x801f 250; Dec 0x8029 250; Dec 0xc038 250;
    Dec 0x8003 251; Dec 0x8006 251; Dec 0x800a 251; Dec 0x800f 251;
    Dec 0x8018 251; Dec 0x801f 251; Dec 0x8029 251; Dec 0xc038 251
  ];
  (* 222 *)
  [
    Dec 0x8003 252; Dec 0x8006 252; Dec 0x800a 252; Dec 0x800f 252;
    Dec 0x8018 252; Dec 0x801f 252; Dec 0x8029 252; Dec 0xc038 252;
    Dec 0x8003 253; Dec 0x8006 253; Dec 0x800a 253; Dec 0x800f 253;
    Dec 0x8018 253; Dec 0x801f 253; Dec 0x8029 253; Dec 0xc038 253
  ];
  (* 223 *)
  [
    Dec 0xc000 254; Dec 0xe3 0; Dec 0xe5 0; Dec 0xe6 0;
    Dec 0xe9 0; Dec 0xea 0; Dec 0xec 0; Dec 0xed 0;
    Dec 0xf1 0; Dec 0xf2 0; Dec 0xf4 0; Dec 0xf5 0;
    Dec 0xf8 0; Dec 0xf9 0; Dec 0xfb 0; Dec 0xfc 0
  ]
].

Definition huff_rows_224 : list (list nghttp2_huff_decode) := [
  (* 224 *)
  [
    Dec 0x8001 254; Dec 0xc016 254; Dec 0xc000 2; Dec 0xc000 3;
    Dec 0xc000 4; Dec 0xc000 5; Dec 0xc000 6; Dec 0xc000 7;
    Dec 0xc000 8; Dec 0xc000 11; Dec 0xc000 12; Dec 0xc000 14;
    Dec 0xc000 15; Dec 0xc000 16; Dec 0xc000 17; Dec 0xc000 18
  ];
  (* 225 *)
  [
    Dec 0x8002 254; Dec 0x8009 254; Dec 0x8017 254; Dec 0xc028 254;
    Dec 0x8001 2; Dec 0xc016 2; Dec 0x8001 3; Dec 0xc016 3;
    Dec 0x8001 4; Dec 0xc016 4; Dec 0x8001 5; Dec 0xc016 5;
    Dec 0x8001 6; Dec 0xc016 6; Dec 0x8001 7; Dec 0xc016 7
  ];
  (* 226 *)
  [
    Dec 0x8003 254; Dec 0x8006 254; Dec 0x800a 254; Dec 0x800f 254;
    Dec 0x8018 254; Dec 0x801f 254; Dec 0x8029 254; Dec 0xc038 254;
    Dec 0x8002 2; Dec 0x8009 2; Dec 0x8017 2; Dec 0xc028 2;
    Dec 0x8002 3; Dec 0x8009 3; Dec 0x8017 3; Dec 0xc028 3
  ];
  (* 227 *)
  [
    Dec 0x8003 2; Dec 0x8006 2; Dec 0x800a 2; Dec 0x800f 2;
    Dec 0x8018 2; Dec 0x801f 2; Dec 0x8029 2; Dec 0xc038 2;
    Dec 0x8003 3; Dec 0x8006 3; Dec 0x800a 3; Dec 0x800f 3;
    Dec 0x8018 3; Dec 0x801f 3; Dec 0x8029 3; Dec 0xc038 3
  ];
  (* 228 *)
  [
    Dec 0x8002 4; Dec 0x8009 4; Dec 0x8017 4; Dec 0xc028 4;
    Dec 0x8002 5; Dec 0x8009 5; Dec 0x8017 5; Dec 0xc028 5;
    Dec 0x8002 6; Dec 0x8009 6; Dec 0x8017 6; Dec 0xc028 6;
    Dec 0x8002 7; Dec 0x8009 7; Dec 0x8017 7; Dec 0xc028 7
  ];
  (* 229 *)
  [
    Dec 0x8003 4; Dec 0x8006 4; Dec 0x800a 4; Dec 0x800f 4;
    Dec 0x8018 4; Dec 0x801f 4; Dec 0x8029 4; Dec 0xc038 4;
    Dec 0x8003 5; Dec 0x8006 5; Dec 0x800a 5; Dec 0x800f 5;
    Dec 0x8018 5; Dec 0x801f 5; Dec 0x8029 5; Dec 0xc038 5
  ];
  (* 230 *)
  [
    Dec 0x8003 6; Dec 0x8006 6; Dec 0x800a 6; Dec 0x800f 6;
    Dec 0x8018 6; Dec 0x801f 6; Dec 0x8029 6; Dec 0xc038 6;
    Dec 0x8003 7; Dec 0x8006 7; Dec 0x800a 7; Dec 0x800f 7;
    Dec 0x8018 7; Dec 0x801f 7; Dec 0x8029 7; Dec 0xc038 7
  ]
].

Definition huff_rows_231 : list (list nghttp2_huff_decode) := [
  (* 231 *)
  [
    Dec 0x8001 8; Dec 0xc016 8; Dec 0x8001 11; Dec 0xc016 11;
    Dec 0x8001 12; Dec 0xc016 12; Dec 0x8001 14; Dec 0xc016 14;
    Dec 0x8001 15; Dec 0xc016 15; Dec 0x8001 16; Dec 0xc016 16;
    Dec 0x8001 17; Dec 0xc016 17; Dec 0x8001 18; Dec 0xc016 18
  ];
  (* 232 *)
  [
    Dec 0x8002 8; Dec 0x8009 8; Dec 0x8017 8; Dec 0xc028 8;
    Dec 0x8002 11; Dec 0x8009 11; Dec 0x8017 11; Dec 0xc028 11;
    Dec 0x8002 12; Dec 0x8009 12; Dec 0x8017 12; Dec 0xc028 12;
    Dec 0x8002 14; Dec 0x8009 14; Dec 0x8017 14; Dec 0xc028 14
  ];
  (* 233 *)
  [
    Dec 0x8003 8; Dec 0x8006 8; Dec 0x800a 8; Dec 0x800f 8;
    Dec 0x8018 8; Dec 0x801f 8; Dec 0x8029 8; Dec 0xc038 8;
    Dec 0x8003 11; Dec 0x8006 11; Dec 0x800a 11; Dec 0x800f 11;
    Dec 0x8018 11; Dec 0x801f 11; Dec 0x8029 11; Dec 0xc038 11
  ];
  (* 234 *)
  [
    Dec 0x8003 12; Dec 0x8006 12; Dec 0x800a 12; Dec 0x800f 12;
    Dec 0x8018 12; Dec 0x801f 12; Dec 0x8029 12; Dec 0xc038 12;
    Dec 0x8003 14; Dec 0x8006 14; Dec 0x800a 14; Dec 0x800f 14;
    Dec 0x8018 14; Dec 0x801f 14; Dec 0x8029 14; Dec 0xc038 14
  ];
  (* 235 *)
  [
    Dec 0x8002 15; Dec 0x8009 15; Dec 0x8017 15; Dec 0xc028 15;
    Dec 0x8002 16; Dec 0x8009 16; Dec 0x8017 16; Dec 0xc028 16;
    Dec 0x8002 17; Dec 0x8009 17; Dec 0x8017 17; Dec 0xc028 17;
    Dec 0x8002 18; Dec 0x8009 18; Dec 0x8017 18; Dec 0xc028 18
  ];
  (* 236 *)
  [
    Dec 0x8003 15; Dec 0x8006 15; Dec 0x800a 15; Dec 0x800f 15;
    Dec 0x8018 15; Dec 0x801f 15; Dec 0x8029 15; Dec 0xc038 15;
    Dec 0x8003 16; Dec 0x8006 16; Dec 0x800a 16; Dec 0x800f 16;
    Dec 0x8018 16; Dec 0x801f 16; Dec 0x8029 16; Dec 0xc038 16
  ];
  (* 237 *)
  [
    Dec 0x8003 17; Dec 0x8006 17; Dec 0x800a 17; Dec 0x800f 17;
    Dec 0x8018 17; Dec 0x801f 17; Dec 0x8029 17; Dec 0xc038 17;
    Dec 0x8003 18; Dec 0x8006 18; Dec 0x800a 18; Dec 0x800f 18;
    Dec 0x8018 18; Dec 0x801f 18; Dec 0x8029 18; Dec 0xc038 18
  ]
].

Definition huff_rows_238 : list (list nghttp2_huff_decode) := [
  (* 238 *)
  [
    Dec 0xc000 19; Dec 0xc000 20; Dec 0xc000 21; Dec 0xc000 23;
    Dec 0xc000 24; Dec 0xc000 25; Dec 0xc000 26; Dec 0xc000 27;
    Dec 0xc000 28; Dec 0xc000 29; Dec 0xc000 30; Dec 0xc000 31;
    Dec 0xc000 127; Dec 0xc000 220; Dec 0xc000 249; Dec 0xfd 0
  ];
  (* 239 *)
  [
    Dec 0x8001 19; Dec 0xc016 19; Dec 0x8001 20; Dec 0xc016 20;
    Dec 0x8001 21; Dec 0xc016 21; Dec 0x8001 23; Dec 0xc016 23;
    Dec 0x8001 24; Dec 0xc016 24; Dec 0x8001 25; Dec 0xc016 25;
    Dec 0x8001 26; Dec 0xc016 26; Dec 0x8001 27; Dec 0xc016 27
  ];
  (* 240 *)
  [
    Dec 0x8002 19; Dec 0x8009 19; Dec 0x8017 19; Dec 0xc028 19;
    Dec 0x8002 20; Dec 0x8009 20; Dec 0x8017 20; Dec 0xc028 20;
    Dec 0x8002 21; Dec 0x8009 21; Dec 0x8017 21; Dec 0xc028 21;
    Dec 0x8002 23; Dec 0x8009 23; Dec 0x8017 23; Dec 0xc028 23
  ];
  (* 241 *)
  [
    Dec 0x8003 19; Dec 0x8006 19; Dec 0x800a 19; Dec 0x800f 19;
    Dec 0x8018 19; Dec 0x801f 19; Dec 0x8029 19; Dec 0xc038 19;
    Dec 0x8003 20; Dec 0x8006 20; Dec 0x800a 20; Dec 0x800f 20;
    Dec 0x8018 20; Dec 0x801f 20; Dec 0x8029 20; Dec 0xc038 20
  ];
  (* 242 *)
  [
    Dec 0x8003 21; Dec 0x8006 21; Dec 0x800a 21; Dec 0x800f 21;
    Dec 0x8018 21; Dec 0x801f 21; Dec 0x8029 21; Dec 0xc038 21;
    Dec 0x8003 23; Dec 0x8006 23; Dec 0x800a 23; Dec 0x800f 23;
    Dec 0x8018 23; Dec 0x801f 23; Dec 0x8029 23; Dec 0xc038 23
  ];
  (* 243 *)
  [
    Dec 0x8002 24; Dec 0x8009 24; Dec 0x8017 24; Dec 0xc028 24;
    Dec 0x8002 25; Dec 0x8009 25; Dec 0x8017 25; Dec 0xc028 25;
    Dec 0x8002 26; Dec 0x8009 26; Dec 0x8017 26; Dec 0xc028 26;
    Dec 0x8002 27; Dec 0x8009 27; Dec 0x8017 27; Dec 0xc028 27
  ];
  (* 244 *)
  [
    Dec 0x8003 24; Dec 0x8006 24; Dec 0x800a 24; Dec 0x800f 24;
    Dec 0x8018 24; Dec 0x801f 24; Dec 0x8029 24; Dec 0xc038 24;
    Dec 0x8003 25; Dec 0x8006 25; Dec 0x800a 25; Dec 0x800f 25;
    Dec 0x8018 25; Dec 0x801f 25; Dec 0x8029 25; Dec 0xc038 25
  ]
].

Definition huff_rows_245 : list (list nghttp2_huff_decode) := [
  (* 245 *)
  [
    Dec 0x8003 26; Dec 0x8006 26; Dec 0x800a 26; Dec 0x800f 26;
    Dec 0x8018 26; Dec 0x801f 26; Dec 0x8029 26; Dec 0xc038 26;
    Dec 0x8003 27; Dec 0x8006 27; Dec 0x800a 27; Dec 0x800f 27;
    Dec 0x8018 27; Dec 0x801f 27; Dec 0x8029 27; Dec 0xc038 27
  ];
  (* 246 *)
  [
    Dec 0x8001 28; Dec 0xc016 28; Dec 0x8001 29; Dec 0xc016 29;
    Dec 0x8001 30; Dec 0xc016 30; Dec 0x8001 31; Dec 0xc016 31;
    Dec 0x8001 127; Dec 0xc016 127; Dec 0x8001 220; Dec 0xc016 220;
    Dec 0x8001 249; Dec 0xc016 249; Dec 0xfe 0; Dec 0xff 0
  ];
  (* 247 *)
  [
    Dec 0x8002 28; Dec 0x8009 28; Dec 0x8017 28; Dec 0xc028 28;
    Dec 0x8002 29; Dec 0x8009 29; Dec 0x8017 29; Dec 0xc028 29;
    Dec 0x8002 30; Dec 0x8009 30; Dec 0x8017 30; Dec 0xc028 30;
    Dec 0x8002 31; Dec 0x8009 31; Dec 0x8017 31; Dec 0xc028 31
  ];
  (* 248 *)
  [
    Dec 0x8003 28; Dec 0x8006 28; Dec 0x800a 28; Dec 0x800f 28;
    Dec 0x8018 28; Dec 0x801f 28; Dec 0x8029 28; Dec 0xc038 28;
    Dec 0x8003 29; Dec 0x8006 29; Dec 0x800a 29; Dec 0x800f 29;
    Dec 0x8018 29; Dec 0x801f 29; Dec 0x8029 29; Dec 0xc038 29
  ];
  (* 249 *)
  [
    Dec 0x8003 30; Dec 0x8006 30; Dec 0x800a 30; Dec 0x800f 30;
    Dec 0x8018 30; Dec 0x801f 30; Dec 0x8029 30; Dec 0xc038 30;
    Dec 0x8003 31; Dec 0x8006 31; Dec 0x800a 31; Dec 0x800f 31;
    Dec 0x8018 31; Dec 0x801f 31; Dec 0x8029 31; Dec 0xc038 31
  ];
  (* 250 *)
  [
    Dec 0x8002 127; Dec 0x8009 127; Dec 0x8017 127; Dec 0xc028 127;
    Dec 0x8002 220; Dec 0x8009 220; Dec 0x8017 220; Dec 0xc028 220;
    Dec 0x8002 249; Dec 0x8009 249; Dec 0x8017 249; Dec 0xc028 249;
    Dec 0xc000 10; Dec 0xc000 13; Dec 0xc000 22; Dec 0x100 0
  ];
  (* 251 *)
  [
    Dec 0x8003 127; Dec 0x8006 127; Dec 0x800a 127; Dec 0x800f 127;
    Dec 0x8018 127; Dec 0x801f 127; Dec 0x8029 127; Dec 0xc038 127;
    Dec 0x8003 220; Dec 0x8006 220; Dec 0x800a 220; Dec 0x800f 220;
    Dec 0x8018 220; Dec 0x801f 220; Dec 0x8029 220; Dec 0xc038 220
  ]
].

Definition huff_rows_252 : list (list nghttp2_huff_decode) := [
  (* 252 *)
  [
    Dec 0x8003 249; Dec 0x8006 249; Dec 0x800a 249; Dec 0x800f 249;
    Dec 0x8018 249; Dec 0x801f 249; Dec 0x8029 249; Dec 0xc038 249;
    Dec 0x8001 10; Dec 0xc016 10; Dec 0x8001 13; Dec 0xc016 13;
    Dec 0x8001 22; Dec 0xc016 22; Dec 0x100 0; Dec 0x100 0
  ];
  (* 253 *)
  [
    Dec 0x8002 10; Dec 0x8009 10; Dec 0x8017 10; Dec 0xc028 10;
    Dec 0x8002 13; Dec 0x8009 13; Dec 0x8017 13; Dec 0xc028 13;
    Dec 0x8002 22; Dec 0x8009 22; Dec 0x8017 22; Dec 0xc028 22;
    Dec 0x100 0; Dec 0x100 0; Dec 0x100 0; Dec 0x100 0
  ];
  (* 254 *)
  [
    Dec 0x8003 10; Dec 0x8006 10; Dec 0x800a 10; Dec 0x800f 10;
    Dec 0x8018 10; Dec 0x801f 10; Dec 0x8029 10; Dec 0xc038 10;
    Dec 0x8003 13; Dec 0x8006 13; Dec 0x800a 13; Dec 0x800f 13;
    Dec 0x8018 13; Dec 0x801f 13; Dec 0x8029 13; Dec 0xc038 13
  ];
  (* 255 *)
  [
    Dec 0x8003 22; Dec 0x8006 22; Dec 0x800a 22; Dec 0x800f 22;
    Dec 0x8018 22; Dec 0x801f 22; Dec 0x8029 22; Dec 0xc038 22;
    Dec 0x100 0; Dec 0x100 0; Dec 0x100 0; Dec 0x100 0;
    Dec 0x100 0; Dec 0x100 0; Dec 0x100 0; Dec 0x100 0
  ];
  (* 256 *)
  [
    Dec 0x100 0; Dec 0x100 0; Dec 0x100 0; Dec 0x100 0;
    Dec 0x100 0; Dec 0x100 0; Dec 0x100 0; Dec 0x100 0;
    Dec 0x100 0; Dec 0x100 0; Dec 0x100 0; Dec 0x100 0;
    Dec 0x100 0; Dec 0x100 0; Dec 0x100 0; Dec 0x100 0
  ]
].

Definition huff_decode_table : list (list nghttp2_huff_decode) :=
  huff_rows_0 ++ huff_rows_7 ++ huff_rows_14 ++ huff_rows_21 ++ huff_rows_28 ++
  huff_rows_35 ++ huff_rows_42 ++ huff_rows_49 ++ huff_rows_56 ++ huff_rows_63 ++
  huff_rows_70 ++ huff_rows_77 ++ huff_rows_84 ++ huff_rows_91 ++ huff_rows_98 ++
  huff_rows_105 ++ huff_rows_112 ++ huff_rows_119 ++ huff_rows_126 ++ huff_rows_133 ++
  huff_rows_140 ++ huff_rows_147 ++ huff_rows_154 ++ huff_rows_161 ++ huff_rows_168 ++
  huff_rows_175 ++ huff_rows_182 ++ huff_rows_189 ++ huff_rows_196 ++ huff_rows_203 ++
  huff_rows_210 ++ huff_rows_217 ++ huff_rows_224 ++ huff_rows_231 ++ huff_rows_238 ++
  huff_rows_245 ++ huff_rows_252.
