(* ===== verification/Huffman.v ===== *)
(** * HPACK Huffman coding: [nghttp2_hd_huffman.c]

    The encoder, which gathers the bits of the codes in a 64-bit accumulator and
    writes it out four bytes at a time when the chunk has room for them and byte
    by byte when it has not; and the decoder, which runs the automaton of
    [huff_decode_table] over the nibbles of its input and can stop and go on
    anywhere.

    The encoder writes to whatever implements [ByteSink]; the instance at the end
    of the definitions is [nghttp2_bufs].  The decoder writes into an
    [nghttp2_buf] without looking at its end: writing past it makes the result
    [None]. *)

From stdpp Require Import list.
From S2P Require Import Prelude CLib NgBuf HuffTable.

(** ** Bytes *)

Definition u64 (x : Z) : Z := x mod 2 ^ 64.

(** [htonl] and [memcpy] of four bytes: the most significant byte first. *)
Definition be32 (x : Z) : list char :=
  [uint8 (Z.shiftr x 24); uint8 (Z.shiftr x 16); uint8 (Z.shiftr x 8); uint8 x].

(** ** The sink *)

(** What the encoder asks of its output: how many bytes it may write directly,
    writing them, and appending a byte. *)
Class ByteSink (B : Type) := {
  sink_avail : B -> option nat;
  sink_write : list char -> B -> option B;
  sink_addb : char -> B -> option (Z * B)
}.

(** What it relies on. *)
Class SinkLaws (B : Type) `{ByteSink B} := {
  sink_ok : B -> Prop;
  sink_contents : B -> list char;
  sink_avail_law b : sink_ok b -> exists n, sink_avail b = Some n;
  sink_write_law b n p : sink_ok b -> sink_avail b = Some n -> (length p <= n)%nat ->
    exists b', sink_write p b = Some b' /\ sink_ok b' /\ sink_contents b' = sink_contents b ++ p /\
      sink_avail b' = Some (n - length p)%nat;
  sink_addb_law b c : sink_ok b ->
    exists rv b', sink_addb c b = Some (rv, b') /\ sink_ok b' /\
      sink_contents b' = sink_contents b ++ (if rv =? 0 then [c] else [])
}.

(** ** Encoding *)

(** [huff_sym_table[c]] *)
Definition huff_sym (c : char) : option nghttp2_huff_sym := huff_sym_table !! Z.to_nat (bval c).

(** [size_t] has 32 bits. *)
Definition nghttp2_hd_huff_encode_count (src : list char) : option Z :=
  nb ← foldl (fun nb c => nb ← nb; s ← huff_sym c; Some (u32 (nb + nbits s))) (Some 0) src;
  Some (u32 (nb + 7) / 8).

Section Encode.
Context {B : Type} `{ByteSink B}.

(** [for (; nbits >= 8;) ...]: the result, [code], [nbits] and the sink. *)
Fixpoint drain (fuel : nat) (code nbits : Z) (b : B) : option (Z * Z * Z * B) :=
  match fuel with
  | O => None
  | S fuel =>
      if 8 <=? nbits then
        '(rv, b) ← sink_addb (uint8 (Z.shiftr code 56)) b;
        if negb (rv =? 0) then Some (rv, code, nbits, b)
        else drain fuel (u64 (Z.shiftl code 8)) (nbits - 8) b
      else Some (0, code, nbits, b)
  end.

(** The accumulator has 64 bits. *)
Definition drain_fuel : nat := 9.

(** What follows the loop over [src]. *)
Definition encode_finish (code nbits : Z) (b : B) : option (Z * B) :=
  '(rv, code, nbits, b) ← drain drain_fuel code nbits b;
  if negb (rv =? 0) then Some (rv, b) else
  if negb (nbits =? 0) then
    '(rv, b) ← sink_addb (uint8 (Z.lor (u8 (Z.shiftr code 56)) (Z.shiftl 1 (8 - nbits) - 1))) b;
    if negb (rv =? 0) then Some (rv, b) else Some (0, b)
  else Some (0, b).

Fixpoint encode_loop (src : list char) (code nb : Z) (avail : nat) (b : B) : option (Z * B) :=
  match src with
  | [] => encode_finish code nb b
  | c :: src =>
      s ← huff_sym c;
      let code := Z.lor code (u64 (Z.shiftl (HuffTable.code s) (32 - nb))) in
      let nb := nb + nbits s in
      if nb <? 32 then encode_loop src code nb avail b else
      if (4 <=? avail)%nat then
        b ← sink_write (be32 (u32 (Z.shiftr code 32))) b;
        encode_loop src (u64 (Z.shiftl code 32)) (nb - 32) (avail - 4) b
      else
        '(rv, code, nb, b) ← drain drain_fuel code nb b;
        if negb (rv =? 0) then Some (rv, b) else
        avail ← sink_avail b;
        encode_loop src code nb avail b
  end.

Definition nghttp2_hd_huff_encode (b : B) (src : list char) : option (Z * B) :=
  avail ← sink_avail b;
  encode_loop src 0 0 avail b.

End Encode.

(** *** The instance: a chain of buffers and its allocator *)

Section Instance.
Context (malloc_ok : nat -> bool) (junk : nat -> nat -> char).

Definition bufs_sink : ByteSink (nghttp2_bufs * nghttp2_mem) := {|
  sink_avail bm := nghttp2_bufs_cur_avail (fst bm);
  sink_write p bm := b ← on_cur (fun buf => cpymem buf p) (fst bm); Some (b, snd bm);
  sink_addb c bm := '(rv, b, m) ← nghttp2_bufs_addb malloc_ok junk c (fst bm) (snd bm); Some (rv, (b, m))
|}.
End Instance.

(** ** Decoding *)

Record nghttp2_hd_huff_decode_context := Ctx { ctx_fstate : Z }.

Definition nghttp2_hd_huff_decode_context_init : nghttp2_hd_huff_decode_context := Ctx NGHTTP2_HUFF_ACCEPTED.

(** [huff_decode_table[fstate & 0x1ff][x]] *)
Definition huff_entry (fstate x : Z) : option nghttp2_huff_decode :=
  row ← huff_decode_table !! Z.to_nat (Z.land fstate 511);
  row !! Z.to_nat x.

(** A flag of [fstate] *)
Definition has_flag (fstate flag : Z) : bool := negb (Z.land fstate flag =? 0).

(** One nibble: the new [t->fstate], and the symbol written if there is one. *)
Definition decode_nibble (fs x : Z) (buf : nghttp2_buf) : option (Z * nghttp2_buf) :=
  t ← huff_entry fs x;
  if has_flag (fstate t) NGHTTP2_HUFF_SYM
  then buf ← put buf (uint8 (sym t)); Some (fstate t, buf)
  else Some (fstate t, buf).

Fixpoint decode_bytes (fs : Z) (buf : nghttp2_buf) (src : list char) : option (Z * nghttp2_buf) :=
  match src with
  | [] => Some (fs, buf)
  | c :: src =>
      '(fs, buf) ← decode_nibble fs (Z.shiftr (bval c) 4) buf;
      '(fs, buf) ← decode_nibble fs (Z.land (bval c) 15) buf;
      decode_bytes fs buf src
  end.

Definition nghttp2_hd_huff_decode (ctx : nghttp2_hd_huff_decode_context) (buf : nghttp2_buf)
    (src : list char) (final : bool) : option (Z * nghttp2_hd_huff_decode_context * nghttp2_buf) :=
  '(fs, buf) ← decode_bytes (ctx_fstate ctx) buf src;
  if final && negb (has_flag fs NGHTTP2_HUFF_ACCEPTED)
  then Some (NGHTTP2_ERR_HEADER_COMP, Ctx fs, buf)
  else Some (Z.of_nat (length src), Ctx fs, buf).

Definition nghttp2_hd_huff_decode_failure_state (ctx : nghttp2_hd_huff_decode_context) : bool :=
  ctx_fstate ctx =? 256.
