(* ===== verification/HuffSpec.v ===== *)
(** * HPACK Huffman coding: the code, and what encoder and decoder promise

    The code of the table is a prefix code, the states of the automaton are its
    proper prefixes, and every transition of the table is what the code
    prescribes: these are finite facts, checked by computation.  From them: the
    encoder writes the codes of its input and pads them with ones, and the decoder
    accepts exactly such bits and gives back the input. *)

From stdpp Require Import list.
From S2P Require Import Prelude CLib NgBuf HuffTable Huffman.

(** ** Bits *)

Abbreviation bits := (list bool).

(** The number a list of bits stands for, most significant first. *)
Definition bv (l : bits) : Z := fold_left (fun a (b : bool) => 2 * a + Z.b2z b) l 0.

(** The bits of a byte and of bytes. *)
Definition octet_bits (c : char) : bits :=
  match c with Ascii b0 b1 b2 b3 b4 b5 b6 b7 => [b7; b6; b5; b4; b3; b2; b1; b0] end.
Definition to_bits (l : list char) : bits := concat (map octet_bits l).

(** The lowest [n] bits of a number. *)
Definition low_bits (n : nat) (z : Z) : bits := map (fun i => Z.testbit z (Z.of_nat i)) (rev (seq 0 n)).

Definition ones (n : nat) : bits := replicate n true.

(** ** The code *)

(** The code of every symbol, computed once. *)
Definition entry_bits (s : nghttp2_huff_sym) : bits := take (Z.to_nat (nbits s)) (low_bits 32 (code s)).
Definition code_table : list bits := Eval vm_compute in map entry_bits huff_sym_table.
Definition sym_bits (k : nat) : bits := default [] (code_table !! k).

Lemma code_table_eq : code_table = map entry_bits huff_sym_table.
Proof. vm_compute. reflexivity. Qed.

Definition EOS : nat := 256.

(** The codes of the bytes. *)
Definition char_bits (c : char) : bits := sym_bits (Z.to_nat (bval c)).
Definition huff_bits (src : list char) : bits := concat (map char_bits src).

Fixpoint is_prefix (p l : bits) : bool :=
  match p, l with
  | [], _ => true
  | a :: p, b :: l => Bool.eqb a b && is_prefix p l
  | _, [] => false
  end.

Lemma is_prefix_spec p l : is_prefix p l = true <-> exists r, l = p ++ r.
Proof.
  revert l. induction p as [|a p IH]; intros l; cbn; [split; [by exists l|done]|].
  destruct l as [|b l]; [split; [done|by intros [r ?]]|].
  rewrite andb_true_iff, eqb_true_iff, IH. split.
  - intros [-> [r ->]]. by exists r.
  - intros [r [= -> ->]]. split; [done|by exists r].
Qed.

(** Of two prefixes of the same bits, one is a prefix of the other. *)
Lemma prefix_comparable a b x y : a ++ x = b ++ y -> is_prefix a b = true \/ is_prefix b a = true.
Proof.
  revert b. induction a as [|h a IH]; intros b E; [by left|].
  destruct b as [|k b]; [by right|]. cbn in *. injection E as -> E. rewrite Bool.eqb_reflx. cbn. by apply (IH b).
Qed.

(** ** The states of the automaton *)

(** The bits read since the last symbol, for every state: found by following the
    transitions from the root. *)
Definition nibble_bits (x : nat) : bits := low_bits 4 (Z.of_nat x).

Definition target (e : nghttp2_huff_decode) : nat := Z.to_nat (Z.land (fstate e) 511).
Definition emits (e : nghttp2_huff_decode) : bool := has_flag (fstate e) NGHTTP2_HUFF_SYM.

Definition visit (w : bits) (ps : list (option bits)) (xe : nat * nghttp2_huff_decode) : list (option bits) :=
  let '(x, e) := xe in
  match ps !! target e with
  | Some None =>
      let v := w ++ nibble_bits x in
      <[target e := Some (if emits e then drop (length (sym_bits (Z.to_nat (sym e)))) v else v)]> ps
  | _ => ps
  end.

Definition visit_row (ps : list (option bits)) (srow : nat * list nghttp2_huff_decode) : list (option bits) :=
  let '(s, row) := srow in
  match ps !! s with
  | Some (Some w) => fold_left (visit w) (zip (seq 0 16) row) ps
  | _ => ps
  end.

Fixpoint rounds (n : nat) (ps : list (option bits)) : list (option bits) :=
  match n with O => ps | S n => rounds n (fold_left visit_row (zip (seq 0 256) huff_decode_table) ps) end.

Definition state_table : list (option bits) :=
  Eval vm_compute in rounds 8 (Some [] :: replicate 255 None).

Definition state_bits (s : nat) : bits := default [] (default None (state_table !! s)).

(** ** The finite facts *)

(** The code of a symbol fills the top of its word. *)
Definition sym_ok (k : nat) : bool :=
  match huff_sym_table !! k with
  | Some s => (5 <=? nbits s) && (nbits s <=? 30) &&
              (code s =? bv (sym_bits k) * 2 ^ (32 - nbits s)) && (Z.of_nat (length (sym_bits k)) =? nbits s)
  | None => false
  end.

(** A prefix code, the code of EOS included, and none but EOS a short run of ones. *)
Definition prefix_ok (i : nat) (a : bits) : bool :=
  forallb (fun jb => (i =? fst jb)%nat || negb (is_prefix a (snd jb))) (zip (seq 0 257) code_table).
Definition not_padding (a : bits) : bool := negb (is_prefix a (ones 7)).

(** The states are between the codes. *)
Definition inner_ok (o : option bits) : bool :=
  match o with
  | Some w => forallb (fun a => negb (is_prefix a w)) code_table
  | None => false
  end.

(** Bits that may follow the last symbol. *)
Definition is_padding (l : bits) : bool := forallb id l && (length l <? 8)%nat.

(** What the transition on a nibble does: it goes on to a longer prefix, past a
    symbol that it emits, or past EOS to the state 256, where it stays. *)
Definition entry_ok (s x : nat) (e : nghttp2_huff_decode) : bool :=
  let v := state_bits s ++ nibble_bits x in
  let acc := has_flag (fstate e) NGHTTP2_HUFF_ACCEPTED in
  if (s =? 256)%nat || (target e =? 256)%nat then
    (fstate e =? 256) && negb acc && negb (emits e) && ((s =? 256)%nat || is_prefix (ones 30) v)
  else
    (target e <? 256)%nat && (0 <=? sym e) && (sym e <? 256) && Bool.eqb acc (is_padding (state_bits (target e))) &&
    bool_decide (v = (if emits e then sym_bits (Z.to_nat (sym e)) else []) ++ state_bits (target e)).

Definition row_ok (srow : nat * list nghttp2_huff_decode) : bool :=
  let '(s, row) := srow in
  (length row =? 16)%nat && forallb (fun xe => entry_ok s (fst xe) (snd xe)) (zip (seq 0 16) row).

Lemma syms_ok : forallb sym_ok (seq 0 257) = true.
Proof. vm_compute. reflexivity. Qed.

Lemma prefix_code : forallb (fun ia => prefix_ok (fst ia) (snd ia)) (zip (seq 0 257) code_table) = true.
Proof. vm_compute. reflexivity. Qed.

Lemma no_padding : forallb not_padding (take 256 code_table) = true.
Proof. vm_compute. reflexivity. Qed.

Lemma eos_ones : sym_bits EOS = ones 30.
Proof. vm_compute. reflexivity. Qed.

Lemma states_inner : (length state_table =? 256)%nat && forallb inner_ok state_table = true.
Proof. vm_compute. reflexivity. Qed.

Lemma rows_ok : (length huff_decode_table =? 257)%nat && forallb row_ok (zip (seq 0 257) huff_decode_table) = true.
Proof. vm_compute. reflexivity. Qed.

Lemma forallb_zip {A} (f : nat * A -> bool) n l k x :
  forallb f (zip (seq 0 n) l) = true -> l !! k = Some x -> (k < n)%nat -> f (k, x) = true.
Proof.
  intros H Hl Hk. rewrite forallb_forall in H. apply H. apply list_elem_of_In, (list_elem_of_lookup_2 _ k).
  apply lookup_zip_with_Some. exists k, x. split; [done|]. split; [by apply lookup_seq_lt|done].
Qed.

Lemma forallb_lookup {A} (f : A -> bool) l k x : forallb f l = true -> l !! k = Some x -> f x = true.
Proof. intros H Hl. rewrite forallb_forall in H. apply H. by apply list_elem_of_In, (list_elem_of_lookup_2 _ k). Qed.

Lemma code_table_length : length code_table = 257%nat.
Proof. vm_compute. reflexivity. Qed.

Lemma sym_bits_lookup k : (k < 257)%nat -> code_table !! k = Some (sym_bits k).
Proof.
  intros Hk. unfold sym_bits. destruct (lookup_lt_is_Some_2 code_table k) as [x E]; [by rewrite code_table_length|].
  by rewrite E.
Qed.

Lemma sym_info k : (k < 257)%nat -> exists s, huff_sym_table !! k = Some s /\ 5 <= nbits s <= 30 /\
  code s = bv (sym_bits k) * 2 ^ (32 - nbits s) /\ Z.of_nat (length (sym_bits k)) = nbits s.
Proof.
  intros Hk. assert (H : sym_ok k = true).
  { apply (forallb_lookup sym_ok (seq 0 257) k k syms_ok). by apply lookup_seq_lt. }
  unfold sym_ok in H. destruct (huff_sym_table !! k) as [s|]; [|discriminate]. crush_hyps. exists s. done.
Qed.

Lemma sym_prefix_free i j : (i < 257)%nat -> (j < 257)%nat -> is_prefix (sym_bits i) (sym_bits j) = true -> i = j.
Proof.
  intros Hi Hj H. pose proof (forallb_zip _ _ _ i _ prefix_code (sym_bits_lookup i Hi) Hi) as P. cbn [fst snd] in P.
  pose proof (forallb_zip _ _ _ j _ P (sym_bits_lookup j Hj) Hj) as Q. cbn [fst snd] in Q. rewrite H in Q.
  destruct (Nat.eqb_spec i j); done.
Qed.

Lemma sym_not_padding k n : (k < 256)%nat -> (n < 8)%nat -> is_prefix (sym_bits k) (ones n) = true -> False.
Proof.
  intros Hk Hn H. assert (Hl : take 256 code_table !! k = Some (sym_bits k)).
  { rewrite lookup_take_lt by done. apply sym_bits_lookup. lia. }
  pose proof (forallb_lookup _ _ _ _ no_padding Hl) as P. unfold not_padding in P.
  apply is_prefix_spec in H as [r Hr].
  assert (Hp : is_prefix (sym_bits k) (ones 7) = true).
  { apply is_prefix_spec. exists (r ++ ones (7 - n)). rewrite app_assoc, <- Hr. unfold ones.
    rewrite <- replicate_add. f_equal. lia. }
  by rewrite Hp in P.
Qed.

Lemma state_lookup s : (s < 256)%nat -> state_table !! s = Some (Some (state_bits s)).
Proof.
  intros Hs. pose proof states_inner as H. apply andb_prop in H as [Hl H]. apply Nat.eqb_eq in Hl.
  unfold state_bits. destruct (lookup_lt_is_Some_2 state_table s) as [o E]; [by rewrite Hl|].
  pose proof (forallb_lookup _ _ _ _ H E) as P. rewrite E. destruct o; [done|discriminate P].
Qed.

Lemma state_inner s k : (s < 256)%nat -> (k < 257)%nat -> is_prefix (sym_bits k) (state_bits s) = true -> False.
Proof.
  intros Hs Hk H. pose proof states_inner as P. apply andb_prop in P as [_ P].
  pose proof (forallb_lookup _ _ _ _ P (state_lookup s Hs)) as Q. unfold inner_ok in Q.
  pose proof (forallb_lookup _ _ _ _ Q (sym_bits_lookup k Hk)) as R. cbv beta in R. by rewrite H in R.
Qed.

Lemma entry_info s x : (s < 257)%nat -> (x < 16)%nat -> exists row e,
  huff_decode_table !! s = Some row /\ row !! x = Some e /\ entry_ok s x e = true.
Proof.
  intros Hs Hx. pose proof rows_ok as P. apply andb_prop in P as [Hl P]. apply Nat.eqb_eq in Hl.
  destruct (lookup_lt_is_Some_2 huff_decode_table s) as [row E]; [by rewrite Hl|].
  pose proof (forallb_zip _ _ _ s row P E Hs) as Q. unfold row_ok in Q. apply andb_prop in Q as [Hr Q]. apply Nat.eqb_eq in Hr.
  destruct (lookup_lt_is_Some_2 row x) as [e E']; [by rewrite Hr|]. exists row, e. split; [done|]. split; [done|].
  apply (forallb_zip _ _ _ x e Q E' Hx).
Qed.

(** ** Unique decoding *)

Lemma bval_idx c : (Z.to_nat (bval c) < 256)%nat.
Proof. pose proof (bval_range c). lia. Qed.

Lemma uint8_bval c : uint8 (bval c) = c.
Proof. destruct c as [[] [] [] [] [] [] [] []]; vm_compute; reflexivity. Qed.

Lemma bval_uint8 z : 0 <= z < 256 -> bval (uint8 z) = z.
Proof.
  intros Hz. unfold bval, uint8. rewrite u8_small by done. rewrite N_ascii_embedding by lia. lia.
Qed.

Lemma bval_inj c d : Z.to_nat (bval c) = Z.to_nat (bval d) -> c = d.
Proof. intros H. pose proof (bval_range c). pose proof (bval_range d). rewrite <- (uint8_bval c), <- (uint8_bval d). f_equal. lia. Qed.

Lemma huff_bits_cons c l : huff_bits (c :: l) = char_bits c ++ huff_bits l.
Proof. done. Qed.

Lemma huff_bits_app l l' : huff_bits (l ++ l') = huff_bits l ++ huff_bits l'.
Proof. unfold huff_bits. by rewrite map_app, concat_app. Qed.

Lemma char_bits_free c d x y : char_bits c ++ x = char_bits d ++ y -> c = d /\ x = y.
Proof.
  intros E. pose proof (bval_idx c). pose proof (bval_idx d).
  assert (c = d) as <-.
  { apply bval_inj. destruct (prefix_comparable _ _ _ _ E) as [H1|H1]; apply sym_prefix_free in H1; lia. }
  split; [done|]. by apply app_inv_head in E.
Qed.

(** What is left in the middle of a code, followed by nothing, is padding. *)
Lemma unique_decoding o s src p : (s < 256)%nat -> (p < 8)%nat ->
  huff_bits o ++ state_bits s = huff_bits src ++ ones p -> o = src /\ state_bits s = ones p.
Proof.
  intros Hs Hp. revert src. induction o as [|c o IH]; intros [|d src] E; rewrite ?huff_bits_cons in E; cbn [app] in E.
  - done.
  - exfalso. apply (state_inner s (Z.to_nat (bval d)) Hs); [pose proof (bval_idx d); lia|]. apply is_prefix_spec.
    exists (huff_bits src ++ ones p). change (huff_bits []) with (@nil bool) in E. cbn [app] in E. rewrite E. by rewrite app_assoc.
  - exfalso. apply (sym_not_padding (Z.to_nat (bval c)) p (bval_idx c) Hp). apply is_prefix_spec.
    exists (huff_bits o ++ state_bits s). change (huff_bits []) with (@nil bool) in E. cbn [app] in E. rewrite <- E. by rewrite app_assoc.
  - rewrite <- !app_assoc in E. apply char_bits_free in E as [<- E]. by destruct (IH src E) as [<- ?].
Qed.

(** Codes followed by a code of EOS are not codes followed by padding. *)
Lemma eos_not_padding o r src p : (p < 8)%nat -> huff_bits o ++ ones 30 ++ r = huff_bits src ++ ones p -> False.
Proof.
  intros Hp. revert src. induction o as [|c o IH]; intros [|d src] E; rewrite ?huff_bits_cons in E; cbn [app] in E.
  - apply (f_equal length) in E. rewrite length_app in E. cbn [huff_bits concat map app] in E.
    change (length (ones p)) with (length (replicate p true)) in E. rewrite length_replicate in E. cbn in E. lia.
  - change (huff_bits []) with (@nil bool) in E. cbn [app] in E. rewrite <- app_assoc, <- eos_ones in E. unfold char_bits in E. pose proof (bval_idx d).
    destruct (prefix_comparable _ _ _ _ E) as [H1|H1]; apply sym_prefix_free in H1; unfold EOS in *; lia.
  - apply (sym_not_padding (Z.to_nat (bval c)) p (bval_idx c) Hp). apply is_prefix_spec.
    exists (huff_bits o ++ ones 30 ++ r). change (huff_bits []) with (@nil bool) in E. cbn [app] in E. rewrite <- E. by rewrite <- app_assoc.
  - rewrite <- !app_assoc in E. apply char_bits_free in E as [<- E]. exact (IH src E).
Qed.

(** ** The accumulator of the encoder *)

Lemma fold_bv l : forall a, fold_left (fun a (b : bool) => 2 * a + Z.b2z b) l a = a * 2 ^ Z.of_nat (length l) + bv l.
Proof.
  unfold bv. induction l as [|b l IH]; intros a; cbn [fold_left length]; [lia|].
  rewrite (IH (2 * a + Z.b2z b)), (IH (2 * 0 + Z.b2z b)), Nat2Z.inj_succ, Z.pow_succ_r by lia. ring.
Qed.

Lemma bv_app a b : bv (a ++ b) = bv a * 2 ^ Z.of_nat (length b) + bv b.
Proof. unfold bv at 1. by rewrite fold_left_app, fold_bv. Qed.

Lemma bv_cons b l : bv (b :: l) = Z.b2z b * 2 ^ Z.of_nat (length l) + bv l.
Proof. unfold bv at 1. cbn [fold_left]. by rewrite fold_bv. Qed.

Lemma bv_range l : 0 <= bv l < 2 ^ Z.of_nat (length l).
Proof.
  induction l as [|b l IH]; [vm_compute; intuition congruence|]. rewrite bv_cons. cbn [length].
  rewrite Nat2Z.inj_succ, Z.pow_succ_r by lia. destruct b; cbn [Z.b2z]; lia.
Qed.

(** The bits at the top of the 64. *)
Definition acc (l : bits) : Z := bv l * 2 ^ (64 - Z.of_nat (length l)).

Lemma acc_range l : (length l <= 64)%nat -> 0 <= acc l < 2 ^ 64.
Proof.
  intros Hl. pose proof (bv_range l). unfold acc.
  replace (2 ^ 64) with (2 ^ Z.of_nat (length l) * 2 ^ (64 - Z.of_nat (length l))) by (rewrite <- Z.pow_add_r by lia; f_equal; lia).
  pose proof (Z.pow_pos_nonneg 2 (64 - Z.of_nat (length l))). nia.
Qed.


(** Adding a code at the end. *)
Lemma acc_push l sb : (length l <= 32)%nat -> (length sb <= 32)%nat ->
  Z.lor (acc l) (u64 (Z.shiftl (bv sb * 2 ^ (32 - Z.of_nat (length sb))) (32 - Z.of_nat (length l)))) = acc (l ++ sb).
Proof.
  intros Hl Hs. pose proof (bv_range sb) as Hb. unfold acc. rewrite length_app, bv_app.
  set (n := Z.of_nat (length l)) in *. set (k := Z.of_nat (length sb)) in *.
  rewrite Z.shiftl_mul_pow2, <- Z.mul_assoc, <- Z.pow_add_r by lia.
  replace (32 - k + (32 - n)) with (64 - n - k) by lia.
  assert (Hlt : 0 <= bv sb * 2 ^ (64 - n - k) < 2 ^ (64 - n)).
  { replace (2 ^ (64 - n)) with (2 ^ k * 2 ^ (64 - n - k)) by (rewrite <- Z.pow_add_r by lia; f_equal; lia).
    pose proof (Z.pow_pos_nonneg 2 (64 - n - k)). nia. }
  unfold u64. rewrite Z.mod_small.
  2: { assert (2 ^ (64 - n) <= 2 ^ 64) by (apply Z.pow_le_mono_r; lia). lia. }
  rewrite Z.lor_comm, <- (Z.shiftl_mul_pow2 (bv l)) by lia. rewrite lor_add by lia.
  rewrite Nat2Z.inj_add. fold n k. replace (64 - (n + k)) with (64 - n - k) by lia.
  rewrite Z.mul_add_distr_r, <- Z.mul_assoc, <- Z.pow_add_r by lia.
  replace (k + (64 - n - k)) with (64 - n) by lia. ring.
Qed.

(** Taking [a] off the front. *)
Lemma acc_split a r : (length a + length r <= 64)%nat ->
  acc (a ++ r) = bv a * 2 ^ (64 - Z.of_nat (length a)) + bv r * 2 ^ (64 - Z.of_nat (length a) - Z.of_nat (length r)) /\
  0 <= bv r * 2 ^ (64 - Z.of_nat (length a) - Z.of_nat (length r)) < 2 ^ (64 - Z.of_nat (length a)).
Proof.
  intros Hl. pose proof (bv_range r) as Hb. unfold acc. rewrite length_app, bv_app, Nat2Z.inj_add.
  set (n := Z.of_nat (length a)) in *. set (k := Z.of_nat (length r)) in *.
  replace (64 - (n + k)) with (64 - n - k) by lia.
  assert (Hp : 2 ^ (64 - n) = 2 ^ k * 2 ^ (64 - n - k)) by (rewrite <- Z.pow_add_r by lia; f_equal; lia).
  pose proof (Z.pow_pos_nonneg 2 (64 - n - k)). rewrite Hp. split; [ring|nia].
Qed.

Lemma acc_top a r : (length a + length r <= 64)%nat -> Z.shiftr (acc (a ++ r)) (64 - Z.of_nat (length a)) = bv a.
Proof.
  intros Hl. destruct (acc_split a r Hl) as [-> Hr]. rewrite Z.shiftr_div_pow2 by lia.
  rewrite Z.div_add_l by (apply Z.pow_nonzero; lia). rewrite Z.div_small by done. lia.
Qed.

Lemma acc_rest a r : (length a + length r <= 64)%nat -> u64 (Z.shiftl (acc (a ++ r)) (Z.of_nat (length a))) = acc r.
Proof.
  intros Hl. destruct (acc_split a r Hl) as [-> Hr]. rewrite Z.shiftl_mul_pow2, Z.mul_add_distr_r by lia.
  rewrite <- !Z.mul_assoc, <- !Z.pow_add_r by lia. unfold u64.
  replace (64 - Z.of_nat (length a) + Z.of_nat (length a)) with 64 by lia.
  rewrite Z.add_comm, Z.mod_add by lia.
  replace (64 - Z.of_nat (length a) - Z.of_nat (length r) + Z.of_nat (length a)) with (64 - Z.of_nat (length r)) by lia.
  apply Z.mod_small, acc_range. lia.
Qed.

(** Bytes out of the accumulator. *)
Lemma byte_of_bits a : length a = 8%nat -> octet_bits (uint8 (bv a)) = a.
Proof.
  intros Ha. do 8 (destruct a as [|[] a]; [discriminate|..]); (destruct a; [|discriminate]); vm_compute; reflexivity.
Qed.

Lemma split_length (n : nat) (l : bits) : (n <= length l)%nat -> exists a r, l = a ++ r /\ length a = n.
Proof. intros H. exists (take n l), (drop n l). split; [by rewrite take_drop|]. rewrite length_take. lia. Qed.

Lemma uint8_mod z : uint8 (z mod 256) = uint8 z.
Proof. unfold uint8, u8. change (2 ^ 8) with 256. by rewrite Z.mod_mod. Qed.

Lemma uint8_tail a b : length b = 8%nat -> uint8 (bv (a ++ b)) = uint8 (bv b).
Proof.
  intros Hb. rewrite bv_app, Hb. rewrite <- (uint8_mod (_ + _)). rewrite Z.add_comm, Z.mod_add by done. apply uint8_mod.
Qed.

Lemma bv_shiftr a b : Z.shiftr (bv (a ++ b)) (Z.of_nat (length b)) = bv a.
Proof.
  rewrite bv_app, Z.shiftr_div_pow2 by lia. rewrite Z.div_add_l by (apply Z.pow_nonzero; lia).
  rewrite Z.div_small by apply bv_range. lia.
Qed.

Lemma be32_bits a : length a = 32%nat -> to_bits (be32 (bv a)) = a.
Proof.
  intros Ha. destruct (split_length 8 a) as (a1 & r1 & -> & H1); [lia|]. rewrite length_app in Ha.
  destruct (split_length 8 r1) as (a2 & r2 & -> & H2); [lia|]. rewrite length_app in Ha.
  destruct (split_length 8 r2) as (a3 & a4 & -> & H3); [lia|]. rewrite length_app in Ha.
  assert (H4 : length a4 = 8%nat) by lia. unfold be32.
  assert (E1 : Z.shiftr (bv (a1 ++ a2 ++ a3 ++ a4)) 24 = bv a1).
  { rewrite <- (bv_shiftr a1 (a2 ++ a3 ++ a4)). rewrite !length_app, H2, H3, H4. done. }
  assert (E2 : Z.shiftr (bv (a1 ++ a2 ++ a3 ++ a4)) 16 = bv (a1 ++ a2)).
  { rewrite <- (bv_shiftr (a1 ++ a2) (a3 ++ a4)). rewrite <- app_assoc, !length_app, H3, H4. done. }
  assert (E3 : Z.shiftr (bv (a1 ++ a2 ++ a3 ++ a4)) 8 = bv ((a1 ++ a2) ++ a3)).
  { rewrite <- (bv_shiftr ((a1 ++ a2) ++ a3) a4). rewrite <- !app_assoc, H4. done. }
  rewrite E1, E2, E3. replace (a1 ++ a2 ++ a3 ++ a4) with ((a1 ++ a2 ++ a3) ++ a4) by (by rewrite <- !app_assoc).
  rewrite !uint8_tail by done. unfold to_bits. cbn [map concat]. rewrite !byte_of_bits by done.
  rewrite app_nil_r, <- !app_assoc. done.
Qed.

Lemma to_bits_app a b : to_bits (a ++ b) = to_bits a ++ to_bits b.
Proof. unfold to_bits. by rewrite map_app, concat_app. Qed.

(** ** The encoder *)

Section EncodeSpec.
Context {B : Type} `{SinkLaws B}.

(** What has been written, and what is left of the bits. *)
Lemma drain_spec fuel : forall l b, (length l < 8 * fuel)%nat -> (length l <= 64)%nat -> sink_ok b ->
  exists rv code nb b' out r, drain fuel (acc l) (Z.of_nat (length l)) b = Some (rv, code, nb, b') /\
    sink_ok b' /\ sink_contents b' = sink_contents b ++ out /\ l = to_bits out ++ r /\
    (rv = 0 -> code = acc r /\ nb = Z.of_nat (length r) /\ (length r < 8)%nat).
Proof.
  induction fuel as [|fuel IH]; intros l b Hf Hl Hb; [lia|]. cbn [drain].
  destruct (Z.leb_spec 8 (Z.of_nat (length l))) as [H8|H8].
  2: { exists 0, (acc l), (Z.of_nat (length l)), b, [], l. rewrite app_nil_r. split_and!; try done. intros _. split_and!; try done. lia. }
  destruct (split_length 8 l) as (a & r & -> & Ha); [lia|]. rewrite length_app in *.
  pose proof (acc_top a r) as Ht. pose proof (acc_rest a r) as Hr. rewrite Ha in Ht, Hr.
  change (64 - Z.of_nat 8) with 56 in Ht. change (Z.of_nat 8) with 8 in Hr. rewrite Ht by lia.
  destruct (sink_addb_law b (uint8 (bv a)) Hb) as (rv & b1 & E & Hb1 & C1). rewrite E. cbn [mbind option_bind].
  destruct (Z.eqb_spec rv 0) as [->|Hrv]; cbn [negb].
  - rewrite Hr by lia. replace (Z.of_nat (length a + length r) - 8) with (Z.of_nat (length r)) by lia.
    destruct (IH r b1) as (rv & code & nb & b' & out & r' & E' & Hb' & C' & -> & Hrv); [lia|lia|done|].
    exists rv, code, nb, b', (uint8 (bv a) :: out), r'. split; [done|]. split; [done|].
    split; [rewrite C', C1, <- app_assoc; done|]. split; [|done].
    change (uint8 (bv a) :: out) with ([uint8 (bv a)] ++ out). rewrite to_bits_app. unfold to_bits at 2. cbn [map concat].
    rewrite byte_of_bits by done. by rewrite app_nil_r, app_assoc.
  - exists rv, (acc (a ++ r)), (Z.of_nat (length a + length r)), b1, [], (a ++ r).
    rewrite C1, app_nil_r. done.
Qed.

(** The last byte: less than eight bits, filled up with ones. *)
Lemma pad_byte l : (0 < length l < 8)%nat ->
  octet_bits (uint8 (Z.lor (u8 (Z.shiftr (acc l) 56)) (Z.shiftl 1 (8 - Z.of_nat (length l)) - 1))) = l ++ ones (8 - length l).
Proof.
  intros Hl. do 8 (destruct l as [|[] l]; [try (cbn in Hl; lia); vm_compute; reflexivity|..]); cbn in Hl; lia.
Qed.

Definition encodes (l : bits) (out : list char) (rv : Z) : Prop :=
  exists r p, (p < 8)%nat /\ l ++ ones p = to_bits out ++ r /\ (rv = 0 -> r = []).

Lemma encode_finish_spec l b : (length l <= 64)%nat -> sink_ok b ->
  exists rv b' out, encode_finish (acc l) (Z.of_nat (length l)) b = Some (rv, b') /\ sink_ok b' /\
    sink_contents b' = sink_contents b ++ out /\ encodes l out rv.
Proof.
  intros Hl Hb. unfold encode_finish.
  destruct (drain_spec drain_fuel l b) as (rv & code & nb & b1 & out & r & E & Hb1 & C1 & Hr & Hrv); [unfold drain_fuel; lia|done|done|].
  rewrite E. cbn [mbind option_bind]. destruct (Z.eqb_spec rv 0) as [->|Hne]; cbn [negb].
  2: { exists rv, b1, out. split_and!; try done. exists r, 0%nat. split; [lia|]. split; [by rewrite app_nil_r|done]. }
  destruct (Hrv eq_refl) as (-> & -> & Hr8). destruct (Z.eqb_spec (Z.of_nat (length r)) 0) as [Hz|Hz]; cbn [negb].
  { exists 0, b1, out. split_and!; try done. exists [], 0%nat. split; [lia|]. split; [|done].
    destruct r; [|cbn in Hz; lia]. by rewrite app_nil_r. }
  pose proof (pad_byte r) as Hp. set (c := uint8 (Z.lor _ _)) in *.
  destruct (sink_addb_law b1 c Hb1) as (rv & b2 & E2 & Hb2 & C2). rewrite E2. cbn [mbind option_bind].
  assert (Hc : forall o, o = (if rv =? 0 then [c] else []) -> encodes l (out ++ o) rv).
  { intros o ->. exists (if rv =? 0 then [] else r ++ ones (8 - length r)), (8 - length r)%nat. split; [lia|].
    rewrite Hr, <- app_assoc. split.
    - rewrite to_bits_app, <- app_assoc. f_equal. destruct (rv =? 0); [|done].
      rewrite app_nil_r. unfold to_bits. cbn [map concat]. rewrite app_nil_r. symmetry. apply Hp. lia.
    - intros ->. done. }
  exists rv, b2, (out ++ (if rv =? 0 then [c] else [])). split.
  { destruct (Z.eqb_spec rv 0) as [->|]; done. }
  split; [done|]. split; [by rewrite C2, C1, app_assoc|]. by apply Hc.
Qed.

Lemma encodes_app l a out rv : encodes l out rv -> encodes (to_bits a ++ l) (a ++ out) rv.
Proof.
  intros (r & p & Hp & E & Hr). exists r, p. split; [done|]. split; [|done].
  by rewrite to_bits_app, <- !app_assoc, E.
Qed.

Lemma encode_loop_spec src : forall l avail b, (length l < 32)%nat -> sink_ok b -> sink_avail b = Some avail ->
  exists rv b' out, encode_loop src (acc l) (Z.of_nat (length l)) avail b = Some (rv, b') /\ sink_ok b' /\
    sink_contents b' = sink_contents b ++ out /\ encodes (l ++ huff_bits src) out rv.
Proof.
  induction src as [|c src IH]; intros l avail b Hl Hb Hav; cbn [encode_loop].
  { change (huff_bits []) with (@nil bool). rewrite app_nil_r. apply encode_finish_spec; [lia|done]. }
  rewrite huff_bits_cons, app_assoc.
  pose proof (bval_idx c) as Hc. destruct (sym_info (Z.to_nat (bval c))) as (s & Es & Hn & Hcode & Hlen); [lia|].
  unfold huff_sym. rewrite Es. cbn [mbind option_bind]. fold (char_bits c) in Hcode, Hlen. rewrite Hcode, <- Hlen.
  rewrite acc_push by lia. rewrite <- Nat2Z.inj_add, <- length_app.
  set (l' := l ++ char_bits c). assert (Hl' : (length l' <= 62)%nat) by (unfold l'; rewrite length_app; lia). clearbody l'.
  destruct (Z.ltb_spec (Z.of_nat (length l')) 32) as [H32|H32]; [apply IH; [lia|done|done]|].
  destruct (Nat.leb_spec 4 avail) as [H4|H4].
  - destruct (split_length 32 l') as (a & r & -> & Ha); [lia|]. rewrite length_app in *.
    pose proof (acc_top a r) as Ht. pose proof (acc_rest a r) as Hr. rewrite Ha in Ht, Hr.
    change (64 - Z.of_nat 32) with 32 in Ht. change (Z.of_nat 32) with 32 in Hr. rewrite Ht, Hr by lia.
    assert (Hu : u32 (bv a) = bv a) by (apply u32_small; pose proof (bv_range a) as Hra; by rewrite Ha in Hra). rewrite Hu.
    destruct (sink_write_law b avail (be32 (bv a)) Hb Hav) as (b1 & E1 & Hb1 & C1 & A1); [cbn; lia|].
    rewrite E1. cbn [mbind option_bind]. change (length (be32 (bv a))) with 4%nat in A1.
    replace (Z.of_nat (length a + length r) - 32) with (Z.of_nat (length r)) by lia.
    destruct (IH r (avail - 4)%nat b1) as (rv & b' & out & E' & Hb' & C' & Henc); [lia|done|done|].
    exists rv, b', (be32 (bv a) ++ out). split; [done|]. split; [done|]. split; [by rewrite C', C1, app_assoc|].
    rewrite <- (be32_bits a) at 1 by done. rewrite <- app_assoc. by apply encodes_app.
  - destruct (drain_spec drain_fuel l' b) as (rv & code & nb & b1 & out & r & E & Hb1 & C1 & Hr & Hrv); [unfold drain_fuel; lia|lia|done|].
    rewrite E. cbn [mbind option_bind]. destruct (Z.eqb_spec rv 0) as [->|Hne]; cbn [negb].
    + destruct (Hrv eq_refl) as (-> & -> & Hr8). destruct (sink_avail_law b1 Hb1) as [n An]. rewrite An. cbn [mbind option_bind].
      destruct (IH r n b1) as (rv & b' & out' & E' & Hb' & C' & Henc); [lia|done|done|].
      exists rv, b', (out ++ out'). split; [done|]. split; [done|]. split; [by rewrite C', C1, app_assoc|].
      rewrite Hr, <- app_assoc. by apply encodes_app.
    + exists rv, b1, out. split_and!; try done. exists (r ++ huff_bits src), 0%nat.
      split; [lia|]. split; [by rewrite app_nil_r, Hr, app_assoc|done].
Qed.

Lemma encode_spec b src : sink_ok b ->
  exists rv b' out, nghttp2_hd_huff_encode b src = Some (rv, b') /\ sink_ok b' /\
    sink_contents b' = sink_contents b ++ out /\ encodes (huff_bits src) out rv.
Proof.
  intros Hb. unfold nghttp2_hd_huff_encode. destruct (sink_avail_law b Hb) as [n An]. rewrite An. cbn [mbind option_bind].
  exact (encode_loop_spec src [] n b ltac:(cbn; lia) Hb An).
Qed.

End EncodeSpec.

(** The count is the number of bytes of the encoding. *)
Lemma to_bits_length out : length (to_bits out) = (8 * length out)%nat.
Proof.
  induction out as [|c out IH]; [done|]. change (to_bits (c :: out)) with (octet_bits c ++ to_bits out).
  rewrite length_app, IH. destruct c. cbn. lia.
Qed.

Lemma huff_bits_length src : (length (huff_bits src) <= 30 * length src)%nat.
Proof.
  induction src as [|c src IH]; [done|]. rewrite huff_bits_cons, length_app. cbn [length].
  pose proof (bval_idx c). destruct (sym_info (Z.to_nat (bval c))) as (s & _ & Hn & _ & Hl); [lia|]. unfold char_bits. lia.
Qed.

Lemma encode_count_spec src : Z.of_nat (length src) < 2 ^ 27 ->
  nghttp2_hd_huff_encode_count src = Some ((Z.of_nat (length (huff_bits src)) + 7) / 8).
Proof.
  intros Hs. unfold nghttp2_hd_huff_encode_count.
  assert (Hf : forall l n, 0 <= n -> n + 30 * Z.of_nat (length l) < 2 ^ 32 ->
    foldl (fun nb c => nb ← nb; s ← huff_sym c; Some (u32 (nb + nbits s))) (Some n) l = Some (n + Z.of_nat (length (huff_bits l)))).
  { induction l as [|c l IH]; intros n Hn Hb; cbn [foldl mbind option_bind]; [rewrite Z.add_0_r; done|].
    pose proof (bval_idx c). destruct (sym_info (Z.to_nat (bval c))) as (s & Es & Hnb & _ & Hl); [lia|].
    unfold huff_sym. rewrite Es. cbn [mbind option_bind]. cbn [length] in Hb. rewrite u32_small by lia.
    rewrite IH by lia. rewrite huff_bits_cons, length_app. unfold char_bits. f_equal. lia. }
  rewrite Hf by lia. cbn [mbind option_bind]. pose proof (huff_bits_length src). rewrite u32_small by lia. done.
Qed.

(** ** The chain of buffers is such a sink *)

Section BufsSink.
Context (malloc_ok : nat -> bool) (junk : nat -> nat -> char).

#[local] Existing Instance bufs_sink.

Lemma bufs_avail b n : nghttp2_bufs_cur_avail b = Some n -> exists buf, chain b !! cur b = Some buf /\ nghttp2_buf_avail buf = n.
Proof. unfold nghttp2_bufs_cur_avail. destruct (chain b !! cur b) as [buf|]; [|discriminate]. intros [= <-]. by exists buf. Qed.

Lemma bufs_write_law b n p : wf b -> roomy b -> nghttp2_bufs_cur_avail b = Some n -> (length p <= n)%nat ->
  exists b', on_cur (fun buf => cpymem buf p) b = Some b' /\ wf b' /\ roomy b' /\ contents b' = contents b ++ p /\
    nghttp2_bufs_cur_avail b' = Some (n - length p)%nat.
Proof.
  intros W R Hav Hp. destruct (bufs_avail b n Hav) as (buf & E & Ha).
  assert (Hb : wf_buf (offset b) buf) by (apply (Forall_lookup_1 _ _ _ _ (wf_chunks b W) E)).
  destruct (cpymem_spec _ buf p Hb) as (buf' & Ec & Hw & Hpr & Hcap & Hpos & Hlast); [lia|].
  destruct (on_cur_spec (fun buf => cpymem buf p) b p buf buf' W E Ec Hw Hpr Hcap)
    as (b1 & E1 & W1 & C1 & B1 & F1 & M1 & Cu1 & _ & _ & _ & R1 & S1).
  exists b1. split_and!; try done; [by apply R1|]. unfold nghttp2_bufs_cur_avail. rewrite Cu1.
  unfold on_cur in E1. rewrite E in E1. cbn [mbind option_bind] in E1. rewrite Ec in E1. cbn in E1. injection E1 as <-. cbn.
  rewrite list_lookup_insert_eq by (by apply lookup_lt_Some in E). cbn. f_equal. unfold nghttp2_buf_avail in *. rewrite Hcap, Hlast. lia.
Qed.

Lemma bufs_addb_law b m c : wf b -> roomy b ->
  exists rv b' m', nghttp2_bufs_addb malloc_ok junk c b m = Some (rv, b', m') /\ wf b' /\ roomy b' /\
    contents b' = contents b ++ (if rv =? 0 then [c] else []).
Proof.
  intros W R. destruct (ensured_spec malloc_ok junk (fun buf => put buf c) (fun p => p = [c]) b m W R) as (rv & b' & m' & E & W' & R' & _ & _ & Out).
  { intros off buf Hw Ha. apply put_op; done. }
  exists rv, b', m'. split_and!; try done. destruct Out as [(-> & p & C & ->)|[(-> & C & _)|(-> & C & _)]]; cbn; [done|..]; by rewrite C, app_nil_r.
Qed.

#[export] Instance bufs_sink_laws : @SinkLaws (nghttp2_bufs * nghttp2_mem) (bufs_sink malloc_ok junk).
Proof.
  refine {| sink_ok bm := wf (fst bm) /\ roomy (fst bm); sink_contents bm := contents (fst bm) |}.
  - intros [b m] [W R]. cbn in *. destruct (chain_split b (wf_cur b W)) as (buf & E & _).
    exists (nghttp2_buf_avail buf). unfold nghttp2_bufs_cur_avail. by rewrite E.
  - intros [b m] n p [W R] Hav Hp. cbn in *. destruct (bufs_write_law b n p W R Hav Hp) as (b' & E & W' & R' & C & A).
    exists (b', m). rewrite E. done.
  - intros [b m] c [W R]. cbn in *. destruct (bufs_addb_law b m c W R) as (rv & b' & m' & E & W' & R' & C).
    exists rv, (b', m'). rewrite E. done.
Defined.
End BufsSink.

(** ** The decoder *)

Definition state_of (fs : Z) : nat := Z.to_nat (Z.land fs 511).

(** A value of [fstate] that the table holds. *)
Definition fstate_ok (fs : Z) : Prop :=
  (state_of fs < 256)%nat /\ has_flag fs NGHTTP2_HUFF_ACCEPTED = is_padding (state_bits (state_of fs)) \/ fs = 256.

(** The bits read are the codes of what was written and what the state stands
    for, or contain the code of EOS. *)
Definition read_so_far (fs : Z) (t : bits) (o : list char) : Prop :=
  if fs =? 256 then exists r, t = huff_bits o ++ ones 30 ++ r
  else t = huff_bits o ++ state_bits (state_of fs).

Lemma fstate_256 fs : fstate_ok fs -> fs = 256 \/ (fs =? 256) = false /\ (state_of fs < 256)%nat.
Proof.
  intros [[H _]| ->]; [|by left]. destruct (Z.eqb_spec fs 256) as [->|]; [by left|by right].
Qed.

Lemma decode_nibble_spec fs x buf off : fstate_ok fs -> (x < 16)%nat -> wf_buf off buf -> (0 < nghttp2_buf_avail buf)%nat ->
  exists fs' buf' o, decode_nibble fs (Z.of_nat x) buf = Some (fs', buf') /\ fstate_ok fs' /\ wf_buf off buf' /\
    present buf' = present buf ++ o /\ (nghttp2_buf_avail buf <= nghttp2_buf_avail buf' + 1)%nat /\
    (length o <= 1)%nat /\ forall t out, read_so_far fs t out -> read_so_far fs' (t ++ nibble_bits x) (out ++ o).
Proof.
  intros Hfs Hx Hw Ha. assert (Hs : (state_of fs < 257)%nat).
  { destruct (fstate_256 fs Hfs) as [->|[_ H]]; [vm_compute; lia|lia]. }
  destruct (entry_info (state_of fs) x Hs Hx) as (row & e & Er & Ee & Hok).
  unfold decode_nibble, huff_entry. fold (state_of fs). rewrite Er. cbn [mbind option_bind]. rewrite Nat2Z.id, Ee. cbn [mbind option_bind].
  unfold entry_ok in Hok. destruct (((state_of fs =? 256)%nat || (target e =? 256)%nat)) eqn:E256.
  - crush_hyps. rename H into He. unfold emits in H1. rewrite H1. exists (fstate e), buf, []. rewrite app_nil_r.
    split_and!; try done; [by right|lia|cbn; lia|]. intros t out Ht. rewrite app_nil_r. unfold read_so_far in *. rewrite He, Z.eqb_refl.
    apply orb_prop in H0 as [H0|H0].
    + apply Nat.eqb_eq in H0. destruct (fstate_256 fs Hfs) as [->|[_ H]]; [|lia]. cbn in Ht. destruct Ht as [r ->].
      exists (r ++ nibble_bits x). by rewrite <- !app_assoc.
    + apply is_prefix_spec in H0 as [r Hr]. destruct (fs =? 256) eqn:E.
      * destruct Ht as [r' ->]. exists (r' ++ nibble_bits x). by rewrite <- !app_assoc.
      * exists r. rewrite Ht, <- app_assoc, Hr. done.
  - apply orb_false_elim in E256 as [E1 E2]. apply Nat.eqb_neq in E1, E2. crush_hyps.
    apply bool_decide_eq_true_1 in H0. apply eqb_prop in H1.
    assert (Hfs' : (fs =? 256) = false).
    { destruct (fstate_256 fs Hfs) as [->|[? _]]; [exfalso; apply E1; vm_compute; reflexivity|done]. }
    assert (Hok' : fstate_ok (fstate e)) by (left; split; done).
    assert (He : (fstate e =? 256) = false).
    { destruct (Z.eqb_spec (fstate e) 256) as [He|]; [|done]. exfalso. apply E2. unfold target. rewrite He. vm_compute. reflexivity. }
    unfold emits in H0. destruct (has_flag (fstate e) NGHTTP2_HUFF_SYM) eqn:Esym.
    + destruct (put_spec off buf (uint8 (sym e)) Hw Ha) as (buf' & Ep & Hw' & Hp & Hc & _ & Hl). rewrite Ep. cbn [mbind option_bind].
      exists (fstate e), buf', [uint8 (sym e)]. split_and!; try done.
      { unfold nghttp2_buf_avail in *. rewrite Hc, Hl. lia. }
      intros t out. unfold read_so_far. rewrite Hfs', He. intros ->. rewrite huff_bits_app, <- !app_assoc. f_equal. rewrite H0.
      unfold huff_bits at 1. cbn [map concat]. rewrite app_nil_r. unfold char_bits. rewrite bval_uint8 by lia. done.
    + exists (fstate e), buf, []. rewrite app_nil_r. split_and!; try done; [lia|cbn; lia|].
      intros t out. unfold read_so_far. rewrite Hfs', He. intros ->. rewrite app_nil_r, <- app_assoc. f_equal. done.
Qed.

Lemma byte_nibbles c : exists h l, (h < 16)%nat /\ (l < 16)%nat /\ Z.shiftr (bval c) 4 = Z.of_nat h /\
  Z.land (bval c) 15 = Z.of_nat l /\ octet_bits c = nibble_bits h ++ nibble_bits l.
Proof.
  exists (Z.to_nat (Z.shiftr (bval c) 4)), (Z.to_nat (Z.land (bval c) 15)).
  destruct c as [[] [] [] [] [] [] [] []]; vm_compute; repeat split; lia.
Qed.

Lemma decode_bytes_spec off src : forall fs buf, fstate_ok fs -> wf_buf off buf -> (2 * length src <= nghttp2_buf_avail buf)%nat ->
  exists fs' buf' o, decode_bytes fs buf src = Some (fs', buf') /\ fstate_ok fs' /\ wf_buf off buf' /\
    present buf' = present buf ++ o /\ (length o <= 2 * length src)%nat /\
    forall t out, read_so_far fs t out -> read_so_far fs' (t ++ to_bits src) (out ++ o).
Proof.
  induction src as [|c src IH]; intros fs buf Hfs Hw Ha; cbn [decode_bytes].
  { exists fs, buf, []. rewrite app_nil_r. split_and!; try done. intros t out Ht. change (to_bits []) with (@nil bool). by rewrite !app_nil_r. }
  cbn [length] in Ha. destruct (byte_nibbles c) as (h & l & Hh & Hl & -> & -> & Ec).
  destruct (decode_nibble_spec fs h buf off Hfs Hh Hw) as (f1 & b1 & o1 & -> & Hf1 & Hw1 & P1 & A1 & L1 & R1); [lia|].
  cbn [mbind option_bind].
  destruct (decode_nibble_spec f1 l b1 off Hf1 Hl Hw1) as (f2 & b2 & o2 & -> & Hf2 & Hw2 & P2 & A2 & L2 & R2); [lia|].
  cbn [mbind option_bind].
  destruct (IH f2 b2 Hf2 Hw2) as (f3 & b3 & o3 & -> & Hf3 & Hw3 & P3 & L3 & R3); [lia|].
  exists f3, b3, (o1 ++ o2 ++ o3). split_and!; try done.
  - by rewrite P3, P2, P1, <- !app_assoc.
  - rewrite !length_app. cbn [length]. lia.
  - intros t out Ht. apply R1, R2, R3 in Ht. change (to_bits (c :: src)) with (octet_bits c ++ to_bits src).
    rewrite Ec. by rewrite <- !app_assoc in *.
Qed.

Lemma is_padding_spec l : is_padding l = true <-> exists p, (p < 8)%nat /\ l = ones p.
Proof.
  unfold is_padding. rewrite andb_true_iff, Nat.ltb_lt. split.
  - intros [H Hl]. exists (length l). split; [done|]. clear Hl. induction l as [|b l IH]; [done|].
    cbn in *. apply andb_prop in H as [H1 H2]. unfold id in H1. subst b. by rewrite IH at 1.
  - intros (p & Hp & ->). unfold ones. rewrite length_replicate. split; [|done]. clear Hp. induction p; done.
Qed.

(** Bits that are the codes of some bytes and padding. *)
Definition valid_bits (t : bits) (o : list char) : Prop := exists p, (p < 8)%nat /\ t = huff_bits o ++ ones p.

(** What the state says of the bits read. *)
Lemma read_accepted fs t o : fstate_ok fs -> read_so_far fs t o ->
  if has_flag fs NGHTTP2_HUFF_ACCEPTED then valid_bits t o else forall o', ~ valid_bits t o'.
Proof.
  intros Hfs Ht. unfold read_so_far in Ht. destruct (Z.eqb_spec fs 256) as [->|Hne].
  - intros o' (p & Hp & E). destruct Ht as [r ->]. by apply (eos_not_padding o r o' p Hp).
  - destruct Hfs as [[Hs ->]|]; [|done]. destruct (is_padding (state_bits (state_of fs))) eqn:E.
    + apply is_padding_spec in E as (p & Hp & E). exists p. split; [done|]. by rewrite Ht, E.
    + intros o' (p & Hp & E'). rewrite Ht in E'. apply unique_decoding in E' as [_ E']; [|done..].
      assert (is_padding (state_bits (state_of fs)) = true) by (apply is_padding_spec; eauto). congruence.
Qed.

Lemma init_ok : fstate_ok NGHTTP2_HUFF_ACCEPTED /\ read_so_far NGHTTP2_HUFF_ACCEPTED [] [].
Proof. split; [left; split; vm_compute; [lia|done]|done]. Qed.

Lemma valid_unique t o o' : valid_bits t o -> valid_bits t o' -> o = o'.
Proof.
  intros (p & Hp & ->) (p' & Hp' & E). 
  assert (Hpre : forall a b n m, (n < 8)%nat -> (m < 8)%nat -> huff_bits a ++ ones n = huff_bits b ++ ones m -> a = b); [|eauto].
  clear. intros a. induction a as [|c a IH]; intros [|d b] n m Hn Hm E; [done|exfalso|exfalso|].
  - apply (sym_not_padding (Z.to_nat (bval d)) n (bval_idx d) Hn). apply is_prefix_spec. exists (huff_bits b ++ ones m).
    change (huff_bits []) with (@nil bool) in E. cbn [app] in E. by rewrite E, huff_bits_cons, <- app_assoc.
  - apply (sym_not_padding (Z.to_nat (bval c)) m (bval_idx c) Hm). apply is_prefix_spec. exists (huff_bits a ++ ones n).
    change (huff_bits []) with (@nil bool) in E. cbn [app] in E. by rewrite <- E, huff_bits_cons, <- app_assoc.
  - rewrite !huff_bits_cons, <- !app_assoc in E. apply char_bits_free in E as [<- E]. f_equal. by apply (IH b n m).
Qed.

(** ** Properties *)

Lemma valid_encodes src out : encodes (huff_bits src) out 0 -> valid_bits (to_bits out) src.
Proof. intros (r & p & Hp & E & Hr). exists p. split; [done|]. rewrite (Hr eq_refl), app_nil_r in E. done. Qed.

Lemma valid_count src out : Z.of_nat (length src) < 2 ^ 27 -> valid_bits (to_bits out) src ->
  nghttp2_hd_huff_encode_count src = Some (Z.of_nat (length out)).
Proof.
  intros Hs (p & Hp & E). rewrite encode_count_spec by done. f_equal. apply (f_equal length) in E.
  rewrite to_bits_length, length_app in E. unfold ones in E. rewrite length_replicate in E.
  symmetry. apply (Z.div_unique _ _ _ (7 - Z.of_nat p)); lia.
Qed.

Lemma decode_spec buf off src : wf_buf off buf -> (2 * length src <= nghttp2_buf_avail buf)%nat ->
  exists rv ctx buf' out,
    nghttp2_hd_huff_decode nghttp2_hd_huff_decode_context_init buf src true = Some (rv, ctx, buf') /\
    wf_buf off buf' /\ present buf' = present buf ++ out /\ (length out <= 2 * length src)%nat /\
    ((rv = Z.of_nat (length src) /\ valid_bits (to_bits src) out) \/
     (rv = NGHTTP2_ERR_HEADER_COMP /\ forall o, ~ valid_bits (to_bits src) o)).
Proof.
  intros Hw Ha. destruct init_ok as [Hi Hr].
  destruct (decode_bytes_spec off src NGHTTP2_HUFF_ACCEPTED buf Hi Hw Ha) as (fs & buf' & out & E & Hfs & Hw' & P & L & R).
  apply R in Hr. cbn [app] in Hr. apply read_accepted in Hr; [|done].
  unfold nghttp2_hd_huff_decode, nghttp2_hd_huff_decode_context_init, ctx_fstate. rewrite E. cbn [mbind option_bind andb].
  destruct (has_flag fs NGHTTP2_HUFF_ACCEPTED); cbn [negb];
    eexists _, _, buf', out; (split; [reflexivity|]); (split; [done|]); (split; [done|]); (split; [done|]); [by left|by right].
Qed.

(** With any sink that keeps its promises, the encoder comes back, has appended
    to what the sink held, and nothing else; on success these bytes are the codes
    of the source in order, padded with less than eight ones, as many bytes as
    [nghttp2_hd_huff_encode_count] announced; on failure they are a part of that
    from its beginning.  No code is cut and no bit lost between the two ways of
    emptying the accumulator. *)
Theorem huff_encode_correct {B} `{SinkLaws B} (b : B) src : sink_ok b ->
  exists rv b' out, nghttp2_hd_huff_encode b src = Some (rv, b') /\ sink_ok b' /\
    sink_contents b' = sink_contents b ++ out /\
    (exists r p, (p < 8)%nat /\ huff_bits src ++ ones p = to_bits out ++ r) /\
    (rv = 0 -> valid_bits (to_bits out) src /\
       (Z.of_nat (length src) < 2 ^ 27 -> nghttp2_hd_huff_encode_count src = Some (Z.of_nat (length out)))).
Proof.
  intros Hb. destruct (encode_spec b src Hb) as (rv & b' & out & E & Hb' & C & Henc).
  exists rv, b', out. split; [done|]. split; [done|]. split; [done|]. split.
  - destruct Henc as (r & p & Hp & Heq & _). by exists r, p.
  - intros ->. apply valid_encodes in Henc. split; [done|]. intros Hs. by apply valid_count.
Qed.

(** C24: the table-driven decoder is a decoder of the code: given room for two bytes
    per byte of input, it never writes outside its buffer and never reads outside
    its table, and with [final] set it accepts the input exactly when its bits are
    the codes of some bytes followed by less than eight ones, which bytes it has
    then written; any other input, one with the code of EOS or with longer or
    other padding among them, is an error. *)
Theorem huff_decode_correct buf off src : wf_buf off buf -> (2 * length src <= nghttp2_buf_avail buf)%nat ->
  exists rv ctx buf' out,
    nghttp2_hd_huff_decode nghttp2_hd_huff_decode_context_init buf src true = Some (rv, ctx, buf') /\
    wf_buf off buf' /\ present buf' = present buf ++ out /\ (length out <= 2 * length src)%nat /\
    ((rv = Z.of_nat (length src) /\ valid_bits (to_bits src) out) \/
     (rv = NGHTTP2_ERR_HEADER_COMP /\ forall o, ~ valid_bits (to_bits src) o)).
Proof. apply decode_spec. Qed.

(** C23: what is encoded into a chain of buffers, whatever its chunks, is decoded to
    the source: all of it, and nothing else, for every source. *)
Theorem huff_roundtrip malloc_ok junk b m b' m' src buf off :
  wf b -> roomy b -> @nghttp2_hd_huff_encode _ (bufs_sink malloc_ok junk) (b, m) src = Some (0, (b', m')) ->
  exists out, contents b' = contents b ++ out /\
    (wf_buf off buf -> (2 * length out <= nghttp2_buf_avail buf)%nat ->
     exists ctx buf',
       nghttp2_hd_huff_decode nghttp2_hd_huff_decode_context_init buf out true = Some (Z.of_nat (length out), ctx, buf') /\
       present buf' = present buf ++ src).
Proof.
  intros W R E. destruct (@encode_spec _ _ (bufs_sink_laws malloc_ok junk) (b, m) src (conj W R)) as (rv & bm & out & E1 & _ & C & Henc).
  rewrite E in E1. injection E1 as <- <-. cbn in C. exists out. split; [done|]. intros Hw Ha.
  apply valid_encodes in Henc. destruct (decode_spec buf off out Hw Ha) as (rv & ctx & buf' & o & E2 & _ & P & _ & Hv).
  destruct Hv as [[-> Hv]|[_ Hv]]; [|by destruct (Hv src)]. exists ctx, buf'. split; [done|].
  by rewrite P, (valid_unique _ _ _ Hv Henc).
Qed.

(** Decoding in two pieces is decoding the whole. *)
Lemma decode_bytes_app fs buf a b : decode_bytes fs buf (a ++ b) = ('(fs, buf) ← decode_bytes fs buf a; decode_bytes fs buf b).
Proof.
  revert fs buf. induction a as [|c a IH]; intros fs buf; [done|]. cbn [app decode_bytes].
  destruct (decode_nibble fs _ buf) as [[f1 b1]|]; [|done]. cbn [mbind option_bind].
  destruct (decode_nibble f1 _ b1) as [[f2 b2]|]; [|done]. cbn [mbind option_bind]. apply IH.
Qed.

(** The input may come in pieces: decoding a first piece without [final] and the
    rest with the context it leaves gives the same answer to the caller, up to the
    count of bytes, and the same bytes as decoding the whole; and once
    [nghttp2_hd_huff_decode_failure_state] answers yes after a piece, no
    continuation of it is valid, so giving up early rejects nothing that was
    right. *)
Theorem huff_decode_in_pieces buf off a : wf_buf off buf -> (2 * length a <= nghttp2_buf_avail buf)%nat ->
  exists ctx buf1,
    nghttp2_hd_huff_decode nghttp2_hd_huff_decode_context_init buf a false = Some (Z.of_nat (length a), ctx, buf1) /\
    (forall rest,
       (ab ← nghttp2_hd_huff_decode nghttp2_hd_huff_decode_context_init buf (a ++ rest) true;
        Some (fst (fst ab) =? NGHTTP2_ERR_HEADER_COMP, snd (fst ab), snd ab)) =
       (ab ← nghttp2_hd_huff_decode ctx buf1 rest true;
        Some (fst (fst ab) =? NGHTTP2_ERR_HEADER_COMP, snd (fst ab), snd ab))) /\
    (nghttp2_hd_huff_decode_failure_state ctx = true -> forall rest o, ~ valid_bits (to_bits (a ++ rest)) o).
Proof.
  intros Hw Ha. destruct init_ok as [Hi Hr].
  destruct (decode_bytes_spec off a NGHTTP2_HUFF_ACCEPTED buf Hi Hw Ha) as (fs & buf1 & out & E & Hfs & Hw' & P & L & R).
  exists (Ctx fs), buf1. unfold nghttp2_hd_huff_decode, nghttp2_hd_huff_decode_context_init, ctx_fstate.
  rewrite E. cbn [mbind option_bind andb]. split; [done|]. split.
  - intros rest. rewrite decode_bytes_app, E. cbn [mbind option_bind].
    destruct (decode_bytes fs buf1 rest) as [[f2 b2]|]; [|done]. cbn [mbind option_bind].
    destruct (has_flag f2 NGHTTP2_HUFF_ACCEPTED); cbn [negb mbind option_bind fst snd]; [|done].
    assert (Hn : forall n : nat, (Z.of_nat n =? NGHTTP2_ERR_HEADER_COMP) = false) by (intros n; apply Z.eqb_neq; unfold NGHTTP2_ERR_HEADER_COMP; lia).
    by rewrite !Hn.
  - unfold nghttp2_hd_huff_decode_failure_state, ctx_fstate. intros H256 rest o (p & Hp & Ev).
    apply R in Hr. cbn [app] in Hr. unfold read_so_far in Hr. rewrite H256 in Hr. destruct Hr as [r Hr].
    rewrite to_bits_app, Hr, <- !app_assoc in Ev. by apply (eos_not_padding out (r ++ to_bits rest) o p Hp).
Qed.

(** *** Witnesses *)

Definition room (n : nat) : nghttp2_buf := nghttp2_buf_wrap_init (zeros n).

Lemma room_ok n : wf_buf 0 (room n).
Proof. unfold wf_buf, room. cbn. lia. Qed.

(** "www.example.com", from RFC 7541, appendix C.4.1. *)
Definition example_com : list char := chars "www.example.com".
Definition example_com_encoded : list char :=
  map uint8 [0xf1; 0xe3; 0xc2; 0xe5; 0xf2; 0x3a; 0x6b; 0xa0; 0xab; 0x90; 0xf4; 0xff].

Definition one_chunk : nghttp2_bufs := Bufs [room 7] 0 7 3 1 3 0.

Lemma one_chunk_ok : wf one_chunk /\ roomy one_chunk.
Proof.
  split; [|split; cbn; [|lia]].
  - constructor; cbn; try lia; repeat constructor; cbn; lia.
  - repeat constructor; cbn; lia.
Qed.

Example encode_example_com :
  match @nghttp2_hd_huff_encode _ (bufs_sink (fun _ => true) (fun _ _ => NUL)) (one_chunk, Mem 0 0) example_com with
  | Some (rv, (b, _)) => rv = 0 /\ contents b = example_com_encoded
  | None => False
  end.
Proof. vm_compute. done. Qed.

Lemma huff_encode_correct_witness :
  let sink := bufs_sink (fun _ => true) (fun _ _ => NUL) in
  let laws := bufs_sink_laws (fun _ => true) (fun _ _ => NUL) in
  exists rv b' out, @nghttp2_hd_huff_encode _ sink (one_chunk, Mem 0 0) example_com = Some (rv, b') /\ @sink_ok _ _ laws b' /\
    @sink_contents _ _ laws b' = @sink_contents _ _ laws (one_chunk, Mem 0 0) ++ out /\
    (exists r p, (p < 8)%nat /\ huff_bits example_com ++ ones p = to_bits out ++ r) /\
    (rv = 0 -> valid_bits (to_bits out) example_com /\
       (Z.of_nat (length example_com) < 2 ^ 27 -> nghttp2_hd_huff_encode_count example_com = Some (Z.of_nat (length out)))).
Proof.
  intros sink laws. apply (@huff_encode_correct _ sink laws (one_chunk, Mem 0 0) example_com). exact one_chunk_ok.
Defined.

Lemma huff_decode_correct_witness :
  exists rv ctx buf' out,
    nghttp2_hd_huff_decode nghttp2_hd_huff_decode_context_init (room 24) example_com_encoded true = Some (rv, ctx, buf') /\
    wf_buf 0 buf' /\ present buf' = present (room 24) ++ out /\ (length out <= 24)%nat /\
    ((rv = 12 /\ valid_bits (to_bits example_com_encoded) out) \/
     (rv = NGHTTP2_ERR_HEADER_COMP /\ forall o, ~ valid_bits (to_bits example_com_encoded) o)).
Proof. apply (huff_decode_correct (room 24) 0 example_com_encoded); [apply room_ok|vm_compute; lia]. Defined.

Lemma huff_roundtrip_witness :
  exists b' m', @nghttp2_hd_huff_encode _ (bufs_sink (fun _ => true) (fun _ _ => NUL)) (one_chunk, Mem 0 0) example_com = Some (0, (b', m')) /\
    exists out, contents b' = contents one_chunk ++ out /\
      (wf_buf 0 (room 24) -> (2 * length out <= nghttp2_buf_avail (room 24))%nat ->
       exists ctx buf',
         nghttp2_hd_huff_decode nghttp2_hd_huff_decode_context_init (room 24) out true = Some (Z.of_nat (length out), ctx, buf') /\
         present buf' = present (room 24) ++ example_com).
Proof.
  eexists _, _. split; [vm_compute; reflexivity|].
  eapply (huff_roundtrip (fun _ => true) (fun _ _ => NUL) one_chunk (Mem 0 0) _ _ example_com (room 24) 0);
    [apply one_chunk_ok|apply one_chunk_ok|vm_compute; reflexivity].
Defined.

Lemma huff_decode_in_pieces_witness :
  exists ctx buf1,
    nghttp2_hd_huff_decode nghttp2_hd_huff_decode_context_init (room 24) (take 5 example_com_encoded) false = Some (5, ctx, buf1) /\
    (forall rest,
       (ab ← nghttp2_hd_huff_decode nghttp2_hd_huff_decode_context_init (room 24) (take 5 example_com_encoded ++ rest) true;
        Some (fst (fst ab) =? NGHTTP2_ERR_HEADER_COMP, snd (fst ab), snd ab)) =
       (ab ← nghttp2_hd_huff_decode ctx buf1 rest true;
        Some (fst (fst ab) =? NGHTTP2_ERR_HEADER_COMP, snd (fst ab), snd ab))) /\
    (nghttp2_hd_huff_decode_failure_state ctx = true -> forall rest o, ~ valid_bits (to_bits (take 5 example_com_encoded ++ rest)) o).
Proof. apply (huff_decode_in_pieces (room 24) 0 (take 5 example_com_encoded)); [apply room_ok|vm_compute; lia]. Defined.
