(* ===== verification/HpackInt.v ===== *)
(** * HPACK integers: [count_encoded_length], [encode_length] and
    [decode_length] of [nghttp2_hd.c]

    An integer starts in the low [prefix] bits of a byte and goes on, if it does
    not fit there, in groups of seven bits, the least significant first.  The
    decoder takes its input in pieces: between two calls the caller keeps the
    value so far and the shift.  [size_t] has 32 bits.  Reading or writing
    outside the given memory makes the result [None]. *)

From stdpp Require Import list.
From S2P Require Import Prelude CLib NgBuf.

Definition UINT32_MAX : Z := 4294967295.

(** [(size_t)((1 << prefix) - 1)] *)
Definition prefix_mask (prefix : Z) : Z := Z.shiftl 1 prefix - 1.

(** [for (; n >= 128; n >>= 7, ++len);] *)
Fixpoint count_loop (fuel : nat) (n len : Z) : option Z :=
  match fuel with
  | O => None
  | S fuel => if 128 <=? n then count_loop fuel (Z.shiftr n 7) (len + 1) else Some len
  end.

(** 32 bits are at most five groups of seven. *)
Definition groups_fuel : nat := 6.

Definition count_encoded_length (n prefix : Z) : option Z :=
  let k := prefix_mask prefix in
  if n <? k then Some 1 else
  len ← count_loop groups_fuel (n - k) 1;
  Some (len + 1).

(** [*buf = x], at the index [i] of the memory [m]. *)
Definition store (m : list char) (i : nat) (x : Z) : option (list char) :=
  if (i <? length m)%nat then Some (<[i := uint8 x]> m) else None.

(** [for (; n >= 128; n >>= 7) *buf++ = ...]: [n], the memory and [buf]. *)
Fixpoint encode_groups (fuel : nat) (m : list char) (i : nat) (n : Z) : option (Z * list char * nat) :=
  match fuel with
  | O => None
  | S fuel =>
      if 128 <=? n then
        m ← store m i (Z.lor (Z.shiftl 1 7) (Z.land n 127));
        encode_groups fuel m (S i) (Z.shiftr n 7)
      else Some (n, m, i)
  end.

(** [~k] on 32 bits. *)
Definition not32 (k : Z) : Z := UINT32_MAX - k.

(** [m]: the memory from [buf] on.  The length and the memory. *)
Definition encode_length (m : list char) (n prefix : Z) : option (Z * list char) :=
  let k := prefix_mask prefix in
  c ← m !! 0%nat;
  m ← store m 0 (Z.land (bval c) (not32 k));
  c ← m !! 0%nat;
  if n <? k then
    m ← store m 0 (Z.lor (bval c) n);
    Some (1, m)
  else
    m ← store m 0 (Z.lor (bval c) k);
    '(n, m, i) ← encode_groups groups_fuel m 1 (n - k);
    m ← store m i n;
    Some (Z.of_nat (S i), m).

(** What [decode_length] returns: [rv], and [*res] (if it is set),
    [*shift_ptr] and [*fin]. *)
Record decoded := Decoded { d_rv : Z; d_res : option Z; d_shift : Z; d_fin : bool }.

(** The loop and what follows it: [l] are the bytes from [in] to [last], [used]
    is [in - start]. *)
Fixpoint decode_groups (l : list char) (n shift used : Z) : decoded :=
  match l with
  | [] => Decoded used (Some n) shift false
  | c :: l =>
      let add := Z.land (bval c) 127 in
      if 32 <=? shift then Decoded (-1) None 0 false else
      if Z.shiftr UINT32_MAX shift <? add then Decoded (-1) None 0 false else
      let add := u32 (Z.shiftl add shift) in
      if UINT32_MAX - add <? n then Decoded (-1) None 0 false else
      let n := u32 (n + add) in
      if Z.land (bval c) (Z.shiftl 1 7) =? 0 then Decoded (used + 1) (Some n) shift true
      else decode_groups l n (shift + 7) (used + 1)
  end.

(** [l]: the bytes from [in] to [last]. *)
Definition decode_length (initial shift : Z) (l : list char) (prefix : Z) : option decoded :=
  let k := u8 (prefix_mask prefix) in
  if initial =? 0 then
    match l with
    | [] => None
    | c :: l =>
        if negb (Z.land (bval c) k =? k) then Some (Decoded 1 (Some (Z.land (bval c) k)) 0 true) else
        match l with
        | [] => Some (Decoded 1 (Some k) 0 false)
        | _ => Some (decode_groups l k shift 1)
        end
    end
  else Some (decode_groups l initial shift 0).

(** ** The representation *)

(** The value of the groups of seven bits, and how many bytes they are: up to
    the first byte below 128. *)
Fixpoint groups (l : list char) : option (Z * nat) :=
  match l with
  | [] => None
  | c :: l =>
      if bval c <? 128 then Some (bval c, 1%nat)
      else '(v, n) ← groups l; Some (bval c - 128 + 128 * v, S n)
  end.

(** The value of groups that are all to be continued. *)
Fixpoint partial (l : list char) : Z :=
  match l with [] => 0 | c :: l => bval c - 128 + 128 * partial l end.

(** A value fits, after [i] groups that stand for less than [2^(7 i)]. *)
Definition fits (i : nat) (n v : Z) : bool := (i <=? 5)%nat && (n + v <=? UINT32_MAX).

Lemma groups_range l v n : groups l = Some (v, n) -> 0 <= v /\ (0 < n <= length l)%nat.
Proof.
  revert v n. induction l as [|c l IH]; intros v n; cbn [groups]; [done|].
  pose proof (bval_range c). destruct (Z.ltb_spec (bval c) 128).
  - intros [= <- <-]. cbn. lia.
  - destruct (groups l) as [[w m]|]; [|done]. cbn. intros [= <- <-]. specialize (IH w m eq_refl). cbn. lia.
Qed.

Lemma partial_nonneg l : groups l = None -> 0 <= partial l.
Proof.
  induction l as [|c l IH]; cbn [groups partial]; [lia|].
  destruct (Z.ltb_spec (bval c) 128); [done|]. destruct (groups l) as [[w m]|]; [done|]. intros _. specialize (IH eq_refl). lia.
Qed.

Lemma land_127 c : Z.land (bval c) 127 = if bval c <? 128 then bval c else bval c - 128.
Proof. destruct c as [[] [] [] [] [] [] [] []]; vm_compute; reflexivity. Qed.

Lemma land_128 c : (Z.land (bval c) (Z.shiftl 1 7) =? 0) = (bval c <? 128).
Proof. destruct c as [[] [] [] [] [] [] [] []]; vm_compute; reflexivity. Qed.

(** One turn of the loop, at the shift [7 i]. *)
Lemma decode_group c l n (i : nat) used : 0 <= n <= UINT32_MAX ->
  decode_groups (c :: l) n (7 * Z.of_nat i) used =
    let add := Z.land (bval c) 127 * 2 ^ (7 * Z.of_nat i) in
    if fits (S i) n add then
      if bval c <? 128 then Decoded (used + 1) (Some (n + add)) (7 * Z.of_nat i) true
      else decode_groups l (n + add) (7 * Z.of_nat (S i)) (used + 1)
    else Decoded (-1) None 0 false.
Proof.
  intros Hn. cbn [decode_groups]. rewrite land_128. set (a := Z.land (bval c) 127). cbv zeta.
  assert (Ha : 0 <= a < 128).
  { unfold a. rewrite land_127. pose proof (bval_range c). destruct (Z.ltb_spec (bval c) 128); lia. }
  unfold fits. destruct (Z.leb_spec 32 (7 * Z.of_nat i)) as [H32|H32].
  { destruct (Nat.leb_spec (S i) 5); [lia|done]. }
  destruct (Nat.leb_spec (S i) 5) as [Hi|]; [|lia]. cbn [andb].
  set (s := 7 * Z.of_nat i) in *. assert (Hs : 0 <= s <= 28) by lia.
  assert (Hp : 0 < 2 ^ s) by (apply Z.pow_pos_nonneg; lia).
  assert (Hdiv : Z.shiftr UINT32_MAX s < a <-> UINT32_MAX < a * 2 ^ s).
  { rewrite Z.shiftr_div_pow2 by lia. pose proof (Z.div_mod UINT32_MAX (2 ^ s)). pose proof (Z.mod_pos_bound UINT32_MAX (2 ^ s)). split; nia. }
  destruct (Z.ltb_spec (Z.shiftr UINT32_MAX s) a) as [H1|H1].
  { apply Hdiv in H1. destruct (Z.leb_spec (n + a * 2 ^ s) UINT32_MAX); [lia|done]. }
  assert (H1' : a * 2 ^ s <= UINT32_MAX) by lia. rewrite Z.shiftl_mul_pow2 by lia.
  assert (Hpos : 0 <= a * 2 ^ s) by lia. unfold UINT32_MAX in *. rewrite (u32_small (a * 2 ^ s)) by lia.
  destruct (Z.ltb_spec (4294967295 - a * 2 ^ s) n) as [H2|H2]; destruct (Z.leb_spec (n + a * 2 ^ s) 4294967295); try lia; [done|].
  rewrite u32_small by lia. replace (s + 7) with (7 * Z.of_nat (S i)) by lia. done.
Qed.

(** What the loop decodes. *)
Lemma decode_groups_spec l : forall n (i : nat) used, 0 <= n <= UINT32_MAX -> (i <= 5)%nat ->
  decode_groups l n (7 * Z.of_nat i) used =
    match groups l with
    | Some (v, m) =>
        if fits (i + m) n (v * 2 ^ (7 * Z.of_nat i))
        then Decoded (used + Z.of_nat m) (Some (n + v * 2 ^ (7 * Z.of_nat i))) (7 * Z.of_nat (i + m - 1)) true
        else Decoded (-1) None 0 false
    | None =>
        if fits (i + length l) n (partial l * 2 ^ (7 * Z.of_nat i))
        then Decoded (used + Z.of_nat (length l)) (Some (n + partial l * 2 ^ (7 * Z.of_nat i))) (7 * Z.of_nat (i + length l)) false
        else Decoded (-1) None 0 false
    end.
Proof.
  induction l as [|c l IH]; intros n i used Hn Hi.
  { cbn. unfold fits. rewrite !Nat.add_0_r, !Z.add_0_r. destruct (Nat.leb_spec i 5); [|lia]. cbn. destruct (Z.leb_spec n UINT32_MAX); [done|lia]. }
  rewrite decode_group by done. cbv zeta. cbn [groups partial length]. rewrite land_127. pose proof (bval_range c) as Hc.
  assert (Hpow : 2 ^ (7 * Z.of_nat (S i)) = 128 * 2 ^ (7 * Z.of_nat i)).
  { replace (7 * Z.of_nat (S i)) with (7 + 7 * Z.of_nat i) by lia. by rewrite Z.pow_add_r by lia. }
  assert (Hp : 0 < 2 ^ (7 * Z.of_nat i)) by (apply Z.pow_pos_nonneg; lia).
  destruct (Z.ltb_spec (bval c) 128) as [Hlt|Hge].
  { rewrite Nat.add_1_r. destruct (fits (S i) n _); [|done]. f_equal. lia. }
  set (a := (bval c - 128) * 2 ^ (7 * Z.of_nat i)). assert (0 <= a) by (unfold a; nia).
  assert (Hacc : forall v m, 0 <= v -> fits (i + S m) n ((bval c - 128 + 128 * v) * 2 ^ (7 * Z.of_nat i)) =
      fits (S i) n a && fits (S i + m) (n + a) (v * 2 ^ (7 * Z.of_nat (S i)))).
  { intros v m Hv. unfold fits. rewrite Hpow.
    replace ((bval c - 128 + 128 * v) * 2 ^ (7 * Z.of_nat i)) with (a + v * (128 * 2 ^ (7 * Z.of_nat i))) by (unfold a; ring).
    assert (0 <= v * (128 * 2 ^ (7 * Z.of_nat i))) by nia. rewrite Z.add_assoc.
    replace (i + S m)%nat with (S i + m)%nat by lia.
    destruct (Nat.leb_spec (S i + m) 5); destruct (Nat.leb_spec (S i) 5); lia. }
  destruct (fits (S i) n a) eqn:Ef.
  - unfold fits in Ef. crush_hyps. assert (S i <= 5)%nat by (by apply Nat.leb_le). rewrite IH by lia.
    destruct (groups l) as [[v m]|] eqn:Eg; cbn [mbind option_bind].
    + destruct (groups_range l v m Eg) as [Hv Hm]. rewrite Hacc by done. cbn [andb].
      destruct (fits (S i + m) (n + a) _); [|done]. f_equal; [lia|f_equal; rewrite Hpow; unfold a; ring|lia].
    + pose proof (partial_nonneg l Eg). rewrite Hacc by done. cbn [andb].
      destruct (fits (S i + length l) (n + a) _); [|done]. f_equal; [lia|f_equal; rewrite Hpow; unfold a; ring|lia].
  - destruct (groups l) as [[v m]|] eqn:Eg; cbn [mbind option_bind].
    + destruct (groups_range l v m Eg) as [Hv Hm]. by rewrite Hacc.
    + pose proof (partial_nonneg l Eg). by rewrite Hacc.
Qed.

(** ** Encoding *)

Lemma bval_u8 z : bval (uint8 z) = u8 z.
Proof. unfold bval, uint8. pose proof (u8_range z). rewrite N_ascii_embedding by lia. lia. Qed.

Lemma u8_land z : u8 z = Z.land z 255.
Proof. symmetry. apply (Z.land_ones z 8). lia. Qed.

(** The groups of a number. *)
Fixpoint group_bytes (fuel : nat) (n : Z) : list char :=
  match fuel with
  | O => []
  | S fuel => if 128 <=? n then uint8 (Z.lor (Z.shiftl 1 7) (Z.land n 127)) :: group_bytes fuel (Z.shiftr n 7) else [uint8 n]
  end.

Lemma group_byte n : 0 <= n -> bval (uint8 (Z.lor (Z.shiftl 1 7) (Z.land n 127))) = 128 + n mod 128.
Proof.
  intros Hn. change 127 with (Z.ones 7). rewrite Z.land_ones by lia. change (2 ^ 7) with 128. pose proof (Z.mod_pos_bound n 128).
  rewrite Z.lor_comm, (lor_add (n mod 128) 1 7) by lia. rewrite bval_u8, u8_small by lia. lia.
Qed.

(** The fuel is enough for the groups of [n]. *)
Definition fueled (fuel : nat) (n : Z) : Prop := (0 < fuel)%nat /\ 0 <= n < 128 ^ Z.of_nat fuel.

Lemma shiftr_7 n fuel : 128 <= n -> fueled (S fuel) n -> fueled fuel (Z.shiftr n 7) /\ n = 128 * Z.shiftr n 7 + n mod 128.
Proof.
  unfold fueled. rewrite Nat2Z.inj_succ, Z.pow_succ_r by lia. intros H [_ Hn]. rewrite Z.shiftr_div_pow2 by lia. change (2 ^ 7) with 128.
  assert (H1 : 1 <= n / 128) by (apply Z.div_le_lower_bound; lia).
  assert (H2 : n / 128 < 128 ^ Z.of_nat fuel) by (apply Z.div_lt_upper_bound; lia).
  split; [|apply Z.div_mod; lia]. split; [|lia]. destruct fuel; [cbn in H2; lia|lia].
Qed.

Lemma groups_of_bytes fuel : forall n rest, fueled fuel n ->
  groups (group_bytes fuel n ++ rest) = Some (n, length (group_bytes fuel n)).
Proof.
  induction fuel as [|fuel IH]; intros n rest Hn; [destruct Hn; lia|]. cbn [group_bytes].
  destruct (Z.leb_spec 128 n) as [H|H]; cbn [app groups length]; pose proof (proj2 Hn) as Hn'.
  - rewrite group_byte by lia. pose proof (Z.mod_pos_bound n 128). destruct (shiftr_7 n fuel ltac:(lia) Hn) as [Hr Hd].
    destruct (Z.ltb_spec (128 + n mod 128) 128); [lia|]. rewrite IH by done. cbn [mbind option_bind]. do 2 f_equal. lia.
  - rewrite bval_u8, u8_small by lia. destruct (Z.ltb_spec n 128); [done|lia].
Qed.

Lemma store_spec m i x : (i < length m)%nat -> store m i x = Some (take i m ++ uint8 x :: drop (S i) m).
Proof. intros H. unfold store. rewrite (proj2 (Nat.ltb_lt _ _)) by done. by rewrite insert_take_drop. Qed.

Lemma encode_groups_spec fuel : forall m i n, fueled fuel n -> (i + length (group_bytes fuel n) <= length m)%nat ->
  ('(n, m, i) ← encode_groups fuel m i n; m ← store m i n; Some (Z.of_nat (S i), m)) =
    Some (Z.of_nat (i + length (group_bytes fuel n)), take i m ++ group_bytes fuel n ++ drop (i + length (group_bytes fuel n)) m).
Proof.
  induction fuel as [|fuel IH]; intros m i n Hn; [destruct Hn; lia|]. cbn [group_bytes encode_groups].
  destruct (Z.leb_spec 128 n) as [H|H]; cbn [length]; intros Hl.
  - rewrite store_spec by lia. cbn [mbind option_bind]. destruct (shiftr_7 n fuel ltac:(lia) Hn) as [Hr _].
    assert (Hlen : length (take i m ++ uint8 (Z.lor (Z.shiftl 1 7) (Z.land n 127)) :: drop (S i) m) = length m).
    { rewrite length_app, length_take. cbn [length]. rewrite length_drop. lia. }
    rewrite IH by (try done; rewrite Hlen; lia). set (gb := group_bytes fuel (Z.shiftr n 7)) in *.
    f_equal. f_equal; [f_equal; lia|]. set (x := uint8 _).
    assert (Ht : length (take i m) = i) by (rewrite length_take; lia).
    replace (take i m ++ x :: drop (S i) m) with ((take i m ++ [x]) ++ drop (S i) m) by (by rewrite <- app_assoc).
    rewrite take_app_length' by (rewrite length_app, Ht; cbn; lia).
    rewrite <- Nat.add_succ_comm. rewrite drop_app_ge by (rewrite length_app, Ht; cbn; lia).
    rewrite length_app, Ht, drop_drop. cbn [length app]. rewrite <- app_assoc. cbn [app].
    do 3 f_equal. f_equal. lia.
  - cbn [mbind option_bind]. cbn [length] in Hl. rewrite store_spec by lia. cbn [mbind option_bind]. rewrite Nat.add_1_r. done.
Qed.

Lemma count_loop_spec fuel : forall n len, fueled fuel n ->
  (len ← count_loop fuel n len; Some (len + 1)) = Some (len + Z.of_nat (length (group_bytes fuel n))).
Proof.
  induction fuel as [|fuel IH]; intros n len Hn; [destruct Hn; lia|]. cbn [group_bytes count_loop].
  destruct (Z.leb_spec 128 n); [|done]. destruct (shiftr_7 n fuel ltac:(lia) Hn) as [Hr _]. rewrite IH by done. cbn [length]. f_equal. lia.
Qed.

Lemma group_bytes_length fuel n : fueled fuel n -> (length (group_bytes fuel n) <= fuel)%nat.
Proof.
  revert n. induction fuel as [|fuel IH]; intros n Hn; [destruct Hn; lia|]. cbn [group_bytes].
  destruct (Z.leb_spec 128 n); cbn [length]; [|lia]. destruct (shiftr_7 n fuel ltac:(lia) Hn) as [Hr _]. specialize (IH _ Hr). lia.
Qed.

(** *** The first byte *)

(** The [prefix] of HPACK: one to eight bits. *)
Lemma prefix_cases (P : Z -> Prop) prefix : 1 <= prefix <= 8 -> P 1 -> P 2 -> P 3 -> P 4 -> P 5 -> P 6 -> P 7 -> P 8 -> P prefix.
Proof.
  intros Hp. intros. assert (H' : prefix = 1 \/ prefix = 2 \/ prefix = 3 \/ prefix = 4 \/ prefix = 5 \/ prefix = 6 \/ prefix = 7 \/ prefix = 8) by lia.
  destruct H' as [->|[->|[->|[->|[->|[->|[->| ->]]]]]]]; done.
Qed.

Lemma mask_facts prefix : 1 <= prefix <= 8 ->
  let k := prefix_mask prefix in
  0 < k < 256 /\ Z.land (not32 k) 255 = 255 - k /\ Z.land (255 - k) k = 0 /\ Z.land k 255 = k /\
  Z.land (255 - k) 255 = 255 - k /\ Z.land k k = k /\ u8 k = k /\ k = 2 ^ prefix - 1 /\ Z.land k (255 - k) = 0 /\
  Z.land (255 - k) (255 - k) = 255 - k.
Proof. intros Hp. cbv zeta. pattern prefix. apply (prefix_cases _ prefix Hp); vm_compute; repeat split; done. Qed.

(** [*buf = *buf & ~k] and then [*buf = *buf | x]: the low bits are [x], the
    others are those of before. *)
Definition first_byte (c : char) (k x : Z) : char := uint8 (Z.lor (bval (uint8 (Z.land (bval c) (not32 k)))) x).

Lemma first_byte_spec c prefix x : 1 <= prefix <= 8 -> 0 <= x <= prefix_mask prefix ->
  let k := prefix_mask prefix in
  Z.land (bval (first_byte c k x)) k = x /\ Z.land (bval (first_byte c k x)) (255 - k) = Z.land (bval c) (255 - k).
Proof.
  intros Hp Hx. pose proof (mask_facts prefix Hp) as H. cbv zeta in *. set (k := prefix_mask prefix) in *.
  destruct H as (H1 & H2 & H3 & H4 & H5 & H6 & H7 & H8 & H9 & H10).
  assert (Hxk : Z.land x k = x).
  { rewrite H8. replace (2 ^ prefix - 1) with (Z.ones prefix) by (rewrite Z.ones_equiv; lia). rewrite Z.land_ones by lia.
    apply Z.mod_small. lia. }
  assert (Hb : bval (first_byte c k x) = Z.lor (Z.land (bval c) (255 - k)) x).
  { unfold first_byte. rewrite !bval_u8, !u8_land. rewrite <- Z.land_assoc, H2, Z.land_lor_distr_l, <- Z.land_assoc, H5.
    f_equal. rewrite <- Hxk, <- Z.land_assoc. by rewrite H4. }
  rewrite Hb, !Z.land_lor_distr_l, <- !Z.land_assoc, H3, H10. rewrite Z.land_0_r, Z.lor_0_l. split; [done|].
  rewrite <- Hxk, <- Z.land_assoc, H9, Z.land_0_r, Z.lor_0_r. done.
Qed.

(** What [encode_length] writes. *)
Definition encoded (c : char) (n prefix : Z) : list char :=
  let k := prefix_mask prefix in
  if n <? k then [first_byte c k n] else first_byte c k k :: group_bytes groups_fuel (n - k).

Lemma encoded_length c n prefix : 1 <= prefix <= 8 -> 0 <= n <= UINT32_MAX ->
  (1 <= length (encoded c n prefix) <= 6)%nat /\ count_encoded_length n prefix = Some (Z.of_nat (length (encoded c n prefix))).
Proof.
  intros Hp Hn. pose proof (mask_facts prefix Hp) as H. cbv zeta in H. unfold encoded, count_encoded_length.
  set (k := prefix_mask prefix) in *. destruct H as (H1 & _). destruct (Z.ltb_spec n k); [split; [cbn; lia|done]|].
  assert (Hg : fueled 5 (n - k)) by (split; [lia|]; change (128 ^ Z.of_nat 5) with 34359738368; unfold UINT32_MAX in Hn; lia).
  assert (Hg6 : fueled groups_fuel (n - k)).
  { unfold fueled, groups_fuel. change (128 ^ Z.of_nat 6) with 4398046511104. unfold UINT32_MAX in Hn. lia. }
  rewrite count_loop_spec by done. cbn [length]. split; [|f_equal; lia].
  assert (Hsame : forall fuel n, fueled fuel n -> length (group_bytes (S fuel) n) = length (group_bytes fuel n)).
  { clear. induction fuel as [|fuel IH]; intros n Hn; [destruct Hn; lia|].
    change (group_bytes (S (S fuel)) n) with (if 128 <=? n then uint8 (Z.lor (Z.shiftl 1 7) (Z.land n 127)) :: group_bytes (S fuel) (Z.shiftr n 7) else [uint8 n]).
    change (group_bytes (S fuel) n) with (if 128 <=? n then uint8 (Z.lor (Z.shiftl 1 7) (Z.land n 127)) :: group_bytes fuel (Z.shiftr n 7) else [uint8 n]) at 1.
    destruct (Z.leb_spec 128 n); [|done]. cbn [length]. rewrite IH; [done|]. by destruct (shiftr_7 n fuel ltac:(lia) Hn). }
  unfold groups_fuel. rewrite (Hsame 5%nat) by done. pose proof (group_bytes_length 5 (n - k) Hg). lia.
Qed.

Lemma encode_length_spec m c rest n prefix : 1 <= prefix <= 8 -> 0 <= n <= UINT32_MAX -> m = c :: rest ->
  (length (encoded c n prefix) <= length m)%nat ->
  encode_length m n prefix = Some (Z.of_nat (length (encoded c n prefix)), encoded c n prefix ++ drop (length (encoded c n prefix)) m).
Proof.
  intros Hp Hn -> Hl. unfold encode_length, encoded in *. pose proof (mask_facts prefix Hp) as H. cbv zeta in H.
  set (k := prefix_mask prefix) in *. destruct H as (H1 & _).
  cbn [lookup list_lookup]. cbn [mbind option_bind]. rewrite store_spec by (cbn; lia). cbn [take app mbind option_bind lookup list_lookup].
  destruct (Z.ltb_spec n k).
  - rewrite store_spec by (cbn; lia). cbn [take app mbind option_bind drop length]. done.
  - rewrite store_spec by (cbn; lia). cbn [take app mbind option_bind drop]. 
    assert (Hg6 : fueled groups_fuel (n - k)).
    { unfold fueled, groups_fuel. change (128 ^ Z.of_nat 6) with 4398046511104. unfold UINT32_MAX in Hn. lia. }
    rewrite !drop_0, encode_groups_spec; [|done|cbn [length] in *; lia]. cbn [length take drop app Nat.add]. done.
Qed.

(** ** Decoding in pieces *)

Definition advance (used : Z) (d : decoded) : decoded :=
  match d_res d with
  | Some _ => Decoded (used + d_rv d) (d_res d) (d_shift d) (d_fin d)
  | None => d
  end.

Lemma decode_groups_used l : forall n shift used u, decode_groups l n shift (used + u) = advance used (decode_groups l n shift u).
Proof.
  induction l as [|c l IH]; intros n shift used u; cbn [decode_groups]; [done|]. cbv zeta.
  destruct (32 <=? shift); [done|]. destruct (Z.shiftr UINT32_MAX shift <? Z.land (bval c) 127); [done|].
  destruct (UINT32_MAX - u32 (Z.shiftl (Z.land (bval c) 127) shift) <? n); [done|].
  destruct (Z.land (bval c) (Z.shiftl 1 7) =? 0).
  - unfold advance. cbn [d_res d_rv d_shift d_fin]. by rewrite Z.add_assoc.
  - rewrite <- Z.add_assoc. apply IH.
Qed.

Lemma decode_groups_app a : forall b n shift used,
  decode_groups (a ++ b) n shift used =
    let d := decode_groups a n shift used in
    if d_fin d then d else
    match d_res d with None => d | Some v => decode_groups b v (d_shift d) (d_rv d) end.
Proof.
  induction a as [|c a IH]; intros b n shift used; cbn [decode_groups app]; [done|]. cbv zeta.
  destruct (32 <=? shift); [done|]. destruct (Z.shiftr UINT32_MAX shift <? Z.land (bval c) 127); [done|].
  destruct (UINT32_MAX - u32 (Z.shiftl (Z.land (bval c) 127) shift) <? n); [done|].
  destruct (Z.land (bval c) (Z.shiftl 1 7) =? 0); [done|]. apply IH.
Qed.

Lemma decode_groups_pos l : forall n shift used, 0 < n <= UINT32_MAX ->
  match d_res (decode_groups l n shift used) with Some v => 0 < v <= UINT32_MAX | None => True end.
Proof.
  induction l as [|c l IH]; intros n shift used Hn; cbn [decode_groups]; [done|]. cbv zeta.
  destruct (32 <=? shift); [done|]. destruct (Z.shiftr UINT32_MAX shift <? Z.land (bval c) 127); [done|].
  pose proof (u32_range (Z.shiftl (Z.land (bval c) 127) shift)) as Hu. set (add := u32 (Z.shiftl _ _)) in *.
  destruct (Z.ltb_spec (UINT32_MAX - add) n); [done|]. unfold UINT32_MAX in *.
  destruct (Z.land (bval c) (Z.shiftl 1 7) =? 0); [cbn [d_res]|apply IH]; rewrite u32_small by lia; lia.
Qed.

(** ** Properties *)

(** What a fresh decoding of a byte and what follows it gives. *)
Definition int_spec (c : char) (l : list char) (prefix : Z) : decoded :=
  let k := prefix_mask prefix in
  if negb (Z.land (bval c) k =? k) then Decoded 1 (Some (Z.land (bval c) k)) 0 true else
  match groups l with
  | Some (v, m) =>
      if fits m k v then Decoded (1 + Z.of_nat m) (Some (k + v)) (7 * Z.of_nat (m - 1)) true else Decoded (-1) None 0 false
  | None =>
      if fits (length l) k (partial l) then Decoded (1 + Z.of_nat (length l)) (Some (k + partial l)) (7 * Z.of_nat (length l)) false
      else Decoded (-1) None 0 false
  end.

Lemma decode_length_spec c l prefix : 1 <= prefix <= 8 -> decode_length 0 0 (c :: l) prefix = Some (int_spec c l prefix).
Proof.
  intros Hp. pose proof (mask_facts prefix Hp) as H. cbv zeta in H. unfold decode_length, int_spec.
  set (k := prefix_mask prefix) in *. destruct H as (H1 & _ & _ & _ & _ & _ & H7 & _). rewrite H7. cbn [Z.eqb].
  destruct (negb (Z.land (bval c) k =? k)); [done|].
  assert (Hl : decode_groups l k 0 1 = match groups l with
    | Some (v, m) => if fits m k v then Decoded (1 + Z.of_nat m) (Some (k + v)) (7 * Z.of_nat (m - 1)) true else Decoded (-1) None 0 false
    | None => if fits (length l) k (partial l) then Decoded (1 + Z.of_nat (length l)) (Some (k + partial l)) (7 * Z.of_nat (length l)) false
              else Decoded (-1) None 0 false end).
  { pose proof (decode_groups_spec l k 0 1) as Hs. change (7 * Z.of_nat 0) with 0 in Hs. rewrite Hs by (unfold UINT32_MAX; lia).
    destruct (groups l) as [[v m]|]; rewrite ?Z.mul_1_r; cbn [Nat.add]; done. }
  rewrite <- Hl. by destruct l.
Qed.

(** [decode_length] on a fresh start reads the integer of RFC 7541, section 5.1:
    the value and the count of bytes are those of the representation, whatever
    follows it; when the input ends inside the representation it takes all of it
    and says what to go on with.  It fails exactly when the value, or what is known
    of it, is more than [UINT32_MAX], or when there are more than five groups, and
    no 32-bit operation wraps around before that is noticed. *)
Theorem decode_length_correct c l prefix : 1 <= prefix <= 8 ->
  decode_length 0 0 (c :: l) prefix = Some (
    let k := prefix_mask prefix in
    if negb (Z.land (bval c) k =? k) then Decoded 1 (Some (Z.land (bval c) k)) 0 true else
    match groups l with
    | Some (v, m) =>
        if (m <=? 5)%nat && (k + v <=? UINT32_MAX)
        then Decoded (1 + Z.of_nat m) (Some (k + v)) (7 * Z.of_nat (m - 1)) true else Decoded (-1) None 0 false
    | None =>
        if (length l <=? 5)%nat && (k + partial l <=? UINT32_MAX)
        then Decoded (1 + Z.of_nat (length l)) (Some (k + partial l)) (7 * Z.of_nat (length l)) false
        else Decoded (-1) None 0 false
    end).
Proof. intros Hp. apply (decode_length_spec c l prefix Hp). Qed.

(** An integer comes back from its encoding: [encode_length] writes as many
    bytes as [count_encoded_length] says, at most six, keeps the bits above the
    prefix of the first byte and all of the memory behind, and [decode_length]
    reads the same integer back, whatever bytes follow. *)
Theorem length_roundtrip c rest n prefix : 1 <= prefix <= 8 -> 0 <= n <= UINT32_MAX -> (5 <= length rest)%nat ->
  exists (len : nat) m, (1 <= len <= 6)%nat /\ count_encoded_length n prefix = Some (Z.of_nat len) /\
    encode_length (c :: rest) n prefix = Some (Z.of_nat len, m) /\ drop len m = drop len (c :: rest) /\
    (exists c', m !! 0%nat = Some c' /\ Z.land (bval c') (255 - prefix_mask prefix) = Z.land (bval c) (255 - prefix_mask prefix)) /\
    forall more, exists shift, decode_length 0 0 (take len m ++ more) prefix = Some (Decoded (Z.of_nat len) (Some n) shift true).
Proof.
  intros Hp Hn Hr. destruct (encoded_length c n prefix Hp Hn) as [Hlen Hcount].
  pose proof (encode_length_spec (c :: rest) c rest n prefix Hp Hn eq_refl ltac:(cbn [length]; lia)) as He.
  set (e := encoded c n prefix) in *. exists (length e), (e ++ drop (length e) (c :: rest)).
  split; [done|]. split; [done|]. split; [done|]. split; [apply drop_app_length|]. rewrite take_app_length.
  pose proof (mask_facts prefix Hp) as H. cbv zeta in H. unfold encoded in e. set (k := prefix_mask prefix) in *.
  destruct H as (H1 & _). destruct (Z.ltb_spec n k) as [Hlt|Hge].
  - destruct (first_byte_spec c prefix n Hp ltac:(fold k; lia)) as [Hlow Hhigh]. fold k in Hlow, Hhigh. split; [by eexists|].
    intros more. exists 0. unfold e. cbn [app]. rewrite decode_length_spec by done. unfold int_spec. fold k. rewrite Hlow.
    destruct (Z.eqb_spec n k); [lia|done].
  - destruct (first_byte_spec c prefix k Hp ltac:(fold k; lia)) as [Hlow Hhigh]. fold k in Hlow, Hhigh. split; [by eexists|].
    intros more. eexists. unfold e. cbn [app]. rewrite decode_length_spec by done. unfold int_spec. fold k. rewrite Hlow, Z.eqb_refl. cbn [negb].
    rewrite groups_of_bytes.
    2: { unfold fueled, groups_fuel. change (128 ^ Z.of_nat 6) with 4398046511104. unfold UINT32_MAX in Hn. lia. }
    unfold e in Hlen. cbn [length] in Hlen. unfold fits. rewrite (proj2 (Nat.leb_le _ _)) by lia.
    rewrite (proj2 (Z.leb_le _ _)) by lia. cbn [andb length]. do 2 f_equal; [lia|f_equal; lia].
Qed.

(** The input may be cut anywhere behind its first byte: decoding the pieces,
    with the value and the shift of the first as the start of the second, is
    decoding the whole; a first piece that finishes or fails does so whatever
    follows. *)
Theorem decode_length_in_pieces initial shift a b prefix : 1 <= prefix <= 8 -> 0 <= initial <= UINT32_MAX ->
  (initial = 0 -> shift = 0) -> a <> [] ->
  exists d, decode_length initial shift a prefix = Some d /\
    decode_length initial shift (a ++ b) prefix =
      if d_fin d then Some d else
      match d_res d with
      | None => Some d
      | Some v => advance (d_rv d) <$> decode_length v (d_shift d) b prefix
      end.
Proof.
  intros Hp Hi H0 Ha. pose proof (mask_facts prefix Hp) as H. cbv zeta in H. unfold decode_length.
  set (k := prefix_mask prefix) in *. destruct H as (H1 & _ & _ & _ & _ & _ & H7 & _). rewrite H7.
  assert (Hgo : forall l n s u, 0 < n <= UINT32_MAX -> let d := decode_groups l n s u in
    Some (decode_groups (l ++ b) n s u) =
      if d_fin d then Some d else
      match d_res d with
      | None => Some d
      | Some v => advance (d_rv d) <$> (if v =? 0 then
          match b with
          | [] => None
          | c :: l => if negb (Z.land (bval c) k =? k) then Some (Decoded 1 (Some (Z.land (bval c) k)) 0 true) else
              match l with [] => Some (Decoded 1 (Some k) 0 false) | _ => Some (decode_groups l k (d_shift d) 1) end
          end else Some (decode_groups b v (d_shift d) 0))
      end).
  { intros l n s u Hn d. rewrite decode_groups_app. fold d. cbv zeta. pose proof (decode_groups_pos l n s u Hn) as Hv. fold d in Hv.
    destruct (d_fin d); [done|]. destruct (d_res d) as [v|]; [|done]. destruct (Z.eqb_spec v 0); [lia|].
    cbn. f_equal. rewrite <- decode_groups_used. by rewrite Z.add_0_r. }
  destruct (Z.eqb_spec initial 0) as [->|Hne].
  - rewrite (H0 eq_refl). destruct a as [|c a]; [done|]. cbn [app].
    destruct (negb (Z.land (bval c) k =? k)); [by eexists|].
    destruct a as [|c2 a].
    + eexists. split; [reflexivity|]. cbn [app d_fin d_res d_rv d_shift].
      specialize (Hgo [] k 0 1 ltac:(unfold UINT32_MAX; lia)). cbn [decode_groups app d_fin d_res d_rv d_shift] in Hgo. rewrite <- Hgo.
      by destruct b.
    + eexists. split; [reflexivity|]. cbn [app]. apply (Hgo (c2 :: a)). unfold UINT32_MAX. lia.
  - eexists. split; [reflexivity|]. apply Hgo. lia.
Qed.

(** *** Witnesses *)

(** 1337 with a prefix of five bits, from RFC 7541, appendix C.1.2. *)
Example encode_1337 : encode_length (zeros 16) 1337 5 = Some (3, map uint8 [31; 154; 10] ++ zeros 13).
Proof. vm_compute. reflexivity. Qed.

Lemma decode_length_correct_witness :
  decode_length 0 0 (map uint8 [31; 154; 10; 7]) 5 = Some (Decoded 3 (Some 1337) 7 true).
Proof. change (map uint8 [31; 154; 10; 7]) with (uint8 31 :: map uint8 [154; 10; 7]). rewrite decode_length_correct by lia. vm_compute. reflexivity. Defined.

Lemma length_roundtrip_witness :
  exists (len : nat) m, (1 <= len <= 6)%nat /\ count_encoded_length UINT32_MAX 7 = Some (Z.of_nat len) /\
    encode_length (uint8 128 :: zeros 15) UINT32_MAX 7 = Some (Z.of_nat len, m) /\ drop len m = drop len (uint8 128 :: zeros 15) /\
    (exists c', m !! 0%nat = Some c' /\ Z.land (bval c') (255 - prefix_mask 7) = Z.land (bval (uint8 128)) (255 - prefix_mask 7)) /\
    forall more, exists shift, decode_length 0 0 (take len m ++ more) 7 = Some (Decoded (Z.of_nat len) (Some UINT32_MAX) shift true).
Proof. apply (length_roundtrip (uint8 128) (zeros 15) UINT32_MAX 7); [lia|unfold UINT32_MAX; lia|cbn; lia]. Defined.

Lemma decode_length_in_pieces_witness :
  exists d, decode_length 0 0 [uint8 31] 5 = Some d /\
    decode_length 0 0 ([uint8 31] ++ [uint8 154; uint8 10]) 5 =
      if d_fin d then Some d else
      match d_res d with
      | None => Some d
      | Some v => advance (d_rv d) <$> decode_length v (d_shift d) [uint8 154; uint8 10] 5
      end.
Proof. apply (decode_length_in_pieces 0 0 [uint8 31] [uint8 154; uint8 10] 5); [lia|unfold UINT32_MAX; lia|done|done]. Defined.
