(* ===== verification/Pq.v ===== *)
(** * The priority queue of nghttp2: [nghttp2_pq.c]

    A binary heap of pointers to entries that are part of the objects of the
    caller.  Every entry carries its own position in the heap, so that it can be
    removed from the middle: the positions live in the objects, which are shared
    with the caller, and are modelled as a store from pointers to positions.

    [less] is the comparison the queue is created with; [realloc] comes from
    NgBuf.v.  Reading or writing outside the array, an entry without position and
    a failing [assert] make the result [None]. *)

From stdpp Require Import gmap list.
From S2P Require Import Prelude NgBuf.

(** The address of an entry. *)
Abbreviation ptr := Z.

(** [q] are the [capacity] slots of the array. *)
Record nghttp2_pq := Pq { q : list ptr; length : nat; capacity : nat }.

Abbreviation size := List.length.

(** The field [index] of the entries. *)
Abbreviation indexes := (gmap ptr nat).

Definition nghttp2_pq_init : nghttp2_pq := Pq [] 0 0.

Definition nghttp2_pq_free (pq : nghttp2_pq) (m : nghttp2_mem) : nghttp2_pq * nghttp2_mem :=
  (Pq [] (length pq) (capacity pq), free m (capacity pq =? 0)%nat).

Definition set_q (l : list ptr) (pq : nghttp2_pq) : nghttp2_pq := Pq l (length pq) (capacity pq).
Definition set_length (n : nat) (pq : nghttp2_pq) : nghttp2_pq := Pq (q pq) n (capacity pq).

(** [pq->q[i] = x] *)
Definition set_slot (i : nat) (x : ptr) (pq : nghttp2_pq) : option nghttp2_pq :=
  if (i <? size (q pq))%nat then Some (set_q (<[i := x]> (q pq)) pq) else None.

Definition swap (pq : nghttp2_pq) (ix : indexes) (i j : nat) : option (nghttp2_pq * indexes) :=
  a ← q pq !! i;
  b ← q pq !! j;
  pq ← set_slot i b pq;
  let ix := <[b := i]> ix in
  pq ← set_slot j a pq;
  let ix := <[a := j]> ix in
  Some (pq, ix).

Definition nghttp2_pq_top (pq : nghttp2_pq) : option (option ptr) :=
  if (length pq =? 0)%nat then Some None else Some <$> q pq !! 0%nat.

Definition nghttp2_pq_empty (pq : nghttp2_pq) : bool := (length pq =? 0)%nat.
Definition nghttp2_pq_size (pq : nghttp2_pq) : nat := length pq.

Section Less.
Context (less : ptr -> ptr -> bool).

(** [while (index != 0)]; the index gets smaller in every turn. *)
Fixpoint bubble_up_loop (fuel : nat) (pq : nghttp2_pq) (ix : indexes) (index : nat) : option (nghttp2_pq * indexes) :=
  match fuel with
  | O => None
  | S fuel =>
      if (index =? 0)%nat then Some (pq, ix) else
      let parent := ((index - 1) / 2)%nat in
      x ← q pq !! index;
      y ← q pq !! parent;
      if negb (less x y) then Some (pq, ix) else
      '(pq, ix) ← swap pq ix parent index;
      bubble_up_loop fuel pq ix parent
  end.

Definition bubble_up (pq : nghttp2_pq) (ix : indexes) (index : nat) := bubble_up_loop (S index) pq ix index.

(** The loop over the two children: [for (i = 0; i < 2; ++i, ++j)]. *)
Fixpoint min_child (n : nat) (pq : nghttp2_pq) (j minindex : nat) : option nat :=
  match n with
  | O => Some minindex
  | S n =>
      if (length pq <=? j)%nat then Some minindex else
      x ← q pq !! j;
      y ← q pq !! minindex;
      min_child n pq (S j) (if less x y then j else minindex)
  end.

(** [for (;;)]; the index gets larger in every turn. *)
Fixpoint bubble_down_loop (fuel : nat) (pq : nghttp2_pq) (ix : indexes) (index : nat) : option (nghttp2_pq * indexes) :=
  match fuel with
  | O => None
  | S fuel =>
      minindex ← min_child 2 pq (index * 2 + 1) index;
      if (minindex =? index)%nat then Some (pq, ix) else
      '(pq, ix) ← swap pq ix index minindex;
      bubble_down_loop fuel pq ix minindex
  end.

Definition bubble_down (pq : nghttp2_pq) (ix : indexes) (index : nat) := bubble_down_loop (S (length pq - index)) pq ix index.

Definition nghttp2_pq_pop (pq : nghttp2_pq) (ix : indexes) : option (nghttp2_pq * indexes) :=
  if (0 <? length pq)%nat then
    x ← q pq !! (length pq - 1)%nat;
    pq ← set_slot 0 x pq;
    let ix := <[x := 0%nat]> ix in
    bubble_down (set_length (length pq - 1) pq) ix 0
  else Some (pq, ix).

Definition nghttp2_pq_remove (pq : nghttp2_pq) (ix : indexes) (item : ptr) : option (nghttp2_pq * indexes) :=
  i ← ix !! item;
  x ← q pq !! i;
  if negb (x =? item) then None else
  if (i =? 0)%nat then nghttp2_pq_pop pq ix else
  if (i =? length pq - 1)%nat then Some (set_length (length pq - 1) pq, ix) else
  y ← q pq !! (length pq - 1)%nat;
  pq ← set_slot i y pq;
  let ix := <[y := i]> ix in
  let pq := set_length (length pq - 1) pq in
  if less item y then bubble_down pq ix i else bubble_up pq ix i.

Section Push.
Context (malloc_ok : nat -> bool) (junk : nat -> ptr).

(** New slots hold [junk]. *)
Definition nghttp2_pq_push (pq : nghttp2_pq) (ix : indexes) (item : ptr) (m : nghttp2_mem)
  : option (Z * nghttp2_pq * indexes * nghttp2_mem) :=
  let '(rv, pq, m) :=
    if (capacity pq <=? length pq)%nat then
      let ncapacity := Nat.max 4 (capacity pq * 2) in
      let '(ok, m) := realloc malloc_ok m (capacity pq =? 0)%nat in
      if negb ok then (NGHTTP2_ERR_NOMEM, pq, m)
      else (0, Pq (q pq ++ map junk (seq (capacity pq) (ncapacity - capacity pq))) (length pq) ncapacity, m)
    else (0, pq, m) in
  if negb (rv =? 0) then Some (rv, pq, ix, m) else
  pq ← set_slot (length pq) item pq;
  let ix := <[item := length pq]> ix in
  let pq := set_length (S (length pq)) pq in
  '(pq, ix) ← bubble_up pq ix (length pq - 1);
  Some (0, pq, ix, m).
End Push.

End Less.

(** ** The operations with a callback

    [fun] may change the objects of the caller, whose state is [S]; the order is
    that of the state. *)
Section Callback.
Context {S : Type} (less : S -> ptr -> ptr -> bool) (func : ptr -> S -> Z * S).

(** [for (i = 0; i < pq->length; ++i)], with [rv |= fun(pq->q[i], arg)]. *)
Fixpoint update_items (items : list ptr) (rv : Z) (s : S) : Z * S :=
  match items with
  | [] => (rv, s)
  | x :: items => let '(r, s) := func x s in update_items items (Z.lor rv r) s
  end.

(** [for (i = pq->length; i > 0; --i) bubble_down(pq, i - 1);] *)
Fixpoint rebuild (i : nat) (s : S) (pq : nghttp2_pq) (ix : indexes) : option (nghttp2_pq * indexes) :=
  match i with
  | O => Some (pq, ix)
  | Datatypes.S i => '(pq, ix) ← bubble_down (less s) pq ix i; rebuild i s pq ix
  end.

Definition nghttp2_pq_update (pq : nghttp2_pq) (ix : indexes) (s : S) : option (nghttp2_pq * indexes * S) :=
  if (length pq =? 0)%nat then Some (pq, ix, s) else
  let '(rv, s) := update_items (take (length pq) (q pq)) 0 s in
  if negb (rv =? 0) then '(pq, ix) ← rebuild (length pq) s pq ix; Some (pq, ix, s)
  else Some (pq, ix, s).

Fixpoint each_items (items : list ptr) (s : S) : Z * S :=
  match items with
  | [] => (0, s)
  | x :: items => let '(r, s) := func x s in if negb (r =? 0) then (1, s) else each_items items s
  end.

Definition nghttp2_pq_each (pq : nghttp2_pq) (s : S) : Z * S :=
  if (length pq =? 0)%nat then (0, s) else each_items (take (length pq) (q pq)) s.

End Callback.
