(* ===== verification/PqSpec.v ===== *)
(** * The priority queue: heap order and permutation

    The array is a heap for any comparison that is a strict weak order on the
    items in the queue; every operation keeps that, the positions kept in the
    entries, and the items but the one it adds or takes away. *)

From Stdlib Require Import Sorted.
From stdpp Require Import gmap list.
From S2P Require Import Prelude NgBuf Pq.

(** ** Positions in the tree *)

Definition par (j : nat) : nat := ((j - 1) / 2)%nat.

Lemma par_spec j : (0 < j)%nat -> j = (2 * par j + 1)%nat \/ j = (2 * par j + 2)%nat.
Proof.
  intros Hj. unfold par. pose proof (Nat.div_mod (j - 1) 2). pose proof (Nat.mod_upper_bound (j - 1) 2). lia.
Qed.

Lemma par_child i j : j = (2 * i + 1)%nat \/ j = (2 * i + 2)%nat -> par j = i.
Proof. intros H. destruct (par_spec j); lia. Qed.

Lemma par_lt j : (0 < j)%nat -> (par j < j)%nat.
Proof. intros H. destruct (par_spec j); lia. Qed.

(** ** Exchanging two items *)

Definition exch (l : list ptr) (i j : nat) : list ptr := <[j := l !!! i]> (<[i := l !!! j]> l).

Lemma exch_length l i j : size (exch l i j) = size l.
Proof. unfold exch. by rewrite !length_insert. Qed.

Lemma exch_lookup l i j k : (i < size l)%nat -> (j < size l)%nat -> i <> j ->
  exch l i j !!! k = if (k =? i)%nat then l !!! j else if (k =? j)%nat then l !!! i else l !!! k.
Proof.
  intros Hi Hj Hne. unfold exch. destruct (Nat.eqb_spec k i) as [->|Hki].
  - rewrite list_lookup_total_insert_ne by done. by rewrite list_lookup_total_insert_eq.
  - destruct (Nat.eqb_spec k j) as [->|Hkj].
    + rewrite list_lookup_total_insert_eq; [done|]. by rewrite length_insert.
    + by rewrite !list_lookup_total_insert_ne.
Qed.

Lemma lookup_total_Some (l : list ptr) i : (i < size l)%nat -> l !! i = Some (l !!! i).
Proof. apply list_lookup_lookup_total_lt. Qed.

Lemma exch_perm l i j : (i < size l)%nat -> (j < size l)%nat -> i <> j -> exch l i j ≡ₚ l.
Proof.
  intros Hi Hj Hne. apply Permutation_inj. split; [apply exch_length|].
  exists (fun k => if (k =? i)%nat then j else if (k =? j)%nat then i else k). split.
  - intros a b. destruct (Nat.eqb_spec a i), (Nat.eqb_spec b i), (Nat.eqb_spec a j), (Nat.eqb_spec b j); lia.
  - intros k. destruct (decide (k < size l)%nat) as [Hk|Hk].
    + rewrite lookup_total_Some by (by rewrite exch_length). rewrite exch_lookup by done.
      destruct (Nat.eqb_spec k i) as [->|]; [symmetry; by apply lookup_total_Some|].
      destruct (Nat.eqb_spec k j) as [->|]; symmetry; by apply lookup_total_Some.
    + rewrite lookup_ge_None_2 by (rewrite exch_length; lia). destruct (Nat.eqb_spec k i); [lia|].
      destruct (Nat.eqb_spec k j); [lia|]. symmetry. apply lookup_ge_None_2. lia.
Qed.

(** ** The queue and the positions *)

(** The items in the queue. *)
Definition items (pq : nghttp2_pq) : list ptr := take (length pq) (q pq).

(** Every item knows its position. *)
Definition indexed (l : list ptr) (ix : indexes) : Prop := forall i x, l !! i = Some x -> ix !! x = Some i.

Record good (pq : nghttp2_pq) (ix : indexes) : Prop := {
  good_length : (length pq <= size (q pq))%nat;
  good_capacity : size (q pq) = capacity pq;
  good_index : indexed (items pq) ix
}.

(** What moving items around leaves alone. *)
Record moved (pq : nghttp2_pq) (ix : indexes) (pq' : nghttp2_pq) (ix' : indexes) : Prop := {
  moved_good : good pq' ix';
  moved_length : length pq' = length pq;
  moved_capacity : capacity pq' = capacity pq;
  moved_perm : items pq' ≡ₚ items pq;
  moved_outside : forall x, x ∉ items pq -> ix' !! x = ix !! x
}.

Lemma items_size pq ix : good pq ix -> size (items pq) = length pq.
Proof. intros G. unfold items. rewrite length_take. pose proof (good_length pq ix G). lia. Qed.

Lemma items_lookup pq ix i : good pq ix -> (i < length pq)%nat -> q pq !! i = Some (items pq !!! i).
Proof.
  intros G Hi. rewrite <- lookup_total_Some by (by rewrite (items_size pq ix)). unfold items. by rewrite lookup_take_lt.
Qed.

Lemma indexed_inj l ix i j x : indexed l ix -> l !! i = Some x -> l !! j = Some x -> i = j.
Proof. intros H H1 H2. apply H in H1, H2. congruence. Qed.

Lemma indexed_NoDup l ix : indexed l ix -> NoDup l.
Proof. intros H. apply NoDup_alt. intros i j x. by apply (indexed_inj l ix). Qed.

Lemma moved_refl pq ix : good pq ix -> moved pq ix pq ix.
Proof. intros G. by constructor. Qed.

Lemma moved_trans p1 i1 p2 i2 p3 i3 : moved p1 i1 p2 i2 -> moved p2 i2 p3 i3 -> moved p1 i1 p3 i3.
Proof.
  intros [A1 A2 A3 A4 A5] [B1 B2 B3 B4 B5]. constructor; [done|congruence|congruence|by rewrite B4|].
  intros x Hx. rewrite B5, A5; [done|done|]. by rewrite A4.
Qed.

Lemma swap_spec pq ix i j : good pq ix -> (i < length pq)%nat -> (j < length pq)%nat -> i <> j ->
  exists pq' ix', swap pq ix i j = Some (pq', ix') /\ moved pq ix pq' ix' /\ items pq' = exch (items pq) i j.
Proof.
  intros G Hi Hj Hne. pose proof (good_length pq ix G) as Hl. pose proof (items_size pq ix G) as Hs.
  unfold swap. rewrite (items_lookup pq ix i G Hi), (items_lookup pq ix j G Hj). cbn [mbind option_bind].
  unfold set_slot. rewrite (proj2 (Nat.ltb_lt _ _)) by lia. cbn [mbind option_bind set_q q].
  rewrite (proj2 (Nat.ltb_lt _ _)) by (rewrite length_insert; lia). cbn [mbind option_bind].
  set (a := items pq !!! i). set (b := items pq !!! j).
  eexists _, _. split; [reflexivity|].
  assert (Hit : items (set_q (<[j:=a]> (<[i:=b]> (q pq))) (set_q (<[i:=b]> (q pq)) pq)) = exch (items pq) i j).
  { unfold items at 1. cbn. unfold exch. fold a b. rewrite !take_insert_lt by done. done. }
  split; [|done]. constructor.
  - constructor.
    + cbn. by rewrite !length_insert.
    + cbn. rewrite !length_insert. apply (good_capacity pq ix G).
    + rewrite Hit. intros k x Hk. pose proof (lookup_lt_Some _ _ _ Hk) as Hks. rewrite exch_length in Hks.
      rewrite lookup_total_Some in Hk by (by rewrite exch_length). injection Hk as <-. rewrite exch_lookup by lia. fold a b.
      assert (Hab : a <> b).
      { intros E. apply Hne. apply (indexed_inj (items pq) ix i j a (good_index pq ix G)); [|rewrite E]; apply lookup_total_Some; lia. }
      destruct (Nat.eqb_spec k i) as [->|]; [rewrite lookup_insert_ne by done; by rewrite lookup_insert_eq|].
      destruct (Nat.eqb_spec k j) as [->|]; [by rewrite lookup_insert_eq|].
      assert (Hk' : items pq !! k = Some (items pq !!! k)) by (apply lookup_total_Some; lia).
      rewrite !lookup_insert_ne; [by apply (good_index pq ix G)|..]; intros E.
      * apply n0. symmetry. apply (indexed_inj (items pq) ix j k b (good_index pq ix G)); [apply lookup_total_Some; lia|]. by rewrite E.
      * apply n. symmetry. apply (indexed_inj (items pq) ix i k a (good_index pq ix G)); [apply lookup_total_Some; lia|]. by rewrite E.
  - done.
  - done.
  - rewrite Hit. apply exch_perm; lia.
  - intros x Hx. assert (a ∈ items pq) by (apply (list_elem_of_lookup_2 _ i), lookup_total_Some; lia).
    assert (b ∈ items pq) by (apply (list_elem_of_lookup_2 _ j), lookup_total_Some; lia).
    rewrite !lookup_insert_ne; [done|congruence|congruence].
Qed.

(** ** The heap *)

Section Order.
Context (less : ptr -> ptr -> bool) (D : ptr -> Prop).

(** [x] may come before [y]. *)
Definition le (x y : ptr) : Prop := less y x = false.

(** On the items that satisfy [D], [less] is a strict weak order. *)
Record weak_order : Prop := {
  wo_asym : forall x y, D x -> D y -> less x y = true -> less y x = false;
  wo_trans : forall x y z, D x -> D y -> D z -> le x y -> le y z -> le x z
}.

Context (W : weak_order).

Lemma le_refl x : D x -> le x x.
Proof. intros Hx. unfold le. destruct (less x x) eqn:E; [|done]. pose proof (wo_asym W x x Hx Hx E). congruence. Qed.

Lemma less_le x y : D x -> D y -> less x y = true -> le x y.
Proof. intros Hx Hy H. by apply (wo_asym W). Qed.

(** Below [lo] nothing is said. *)
Definition heap_from (lo : nat) (l : list ptr) : Prop :=
  forall j, (0 < j < size l)%nat -> (lo <= par j)%nat -> le (l !!! par j) (l !!! j).

(** A heap but for the item [i], which may be too large for its place, *)
Definition heap_above (lo i : nat) (l : list ptr) : Prop :=
  (forall j, (0 < j < size l)%nat -> (lo <= par j)%nat -> par j <> i -> le (l !!! par j) (l !!! j)) /\
  (forall j, (0 < j < size l)%nat -> par j = i -> (0 < i)%nat -> (lo <= par i)%nat -> le (l !!! par i) (l !!! j)).

(** or too small. *)
Definition heap_below (i : nat) (l : list ptr) : Prop :=
  (forall j, (0 < j < size l)%nat -> j <> i -> le (l !!! par j) (l !!! j)) /\
  (forall j, (0 < j < size l)%nat -> par j = i -> (0 < i)%nat -> le (l !!! par i) (l !!! j)).

Lemma D_lookup l i : Forall D l -> (i < size l)%nat -> D (l !!! i).
Proof. intros H Hi. apply (Forall_lookup_1 D l i); [done|by apply lookup_total_Some]. Qed.

(** The smallest of an item and its children. *)
Lemma min_child_spec pq ix i : good pq ix -> Forall D (items pq) -> (i < length pq)%nat ->
  exists m, min_child less 2 pq (i * 2 + 1) i = Some m /\ (m < length pq)%nat /\
    (forall j, (0 < j < length pq)%nat -> par j = i -> le (items pq !!! m) (items pq !!! j)) /\
    (m = i \/ (par m = i /\ (i < m)%nat /\ less (items pq !!! m) (items pq !!! i) = true)).
Proof.
  intros G HD Hi. pose proof (items_size pq ix G) as Hs.
  assert (HDl : forall k, (k < length pq)%nat -> D (items pq !!! k)) by (intros; apply D_lookup; [done|lia]).
  assert (Hch : forall j, (0 < j)%nat -> par j = i -> j = (i * 2 + 1)%nat \/ j = S (i * 2 + 1)).
  { intros j Hj E. destruct (par_spec j Hj); lia. }
  assert (Hp1 : par (i * 2 + 1) = i) by (apply par_child; lia).
  assert (Hp2 : par (S (i * 2 + 1)) = i) by (apply par_child; lia).
  cbn [min_child]. destruct (Nat.leb_spec (length pq) (i * 2 + 1)) as [H1|H1].
  { exists i. split; [done|]. split; [done|]. split; [|by left]. intros j Hj E. destruct (Hch j) as [->| ->]; [lia|done|lia|lia]. }
  rewrite (items_lookup pq ix _ G H1), (items_lookup pq ix i G Hi). cbn [mbind option_bind].
  set (c1 := (i * 2 + 1)%nat) in *. set (c2 := S c1) in *.
  set (m1 := if less (items pq !!! c1) (items pq !!! i) then c1 else i).
  assert (Hm1 : (m1 < length pq)%nat /\ le (items pq !!! m1) (items pq !!! c1) /\ le (items pq !!! m1) (items pq !!! i) /\
    (m1 = i \/ (m1 = c1 /\ less (items pq !!! m1) (items pq !!! i) = true))).
  { unfold m1. destruct (less (items pq !!! c1) (items pq !!! i)) eqn:E.
    - split; [lia|]. split; [by apply le_refl, HDl|]. split; [by apply less_le; [apply HDl|apply HDl|]|]. by right.
    - split; [lia|]. split; [done|]. split; [by apply le_refl, HDl|]. by left. }
  clearbody m1. destruct Hm1 as (Hlt & Hle1 & Hlei & Hm1).
  destruct (Nat.leb_spec (length pq) c2) as [H2|H2].
  { exists m1. split; [done|]. split; [done|]. split.
    - intros j Hj E. destruct (Hch j) as [->| ->]; [lia|done|done|lia].
    - destruct Hm1 as [->|[E Hl]]; [by left|right]. rewrite E in *. split; [done|]. split; [lia|done]. }
  rewrite (items_lookup pq ix _ G H2), (items_lookup pq ix m1 G Hlt). cbn [mbind option_bind].
  destruct (less (items pq !!! c2) (items pq !!! m1)) eqn:E.
  - exists c2. split; [done|]. split; [done|].
    assert (Hle2 : le (items pq !!! c2) (items pq !!! m1)) by (apply less_le; [by apply HDl|by apply HDl|done]).
    split.
    + intros j Hj Ej. destruct (Hch j) as [->| ->]; [lia|done| |by apply le_refl, HDl].
      apply (wo_trans W _ (items pq !!! m1)); [by apply HDl|by apply HDl|by apply HDl|done|done].
    + right. split; [done|]. split; [lia|]. destruct Hm1 as [<-|[-> Hl]]; [done|].
      destruct (less (items pq !!! c2) (items pq !!! i)) eqn:E2; [done|]. exfalso.
      assert (Hlei2 : le (items pq !!! i) (items pq !!! c1)).
      { apply (wo_trans W _ (items pq !!! c2)); [by apply HDl|by apply HDl|by apply HDl|done|done]. }
      unfold le in Hlei2. congruence.
  - exists m1. split; [done|]. split; [done|]. split.
    + intros j Hj Ej. destruct (Hch j) as [->| ->]; [lia|done|done|done].
    + destruct Hm1 as [->|[E1 Hl]]; [by left|right]. rewrite E1 in *. split; [done|]. split; [lia|done].
Qed.

Lemma bubble_down_loop_spec fuel : forall pq ix lo i, good pq ix -> Forall D (items pq) -> (lo <= i)%nat ->
  (length pq - i < fuel)%nat -> heap_above lo i (items pq) ->
  exists pq' ix', bubble_down_loop less fuel pq ix i = Some (pq', ix') /\ moved pq ix pq' ix' /\ heap_from lo (items pq').
Proof.
  induction fuel as [|fuel IH]; intros pq ix lo i G HD Hlo Hf [HA HB]; [lia|]. cbn [bubble_down_loop].
  pose proof (items_size pq ix G) as Hs.
  destruct (decide (i < length pq)%nat) as [Hi|Hi].
  2: { cbn [min_child]. rewrite (proj2 (Nat.leb_le _ _)) by lia. cbn [mbind option_bind]. rewrite Nat.eqb_refl.
       exists pq, ix. split; [done|]. split; [by apply moved_refl|]. intros j Hj Hp. apply HA; [done|done|]. pose proof (par_lt j). lia. }
  destruct (min_child_spec pq ix i G HD Hi) as (m & -> & Hm & Hmin & Hcase). cbn [mbind option_bind].
  destruct (Nat.eqb_spec m i) as [->|Hne].
  { exists pq, ix. split; [done|]. split; [by apply moved_refl|]. intros j Hj Hp.
    destruct (decide (par j = i)) as [E|E]; [rewrite E; apply Hmin; [lia|done]|by apply HA]. }
  destruct Hcase as [->|(Hpar & Him & Hless)]; [done|].
  destruct (swap_spec pq ix i m G Hi Hm ltac:(done)) as (p1 & i1 & -> & M & Hit). cbn [mbind option_bind].
  pose proof (moved_good _ _ _ _ M) as G1. pose proof (moved_length _ _ _ _ M) as L1.
  assert (HD1 : Forall D (items p1)) by (by rewrite (moved_perm _ _ _ _ M)).
  assert (Hx : forall k, items p1 !!! k = if (k =? i)%nat then items pq !!! m else if (k =? m)%nat then items pq !!! i else items pq !!! k).
  { intros k. rewrite Hit. apply exch_lookup; lia. }
  assert (Hs1 : size (items p1) = length pq) by (rewrite Hit, exch_length; done).
  assert (HDl : forall k, (k < length pq)%nat -> D (items pq !!! k)) by (intros; apply D_lookup; [done|lia]).
  destruct (IH p1 i1 lo m G1 HD1) as (p2 & i2 & E2 & M2 & H2); [lia|lia| |].
  2: { exists p2, i2. split; [done|]. split; [by apply (moved_trans _ _ _ _ _ _ M M2)|done]. }
  split.
  - intros j Hj Hp Hpm. rewrite Hs1 in Hj. pose proof (par_lt j ltac:(lia)) as Hpl. rewrite !Hx.
    destruct (Nat.eqb_spec (par j) m); [done|]. destruct (Nat.eqb_spec (par j) i) as [Epi|Epi].
    + destruct (Nat.eqb_spec j i); [lia|]. destruct (Nat.eqb_spec j m) as [->|].
      * by apply less_le; [apply HDl|apply HDl|].
      * by apply Hmin; [lia|].
    + destruct (Nat.eqb_spec j i) as [->|].
      * apply HB; [lia|done|lia|lia].
      * destruct (Nat.eqb_spec j m) as [->|]; [done|]. apply HA; [lia|done|done].
  - intros j Hj Epj Hm0 Hlop. rewrite Hs1 in Hj. pose proof (par_lt j ltac:(lia)) as Hpl. rewrite Hpar in *. rewrite !Hx.
    rewrite Nat.eqb_refl. destruct (Nat.eqb_spec j i); [lia|]. destruct (Nat.eqb_spec j m); [lia|].
    rewrite <- Epj. apply HA; [lia|lia|lia].
Qed.

Lemma bubble_down_spec pq ix lo i : good pq ix -> Forall D (items pq) -> (lo <= i)%nat -> heap_above lo i (items pq) ->
  exists pq' ix', bubble_down less pq ix i = Some (pq', ix') /\ moved pq ix pq' ix' /\ heap_from lo (items pq').
Proof. intros G HD Hlo H. apply bubble_down_loop_spec; [done|done|done|lia|done]. Qed.

Lemma bubble_up_loop_spec fuel : forall pq ix i, good pq ix -> Forall D (items pq) -> (i < length pq)%nat -> (i < fuel)%nat ->
  heap_below i (items pq) ->
  exists pq' ix', bubble_up_loop less fuel pq ix i = Some (pq', ix') /\ moved pq ix pq' ix' /\ heap_from 0 (items pq').
Proof.
  induction fuel as [|fuel IH]; intros pq ix i G HD Hi Hf [HA HB]; [lia|]. cbn [bubble_up_loop].
  pose proof (items_size pq ix G) as Hs.
  destruct (Nat.eqb_spec i 0) as [->|Hi0].
  { exists pq, ix. split; [done|]. split; [by apply moved_refl|]. intros j Hj _. apply HA; [done|lia]. }
  fold (par i). pose proof (par_lt i ltac:(lia)) as Hpl. set (p := par i) in *.
  rewrite (items_lookup pq ix i G Hi), (items_lookup pq ix p G ltac:(lia)). cbn [mbind option_bind].
  assert (HDl : forall k, (k < length pq)%nat -> D (items pq !!! k)) by (intros; apply D_lookup; [done|lia]).
  destruct (less (items pq !!! i) (items pq !!! p)) eqn:E; cbn [negb].
  2: { exists pq, ix. split; [done|]. split; [by apply moved_refl|]. intros j Hj _.
       destruct (decide (j = i)) as [->|]; [exact E|by apply HA]. }
  destruct (swap_spec pq ix p i G ltac:(lia) Hi ltac:(lia)) as (p1 & i1 & -> & M & Hit). cbn [mbind option_bind].
  pose proof (moved_good _ _ _ _ M) as G1. pose proof (moved_length _ _ _ _ M) as L1.
  assert (HD1 : Forall D (items p1)) by (by rewrite (moved_perm _ _ _ _ M)).
  assert (Hx : forall k, items p1 !!! k = if (k =? p)%nat then items pq !!! i else if (k =? i)%nat then items pq !!! p else items pq !!! k).
  { intros k. rewrite Hit. apply exch_lookup; lia. }
  assert (Hs1 : size (items p1) = length pq) by (rewrite Hit, exch_length; done).
  assert (Hip : le (items pq !!! i) (items pq !!! p)) by (apply less_le; [by apply HDl|apply HDl; lia|done]).
  destruct (IH p1 i1 p G1 HD1) as (p2 & i2 & E2 & M2 & H2); [lia|lia| |].
  2: { exists p2, i2. split; [done|]. split; [by apply (moved_trans _ _ _ _ _ _ M M2)|done]. }
  split.
  - intros j Hj Hjp. rewrite Hs1 in Hj. pose proof (par_lt j ltac:(lia)) as Hpj. rewrite !Hx.
    destruct (Nat.eqb_spec j p); [done|]. destruct (Nat.eqb_spec (par j) p) as [Epp|Epp].
    + destruct (Nat.eqb_spec j i) as [->|]; [done|].
      apply (wo_trans W _ (items pq !!! p)); [by apply HDl|apply HDl; lia|apply HDl; lia|done|]. rewrite <- Epp. apply HA; [lia|done].
    + destruct (Nat.eqb_spec j i) as [->|]; [done|]. destruct (Nat.eqb_spec (par j) i) as [Epi|Epi].
      * apply HB; [lia|done|lia].
      * apply HA; [lia|done].
  - intros j Hj Epj Hp0. rewrite Hs1 in Hj. pose proof (par_lt j ltac:(lia)) as Hpj. pose proof (par_lt p Hp0) as Hpp. rewrite !Hx.
    destruct (Nat.eqb_spec (par p) p); [lia|]. destruct (Nat.eqb_spec (par p) i); [lia|]. destruct (Nat.eqb_spec j p); [lia|].
    assert (Hgp : le (items pq !!! par p) (items pq !!! p)) by (apply HA; lia).
    destruct (Nat.eqb_spec j i) as [->|]; [done|].
    apply (wo_trans W _ (items pq !!! p)); [apply HDl; lia|apply HDl; lia|apply HDl; lia|done|]. rewrite <- Epj. apply HA; [lia|done].
Qed.

Lemma bubble_up_spec pq ix i : good pq ix -> Forall D (items pq) -> (i < length pq)%nat -> heap_below i (items pq) ->
  exists pq' ix', bubble_up less pq ix i = Some (pq', ix') /\ moved pq ix pq' ix' /\ heap_from 0 (items pq').
Proof. intros G HD Hi H. apply bubble_up_loop_spec; [done|done|done|lia|done]. Qed.

(** The root is a least item. *)
Lemma heap_top l : heap_from 0 l -> Forall D l -> forall i, (i < size l)%nat -> le (l !!! 0%nat) (l !!! i).
Proof.
  intros H HD i. induction i as [i IH] using (well_founded_induction lt_wf). intros Hi.
  destruct (decide (i = 0)%nat) as [->|Hne]; [apply le_refl, D_lookup; [done|lia]|].
  pose proof (par_lt i ltac:(lia)) as Hp.
  apply (wo_trans W _ (l !!! par i)); [apply D_lookup; [done|lia]..| |]; [apply IH; lia|apply H; lia].
Qed.

(** ** The operations *)

(** The queue between two calls. *)
Record pq_ok (pq : nghttp2_pq) (ix : indexes) : Prop := {
  ok_good : good pq ix;
  ok_dom : Forall D (items pq);
  ok_heap : heap_from 0 (items pq)
}.

Lemma init_pq_ok ix : pq_ok nghttp2_pq_init ix.
Proof. constructor; [constructor; cbn; [lia|done|]|constructor|]; [intros i x H; done|intros j Hj; cbn in Hj; lia]. Qed.

Lemma moved_ok pq ix pq' ix' : moved pq ix pq' ix' -> Forall D (items pq) -> heap_from 0 (items pq') -> pq_ok pq' ix'.
Proof. intros M HD H. constructor; [apply M|by rewrite (moved_perm _ _ _ _ M)|done]. Qed.

(** Fewer items at the end. *)
Lemma shrink_ok pq ix n : good pq ix -> (n <= length pq)%nat -> good (set_length n pq) ix /\ items (set_length n pq) = take n (items pq).
Proof.
  intros G Hn. assert (E : items (set_length n pq) = take n (items pq)) by (unfold items; cbn; by rewrite take_take, Nat.min_l by lia).
  split; [|done]. constructor; [cbn; pose proof (good_length pq ix G); lia|apply (good_capacity pq ix G)|].
  rewrite E. intros i x Hi. apply (good_index pq ix G). destruct (decide (i < n)%nat); [by rewrite lookup_take_lt in Hi|].
  rewrite lookup_take_ge in Hi by lia. done.
Qed.

(** The last item taken to the place of the item [i], and the end cut off. *)
Definition plug (l : list ptr) (i : nat) : list ptr := <[i := l !!! (size l - 1)%nat]> (take (size l - 1) l).

Lemma plug_size l i : size (plug l i) = (size l - 1)%nat.
Proof. unfold plug. rewrite length_insert, length_take. lia. Qed.

Lemma plug_lookup l i k : (i < size l - 1)%nat -> (k < size l - 1)%nat ->
  plug l i !!! k = if (k =? i)%nat then l !!! (size l - 1)%nat else l !!! k.
Proof.
  intros Hi Hk. assert (Ht : size (take (size l - 1) l) = (size l - 1)%nat) by (rewrite length_take; lia).
  unfold plug. destruct (Nat.eqb_spec k i) as [->|Hne].
  - rewrite list_lookup_total_insert_eq; [done|lia].
  - rewrite list_lookup_total_insert_ne by done. by rewrite list_lookup_total_alt, lookup_take_lt, <- list_lookup_total_alt.
Qed.

Lemma take_last (l : list ptr) : (0 < size l)%nat -> l = take (size l - 1) l ++ [l !!! (size l - 1)%nat].
Proof.
  intros Hl. rewrite <- (take_drop (size l - 1) l) at 1. f_equal.
  rewrite (drop_S l (l !!! (size l - 1)%nat)) by (apply lookup_total_Some; lia).
  f_equal. apply drop_ge. lia.
Qed.

Lemma plug_perm l i : (i < size l - 1)%nat -> l ≡ₚ l !!! i :: plug l i.
Proof.
  intros Hi. rewrite (take_last l) at 1 by lia. unfold plug. set (y := l !!! (size l - 1)%nat). set (t := take (size l - 1) l).
  assert (Ht : size t = (size l - 1)%nat) by (unfold t; rewrite length_take; lia).
  assert (Hl : t !! i = Some (l !!! i)) by (unfold t; rewrite lookup_take_lt by lia; apply lookup_total_Some; lia).
  rewrite insert_take_drop by lia. rewrite <- (take_drop_middle t i (l !!! i) Hl) at 1. solve_Permutation.
Qed.

Lemma plug_spec pq ix i : good pq ix -> (i < length pq - 1)%nat ->
  exists y pq', q pq !! (length pq - 1)%nat = Some y /\ y = items pq !!! (length pq - 1)%nat /\ set_slot i y pq = Some pq' /\ length pq' = length pq /\ capacity pq' = capacity pq /\
    good (set_length (length pq - 1) pq') (<[y := i]> ix) /\ items (set_length (length pq - 1) pq') = plug (items pq) i /\
    (forall x, x ∉ items pq -> <[y := i]> ix !! x = ix !! x).
Proof.
  intros G Hi. pose proof (items_size pq ix G) as Hs. pose proof (good_length pq ix G) as Hl.
  exists (items pq !!! (length pq - 1)%nat). set (y := items pq !!! (length pq - 1)%nat).
  eexists. split; [apply (items_lookup pq ix _ G); lia|]. split; [done|]. unfold set_slot. rewrite (proj2 (Nat.ltb_lt _ _)) by lia. split; [reflexivity|].
  split; [done|]. split; [done|].
  assert (Hit : items (set_length (length pq - 1) (set_q (<[i:=y]> (q pq)) pq)) = plug (items pq) i).
  { unfold items at 1, plug. rewrite Hs. fold y. cbn. rewrite take_insert_lt by lia. f_equal.
    unfold items. by rewrite take_take, Nat.min_l by lia. }
  assert (Hy : items pq !! (length pq - 1)%nat = Some y) by (apply lookup_total_Some; lia).
  split; [|split; [done|]].
  - constructor; [cbn; rewrite length_insert; lia|cbn; rewrite length_insert; apply (good_capacity pq ix G)|].
    rewrite Hit. intros k x Hk. pose proof (lookup_lt_Some _ _ _ Hk) as Hks. rewrite plug_size in Hks.
    rewrite lookup_total_Some in Hk by (by rewrite plug_size). injection Hk as <-. rewrite plug_lookup by lia. rewrite Hs. fold y.
    destruct (Nat.eqb_spec k i) as [->|Hne]; [by rewrite lookup_insert_eq|].
    assert (Hk : items pq !! k = Some (items pq !!! k)) by (apply lookup_total_Some; lia).
    rewrite lookup_insert_ne; [by apply (good_index pq ix G)|]. intros E.
    assert (length pq - 1 = k)%nat; [|lia]. apply (indexed_inj (items pq) ix _ _ y (good_index pq ix G)); [done|by rewrite E].
  - intros x Hx. apply lookup_insert_ne. intros <-. apply Hx. by apply (list_elem_of_lookup_2 _ (length pq - 1)).
Qed.

(** What an operation that takes the item [x] away does. *)
Definition taken (pq : nghttp2_pq) (ix : indexes) (x : ptr) (pq' : nghttp2_pq) (ix' : indexes) : Prop :=
  pq_ok pq' ix' /\ items pq ≡ₚ x :: items pq' /\ capacity pq' = capacity pq /\ forall z, z ∉ items pq -> ix' !! z = ix !! z.

Lemma shrink_taken pq ix : pq_ok pq ix -> (0 < length pq)%nat ->
  taken pq ix (items pq !!! (length pq - 1)%nat) (set_length (length pq - 1) pq) ix.
Proof.
  intros [G HD H] Hl. pose proof (items_size pq ix G) as Hs. destruct (shrink_ok pq ix (length pq - 1) G) as [G' E]; [lia|].
  split; [|split; [|by split]].
  - constructor; [done|rewrite E; by apply Forall_take|]. rewrite E. intros j Hj _.
    rewrite length_take in Hj. pose proof (par_lt j ltac:(lia)). rewrite !list_lookup_total_alt, !lookup_take_lt, <- !list_lookup_total_alt by lia. apply H; lia.
  - rewrite E. rewrite (take_last (items pq)) at 1 by lia. rewrite Hs. solve_Permutation.
Qed.

Lemma pop_spec pq ix : pq_ok pq ix -> (0 < length pq)%nat ->
  exists pq' ix', nghttp2_pq_pop less pq ix = Some (pq', ix') /\ taken pq ix (items pq !!! 0%nat) pq' ix'.
Proof.
  intros OK Hl. pose proof OK as [G HD H]. pose proof (items_size pq ix G) as Hs. unfold nghttp2_pq_pop.
  rewrite (proj2 (Nat.ltb_lt _ _)) by done. destruct (decide (length pq = 1)%nat) as [H1|H1].
  - rewrite (items_lookup pq ix _ G) by lia. cbn [mbind option_bind]. rewrite H1. cbn [Nat.sub].
    assert (Hq : q pq !! 0%nat = Some (items pq !!! 0%nat)) by (apply (items_lookup pq ix _ G); lia).
    unfold set_slot. pose proof (good_length pq ix G). rewrite (proj2 (Nat.ltb_lt _ _)) by lia. cbn [mbind option_bind].
    rewrite list_insert_id by done. cbn [length set_q]. rewrite H1. cbn [Nat.sub].
    assert (Hix : <[items pq !!! 0%nat := 0%nat]> ix = ix).
    { apply insert_id, (good_index pq ix G), lookup_total_Some. lia. }
    rewrite Hix. eexists _, _. split; [reflexivity|]. pose proof (shrink_taken pq ix OK Hl) as T. rewrite H1 in T. cbn [Nat.sub] in T.
    by destruct pq.
  - destruct (plug_spec pq ix 0 G) as (y & p1 & -> & -> & E & L1 & C1 & G1 & I1 & O1); [lia|]. cbn [mbind option_bind]. rewrite E. cbn [mbind option_bind].
    rewrite L1. set (p2 := set_length (length pq - 1) p1) in *.
    pose proof (plug_perm (items pq) 0 ltac:(lia)) as Hperm. rewrite <- I1 in Hperm.
    assert (HD1 : Forall D (items p2)) by (rewrite Hperm in HD; by inversion HD).
    destruct (bubble_down_spec p2 _ 0 0 G1 HD1) as (p3 & i3 & E3 & M3 & H3); [lia| |].
    { split; [|lia]. intros j Hj _ Hp. rewrite I1, plug_size in Hj. rewrite I1. pose proof (par_lt j ltac:(lia)).
      rewrite !plug_lookup by lia. destruct (Nat.eqb_spec (par j) 0); [done|]. destruct (Nat.eqb_spec j 0); [lia|]. apply H; lia. }
    exists p3, i3. split; [done|]. split; [by apply (moved_ok _ _ _ _ M3)|]. split; [by rewrite (moved_perm _ _ _ _ M3)|].
    split; [by rewrite (moved_capacity _ _ _ _ M3)|]. intros z Hz. rewrite (moved_outside _ _ _ _ M3); [by apply O1|]. intros Hin. apply Hz. rewrite Hperm. by right.
Qed.

Lemma remove_spec pq ix item : pq_ok pq ix -> item ∈ items pq ->
  exists pq' ix', nghttp2_pq_remove less pq ix item = Some (pq', ix') /\ taken pq ix item pq' ix'.
Proof.
  intros OK Hin. pose proof OK as [G HD H]. pose proof (items_size pq ix G) as Hs. unfold nghttp2_pq_remove.
  apply list_elem_of_lookup_1 in Hin as [i Hi]. pose proof (lookup_lt_Some _ _ _ Hi) as Hlt. rewrite Hs in Hlt.
  assert (Hit : items pq !!! i = item) by (rewrite lookup_total_Some in Hi by lia; by injection Hi).
  rewrite (good_index pq ix G i item Hi). cbn [mbind option_bind]. rewrite (items_lookup pq ix i G Hlt), Hit. cbn [mbind option_bind].
  rewrite Z.eqb_refl. cbn [negb]. destruct (Nat.eqb_spec i 0) as [->|Hi0]; [rewrite <- Hit; apply pop_spec; [done|lia]|].
  destruct (Nat.eqb_spec i (length pq - 1)) as [->|Hil].
  { eexists _, _. split; [reflexivity|]. rewrite <- Hit. apply shrink_taken; [done|lia]. }
  destruct (plug_spec pq ix i G) as (y & p1 & -> & Ey & E & L1 & C1 & G1 & I1 & O1); [lia|]. cbn [mbind option_bind]. rewrite E. cbn [mbind option_bind].
  rewrite L1. set (p2 := set_length (length pq - 1) p1) in *.
  pose proof (plug_perm (items pq) i ltac:(lia)) as Hperm. rewrite <- I1, Hit in Hperm.
  assert (HD1 : Forall D (items p2)) by (rewrite Hperm in HD; by inversion HD).
  assert (HDl : forall k, (k < length pq)%nat -> D (items pq !!! k)) by (intros; apply D_lookup; [done|lia]).
  assert (HDi : D item) by (rewrite <- Hit; by apply HDl). assert (HDy : D y) by (rewrite Ey; apply HDl; lia).
  assert (Hx : forall k, (k < length pq - 1)%nat -> items p2 !!! k = if (k =? i)%nat then y else items pq !!! k).
  { intros k Hk. rewrite I1, plug_lookup by lia. by rewrite Ey, Hs. }
  assert (Hs2 : size (items p2) = (length pq - 1)%nat) by (rewrite I1, plug_size; lia).
  assert (Hup : le (items pq !!! par i) item) by (rewrite <- Hit; apply H; lia).
  assert (Hdown : forall j, (0 < j < length pq)%nat -> par j = i -> le item (items pq !!! j)).
  { intros j Hj Ep. rewrite <- Hit, <- Ep. apply H; lia. }
  pose proof (par_lt i ltac:(lia)) as Hpi.
  assert (Hsecond : forall j, (0 < j < size (items p2))%nat -> par j = i -> (0 < i)%nat -> le (items p2 !!! par i) (items p2 !!! j)).
  { intros j Hj Ep _. rewrite Hs2 in Hj. pose proof (par_lt j ltac:(lia)). rewrite !Hx by lia.
    destruct (Nat.eqb_spec (par i) i); [lia|]. destruct (Nat.eqb_spec j i); [lia|].
    apply (wo_trans W _ item); [apply HDl; lia|done|apply HDl; lia|done|]. apply Hdown; [lia|done]. }
  assert (Hdone : forall p3 i3, moved p2 (<[y:=i]> ix) p3 i3 -> heap_from 0 (items p3) -> taken pq ix item p3 i3).
  { intros p3 i3 M3 H3. split; [by apply (moved_ok _ _ _ _ M3)|]. split; [by rewrite (moved_perm _ _ _ _ M3)|].
    split; [by rewrite (moved_capacity _ _ _ _ M3)|]. intros z Hz. rewrite (moved_outside _ _ _ _ M3); [by apply O1|]. intros Hin. apply Hz. rewrite Hperm. by right. }
  destruct (less item y) eqn:El.
  - destruct (bubble_down_spec p2 _ 0 i G1 HD1) as (p3 & i3 & E3 & M3 & H3); [lia| |by exists p3, i3; auto].
    split; [|intros j Hj Ep Hi' _; by apply Hsecond]. intros j Hj _ Hp. rewrite Hs2 in Hj. pose proof (par_lt j ltac:(lia)). rewrite !Hx by lia.
    destruct (Nat.eqb_spec (par j) i); [done|]. destruct (Nat.eqb_spec j i) as [->|]; [|apply H; lia].
    apply (wo_trans W _ item); [apply HDl; lia|done|done|done|]. by apply less_le.
  - destruct (bubble_up_spec p2 _ i G1 HD1) as (p3 & i3 & E3 & M3 & H3); [cbn; lia| |by exists p3, i3; auto].
    split; [|done]. intros j Hj Hji. rewrite Hs2 in Hj. pose proof (par_lt j ltac:(lia)). rewrite !Hx by lia.
    destruct (Nat.eqb_spec j i); [done|]. destruct (Nat.eqb_spec (par j) i) as [Ep|]; [|apply H; lia].
    apply (wo_trans W _ item); [done|done|apply HDl; lia|exact El|]. apply Hdown; [lia|done].
Qed.

Section Push.
Context (malloc_ok : nat -> bool) (junk : nat -> ptr).

Lemma push_spec pq ix item m : pq_ok pq ix -> item ∉ items pq -> D item ->
  (exists m', nghttp2_pq_push less malloc_ok junk pq ix item m = Some (NGHTTP2_ERR_NOMEM, pq, ix, m') /\ malloc_ok (requests m) = false /\
     capacity pq = length pq) \/
  exists pq' ix' m', nghttp2_pq_push less malloc_ok junk pq ix item m = Some (0, pq', ix', m') /\ pq_ok pq' ix' /\
    items pq' ≡ₚ item :: items pq /\ forall z, z ∉ items pq -> z <> item -> ix' !! z = ix !! z.
Proof.
  intros [G HD H] Hni HDi. pose proof (good_capacity pq ix G) as Hcap. pose proof (good_length pq ix G) as Hlen. unfold nghttp2_pq_push.
  assert (Hgo : forall p, length p = length pq -> items p = items pq -> (length p < size (q p))%nat -> size (q p) = capacity p ->
    exists p1 pq' ix', set_slot (length p) item p = Some p1 /\
      bubble_up less (set_length (Datatypes.S (length p1)) p1) (<[item := length p1]> ix) (length (set_length (Datatypes.S (length p1)) p1) - 1) = Some (pq', ix') /\
      pq_ok pq' ix' /\ items pq' ≡ₚ item :: items pq /\ forall z, z ∉ items pq -> z <> item -> ix' !! z = ix !! z).
  { intros p Hl Hit Hsz Hc. unfold set_slot. rewrite (proj2 (Nat.ltb_lt _ _)) by done. eexists. 
    set (p1 := set_length (Datatypes.S (length p)) (set_q (<[length p:=item]> (q p)) p)).
    assert (Hi1 : items p1 = items p ++ [item]).
    { unfold p1, items. cbn [length q set_length set_q]. rewrite (take_S_r _ _ item) by (by rewrite list_lookup_insert_eq). by rewrite take_insert_ge. }
    pose proof (items_size pq ix G) as Hs.
    assert (G1 : good p1 (<[item := length p]> ix)).
    { constructor; [cbn; rewrite length_insert; lia|cbn; by rewrite length_insert|]. rewrite Hi1. intros i x Hx.
      apply lookup_app_Some in Hx as [Hx|[Hge Hx]].
      - rewrite Hit in Hx. rewrite lookup_insert_ne; [by apply (good_index pq ix G)|]. intros <-. by apply Hni, (list_elem_of_lookup_2 _ i).
      - rewrite Hit, Hs in Hx, Hge. destruct (i - length pq)%nat eqn:Ei; [|done]. injection Hx as ->. rewrite Hl. rewrite lookup_insert_eq. f_equal. lia. }
    assert (HD1 : Forall D (items p1)) by (rewrite Hi1, Hit; apply Forall_app; split; [done|by constructor]).
    assert (Hlk : forall k, (k < length pq)%nat -> items p1 !!! k = items pq !!! k).
    { intros k Hk. rewrite Hi1, Hit. apply lookup_total_app_l. lia. }
    assert (Hs1 : size (items p1) = S (length pq)) by (rewrite Hi1, Hit, length_app; cbn; lia).
    assert (Hl1 : length p1 = S (length pq)) by (cbn; lia).
    destruct (bubble_up_spec p1 _ (length p1 - 1) G1 HD1) as (p2 & i2 & E2 & M2 & H2); [lia| |].
    { split.
      - intros j Hj Hne. pose proof (par_lt j ltac:(lia)). rewrite !Hlk by lia. apply H; lia.
      - intros j Hj Ep _. pose proof (par_lt j ltac:(lia)). lia. }
    exists p2, i2. split; [reflexivity|]. split; [exact E2|]. split; [by apply (moved_ok _ _ _ _ M2)|].
    split; [rewrite (moved_perm _ _ _ _ M2), Hi1, Hit; solve_Permutation|].
    intros z Hz Hne. rewrite (moved_outside _ _ _ _ M2); [by apply lookup_insert_ne|].
    rewrite Hi1, Hit. intros Hin. apply elem_of_app in Hin as [Hin|Hin]; [done|]. apply list_elem_of_singleton in Hin. done. }
  destruct (Nat.leb_spec (capacity pq) (length pq)) as [Hfull|Hroom].
  - unfold realloc. destruct (malloc_ok (requests m)) eqn:Em; cbn [negb].
    2: { left. eexists. split; [reflexivity|]. split; [done|lia]. }
    right. set (p := Pq _ _ _). destruct (Hgo p) as (p1 & pq' & ix' & E1 & E & R).
    + done.
    + unfold items, p. cbn. rewrite take_app_le by lia. done.
    + cbn. rewrite length_app, length_map, length_seq. lia.
    + cbn. rewrite length_app, length_map, length_seq. lia.
    + exists pq', ix'. eexists. split; [|exact R]. cbn [Z.eqb negb]. rewrite E1. cbn [mbind option_bind]. rewrite E. reflexivity.
  - right. destruct (Hgo pq) as (p1 & pq' & ix' & E1 & E & R); [done|done|lia|done|]. exists pq', ix', m. split; [|exact R].
    cbn [Z.eqb negb]. rewrite E1. cbn [mbind option_bind]. rewrite E. reflexivity.
Qed.
End Push.
End Order.

(** ** Rebuilding after a change of the keys *)

Section Update.
Context {S : Type} (less : S -> ptr -> ptr -> bool) (func : ptr -> S -> Z * S) (D : S -> ptr -> Prop).

Lemma rebuild_spec s n : weak_order (less s) (D s) -> forall pq ix, good pq ix -> Forall (D s) (items pq) ->
  heap_from (less s) n (items pq) -> (n <= length pq)%nat ->
  exists pq' ix', rebuild less n s pq ix = Some (pq', ix') /\ moved pq ix pq' ix' /\ heap_from (less s) 0 (items pq').
Proof.
  intros W. induction n as [|n IH]; intros pq ix G HD H Hn; cbn [rebuild].
  { exists pq, ix. split; [done|]. split; [by apply moved_refl|done]. }
  destruct (bubble_down_spec (less s) (D s) W pq ix n n G HD) as (p1 & i1 & -> & M1 & H1); [lia| |].
  { split; [|intros j Hj Ep Hn0; pose proof (par_lt n Hn0); lia]. intros j Hj Hp Hne. apply H; [done|lia]. }
  cbn [mbind option_bind]. pose proof (moved_length _ _ _ _ M1) as L1.
  destruct (IH p1 i1) as (p2 & i2 & E2 & M2 & H2); [apply M1|by rewrite (moved_perm _ _ _ _ M1)|done|lia|].
  exists p2, i2. split; [done|]. split; [by apply (moved_trans _ _ _ _ _ _ M1 M2)|done].
Qed.

(** What the callback promises: it answers 0 only if the order is as it was. *)
Definition honest : Prop := forall x s, fst (func x s) = 0 -> forall a b, less (snd (func x s)) a b = less s a b.

Lemma update_items_zero l : forall rv s, honest -> fst (update_items func l rv s) = 0 ->
  rv = 0 /\ forall a b, less (snd (update_items func l rv s)) a b = less s a b.
Proof.
  induction l as [|x l IH]; intros rv s Hh; cbn [update_items]; [done|]. pose proof (Hh x s) as Hx. destruct (func x s) as [r s1] eqn:E. cbn [fst snd] in Hx.
  intros H0. destruct (IH _ _ Hh H0) as [Hz Hl]. apply lor_zero in Hz as [-> ->]. split; [done|]. intros a b. rewrite Hl. by apply Hx.
Qed.

Lemma update_spec pq ix s : honest -> pq_ok (less s) (D s) pq ix ->
  let s' := snd (update_items func (items pq) 0 s) in
  weak_order (less s') (D s') -> Forall (D s') (items pq) ->
  exists pq' ix', nghttp2_pq_update less func pq ix s = Some (pq', ix', s') /\ moved pq ix pq' ix' /\ pq_ok (less s') (D s') pq' ix'.
Proof.
  intros Hh [G HD H] s' W HD'. unfold nghttp2_pq_update. fold (items pq). pose proof (items_size pq ix G) as Hs.
  destruct (Nat.eqb_spec (length pq) 0) as [H0|H0].
  { assert (Hnil : items pq = []) by (apply nil_length_inv; lia). unfold s' in *. rewrite Hnil in *. cbn in *.
    exists pq, ix. split; [done|]. split; [by apply moved_refl|]. constructor; [done|by rewrite Hnil|by rewrite Hnil]. }
  pose proof (update_items_zero (items pq) 0 s Hh) as Hz. destruct (update_items func (items pq) 0 s) as [rv s1] eqn:E. cbn [fst snd] in *. subst s'.
  destruct (Z.eqb_spec rv 0) as [->|Hrv]; cbn [negb].
  - exists pq, ix. split; [done|]. split; [by apply moved_refl|]. constructor; [done|done|]. destruct (Hz eq_refl) as [_ Hl].
    intros j Hj Hp. unfold le. rewrite Hl. by apply H.
  - destruct (rebuild_spec s1 (length pq) W pq ix G HD') as (p2 & i2 & -> & M2 & H2); [|lia|].
    { intros j Hj Hp. pose proof (par_lt j ltac:(lia)). lia. }
    exists p2, i2. split; [done|]. split; [done|]. by apply (moved_ok _ _ _ _ _ _ M2).
Qed.
End Update.

(** ** Properties *)

(** The calls of a client, and what a queue is to it: a bag of items from which a
    least one is taken. *)
Inductive pq_op := Push (x : ptr) | Pop | Remove (x : ptr).

Section Properties.
Context (less : ptr -> ptr -> bool) (malloc_ok : nat -> bool) (junk : nat -> ptr).

(** The result is the item that [nghttp2_pq_top] answers, before it is popped. *)
Definition run_op (op : pq_op) (pq : nghttp2_pq) (ix : indexes) (m : nghttp2_mem)
  : option (option ptr * nghttp2_pq * indexes * nghttp2_mem) :=
  match op with
  | Push x => '(_, pq, ix, m) ← nghttp2_pq_push less malloc_ok junk pq ix x m; Some (None, pq, ix, m)
  | Pop => top ← nghttp2_pq_top pq; '(pq, ix) ← nghttp2_pq_pop less pq ix; Some (top, pq, ix, m)
  | Remove x => '(pq, ix) ← nghttp2_pq_remove less pq ix x; Some (None, pq, ix, m)
  end.

Inductive bag_step : pq_op -> list ptr -> option ptr -> list ptr -> Prop :=
| bag_push x l l' : l' ≡ₚ x :: l -> bag_step (Push x) l None l'
| bag_push_nomem x l n : malloc_ok n = false -> bag_step (Push x) l None l
| bag_pop x l l' : l ≡ₚ x :: l' -> (forall y, y ∈ l -> le less x y) -> bag_step Pop l (Some x) l'
| bag_pop_empty : bag_step Pop [] None []
| bag_remove x l l' : l ≡ₚ x :: l' -> bag_step (Remove x) l None l'.

(** What the client must keep to: an item is in the queue once, and only an item
    of the queue is removed. *)
Definition allowed (D : ptr -> Prop) (op : pq_op) (l : list ptr) : Prop :=
  match op with
  | Push x => (x ∉ l) /\ D x
  | Pop => True
  | Remove x => x ∈ l
  end.

Lemma top_spec D pq ix : weak_order less D -> pq_ok less D pq ix -> (0 < length pq)%nat ->
  nghttp2_pq_top pq = Some (Some (items pq !!! 0%nat)) /\ forall y, y ∈ items pq -> le less (items pq !!! 0%nat) y.
Proof.
  intros W [G HD H] Hl. pose proof (items_size pq ix G) as Hs. unfold nghttp2_pq_top. destruct (Nat.eqb_spec (length pq) 0); [lia|].
  rewrite (items_lookup pq ix 0 G) by lia. split; [done|]. intros y Hy. apply list_elem_of_lookup_1 in Hy as [i Hi].
  pose proof (lookup_lt_Some _ _ _ Hi). rewrite lookup_total_Some in Hi by done. injection Hi as <-. by apply (heap_top less D W).
Qed.

Lemma run_pq_op D op pq ix m : weak_order less D -> pq_ok less D pq ix -> allowed D op (items pq) ->
  exists r pq' ix' m', run_op op pq ix m = Some (r, pq', ix', m') /\ pq_ok less D pq' ix' /\ bag_step op (items pq) r (items pq').
Proof.
  intros W OK Ha. destruct op as [x| |x]; cbn [run_op allowed] in *.
  - destruct Ha as [Hx HDx]. destruct (push_spec less D W malloc_ok junk pq ix x m OK Hx HDx) as [(m' & -> & Hm & _)|(pq' & ix' & m' & -> & OK' & P & _)]; cbn [mbind option_bind].
    + exists None, pq, ix, m'. split; [done|]. split; [done|]. by apply (bag_push_nomem x _ (requests m)).
    + exists None, pq', ix', m'. split; [done|]. split; [done|]. by constructor.
  - destruct (decide (length pq = 0)%nat) as [H0|H0].
    + assert (Hnil : items pq = []) by (apply nil_length_inv; rewrite (items_size pq ix (ok_good _ _ _ _ OK)); done).
      unfold nghttp2_pq_top, nghttp2_pq_pop. rewrite H0. cbn. exists None, pq, ix, m. split; [done|]. split; [done|]. rewrite Hnil. constructor.
    + destruct (top_spec D pq ix W OK) as [-> Hmin]; [lia|]. cbn [mbind option_bind].
      destruct (pop_spec less D W pq ix OK) as (pq' & ix' & -> & OK' & P & _); [lia|]. cbn [mbind option_bind].
      eexists _, pq', ix', m. split; [done|]. split; [done|]. by constructor.
  - destruct (remove_spec less D W pq ix x OK Ha) as (pq' & ix' & -> & OK' & P & _). cbn [mbind option_bind].
    exists None, pq', ix', m. split; [done|]. split; [done|]. by constructor.
Qed.

(** C25: the heap refines a bag: from any well-formed queue, whose items the
    comparison orders, a push, a pop or a removal runs without touching memory
    outside the array, keeps every entry's own idea of its position right, and
    does to the items what the bag does: a push adds the item, or nothing if the
    array cannot grow; a pop takes away the item [nghttp2_pq_top] answers, which
    is a least one; a removal takes away the item, wherever it is. *)
Theorem pq_refines_bag D op pq ix m : weak_order less D -> pq_ok less D pq ix -> allowed D op (items pq) ->
  exists r pq' ix' m', run_op op pq ix m = Some (r, pq', ix', m') /\ pq_ok less D pq' ix' /\ bag_step op (items pq) r (items pq').
Proof. apply run_pq_op. Qed.

(** Pushing items one after the other, and popping them all. *)
Fixpoint push_all (l : list ptr) (pq : nghttp2_pq) (ix : indexes) (m : nghttp2_mem) : option (nghttp2_pq * indexes * nghttp2_mem) :=
  match l with
  | [] => Some (pq, ix, m)
  | x :: l => '(_, pq, ix, m) ← run_op (Push x) pq ix m; push_all l pq ix m
  end.

Fixpoint drain (n : nat) (pq : nghttp2_pq) (ix : indexes) (m : nghttp2_mem) : option (list ptr) :=
  match n with
  | O => Some []
  | Datatypes.S n =>
      '(r, pq, ix, m) ← run_op Pop pq ix m;
      match r with Some x => l ← drain n pq ix m; Some (x :: l) | None => Some [] end
  end.

Lemma push_all_spec D l : weak_order less D -> (forall k, malloc_ok k = true) -> forall pq ix m, pq_ok less D pq ix ->
  NoDup (l ++ items pq) -> Forall D l ->
  exists pq' ix' m', push_all l pq ix m = Some (pq', ix', m') /\ pq_ok less D pq' ix' /\ items pq' ≡ₚ l ++ items pq.
Proof.
  intros W Hm. induction l as [|x l IH]; intros pq ix m OK Hnd HD; cbn [push_all]; [by exists pq, ix, m|].
  inversion_clear HD. cbn [app] in Hnd. apply NoDup_cons in Hnd as [Hx Hnd].
  destruct (run_pq_op D (Push x) pq ix m W OK) as (r & p1 & i1 & m1 & -> & OK1 & B); [split; [|done]; intros Hin; apply Hx, elem_of_app; by right|].
  cbn [mbind option_bind]. assert (P : items p1 ≡ₚ x :: items pq).
  { inversion B as [? ? ? P|? ? k Hk| | |]; [done|]. by rewrite Hm in Hk. }
  destruct (IH p1 i1 m1 OK1) as (p2 & i2 & m2 & E & OK2 & P2); [|done|].
  { rewrite P. rewrite <- Permutation_middle. by constructor. }
  exists p2, i2, m2. split; [done|]. split; [done|]. rewrite P2, P. solve_Permutation.
Qed.

Lemma drain_all D n : weak_order less D -> forall pq ix m, pq_ok less D pq ix -> length pq = n ->
  exists l, drain n pq ix m = Some l /\ l ≡ₚ items pq /\ StronglySorted (le less) l.
Proof.
  intros W. induction n as [|n IH]; intros pq ix m OK Hn; cbn [drain].
  { exists []. split; [done|]. split; [|constructor]. rewrite (nil_length_inv (items pq)); [done|]. by rewrite (items_size pq ix (ok_good _ _ _ _ OK)). }
  destruct (run_pq_op D Pop pq ix m W OK I) as (r & p1 & i1 & m1 & -> & OK1 & B). cbn [mbind option_bind].
  pose proof (items_size pq ix (ok_good _ _ _ _ OK)) as Hs. pose proof (items_size p1 i1 (ok_good _ _ _ _ OK1)) as Hs1.
  inversion B as [| |x ? ? P Hmin|E1 E2 E3 E4|]; subst; [|rewrite <- E2 in Hs; cbn in Hs; lia].
  pose proof (Permutation_length P) as Hl. cbn [size] in Hl.
  destruct (IH p1 i1 m1 OK1) as (l & -> & Pl & Hsort); [lia|]. cbn [mbind option_bind]. exists (x :: l). split; [done|].
  split; [by rewrite Pl, P|]. constructor; [done|]. apply Forall_forall. intros y Hy. apply Hmin. rewrite P, <- Pl. by right.
Qed.

(** Items pushed in any order are popped in order: as many as there were, each
    once, none before one that [less] puts ahead of it. *)
Theorem pq_drains_sorted D l m : weak_order less D -> (forall k, malloc_ok k = true) -> NoDup l -> Forall D l ->
  exists pq ix m' out, push_all l nghttp2_pq_init ∅ m = Some (pq, ix, m') /\ drain (size l) pq ix m' = Some out /\
    out ≡ₚ l /\ StronglySorted (le less) out.
Proof.
  intros W Hm Hnd HD. destruct (push_all_spec D l W Hm nghttp2_pq_init ∅ m) as (pq & ix & m' & E & OK & P); [apply init_pq_ok|by rewrite app_nil_r|done|].
  change (items nghttp2_pq_init) with (@nil ptr) in P. rewrite app_nil_r in P.
  destruct (drain_all D (size l) W pq ix m' OK) as (out & E2 & P2 & Hs).
  { rewrite <- (items_size pq ix (ok_good _ _ _ _ OK)). by rewrite P. }
  exists pq, ix, m', out. split; [done|]. split; [done|]. split; [by rewrite P2|done].
Qed.
End Properties.

(** After the callback of [nghttp2_pq_update] has changed the keys of any items,
    the queue is a heap again for the new order, provided that the callback
    answered nonzero whenever it changed the order; the items and the room for
    them are the same. *)
Theorem pq_update_correct {S : Type} (less : S -> ptr -> ptr -> bool) (func : ptr -> S -> Z * S) (D : S -> ptr -> Prop) pq ix s :
  honest less func -> pq_ok (less s) (D s) pq ix ->
  let s' := snd (update_items func (items pq) 0 s) in
  weak_order (less s') (D s') -> Forall (D s') (items pq) ->
  exists pq' ix', nghttp2_pq_update less func pq ix s = Some (pq', ix', s') /\ pq_ok (less s') (D s') pq' ix' /\ items pq' ≡ₚ items pq.
Proof.
  intros Hh OK s' W HD. destruct (update_spec less func D pq ix s Hh OK W HD) as (pq' & ix' & E & M & OK').
  exists pq', ix'. split; [done|]. split; [done|]. apply M.
Qed.

(** *** Witnesses: items are numbers, and their own keys *)

Lemma ltb_order : weak_order Z.ltb (fun _ => True).
Proof. constructor; unfold le; intros; lia. Qed.

Definition three : option (nghttp2_pq * indexes * nghttp2_mem) :=
  push_all Z.ltb (fun _ => true) (fun _ => 0) [30; 10; 20] nghttp2_pq_init ∅ (Mem 0 0).

Example three_drained : (t ← three; drain Z.ltb (fun _ => true) (fun _ => 0) 3 (fst (fst t)) (snd (fst t)) (snd t)) = Some [10; 20; 30].
Proof. vm_compute. reflexivity. Qed.

Lemma pq_drains_sorted_witness :
  exists pq ix m' out, push_all Z.ltb (fun _ => true) (fun _ => 0) [30; 10; 20] nghttp2_pq_init ∅ (Mem 0 0) = Some (pq, ix, m') /\
    drain Z.ltb (fun _ => true) (fun _ => 0) 3 pq ix m' = Some out /\ out ≡ₚ [30; 10; 20] /\ StronglySorted (le Z.ltb) out.
Proof.
  apply (pq_drains_sorted Z.ltb (fun _ => true) (fun _ => 0) (fun _ => True) [30; 10; 20]); [apply ltb_order|done| |by repeat constructor].
  apply NoDup_ListNoDup. repeat (constructor; [cbn; lia|]). constructor.
Defined.

Definition one_item : nghttp2_pq := Pq [7; 0; 0; 0] 1 4.

Lemma one_item_ok : pq_ok Z.ltb (fun _ => True) one_item {[7 := 0%nat]}.
Proof.
  constructor; [constructor; cbn; [lia|done|]|by repeat constructor|].
  - intros [|i] x Hx; cbn in Hx; [injection Hx as <-; by vm_compute|by destruct i].
  - intros j Hj. cbn in Hj. lia.
Qed.

Lemma pq_refines_bag_witness :
  exists r pq' ix' m', run_op Z.ltb (fun _ => true) (fun _ => 0) (Push 5) one_item {[7 := 0%nat]} (Mem 0 0) = Some (r, pq', ix', m') /\
    pq_ok Z.ltb (fun _ => True) pq' ix' /\ bag_step Z.ltb (fun _ => true) (Push 5) (items one_item) r (items pq').
Proof.
  apply (pq_refines_bag Z.ltb (fun _ => true) (fun _ => 0) (fun _ => True) (Push 5)); [apply ltb_order|apply one_item_ok|].
  split; [|done]. cbn. intros H. apply list_elem_of_singleton in H. done.
Defined.

(** A callback that turns the order around. *)
Definition dir_less (up : bool) (a b : ptr) : bool := if up then a <? b else b <? a.

Lemma pq_update_correct_witness :
  exists pq' ix', nghttp2_pq_update dir_less (fun _ _ => (1, false)) one_item {[7 := 0%nat]} true = Some (pq', ix', false) /\
    pq_ok (dir_less false) (fun _ => True) pq' ix' /\ items pq' ≡ₚ items one_item.
Proof.
  apply (pq_update_correct dir_less (fun _ _ => (1, false)) (fun _ _ => True) one_item {[7 := 0%nat]} true).
  - intros x s H. cbn in H. lia.
  - exact one_item_ok.
  - constructor; unfold le, dir_less; cbn; intros; lia.
  - by repeat constructor.
Defined.
