(* ===== verification/NgStream.v ===== *)
(** * Streams: [nghttp2_stream.c], and the priorities of [nghttp2_extpri.c]

    The state of one HTTP/2 stream: the item it has to send and why it may be
    deferred, its flow-control windows, and the state of RFC 9113, section 5.1,
    that its flags stand for.  Failing [assert]s make the result [None]. *)

From stdpp Require Import base list.
From S2P Require Import Prelude.

(** ** Flags *)

Definition NGHTTP2_SHUT_NONE : Z := 0.
Definition NGHTTP2_SHUT_RD : Z := 1.
Definition NGHTTP2_SHUT_WR : Z := 2.
Definition NGHTTP2_SHUT_RDWR : Z := Z.lor NGHTTP2_SHUT_RD NGHTTP2_SHUT_WR.

Definition NGHTTP2_STREAM_FLAG_NONE : Z := 0.
Definition NGHTTP2_STREAM_FLAG_PUSH : Z := 1.
Definition NGHTTP2_STREAM_FLAG_CLOSED : Z := 2.
Definition NGHTTP2_STREAM_FLAG_DEFERRED_FLOW_CONTROL : Z := 4.
Definition NGHTTP2_STREAM_FLAG_DEFERRED_USER : Z := 8.
Definition NGHTTP2_STREAM_FLAG_DEFERRED_ALL : Z := 12.

Definition NGHTTP2_HTTP_FLAG_NONE : Z := 0.

Inductive nghttp2_stream_state :=
| NGHTTP2_STREAM_INITIAL
| NGHTTP2_STREAM_OPENING
| NGHTTP2_STREAM_OPENED
| NGHTTP2_STREAM_CLOSING
| NGHTTP2_STREAM_RESERVED
| NGHTTP2_STREAM_IDLE.

Inductive nghttp2_stream_proto_state :=
| NGHTTP2_STREAM_STATE_IDLE
| NGHTTP2_STREAM_STATE_OPEN
| NGHTTP2_STREAM_STATE_RESERVED_LOCAL
| NGHTTP2_STREAM_STATE_RESERVED_REMOTE
| NGHTTP2_STREAM_STATE_HALF_CLOSED_LOCAL
| NGHTTP2_STREAM_STATE_HALF_CLOSED_REMOTE
| NGHTTP2_STREAM_STATE_CLOSED.

#[export] Instance proto_state_dec : EqDecision nghttp2_stream_proto_state.
Proof. solve_decision. Defined.

(** ** The stream

    [cycle] and [seq] have 64 bits; pointers are numbers, [item] is [None] for
    NULL. *)
Record nghttp2_stream := Stream {
  state : nghttp2_stream_state;
  content_length : Z;
  recv_content_length : Z;
  cycle : Z;
  seq : Z;
  closed_next : Z;
  stream_user_data : Z;
  item : option Z;
  last_writelen : Z;
  stream_id : Z;
  remote_window_size : Z;
  recv_window_size : Z;
  consumed_size : Z;
  recv_reduction : Z;
  local_window_size : Z;
  pending_penalty : Z;
  status_code : Z;
  http_flags : Z;
  flags : Z;
  shut_flags : Z;
  queued : bool;
  window_update_queued : bool;
  extpri : Z;
  http_extpri : Z
}.

Definition set_state (v : nghttp2_stream_state) (s : nghttp2_stream) : nghttp2_stream :=
  Stream v (content_length s) (recv_content_length s) (cycle s) (seq s) (closed_next s)
    (stream_user_data s) (item s) (last_writelen s) (stream_id s) (remote_window_size s)
    (recv_window_size s) (consumed_size s) (recv_reduction s) (local_window_size s) (pending_penalty s)
    (status_code s) (http_flags s) (flags s) (shut_flags s) (queued s) (window_update_queued s)
    (extpri s) (http_extpri s).
Definition set_cycle (v : Z) (s : nghttp2_stream) : nghttp2_stream :=
  Stream (state s) (content_length s) (recv_content_length s) v (seq s) (closed_next s)
    (stream_user_data s) (item s) (last_writelen s) (stream_id s) (remote_window_size s)
    (recv_window_size s) (consumed_size s) (recv_reduction s) (local_window_size s) (pending_penalty s)
    (status_code s) (http_flags s) (flags s) (shut_flags s) (queued s) (window_update_queued s)
    (extpri s) (http_extpri s).
Definition set_item (v : option Z) (s : nghttp2_stream) : nghttp2_stream :=
  Stream (state s) (content_length s) (recv_content_length s) (cycle s) (seq s) (closed_next s)
    (stream_user_data s) v (last_writelen s) (stream_id s) (remote_window_size s) (recv_window_size s)
    (consumed_size s) (recv_reduction s) (local_window_size s) (pending_penalty s) (status_code s)
    (http_flags s) (flags s) (shut_flags s) (queued s) (window_update_queued s) (extpri s)
    (http_extpri s).
Definition set_last_writelen (v : Z) (s : nghttp2_stream) : nghttp2_stream :=
  Stream (state s) (content_length s) (recv_content_length s) (cycle s) (seq s) (closed_next s)
    (stream_user_data s) (item s) v (stream_id s) (remote_window_size s) (recv_window_size s)
    (consumed_size s) (recv_reduction s) (local_window_size s) (pending_penalty s) (status_code s)
    (http_flags s) (flags s) (shut_flags s) (queued s) (window_update_queued s) (extpri s)
    (http_extpri s).
Definition set_remote_window_size (v : Z) (s : nghttp2_stream) : nghttp2_stream :=
  Stream (state s) (content_length s) (recv_content_length s) (cycle s) (seq s) (closed_next s)
    (stream_user_data s) (item s) (last_writelen s) (stream_id s) v (recv_window_size s)
    (consumed_size s) (recv_reduction s) (local_window_size s) (pending_penalty s) (status_code s)
    (http_flags s) (flags s) (shut_flags s) (queued s) (window_update_queued s) (extpri s)
    (http_extpri s).
Definition set_local_window_size (v : Z) (s : nghttp2_stream) : nghttp2_stream :=
  Stream (state s) (content_length s) (recv_content_length s) (cycle s) (seq s) (closed_next s)
    (stream_user_data s) (item s) (last_writelen s) (stream_id s) (remote_window_size s)
    (recv_window_size s) (consumed_size s) (recv_reduction s) v (pending_penalty s) (status_code s)
    (http_flags s) (flags s) (shut_flags s) (queued s) (window_update_queued s) (extpri s)
    (http_extpri s).
Definition set_flags (v : Z) (s : nghttp2_stream) : nghttp2_stream :=
  Stream (state s) (content_length s) (recv_content_length s) (cycle s) (seq s) (closed_next s)
    (stream_user_data s) (item s) (last_writelen s) (stream_id s) (remote_window_size s)
    (recv_window_size s) (consumed_size s) (recv_reduction s) (local_window_size s) (pending_penalty s)
    (status_code s) (http_flags s) v (shut_flags s) (queued s) (window_update_queued s) (extpri s)
    (http_extpri s).
Definition set_shut_flags (v : Z) (s : nghttp2_stream) : nghttp2_stream :=
  Stream (state s) (content_length s) (recv_content_length s) (cycle s) (seq s) (closed_next s)
    (stream_user_data s) (item s) (last_writelen s) (stream_id s) (remote_window_size s)
    (recv_window_size s) (consumed_size s) (recv_reduction s) (local_window_size s) (pending_penalty s)
    (status_code s) (http_flags s) (flags s) v (queued s) (window_update_queued s) (extpri s)
    (http_extpri s).
Definition set_queued (v : bool) (s : nghttp2_stream) : nghttp2_stream :=
  Stream (state s) (content_length s) (recv_content_length s) (cycle s) (seq s) (closed_next s)
    (stream_user_data s) (item s) (last_writelen s) (stream_id s) (remote_window_size s)
    (recv_window_size s) (consumed_size s) (recv_reduction s) (local_window_size s) (pending_penalty s)
    (status_code s) (http_flags s) (flags s) (shut_flags s) v (window_update_queued s) (extpri s)
    (http_extpri s).
Definition set_extpri (v : Z) (s : nghttp2_stream) : nghttp2_stream :=
  Stream (state s) (content_length s) (recv_content_length s) (cycle s) (seq s) (closed_next s)
    (stream_user_data s) (item s) (last_writelen s) (stream_id s) (remote_window_size s)
    (recv_window_size s) (consumed_size s) (recv_reduction s) (local_window_size s) (pending_penalty s)
    (status_code s) (http_flags s) (flags s) (shut_flags s) (queued s) (window_update_queued s) v
    (http_extpri s).

Definition NGHTTP2_MAX_WINDOW_SIZE : Z := 2147483647.
Definition INT32_MIN : Z := -2147483648.
Definition NGHTTP2_EXTPRI_DEFAULT_URGENCY : Z := 3.

Definition nghttp2_stream_init (id fl : Z) (initial_state : nghttp2_stream_state)
    (remote_initial_window_size local_initial_window_size user_data : Z) : nghttp2_stream := {|
  stream_id := id;
  flags := fl;
  state := initial_state;
  shut_flags := NGHTTP2_SHUT_NONE;
  stream_user_data := user_data;
  item := None;
  remote_window_size := remote_initial_window_size;
  local_window_size := local_initial_window_size;
  recv_window_size := 0;
  consumed_size := 0;
  recv_reduction := 0;
  window_update_queued := false;
  closed_next := 0;
  http_flags := NGHTTP2_HTTP_FLAG_NONE;
  content_length := -1;
  recv_content_length := 0;
  status_code := -1;
  queued := false;
  cycle := 0;
  pending_penalty := 0;
  seq := 0;
  last_writelen := 0;
  extpri := NGHTTP2_EXTPRI_DEFAULT_URGENCY;
  http_extpri := NGHTTP2_EXTPRI_DEFAULT_URGENCY
|}.

Definition nghttp2_stream_shutdown (s : nghttp2_stream) (flag : Z) : nghttp2_stream :=
  set_shut_flags (u8 (Z.lor (shut_flags s) flag)) s.

(** A test of flags. *)
Definition has (x flag : Z) : bool := negb (Z.land x flag =? 0).

(** [x & ~flag] on a byte. *)
Definition clear (x flag : Z) : Z := Z.ldiff x flag.

(** *** The item to send *)

Definition nghttp2_stream_attach_item (s : nghttp2_stream) (it : Z) : option nghttp2_stream :=
  if has (flags s) NGHTTP2_STREAM_FLAG_DEFERRED_ALL then None else
  match item s with
  | Some _ => None
  | None => Some (set_item (Some it) s)
  end.

Definition nghttp2_stream_detach_item (s : nghttp2_stream) : nghttp2_stream :=
  set_flags (clear (flags s) NGHTTP2_STREAM_FLAG_DEFERRED_ALL) (set_item None s).

Definition nghttp2_stream_defer_item (s : nghttp2_stream) (fl : Z) : option nghttp2_stream :=
  match item s with
  | None => None
  | Some _ => Some (set_flags (u8 (Z.lor (flags s) fl)) s)
  end.

Definition nghttp2_stream_resume_deferred_item (s : nghttp2_stream) (fl : Z) : option nghttp2_stream :=
  match item s with
  | None => None
  | Some _ => Some (set_flags (clear (flags s) fl) s)
  end.

Definition nghttp2_stream_check_deferred_item (s : nghttp2_stream) : bool :=
  match item s with
  | Some _ => has (flags s) NGHTTP2_STREAM_FLAG_DEFERRED_ALL
  | None => false
  end.

Definition nghttp2_stream_check_deferred_by_flow_control (s : nghttp2_stream) : bool :=
  match item s with
  | Some _ => has (flags s) NGHTTP2_STREAM_FLAG_DEFERRED_FLOW_CONTROL
  | None => false
  end.

(** *** Flow-control windows *)

(** In 64 bits, where nothing overflows: the result, and the window. *)
Definition update_initial_window_size (window_size new_initial old_initial : Z) : Z * Z :=
  let new_window_size := window_size + new_initial - old_initial in
  if (new_window_size <? INT32_MIN) || (NGHTTP2_MAX_WINDOW_SIZE <? new_window_size) then (-1, window_size)
  else (0, new_window_size).

Definition nghttp2_stream_update_remote_initial_window_size (s : nghttp2_stream) (new_initial old_initial : Z) : Z * nghttp2_stream :=
  let '(rv, w) := update_initial_window_size (remote_window_size s) new_initial old_initial in
  (rv, set_remote_window_size w s).

Definition nghttp2_stream_update_local_initial_window_size (s : nghttp2_stream) (new_initial old_initial : Z) : Z * nghttp2_stream :=
  let '(rv, w) := update_initial_window_size (local_window_size s) new_initial old_initial in
  (rv, set_local_window_size w s).

(** *** The state *)

Definition nghttp2_stream_promise_fulfilled (s : nghttp2_stream) : nghttp2_stream :=
  set_flags (clear (flags s) NGHTTP2_STREAM_FLAG_PUSH) (set_state NGHTTP2_STREAM_OPENED s).

(** [is_root]: whether the stream is the static [root]. *)
Definition nghttp2_stream_get_state (is_root : bool) (s : nghttp2_stream) : nghttp2_stream_proto_state :=
  if is_root then NGHTTP2_STREAM_STATE_IDLE else
  if has (flags s) NGHTTP2_STREAM_FLAG_CLOSED then NGHTTP2_STREAM_STATE_CLOSED else
  if has (flags s) NGHTTP2_STREAM_FLAG_PUSH && has (shut_flags s) NGHTTP2_SHUT_RD then NGHTTP2_STREAM_STATE_RESERVED_LOCAL else
  if has (flags s) NGHTTP2_STREAM_FLAG_PUSH && has (shut_flags s) NGHTTP2_SHUT_WR then NGHTTP2_STREAM_STATE_RESERVED_REMOTE else
  if has (shut_flags s) NGHTTP2_SHUT_RD then NGHTTP2_STREAM_STATE_HALF_CLOSED_REMOTE else
  if has (shut_flags s) NGHTTP2_SHUT_WR then NGHTTP2_STREAM_STATE_HALF_CLOSED_LOCAL else
  match state s with
  | NGHTTP2_STREAM_IDLE => NGHTTP2_STREAM_STATE_IDLE
  | _ => NGHTTP2_STREAM_STATE_OPEN
  end.

(** ** Extensible priorities: [nghttp2_extpri.c]

    An urgency and the incremental bit in a byte. *)

Definition NGHTTP2_EXTPRI_INC_MASK : Z := Z.shiftl 1 7.
Definition NGHTTP2_EXTPRI_URGENCY_LOW : Z := 7.
Definition NGHTTP2_EXTPRI_URGENCY_LEVELS : Z := NGHTTP2_EXTPRI_URGENCY_LOW + 1.

Record nghttp2_extpri := Extpri { urgency : Z; inc : bool }.

Definition nghttp2_extpri_uint8_urgency (pri : Z) : Z := clear pri NGHTTP2_EXTPRI_INC_MASK.
Definition nghttp2_extpri_uint8_inc (pri : Z) : bool := has pri NGHTTP2_EXTPRI_INC_MASK.

Definition nghttp2_extpri_to_uint8 (e : nghttp2_extpri) : Z :=
  u8 (Z.lor (u32 (Z.shiftl (if inc e then 1 else 0) 7)) (urgency e)).

Definition nghttp2_extpri_from_uint8 (u8extpri : Z) : nghttp2_extpri :=
  Extpri (nghttp2_extpri_uint8_urgency u8extpri) (nghttp2_extpri_uint8_inc u8extpri).

(** A priority comes back from its byte. *)
Definition extpri_check (u : Z) (i : bool) : bool :=
  let e := nghttp2_extpri_from_uint8 (nghttp2_extpri_to_uint8 (Extpri u i)) in
  (urgency e =? u) && Bool.eqb (inc e) i.

Lemma extpri_roundtrip u i : 0 <= u < 128 -> nghttp2_extpri_from_uint8 (nghttp2_extpri_to_uint8 (Extpri u i)) = Extpri u i.
Proof.
  intros Hu. assert (H : forallb (fun n => extpri_check (Z.of_nat n) true && extpri_check (Z.of_nat n) false) (List.seq 0 128) = true) by (vm_compute; reflexivity).
  rewrite forallb_forall in H. specialize (H (Z.to_nat u)). rewrite Z2Nat.id in H by lia.
  assert (Hin : In (Z.to_nat u) (List.seq 0 128)) by (apply in_seq; lia). specialize (H Hin). apply andb_prop in H as [H1 H2].
  assert (Hc : extpri_check u i = true) by (by destruct i). unfold extpri_check in Hc. apply andb_prop in Hc as [Hz Hb].
  apply Z.eqb_eq in Hz. apply eqb_prop in Hb. destruct (nghttp2_extpri_from_uint8 _). cbn in *. by subst.
Qed.

(** ** Facts *)

(** The window moves by the difference of the two settings, unless that takes it
    out of its range; nothing overflows before the test. *)
Lemma update_initial_window_size_spec w n o :
  update_initial_window_size w n o =
    if decide (INT32_MIN <= w + n - o <= NGHTTP2_MAX_WINDOW_SIZE) then (0, w + n - o) else (-1, w).
Proof.
  unfold update_initial_window_size. destruct (Z.ltb_spec (w + n - o) INT32_MIN); destruct (Z.ltb_spec NGHTTP2_MAX_WINDOW_SIZE (w + n - o));
    cbn [orb]; case_decide; try done; lia.
Qed.
