(* ===== verification/Sched.v ===== *)
(** * The scheduler of outgoing DATA: [nghttp2_session.c]

    The part of the session that decides which stream sends next: for every
    urgency a priority queue of the streams with something to send, ordered by
    [cycle], a virtual time that wraps around, and by [seq] for ties.

    The streams are a store: the address of [pq_entry] stands for the stream it is
    part of, [nghttp2_struct_of] being the identity.  The order of the queues is
    computed from that store, which the operations change.  Failing [assert]s, and
    addresses without a stream, make the result [None]. *)

From stdpp Require Import gmap list.
From S2P Require Import Prelude NgBuf Pq NgStream.

Definition UINT64 (x : Z) : Z := x mod 2 ^ 64.

Definition NGHTTP2_MAX_FRAME_SIZE_MAX : Z := Z.shiftl 1 24 - 1.
Definition NGHTTP2_STREAM_MAX_CYCLE_GAP : Z := NGHTTP2_MAX_FRAME_SIZE_MAX.

Abbreviation store := (gmap ptr nghttp2_stream).

(** The comparison of two streams. *)
Definition cycle_less (lhs rhs : nghttp2_stream) : bool :=
  if cycle lhs =? cycle rhs then seq lhs <? seq rhs
  else UINT64 (cycle rhs - cycle lhs) <=? NGHTTP2_STREAM_MAX_CYCLE_GAP.

Definition stream_less (streams : store) (lhsx rhsx : ptr) : bool :=
  match streams !! lhsx, streams !! rhsx with
  | Some lhs, Some rhs => cycle_less lhs rhs
  | _, _ => false
  end.

(** The session: [sched[i].ob_data], the streams and the positions in their
    entries. *)
Record session := Session {
  streams : store;
  sched : list nghttp2_pq;
  index : indexes;
  mem : nghttp2_mem;
  server : bool
}.

Definition set_streams (s : store) (st : session) : session := Session s (sched st) (index st) (mem st) (server st).
Definition set_queue (u : nat) (pq : nghttp2_pq) (ix : indexes) (m : nghttp2_mem) (st : session) : session :=
  Session (streams st) (<[u := pq]> (sched st)) ix m (server st).
Definition set_stream (x : ptr) (s : nghttp2_stream) (st : session) : session := set_streams (<[x := s]> (streams st)) st.

Definition pq_get_first_cycle (s : store) (pq : nghttp2_pq) : option Z :=
  if nghttp2_pq_empty pq then Some 0 else
  top ← nghttp2_pq_top pq;
  x ← top;
  stream ← s !! x;
  Some (cycle stream).

(** The queue of a stream, with its [assert]. *)
Definition urgency_of (s : nghttp2_stream) : option nat :=
  let u := nghttp2_extpri_uint8_urgency (extpri s) in
  if u <? NGHTTP2_EXTPRI_URGENCY_LEVELS then Some (Z.to_nat u) else None.

Section Scheduler.
Context (malloc_ok : nat -> bool) (junk : nat -> ptr).

Definition session_ob_data_push (st : session) (x : ptr) : option (Z * session) :=
  s ← streams st !! x;
  if queued s then None else
  u ← urgency_of s;
  let i := nghttp2_extpri_uint8_inc (extpri s) in
  pq ← sched st !! u;
  c ← pq_get_first_cycle (streams st) pq;
  let c := if i then UINT64 (c + last_writelen s) else c in
  let s := set_cycle c s in
  let st := set_stream x s st in
  '(rv, pq, ix, m) ← nghttp2_pq_push (stream_less (streams st)) malloc_ok junk pq (index st) x (mem st);
  let st := set_queue u pq ix m st in
  if negb (rv =? 0) then Some (rv, st) else
  Some (0, set_stream x (set_queued true s) st).

Definition session_ob_data_remove (st : session) (x : ptr) : option session :=
  s ← streams st !! x;
  if negb (queued s) then None else
  u ← urgency_of s;
  pq ← sched st !! u;
  '(pq, ix) ← nghttp2_pq_remove (stream_less (streams st)) pq (index st) x;
  Some (set_stream x (set_queued false s) (set_queue u pq ix (mem st) st)).

Definition session_attach_stream_item (st : session) (x : ptr) (it : Z) : option (Z * session) :=
  s ← streams st !! x;
  s ← nghttp2_stream_attach_item s it;
  '(rv, st) ← session_ob_data_push (set_stream x s st) x;
  if negb (rv =? 0) then
    s ← streams st !! x;
    Some (rv, set_stream x (nghttp2_stream_detach_item s) st)
  else Some (0, st).

Definition session_detach_stream_item (st : session) (x : ptr) : option session :=
  s ← streams st !! x;
  let s := nghttp2_stream_detach_item s in
  let st := set_stream x s st in
  if negb (queued s) then Some st else session_ob_data_remove st x.

Definition session_defer_stream_item (st : session) (x : ptr) (fl : Z) : option session :=
  s ← streams st !! x;
  s ← nghttp2_stream_defer_item s fl;
  let st := set_stream x s st in
  if negb (queued s) then Some st else session_ob_data_remove st x.

Definition session_resume_deferred_stream_item (st : session) (x : ptr) (fl : Z) : option (Z * session) :=
  s ← streams st !! x;
  s ← nghttp2_stream_resume_deferred_item s fl;
  let st := set_stream x s st in
  if has (flags s) NGHTTP2_STREAM_FLAG_DEFERRED_ALL then Some (0, st) else session_ob_data_push st x.

(** The item of the first stream of the first queue that is not empty: [None]
    inside is NULL. *)
Fixpoint next_item (s : store) (pqs : list nghttp2_pq) : option (option Z) :=
  match pqs with
  | [] => Some None
  | pq :: pqs =>
      ent ← nghttp2_pq_top pq;
      match ent with
      | None => next_item s pqs
      | Some x => stream ← s !! x; Some (item stream)
      end
  end.

Definition session_sched_get_next_outbound_item (st : session) : option (option Z) := next_item (streams st) (sched st).

Definition session_sched_empty (st : session) : bool := forallb nghttp2_pq_empty (sched st).

Definition session_sched_reschedule_stream (st : session) (x : ptr) : option session :=
  s ← streams st !! x;
  let i := nghttp2_extpri_uint8_inc (extpri s) in
  let penalty := last_writelen s in
  u ← urgency_of s;
  pq ← sched st !! u;
  if negb i || (nghttp2_pq_size pq =? 1)%nat then Some st else
  '(pq, ix) ← nghttp2_pq_remove (stream_less (streams st)) pq (index st) x;
  let st := set_stream x (set_cycle (UINT64 (cycle s + penalty)) s) st in
  '(rv, pq, ix, m) ← nghttp2_pq_push (stream_less (streams st)) malloc_ok junk pq ix x (mem st);
  if negb (rv =? 0) then None else Some (set_queue u pq ix m st).

Definition session_update_stream_priority (st : session) (x : ptr) (u8extpri : Z) : option (Z * session) :=
  s ← streams st !! x;
  if extpri s =? u8extpri then Some (0, st) else
  if queued s then
    st ← session_ob_data_remove st x;
    s ← streams st !! x;
    session_ob_data_push (set_stream x (set_extpri u8extpri s) st) x
  else Some (0, set_stream x (set_extpri u8extpri s) st).

(** [frame_length]: [item->frame.hd.length]. *)
Definition session_reschedule_stream (frame_length : Z -> Z) (st : session) (x : ptr) : option session :=
  s ← streams st !! x;
  it ← item s;
  let st := set_stream x (set_last_writelen (frame_length it) s) st in
  if negb (server st) then Some st else session_sched_reschedule_stream st x.

End Scheduler.
