(* ===== verification/SchedSpec.v ===== *)
(** * The scheduler: what keeps its queues in order

    [cycle] wraps around, so the comparison of two streams means something only
    while the cycles in a queue are close together.  The invariant says that they
    are: there is a base behind which all cycles of a queue lie at most
    [NGHTTP2_STREAM_MAX_CYCLE_GAP] away, and every operation keeps such a base. *)

From stdpp Require Import gmap list.
From S2P Require Import Prelude NgBuf Pq PqSpec NgStream Sched.

Abbreviation GAP := NGHTTP2_STREAM_MAX_CYCLE_GAP.

Lemma GAP_eq : GAP = 16777215.
Proof. reflexivity. Qed.

(** ** Virtual time *)

(** How far behind the base a cycle is. *)
Definition off (b : Z) (s : nghttp2_stream) : Z := UINT64 (cycle s - b).

Lemma UINT64_range x : 0 <= UINT64 x < 2 ^ 64.
Proof. apply Z.mod_pos_bound. lia. Qed.

Lemma UINT64_small x : 0 <= x < 2 ^ 64 -> UINT64 x = x.
Proof. intros H. by apply Z.mod_small. Qed.

Lemma UINT64_add x y : UINT64 (UINT64 x + y) = UINT64 (x + y).
Proof. unfold UINT64. by rewrite Z.add_mod_idemp_l by lia. Qed.

Lemma off_diff b s1 s2 : UINT64 (cycle s2 - cycle s1) = UINT64 (off b s2 - off b s1).
Proof. unfold off, UINT64. rewrite <- Zminus_mod. f_equal. lia. Qed.

Lemma off_eq b s1 s2 : 0 <= cycle s1 < 2 ^ 64 -> 0 <= cycle s2 < 2 ^ 64 -> off b s1 = off b s2 -> cycle s1 = cycle s2.
Proof.
  intros H1 H2 E. pose proof (off_diff b s1 s2) as Hd. rewrite E, Z.sub_diag in Hd. change (UINT64 0) with 0 in Hd.
  unfold UINT64 in Hd. pose proof (Z.div_mod (cycle s2 - cycle s1) (2 ^ 64)). rewrite Hd in H. nia.
Qed.

(** In a window the comparison is that of the distances from the base. *)
Lemma cycle_less_off b s1 s2 : 0 <= cycle s1 < 2 ^ 64 -> 0 <= cycle s2 < 2 ^ 64 -> off b s1 <= GAP -> off b s2 <= GAP ->
  cycle_less s1 s2 = (off b s1 <? off b s2) || ((off b s1 =? off b s2) && (seq s1 <? seq s2)).
Proof.
  intros H1 H2 G1 G2. pose proof (UINT64_range (cycle s1 - b)) as R1. pose proof (UINT64_range (cycle s2 - b)) as R2.
  fold (off b s1) in R1. fold (off b s2) in R2. unfold cycle_less. rewrite GAP_eq in *.
  destruct (Z.eqb_spec (cycle s1) (cycle s2)) as [E|E].
  - assert (Eo : off b s1 = off b s2) by (unfold off; by rewrite E). rewrite Eo, Z.ltb_irrefl, Z.eqb_refl. done.
  - assert (Hne : off b s1 <> off b s2) by (intros Eo; apply E; by apply (off_eq b)).
    rewrite (off_diff b). destruct (Z.eqb_spec (off b s1) (off b s2)); [done|]. cbn [andb]. rewrite orb_false_r.
    unfold UINT64. destruct (Z.ltb_spec (off b s1) (off b s2)) as [Hlt|Hge].
    + rewrite Z.mod_small by lia. apply Z.leb_le. lia.
    + replace (off b s2 - off b s1) with (2 ^ 64 - (off b s1 - off b s2) + (-1) * 2 ^ 64) by lia. rewrite Z.mod_add by lia.
      rewrite Z.mod_small by lia. apply Z.leb_gt. lia.
Qed.

(** ** The order of a queue *)

(** The streams in the window of the base. *)
Definition Dom (ss : store) (b : Z) (x : ptr) : Prop :=
  exists s, ss !! x = Some s /\ 0 <= cycle s < 2 ^ 64 /\ off b s <= GAP.

Lemma stream_less_off ss b x y s1 s2 : Dom ss b x -> Dom ss b y -> ss !! x = Some s1 -> ss !! y = Some s2 ->
  stream_less ss x y = (off b s1 <? off b s2) || ((off b s1 =? off b s2) && (seq s1 <? seq s2)).
Proof.
  intros (t1 & E1 & C1 & G1) (t2 & E2 & C2 & G2) H1 H2. rewrite H1 in E1. rewrite H2 in E2. injection E1 as <-. injection E2 as <-.
  unfold stream_less. rewrite H1, H2. by apply cycle_less_off.
Qed.

Lemma stream_order ss b : weak_order (stream_less ss) (Dom ss b).
Proof.
  constructor.
  - intros x y Hx Hy. pose proof Hx as (s1 & E1 & _). pose proof Hy as (s2 & E2 & _).
    rewrite (stream_less_off ss b x y s1 s2), (stream_less_off ss b y x s2 s1) by done. lia.
  - intros x y z Hx Hy Hz. unfold le. pose proof Hx as (s1 & E1 & _). pose proof Hy as (s2 & E2 & _). pose proof Hz as (s3 & E3 & _).
    rewrite (stream_less_off ss b y x s2 s1), (stream_less_off ss b z y s3 s2), (stream_less_off ss b z x s3 s1) by done. lia.
Qed.

(** ** Queues and stores *)

(** A queue of the session. *)
Definition queue_ok (ss : store) (ix : indexes) (pq : nghttp2_pq) : Prop := exists b, pq_ok (stream_less ss) (Dom ss b) pq ix.

(** What the order of a queue looks at. *)
Definition same_key (s s' : nghttp2_stream) : Prop := cycle s' = cycle s /\ seq s' = seq s.

Lemma good_ext pq ix ix' : good pq ix -> (forall x, x ∈ items pq -> ix' !! x = ix !! x) -> good pq ix'.
Proof.
  intros G H. constructor; [apply (good_length pq ix G)|apply (good_capacity pq ix G)|].
  intros i x Hx. rewrite H; [by apply (good_index pq ix G)|by apply (list_elem_of_lookup_2 _ i)].
Qed.

Lemma queue_ext ss ss' ix ix' pq b : pq_ok (stream_less ss) (Dom ss b) pq ix ->
  (forall x s, x ∈ items pq -> ss !! x = Some s -> exists s', ss' !! x = Some s' /\ same_key s s') ->
  (forall x, x ∈ items pq -> ix' !! x = ix !! x) -> pq_ok (stream_less ss') (Dom ss' b) pq ix'.
Proof.
  intros [G HD H] Hs Hi.
  assert (Hkey : forall x, x ∈ items pq -> exists s s', ss !! x = Some s /\ ss' !! x = Some s' /\ same_key s s').
  { intros x Hx. rewrite Forall_forall in HD. destruct (HD x Hx) as (s & E & _). destruct (Hs x s Hx E) as (s' & E' & K). by exists s, s'. }
  assert (Hl : forall x y, x ∈ items pq -> y ∈ items pq -> stream_less ss' x y = stream_less ss x y).
  { intros x y Hx Hy. destruct (Hkey x Hx) as (s1 & t1 & E1 & F1 & C1 & Q1). destruct (Hkey y Hy) as (s2 & t2 & E2 & F2 & C2 & Q2).
    unfold stream_less. rewrite E1, E2, F1, F2. unfold cycle_less. by rewrite C1, C2, Q1, Q2. }
  constructor.
  - by apply (good_ext pq ix).
  - apply Forall_forall. intros x Hx. rewrite Forall_forall in HD. destruct (HD x Hx) as (s & E & HC & HG).
    destruct (Hs x s Hx E) as (s' & E' & K1 & K2). exists s'. unfold off. by rewrite K1.
  - intros j Hj Hp. pose proof (par_lt j ltac:(lia)). unfold le.
    rewrite Hl; [by apply H|..]; eapply list_elem_of_lookup_2; apply lookup_total_Some; lia.
Qed.

(** The base may be moved up to the first cycle. *)
Lemma rebase ss b pq ix t st : pq_ok (stream_less ss) (Dom ss b) pq ix -> (0 < length pq)%nat ->
  t = items pq !!! 0%nat -> ss !! t = Some st -> pq_ok (stream_less ss) (Dom ss (cycle st)) pq ix /\ off (cycle st) st = 0.
Proof.
  intros OK Hl -> Et. pose proof OK as [G HD H]. pose proof (items_size pq ix G) as Hs.
  split; [|unfold off; by rewrite Z.sub_diag].
  constructor; [done| |done]. apply Forall_forall. intros x Hx. rewrite Forall_forall in HD.
  destruct (HD x Hx) as (s & E & HC & HG). exists s. split; [done|]. split; [done|].
  assert (Ht : Dom ss b (items pq !!! 0%nat)).
  { apply HD. apply (list_elem_of_lookup_2 _ 0), lookup_total_Some. lia. }
  pose proof Hx as Hx'. apply list_elem_of_lookup_1 in Hx' as [i Hi]. pose proof (lookup_lt_Some _ _ _ Hi).
  assert (Hle : le (stream_less ss) (items pq !!! 0%nat) x).
  { rewrite lookup_total_Some in Hi by done. injection Hi as <-. apply (heap_top (stream_less ss) (Dom ss b) (stream_order ss b)); [done| |done].
    by apply Forall_forall. }
  unfold le in Hle. rewrite (stream_less_off ss b x _ s st (HD x Hx) Ht E Et) in Hle.
  destruct Ht as (st' & Et' & HCt & HGt). rewrite Et in Et'. injection Et' as <-.
  assert (Hoff : off b st <= off b s) by lia. unfold off at 1. rewrite (off_diff b).
  pose proof (UINT64_range (cycle st - b)). pose proof (UINT64_range (cycle s - b)). fold (off b st) in *. fold (off b s) in *.
  rewrite UINT64_small by lia. lia.
Qed.

(** The first cycle, and the window behind it. *)
Lemma first_cycle ss ix pq : queue_ok ss ix pq ->
  exists c, pq_get_first_cycle ss pq = Some c /\ 0 <= c < 2 ^ 64 /\ pq_ok (stream_less ss) (Dom ss c) pq ix /\
    (forall x s, x ∈ items pq -> ss !! x = Some s -> cycle s = c -> off c s = 0).
Proof.
  intros [b OK]. pose proof OK as [G HD H]. pose proof (items_size pq ix G) as Hs. unfold pq_get_first_cycle, nghttp2_pq_empty.
  destruct (Nat.eqb_spec (length pq) 0) as [H0|H0].
  - assert (Hnil : items pq = []) by (apply nil_length_inv; lia). exists 0. split; [done|]. split; [lia|].
    split; [constructor; [done|by rewrite Hnil|done]|]. intros x s Hx. rewrite Hnil in Hx. by apply elem_of_nil in Hx.
  - destruct (top_spec (stream_less ss) (Dom ss b) pq ix (stream_order ss b) OK) as [-> _]; [lia|]. cbn [mbind option_bind].
    assert (Ht : Dom ss b (items pq !!! 0%nat)).
    { rewrite Forall_forall in HD. apply HD. apply (list_elem_of_lookup_2 _ 0), lookup_total_Some. lia. }
    destruct Ht as (st & Et & HC & _). rewrite Et. cbn [mbind option_bind]. exists (cycle st). split; [done|]. split; [done|].
    destruct (rebase ss b pq ix _ st OK ltac:(lia) eq_refl Et) as [OK' _]. split; [done|].
    intros x s _ _ Ec. unfold off. by rewrite Ec, Z.sub_diag.
Qed.

(** ** The session *)

Definition ready (s : nghttp2_stream) : Prop :=
  is_Some (item s) /\ has (flags s) NGHTTP2_STREAM_FLAG_DEFERRED_ALL = false.

Record stream_ok (s : nghttp2_stream) : Prop := {
  cycle_range : 0 <= cycle s < 2 ^ 64;
  writelen_range : 0 <= last_writelen s <= GAP;
  queued_ready : queued s = true -> ready s
}.

(** A stream is in a queue, that of its urgency, exactly when its flag [queued]
    says so; every queue is in order. *)
Record sched_ok (st : session) : Prop := {
  ok_levels : size (sched st) = 8%nat;
  ok_queues : forall u pq, sched st !! u = Some pq -> queue_ok (streams st) (index st) pq;
  ok_members : forall u pq x, sched st !! u = Some pq -> x ∈ items pq ->
    exists s, streams st !! x = Some s /\ queued s = true /\ urgency_of s = Some u;
  ok_queued : forall x s, streams st !! x = Some s -> queued s = true ->
    exists u pq, urgency_of s = Some u /\ sched st !! u = Some pq /\ x ∈ items pq;
  ok_streams : forall x s, streams st !! x = Some s -> stream_ok s
}.

Lemma urgency_lt s u : urgency_of s = Some u -> 0 <= extpri s -> (u < 8)%nat.
Proof.
  unfold urgency_of. destruct (Z.ltb_spec (nghttp2_extpri_uint8_urgency (extpri s)) NGHTTP2_EXTPRI_URGENCY_LEVELS) as [H|]; [|done].
  intros [= <-] _. unfold NGHTTP2_EXTPRI_URGENCY_LEVELS, NGHTTP2_EXTPRI_URGENCY_LOW in H. lia.
Qed.

Lemma queue_exists st s u : sched_ok st -> urgency_of s = Some u -> exists pq, sched st !! u = Some pq.
Proof.
  intros OK Hu. apply lookup_lt_is_Some_2. rewrite (ok_levels st OK). unfold urgency_of in Hu.
  destruct (Z.ltb_spec (nghttp2_extpri_uint8_urgency (extpri s)) NGHTTP2_EXTPRI_URGENCY_LEVELS) as [H|]; [|done].
  injection Hu as <-. unfold NGHTTP2_EXTPRI_URGENCY_LEVELS, NGHTTP2_EXTPRI_URGENCY_LOW in H. lia.
Qed.

(** A stream is in no queue but its own. *)
Lemma not_elsewhere st x s u pq : sched_ok st -> streams st !! x = Some s -> sched st !! u = Some pq -> x ∈ items pq ->
  queued s = true /\ urgency_of s = Some u.
Proof. intros OK Hs Hu Hx. destruct (ok_members st OK u pq x Hu Hx) as (s' & E & Q & U). rewrite Hs in E. by injection E as <-. Qed.

(** One stream and one queue replaced. *)
Lemma replace_ok st x s s' u pq pq' ix' m' : sched_ok st -> streams st !! x = Some s -> sched st !! u = Some pq ->
  (queued s = true -> urgency_of s = Some u) ->
  queue_ok (<[x := s']> (streams st)) ix' pq' ->
  (forall z, z <> x -> z ∈ items pq' <-> z ∈ items pq) ->
  (x ∈ items pq' <-> queued s' = true) -> (queued s' = true -> urgency_of s' = Some u) ->
  (forall z, z ∉ items pq -> z <> x -> ix' !! z = index st !! z) -> stream_ok s' ->
  sched_ok (Session (<[x := s']> (streams st)) (<[u := pq']> (sched st)) ix' m' (server st)).
Proof.
  intros OK Hs Hu Hqu Hq Hitems Hx Hxu Hix Hok. pose proof (lookup_lt_Some _ _ _ Hu) as Hlt.
  assert (Hno : forall v p, v <> u -> sched st !! v = Some p -> x ∉ items p).
  { intros v p Hv Hp Hin. destruct (not_elsewhere st x s v p OK Hs Hp Hin) as [Q U]. rewrite (Hqu Q) in U. congruence. }
  constructor; cbn.
  - rewrite length_insert. apply (ok_levels st OK).
  - intros v p Hp. destruct (decide (v = u)) as [->|Hv].
    + rewrite list_lookup_insert_eq in Hp by done. by injection Hp as <-.
    + rewrite list_lookup_insert_ne in Hp by done. destruct (ok_queues st OK v p Hp) as [b Hb]. exists b.
      apply (queue_ext (streams st) _ (index st) _ p b Hb).
      * intros z t Hz Ht. assert (z <> x) by (intros ->; by apply (Hno v p)). rewrite lookup_insert_ne by done. by exists t.
      * intros z Hz. assert (z <> x) by (intros ->; by apply (Hno v p)). apply Hix; [|done]. intros Hin.
        destruct (ok_members st OK v p z Hp Hz) as (t & E & _ & U). destruct (ok_members st OK u pq z Hu Hin) as (t' & E' & _ & U'). congruence.
  - intros v p z Hp Hz. destruct (decide (v = u)) as [->|Hv].
    + rewrite list_lookup_insert_eq in Hp by done. injection Hp as <-. destruct (decide (z = x)) as [->|Hzx].
      * exists s'. rewrite lookup_insert_eq. apply Hx in Hz. split; [done|]. split; [done|by apply Hxu].
      * rewrite lookup_insert_ne by done. apply (ok_members st OK u pq z Hu). by apply Hitems.
    + rewrite list_lookup_insert_ne in Hp by done. assert (z <> x) by (intros ->; by apply (Hno v p)).
      rewrite lookup_insert_ne by done. by apply (ok_members st OK v p z).
  - intros z t Ht Hqt. destruct (decide (z = x)) as [->|Hzx].
    + rewrite lookup_insert_eq in Ht. injection Ht as <-. exists u, pq'. split; [by apply Hxu|]. split; [by rewrite list_lookup_insert_eq|by apply Hx].
    + rewrite lookup_insert_ne in Ht by done. destruct (ok_queued st OK z t Ht Hqt) as (v & p & U & Hp & Hz).
      destruct (decide (v = u)) as [->|Hv].
      * rewrite Hu in Hp. injection Hp as <-. exists u, pq'. split; [done|]. split; [by rewrite list_lookup_insert_eq|by apply Hitems].
      * exists v, p. split; [done|]. split; [by rewrite list_lookup_insert_ne|done].
  - intros z t Ht. destruct (decide (z = x)) as [->|Hzx]; [rewrite lookup_insert_eq in Ht; by injection Ht as <-|].
    rewrite lookup_insert_ne in Ht by done. by apply (ok_streams st OK z t).
Qed.

(** A stream changed, but nothing the queues depend on. *)
Lemma set_stream_ok st x s s' : sched_ok st -> streams st !! x = Some s -> queued s' = queued s ->
  (queued s = true -> same_key s s' /\ urgency_of s' = urgency_of s) -> stream_ok s' -> sched_ok (set_stream x s' st).
Proof.
  intros OK Hs Hq Hk Hok. constructor; cbn.
  - apply (ok_levels st OK).
  - intros u pq Hu. destruct (ok_queues st OK u pq Hu) as [b Hb]. exists b. apply (queue_ext (streams st) _ (index st) _ pq b Hb); [|done].
    intros z t Hz Ht. destruct (decide (z = x)) as [->|Hzx].
    + rewrite Hs in Ht. injection Ht as <-. exists s'. rewrite lookup_insert_eq. split; [done|]. apply Hk. by apply (not_elsewhere st x s u pq).
    + rewrite lookup_insert_ne by done. by exists t.
  - intros u pq z Hu Hz. destruct (decide (z = x)) as [->|Hzx].
    + destruct (not_elsewhere st x s u pq OK Hs Hu Hz) as [Q U]. exists s'. rewrite lookup_insert_eq. split; [done|]. split; [congruence|].
      rewrite (proj2 (Hk Q)). done.
    + rewrite lookup_insert_ne by done. by apply (ok_members st OK u pq z).
  - intros z t Ht Hqt. destruct (decide (z = x)) as [->|Hzx].
    + rewrite lookup_insert_eq in Ht. injection Ht as <-. rewrite Hq in Hqt. destruct (ok_queued st OK x s Hs Hqt) as (u & pq & U & Hu & Hx).
      exists u, pq. split; [|done]. by rewrite (proj2 (Hk Hqt)).
    + rewrite lookup_insert_ne in Ht by done. by apply (ok_queued st OK z t).
  - intros z t Ht. destruct (decide (z = x)) as [->|Hzx]; [rewrite lookup_insert_eq in Ht; by injection Ht as <-|].
    rewrite lookup_insert_ne in Ht by done. by apply (ok_streams st OK z t).
Qed.

Lemma set_stream_twice x s s' st : set_stream x s' (set_stream x s st) = set_stream x s' st.
Proof. unfold set_stream, set_streams. cbn. by rewrite insert_insert_eq. Qed.

Section Ops.
Context (malloc_ok : nat -> bool) (junk : nat -> ptr).

(** Removing a stream whose item or flags have just been changed. *)
Lemma remove_ok st x s s1 : sched_ok st -> streams st !! x = Some s -> queued s = true -> queued s1 = true -> same_key s s1 ->
  urgency_of s1 = urgency_of s -> stream_ok (set_queued false s1) ->
  exists st', session_ob_data_remove (set_stream x s1 st) x = Some st' /\ sched_ok st' /\
    streams st' = <[x := set_queued false s1]> (streams st) /\ server st' = server st.
Proof.
  intros OK Hs Hq Hq1 Hk Hu1 Hok. destruct (ok_queued st OK x s Hs Hq) as (u & pq & U & Hu & Hx).
  unfold session_ob_data_remove. cbn [streams set_stream set_streams sched index mem]. rewrite lookup_insert_eq. cbn [mbind option_bind].
  rewrite Hq1, Hu1, U. cbn [negb mbind option_bind]. rewrite Hu. cbn [mbind option_bind].
  destruct (ok_queues st OK u pq Hu) as [b Hb].
  assert (Hb1 : pq_ok (stream_less (<[x:=s1]> (streams st))) (Dom (<[x:=s1]> (streams st)) b) pq (index st)).
  { apply (queue_ext (streams st) _ (index st) _ pq b Hb); [|done]. intros z t Hz Ht. destruct (decide (z = x)) as [->|Hzx].
    - rewrite Hs in Ht. injection Ht as <-. exists s1. by rewrite lookup_insert_eq.
    - rewrite lookup_insert_ne by done. by exists t. }
  destruct (remove_spec _ _ (stream_order _ b) pq (index st) x Hb1 Hx) as (pq' & ix' & -> & OK' & P & _ & Hout). cbn [mbind option_bind].
  assert (Hnd : NoDup (x :: items pq')) by (rewrite <- P; apply (indexed_NoDup _ (index st)), (good_index _ _ (ok_good _ _ _ _ Hb))).
  apply NoDup_cons in Hnd as [Hxn Hnd].
  eexists. split; [reflexivity|]. split; [|split; [cbn; by rewrite insert_insert_eq|done]].
  unfold set_stream, set_queue, set_streams. cbn. rewrite insert_insert_eq.
  apply (replace_ok st x s (set_queued false s1) u pq); [done|done|done|intros _; done| | | |done| |done].
  - exists b. apply (queue_ext (<[x:=s1]> (streams st)) _ ix' _ pq' b OK'); [|done]. intros z t Hz Ht.
    assert (z <> x) by (intros ->; done). rewrite lookup_insert_ne in Ht by done. rewrite lookup_insert_ne by done. by exists t.
  - intros z Hz. rewrite P, elem_of_cons. split; [by right|by intros [->|?]].
  - cbn. split; [done|discriminate].
  - intros z Hz _. by apply Hout.
Qed.

(** Queueing a stream that has just been made ready. *)
Lemma push_ok st x s s1 u : sched_ok st -> streams st !! x = Some s -> queued s = false -> queued s1 = false ->
  urgency_of s1 = Some u -> stream_ok s1 -> ready s1 ->
  exists rv st' c, session_ob_data_push malloc_ok junk (set_stream x s1 st) x = Some (rv, st') /\ sched_ok st' /\ server st' = server st /\
    ((rv = 0 /\ streams st' = <[x := set_queued true (set_cycle c s1)]> (streams st)) \/
     (rv = NGHTTP2_ERR_NOMEM /\ streams st' = <[x := set_cycle c s1]> (streams st) /\ exists k, malloc_ok k = false)).
Proof.
  intros OK Hs Hq Hq1 U Hok Hr. destruct (queue_exists st s1 u OK U) as [pq Hu].
  unfold session_ob_data_push. cbn [streams set_stream set_streams sched index mem]. rewrite lookup_insert_eq. cbn [mbind option_bind].
  rewrite Hq1, U. cbn [mbind option_bind]. rewrite Hu. cbn [mbind option_bind].
  assert (Hxn : x ∉ items pq).
  { intros Hin. destruct (not_elsewhere st x s u pq OK Hs Hu Hin) as [Q _]. congruence. }
  assert (Hq1' : queue_ok (<[x:=s1]> (streams st)) (index st) pq).
  { destruct (ok_queues st OK u pq Hu) as [b Hb]. exists b. apply (queue_ext (streams st) _ (index st) _ pq b Hb); [|done].
    intros z t Hz Ht. assert (z <> x) by (intros ->; done). rewrite lookup_insert_ne by done. by exists t. }
  destruct (first_cycle _ _ _ Hq1') as (c & -> & Hc & Hb & _). cbn [mbind option_bind].
  set (c' := if nghttp2_extpri_uint8_inc (extpri s1) then UINT64 (c + last_writelen s1) else c).
  assert (Hc' : 0 <= c' < 2 ^ 64 /\ UINT64 (c' - c) <= GAP).
  { unfold c'. pose proof (writelen_range s1 Hok) as Hw. rewrite GAP_eq in *. destruct (nghttp2_extpri_uint8_inc (extpri s1)).
    - split; [apply UINT64_range|]. replace (UINT64 (c + last_writelen s1) - c) with (UINT64 (c + last_writelen s1) + (- c)) by lia.
      rewrite UINT64_add. replace (c + last_writelen s1 + - c) with (last_writelen s1) by lia. rewrite UINT64_small by lia. lia.
    - split; [done|]. rewrite Z.sub_diag. change (UINT64 0) with 0. lia. }
  destruct Hc' as [Hc1 Hc2]. set (s2 := set_cycle c' s1). rewrite insert_insert_eq.
  assert (Hb2 : pq_ok (stream_less (<[x:=s2]> (streams st))) (Dom (<[x:=s2]> (streams st)) c) pq (index st)).
  { apply (queue_ext (<[x:=s1]> (streams st)) _ (index st) _ pq c Hb); [|done]. intros z t Hz Ht.
    assert (z <> x) by (intros ->; done). rewrite lookup_insert_ne in Ht by done. rewrite lookup_insert_ne by done. by exists t. }
  assert (HDx : Dom (<[x:=s2]> (streams st)) c x) by (exists s2; rewrite lookup_insert_eq; done).
  assert (Hok2 : stream_ok s2) by (constructor; [done|apply (writelen_range s1 Hok)|cbn; rewrite Hq1; discriminate]).
  destruct (push_spec _ _ (stream_order _ c) malloc_ok junk pq (index st) x (mem st) Hb2 Hxn HDx) as [(m' & -> & Hm & _)|(pq' & ix' & m' & -> & OK' & P & Hout)];
    cbn [mbind option_bind Z.eqb negb NGHTTP2_ERR_NOMEM].
  - eexists _, _, c'. split; [reflexivity|]. split; [|split; [done|right; split; [done|split; [cbn; by rewrite insert_insert_eq|by exists (requests (mem st))]]]].
    unfold set_queue. cbn. rewrite list_insert_id by done. rewrite insert_insert_eq.
    assert (Hst : sched_ok (set_stream x s2 st)) by (apply (set_stream_ok st x s s2); [done|done|cbn; congruence|congruence|done]).
    destruct Hst as [A1 A2 A3 A4 A5]. constructor; done.
  - eexists _, _, c'. split; [reflexivity|]. split; [|split; [done|left; split; [done|]; cbn; rewrite !insert_insert_eq; done]].
    unfold set_queue, set_stream, set_streams. cbn. rewrite !insert_insert_eq.
    apply (replace_ok st x s (set_queued true s2) u pq); [done|done|done|congruence| | | |done| |].
    + exists c. apply (queue_ext (<[x:=s2]> (streams st)) _ ix' _ pq' c OK'); [|done]. intros z t Hz Ht. destruct (decide (z = x)) as [->|Hzx].
      * rewrite lookup_insert_eq in *. injection Ht as <-. by exists (set_queued true s2).
      * rewrite lookup_insert_ne in * by done. by exists t.
    + intros z Hz. rewrite P, elem_of_cons. split; [by intros [->|?]|by right].
    + split; [done|]. intros _. rewrite P. by left.
    + intros z Hz Hzx. by apply Hout.
    + constructor; [done|apply (writelen_range s1 Hok)|intros _; exact Hr].
Qed.

(** After a DATA frame of a stream whose turn it was. *)
Lemma reschedule_ok st x s u pq : sched_ok st -> streams st !! x = Some s -> queued s = true -> urgency_of s = Some u ->
  sched st !! u = Some pq -> pq_get_first_cycle (streams st) pq = Some (cycle s) ->
  exists st', session_sched_reschedule_stream malloc_ok junk st x = Some st' /\ sched_ok st' /\ server st' = server st /\
    (exists pq', sched st' = <[u := pq']> (sched st) /\ items pq' ≡ₚ items pq) /\
    ((st' = st /\ (nghttp2_extpri_uint8_inc (extpri s) = false \/ size (items pq) = 1%nat)) \/
     streams st' = <[x := set_cycle (UINT64 (cycle s + last_writelen s)) s]> (streams st)).
Proof.
  intros OK Hs Hq U Hu Hfirst. unfold session_sched_reschedule_stream. rewrite Hs. cbn [mbind option_bind]. rewrite U. cbn [mbind option_bind].
  rewrite Hu. cbn [mbind option_bind]. destruct (negb (nghttp2_extpri_uint8_inc (extpri s)) || (nghttp2_pq_size pq =? 1)%nat) eqn:Eskip.
  { exists st. split; [done|]. split; [done|]. split; [done|]. split; [exists pq; by rewrite list_insert_id|]. left. split; [done|].
    destruct (ok_queues st OK u pq Hu) as [b Hb]. rewrite (items_size _ _ (ok_good _ _ _ _ Hb)).
    apply orb_prop in Eskip as [E|E]; [left; by apply negb_true_iff in E|right; by apply Nat.eqb_eq in E]. }
  destruct (first_cycle _ _ _ (ok_queues st OK u pq Hu)) as (c & Ec & Hc & Hb & _). rewrite Hfirst in Ec. injection Ec as <-.
  destruct (ok_queued st OK x s Hs Hq) as (u' & pq' & U' & Hu' & Hx). rewrite U in U'. injection U' as <-. rewrite Hu in Hu'. injection Hu' as <-.
  destruct (remove_spec _ _ (stream_order _ (cycle s)) pq (index st) x Hb Hx) as (p1 & i1 & -> & OK1 & P1 & C1 & Hout1). cbn [mbind option_bind].
  assert (Hnd : NoDup (x :: items p1)) by (rewrite <- P1; apply (indexed_NoDup _ (index st)), (good_index _ _ (ok_good _ _ _ _ Hb))).
  apply NoDup_cons in Hnd as [Hxn Hnd]. pose proof (ok_streams st OK x s Hs) as Hsok. pose proof (writelen_range s Hsok) as Hw.
  set (s2 := set_cycle (UINT64 (cycle s + last_writelen s)) s). cbn [streams set_stream set_streams mem].
  assert (Hb2 : pq_ok (stream_less (<[x:=s2]> (streams st))) (Dom (<[x:=s2]> (streams st)) (cycle s)) p1 i1).
  { apply (queue_ext (streams st) _ i1 _ p1 _ OK1); [|done]. intros z t Hz Ht. assert (z <> x) by (intros ->; done). rewrite lookup_insert_ne by done. by exists t. }
  assert (HDx : Dom (<[x:=s2]> (streams st)) (cycle s) x).
  { exists s2. rewrite lookup_insert_eq. split; [done|]. split; [apply UINT64_range|]. unfold off. cbn [cycle s2 set_cycle].
    replace (UINT64 (cycle s + last_writelen s) - cycle s) with (UINT64 (cycle s + last_writelen s) + (- cycle s)) by lia.
    rewrite UINT64_add. replace (cycle s + last_writelen s + - cycle s) with (last_writelen s) by lia. rewrite GAP_eq in *. rewrite UINT64_small by lia. lia. }
  destruct (push_spec _ _ (stream_order _ (cycle s)) malloc_ok junk p1 i1 x (mem st) Hb2 Hxn HDx) as [(m' & _ & _ & Hfull)|(p2 & i2 & m2 & -> & OK2 & P2 & Hout2)].
  { exfalso. pose proof (items_size _ _ (ok_good _ _ _ _ Hb)) as L. pose proof (items_size _ _ (ok_good _ _ _ _ OK1)) as L1.
    rewrite P1 in L. cbn in L. pose proof (good_length _ _ (ok_good _ _ _ _ Hb)). pose proof (good_capacity _ _ (ok_good _ _ _ _ Hb)). lia. }
  cbn [mbind option_bind Z.eqb negb]. eexists. split; [reflexivity|].
  split; [|split; [done|split; [exists p2; split; [done|by rewrite P2, P1]|by right]]].
  unfold set_queue, set_stream, set_streams. cbn.
  apply (replace_ok st x s s2 u pq); [done|done|done|intros _; done|by exists (cycle s)| | |intros _; exact U| |].
  - intros z Hz. rewrite P2, P1, !elem_of_cons. done.
  - split; [intros _; exact Hq|]. intros _. rewrite P2. by left.
  - intros z Hz Hzx. rewrite Hout2; [by apply Hout1| |done]. intros Hin. apply Hz. rewrite P1. by right.
  - constructor; [apply UINT64_range|done|apply (queued_ready s Hsok)].
Qed.

(** Accounting for a frame of [len] bytes. *)
Lemma sent_ok st x s u pq len : sched_ok st -> 0 <= len <= GAP -> streams st !! x = Some s -> queued s = true -> urgency_of s = Some u ->
  sched st !! u = Some pq -> pq_get_first_cycle (streams st) pq = Some (cycle s) ->
  let s1 := set_last_writelen len s in
  exists st', session_reschedule_stream malloc_ok junk (fun _ => len) st x = Some st' /\ sched_ok st' /\ server st' = server st /\
    (server st = true -> (exists pq', sched st' = <[u := pq']> (sched st) /\ items pq' ≡ₚ items pq) /\
       ((streams st' = <[x := s1]> (streams st) /\ (nghttp2_extpri_uint8_inc (extpri s) = false \/ size (items pq) = 1%nat)) \/
        streams st' = <[x := set_cycle (UINT64 (cycle s + len)) s1]> (streams st))).
Proof.
  intros OK Hlen Hs Q U Hu Hfirst s1. unfold session_reschedule_stream. rewrite Hs. cbn [mbind option_bind].
  pose proof (ok_streams st OK x s Hs) as Hsok. destruct (queued_ready s Hsok Q) as [[it Hi] Hf]. rewrite Hi. cbn [mbind option_bind]. fold s1.
  assert (OK1 : sched_ok (set_stream x s1 st)).
  { apply (set_stream_ok st x s s1); [done|done|done|done|]. constructor; [apply Hsok|done|apply Hsok]. }
  change (server (set_stream x s1 st)) with (server st). destruct (server st) eqn:Hsv; cbn [negb].
  2: { eexists. split; [reflexivity|]. done. }
  destruct (reschedule_ok (set_stream x s1 st) x s1 u pq OK1) as (st' & -> & OK' & Hsv' & Hq & Hst); [cbn; by rewrite lookup_insert_eq|done|done|done| |].
  { unfold pq_get_first_cycle in *. destruct (nghttp2_pq_empty pq); [done|]. cbn [streams set_stream set_streams].
    destruct (nghttp2_pq_top pq) as [[t|]|]; [|done|done]. cbn [mbind option_bind] in *. destruct (decide (t = x)) as [->|Hne].
    + by rewrite lookup_insert_eq.
    + by rewrite lookup_insert_ne by done. }
  exists st'. split; [done|]. split; [done|]. split; [by rewrite Hsv'|]. intros _. split; [exact Hq|].
  destruct Hst as [[-> Hsk]|Hst]; [left; by split|right]. rewrite Hst. cbn. by rewrite insert_insert_eq.
Qed.

(** ** Properties *)

Inductive sched_op :=
| Attach (x : ptr) (it : Z)
| Detach (x : ptr)
| Defer (x : ptr) (fl : Z)
| Resume (x : ptr) (fl : Z)
| SetPriority (x : ptr) (pri : Z)
| Sent (x : ptr) (len : Z).

Definition run_op (op : sched_op) (st : session) : option session :=
  match op with
  | Attach x it => '(_, st) ← session_attach_stream_item malloc_ok junk st x it; Some st
  | Detach x => session_detach_stream_item st x
  | Defer x fl => session_defer_stream_item st x fl
  | Resume x fl => '(_, st) ← session_resume_deferred_stream_item malloc_ok junk st x fl; Some st
  | SetPriority x p => '(_, st) ← session_update_stream_priority malloc_ok junk st x p; Some st
  | Sent x len => session_reschedule_stream malloc_ok junk (fun _ => len) st x
  end.

(** When the library makes these calls. *)
Definition allowed (op : sched_op) (st : session) : Prop :=
  match op with
  | Attach x _ => exists s, streams st !! x = Some s /\ item s = None /\ has (flags s) NGHTTP2_STREAM_FLAG_DEFERRED_ALL = false /\ is_Some (urgency_of s)
  | Detach x => is_Some (streams st !! x)
  | Defer x _ => exists s, streams st !! x = Some s /\ is_Some (item s)
  | Resume x _ => exists s, streams st !! x = Some s /\ nghttp2_stream_check_deferred_item s = true /\ is_Some (urgency_of s)
  | SetPriority x p => exists s, streams st !! x = Some s /\ is_Some (urgency_of (set_extpri p s))
  | Sent x len => 0 <= len <= GAP /\ exists s u pq, streams st !! x = Some s /\ queued s = true /\ urgency_of s = Some u /\
      sched st !! u = Some pq /\ pq_get_first_cycle (streams st) pq = Some (cycle s)
  end.

Lemma not_ready_not_queued st x s : sched_ok st -> streams st !! x = Some s -> ~ ready s -> queued s = false.
Proof. intros OK Hs Hr. destruct (queued s) eqn:Q; [|done]. exfalso. apply Hr. by apply (queued_ready s (ok_streams st OK x s Hs)). Qed.

(** A stream keeps its queue while something else about it changes. *)
Lemma unqueue_ok s s1 : stream_ok s -> cycle s1 = cycle s -> last_writelen s1 = last_writelen s -> stream_ok (set_queued false s1).
Proof. intros [H1 H2 H3] Hc Hw. constructor; cbn; [by rewrite Hc|by rewrite Hw|discriminate]. Qed.

Lemma run_sched_op op st : sched_ok st -> allowed op st -> exists st', run_op op st = Some st' /\ sched_ok st' /\ server st' = server st.
Proof.
  intros OK. destruct op as [x it|x|x fl|x fl|x p|x len]; cbn [run_op allowed].
  - intros (s & Hs & Hi & Hd & [u U]). unfold session_attach_stream_item. rewrite Hs. cbn [mbind option_bind].
    unfold nghttp2_stream_attach_item. rewrite Hd, Hi. cbn [mbind option_bind]. set (s1 := set_item (Some it) s).
    pose proof (ok_streams st OK x s Hs) as Hsok.
    assert (Hq : queued s = false) by (apply (not_ready_not_queued st x s OK Hs); intros [[y Hy] _]; congruence).
    destruct (push_ok st x s s1 u OK Hs Hq Hq U) as (rv & st' & c & -> & OK' & Hsv & Hr).
    { constructor; [apply Hsok|apply Hsok|cbn; rewrite Hq; discriminate]. }
    { split; [by exists it|done]. }
    cbn [mbind option_bind]. destruct Hr as [[-> Hst]|(-> & Hst & _)]; cbn [Z.eqb negb NGHTTP2_ERR_NOMEM].
    + exists st'. done.
    + rewrite Hst, lookup_insert_eq. cbn [mbind option_bind]. eexists. split; [reflexivity|]. split; [|done].
      apply (set_stream_ok st' x (set_cycle c s1)); [done|by rewrite Hst, lookup_insert_eq|done|cbn; congruence|].
      pose proof (ok_streams st' OK' x (set_cycle c s1)) as Hok'. rewrite Hst, lookup_insert_eq in Hok'. specialize (Hok' eq_refl).
      constructor; [apply Hok'|apply Hok'|cbn; rewrite Hq; discriminate].
  - intros [s Hs]. unfold session_detach_stream_item. rewrite Hs. cbn [mbind option_bind]. pose proof (ok_streams st OK x s Hs) as Hsok.
    set (s1 := nghttp2_stream_detach_item s). change (queued s1) with (queued s). destruct (queued s) eqn:Q; cbn [negb].
    + destruct (remove_ok st x s s1 OK Hs Q Q) as (st' & -> & OK' & _ & Hsv); [done|done|by apply (unqueue_ok s)|]. by exists st'.
    + eexists. split; [reflexivity|]. split; [|done]. apply (set_stream_ok st x s s1); [done|done|done|congruence|].
      constructor; [apply Hsok|apply Hsok|]. change (queued s1) with (queued s). congruence.
  - intros (s & Hs & [it Hi]). unfold session_defer_stream_item. rewrite Hs. cbn [mbind option_bind]. unfold nghttp2_stream_defer_item. rewrite Hi. cbn [mbind option_bind].
    pose proof (ok_streams st OK x s Hs) as Hsok. set (s1 := set_flags (u8 (Z.lor (flags s) fl)) s). change (queued s1) with (queued s). destruct (queued s) eqn:Q; cbn [negb].
    + destruct (remove_ok st x s s1 OK Hs Q Q) as (st' & -> & OK' & _ & Hsv); [done|done|by apply (unqueue_ok s)|]. by exists st'.
    + eexists. split; [reflexivity|]. split; [|done]. apply (set_stream_ok st x s s1); [done|done|done|congruence|].
      constructor; [apply Hsok|apply Hsok|]. change (queued s1) with (queued s). congruence.
  - intros (s & Hs & Hd & [u U]). unfold session_resume_deferred_stream_item. rewrite Hs. cbn [mbind option_bind].
    unfold nghttp2_stream_check_deferred_item in Hd. unfold nghttp2_stream_resume_deferred_item. destruct (item s) as [it|] eqn:Hi; [|discriminate].
    cbn [mbind option_bind]. pose proof (ok_streams st OK x s Hs) as Hsok. set (s1 := set_flags (clear (flags s) fl) s).
    assert (Hq : queued s = false) by (apply (not_ready_not_queued st x s OK Hs); intros [_ Hf]; congruence).
    assert (Hok1 : stream_ok s1) by (constructor; [apply Hsok|apply Hsok|cbn; congruence]).
    destruct (has (flags s1) NGHTTP2_STREAM_FLAG_DEFERRED_ALL) eqn:Hf.
    + eexists. split; [reflexivity|]. split; [|done]. apply (set_stream_ok st x s s1); [done|done|done|congruence|done].
    + destruct (push_ok st x s s1 u OK Hs Hq Hq U) as (rv & st' & c & -> & OK' & Hsv & _); [done| |].
      { split; [|done]. exists it. exact Hi. }
      by exists st'.
  - intros (s & Hs & [u U]). unfold session_update_stream_priority. rewrite Hs. cbn [mbind option_bind]. destruct (Z.eqb_spec (extpri s) p) as [E|E]; [by exists st|].
    pose proof (ok_streams st OK x s Hs) as Hsok. destruct (queued s) eqn:Q.
    + destruct (remove_ok st x s s OK Hs Q Q) as (st1 & E1 & OK1 & Hst1 & Hsv1); [done|done|by apply (unqueue_ok s)|].
      assert (Hid : set_stream x s st = st) by (unfold set_stream, set_streams; rewrite insert_id by done; by destruct st). rewrite Hid in E1. rewrite E1.
      cbn [mbind option_bind]. rewrite Hst1, lookup_insert_eq. cbn [mbind option_bind].
      destruct (push_ok st1 x (set_queued false s) (set_extpri p (set_queued false s)) u OK1) as (rv & st' & c & -> & OK' & Hsv & _);
        [by rewrite Hst1, lookup_insert_eq|done|done|exact U| |exact (queued_ready s Hsok Q)|].
      { constructor; [apply Hsok|apply Hsok|discriminate]. }
      cbn [mbind option_bind]. exists st'. split; [done|]. split; [done|]. by rewrite Hsv.
    + eexists. split; [reflexivity|]. split; [|done]. apply (set_stream_ok st x s); [done|done|done|congruence|].
      constructor; [apply Hsok|apply Hsok|cbn; congruence].
  - intros (Hlen & s & u & pq & Hs & Q & U & Hu & Hfirst).
    destruct (sent_ok st x s u pq len OK Hlen Hs Q U Hu Hfirst) as (st' & E & OK' & Hsv & _). by exists st'.
Qed.

(** C26: whatever the session does with its streams (attaching, detaching, deferring
    and resuming items, changing priorities, accounting for what was sent), and
    whether or not memory can be had, no call reaches a failing [assert] or an
    address outside a queue, and afterwards every ready stream that is queued is in
    the one queue of its urgency, and every queue is still a heap whose cycles lie
    in one window, so that the wrapping comparison orders them. *)
Theorem sched_preserved op st : sched_ok st -> allowed op st -> exists st', run_op op st = Some st' /\ sched_ok st'.
Proof. intros OK Ha. destruct (run_sched_op op st OK Ha) as (st' & E & OK' & _). by exists st'. Qed.
End Ops.

(** The state after [nghttp2_pq_init] of all queues. *)
Definition init_session (ss : store) (srv : bool) : session := Session ss (replicate 8 nghttp2_pq_init) ∅ (Mem 0 0) srv.

Lemma init_session_ok ss srv : (forall x s, ss !! x = Some s -> queued s = false /\ stream_ok s) -> sched_ok (init_session ss srv).
Proof.
  intros H. constructor; cbn.
  - done.
  - intros u pq Hu. apply (Forall_lookup_1 (fun p => queue_ok ss ∅ p) (replicate 8 nghttp2_pq_init) u pq); [|done].
    apply Forall_replicate. exists 0. apply init_pq_ok.
  - intros u pq x Hu Hx. assert (pq = nghttp2_pq_init).
    { apply (Forall_lookup_1 (fun p => p = nghttp2_pq_init) (replicate 8 nghttp2_pq_init) u pq); [by apply Forall_replicate|done]. }
    subst pq. by apply elem_of_nil in Hx.
  - intros x s Hs Q. destruct (H x s Hs) as [Q' _]. congruence.
  - intros x s Hs. by apply (H x s Hs).
Qed.

(** ** Whose turn it is *)

(** The stream at the top of the first queue that is not empty. *)
Fixpoint next_stream (pqs : list nghttp2_pq) : option ptr :=
  match pqs with
  | [] => None
  | pq :: pqs =>
      match nghttp2_pq_top pq with
      | Some (Some x) => Some x
      | _ => next_stream pqs
      end
  end.

(** What is known of the queues of a session. *)
Lemma queue_facts st u pq : sched_ok st -> sched st !! u = Some pq ->
  (length pq = 0%nat /\ items pq = [] /\ nghttp2_pq_top pq = Some None) \/
  exists x s, (0 < length pq)%nat /\ nghttp2_pq_top pq = Some (Some x) /\ x ∈ items pq /\ streams st !! x = Some s /\ queued s = true /\
    urgency_of s = Some u /\ pq_get_first_cycle (streams st) pq = Some (cycle s) /\
    forall y, y ∈ items pq -> stream_less (streams st) y x = false.
Proof.
  intros OK Hu. destruct (ok_queues st OK u pq Hu) as [b Hb]. pose proof (items_size _ _ (ok_good _ _ _ _ Hb)) as L.
  destruct (decide (length pq = 0%nat)) as [H0|H0].
  { left. split; [done|]. split; [apply nil_length_inv; lia|]. unfold nghttp2_pq_top. by rewrite H0. }
  right. destruct (top_spec _ _ pq (index st) (stream_order _ b) Hb) as [Ht Hmin]; [lia|].
  assert (Hx : items pq !!! 0%nat ∈ items pq) by (apply (list_elem_of_lookup_2 _ 0), lookup_total_Some; lia).
  destruct (ok_members st OK u pq _ Hu Hx) as (s & Hs & Q & U).
  exists (items pq !!! 0%nat), s. split; [lia|]. split; [done|]. split; [done|]. split; [done|]. split; [done|]. split; [done|]. split; [|exact Hmin].
  unfold pq_get_first_cycle, nghttp2_pq_empty. rewrite (proj2 (Nat.eqb_neq _ _)) by done. rewrite Ht. cbn [mbind option_bind]. by rewrite Hs.
Qed.

(** The first queue that is not empty, from the index [k] on. *)
Lemma next_from st : sched_ok st -> forall l k, drop k (sched st) = l ->
  (next_stream l = None /\ next_item (streams st) l = Some None /\ forall v pq, (k <= v)%nat -> sched st !! v = Some pq -> items pq = []) \/
  exists u pq x s, (k <= u)%nat /\ sched st !! u = Some pq /\ nghttp2_pq_top pq = Some (Some x) /\ streams st !! x = Some s /\
    next_stream l = Some x /\ next_item (streams st) l = Some (item s) /\
    forall v p, (k <= v < u)%nat -> sched st !! v = Some p -> items p = [].
Proof.
  intros OK l. induction l as [|pq l IH]; intros k Hk.
  { left. split; [done|]. split; [done|]. intros v p Hv Hp. pose proof (lookup_lt_Some _ _ _ Hp). apply (f_equal size) in Hk. rewrite length_drop in Hk. cbn in Hk. lia. }
  assert (Hu : sched st !! k = Some pq) by (rewrite <- (Nat.add_0_r k), <- lookup_drop, Hk; done).
  assert (Hl : drop (S k) (sched st) = l) by (rewrite <- Nat.add_1_r, <- drop_drop, Hk; done).
  cbn [next_stream next_item]. destruct (queue_facts st k pq OK Hu) as [(_ & Hnil & Ht)|(x & s & _ & Ht & _ & Hs & _)]; rewrite Ht; cbn [mbind option_bind].
  - destruct (IH (S k) Hl) as [(-> & -> & He)|(u & p & x & s & Hku & Hp & Ht' & Hs & -> & -> & He)].
    + left. split; [done|]. split; [done|]. intros v p Hv Hp. destruct (decide (v = k)) as [->|]; [congruence|]. apply (He v p); [lia|done].
    + right. exists u, p, x, s. split; [lia|]. split; [done|]. split; [done|]. split; [done|]. split; [done|]. split; [done|].
      intros v q Hv Hq. destruct (decide (v = k)) as [->|]; [congruence|]. apply (He v q); [lia|done].
  - right. exists k, pq, x, s. rewrite Hs. cbn [mbind option_bind]. split; [lia|]. split; [done|]. split; [done|]. split; [done|]. split; [done|]. split; [done|].
    intros v p Hv. lia.
Qed.

(** The item the session sends next is that of a queued stream, and no queued
    stream has a better claim: none of a more urgent level, and none of the same
    level that the comparison puts before it; there is no such item exactly when
    no stream is queued. *)
Theorem sched_next_correct st : sched_ok st ->
  exists r, session_sched_get_next_outbound_item st = Some r /\
    match r with
    | None => session_sched_empty st = true /\ forall x s, streams st !! x = Some s -> queued s = false
    | Some it => session_sched_empty st = false /\
        exists x s u, streams st !! x = Some s /\ queued s = true /\ urgency_of s = Some u /\ item s = Some it /\
          forall y t v, streams st !! y = Some t -> queued t = true -> urgency_of t = Some v ->
            (u <= v)%nat /\ (v = u -> cycle_less t s = false)
    end.
Proof.
  intros OK. unfold session_sched_get_next_outbound_item, session_sched_empty.
  destruct (next_from st OK (sched st) 0 (drop_0 _)) as [(_ & -> & He)|(u & pq & x & s & _ & Hu & Ht & Hs & _ & -> & He)].
  - exists None. split; [done|]. split.
    + apply forallb_forall. intros pq Hin. apply list_elem_of_In, list_elem_of_lookup_1 in Hin as [v Hv].
      destruct (queue_facts st v pq OK Hv) as [(H0 & _ & _)|(x & s & _ & _ & Hx & _)]; [unfold nghttp2_pq_empty; by rewrite H0|].
      rewrite (He v pq) in Hx by (done || lia). by apply elem_of_nil in Hx.
    + intros x s Hs. destruct (queued s) eqn:Q; [|done]. exfalso. destruct (ok_queued st OK x s Hs Q) as (u & pq & _ & Hu & Hx).
      rewrite (He u pq) in Hx by (done || lia). by apply elem_of_nil in Hx.
  - destruct (queue_facts st u pq OK Hu) as [(_ & _ & Ht')|(x' & s' & Hl & Ht' & Hx & Hs' & Q & U & _ & Hmin)]; [congruence|].
    rewrite Ht in Ht'. injection Ht' as <-. rewrite Hs in Hs'. injection Hs' as <-.
    destruct (queued_ready s (ok_streams st OK x s Hs) Q) as [[it Hi] _]. rewrite Hi. exists (Some it). split; [done|]. split.
    + destruct (forallb nghttp2_pq_empty (sched st)) eqn:E; [|done]. exfalso. rewrite forallb_forall in E.
      specialize (E pq (proj1 (list_elem_of_In _ _) (list_elem_of_lookup_2 _ _ _ Hu))). unfold nghttp2_pq_empty in E. apply Nat.eqb_eq in E. lia.
    + exists x, s, u. split; [done|]. split; [done|]. split; [done|]. split; [done|]. intros y t v Hy Qt Ut.
      destruct (ok_queued st OK y t Hy Qt) as (v' & p & U' & Hv & Hyp). rewrite Ut in U'. injection U' as <-. split.
      * destruct (decide (u <= v)%nat); [done|]. exfalso. rewrite (He v p) in Hyp by (done || lia). by apply elem_of_nil in Hyp.
      * intros ->. rewrite Hu in Hv. injection Hv as <-. specialize (Hmin y Hyp). unfold stream_less in Hmin. by rewrite Hy, Hs in Hmin.
Qed.

(** ** No stream waits for ever *)

Section Liveness.
Context (malloc_ok : nat -> bool) (junk : nat -> ptr).

(** The next stream sends a frame of [len] bytes. *)
Definition send (len : Z) (st : session) : option (ptr * session) :=
  x ← next_stream (sched st);
  st ← session_reschedule_stream malloc_ok junk (fun _ => len) st x;
  Some (x, st).

Fixpoint sends (lens : list Z) (st : session) : option (list ptr * session) :=
  match lens with
  | [] => Some ([], st)
  | len :: lens => '(x, st) ← send len st; '(xs, st) ← sends lens st; Some (x :: xs, st)
  end.

(** The level [u] is the most urgent with queued streams, which are all
    incremental. *)
Record level (u : nat) (st : session) : Prop := {
  level_ok : sched_ok st;
  level_server : server st = true;
  level_first : forall v pq, (v < u)%nat -> sched st !! v = Some pq -> items pq = [];
  level_inc : forall pq x s, sched st !! u = Some pq -> x ∈ items pq -> streams st !! x = Some s -> nghttp2_extpri_uint8_inc (extpri s) = true
}.

(** How far the stream [x] is ahead of [y], in virtual time: what it may still
    send before [y] is served. *)
Definition lead (ss : store) (b : Z) (y x : ptr) : Z :=
  if x =? y then 0 else
  match ss !! x, ss !! y with
  | Some s, Some t => Z.max 0 (off b t - off b s + 1)
  | _, _ => 0
  end.

Definition zsum (l : list Z) : Z := fold_right Z.add 0 l.

Lemma zsum_perm l l' : l ≡ₚ l' -> zsum l = zsum l'.
Proof. unfold zsum. induction 1; cbn; lia. Qed.

Definition leads (ss : store) (b : Z) (y : ptr) (l : list ptr) : Z := zsum (map (lead ss b y) l).

Lemma leads_perm ss b y l l' : l ≡ₚ l' -> leads ss b y l = leads ss b y l'.
Proof. intros H. apply zsum_perm. change (lead ss b y <$> l ≡ₚ lead ss b y <$> l'). by rewrite H. Qed.

Lemma lead_nonneg ss b y x : 0 <= lead ss b y x.
Proof. unfold lead. destruct (x =? y); [lia|]. destruct (ss !! x), (ss !! y); lia. Qed.

Lemma leads_nonneg ss b y l : 0 <= leads ss b y l.
Proof. unfold leads. induction l as [|x l IH]; cbn; [lia|]. pose proof (lead_nonneg ss b y x). fold (zsum (map (lead ss b y) l)). lia. Qed.

Lemma leads_ext ss ss' b b' y l : (forall x, x ∈ l -> lead ss b y x = lead ss' b' y x) -> leads ss b y l = leads ss' b' y l.
Proof.
  intros H. unfold leads. f_equal. apply map_ext_in. intros x Hx. apply H. by apply list_elem_of_In.
Qed.

(** The lead does not depend on the base of the window. *)
Lemma lead_base ss b b' y x : Dom ss b x -> Dom ss b' x -> Dom ss b y -> Dom ss b' y -> lead ss b y x = lead ss b' y x.
Proof.
  intros (s & E & _ & G1) (s' & E' & _ & G2) (t & F & _ & G3) (t' & F' & _ & G4). rewrite E in E'. injection E' as <-. rewrite F in F'. injection F' as <-.
  unfold lead. destruct (x =? y); [done|]. rewrite E, F. f_equal. f_equal.
  pose proof (off_diff b s t) as D1. pose proof (off_diff b' s t) as D2. rewrite D1 in D2. rewrite GAP_eq in *.
  pose proof (UINT64_range (cycle s - b)). pose proof (UINT64_range (cycle s - b')). pose proof (UINT64_range (cycle t - b)). pose proof (UINT64_range (cycle t - b')).
  fold (off b s) (off b' s) (off b t) (off b' t) in *. unfold UINT64 in D2.
  pose proof (Z.div_mod (off b t - off b s) (2 ^ 64)). pose proof (Z.div_mod (off b' t - off b' s) (2 ^ 64)). rewrite D2 in *. nia.
Qed.

Lemma leads_bound ss b y l : Forall (Dom ss b) l -> Dom ss b y -> y ∈ l -> leads ss b y l <= (Z.of_nat (size l) - 1) * (GAP + 1).
Proof.
  intros HD (t & F & _ & Gy) Hy.
  assert (H1 : forall x, Dom ss b x -> lead ss b y x <= GAP + 1).
  { intros x (s & E & _ & Gx). unfold lead. rewrite GAP_eq in *. destruct (x =? y); [lia|]. rewrite E, F.
    pose proof (UINT64_range (cycle s - b)). fold (off b s) in *. lia. }
  assert (Hall : forall l, Forall (Dom ss b) l -> leads ss b y l <= Z.of_nat (size l) * (GAP + 1)).
  { intros k Hk. induction Hk as [|x k Hx _ IH]; [cbn; lia|]. unfold leads in *. cbn [map zsum fold_right size]. fold (zsum (map (lead ss b y) k)).
    pose proof (H1 x Hx). lia. }
  apply list_elem_of_split in Hy as (l1 & l2 & ->). rewrite (leads_perm ss b y _ (y :: l1 ++ l2)) by solve_Permutation.
  assert (HD' : Forall (Dom ss b) (l1 ++ l2)) by (apply Forall_app in HD as [HA HB]; inversion HB; by apply Forall_app).
  specialize (Hall _ HD'). unfold leads in *. cbn [map zsum fold_right]. fold (zsum (map (lead ss b y) (l1 ++ l2))).
  unfold lead at 1. rewrite Z.eqb_refl. rewrite length_app in *. cbn [size]. lia.
Qed.

(** One frame sent: it is the turn of [y], or the lead of the others shrinks. *)
Lemma send_spec u y st pq b len : level u st -> 1 <= len <= GAP -> sched st !! u = Some pq -> y ∈ items pq ->
  pq_ok (stream_less (streams st)) (Dom (streams st) b) pq (index st) ->
  exists x st', send len st = Some (x, st') /\ level u st' /\
    exists pq' b', sched st' !! u = Some pq' /\ pq_ok (stream_less (streams st')) (Dom (streams st') b') pq' (index st') /\ items pq' ≡ₚ items pq /\
      (x = y \/ leads (streams st') b' y (items pq') < leads (streams st) b y (items pq)).
Proof.
  intros [OK Hsv Hfst Hinc] Hlen Hu Hy Hb. unfold send.
  destruct (next_from st OK (sched st) 0 (drop_0 _)) as [(_ & _ & He)|(u' & pq0 & x & s0 & _ & Hu' & Ht & _ & -> & _ & He)].
  { rewrite (He u pq) in Hy by (done || lia). by apply elem_of_nil in Hy. }
  assert (u' = u) as ->.
  { destruct (Nat.lt_trichotomy u' u) as [Hlt|[Heq|Hlt]]; [|done|].
    - specialize (Hfst u' pq0 Hlt Hu'). destruct (queue_facts st u' pq0 OK Hu') as [(_ & _ & Ht')|(x' & s' & _ & Ht' & Hx & _)]; [congruence|].
      rewrite Hfst in Hx. by apply elem_of_nil in Hx.
    - rewrite (He u pq) in Hy by (done || lia). by apply elem_of_nil in Hy. }
  rewrite Hu in Hu'. injection Hu' as <-. cbn [mbind option_bind].
  destruct (queue_facts st u pq OK Hu) as [(_ & _ & Ht')|(x' & s & _ & Ht' & Hx & Hs & Q & U & Hfirst & Hmin)]; [congruence|].
  rewrite Ht in Ht'. injection Ht' as <-.
  destruct (sent_ok malloc_ok junk st x s u pq len OK ltac:(lia) Hs Q U Hu Hfirst) as (st' & -> & OK' & Hsv' & Hrest). cbn [mbind option_bind].
  destruct (Hrest Hsv) as [(pq' & Hq' & P') Hst]. pose proof (lookup_lt_Some _ _ _ Hu) as Hul.
  assert (Hu1 : sched st' !! u = Some pq') by (rewrite Hq'; by apply list_lookup_insert_eq).
  destruct (ok_queues st' OK' u pq' Hu1) as [b' Hb'].
  exists x, st'. split; [done|]. split.
  { constructor; [done|congruence| |].
    - intros v p Hv Hp. rewrite Hq', list_lookup_insert_ne in Hp by lia. by apply (Hfst v).
    - intros p z t Hp Hz Hzt. rewrite Hu1 in Hp. injection Hp as <-. rewrite P' in Hz.
      assert (Hxx : forall s2, extpri s2 = extpri s -> <[x := s2]> (streams st) !! z = Some t -> nghttp2_extpri_uint8_inc (extpri t) = true).
      { intros s2 He2 Hl. destruct (decide (z = x)) as [->|Hzx].
        - rewrite lookup_insert_eq in Hl. injection Hl as <-. rewrite He2. by apply (Hinc pq x s).
        - rewrite lookup_insert_ne in Hl by done. by apply (Hinc pq z t). }
      destruct Hst as [[Hst _]|Hst]; rewrite Hst in Hzt; eapply Hxx; [|exact Hzt| |exact Hzt]; done. }
  exists pq', b'. split; [done|]. split; [done|]. split; [done|].
  destruct (decide (x = y)) as [|Hxy]; [by left|right].
  destruct Hst as [[_ [Hi|H1]]|Hst].
  { rewrite (Hinc pq x s Hu Hx Hs) in Hi. discriminate. }
  { exfalso. apply Hxy. destruct (items pq) as [|a [|? ?]]; [by apply elem_of_nil in Hx| |discriminate].
    apply list_elem_of_singleton in Hx, Hy. congruence. }
  set (s2 := set_cycle (UINT64 (cycle s + len)) (set_last_writelen len s)) in *.
  pose proof (ok_dom _ _ _ _ Hb) as HD. pose proof (ok_dom _ _ _ _ Hb') as HD'. rewrite Forall_forall in HD, HD'.
  assert (HNd : NoDup (items pq)) by (apply (indexed_NoDup _ (index st)), (good_index _ _ (ok_good _ _ _ _ Hb))).
  pose proof Hx as Hx'. apply list_elem_of_split in Hx' as (l1 & l2 & El).
  assert (Pl : items pq ≡ₚ x :: (l1 ++ l2)) by (rewrite El; solve_Permutation).
  assert (Hxl : x ∉ l1 ++ l2) by (rewrite Pl in HNd; by apply NoDup_cons in HNd as [? _]).
  assert (Hin : forall z, z ∈ l1 ++ l2 -> z ∈ items pq) by (intros z Hz; rewrite Pl; by right).
  assert (Hlook : forall z, z <> x -> streams st' !! z = streams st !! z) by (intros z Hz; rewrite Hst; by apply lookup_insert_ne).
  assert (Hdom : forall z, z ∈ items pq -> z <> x -> Dom (streams st) b' z).
  { intros z Hz Hzx. destruct (HD' z) as (t & E & C & G); [by rewrite P'|]. exists t. by rewrite <- Hlook. }
  rewrite (leads_perm _ b' y (items pq') (x :: (l1 ++ l2))) by (by rewrite P', Pl). rewrite (leads_perm _ b y (items pq) (x :: (l1 ++ l2))) by done.
  assert (Hrest' : leads (streams st') b' y (l1 ++ l2) = leads (streams st) b y (l1 ++ l2)).
  { apply leads_ext. intros z Hz. assert (z <> x) by (intros ->; done).
    transitivity (lead (streams st) b' y z); [unfold lead; rewrite !Hlook by done; done|].
    apply lead_base; [apply Hdom; [by apply Hin|done]|apply HD; by apply Hin|by apply Hdom|by apply HD]. }
  unfold leads in *. cbn [map zsum fold_right]. fold (zsum (map (lead (streams st') b' y) (l1 ++ l2))). fold (zsum (map (lead (streams st) b y) (l1 ++ l2))).
  rewrite Hrest'. enough (lead (streams st') b' y x < lead (streams st) b y x) by lia.
  destruct (HD y Hy) as (t & Ft & Ct & Gt). destruct (HD x Hx) as (s' & Es & Cs & Gs). rewrite Hs in Es. injection Es as <-.
  destruct (HD' x) as (s3 & E3 & C3 & G3); [by rewrite P'|]. rewrite Hst, lookup_insert_eq in E3. injection E3 as <-.
  destruct (HD' y) as (t' & Ft' & _ & Gt'); [by rewrite P'|]. rewrite Hlook in Ft' by done. rewrite Ft in Ft'. injection Ft' as <-.
  unfold lead. destruct (Z.eqb_spec x y); [done|]. rewrite (Hlook y) by done. rewrite Ft, Hs, Hst, lookup_insert_eq.
  pose proof (Hmin y Hy) as Hle. rewrite (stream_less_off _ b y x t s) in Hle by (try apply HD; done).
  assert (Hoff : off b s <= off b t) by lia.
  assert (Hd : off b' t - off b' s2 = off b t - off b s - len); [|lia].
  pose proof (off_diff b s t) as D1. pose proof (off_diff b' s2 t) as D2.
  assert (D3 : UINT64 (cycle t - cycle s2) = UINT64 (off b t - off b s - len)).
  { unfold s2. cbn [cycle set_cycle set_last_writelen]. unfold UINT64 in *. rewrite Zminus_mod, Z.mod_mod, <- Zminus_mod by lia.
    replace (cycle t - (cycle s + len)) with ((cycle t - cycle s) - len) by lia. rewrite Zminus_mod, D1, <- Zminus_mod. done. }
  rewrite D2 in D3. pose proof (UINT64_range (cycle s - b)). pose proof (UINT64_range (cycle s2 - b')). pose proof (UINT64_range (cycle t - b)). pose proof (UINT64_range (cycle t - b')).
  fold (off b s) (off b' s2) (off b t) (off b' t) in *. rewrite GAP_eq in *. unfold UINT64 in D3.
  pose proof (Z.div_mod (off b' t - off b' s2) (2 ^ 64)). pose proof (Z.div_mod (off b t - off b s - len) (2 ^ 64)). rewrite D3 in *. nia.
Qed.

Lemma sends_spec lens : forall u y st pq b, level u st -> Forall (fun len => 1 <= len <= GAP) lens -> sched st !! u = Some pq -> y ∈ items pq ->
  pq_ok (stream_less (streams st)) (Dom (streams st) b) pq (index st) -> leads (streams st) b y (items pq) < Z.of_nat (size lens) ->
  exists xs st', sends lens st = Some (xs, st') /\ y ∈ xs.
Proof.
  (* after the turn of [y] the rest of the frames can still be sent *)
  assert (Hany : forall lens u y st pq, level u st -> Forall (fun len => 1 <= len <= GAP) lens -> sched st !! u = Some pq -> y ∈ items pq ->
    exists xs st', sends lens st = Some (xs, st')).
  { clear lens. induction lens as [|len lens IH]; intros u y st pq L HF Hu Hy; cbn [sends]; [by eexists _, _|]. inversion_clear HF.
    destruct (ok_queues st (level_ok u st L) u pq Hu) as [b Hb].
    destruct (send_spec u y st pq b len L) as (x & st1 & -> & L1 & pq1 & b1 & Hu1 & Hb1 & P1 & _); [done..|]. cbn [mbind option_bind].
    destruct (IH u y st1 pq1 L1) as (xs & st2 & ->); [done|done|by rewrite P1|]. cbn. by eexists _, _. }
  induction lens as [|len lens IH]; intros u y st pq b L HF Hu Hy Hb Hlt.
  { cbn in Hlt. pose proof (leads_nonneg (streams st) b y (items pq)). lia. }
  cbn [sends]. inversion_clear HF.
  destruct (send_spec u y st pq b len L) as (x & st1 & -> & L1 & pq1 & b1 & Hu1 & Hb1 & P1 & Hc); [done..|]. cbn [mbind option_bind].
  destruct Hc as [->|Hc].
  - destruct (Hany lens u y st1 pq1 L1) as (xs & st2 & ->); [done|done|by rewrite P1|]. cbn [mbind option_bind]. eexists _, _. split; [done|]. by left.
  - destruct (IH u y st1 pq1 b1 L1) as (xs & st2 & -> & Hin); [done|done|by rewrite P1|done|cbn [size] in Hlt; lia|]. cbn [mbind option_bind].
    eexists _, _. split; [done|]. by right.
Qed.

(** C27: in a server's session, among the streams of the most urgent level that has any
    queued, all of them incremental ([level]), no one starves: whatever the lengths of
    the frames that are sent, a queued stream is served before the others together
    have had more than a fixed number of turns, that is within
    [(n - 1) (GAP + 1) + 1] frames if [n] streams are queued; and none of these calls
    fails.  The hypotheses are needed: a client never reschedules
    ([session_reschedule_stream] returns at once), so that its first stream keeps its
    turn until it has nothing left; a stream that is not incremental is sent whole by
    design; and a less urgent level waits for as long as a more urgent one has streams. *)
Theorem sched_no_starvation u y st pq lens : level u st -> sched st !! u = Some pq -> y ∈ items pq ->
  Forall (fun len => 1 <= len <= GAP) lens -> (Z.of_nat (size (items pq)) - 1) * (GAP + 1) < Z.of_nat (size lens) ->
  exists xs st', sends lens st = Some (xs, st') /\ y ∈ xs.
Proof.
  intros L Hu Hy HF Hn. destruct (ok_queues st (level_ok u st L) u pq Hu) as [b Hb].
  apply (sends_spec lens u y st pq b); [done..|].
  pose proof (ok_dom _ _ _ _ Hb) as HD. pose proof HD as HD'. rewrite Forall_forall in HD'.
  pose proof (leads_bound (streams st) b y (items pq) HD (HD' y Hy) Hy). lia.
Qed.
End Liveness.

(** *** Witnesses: a server with two incremental streams *)

Definition new_stream (id : Z) : nghttp2_stream :=
  set_extpri 131 (nghttp2_stream_init id 0 NGHTTP2_STREAM_OPENED 65535 65535 0).

Definition two_streams : session := init_session {[1 := new_stream 1; 3 := new_stream 3]} true.

Lemma two_streams_ok : sched_ok two_streams.
Proof.
  apply init_session_ok. intros x s Hs. apply lookup_insert_Some in Hs as [[_ <-]|[_ Hs]].
  - split; [done|]. constructor; [cbn; lia|vm_compute; split; discriminate|done].
  - apply lookup_singleton_Some in Hs as [_ <-]. split; [done|]. constructor; [cbn; lia|vm_compute; split; discriminate|done].
Qed.

Definition ok_malloc (n : nat) : bool := true.
Definition no_junk (n : nat) : ptr := 0.

(** Both have something to send. *)
Definition both_attached : option session :=
  st ← run_op ok_malloc no_junk (Attach 1 10) two_streams; run_op ok_malloc no_junk (Attach 3 11) st.

Lemma attach_allowed st x it s : streams st !! x = Some s -> item s = None -> flags s = 0 -> extpri s = 131 -> allowed (Attach x it) st.
Proof.
  intros Hs Hi Hf He. exists s. split; [done|]. split; [done|]. unfold urgency_of. rewrite Hf, He. split; [done|]. by exists 3%nat.
Qed.

Lemma both_attached_ok : exists st, both_attached = Some st /\ sched_ok st.
Proof.
  unfold both_attached.
  destruct (run_sched_op ok_malloc no_junk (Attach 1 10) two_streams two_streams_ok) as (st & E & OK & _).
  { by apply (attach_allowed _ _ _ (new_stream 1)). }
  assert (E' := E). vm_compute in E'. rewrite E. cbn [mbind option_bind].
  destruct (run_sched_op ok_malloc no_junk (Attach 3 11) st OK) as (st2 & E2 & OK2 & _); [|by exists st2].
  injection E' as <-. apply (attach_allowed _ _ _ (new_stream 3)); vm_compute; reflexivity.
Qed.

Lemma sched_preserved_witness : exists st', run_op ok_malloc no_junk (Attach 1 10) two_streams = Some st' /\ sched_ok st'.
Proof.
  apply (sched_preserved ok_malloc no_junk (Attach 1 10) two_streams); [exact two_streams_ok|].
  by apply (attach_allowed _ _ _ (new_stream 1)).
Defined.

Lemma sched_next_correct_witness :
  exists st, both_attached = Some st /\
  exists r, session_sched_get_next_outbound_item st = Some r /\
    match r with
    | None => session_sched_empty st = true /\ forall x s, streams st !! x = Some s -> queued s = false
    | Some it => session_sched_empty st = false /\
        exists x s u, streams st !! x = Some s /\ queued s = true /\ urgency_of s = Some u /\ item s = Some it /\
          forall y t v, streams st !! y = Some t -> queued t = true -> urgency_of t = Some v ->
            (u <= v)%nat /\ (v = u -> cycle_less t s = false)
    end.
Proof. destruct both_attached_ok as (st & E & OK). exists st. split; [exact E|]. apply (sched_next_correct st OK). Defined.

Example next_is_first : (st ← both_attached; session_sched_get_next_outbound_item st) = Some (Some 10).
Proof. vm_compute. reflexivity. Qed.

(** The level of the two streams. *)
Lemma both_attached_level : exists st pq, both_attached = Some st /\ level 3 st /\ sched st !! 3%nat = Some pq /\ items pq = [1; 3].
Proof.
  destruct both_attached_ok as (st & E & OK). assert (E' := E). vm_compute in E'. injection E' as E'.
  exists st. destruct (sched st !! 3%nat) as [pq|] eqn:Hpq; [|rewrite <- E' in Hpq; discriminate Hpq].
  exists pq. split; [done|]. split; [|split; [done|rewrite <- E' in Hpq; cbn in Hpq; injection Hpq as <-; reflexivity]].
  constructor; [done|by rewrite <- E'| |].
  - intros v p Hv Hp. rewrite <- E' in Hp. cbn in Hp. destruct v as [|[|[|v]]]; [..|lia]; cbn in Hp; injection Hp as <-; reflexivity.
  - intros p x s Hp Hx Hs. destruct (ok_members st OK 3 p x Hp Hx) as (s' & Es & _). rewrite Es in Hs. injection Hs as <-.
    rewrite <- E' in Hp. cbn in Hp. injection Hp as <-. change (x ∈ [1; 3]) in Hx.
    apply elem_of_cons in Hx as [->|Hx]; [|apply list_elem_of_singleton in Hx as ->]; rewrite <- E' in Es; vm_compute in Es; injection Es as <-; reflexivity.
Qed.

Lemma sched_no_starvation_witness :
  exists st, both_attached = Some st /\
    exists xs st', sends ok_malloc no_junk (replicate (Z.to_nat 16777217) 1000) st = Some (xs, st') /\ 3 ∈ xs.
Proof.
  destruct both_attached_level as (st & pq & E & L & Hu & Hi). exists st. split; [exact E|].
  apply (sched_no_starvation ok_malloc no_junk 3 3 st pq (replicate (Z.to_nat 16777217) 1000) L Hu).
  - rewrite Hi. right. left.
  - apply Forall_replicate. rewrite GAP_eq. lia.
  - rewrite Hi, GAP_eq, length_replicate, Z2Nat.id by lia. change (Z.of_nat (size [1; 3])) with 2. lia.
Defined.
