(* ===== verification/NgMap.v ===== *)
(** * The hash map of nghttp2: [nghttp2_map.c]

    The map from stream identifiers to streams: an open-addressing table of
    [2 ^ hashbits] buckets in which an entry that is far from its place takes the
    bucket of an entry that is near its own ("robin hood"); [psl] is how far the
    entry of a bucket is from the place its key hashes to.

    A pointer to an entry is a value of [A], NULL is [None]; a bucket is empty when
    its [data] is NULL, whatever its other fields hold.  The table is the list of
    its buckets.  [calloc], which the application supplies, is the parameter
    [calloc_ok] of the request's number and its bytes.  Access outside the table, a
    shift by the width of the type, a failing [assert] make the result [None], and so
    does a loop that outlasts the table: the theorems of NgMapSpec.v say that none of
    these happens. *)

From stdpp Require Import list.
From S2P Require Import Prelude NgBuf.

Section Map.
Context {A : Type}.
Context (calloc_ok : nat -> Z -> bool).

Record nghttp2_map_bucket := Bucket { psl : Z; key : Z; data : option A }.

Record nghttp2_map := Map { table : list nghttp2_map_bucket; size : Z; hashbits : Z }.

(** [sizeof(nghttp2_map_bucket)] on the target. *)
Definition sizeof_bucket : Z := 12.

Definition nghttp2_mem_calloc (m : nghttp2_mem) (nmemb sz : Z) : bool * nghttp2_mem :=
  let ok := calloc_ok (requests m) (nmemb * sz) in
  (ok, Mem (S (requests m)) (if ok then live m + 1 else live m)).

(** [free(table)]; the table of a map without one is NULL. *)
Definition free_table (mp : nghttp2_map) (m : nghttp2_mem) : nghttp2_mem :=
  match table mp with [] => m | _ => Mem (requests m) (live m - 1) end.

Definition nghttp2_map_init : nghttp2_map := Map [] 0 0.

Definition nghttp2_map_free (mp : nghttp2_map) (m : nghttp2_mem) : nghttp2_mem := free_table mp m.

(** [1u << bits] *)
Definition tablelen (bits : Z) : Z := Z.shiftl 1 bits.

(** [((uint32_t)key * 2654435769u) >> (32 - bits)] *)
Definition spread (key bits : Z) : Z := Z.shiftr (u32 (u32 key * 2654435769)) (32 - bits).

Definition hash (key bits : Z) : option Z :=
  if (0 <? bits) && (bits <=? 32) then Some (spread key bits) else None.

(** [(idx + 1) & mask] *)
Definition next_idx (bits idx : Z) : Z := Z.land (u32 (idx + 1)) (tablelen bits - 1).

Abbreviation buckets := (list nghttp2_map_bucket).

(** [table[idx]], and storing into it. *)
Definition get (t : buckets) (idx : Z) : option nghttp2_map_bucket := t !! Z.to_nat idx.
Definition put (t : buckets) (idx : Z) (b : nghttp2_map_bucket) : buckets := <[Z.to_nat idx := b]> t.

Definition is_null (b : nghttp2_map_bucket) : bool := match data b with None => true | Some _ => false end.

(** [++b.psl], [--bkt->psl] and [b->data = NULL] *)
Definition incr_psl (b : nghttp2_map_bucket) : nghttp2_map_bucket := Bucket (u32 (psl b + 1)) (key b) (data b).
Definition decr_psl (b : nghttp2_map_bucket) : nghttp2_map_bucket := Bucket (u32 (psl b - 1)) (key b) (data b).
Definition clear_data (b : nghttp2_map_bucket) : nghttp2_map_bucket := Bucket (psl b) (key b) None.

(** The loop of [insert]: [b] is the entry that still needs a bucket. *)
Fixpoint insert_loop (fuel : nat) (t : buckets) (bits k idx : Z) (b : nghttp2_map_bucket) : option (Z * buckets) :=
  match fuel with
  | O => None
  | S fuel =>
      bkt ← get t idx;
      if is_null bkt then Some (0, put t idx b)
      else if psl bkt <? psl b then
        insert_loop fuel (put t idx b) bits k (next_idx bits idx) (incr_psl bkt)
      else if key bkt =? k then Some (NGHTTP2_ERR_INVALID_ARGUMENT, t)
      else insert_loop fuel t bits k (next_idx bits idx) (incr_psl b)
  end.

Definition insert (t : buckets) (bits k : Z) (d : option A) : option (Z * buckets) :=
  idx ← hash k bits;
  insert_loop (length t) t bits k idx (Bucket 0 k d).

(** The entries of the old table, put into the new one; [assert(0 == rv)]. *)
Fixpoint reinsert (old new : buckets) (bits : Z) : option buckets :=
  match old with
  | [] => Some new
  | bkt :: old =>
      if is_null bkt then reinsert old new bits
      else
        rt ← insert new bits (key bkt) (data bkt);
        let '(rv, new) := rt in
        if rv =? 0 then reinsert old new bits else None
  end.

(** What [calloc] returns: buckets of zeros. *)
Definition zero_table (bits : Z) : buckets := replicate (Z.to_nat (tablelen bits)) (Bucket 0 0 None).

Definition map_resize (mp : nghttp2_map) (m : nghttp2_mem) (new_hashbits : Z) : option (Z * nghttp2_map * nghttp2_mem) :=
  if 32 <=? new_hashbits then None else
  let '(ok, m) := nghttp2_mem_calloc m (tablelen new_hashbits) sizeof_bucket in
  if ok then
    new_table ← (if negb (size mp =? 0)
                 then reinsert (take (Z.to_nat (tablelen (hashbits mp))) (table mp)) (zero_table new_hashbits) new_hashbits
                 else Some (zero_table new_hashbits));
    Some (0, Map new_table (size mp) new_hashbits, free_table mp m)
  else Some (NGHTTP2_ERR_NOMEM, mp, m).

Definition NGHTTP2_INITIAL_TABLE_LENBITS : Z := 4.

Definition nghttp2_map_insert (mp : nghttp2_map) (m : nghttp2_mem) (k : Z) (d : option A)
  : option (Z * nghttp2_map * nghttp2_mem) :=
  _ ← d;
  r ← (if u32 (u32 (tablelen (hashbits mp)) * 3) <? u32 (u32 (size mp + 1) * 4)
       then map_resize mp m (if negb (hashbits mp =? 0) then hashbits mp + 1 else NGHTTP2_INITIAL_TABLE_LENBITS)
       else Some (0, mp, m));
  let '(rv, mp, m) := r in
  if negb (rv =? 0) then Some (rv, mp, m) else
  rt ← insert (table mp) (hashbits mp) k d;
  let '(rv, t) := rt in
  if negb (rv =? 0) then Some (rv, Map t (size mp) (hashbits mp), m)
  else Some (0, Map t (u32 (size mp + 1)) (hashbits mp), m).

Fixpoint find_loop (fuel : nat) (t : buckets) (bits k idx d : Z) : option (option A) :=
  match fuel with
  | O => None
  | S fuel =>
      bkt ← get t idx;
      if is_null bkt || (psl bkt <? d) then Some None
      else if key bkt =? k then Some (data bkt)
      else find_loop fuel t bits k (next_idx bits idx) (u32 (d + 1))
  end.

Definition nghttp2_map_find (mp : nghttp2_map) (k : Z) : option (option A) :=
  if size mp =? 0 then Some None else
  idx ← hash k (hashbits mp);
  find_loop (length (table mp)) (table mp) (hashbits mp) k idx 0.

(** The inner loop of [nghttp2_map_remove]: the entries behind the removed one move
    back, up to one that is in its place; [b] is the bucket to fill. *)
Fixpoint shift_back (fuel : nat) (t : buckets) (bits b idx : Z) : option buckets :=
  match fuel with
  | O => None
  | S fuel =>
      bkt ← get t idx;
      if is_null bkt || (psl bkt =? 0) then
        old ← get t b;
        Some (put t b (clear_data old))
      else
        let bkt := decr_psl bkt in
        shift_back fuel (put (put t idx bkt) b bkt) bits idx (next_idx bits idx)
  end.

Fixpoint remove_loop (fuel : nat) (t : buckets) (bits k idx d : Z) : option (Z * buckets) :=
  match fuel with
  | O => None
  | S fuel =>
      bkt ← get t idx;
      if is_null bkt || (psl bkt <? d) then Some (NGHTTP2_ERR_INVALID_ARGUMENT, t)
      else if key bkt =? k then
        t ← shift_back (length t) t bits idx (next_idx bits idx);
        Some (0, t)
      else remove_loop fuel t bits k (next_idx bits idx) (u32 (d + 1))
  end.

Definition nghttp2_map_remove (mp : nghttp2_map) (k : Z) : option (Z * nghttp2_map) :=
  if size mp =? 0 then Some (NGHTTP2_ERR_INVALID_ARGUMENT, mp) else
  idx ← hash k (hashbits mp);
  rt ← remove_loop (length (table mp)) (table mp) (hashbits mp) k idx 0;
  let '(rv, t) := rt in
  Some (rv, Map t (if rv =? 0 then u32 (size mp - 1) else size mp) (hashbits mp)).

Definition nghttp2_map_clear (mp : nghttp2_map) : nghttp2_map :=
  if size mp =? 0 then mp else Map (zero_table (hashbits mp)) 0 (hashbits mp).

Definition nghttp2_map_size (mp : nghttp2_map) : Z := size mp.

(** [nghttp2_map_each]; the callback, and the state it works on, are the caller's. *)
Fixpoint each_loop {S : Type} (l : buckets) (func : A -> S -> Z * S) (s : S) : Z * S :=
  match l with
  | [] => (0, s)
  | bkt :: l =>
      match data bkt with
      | None => each_loop l func s
      | Some d =>
          let '(rv, s) := func d s in
          if negb (rv =? 0) then (rv, s) else each_loop l func s
      end
  end.

Definition nghttp2_map_each {S : Type} (mp : nghttp2_map) (func : A -> S -> Z * S) (s : S) : Z * S :=
  if size mp =? 0 then (0, s)
  else each_loop (take (Z.to_nat (tablelen (hashbits mp))) (table mp)) func s.
End Map.

Arguments nghttp2_map_bucket : clear implicits.
Arguments nghttp2_map : clear implicits.
