(* ===== verification/NgMapSpec.v ===== *)
(** * The hash map of nghttp2 implements a finite map

    Invariant of a table: every entry knows how far it is from the place of its key
    ([at_home]), behind an entry that is not at its place there is one that is at
    most one less away ([chained]), keys are different.  Buckets are addressed by
    integers modulo the length of the table, so that going round its end is no
    special case. *)

From stdpp Require Import gmap list.
From S2P Require Import Prelude NgBuf NgMap.

(** ** Arithmetic of the table *)

Section Table.
Context {A : Type}.
Context (bits : Z) (Hbits : 4 <= bits <= 28).
Implicit Types (t : list (nghttp2_map_bucket A)) (b : nghttp2_map_bucket A).

Local Abbreviation n := (tablelen bits).

Lemma tablelen_pow : n = 2 ^ bits.
Proof. unfold tablelen. rewrite Z.shiftl_mul_pow2; lia. Qed.

Lemma tablelen_range : 16 <= n <= 2 ^ 28.
Proof.
  rewrite tablelen_pow. split; [|apply Z.pow_le_mono_r; lia].
  change 16 with (2 ^ 4). apply Z.pow_le_mono_r; lia.
Qed.

Lemma spread_range k : 0 <= spread k bits < n.
Proof.
  unfold spread. pose proof (u32_range (u32 k * 2654435769)) as H.
  rewrite Z.shiftr_div_pow2, tablelen_pow by lia.
  assert (0 < 2 ^ (32 - bits)) by (apply Z.pow_pos_nonneg; lia).
  split; [apply Z.div_pos; lia|]. apply Z.div_lt_upper_bound; [done|].
  rewrite <- Z.pow_add_r by lia. replace (32 - bits + bits) with 32 by lia. lia.
Qed.

Lemma hash_spread k : hash k bits = Some (spread k bits).
Proof. unfold hash. by rewrite (proj2 (Z.ltb_lt 0 bits)), (proj2 (Z.leb_le bits 32)) by lia. Qed.

Lemma next_idx_mod x : next_idx bits (x mod n) = (x + 1) mod n.
Proof.
  pose proof tablelen_range. pose proof (Z.mod_pos_bound x n).
  unfold next_idx. rewrite u32_small by lia.
  replace (n - 1) with (Z.ones bits) by (rewrite Z.ones_equiv, tablelen_pow; lia).
  rewrite Z.land_ones, <- tablelen_pow by lia. by rewrite Zplus_mod_idemp_l.
Qed.

Lemma mod_eq_sub x y : x mod n = y mod n -> forall z, (x - z) mod n = (y - z) mod n.
Proof. intros E z. by rewrite <- Zminus_mod_idemp_l, E, Zminus_mod_idemp_l. Qed.

Lemma mod_eq_add x y : x mod n = y mod n -> forall z, (x + z) mod n = (y + z) mod n.
Proof. intros E z. by rewrite <- Zplus_mod_idemp_l, E, Zplus_mod_idemp_l. Qed.

Lemma mod_ne x j : 0 < j < n -> (x + j) mod n <> x mod n.
Proof.
  intros Hj E. apply mod_eq_sub with (z := x) in E.
  replace (x + j - x) with j in E by lia. rewrite Z.sub_diag, Z.mod_0_l in E by lia.
  rewrite Z.mod_small in E; lia.
Qed.

(** ** Buckets by their distance from anywhere *)

Definition cell t (x : Z) : option (nghttp2_map_bucket A) := get t (x mod n).

Definition full_length t : Prop := Z.of_nat (length t) = n.

Lemma cell_mod t x y : x mod n = y mod n -> cell t x = cell t y.
Proof. unfold cell. by intros ->. Qed.

Lemma cell_some t x : full_length t -> exists b, cell t x = Some b.
Proof.
  intros Hl. apply lookup_lt_is_Some. pose proof tablelen_range.
  pose proof (Z.mod_pos_bound x n). unfold full_length in Hl. lia.
Qed.

Lemma cell_put t x b y : full_length t ->
  cell (put t (x mod n) b) y = if decide (y mod n = x mod n) then Some b else cell t y.
Proof.
  intros Hl. unfold cell, get, put. pose proof tablelen_range.
  pose proof (Z.mod_pos_bound x n). pose proof (Z.mod_pos_bound y n). unfold full_length in Hl.
  case_decide as E.
  - rewrite E. apply list_lookup_insert_eq. lia.
  - apply list_lookup_insert_ne. lia.
Qed.

Lemma cell_put_eq t x b : full_length t -> cell (put t (x mod n) b) x = Some b.
Proof. intros. rewrite cell_put by done. by rewrite decide_True. Qed.

Lemma cell_put_ahead t x b j : full_length t -> 0 < j < n -> cell (put t (x mod n) b) (x + j) = cell t (x + j).
Proof. intros. rewrite cell_put by done. rewrite decide_False; [done|]. by apply mod_ne. Qed.

Lemma full_length_put t x b : full_length t -> full_length (put t x b).
Proof. unfold full_length, put. by rewrite length_insert. Qed.

(** ** Entries *)

Definition entry b : list (Z * A) := match data b with Some d => [(key b, d)] | None => [] end.
Definition entries t : list (Z * A) := t ≫= entry.

Lemma entries_put t x b b' : cell t x = Some b ->
  entry b ++ entries (put t (x mod n) b') ≡ₚ entry b' ++ entries t.
Proof.
  unfold cell, get, put. set (i := Z.to_nat (x mod n)). clearbody i.
  unfold entries. revert i. induction t as [|c t IH]; intros [|i] E; simplify_eq/=.
  - solve_Permutation.
  - specialize (IH i E). rewrite (Permutation_app_swap_app (entry b)), IH. solve_Permutation.
Qed.

Definition occupied (o : option (nghttp2_map_bucket A)) (b : nghttp2_map_bucket A) : Prop :=
  o = Some b /\ is_null b = false.

Lemma occupied_entry t x b : occupied (cell t x) b -> exists d, data b = Some d /\ entry b = [(key b, d)].
Proof. intros [_ H]. revert H. unfold is_null, entry. destruct (data b); [eauto|done]. Qed.

Lemma entries_member t x b d : cell t x = Some b -> data b = Some d -> (key b, d) ∈ entries t.
Proof.
  unfold cell, get, entries. intros E Hd. apply list_elem_of_lookup_2 in E.
  apply list_elem_of_bind. exists b. split; [|done]. unfold entry. rewrite Hd. by apply list_elem_of_singleton.
Qed.

Lemma member_entries t k d : full_length t -> (k, d) ∈ entries t ->
  exists x b, occupied (cell t x) b /\ key b = k /\ data b = Some d.
Proof.
  intros Hl. unfold entries. rewrite list_elem_of_bind. intros (b & Hkd & Hb).
  apply list_elem_of_lookup_1 in Hb as [i Hi]. exists (Z.of_nat i), b.
  pose proof (lookup_lt_Some _ _ _ Hi). unfold full_length in Hl. unfold entry in Hkd.
  destruct (data b) as [d'|] eqn:E; [|set_solver]. apply list_elem_of_singleton in Hkd. simplify_eq.
  split; [|done]. split; [|unfold is_null; by rewrite E].
  unfold cell, get. rewrite Z.mod_small by lia. by rewrite Nat2Z.id.
Qed.

(** ** The invariant *)

Definition keys t : list Z := (entries t).*1.

Definition at_home t : Prop := forall x b, occupied (cell t x) b -> psl b = (x - spread (key b) bits) mod n.

(** Bucket [x - 1] lets an entry of distance [p] be in bucket [x]. *)
Definition leads t (x p : Z) : Prop :=
  0 < p -> exists b', occupied (cell t (x - 1)) b' /\ p <= psl b' + 1.

Definition chained t : Prop := forall x b, occupied (cell t x) b -> leads t x (psl b).

Definition table_ok t : Prop := full_length t /\ at_home t /\ chained t /\ NoDup (keys t).

Lemma leads_mod t x y p : x mod n = y mod n -> leads t x p -> leads t y p.
Proof.
  intros E H Hp. destruct (H Hp) as (b' & Hb & Hle). exists b'. split; [|done].
  by rewrite <- (cell_mod t (x - 1)) by by apply mod_eq_sub.
Qed.

(** Overwriting bucket [x] does not change what leads to another than [x + 1]. *)
Lemma leads_put t x b y p : full_length t -> (y - 1) mod n <> x mod n ->
  leads t y p -> leads (put t (x mod n) b) y p.
Proof.
  intros Hl Hne H Hp. destruct (H Hp) as (b' & Hb & Hle). exists b'. split; [|done].
  by rewrite cell_put, decide_False.
Qed.

Lemma occupied_fun o b b' : occupied o b -> occupied o b' -> b = b'.
Proof. intros [-> _] [[= ->] _]. done. Qed.

Lemma unique_key t x y b b' : full_length t -> NoDup (keys t) ->
  occupied (cell t x) b -> occupied (cell t y) b' -> key b = key b' -> x mod n = y mod n.
Proof.
  intros Hl Hnd Hb Hb' Hk. destruct (decide (x mod n = y mod n)) as [|Hne]; [done|exfalso].
  destruct (occupied_entry _ _ _ Hb) as (d & _ & Ed), (occupied_entry _ _ _ Hb') as (d' & _ & Ed').
  pose proof (entries_put t x b (Bucket 0 0 None) (proj1 Hb)) as H1. rewrite Ed in H1.
  assert (E2 : cell (put t (x mod n) (Bucket 0 0 None)) y = Some b').
  { rewrite cell_put, decide_False by done. apply Hb'. }
  pose proof (entries_put _ y b' (Bucket 0 0 None) E2) as H2. rewrite Ed' in H2. cbn [entry app] in H1, H2.
  unfold keys in Hnd. rewrite <- H1, <- H2 in Hnd. cbn in Hnd. rewrite Hk in Hnd.
  apply NoDup_cons in Hnd as [Hnd _]. apply Hnd. constructor.
Qed.

(** An entry that is [d] from its place has [d] full buckets before it, each at
    least as far from its own place as from that one. *)
Lemma run_before t x b : table_ok t -> occupied (cell t x) b ->
  forall j, 0 <= j <= psl b -> exists b', occupied (cell t (x - j)) b' /\ psl b - j <= psl b'.
Proof.
  intros (Hl & _ & Hc & _) Hb j Hj. replace j with (Z.of_nat (Z.to_nat j)) in * by lia.
  generalize dependent (Z.to_nat j). clear j. intros j. induction j as [|j IH]; intros Hj.
  - exists b. rewrite Z.sub_0_r. split; [done|lia].
  - destruct IH as (b1 & Hb1 & Hle); [lia|]. destruct (Hc _ _ Hb1) as (b2 & Hb2 & Hle2); [lia|].
    exists b2. replace (x - Z.of_nat (S j)) with (x - Z.of_nat j - 1) by lia. split; [done|lia].
Qed.

Lemma psl_range t x b : table_ok t -> occupied (cell t x) b -> 0 <= psl b < n.
Proof.
  intros (_ & Hh & _) Hb. rewrite (Hh _ _ Hb). apply Z.mod_pos_bound. pose proof tablelen_range. lia.
Qed.

(** The way from the place of a key to its entry. *)
Lemma run_to t x b : table_ok t -> occupied (cell t x) b ->
  occupied (cell t (spread (key b) bits + psl b)) b /\
  (forall j, 0 <= j < psl b ->
    exists b', occupied (cell t (spread (key b) bits + j)) b' /\ j <= psl b' /\ key b' <> key b).
Proof.
  intros Hok Hb. set (home := spread (key b) bits). pose proof (psl_range _ _ _ Hok Hb) as Hp. pose proof tablelen_range.
  assert (E : forall i, (home + i) mod n = (x - (psl b - i)) mod n).
  { intros i. destruct Hok as (_ & Hh & _). rewrite (Hh _ _ Hb). fold home.
    replace (x - ((x - home) mod n - i)) with (x + i - (x - home) mod n) by lia.
    rewrite Zminus_mod_idemp_r. f_equal. lia. }
  split.
  { rewrite (cell_mod t _ x); [done|]. rewrite E. f_equal. lia. }
  intros j Hj. destruct (run_before _ _ _ Hok Hb (psl b - j)) as (b' & Hb' & Hle); [lia|].
  exists b'. rewrite (cell_mod t _ _ (E j)). split; [done|]. split; [lia|]. intros Hk.
  destruct Hok as (Hl & _ & _ & Hnd). pose proof (unique_key _ _ _ _ _ Hl Hnd Hb' Hb Hk) as E'.
  apply mod_eq_sub with (z := x - (psl b - j)) in E'. rewrite Z.sub_diag, Z.mod_0_l in E' by lia.
  replace (x - (x - (psl b - j))) with (psl b - j) in E' by lia. rewrite Z.mod_small in E'; lia.
Qed.

(** ** Lookup *)

Definition absent t k : Prop := k ∉ keys t.

Lemma absent_key t k x b : absent t k -> occupied (cell t x) b -> key b <> k.
Proof.
  intros Ha Hb <-. apply Ha. destruct (occupied_entry _ _ _ Hb) as (d & Hd & _).
  unfold keys. apply list_elem_of_fmap. exists (key b, d). split; [done|].
  eapply entries_member; [apply Hb|done].
Qed.

(** The first empty bucket at or behind [x] is [m] buckets away. *)
Definition gap t x m : Prop :=
  0 <= m < n /\ (exists b, cell t (x + m) = Some b /\ is_null b = true) /\
  forall j, 0 <= j < m -> exists b, occupied (cell t (x + j)) b.

Lemma gap_step t x m b : gap t x m -> occupied (cell t x) b -> gap t (x + 1) (m - 1) /\ 0 < m.
Proof.
  intros (Hm & (b0 & E0 & Hn) & Hall) [Hb Ho].
  assert (m <> 0) by (intros ->; rewrite Z.add_0_r in E0; rewrite E0 in Hb; simplify_eq; congruence).
  split; [|lia]. split; [lia|]. split.
  - exists b0. by replace (x + 1 + (m - 1)) with (x + m) by lia.
  - intros j Hj. destruct (Hall (j + 1)) as [b' Hb']; [lia|]. exists b'.
    by replace (x + 1 + j) with (x + (j + 1)) by lia.
Qed.

Lemma find_loop_absent k t : absent t k -> full_length t -> forall fuel x m d,
  0 <= d -> d + m < n -> gap t x m -> m < Z.of_nat fuel -> find_loop fuel t bits k (x mod n) d = Some None.
Proof.
  intros Ha Hl. pose proof tablelen_range. induction fuel as [|fuel IH]; intros x m d Hd Hdm Hg Hf.
  { destruct Hg; lia. }
  cbn. destruct (cell_some t x Hl) as [b Hb]. unfold cell in Hb. rewrite Hb. cbn.
  destruct (is_null b) eqn:En; [done|]. cbn. destruct (psl b <? d); [done|].
  assert (Ho : occupied (cell t x) b) by done.
  rewrite (proj2 (Z.eqb_neq _ _)) by by eapply absent_key.
  destruct (gap_step _ _ _ _ Hg Ho) as [Hg' Hm].
  rewrite next_idx_mod, u32_small by lia. apply IH with (m - 1); [lia|lia|done|lia].
Qed.

(** What a walk along the entries before [b] meets. *)
Definition on_the_way t b x d : Prop :=
  0 <= d <= psl b /\ occupied (cell t (x + (psl b - d))) b /\
  forall j, 0 <= j < psl b - d -> exists b', occupied (cell t (x + j)) b' /\ d + j <= psl b' /\ key b' <> key b.

Lemma on_the_way_start t x b : table_ok t -> occupied (cell t x) b -> on_the_way t b (spread (key b) bits) 0.
Proof.
  intros Hok Hb. pose proof (psl_range _ _ _ Hok Hb). destruct (run_to _ _ _ Hok Hb) as [H1 H2].
  split; [lia|]. rewrite Z.sub_0_r. split; [done|]. intros j Hj. apply H2. lia.
Qed.

Lemma on_the_way_step t b x d : on_the_way t b x d -> psl b <> d ->
  on_the_way t b (x + 1) (d + 1) /\ exists b', occupied (cell t x) b' /\ d <= psl b' /\ key b' <> key b.
Proof.
  intros (Hd & Hb & H) Hne. split.
  - split; [lia|]. replace (x + 1 + (psl b - (d + 1))) with (x + (psl b - d)) by lia. split; [done|].
    intros j Hj. destruct (H (j + 1)) as (b' & Hb' & Hj' & Hk); [lia|]. exists b'.
    replace (x + 1 + j) with (x + (j + 1)) by lia. split; [done|]. split; [lia|done].
  - destruct (H 0) as (b' & Hb' & Hj' & Hk); [lia|]. rewrite Z.add_0_r in Hb'. exists b'. split; [done|]. split; [lia|done].
Qed.

Lemma on_the_way_end t b x : on_the_way t b x (psl b) -> occupied (cell t x) b.
Proof. intros (_ & H & _). by replace (x + (psl b - psl b)) with x in H by lia. Qed.

Lemma find_loop_present t b : psl b < n -> forall fuel x d,
  on_the_way t b x d -> psl b - d < Z.of_nat fuel -> find_loop fuel t bits (key b) (x mod n) d = Some (data b).
Proof.
  intros Hp. pose proof tablelen_range. induction fuel as [|fuel IH]; intros x d Hw Hf; [destruct Hw; lia|].
  cbn. destruct (decide (psl b = d)) as [<-|Hne].
  - destruct (on_the_way_end _ _ _ Hw) as [Hb Ho]. unfold cell in Hb. rewrite Hb. cbn.
    by rewrite Ho, Z.ltb_irrefl, Z.eqb_refl.
  - destruct (on_the_way_step _ _ _ _ Hw Hne) as [Hw' (b' & [Hb' Ho'] & Hle & Hk)].
    unfold cell in Hb'. rewrite Hb'. cbn. rewrite Ho'. rewrite (proj2 (Z.ltb_ge _ _)) by lia.
    rewrite (proj2 (Z.eqb_neq _ _)) by done. destruct Hw.
    rewrite next_idx_mod, u32_small by lia. cbn. apply IH; [done|lia].
Qed.

(** ** Insertion *)

Lemma home_next x s p : p = (x - s) mod n -> p + 1 < n -> p + 1 = (x + 1 - s) mod n.
Proof.
  pose proof tablelen_range. intros -> Hp. pose proof (Z.mod_pos_bound (x - s) n).
  replace (x + 1 - s) with (x - s + 1) by lia.
  rewrite <- Zplus_mod_idemp_l, (Z.mod_small (_ + 1)); lia.
Qed.

(** The entry [b] may be put into bucket [x]. *)
Definition fits t x b : Prop :=
  is_null b = false /\ psl b = (x - spread (key b) bits) mod n /\ leads t x (psl b) /\ absent t (key b).

Lemma prev_ne x : (x - 1) mod n <> x mod n.
Proof. pose proof tablelen_range. intros E. symmetry in E. revert E. replace x with (x - 1 + 1) at 1 by lia. apply mod_ne. lia. Qed.

Lemma fits_entry t x b : fits t x b -> exists d, entry b = [(key b, d)].
Proof. intros (H & _). revert H. unfold is_null, entry. destruct (data b); [eauto|done]. Qed.

Lemma fits_NoDup t x b : fits t x b -> NoDup (keys t) -> NoDup (entry b ++ entries t).*1.
Proof.
  intros Hf Hnd. destruct (fits_entry _ _ _ Hf) as [d ->]. cbn. apply NoDup_cons. split; [|done].
  by destruct Hf as (_ & _ & _ & Ha).
Qed.

Lemma place_ok t x b c : table_ok t -> fits t x b -> cell t x = Some c -> is_null c = true \/ psl c < psl b ->
  table_ok (put t (x mod n) b).
Proof.
  intros (Hl & Hh & Hc & Hnd) Hf Ec Hcc. pose proof Hf as (Hb & Hp & Hlead & Ha).
  split; [by apply full_length_put|]. split; [|split].
  - intros y b' [E' Ho]. rewrite cell_put in E' by done. case_decide as Ey.
    + simplify_eq. rewrite Hp. by apply mod_eq_sub.
    + by apply Hh.
  - intros y b' [E' Ho]. rewrite cell_put in E' by done. case_decide as Ey.
    + simplify_eq. apply leads_mod with x; [done|]. apply leads_put; [done|apply prev_ne|done].
    + destruct (decide ((y - 1) mod n = x mod n)) as [E|Hne].
      * intros Hpos. destruct (Hc y b' (conj E' Ho) Hpos) as (c' & [Ec' Hc'] & Hle).
        rewrite (cell_mod t _ x), Ec in Ec' by done. simplify_eq. exists b.
        rewrite cell_put, decide_True by done. split; [done|]. destruct Hcc; [congruence|lia].
      * by apply leads_put, Hc.
  - pose proof (entries_put t x c b Ec) as HP. pose proof (fits_NoDup _ _ _ Hf Hnd) as H.
    rewrite <- HP, fmap_app in H. by apply NoDup_app in H as (_ & _ & H).
Qed.

Lemma absent_after t x b c : table_ok t -> fits t x b -> occupied (cell t x) c -> absent (put t (x mod n) b) (key c).
Proof.
  intros (_ & _ & _ & Hnd) Hf Hc. pose proof (entries_put t x c b (proj1 Hc)) as HP.
  pose proof (fits_NoDup _ _ _ Hf Hnd) as H. destruct (occupied_entry _ _ _ Hc) as (d & _ & E).
  rewrite <- HP, E in H. cbn in H. by apply NoDup_cons in H as [H _].
Qed.

Lemma gap_put t x b m : full_length t -> 0 <= m -> m + 1 < n -> gap t (x + 1) m -> gap (put t (x mod n) b) (x + 1) m.
Proof.
  intros Hl H0 Hm (_ & (c & Ec & Hn) & H). split; [lia|].
  assert (E : forall j, 0 <= j <= m -> cell (put t (x mod n) b) (x + 1 + j) = cell t (x + 1 + j)).
  { intros j Hj. rewrite <- Z.add_assoc. apply cell_put_ahead; [done|lia]. }
  split.
  - exists c. by rewrite E by lia.
  - intros j Hj. destruct (H j Hj) as [c' Hc']. exists c'. by rewrite E by lia.
Qed.

Lemma is_null_incr b : is_null (incr_psl b) = is_null b.
Proof. done. Qed.

Lemma fits_next_kept t x b c : 0 <= psl b -> psl b + 1 < n -> fits t x b -> occupied (cell t x) c -> psl b <= psl c ->
  fits t (x + 1) (incr_psl b) /\ psl (incr_psl b) = psl b + 1.
Proof.
  intros H0 Hlt (Hb & Hp & _ & Ha) Hc Hle. pose proof tablelen_range.
  assert (E : psl (incr_psl b) = psl b + 1) by (cbn; apply u32_small; lia).
  split; [|done]. split; [done|]. rewrite E. split; [by apply home_next|]. split; [|done].
  intros _. exists c. replace (x + 1 - 1) with x by lia. split; [done|lia].
Qed.

Lemma fits_next_swapped t x b c : table_ok t -> fits t x b -> occupied (cell t x) c -> psl c < psl b -> psl b + 1 < n ->
  fits (put t (x mod n) b) (x + 1) (incr_psl c) /\ psl (incr_psl c) = psl c + 1.
Proof.
  intros Hok Hf Hc Hlt Hn. pose proof tablelen_range. pose proof (psl_range _ _ _ Hok Hc).
  assert (E : psl (incr_psl c) = psl c + 1) by (cbn; apply u32_small; lia).
  split; [|done]. split; [apply Hc|]. rewrite E. cbn [key incr_psl].
  split; [apply home_next; [apply Hok, Hc|lia]|]. split.
  - intros _. exists b. replace (x + 1 - 1) with x by lia. rewrite cell_put_eq by apply Hok.
    split; [split; [done|apply Hf]|lia].
  - by apply absent_after.
Qed.

Lemma insert_loop_new k : forall fuel t x m b,
  table_ok t -> fits t x b -> 0 <= psl b ->
  (forall j b', 0 <= j < m -> occupied (cell t (x + j)) b' -> key b' <> k) ->
  psl b + m < n -> gap t x m -> m < Z.of_nat fuel ->
  exists t', insert_loop fuel t bits k (x mod n) b = Some (0, t') /\ table_ok t' /\ entries t' ≡ₚ entry b ++ entries t.
Proof.
  induction fuel as [|fuel IH]; intros t x m b Hok Hf H0 Hk Hd Hg Hfu; [destruct Hg; lia|].
  pose proof tablelen_range. pose proof Hok as (Hl & _). cbn.
  destruct (cell_some t x Hl) as [c Hc]. pose proof Hc as Hc'. unfold cell in Hc'. rewrite Hc'. cbn. clear Hc'.
  pose proof (entries_put t x c b Hc) as HP. destruct (is_null c) eqn:En.
  { eexists. split; [done|]. split; [by apply place_ok with c; [..|left]|]. revert HP. unfold entry at 1.
    revert En. unfold is_null. by destruct (data c). }
  assert (Ho : occupied (cell t x) c) by done. destruct (gap_step _ _ _ _ Hg Ho) as [Hg' Hm].
  pose proof (psl_range _ _ _ Hok Ho) as Hpc. rewrite next_idx_mod. destruct (Z.ltb_spec (psl c) (psl b)) as [Hlt|Hge].
  - destruct (fits_next_swapped t x b c) as [Hf' E]; [done..|lia|].
    destruct (IH (put t (x mod n) b) (x + 1) (m - 1) (incr_psl c)) as (t' & -> & Hok' & HP').
    + apply place_ok with c; [done..|by right].
    + done.
    + lia.
    + intros j b' Hj. rewrite <- Z.add_assoc, cell_put_ahead by (done || lia). apply Hk. lia.
    + lia.
    + apply gap_put; [done|lia|destruct Hg; lia|done].
    + lia.
    + exists t'. split; [done|]. split; [done|]. by rewrite HP', <- HP.
  - rewrite (proj2 (Z.eqb_neq _ _)) by (apply (Hk 0); [lia|by rewrite Z.add_0_r]).
    destruct (fits_next_kept t x b c) as [Hf' E]; [done|lia|done..|].
    apply (IH t (x + 1) (m - 1) (incr_psl b)); [done|done|lia| |lia|done|lia].
    intros j b' Hj. rewrite <- Z.add_assoc. apply Hk. lia.
Qed.

Lemma insert_loop_present t b e : table_ok t -> psl b < n -> forall fuel x d,
  on_the_way t b x d -> psl b - d < Z.of_nat fuel ->
  insert_loop fuel t bits (key b) (x mod n) (Bucket d (key b) e) = Some (NGHTTP2_ERR_INVALID_ARGUMENT, t).
Proof.
  intros Hok Hp. pose proof tablelen_range. induction fuel as [|fuel IH]; intros x d Hw Hf; [destruct Hw; lia|].
  cbn. destruct (decide (psl b = d)) as [<-|Hne].
  - destruct (on_the_way_end _ _ _ Hw) as [Hb Ho]. unfold cell in Hb. rewrite Hb. cbn.
    by rewrite Ho, Z.ltb_irrefl, Z.eqb_refl.
  - destruct (on_the_way_step _ _ _ _ Hw Hne) as [Hw' (b' & [Hb' Ho'] & Hle & Hk)].
    unfold cell in Hb'. rewrite Hb'. cbn. rewrite Ho'. rewrite (proj2 (Z.ltb_ge _ _)) by lia.
    rewrite (proj2 (Z.eqb_neq _ _)) by done. destruct Hw.
    rewrite next_idx_mod. unfold incr_psl. cbn [psl key data]. rewrite u32_small by lia. apply IH; [done|lia].
Qed.

(** A table that is not full has a first empty bucket behind every place. *)
Lemma first_gap t : full_length t -> forall (k : nat) x, Z.of_nat k < n ->
  (exists b, cell t (x + Z.of_nat k) = Some b /\ is_null b = true) -> exists m, m <= Z.of_nat k /\ gap t x m.
Proof.
  intros Hl. pose proof tablelen_range. induction k as [|k IH]; intros x Hk Hb.
  { exists 0. split; [lia|]. split; [lia|]. split; [done|lia]. }
  destruct (cell_some t x Hl) as [c Hc]. destruct (is_null c) eqn:En.
  { exists 0. split; [lia|]. split; [lia|]. split; [exists c; by rewrite Z.add_0_r|lia]. }
  destruct (IH (x + 1)) as (m & Hm & (Hr & He & Hall)); [lia| |].
  { by replace (x + 1 + Z.of_nat k) with (x + Z.of_nat (S k)) by lia. }
  exists (m + 1). split; [lia|]. split; [lia|]. split.
  - by replace (x + (m + 1)) with (x + 1 + m) by lia.
  - intros j Hj. destruct (decide (j = 0)) as [->|]; [exists c; by rewrite Z.add_0_r|].
    replace (x + j) with (x + 1 + (j - 1)) by lia. apply Hall. lia.
Qed.

Lemma not_full t : (length (entries t) < length t)%nat -> exists i b, t !! i = Some b /\ is_null b = true.
Proof.
  unfold entries. induction t as [|b t IH]; [cbn; lia|]. intros H. destruct (is_null b) eqn:En; [by exists 0%nat, b|].
  destruct IH as (i & c & Hi & Hc); [|by exists (S i), c]. revert H En. cbn. rewrite length_app.
  unfold is_null, entry. destruct (data b); cbn; [lia|done].
Qed.

Lemma gap_exists t x : full_length t -> Z.of_nat (length (entries t)) < n -> exists m, gap t x m.
Proof.
  intros Hl Hfree. pose proof tablelen_range. unfold full_length in Hl.
  destruct (not_full t) as (i & b & Hi & Hb); [lia|]. pose proof (lookup_lt_Some _ _ _ Hi).
  pose proof (Z.mod_pos_bound (Z.of_nat i - x) n).
  destruct (first_gap t Hl (Z.to_nat ((Z.of_nat i - x) mod n)) x) as (m & _ & Hm); [lia| |by exists m].
  exists b. split; [|done]. rewrite Z2Nat.id by lia. unfold cell, get.
  rewrite Zplus_mod_idemp_r, Zplus_minus, Z.mod_small by lia. by rewrite Nat2Z.id.
Qed.

Lemma table_insert_absent t k d : table_ok t -> Z.of_nat (length (entries t)) < n -> absent t k ->
  exists t', insert t bits k (Some d) = Some (0, t') /\ table_ok t' /\ entries t' ≡ₚ (k, d) :: entries t.
Proof.
  intros Hok Hfree Ha. pose proof (spread_range k) as Hs. pose proof Hok as (Hl & _).
  unfold insert. rewrite hash_spread. cbn [mbind option_bind].
  destruct (gap_exists t (spread k bits) Hl Hfree) as [m Hm]. pose proof Hm as ((H0 & Hmn) & _).
  rewrite <- (Z.mod_small (spread k bits) n) by done. unfold full_length in Hl.
  apply (insert_loop_new k (length t) t (spread k bits) m (Bucket 0 k (Some d))); cbn [psl]; [done| |lia| |lia|done|lia].
  - split; [done|]. cbn. split; [by rewrite Z.sub_diag|]. split; [intros ?; lia|done].
  - intros j b' _ Hb'. by eapply absent_key.
Qed.

Lemma in_keys t k : full_length t -> k ∈ keys t -> exists x b, occupied (cell t x) b /\ key b = k.
Proof.
  intros Hl Hk. apply list_elem_of_fmap in Hk as ([k' d] & -> & Hk).
  apply member_entries in Hk as (x & b & Hb & <- & _); [by exists x, b|done].
Qed.

Lemma table_insert_present t k d : table_ok t -> k ∈ keys t ->
  insert t bits k d = Some (NGHTTP2_ERR_INVALID_ARGUMENT, t).
Proof.
  intros Hok Hk. pose proof Hok as (Hl & _). apply in_keys in Hk as (x & b & Hb & <-); [|done].
  unfold insert. rewrite hash_spread. cbn [mbind option_bind].
  pose proof (psl_range _ _ _ Hok Hb). unfold full_length in Hl.
  rewrite <- (Z.mod_small (spread (key b) bits) n) by apply spread_range.
  apply insert_loop_present; [done|lia|by apply on_the_way_start with x|lia].
Qed.

(** ** Removal *)

Lemma home_prev x s p : p = (x + 1 - s) mod n -> 0 < p -> p - 1 = (x - s) mod n.
Proof.
  pose proof tablelen_range. intros -> Hp. pose proof (Z.mod_pos_bound (x + 1 - s) n).
  replace (x - s) with (x + 1 - s - 1) by lia.
  rewrite <- (Zminus_mod_idemp_l (x + 1 - s) 1), (Z.mod_small (_ - 1)); lia.
Qed.

(** The entries outside bucket [h], whose entry is no longer one. *)
Definition outside t h x b : Prop := occupied (cell t x) b /\ x mod n <> h mod n.

(** A table with a hole in [h], where an entry of distance [p] has been. *)
Record hole t h p R : Prop := {
  hole_length : full_length t;
  hole_home : forall x b, outside t h x b -> psl b = (x - spread (key b) bits) mod n;
  hole_chain : forall x b, outside t h x b -> x mod n <> (h + 1) mod n -> 0 < psl b ->
    exists b', outside t h (x - 1) b' /\ psl b <= psl b' + 1;
  hole_after : forall b, outside t h (h + 1) b -> psl b <= p + 1;
  hole_before : 0 < p -> exists b', outside t h (h - 1) b' /\ p <= psl b' + 1;
  hole_entries : exists old, cell t h = Some old /\ entries t ≡ₚ entry old ++ R;
  hole_nodup : NoDup R.*1
}.

Lemma hole_closed t h p R old : hole t h p R -> cell t h = Some old ->
  (forall b, outside t h (h + 1) b -> psl b = 0) ->
  table_ok (put t (h mod n) (clear_data old)) /\ entries (put t (h mod n) (clear_data old)) ≡ₚ R.
Proof.
  intros H Hold Hnext. pose proof (hole_length _ _ _ _ H) as Hl.
  assert (E : entries (put t (h mod n) (clear_data old)) ≡ₚ R).
  { pose proof (entries_put t h old (clear_data old) Hold) as HP. destruct (hole_entries _ _ _ _ H) as (old' & E & HR).
    rewrite Hold in E. simplify_eq. cbn [entry clear_data data app] in HP. rewrite HR in HP. by apply Permutation_app_inv_l in HP. }
  assert (Hout : forall x b, occupied (cell (put t (h mod n) (clear_data old)) x) b <-> outside t h x b).
  { intros x b. unfold outside, occupied. rewrite cell_put by done. case_decide; [|tauto].
    split; [|tauto]. intros [[= <-] Hn]. done. }
  split; [|done]. split; [by apply full_length_put|]. split; [|split].
  - intros x b Hb%Hout. by apply (hole_home _ _ _ _ H).
  - intros x b Hb%Hout Hpos. destruct (decide (x mod n = (h + 1) mod n)) as [Ex|Hx].
    + rewrite (Hnext b) in Hpos; [lia|]. destruct Hb as [Hb Hne]. unfold outside. by rewrite <- Ex, (cell_mod t _ x).
    + destruct (hole_chain _ _ _ _ H x b Hb Hx Hpos) as (b' & Hb'%Hout & Hle). by exists b'.
  - unfold keys. rewrite E. apply (hole_nodup _ _ _ _ H).
Qed.

(** One entry moves back: buckets [h] and [h + 1] hold it, and [h + 1] is the hole. *)
Definition moved t h c : list (nghttp2_map_bucket A) :=
  put (put t ((h + 1) mod n) c) (h mod n) c.

Lemma succ_ne x : (x + 1) mod n <> x mod n.
Proof. pose proof tablelen_range. apply mod_ne. lia. Qed.

Lemma mod_shift x y z : x mod n = (y + z) mod n -> (x - z) mod n = y mod n.
Proof. intros E. rewrite (mod_eq_sub _ _ E). f_equal. lia. Qed.

Lemma outside_moved t h c x b : full_length t -> outside (moved t h c) (h + 1) x b ->
  (x mod n = h mod n /\ b = c) \/ (outside t h x b /\ x mod n <> (h + 1) mod n).
Proof.
  intros Hl [[E Hn] Hne]. unfold moved in E. rewrite cell_put in E by by apply full_length_put.
  case_decide as Ex; [left; by simplify_eq|right]. split; [|done]. rewrite cell_put in E by done.
  by rewrite decide_False in E by done.
Qed.

Lemma moved_outside t h c x b : full_length t -> x mod n <> (h + 1) mod n -> outside t h x b ->
  outside (moved t h c) (h + 1) x b.
Proof.
  intros Hl Hne [[E Hn] Hx]. split; [|done]. split; [|done]. unfold moved.
  rewrite cell_put by by apply full_length_put. rewrite decide_False by done.
  rewrite cell_put by done. by rewrite decide_False by done.
Qed.

Lemma moved_here t h c x : full_length t -> is_null c = false -> x mod n = h mod n -> outside (moved t h c) (h + 1) x c.
Proof.
  intros Hl Hc Ex. split; [split; [|done]|].
  - unfold moved. rewrite cell_put by by apply full_length_put. by rewrite decide_True.
  - rewrite Ex. intros E. by apply (succ_ne h).
Qed.

Lemma entry_decr c : entry (decr_psl c) = entry c.
Proof. done. Qed.

Lemma entries_moved t h c old R : full_length t -> cell t (h + 1) = Some c -> cell t h = Some old ->
  entries t ≡ₚ entry old ++ R -> entries (moved t h (decr_psl c)) ≡ₚ entry c ++ R.
Proof.
  intros Hl Hc Hold HR. pose proof (entries_put t (h + 1) c (decr_psl c) Hc) as H1.
  rewrite entry_decr in H1. apply Permutation_app_inv_l in H1.
  assert (E : cell (put t ((h + 1) mod n) (decr_psl c)) h = Some old).
  { rewrite cell_put by done. rewrite decide_False; [done|]. intros E. by apply (succ_ne h). }
  pose proof (entries_put _ h old (decr_psl c) E) as H2. rewrite entry_decr, H1, HR in H2.
  apply (Permutation_app_inv_l (entry old)). unfold moved. rewrite H2. solve_Permutation.
Qed.

Lemma outside_mod t h x y b : x mod n = y mod n -> outside t h x b -> outside t h y b.
Proof. intros E [H1 H2]. split; [by rewrite <- (cell_mod t x y)|by rewrite <- E]. Qed.

Lemma hole_step_chain t h p R c x b : hole t h p R -> 0 <= p -> outside t h (h + 1) c -> 0 < psl c < n ->
  outside (moved t h (decr_psl c)) (h + 1) x b -> x mod n <> (h + 1 + 1) mod n -> 0 < psl b ->
  exists b', outside (moved t h (decr_psl c)) (h + 1) (x - 1) b' /\ psl b <= psl b' + 1.
Proof.
  intros [Hl _ Hc Ha Hb _ _] Hp0 Hout Hp Hx Hne Hpos. pose proof tablelen_range.
  assert (Ed : psl (decr_psl c) = psl c - 1) by (cbn; apply u32_small; lia).
  apply outside_moved in Hx as [[Ex ->]|[Hx Hne']]; [| |done].
  - rewrite Ed in *. pose proof (Ha c Hout). destruct Hb as (b' & Hb' & Hle); [lia|]. exists b'.
    split; [|lia]. apply moved_outside; [done| |].
    + rewrite (mod_eq_sub _ _ Ex). replace (h + 1) with (h - 1 + 2) by lia. intros E. symmetry in E.
      revert E. apply mod_ne. lia.
    + apply outside_mod with (h - 1); [symmetry; by apply mod_eq_sub|done].
  - destruct (Hc x b Hx Hne' Hpos) as (b' & Hb' & Hle). exists b'. split; [|done].
    apply moved_outside; [done| |done]. intros E. apply Hne.
    apply mod_eq_add with (z := 1) in E. by replace (x - 1 + 1) with x in E by lia.
Qed.

Lemma hole_step t h p R c : hole t h p R -> 0 <= p -> occupied (cell t (h + 1)) c -> 0 < psl c < n ->
  hole (moved t h (decr_psl c)) (h + 1) (psl c) R.
Proof.
  intros Hhole Hp0 Ho Hp. pose proof tablelen_range.
  assert (Hout : outside t h (h + 1) c) by (split; [done|apply succ_ne]).
  pose proof Hhole as [Hl Hh Hc Ha Hb (old & Hold & HR) Hnd].
  assert (Ed : psl (decr_psl c) = psl c - 1) by (cbn; apply u32_small; lia).
  constructor.
  - by do 2 apply full_length_put.
  - intros x b [[Ex ->]|[Hx _]]%outside_moved; [|by apply Hh|done].
    rewrite Ed. transitivity ((h - spread (key c) bits) mod n); [|symmetry; by apply mod_eq_sub].
    apply home_prev; [by apply Hh|lia].
  - intros x b. by apply hole_step_chain with p R.
  - intros b [[Ex ->]|[Hx Hne]]%outside_moved; [| |done].
    { rewrite Ed. lia. }
    destruct (decide (0 < psl b)) as [Hpos|]; [|lia].
    destruct (Hc _ b Hx Hne Hpos) as (b' & [Hb' _] & Hle). replace (h + 1 + 1 - 1) with (h + 1) in Hb' by lia.
    by rewrite (occupied_fun _ _ _ Hb' Ho) in Hle.
  - intros _. exists (decr_psl c). rewrite Ed. split; [|lia]. apply moved_here; [done|apply Ho|f_equal; lia].
  - exists (decr_psl c). split; [|rewrite entry_decr; apply entries_moved with old; [done|apply Ho|done..]].
    unfold moved. rewrite cell_put by by apply full_length_put. rewrite decide_False by apply succ_ne.
    by rewrite cell_put_eq.
  - done.
Qed.

Lemma gap_moved t h c m : full_length t -> 0 <= m -> m + 2 < n -> gap t (h + 1 + 1) m -> gap (moved t h c) (h + 1 + 1) m.
Proof.
  intros Hl H0 Hm (_ & (b & Eb & Hn) & H). split; [lia|].
  assert (E : forall j, 0 <= j <= m -> cell (moved t h c) (h + 1 + 1 + j) = cell t (h + 1 + 1 + j)).
  { intros j Hj. unfold moved. replace (h + 1 + 1 + j) with (h + (2 + j)) by lia.
    rewrite cell_put_ahead by (lia || by apply full_length_put).
    replace (h + (2 + j)) with (h + 1 + (1 + j)) by lia. by rewrite cell_put_ahead by (done || lia). }
  split.
  - exists b. by rewrite E by lia.
  - intros j Hj. destruct (H j Hj) as [b' Hb']. exists b'. by rewrite E by lia.
Qed.

Lemma shift_back_ok R : forall fuel t h p m,
  hole t h p R -> 0 <= p -> gap t (h + 1) m -> m + 1 < n -> m < Z.of_nat fuel ->
  exists t', shift_back fuel t bits (h mod n) ((h + 1) mod n) = Some t' /\ table_ok t' /\ entries t' ≡ₚ R.
Proof.
  induction fuel as [|fuel IH]; intros t h p m Hh Hp Hg Hm Hf; [destruct Hg; lia|].
  pose proof tablelen_range. pose proof (hole_length _ _ _ _ Hh) as Hl. cbn.
  destruct (cell_some t (h + 1) Hl) as [c Hc]. pose proof Hc as Hc'. unfold cell in Hc'. rewrite Hc'. cbn. clear Hc'.
  destruct (is_null c || (psl c =? 0)) eqn:E.
  - destruct (hole_entries _ _ _ _ Hh) as (old & Hold & _). pose proof Hold as Hold'. unfold cell in Hold'. rewrite Hold'. cbn.
    eexists. split; [done|]. apply (hole_closed t h p R old Hh Hold).
    intros b [[Hb Hn] _]. rewrite Hc in Hb. simplify_eq. rewrite Hn in E. cbn in E. lia.
  - apply orb_false_elim in E as [En Ez]. apply Z.eqb_neq in Ez. assert (Ho : occupied (cell t (h + 1)) c) by done.
    assert (Hpc : 0 < psl c < n).
    { pose proof (hole_home _ _ _ _ Hh _ _ (conj Ho (succ_ne h))) as Eh.
      pose proof (Z.mod_pos_bound (h + 1 - spread (key c) bits) n). lia. }
    destruct (gap_step _ _ _ _ Hg Ho) as [Hg' Hm0]. rewrite next_idx_mod.
    apply IH with (psl c) (m - 1); [by apply hole_step with p|lia| |lia|lia].
    apply gap_moved; [done|lia|lia|done].
Qed.

Lemma table_ok_hole t x b : table_ok t -> occupied (cell t x) b ->
  hole t x (psl b) (entries (put t (x mod n) (Bucket 0 0 None))).
Proof.
  intros (Hl & Hh & Hc & Hnd) Hb. pose proof (entries_put t x b (Bucket 0 0 None) (proj1 Hb)) as HP. cbn [entry data app] in HP.
  pose proof tablelen_range.
  assert (Hout : forall y c, outside t x y c -> y mod n <> (x + 1) mod n -> 0 < psl c ->
    exists c', outside t x (y - 1) c' /\ psl c <= psl c' + 1).
  { intros y c [Hy Hne] Hne' Hpos. destruct (Hc y c Hy Hpos) as (c' & Hc' & Hle). exists c'. split; [|done].
    split; [done|]. intros E. apply Hne'. apply mod_eq_add with (z := 1) in E. by replace (y - 1 + 1) with y in E by lia. }
  pose proof (Z.mod_pos_bound (x - spread (key b) bits) n) as Hm. rewrite <- (Hh _ _ Hb) in Hm.
  constructor; [done| |done| | | |].
  - intros y c [Hy _]. by apply Hh.
  - intros c [Ho _]. destruct (decide (0 < psl c)) as [Hpos|]; [|lia].
    destruct (Hc _ _ Ho Hpos) as (c' & Hc' & Hle). replace (x + 1 - 1) with x in Hc' by lia.
    by rewrite (occupied_fun _ _ _ Hc' Hb) in Hle.
  - intros Hpos. destruct (Hc _ _ Hb Hpos) as (c' & Hc' & Hle). exists c'. split; [|done]. split; [done|apply prev_ne].
  - exists b. split; [apply Hb|]. by rewrite HP.
  - unfold keys in Hnd. rewrite <- HP, fmap_app in Hnd. by apply NoDup_app in Hnd as (_ & _ & Hnd).
Qed.

Lemma remove_loop_present t b : table_ok t -> psl b < n -> Z.of_nat (length (entries t)) < n -> forall fuel x d,
  on_the_way t b x d -> psl b - d < Z.of_nat fuel ->
  exists t', remove_loop fuel t bits (key b) (x mod n) d = Some (0, t') /\ table_ok t' /\
    entry b ++ entries t' ≡ₚ entries t.
Proof.
  intros Hok Hp Hfree. pose proof tablelen_range. pose proof Hok as (Hl & _).
  induction fuel as [|fuel IH]; intros x d Hw Hf; [destruct Hw; lia|].
  cbn. destruct (decide (psl b = d)) as [<-|Hne].
  - pose proof (on_the_way_end _ _ _ Hw) as Hb. pose proof Hb as [Hb' Ho]. unfold cell in Hb'. rewrite Hb'. cbn.
    rewrite Ho, Z.ltb_irrefl, Z.eqb_refl. cbn. rewrite next_idx_mod.
    destruct (gap_exists t (x + 1) Hl Hfree) as [m Hm].
    pose proof (psl_range _ _ _ Hok Hb) as Hpr. unfold full_length in Hl.
    destruct (shift_back_ok (entries (put t (x mod n) (Bucket 0 0 None))) (length t) t x (psl b) m) as (t' & -> & Hok' & HP).
    + by apply table_ok_hole.
    + lia.
    + done.
    + destruct Hm as ((_ & Hm) & (c & Hc & Hn) & _). destruct (decide (m = n - 1)) as [->|]; [|lia].
      rewrite (cell_mod t _ x) in Hc by (replace (x + 1 + (n - 1)) with (x + 1 * n) by lia; apply Z_mod_plus_full).
      destruct Hb as [Hb _]. rewrite Hc in Hb. simplify_eq. congruence.
    + destruct Hm; lia.
    + exists t'. split; [done|]. split; [done|]. rewrite HP.
      apply (entries_put t x b (Bucket 0 0 None) (proj1 Hb)).
  - destruct (on_the_way_step _ _ _ _ Hw Hne) as [Hw' (b' & [Hb' Ho'] & Hle & Hk)].
    unfold cell in Hb'. rewrite Hb'. cbn. rewrite Ho'. rewrite (proj2 (Z.ltb_ge _ _)) by lia.
    rewrite (proj2 (Z.eqb_neq _ _)) by done. destruct Hw.
    rewrite next_idx_mod, u32_small by lia. cbn. apply IH; [done|lia].
Qed.

Lemma remove_loop_absent k t : absent t k -> full_length t -> forall fuel x m d,
  0 <= d -> d + m < n -> gap t x m -> m < Z.of_nat fuel ->
  remove_loop fuel t bits k (x mod n) d = Some (NGHTTP2_ERR_INVALID_ARGUMENT, t).
Proof.
  intros Ha Hl. pose proof tablelen_range. induction fuel as [|fuel IH]; intros x m d Hd Hdm Hg Hf.
  { destruct Hg; lia. }
  cbn. destruct (cell_some t x Hl) as [b Hb]. unfold cell in Hb. rewrite Hb. cbn.
  destruct (is_null b) eqn:En; [done|]. cbn. destruct (psl b <? d); [done|].
  assert (Ho : occupied (cell t x) b) by done.
  rewrite (proj2 (Z.eqb_neq _ _)) by by eapply absent_key.
  destruct (gap_step _ _ _ _ Hg Ho) as [Hg' Hm].
  rewrite next_idx_mod, u32_small by lia. apply IH with (m - 1); [lia|lia|done|lia].
Qed.
End Table.

Arguments entries {A} t : simpl never.

(** ** Growing *)

Section Maps.
Context {A : Type}.
Context (calloc_ok : nat -> Z -> bool).
(** What documentation says of [calloc]: no block is larger than the address space. *)
Context (Hcap : forall r bytes, calloc_ok r bytes = true -> bytes < 2 ^ 32).
Implicit Types (mp : nghttp2_map A) (t : list (nghttp2_map_bucket A)).

Lemma zero_table_ok bits : 4 <= bits <= 28 ->
  table_ok bits (zero_table (A := A) bits) /\ entries (zero_table (A := A) bits) = [].
Proof.
  intros Hb. pose proof (tablelen_range bits Hb).
  assert (E : entries (zero_table (A := A) bits) = []).
  { unfold entries, zero_table. induction (Z.to_nat (tablelen bits)) as [|k IH]; [done|]. cbn. exact IH. }
  assert (Hno : forall x b, ~ occupied (cell bits (zero_table (A := A) bits) x) b).
  { intros x b [Hx Hn]. unfold cell, get, zero_table in Hx. apply lookup_replicate in Hx as [-> _]. done. }
  split; [|done]. split; [unfold full_length, zero_table; rewrite length_replicate; lia|].
  split; [|split]; [by intros x b []%Hno..|]. unfold keys. rewrite E. constructor.
Qed.

Lemma reinsert_ok bits : 4 <= bits <= 28 -> forall old new,
  table_ok bits new -> NoDup (keys old ++ keys new) ->
  Z.of_nat (length (entries old) + length (entries new)) < tablelen bits ->
  exists t, reinsert old new bits = Some t /\ table_ok bits t /\ entries t ≡ₚ entries old ++ entries new.
Proof.
  intros Hb. induction old as [|b old IH]; intros new Hok Hnd Hlen; [by exists new|]. cbn [reinsert].
  unfold keys, entries in Hnd, Hlen. cbn in Hnd, Hlen. fold (entries old) (entries new) in Hnd, Hlen.
  change (entries (b :: old)) with (entry b ++ entries old).
  unfold is_null. unfold entry in Hnd, Hlen |- *. destruct (data b) as [d|] eqn:E; [|by apply IH].
  cbn in Hnd, Hlen. apply NoDup_cons in Hnd as [Hk Hnd]. apply not_elem_of_app in Hk as [Hk1 Hk2].
  destruct (table_insert_absent bits Hb new (key b) d) as (t1 & -> & Hok1 & HP1); [done|lia|done|]. cbn.
  destruct (IH t1) as (t2 & -> & Hok2 & HP2); [done| | |].
  - unfold keys. rewrite HP1. cbn. rewrite <- Permutation_middle. by apply NoDup_cons; split; [apply not_elem_of_app|].
  - rewrite HP1. cbn. lia.
  - exists t2. split; [done|]. split; [done|]. rewrite HP2, HP1. solve_Permutation.
Qed.

(** ** Maps *)

(** The finite map a table stands for. *)
Definition abs mp : gmap Z A := list_to_map (entries (table mp)).

Definition map_ok mp : Prop :=
  (table mp = [] /\ size mp = 0 /\ hashbits mp = 0) \/
  (4 <= hashbits mp <= 28 /\ table_ok (hashbits mp) (table mp) /\
   size mp = Z.of_nat (length (entries (table mp))) /\ 4 * size mp <= 3 * tablelen (hashbits mp)).

(** The blocks allocated, but for the table of the map. *)
Definition others mp (m : nghttp2_mem) : Z := live m - match table mp with [] => 0 | _ => 1 end.

Lemma others_free mp m : live (nghttp2_map_free mp m) = others mp m.
Proof. unfold nghttp2_map_free, free_table, others. destruct (table mp); cbn; lia. Qed.

Lemma list_to_map_none (l : list (Z * A)) k : (list_to_map l : gmap Z A) !! k = None <-> k ∉ l.*1.
Proof. split; [apply not_elem_of_list_to_map_2|apply not_elem_of_list_to_map_1]. Qed.

Lemma abs_none mp k : abs mp !! k = None <-> absent (table mp) k.
Proof. apply list_to_map_none. Qed.

Lemma map_ok_empty mp : map_ok mp -> size mp = 0 -> entries (table mp) = [].
Proof.
  intros [(-> & _)|(_ & _ & E & _)] H0; [done|]. rewrite H0 in E. by destruct (entries (table mp)).
Qed.

Lemma map_ok_nodup mp : map_ok mp -> NoDup (entries (table mp)).*1.
Proof. intros [(-> & _)|(_ & (_ & _ & _ & H) & _)]; [constructor|done]. Qed.

Lemma table_nonempty bits t : 4 <= bits <= 28 -> table_ok bits t -> t <> [].
Proof. intros Hb (Hl & _) ->. pose proof (tablelen_range bits Hb). unfold full_length in Hl. cbn in Hl. lia. Qed.

Lemma others_eq mp mp' m : table mp <> [] -> table mp' <> [] -> others mp m = others mp' m.
Proof. unfold others. by destruct (table mp), (table mp'). Qed.

Lemma tablelen_succ bits : 0 <= bits -> tablelen (bits + 1) = 2 * tablelen bits.
Proof. intros. unfold tablelen. rewrite !Z.shiftl_mul_pow2, Z.pow_add_r by lia. lia. Qed.

Lemma bits_fit bits : 0 <= bits -> tablelen bits * 12 < 2 ^ 32 -> bits <= 28.
Proof.
  intros H0 H. destruct (decide (bits <= 28)); [done|]. exfalso. unfold tablelen in H.
  rewrite Z.shiftl_mul_pow2 in H by done. pose proof (Z.pow_le_mono_r 2 29 bits). lia.
Qed.

Lemma map_resize_ok mp m bits : map_ok mp -> 4 <= bits < 32 -> size mp < tablelen bits ->
  exists rv mp' m', map_resize calloc_ok mp m bits = Some (rv, mp', m') /\
    (rv = 0 /\ hashbits mp' = bits /\ bits <= 28 /\ table_ok bits (table mp') /\ size mp' = size mp /\
       entries (table mp') ≡ₚ entries (table mp) /\ others mp' m' = others mp m \/
     rv = NGHTTP2_ERR_NOMEM /\ mp' = mp /\ others mp' m' = others mp m /\ exists bytes, calloc_ok (requests m) bytes = false) /\
    (requests m < requests m')%nat.
Proof.
  intros Hmp Hb Hsz. unfold map_resize. rewrite (proj2 (Z.leb_gt _ _)) by lia.
  unfold nghttp2_mem_calloc. destruct (calloc_ok _ _) eqn:Ec; cbn.
  2: { exists NGHTTP2_ERR_NOMEM, mp. eexists. split; [done|]. cbn. split; [|lia]. right. split; [done|]. split; [done|].
       split; [done|]. by eexists. }
  assert (Hb28 : bits <= 28) by (apply bits_fit; [lia|]; unfold sizeof_bucket in Ec; by apply Hcap in Ec).
  destruct (zero_table_ok bits) as [Hz Ez]; [lia|].
  assert (Hnew : exists t, (if negb (size mp =? 0)
     then reinsert (take (Z.to_nat (tablelen (hashbits mp))) (table mp)) (zero_table bits) bits
     else Some (zero_table bits)) = Some t /\ table_ok bits t /\ entries t ≡ₚ entries (table mp)).
  { destruct (Z.eqb_spec (size mp) 0) as [E0|Hne]; cbn.
    - exists (zero_table bits). by rewrite Ez, map_ok_empty.
    - destruct Hmp as [(_ & H0 & _)|(Hob & Hok & Es & _)]; [lia|]. pose proof Hok as (Hl & _ & _ & Hnd).
      unfold full_length in Hl. rewrite take_ge by lia.
      destruct (reinsert_ok bits (conj (proj1 Hb) Hb28) (table mp) (zero_table bits)) as (t & -> & Hok' & HP); [done| | |].
      + unfold keys at 2. by rewrite Ez, app_nil_r.
      + rewrite Ez. cbn. lia.
      + exists t. rewrite HP, Ez, app_nil_r. done. }
  destruct Hnew as (t & -> & Hok & HP). cbn. do 3 eexists. split; [done|]. split; [left|].
  - cbn. split; [done|]. split; [done|]. split; [done|]. split; [done|]. split; [done|]. split; [done|].
    assert (Hne : t <> []) by (apply (table_nonempty bits); [lia|done]).
    unfold others, free_table. cbn. destruct t; [done|]. destruct (table mp); cbn; lia.
  - unfold free_table. destruct (table mp); cbn; lia.
Qed.

Lemma size_range mp : map_ok mp -> 0 <= size mp <= 3 * 2 ^ 26.
Proof.
  intros [(_ & -> & _)|(Hb & _ & E & Hl)]; [lia|]. pose proof (tablelen_range _ Hb). lia.
Qed.

(** What [insert] does to a table that has room, in terms of the map. *)
Lemma insert_ok bits t k d : 4 <= bits <= 28 -> table_ok bits t -> Z.of_nat (length (entries t)) < tablelen bits ->
  ((k ∉ keys t) /\ exists t', insert t bits k (Some d) = Some (0, t') /\ table_ok bits t' /\ entries t' ≡ₚ (k, d) :: entries t) \/
  ((k ∈ keys t) /\ insert t bits k (Some d) = Some (NGHTTP2_ERR_INVALID_ARGUMENT, t)).
Proof.
  intros Hb Hok Hlen. destruct (decide (k ∈ keys t)) as [Hk|Hk]; [right|left]; (split; [done|]).
  - by apply table_insert_present.
  - by apply table_insert_absent.
Qed.

(** The table an insertion works on: the old one, or a larger one. *)
Definition room mp mp1 : Prop :=
  4 <= hashbits mp1 <= 28 /\ table_ok (hashbits mp1) (table mp1) /\ size mp1 = Z.of_nat (length (entries (table mp))) /\
  entries (table mp1) ≡ₚ entries (table mp) /\ 4 * (size mp1 + 1) <= 3 * tablelen (hashbits mp1).

Lemma make_room mp m : map_ok mp ->
  exists rv mp1 m1,
    (if u32 (u32 (tablelen (hashbits mp)) * 3) <? u32 (u32 (size mp + 1) * 4)
     then map_resize calloc_ok mp m (if negb (hashbits mp =? 0) then hashbits mp + 1 else NGHTTP2_INITIAL_TABLE_LENBITS)
     else Some (0, mp, m)) = Some (rv, mp1, m1) /\
    others mp1 m1 = others mp m /\ (requests m <= requests m1)%nat /\
    (rv = 0 /\ room mp mp1 \/
     rv = NGHTTP2_ERR_NOMEM /\ mp1 = mp /\ (requests m < requests m1)%nat /\ exists bytes, calloc_ok (requests m) bytes = false).
Proof.
  intros Hmp. pose proof (size_range mp Hmp) as Hs.
  assert (Ht : 0 < tablelen (hashbits mp) <= 2 ^ 28).
  { destruct Hmp as [(_ & _ & ->)|(Hb & _)]; [change (tablelen 0) with 1; lia|]. pose proof (tablelen_range _ Hb). lia. }
  rewrite (u32_small (tablelen _)), (u32_small (size mp + 1)), !u32_small by lia.
  destruct (Z.ltb_spec (tablelen (hashbits mp) * 3) ((size mp + 1) * 4)) as [Hfull|Hroom].
  - assert (Hnb : let b := if negb (hashbits mp =? 0) then hashbits mp + 1 else NGHTTP2_INITIAL_TABLE_LENBITS in
      4 <= b < 32 /\ 4 * (size mp + 1) <= 3 * tablelen b /\ size mp < tablelen b).
    { destruct Hmp as [(_ & -> & ->)|(Hb & _ & _ & Hl)]; [by vm_compute|].
      rewrite (proj2 (Z.eqb_neq _ 0)) by lia. cbn. rewrite tablelen_succ by lia. lia. }
    destruct Hnb as (Hb & Hl & Hsz). destruct (map_resize_ok mp m _ Hmp Hb Hsz) as (rv & mp1 & m1 & -> & H & Hr).
    exists rv, mp1, m1. split; [done|].
    destruct H as [(-> & E & Hb28 & Hok & Es & HP & Ho)|(-> & -> & Ho & Hno)]; (split; [done|]; split; [lia|]).
    + left. split; [done|]. unfold room. rewrite E, Es. split; [lia|]. split; [done|]. split; [|done].
      destruct Hmp as [(-> & -> & _)|(_ & _ & -> & _)]; done.
    + right. done.
  - exists 0, mp, m. split; [done|]. split; [done|]. split; [done|]. left. split; [done|].
    destruct Hmp as [(_ & E & E')|(Hb & Hok & Es & _)]; [rewrite E, E' in Hroom; change (tablelen 0) with 1 in Hroom; lia|].
    unfold room. split; [done|]. split; [done|]. split; [done|]. split; [done|lia].
Qed.

Lemma map_insert_ok mp m k d : map_ok mp ->
  exists rv mp' m', nghttp2_map_insert calloc_ok mp m k (Some d) = Some (rv, mp', m') /\
    map_ok mp' /\ others mp' m' = others mp m /\ (requests m <= requests m')%nat /\
    (rv = 0 /\ abs mp !! k = None /\ abs mp' = <[k := d]> (abs mp) \/
     rv = NGHTTP2_ERR_INVALID_ARGUMENT /\ is_Some (abs mp !! k) /\ abs mp' = abs mp \/
     rv = NGHTTP2_ERR_NOMEM /\ abs mp' = abs mp /\ (requests m < requests m')%nat /\
       exists bytes, calloc_ok (requests m) bytes = false).
Proof.
  intros Hmp. unfold nghttp2_map_insert. cbn [mbind option_bind].
  destruct (make_room mp m Hmp) as (rv & mp1 & m1 & -> & Ho & Hr & [(-> & Hb & Hok & Es & HP & Hl)|(-> & -> & Hr' & Hno)]).
  2: { cbn. exists NGHTTP2_ERR_NOMEM, mp, m1. split; [done|]. split; [done|]. split; [done|]. split; [done|]. right. by right. }
  cbn [mbind option_bind negb Z.eqb]. pose proof (size_range mp Hmp). pose proof (tablelen_range _ Hb).
  assert (Habs : abs mp1 = abs mp) by (symmetry; apply list_to_map_proper; [by apply map_ok_nodup|done]).
  assert (El : Z.of_nat (length (entries (table mp1))) = size mp1) by (rewrite HP; lia).
  assert (Hne : table mp1 <> []) by by apply table_nonempty with (hashbits mp1).
  destruct (insert_ok (hashbits mp1) (table mp1) k d Hb Hok) as [(Hk & t & -> & Hok' & HP')|[Hk ->]]; [lia| |];
    cbn [mbind option_bind negb Z.eqb]; do 3 eexists; (split; [done|]).
  - assert (Hne' : t <> []) by by apply table_nonempty with (hashbits mp1).
    split; [|split; [by rewrite <- Ho; apply others_eq|split; [done|left; split; [done|]]]].
    + right. cbn. rewrite HP', u32_small by lia. cbn. split; [done|]. split; [done|lia].
    + apply abs_none in Hk. rewrite Habs in Hk. split; [done|]. rewrite <- Habs. unfold abs. cbn [table].
      rewrite <- list_to_map_cons. apply list_to_map_proper; [apply Hok'|done].
  - split; [right; cbn; split; [done|split; [done|lia]]|].
    split; [by rewrite <- Ho; apply others_eq|]. split; [done|]. right. left. split; [done|].
    split; [|done]. rewrite <- Habs. destruct (abs mp1 !! k) eqn:E; [done|]. by apply abs_none in E.
Qed.

Lemma map_find_ok mp k : map_ok mp -> nghttp2_map_find mp k = Some (abs mp !! k).
Proof.
  intros Hmp. unfold nghttp2_map_find. destruct (Z.eqb_spec (size mp) 0) as [E|Hne].
  { unfold abs. by rewrite map_ok_empty. }
  destruct Hmp as [(_ & E & _)|(Hb & Hok & Es & Hl)]; [done|].
  rewrite hash_spread by done. cbn [mbind option_bind]. pose proof Hok as (Hlen & _ & _ & Hnd).
  pose proof (tablelen_range _ Hb). pose proof (spread_range _ Hb k) as Hs. unfold full_length in Hlen.
  rewrite <- (Z.mod_small (spread k _) (tablelen (hashbits mp))) by done.
  destruct (abs mp !! k) as [d|] eqn:E.
  - apply elem_of_list_to_map_2 in E. apply (member_entries (hashbits mp) Hb) in E as (x & b & Hx & <- & <-); [|done].
    pose proof (psl_range _ Hb _ _ _ Hok Hx). apply find_loop_present; [done|lia|by apply on_the_way_start with x|lia].
  - apply abs_none in E. destruct (gap_exists (hashbits mp) Hb (table mp) (spread k (hashbits mp))) as [g Hg]; [done|lia|].
    pose proof Hg as ((Hg0 & Hm) & _). apply find_loop_absent with g; [done|done|done|lia|lia|done|lia].
Qed.

Lemma map_remove_ok mp k : map_ok mp ->
  exists rv mp', nghttp2_map_remove mp k = Some (rv, mp') /\ map_ok mp' /\ (forall m, others mp' m = others mp m) /\
    (rv = 0 /\ is_Some (abs mp !! k) /\ abs mp' = delete k (abs mp) \/
     rv = NGHTTP2_ERR_INVALID_ARGUMENT /\ abs mp !! k = None /\ abs mp' = abs mp).
Proof.
  intros Hmp. unfold nghttp2_map_remove. destruct (Z.eqb_spec (size mp) 0) as [E|Hne].
  { do 2 eexists. split; [done|]. split; [done|]. split; [done|]. right. split; [done|]. split; [|done].
    unfold abs. by rewrite map_ok_empty. }
  pose proof (size_range mp Hmp). destruct Hmp as [(_ & E & _)|(Hb & Hok & Es & Hl)]; [done|].
  rewrite hash_spread by done. cbn [mbind option_bind]. pose proof Hok as (Hlen & _ & _ & Hnd).
  pose proof (tablelen_range _ Hb). pose proof (spread_range _ Hb k) as Hs. unfold full_length in Hlen.
  rewrite <- (Z.mod_small (spread k _) (tablelen (hashbits mp))) by done.
  assert (Hfree : Z.of_nat (length (entries (table mp))) < tablelen (hashbits mp)) by lia.
  assert (Hnt : table mp <> []) by by apply table_nonempty with (hashbits mp).
  destruct (abs mp !! k) as [d|] eqn:E.
  - apply elem_of_list_to_map_2 in E. apply (member_entries (hashbits mp) Hb) in E as (x & b & Hx & <- & Hd); [|done].
    pose proof (psl_range _ Hb _ _ _ Hok Hx).
    destruct (remove_loop_present _ Hb _ b Hok) with (fuel := length (table mp)) (x := spread (key b) (hashbits mp)) (d := 0)
      as (t & -> & Hok' & HP); [lia|done|by apply on_the_way_start with x|lia|].
    unfold entry in HP. rewrite Hd in HP. cbn in HP. cbn [mbind option_bind Z.eqb].
    do 2 eexists. split; [done|]. assert (El : length (entries (table mp)) = S (length (entries t))) by by rewrite <- HP.
    split; [right; cbn; rewrite u32_small by lia; split; [done|split; [done|lia]]|].
    split; [intros m; apply others_eq; [by apply table_nonempty with (hashbits mp)|done]|]. left. split; [done|]. split; [by exists d|].
    unfold abs. cbn [table]. assert (Hnd' : NoDup ((key b, d) :: entries t).*1) by by rewrite HP.
    rewrite <- (list_to_map_proper _ _ Hnd' HP), list_to_map_cons, delete_insert_id; [done|].
    apply list_to_map_none. by apply NoDup_cons in Hnd' as [Hnd' _].
  - pose proof E as Ha. apply abs_none in Ha.
    destruct (gap_exists (hashbits mp) Hb (table mp) (spread k (hashbits mp))) as [g Hg]; [done|lia|].
    pose proof Hg as ((Hg0 & Hm) & _).
    rewrite (remove_loop_absent _ Hb k (table mp) Ha) with (m := g) by (done || lia). cbn.
    do 2 eexists. split; [done|]. split; [by right|]. split; [done|]. right. by destruct mp.
Qed.

Lemma map_clear_ok mp : map_ok mp ->
  map_ok (nghttp2_map_clear mp) /\ abs (nghttp2_map_clear mp) = ∅ /\ forall m, others (nghttp2_map_clear mp) m = others mp m.
Proof.
  intros Hmp. unfold nghttp2_map_clear. destruct (Z.eqb_spec (size mp) 0) as [E|Hne].
  { split; [done|]. split; [|done]. unfold abs. by rewrite map_ok_empty. }
  destruct Hmp as [(_ & E & _)|(Hb & Hok & _ & _)]; [done|]. destruct (zero_table_ok _ Hb) as [Hz Ez].
  pose proof (tablelen_range _ Hb).
  split; [right; cbn; rewrite Ez; split; [done|]; split; [done|cbn; lia]|]. unfold abs. cbn [table]. rewrite Ez. split; [done|].
  intros m. apply others_eq; cbn; by eapply table_nonempty.
Qed.

Lemma map_size_ok mp : map_ok mp -> nghttp2_map_size mp = Z.of_nat (base.size (abs mp)).
Proof.
  intros Hmp. unfold nghttp2_map_size, abs. rewrite map_size_list_to_map by by apply map_ok_nodup.
  destruct Hmp as [(-> & -> & _)|(_ & _ & -> & _)]; done.
Qed.

(** The data an iteration hands to its callback, in the order of the table. *)
Definition visits mp : list A := (entries (table mp)).*2.

Lemma visits_perm mp : map_ok mp -> visits mp ≡ₚ (map_to_list (abs mp)).*2.
Proof. intros Hmp. unfold visits, abs. by rewrite map_to_list_to_map by by apply map_ok_nodup. Qed.

(** The calls of a callback on a list, up to the first that refuses. *)
Fixpoint called (f : A -> Z) (l : list A) : Z * list A :=
  match l with
  | [] => (0, [])
  | d :: l => if f d =? 0 then let '(rv, ds) := called f l in (rv, d :: ds) else (f d, [d])
  end.

(** A callback that logs its calls. *)
Definition logging (f : A -> Z) (d : A) (log : list A) : Z * list A := (f d, log ++ [d]).

Lemma each_loop_called f t log :
  each_loop t (logging f) log = (fst (called f (entries t).*2), log ++ snd (called f (entries t).*2)).
Proof.
  revert log. unfold entries. induction t as [|b t IH]; intros log; cbn; [by rewrite app_nil_r|].
  unfold entry. destruct (data b) as [d|]; cbn; [|apply IH]. destruct (f d =? 0) eqn:E; cbn; [|done].
  rewrite IH. destruct (called f _). cbn. by rewrite <- app_assoc.
Qed.

Lemma map_each_ok mp f : map_ok mp -> nghttp2_map_each mp (logging f) [] = called f (visits mp).
Proof.
  intros Hmp. unfold nghttp2_map_each, visits. destruct (Z.eqb_spec (size mp) 0) as [E|Hne].
  { by rewrite map_ok_empty. }
  destruct Hmp as [(_ & E & _)|(Hb & (Hl & _) & _ & _)]; [done|]. unfold full_length in Hl.
  rewrite take_ge by lia. rewrite each_loop_called. by destruct (called _ _).
Qed.

(** ** The finite map of the documentation in [nghttp2_map.h] *)

Inductive op :=
| Insert (k : Z) (d : A)
| Remove (k : Z)
| Find (k : Z)
| Each (f : A -> Z)
| Clear
| Size.

Inductive reply :=
| Code (rv : Z)
| Found (d : option A)
| Visited (rv : Z) (ds : list A)
| Count (n : Z).

(** One operation: the map before and after, and the reply. *)
Inductive spec_step : gmap Z A -> op -> reply -> gmap Z A -> Prop :=
| SpecInsert M k d : M !! k = None -> spec_step M (Insert k d) (Code 0) (<[k := d]> M)
| SpecExists M k d : is_Some (M !! k) -> spec_step M (Insert k d) (Code NGHTTP2_ERR_INVALID_ARGUMENT) M
| SpecNoMem M k d : spec_step M (Insert k d) (Code NGHTTP2_ERR_NOMEM) M
| SpecRemove M k : is_Some (M !! k) -> spec_step M (Remove k) (Code 0) (delete k M)
| SpecMissing M k : M !! k = None -> spec_step M (Remove k) (Code NGHTTP2_ERR_INVALID_ARGUMENT) M
| SpecFind M k : spec_step M (Find k) (Found (M !! k)) M
| SpecEach M f l : l ≡ₚ (map_to_list M).*2 -> spec_step M (Each f) (Visited (fst (called f l)) (snd (called f l))) M
| SpecClear M : spec_step M Clear (Code 0) ∅
| SpecSize M : spec_step M Size (Count (Z.of_nat (base.size M))) M.

Inductive spec_run : gmap Z A -> list op -> list reply -> gmap Z A -> Prop :=
| SpecDone M : spec_run M [] [] M
| SpecMore M o r M1 os rs M2 : spec_step M o r M1 -> spec_run M1 os rs M2 -> spec_run M (o :: os) (r :: rs) M2.

Definition exec mp (m : nghttp2_mem) (o : op) : option (reply * nghttp2_map A * nghttp2_mem) :=
  match o with
  | Insert k d => r ← nghttp2_map_insert calloc_ok mp m k (Some d); let '(rv, mp, m) := r in Some (Code rv, mp, m)
  | Remove k => r ← nghttp2_map_remove mp k; let '(rv, mp) := r in Some (Code rv, mp, m)
  | Find k => d ← nghttp2_map_find mp k; Some (Found d, mp, m)
  | Each f => let '(rv, ds) := nghttp2_map_each mp (logging f) [] in Some (Visited rv ds, mp, m)
  | Clear => Some (Code 0, nghttp2_map_clear mp, m)
  | Size => Some (Count (nghttp2_map_size mp), mp, m)
  end.

Fixpoint run mp m (os : list op) : option (list reply * nghttp2_map A * nghttp2_mem) :=
  match os with
  | [] => Some ([], mp, m)
  | o :: os =>
      r ← exec mp m o;
      let '(r, mp, m) := r in
      rs ← run mp m os;
      let '(rs, mp, m) := rs in
      Some (r :: rs, mp, m)
  end.

(** Memory is refused only when [calloc] refused it. *)
Definition excused (m m' : nghttp2_mem) (r : reply) : Prop :=
  r = Code NGHTTP2_ERR_NOMEM -> exists i bytes, (requests m <= i < requests m')%nat /\ calloc_ok i bytes = false.

Lemma exec_ok mp m o : map_ok mp ->
  exists r mp' m', exec mp m o = Some (r, mp', m') /\ map_ok mp' /\ others mp' m' = others mp m /\
    (requests m <= requests m')%nat /\ excused m m' r /\ spec_step (abs mp) o r (abs mp').
Proof.
  intros Hmp. destruct o as [k d|k|k|f| |]; cbn [exec].
  - destruct (map_insert_ok mp m k d Hmp) as (rv & mp' & m' & -> & Hok & Ho & Hr & H).
    exists (Code rv), mp', m'. do 4 (split; [done|]).
    destruct H as [(-> & H1 & ->)|[(-> & H1 & ->)|(-> & -> & Hlt & bytes & Hb)]].
    + split; [done|by constructor].
    + split; [done|by constructor].
    + split; [|constructor]. intros _. exists (requests m), bytes. split; [lia|done].
  - destruct (map_remove_ok mp k Hmp) as (rv & mp' & -> & Hok & Ho & H). exists (Code rv), mp', m.
    split; [done|]. split; [done|]. split; [apply Ho|]. split; [done|].
    destruct H as [(-> & H1 & ->)|(-> & H1 & ->)]; (split; [done|by constructor]).
  - rewrite map_find_ok by done. do 3 eexists. do 4 (split; [done|]). split; [done|constructor].
  - rewrite map_each_ok by done. pose proof (SpecEach (abs mp) f (visits mp) (visits_perm mp Hmp)) as H.
    destruct (called f (visits mp)) as [rv ds]. do 3 eexists. do 4 (split; [done|]). split; [done|exact H].
  - destruct (map_clear_ok mp Hmp) as (Hok & Ha & Ho). do 3 eexists. split; [done|]. split; [done|]. split; [apply Ho|].
    split; [done|]. split; [done|]. rewrite Ha. constructor.
  - rewrite map_size_ok by done. do 3 eexists. do 4 (split; [done|]). split; [done|constructor].
Qed.

Lemma run_ok os : forall mp m, map_ok mp ->
  exists rs mp' m', run mp m os = Some (rs, mp', m') /\ map_ok mp' /\ others mp' m' = others mp m /\
    (requests m <= requests m')%nat /\ Forall (excused m m') rs /\ spec_run (abs mp) os rs (abs mp').
Proof.
  induction os as [|o os IH]; intros mp m Hmp.
  { exists [], mp, m. do 4 (split; [done|]). split; constructor. }
  cbn [run]. destruct (exec_ok mp m o Hmp) as (r & mp1 & m1 & -> & Hok1 & Ho1 & Hr1 & He1 & Hs1). cbn [mbind option_bind].
  destruct (IH mp1 m1 Hok1) as (rs & mp2 & m2 & -> & Hok2 & Ho2 & Hr2 & He2 & Hs2). cbn [mbind option_bind].
  exists (r :: rs), mp2, m2. split; [done|]. split; [done|]. split; [by rewrite Ho2|]. split; [lia|].
  split; [|by econstructor]. constructor.
  - intros E. destruct (He1 E) as (i & bytes & Hi & Hb). exists i, bytes. split; [lia|done].
  - eapply Forall_impl; [exact He2|]. intros r' H E. destruct (H E) as (i & bytes & Hi & Hb). exists i, bytes. split; [lia|done].
Qed.
End Maps.

Arguments op : clear implicits.
Arguments reply : clear implicits.

(** C28: every sequence of operations on a new map ends, without touching memory
    outside the table, and answers what the finite map of the documentation
    answers: an insertion of a known key and a removal of an unknown one change
    nothing, a lookup finds what was inserted, the iteration visits every entry once
    and stops where the callback says so, NOMEM is answered only when [calloc]
    refused; freeing the map gives back all it allocated. *)
Theorem map_refines_gmap {A} (calloc_ok : nat -> Z -> bool)
  (Hcap : forall r bytes, calloc_ok r bytes = true -> bytes < 2 ^ 32) (os : list (op A)) (m : nghttp2_mem) :
  exists rs mp m', run calloc_ok nghttp2_map_init m os = Some (rs, mp, m') /\
    spec_run ∅ os rs (abs mp) /\ Forall (excused calloc_ok m m') rs /\
    live (nghttp2_map_free mp m') = live m.
Proof.
  destruct (run_ok calloc_ok Hcap os nghttp2_map_init m) as (rs & mp & m' & Hrun & Hok & Ho & Hr & He & Hs); [by left|].
  exists rs, mp, m'. split; [done|]. split; [done|]. split; [done|]. rewrite others_free, Ho. unfold others. cbn. lia.
Qed.

(** Streams 1, 3, .. 25 are opened (the table grows once), two are closed. *)
Definition session_ops : list (op Z) :=
  (fun k => Insert k (100 + k)) <$> [1; 3; 5; 7; 9; 11; 13; 15; 17; 19; 21; 23; 25] ++ [3].
Definition small_calloc (r : nat) (bytes : Z) : bool := bytes <=? 4096.

Lemma map_refines_gmap_witness :
  let os := session_ops ++ [Remove 7; Remove 7; Find 7; Find 25; Each (fun d => if d =? 125 then 1 else 0); Size] in
  (exists rs mp m', run small_calloc nghttp2_map_init (Mem 0 0) os = Some (rs, mp, m') /\
    spec_run ∅ os rs (abs mp) /\ Forall (excused small_calloc (Mem 0 0) m') rs /\ live (nghttp2_map_free mp m') = 0) /\
  (rs_mp ← run small_calloc nghttp2_map_init (Mem 0 0) os; Some (drop 13 (fst (fst rs_mp)))) = 
    Some [Code NGHTTP2_ERR_INVALID_ARGUMENT; Code 0; Code NGHTTP2_ERR_INVALID_ARGUMENT; Found None; Found (Some 125);
          Visited 1 [113; 105; 123; 115; 125]; Count 12].
Proof.
  split; [|vm_compute; reflexivity].
  apply (map_refines_gmap small_calloc). intros r bytes H%Z.leb_le. lia.
Defined.
