(* ===== verification/Rcbuf.v ===== *)
(** * Shared strings: [nghttp2_rcbuf.c]

    The names and values of header fields are blocks with a count of the references
    to them; the strings of the static table have no count ([ref] is -1).

    A block is its bytes, how many of them are used, and its address, which is the
    number of the request it was allocated by.  The counts are a store from
    addresses: a block that is not in it has been freed, and using its count makes
    the result [None].  Counts are unbounded: no more references exist than entries
    of a header table, each of which takes 32 bytes of a 32-bit size. *)

From stdpp Require Import gmap list.
From S2P Require Import Prelude CLib NgBuf.

(** [base] are the bytes of the block, [len] how many are the string; [addr] is
    [None] for a string of the static table. *)
Record nghttp2_rcbuf := Rcbuf { base : list char; len : nat; addr : option nat }.

(** [nghttp2_rcbuf_get_buf] *)
Definition nghttp2_rcbuf_get_buf (r : nghttp2_rcbuf) : list char := take (len r) (base r).

Definition nghttp2_rcbuf_is_static (r : nghttp2_rcbuf) : bool := match addr r with None => true | Some _ => false end.

(** Allocated memory, and the counts of the blocks in use. *)
Record heap := Heap { hmem : nghttp2_mem; refs : gmap nat Z }.

Section Alloc.
Context (malloc_ok : nat -> bool) (junk : nat -> nat -> char).

Definition nghttp2_rcbuf_new (size : nat) (h : heap) : Z * nghttp2_rcbuf * heap :=
  let a := requests (hmem h) in
  let '(ok, m) := malloc malloc_ok (hmem h) in
  let r := Rcbuf (fresh_bytes junk (hmem h) size) size (Some a) in
  if negb ok then (NGHTTP2_ERR_NOMEM, r, Heap m (refs h)) else (0, r, Heap m (<[a := 1]> (refs h))).

Definition nghttp2_rcbuf_new2 (src : list char) (h : heap) : Z * nghttp2_rcbuf * heap :=
  let '(rv, r, h) := nghttp2_rcbuf_new (length src + 1) h in
  if negb (rv =? 0) then (rv, r, h) else (0, Rcbuf (src ++ [NUL]) (length src) (addr r), h).

(** Frees the block, whatever its count. *)
Definition nghttp2_rcbuf_del (a : nat) (h : heap) : heap := Heap (free (hmem h) false) (delete a (refs h)).

Definition nghttp2_rcbuf_incref (r : nghttp2_rcbuf) (h : heap) : option heap :=
  match addr r with
  | None => Some h
  | Some a => c ← refs h !! a; Some (Heap (hmem h) (<[a := c + 1]> (refs h)))
  end.

(** The argument may be NULL. *)
Definition nghttp2_rcbuf_decref (r : option nghttp2_rcbuf) (h : heap) : option heap :=
  match r with
  | None => Some h
  | Some r =>
      match addr r with
      | None => Some h
      | Some a =>
          c ← refs h !! a;
          if c <=? 0 then None
          else if c - 1 =? 0 then Some (nghttp2_rcbuf_del a h)
          else Some (Heap (hmem h) (<[a := c - 1]> (refs h)))
      end
  end.
End Alloc.

(** ** The discipline of the counts

    [owned h l]: the references that exist are those of [l], each counted as often as
    it is in [l], and nothing else is allocated. *)

Definition refers (a : nat) (r : nghttp2_rcbuf) : bool := match addr r with Some b => (a =? b)%nat | None => false end.

Definition count (a : nat) (l : list nghttp2_rcbuf) : nat := length (List.filter (refers a) l).

Definition expected (n : nat) : option Z := match n with O => None | S _ => Some (Z.of_nat n) end.

Record owned (h : heap) (l : list nghttp2_rcbuf) : Prop := {
  owned_count : forall a, refs h !! a = expected (count a l);
  owned_old : forall a, is_Some (refs h !! a) -> (a < requests (hmem h))%nat
}.

Lemma owned_nothing m : owned (Heap m ∅) [].
Proof. split; cbn [refs]; intros a; rewrite lookup_empty; [done|by intros []]. Qed.

(** The blocks that are no shared strings. *)
Definition spare (h : heap) : Z := live (hmem h) - Z.of_nat (size (refs h)).

#[export] Instance count_perm a : Proper ((≡ₚ) ==> eq) (count a).
Proof.
  intros l l' H. unfold count. induction H as [|x l l' _ IH|x y l|l1 l2 l3 _ IH1 _ IH2]; cbn; [done| | |congruence].
  - destruct (refers a x); cbn; congruence.
  - by destruct (refers a x), (refers a y).
Qed.

#[export] Instance owned_perm h : Proper ((≡ₚ) ==> iff) (owned h).
Proof.
  intros l l' H. split; intros [H1 H2]; (split; [|done]); intros a; rewrite H1; f_equal; by rewrite H.
Qed.

Lemma count_cons a r l : count a (r :: l) = ((if refers a r then 1 else 0) + count a l)%nat.
Proof. unfold count. cbn. by destruct (refers a r). Qed.

Lemma count_member a r l : r ∈ l -> refers a r = true -> (0 < count a l)%nat.
Proof.
  induction 1 as [r l|r x l _ IH]; intros Hr; rewrite count_cons; [rewrite Hr; lia|]. specialize (IH Hr). lia.
Qed.

Lemma refers_addr a b r : addr r = Some a -> refers b r = (b =? a)%nat.
Proof. unfold refers. by intros ->. Qed.

Lemma expected_S n : expected (S n) = Some (Z.of_nat (S n)).
Proof. done. Qed.

(** A reference in use can be counted. *)
Lemma owned_live h l r a : owned h l -> r ∈ l -> addr r = Some a -> refs h !! a = Some (Z.of_nat (count a l)) /\ (0 < count a l)%nat.
Proof.
  intros [Hc _] Hr Ha. pose proof (count_member a r l Hr) as Hn. rewrite (refers_addr a a r Ha), Nat.eqb_refl in Hn.
  specialize (Hn eq_refl). rewrite Hc. destruct (count a l); [lia|done].
Qed.

Lemma owned_static h l r : addr r = None -> owned h (r :: l) <-> owned h l.
Proof.
  intros Hr. assert (E : forall a, count a (r :: l) = count a l) by (intros a; rewrite count_cons; unfold refers; by rewrite Hr).
  split; intros [H1 H2]; (split; [|done]); intros a; rewrite H1; by rewrite E.
Qed.

Lemma incref_spec h l r : owned h l -> r ∈ l -> exists h', nghttp2_rcbuf_incref r h = Some h' /\ owned h' (r :: l) /\
  spare h' = spare h /\ hmem h' = hmem h.
Proof.
  intros Ho Hr. unfold nghttp2_rcbuf_incref. destruct (addr r) as [a|] eqn:Ha.
  2: { exists h. split; [done|]. split; [by apply owned_static|done]. }
  destruct (owned_live h l r a Ho Hr Ha) as [E Hn]. rewrite E. cbn [mbind option_bind]. eexists. split; [done|].
  destruct Ho as [H1 H2]. split; [split|split; [|done]].
  - intros b. cbn [refs]. rewrite count_cons, (refers_addr a b r Ha). destruct (decide (b = a)) as [->|Hne].
    + rewrite lookup_insert_eq, Nat.eqb_refl. change (1 + count a l)%nat with (S (count a l)). rewrite expected_S. f_equal. lia.
    + rewrite lookup_insert_ne by done. rewrite (proj2 (Nat.eqb_neq _ _)) by done. apply H1.
  - intros b. cbn [refs hmem]. destruct (decide (b = a)) as [->|Hne]; [intros _; apply H2; by rewrite E|].
    rewrite lookup_insert_ne by done. apply H2.
  - unfold spare. cbn [refs hmem]. rewrite map_size_insert, E. done.
Qed.

(** A reference that is in use, or to the static table. *)
Lemma incref_any h l r : owned h l -> addr r = None \/ r ∈ l -> exists h', nghttp2_rcbuf_incref r h = Some h' /\ owned h' (r :: l) /\
  spare h' = spare h /\ hmem h' = hmem h.
Proof.
  intros Ho [Ha|Hr]; [|by apply incref_spec]. exists h. unfold nghttp2_rcbuf_incref. rewrite Ha. split; [done|].
  split; [by apply owned_static|done].
Qed.

Lemma decref_spec h l r : owned h (r :: l) -> exists h', nghttp2_rcbuf_decref (Some r) h = Some h' /\ owned h' l /\
  spare h' = spare h /\ requests (hmem h') = requests (hmem h).
Proof.
  intros Ho. unfold nghttp2_rcbuf_decref. destruct (addr r) as [a|] eqn:Ha.
  2: { exists h. split; [done|]. split; [by apply owned_static in Ho|done]. }
  destruct (owned_live h (r :: l) r a Ho ltac:(constructor) Ha) as [E Hn]. rewrite E. cbn [mbind option_bind].
  rewrite (proj2 (Z.leb_gt _ _)) by lia.
  assert (Ec : count a (r :: l) = S (count a l)) by (by rewrite count_cons, (refers_addr a a r Ha), Nat.eqb_refl).
  destruct Ho as [H1 H2].
  assert (Hother : forall b, b <> a -> refs h !! b = expected (count b l)).
  { intros b Hb. rewrite H1, count_cons, (refers_addr a b r Ha). by rewrite (proj2 (Nat.eqb_neq _ _)) by done. }
  rewrite Ec. destruct (count a l) as [|n] eqn:En; cbn [Z.of_nat].
  - change (Z.pos (Pos.of_succ_nat 0) - 1 =? 0) with true. cbn iota. eexists. split; [done|]. split; [split|split; [|done]].
    + intros b. cbn [refs nghttp2_rcbuf_del]. destruct (decide (b = a)) as [->|Hne]; [by rewrite lookup_delete_eq, En|].
      rewrite lookup_delete_ne by done. by apply Hother.
    + intros b. cbn [refs hmem nghttp2_rcbuf_del free requests]. destruct (decide (b = a)) as [->|Hne].
      * rewrite lookup_delete_eq. by intros [].
      * rewrite lookup_delete_ne by done. apply H2.
    + unfold spare. cbn [refs hmem nghttp2_rcbuf_del free live]. rewrite map_size_delete, E.
      assert (size (refs h) <> 0%nat); [|lia]. intros Hs. apply map_size_empty_inv in Hs. by rewrite Hs, lookup_empty in E.
  - rewrite (proj2 (Z.eqb_neq _ _)) by lia. eexists. split; [done|]. split; [split|split; [|done]].
    + intros b. cbn [refs]. destruct (decide (b = a)) as [->|Hne].
      * rewrite lookup_insert_eq, En, expected_S. f_equal. lia.
      * rewrite lookup_insert_ne by done. by apply Hother.
    + intros b. cbn [refs hmem]. destruct (decide (b = a)) as [->|Hne]; [intros _; apply H2; by rewrite E|].
      rewrite lookup_insert_ne by done. apply H2.
    + unfold spare. cbn [refs hmem]. rewrite map_size_insert, E. done.
Qed.

(** A reference in the middle of the list. *)
Lemma decref_member h l1 l2 r : owned h (l1 ++ r :: l2) -> exists h', nghttp2_rcbuf_decref (Some r) h = Some h' /\
  owned h' (l1 ++ l2) /\ spare h' = spare h /\ requests (hmem h') = requests (hmem h).
Proof. rewrite <- Permutation_middle. apply decref_spec. Qed.

Section AllocSpec.
Context (malloc_ok : nat -> bool) (junk : nat -> nat -> char).

Lemma rcbuf_new_spec n h l : owned h l ->
  let '(rv, r, h') := nghttp2_rcbuf_new malloc_ok junk n h in
  spare h' = spare h /\ requests (hmem h') = S (requests (hmem h)) /\
  ((rv = 0 /\ owned h' (r :: l) /\ base r = fresh_bytes junk (hmem h) n /\ len r = n /\ (exists a, addr r = Some a)) \/
   (rv = NGHTTP2_ERR_NOMEM /\ owned h' l /\ malloc_ok (requests (hmem h)) = false)).
Proof.
  intros [H1 H2]. unfold nghttp2_rcbuf_new, malloc. set (a := requests (hmem h)).
  assert (Hfresh : refs h !! a = None).
  { destruct (refs h !! a) eqn:E; [|done]. specialize (H2 a). rewrite E in H2. specialize (H2 (mk_is_Some _ _ eq_refl)). subst a. lia. }
  destruct (malloc_ok a) eqn:Em; cbn [negb]; unfold spare; cbn [hmem refs live requests].
  - split; [rewrite map_size_insert, Hfresh; lia|]. split; [done|]. left. split; [done|]. split; [|split; [done|split; [done|by eexists]]].
    split; cbn [hmem refs requests].
    + intros b. rewrite count_cons. unfold refers. cbn [addr]. destruct (decide (b = a)) as [->|Hne].
      * rewrite lookup_insert_eq, Nat.eqb_refl. rewrite H1 in Hfresh. destruct (count a l); [done|done].
      * rewrite lookup_insert_ne by done. rewrite (proj2 (Nat.eqb_neq _ _)) by done. apply H1.
    + intros b. destruct (decide (b = a)) as [->|Hne]; [lia|]. rewrite lookup_insert_ne by done. intros Hb%H2. lia.
  - split; [done|]. split; [done|]. right. split; [done|]. split; [|done]. split; cbn [hmem refs requests]; [done|]. intros b Hb%H2. lia.
Qed.

(** Another block at the same address: the same reference. *)
Lemma owned_same h l r r' : addr r' = addr r -> owned h (r :: l) -> owned h (r' :: l).
Proof.
  intros Ha [H1 H2]. split; [|done]. intros b. rewrite H1, !count_cons. unfold refers. by rewrite Ha.
Qed.

Lemma rcbuf_new2_spec src h l : owned h l ->
  let '(rv, r, h') := nghttp2_rcbuf_new2 malloc_ok junk src h in
  spare h' = spare h /\ requests (hmem h') = S (requests (hmem h)) /\
  ((rv = 0 /\ owned h' (r :: l) /\ nghttp2_rcbuf_get_buf r = src /\ len r = length src /\ (len r <= length (base r))%nat) \/
   (rv = NGHTTP2_ERR_NOMEM /\ owned h' l /\ malloc_ok (requests (hmem h)) = false)).
Proof.
  intros Ho. unfold nghttp2_rcbuf_new2. pose proof (rcbuf_new_spec (length src + 1) h l Ho) as H.
  destruct (nghttp2_rcbuf_new malloc_ok junk (length src + 1) h) as [[rv r] h']. destruct H as (Hs & Hr & [(-> & Ho' & _)|(-> & Ho' & Hm)]); cbn.
  - split; [done|]. split; [done|]. left. split; [done|]. split; [by apply owned_same with r|].
    unfold nghttp2_rcbuf_get_buf. cbn. rewrite take_app_length, length_app. split; [done|]. split; [done|]. lia.
  - split; [done|]. split; [done|]. by right.
Qed.
End AllocSpec.
