(* ===== verification/HdStatic.v ===== *)
(** * The static data of HPACK: [nghttp2_hd.h], [nghttp2_hd.c]

    The tokens of well-known header names, the static table (RFC 7541, appendix A)
    and [lookup_token], the generated switch from a name to its token: on the
    length, then on the last character, then by comparing the rest. *)

From stdpp Require Import list.
From S2P Require Import Prelude CLib.

(** ** Tokens *)

Definition NGHTTP2_TOKEN__AUTHORITY : Z := 0.
Definition NGHTTP2_TOKEN__METHOD : Z := 1.
Definition NGHTTP2_TOKEN__PATH : Z := 3.
Definition NGHTTP2_TOKEN__SCHEME : Z := 5.
Definition NGHTTP2_TOKEN__STATUS : Z := 7.
Definition NGHTTP2_TOKEN_ACCEPT_CHARSET : Z := 14.
Definition NGHTTP2_TOKEN_ACCEPT_ENCODING : Z := 15.
Definition NGHTTP2_TOKEN_ACCEPT_LANGUAGE : Z := 16.
Definition NGHTTP2_TOKEN_ACCEPT_RANGES : Z := 17.
Definition NGHTTP2_TOKEN_ACCEPT : Z := 18.
Definition NGHTTP2_TOKEN_ACCESS_CONTROL_ALLOW_ORIGIN : Z := 19.
Definition NGHTTP2_TOKEN_AGE : Z := 20.
Definition NGHTTP2_TOKEN_ALLOW : Z := 21.
Definition NGHTTP2_TOKEN_AUTHORIZATION : Z := 22.
Definition NGHTTP2_TOKEN_CACHE_CONTROL : Z := 23.
Definition NGHTTP2_TOKEN_CONTENT_DISPOSITION : Z := 24.
Definition NGHTTP2_TOKEN_CONTENT_ENCODING : Z := 25.
Definition NGHTTP2_TOKEN_CONTENT_LANGUAGE : Z := 26.
Definition NGHTTP2_TOKEN_CONTENT_LENGTH : Z := 27.
Definition NGHTTP2_TOKEN_CONTENT_LOCATION : Z := 28.
Definition NGHTTP2_TOKEN_CONTENT_RANGE : Z := 29.
Definition NGHTTP2_TOKEN_CONTENT_TYPE : Z := 30.
Definition NGHTTP2_TOKEN_COOKIE : Z := 31.
Definition NGHTTP2_TOKEN_DATE : Z := 32.
Definition NGHTTP2_TOKEN_ETAG : Z := 33.
Definition NGHTTP2_TOKEN_EXPECT : Z := 34.
Definition NGHTTP2_TOKEN_EXPIRES : Z := 35.
Definition NGHTTP2_TOKEN_FROM : Z := 36.
Definition NGHTTP2_TOKEN_HOST : Z := 37.
Definition NGHTTP2_TOKEN_IF_MATCH : Z := 38.
Definition NGHTTP2_TOKEN_IF_MODIFIED_SINCE : Z := 39.
Definition NGHTTP2_TOKEN_IF_NONE_MATCH : Z := 40.
Definition NGHTTP2_TOKEN_IF_RANGE : Z := 41.
Definition NGHTTP2_TOKEN_IF_UNMODIFIED_SINCE : Z := 42.
Definition NGHTTP2_TOKEN_LAST_MODIFIED : Z := 43.
Definition NGHTTP2_TOKEN_LINK : Z := 44.
Definition NGHTTP2_TOKEN_LOCATION : Z := 45.
Definition NGHTTP2_TOKEN_MAX_FORWARDS : Z := 46.
Definition NGHTTP2_TOKEN_PROXY_AUTHENTICATE : Z := 47.
Definition NGHTTP2_TOKEN_PROXY_AUTHORIZATION : Z := 48.
Definition NGHTTP2_TOKEN_RANGE : Z := 49.
Definition NGHTTP2_TOKEN_REFERER : Z := 50.
Definition NGHTTP2_TOKEN_REFRESH : Z := 51.
Definition NGHTTP2_TOKEN_RETRY_AFTER : Z := 52.
Definition NGHTTP2_TOKEN_SERVER : Z := 53.
Definition NGHTTP2_TOKEN_SET_COOKIE : Z := 54.
Definition NGHTTP2_TOKEN_STRICT_TRANSPORT_SECURITY : Z := 55.
Definition NGHTTP2_TOKEN_TRANSFER_ENCODING : Z := 56.
Definition NGHTTP2_TOKEN_USER_AGENT : Z := 57.
Definition NGHTTP2_TOKEN_VARY : Z := 58.
Definition NGHTTP2_TOKEN_VIA : Z := 59.
Definition NGHTTP2_TOKEN_WWW_AUTHENTICATE : Z := 60.
Definition NGHTTP2_TOKEN_TE : Z := 61.
Definition NGHTTP2_TOKEN_CONNECTION : Z := 62.
Definition NGHTTP2_TOKEN_KEEP_ALIVE : Z := 63.
Definition NGHTTP2_TOKEN_PROXY_CONNECTION : Z := 64.
Definition NGHTTP2_TOKEN_UPGRADE : Z := 65.
Definition NGHTTP2_TOKEN__PROTOCOL : Z := 66.
Definition NGHTTP2_TOKEN_PRIORITY : Z := 67.

(** ** The static table *)

(** [MAKE_STATIC_ENT]: name, value, token and hash. *)
Record nghttp2_hd_static_entry := StaticEntry {
  s_name : list char; s_value : list char; s_token : Z; s_hash : Z
}.

Definition MAKE_STATIC_ENT (n v : string) (t h : Z) : nghttp2_hd_static_entry :=
  StaticEntry (chars n) (chars v) t h.

Definition static_table : list nghttp2_hd_static_entry := [
  MAKE_STATIC_ENT ":authority" "" 0 3153725150;
  MAKE_STATIC_ENT ":method" "GET" 1 695666056;
  MAKE_STATIC_ENT ":method" "POST" 1 695666056;
  MAKE_STATIC_ENT ":path" "/" 3 3292848686;
  MAKE_STATIC_ENT ":path" "/index.html" 3 3292848686;
  MAKE_STATIC_ENT ":scheme" "http" 5 2510477674;
  MAKE_STATIC_ENT ":scheme" "https" 5 2510477674;
  MAKE_STATIC_ENT ":status" "200" 7 4000288983;
  MAKE_STATIC_ENT ":status" "204" 7 4000288983;
  MAKE_STATIC_ENT ":status" "206" 7 4000288983;
  MAKE_STATIC_ENT ":status" "304" 7 4000288983;
  MAKE_STATIC_ENT ":status" "400" 7 4000288983;
  MAKE_STATIC_ENT ":status" "404" 7 4000288983;
  MAKE_STATIC_ENT ":status" "500" 7 4000288983;
  MAKE_STATIC_ENT "accept-charset" "" 14 3664010344;
  MAKE_STATIC_ENT "accept-encoding" "gzip, deflate" 15 3379649177;
  MAKE_STATIC_ENT "accept-language" "" 16 1979086614;
  MAKE_STATIC_ENT "accept-ranges" "" 17 1713753958;
  MAKE_STATIC_ENT "accept" "" 18 136609321;
  MAKE_STATIC_ENT "access-control-allow-origin" "" 19 2710797292;
  MAKE_STATIC_ENT "age" "" 20 742476188;
  MAKE_STATIC_ENT "allow" "" 21 2930878514;
  MAKE_STATIC_ENT "authorization" "" 22 2436257726;
  MAKE_STATIC_ENT "cache-control" "" 23 1355326669;
  MAKE_STATIC_ENT "content-disposition" "" 24 3889184348;
  MAKE_STATIC_ENT "content-encoding" "" 25 65203592;
  MAKE_STATIC_ENT "content-language" "" 26 24973587;
  MAKE_STATIC_ENT "content-length" "" 27 1308181789;
  MAKE_STATIC_ENT "content-location" "" 28 2302364718;
  MAKE_STATIC_ENT "content-range" "" 29 3555523146;
  MAKE_STATIC_ENT "content-type" "" 30 4244048277;
  MAKE_STATIC_ENT "cookie" "" 31 2007449791;
  MAKE_STATIC_ENT "date" "" 32 3564297305;
  MAKE_STATIC_ENT "etag" "" 33 113792960;
  MAKE_STATIC_ENT "expect" "" 34 2530896728;
  MAKE_STATIC_ENT "expires" "" 35 1049544579;
  MAKE_STATIC_ENT "from" "" 36 2513272949;
  MAKE_STATIC_ENT "host" "" 37 2952701295;
  MAKE_STATIC_ENT "if-match" "" 38 3597694698;
  MAKE_STATIC_ENT "if-modified-since" "" 39 2213050793;
  MAKE_STATIC_ENT "if-none-match" "" 40 2536202615;
  MAKE_STATIC_ENT "if-range" "" 41 2340978238;
  MAKE_STATIC_ENT "if-unmodified-since" "" 42 3794814858;
  MAKE_STATIC_ENT "last-modified" "" 43 3226950251;
  MAKE_STATIC_ENT "link" "" 44 232457833;
  MAKE_STATIC_ENT "location" "" 45 200649126;
  MAKE_STATIC_ENT "max-forwards" "" 46 1826162134;
  MAKE_STATIC_ENT "proxy-authenticate" "" 47 2709445359;
  MAKE_STATIC_ENT "proxy-authorization" "" 48 2686392507;
  MAKE_STATIC_ENT "range" "" 49 4208725202;
  MAKE_STATIC_ENT "referer" "" 50 3969579366;
  MAKE_STATIC_ENT "refresh" "" 51 3572655668;
  MAKE_STATIC_ENT "retry-after" "" 52 3336180598;
  MAKE_STATIC_ENT "server" "" 53 1085029842;
  MAKE_STATIC_ENT "set-cookie" "" 54 1848371000;
  MAKE_STATIC_ENT "strict-transport-security" "" 55 4138147361;
  MAKE_STATIC_ENT "transfer-encoding" "" 56 3719590988;
  MAKE_STATIC_ENT "user-agent" "" 57 606444526;
  MAKE_STATIC_ENT "vary" "" 58 1085005381;
  MAKE_STATIC_ENT "via" "" 59 1762798611;
  MAKE_STATIC_ENT "www-authenticate" "" 60 779865858
].

Definition NGHTTP2_STATIC_TABLE_LENGTH : Z := 61.

(** ** [lookup_token] *)

#[export] Instance ascii_eq_decision : EqDecision ascii := Ascii.ascii_dec.

(** [memeq(s, name, n)], where [s] has [n] characters. *)
Definition memeq (s : string) (name : list char) (n : nat) : bool :=
  bool_decide (take n name = chars s).

(** The character [name[i]] is the label of the case. *)
Definition is_char (name : list char) (i : nat) (c : char) : bool :=
  match name !! i with Some x => Ascii.eqb x c | None => false end.

Definition lookup_token_2 (name : list char) : Z :=
  if is_char name 1 "e" then if memeq "t" name 1 then NGHTTP2_TOKEN_TE else -1 else
  -1.

Definition lookup_token_3 (name : list char) : Z :=
  if is_char name 2 "a" then if memeq "vi" name 2 then NGHTTP2_TOKEN_VIA else -1 else
  if is_char name 2 "e" then if memeq "ag" name 2 then NGHTTP2_TOKEN_AGE else -1 else
  -1.

Definition lookup_token_4 (name : list char) : Z :=
  if is_char name 3 "e" then if memeq "dat" name 3 then NGHTTP2_TOKEN_DATE else -1 else
  if is_char name 3 "g" then if memeq "eta" name 3 then NGHTTP2_TOKEN_ETAG else -1 else
  if is_char name 3 "k" then if memeq "lin" name 3 then NGHTTP2_TOKEN_LINK else -1 else
  if is_char name 3 "m" then if memeq "fro" name 3 then NGHTTP2_TOKEN_FROM else -1 else
  if is_char name 3 "t" then if memeq "hos" name 3 then NGHTTP2_TOKEN_HOST else -1 else
  if is_char name 3 "y" then if memeq "var" name 3 then NGHTTP2_TOKEN_VARY else -1 else
  -1.

Definition lookup_token_5 (name : list char) : Z :=
  if is_char name 4 "e" then if memeq "rang" name 4 then NGHTTP2_TOKEN_RANGE else -1 else
  if is_char name 4 "h" then if memeq ":pat" name 4 then NGHTTP2_TOKEN__PATH else -1 else
  if is_char name 4 "w" then if memeq "allo" name 4 then NGHTTP2_TOKEN_ALLOW else -1 else
  -1.

Definition lookup_token_6 (name : list char) : Z :=
  if is_char name 5 "e" then if memeq "cooki" name 5 then NGHTTP2_TOKEN_COOKIE else -1 else
  if is_char name 5 "r" then if memeq "serve" name 5 then NGHTTP2_TOKEN_SERVER else -1 else
  if is_char name 5 "t" then if memeq "accep" name 5 then NGHTTP2_TOKEN_ACCEPT else if memeq "expec" name 5 then NGHTTP2_TOKEN_EXPECT else -1 else
  -1.

Definition lookup_token_7 (name : list char) : Z :=
  if is_char name 6 "d" then if memeq ":metho" name 6 then NGHTTP2_TOKEN__METHOD else -1 else
  if is_char name 6 "e" then if memeq ":schem" name 6 then NGHTTP2_TOKEN__SCHEME else if memeq "upgrad" name 6 then NGHTTP2_TOKEN_UPGRADE else -1 else
  if is_char name 6 "h" then if memeq "refres" name 6 then NGHTTP2_TOKEN_REFRESH else -1 else
  if is_char name 6 "r" then if memeq "refere" name 6 then NGHTTP2_TOKEN_REFERER else -1 else
  if is_char name 6 "s" then if memeq ":statu" name 6 then NGHTTP2_TOKEN__STATUS else if memeq "expire" name 6 then NGHTTP2_TOKEN_EXPIRES else -1 else
  -1.

Definition lookup_token_8 (name : list char) : Z :=
  if is_char name 7 "e" then if memeq "if-rang" name 7 then NGHTTP2_TOKEN_IF_RANGE else -1 else
  if is_char name 7 "h" then if memeq "if-matc" name 7 then NGHTTP2_TOKEN_IF_MATCH else -1 else
  if is_char name 7 "n" then if memeq "locatio" name 7 then NGHTTP2_TOKEN_LOCATION else -1 else
  if is_char name 7 "y" then if memeq "priorit" name 7 then NGHTTP2_TOKEN_PRIORITY else -1 else
  -1.

Definition lookup_token_9 (name : list char) : Z :=
  if is_char name 8 "l" then if memeq ":protoco" name 8 then NGHTTP2_TOKEN__PROTOCOL else -1 else
  -1.

Definition lookup_token_10 (name : list char) : Z :=
  if is_char name 9 "e" then if memeq "keep-aliv" name 9 then NGHTTP2_TOKEN_KEEP_ALIVE else if memeq "set-cooki" name 9 then NGHTTP2_TOKEN_SET_COOKIE else -1 else
  if is_char name 9 "n" then if memeq "connectio" name 9 then NGHTTP2_TOKEN_CONNECTION else -1 else
  if is_char name 9 "t" then if memeq "user-agen" name 9 then NGHTTP2_TOKEN_USER_AGENT else -1 else
  if is_char name 9 "y" then if memeq ":authorit" name 9 then NGHTTP2_TOKEN__AUTHORITY else -1 else
  -1.

Definition lookup_token_11 (name : list char) : Z :=
  if is_char name 10 "r" then if memeq "retry-afte" name 10 then NGHTTP2_TOKEN_RETRY_AFTER else -1 else
  -1.

Definition lookup_token_12 (name : list char) : Z :=
  if is_char name 11 "e" then if memeq "content-typ" name 11 then NGHTTP2_TOKEN_CONTENT_TYPE else -1 else
  if is_char name 11 "s" then if memeq "max-forward" name 11 then NGHTTP2_TOKEN_MAX_FORWARDS else -1 else
  -1.

Definition lookup_token_13 (name : list char) : Z :=
  if is_char name 12 "d" then if memeq "last-modifie" name 12 then NGHTTP2_TOKEN_LAST_MODIFIED else -1 else
  if is_char name 12 "e" then if memeq "content-rang" name 12 then NGHTTP2_TOKEN_CONTENT_RANGE else -1 else
  if is_char name 12 "h" then if memeq "if-none-matc" name 12 then NGHTTP2_TOKEN_IF_NONE_MATCH else -1 else
  if is_char name 12 "l" then if memeq "cache-contro" name 12 then NGHTTP2_TOKEN_CACHE_CONTROL else -1 else
  if is_char name 12 "n" then if memeq "authorizatio" name 12 then NGHTTP2_TOKEN_AUTHORIZATION else -1 else
  if is_char name 12 "s" then if memeq "accept-range" name 12 then NGHTTP2_TOKEN_ACCEPT_RANGES else -1 else
  -1.

Definition lookup_token_14 (name : list char) : Z :=
  if is_char name 13 "h" then if memeq "content-lengt" name 13 then NGHTTP2_TOKEN_CONTENT_LENGTH else -1 else
  if is_char name 13 "t" then if memeq "accept-charse" name 13 then NGHTTP2_TOKEN_ACCEPT_CHARSET else -1 else
  -1.

Definition lookup_token_15 (name : list char) : Z :=
  if is_char name 14 "e" then if memeq "accept-languag" name 14 then NGHTTP2_TOKEN_ACCEPT_LANGUAGE else -1 else
  if is_char name 14 "g" then if memeq "accept-encodin" name 14 then NGHTTP2_TOKEN_ACCEPT_ENCODING else -1 else
  -1.

Definition lookup_token_16 (name : list char) : Z :=
  if is_char name 15 "e" then if memeq "content-languag" name 15 then NGHTTP2_TOKEN_CONTENT_LANGUAGE else if memeq "www-authenticat" name 15 then NGHTTP2_TOKEN_WWW_AUTHENTICATE else -1 else
  if is_char name 15 "g" then if memeq "content-encodin" name 15 then NGHTTP2_TOKEN_CONTENT_ENCODING else -1 else
  if is_char name 15 "n" then if memeq "content-locatio" name 15 then NGHTTP2_TOKEN_CONTENT_LOCATION else if memeq "proxy-connectio" name 15 then NGHTTP2_TOKEN_PROXY_CONNECTION else -1 else
  -1.

Definition lookup_token_17 (name : list char) : Z :=
  if is_char name 16 "e" then if memeq "if-modified-sinc" name 16 then NGHTTP2_TOKEN_IF_MODIFIED_SINCE else -1 else
  if is_char name 16 "g" then if memeq "transfer-encodin" name 16 then NGHTTP2_TOKEN_TRANSFER_ENCODING else -1 else
  -1.

Definition lookup_token_18 (name : list char) : Z :=
  if is_char name 17 "e" then if memeq "proxy-authenticat" name 17 then NGHTTP2_TOKEN_PROXY_AUTHENTICATE else -1 else
  -1.

Definition lookup_token_19 (name : list char) : Z :=
  if is_char name 18 "e" then if memeq "if-unmodified-sinc" name 18 then NGHTTP2_TOKEN_IF_UNMODIFIED_SINCE else -1 else
  if is_char name 18 "n" then if memeq "content-dispositio" name 18 then NGHTTP2_TOKEN_CONTENT_DISPOSITION else if memeq "proxy-authorizatio" name 18 then NGHTTP2_TOKEN_PROXY_AUTHORIZATION else -1 else
  -1.

Definition lookup_token_25 (name : list char) : Z :=
  if is_char name 24 "y" then if memeq "strict-transport-securit" name 24 then NGHTTP2_TOKEN_STRICT_TRANSPORT_SECURITY else -1 else
  -1.

Definition lookup_token_27 (name : list char) : Z :=
  if is_char name 26 "n" then if memeq "access-control-allow-origi" name 26 then NGHTTP2_TOKEN_ACCESS_CONTROL_ALLOW_ORIGIN else -1 else
  -1.

(** [switch (namelen)] *)
Definition lookup_token (name : list char) : Z :=
  match length name with
  | 2%nat => lookup_token_2 name
  | 3%nat => lookup_token_3 name
  | 4%nat => lookup_token_4 name
  | 5%nat => lookup_token_5 name
  | 6%nat => lookup_token_6 name
  | 7%nat => lookup_token_7 name
  | 8%nat => lookup_token_8 name
  | 9%nat => lookup_token_9 name
  | 10%nat => lookup_token_10 name
  | 11%nat => lookup_token_11 name
  | 12%nat => lookup_token_12 name
  | 13%nat => lookup_token_13 name
  | 14%nat => lookup_token_14 name
  | 15%nat => lookup_token_15 name
  | 16%nat => lookup_token_16 name
  | 17%nat => lookup_token_17 name
  | 18%nat => lookup_token_18 name
  | 19%nat => lookup_token_19 name
  | 25%nat => lookup_token_25 name
  | 27%nat => lookup_token_27 name
  | _ => -1
  end.

(** The name of a token. *)
Definition token_names : list (Z * string) := [
  (NGHTTP2_TOKEN__AUTHORITY, ":authority"%string);
  (NGHTTP2_TOKEN__METHOD, ":method"%string);
  (NGHTTP2_TOKEN__PATH, ":path"%string);
  (NGHTTP2_TOKEN__SCHEME, ":scheme"%string);
  (NGHTTP2_TOKEN__STATUS, ":status"%string);
  (NGHTTP2_TOKEN_ACCEPT_CHARSET, "accept-charset"%string);
  (NGHTTP2_TOKEN_ACCEPT_ENCODING, "accept-encoding"%string);
  (NGHTTP2_TOKEN_ACCEPT_LANGUAGE, "accept-language"%string);
  (NGHTTP2_TOKEN_ACCEPT_RANGES, "accept-ranges"%string);
  (NGHTTP2_TOKEN_ACCEPT, "accept"%string);
  (NGHTTP2_TOKEN_ACCESS_CONTROL_ALLOW_ORIGIN, "access-control-allow-origin"%string);
  (NGHTTP2_TOKEN_AGE, "age"%string);
  (NGHTTP2_TOKEN_ALLOW, "allow"%string);
  (NGHTTP2_TOKEN_AUTHORIZATION, "authorization"%string);
  (NGHTTP2_TOKEN_CACHE_CONTROL, "cache-control"%string);
  (NGHTTP2_TOKEN_CONTENT_DISPOSITION, "content-disposition"%string);
  (NGHTTP2_TOKEN_CONTENT_ENCODING, "content-encoding"%string);
  (NGHTTP2_TOKEN_CONTENT_LANGUAGE, "content-language"%string);
  (NGHTTP2_TOKEN_CONTENT_LENGTH, "content-length"%string);
  (NGHTTP2_TOKEN_CONTENT_LOCATION, "content-location"%string);
  (NGHTTP2_TOKEN_CONTENT_RANGE, "content-range"%string);
  (NGHTTP2_TOKEN_CONTENT_TYPE, "content-type"%string);
  (NGHTTP2_TOKEN_COOKIE, "cookie"%string);
  (NGHTTP2_TOKEN_DATE, "date"%string);
  (NGHTTP2_TOKEN_ETAG, "etag"%string);
  (NGHTTP2_TOKEN_EXPECT, "expect"%string);
  (NGHTTP2_TOKEN_EXPIRES, "expires"%string);
  (NGHTTP2_TOKEN_FROM, "from"%string);
  (NGHTTP2_TOKEN_HOST, "host"%string);
  (NGHTTP2_TOKEN_IF_MATCH, "if-match"%string);
  (NGHTTP2_TOKEN_IF_MODIFIED_SINCE, "if-modified-since"%string);
  (NGHTTP2_TOKEN_IF_NONE_MATCH, "if-none-match"%string);
  (NGHTTP2_TOKEN_IF_RANGE, "if-range"%string);
  (NGHTTP2_TOKEN_IF_UNMODIFIED_SINCE, "if-unmodified-since"%string);
  (NGHTTP2_TOKEN_LAST_MODIFIED, "last-modified"%string);
  (NGHTTP2_TOKEN_LINK, "link"%string);
  (NGHTTP2_TOKEN_LOCATION, "location"%string);
  (NGHTTP2_TOKEN_MAX_FORWARDS, "max-forwards"%string);
  (NGHTTP2_TOKEN_PROXY_AUTHENTICATE, "proxy-authenticate"%string);
  (NGHTTP2_TOKEN_PROXY_AUTHORIZATION, "proxy-authorization"%string);
  (NGHTTP2_TOKEN_RANGE, "range"%string);
  (NGHTTP2_TOKEN_REFERER, "referer"%string);
  (NGHTTP2_TOKEN_REFRESH, "refresh"%string);
  (NGHTTP2_TOKEN_RETRY_AFTER, "retry-after"%string);
  (NGHTTP2_TOKEN_SERVER, "server"%string);
  (NGHTTP2_TOKEN_SET_COOKIE, "set-cookie"%string);
  (NGHTTP2_TOKEN_STRICT_TRANSPORT_SECURITY, "strict-transport-security"%string);
  (NGHTTP2_TOKEN_TRANSFER_ENCODING, "transfer-encoding"%string);
  (NGHTTP2_TOKEN_USER_AGENT, "user-agent"%string);
  (NGHTTP2_TOKEN_VARY, "vary"%string);
  (NGHTTP2_TOKEN_VIA, "via"%string);
  (NGHTTP2_TOKEN_WWW_AUTHENTICATE, "www-authenticate"%string);
  (NGHTTP2_TOKEN_TE, "te"%string);
  (NGHTTP2_TOKEN_CONNECTION, "connection"%string);
  (NGHTTP2_TOKEN_KEEP_ALIVE, "keep-alive"%string);
  (NGHTTP2_TOKEN_PROXY_CONNECTION, "proxy-connection"%string);
  (NGHTTP2_TOKEN_UPGRADE, "upgrade"%string);
  (NGHTTP2_TOKEN__PROTOCOL, ":protocol"%string);
  (NGHTTP2_TOKEN_PRIORITY, "priority"%string)
].

(** ** What the switch computes *)

Lemma split_last (name : list char) s c n : length name = S n -> is_char name n c = true -> memeq s name n = true ->
  name = chars s ++ [c].
Proof.
  intros Hl Hc Hs. unfold is_char in Hc. destruct (name !! n) as [x|] eqn:E; [|done]. apply Ascii.eqb_eq in Hc as ->.
  apply bool_decide_eq_true in Hs. rewrite <- Hs. rewrite <- (take_S_r _ _ _ E). symmetry. apply take_ge. lia.
Qed.

(** A name is nothing but the name of the token found for it. *)
Definition named (t : Z) (name : list char) : bool :=
  (t =? -1) || existsb (fun ts => (fst ts =? t) && bool_decide (chars (snd ts) = name)) token_names.

Ltac token_case :=
  match goal with
  | |- named (-1) _ = true => reflexivity
  | |- named (if is_char ?l ?n ?c then _ else _) _ = true => let H := fresh "Hc" in destruct (is_char l n c) eqn:H
  | |- named (if memeq ?s ?l ?n then _ else _) _ = true => let H := fresh "Hm" in destruct (memeq s l n) eqn:H
  | Hl : length ?l = _, H : is_char ?l ?n ?c = true, H' : memeq ?s ?l ?n = true |- named _ ?l = true =>
      rewrite (split_last l s c n Hl H H'); vm_compute; reflexivity
  end.

Lemma lookup_token_named name : named (lookup_token name) name = true.
Proof.
  unfold lookup_token. destruct (length name) as [|n] eqn:Hl; [reflexivity|].
  do 27 (destruct n as [|n]; [cbv delta [lookup_token_2 lookup_token_3 lookup_token_4 lookup_token_5 lookup_token_6
    lookup_token_7 lookup_token_8 lookup_token_9 lookup_token_10 lookup_token_11 lookup_token_12 lookup_token_13
    lookup_token_14 lookup_token_15 lookup_token_16 lookup_token_17 lookup_token_18 lookup_token_19 lookup_token_25
    lookup_token_27] beta; repeat token_case|]). reflexivity.
Qed.

Lemma tokens_unique : NoDup token_names.*1.
Proof. apply (bool_decide_unpack _). vm_compute. exact I. Qed.

(** Names with the same token are the same. *)
Lemma lookup_token_inj n1 n2 : lookup_token n1 = lookup_token n2 -> lookup_token n1 <> -1 -> n1 = n2.
Proof.
  intros E Hne. pose proof (lookup_token_named n1) as H1. pose proof (lookup_token_named n2) as H2. rewrite <- E in H2.
  unfold named in *. rewrite (proj2 (Z.eqb_neq _ _) Hne) in *. cbn [orb] in *.
  apply existsb_exists in H1 as ([t1 s1] & I1 & H1). apply existsb_exists in H2 as ([t2 s2] & I2 & H2).
  cbn [fst snd] in *. apply andb_prop in H1 as [T1%Z.eqb_eq S1%bool_decide_eq_true], H2 as [T2%Z.eqb_eq S2%bool_decide_eq_true].
  enough ((t1, s1) = (t2, s2)) by congruence. apply list_elem_of_In, list_elem_of_lookup_1 in I1 as [i1 I1], I2 as [i2 I2].
  pose proof (NoDup_lookup _ i1 i2 t1 tokens_unique) as H. rewrite !list_lookup_fmap, I1, I2 in H. cbn in H.
  rewrite T1, <- T2 in H. specialize (H eq_refl eq_refl). subst i2. congruence.
Qed.

Lemma lookup_token_names t s : (t, s) ∈ token_names -> lookup_token (chars s) = t /\ 0 <= t.
Proof.
  intros H. assert (Ha : forallb (fun ts => (lookup_token (chars (snd ts)) =? fst ts) && (0 <=? fst ts)) token_names = true) by (vm_compute; reflexivity).
  rewrite forallb_forall in Ha. apply list_elem_of_In in H. specialize (Ha _ H). cbn in Ha. crush_hyps. done.
Qed.

