(* ===== verification/HdTable.v ===== *)
(** * The header tables of HPACK: [nghttp2_hd.c]

    The dynamic table, a ring buffer of entries whose size is a power of two; the
    hash map in which the deflater looks up names, 128 chains of the same entries;
    the search in both tables, the insertion with its evictions and the change of
    size.

    An entry is allocated once, and does not change when it is in the table: it is a
    value with the address it was allocated at, which stands for its identity
    ([ent != p]) where it is in two structures.  The chain that hangs from a bucket is
    the list of its entries.  Names and values are shared strings (Rcbuf.v).
    [size_t] has 32 bits.  Reading a slot of the ring buffer that holds no entry, a
    failing [assert], a shift of the loop sizes beyond 32 bits and a wrong count of
    references make the result [None]. *)

From stdpp Require Import gmap list.
From S2P Require Import Prelude CLib NgBuf HpackInt Rcbuf HdStatic.

(** ** Data *)

(** A header field of the application: name, value and flags. *)
Record nghttp2_nv := Nv { name : list char; value : list char; flags : Z }.

Definition NGHTTP2_NV_FLAG_NONE : Z := 0.
Definition NGHTTP2_NV_FLAG_NO_INDEX : Z := 1.

Record nghttp2_hd_nv := HdNv {
  nv_name : nghttp2_rcbuf; nv_value : nghttp2_rcbuf; nv_token : Z; nv_flags : Z
}.

Record nghttp2_hd_entry := Entry {
  ent_nv : nghttp2_hd_nv; ent_seq : Z; ent_hash : Z; ent_addr : nat
}.

(** The slots of [buffer] that have not been written to are [None]. *)
Record nghttp2_hd_ringbuf := Ring {
  buffer : list (option nghttp2_hd_entry); mask : Z; first : Z; rlen : Z
}.

Abbreviation nghttp2_hd_map := (list (list nghttp2_hd_entry)).

Record nghttp2_hd_context := HdContext {
  hd_table : nghttp2_hd_ringbuf; hd_table_bufsize : Z; hd_table_bufsize_max : Z; next_seq : Z; bad : bool
}.

Definition set_table (r : nghttp2_hd_ringbuf) (c : nghttp2_hd_context) : nghttp2_hd_context :=
  HdContext r (hd_table_bufsize c) (hd_table_bufsize_max c) (next_seq c) (bad c).
Definition set_bufsize (n : Z) (c : nghttp2_hd_context) : nghttp2_hd_context :=
  HdContext (hd_table c) n (hd_table_bufsize_max c) (next_seq c) (bad c).
Definition set_bufsize_max (n : Z) (c : nghttp2_hd_context) : nghttp2_hd_context :=
  HdContext (hd_table c) (hd_table_bufsize c) n (next_seq c) (bad c).
Definition set_next_seq (n : Z) (c : nghttp2_hd_context) : nghttp2_hd_context :=
  HdContext (hd_table c) (hd_table_bufsize c) (hd_table_bufsize_max c) n (bad c).
Definition set_bad (c : nghttp2_hd_context) : nghttp2_hd_context :=
  HdContext (hd_table c) (hd_table_bufsize c) (hd_table_bufsize_max c) (next_seq c) true.

Definition NGHTTP2_HD_ENTRY_OVERHEAD : Z := 32.
Definition NGHTTP2_HD_DEFAULT_MAX_BUFFER_SIZE : Z := 4096.
Definition HD_MAP_SIZE : Z := 128.

Definition SIZE_MAX : Z := 4294967295.

Definition entry_room (namelen valuelen : Z) : Z := u32 (NGHTTP2_HD_ENTRY_OVERHEAD + namelen + valuelen).

(** The room of an entry in the table. *)
Definition room_of (n : nghttp2_hd_nv) : Z := entry_room (Z.of_nat (len (nv_name n))) (Z.of_nat (len (nv_value n))).

(** ** Comparisons and the hash *)

Definition name_eq (a : nghttp2_hd_nv) (b : nghttp2_nv) : bool :=
  (len (nv_name a) =? length (name b))%nat && bool_decide (nghttp2_rcbuf_get_buf (nv_name a) = name b).

Definition value_eq (a : nghttp2_hd_nv) (b : nghttp2_nv) : bool :=
  (len (nv_value a) =? length (value b))%nat && bool_decide (nghttp2_rcbuf_get_buf (nv_value a) = value b).

(** One turn of the loop of [name_hash]. *)
Definition fnv_step (h : Z) (c : char) : Z :=
  let h := Z.lxor h (bval c) in
  u32 (h + (u32 (Z.shiftl h 1) + u32 (Z.shiftl h 4) + u32 (Z.shiftl h 7) + u32 (Z.shiftl h 8) + u32 (Z.shiftl h 24))).

Definition name_hash (n : list char) : Z := fold_left fnv_step n 2166136261.

(** ** Entries and the map *)

(** [nghttp2_hd_entry_init]: the references to the name and the value. *)
Definition nghttp2_hd_entry_init (n : nghttp2_hd_nv) (h : heap) : option heap :=
  h ← nghttp2_rcbuf_incref (nv_name n) h;
  nghttp2_rcbuf_incref (nv_value n) h.

Definition nghttp2_hd_entry_free (e : nghttp2_hd_entry) (h : heap) : option heap :=
  h ← nghttp2_rcbuf_decref (Some (nv_value (ent_nv e))) h;
  nghttp2_rcbuf_decref (Some (nv_name (ent_nv e))) h.

(** [nghttp2_mem_free] of a block that is no string. *)
Definition block_free (h : heap) : heap := Heap (free (hmem h) false) (refs h).

Definition hd_map_init : nghttp2_hd_map := replicate (Z.to_nat HD_MAP_SIZE) [].

(** [hash & (HD_MAP_SIZE - 1)] *)
Definition map_index (hash : Z) : nat := Z.to_nat (Z.land hash (HD_MAP_SIZE - 1)).

Definition hd_map_insert (map : nghttp2_hd_map) (ent : nghttp2_hd_entry) : option nghttp2_hd_map :=
  bucket ← map !! map_index (ent_hash ent);
  Some (<[map_index (ent_hash ent) := ent :: bucket]> map).

(** The loop over a chain: the result so far, and whether it is an exact match. *)
Fixpoint find_in_chain (chain : list nghttp2_hd_entry) (n : nghttp2_nv) (token hash : Z) (name_only : bool)
    (res : option nghttp2_hd_entry) : option nghttp2_hd_entry * bool :=
  match chain with
  | [] => (res, false)
  | p :: chain =>
      if negb (token =? nv_token (ent_nv p))
         || ((token =? -1) && (negb (hash =? ent_hash p) || negb (name_eq (ent_nv p) n)))
      then find_in_chain chain n token hash name_only res
      else
        match res with
        | None =>
            if name_only then (Some p, false)
            else if value_eq (ent_nv p) n then (Some p, true)
            else find_in_chain chain n token hash name_only (Some p)
        | Some _ =>
            if value_eq (ent_nv p) n then (Some p, true)
            else find_in_chain chain n token hash name_only res
        end
  end.

Definition hd_map_find (map : nghttp2_hd_map) (n : nghttp2_nv) (token hash : Z) (name_only : bool)
  : option (option nghttp2_hd_entry * bool) :=
  chain ← map !! map_index hash;
  Some (find_in_chain chain n token hash name_only None).

(** The entry with the address [a], taken out of its chain. *)
Fixpoint remove_from_chain (chain : list nghttp2_hd_entry) (a : nat) : list nghttp2_hd_entry :=
  match chain with
  | [] => []
  | p :: chain => if (ent_addr p =? a)%nat then chain else p :: remove_from_chain chain a
  end.

Definition hd_map_remove (map : nghttp2_hd_map) (ent : nghttp2_hd_entry) : option nghttp2_hd_map :=
  chain ← map !! map_index (ent_hash ent);
  Some (<[map_index (ent_hash ent) := remove_from_chain chain (ent_addr ent)]> map).

(** ** The ring buffer *)

(** [for (size = 1; size < bufsize; size <<= 1);] *)
Fixpoint size_loop (fuel : nat) (size bufsize : Z) : option Z :=
  match fuel with
  | O => None
  | S fuel => if size <? bufsize then size_loop fuel (u32 (Z.shiftl size 1)) bufsize else Some size
  end.

Definition size_fuel : nat := 33.

Section Alloc.
Context (malloc_ok : nat -> bool).

(** [nghttp2_mem_malloc] of a block that is no string. *)
Definition block_new (h : heap) : bool * heap :=
  let '(ok, m) := malloc malloc_ok (hmem h) in (ok, Heap m (refs h)).

Definition empty_ring : nghttp2_hd_ringbuf := Ring [] 0 0 0.

Definition hd_ringbuf_init (bufsize : Z) (h : heap) : option (Z * nghttp2_hd_ringbuf * heap) :=
  let max_size := SIZE_MAX / 4 in
  if max_size <? bufsize then Some (NGHTTP2_ERR_NOMEM, empty_ring, h) else
  size ← size_loop size_fuel 1 bufsize;
  if max_size <? size then Some (NGHTTP2_ERR_NOMEM, empty_ring, h) else
  let '(ok, h) := block_new h in
  if negb ok then Some (NGHTTP2_ERR_NOMEM, empty_ring, h) else
  Some (0, Ring (replicate (Z.to_nat size) None) (size - 1) 0 0, h).

(** [(ringbuf->first + idx) & ringbuf->mask] *)
Definition slot (r : nghttp2_hd_ringbuf) (idx : Z) : nat := Z.to_nat (Z.land (u32 (first r + idx)) (mask r)).

Definition hd_ringbuf_get (r : nghttp2_hd_ringbuf) (idx : Z) : option nghttp2_hd_entry :=
  if negb (idx <? rlen r) then None else
  o ← buffer r !! slot r idx; o.

(** [for (i = 0; i < ringbuf->len; ++i)]: the entries from index [i] on. *)
Fixpoint ring_entries (n : nat) (r : nghttp2_hd_ringbuf) (i : Z) : option (list nghttp2_hd_entry) :=
  match n with
  | O => Some []
  | S n =>
      e ← hd_ringbuf_get r i;
      l ← ring_entries n r (i + 1);
      Some (e :: l)
  end.

Definition hd_ringbuf_reserve (r : nghttp2_hd_ringbuf) (bufsize : Z) (h : heap)
  : option (Z * nghttp2_hd_ringbuf * heap) :=
  if bufsize <=? u32 (mask r + 1) then Some (0, r, h) else
  size ← size_loop size_fuel 1 bufsize;
  let '(ok, h) := block_new h in
  if negb ok then Some (NGHTTP2_ERR_NOMEM, r, h) else
  l ← ring_entries (Z.to_nat (rlen r)) r 0;
  if size <? rlen r then None else
  Some (0, Ring (map Some l ++ replicate (Z.to_nat (size - rlen r)) None) (size - 1) 0 (rlen r), block_free h).

Fixpoint free_entries (l : list nghttp2_hd_entry) (h : heap) : option heap :=
  match l with
  | [] => Some h
  | e :: l => h ← nghttp2_hd_entry_free e h; free_entries l (block_free h)
  end.

Definition hd_ringbuf_free (r : nghttp2_hd_ringbuf) (h : heap) : option heap :=
  l ← ring_entries (Z.to_nat (rlen r)) r 0;
  h ← free_entries l h;
  Some (block_free h).

(** [ringbuf->buffer[--ringbuf->first & ringbuf->mask] = ent] *)
Definition hd_ringbuf_push_front (r : nghttp2_hd_ringbuf) (ent : nghttp2_hd_entry) (h : heap)
  : option (Z * nghttp2_hd_ringbuf * heap) :=
  rt ← hd_ringbuf_reserve r (u32 (rlen r + 1)) h;
  let '(rv, r, h) := rt in
  if negb (rv =? 0) then Some (rv, r, h) else
  let f := u32 (first r - 1) in
  let i := Z.to_nat (Z.land f (mask r)) in
  if (i <? length (buffer r))%nat
  then Some (0, Ring (<[i := Some ent]> (buffer r)) (mask r) f (u32 (rlen r + 1)), h) else None.

Definition hd_ringbuf_pop_back (r : nghttp2_hd_ringbuf) : option nghttp2_hd_ringbuf :=
  if 0 <? rlen r then Some (Ring (buffer r) (mask r) (first r) (rlen r - 1)) else None.

(** ** The context *)

Definition hd_context_init (h : heap) : option (Z * nghttp2_hd_context * heap) :=
  rt ← hd_ringbuf_init (NGHTTP2_HD_DEFAULT_MAX_BUFFER_SIZE / NGHTTP2_HD_ENTRY_OVERHEAD) h;
  let '(rv, r, h) := rt in
  Some (rv, HdContext r 0 NGHTTP2_HD_DEFAULT_MAX_BUFFER_SIZE 0 false, h).

Definition hd_context_free (c : nghttp2_hd_context) (h : heap) : option heap := hd_ringbuf_free (hd_table c) h.

(** [if (map) hd_map_remove(map, ent)], and the same with [hd_map_insert]. *)
Definition in_map (f : nghttp2_hd_map -> nghttp2_hd_entry -> option nghttp2_hd_map) (map : option nghttp2_hd_map)
    (ent : nghttp2_hd_entry) : option (option nghttp2_hd_map) :=
  match map with None => Some None | Some map => map ← f map ent; Some (Some map) end.

(** The eviction of the oldest entry: the body of the loops of
    [add_hd_table_incremental] and [hd_context_shrink_table_size]. *)
Definition evict (c : nghttp2_hd_context) (map : option nghttp2_hd_map) (h : heap)
  : option (nghttp2_hd_context * option nghttp2_hd_map * heap) :=
  ent ← hd_ringbuf_get (hd_table c) (rlen (hd_table c) - 1);
  let c := set_bufsize (u32 (hd_table_bufsize c - room_of (ent_nv ent))) c in
  r ← hd_ringbuf_pop_back (hd_table c);
  map ← in_map hd_map_remove map ent;
  h ← nghttp2_hd_entry_free ent h;
  Some (set_table r c, map, block_free h).

(** [while (bufsize + room > bufsize_max && len > 0)]; every turn takes an entry. *)
Fixpoint evict_loop (fuel : nat) (room : Z) (c : nghttp2_hd_context) (map : option nghttp2_hd_map) (h : heap)
  : option (nghttp2_hd_context * option nghttp2_hd_map * heap) :=
  if (hd_table_bufsize_max c <? u32 (hd_table_bufsize c + room)) && (0 <? rlen (hd_table c)) then
    match fuel with
    | O => None
    | S fuel =>
        r ← evict c map h;
        let '(c, map, h) := r in
        evict_loop fuel room c map h
    end
  else Some (c, map, h).

Definition add_hd_table_incremental (c : nghttp2_hd_context) (n : nghttp2_hd_nv) (map : option nghttp2_hd_map)
    (hash : Z) (h : heap) : option (Z * nghttp2_hd_context * option nghttp2_hd_map * heap) :=
  let room := room_of n in
  r ← evict_loop (Z.to_nat (rlen (hd_table c))) room c map h;
  let '(c, map, h) := r in
  if hd_table_bufsize_max c <? room then Some (0, c, map, h) else
  let a := requests (hmem h) in
  let '(ok, h) := block_new h in
  if negb ok then Some (NGHTTP2_ERR_NOMEM, c, map, h) else
  h ← nghttp2_hd_entry_init n h;
  let new_ent := Entry n (next_seq c) hash a in
  rt ← hd_ringbuf_push_front (hd_table c) new_ent h;
  let '(rv, r, h) := rt in
  let c := set_table r c in
  if negb (rv =? 0) then
    h ← nghttp2_hd_entry_free new_ent h;
    Some (rv, c, map, block_free h)
  else
    let c := set_next_seq (u32 (next_seq c + 1)) c in
    map ← in_map hd_map_insert map new_ent;
    Some (0, set_bufsize (u32 (hd_table_bufsize c + room)) c, map, h).

(** The loop is that of [add_hd_table_incremental] without a new entry. *)
Definition hd_context_shrink_table_size (c : nghttp2_hd_context) (map : option nghttp2_hd_map) (h : heap) :=
  evict_loop (Z.to_nat (rlen (hd_table c))) 0 c map h.
End Alloc.

(** ** Looking up *)

(** [INDEX_RANGE_VALID] and [get_max_index] *)
Definition get_max_index (c : nghttp2_hd_context) : Z := rlen (hd_table c) + NGHTTP2_STATIC_TABLE_LENGTH.
Definition INDEX_RANGE_VALID (c : nghttp2_hd_context) (idx : Z) : bool := idx <? get_max_index c.

(** A string of the static table. *)
Definition static_rcbuf (s : list char) : nghttp2_rcbuf := Rcbuf (s ++ [NUL]) (length s) None.

Definition static_entry (i : Z) : option nghttp2_hd_static_entry :=
  if i <? 0 then None else static_table !! Z.to_nat i.

Definition nghttp2_hd_table_get (c : nghttp2_hd_context) (idx : Z) : option nghttp2_hd_nv :=
  if negb (INDEX_RANGE_VALID c idx) then None else
  if NGHTTP2_STATIC_TABLE_LENGTH <=? idx then
    ent ← hd_ringbuf_get (hd_table c) (idx - NGHTTP2_STATIC_TABLE_LENGTH);
    Some (ent_nv ent)
  else
    ent ← static_entry idx;
    Some (HdNv (static_rcbuf (s_name ent)) (static_rcbuf (s_value ent)) (s_token ent) NGHTTP2_NV_FLAG_NONE).

(** [nghttp2_hd_table_get2] and [hd_get_table_entry]: [cnv] is the copy of the
    field for the application. *)
Definition cnv (n : nghttp2_hd_nv) : nghttp2_nv :=
  Nv (nghttp2_rcbuf_get_buf (nv_name n)) (nghttp2_rcbuf_get_buf (nv_value n)) (nv_flags n).

Definition nghttp2_hd_table_get2 (c : nghttp2_hd_context) (idx : Z) : option nghttp2_nv :=
  if negb (INDEX_RANGE_VALID c idx) then None else
  if NGHTTP2_STATIC_TABLE_LENGTH <=? idx then
    ent ← hd_ringbuf_get (hd_table c) (idx - NGHTTP2_STATIC_TABLE_LENGTH);
    Some (cnv (ent_nv ent))
  else
    ent ← static_entry idx;
    Some (Nv (s_name ent) (s_value ent) 0).

Definition hd_get_table_entry (c : nghttp2_hd_context) (idx : Z) : option (option nghttp2_nv) :=
  if idx =? 0 then Some None else
  let idx := idx - 1 in
  if negb (INDEX_RANGE_VALID c idx) then Some None else Some <$> nghttp2_hd_table_get2 c idx.

Record search_result := Found { sr_index : Z; sr_name_value_match : bool }.

(** The loop of [search_static_table], from [i] on. *)
Fixpoint search_static (fuel : nat) (v : list char) (token i : Z) : option search_result :=
  match fuel with
  | O => None
  | S fuel =>
      if negb (i <=? NGHTTP2_TOKEN_WWW_AUTHENTICATE) then Some (Found token false) else
      ent ← static_entry i;
      if negb (s_token ent =? token) then Some (Found token false)
      else if bool_decide (s_value ent = v) then Some (Found i true)
      else search_static fuel v token (i + 1)
  end.

Definition search_static_table (n : nghttp2_nv) (token : Z) (name_only : bool) : option search_result :=
  if name_only then Some (Found token false) else search_static (length static_table + 1) (value n) token token.

Inductive nghttp2_hd_indexing_mode :=
| NGHTTP2_HD_WITH_INDEXING
| NGHTTP2_HD_WITHOUT_INDEXING
| NGHTTP2_HD_NEVER_INDEXING.

#[export] Instance indexing_mode_dec : EqDecision nghttp2_hd_indexing_mode.
Proof. solve_decision. Defined.

Definition search_hd_table (c : nghttp2_hd_context) (n : nghttp2_nv) (token : Z) (mode : nghttp2_hd_indexing_mode)
    (map : nghttp2_hd_map) (hash : Z) : option search_result :=
  let name_only := bool_decide (mode = NGHTTP2_HD_NEVER_INDEXING) in
  f ← hd_map_find map n token hash name_only;
  let '(ent, exact_match) := f in
  if negb exact_match && (0 <=? token) && (token <=? NGHTTP2_TOKEN_WWW_AUTHENTICATE)
  then search_static_table n token name_only
  else
    match ent with
    | None => Some (Found (-1) false)
    | Some ent => Some (Found (u32 (next_seq c - 1 - ent_seq ent + NGHTTP2_STATIC_TABLE_LENGTH)) exact_match)
    end.
