(* ===== verification/HdTableSpec.v ===== *)
(** * The header tables as lists

    The ring buffer, the hash map and the sizes of a context all describe one list of
    entries, the newest first ([ctx_ok]).  The operations are described by what they
    do to that list; the names and values of its entries are the shared strings that
    the table refers to. *)

From stdpp Require Import gmap list.
From S2P Require Import Prelude CLib NgBuf HpackInt Rcbuf HdStatic HdTable.

Abbreviation entry := nghttp2_hd_entry.

(** ** The ring buffer *)

Record ring_ok (r : nghttp2_hd_ringbuf) (l : list entry) : Prop := {
  ring_size : exists k, 0 <= k <= 30 /\ Z.of_nat (length (buffer r)) = 2 ^ k /\ mask r = 2 ^ k - 1;
  ring_first : 0 <= first r < 2 ^ 32;
  ring_len : rlen r = Z.of_nat (length l);
  ring_fits : (length l <= length (buffer r))%nat;
  ring_slots : forall i e, l !! i = Some e -> buffer r !! slot r (Z.of_nat i) = Some (Some e)
}.

Lemma u32_land a k : 0 <= k <= 32 -> Z.land (u32 a) (2 ^ k - 1) = a mod 2 ^ k.
Proof.
  intros Hk. replace (2 ^ k - 1) with (Z.ones k) by (rewrite Z.ones_equiv; lia).
  rewrite Z.land_ones by lia. unfold u32. apply Z.mod_mod_divide.
  exists (2 ^ (32 - k)). rewrite <- Z.pow_add_r by lia. f_equal. lia.
Qed.

Lemma slot_mod r l k idx : ring_ok r l -> 0 <= k <= 30 -> mask r = 2 ^ k - 1 -> slot r idx = Z.to_nat ((first r + idx) mod 2 ^ k).
Proof. intros _ Hk Hm. unfold slot. by rewrite Hm, u32_land by lia. Qed.

Lemma ring_get r l i : ring_ok r l -> hd_ringbuf_get r (Z.of_nat i) = l !! i.
Proof.
  intros H. unfold hd_ringbuf_get. rewrite (ring_len _ _ H). destruct (Z.ltb_spec (Z.of_nat i) (Z.of_nat (length l))); cbn.
  - destruct (lookup_lt_is_Some_2 l i) as [e E]; [lia|]. rewrite (ring_slots _ _ H _ _ E), E. done.
  - symmetry. apply lookup_ge_None. lia.
Qed.

Lemma ring_entries_spec r l n : ring_ok r l -> forall i, (i + n <= length l)%nat ->
  ring_entries n r (Z.of_nat i) = Some (take n (drop i l)).
Proof.
  intros H. induction n as [|n IH]; intros i Hi; [done|]. cbn.
  rewrite (ring_get r l i H). destruct (lookup_lt_is_Some_2 l i) as [e E]; [lia|]. rewrite E. cbn.
  replace (Z.of_nat i + 1) with (Z.of_nat (S i)) by lia. rewrite IH by lia. cbn. by rewrite (drop_S l e i E).
Qed.

Lemma ring_all r l : ring_ok r l -> ring_entries (Z.to_nat (rlen r)) r 0 = Some l.
Proof.
  intros H. rewrite (ring_len _ _ H), Nat2Z.id. change 0 with (Z.of_nat 0).
  rewrite (ring_entries_spec r l) by (done || lia). rewrite drop_0. f_equal. by apply take_ge.
Qed.

Lemma size_loop_spec n : forall fuel k, 0 <= k -> n <= 2 ^ 30 -> 2 ^ k < 2 * n \/ k = 0 -> 31 - k < Z.of_nat fuel -> k <= 30 ->
  exists j, size_loop fuel (2 ^ k) n = Some (2 ^ j) /\ k <= j <= 30 /\ n <= 2 ^ j.
Proof.
  intros fuel. induction fuel as [|fuel IH]; intros k Hk Hn Hlt Hf Hk30; [lia|]. cbn.
  destruct (Z.ltb_spec (2 ^ k) n) as [Hlt'|]; [|exists k; split; [done|lia]].
  assert (Hk' : k < 30) by (apply (Z.pow_lt_mono_r_iff 2); lia).
  rewrite Z.shiftl_mul_pow2, u32_small by (pose proof (Z.pow_lt_mono_r 2 k 30); lia).
  replace (2 ^ k * 2 ^ 1) with (2 ^ (k + 1)) by (rewrite Z.pow_add_r; lia).
  destruct (IH (k + 1)) as (j & E & Hj); [lia|done| |lia|lia|].
  - left. rewrite Z.pow_add_r by lia. lia.
  - exists j. split; [done|lia].
Qed.

Lemma size_loop_start n : n <= 2 ^ 30 -> exists j, size_loop size_fuel 1 n = Some (2 ^ j) /\ 0 <= j <= 30 /\ n <= 2 ^ j.
Proof. intros Hn. apply (size_loop_spec n size_fuel 0); [lia|done|by right|unfold size_fuel; lia|lia]. Qed.

Lemma ring_pop r l e : ring_ok r (l ++ [e]) -> exists r', hd_ringbuf_pop_back r = Some r' /\ ring_ok r' l.
Proof.
  intros [H1 H2 H3 H4 H5]. unfold hd_ringbuf_pop_back. rewrite H3, length_app. cbn.
  rewrite (proj2 (Z.ltb_lt _ _)) by lia. eexists. split; [done|]. rewrite length_app in H4. cbn in H4.
  constructor; cbn [buffer mask first rlen]; [done|done|lia|lia|].
  intros i x E. apply (H5 i x). by apply lookup_app_l_Some.
Qed.

Section Alloc.
Context (malloc_ok : nat -> bool).

Lemma ring_reserve r l n h : ring_ok r l -> n = Z.of_nat (length l) + 1 -> n <= 2 ^ 30 ->
  exists rv r' h', hd_ringbuf_reserve malloc_ok r n h = Some (rv, r', h') /\ ring_ok r' l /\
    refs h' = refs h /\ live (hmem h') = live (hmem h) /\ (requests (hmem h) <= requests (hmem h'))%nat /\
    (rv = 0 /\ n <= Z.of_nat (length (buffer r')) \/
     rv = NGHTTP2_ERR_NOMEM /\ r' = r /\ exists i, (requests (hmem h) <= i < requests (hmem h'))%nat /\ malloc_ok i = false).
Proof.
  intros H Hn Hn30. unfold hd_ringbuf_reserve. destruct (ring_size _ _ H) as (k & Hk & Hb & Hm).
  pose proof (Z.pow_le_mono_r 2 k 30). assert (0 < 2 ^ k) by (apply Z.pow_pos_nonneg; lia).
  rewrite Hm, u32_small by lia. replace (2 ^ k - 1 + 1) with (2 ^ k) by lia.
  destruct (Z.leb_spec n (2 ^ k)) as [Hle|Hgt].
  { exists 0, r, h. split; [done|]. split; [done|]. split; [done|]. split; [done|]. split; [done|]. left. lia. }
  destruct (size_loop_start n Hn30) as (j & -> & Hj & Hnj). cbn [mbind option_bind].
  unfold block_new, malloc. destruct (malloc_ok _) eqn:Em; cbn [negb].
  2: { exists NGHTTP2_ERR_NOMEM, r. eexists. split; [done|]. cbn. do 4 (split; [done || lia|]).
       right. split; [done|]. split; [done|]. exists (requests (hmem h)). split; [lia|done]. }
  rewrite (ring_all r l H). cbn [mbind option_bind]. rewrite (ring_len _ _ H).
  rewrite (proj2 (Z.ltb_ge _ _)) by lia. do 3 eexists. split; [done|].
  assert (El : length (map Some l ++ replicate (Z.to_nat (2 ^ j - Z.of_nat (length l))) None) = Z.to_nat (2 ^ j)).
  { rewrite length_app, length_map, length_replicate. lia. }
  split; [|cbn; split; [done|split; [lia|split; [lia|left; lia]]]].
  constructor; cbn [buffer mask first rlen].
  - exists j. split; [done|]. split; [lia|done].
  - lia.
  - done.
  - lia.
  - intros i e E. pose proof (lookup_lt_Some _ _ _ E). unfold slot. cbn [mask first].
    rewrite u32_land by lia. rewrite Z.add_0_l, Z.mod_small by lia. rewrite Nat2Z.id.
    rewrite lookup_app_l by (by rewrite length_map). by rewrite list_lookup_fmap, E.
Qed.

Lemma ring_push r l e h : ring_ok r l -> Z.of_nat (length l) + 1 <= 2 ^ 30 ->
  exists rv r' h', hd_ringbuf_push_front malloc_ok r e h = Some (rv, r', h') /\
    refs h' = refs h /\ live (hmem h') = live (hmem h) /\ (requests (hmem h) <= requests (hmem h'))%nat /\
    (rv = 0 /\ ring_ok r' (e :: l) \/
     rv = NGHTTP2_ERR_NOMEM /\ r' = r /\ exists i, (requests (hmem h) <= i < requests (hmem h'))%nat /\ malloc_ok i = false).
Proof.
  intros H Hl. unfold hd_ringbuf_push_front. rewrite (ring_len _ _ H), u32_small by lia.
  destruct (ring_reserve r l _ h H eq_refl Hl) as (rv & r1 & h1 & -> & H1 & Hr & Hlv & Hq & [(-> & Hroom)|(-> & -> & Hm)]); cbn [mbind option_bind].
  2: { exists NGHTTP2_ERR_NOMEM, r, h1. split; [done|]. split; [done|]. split; [done|]. split; [done|]. by right. }
  cbn [negb Z.eqb]. destruct (ring_size _ _ H1) as (k & Hk & Hb & Hm). pose proof (Z.pow_le_mono_r 2 k 30).
  assert (0 < 2 ^ k) by (apply Z.pow_pos_nonneg; lia). pose proof (Z.mod_pos_bound (first r1 - 1) (2 ^ k)).
  assert (Ei : Z.land (u32 (first r1 - 1)) (mask r1) = (first r1 - 1) mod 2 ^ k) by (rewrite Hm; apply u32_land; lia).
  rewrite Ei. rewrite (proj2 (Nat.ltb_lt _ _)) by lia. do 3 eexists. split; [done|]. split; [done|]. split; [done|].
  split; [done|]. left. split; [done|]. constructor; cbn [buffer mask first rlen].
  - exists k. rewrite length_insert. done.
  - apply u32_range.
  - rewrite (ring_len _ _ H1), u32_small by lia. cbn. lia.
  - rewrite length_insert. cbn. lia.
  - intros i x E. unfold slot. cbn [mask first]. rewrite Hm, u32_land by lia.
    replace ((u32 (first r1 - 1) + Z.of_nat i) mod 2 ^ k) with ((first r1 - 1 + Z.of_nat i) mod 2 ^ k).
    2: { rewrite <- (Zplus_mod_idemp_l (u32 _)), <- (Zplus_mod_idemp_l (first r1 - 1)). f_equal. f_equal.
         unfold u32. symmetry. apply Z.mod_mod_divide. exists (2 ^ (32 - k)).
         rewrite <- Z.pow_add_r by lia. f_equal. lia. }
    destruct i as [|i]; cbn in E.
    + injection E as ->. rewrite Z.add_0_r. apply list_lookup_insert_eq. lia.
    + replace (first r1 - 1 + Z.of_nat (S i)) with (first r1 + Z.of_nat i) by lia.
      pose proof (lookup_lt_Some _ _ _ E). pose proof (Z.mod_pos_bound (first r1 + Z.of_nat i) (2 ^ k)).
      rewrite list_lookup_insert_ne; [by rewrite <- (slot_mod r1 l k _ H1 Hk Hm), (ring_slots _ _ H1 _ _ E)|].
      intros Heq. assert (Hmod : (first r1 - 1) mod 2 ^ k = (first r1 + Z.of_nat i) mod 2 ^ k) by lia.
      assert (Hd : (first r1 + Z.of_nat i - (first r1 - 1)) mod 2 ^ k = 0).
      { rewrite Zminus_mod, Hmod, Z.sub_diag. apply Z.mod_0_l. lia. }
      replace (first r1 + Z.of_nat i - (first r1 - 1)) with (Z.of_nat i + 1) in Hd by lia.
      rewrite Z.mod_small in Hd; lia.
Qed.
End Alloc.

(** ** The hash map *)

Definition in_bucket (j : nat) (e : entry) : Prop := map_index (ent_hash e) = j.

#[export] Instance in_bucket_dec j e : Decision (in_bucket j e).
Proof. unfold in_bucket. apply _. Defined.

Definition map_ok (m : nghttp2_hd_map) (l : list entry) : Prop :=
  forall j, (j < 128)%nat -> m !! j = Some (filter (in_bucket j) l).

Lemma map_index_range hash : (map_index hash < 128)%nat.
Proof.
  unfold map_index. change (HD_MAP_SIZE - 1) with (Z.ones 7). rewrite Z.land_ones by lia.
  pose proof (Z.mod_pos_bound hash (2 ^ 7)). lia.
Qed.

Lemma map_ok_init : map_ok hd_map_init [].
Proof. intros j Hj. unfold hd_map_init. apply lookup_replicate. by split. Qed.

Lemma map_lookup m l hash : map_ok m l -> m !! map_index hash = Some (filter (in_bucket (map_index hash)) l).
Proof. intros H. apply H, map_index_range. Qed.

Lemma map_insert_spec m l e : map_ok m l -> exists m', hd_map_insert m e = Some m' /\ map_ok m' (e :: l).
Proof.
  intros H. unfold hd_map_insert. rewrite (map_lookup m l) by done. cbn [mbind option_bind]. eexists. split; [done|].
  intros j Hj. destruct (decide (map_index (ent_hash e) = j)) as [<-|Hne].
  - rewrite list_lookup_insert_eq; [by rewrite filter_cons_True|]. eapply lookup_lt_Some. by apply (map_lookup m l).
  - rewrite list_lookup_insert_ne by done. rewrite filter_cons_False by done. by apply H.
Qed.

Lemma remove_last l e : ent_addr e ∉ ent_addr <$> l -> remove_from_chain (l ++ [e]) (ent_addr e) = l.
Proof.
  induction l as [|x l IH]; cbn; [by rewrite Nat.eqb_refl|]. intros [Hne Hn]%not_elem_of_cons.
  rewrite (proj2 (Nat.eqb_neq _ _)) by done. by rewrite IH.
Qed.

Lemma map_remove_spec m l e : map_ok m (l ++ [e]) -> NoDup (ent_addr <$> l ++ [e]) ->
  exists m', hd_map_remove m e = Some m' /\ map_ok m' l.
Proof.
  intros H Hnd. rewrite fmap_app in Hnd. apply NoDup_app in Hnd as (_ & Hn & _).
  unfold hd_map_remove. rewrite (map_lookup m (l ++ [e])) by done. cbn [mbind option_bind]. eexists. split; [done|].
  intros j Hj. destruct (decide (map_index (ent_hash e) = j)) as [<-|Hne].
  - rewrite list_lookup_insert_eq by (eapply lookup_lt_Some; by apply (map_lookup m (l ++ [e]))).
    rewrite filter_app, filter_cons_True by done. rewrite remove_last; [done|].
    intros (x & E & Hx%list_elem_of_filter)%list_elem_of_fmap. apply (Hn (ent_addr e)).
    + rewrite E. apply list_elem_of_fmap. exists x. by destruct Hx.
    + cbn. apply list_elem_of_singleton. done.
  - rewrite list_lookup_insert_ne by done. rewrite H by done. by rewrite filter_app, filter_cons_False, filter_nil, app_nil_r by done.
Qed.

(** ** Sizes *)

(** A block that holds its string. *)
Definition holds (r : nghttp2_rcbuf) : Prop := (len r <= length (base r))%nat.

(** A field whose room does not wrap around. *)
Definition small (n : nghttp2_hd_nv) : Prop :=
  holds (nv_name n) /\ holds (nv_value n) /\
  32 + Z.of_nat (len (nv_name n)) + Z.of_nat (len (nv_value n)) <= 2 ^ 30.

Fixpoint tsize (l : list entry) : Z :=
  match l with [] => 0 | e :: l => room_of (ent_nv e) + tsize l end.

(** The newest entries that fit into [max]. *)
Fixpoint keep (max : Z) (l : list entry) : list entry :=
  match l with
  | [] => []
  | e :: l => if room_of (ent_nv e) <=? max then e :: keep (max - room_of (ent_nv e)) l else []
  end.

Lemma room_pos n : 0 <= room_of n.
Proof. unfold room_of, entry_room. apply u32_range. Qed.

Lemma room_small n : small n -> 32 <= room_of n <= 2 ^ 30.
Proof. unfold small, room_of, entry_room, NGHTTP2_HD_ENTRY_OVERHEAD. intros (_ & _ & H). rewrite u32_small; lia. Qed.

Lemma tsize_nonneg l : 0 <= tsize l.
Proof. induction l as [|e l IH]; cbn; [lia|]. pose proof (room_pos (ent_nv e)). lia. Qed.

Lemma tsize_app l l' : tsize (l ++ l') = tsize l + tsize l'.
Proof. induction l as [|e l IH]; cbn; [done|]. rewrite IH. lia. Qed.

Lemma tsize_length l : Forall (fun e => small (ent_nv e)) l -> 32 * Z.of_nat (length l) <= tsize l.
Proof. induction 1 as [|e l He _ IH]; cbn; [lia|]. apply room_small in He. lia. Qed.

Lemma keep_all m l : tsize l <= m -> keep m l = l.
Proof.
  revert m. induction l as [|e l IH]; intros m H; cbn in *; [done|]. pose proof (tsize_nonneg l).
  rewrite (proj2 (Z.leb_le _ _)) by lia. by rewrite IH by lia.
Qed.

Lemma keep_snoc m l e : m < tsize (l ++ [e]) -> keep m (l ++ [e]) = keep m l.
Proof.
  revert m. induction l as [|x l IH]; intros m H; cbn in *.
  - rewrite (proj2 (Z.leb_gt _ _)) by lia. done.
  - destruct (room_of (ent_nv x) <=? m); [|done]. rewrite IH by lia. done.
Qed.

Lemma keep_neg m l : Forall (fun e => small (ent_nv e)) l -> m < 32 -> keep m l = [].
Proof. intros [|e l' He]; intros Hm; cbn; [done|]. apply room_small in He. by rewrite (proj2 (Z.leb_gt _ _)) by lia. Qed.

Lemma keep_prefix m l : exists l', l = keep m l ++ l'.
Proof.
  revert m. induction l as [|e l IH]; intros m; cbn; [by exists []|].
  destruct (_ <=? _); [|by eexists]. destruct (IH (m - room_of (ent_nv e))) as [l' E]. exists l'. cbn. by rewrite <- E.
Qed.

Lemma keep_tsize m l : 0 <= m -> tsize (keep m l) <= m.
Proof.
  revert m. induction l as [|e l IH]; intros m Hm; cbn; [lia|]. destruct (Z.leb_spec (room_of (ent_nv e)) m); cbn; [|lia].
  specialize (IH (m - room_of (ent_nv e))). lia.
Qed.

(** ** The context *)

(** The references of the entries. *)
Definition ptrs (l : list entry) : list nghttp2_rcbuf := l ≫= fun e => [nv_name (ent_nv e); nv_value (ent_nv e)].

Record ctx_ok (c : nghttp2_hd_context) (map : option nghttp2_hd_map) (h : heap) (l : list entry) (rest : list nghttp2_rcbuf) : Prop := {
  ctx_ring : ring_ok (hd_table c) l;
  ctx_bufsize : hd_table_bufsize c = tsize l;
  ctx_max : 0 <= hd_table_bufsize_max c <= 2 ^ 30;
  ctx_tsize : tsize l <= 2 ^ 30;
  ctx_next : 0 <= next_seq c < 2 ^ 32;
  ctx_seq : forall i e, l !! i = Some e -> ent_seq e = u32 (next_seq c - 1 - Z.of_nat i);
  ctx_small : Forall (fun e => small (ent_nv e)) l;
  ctx_addrs : NoDup (ent_addr <$> l);
  ctx_old : Forall (fun e => (ent_addr e < requests (hmem h))%nat) l;
  ctx_map : match map with None => True | Some m => map_ok m l end;
  ctx_owned : owned h (ptrs l ++ rest)
}.

(** What an eviction does not change. *)
Definition kept (c c' : nghttp2_hd_context) : Prop :=
  hd_table_bufsize_max c' = hd_table_bufsize_max c /\ next_seq c' = next_seq c /\ bad c' = bad c.

(** Blocks that are neither strings nor entries. *)
Definition blocks_besides (h : heap) (l : list entry) : Z := spare h - Z.of_nat (length l).

Lemma kept_refl c : kept c c.
Proof. done. Qed.

Lemma kept_trans c1 c2 c3 : kept c1 c2 -> kept c2 c3 -> kept c1 c3.
Proof. unfold kept. intros (-> & -> & ->) (-> & -> & ->). done. Qed.

Lemma entry_free_spec e h L : owned h (nv_name (ent_nv e) :: nv_value (ent_nv e) :: L) ->
  exists h', nghttp2_hd_entry_free e h = Some h' /\ owned h' L /\ spare h' = spare h /\ requests (hmem h') = requests (hmem h).
Proof.
  intros Ho. unfold nghttp2_hd_entry_free. rewrite Permutation_swap in Ho.
  destruct (decref_spec _ _ _ Ho) as (h1 & -> & Ho1 & Hs1 & Hr1). cbn [mbind option_bind].
  destruct (decref_spec _ _ _ Ho1) as (h2 & -> & Ho2 & Hs2 & Hr2). exists h2. split; [done|]. split; [done|]. split; congruence.
Qed.

Lemma ptrs_cons e l : ptrs (e :: l) = nv_name (ent_nv e) :: nv_value (ent_nv e) :: ptrs l.
Proof. done. Qed.

Lemma ptrs_snoc l e rest : ptrs (l ++ [e]) ++ rest ≡ₚ nv_name (ent_nv e) :: nv_value (ent_nv e) :: ptrs l ++ rest.
Proof. unfold ptrs at 1. rewrite bind_app. cbn [mbind list_bind app]. fold (ptrs l). solve_Permutation. Qed.

Lemma owned_mem h m l : owned h l -> (requests (hmem h) <= requests m)%nat -> owned (Heap m (refs h)) l.
Proof. intros [H1 H2] Hr. split; cbn [refs hmem]; [done|]. intros a Ha%H2. lia. Qed.

Lemma evict_spec c map h l e rest : ctx_ok c map h (l ++ [e]) rest ->
  exists c' map' h', evict c map h = Some (c', map', h') /\ ctx_ok c' map' h' l rest /\ kept c c' /\
    (map' = None <-> map = None) /\ blocks_besides h' l = blocks_besides h (l ++ [e]) /\ requests (hmem h') = requests (hmem h).
Proof.
  intros H. unfold evict. rewrite (ring_len _ _ (ctx_ring _ _ _ _ _ H)), length_app. cbn [length].
  replace (Z.of_nat (length l + 1) - 1) with (Z.of_nat (length l)) by lia.
  rewrite (ring_get _ _ _ (ctx_ring _ _ _ _ _ H)), list_lookup_middle by done. cbn [mbind option_bind].
  destruct (ring_pop _ _ _ (ctx_ring _ _ _ _ _ H)) as (r & E & Hr). cbn [hd_table set_bufsize]. rewrite E. cbn [mbind option_bind].
  assert (Hmap : exists map', in_map hd_map_remove map e = Some map' /\ (map' = None <-> map = None) /\
    match map' with None => True | Some m => map_ok m l end).
  { unfold in_map. pose proof (ctx_map _ _ _ _ _ H) as Hm. destruct map as [m|]; [|by exists None].
    destruct (map_remove_spec m l e Hm (ctx_addrs _ _ _ _ _ H)) as (m' & -> & Hm'). exists (Some m'). done. }
  destruct Hmap as (map' & -> & Hnone & Hm'). cbn [mbind option_bind].
  pose proof (ctx_owned _ _ _ _ _ H) as Hown. rewrite ptrs_snoc in Hown.
  destruct (entry_free_spec e h _ Hown) as (h' & -> & Ho & Hs & Hq). cbn [mbind option_bind].
  do 3 eexists. split; [done|].
  pose proof (ctx_tsize _ _ _ _ _ H) as Ht. rewrite tsize_app in Ht. cbn in Ht. pose proof (tsize_nonneg l).
  pose proof (room_pos (ent_nv e)). destruct H as [_ Hb Hmax _ Hnx Hseq Hsm Had Hold _ _].
  split; [|split; [done|split; [done|split]]].
  - constructor; cbn [hd_table set_table set_bufsize hd_table_bufsize hd_table_bufsize_max next_seq hmem block_free free requests refs].
    + done.
    + rewrite Hb, tsize_app. cbn. rewrite u32_small; lia.
    + done.
    + lia.
    + done.
    + intros i x Ex. apply Hseq. by apply lookup_app_l_Some.
    + by apply Forall_app in Hsm as [Hsm _].
    + rewrite fmap_app in Had. by apply NoDup_app in Had as (Had & _).
    + rewrite Hq. by apply Forall_app in Hold as [Hold _].
    + done.
    + by apply owned_mem.
  - unfold blocks_besides, spare in *. cbn [hmem block_free free live refs]. rewrite length_app. cbn [length]. lia.
  - done.
Qed.

(** The entries that stay when [room] more bytes are needed. *)
Lemma evict_loop_spec room rest : 0 <= room <= 2 ^ 30 -> forall l fuel c map h,
  ctx_ok c map h l rest -> (length l <= fuel)%nat ->
  exists c' map' h', evict_loop fuel room c map h = Some (c', map', h') /\
    ctx_ok c' map' h' (keep (hd_table_bufsize_max c - room) l) rest /\ kept c c' /\ (map' = None <-> map = None) /\
    blocks_besides h' (keep (hd_table_bufsize_max c - room) l) = blocks_besides h l /\ requests (hmem h') = requests (hmem h).
Proof.
  intros Hroom l. induction l as [|e l IH] using rev_ind; intros fuel c map h H Hf.
  { assert (E : evict_loop fuel room c map h = Some (c, map, h)).
    { destruct fuel; cbn; by rewrite (ring_len _ _ (ctx_ring _ _ _ _ _ H)), andb_false_r. }
    exists c, map, h. split; [done|]. split; [done|]. split; [done|]. done. }
  pose proof (tsize_nonneg (l ++ [e])). pose proof (ctx_tsize _ _ _ _ _ H).
  assert (Ec : (hd_table_bufsize_max c <? u32 (hd_table_bufsize c + room)) && (0 <? rlen (hd_table c)) =
    (hd_table_bufsize_max c - room <? tsize (l ++ [e]))).
  { rewrite (ring_len _ _ (ctx_ring _ _ _ _ _ H)), (ctx_bufsize _ _ _ _ _ H), u32_small by lia. rewrite length_app. cbn [length].
    rewrite (proj2 (Z.ltb_lt 0 _)), andb_true_r by lia. apply eq_true_iff_eq. rewrite !Z.ltb_lt. lia. }
  destruct (Z.ltb_spec (hd_table_bufsize_max c - room) (tsize (l ++ [e]))) as [Hlt|Hge].
  - rewrite keep_snoc by done. rewrite length_app in Hf. cbn in Hf. destruct fuel as [|fuel]; [lia|].
    cbn [evict_loop]. rewrite Ec. destruct (evict_spec _ _ _ _ _ _ H) as (c1 & map1 & h1 & -> & Hok1 & Hk & Hn & Hb & Hq).
    cbn [mbind option_bind]. destruct (IH fuel c1 map1 h1 Hok1) as (c2 & map2 & h2 & E2 & Hok2 & Hk2 & Hn2 & Hb2 & Hq2); [lia|].
    rewrite (proj1 Hk) in Hok2, Hb2. exists c2, map2, h2. split; [done|]. split; [done|]. split; [by apply kept_trans with c1|].
    split; [by rewrite Hn2|]. split; [by rewrite Hb2|by rewrite Hq2].
  - rewrite keep_all by lia. exists c, map, h. split; [destruct fuel; cbn; by rewrite Ec|]. split; [done|]. done.
Qed.

Lemma shrink_spec c map h l rest : ctx_ok c map h l rest ->
  exists c' map' h', hd_context_shrink_table_size c map h = Some (c', map', h') /\
    ctx_ok c' map' h' (keep (hd_table_bufsize_max c) l) rest /\ kept c c' /\ (map' = None <-> map = None) /\
    blocks_besides h' (keep (hd_table_bufsize_max c) l) = blocks_besides h l /\ requests (hmem h') = requests (hmem h).
Proof.
  intros H. unfold hd_context_shrink_table_size. rewrite <- (Z.sub_0_r (hd_table_bufsize_max c)).
  apply evict_loop_spec; [lia|done|]. rewrite (ring_len _ _ (ctx_ring _ _ _ _ _ H)). lia.
Qed.

Lemma u32_shift a b : u32 (u32 a + b) = u32 (a + b).
Proof. unfold u32. apply Zplus_mod_idemp_l. Qed.

Lemma entry_init_spec n h L : owned h L -> nv_name n ∈ L -> nv_value n ∈ L ->
  exists h', nghttp2_hd_entry_init n h = Some h' /\ owned h' (nv_name n :: nv_value n :: L) /\ spare h' = spare h /\ hmem h' = hmem h.
Proof.
  intros Ho Hn Hv. unfold nghttp2_hd_entry_init. destruct (incref_spec h L _ Ho Hn) as (h1 & -> & Ho1 & Hs1 & Hm1). cbn [mbind option_bind].
  destruct (incref_spec h1 _ (nv_value n) Ho1) as (h2 & -> & Ho2 & Hs2 & Hm2); [by constructor|].
  exists h2. split; [done|]. split; [|split; congruence]. eapply owned_perm; [apply perm_swap|done].
Qed.

Lemma ctx_heap c map h h' l rest rest' : ctx_ok c map h l rest -> owned h' (ptrs l ++ rest') ->
  (requests (hmem h) <= requests (hmem h'))%nat -> ctx_ok c map h' l rest'.
Proof.
  intros [] Ho Hr. constructor; [done..| |done|done]. eapply Forall_impl; [done|]. cbn. intros x Hx. lia.
Qed.

(** The context with a new entry in front. *)
Lemma ctx_push c map h l rest h2 r e :
  ctx_ok c map h l rest -> ring_ok r (e :: l) -> small (ent_nv e) -> tsize l + room_of (ent_nv e) <= hd_table_bufsize_max c ->
  ent_seq e = next_seq c -> ent_addr e ∉ ent_addr <$> l -> (ent_addr e < requests (hmem h2))%nat ->
  (requests (hmem h) <= requests (hmem h2))%nat -> owned h2 (ptrs (e :: l) ++ rest) ->
  exists map', in_map hd_map_insert map e = Some map' /\ (map' = None <-> map = None) /\
    ctx_ok (set_bufsize (u32 (hd_table_bufsize c + room_of (ent_nv e))) (set_next_seq (u32 (next_seq c + 1)) (set_table r c))) map' h2 (e :: l) rest.
Proof.
  intros H Hr Hsm Ht Hseq Ha Hao Hq Ho. pose proof (tsize_nonneg l). pose proof (room_pos (ent_nv e)).
  assert (Hmap : exists map', in_map hd_map_insert map e = Some map' /\ (map' = None <-> map = None) /\
    match map' with None => True | Some m => map_ok m (e :: l) end).
  { unfold in_map. pose proof (ctx_map _ _ _ _ _ H) as Hm. destruct map as [m|]; [|by exists None].
    destruct (map_insert_spec m l e Hm) as (m' & -> & Hm'). by exists (Some m'). }
  destruct Hmap as (map' & E & Hn & Hm'). exists map'. split; [done|]. split; [done|].
  destruct H as [_ Hb Hmax Hts Hnx Hsq Hs Had Hold _ _].
  constructor; cbn [hd_table set_table set_bufsize set_next_seq hd_table_bufsize hd_table_bufsize_max next_seq]; [done| |done| | | | | | |done|done].
  - cbn [tsize]. rewrite Hb, u32_small; lia.
  - cbn [tsize]. lia.
  - apply u32_range.
  - intros [|i] x Ex; cbn in Ex.
    + injection Ex as <-. rewrite Hseq. replace (u32 (next_seq c + 1) - 1 - Z.of_nat 0) with (u32 (next_seq c + 1) + (- 1)) by lia.
      rewrite u32_shift, u32_small; lia.
    + rewrite (Hsq i x Ex). replace (u32 (next_seq c + 1) - 1 - Z.of_nat (S i)) with (u32 (next_seq c + 1) + (- 2 - Z.of_nat i)) by lia.
      rewrite u32_shift. f_equal. lia.
  - by constructor.
  - cbn. by apply NoDup_cons.
  - constructor; [done|]. eapply Forall_impl; [exact Hold|]. cbn. intros x Hx. lia.
Qed.

Section AddSpec.
Context (malloc_ok : nat -> bool).

(** The table after an insertion. *)
Definition added (max : Z) (e : entry) (l : list entry) : list entry := keep max (e :: l).

Definition refused (h h' : heap) : Prop := exists i, (requests (hmem h) <= i < requests (hmem h'))%nat /\ malloc_ok i = false.

Lemma table_add_spec c map h l rest n hash :
  ctx_ok c map h l rest -> small n -> nv_name n ∈ rest -> nv_value n ∈ rest ->
  exists rv c' map' h' l', add_hd_table_incremental malloc_ok c n map hash h = Some (rv, c', map', h') /\
    ctx_ok c' map' h' l' rest /\ hd_table_bufsize_max c' = hd_table_bufsize_max c /\ bad c' = bad c /\ (map' = None <-> map = None) /\
    blocks_besides h' l' = blocks_besides h l /\ (requests (hmem h) <= requests (hmem h'))%nat /\
    (rv = 0 /\ (exists a, l' = added (hd_table_bufsize_max c) (Entry n (next_seq c) hash a) l) \/
     rv = NGHTTP2_ERR_NOMEM /\ refused h h' /\ l' = keep (hd_table_bufsize_max c - room_of n) l).
Proof.
  intros H Hsm Hnm Hvl. pose proof (room_small n Hsm) as Hroom. unfold add_hd_table_incremental.
  destruct (evict_loop_spec (room_of n) rest) with (l := l) (fuel := Z.to_nat (rlen (hd_table c))) (c := c) (map := map) (h := h)
    as (c1 & map1 & h1 & -> & H1 & Hk & Hn1 & Hb1 & Hq1); [lia|done|rewrite (ring_len _ _ (ctx_ring _ _ _ _ _ H)); lia|].
  cbn [mbind option_bind]. destruct Hk as (Em & En & Eb). rewrite Em. set (l1 := keep (hd_table_bufsize_max c - room_of n) l) in *.
  destruct (Z.ltb_spec (hd_table_bufsize_max c) (room_of n)) as [Hlt|Hge].
  { exists 0, c1, map1, h1, l1. do 6 (split; [done || congruence || lia|]). split; [lia|]. left. split; [done|]. exists 0%nat.
    unfold added. cbn [keep ent_nv]. rewrite (proj2 (Z.leb_gt _ _)) by lia. apply keep_neg; [by apply (ctx_small _ _ _ _ _ H)|lia]. }
  assert (Hadd : forall e, ent_nv e = n -> e :: l1 = added (hd_table_bufsize_max c) e l).
  { intros e He. unfold added. cbn [keep]. rewrite He. by rewrite (proj2 (Z.leb_le _ _)) by lia. }
  unfold block_new, malloc. destruct (malloc_ok (requests (hmem h1))) eqn:Ea; cbn [negb].
  2: { exists NGHTTP2_ERR_NOMEM, c1, map1. do 2 eexists. split; [done|]. split.
       { apply ctx_heap with h1 rest; [done|apply owned_mem; [apply (ctx_owned _ _ _ _ _ H1)|cbn; lia]|cbn; lia]. }
       do 3 (split; [done|]). split; [done|]. cbn. split; [lia|]. right. split; [done|].
       split; [|done]. exists (requests (hmem h1)). cbn. split; [lia|done]. }
  set (a := requests (hmem h1)) in *. set (h2 := Heap _ (refs h1)).
  assert (Ho2 : owned h2 (ptrs l1 ++ rest)) by (apply owned_mem; [apply (ctx_owned _ _ _ _ _ H1)|cbn; lia]).
  destruct (entry_init_spec n h2 _ Ho2) as (h3 & -> & Ho3 & Hs3 & Hm3); [apply elem_of_app; by right..|]. cbn [mbind option_bind].
  set (e := Entry n (next_seq c1) hash a).
  assert (Hl1 : Z.of_nat (length l1) + 1 <= 2 ^ 30).
  { pose proof (tsize_length l1 (ctx_small _ _ _ _ _ H1)). pose proof (ctx_tsize _ _ _ _ _ H1). lia. }
  destruct (ring_push malloc_ok (hd_table c1) l1 e h3 (ctx_ring _ _ _ _ _ H1) Hl1) as (rv & r & h4 & -> & Hr4 & Hlv4 & Hq4 & Hcase).
  cbn [mbind option_bind]. assert (Hs4 : spare h4 = spare h3) by (unfold spare; by rewrite Hr4, Hlv4).
  assert (Hq3 : requests (hmem h3) = S a) by by rewrite Hm3.
  assert (Hs2 : spare h2 = spare h1 + 1) by (unfold spare; cbn; lia).
  assert (Ho4 : owned h4 (ptrs (e :: l1) ++ rest)).
  { destruct h4 as [m4 r4]. cbn in Hr4. subst r4. cbn in Hq4. by apply owned_mem. }
  destruct Hcase as [(-> & Hring)|(-> & -> & Hno)]; cbn [negb Z.eqb].
  - destruct (ctx_push c1 map1 h1 l1 rest h4 r e) as (map' & -> & Hn' & Hctx); [done..| | | | |lia|done|].
    + change (ent_nv e) with n. rewrite Em. assert (tsize l1 <= hd_table_bufsize_max c - room_of n) by (apply keep_tsize; lia). lia.
    + done.
    + change (ent_addr e) with a. intros (x & Ex & Hx)%list_elem_of_fmap. pose proof (ctx_old _ _ _ _ _ H1) as Hold.
      rewrite Forall_forall in Hold. specialize (Hold x Hx). cbn in Hold. lia.
    + change (ent_addr e) with a. lia.
    + cbn [mbind option_bind]. exists 0. do 3 eexists. exists (e :: l1). split; [done|]. change (ent_nv e) with n in Hctx. split; [done|].
      split; [done|]. split; [done|]. split; [by rewrite Hn'|]. split; [unfold blocks_besides in *; cbn [length]; lia|].
      split; [lia|]. left. split; [done|]. exists a. rewrite Hadd by done. unfold e. by rewrite En.
  - destruct (entry_free_spec e h4 _ Ho4) as (h5 & -> & Ho5 & Hs5 & Hq5). cbn [mbind option_bind].
    exists NGHTTP2_ERR_NOMEM. do 3 eexists. exists l1. split; [done|].
    split; [|split; [done|split; [done|split; [done|]]]].
    + replace (set_table (hd_table c1) c1) with c1 by (by destruct c1). apply ctx_heap with h1 rest; [done| |cbn; lia].
      unfold block_free. apply owned_mem; [done|cbn; lia].
    + assert (Hsf : spare (block_free h5) = spare h5 - 1) by (unfold spare; cbn; lia).
      unfold blocks_besides in *. cbn [block_free free hmem requests]. split; [lia|]. split; [lia|]. right. split; [done|].
      split; [|done]. destruct Hno as (i & Hi & Hm). exists i. cbn [block_free free hmem requests]. split; [lia|done].
Qed.
End AddSpec.

(** ** Fields: what a table is to its users *)

Abbreviation field := (list char * list char)%type.

Definition field_of (n : nghttp2_hd_nv) : field := (nghttp2_rcbuf_get_buf (nv_name n), nghttp2_rcbuf_get_buf (nv_value n)).
Definition fields (l : list entry) : list field := map (fun e => field_of (ent_nv e)) l.

(** RFC 7541, section 4.1: the size of an entry. *)
Definition field_size (f : field) : Z := 32 + Z.of_nat (length (fst f)) + Z.of_nat (length (snd f)).

(** Section 4.3: the entries that are not evicted. *)
Fixpoint fit (max : Z) (l : list field) : list field :=
  match l with
  | [] => []
  | f :: l => if field_size f <=? max then f :: fit (max - field_size f) l else []
  end.

Lemma holds_length r : holds r -> length (nghttp2_rcbuf_get_buf r) = len r.
Proof. intros H. unfold nghttp2_rcbuf_get_buf. rewrite length_take. unfold holds in H. lia. Qed.

Lemma room_field n : small n -> room_of n = field_size (field_of n).
Proof.
  intros (H1 & H2 & H). unfold room_of, entry_room, NGHTTP2_HD_ENTRY_OVERHEAD, field_size, field_of. cbn [fst snd].
  rewrite !holds_length by done. apply u32_small. lia.
Qed.

Lemma fields_keep m l : Forall (fun e => small (ent_nv e)) l -> fields (keep m l) = fit m (fields l).
Proof.
  intros H. revert m. induction H as [|e l He _ IH]; intros m; cbn; [done|]. rewrite <- room_field by done.
  destruct (_ <=? _); [|done]. cbn. by rewrite IH.
Qed.

(** The static table as fields; section 2.3.3: the index of a field, from 0 on. *)
Definition static_fields : list field := map (fun e => (s_name e, s_value e)) static_table.
Definition entry_at (dyn : list field) (idx : Z) : option field :=
  if idx <? 0 then None
  else if idx <? 61 then static_fields !! Z.to_nat idx
  else dyn !! Z.to_nat (idx - 61).

Lemma static_lookup i : 0 <= i < 61 -> exists e, static_entry i = Some e.
Proof.
  intros Hi. unfold static_entry. rewrite (proj2 (Z.ltb_ge _ _)) by lia. apply lookup_lt_is_Some_2.
  change (length static_table) with 61%nat. lia.
Qed.

Lemma static_rcbuf_buf s : nghttp2_rcbuf_get_buf (static_rcbuf s) = s.
Proof. unfold nghttp2_rcbuf_get_buf, static_rcbuf. cbn. apply take_app_length. Qed.

Lemma table_get_spec c map h l rest idx : ctx_ok c map h l rest -> 0 <= idx < 61 + Z.of_nat (length l) ->
  exists n, nghttp2_hd_table_get c idx = Some n /\ entry_at (fields l) idx = Some (field_of n) /\
    holds (nv_name n) /\ holds (nv_value n) /\
    (addr (nv_name n) = None /\ addr (nv_value n) = None \/ nv_name n ∈ ptrs l /\ nv_value n ∈ ptrs l).
Proof.
  intros H Hi. unfold nghttp2_hd_table_get, INDEX_RANGE_VALID, get_max_index, entry_at, NGHTTP2_STATIC_TABLE_LENGTH.
  rewrite (ring_len _ _ (ctx_ring _ _ _ _ _ H)). rewrite (proj2 (Z.ltb_lt idx _)) by lia. cbn [negb].
  rewrite (proj2 (Z.ltb_ge idx 0)) by lia. destruct (Z.leb_spec 61 idx) as [Hd|Hs].
  - rewrite (proj2 (Z.ltb_ge idx 61)) by lia. destruct (lookup_lt_is_Some_2 l (Z.to_nat (idx - 61))) as [e E]; [lia|].
    pose proof (ring_get _ _ (Z.to_nat (idx - 61)) (ctx_ring _ _ _ _ _ H)) as Eg. rewrite Z2Nat.id, E in Eg by lia.
    rewrite Eg. cbn [mbind option_bind]. exists (ent_nv e).
    split; [done|]. pose proof (ctx_small _ _ _ _ _ H) as Hsm. rewrite Forall_lookup in Hsm. destruct (Hsm _ _ E) as (H1 & H2 & _).
    split; [|split; [done|split; [done|right]]].
    + unfold fields. by rewrite list_lookup_fmap, E.
    + apply list_elem_of_lookup_2 in E. unfold ptrs. rewrite !list_elem_of_bind. split; exists e; (split; [by repeat constructor|done]).
  - rewrite (proj2 (Z.ltb_lt idx 61)) by lia. destruct (static_lookup idx) as [e E]; [lia|]. rewrite E. cbn [mbind option_bind].
    eexists. split; [done|]. unfold static_entry in E. rewrite (proj2 (Z.ltb_ge _ _)) in E by lia.
    unfold static_fields. rewrite list_lookup_fmap, E. unfold field_of. cbn [nv_name nv_value fmap option_fmap option_map].
    rewrite !static_rcbuf_buf. split; [done|]. unfold holds, static_rcbuf. cbn [len base addr]. rewrite !length_app. cbn.
    split; [lia|]. split; [lia|]. by left.
Qed.

(** ** The search *)

(** The tokens of the entries are those of their names. *)
Definition tokens_ok (l : list entry) : Prop :=
  Forall (fun e => nv_token (ent_nv e) = lookup_token (fst (field_of (ent_nv e)))) l.

Lemma static_tokens i e : static_entry i = Some e -> lookup_token (s_name e) = s_token e.
Proof.
  unfold static_entry. destruct (i <? 0); [done|]. intros H.
  assert (Ha : forallb (fun e => lookup_token (s_name e) =? s_token e) static_table = true) by (vm_compute; reflexivity).
  rewrite forallb_forall in Ha. apply Z.eqb_eq, Ha. apply list_elem_of_In. by eapply list_elem_of_lookup_2.
Qed.

Lemma static_of_token n : 0 <= lookup_token n <= 60 -> exists e, static_entry (lookup_token n) = Some e /\ s_name e = n.
Proof.
  intros Ht. pose proof (lookup_token_named n) as H. unfold named in H. rewrite (proj2 (Z.eqb_neq _ _)) in H by lia.
  apply existsb_exists in H as ([t s] & Hin & H). cbn [fst snd] in H. apply andb_prop in H as [E%Z.eqb_eq En%bool_decide_eq_true].
  assert (Ha : forallb (fun ts => (60 <? fst ts) || match static_entry (fst ts) with
    Some e => bool_decide (s_name e = chars (snd ts)) | None => false end) token_names = true) by (vm_compute; reflexivity).
  rewrite forallb_forall in Ha. specialize (Ha _ Hin). cbn [fst snd] in Ha. rewrite (proj2 (Z.ltb_ge _ _)) in Ha by lia.
  rewrite E in Ha. cbn [orb] in Ha. destruct (static_entry (lookup_token n)) as [e|]; [|done].
  apply bool_decide_eq_true in Ha. exists e. split; [done|]. congruence.
Qed.

(** An entry the chain search may answer. *)
Definition name_matches (n : nghttp2_nv) (token : Z) (p : entry) : Prop :=
  nv_token (ent_nv p) = token /\ (token = -1 -> nghttp2_rcbuf_get_buf (nv_name (ent_nv p)) = name n).

Lemma name_eq_true a b : name_eq a b = true -> nghttp2_rcbuf_get_buf (nv_name a) = name b.
Proof. unfold name_eq. intros [_ H]%andb_prop. by apply bool_decide_eq_true in H. Qed.

Lemma value_eq_true a b : value_eq a b = true -> nghttp2_rcbuf_get_buf (nv_value a) = value b.
Proof. unfold value_eq. intros [_ H]%andb_prop. by apply bool_decide_eq_true in H. Qed.

Lemma find_in_chain_sound n token hash name_only chain : forall res p exact,
  (match res with None => True | Some r => name_matches n token r /\ name_only = false end) ->
  find_in_chain chain n token hash name_only res = (Some p, exact) ->
  (p ∈ chain \/ res = Some p) /\ name_matches n token p /\
  (exact = true -> nghttp2_rcbuf_get_buf (nv_value (ent_nv p)) = value n /\ name_only = false).
Proof.
  induction chain as [|q chain IH]; intros res p exact Hres; cbn [find_in_chain].
  { intros [= -> <-]. destruct Hres as [Hm _]. split; [by right|]. done. }
  set (skip := negb (token =? nv_token (ent_nv q)) || _). destruct skip eqn:Eskip.
  { intros H. destruct (IH _ _ _ Hres H) as ([Hin| ->] & Hr); (split; [|done]); [left; by constructor|by right]. }
  assert (Hm : name_matches n token q).
  { subst skip. apply orb_false_elim in Eskip as [E1 E2]. apply negb_false_iff, Z.eqb_eq in E1. split; [done|]. intros ->.
    cbn in E2. apply orb_false_elim in E2 as [_ E2]. by apply negb_false_iff, name_eq_true in E2. }
  assert (Hexact : value_eq (ent_nv q) n = true -> name_only = false -> (Some q, true) = (Some p, exact) ->
    (p ∈ q :: chain \/ res = Some p) /\ name_matches n token p /\
    (exact = true -> nghttp2_rcbuf_get_buf (nv_value (ent_nv p)) = value n /\ name_only = false)).
  { intros Hv Hn [= <- <-]. split; [left; by constructor|]. split; [done|]. intros _. split; [by apply value_eq_true|done]. }
  destruct res as [r|].
  - destruct (value_eq (ent_nv q) n) eqn:Ev; [apply Hexact; [done|apply Hres]|]. intros H.
    destruct (IH (Some r) _ _ Hres H) as ([Hin| E] & Hr); (split; [|done]); [left; by constructor|by right].
  - destruct name_only.
    { intros [= <- <-]. split; [left; by constructor|]. done. }
    destruct (value_eq (ent_nv q) n) eqn:Ev; [by apply Hexact|]. intros H.
    destruct (IH (Some q) _ _ (conj Hm eq_refl) H) as ([Hin|[= ->]] & Hr); (split; [left; by constructor|done]).
Qed.

Lemma search_static_sound v token : forall fuel i, 0 <= token <= i -> i <= 61 -> 61 < i + Z.of_nat fuel ->
  exists res, search_static fuel v token i = Some res /\
    (res = Found token false \/ exists j e, res = Found j true /\ 0 <= j <= 60 /\ static_entry j = Some e /\
       s_token e = token /\ s_value e = v).
Proof.
  induction fuel as [|fuel IH]; intros i Hi Hi61 Hf; cbn [search_static]; unfold NGHTTP2_TOKEN_WWW_AUTHENTICATE.
  { lia. }
  destruct (Z.leb_spec i 60) as [Hle|Hgt]; cbn [negb]; [|eexists; split; [done|by left]].
  destruct (static_lookup i) as [e E]; [lia|]. rewrite E. cbn [mbind option_bind].
  destruct (Z.eqb_spec (s_token e) token) as [Et|]; cbn [negb]; [|eexists; split; [done|by left]].
  case_bool_decide as Ev; [|apply IH; lia]. eexists. split; [done|]. right. exists i, e. split; [done|]. split; [lia|done].
Qed.

(** What a search answers: nothing, or the index of a field with the name, and with
    the value too if it says so. *)
Definition search_ok (l : list entry) (n : nghttp2_nv) (mode : nghttp2_hd_indexing_mode) (res : search_result) : Prop :=
  res = Found (-1) false \/
  exists idx m v, res = Found idx m /\ 0 <= idx < 61 + Z.of_nat (length l) /\ entry_at (fields l) idx = Some (name n, v) /\
    (m = true -> v = value n /\ mode <> NGHTTP2_HD_NEVER_INDEXING).

Lemma entry_at_static l i e : static_entry i = Some e -> 0 <= i <= 60 -> entry_at (fields l) i = Some (s_name e, s_value e).
Proof.
  unfold entry_at, static_entry. intros H Hi. rewrite (proj2 (Z.ltb_ge i 0)) in * by lia. rewrite (proj2 (Z.ltb_lt i 61)) by lia.
  unfold static_fields. by rewrite list_lookup_fmap, H.
Qed.

Lemma search_static_table_spec l n mode : 0 <= lookup_token (name n) <= 60 ->
  exists res, search_static_table n (lookup_token (name n)) (bool_decide (mode = NGHTTP2_HD_NEVER_INDEXING)) = Some res /\
    search_ok l n mode res.
Proof.
  intros Ht. destruct (static_of_token (name n) Ht) as (e0 & E0 & En0).
  assert (Hname : search_ok l n mode (Found (lookup_token (name n)) false)).
  { right. exists (lookup_token (name n)), false, (s_value e0). split; [done|]. split; [lia|]. split; [|done].
    rewrite (entry_at_static l _ e0) by (done || lia). by rewrite En0. }
  unfold search_static_table. case_bool_decide as Em; [by eexists|].
  destruct (search_static_sound (value n) (lookup_token (name n)) (length static_table + 1) (lookup_token (name n)))
    as (res & -> & [->|(j & e & -> & Hj & E & Et & Ev)]); [lia|lia|change (length static_table) with 61%nat; lia|by eexists|].
  eexists. split; [done|]. right. exists j, true, (s_value e). split; [done|]. split; [lia|]. split; [|by rewrite Ev].
  rewrite (entry_at_static l j e) by (done || lia). f_equal. f_equal.
  apply lookup_token_inj; rewrite (static_tokens _ _ E), Et; [done|lia].
Qed.

Lemma search_spec c m h l rest n mode hash : ctx_ok c (Some m) h l rest -> tokens_ok l ->
  exists res, search_hd_table c n (lookup_token (name n)) mode m hash = Some res /\ search_ok l n mode res.
Proof.
  intros H Htok. unfold search_hd_table, hd_map_find. rewrite (map_lookup m l) by apply (ctx_map _ _ _ _ _ H). cbn [mbind option_bind].
  set (name_only := bool_decide _). destruct (find_in_chain _ _ _ _ _ _) as [ent exact] eqn:Ef.
  destruct (negb exact && (0 <=? lookup_token (name n)) && (lookup_token (name n) <=? NGHTTP2_TOKEN_WWW_AUTHENTICATE)) eqn:Ec.
  { apply search_static_table_spec. unfold NGHTTP2_TOKEN_WWW_AUTHENTICATE in Ec. crush_hyps. lia. }
  destruct ent as [p|]; [|eexists; split; [done|by left]]. eexists. split; [done|].
  apply find_in_chain_sound in Ef as ([Hin|Hno] & (Hpt & Hpn) & Hex); [|done|done].
  apply list_elem_of_filter in Hin as [_ Hin]. apply list_elem_of_lookup_1 in Hin as [i E]. pose proof (lookup_lt_Some _ _ _ E) as Hi.
  pose proof (tsize_length l (ctx_small _ _ _ _ _ H)). pose proof (ctx_tsize _ _ _ _ _ H).
  assert (Eidx : u32 (next_seq c - 1 - ent_seq p + NGHTTP2_STATIC_TABLE_LENGTH) = 61 + Z.of_nat i).
  { rewrite (ctx_seq _ _ _ _ _ H i p E). unfold NGHTTP2_STATIC_TABLE_LENGTH. unfold u32.
    rewrite <- (Zplus_mod_idemp_l (_ - _)), Zminus_mod_idemp_r, Zplus_mod_idemp_l.
    replace (next_seq c - 1 - (next_seq c - 1 - Z.of_nat i) + 61) with (61 + Z.of_nat i) by lia. apply Z.mod_small. lia. }
  rewrite Eidx. right. exists (61 + Z.of_nat i), exact, (nghttp2_rcbuf_get_buf (nv_value (ent_nv p))).
  split; [done|]. split; [lia|].
  split.
  - unfold entry_at. rewrite (proj2 (Z.ltb_ge _ 0)), (proj2 (Z.ltb_ge _ 61)) by lia.
    replace (Z.to_nat (61 + Z.of_nat i - 61)) with i by lia. unfold fields. rewrite list_lookup_fmap, E. cbn. unfold field_of. f_equal. f_equal.
    destruct (decide (lookup_token (name n) = -1)) as [Eq|Hne]; [by apply Hpn|].
    unfold tokens_ok in Htok. rewrite Forall_lookup in Htok. specialize (Htok i p E). rewrite Hpt in Htok.
    symmetry. by apply lookup_token_inj.
  - intros ->. destruct (Hex eq_refl) as [Hv Hn]. split; [done|]. subst name_only. by apply bool_decide_eq_false in Hn.
Qed.

Lemma tokens_keep m l : tokens_ok l -> tokens_ok (keep m l).
Proof. intros H. destruct (keep_prefix m l) as [l' E]. unfold tokens_ok in *. rewrite E in H. by apply Forall_app in H as [H _]. Qed.

Lemma tokens_added max e l : tokens_ok l -> nv_token (ent_nv e) = lookup_token (fst (field_of (ent_nv e))) -> tokens_ok (added max e l).
Proof. intros Hl He. apply (tokens_keep max (e :: l)). by constructor. Qed.

Lemma set_bad_ok c map h l rest : ctx_ok c map h l rest -> ctx_ok (set_bad c) map h l rest.
Proof. intros []. by constructor. Qed.

Lemma set_max_ok c map h l rest n : ctx_ok c map h l rest -> 0 <= n <= 2 ^ 30 -> ctx_ok (set_bufsize_max n c) map h l rest.
Proof. intros [] Hn. by constructor. Qed.

(** ** Life cycle *)

Lemma context_init_spec malloc_ok h L : owned h L -> exists rv c h', hd_context_init malloc_ok h = Some (rv, c, h') /\
  (requests (hmem h) <= requests (hmem h'))%nat /\
  (rv = 0 /\ ctx_ok c None h' [] L /\ ctx_ok c (Some hd_map_init) h' [] L /\ spare h' = spare h + 1 /\
     hd_table_bufsize_max c = NGHTTP2_HD_DEFAULT_MAX_BUFFER_SIZE /\ bad c = false \/
   rv = NGHTTP2_ERR_NOMEM /\ refused malloc_ok h h' /\ owned h' L /\ spare h' = spare h).
Proof.
  intros Ho. unfold hd_context_init, hd_ringbuf_init. change (NGHTTP2_HD_DEFAULT_MAX_BUFFER_SIZE / NGHTTP2_HD_ENTRY_OVERHEAD) with 128.
  change (SIZE_MAX / 4 <? 128) with false. cbn iota. change (size_loop size_fuel 1 128) with (Some 128). cbn [mbind option_bind].
  change (SIZE_MAX / 4 <? 128) with false. cbn iota. unfold block_new, malloc. destruct (malloc_ok (requests (hmem h))) eqn:Em; cbn [negb mbind option_bind].
  - do 3 eexists. split; [done|]. split; [cbn; lia|]. left. split; [done|]. change (Z.to_nat 128) with 128%nat.
    assert (Hc : forall map, match map with None => True | Some m => map_ok m [] end ->
      ctx_ok (HdContext (Ring (replicate 128 None) (128 - 1) 0 0) 0 NGHTTP2_HD_DEFAULT_MAX_BUFFER_SIZE 0 false) map
        (Heap (Mem (S (requests (hmem h))) (live (hmem h) + 1)) (refs h)) [] L).
    { intros map Hm. constructor; cbn [hd_table hd_table_bufsize hd_table_bufsize_max next_seq tsize]; [|lia|unfold NGHTTP2_HD_DEFAULT_MAX_BUFFER_SIZE; lia|lia|lia|done|constructor|constructor|constructor|done|].
      - constructor; cbn; [exists 7; by repeat split|lia|done|lia|done].
      - apply owned_mem; [done|cbn; lia]. }
    split; [by apply Hc|]. split; [apply Hc, map_ok_init|]. split; [unfold spare; cbn; lia|]. done.
  - do 3 eexists. split; [done|]. split; [cbn; lia|]. right. split; [done|]. split; [exists (requests (hmem h)); cbn; split; [lia|done]|].
    split; [apply owned_mem; [done|cbn; lia]|]. done.
Qed.

Lemma free_entries_spec l : forall h rest, owned h (ptrs l ++ rest) -> exists h', free_entries l h = Some h' /\ owned h' rest /\
  spare h' = spare h - Z.of_nat (length l) /\ requests (hmem h') = requests (hmem h).
Proof.
  induction l as [|e l IH]; intros h rest Ho; cbn [free_entries].
  - exists h. cbn [length]. split; [done|]. split; [done|]. split; [lia|done].
  - rewrite ptrs_cons in Ho. destruct (entry_free_spec e h _ Ho) as (h1 & -> & Ho1 & Hs1 & Hq1). cbn [mbind option_bind].
    destruct (IH (block_free h1) rest) as (h2 & -> & Ho2 & Hs2 & Hq2); [apply owned_mem; [done|cbn; lia]|].
    exists h2. split; [done|]. split; [done|]. unfold spare in *. cbn in *. lia.
Qed.

Lemma context_free_spec c map h l rest : ctx_ok c map h l rest -> exists h', hd_context_free c h = Some h' /\ owned h' rest /\
  spare h' = blocks_besides h l - 1 /\ requests (hmem h') = requests (hmem h).
Proof.
  intros H. unfold hd_context_free, hd_ringbuf_free. rewrite (ring_all _ _ (ctx_ring _ _ _ _ _ H)). cbn [mbind option_bind].
  destruct (free_entries_spec l h rest (ctx_owned _ _ _ _ _ H)) as (h1 & -> & Ho & Hs & Hq). cbn [mbind option_bind].
  eexists. split; [done|]. split; [apply owned_mem; [done|cbn; lia]|]. unfold blocks_besides, spare in *. cbn in *. lia.
Qed.

(** What the application reads of the table: the static fields from 1 on, then the
    dynamic ones, the newest first. *)
Lemma get_table_entry_spec c map h l rest idx : ctx_ok c map h l rest -> 0 <= idx ->
  exists n, hd_get_table_entry c idx = Some n /\ (fun n => (name n, value n)) <$> n = entry_at (fields l) (idx - 1).
Proof.
  intros H Hi. unfold hd_get_table_entry. destruct (Z.eqb_spec idx 0) as [->|Hne]; [by exists None|].
  assert (Hr : INDEX_RANGE_VALID c (idx - 1) = (idx - 1 <? 61 + Z.of_nat (length l))).
  { unfold INDEX_RANGE_VALID, get_max_index, NGHTTP2_STATIC_TABLE_LENGTH. rewrite (ring_len _ _ (ctx_ring _ _ _ _ _ H)). f_equal. lia. }
  rewrite Hr. destruct (Z.ltb_spec (idx - 1) (61 + Z.of_nat (length l))) as [Hlt|Hge]; cbn [negb].
  - destruct (table_get_spec c map h l rest (idx - 1) H) as (n & En & Ef & _); [lia|]. rewrite Ef.
    unfold nghttp2_hd_table_get2, nghttp2_hd_table_get in *. rewrite Hr in *. cbn [negb] in *.
    destruct (_ <=? _).
    + destruct (hd_ringbuf_get _ _) as [e|]; [|done]. cbn [mbind option_bind] in *. injection En as ->. by eexists.
    + destruct (static_entry _) as [e|]; [|done]. cbn [mbind option_bind] in *. injection En as <-. eexists. split; [done|].
      unfold field_of. cbn [nv_name nv_value]. by rewrite !static_rcbuf_buf.
  - exists None. split; [done|]. unfold entry_at. rewrite (proj2 (Z.ltb_ge _ 0)), (proj2 (Z.ltb_ge _ 61)) by lia.
    symmetry. apply lookup_ge_None. unfold fields. rewrite length_map. lia.
Qed.
