(* ===== verification/HdDeflate.v ===== *)
(** * The HPACK encoder: the deflater of [nghttp2_hd.c]

    Every header field becomes one representation: an index into the tables, or a
    literal with an indexed or a new name, which may enter the dynamic table.  The
    output is a chain of buffers (NgBuf.v), strings are Huffman coded when that is
    shorter (Huffman.v).  The chain and the shared strings come from the same
    allocator: the buffers are passed with the heap. *)

From stdpp Require Import gmap list.
From S2P Require Import Prelude CLib NgBuf Huffman HpackInt Rcbuf HdStatic HdTable.

Record nghttp2_hd_deflater := Deflater {
  d_ctx : nghttp2_hd_context;
  d_map : nghttp2_hd_map;
  deflate_hd_table_bufsize_max : Z;
  d_min_bufsize_max : Z;
  notify_table_size_change : bool
}.

Definition set_d_ctx (c : nghttp2_hd_context) (d : nghttp2_hd_deflater) : nghttp2_hd_deflater :=
  Deflater c (d_map d) (deflate_hd_table_bufsize_max d) (d_min_bufsize_max d) (notify_table_size_change d).
Definition set_tables (c : nghttp2_hd_context) (m : nghttp2_hd_map) (d : nghttp2_hd_deflater) : nghttp2_hd_deflater :=
  Deflater c m (deflate_hd_table_bufsize_max d) (d_min_bufsize_max d) (notify_table_size_change d).
Definition set_notify (b : bool) (d : nghttp2_hd_deflater) : nghttp2_hd_deflater :=
  Deflater (d_ctx d) (d_map d) (deflate_hd_table_bufsize_max d) (d_min_bufsize_max d) b.
Definition set_d_min (n : Z) (d : nghttp2_hd_deflater) : nghttp2_hd_deflater :=
  Deflater (d_ctx d) (d_map d) (deflate_hd_table_bufsize_max d) n (notify_table_size_change d).

Definition NGHTTP2_HD_DEFAULT_MAX_DEFLATE_BUFFER_SIZE : Z := Z.shiftl 1 12.
Definition NGHTTP2_ERR_INSUFF_BUFSIZE : Z := -525.

(** The output: the chain, and the heap with the allocator of both. *)
Abbreviation output := (nghttp2_bufs * heap)%type.

Section Deflate.
Context (malloc_ok : nat -> bool) (junk : nat -> nat -> char).

(** ** Life cycle *)

Definition nghttp2_hd_deflate_init2 (max_deflate_dynamic_table_size : Z) (h : heap)
  : option (Z * nghttp2_hd_deflater * heap) :=
  r ← hd_context_init malloc_ok h;
  let '(rv, c, h) := r in
  let lower := max_deflate_dynamic_table_size <? NGHTTP2_HD_DEFAULT_MAX_BUFFER_SIZE in
  let c := if lower then set_bufsize_max max_deflate_dynamic_table_size c else c in
  Some (rv, Deflater c hd_map_init max_deflate_dynamic_table_size UINT32_MAX lower, h).

Definition nghttp2_hd_deflate_init (h : heap) := nghttp2_hd_deflate_init2 NGHTTP2_HD_DEFAULT_MAX_DEFLATE_BUFFER_SIZE h.

Definition nghttp2_hd_deflate_free (d : nghttp2_hd_deflater) (h : heap) : option heap := hd_context_free (d_ctx d) h.

(** The deflater itself in allocated memory. *)
Definition nghttp2_hd_deflate_new2 (deflate_hd_table_bufsize_max : Z) (h : heap) : option (Z * option nghttp2_hd_deflater * heap) :=
  let '(ok, h) := block_new malloc_ok h in
  if negb ok then Some (NGHTTP2_ERR_NOMEM, None, h) else
  r ← nghttp2_hd_deflate_init2 deflate_hd_table_bufsize_max h;
  let '(rv, d, h) := r in
  Some (if negb (rv =? 0) then (rv, None, block_free h) else (0, Some d, h)).

Definition nghttp2_hd_deflate_del (d : nghttp2_hd_deflater) (h : heap) : option heap :=
  h ← nghttp2_hd_deflate_free d h; Some (block_free h).

(** The peer has announced the size of its table. *)
Definition nghttp2_hd_deflate_change_table_size (d : nghttp2_hd_deflater) (settings_max_dynamic_table_size : Z) (h : heap)
  : option (Z * nghttp2_hd_deflater * heap) :=
  let next_bufsize := Z.min settings_max_dynamic_table_size (deflate_hd_table_bufsize_max d) in
  let d := set_d_ctx (set_bufsize_max next_bufsize (d_ctx d)) d in
  let d := set_d_min (Z.min (d_min_bufsize_max d) next_bufsize) d in
  let d := set_notify true d in
  r ← hd_context_shrink_table_size (d_ctx d) (Some (d_map d)) h;
  let '(c, m, h) := r in
  m ← m;
  Some (0, set_tables c m d, h).

(** ** Output *)

Definition bufs_add (data : list char) (o : output) : option (Z * output) :=
  r ← nghttp2_bufs_add malloc_ok junk data (fst o) (hmem (snd o));
  let '(rv, b, m) := r in Some (rv, (b, Heap m (refs (snd o)))).

Definition bufs_addb (c : char) (o : output) : option (Z * output) :=
  r ← nghttp2_bufs_addb malloc_ok junk c (fst o) (hmem (snd o));
  let '(rv, b, m) := r in Some (rv, (b, Heap m (refs (snd o)))).

Definition huff_encode (str : list char) (o : output) : option (Z * output) :=
  r ← @nghttp2_hd_huff_encode _ (bufs_sink malloc_ok junk) (fst o, hmem (snd o)) str;
  let '(rv, (b, m)) := r in Some (rv, (b, Heap m (refs (snd o)))).

(** A first byte with the integer [n] in its low bits, built in [sb]; of [sb] only
    what [encode_length] has written is used. *)
Definition emit_length (first n prefix : Z) (o : output) : option (Z * output) :=
  blocklen ← count_encoded_length n prefix;
  if 16 <? blocklen then Some (NGHTTP2_ERR_HEADER_COMP, o) else
  r ← encode_length (uint8 first :: zeros 15) n prefix;
  bufs_add (take (Z.to_nat blocklen) (snd r)) o.

Definition emit_table_size (table_size : Z) (o : output) : option (Z * output) := emit_length 32 table_size 5 o.

Definition emit_indexed_block (idx : Z) (o : output) : option (Z * output) := emit_length 128 (u32 (idx + 1)) 7 o.

Definition emit_string (str : list char) (o : output) : option (Z * output) :=
  enclen ← nghttp2_hd_huff_encode_count str;
  let len := Z.of_nat (length str) in
  let huffman := enclen <? len in
  let enclen := if huffman then enclen else len in
  r ← emit_length (if huffman then Z.shiftl 1 7 else 0) enclen 7 o;
  let '(rv, o) := r in
  if negb (rv =? 0) then Some (rv, o)
  else if huffman then huff_encode str o else bufs_add str o.

Definition pack_first_byte (mode : nghttp2_hd_indexing_mode) : Z :=
  match mode with
  | NGHTTP2_HD_WITH_INDEXING => 64
  | NGHTTP2_HD_WITHOUT_INDEXING => 0
  | NGHTTP2_HD_NEVER_INDEXING => 16
  end.

Definition prefixlen (mode : nghttp2_hd_indexing_mode) : Z :=
  if bool_decide (mode = NGHTTP2_HD_WITH_INDEXING) then 6 else 4.

Definition emit_indname_block (idx : Z) (n : nghttp2_nv) (mode : nghttp2_hd_indexing_mode) (o : output) : option (Z * output) :=
  r ← emit_length (pack_first_byte mode) (u32 (idx + 1)) (prefixlen mode) o;
  let '(rv, o) := r in
  if negb (rv =? 0) then Some (rv, o) else
  r ← emit_string (value n) o;
  let '(rv, o) := r in
  if negb (rv =? 0) then Some (rv, o) else Some (0, o).

Definition emit_newname_block (n : nghttp2_nv) (mode : nghttp2_hd_indexing_mode) (o : output) : option (Z * output) :=
  r ← bufs_addb (uint8 (pack_first_byte mode)) o;
  let '(rv, o) := r in
  if negb (rv =? 0) then Some (rv, o) else
  r ← emit_string (name n) o;
  let '(rv, o) := r in
  if negb (rv =? 0) then Some (rv, o) else
  r ← emit_string (value n) o;
  let '(rv, o) := r in
  if negb (rv =? 0) then Some (rv, o) else Some (0, o).

(** ** One field *)

Definition hd_deflate_decide_indexing (d : nghttp2_hd_deflater) (n : nghttp2_nv) (token : Z) : nghttp2_hd_indexing_mode :=
  if (token =? NGHTTP2_TOKEN__PATH) || (token =? NGHTTP2_TOKEN_AGE)
     || (token =? NGHTTP2_TOKEN_CONTENT_LENGTH) || (token =? NGHTTP2_TOKEN_ETAG)
     || (token =? NGHTTP2_TOKEN_IF_MODIFIED_SINCE)
     || (token =? NGHTTP2_TOKEN_IF_NONE_MATCH) || (token =? NGHTTP2_TOKEN_LOCATION)
     || (token =? NGHTTP2_TOKEN_SET_COOKIE)
     || (u32 (hd_table_bufsize_max (d_ctx d) * 3) / 4 <? entry_room (Z.of_nat (length (name n))) (Z.of_nat (length (value n))))
  then NGHTTP2_HD_WITHOUT_INDEXING else NGHTTP2_HD_WITH_INDEXING.

(** The mode of a field: secrets are never indexed. *)
Definition decide_mode (d : nghttp2_hd_deflater) (n : nghttp2_nv) (token : Z) : nghttp2_hd_indexing_mode :=
  if (token =? NGHTTP2_TOKEN_AUTHORIZATION)
     || ((token =? NGHTTP2_TOKEN_COOKIE) && (Z.of_nat (length (value n)) <? 20))
     || negb (Z.land (flags n) NGHTTP2_NV_FLAG_NO_INDEX =? 0)
  then NGHTTP2_HD_NEVER_INDEXING else hd_deflate_decide_indexing d n token.

(** The hash of a name: that of the static table, where the name is there. *)
Definition hash_of (n : list char) (token : Z) : option Z :=
  if token =? -1 then Some (name_hash n)
  else if token <=? NGHTTP2_TOKEN_WWW_AUTHENTICATE then e ← static_entry token; Some (s_hash e)
  else Some 0.

(** The field enters the table: [idx] is the field its name is taken from, or -1. *)
Definition deflate_index (d : nghttp2_hd_deflater) (n : nghttp2_nv) (token idx hash : Z) (h : heap)
  : option (Z * nghttp2_hd_deflater * heap) :=
  nm ← (if negb (idx =? -1) then
          e ← nghttp2_hd_table_get (d_ctx d) idx;
          h ← nghttp2_rcbuf_incref (nv_name e) h;
          Some (0, nv_name e, h)
        else Some (nghttp2_rcbuf_new2 malloc_ok junk (name n) h));
  let '(rv, nm, h) := nm in
  if negb (rv =? 0) then Some (rv, d, h) else
  let '(rv, vl, h) := nghttp2_rcbuf_new2 malloc_ok junk (value n) h in
  if negb (rv =? 0) then h ← nghttp2_rcbuf_decref (Some nm) h; Some (rv, d, h) else
  r ← add_hd_table_incremental malloc_ok (d_ctx d) (HdNv nm vl token NGHTTP2_NV_FLAG_NONE) (Some (d_map d)) hash h;
  let '(rv, c, m, h) := r in
  m ← m;
  h ← nghttp2_rcbuf_decref (Some vl) h;
  h ← nghttp2_rcbuf_decref (Some nm) h;
  Some (if negb (rv =? 0) then NGHTTP2_ERR_HEADER_COMP else 0, set_tables c m d, h).

Definition deflate_nv (d : nghttp2_hd_deflater) (n : nghttp2_nv) (o : output) : option (Z * nghttp2_hd_deflater * output) :=
  let token := lookup_token (name n) in
  hash ← hash_of (name n) token;
  let mode := decide_mode d n token in
  res ← search_hd_table (d_ctx d) n token mode (d_map d) hash;
  let idx := sr_index res in
  if sr_name_value_match res then
    r ← emit_indexed_block idx o; let '(rv, o) := r in Some (rv, d, o)
  else
    r ← (if bool_decide (mode = NGHTTP2_HD_WITH_INDEXING) then deflate_index d n token idx hash (snd o)
         else Some (0, d, snd o));
    let '(rv, d, h) := r in
    let o := (fst o, h) in
    if negb (rv =? 0) then Some (rv, d, o) else
    r ← (if idx =? -1 then emit_newname_block n mode o else emit_indname_block idx n mode o);
    let '(rv, o) := r in Some (rv, d, o).

(** ** A header block *)

Fixpoint deflate_nvs (d : nghttp2_hd_deflater) (nva : list nghttp2_nv) (o : output) : option (Z * nghttp2_hd_deflater * output) :=
  match nva with
  | [] => Some (0, d, o)
  | n :: nva =>
      r ← deflate_nv d n o;
      let '(rv, d, o) := r in
      if negb (rv =? 0) then Some (rv, d, o) else deflate_nvs d nva o
  end.

(** The announcement of the new size, or of two sizes, at the head of a block. *)
Definition emit_table_sizes (min max : Z) (o : output) : option (Z * output) :=
  r ← (if min <? max then emit_table_size min o else Some (0, o));
  let '(rv, o) := r in
  if negb (rv =? 0) then Some (rv, o) else emit_table_size max o.

Definition deflate_updates (d : nghttp2_hd_deflater) (o : output) : option (Z * nghttp2_hd_deflater * output) :=
  if notify_table_size_change d then
    let min := d_min_bufsize_max d in
    let d := set_d_min UINT32_MAX (set_notify false d) in
    r ← emit_table_sizes min (hd_table_bufsize_max (d_ctx d)) o;
    let '(rv, o) := r in Some (rv, d, o)
  else Some (0, d, o).

Definition nghttp2_hd_deflate_hd_bufs (d : nghttp2_hd_deflater) (nva : list nghttp2_nv) (o : output)
  : option (Z * nghttp2_hd_deflater * output) :=
  if bad (d_ctx d) then Some (NGHTTP2_ERR_HEADER_COMP, d, o) else
  r ← deflate_updates d o;
  let '(rv, d, o) := r in
  r ← (if negb (rv =? 0) then Some (rv, d, o) else deflate_nvs d nva o);
  let '(rv, d, o) := r in
  Some (rv, if negb (rv =? 0) then set_d_ctx (set_bad (d_ctx d)) d else d, o).

(** [nghttp2_hd_deflate_hd2] and [nghttp2_hd_deflate_hd_vec2]: into the memory of the
    application, one block or several. *)
Definition deflate_wrapped (d : nghttp2_hd_deflater) (nva : list nghttp2_nv) (r : Z * nghttp2_bufs * nghttp2_mem) (h : heap)
  : option (Z * list (list char) * nghttp2_hd_deflater * heap) :=
  let '(rv, b, m) := r in
  let h := Heap m (refs h) in
  if negb (rv =? 0) then Some (rv, [], d, h) else
  r ← nghttp2_hd_deflate_hd_bufs d nva (b, h);
  let '(rv, d, (b, h)) := r in
  let buflen := nghttp2_bufs_len b in
  let h := Heap (nghttp2_bufs_wrap_free b (hmem h)) (refs h) in
  Some (if rv =? NGHTTP2_ERR_BUFFER_ERROR then NGHTTP2_ERR_INSUFF_BUFSIZE
        else if negb (rv =? 0) then rv else Z.of_nat buflen, map bytes (chain b), d, h).

Definition nghttp2_hd_deflate_hd2 (d : nghttp2_hd_deflater) (buf : list char) (nva : list nghttp2_nv) (h : heap) :=
  deflate_wrapped d nva (nghttp2_bufs_wrap_init malloc_ok (Bufs [] 0 0 0 0 0 0) buf (hmem h)) h.

Definition nghttp2_hd_deflate_hd_vec2 (d : nghttp2_hd_deflater) (vec : list (list char)) (nva : list nghttp2_nv) (h : heap) :=
  deflate_wrapped d nva (nghttp2_bufs_wrap_init2 malloc_ok (Bufs [] 0 0 0 0 0 0) vec (hmem h)) h.

(** An upper bound of the size of a block. *)
Definition nghttp2_hd_deflate_bound (nva : list nghttp2_nv) : Z :=
  fold_left (fun n x => u32 (n + (u32 (Z.of_nat (length (name x)) + Z.of_nat (length (value x)))))) nva
    (u32 (12 + u32 (6 * 2 * Z.of_nat (length nva)))).
End Deflate.

(** ** What the application may ask *)

Definition nghttp2_hd_deflate_get_num_table_entries (d : nghttp2_hd_deflater) : Z := get_max_index (d_ctx d).
Definition nghttp2_hd_deflate_get_table_entry (d : nghttp2_hd_deflater) (idx : Z) : option (option nghttp2_nv) :=
  hd_get_table_entry (d_ctx d) idx.
Definition nghttp2_hd_deflate_get_dynamic_table_size (d : nghttp2_hd_deflater) : Z := hd_table_bufsize (d_ctx d).
Definition nghttp2_hd_deflate_get_max_dynamic_table_size (d : nghttp2_hd_deflater) : Z := hd_table_bufsize_max (d_ctx d).
