(* ===== verification/HdInflate.v ===== *)
(** * The HPACK decoder: the inflater of [nghttp2_hd.c]

    A state machine over the bytes of a header block, which may come in pieces: every
    call goes on where the last one ended, and returns at the first header field it
    has read ([NGHTTP2_HD_INFLATE_EMIT]).

    The input is the list of its bytes; [in] is what is left of it.  A string is read
    into a block of its own, [namebuf] or [valuebuf], which becomes the shared string
    when it is complete: till then the bytes are those of the buffer.  Writing past
    the end of the buffer, reading past the end of the input, an index outside the
    tables and a wrong count of references make the result [None]. *)

From stdpp Require Import gmap list.
From S2P Require Import Prelude CLib NgBuf Huffman HpackInt Rcbuf HdStatic HdTable.

Definition NGHTTP2_HD_MAX_NV : Z := 65536.
Definition NGHTTP2_ERR_INVALID_STATE : Z := -519.

Definition NGHTTP2_HD_INFLATE_NONE : Z := 0.
Definition NGHTTP2_HD_INFLATE_FINAL : Z := 1.
Definition NGHTTP2_HD_INFLATE_EMIT : Z := 2.

Inductive nghttp2_hd_opcode :=
| NGHTTP2_HD_OPCODE_NONE
| NGHTTP2_HD_OPCODE_INDEXED
| NGHTTP2_HD_OPCODE_NEWNAME
| NGHTTP2_HD_OPCODE_INDNAME.

Inductive nghttp2_hd_inflate_state :=
| NGHTTP2_HD_STATE_EXPECT_TABLE_SIZE
| NGHTTP2_HD_STATE_INFLATE_START
| NGHTTP2_HD_STATE_OPCODE
| NGHTTP2_HD_STATE_READ_TABLE_SIZE
| NGHTTP2_HD_STATE_READ_INDEX
| NGHTTP2_HD_STATE_NEWNAME_CHECK_NAMELEN
| NGHTTP2_HD_STATE_NEWNAME_READ_NAMELEN
| NGHTTP2_HD_STATE_NEWNAME_READ_NAMEHUFF
| NGHTTP2_HD_STATE_NEWNAME_READ_NAME
| NGHTTP2_HD_STATE_CHECK_VALUELEN
| NGHTTP2_HD_STATE_READ_VALUELEN
| NGHTTP2_HD_STATE_READ_VALUEHUFF
| NGHTTP2_HD_STATE_READ_VALUE.

#[export] Instance opcode_dec : EqDecision nghttp2_hd_opcode.
Proof. solve_decision. Defined.
#[export] Instance inflate_state_dec : EqDecision nghttp2_hd_inflate_state.
Proof. solve_decision. Defined.

(** The fields of the structure that are set together are set by one function. *)
Record nghttp2_hd_inflater := Inflater {
  ctx : nghttp2_hd_context;
  huff_decode_ctx : nghttp2_hd_huff_decode_context;
  namebuf : nghttp2_buf; valuebuf : nghttp2_buf;
  namercbuf : option nghttp2_rcbuf; valuercbuf : option nghttp2_rcbuf;
  nv_name_keep : option nghttp2_rcbuf; nv_value_keep : option nghttp2_rcbuf;
  left : Z; index : Z;
  settings_hd_table_bufsize_max : Z; min_hd_table_bufsize_max : Z;
  shift : Z;
  opcode : nghttp2_hd_opcode; state : nghttp2_hd_inflate_state;
  huffman_encoded : bool; index_required : bool; no_index : bool
}.

Definition set_ctx c (i : nghttp2_hd_inflater) : nghttp2_hd_inflater :=
  Inflater c (huff_decode_ctx i) (namebuf i) (valuebuf i) (namercbuf i) (valuercbuf i) (nv_name_keep i) (nv_value_keep i)
    (left i) (index i) (settings_hd_table_bufsize_max i) (min_hd_table_bufsize_max i) (shift i) (opcode i) (state i)
    (huffman_encoded i) (index_required i) (no_index i).
Definition set_huff c (i : nghttp2_hd_inflater) : nghttp2_hd_inflater :=
  Inflater (ctx i) c (namebuf i) (valuebuf i) (namercbuf i) (valuercbuf i) (nv_name_keep i) (nv_value_keep i)
    (left i) (index i) (settings_hd_table_bufsize_max i) (min_hd_table_bufsize_max i) (shift i) (opcode i) (state i)
    (huffman_encoded i) (index_required i) (no_index i).
Definition set_name b r (i : nghttp2_hd_inflater) : nghttp2_hd_inflater :=
  Inflater (ctx i) (huff_decode_ctx i) b (valuebuf i) r (valuercbuf i) (nv_name_keep i) (nv_value_keep i)
    (left i) (index i) (settings_hd_table_bufsize_max i) (min_hd_table_bufsize_max i) (shift i) (opcode i) (state i)
    (huffman_encoded i) (index_required i) (no_index i).
Definition set_value b r (i : nghttp2_hd_inflater) : nghttp2_hd_inflater :=
  Inflater (ctx i) (huff_decode_ctx i) (namebuf i) b (namercbuf i) r (nv_name_keep i) (nv_value_keep i)
    (left i) (index i) (settings_hd_table_bufsize_max i) (min_hd_table_bufsize_max i) (shift i) (opcode i) (state i)
    (huffman_encoded i) (index_required i) (no_index i).
Definition set_keep n v (i : nghttp2_hd_inflater) : nghttp2_hd_inflater :=
  Inflater (ctx i) (huff_decode_ctx i) (namebuf i) (valuebuf i) (namercbuf i) (valuercbuf i) n v
    (left i) (index i) (settings_hd_table_bufsize_max i) (min_hd_table_bufsize_max i) (shift i) (opcode i) (state i)
    (huffman_encoded i) (index_required i) (no_index i).
Definition set_left n s (i : nghttp2_hd_inflater) : nghttp2_hd_inflater :=
  Inflater (ctx i) (huff_decode_ctx i) (namebuf i) (valuebuf i) (namercbuf i) (valuercbuf i) (nv_name_keep i) (nv_value_keep i)
    n (index i) (settings_hd_table_bufsize_max i) (min_hd_table_bufsize_max i) s (opcode i) (state i)
    (huffman_encoded i) (index_required i) (no_index i).
Definition set_index n (i : nghttp2_hd_inflater) : nghttp2_hd_inflater :=
  Inflater (ctx i) (huff_decode_ctx i) (namebuf i) (valuebuf i) (namercbuf i) (valuercbuf i) (nv_name_keep i) (nv_value_keep i)
    (left i) n (settings_hd_table_bufsize_max i) (min_hd_table_bufsize_max i) (shift i) (opcode i) (state i)
    (huffman_encoded i) (index_required i) (no_index i).
Definition set_limits s m (i : nghttp2_hd_inflater) : nghttp2_hd_inflater :=
  Inflater (ctx i) (huff_decode_ctx i) (namebuf i) (valuebuf i) (namercbuf i) (valuercbuf i) (nv_name_keep i) (nv_value_keep i)
    (left i) (index i) s m (shift i) (opcode i) (state i) (huffman_encoded i) (index_required i) (no_index i).
Definition set_op o (i : nghttp2_hd_inflater) : nghttp2_hd_inflater :=
  Inflater (ctx i) (huff_decode_ctx i) (namebuf i) (valuebuf i) (namercbuf i) (valuercbuf i) (nv_name_keep i) (nv_value_keep i)
    (left i) (index i) (settings_hd_table_bufsize_max i) (min_hd_table_bufsize_max i) (shift i) o (state i)
    (huffman_encoded i) (index_required i) (no_index i).
Definition set_state s (i : nghttp2_hd_inflater) : nghttp2_hd_inflater :=
  Inflater (ctx i) (huff_decode_ctx i) (namebuf i) (valuebuf i) (namercbuf i) (valuercbuf i) (nv_name_keep i) (nv_value_keep i)
    (left i) (index i) (settings_hd_table_bufsize_max i) (min_hd_table_bufsize_max i) (shift i) (opcode i) s
    (huffman_encoded i) (index_required i) (no_index i).
Definition set_encoded e (i : nghttp2_hd_inflater) : nghttp2_hd_inflater :=
  Inflater (ctx i) (huff_decode_ctx i) (namebuf i) (valuebuf i) (namercbuf i) (valuercbuf i) (nv_name_keep i) (nv_value_keep i)
    (left i) (index i) (settings_hd_table_bufsize_max i) (min_hd_table_bufsize_max i) (shift i) (opcode i) (state i)
    e (index_required i) (no_index i).
Definition set_indexing r n (i : nghttp2_hd_inflater) : nghttp2_hd_inflater :=
  Inflater (ctx i) (huff_decode_ctx i) (namebuf i) (valuebuf i) (namercbuf i) (valuercbuf i) (nv_name_keep i) (nv_value_keep i)
    (left i) (index i) (settings_hd_table_bufsize_max i) (min_hd_table_bufsize_max i) (shift i) (opcode i) (state i)
    (huffman_encoded i) r n.

Section Inflate.
Context (malloc_ok : nat -> bool) (junk : nat -> nat -> char).

(** ** Life cycle *)

(** [huff_decode_ctx] is not initialised here: it is when a string begins. *)
Definition nghttp2_hd_inflate_init (h : heap) : option (Z * nghttp2_hd_inflater * heap) :=
  r ← hd_context_init malloc_ok h;
  let '(rv, c, h) := r in
  Some (rv, Inflater c nghttp2_hd_huff_decode_context_init nghttp2_buf_init nghttp2_buf_init None None None None
              0 0 NGHTTP2_HD_DEFAULT_MAX_BUFFER_SIZE UINT32_MAX 0 NGHTTP2_HD_OPCODE_NONE
              NGHTTP2_HD_STATE_INFLATE_START false false false, h).

Definition hd_inflate_keep_free (i : nghttp2_hd_inflater) (h : heap) : option (nghttp2_hd_inflater * heap) :=
  h ← nghttp2_rcbuf_decref (nv_value_keep i) h;
  h ← nghttp2_rcbuf_decref (nv_name_keep i) h;
  Some (set_keep None None i, h).

Definition nghttp2_hd_inflate_free (i : nghttp2_hd_inflater) (h : heap) : option heap :=
  r ← hd_inflate_keep_free i h;
  let '(i, h) := r in
  h ← nghttp2_rcbuf_decref (valuercbuf i) h;
  h ← nghttp2_rcbuf_decref (namercbuf i) h;
  hd_context_free (ctx i) h.

(** The inflater itself in allocated memory. *)
Definition nghttp2_hd_inflate_new2 (h : heap) : option (Z * option nghttp2_hd_inflater * heap) :=
  let '(ok, h) := block_new malloc_ok h in
  if negb ok then Some (NGHTTP2_ERR_NOMEM, None, h) else
  r ← nghttp2_hd_inflate_init h;
  let '(rv, i, h) := r in
  Some (if negb (rv =? 0) then (rv, None, block_free h) else (0, Some i, h)).

Definition nghttp2_hd_inflate_del (i : nghttp2_hd_inflater) (h : heap) : option heap :=
  h ← nghttp2_hd_inflate_free i h; Some (block_free h).

Definition nghttp2_hd_inflate_change_table_size (i : nghttp2_hd_inflater) (settings_max_dynamic_table_size : Z) (h : heap)
  : option (Z * nghttp2_hd_inflater * heap) :=
  if negb (bool_decide (state i = NGHTTP2_HD_STATE_EXPECT_TABLE_SIZE) || bool_decide (state i = NGHTTP2_HD_STATE_INFLATE_START))
  then Some (NGHTTP2_ERR_INVALID_STATE, i, h) else
  let i := set_limits settings_max_dynamic_table_size (min_hd_table_bufsize_max i) i in
  if settings_max_dynamic_table_size <? hd_table_bufsize_max (ctx i) then
    let i := set_state NGHTTP2_HD_STATE_EXPECT_TABLE_SIZE i in
    let i := set_limits (settings_hd_table_bufsize_max i) settings_max_dynamic_table_size i in
    let i := set_ctx (set_bufsize_max settings_max_dynamic_table_size (ctx i)) i in
    r ← hd_context_shrink_table_size (ctx i) None h;
    let '(c, _, h) := r in
    Some (0, set_ctx c i, h)
  else Some (0, i, h).

Definition nghttp2_hd_inflate_end_headers (i : nghttp2_hd_inflater) (h : heap) : option (nghttp2_hd_inflater * heap) :=
  r ← hd_inflate_keep_free i h;
  let '(i, h) := r in
  Some (set_state NGHTTP2_HD_STATE_INFLATE_START i, h).

(** ** Reading *)

(** The bits of the byte under the mask are [x]. *)
Definition byte_is (c : char) (mask x : Z) : bool := Z.land (bval c) mask =? x.

Definition hd_inflate_set_huffman_encoded (c : char) (i : nghttp2_hd_inflater) : nghttp2_hd_inflater :=
  set_encoded (negb (byte_is c (Z.shiftl 1 7) 0)) i.

(** The result, [*rfin] and the inflater. *)
Definition hd_inflate_read_len (i : nghttp2_hd_inflater) (input : list char) (prefix maxlen : Z)
  : option (Z * bool * nghttp2_hd_inflater) :=
  d ← decode_length (left i) (shift i) input prefix;
  let i := set_left (left i) (d_shift d) i in
  if d_rv d =? -1 then Some (NGHTTP2_ERR_HEADER_COMP, d_fin d, i) else
  out ← d_res d;
  if maxlen <? out then Some (NGHTTP2_ERR_HEADER_COMP, d_fin d, i)
  else Some (d_rv d, d_fin d, set_left out (shift i) i).

Definition hd_inflate_read_huff (i : nghttp2_hd_inflater) (buf : nghttp2_buf) (input : list char)
  : option (Z * nghttp2_hd_inflater * nghttp2_buf) :=
  let fin := left i <=? Z.of_nat (length input) in
  let input := if fin then take (Z.to_nat (left i)) input else input in
  r ← nghttp2_hd_huff_decode (huff_decode_ctx i) buf input fin;
  let '(readlen, c, buf) := r in
  let i := set_huff c i in
  if readlen <? 0 then Some (readlen, i, buf)
  else if nghttp2_hd_huff_decode_failure_state c then Some (NGHTTP2_ERR_HEADER_COMP, i, buf)
  else Some (readlen, set_left (left i - readlen) (shift i) i, buf).

Definition hd_inflate_read (i : nghttp2_hd_inflater) (buf : nghttp2_buf) (input : list char)
  : option (Z * nghttp2_hd_inflater * nghttp2_buf) :=
  let len := Z.min (Z.of_nat (length input)) (left i) in
  buf ← cpymem buf (take (Z.to_nat len) input);
  Some (len, set_left (left i - len) (shift i) i, buf).

(** ** Finished fields *)

(** [nv.flags] of a literal. *)
Definition literal_flags (i : nghttp2_hd_inflater) : Z :=
  if no_index i then NGHTTP2_NV_FLAG_NO_INDEX else NGHTTP2_NV_FLAG_NONE.

Definition hd_inflate_commit_indexed (i : nghttp2_hd_inflater) : option nghttp2_hd_nv :=
  nghttp2_hd_table_get (ctx i) (index i).

(** [if (inflater->index_required) rv = add_hd_table_incremental(...)] *)
Definition index_field (i : nghttp2_hd_inflater) (n : nghttp2_hd_nv) (h : heap) : option (Z * nghttp2_hd_inflater * heap) :=
  if index_required i then
    r ← add_hd_table_incremental malloc_ok (ctx i) n None 0 h;
    let '(rv, c, _, h) := r in Some (rv, set_ctx c i, h)
  else Some (0, i, h).

Definition hd_inflate_commit_newname (i : nghttp2_hd_inflater) (h : heap)
  : option (Z * option nghttp2_hd_nv * nghttp2_hd_inflater * heap) :=
  nm ← namercbuf i;
  vl ← valuercbuf i;
  let n := HdNv nm vl (lookup_token (nghttp2_rcbuf_get_buf nm)) (literal_flags i) in
  r ← index_field i n h;
  let '(rv, i, h) := r in
  if negb (rv =? 0) then Some (rv, None, i, h) else
  let i := set_keep (Some nm) (Some vl) i in
  Some (0, Some n, set_name (namebuf i) None (set_value (valuebuf i) None i), h).

Definition hd_inflate_commit_indname (i : nghttp2_hd_inflater) (h : heap)
  : option (Z * option nghttp2_hd_nv * nghttp2_hd_inflater * heap) :=
  e ← nghttp2_hd_table_get (ctx i) (index i);
  h ← nghttp2_rcbuf_incref (nv_name e) h;
  vl ← valuercbuf i;
  let n := HdNv (nv_name e) vl (nv_token e) (literal_flags i) in
  r ← index_field i n h;
  let '(rv, i, h) := r in
  if negb (rv =? 0) then h ← nghttp2_rcbuf_decref (Some (nv_name e)) h; Some (NGHTTP2_ERR_NOMEM, None, i, h) else
  let i := set_keep (Some (nv_name e)) (Some vl) i in
  Some (0, Some n, set_value (valuebuf i) None i, h).

(** ** The state machine *)

(** How the body of the loop ends: [break] (with the rest of the input and [busy]),
    [goto fail], [goto almost_ok], or [return] with a field. *)
Inductive outcome :=
| Break (rest : list char) (busy : bool)
| Fail (rv : Z)
| AlmostOk (rest : list char)
| Emit (rest : list char) (n : nghttp2_hd_nv).

Abbreviation result := (option (outcome * nghttp2_hd_inflater * heap)).

Definition advance (rv : Z) (input : list char) : list char := drop (Z.to_nat rv) input.

(** [EXPECT_TABLE_SIZE], [INFLATE_START] and [OPCODE]. *)
Definition state_opcode (i : nghttp2_hd_inflater) (h : heap) (input : list char) : result :=
  c ← head input;
  if bool_decide (state i = NGHTTP2_HD_STATE_EXPECT_TABLE_SIZE) && negb (byte_is c 224 32)
  then Some (Fail NGHTTP2_ERR_HEADER_COMP, i, h) else
  if byte_is c 224 32 then
    if bool_decide (state i = NGHTTP2_HD_STATE_OPCODE) then Some (Fail NGHTTP2_ERR_HEADER_COMP, i, h) else
    let i := set_state NGHTTP2_HD_STATE_READ_TABLE_SIZE (set_op NGHTTP2_HD_OPCODE_INDEXED i) in
    Some (Break input false, set_left 0 0 i, h)
  else if negb (byte_is c 128 0) then
    let i := set_state NGHTTP2_HD_STATE_READ_INDEX (set_op NGHTTP2_HD_OPCODE_INDEXED i) in
    Some (Break input false, set_left 0 0 i, h)
  else
    let newname := byte_is c 255 64 || byte_is c 255 0 || byte_is c 255 16 in
    let i := if newname
             then set_state NGHTTP2_HD_STATE_NEWNAME_CHECK_NAMELEN (set_op NGHTTP2_HD_OPCODE_NEWNAME i)
             else set_state NGHTTP2_HD_STATE_READ_INDEX (set_op NGHTTP2_HD_OPCODE_INDNAME i) in
    let i := set_indexing (negb (byte_is c 64 0)) (byte_is c 240 16) i in
    Some (Break (if newname then tail input else input) false, set_left 0 0 i, h).

Definition state_read_table_size (i : nghttp2_hd_inflater) (h : heap) (input : list char) : result :=
  r ← hd_inflate_read_len i input 5 (Z.min (min_hd_table_bufsize_max i) (settings_hd_table_bufsize_max i));
  let '(rv, rfin, i) := r in
  if rv <? 0 then Some (Fail rv, i, h) else
  let input := advance rv input in
  if negb rfin then Some (AlmostOk input, i, h) else
  let i := set_limits (settings_hd_table_bufsize_max i) UINT32_MAX i in
  let i := set_ctx (set_bufsize_max (left i) (ctx i)) i in
  r ← hd_context_shrink_table_size (ctx i) None h;
  let '(c, _, h) := r in
  Some (Break input false, set_state NGHTTP2_HD_STATE_INFLATE_START (set_ctx c i), h).

Definition index_prefix (i : nghttp2_hd_inflater) : Z :=
  if bool_decide (opcode i = NGHTTP2_HD_OPCODE_INDEXED) then 7 else if index_required i then 6 else 4.

Definition state_read_index (i : nghttp2_hd_inflater) (h : heap) (input : list char) : result :=
  r ← hd_inflate_read_len i input (index_prefix i) (get_max_index (ctx i));
  let '(rv, rfin, i) := r in
  if rv <? 0 then Some (Fail rv, i, h) else
  let input := advance rv input in
  if negb rfin then Some (AlmostOk input, i, h) else
  if left i =? 0 then Some (Fail NGHTTP2_ERR_HEADER_COMP, i, h) else
  let i := set_index (left i - 1) i in
  if bool_decide (opcode i = NGHTTP2_HD_OPCODE_INDEXED) then
    n ← hd_inflate_commit_indexed i;
    Some (Emit input n, set_state NGHTTP2_HD_STATE_OPCODE i, h)
  else Some (Break input false, set_state NGHTTP2_HD_STATE_CHECK_VALUELEN i, h).

(** The length of a string: [NEWNAME_READ_NAMELEN] and [READ_VALUELEN], which
    differ in the buffer ([install]), the states that follow and [busy]. *)
Definition state_read_strlen (install : nghttp2_buf -> option nghttp2_rcbuf -> nghttp2_hd_inflater -> nghttp2_hd_inflater)
    (huff plain : nghttp2_hd_inflate_state) (busy : bool) (i : nghttp2_hd_inflater) (h : heap) (input : list char) : result :=
  r ← hd_inflate_read_len i input 7 NGHTTP2_HD_MAX_NV;
  let '(rv, rfin, i) := r in
  if rv <? 0 then Some (Fail rv, i, h) else
  let input := advance rv input in
  if negb rfin then Some (AlmostOk input, i, h) else
  let size := if huffman_encoded i then u32 (left i * 2 + 1) else u32 (left i + 1) in
  let i := if huffman_encoded i then set_state huff (set_huff nghttp2_hd_huff_decode_context_init i) else set_state plain i in
  let '(rv, r, h) := nghttp2_rcbuf_new malloc_ok junk (Z.to_nat size) h in
  if negb (rv =? 0) then Some (Fail rv, i, h) else
  Some (Break input busy, install (nghttp2_buf_wrap_init (base r)) (Some r) i, h).

(** [NEWNAME_CHECK_NAMELEN] and [CHECK_VALUELEN], which fall through to it. *)
Definition state_check_strlen (next : nghttp2_hd_inflate_state)
    (read : nghttp2_hd_inflater -> heap -> list char -> result) (i : nghttp2_hd_inflater) (h : heap) (input : list char) : result :=
  c ← head input;
  read (set_left 0 0 (set_state next (hd_inflate_set_huffman_encoded c i))) h input.

(** [*buf.last = 0; rcbuf->len = nghttp2_buf_len(&buf)]: the string is complete. *)
Definition finish_string (buf : nghttp2_buf) (r : option nghttp2_rcbuf) : option (nghttp2_buf * option nghttp2_rcbuf) :=
  buf ← hold buf NUL;
  r ← r;
  Some (buf, Some (Rcbuf (bytes buf) (nghttp2_buf_len buf) (addr r))).

Abbreviation reader := (nghttp2_hd_inflater -> nghttp2_buf -> list char -> option (Z * nghttp2_hd_inflater * nghttp2_buf)).

(** [NEWNAME_READ_NAMEHUFF] and [NEWNAME_READ_NAME] *)
Definition state_read_name (read : reader) (i : nghttp2_hd_inflater) (h : heap) (input : list char) : result :=
  r ← read i (namebuf i) input;
  let '(rv, i, buf) := r in
  let i := set_name buf (namercbuf i) i in
  if rv <? 0 then Some (Fail rv, i, h) else
  let input := advance rv input in
  if negb (left i =? 0) then Some (AlmostOk input, i, h) else
  br ← finish_string (namebuf i) (namercbuf i);
  Some (Break input false, set_state NGHTTP2_HD_STATE_CHECK_VALUELEN (set_name (fst br) (snd br) i), h).

(** [READ_VALUEHUFF] and [READ_VALUE] *)
Definition state_read_value (read : reader) (i : nghttp2_hd_inflater) (h : heap) (input : list char) : result :=
  r ← read i (valuebuf i) input;
  let '(rv, i, buf) := r in
  let i := set_value buf (valuercbuf i) i in
  if rv <? 0 then Some (Fail rv, i, h) else
  let input := advance rv input in
  if negb (left i =? 0) then Some (AlmostOk input, i, h) else
  br ← finish_string (valuebuf i) (valuercbuf i);
  let i := set_value (fst br) (snd br) i in
  r ← (if bool_decide (opcode i = NGHTTP2_HD_OPCODE_NEWNAME) then hd_inflate_commit_newname i h
       else hd_inflate_commit_indname i h);
  let '(rv, n, i, h) := r in
  if negb (rv =? 0) then Some (Fail rv, i, h) else
  n ← n;
  Some (Emit input n, set_state NGHTTP2_HD_STATE_OPCODE i, h).

(** [switch (inflater->state)] *)
Definition inflate_step (i : nghttp2_hd_inflater) (h : heap) (input : list char) : result :=
  let read_namelen := state_read_strlen set_name NGHTTP2_HD_STATE_NEWNAME_READ_NAMEHUFF NGHTTP2_HD_STATE_NEWNAME_READ_NAME false in
  let read_valuelen := state_read_strlen set_value NGHTTP2_HD_STATE_READ_VALUEHUFF NGHTTP2_HD_STATE_READ_VALUE true in
  match state i with
  | NGHTTP2_HD_STATE_EXPECT_TABLE_SIZE
  | NGHTTP2_HD_STATE_INFLATE_START
  | NGHTTP2_HD_STATE_OPCODE => state_opcode i h input
  | NGHTTP2_HD_STATE_READ_TABLE_SIZE => state_read_table_size i h input
  | NGHTTP2_HD_STATE_READ_INDEX => state_read_index i h input
  | NGHTTP2_HD_STATE_NEWNAME_CHECK_NAMELEN => state_check_strlen NGHTTP2_HD_STATE_NEWNAME_READ_NAMELEN read_namelen i h input
  | NGHTTP2_HD_STATE_NEWNAME_READ_NAMELEN => read_namelen i h input
  | NGHTTP2_HD_STATE_NEWNAME_READ_NAMEHUFF => state_read_name hd_inflate_read_huff i h input
  | NGHTTP2_HD_STATE_NEWNAME_READ_NAME => state_read_name hd_inflate_read i h input
  | NGHTTP2_HD_STATE_CHECK_VALUELEN => state_check_strlen NGHTTP2_HD_STATE_READ_VALUELEN read_valuelen i h input
  | NGHTTP2_HD_STATE_READ_VALUELEN => read_valuelen i h input
  | NGHTTP2_HD_STATE_READ_VALUEHUFF => state_read_value hd_inflate_read_huff i h input
  | NGHTTP2_HD_STATE_READ_VALUE => state_read_value hd_inflate_read i h input
  end.

(** [for (; in != last || busy;)] *)
Fixpoint inflate_loop (fuel : nat) (i : nghttp2_hd_inflater) (h : heap) (input : list char) (busy : bool) : result :=
  if bool_decide (input = []) && negb busy then Some (Break [] false, i, h) else
  match fuel with
  | O => None
  | S fuel =>
      r ← inflate_step i h input;
      let '(o, i, h) := r in
      match o with
      | Break rest busy => inflate_loop fuel i h rest busy
      | _ => Some (o, i, h)
      end
  end.

(** Two turns of the loop in a row read a byte, or it is the last but one. *)
Definition inflate_fuel (input : list char) : nat := 2 * length input + 2.

(** [rv], [*nv_out], [*inflate_flags], the inflater and the heap. *)
Abbreviation call := (option (Z * option nghttp2_hd_nv * Z * nghttp2_hd_inflater * heap)).

(** [fail:] *)
Definition inflate_fail (rv : Z) (i : nghttp2_hd_inflater) (h : heap) : call :=
  Some (rv, None, NGHTTP2_HD_INFLATE_NONE, set_ctx (set_bad (ctx i)) i, h).

(** What follows the loop, and [almost_ok:]. *)
Definition inflate_end (almost in_final : bool) (used : Z) (i : nghttp2_hd_inflater) (h : heap) : call :=
  if in_final then
    if almost || (negb (bool_decide (state i = NGHTTP2_HD_STATE_OPCODE)) && negb (bool_decide (state i = NGHTTP2_HD_STATE_INFLATE_START)))
    then inflate_fail NGHTTP2_ERR_HEADER_COMP i h
    else Some (used, None, NGHTTP2_HD_INFLATE_FINAL, i, h)
  else Some (used, None, NGHTTP2_HD_INFLATE_NONE, i, h).

Definition nghttp2_hd_inflate_hd_nv (i : nghttp2_hd_inflater) (h : heap) (input : list char) (in_final : bool) : call :=
  if bad (ctx i) then Some (NGHTTP2_ERR_HEADER_COMP, None, NGHTTP2_HD_INFLATE_NONE, i, h) else
  r ← hd_inflate_keep_free i h;
  let '(i, h) := r in
  r ← inflate_loop (inflate_fuel input) i h input false;
  let '(o, i, h) := r in
  let used rest := Z.of_nat (length input - length rest) in
  match o with
  | Emit rest n => Some (used rest, Some n, NGHTTP2_HD_INFLATE_EMIT, i, h)
  | Fail rv => inflate_fail rv i h
  | AlmostOk rest => inflate_end true in_final (used rest) i h
  | Break rest _ => inflate_end false in_final (used rest) i h
  end.

(** [nghttp2_hd_inflate_hd3]: the field as the application sees it. *)
Definition nghttp2_hd_inflate_hd3 (i : nghttp2_hd_inflater) (h : heap) (input : list char) (in_final : bool)
  : option (Z * option nghttp2_nv * Z * nghttp2_hd_inflater * heap) :=
  r ← nghttp2_hd_inflate_hd_nv i h input in_final;
  let '(rv, n, fl, i, h) := r in
  Some (rv, if rv <? 0 then None
            else if negb (Z.land fl NGHTTP2_HD_INFLATE_EMIT =? 0) then cnv <$> n else None, fl, i, h).
End Inflate.

(** ** What the application may ask *)

Definition nghttp2_hd_inflate_get_num_table_entries (i : nghttp2_hd_inflater) : Z := get_max_index (ctx i).
Definition nghttp2_hd_inflate_get_table_entry (i : nghttp2_hd_inflater) (idx : Z) : option (option nghttp2_nv) :=
  hd_get_table_entry (ctx i) idx.
Definition nghttp2_hd_inflate_get_dynamic_table_size (i : nghttp2_hd_inflater) : Z := hd_table_bufsize (ctx i).
Definition nghttp2_hd_inflate_get_max_dynamic_table_size (i : nghttp2_hd_inflater) : Z := hd_table_bufsize_max (ctx i).
