(* ===== verification/Hpack.v ===== *)
(** * HPACK: the abstract specification (RFC 7541)

    A header block is a sequence of representations (section 6); each has a meaning
    on a dynamic table, which is a list of fields, the newest first, and a maximum
    size (sections 2, 3 and 4).  The encoder is shown to write representations that
    mean the fields it was given (HdDeflateSpec.v), the decoder to compute the
    meaning of the representations it reads (HdInflateSpec.v).

    Indexes count from 0 here, as in the code; on the wire they count from 1. *)

From stdpp Require Import list.
From S2P Require Import Prelude CLib NgBuf HuffTable Huffman HuffSpec HpackInt HdStatic HdTable HdTableSpec.

(** ** Representations *)

Inductive name_ref :=
| NameAt (idx : Z)
| NewName (s : list char).

Inductive repr :=
| Indexed (idx : Z)
| Literal (mode : nghttp2_hd_indexing_mode) (nm : name_ref) (v : list char)
| SizeUpdate (n : Z).

(** ** Meaning *)

Record table := Table { t_max : Z; t_dyn : list field }.

(** The abstract table of a context. *)
Definition table_of (c : nghttp2_hd_context) (l : list entry) : table := Table (hd_table_bufsize_max c) (fields l).

(** A field with its sensitivity. *)
Abbreviation emitted := (field * bool)%type.

Definition name_of (t : table) (nm : name_ref) : option (list char) :=
  match nm with
  | NameAt i => fst <$> entry_at (t_dyn t) i
  | NewName s => Some s
  end.

(** Section 4.4: a new entry evicts the oldest ones. *)
Definition add_field (f : field) (t : table) : table := Table (t_max t) (fit (t_max t) (f :: t_dyn t)).

Definition is_never (m : nghttp2_hd_indexing_mode) : bool := bool_decide (m = NGHTTP2_HD_NEVER_INDEXING).

Definition meaning (t : table) (r : repr) : option (table * list emitted) :=
  match r with
  | Indexed i => f ← entry_at (t_dyn t) i; Some (t, [(f, false)])
  | Literal m nm v =>
      n ← name_of t nm;
      Some (if bool_decide (m = NGHTTP2_HD_WITH_INDEXING) then add_field (n, v) t else t, [((n, v), is_never m)])
  | SizeUpdate n => Some (Table n (fit n (t_dyn t)), [])
  end.

Fixpoint meanings (t : table) (rs : list repr) : option (table * list emitted) :=
  match rs with
  | [] => Some (t, [])
  | r :: rs =>
      a ← meaning t r;
      b ← meanings (fst a) rs;
      Some (fst b, snd a ++ snd b)
  end.

(** A representation of a field. *)
Definition of_field (r : repr) : Prop := match r with SizeUpdate _ => False | _ => True end.

(** ** Bytes *)

(** The longest string, on the wire, that is accepted ([NGHTTP2_HD_MAX_NV]). *)
Definition max_string : Z := 65536.

(** Section 5.2: a string, plain or Huffman coded. *)
Inductive str_bytes (s : list char) : list char -> Prop :=
| StrPlain : Z.of_nat (length s) <= max_string -> str_bytes s (encoded (uint8 0) (Z.of_nat (length s)) 7 ++ s)
| StrHuffman hs : Z.of_nat (length hs) <= max_string -> valid_bits (to_bits hs) s ->
    str_bytes s (encoded (uint8 128) (Z.of_nat (length hs)) 7 ++ hs).

(** Sections 6.2.1 to 6.2.3: the first byte of a literal, and the bits its index has. *)
Definition literal_byte (m : nghttp2_hd_indexing_mode) : Z :=
  match m with
  | NGHTTP2_HD_WITH_INDEXING => 64
  | NGHTTP2_HD_WITHOUT_INDEXING => 0
  | NGHTTP2_HD_NEVER_INDEXING => 16
  end.

Definition literal_prefix (m : nghttp2_hd_indexing_mode) : Z :=
  if bool_decide (m = NGHTTP2_HD_WITH_INDEXING) then 6 else 4.

Inductive repr_bytes : repr -> list char -> Prop :=
| IndexedBytes i : 0 <= i < UINT32_MAX -> repr_bytes (Indexed i) (encoded (uint8 128) (i + 1) 7)
| NameAtBytes m i v p : 0 <= i < UINT32_MAX -> str_bytes v p ->
    repr_bytes (Literal m (NameAt i) v) (encoded (uint8 (literal_byte m)) (i + 1) (literal_prefix m) ++ p)
| NewNameBytes m n v p q : str_bytes n p -> str_bytes v q ->
    repr_bytes (Literal m (NewName n) v) (uint8 (literal_byte m) :: p ++ q)
| SizeUpdateBytes n : 0 <= n <= UINT32_MAX -> repr_bytes (SizeUpdate n) (encoded (uint8 32) n 5).

Inductive reprs_bytes : list repr -> list char -> Prop :=
| NoBytes : reprs_bytes [] []
| MoreBytes r rs p q : repr_bytes r p -> reprs_bytes rs q -> reprs_bytes (r :: rs) (p ++ q).

(** ** Sequences *)

Lemma meanings_app t rs1 rs2 : meanings t (rs1 ++ rs2) =
  (a ← meanings t rs1; b ← meanings (fst a) rs2; Some (fst b, snd a ++ snd b)).
Proof.
  revert t. induction rs1 as [|r rs1 IH]; intros t; cbn [meanings app].
  - cbn [mbind option_bind fst snd app]. destruct (meanings t rs2) as [[]|]; done.
  - destruct (meaning t r) as [[t1 e1]|]; cbn [mbind option_bind fst snd]; [|done]. rewrite IH.
    destruct (meanings t1 rs1) as [[t2 e2]|]; cbn [mbind option_bind fst snd]; [|done].
    destruct (meanings t2 rs2) as [[t3 e3]|]; cbn [mbind option_bind fst snd]; [|done]. by rewrite app_assoc.
Qed.

Lemma reprs_bytes_app rs1 p1 rs2 p2 : reprs_bytes rs1 p1 -> reprs_bytes rs2 p2 -> reprs_bytes (rs1 ++ rs2) (p1 ++ p2).
Proof.
  intros H1 H2. induction H1 as [|r rs p q Hr _ IH]; [done|]. cbn. rewrite <- app_assoc. by constructor.
Qed.

Lemma reprs_bytes_one r p : repr_bytes r p -> reprs_bytes [r] p.
Proof. intros H. rewrite <- (app_nil_r p). constructor; [done|constructor]. Qed.

(** The table never holds more than its maximum. *)
Definition size_of (l : list field) : Z := fold_right (fun f s => field_size f + s) 0 l.

Lemma field_size_pos f : 32 <= field_size f.
Proof. unfold field_size. lia. Qed.

Lemma fit_size max l : 0 <= max -> size_of (fit max l) <= max.
Proof.
  revert max. induction l as [|f l IH]; intros max Hm; cbn [fit]; [done|]. pose proof (field_size_pos f).
  destruct (Z.leb_spec (field_size f) max); [|done]. cbn. specialize (IH (max - field_size f)). unfold size_of in IH. lia.
Qed.

Lemma fit_fit a b l : fit a (fit b l) = fit (Z.min a b) l.
Proof.
  revert a b. induction l as [|f l IH]; intros a b; cbn [fit]; [done|].
  destruct (Z.leb_spec (field_size f) b) as [Hb|Hb], (Z.leb_spec (field_size f) (Z.min a b)) as [Hm|Hm]; try lia; cbn [fit]; [| |done].
  - rewrite (proj2 (Z.leb_le _ _)) by lia. rewrite IH. do 2 f_equal. lia.
  - by rewrite (proj2 (Z.leb_gt _ _)) by lia.
Qed.
