(* ===== verification/HpackParse.v ===== *)
(** * HPACK: a reference decoder

    The decoder of RFC 7541 as a function on whole inputs: it keeps the bytes of a
    representation until all of them are there and then parses them.  The code
    instead stops and goes on anywhere; HdInflateSpec.v shows that it does the same.

    Integers are those of [int_spec] and strings are decoded with the automaton of
    Huffman.v, without its buffer; HuffSpec.v shows that it decodes the code of the
    RFC. *)

From stdpp Require Import list.
From S2P Require Import Prelude CLib NgBuf HuffTable Huffman HuffSpec HpackInt HdStatic HdTable HdTableSpec Hpack.

(** The parse of an input: a result and the rest, or the input ends too soon, or no
    continuation of it makes sense. *)
Inductive parsed (A : Type) :=
| Done (a : A) (rest : list char)
| More
| Malformed.
Arguments Done {A} _ _.
Arguments More {A}.
Arguments Malformed {A}.

Definition andthen {A B} (p : parsed A) (f : A -> list char -> parsed B) : parsed B :=
  match p with Done a rest => f a rest | More => More | Malformed => Malformed end.

(** ** Integers *)

Definition of_decoded (max : Z) (l : list char) (d : decoded) : parsed Z :=
  match d_res d with
  | None => Malformed
  | Some v => if max <? v then Malformed else if d_fin d then Done v (drop (Z.to_nat (d_rv d)) l) else More
  end.

Definition parse_int (prefix max : Z) (l : list char) : parsed Z :=
  match l with
  | [] => More
  | c :: l' => of_decoded max l (int_spec c l' prefix)
  end.

(** ** Strings *)

Definition huff_nibble (fs x : Z) : Z * list char :=
  match huff_entry fs x with
  | Some t => (fstate t, if has_flag (fstate t) NGHTTP2_HUFF_SYM then [uint8 (sym t)] else [])
  | None => (256, [])
  end.

(** The automaton on some bytes: the state it ends in, and the text. *)
Fixpoint huff_run (fs : Z) (src : list char) : Z * list char :=
  match src with
  | [] => (fs, [])
  | c :: src =>
      let '(f1, o1) := huff_nibble fs (Z.shiftr (bval c) 4) in
      let '(f2, o2) := huff_nibble f1 (Z.land (bval c) 15) in
      let '(f3, o3) := huff_run f2 src in (f3, o1 ++ o2 ++ o3)
  end.

(** The rest of a string: [left] bytes of it are due, [pre] is what is known of it,
    [fs] the state of the automaton. *)
Definition parse_rest (huffman : bool) (fs : Z) (pre : list char) (left : Z) (l : list char) : parsed (list char) :=
  let fin := left <=? Z.of_nat (length l) in
  let part := take (Z.to_nat left) l in
  let rest := drop (Z.to_nat left) l in
  if huffman then
    let '(fs, o) := huff_run fs part in
    if fs =? 256 then Malformed
    else if fin then (if has_flag fs NGHTTP2_HUFF_ACCEPTED then Done (pre ++ o) rest else Malformed)
    else More
  else if fin then Done (pre ++ part) rest else More.

Definition parse_string (l : list char) : parsed (list char) :=
  match l with
  | [] => More
  | c :: _ => andthen (parse_int 7 max_string l) (parse_rest (128 <=? bval c) NGHTTP2_HUFF_ACCEPTED [])
  end.

(** ** Representations *)

Inductive kind :=
| KindIndexed
| KindLiteral (m : nghttp2_hd_indexing_mode)
| KindUpdate.

(** Section 6: the kinds of first bytes. *)
Definition kind_of (b : Z) : kind :=
  if 128 <=? b then KindIndexed
  else if 64 <=? b then KindLiteral NGHTTP2_HD_WITH_INDEXING
  else if 32 <=? b then KindUpdate
  else if 16 <=? b then KindLiteral NGHTTP2_HD_NEVER_INDEXING
  else KindLiteral NGHTTP2_HD_WITHOUT_INDEXING.

(** Where in a block: an update is due, it may come, it may not come. *)
Inductive phase := Expecting | Starting | Inside.

(** Index 0 is not used. *)
Definition parse_index (prefix maxidx : Z) (l : list char) : parsed Z :=
  andthen (parse_int prefix maxidx l) (fun i rest => if i =? 0 then Malformed else Done (i - 1) rest).

Definition parse_value (m : nghttp2_hd_indexing_mode) (nm : name_ref) (l : list char) : parsed repr :=
  andthen (parse_string l) (fun v rest => Done (Literal m nm v) rest).

Definition parse_literal (m : nghttp2_hd_indexing_mode) (maxidx : Z) (c : char) (l : list char) : parsed repr :=
  if bval c =? literal_byte m then andthen (parse_string l) (fun s => parse_value m (NewName s))
  else andthen (parse_index (literal_prefix m) maxidx (c :: l)) (fun i => parse_value m (NameAt i)).

Definition parse_repr (ph : phase) (maxidx limit : Z) (l : list char) : parsed repr :=
  match l with
  | [] => More
  | c :: l' =>
      match ph, kind_of (bval c) with
      | Inside, KindUpdate => Malformed
      | _, KindUpdate => andthen (parse_int 5 limit l) (fun n rest => Done (SizeUpdate n) rest)
      | Expecting, _ => Malformed
      | _, KindIndexed => andthen (parse_index 7 maxidx l) (fun i rest => Done (Indexed i) rest)
      | _, KindLiteral m => parse_literal m maxidx c l'
      end
  end.

(** ** The decoder *)

(** [dc_settings] is the limit this end has announced; an update that is due has to
    go down to [dc_min].  [dc_pending] are the bytes of the representation that is
    not complete. *)
Record decoder := Decoder { dc_table : table; dc_settings : Z; dc_min : Z; dc_phase : phase; dc_pending : list char }.

Definition parse_next (a : decoder) (l : list char) : parsed repr :=
  parse_repr (dc_phase a) (61 + Z.of_nat (length (t_dyn (dc_table a)))) (Z.min (dc_min a) (dc_settings a)) l.

(** The decoder after a representation. *)
Definition decoder_next (a : decoder) (t : table) (r : repr) : decoder :=
  match r with
  | SizeUpdate _ => Decoder t (dc_settings a) UINT32_MAX Starting []
  | _ => Decoder t (dc_settings a) (dc_min a) Inside []
  end.

(** A field and the rest of the input, or the input is used up, or it is wrong. *)
Inductive decoding :=
| Field (e : emitted) (rest : list char) (a : decoder)
| Waiting (a : decoder)
| Wrong.

Fixpoint decode_from (fuel : nat) (a : decoder) (l : list char) : option decoding :=
  match fuel with
  | O => None
  | S fuel =>
      match parse_next a l with
      | More => Some (Waiting (Decoder (dc_table a) (dc_settings a) (dc_min a) (dc_phase a) l))
      | Malformed => Some Wrong
      | Done r rest =>
          match meaning (dc_table a) r with
          | None => Some Wrong
          | Some (t, []) => decode_from fuel (decoder_next a t r) rest
          | Some (t, e :: _) => Some (Field e rest (decoder_next a t r))
          end
      end
  end.

(** A piece of a block; every representation is a byte at least. *)
Definition decode_piece (a : decoder) (l : list char) : option decoding :=
  decode_from (S (length (dc_pending a ++ l))) a (dc_pending a ++ l).

(** All the fields that a piece completes. *)
Fixpoint decode_fields (fuel : nat) (a : decoder) (l : list char) : option (list emitted * decoder) :=
  match fuel with
  | O => None
  | S fuel =>
      match decode_piece a l with
      | Some (Field e rest a) => r ← decode_fields fuel a rest; Some (e :: fst r, snd r)
      | Some (Waiting a) => Some ([], a)
      | _ => None
      end
  end.

(** The end of a block is no place to wait for something. *)
Definition complete (a : decoder) : bool :=
  match dc_phase a, dc_pending a with
  | Expecting, _ => false
  | _, [] => true
  | _, _ => false
  end.

(** ** Integers in pieces *)

(** The rest of an integer, of which [n] and [shift] are known. *)
Definition resume_int (n shift prefix max : Z) (l : list char) : parsed Z :=
  match l with
  | [] => More
  | _ => match decode_length n shift l prefix with Some d => of_decoded max l d | None => Malformed end
  end.

Lemma parse_int_resume prefix max l : 1 <= prefix <= 8 -> parse_int prefix max l = resume_int 0 0 prefix max l.
Proof. intros Hp. destruct l as [|c l]; [done|]. unfold parse_int, resume_int. by rewrite decode_length_spec. Qed.

(** What comes out of [decode_length] on [l]. *)
Definition decoded_ok (low : Z) (l : list char) (used : Z) (d : decoded) : Prop :=
  match d_res d with
  | None => d_rv d = -1
  | Some v => low <= v <= UINT32_MAX /\ used <= d_rv d <= used + Z.of_nat (length l) /\
      (d_fin d = false -> d_rv d = used + Z.of_nat (length l) /\ 0 < v) /\ (d_fin d = true -> used < d_rv d)
  end.

Lemma decode_groups_ok l : forall n shift used, 0 < n <= UINT32_MAX -> decoded_ok n l used (decode_groups l n shift used).
Proof.
  induction l as [|c l IH]; intros n shift used Hn; cbn [decode_groups]; cbv zeta; unfold decoded_ok.
  { cbn. split; [lia|]. split; [lia|]. split; [lia|done]. }
  destruct (32 <=? shift); [done|]. destruct (Z.shiftr UINT32_MAX shift <? Z.land (bval c) 127); [done|].
  pose proof (u32_range (Z.shiftl (Z.land (bval c) 127) shift)) as Hu. set (add := u32 (Z.shiftl _ _)) in *.
  destruct (Z.ltb_spec (UINT32_MAX - add) n); [done|].
  assert (E : u32 (n + add) = n + add) by (apply u32_small; unfold UINT32_MAX in *; lia). rewrite E.
  destruct (Z.land (bval c) (Z.shiftl 1 7) =? 0).
  - cbn. split; [unfold UINT32_MAX in *; lia|]. split; [lia|]. split; [done|lia].
  - specialize (IH (n + add) (shift + 7) (used + 1) ltac:(unfold UINT32_MAX in *; lia)). unfold decoded_ok in IH.
    destruct (d_res _) as [v|]; [|done]. destruct IH as (H1 & H2 & H3 & H4). cbn [length]. split; [lia|]. split; [lia|].
    split; [intros Hf; specialize (H3 Hf); lia|intros Hf; specialize (H4 Hf); lia].
Qed.

Lemma decode_length_ok n shift l prefix : 1 <= prefix <= 8 -> 0 <= n <= UINT32_MAX -> l <> [] ->
  exists d, decode_length n shift l prefix = Some d /\ decoded_ok n l 0 d.
Proof.
  intros Hp Hn Hl. unfold decode_length. pose proof (mask_facts prefix Hp) as H. cbv zeta in H.
  set (k := prefix_mask prefix) in *. destruct H as (H1 & _ & _ & _ & _ & _ & H7 & Hk & _). rewrite H7.
  destruct (Z.eqb_spec n 0) as [->|Hne].
  - destruct l as [|c l]; [done|]. destruct (negb (Z.land (bval c) k =? k)).
    + eexists. split; [done|]. unfold decoded_ok. cbn -[Z.of_nat]. cbn [length].
      assert (0 <= Z.land (bval c) k <= UINT32_MAX); [|lia]. rewrite Hk. replace (2 ^ prefix - 1) with (Z.ones prefix) by (rewrite Z.ones_equiv; lia).
      rewrite Z.land_ones by lia. pose proof (Z.mod_pos_bound (bval c) (2 ^ prefix)) as Hb. unfold UINT32_MAX. lia.
    + destruct l as [|c' l].
      * eexists. split; [done|]. unfold decoded_ok, UINT32_MAX. cbn. lia.
      * eexists. split; [done|]. pose proof (decode_groups_ok (c' :: l) k shift 1 ltac:(unfold UINT32_MAX; lia)) as H. unfold decoded_ok in *.
        destruct (d_res _); [|done]. cbn [length] in *. destruct H as (H2 & H3 & H4 & H5). split; [lia|]. split; [lia|].
        split; [intros Hf; specialize (H4 Hf); lia|intros Hf; specialize (H5 Hf); lia].
  - eexists. split; [done|]. apply decode_groups_ok. lia.
Qed.

(** A piece of an integer: it is all there, or the rest is read from [n'] and
    [shift'] on. *)
Lemma resume_int_app n shift prefix max l : 1 <= prefix <= 8 -> 0 <= n <= UINT32_MAX -> (n = 0 -> shift = 0) -> l <> [] ->
  match resume_int n shift prefix max l with
  | Done v rest => forall x, resume_int n shift prefix max (l ++ x) = Done v (rest ++ x)
  | Malformed => forall x, resume_int n shift prefix max (l ++ x) = Malformed
  | More => exists n' shift', (exists d, decode_length n shift l prefix = Some d /\ d_res d = Some n' /\ d_shift d = shift') /\
      forall x, resume_int n shift prefix max (l ++ x) = resume_int n' shift' prefix max x
  end.
Proof.
  intros Hp Hn H0 Hl. destruct (decode_length_ok n shift l prefix Hp Hn Hl) as (d & E & Hd).
  assert (Happ : forall x, resume_int n shift prefix max (l ++ x) =
    match (if d_fin d then Some d else match d_res d with None => Some d | Some v => advance (d_rv d) <$> decode_length v (d_shift d) x prefix end)
    with Some d' => of_decoded max (l ++ x) d' | None => Malformed end).
  { intros x. destruct (decode_length_in_pieces n shift l x prefix Hp Hn H0 Hl) as (d' & E' & Ex). rewrite E in E'. injection E' as <-.
    unfold resume_int. destruct l; [done|]. cbn [app] in *. by rewrite Ex. }
  unfold resume_int at 1. destruct l as [|c l]; [done|]. rewrite E. unfold of_decoded at 1. unfold decoded_ok in Hd.
  destruct (d_res d) as [v|] eqn:Er.
  2: { intros x. rewrite Happ. destruct (d_fin d); by unfold of_decoded; rewrite Er. }
  destruct Hd as (Hv & Hu & Hm & Hf). destruct (Z.ltb_spec max v) as [Hmax|Hmax].
  - intros x. rewrite Happ. destruct (d_fin d) eqn:Ef.
    { unfold of_decoded. rewrite Er. by rewrite (proj2 (Z.ltb_lt _ _)) by lia. }
    destruct (Hm eq_refl) as [_ Hpos]. unfold decode_length. rewrite (proj2 (Z.eqb_neq v 0)) by lia. cbn.
    pose proof (decode_groups_ok x v (d_shift d) 0 ltac:(lia)) as Hg. unfold decoded_ok in Hg. unfold of_decoded, advance.
    destruct (d_res (decode_groups _ _ _ _)) as [w|] eqn:Eg; [|by rewrite Eg]. cbn. rewrite (proj2 (Z.ltb_lt _ _)) by lia. done.
  - destruct (d_fin d) eqn:Ef.
    + intros x. rewrite Happ. unfold of_decoded. rewrite Er, Ef, (proj2 (Z.ltb_ge _ _)) by lia. f_equal. apply drop_app_le. lia.
    + exists v, (d_shift d). split; [by exists d|]. intros x. rewrite Happ. destruct (Hm eq_refl) as [Hrv Hpos]. unfold resume_int.
      unfold decode_length. rewrite (proj2 (Z.eqb_neq v 0)) by lia. cbn.
      destruct x as [|c' x].
      * cbn. unfold of_decoded. cbn. rewrite (proj2 (Z.ltb_ge _ _)) by lia. done.
      * unfold of_decoded, advance. set (g := decode_groups _ _ _ _) in *.
        pose proof (decode_groups_ok (c' :: x) v (d_shift d) 0 ltac:(lia)) as Hg. fold g in Hg. unfold decoded_ok in Hg.
        destruct (d_res g) as [w|] eqn:Eg; [|by rewrite Eg]. cbn [d_res d_fin d_rv]. destruct (max <? w); [done|].
        destruct (d_fin g); [|done]. f_equal. rewrite Hrv, Z.add_0_l, Z2Nat.inj_add, Nat2Z.id by lia.
        rewrite <- drop_drop. change (c :: l ++ c' :: x) with ((c :: l) ++ c' :: x). by rewrite drop_app_length.
Qed.

(** ** Strings in pieces *)

Lemma huff_run_app a b : forall fs, huff_run fs (a ++ b) =
  (fst (huff_run (fst (huff_run fs a)) b), snd (huff_run fs a) ++ snd (huff_run (fst (huff_run fs a)) b)).
Proof.
  induction a as [|c a IH]; intros fs; cbn [app huff_run].
  - cbn. by destruct (huff_run fs b).
  - destruct (huff_nibble fs _) as [f1 o1]. destruct (huff_nibble f1 _) as [f2 o2]. rewrite IH.
    destruct (huff_run f2 a) as [f3 o3]. cbn. by rewrite !app_assoc.
Qed.

Lemma huff_nibble_dead x : huff_nibble 256 x = (256, []).
Proof.
  unfold huff_nibble, huff_entry. change (Z.to_nat (Z.land 256 511)) with 256%nat.
  assert (H : exists row, huff_decode_table !! 256%nat = Some row /\ forallb (fun t => (fstate t =? 256) && negb (has_flag (fstate t) NGHTTP2_HUFF_SYM)) row = true).
  { eexists. split; [vm_compute; reflexivity|]. vm_compute. reflexivity. }
  destruct H as (row & -> & Hrow). cbn [mbind option_bind]. destruct (row !! Z.to_nat x) as [t|] eqn:E; [|done].
  pose proof (forallb_lookup _ _ _ _ Hrow E) as H. cbn beta in H. apply andb_prop in H as [->%Z.eqb_eq H]. by destruct (has_flag 256 _).
Qed.

Lemma huff_run_dead src : huff_run 256 src = (256, []).
Proof. induction src as [|c src IH]; cbn [huff_run]; [done|]. by rewrite !huff_nibble_dead, IH. Qed.

(** All that is due is there. *)
Lemma parse_rest_done huffman fs pre left l x : 0 <= left <= Z.of_nat (length l) ->
  parse_rest huffman fs pre left (l ++ x) =
    match parse_rest huffman fs pre left l with Done s rest => Done s (rest ++ x) | r => r end.
Proof.
  intros Hl. unfold parse_rest. rewrite length_app, Nat2Z.inj_add, !(proj2 (Z.leb_le _ _)) by lia.
  rewrite take_app_le, drop_app_le by lia. destruct huffman; [|done]. destruct (huff_run fs _) as [fs' o].
  destruct (fs' =? 256); [done|]. by destruct (has_flag fs' _).
Qed.

(** Some of it is missing. *)
Lemma parse_rest_plain fs pre left l x : Z.of_nat (length l) < left ->
  parse_rest false fs pre left (l ++ x) = parse_rest false fs (pre ++ l) (left - Z.of_nat (length l)) x.
Proof.
  intros Hl. unfold parse_rest. rewrite length_app, Nat2Z.inj_add.
  assert (El : (left - Z.of_nat (length l) <=? Z.of_nat (length x)) = (left <=? Z.of_nat (length l) + Z.of_nat (length x)))
    by (apply eq_true_iff_eq; rewrite !Z.leb_le; lia). rewrite El.
  replace (Z.to_nat left) with (length l + Z.to_nat (left - Z.of_nat (length l)))%nat by lia.
  rewrite take_app_add', drop_app_add', <- app_assoc by done. done.
Qed.

Lemma parse_rest_huff fs pre left l x : Z.of_nat (length l) < left ->
  parse_rest true fs pre left (l ++ x) =
    if fst (huff_run fs l) =? 256 then Malformed
    else parse_rest true (fst (huff_run fs l)) (pre ++ snd (huff_run fs l)) (left - Z.of_nat (length l)) x.
Proof.
  intros Hl. unfold parse_rest. rewrite length_app, Nat2Z.inj_add.
  assert (El : (left - Z.of_nat (length l) <=? Z.of_nat (length x)) = (left <=? Z.of_nat (length l) + Z.of_nat (length x)))
    by (apply eq_true_iff_eq; rewrite !Z.leb_le; lia). rewrite El.
  replace (Z.to_nat left) with (length l + Z.to_nat (left - Z.of_nat (length l)))%nat by lia.
  rewrite take_app_add', drop_app_add', huff_run_app by done.
  replace (Z.to_nat (Z.of_nat (length l + Z.to_nat (left - Z.of_nat (length l))) - Z.of_nat (length l))) with (Z.to_nat (left - Z.of_nat (length l))) by lia.
  set (part := take _ x). destruct (huff_run fs l) as [f1 o1]. cbn [fst snd]. destruct (Z.eqb_spec f1 256) as [->|Hne].
  - rewrite huff_run_dead. done.
  - destruct (huff_run f1 part) as [f2 o2]. cbn [fst snd]. by rewrite app_assoc.
Qed.

(** The decoder of Huffman.v runs the automaton. *)
Lemma decode_nibble_run fs x buf off fs' buf' : wf_buf off buf -> decode_nibble fs x buf = Some (fs', buf') ->
  exists o, huff_nibble fs x = (fs', o) /\ wf_buf off buf' /\ present buf' = present buf ++ o /\
    nghttp2_buf_cap buf' = nghttp2_buf_cap buf /\ pos buf' = pos buf.
Proof.
  intros Hw. unfold decode_nibble, huff_nibble. destruct (huff_entry fs x) as [t|]; cbn [mbind option_bind]; [|done].
  destruct (has_flag (fstate t) NGHTTP2_HUFF_SYM).
  - destruct (put buf (uint8 (sym t))) as [b|] eqn:E; cbn [mbind option_bind]; [|done]. intros [= <- <-].
    assert (Ha : (0 < nghttp2_buf_avail buf)%nat).
    { unfold put, hold, nghttp2_buf_avail in *. destruct (Nat.ltb_spec (last buf) (nghttp2_buf_cap buf)); [lia|done]. }
    destruct (put_spec off buf (uint8 (sym t)) Hw Ha) as (b' & E' & H1 & H2 & H3 & H4 & _). rewrite E in E'. injection E' as <-.
    by exists [uint8 (sym t)].
  - intros [= <- <-]. exists []. by rewrite app_nil_r.
Qed.

Lemma decode_bytes_run src : forall fs buf off fs' buf', wf_buf off buf -> decode_bytes fs buf src = Some (fs', buf') ->
  exists o, huff_run fs src = (fs', o) /\ wf_buf off buf' /\ present buf' = present buf ++ o /\
    nghttp2_buf_cap buf' = nghttp2_buf_cap buf /\ pos buf' = pos buf.
Proof.
  induction src as [|c src IH]; intros fs buf off fs' buf' Hw; cbn [decode_bytes huff_run].
  - intros [= <- <-]. exists []. by rewrite app_nil_r.
  - destruct (decode_nibble fs _ buf) as [[f1 b1]|] eqn:E1; cbn [mbind option_bind]; [|done].
    destruct (decode_nibble f1 _ b1) as [[f2 b2]|] eqn:E2; cbn [mbind option_bind]; [|done]. intros E3.
    destruct (decode_nibble_run _ _ _ _ _ _ Hw E1) as (o1 & -> & Hw1 & P1 & C1 & L1).
    destruct (decode_nibble_run _ _ _ _ _ _ Hw1 E2) as (o2 & -> & Hw2 & P2 & C2 & L2).
    destruct (IH _ _ _ _ _ Hw2 E3) as (o3 & -> & Hw3 & P3 & C3 & L3). exists (o1 ++ o2 ++ o3).
    split; [done|]. split; [done|]. split; [by rewrite P3, P2, P1, !app_assoc|]. split; congruence.
Qed.

(** So it decodes the code of the RFC. *)
Lemma huff_run_valid hs s : valid_bits (to_bits hs) s ->
  exists fs, huff_run NGHTTP2_HUFF_ACCEPTED hs = (fs, s) /\ has_flag fs NGHTTP2_HUFF_ACCEPTED = true /\ (fs =? 256) = false.
Proof.
  intros Hv. destruct init_ok as [Hi Hr].
  set (buf := nghttp2_buf_wrap_init (zeros (2 * length hs))).
  assert (Hw : wf_buf 0 buf) by (unfold wf_buf, nghttp2_buf_cap; cbn; lia).
  destruct (decode_bytes_spec 0 hs NGHTTP2_HUFF_ACCEPTED buf Hi Hw) as (fs & b & o & E & Hfs & Hw' & P & L & R).
  { unfold nghttp2_buf_avail, nghttp2_buf_cap, buf, zeros. cbn [bytes last nghttp2_buf_wrap_init]. rewrite length_replicate. lia. }
  apply R in Hr. cbn [app] in Hr. pose proof (read_accepted _ _ _ Hfs Hr) as Ha.
  destruct (decode_bytes_run _ _ _ _ _ _ Hw E) as (o' & Erun & _ & P' & _). rewrite P in P'. apply app_inv_head in P'. subst o'.
  exists fs. destruct (has_flag fs NGHTTP2_HUFF_ACCEPTED) eqn:Ef; [|by destruct (Ha s)].
  rewrite (valid_unique _ _ _ Ha Hv) in Erun. split; [done|]. split; [done|]. destruct (Z.eqb_spec fs 256) as [->|]; [done|done].
Qed.

(** ** What was written is parsed *)

Lemma split_byte c prefix : 1 <= prefix <= 8 -> let k := prefix_mask prefix in
  bval c = Z.land (bval c) (255 - k) + Z.land (bval c) k.
Proof.
  intros Hp. pattern prefix. apply (prefix_cases _ prefix Hp); destruct c as [[] [] [] [] [] [] [] []]; vm_compute; reflexivity.
Qed.

(** The first byte of an integer, the bits of [b] kept. *)
Lemma encoded_head b n prefix : 1 <= prefix <= 8 -> 0 <= n -> 0 <= b < 256 -> Z.land b (255 - prefix_mask prefix) = b ->
  exists c l, encoded (uint8 b) n prefix = c :: l /\ bval c = b + Z.min n (prefix_mask prefix).
Proof.
  intros Hp Hn Hb Hlow. unfold encoded. set (k := prefix_mask prefix) in *. pose proof (mask_facts prefix Hp) as H. cbv zeta in H.
  fold k in H. destruct H as (H1 & _).
  assert (Hfirst : forall x, 0 <= x <= k -> bval (first_byte (uint8 b) k x) = b + x).
  { intros x Hx. destruct (first_byte_spec (uint8 b) prefix x Hp Hx) as [Hk Hh]. fold k in Hk, Hh.
    pose proof (split_byte (first_byte (uint8 b) k x) prefix Hp) as Hs. cbv zeta in Hs. fold k in Hs. rewrite Hk, Hh, bval_u8, u8_small in Hs by lia. lia. }
  destruct (Z.ltb_spec n k); do 2 eexists; (split; [done|]); rewrite Hfirst by lia; f_equal; lia.
Qed.

Lemma parse_int_encoded c n prefix max x : 1 <= prefix <= 8 -> 0 <= n <= UINT32_MAX -> n <= max ->
  parse_int prefix max (encoded c n prefix ++ x) = Done n x.
Proof.
  intros Hp Hn Hmax. unfold encoded. pose proof (mask_facts prefix Hp) as H. cbv zeta in H. set (k := prefix_mask prefix) in *.
  destruct H as (H1 & _). destruct (Z.ltb_spec n k) as [Hlt|Hge]; cbn [app parse_int]; unfold int_spec; fold k.
  - destruct (first_byte_spec c prefix n Hp ltac:(fold k; lia)) as [Hlow _]. fold k in Hlow. rewrite Hlow, (proj2 (Z.eqb_neq n k)) by lia.
    unfold of_decoded. cbn. rewrite (proj2 (Z.ltb_ge _ _)) by lia. done.
  - destruct (first_byte_spec c prefix k Hp ltac:(fold k; lia)) as [Hlow _]. fold k in Hlow. rewrite Hlow, Z.eqb_refl. cbn [negb].
    assert (Hg : fueled 5 (n - k)) by (split; [lia|]; change (128 ^ Z.of_nat 5) with 34359738368; unfold UINT32_MAX in Hn; lia).
    assert (Hg6 : fueled 6 (n - k)) by (split; [lia|]; change (128 ^ Z.of_nat 6) with 4398046511104; unfold UINT32_MAX in Hn; lia).
    rewrite groups_of_bytes by done. pose proof (encoded_length c n prefix Hp Hn) as [Hlen _]. unfold encoded in Hlen. fold k in Hlen.
    rewrite (proj2 (Z.ltb_ge _ _)) in Hlen by lia. cbn [length] in Hlen. unfold fits.
    rewrite (proj2 (Nat.leb_le _ _)), (proj2 (Z.leb_le _ _)) by lia. cbn [andb]. unfold of_decoded. cbn [d_res d_fin d_rv].
    replace (k + (n - k)) with n by lia. rewrite (proj2 (Z.ltb_ge _ _)) by lia. f_equal.
    replace (Z.to_nat (1 + Z.of_nat (length (group_bytes groups_fuel (n - k))))) with (S (length (group_bytes groups_fuel (n - k)))) by lia.
    cbn [drop]. apply drop_app_length.
Qed.

Lemma parse_string_bytes s p x : str_bytes s p -> parse_string (p ++ x) = Done s x.
Proof.
  intros H. assert (Hhead : forall b len l, (b = 0 \/ b = 128) -> 0 <= len <= max_string -> parse_string ((encoded (uint8 b) len 7 ++ l) ++ x) =
    parse_rest (b =? 128) NGHTTP2_HUFF_ACCEPTED [] len (l ++ x)).
  { intros b len l Hb Hlen. assert (Hc : exists c l', encoded (uint8 b) len 7 = c :: l' /\ bval c = b + Z.min len (prefix_mask 7))
      by (destruct Hb as [-> | ->]; apply encoded_head; (lia || done)).
    destruct Hc as (c & l' & E & Hv). rewrite <- app_assoc. unfold parse_string. rewrite E at 1. cbn [app].
    rewrite parse_int_encoded by (unfold max_string, UINT32_MAX in *; lia). cbn [andthen]. f_equal. rewrite Hv. change (prefix_mask 7) with 127.
    destruct Hb as [-> | ->]; [apply Z.leb_gt|apply Z.leb_le]; lia. }
  inversion H as [Hl|hs Hl Hv]; subst.
  - rewrite Hhead by (auto || lia). unfold parse_rest. cbn [Z.eqb]. rewrite length_app, (proj2 (Z.leb_le _ _)) by lia.
    by rewrite Nat2Z.id, take_app_length, drop_app_length.
  - rewrite Hhead by (auto || lia). unfold parse_rest. cbn [Z.eqb Pos.eqb]. rewrite length_app, (proj2 (Z.leb_le _ _)) by lia.
    rewrite Nat2Z.id, take_app_length, drop_app_length. by destruct (huff_run_valid hs s Hv) as (fs & -> & -> & ->).
Qed.

Lemma kind_literal m v : 0 <= v <= prefix_mask (literal_prefix m) -> kind_of (literal_byte m + v) = KindLiteral m.
Proof.
  destruct m; unfold literal_prefix, literal_byte, kind_of; [rewrite bool_decide_true by done|rewrite bool_decide_false by done..];
    [change (prefix_mask 6) with 63|change (prefix_mask 4) with 15..]; intros Hv.
  all: repeat (first [rewrite (proj2 (Z.leb_gt _ _)) by lia | rewrite (proj2 (Z.leb_le _ _)) by lia]; try done).
Qed.

(** The representations that may come. *)
Definition parsable (ph : phase) (maxidx limit : Z) (r : repr) : Prop :=
  match r with
  | SizeUpdate n => ph <> Inside /\ n <= limit
  | Indexed i | Literal _ (NameAt i) _ => ph <> Expecting /\ i < maxidx
  | Literal _ (NewName _) _ => ph <> Expecting
  end.

Lemma parse_index_encoded c i prefix maxidx x : 1 <= prefix <= 8 -> 0 <= i < UINT32_MAX -> i < maxidx ->
  parse_index prefix maxidx (encoded c (i + 1) prefix ++ x) = Done i x.
Proof.
  intros Hp Hi Hm. unfold parse_index. rewrite parse_int_encoded by lia. cbn [andthen]. rewrite (proj2 (Z.eqb_neq _ _)) by lia. f_equal. lia.
Qed.

(** The first byte of [p] decides what is parsed. *)
Lemma parse_repr_literal ph maxidx limit m c l : ph <> Expecting -> kind_of (bval c) = KindLiteral m ->
  parse_repr ph maxidx limit (c :: l) = parse_literal m maxidx c l.
Proof. intros Hph Hk. cbn. rewrite Hk. by destruct ph. Qed.

Lemma literal_prefix_ok m : 1 <= literal_prefix m <= 8 /\ 0 <= literal_byte m < 256 /\
  Z.land (literal_byte m) (255 - prefix_mask (literal_prefix m)) = literal_byte m.
Proof. by destruct m. Qed.

(** An encoded representation is parsed to itself, whatever follows it. *)
Lemma parse_repr_bytes ph maxidx limit r p x : repr_bytes r p -> parsable ph maxidx limit r ->
  parse_repr ph maxidx limit (p ++ x) = Done r x.
Proof.
  intros H Hok. inversion H as [i Hi|m i v q Hi Hq|m n v q1 q2 Hq1 Hq2|n Hn]; subst; cbn [parsable] in Hok.
  - destruct Hok as [Hph Him]. destruct (encoded_head 128 (i + 1) 7) as (c & l & E & Hv); [lia..|done|]. rewrite E. cbn [app parse_repr].
    assert (Hk : kind_of (bval c) = KindIndexed) by (unfold kind_of; change (prefix_mask 7) with 127 in Hv; by rewrite (proj2 (Z.leb_le _ _)) by lia).
    rewrite Hk. change (c :: l ++ x) with ((c :: l) ++ x). rewrite <- E, parse_index_encoded by lia. by destruct ph.
  - destruct Hok as [Hph Him]. destruct (literal_prefix_ok m) as (Hlp & Hlb & Hland).
    destruct (encoded_head (literal_byte m) (i + 1) (literal_prefix m)) as (c & l & E & Hv); [lia|lia|lia|done|].
    pose proof (mask_facts (literal_prefix m) Hlp) as Hmask. cbv zeta in Hmask. destruct Hmask as (Hmask & _).
    assert (Hk : kind_of (bval c) = KindLiteral m) by (rewrite Hv; apply kind_literal; lia).
    rewrite E. cbn [app]. rewrite (parse_repr_literal _ _ _ m) by done. unfold parse_literal. rewrite (proj2 (Z.eqb_neq _ _)) by lia.
    change (c :: (l ++ q) ++ x) with (((c :: l) ++ q) ++ x). rewrite <- E, <- app_assoc, parse_index_encoded by lia. cbn [andthen].
    unfold parse_value. by rewrite (parse_string_bytes v q x Hq).
  - destruct (literal_prefix_ok m) as (Hlp & Hlb & Hland). cbn [app].
    assert (Hv : bval (uint8 (literal_byte m)) = literal_byte m) by (rewrite bval_u8; by apply u8_small).
    rewrite (parse_repr_literal _ _ _ m); [|done|rewrite Hv, <- (Z.add_0_r (literal_byte m)); apply kind_literal; by destruct m].
    unfold parse_literal. rewrite Hv, Z.eqb_refl, <- app_assoc, (parse_string_bytes n q1 _ Hq1). cbn [andthen].
    unfold parse_value. by rewrite (parse_string_bytes v q2 x Hq2).
  - destruct Hok as [Hph Hl]. destruct (encoded_head 32 n 5) as (c & l & E & Hv); [lia..|done|]. rewrite E. cbn [app parse_repr].
    assert (Hk : kind_of (bval c) = KindUpdate).
    { unfold kind_of. change (prefix_mask 5) with 31 in Hv. do 2 rewrite (proj2 (Z.leb_gt _ _)) by lia. by rewrite (proj2 (Z.leb_le _ _)) by lia. }
    rewrite Hk. change (c :: l ++ x) with ((c :: l) ++ x). rewrite <- E, parse_int_encoded by lia. by destruct ph.
Qed.

(** ** Parsing reads no more than it needs *)

Definition local {A} (P : list char -> parsed A) : Prop :=
  forall l a rest, P l = Done a rest -> exists p, p <> [] /\ l = p ++ rest /\ forall x, P (p ++ x) = Done a x.

(** The same, where nothing may be needed. *)
Definition lazy {A} (P : list char -> parsed A) : Prop :=
  forall l a rest, P l = Done a rest -> exists p, l = p ++ rest /\ forall x, P (p ++ x) = Done a x.

Lemma local_lazy {A} (P : list char -> parsed A) : local P -> lazy P.
Proof. intros H l a rest (p & _ & E & Hx)%H. by exists p. Qed.

Lemma local_andthen {A B} (P : list char -> parsed A) (Q : A -> list char -> parsed B) :
  local P -> (forall a, lazy (Q a)) -> local (fun l => andthen (P l) Q).
Proof.
  intros HP HQ l b rest. destruct (P l) as [a rest1| |] eqn:E; cbn [andthen]; [|done|done]. intros EQ.
  destruct (HP _ _ _ E) as (p & Hp & -> & Hx). destruct (HQ _ _ _ _ EQ) as (q & -> & Hy). exists (p ++ q).
  split; [by destruct p|]. split; [by rewrite app_assoc|]. intros x. rewrite <- app_assoc, Hx. apply Hy.
Qed.

Lemma lazy_done {A B} (f : A -> B) a : lazy (fun l => Done (f a) l).
Proof. intros l b rest [= <- ->]. by exists []. Qed.

Lemma groups_local l v m : groups l = Some (v, m) -> forall x, groups (take m l ++ x) = Some (v, m).
Proof.
  revert v m. induction l as [|c l IH]; intros v m; cbn [groups]; [done|]. destruct (bval c <? 128) eqn:Ec.
  - intros [= <- <-] x. cbn [take app groups]. by rewrite Ec.
  - destruct (groups l) as [[w n]|]; cbn [mbind option_bind]; [|done]. intros [= <- <-] x. cbn [take app groups].
    rewrite Ec, (IH w n eq_refl). done.
Qed.

Lemma parse_int_local prefix max : local (parse_int prefix max).
Proof.
  intros [|c l] v rest; cbn [parse_int]; [done|]. unfold int_spec. set (k := prefix_mask prefix).
  destruct (negb (Z.land (bval c) k =? k)) eqn:Ec.
  - unfold of_decoded. cbn. destruct (Z.ltb_spec max (Z.land (bval c) k)) as [|Hm]; [done|]. intros [= <- <-]. exists [c].
    split; [done|]. split; [done|]. intros x. cbn [app parse_int]. unfold int_spec. fold k. rewrite Ec. unfold of_decoded. cbn.
    by rewrite (proj2 (Z.ltb_ge _ _)) by lia.
  - destruct (groups l) as [[w m]|] eqn:Eg; [destruct (fits m k w) eqn:Ef|destruct (fits _ _ _)]; unfold of_decoded; cbn [d_res d_fin d_rv]; [|done| |done].
    2: { by destruct (_ <? _). }
    destruct (Z.ltb_spec max (k + w)) as [|Hm]; [done|]. intros [= <- <-].
    replace (Z.to_nat (1 + Z.of_nat m)) with (S m) by lia. cbn [drop]. exists (c :: take m l). split; [done|].
    split; [cbn [app]; by rewrite take_drop|]. intros x. cbn [app parse_int]. unfold int_spec. fold k. rewrite Ec, (groups_local _ _ _ Eg), Ef.
    unfold of_decoded. cbn [d_res d_fin d_rv]. rewrite (proj2 (Z.ltb_ge _ _)) by lia. f_equal.
    replace (Z.to_nat (1 + Z.of_nat m)) with (S m) by lia. cbn [drop]. destruct (groups_range _ _ _ Eg) as [_ Hl].
    apply drop_app_length'. rewrite length_take. lia.
Qed.

Lemma parse_rest_lazy huffman fs pre left : lazy (parse_rest huffman fs pre left).
Proof.
  intros l s rest E. assert (Hl : left <= Z.of_nat (length l)).
  { unfold parse_rest in E. destruct (Z.leb_spec left (Z.of_nat (length l))); [done|]. destruct huffman; [|done].
    destruct (huff_run _ _) as [fs' o]. by destruct (fs' =? 256). }
  exists (take (Z.to_nat left) l).
  assert (Er : rest = drop (Z.to_nat left) l).
  { unfold parse_rest in E. rewrite (proj2 (Z.leb_le _ _)) in E by lia. destruct huffman; [|by injection E].
    destruct (huff_run _ _) as [fs' o]. destruct (fs' =? 256); [done|]. destruct (has_flag fs' _); [by injection E|done]. }
  split; [by rewrite Er, take_drop|]. intros x. unfold parse_rest in *. rewrite (proj2 (Z.leb_le _ _)) in E by lia.
  assert (Ht : length (take (Z.to_nat left) l) = Z.to_nat left) by (rewrite length_take; lia).
  rewrite length_app, Ht, (proj2 (Z.leb_le _ _)) by lia. rewrite take_app_length', drop_app_length' by done.
  destruct huffman; [|by injection E as <- _]. destruct (huff_run _ _) as [fs' o]. destruct (fs' =? 256); [done|].
  destruct (has_flag fs' _); [by injection E as <- _|done].
Qed.

Lemma parse_string_local : local parse_string.
Proof.
  intros [|c l] s rest; cbn [parse_string]; [done|]. intros E.
  assert (H : local (fun l => andthen (parse_int 7 max_string l) (parse_rest (128 <=? bval c) NGHTTP2_HUFF_ACCEPTED [])))
    by (apply local_andthen; [apply parse_int_local|intros a; apply parse_rest_lazy]).
  destruct (H _ _ _ E) as (p & Hp & El & Hx). exists p. split; [done|]. split; [done|]. intros x.
  destruct p as [|c' p]; [done|]. cbn [app] in El. injection El as <- _. apply Hx.
Qed.

Lemma parse_value_local m nm : local (parse_value m nm).
Proof. apply local_andthen; [apply parse_string_local|]. intros v. apply (lazy_done (fun v => Literal m nm v)). Qed.

Lemma parse_index_local prefix maxidx : local (parse_index prefix maxidx).
Proof.
  apply local_andthen; [apply parse_int_local|]. intros i l j rest. destruct (i =? 0) eqn:Ei; [done|]. intros [= <- ->]. by exists [].
Qed.

Lemma parse_repr_local ph maxidx limit : local (parse_repr ph maxidx limit).
Proof.
  intros l r rest. destruct l as [|c l]; cbn [parse_repr]; [done|].
  assert (Hgo : forall Q : list char -> parsed repr, local Q -> (forall y, parse_repr ph maxidx limit (c :: y) = Q (c :: y)) -> Q (c :: l) = Done r rest ->
    exists p, p <> [] /\ c :: l = p ++ rest /\ forall x, parse_repr ph maxidx limit (p ++ x) = Done r x).
  { intros Q HQ Ey E. destruct (HQ _ _ _ E) as (p & Hp & El & Hx). exists p. split; [done|]. split; [done|]. intros x.
    destruct p as [|c' p]; [done|]. cbn [app] in *. injection El as <- _. by rewrite Ey. }
  assert (Hlit : forall m, local (fun l => match l with [] => More | c :: l => parse_literal m maxidx c l end)).
  { intros m [|c' l'] r' rest'; [done|]. unfold parse_literal. destruct (bval c' =? literal_byte m) eqn:Ec.
    - intros E. destruct (local_andthen _ _ parse_string_local (fun s => local_lazy _ (parse_value_local m (NewName s))) _ _ _ E) as (p & Hp & -> & Hx).
      exists (c' :: p). split; [done|]. split; [done|]. intros x. cbn [app]. rewrite Ec. apply Hx.
    - intros E. destruct (local_andthen _ _ (parse_index_local (literal_prefix m) maxidx) (fun i => local_lazy _ (parse_value_local m (NameAt i))) _ _ _ E)
        as (p & Hp & El & Hx). exists p. split; [done|]. split; [done|]. intros x. destruct p as [|c'' p]; [done|]. cbn [app] in *.
      injection El as <- _. rewrite Ec. apply Hx. }
  destruct (kind_of (bval c)) as [|m|] eqn:Ek.
  - assert (Hi : local (fun l => andthen (parse_index 7 maxidx l) (fun i rest => Done (Indexed i) rest)))
      by (apply local_andthen; [apply parse_index_local|]; intros i; apply (lazy_done Indexed)).
    destruct ph; [done| |]; apply (Hgo _ Hi); intros y; cbn; by rewrite Ek.
  - destruct ph; [done| |]; apply (Hgo _ (Hlit m)); intros y; cbn; by rewrite Ek.
  - assert (Hi : local (fun l => andthen (parse_int 5 limit l) (fun n rest => Done (SizeUpdate n) rest)))
      by (apply local_andthen; [apply parse_int_local|]; intros n; apply (lazy_done SizeUpdate)).
    destruct ph; [| |done]; apply (Hgo _ Hi); intros y; cbn; by rewrite Ek.
Qed.

(** ** What is malformed stays so *)

Definition stable {A} (P : list char -> parsed A) : Prop := forall l x, P l = Malformed -> P (l ++ x) = Malformed.

Lemma stable_andthen {A B} (P : list char -> parsed A) (Q : A -> list char -> parsed B) :
  local P -> stable P -> (forall a, stable (Q a)) -> stable (fun l => andthen (P l) Q).
Proof.
  intros HL HP HQ l x. destruct (P l) as [a rest| |] eqn:E; cbn [andthen]; [|done|by rewrite (HP _ _ E)].
  intros EQ. destruct (HL _ _ _ E) as (p & _ & -> & Hx). rewrite <- app_assoc, Hx. cbn [andthen]. by apply HQ.
Qed.

Lemma stable_done {A B} (f : A -> B) a : stable (fun l => Done (f a) l).
Proof. done. Qed.

Lemma parse_int_stable prefix max : 1 <= prefix <= 8 -> stable (parse_int prefix max).
Proof.
  intros Hp l x. rewrite !parse_int_resume by done. destruct (decide (l = [])) as [->|Hl]; [done|]. intros E.
  pose proof (resume_int_app 0 0 prefix max l Hp ltac:(unfold UINT32_MAX; lia) ltac:(done) Hl) as H. rewrite E in H. apply H.
Qed.

Lemma parse_rest_stable huffman fs pre left : (fs =? 256) = false -> 0 <= left -> stable (parse_rest huffman fs pre left).
Proof.
  intros Hfs Hl l x E. destruct (Z.leb_spec left (Z.of_nat (length l))) as [H|H].
  - rewrite parse_rest_done by lia. by rewrite E.
  - unfold parse_rest in E. rewrite (proj2 (Z.leb_gt _ _)) in E by lia. destruct huffman; [|done].
    rewrite parse_rest_huff by lia. rewrite take_ge in E by lia. destruct (huff_run fs l) as [fs' o]. cbn [fst]. by destruct (fs' =? 256).
Qed.

Lemma parse_int_nonneg prefix max l v rest : 1 <= prefix <= 8 -> parse_int prefix max l = Done v rest -> 0 <= v <= max.
Proof.
  intros Hp E. assert (Hl : l <> []) by (intros ->; done). rewrite parse_int_resume in E by done. unfold resume_int in E.
  destruct (decode_length_ok 0 0 l prefix Hp ltac:(unfold UINT32_MAX; lia) Hl) as (d & Ed & Hd). rewrite Ed in E. destruct l as [|c l]; [done|].
  unfold of_decoded in E. unfold decoded_ok in Hd. destruct (d_res d) as [w|]; [|done]. destruct (Z.ltb_spec max w); [done|].
  destruct (d_fin d); [|done]. injection E as <- _. lia.
Qed.

Lemma parse_string_stable : stable parse_string.
Proof.
  intros [|c l] x; cbn [parse_string app]; [done|]. change (c :: l ++ x) with ((c :: l) ++ x). intros E.
  destruct (parse_int 7 max_string (c :: l)) as [n rest| |] eqn:Ei; cbn [andthen] in E; [|done|].
  - destruct (parse_int_local 7 max_string _ _ _ Ei) as (p & Hp & El & Hx). rewrite El, <- app_assoc, Hx. cbn [andthen].
    apply parse_rest_stable; [done|apply (parse_int_nonneg 7 max_string (c :: l) n rest ltac:(lia) Ei)|done].
  - by rewrite (parse_int_stable 7 max_string ltac:(lia) _ x Ei).
Qed.

Lemma parse_value_stable m nm : stable (parse_value m nm).
Proof. apply stable_andthen; [apply parse_string_local|apply parse_string_stable|]. intros v. done. Qed.

Lemma parse_index_stable prefix maxidx : 1 <= prefix <= 8 -> stable (parse_index prefix maxidx).
Proof.
  intros Hp. apply stable_andthen; [apply parse_int_local|by apply parse_int_stable|]. intros i l x. by destruct (i =? 0).
Qed.

Lemma parse_repr_stable ph maxidx limit : stable (parse_repr ph maxidx limit).
Proof.
  intros [|c l] x; cbn [parse_repr app]; [done|]. change (c :: l ++ x) with ((c :: l) ++ x).
  assert (Hi : stable (fun l => andthen (parse_index 7 maxidx l) (fun i rest => Done (Indexed i) rest)))
    by (apply stable_andthen; [apply parse_index_local|by apply parse_index_stable|done]).
  assert (Hn : stable (fun l => andthen (parse_int 5 limit l) (fun n rest => Done (SizeUpdate n) rest)))
    by (apply stable_andthen; [apply parse_int_local|by apply parse_int_stable|done]).
  assert (Hlit : forall m, parse_literal m maxidx c l = Malformed -> parse_literal m maxidx c (l ++ x) = Malformed).
  { intros m. unfold parse_literal. destruct (_ =? _).
    - apply (stable_andthen _ (fun s => parse_value m (NewName s)) parse_string_local parse_string_stable (fun s => parse_value_stable m _) l x).
    - apply (stable_andthen _ (fun i => parse_value m (NameAt i)) (parse_index_local (literal_prefix m) maxidx)
        (parse_index_stable _ _ (proj1 (literal_prefix_ok m))) (fun i => parse_value_stable m _) (c :: l) x). }
  destruct ph, (kind_of (bval c)) as [|m|]; try done; try apply Hi; try apply Hn; apply Hlit.
Qed.

(** ** The decoder in pieces *)

Lemma parse_next_nil a : parse_next a [] = More.
Proof. done. Qed.

Definition waiting (a : decoder) : Prop := parse_next a (dc_pending a) = More.

Lemma decode_from_total fuel : forall a l, (length l < fuel)%nat -> exists d, decode_from fuel a l = Some d /\
  match d with
  | Field _ rest a' => (exists q, q <> [] /\ l = q ++ rest) /\ dc_pending a' = []
  | Waiting a' => waiting a'
  | Wrong => True
  end.
Proof.
  induction fuel as [|fuel IH]; intros a l Hf; [lia|]. cbn [decode_from].
  destruct (parse_next a l) as [r rest| |] eqn:E; [|by eexists|by eexists].
  destruct (parse_repr_local _ _ _ _ _ _ E) as (p & Hp & -> & _).
  destruct (meaning (dc_table a) r) as [[t [|e es]]|]; [|eexists; split; [done|]|by eexists].
  - rewrite length_app in Hf. destruct (IH (decoder_next a t r) rest) as (d & Ed & Hd); [destruct p; [done|cbn in Hf; lia]|].
    exists d. split; [done|]. destruct d as [e rest' a'| |]; [|done..]. destruct Hd as [(q & Hq & ->) Hd]. split; [|done].
    exists (p ++ q). split; [by destruct p|]. by rewrite app_assoc.
  - split; [by exists p|]. by destruct r.
Qed.

Lemma decode_from_fuel f1 : forall f2 a l, (length l < f1)%nat -> (length l < f2)%nat -> decode_from f1 a l = decode_from f2 a l.
Proof.
  induction f1 as [|f1 IH]; intros [|f2] a l H1 H2; [lia..|]. cbn [decode_from].
  destruct (parse_next a l) as [r rest| |] eqn:E; [|done..]. destruct (parse_repr_local _ _ _ _ _ _ E) as (p & Hp & -> & _).
  destruct (meaning (dc_table a) r) as [[t [|e es]]|]; [|done..]. rewrite length_app in *. apply IH; destruct p; try done; cbn in *; lia.
Qed.

(** More input goes on where the input ended. *)
Lemma decode_from_app fuel : forall a l y, (length (l ++ y) < fuel)%nat ->
  decode_from fuel a (l ++ y) =
    match decode_from fuel a l with
    | Some (Field e rest a') => Some (Field e (rest ++ y) a')
    | Some (Waiting a') => decode_piece a' y
    | d => d
    end.
Proof.
  induction fuel as [|fuel IH]; intros a l y Hf; [lia|]. cbn [decode_from].
  destruct (parse_next a l) as [r rest| |] eqn:E.
  - destruct (parse_repr_local _ _ _ _ _ _ E) as (p & Hp & -> & Hx).
    assert (Ey : parse_next a ((p ++ rest) ++ y) = Done r (rest ++ y)) by (rewrite <- app_assoc; apply Hx). rewrite Ey.
    destruct (meaning (dc_table a) r) as [[t [|e es]]|]; [|done..]. rewrite !length_app in Hf. apply IH. rewrite length_app. destruct p; [done|cbn in Hf; lia].
  - change (parse_next a (l ++ y)) with (parse_next (Decoder (dc_table a) (dc_settings a) (dc_min a) (dc_phase a) l) (l ++ y)).
    unfold decode_piece. cbn [dc_pending]. rewrite (decode_from_fuel _ (S fuel)) by lia. done.
  - assert (Ey : parse_next a (l ++ y) = Malformed) by (by apply parse_repr_stable). by rewrite Ey.
Qed.

(** Every field takes a byte of the piece at least. *)
Lemma decode_piece_shorter a l e rest a' : waiting a -> decode_piece a l = Some (Field e rest a') ->
  (exists q, q <> [] /\ l = q ++ rest) /\ dc_pending a' = [].
Proof.
  unfold waiting, decode_piece. intros Hw. cbn [decode_from].
  destruct (parse_next a (dc_pending a ++ l)) as [r rest1| |] eqn:E; [|done..].
  destruct (parse_repr_local _ _ _ _ _ _ E) as (p & Hp & Ep & Hx).
  assert (Hq : exists q, q <> [] /\ l = q ++ rest1).
  { destruct (app_eq_inv _ _ _ _ Ep) as [(k & E1 & E2)|(k & E1 & E2)].
    - assert (Hd : parse_next a (dc_pending a) = Done r k) by (rewrite E1; apply Hx). congruence.
    - exists k. split; [|done]. intros ->. rewrite app_nil_r in E1. assert (Hd : parse_next a (dc_pending a) = Done r []).
      { rewrite <- E1, <- (app_nil_r p). apply Hx. } congruence. }
  destruct Hq as (q & Hq & ->). destruct (meaning (dc_table a) r) as [[t [|e1 es]]|]; [|intros [= <- <- <-]; split; [by exists q|by destruct r]|done].
  intros Ed. destruct (decode_from_total (length (dc_pending a ++ q ++ rest1)) (decoder_next a t r) rest1) as (d & Ed' & Hd).
  { rewrite !length_app. destruct q; [done|cbn; lia]. }
  rewrite Ed in Ed'. injection Ed' as <-. destruct Hd as [(q' & Hq' & ->) Hd]. split; [|done].
  exists (q ++ q'). split; [by destruct q|]. by rewrite app_assoc.
Qed.

Lemma decode_piece_app a x y : decode_piece a (x ++ y) =
  match decode_piece a x with
  | Some (Field e rest a') => Some (Field e (rest ++ y) a')
  | Some (Waiting a') => decode_piece a' y
  | d => d
  end.
Proof.
  unfold decode_piece. rewrite app_assoc, decode_from_app by lia.
  rewrite (decode_from_fuel _ (S (length (dc_pending a ++ x)))); [|rewrite !length_app; lia|lia]. done.
Qed.

Lemma decode_piece_field a l e rest a' : waiting a -> decode_piece a l = Some (Field e rest a') -> waiting a' /\ (length rest < length l)%nat.
Proof.
  intros Hw E. destruct (decode_piece_shorter a l e rest a' Hw E) as [(q & Hq & ->) Hp]. split.
  - unfold waiting. by rewrite Hp.
  - rewrite length_app. destruct q; [done|cbn; lia].
Qed.

Lemma decode_piece_waiting a l a' : decode_piece a l = Some (Waiting a') -> waiting a'.
Proof.
  unfold decode_piece. destruct (decode_from_total (S (length (dc_pending a ++ l))) a (dc_pending a ++ l)) as (d & E & Hd); [lia|].
  rewrite E. by intros [= ->].
Qed.

Lemma decode_fields_fuel f1 : forall f2 a l, waiting a -> (length l < f1)%nat -> (length l < f2)%nat -> decode_fields f1 a l = decode_fields f2 a l.
Proof.
  induction f1 as [|f1 IH]; intros [|f2] a l Hw H1 H2; [lia..|]. cbn [decode_fields].
  destruct (decode_piece a l) as [[e rest a'|a'|]|] eqn:E; [|done..]. destruct (decode_piece_field _ _ _ _ _ Hw E) as [Hw' Hl].
  by rewrite (IH f2) by (done || lia).
Qed.

Lemma decode_fields_waiting f : forall a l es a', waiting a -> decode_fields f a l = Some (es, a') -> waiting a'.
Proof.
  induction f as [|f IH]; intros a l es a' Hw; cbn [decode_fields]; [done|].
  destruct (decode_piece a l) as [[e rest a1|a1|]|] eqn:E; [| |done..].
  - destruct (decode_piece_field _ _ _ _ _ Hw E) as [Hw1 _]. destruct (decode_fields f a1 rest) as [[es1 a2]|] eqn:E1; cbn [mbind option_bind]; [|done].
    intros [= _ <-]. by apply (IH a1 rest es1 a2).
  - intros [= _ <-]. by apply decode_piece_waiting with a l.
Qed.

(** The pieces of a block may be cut anywhere. *)
Lemma decode_fields_app f : forall a x y, waiting a -> (length (x ++ y) < f)%nat ->
  decode_fields f a (x ++ y) = (r ← decode_fields f a x; s ← decode_fields f (snd r) y; Some (fst r ++ fst s, snd s)).
Proof.
  induction f as [|f IH]; intros a x y Hw Hf; [lia|]. cbn [decode_fields]. rewrite decode_piece_app.
  destruct (decode_piece a x) as [[e rest a'|a'|]|] eqn:E; [| |done..].
  - destruct (decode_piece_field _ _ _ _ _ Hw E) as [Hw' Hl]. rewrite length_app in Hf. rewrite IH by (done || (rewrite length_app; lia)).
    destruct (decode_fields f a' rest) as [[es a1]|] eqn:Er; cbn [mbind option_bind fst snd]; [|done].
    rewrite (decode_fields_fuel f (S f)) by (lia || by eapply decode_fields_waiting).
    cbn [decode_fields]. destruct (decode_piece a1 y) as [[e1 r1 a2|a2|]|]; [destruct (decode_fields f a2 r1) as [[]|]|..]; done.
  - cbn [mbind option_bind fst snd app]. destruct (decode_piece a' y) as [[e1 r1 a2|a2|]|]; [destruct (decode_fields f a2 r1) as [[]|]|..]; done.
Qed.

(** ** Whole blocks *)

Lemma meaning_index t i v : entry_at (t_dyn t) i = Some v -> i < 61 + Z.of_nat (length (t_dyn t)).
Proof.
  unfold entry_at. destruct (i <? 0); [done|]. destruct (Z.ltb_spec i 61); [lia|]. intros Hl%lookup_lt_Some. lia.
Qed.

Lemma meaning_parsable a r t es : of_field r -> dc_phase a <> Expecting -> meaning (dc_table a) r = Some (t, es) ->
  parsable (dc_phase a) (61 + Z.of_nat (length (t_dyn (dc_table a)))) (Z.min (dc_min a) (dc_settings a)) r /\ exists e, es = [e].
Proof.
  intros Hr Hph. destruct r as [i|m [i|s] v|n]; cbn [meaning name_of]; [| | |done].
  - destruct (entry_at _ i) as [f|] eqn:E; cbn [mbind option_bind]; [|done]. intros [= <- <-]. split; [split; [done|by apply meaning_index in E]|by eexists].
  - destruct (entry_at _ i) as [f|] eqn:E; cbn [mbind option_bind fmap option_fmap option_map]; [|done]. intros [= <- <-].
    split; [split; [done|by apply meaning_index in E]|by eexists].
  - cbn [mbind option_bind]. intros [= <- <-]. split; [done|by eexists].
Qed.

Lemma decode_piece_repr a r p x t e : repr_bytes r p -> of_field r -> dc_phase a <> Expecting -> dc_pending a = [] ->
  meaning (dc_table a) r = Some (t, [e]) ->
  decode_piece a (p ++ x) = Some (Field e x (Decoder t (dc_settings a) (dc_min a) Inside [])).
Proof.
  intros Hp Hr Hph Hpe Hm. destruct (meaning_parsable a r t [e] Hr Hph Hm) as [Hok _]. unfold decode_piece. rewrite Hpe. cbn [app decode_from].
  unfold parse_next. rewrite (parse_repr_bytes _ _ _ r p x Hp Hok), Hm. by destruct r.
Qed.

(** The fields of a block are decoded one after the other. *)
Lemma decode_fields_reprs rs p : reprs_bytes rs p -> forall f a t es, Forall of_field rs -> dc_phase a <> Expecting -> dc_pending a = [] ->
  meanings (dc_table a) rs = Some (t, es) -> (length p < f)%nat ->
  decode_fields f a p = Some (es, Decoder t (dc_settings a) (dc_min a) (match rs with [] => dc_phase a | _ => Inside end) []).
Proof.
  induction 1 as [|r rs p q Hp _ IH]; intros [|f] a t es Hrs Hph Hpe Hm Hf; [lia| |lia|].
  - cbn in *. injection Hm as <- <-. unfold decode_piece. rewrite Hpe. cbn. destruct a. cbn in *. by subst.
  - inversion Hrs as [|? ? Hr Hrs']; subst. cbn [meanings] in Hm. destruct (meaning (dc_table a) r) as [[t1 es1]|] eqn:Em; cbn [mbind option_bind fst snd] in Hm; [|done].
    destruct (meanings t1 rs) as [[t2 es2]|] eqn:Ems; cbn [mbind option_bind fst snd] in Hm; [|done]. injection Hm as <- <-.
    destruct (meaning_parsable a r t1 es1 Hr Hph Em) as [_ [e ->]]. cbn [decode_fields]. rewrite (decode_piece_repr a r p q t1 e) by done.
    assert (Hl : (0 < length p)%nat).
    { destruct p; [|cbn; lia]. pose proof (decode_piece_repr a r [] q t1 e Hp Hr Hph Hpe Em) as E. cbn [app] in E.
      destruct (decode_piece_field a q e q _ ltac:(unfold waiting; by rewrite Hpe) E). lia. }
    rewrite length_app in Hf. rewrite (IH f _ t2 es2) by (done || lia). cbn [mbind option_bind fst snd dc_phase dc_settings dc_min].
    by destruct rs.
Qed.

(** The decoder after some updates. *)
Fixpoint after_updates (a : decoder) (us : list Z) : decoder :=
  match us with
  | [] => a
  | n :: us => after_updates (Decoder (Table n (fit n (t_dyn (dc_table a)))) (dc_settings a) UINT32_MAX Starting []) us
  end.

(** They are within the limits. *)
Definition updates_ok (a : decoder) (us : list Z) : Prop :=
  match us with [] => dc_phase a <> Expecting | n :: us => dc_phase a <> Inside /\ n <= dc_min a /\ Forall (fun n => n <= dc_settings a) (n :: us) end.

Lemma after_updates_spec us : forall a, dc_settings (after_updates a us) = dc_settings a /\
  meanings (dc_table a) (map SizeUpdate us) = Some (dc_table (after_updates a us), []) /\
  (us <> [] -> dc_min (after_updates a us) = UINT32_MAX /\ dc_phase (after_updates a us) = Starting /\ dc_pending (after_updates a us) = []).
Proof.
  induction us as [|n us IH]; intros a; cbn [after_updates map meanings meaning]; [done|].
  cbn [mbind option_bind fst snd app]. destruct (IH (Decoder (Table n (fit n (t_dyn (dc_table a)))) (dc_settings a) UINT32_MAX Starting [])) as (H1 & H2 & H3).
  cbn [dc_table dc_settings] in *. rewrite H2. cbn [mbind option_bind fst snd]. split; [done|]. split; [done|]. intros _.
  destruct us as [|m us]; [done|]. by apply H3.
Qed.

Lemma decode_piece_updates us : forall a p x, reprs_bytes (map SizeUpdate us) p -> us <> [] -> updates_ok a us -> Forall (fun n => n <= UINT32_MAX) us ->
  dc_pending a = [] -> decode_piece a (p ++ x) = decode_piece (after_updates a us) x.
Proof.
  induction us as [|n us IH]; intros a p x Hp Hne Hok H32 Hpe; [done|]. destruct Hok as (Hph & Hmin & Hset). inversion Hset as [|? ? Hn Hset']; subst.
  inversion H32 as [|? ? H32n H32']; subst. cbn [map] in Hp. inversion Hp as [|r rs p1 q Hp1 Hq]; subst. cbn [after_updates]. rewrite <- app_assoc.
  set (a1 := Decoder _ _ _ _ _).
  assert (E : decode_piece a (p1 ++ q ++ x) = decode_piece a1 (q ++ x)).
  { unfold decode_piece at 1. rewrite Hpe. cbn [app]. cbn [decode_from]. unfold parse_next.
    rewrite (parse_repr_bytes _ _ _ (SizeUpdate n) p1 (q ++ x) Hp1) by (split; [done|lia]). cbn [meaning].
    assert (Hl : p1 <> []) by (intros ->; inversion Hp1; subst; unfold encoded in *; by destruct (_ <? _)).
    unfold decode_piece. cbn [dc_pending a1 app]. apply decode_from_fuel; rewrite ?length_app; destruct p1; try done; cbn; lia. }
  rewrite E. destruct us as [|m us].
  - cbn [map] in Hq. inversion Hq. done.
  - apply IH; try done. split; [done|]. split; [by inversion H32'|done].
Qed.

Lemma reprs_bytes_split rs1 rs2 p : reprs_bytes (rs1 ++ rs2) p -> exists p1 p2, p = p1 ++ p2 /\ reprs_bytes rs1 p1 /\ reprs_bytes rs2 p2.
Proof.
  revert p. induction rs1 as [|r rs1 IH]; intros p; cbn [app].
  - intros H. exists [], p. split; [done|]. split; [constructor|done].
  - intros H. inversion H as [|? ? q1 q2 Hq1 Hq2]; subst. destruct (IH _ Hq2) as (p1 & p2 & -> & H1 & H2).
    exists (q1 ++ p1), p2. split; [by rewrite app_assoc|]. split; [by constructor|done].
Qed.

(** A block: some updates, then fields. *)
Lemma decode_block us rs p a f t es : reprs_bytes (map SizeUpdate us ++ rs) p -> Forall of_field rs -> updates_ok a us -> Forall (fun n => n <= UINT32_MAX) us ->
  dc_phase a <> Inside -> dc_pending a = [] -> meanings (dc_table a) (map SizeUpdate us ++ rs) = Some (t, es) -> (length p < f)%nat ->
  exists ph, ph <> Expecting /\
    decode_fields f a p = Some (es, Decoder t (dc_settings a) (match us with [] => dc_min a | _ => UINT32_MAX end) ph []).
Proof.
  intros Hp Hrs Hok H32 Hin Hpe Hm Hf. destruct (reprs_bytes_split _ _ _ Hp) as (p1 & p2 & -> & Hp1 & Hp2).
  destruct (after_updates_spec us a) as (Es & Et & Hne). rewrite meanings_app, Et in Hm. cbn [mbind option_bind fst snd] in Hm.
  destruct (meanings (dc_table (after_updates a us)) rs) as [[t2 es2]|] eqn:Er; cbn [mbind option_bind fst snd app] in Hm; [|done]. injection Hm as <- <-.
  rewrite length_app in Hf. destruct us as [|n us].
  - cbn [map] in Hp1. inversion Hp1; subst. cbn [app after_updates] in *. eexists. split; [|apply (decode_fields_reprs rs p2 Hp2); try done; lia].
    by destruct rs.
  - destruct (Hne ltac:(done)) as (Emin & Eph & Epe). set (a1 := after_updates a (n :: us)) in *.
    assert (E : decode_fields f a (p1 ++ p2) = decode_fields f a1 p2) by (destruct f; [lia|]; cbn [decode_fields]; by rewrite (decode_piece_updates (n :: us))).
    rewrite E. eexists. split; [|rewrite (decode_fields_reprs rs p2 Hp2 f a1 t2 es2); [by rewrite Es, Emin|done|by rewrite Eph|done|done|lia]].
    rewrite Eph. by destruct rs.
Qed.
