(* ===== verification/HdDeflateSpec.v ===== *)
(** * The deflater writes representations of the fields it is given

    [wrote o o' p]: what every output function does to the chain and the heap: the
    bytes [p] are appended, the shared strings and the other blocks are as before.
    A field becomes one representation whose meaning is that field, with the table
    before it as the abstract table; the context keeps its invariant ([deflater_ok])
    also when memory or room runs out. *)

From stdpp Require Import gmap list.
From S2P Require Import Prelude CLib NgBuf HuffTable Huffman HuffSpec HpackInt Rcbuf HdStatic HdTable HdTableSpec HdDeflate Hpack.

Section Spec.
Context (malloc_ok : nat -> bool) (junk : nat -> nat -> char).

(** ** Requests are counted *)

Lemma chain_new_requests n m : (requests m <= requests (snd (buf_chain_new malloc_ok junk n m)))%nat.
Proof.
  unfold buf_chain_new, malloc. destruct (malloc_ok (requests m)); cbn; [|lia].
  unfold nghttp2_buf_init2, nghttp2_buf_reserve, realloc. cbn. destruct (n <=? 0)%nat; cbn; [lia|].
  destruct (malloc_ok (S (requests m))); cbn; lia.
Qed.

Lemma alloc_chain_requests b m rv b' m' : bufs_alloc_chain malloc_ok junk b m = (rv, b', m') -> (requests m <= requests m')%nat.
Proof.
  unfold bufs_alloc_chain. destruct (_ <? _)%nat; [intros [= _ _ <-]; lia|]. destruct (_ =? _)%nat; [intros [= _ _ <-]; lia|].
  pose proof (chain_new_requests (chunk_length b) m) as H. destruct (buf_chain_new _ _ _ _) as [[rv1 buf] m1]. cbn in H.
  destruct (negb _); intros [= _ _ <-]; lia.
Qed.

Lemma add_requests data b m rv b' m' : nghttp2_bufs_add malloc_ok junk data b m = Some (rv, b', m') -> (requests m <= requests m')%nat.
Proof.
  unfold nghttp2_bufs_add. generalize (S (length data + max_chunk b + length (chain b))). intros fuel.
  revert data b m. induction fuel as [|fuel IH]; intros data b m; cbn [add_loop]; [done|].
  destruct (_ =? _)%nat; [by intros [= _ _ <-]|]. destruct (nghttp2_bufs_cur_avail b) as [av|]; cbn [mbind option_bind]; [|done].
  destruct (_ =? _)%nat.
  - destruct (bufs_alloc_chain malloc_ok junk b m) as [[rv1 b1] m1] eqn:E. apply alloc_chain_requests in E.
    destruct (negb _); [intros [= _ _ <-]; lia|]. intros H%IH. lia.
  - destruct (on_cur _ b) as [b1|]; cbn [mbind option_bind]; [|done]. apply IH.
Qed.

Lemma addb_requests c b m rv b' m' : nghttp2_bufs_addb malloc_ok junk c b m = Some (rv, b', m') -> (requests m <= requests m')%nat.
Proof.
  unfold nghttp2_bufs_addb, ensured, bufs_ensure_addb. destruct (nghttp2_bufs_cur_avail b) as [av|]; cbn [mbind option_bind]; [|done].
  destruct (0 <? av)%nat; cbn [mbind option_bind].
  - cbn [negb Z.eqb]. destruct (nghttp2_bufs_fast_addb b c); cbn; [by intros [= _ _ <-]|done].
  - destruct (bufs_alloc_chain malloc_ok junk b m) as [[rv1 b1] m1] eqn:E. apply alloc_chain_requests in E.
    destruct (negb (rv1 =? 0)) eqn:Er; cbn [mbind option_bind].
    + rewrite Er. intros [= _ _ <-]. lia.
    + cbn [negb Z.eqb]. destruct (nghttp2_bufs_fast_addb b1 c); cbn; [by intros [= _ _ <-]|done].
Qed.

(** ** Chunks stay as they are

    Writing never moves [pos], nor changes the size of a chunk; the chunks that are added
    have [chunk_length] bytes and start at the offset. *)

Definition place (buf : nghttp2_buf) : nat * nat := (pos buf, nghttp2_buf_cap buf).

Definition places (b b' : nghttp2_bufs) : Prop :=
  offset b' = offset b /\ chunk_length b' = chunk_length b /\
  exists k, map place (chain b') = map place (chain b) ++ replicate k (offset b, chunk_length b).

Lemma places_refl b : places b b.
Proof. split; [done|]. split; [done|]. exists 0%nat. by rewrite app_nil_r. Qed.

Lemma places_trans b1 b2 b3 : places b1 b2 -> places b2 b3 -> places b1 b3.
Proof.
  intros (E1 & L1 & k1 & H1) (E2 & L2 & k2 & H2). split; [congruence|]. split; [congruence|]. exists (k1 + k2)%nat.
  by rewrite H2, H1, E1, L1, replicate_add, app_assoc.
Qed.

Lemma on_cur_places f b b' : (forall buf buf', f buf = Some buf' -> place buf' = place buf) -> on_cur f b = Some b' -> places b b'.
Proof.
  intros Hf. unfold on_cur. destruct (chain b !! cur b) as [buf|] eqn:E; cbn [mbind option_bind]; [|done].
  destruct (f buf) as [buf'|] eqn:Ef; cbn [mbind option_bind]; [|done]. intros [= <-]. split; [done|]. split; [done|]. exists 0%nat. cbn.
  rewrite app_nil_r. change (place <$> <[cur b:=buf']> (chain b) = place <$> chain b). rewrite list_fmap_insert, (Hf _ _ Ef).
  apply list_insert_id. by rewrite list_lookup_fmap, E.
Qed.

Lemma cpymem_place p buf buf' : cpymem buf p = Some buf' -> place buf' = place buf.
Proof.
  unfold cpymem, place, nghttp2_buf_avail, nghttp2_buf_cap. destruct (Nat.leb_spec (length p) (length (bytes buf) - last buf)); [|done]. intros [= <-].
  cbn. f_equal. rewrite !length_app, length_take, length_drop. lia.
Qed.

Lemma put_place c buf buf' : put buf c = Some buf' -> place buf' = place buf.
Proof. unfold put, hold, place, nghttp2_buf_cap. destruct (_ <? _)%nat; [|done]. intros [= <-]. cbn. by rewrite length_insert. Qed.

Lemma alloc_chain_places b m rv b' m' : bufs_alloc_chain malloc_ok junk b m = (rv, b', m') -> places b b'.
Proof.
  unfold bufs_alloc_chain. destruct (_ <? _)%nat; [intros [= _ <- _]; apply (places_refl b)|]. destruct (_ =? _)%nat; [intros [= _ <- _]; apply places_refl|].
  destruct (buf_chain_new _ _ _ _) as [[rv1 buf] m1] eqn:E. destruct (negb (rv1 =? 0)) eqn:Er; intros [= _ <- _]; [apply places_refl|].
  split; [done|]. split; [done|]. exists 1%nat. cbn [chain set_cur set_chain]. rewrite map_app. cbn. do 2 f_equal.
  pose proof (buf_chain_new_spec malloc_ok junk (chunk_length b) m) as H. rewrite E in H. destruct H as [(_ & _ & Hc & Hp & _)|(-> & _)]; [|done].
  unfold place, nghttp2_buf_cap in *. cbn. by rewrite Hc, Hp.
Qed.

Lemma add_places data b m rv b' m' : nghttp2_bufs_add malloc_ok junk data b m = Some (rv, b', m') -> places b b'.
Proof.
  unfold nghttp2_bufs_add. generalize (S (length data + max_chunk b + length (chain b))). intros fuel.
  revert data b m. induction fuel as [|fuel IH]; intros data b m; cbn [add_loop]; [done|].
  destruct (_ =? _)%nat; [intros [= _ <- _]; apply places_refl|]. destruct (nghttp2_bufs_cur_avail b) as [av|]; cbn [mbind option_bind]; [|done].
  destruct (_ =? _)%nat.
  - destruct (bufs_alloc_chain malloc_ok junk b m) as [[rv1 b1] m1] eqn:E. apply alloc_chain_places in E.
    destruct (negb _); [by intros [= _ <- _]|]. intros H%IH. by eapply places_trans.
  - destruct (on_cur _ b) as [b1|] eqn:E; cbn [mbind option_bind]; [|done]. intros H%IH. eapply places_trans; [|exact H].
    eapply on_cur_places; [|exact E]. intros buf buf'. apply cpymem_place.
Qed.

Lemma addb_places c b m rv b' m' : nghttp2_bufs_addb malloc_ok junk c b m = Some (rv, b', m') -> places b b'.
Proof.
  assert (Hput : forall b1 b2, nghttp2_bufs_fast_addb b1 c = Some b2 -> places b1 b2).
  { intros b1 b2. apply on_cur_places. intros buf buf'. apply put_place. }
  unfold nghttp2_bufs_addb, ensured, bufs_ensure_addb. destruct (nghttp2_bufs_cur_avail b) as [av|]; cbn [mbind option_bind]; [|done].
  destruct (0 <? av)%nat; cbn [mbind option_bind].
  - cbn [negb Z.eqb]. destruct (nghttp2_bufs_fast_addb b c) eqn:E; cbn; [intros [= _ <- _]; by apply Hput|done].
  - destruct (bufs_alloc_chain malloc_ok junk b m) as [[rv1 b1] m1] eqn:E. apply alloc_chain_places in E.
    destruct (negb (rv1 =? 0)) eqn:Er; cbn [mbind option_bind].
    + rewrite Er. by intros [= _ <- _].
    + cbn [negb Z.eqb]. destruct (nghttp2_bufs_fast_addb b1 c) eqn:E2; cbn; [intros [= _ <- _]; eapply places_trans; [exact E|by apply Hput]|done].
Qed.

(** ** What is written *)

Record wrote (o o' : output) (p : list char) : Prop := {
  wrote_wf : wf (fst o') /\ roomy (fst o');
  wrote_contents : contents (fst o') = contents (fst o) ++ p;
  wrote_refs : refs (snd o') = refs (snd o);
  wrote_others : others (fst o') (hmem (snd o')) = others (fst o) (hmem (snd o));
  wrote_requests : (requests (hmem (snd o)) <= requests (hmem (snd o')))%nat;
  wrote_places : places (fst o) (fst o')
}.

Definition ready (o : output) : Prop := wf (fst o) /\ roomy (fst o).

Lemma wrote_nothing o : ready o -> wrote o o [].
Proof. intros H. constructor; [done|by rewrite app_nil_r|done..|apply places_refl]. Qed.

Lemma wrote_trans o1 o2 o3 p q : wrote o1 o2 p -> wrote o2 o3 q -> wrote o1 o3 (p ++ q).
Proof.
  intros H1 H2. constructor; [apply H2| | | | |].
  - by rewrite (wrote_contents _ _ _ H2), (wrote_contents _ _ _ H1), app_assoc.
  - by rewrite (wrote_refs _ _ _ H2), (wrote_refs _ _ _ H1).
  - by rewrite (wrote_others _ _ _ H2), (wrote_others _ _ _ H1).
  - pose proof (wrote_requests _ _ _ H1). pose proof (wrote_requests _ _ _ H2). lia.
  - by apply places_trans with (fst o2); apply wrote_places with (1 := H1) || apply wrote_places with (1 := H2).
Qed.

(** [f] writes something, and if it succeeds something that satisfies [P]. *)
Definition emits (f : output -> option (Z * output)) (P : list char -> Prop) : Prop :=
  forall o, ready o -> exists rv o' p, f o = Some (rv, o') /\ wrote o o' p /\ (rv = 0 -> P p).

Lemma bufs_add_emits data : emits (bufs_add malloc_ok junk data) (fun p => p = data).
Proof.
  intros [b h] [W R]. unfold bufs_add. cbn [fst snd] in *.
  destruct (add_spec malloc_ok junk data b (hmem h) W) as (rv & b' & m' & n & E & W' & C & Ot & Out & _ & R').
  rewrite E. cbn [mbind option_bind]. pose proof (add_places _ _ _ _ _ _ E) as Hpl. apply add_requests in E. do 2 eexists. exists (take n data). split; [done|].
  split; [constructor; cbn; auto|]. intros ->. destruct Out as [(_ & -> & _)|[(H & _)|(H & _)]]; [by apply take_ge|done..].
Qed.

Lemma bufs_addb_emits c : emits (bufs_addb malloc_ok junk c) (fun p => p = [c]).
Proof.
  intros [b h] [W R]. unfold bufs_addb. cbn [fst snd] in *.
  destruct (ensured_spec malloc_ok junk (fun buf => put buf c) (fun p => p = [c]) b (hmem h) W R) as (rv & b' & m' & E & W' & R' & Ot & _ & Out).
  { intros off buf Hw Ha. apply put_op; done. }
  change (nghttp2_bufs_addb malloc_ok junk c b (hmem h) = Some (rv, b', m')) in E.
  rewrite E. cbn [mbind option_bind]. pose proof (addb_places _ _ _ _ _ _ E) as Hpl. apply addb_requests in E.
  destruct Out as [(-> & p & C & ->)|[(-> & C & _)|(-> & C & _)]].
  - do 2 eexists. exists [c]. split; [done|]. split; [by constructor|done].
  - do 2 eexists. exists []. split; [done|]. split; [constructor; cbn; [done|by rewrite app_nil_r|done..]|done].
  - do 2 eexists. exists []. split; [done|]. split; [constructor; cbn; [done|by rewrite app_nil_r|done..]|done].
Qed.

(** The chain as the sink of the Huffman encoder, with what it does to the
    allocator. *)
Definition counted (r0 : nat) (o0 : Z) (b0 : nghttp2_bufs) (bm : nghttp2_bufs * nghttp2_mem) : Prop :=
  (wf (fst bm) /\ roomy (fst bm)) /\ others (fst bm) (snd bm) = o0 /\ (r0 <= requests (snd bm))%nat /\ places b0 (fst bm).

Definition counted_sink (r0 : nat) (o0 : Z) (b0 : nghttp2_bufs) : @SinkLaws (nghttp2_bufs * nghttp2_mem) (bufs_sink malloc_ok junk).
Proof.
  refine {| sink_ok := counted r0 o0 b0; sink_contents bm := contents (fst bm) |}.
  - intros [b m] [[W R] _]. cbn in *. destruct (chain_split b (wf_cur b W)) as (buf & E & _).
    exists (nghttp2_buf_avail buf). unfold nghttp2_bufs_cur_avail. by rewrite E.
  - intros [b m] n p [[W R] (Ho & Hr & Hpl)] Hav Hp. cbn in *. destruct (bufs_write_law b n p W R Hav Hp) as (b' & E & W' & R' & C & A).
    exists (b', m). rewrite E. split; [done|]. split; [split; [done|]|done]. cbn.
    split; [|split; [done|]; eapply places_trans; [exact Hpl|]; eapply on_cur_places; [|exact E]; intros ? ?; apply cpymem_place]. rewrite <- Ho. unfold others. f_equal.
    destruct (bufs_avail b n Hav) as (buf & Eb & Ha).
    assert (Hb : wf_buf (offset b) buf) by (apply (Forall_lookup_1 _ _ _ _ (wf_chunks b W) Eb)).
    destruct (cpymem_spec _ buf p Hb) as (buf' & Ec & Hw & Hpr & Hcap & _); [lia|].
    destruct (on_cur_spec (fun buf => cpymem buf p) b p buf buf' W Eb Ec Hw Hpr Hcap) as (b1 & E1 & _ & _ & B1 & _).
    rewrite E in E1. by injection E1 as <-.
  - intros [b m] c [[W R] (Ho & Hr & Hpl)]. cbn in *.
    destruct (ensured_spec malloc_ok junk (fun buf => put buf c) (fun p => p = [c]) b m W R) as (rv & b' & m' & E & W' & R' & Ot & _ & Out).
    { intros off buf Hw Ha. apply put_op; done. }
    change (nghttp2_bufs_addb malloc_ok junk c b m = Some (rv, b', m')) in E. rewrite E. pose proof (addb_requests _ _ _ _ _ _ E).
    pose proof (places_trans _ _ _ Hpl (addb_places _ _ _ _ _ _ E)).
    exists rv, (b', m'). split; [done|]. split; [split; [done|]; cbn; split; [congruence|split; [lia|done]]|]. cbn.
    destruct Out as [(-> & p & C & ->)|[(-> & C & _)|(-> & C & _)]]; cbn; [done|..]; by rewrite C, app_nil_r.
Defined.

Lemma huff_encode_emits str : emits (huff_encode malloc_ok junk str) (fun p => valid_bits (to_bits p) str).
Proof.
  intros [b h] Hr. unfold huff_encode. cbn [fst snd] in *.
  destruct (@encode_spec _ _ (counted_sink (requests (hmem h)) (others b (hmem h)) b) (b, hmem h) str) as (rv & [b' m'] & p & E & Hok & C & Henc).
  { split; [done|]. split; [done|]. split; [done|apply places_refl]. }
  rewrite E. cbn [mbind option_bind]. do 2 eexists. exists p. split; [done|]. destruct Hok as (Hr' & Ho & Hq & Hpl). cbn in *.
  split; [constructor; cbn; done|]. intros ->. by apply valid_encodes.
Qed.

Lemma emits_seq f g P Q : emits f P -> emits g Q ->
  emits (fun o => r ← f o; let '(rv, o) := r in if negb (rv =? 0) then Some (rv, o) else g o)
    (fun p => exists a b, p = a ++ b /\ P a /\ Q b).
Proof.
  intros Hf Hg o Ho. destruct (Hf o Ho) as (rv & o1 & p & -> & Hw & Hp). cbn [mbind option_bind].
  destruct (Z.eqb_spec rv 0) as [->|Hne]; cbn [negb].
  - destruct (Hg o1 (wrote_wf _ _ _ Hw)) as (rv & o2 & q & -> & Hw2 & Hq). exists rv, o2, (p ++ q). split; [done|].
    split; [by apply wrote_trans with o1|]. intros E. exists p, q. auto.
  - exists rv, o1, p. split; [done|]. split; [done|]. done.
Qed.

Lemma emits_weaken f P Q : emits f P -> (forall p, P p -> Q p) -> emits f Q.
Proof. intros Hf H o Ho. destruct (Hf o Ho) as (rv & o1 & p & E & Hw & Hp). exists rv, o1, p. auto. Qed.

Lemma emits_ext f g P : (forall o, f o = g o) -> emits f P -> emits g P.
Proof. intros E Hf o Ho. rewrite <- E. by apply Hf. Qed.

Lemma emit_length_emits c n prefix : 1 <= prefix <= 8 -> 0 <= n <= UINT32_MAX ->
  emits (emit_length malloc_ok junk c n prefix) (fun p => p = encoded (uint8 c) n prefix).
Proof.
  intros Hp Hn. destruct (encoded_length (uint8 c) n prefix Hp Hn) as [Hlen Hcount].
  apply emits_ext with (bufs_add malloc_ok junk (encoded (uint8 c) n prefix)); [|apply bufs_add_emits].
  intros o. unfold emit_length. rewrite Hcount. cbn [mbind option_bind]. rewrite (proj2 (Z.ltb_ge _ _)) by lia.
  rewrite (encode_length_spec _ (uint8 c) (zeros 15) n prefix Hp Hn eq_refl) by (cbn [length]; change (length (zeros 15)) with 15%nat; lia).
  cbn [mbind option_bind snd]. by rewrite Nat2Z.id, take_app_length.
Qed.

(** ** Strings and representations *)

Lemma emit_string_emits s : Z.of_nat (length s) <= max_string -> emits (emit_string malloc_ok junk s) (str_bytes s).
Proof.
  unfold max_string. intros Hs. set (enclen := (Z.of_nat (length (huff_bits s)) + 7) / 8).
  assert (Hcount : nghttp2_hd_huff_encode_count s = Some enclen) by (apply encode_count_spec; lia).
  assert (Henc : 0 <= enclen) by (apply Z.div_pos; lia).
  set (huffman := enclen <? Z.of_nat (length s)).
  apply emits_ext with (fun o => r ← emit_length malloc_ok junk (if huffman then 128 else 0) (if huffman then enclen else Z.of_nat (length s)) 7 o;
    let '(rv, o) := r in if negb (rv =? 0) then Some (rv, o) else (if huffman then huff_encode malloc_ok junk s else bufs_add malloc_ok junk s) o).
  { intros o. unfold emit_string. rewrite Hcount. cbn [mbind option_bind]. fold huffman. change (Z.shiftl 1 7) with 128. by destruct huffman. }
  destruct (Z.ltb_spec enclen (Z.of_nat (length s))) as [Hlt|Hge]; subst huffman.
  - eapply emits_weaken; [apply emits_seq; [apply emit_length_emits; unfold UINT32_MAX; lia|apply huff_encode_emits]|].
    intros p (a & hs & -> & -> & Hv). pose proof (valid_count s hs ltac:(lia) Hv) as E. rewrite Hcount in E.
    injection E as ->. apply StrHuffman; [unfold max_string; lia|done].
  - eapply emits_weaken; [apply emits_seq; [apply emit_length_emits; unfold UINT32_MAX; lia|apply bufs_add_emits]|].
    intros p (a & b & -> & -> & ->). by apply StrPlain.
Qed.

(** A returned error and a final error are the same. *)
Lemma emits_last f P : emits f P -> emits (fun o => r ← f o; let '(rv, o) := r in if negb (rv =? 0) then Some (rv, o) else Some (0, o)) P.
Proof.
  intros Hf o Ho. destruct (Hf o Ho) as (rv & o1 & p & -> & Hw & Hp). cbn [mbind option_bind]. exists rv, o1, p.
  split; [|done]. by destruct (Z.eqb_spec rv 0) as [->|].
Qed.

Lemma emit_indexed_emits i : 0 <= i < UINT32_MAX -> emits (emit_indexed_block malloc_ok junk i) (repr_bytes (Indexed i)).
Proof.
  unfold UINT32_MAX. intros Hi. unfold emit_indexed_block. rewrite u32_small by lia.
  eapply emits_weaken; [apply emit_length_emits; unfold UINT32_MAX; lia|]. intros p ->. by constructor.
Qed.

Lemma prefixlen_spec m : prefixlen m = literal_prefix m /\ 1 <= literal_prefix m <= 8 /\ pack_first_byte m = literal_byte m.
Proof. by destruct m. Qed.

Lemma emit_indname_emits i n m : 0 <= i < UINT32_MAX -> Z.of_nat (length (value n)) <= max_string ->
  emits (emit_indname_block malloc_ok junk i n m) (repr_bytes (Literal m (NameAt i) (value n))).
Proof.
  intros Hi Hv. destruct (prefixlen_spec m) as (E1 & E2 & E3).
  eapply emits_weaken; [apply (emits_seq _ _ _ _ (emit_length_emits (pack_first_byte m) (u32 (i + 1)) (prefixlen m) ltac:(lia) ltac:(pose proof (u32_range (i + 1)); unfold UINT32_MAX; lia)) (emits_last _ _ (emit_string_emits (value n) Hv)))|].
  intros p (a & b & -> & -> & Hb). unfold UINT32_MAX in Hi. rewrite u32_small, E1, E3 by lia. by constructor.
Qed.

Lemma emit_newname_emits n m : Z.of_nat (length (name n)) <= max_string -> Z.of_nat (length (value n)) <= max_string ->
  emits (emit_newname_block malloc_ok junk n m) (repr_bytes (Literal m (NewName (name n)) (value n))).
Proof.
  intros Hn Hv. destruct (prefixlen_spec m) as (_ & _ & E3).
  eapply emits_weaken; [apply (emits_seq _ _ _ _ (bufs_addb_emits (uint8 (pack_first_byte m)))
    (emits_seq _ _ _ _ (emit_string_emits (name n) Hn) (emits_last _ _ (emit_string_emits (value n) Hv))))|].
  intros p (a & b & -> & -> & c & d & -> & Hc & Hd). rewrite E3. exact (NewNameBytes m (name n) (value n) c d Hc Hd).
Qed.

(** ** The table *)

Definition deflater_ok (d : nghttp2_hd_deflater) (h : heap) (l : list entry) : Prop :=
  ctx_ok (d_ctx d) (Some (d_map d)) h l [] /\ tokens_ok l.

(** What encoding a field does not change. *)
Definition same_limits (d d' : nghttp2_hd_deflater) : Prop :=
  hd_table_bufsize_max (d_ctx d') = hd_table_bufsize_max (d_ctx d) /\ bad (d_ctx d') = bad (d_ctx d) /\
  deflate_hd_table_bufsize_max d' = deflate_hd_table_bufsize_max d /\ d_min_bufsize_max d' = d_min_bufsize_max d /\
  notify_table_size_change d' = notify_table_size_change d.

Lemma same_limits_trans d1 d2 d3 : same_limits d1 d2 -> same_limits d2 d3 -> same_limits d1 d3.
Proof. unfold same_limits. intros (-> & -> & -> & -> & ->) H. done. Qed.

(** The name of the new entry: that of another field, or a copy. *)
Lemma index_name d n idx h l : deflater_ok d h l ->
  (idx = -1 \/ 0 <= idx < 61 + Z.of_nat (length l) /\ exists v, entry_at (fields l) idx = Some (name n, v)) ->
  exists rv nm h',
    (if negb (idx =? -1) then
       e ← nghttp2_hd_table_get (d_ctx d) idx;
       h ← nghttp2_rcbuf_incref (nv_name e) h;
       Some (0, nv_name e, h)
     else Some (nghttp2_rcbuf_new2 malloc_ok junk (name n) h)) = Some (rv, nm, h') /\
    spare h' = spare h /\ (requests (hmem h) <= requests (hmem h'))%nat /\
    (rv = 0 /\ owned h' (nm :: ptrs l) /\ nghttp2_rcbuf_get_buf nm = name n /\ holds nm \/
     rv <> 0 /\ owned h' (ptrs l)).
Proof.
  intros [H _] Hidx. pose proof (ctx_owned _ _ _ _ _ H) as Ho. rewrite app_nil_r in Ho. destruct Hidx as [->|(Hi & v & Ev)]; cbn [negb Z.eqb].
  - pose proof (rcbuf_new2_spec malloc_ok junk (name n) h _ Ho) as Hnew. change (negb (-1 =? -1)) with false. cbn iota.
    destruct (nghttp2_rcbuf_new2 malloc_ok junk (name n) h) as [[rv nm] h']. destruct Hnew as (Hs & Hq & Hcase).
    exists rv, nm, h'. split; [done|]. split; [done|]. split; [lia|].
    destruct Hcase as [(-> & Ho' & Hb & _ & Hh)|(-> & Ho' & _)]; [by left|by right].
  - rewrite (proj2 (Z.eqb_neq _ _)) by lia. cbn [negb]. destruct (table_get_spec _ _ _ _ _ idx H Hi) as (e & -> & Ee & Hn & _ & Hin). cbn [mbind option_bind].
    rewrite Ev in Ee. injection Ee as En _. destruct (incref_any h _ (nv_name e) Ho) as (h' & -> & Ho' & Hs & Hm).
    { destruct Hin as [[Ha _]|[Hin _]]; [by left|by right]. }
    cbn [mbind option_bind]. exists 0, (nv_name e), h'. split; [done|]. split; [done|]. split; [by rewrite Hm|]. by left.
Qed.

Lemma deflate_index_spec d n idx hash h l : deflater_ok d h l ->
  (idx = -1 \/ 0 <= idx < 61 + Z.of_nat (length l) /\ exists v, entry_at (fields l) idx = Some (name n, v)) ->
  Z.of_nat (length (name n)) <= max_string -> Z.of_nat (length (value n)) <= max_string ->
  exists rv d' h' l', deflate_index malloc_ok junk d n (lookup_token (name n)) idx hash h = Some (rv, d', h') /\
    deflater_ok d' h' l' /\ same_limits d d' /\ blocks_besides h' l' = blocks_besides h l /\
    (requests (hmem h) <= requests (hmem h'))%nat /\
    (rv = 0 -> table_of (d_ctx d') l' = add_field (name n, value n) (table_of (d_ctx d) l)).
Proof.
  unfold max_string. intros Hd Hidx Hln Hlv. pose proof Hd as [H Htok]. unfold deflate_index.
  destruct (index_name d n idx h l Hd Hidx) as (rv & nm & h1 & -> & Hs1 & Hq1 & [(-> & Ho1 & Hnm & Hhn)|(Hrv & Ho1)]); cbn [mbind option_bind].
  2: { rewrite (proj2 (Z.eqb_neq _ _)) by done. cbn [negb]. exists rv, d, h1, l. split; [done|].
       split; [split; [apply ctx_heap with h []; [done|by rewrite app_nil_r|done]|done]|].
       split; [done|]. split; [unfold blocks_besides; by rewrite Hs1|]. split; [done|]. done. }
  cbn [negb Z.eqb]. pose proof (rcbuf_new2_spec malloc_ok junk (value n) h1 _ Ho1) as Hnew.
  destruct (nghttp2_rcbuf_new2 malloc_ok junk (value n) h1) as [[rv vl] h2]. destruct Hnew as (Hs2 & Hq2 & [(-> & Ho2 & Hvl & Ev & Hhv)|(-> & Ho2 & _)]); cbn [negb Z.eqb].
  2: { destruct (decref_spec _ _ _ Ho2) as (h3 & -> & Ho3 & Hs3 & Hq3). cbn [mbind option_bind].
       exists NGHTTP2_ERR_NOMEM, d, h3, l. split; [done|]. 
       split; [split; [apply ctx_heap with h []; [done|by rewrite app_nil_r|lia]|done]|].
       split; [done|]. split; [unfold blocks_besides; lia|]. split; [lia|]. done. }
  set (nv := HdNv nm vl (lookup_token (name n)) NGHTTP2_NV_FLAG_NONE).
  assert (Efield : field_of nv = (name n, value n)) by (unfold field_of; cbn; congruence).
  assert (Hsmall : small nv).
  { split; [done|]. split; [done|]. cbn. rewrite <- (holds_length nm), <- (holds_length vl) by done. rewrite Hnm, Hvl. lia. }
  assert (H2 : ctx_ok (d_ctx d) (Some (d_map d)) h2 l [vl; nm]).
  { apply ctx_heap with h []; [done| |lia]. eapply owned_perm; [|exact Ho2]. solve_Permutation. }
  destruct (table_add_spec malloc_ok _ _ _ _ _ nv hash H2 Hsmall) as (rv & c' & map' & h3 & l' & -> & H3 & Em & Eb & Hn3 & Hb3 & Hq3 & Hcase).
  { cbn. by repeat constructor. } { cbn. by repeat constructor. }
  cbn [mbind option_bind]. destruct map' as [m'|]; [|by destruct Hn3 as [Hn3 _]; specialize (Hn3 eq_refl)]. cbn [mbind option_bind].
  assert (Ho3 : owned h3 (vl :: nm :: ptrs l')).
  { eapply owned_perm; [|exact (ctx_owned _ _ _ _ _ H3)]. solve_Permutation. }
  destruct (decref_spec _ _ _ Ho3) as (h4 & -> & Ho4 & Hs4 & Hq4). cbn [mbind option_bind].
  destruct (decref_spec _ _ _ Ho4) as (h5 & -> & Ho5 & Hs5 & Hq5). cbn [mbind option_bind].
  do 2 eexists. exists h5, l'. split; [done|]. split; [split|].
  - cbn. apply ctx_heap with h3 [vl; nm]; [done|by rewrite app_nil_r|lia].
  - destruct Hcase as [(_ & a & ->)|(_ & _ & ->)]; [|by apply tokens_keep]. apply tokens_added; [done|]. cbn [ent_nv nv_token nv].
    fold nv. by rewrite Efield.
  - split; [unfold same_limits; cbn; done|]. split; [unfold blocks_besides in *; lia|]. split; [lia|].
    destruct Hcase as [(-> & a & ->)|(-> & _)]; [|done]. intros _. unfold table_of, add_field. cbn [t_max t_dyn d_ctx set_tables].
    rewrite Em. unfold added. rewrite fields_keep.
    + unfold fields at 1. cbn [map ent_nv]. by rewrite Efield.
    + constructor; [done|]. apply (ctx_small _ _ _ _ _ H).
Qed.

(** ** One field *)

(** The blocks that belong neither to the chain nor to the table. *)
Definition loose (o : output) (l : list entry) : Z := others (fst o) (hmem (snd o)) - Z.of_nat (size (refs (snd o))) - Z.of_nat (length l).

Lemma wrote_ok o o' p d l : wrote o o' p -> deflater_ok d (snd o) l -> deflater_ok d (snd o') l.
Proof.
  intros Hw [H Ht]. split; [|done]. apply ctx_heap with (snd o) []; [done| |apply (wrote_requests _ _ _ Hw)].
  pose proof (ctx_owned _ _ _ _ _ H) as Ho. pose proof (wrote_requests _ _ _ Hw) as Hq. destruct (snd o') as [m' r'] eqn:E.
  pose proof (wrote_refs _ _ _ Hw) as Er. rewrite E in Er. cbn in Er. subst r'. by apply owned_mem.
Qed.

Lemma wrote_loose o o' p l : wrote o o' p -> loose o' l = loose o l.
Proof. intros Hw. unfold loose. by rewrite (wrote_others _ _ _ Hw), (wrote_refs _ _ _ Hw). Qed.

Lemma hash_of_some n : exists hash, hash_of n (lookup_token n) = Some hash.
Proof.
  unfold hash_of. destruct (Z.eqb_spec (lookup_token n) (-1)); [by eexists|].
  unfold NGHTTP2_TOKEN_WWW_AUTHENTICATE. destruct (Z.leb_spec (lookup_token n) 60); [|by eexists].
  destruct (static_of_token n) as (e & -> & _); [|by eexists].
  pose proof (lookup_token_named n) as H0. unfold named in H0. rewrite (proj2 (Z.eqb_neq _ _)) in H0 by done. cbn [orb] in H0.
  apply existsb_exists in H0 as ([t s] & Hin & H0). cbn [fst snd] in H0. apply andb_prop in H0 as [->%Z.eqb_eq _].
  split; [|lia]. apply list_elem_of_In in Hin. by apply lookup_token_names in Hin as [_ ?].
Qed.

(** What a field may be encoded as: its mode is never-indexed only as a literal
    that says so. *)
Definition encodes_field (t t' : table) (n : nghttp2_nv) (m : nghttp2_hd_indexing_mode) (r : repr) : Prop :=
  meaning t r = Some (t', [((name n, value n), is_never m)]) /\
  (m = NGHTTP2_HD_NEVER_INDEXING -> t' = t /\ exists nm, r = Literal m nm (value n)).

Record progress (d : nghttp2_hd_deflater) (o : output) (l : list entry) (d' : nghttp2_hd_deflater) (o' : output) (l' : list entry) (p : list char) : Prop := {
  pg_ready : ready o';
  pg_contents : contents (fst o') = contents (fst o) ++ p;
  pg_ok : deflater_ok d' (snd o') l';
  pg_limits : same_limits d d';
  pg_loose : loose o' l' = loose o l;
  pg_requests : (requests (hmem (snd o)) <= requests (hmem (snd o')))%nat;
  pg_places : places (fst o) (fst o')
}.

Lemma progress_trans d1 o1 l1 p1 d2 o2 l2 p2 d3 o3 l3 : progress d1 o1 l1 d2 o2 l2 p1 -> progress d2 o2 l2 d3 o3 l3 p2 ->
  progress d1 o1 l1 d3 o3 l3 (p1 ++ p2).
Proof.
  intros [] []. constructor; [done| |done| | | |by apply places_trans with (fst o2)].
  - rewrite pg_contents1, pg_contents0. by rewrite app_assoc.
  - by apply same_limits_trans with d2.
  - by rewrite pg_loose1.
  - lia.
Qed.

Lemma wrote_progress d o o' p l : wrote o o' p -> deflater_ok d (snd o) l -> progress d o l d o' l p.
Proof.
  intros Hw Hd. constructor; [apply Hw|apply Hw|by apply wrote_ok with o p|done|by apply wrote_loose with p|apply Hw..].
Qed.

Lemma index_progress d n idx hash o l : deflater_ok d (snd o) l -> ready o ->
  (idx = -1 \/ 0 <= idx < 61 + Z.of_nat (length l) /\ exists v, entry_at (fields l) idx = Some (name n, v)) ->
  Z.of_nat (length (name n)) <= max_string -> Z.of_nat (length (value n)) <= max_string ->
  exists rv d' h' l', deflate_index malloc_ok junk d n (lookup_token (name n)) idx hash (snd o) = Some (rv, d', h') /\
    progress d o l d' (fst o, h') l' [] /\
    (rv = 0 -> table_of (d_ctx d') l' = add_field (name n, value n) (table_of (d_ctx d) l)).
Proof.
  intros Hd Hr Hidx Hn Hv. destruct (deflate_index_spec d n idx hash (snd o) l Hd Hidx Hn Hv) as (rv & d' & h' & l' & E & Hok & Hlim & Hb & Hq & Ht).
  exists rv, d', h', l'. split; [done|]. split; [|done]. constructor; cbn [fst snd]; [done|by rewrite app_nil_r|done|done| |done|apply places_refl].
  unfold loose, others, blocks_besides, spare in *. cbn [fst snd]. lia.
Qed.

(** The literal of a field. *)
Lemma emit_literal idx n m l : Z.of_nat (length l) <= 2 ^ 30 ->
  (idx = -1 \/ 0 <= idx < 61 + Z.of_nat (length l) /\ exists v, entry_at (fields l) idx = Some (name n, v)) ->
  Z.of_nat (length (name n)) <= max_string -> Z.of_nat (length (value n)) <= max_string ->
  exists nm, (forall mx, name_of (Table mx (fields l)) nm = Some (name n)) /\
    emits (fun o => if idx =? -1 then emit_newname_block malloc_ok junk n m o else emit_indname_block malloc_ok junk idx n m o)
      (repr_bytes (Literal m nm (value n))).
Proof.
  intros Hl [->|(Hi & v & Ev)] Hn Hv.
  - exists (NewName (name n)). split; [done|]. by apply emit_newname_emits.
  - exists (NameAt idx). split; [intros mx; cbn [name_of t_dyn]; by rewrite Ev|]. rewrite (proj2 (Z.eqb_neq _ _)) by lia.
    apply emit_indname_emits; [unfold UINT32_MAX; lia|done].
Qed.

Lemma deflate_nv_spec d n o l : deflater_ok d (snd o) l -> ready o ->
  Z.of_nat (length (name n)) <= max_string -> Z.of_nat (length (value n)) <= max_string ->
  exists rv d' o' l' p, deflate_nv malloc_ok junk d n o = Some (rv, d', o') /\ progress d o l d' o' l' p /\
    (rv = 0 -> exists r, repr_bytes r p /\
       encodes_field (table_of (d_ctx d) l) (table_of (d_ctx d') l') n (decide_mode d n (lookup_token (name n))) r).
Proof.
  intros Hd Hr Hn Hv. pose proof Hd as [H Htok]. unfold deflate_nv. destruct (hash_of_some (name n)) as [hash ->]. cbn [mbind option_bind].
  set (m := decide_mode d n _). destruct (search_spec _ _ _ _ _ n m hash H Htok) as (res & -> & Hres). cbn [mbind option_bind].
  assert (Hlen : Z.of_nat (length l) <= 2 ^ 30).
  { pose proof (tsize_length l (ctx_small _ _ _ _ _ H)). pose proof (ctx_tsize _ _ _ _ _ H). lia. }
  destruct (sr_name_value_match res) eqn:Em.
  { destruct Hres as [->|(idx & b & v & -> & Hi & Ee & Hex)]; [done|]. cbn in Em. subst b. destruct (Hex eq_refl) as [-> Hm].
    cbn [sr_index]. destruct (emit_indexed_emits idx ltac:(unfold UINT32_MAX; lia) o Hr) as (rv & o' & p & -> & Hw & Hp). cbn [mbind option_bind].
    exists rv, d, o', l, p. split; [done|]. split; [by apply wrote_progress|]. intros E. exists (Indexed idx). split; [by apply Hp|].
    split; [|done]. cbn [meaning table_of t_dyn]. rewrite Ee. cbn [mbind option_bind]. unfold is_never. by rewrite bool_decide_false. }
  assert (Hidx : sr_index res = -1 \/ 0 <= sr_index res < 61 + Z.of_nat (length l) /\ exists v, entry_at (fields l) (sr_index res) = Some (name n, v)).
  { destruct Hres as [->|(idx & b & v & -> & Hi & Ee & _)]; [by left|right]. split; [done|]. by exists v. }
  destruct (emit_literal (sr_index res) n m l Hlen Hidx Hn Hv) as (nm & Hname & Hemit).
  assert (Hstep : exists rv d1 h1 l1,
    (if bool_decide (m = NGHTTP2_HD_WITH_INDEXING) then deflate_index malloc_ok junk d n (lookup_token (name n)) (sr_index res) hash (snd o)
     else Some (0, d, snd o)) = Some (rv, d1, h1) /\ progress d o l d1 (fst o, h1) l1 [] /\
    (rv = 0 -> table_of (d_ctx d1) l1 = if bool_decide (m = NGHTTP2_HD_WITH_INDEXING) then add_field (name n, value n) (table_of (d_ctx d) l)
                                       else table_of (d_ctx d) l)).
  { case_bool_decide; [by apply index_progress|]. exists 0, d, (snd o), l. split; [done|]. split; [|done].
    destruct o. by apply wrote_progress; [apply wrote_nothing|]. }
  destruct Hstep as (rv & d1 & h1 & l1 & -> & Hp1 & Ht1). cbn [mbind option_bind]. destruct (Z.eqb_spec rv 0) as [->|Hne]; cbn [negb].
  2: { exists rv, d1, (fst o, h1), l1, []. split; [done|]. split; [done|]. done. }
  destruct (Hemit (fst o, h1) (pg_ready _ _ _ _ _ _ _ Hp1)) as (rv & o' & p & E & Hw & Hp). cbv zeta. cbn beta in E. rewrite E. cbn [mbind option_bind].
  exists rv, d1, o', l1, p. split; [done|]. split.
  - apply (progress_trans d o l [] d1 (fst o, h1) l1); [done|]. apply wrote_progress; [done|apply (pg_ok _ _ _ _ _ _ _ Hp1)].
  - intros Erv. exists (Literal m nm (value n)). split; [by apply Hp|]. rewrite Ht1 by done. split.
    + cbn [meaning]. unfold table_of. rewrite Hname. cbn [mbind option_bind]. done.
    + intros Hm. rewrite Hm. split; [done|]. by exists nm.
Qed.

(** ** A header block *)

(** Secrets: what is never indexed. *)
Definition sensitive (n : nghttp2_nv) : bool :=
  (lookup_token (name n) =? NGHTTP2_TOKEN_AUTHORIZATION)
  || ((lookup_token (name n) =? NGHTTP2_TOKEN_COOKIE) && (Z.of_nat (length (value n)) <? 20))
  || negb (Z.land (flags n) NGHTTP2_NV_FLAG_NO_INDEX =? 0).

Lemma decide_mode_sensitive d n : is_never (decide_mode d n (lookup_token (name n))) = sensitive n.
Proof.
  unfold decide_mode, sensitive. destruct (_ || _); [done|]. unfold hd_deflate_decide_indexing. by destruct (_ || _).
Qed.

Definition emission (n : nghttp2_nv) : emitted := ((name n, value n), sensitive n).

(** A field that fits on the wire. *)
Definition sendable (n : nghttp2_nv) : Prop := Z.of_nat (length (name n)) <= max_string /\ Z.of_nat (length (value n)) <= max_string.

(** A representation of the field; secrets are literals that are marked as such, and
    leave the table alone. *)
Definition represents (n : nghttp2_nv) (r : repr) : Prop :=
  of_field r /\ (sensitive n = true -> exists nm, r = Literal NGHTTP2_HD_NEVER_INDEXING nm (value n)).

Lemma encodes_represents t t' n d r : encodes_field t t' n (decide_mode d n (lookup_token (name n))) r ->
  meaning t r = Some (t', [emission n]) /\ represents n r.
Proof.
  intros [Hm Hn]. unfold emission. rewrite <- (decide_mode_sensitive d). split; [done|]. unfold represents. rewrite <- (decide_mode_sensitive d).
  split.
  - destruct r as [|m nm v|k]; [done..|]. cbn in Hm. done.
  - unfold is_never. intros E%bool_decide_eq_true. destruct (Hn E) as [_ [nm ->]]. exists nm. by rewrite E.
Qed.

Lemma deflate_nvs_spec nva : forall d o l, deflater_ok d (snd o) l -> ready o -> Forall sendable nva ->
  exists rv d' o' l' p, deflate_nvs malloc_ok junk d nva o = Some (rv, d', o') /\ progress d o l d' o' l' p /\
    (rv = 0 -> exists rs, reprs_bytes rs p /\ Forall2 represents nva rs /\
       meanings (table_of (d_ctx d) l) rs = Some (table_of (d_ctx d') l', map emission nva)).
Proof.
  induction nva as [|n nva IH]; intros d o l Hd Hr Hs; cbn [deflate_nvs].
  { exists 0, d, o, l, []. split; [done|]. split; [by apply wrote_progress; [apply wrote_nothing|]|]. intros _. exists []. split; [constructor|]. done. }
  inversion Hs as [|? ? [Hn Hv] Hs']; subst. destruct (deflate_nv_spec d n o l Hd Hr Hn Hv) as (rv & d1 & o1 & l1 & p & -> & Hp & Henc).
  cbn [mbind option_bind]. destruct (Z.eqb_spec rv 0) as [->|Hne]; cbn [negb].
  2: { exists rv, d1, o1, l1, p. split; [done|]. split; [done|]. done. }
  destruct (IH d1 o1 l1 (pg_ok _ _ _ _ _ _ _ Hp) (pg_ready _ _ _ _ _ _ _ Hp) Hs') as (rv & d2 & o2 & l2 & q & -> & Hq & Hrest).
  exists rv, d2, o2, l2, (p ++ q). split; [done|]. split; [by apply progress_trans with d1 o1 l1|].
  intros E. destruct (Henc eq_refl) as (r & Hr1 & [Hm Hrep]%encodes_represents). destruct (Hrest E) as (rs & Hrs & Hf & Hms).
  exists (r :: rs). split; [by constructor|]. split; [by constructor|]. cbn [meanings]. rewrite Hm. cbn [mbind option_bind fst snd]. by rewrite Hms.
Qed.

(** *** Changes of the size *)

(** The table of the peer, when the announcements that are due are taken into
    account. *)
Definition announced (d : nghttp2_hd_deflater) (l : list entry) (t : table) : Prop :=
  if notify_table_size_change d
  then fit (Z.min (d_min_bufsize_max d) (hd_table_bufsize_max (d_ctx d))) (t_dyn t) = fields l /\ 0 <= d_min_bufsize_max d <= UINT32_MAX
  else t = table_of (d_ctx d) l.

(** The sizes that are announced at the head of the next block. *)
Definition updates (d : nghttp2_hd_deflater) : list Z :=
  if notify_table_size_change d then
    (if d_min_bufsize_max d <? hd_table_bufsize_max (d_ctx d) then [d_min_bufsize_max d] else []) ++ [hd_table_bufsize_max (d_ctx d)]
  else [].

Lemma emit_table_size_emits n : 0 <= n <= UINT32_MAX -> emits (emit_table_size malloc_ok junk n) (fun p => reprs_bytes [SizeUpdate n] p).
Proof.
  intros Hn. eapply emits_weaken; [apply emit_length_emits; [lia|done]|]. intros p ->. by apply reprs_bytes_one, SizeUpdateBytes.
Qed.

Lemma emit_table_sizes_emits mn mx : 0 <= mn <= UINT32_MAX -> 0 <= mx <= UINT32_MAX ->
  emits (emit_table_sizes malloc_ok junk mn mx) (fun p => reprs_bytes (map SizeUpdate ((if mn <? mx then [mn] else []) ++ [mx])) p).
Proof.
  intros Hmn Hmx. unfold emit_table_sizes. destruct (mn <? mx).
  - eapply emits_weaken; [apply emits_seq; by apply emit_table_size_emits|]. intros p (a & b & -> & Ha & Hb).
    by apply (reprs_bytes_app [SizeUpdate mn]).
  - apply emits_ext with (emit_table_size malloc_ok junk mx); [done|]. by apply emit_table_size_emits.
Qed.

Lemma meanings_updates d l t : announced d l t -> meanings t (map SizeUpdate (updates d)) = Some (table_of (d_ctx d) l, []).
Proof.
  unfold announced, updates. destruct (notify_table_size_change d); [|by intros ->]. intros [E _]. unfold table_of. rewrite <- E.
  destruct (Z.ltb_spec (d_min_bufsize_max d) (hd_table_bufsize_max (d_ctx d))); cbn.
  - rewrite fit_fit. do 4 f_equal. lia.
  - do 4 f_equal. lia.
Qed.

(** The deflater after a block: nothing is due; [bad] if it failed. *)
Definition settled (d d' : nghttp2_hd_deflater) (rv : Z) : Prop :=
  hd_table_bufsize_max (d_ctx d') = hd_table_bufsize_max (d_ctx d) /\ bad (d_ctx d') = negb (rv =? 0) /\
  deflate_hd_table_bufsize_max d' = deflate_hd_table_bufsize_max d /\ notify_table_size_change d' = false /\
  (notify_table_size_change d = true -> d_min_bufsize_max d' = UINT32_MAX) /\
  (notify_table_size_change d = false -> d_min_bufsize_max d' = d_min_bufsize_max d).

(** The sizes are written, or there are none. *)
Lemma deflate_updates_spec d o l t : deflater_ok d (snd o) l -> ready o -> announced d l t ->
  exists rv d' o' p, deflate_updates malloc_ok junk d o = Some (rv, d', o') /\
    d_ctx d' = d_ctx d /\ d_map d' = d_map d /\ deflate_hd_table_bufsize_max d' = deflate_hd_table_bufsize_max d /\
    notify_table_size_change d' = false /\
    (notify_table_size_change d = true -> d_min_bufsize_max d' = UINT32_MAX) /\
    (notify_table_size_change d = false -> d_min_bufsize_max d' = d_min_bufsize_max d) /\
    wrote o o' p /\ (rv = 0 -> reprs_bytes (map SizeUpdate (updates d)) p).
Proof.
  intros [H _] Hr Ha. unfold deflate_updates, updates, announced in *. destruct (notify_table_size_change d) eqn:En.
  - destruct Ha as [_ Hmin]. pose proof (ctx_max _ _ _ _ _ H). cbn [d_ctx set_d_min set_notify].
    destruct (emit_table_sizes_emits (d_min_bufsize_max d) (hd_table_bufsize_max (d_ctx d)) Hmin ltac:(unfold UINT32_MAX; lia) o Hr)
      as (rv & o' & p & -> & Hw & Hp). cbn [mbind option_bind]. do 2 eexists. exists o', p. split; [done|]. done.
  - exists 0, d, o, []. split; [done|]. do 6 (split; [done|]). split; [by apply wrote_nothing|]. intros _. constructor.
Qed.

Lemma deflate_block_spec d o l t nva : deflater_ok d (snd o) l -> ready o -> bad (d_ctx d) = false -> announced d l t -> Forall sendable nva ->
  exists rv d' o' l' p, nghttp2_hd_deflate_hd_bufs malloc_ok junk d nva o = Some (rv, d', o') /\
    ready o' /\ contents (fst o') = contents (fst o) ++ p /\ deflater_ok d' (snd o') l' /\ loose o' l' = loose o l /\
    (requests (hmem (snd o)) <= requests (hmem (snd o')))%nat /\ places (fst o) (fst o') /\ settled d d' rv /\
    (rv = 0 -> exists rs, reprs_bytes (map SizeUpdate (updates d) ++ rs) p /\ Forall2 represents nva rs /\
       meanings t (map SizeUpdate (updates d) ++ rs) = Some (table_of (d_ctx d') l', map emission nva)).
Proof.
  intros Hd Hr Hbad Ha Hs. unfold nghttp2_hd_deflate_hd_bufs. rewrite Hbad.
  destruct (deflate_updates_spec d o l t Hd Hr Ha) as (rv & d1 & o1 & p & -> & Ec & Em & Ed & En & Emt & Emf & Hw & Hp). cbn [mbind option_bind].
  assert (Hd1 : deflater_ok d1 (snd o1) l).
  { pose proof (wrote_ok o o1 p d l Hw Hd) as H. unfold deflater_ok in *. by rewrite Ec, Em. }
  destruct (Z.eqb_spec rv 0) as [->|Hne]; cbn [negb].
  - destruct (deflate_nvs_spec nva d1 o1 l Hd1 (wrote_wf _ _ _ Hw) Hs) as (rv & d2 & o2 & l2 & q & -> & Hq & Hrest). cbn [mbind option_bind].
    destruct (pg_limits _ _ _ _ _ _ _ Hq) as (E1 & E2 & E3 & E4 & E5). do 2 eexists. exists o2, l2, (p ++ q). split; [done|].
    split; [apply (pg_ready _ _ _ _ _ _ _ Hq)|]. split; [by rewrite (pg_contents _ _ _ _ _ _ _ Hq), (wrote_contents _ _ _ Hw), app_assoc|].
    pose proof (pg_ok _ _ _ _ _ _ _ Hq) as Hok2. pose proof (pg_loose _ _ _ _ _ _ _ Hq) as Hl2. pose proof (pg_requests _ _ _ _ _ _ _ Hq) as Hq2.
    pose proof (wrote_requests _ _ _ Hw). pose proof (places_trans _ _ _ (wrote_places _ _ _ Hw) (pg_places _ _ _ _ _ _ _ Hq)) as Hpl.
    split; [|split; [by rewrite Hl2, (wrote_loose o o1 p l)|split; [lia|split; [done|split]]]].
    + destruct (negb (rv =? 0)); [|done]. destruct Hok2 as [H2 Ht2]. split; [by apply set_bad_ok|done].
    + unfold settled. destruct (Z.eqb_spec rv 0) as [->|Hne]; cbn; rewrite ?E1, ?E2, ?E3, ?E4, ?E5, ?Ec, ?Ed; done.
    + intros ->. cbn [negb Z.eqb]. destruct (Hrest eq_refl) as (rs & Hrs & Hf & Hms). exists rs.
      split; [by apply reprs_bytes_app; [apply Hp|]|]. split; [done|]. rewrite meanings_app, (meanings_updates d l t) by done.
      cbn [mbind option_bind fst snd]. rewrite <- Ec, Hms. done.
  - cbn [mbind option_bind]. rewrite (proj2 (Z.eqb_neq _ _)) by done. cbn [negb]. do 2 eexists. exists o1, l, p. split; [done|].
    split; [apply Hw|]. split; [apply Hw|]. split; [destruct Hd1 as [H1 Ht1]; split; [by apply set_bad_ok|done]|].
    split; [by apply wrote_loose with p|]. split; [apply Hw|]. split; [apply Hw|]. split; [|done].
    unfold settled. cbn. rewrite (proj2 (Z.eqb_neq rv 0)) by done. rewrite Ec. done.
Qed.

(** The deflater takes over the size the peer announces, up to its own limit. *)
Lemma deflate_change_spec d s h l t : deflater_ok d h l -> announced d l t -> 0 <= s <= 2 ^ 30 -> 0 <= deflate_hd_table_bufsize_max d ->
  (notify_table_size_change d = true -> d_min_bufsize_max d <= hd_table_bufsize_max (d_ctx d) \/ t_dyn t = []) ->
  exists d' h' l', nghttp2_hd_deflate_change_table_size d s h = Some (0, d', h') /\ deflater_ok d' h' l' /\
    blocks_besides h' l' = blocks_besides h l /\ requests (hmem h') = requests (hmem h) /\
    bad (d_ctx d') = bad (d_ctx d) /\ deflate_hd_table_bufsize_max d' = deflate_hd_table_bufsize_max d /\
    notify_table_size_change d' = true /\ hd_table_bufsize_max (d_ctx d') = Z.min s (deflate_hd_table_bufsize_max d) /\
    d_min_bufsize_max d' = Z.min (d_min_bufsize_max d) (hd_table_bufsize_max (d_ctx d')) /\
    fields l' = fit (hd_table_bufsize_max (d_ctx d')) (fields l).
Proof.
  intros [H Htok] Ha Hs Hd Hmin. unfold nghttp2_hd_deflate_change_table_size. set (next := Z.min s _).
  assert (H1 : ctx_ok (set_bufsize_max next (d_ctx d)) (Some (d_map d)) h l []) by (apply set_max_ok; [done|lia]).
  cbn [d_ctx d_map set_d_ctx set_d_min set_notify].
  destruct (shrink_spec _ _ _ _ _ H1) as (c' & map' & h' & E & H2 & (Em & En & Eb) & Hn & Hbk & Hq). cbv zeta. rewrite E. cbn [mbind option_bind].
  destruct map' as [m'|]; [|by destruct Hn as [Hn _]; specialize (Hn eq_refl)]. cbn [mbind option_bind]. cbn in Em, H2, Hbk, Eb.
  do 2 eexists. exists (keep next l). split; [done|]. split; [split; [done|by apply tokens_keep]|]. split; [done|]. split; [done|].
  cbn. rewrite Em. split; [done|]. split; [done|]. split; [done|]. split; [done|]. split; [done|].
  apply fields_keep, (ctx_small _ _ _ _ _ H).
Qed.
(** *** Life cycle *)

Lemma deflate_init_spec max h : 0 <= max <= 2 ^ 30 -> owned h [] ->
  exists rv d h', nghttp2_hd_deflate_init2 malloc_ok max h = Some (rv, d, h') /\
    (rv = 0 /\ deflater_ok d h' [] /\ bad (d_ctx d) = false /\ deflate_hd_table_bufsize_max d = max /\ d_min_bufsize_max d = UINT32_MAX /\
       hd_table_bufsize_max (d_ctx d) = Z.min max NGHTTP2_HD_DEFAULT_MAX_BUFFER_SIZE /\
       notify_table_size_change d = (max <? NGHTTP2_HD_DEFAULT_MAX_BUFFER_SIZE) /\ blocks_besides h' [] = spare h + 1 \/
     rv = NGHTTP2_ERR_NOMEM /\ refused malloc_ok h h' /\ owned h' [] /\ spare h' = spare h).
Proof.
  intros Hmax Ho. unfold nghttp2_hd_deflate_init2. destruct (context_init_spec malloc_ok h [] Ho) as (rv & c & h' & -> & Hq & Hcase).
  cbn [mbind option_bind]. do 3 eexists. split; [done|]. destruct Hcase as [(-> & _ & H & Hsp & Em & Ebad)|(-> & Hr & Ho' & Hsp)]; [left|by right].
  split; [done|]. cbn [d_ctx d_min_bufsize_max deflate_hd_table_bufsize_max notify_table_size_change].
  split; [split; [cbn; destruct (_ <? _); [by apply set_max_ok|done]|constructor]|].
  split; [by destruct (_ <? _)|]. split; [done|]. split; [done|].
  split; [destruct (Z.ltb_spec max NGHTTP2_HD_DEFAULT_MAX_BUFFER_SIZE); cbn; lia|]. split; [done|]. unfold blocks_besides. cbn [length]. lia.
Qed.

Lemma deflate_free_spec d h l : deflater_ok d h l -> exists h', nghttp2_hd_deflate_free d h = Some h' /\ owned h' [] /\ spare h' = blocks_besides h l - 1.
Proof. intros [H _]. destruct (context_free_spec _ _ _ _ _ H) as (h' & E & Ho & Hs & _). by exists h'. Qed.
(** C32: a header block is what it should be.  The deflater appends to the chain bytes
    that encode, by RFC 7541, first the sizes of the table that are due and then one
    representation of every field, in order; read with the table of the peer they mean
    the fields, with the sensitive ones (authorization, a short cookie, the flag
    NO_INDEX) as literals that are never indexed, and leave the peer with the
    deflater's new table.  It either does all that and returns 0, or fails and is
    [bad] from then on; in both cases its tables and counts stay right, and no memory
    is lost. *)
Theorem deflate_block_correct d o l t nva : deflater_ok d (snd o) l -> ready o -> bad (d_ctx d) = false -> announced d l t -> Forall sendable nva ->
  exists rv d' o' l' p, nghttp2_hd_deflate_hd_bufs malloc_ok junk d nva o = Some (rv, d', o') /\
    ready o' /\ deflater_ok d' (snd o') l' /\ loose o' l' = loose o l /\
    contents (fst o') = contents (fst o) ++ p /\ bad (d_ctx d') = negb (rv =? 0) /\ notify_table_size_change d' = false /\
    (rv = 0 -> exists rs, reprs_bytes (map SizeUpdate (updates d) ++ rs) p /\ length rs = length nva /\
       meanings t (map SizeUpdate (updates d) ++ rs) = Some (table_of (d_ctx d') l', map (fun n => ((name n, value n), sensitive n)) nva) /\
       forall i n r, nva !! i = Some n -> rs !! i = Some r -> of_field r /\
         (sensitive n = true -> exists nm, r = Literal NGHTTP2_HD_NEVER_INDEXING nm (value n))).
Proof.
  intros Hd Hr Hbad Ha Hs.
  destruct (deflate_block_spec d o l t nva Hd Hr Hbad Ha Hs) as (rv & d' & o' & l' & p & E & Hr' & Hc & Hd' & Hl & _ & _ & (_ & Hb & _ & Hn & _) & Hok).
  exists rv, d', o', l', p. do 7 (split; [done|]). intros ->. destruct (Hok eq_refl) as (rs & Hp & Hf & Hm). exists rs. split; [done|].
  split; [symmetry; by eapply Forall2_length|]. split; [done|]. intros i n r Hin Hir. by eapply (Forall2_lookup_lr _ _ _ _ _ _ Hf).
Qed.

End Spec.

(** ** Witness *)

(** An empty chain of at most four chunks of 64 bytes. *)
Definition chain64 : nghttp2_bufs := Bufs [nghttp2_buf_wrap_init (zeros 64)] 0 64 4 1 4 0.

Lemma chain64_ready h : ready (chain64, h).
Proof.
  split; [constructor|split]; cbn; try lia; repeat constructor; unfold nghttp2_buf_cap; cbn; lia.
Qed.

(** Three fields: one that is indexed, a secret, one that the application marked. *)
Definition some_fields : list nghttp2_nv :=
  [Nv (chars ":method") (chars "GET") NGHTTP2_NV_FLAG_NONE; Nv (chars "cookie") (chars "a=b") NGHTTP2_NV_FLAG_NONE;
   Nv (chars "x-key") (chars "0123456789") NGHTTP2_NV_FLAG_NO_INDEX].

Lemma deflate_block_correct_witness : exists d m, nghttp2_hd_deflate_init2 (fun _ => true) 4096 (Heap (Mem 0 2) ∅) = Some (0, d, Heap m ∅) /\
  exists rv d' o' l' p, nghttp2_hd_deflate_hd_bufs (fun _ => true) (fun _ _ => NUL) d some_fields (chain64, Heap m ∅) = Some (rv, d', o') /\
    contents (fst o') = p /\ (rv = 0 -> exists rs, reprs_bytes rs p /\
      meanings (Table 4096 []) rs = Some (table_of (d_ctx d') l', map (fun n => ((name n, value n), sensitive n)) some_fields)).
Proof.
  destruct (deflate_init_spec (fun _ => true) 4096 (Heap (Mem 0 2) ∅) ltac:(lia) (owned_nothing _)) as (rv & d & h & E & Hcase).
  pose proof E as E0. vm_compute in E0. injection E0 as E1 E2 E3. destruct Hcase as [(_ & Hok & Hbad & _ & Emin & Emax & Ent & _)|(Hno & _)]; [|rewrite Hno in E1; discriminate E1].
  assert (Ha : announced d [] (Table 4096 [])) by (unfold announced, table_of; by rewrite Ent, Emax).
  subst rv h. exists d, (Mem 1 3). split; [exact E|].
  destruct (deflate_block_correct (fun _ => true) (fun _ _ => NUL) d (chain64, Heap (Mem 1 3) ∅) [] (Table 4096 []) some_fields Hok (chain64_ready _) Hbad Ha)
    as (rv & d' & o' & l' & p & Eh & _ & _ & _ & Hc & _ & _ & Hrs); [repeat constructor; vm_compute; done|].
  exists rv, d', o', l', p. split; [exact Eh|]. split; [exact Hc|]. intros Hrv. destruct (Hrs Hrv) as (rs & Hp & _ & Hm & _).
  unfold updates in Hp, Hm. rewrite Ent in Hp, Hm. by exists rs.
Defined.
