(* ===== verification/HdInflateSpec.v ===== *)
(** * HPACK decoding: what the inflater does

    The inflater is a streaming decoder; [rest_of] says for each of its states what
    the rest of the input means, in terms of the parsers of HpackParse.v.  Every
    step of the machine keeps that meaning, the well-formedness of the table, the
    counts of references and the room that is left in the buffers
    ([inflate_step_spec]); so it does what the reference decoder does, on inputs
    that are cut anywhere ([inflate_refines_decoder]). *)

From stdpp Require Import gmap list.
From S2P Require Import Prelude CLib NgBuf HuffTable Huffman HuffSpec HpackInt Rcbuf HdStatic HdTable HdTableSpec HdInflate Hpack HpackParse.

(** ** The references the inflater holds *)

Definition olist (r : option nghttp2_rcbuf) : list nghttp2_rcbuf := match r with Some r => [r] | None => [] end.

Definition held (i : nghttp2_hd_inflater) : list nghttp2_rcbuf :=
  olist (namercbuf i) ++ olist (valuercbuf i) ++ olist (nv_name_keep i) ++ olist (nv_value_keep i).

Lemma decref_opt h r L : owned h (olist r ++ L) -> exists h', nghttp2_rcbuf_decref r h = Some h' /\ owned h' L /\
  spare h' = spare h /\ requests (hmem h') = requests (hmem h).
Proof. destruct r as [r|]; [apply decref_spec|]. intros H. by exists h. Qed.

(** ** Sizes *)

(** The longest string that is decoded: every byte may be a nibble of two codes. *)
Definition max_text : Z := 2 * max_string.

Definition short (r : nghttp2_rcbuf) : Prop := holds r /\ Z.of_nat (len r) <= max_text.

Definition short_entry (e : entry) : Prop :=
  short (nv_name (ent_nv e)) /\ short (nv_value (ent_nv e)) /\ nv_flags (ent_nv e) = NGHTTP2_NV_FLAG_NONE.

Definition shorts (l : list entry) : Prop := Forall short_entry l.

Lemma shorts_keep m l : shorts l -> shorts (keep m l).
Proof. intros H. destruct (keep_prefix m l) as [l' E]. unfold shorts in *. rewrite E in H. by apply Forall_app in H as [H _]. Qed.

Lemma short_small n : short (nv_name n) -> short (nv_value n) -> small n.
Proof. unfold short, small, max_text, max_string. intros [H1 H2] [H3 H4]. split; [done|]. split; [done|]. lia. Qed.

Lemma static_short s : Z.of_nat (length s) <= max_text -> short (static_rcbuf s).
Proof. intros H. unfold short, holds, static_rcbuf. cbn. rewrite length_app. split; [lia|done]. Qed.

Lemma static_table_short : forallb (fun e => (Z.of_nat (length (s_name e)) <=? max_text) && (Z.of_nat (length (s_value e)) <=? max_text)) static_table = true.
Proof. vm_compute. reflexivity. Qed.

(** ** The invariant *)

(** No field is both indexed and never indexed. *)
Definition flags_ok (i : nghttp2_hd_inflater) : Prop := index_required i = true -> no_index i = false.

Record base_ok (i : nghttp2_hd_inflater) (h : heap) (l : list entry) : Prop := {
  bo_ctx : ctx_ok (ctx i) None h l (held i);
  bo_tokens : tokens_ok l;
  bo_shorts : shorts l;
  bo_settings : 0 <= settings_hd_table_bufsize_max i <= 2 ^ 30;
  bo_min : 0 <= min_hd_table_bufsize_max i <= UINT32_MAX;
  bo_flags : flags_ok i
}.

(** What of the inflater it depends on. *)
Definition same_base (i i' : nghttp2_hd_inflater) : Prop :=
  ctx i' = ctx i /\ held i' = held i /\ settings_hd_table_bufsize_max i' = settings_hd_table_bufsize_max i /\
  min_hd_table_bufsize_max i' = min_hd_table_bufsize_max i /\ (flags_ok i -> flags_ok i').

Lemma base_same i i' h l : same_base i i' -> base_ok i h l -> base_ok i' h l.
Proof. intros (E1 & E2 & E3 & E4 & E5) []. constructor; rewrite ?E1, ?E2, ?E3, ?E4; auto. Qed.

(** The part of an integer that is known. *)
Definition int_ok (i : nghttp2_hd_inflater) : Prop := 0 <= left i <= UINT32_MAX /\ (left i = 0 -> shift i = 0).

(** A string that is being read: its block has room for the rest of it, [per] bytes
    for each byte, and for the NUL. *)
Definition filling (per : Z) (i : nghttp2_hd_inflater) (b : nghttp2_buf) (r : option nghttp2_rcbuf) : Prop :=
  r <> None /\ wf_buf 0 b /\ pos b = 0%nat /\ 0 <= left i /\ per * left i + 1 <= Z.of_nat (nghttp2_buf_avail b) /\
  Z.of_nat (nghttp2_buf_cap b) <= max_text + 1.

Definition huff_ok (i : nghttp2_hd_inflater) : Prop :=
  fstate_ok (ctx_fstate (huff_decode_ctx i)) /\ (ctx_fstate (huff_decode_ctx i) =? 256) = false /\
  (left i = 0 -> has_flag (ctx_fstate (huff_decode_ctx i)) NGHTTP2_HUFF_ACCEPTED = true).

(** The name of the field is known. *)
Definition name_ok (i : nghttp2_hd_inflater) (n : Z) : Prop :=
  (opcode i = NGHTTP2_HD_OPCODE_NEWNAME /\ exists r, namercbuf i = Some r /\ short r) \/
  (opcode i = NGHTTP2_HD_OPCODE_INDNAME /\ namercbuf i = None /\ 0 <= index i < 61 + n).

Definition no_strings (i : nghttp2_hd_inflater) : Prop := namercbuf i = None /\ valuercbuf i = None.

Definition no_keep (i : nghttp2_hd_inflater) : Prop := nv_name_keep i = None /\ nv_value_keep i = None.

(** [n] is the length of the dynamic table. *)
Definition state_ok (i : nghttp2_hd_inflater) (n : Z) : Prop :=
  match state i with
  | NGHTTP2_HD_STATE_EXPECT_TABLE_SIZE | NGHTTP2_HD_STATE_INFLATE_START | NGHTTP2_HD_STATE_OPCODE => no_strings i
  | NGHTTP2_HD_STATE_READ_TABLE_SIZE => no_strings i /\ int_ok i
  | NGHTTP2_HD_STATE_READ_INDEX =>
      no_strings i /\ int_ok i /\ (opcode i = NGHTTP2_HD_OPCODE_INDEXED \/ opcode i = NGHTTP2_HD_OPCODE_INDNAME)
  | NGHTTP2_HD_STATE_NEWNAME_CHECK_NAMELEN => no_strings i /\ opcode i = NGHTTP2_HD_OPCODE_NEWNAME
  | NGHTTP2_HD_STATE_NEWNAME_READ_NAMELEN => no_strings i /\ opcode i = NGHTTP2_HD_OPCODE_NEWNAME /\ int_ok i
  | NGHTTP2_HD_STATE_NEWNAME_READ_NAMEHUFF =>
      valuercbuf i = None /\ opcode i = NGHTTP2_HD_OPCODE_NEWNAME /\ filling 2 i (namebuf i) (namercbuf i) /\ huff_ok i
  | NGHTTP2_HD_STATE_NEWNAME_READ_NAME =>
      valuercbuf i = None /\ opcode i = NGHTTP2_HD_OPCODE_NEWNAME /\ filling 1 i (namebuf i) (namercbuf i)
  | NGHTTP2_HD_STATE_CHECK_VALUELEN => valuercbuf i = None /\ name_ok i n
  | NGHTTP2_HD_STATE_READ_VALUELEN => valuercbuf i = None /\ name_ok i n /\ int_ok i
  | NGHTTP2_HD_STATE_READ_VALUEHUFF => name_ok i n /\ filling 2 i (valuebuf i) (valuercbuf i) /\ huff_ok i
  | NGHTTP2_HD_STATE_READ_VALUE => name_ok i n /\ filling 1 i (valuebuf i) (valuercbuf i)
  end.

(** ** The meaning of the rest of the input *)

Definition limit (i : nghttp2_hd_inflater) : Z := Z.min (min_hd_table_bufsize_max i) (settings_hd_table_bufsize_max i).

Definition mode_of (i : nghttp2_hd_inflater) : nghttp2_hd_indexing_mode :=
  if index_required i then NGHTTP2_HD_WITH_INDEXING
  else if no_index i then NGHTTP2_HD_NEVER_INDEXING else NGHTTP2_HD_WITHOUT_INDEXING.

Definition name_of_field (i : nghttp2_hd_inflater) : name_ref :=
  match opcode i, namercbuf i with
  | NGHTTP2_HD_OPCODE_NEWNAME, Some r => NewName (nghttp2_rcbuf_get_buf r)
  | _, _ => NameAt (index i)
  end.

Definition rest_of_int (i : nghttp2_hd_inflater) : Z -> Z -> list char -> parsed Z := resume_int (left i) (shift i).

Definition rest_of_string (i : nghttp2_hd_inflater) (huffman : bool) (b : nghttp2_buf) : list char -> parsed (list char) :=
  parse_rest huffman (ctx_fstate (huff_decode_ctx i)) (present b) (left i).

(** A string from its length on. *)
Definition rest_of_strlen (i : nghttp2_hd_inflater) (l : list char) : parsed (list char) :=
  andthen (rest_of_int i 7 max_string l) (parse_rest (huffman_encoded i) NGHTTP2_HUFF_ACCEPTED []).

Definition then_value (i : nghttp2_hd_inflater) (p : parsed (list char)) : parsed repr :=
  andthen p (fun s => parse_value (mode_of i) (NewName s)).

Definition the_value (i : nghttp2_hd_inflater) (p : parsed (list char)) : parsed repr :=
  andthen p (fun v rest => Done (Literal (mode_of i) (name_of_field i) v) rest).

Definition phase_of (i : nghttp2_hd_inflater) : phase :=
  match state i with
  | NGHTTP2_HD_STATE_EXPECT_TABLE_SIZE => Expecting
  | NGHTTP2_HD_STATE_INFLATE_START => Starting
  | _ => Inside
  end.

Definition rest_of (i : nghttp2_hd_inflater) (l : list char) : parsed repr :=
  match state i with
  | NGHTTP2_HD_STATE_EXPECT_TABLE_SIZE | NGHTTP2_HD_STATE_INFLATE_START | NGHTTP2_HD_STATE_OPCODE =>
      parse_repr (phase_of i) (get_max_index (ctx i)) (limit i) l
  | NGHTTP2_HD_STATE_READ_TABLE_SIZE => andthen (rest_of_int i 5 (limit i) l) (fun n rest => Done (SizeUpdate n) rest)
  | NGHTTP2_HD_STATE_READ_INDEX =>
      andthen (rest_of_int i (index_prefix i) (get_max_index (ctx i)) l) (fun n rest =>
        if n =? 0 then Malformed
        else if bool_decide (opcode i = NGHTTP2_HD_OPCODE_INDEXED) then Done (Indexed (n - 1)) rest
        else parse_value (mode_of i) (NameAt (n - 1)) rest)
  | NGHTTP2_HD_STATE_NEWNAME_CHECK_NAMELEN => then_value i (parse_string l)
  | NGHTTP2_HD_STATE_NEWNAME_READ_NAMELEN => then_value i (rest_of_strlen i l)
  | NGHTTP2_HD_STATE_NEWNAME_READ_NAMEHUFF => then_value i (rest_of_string i true (namebuf i) l)
  | NGHTTP2_HD_STATE_NEWNAME_READ_NAME => then_value i (rest_of_string i false (namebuf i) l)
  | NGHTTP2_HD_STATE_CHECK_VALUELEN => parse_value (mode_of i) (name_of_field i) l
  | NGHTTP2_HD_STATE_READ_VALUELEN => the_value i (rest_of_strlen i l)
  | NGHTTP2_HD_STATE_READ_VALUEHUFF => the_value i (rest_of_string i true (valuebuf i) l)
  | NGHTTP2_HD_STATE_READ_VALUE => the_value i (rest_of_string i false (valuebuf i) l)
  end.

(** ** What a step may do *)

Definition starting (i : nghttp2_hd_inflater) : bool :=
  match state i with
  | NGHTTP2_HD_STATE_EXPECT_TABLE_SIZE | NGHTTP2_HD_STATE_INFLATE_START | NGHTTP2_HD_STATE_OPCODE => true
  | _ => false
  end.

Definition in_value (i : nghttp2_hd_inflater) : bool :=
  match state i with NGHTTP2_HD_STATE_READ_VALUEHUFF | NGHTTP2_HD_STATE_READ_VALUE => true | _ => false end.

(** The states that may go on without reading. *)
Definition idle (i : nghttp2_hd_inflater) : bool :=
  starting i || in_value i ||
  match state i with NGHTTP2_HD_STATE_NEWNAME_READ_NAMEHUFF | NGHTTP2_HD_STATE_NEWNAME_READ_NAME => true | _ => false end.

(** Two turns in a row read something. *)
Definition measure (i : nghttp2_hd_inflater) (l : list char) : nat := (2 * length l + if idle i then 1 else 0)%nat.

Lemma measure_read i i' p l rest : p <> [] -> l = p ++ rest -> (measure i' rest < measure i l)%nat.
Proof.
  intros Hp ->. unfold measure. rewrite length_app. destruct p; [done|]. cbn [length]. destruct (idle i), (idle i'); lia.
Qed.

Definition same_limits (i i' : nghttp2_hd_inflater) : Prop :=
  settings_hd_table_bufsize_max i' = settings_hd_table_bufsize_max i /\ min_hd_table_bufsize_max i' = min_hd_table_bufsize_max i.

(** A field for the application: its strings are in the tables or held for it. *)
Definition alive (n : nghttp2_hd_nv) (i : nghttp2_hd_inflater) (l : list entry) : Prop :=
  forall r, r = nv_name n \/ r = nv_value n -> holds r /\ (addr r = None \/ r ∈ ptrs l ++ held i).

Definition flag_of (n : nghttp2_hd_nv) : bool := negb (nv_flags n =? NGHTTP2_NV_FLAG_NONE).

Section Spec.
Context (malloc_ok : nat -> bool) (junk : nat -> nat -> char).

Definition outcome_ok (i : nghttp2_hd_inflater) (h : heap) (l : list entry) (input : list char)
    (o : outcome) (i' : nghttp2_hd_inflater) (h' : heap) (l' : list entry) : Prop :=
  let means (p : list char -> parsed repr) := forall x, rest_of i (input ++ x) = p x in
  match o with
  | Break rest busy =>
      (exists p, input = p ++ rest) /\ no_keep i' /\ state_ok i' (Z.of_nat (length l')) /\
      (measure i' rest < measure i input)%nat /\ busy = in_value i' /\
      (same_limits i i' /\ table_of (ctx i') l' = table_of (ctx i) l /\ starting i' = false /\ means (fun x => rest_of i' (rest ++ x)) \/
       exists n, state i' = NGHTTP2_HD_STATE_INFLATE_START /\ min_hd_table_bufsize_max i' = UINT32_MAX /\
         settings_hd_table_bufsize_max i' = settings_hd_table_bufsize_max i /\
         table_of (ctx i') l' = Table n (fit n (fields l)) /\ means (fun x => Done (SizeUpdate n) (rest ++ x)))
  | AlmostOk rest =>
      rest = [] /\ no_keep i' /\ state_ok i' (Z.of_nat (length l')) /\ starting i' = false /\ same_limits i i' /\
      table_of (ctx i') l' = table_of (ctx i) l /\ rest_of i' [] = More /\ means (rest_of i')
  | Emit rest n =>
      (exists p, input = p ++ rest) /\ state i' = NGHTTP2_HD_STATE_OPCODE /\ no_strings i' /\ same_limits i i' /\ alive n i' l' /\
      nv_token n = lookup_token (fst (field_of n)) /\
      exists r, of_field r /\ meaning (table_of (ctx i) l) r = Some (table_of (ctx i') l', [(field_of n, flag_of n)]) /\
        means (fun x => Done r (rest ++ x))
  | Fail rv =>
      rv = NGHTTP2_ERR_HEADER_COMP /\ means (fun _ => Malformed) \/ rv = NGHTTP2_ERR_NOMEM /\ refused malloc_ok h h'
  end.

(** The invariant is kept, and no memory is lost. *)
Definition step_ok (i : nghttp2_hd_inflater) (h : heap) (l : list entry) (input : list char)
    (r : option (outcome * nghttp2_hd_inflater * heap)) : Prop :=
  exists o i' h' l', r = Some (o, i', h') /\ base_ok i' h' l' /\ bad (ctx i') = bad (ctx i) /\
    blocks_besides h' l' = blocks_besides h l /\ (requests (hmem h) <= requests (hmem h'))%nat /\
    outcome_ok i h l input o i' h' l'.

(** Reading an integer. *)
Lemma read_len_spec i input prefix max : 1 <= prefix <= 8 -> int_ok i -> input <> [] ->
  exists rv fin n s, hd_inflate_read_len i input prefix max = Some (rv, fin, set_left n s i) /\
    match rest_of_int i prefix max input with
    | Done v rest => fin = true /\ n = v /\ 0 <= v <= max /\ 0 < rv /\ rest = advance rv input /\ (exists p, p <> [] /\ input = p ++ rest) /\
        forall x, rest_of_int i prefix max (input ++ x) = Done v (rest ++ x)
    | More => fin = false /\ 0 < rv /\ advance rv input = [] /\ int_ok (set_left n s i) /\
        forall x, rest_of_int i prefix max (input ++ x) = rest_of_int (set_left n s i) prefix max x
    | Malformed => rv = NGHTTP2_ERR_HEADER_COMP /\ forall x, rest_of_int i prefix max (input ++ x) = Malformed
    end.
Proof.
  intros Hp [Hl H0] Hin. pose proof (resume_int_app (left i) (shift i) prefix max input Hp Hl H0 Hin) as Happ.
  destruct (decode_length_ok (left i) (shift i) input prefix Hp Hl Hin) as (d & Ed & Hd).
  unfold hd_inflate_read_len. rewrite Ed. cbn [mbind option_bind]. unfold rest_of_int in *. unfold resume_int at 1 in Happ. unfold resume_int at 1.
  destruct input as [|c input]; [done|]. rewrite Ed in Happ |- *. unfold of_decoded in *. unfold decoded_ok in Hd.
  destruct (d_res d) as [v|] eqn:Er.
  2: { rewrite Hd. cbn [Z.eqb]. change (-1 =? -1) with true. cbn iota. do 4 eexists. split; [done|]. split; [done|]. apply Happ. }
  destruct Hd as (Hv & Hu & Hm & Hf). rewrite (proj2 (Z.eqb_neq _ _)) by lia. cbn [mbind option_bind].
  destruct (Z.ltb_spec max v) as [Hmax|Hmax]; [do 4 eexists; split; [done|]; split; [done|]; apply Happ|].
  destruct (d_fin d) eqn:Ef; exists (d_rv d); do 2 eexists; exists (d_shift d); (split; [done|]).
  - specialize (Hf eq_refl). split; [done|]. split; [done|]. split; [lia|]. split; [lia|]. split; [done|]. split; [|done].
    exists (take (Z.to_nat (d_rv d)) (c :: input)). split; [|by rewrite take_drop].
    destruct (Z.to_nat (d_rv d)) eqn:En; [lia|done].
  - destruct (Hm eq_refl) as [Hrv Hpos]. destruct Happ as (n' & s' & (d' & Ed' & Er' & <-) & Hx). injection Ed' as <-.
    rewrite Er in Er'. injection Er' as <-. split; [done|]. cbn [length] in *. split; [lia|].
    split; [unfold advance; apply drop_ge; cbn [length]; lia|]. split; [split; cbn; lia|]. exact Hx.
Qed.

Lemma step_same i h l input o i' : base_ok i h l -> same_base i i' -> outcome_ok i h l input o i' h l ->
  step_ok i h l input (Some (o, i', h)).
Proof.
  intros Hb Hs Ho. exists o, i', h, l. split; [done|]. split; [by apply base_same with i|]. split; [by rewrite (proj1 Hs)|]. done.
Qed.

(** A failure on what cannot be right. *)
Lemma step_fail i h l input i' : base_ok i h l -> same_base i i' -> (forall x, rest_of i (input ++ x) = Malformed) ->
  step_ok i h l input (Some (Fail NGHTTP2_ERR_HEADER_COMP, i', h)).
Proof. intros Hb Hs Hx. apply step_same; [done|done|]. left. done. Qed.

Lemma byte_kind c :
  byte_is c 224 32 = (match kind_of (bval c) with KindUpdate => true | _ => false end) /\
  byte_is c 128 0 = (match kind_of (bval c) with KindIndexed => false | _ => true end) /\
  forall m, kind_of (bval c) = KindLiteral m ->
    negb (byte_is c 64 0) = bool_decide (m = NGHTTP2_HD_WITH_INDEXING) /\
    byte_is c 240 16 = bool_decide (m = NGHTTP2_HD_NEVER_INDEXING) /\
    (byte_is c 255 64 || byte_is c 255 0 || byte_is c 255 16) = (bval c =? literal_byte m).
Proof.
  destruct c as [[] [] [] [] [] [] [] []]; (split; [vm_compute; reflexivity|]; split; [vm_compute; reflexivity|]);
    intros [] H; vm_compute in H; first [discriminate H | vm_compute; repeat split].
Qed.

Lemma andthen_assoc {A B C} (p : parsed A) (f : A -> list char -> parsed B) (g : B -> list char -> parsed C) :
  andthen (andthen p f) g = andthen p (fun a r => andthen (f a r) g).
Proof. by destruct p. Qed.

Lemma andthen_ext {A B} (p : parsed A) (f g : A -> list char -> parsed B) : (forall a r, f a r = g a r) -> andthen p f = andthen p g.
Proof. intros H. destruct p; cbn; [apply H|done..]. Qed.

Lemma mode_of_indexing m i : mode_of (set_indexing (bool_decide (m = NGHTTP2_HD_WITH_INDEXING)) (bool_decide (m = NGHTTP2_HD_NEVER_INDEXING)) i) = m.
Proof. unfold mode_of. by destruct m. Qed.

(** The first byte of a representation. *)
Lemma state_opcode_spec i h l input : base_ok i h l -> no_keep i -> state_ok i (Z.of_nat (length l)) -> starting i = true -> input <> [] ->
  step_ok i h l input (state_opcode i h input).
Proof.
  intros Hb Hk Hs Hst Hin. destruct input as [|c input]; [done|]. unfold state_opcode. cbn [head mbind option_bind].
  destruct (byte_kind c) as (E1 & E2 & E3). rewrite E1, E2.
  assert (Hrest : forall x, rest_of i ((c :: input) ++ x) = parse_repr (phase_of i) (get_max_index (ctx i)) (limit i) (c :: input ++ x)).
  { intros x. unfold rest_of, starting in *. by destruct (state i). }
  assert (Hno : no_strings i) by (unfold state_ok, starting in *; by destruct (state i)).
  assert (Hidle : idle i = true) by (unfold idle; by rewrite Hst).
  assert (Hph : phase_of i = Expecting <-> state i = NGHTTP2_HD_STATE_EXPECT_TABLE_SIZE) by (unfold phase_of; by destruct (state i)).
  assert (Hin' : phase_of i = Inside <-> state i = NGHTTP2_HD_STATE_OPCODE) by (unfold phase_of, starting in *; by destruct (state i)).
  destruct (kind_of (bval c)) as [|m|] eqn:Ek; cbn [andb negb].
  - rewrite andb_true_r. case_bool_decide as Hex.
    { apply step_fail; [done|done|]. intros x. rewrite Hrest, (proj2 Hph Hex). cbn. by rewrite Ek. }
    apply step_same; [done|done|]. cbn [outcome_ok]. split; [by exists []|]. split; [done|].
    split; [cbn; split; [done|]; split; [by split|by left]|].
    split; [unfold measure; rewrite Hidle; cbn; lia|]. split; [done|]. left. do 3 (split; [done|]). intros x. rewrite Hrest. cbn [parse_repr]. rewrite Ek.
    unfold rest_of, rest_of_int. cbn [state ctx left shift set_left set_state set_op opcode index_prefix].
    rewrite bool_decide_true by done. change (index_prefix _) with 7. rewrite <- parse_int_resume by lia.
    destruct (phase_of i); [by destruct (proj1 Hph eq_refl)| |]; unfold parse_index; rewrite andthen_assoc; apply andthen_ext; intros a r;
      by destruct (a =? 0).
  - rewrite andb_true_r. case_bool_decide as Hex.
    { apply step_fail; [done|done|]. intros x. rewrite Hrest, (proj2 Hph Hex). cbn. by rewrite Ek. }
    destruct (E3 m eq_refl) as (-> & -> & ->).
    assert (Hrest' : forall x, rest_of i ((c :: input) ++ x) = parse_literal m (get_max_index (ctx i)) c (input ++ x)).
    { intros x. rewrite Hrest. apply parse_repr_literal; [|done]. intros E. by apply Hex, Hph. }
    destruct (bval c =? literal_byte m) eqn:Ec.
    + apply step_same; [done|split; [done|]; split; [done|]; split; [done|]; split; [done|]; intros _; unfold flags_ok; cbn; by destruct m|].
      cbn [outcome_ok tail]. split; [by exists [c]|]. split; [done|]. split; [done|]. split; [unfold measure; rewrite Hidle; cbn; lia|].
      split; [done|]. left. do 3 (split; [done|]). intros x. rewrite Hrest'. unfold parse_literal. rewrite Ec. unfold rest_of.
      cbn [state set_left set_indexing set_state set_op]. unfold then_value. apply andthen_ext. intros a r. f_equal. symmetry. apply mode_of_indexing.
    + apply step_same; [done|split; [done|]; split; [done|]; split; [done|]; split; [done|]; intros _; unfold flags_ok; cbn; by destruct m|].
      cbn [outcome_ok]. split; [by exists []|]. split; [done|]. split; [cbn; split; [done|]; split; [by split|by right]|].
      split; [unfold measure; rewrite Hidle; cbn; lia|]. split; [done|]. left. do 3 (split; [done|]). intros x. rewrite Hrest'.
      unfold parse_literal. rewrite Ec. unfold rest_of, rest_of_int. cbn [state ctx left shift set_left set_indexing set_state set_op opcode].
      rewrite (bool_decide_false (NGHTTP2_HD_OPCODE_INDNAME = NGHTTP2_HD_OPCODE_INDEXED)) by done.
      assert (Epre : index_prefix (set_left 0 0 (set_indexing (bool_decide (m = NGHTTP2_HD_WITH_INDEXING)) (bool_decide (m = NGHTTP2_HD_NEVER_INDEXING))
        (set_state NGHTTP2_HD_STATE_READ_INDEX (set_op NGHTTP2_HD_OPCODE_INDNAME i)))) = literal_prefix m) by by destruct m.
      rewrite Epre, <- parse_int_resume by apply (literal_prefix_ok m). unfold parse_index. rewrite andthen_assoc. apply andthen_ext. intros a r.
      destruct (a =? 0); [done|]. cbn [andthen]. f_equal. symmetry. apply mode_of_indexing.
  - rewrite andb_false_r. case_bool_decide as Hop.
    { apply step_fail; [done|done|]. intros x. rewrite Hrest, (proj2 Hin' Hop). cbn. by rewrite Ek. }
    apply step_same; [done|done|]. cbn [outcome_ok]. split; [by exists []|]. split; [done|].
    split; [cbn; split; [done|]; by split|].
    split; [unfold measure; rewrite Hidle; cbn; lia|]. split; [done|]. left. do 3 (split; [done|]). intros x. rewrite Hrest. cbn [parse_repr]. rewrite Ek.
    unfold rest_of, rest_of_int. cbn [state left shift set_left set_state set_op].
    rewrite <- parse_int_resume by lia. by destruct (phase_of i); [| |destruct (Hop (proj1 Hin' eq_refl))].
Qed.

(** The size of the table. *)
Lemma state_read_table_size_spec i h l input : base_ok i h l -> no_keep i -> state_ok i (Z.of_nat (length l)) ->
  state i = NGHTTP2_HD_STATE_READ_TABLE_SIZE -> input <> [] -> step_ok i h l input (state_read_table_size i h input).
Proof.
  intros Hb Hk Hs Est Hin. unfold state_ok in Hs. rewrite Est in Hs. destruct Hs as [Hno Hint]. unfold state_read_table_size.
  assert (Hrest : forall x, rest_of i x = andthen (rest_of_int i 5 (limit i) x) (fun n rest => Done (SizeUpdate n) rest))
    by (intros x; unfold rest_of; by rewrite Est).
  destruct (read_len_spec i input 5 (limit i) ltac:(lia) Hint Hin) as (rv & fin & n & s & E & Hcase). unfold limit in E. rewrite E. cbn [mbind option_bind].
  destruct (rest_of_int i 5 (limit i) input) as [v rest| |] eqn:Er.
  - destruct Hcase as (-> & -> & Hv & Hrv & -> & (p & Hp & Ep) & Hx). rewrite (proj2 (Z.ltb_ge _ _)) by lia. cbn [negb left set_left set_limits settings_hd_table_bufsize_max ctx].
    pose proof Hb as []. unfold limit in Hv.
    destruct (shrink_spec _ _ _ _ _ (set_max_ok _ _ _ _ _ v bo_ctx0 ltac:(lia))) as (c' & map' & h' & Esh & Hc' & (Em & En & Eb) & Hnone & Hbk & Hq).
    cbn [left set_left set_ctx set_limits ctx]. rewrite Esh. cbn [mbind option_bind]. cbn [hd_table_bufsize_max set_bufsize_max bad] in Em, Hc', Hbk, Eb.
    do 3 eexists. exists (keep v l). split; [done|]. rewrite (proj2 Hnone eq_refl) in Hc'.
    split; [constructor; cbn; [exact Hc'|by apply tokens_keep|by apply shorts_keep|done|unfold UINT32_MAX; lia|done]|].
    split; [done|]. split; [done|]. split; [lia|]. cbn [outcome_ok]. split; [by exists p|]. split; [done|]. split; [done|].
    split; [by apply measure_read with p|].
    split; [done|]. right. exists v. split; [done|]. split; [done|]. split; [done|].
    split; [unfold table_of; cbn; rewrite Em; f_equal; apply fields_keep, (ctx_small _ _ _ _ _ bo_ctx0)|]. intros x. by rewrite Hrest, Hx.
  - destruct Hcase as (-> & Hrv & Hadv & Hint' & Hx). rewrite (proj2 (Z.ltb_ge _ _)) by lia. cbn [negb].
    apply step_same; [done|done|]. cbn [outcome_ok]. split; [done|]. split; [done|]. split; [unfold state_ok; cbn; by rewrite Est|].
    split; [unfold starting; cbn; by rewrite Est|]. split; [done|]. split; [done|].
    assert (Hrest' : forall x, rest_of (set_left n s i) x = andthen (rest_of_int (set_left n s i) 5 (limit i) x) (fun n rest => Done (SizeUpdate n) rest))
      by (intros x; unfold rest_of; cbn; by rewrite Est).
    split; [by rewrite Hrest'|]. intros x. by rewrite Hrest', Hrest, Hx.
  - destruct Hcase as (-> & Hx). cbn. apply step_fail; [done|done|]. intros x. by rewrite Hrest, Hx.
Qed.

(** An entry of the tables. *)
Lemma table_get_ok i h l idx : base_ok i h l -> 0 <= idx < 61 + Z.of_nat (length l) ->
  exists n, nghttp2_hd_table_get (ctx i) idx = Some n /\ entry_at (fields l) idx = Some (field_of n) /\
    short (nv_name n) /\ short (nv_value n) /\ nv_flags n = NGHTTP2_NV_FLAG_NONE /\ nv_token n = lookup_token (fst (field_of n)) /\
    (addr (nv_name n) = None /\ addr (nv_value n) = None \/ nv_name n ∈ ptrs l /\ nv_value n ∈ ptrs l).
Proof.
  intros [] Hi. destruct (table_get_spec _ _ _ _ _ idx bo_ctx0 Hi) as (n & E & Ee & _ & _ & Hal).
  exists n. split; [done|]. split; [done|]. cut (short (nv_name n) /\ short (nv_value n) /\ nv_flags n = NGHTTP2_NV_FLAG_NONE /\ nv_token n = lookup_token (fst (field_of n))); [by intros (? & ? & ? & ?)|].
  unfold nghttp2_hd_table_get in E. destruct (negb _); [done|]. unfold NGHTTP2_STATIC_TABLE_LENGTH in E.
  destruct (Z.leb_spec 61 idx).
  - pose proof (ring_get _ _ (Z.to_nat (idx - 61)) (ctx_ring _ _ _ _ _ bo_ctx0)) as Eg. rewrite Z2Nat.id in Eg by lia. rewrite Eg in E.
    destruct (l !! Z.to_nat (idx - 61)) as [e|] eqn:El; cbn [mbind option_bind] in E; [|done]. injection E as <-.
    destruct (Forall_lookup_1 _ _ _ _ bo_shorts0 El) as (H1 & H2 & H3). split; [done|]. split; [done|]. split; [done|].
    exact (Forall_lookup_1 _ _ _ _ bo_tokens0 El).
  - destruct (static_entry idx) as [e|] eqn:Es; cbn [mbind option_bind] in E; [|done]. injection E as <-.
    unfold field_of. cbn [nv_name nv_value nv_flags nv_token fst]. rewrite static_rcbuf_buf. rewrite (static_tokens idx e Es).
    unfold static_entry in Es. destruct (idx <? 0); [done|]. pose proof (forallb_lookup _ _ _ _ static_table_short Es) as H2. cbn beta in H2.
    apply andb_prop in H2 as [H2%Z.leb_le H3%Z.leb_le]. split; [by apply static_short|]. split; [by apply static_short|]. done.
Qed.

Lemma max_index_eq i h l : base_ok i h l -> get_max_index (ctx i) = 61 + Z.of_nat (length l).
Proof. intros []. unfold get_max_index, NGHTTP2_STATIC_TABLE_LENGTH. rewrite (ring_len _ _ (ctx_ring _ _ _ _ _ bo_ctx0)). lia. Qed.

Lemma index_prefix_ok i : 1 <= index_prefix i <= 8.
Proof. unfold index_prefix. destruct (bool_decide _); [lia|]. destruct (index_required i); lia. Qed.

(** An index. *)
Lemma state_read_index_spec i h l input : base_ok i h l -> no_keep i -> state_ok i (Z.of_nat (length l)) ->
  state i = NGHTTP2_HD_STATE_READ_INDEX -> input <> [] -> step_ok i h l input (state_read_index i h input).
Proof.
  intros Hb Hk Hs Est Hin. unfold state_ok in Hs. rewrite Est in Hs. destruct Hs as (Hno & Hint & Hop). unfold state_read_index.
  assert (Hrest : forall i', state i' = NGHTTP2_HD_STATE_READ_INDEX -> forall x, rest_of i' x =
    andthen (rest_of_int i' (index_prefix i') (get_max_index (ctx i')) x) (fun n rest => if n =? 0 then Malformed
      else if bool_decide (opcode i' = NGHTTP2_HD_OPCODE_INDEXED) then Done (Indexed (n - 1)) rest
      else parse_value (mode_of i') (NameAt (n - 1)) rest)) by (intros i' E x; unfold rest_of; by rewrite E).
  destruct (read_len_spec i input (index_prefix i) (get_max_index (ctx i)) (index_prefix_ok i) Hint Hin) as (rv & fin & n & s & E & Hcase).
  rewrite E. cbn [mbind option_bind].
  destruct (rest_of_int i (index_prefix i) (get_max_index (ctx i)) input) as [v rest| |] eqn:Er.
  - destruct Hcase as (-> & -> & Hv & Hrv & -> & (p & Hp & Ep) & Hx). rewrite (proj2 (Z.ltb_ge _ _)) by lia. cbn [negb left set_left].
    destruct (Z.eqb_spec v 0) as [->|Hv0].
    { apply step_fail; [done|done|]. intros x. by rewrite Hrest, Hx. }
    rewrite (max_index_eq i h l Hb) in Hv. cbn [opcode set_index set_left]. case_bool_decide as Hop'.
    + unfold hd_inflate_commit_indexed. cbn [ctx index set_index set_left].
      destruct (table_get_ok i h l (v - 1) Hb ltac:(lia)) as (nv & Eg & Ee & [Hn1 Hn2] & [Hv1 Hv2] & Hfl & Htok & Hal). rewrite Eg. cbn [mbind option_bind].
      apply step_same; [done|done|]. cbn [outcome_ok]. split; [by exists p|]. do 3 (split; [done|]).
      split; [intros r [-> | ->]; (split; [done|]); destruct Hal as [[? ?]|[? ?]]; [by left|right; apply elem_of_app; by left|by left|right; apply elem_of_app; by left]|].
      split; [done|]. exists (Indexed (v - 1)). split; [done|]. split; [cbn; rewrite Ee; cbn; unfold flag_of; by rewrite Hfl|].
      intros x. rewrite Hrest, Hx by done. cbn [andthen]. rewrite (proj2 (Z.eqb_neq _ _)) by done. by rewrite bool_decide_true.
    + apply step_same; [done|done|]. cbn [outcome_ok]. split; [by exists p|]. split; [done|].
      split; [split; [apply Hno|]; right; destruct Hop as [?|Hop]; [done|]; split; [done|]; split; [apply Hno|]; cbn; lia|].
      split; [by apply measure_read with p|]. split; [done|]. left. do 3 (split; [done|]). intros x. rewrite Hrest, Hx by done. cbn [andthen].
      rewrite (proj2 (Z.eqb_neq _ _)) by done. rewrite bool_decide_false by done. unfold rest_of. cbn [state set_state].
      destruct Hop as [?|Hop]; [done|]. f_equal. unfold name_of_field. cbn [opcode set_state set_index set_left]. by rewrite Hop.
  - destruct Hcase as (-> & Hrv & Hadv & Hint' & Hx). rewrite (proj2 (Z.ltb_ge _ _)) by lia. cbn [negb].
    apply step_same; [done|done|]. cbn [outcome_ok]. split; [done|]. split; [done|]. split; [unfold state_ok; cbn; by rewrite Est|].
    split; [unfold starting; cbn; by rewrite Est|]. do 2 (split; [done|]). split; [by rewrite Hrest|].
    intros x. rewrite !Hrest by done. by rewrite Hx.
  - destruct Hcase as (-> & Hx). cbn. apply step_fail; [done|done|]. intros x. by rewrite Hrest, Hx.
Qed.

(** ** Strings *)

Lemma step_ok_from i i1 h l input r : same_base i i1 -> idle i1 = idle i -> (forall x, rest_of i (input ++ x) = rest_of i1 (input ++ x)) ->
  step_ok i1 h l input r -> step_ok i h l input r.
Proof.
  intros (E1 & E2 & E3 & E4 & E5) Ei Hx (o & i' & h' & l' & -> & Hb & Hbad & Hbk & Hq & Ho). exists o, i', h', l'. split; [done|].
  split; [done|]. split; [by rewrite Hbad, E1|]. split; [done|]. split; [done|]. unfold outcome_ok, same_limits, measure in *. rewrite E1, E3, E4, Ei in Ho.
  destruct o as [rest busy|rv|rest|rest n].
  - destruct Ho as (Hp & Hk & Hs & Hm & Hbusy & Hcase). do 5 (split; [done|]).
    destruct Hcase as [(H1 & H2 & H3 & H4)|(n & H1 & H2 & H3 & H4 & H5)]; [left|right; exists n].
    + do 3 (split; [done|]). intros x. by rewrite Hx.
    + do 4 (split; [done|]). intros x. by rewrite Hx.
  - destruct Ho as [[H1 H2]|H]; [left|by right]. split; [done|]. intros x. by rewrite Hx.
  - destruct Ho as (H1 & H2 & H3 & H4 & H5 & H6 & H7 & H8). do 7 (split; [done|]). intros x. by rewrite Hx.
  - destruct Ho as (H1 & H2 & H3 & H4 & H5 & H6 & s & H7 & H8 & H9). do 6 (split; [done|]). exists s. split; [done|]. split; [done|]. intros x. by rewrite Hx.
Qed.

(** The name ([nm]) or the value. *)
Definition reading_state (nm huffman : bool) : nghttp2_hd_inflate_state :=
  match nm, huffman with
  | true, true => NGHTTP2_HD_STATE_NEWNAME_READ_NAMEHUFF
  | true, false => NGHTTP2_HD_STATE_NEWNAME_READ_NAME
  | false, true => NGHTTP2_HD_STATE_READ_VALUEHUFF
  | false, false => NGHTTP2_HD_STATE_READ_VALUE
  end.

Definition length_state (nm : bool) : nghttp2_hd_inflate_state :=
  if nm then NGHTTP2_HD_STATE_NEWNAME_READ_NAMELEN else NGHTTP2_HD_STATE_READ_VALUELEN.

Definition read_strlen (nm : bool) : nghttp2_hd_inflater -> heap -> list char -> option (outcome * nghttp2_hd_inflater * heap) :=
  state_read_strlen malloc_ok junk (if nm then set_name else set_value) (reading_state nm true) (reading_state nm false) (negb nm).

(** What is due before and after the string. *)
Definition ready_for (nm : bool) (i : nghttp2_hd_inflater) (n : Z) : Prop :=
  valuercbuf i = None /\ if nm then namercbuf i = None /\ opcode i = NGHTTP2_HD_OPCODE_NEWNAME else name_ok i n.

Definition and_then (nm : bool) : nghttp2_hd_inflater -> parsed (list char) -> parsed repr := if nm then then_value else the_value.

Lemma rest_of_length nm i x : state i = length_state nm -> rest_of i x = and_then nm i (rest_of_strlen i x).
Proof. unfold rest_of. intros ->. by destruct nm. Qed.

Lemma rest_of_reading nm huffman i x : state i = reading_state nm huffman ->
  rest_of i x = and_then nm i (rest_of_string i huffman (if nm then namebuf i else valuebuf i) x).
Proof. unfold rest_of. intros ->. by destruct nm, huffman. Qed.

Lemma length_fresh_bytes m n : length (fresh_bytes junk m n) = n.
Proof. unfold fresh_bytes. by rewrite length_map, length_seq. Qed.

Definition install (nm : bool) : nghttp2_buf -> option nghttp2_rcbuf -> nghttp2_hd_inflater -> nghttp2_hd_inflater :=
  if nm then set_name else set_value.

(** The inflater when the length [v] of a string is known. *)
Record begins (nm huffman : bool) (v : Z) (i i2 : nghttp2_hd_inflater) : Prop := {
  bg_base : same_base i i2;
  bg_state : state i2 = reading_state nm huffman;
  bg_opcode : opcode i2 = opcode i;
  bg_index : index i2 = index i;
  bg_left : left i2 = v;
  bg_name : namercbuf i2 = namercbuf i;
  bg_value : valuercbuf i2 = None;
  bg_keep : no_keep i2;
  bg_mode : mode_of i2 = mode_of i;
  bg_huff : huffman = true -> huff_decode_ctx i2 = nghttp2_hd_huff_decode_context_init
}.

(** The new block is held with the others. *)
Lemma install_base nm huffman v i i2 h h' l r b : begins nm huffman v i i2 -> base_ok i h l -> ready_for nm i (Z.of_nat (length l)) ->
  owned h' (r :: ptrs l ++ held i) -> (requests (hmem h) <= requests (hmem h'))%nat -> base_ok (install nm b (Some r) i2) h' l.
Proof.
  intros Hbg Hb [_ Hr] Ho Hq. pose proof (base_same _ _ _ _ (bg_base _ _ _ _ _ Hbg) Hb) as [].
  constructor; [|done|done|by destruct nm..]. replace (ctx _) with (ctx i2) by by destruct nm.
  apply ctx_heap with h (held i2); [done| |lia].
  assert (Hheld : held (install nm b (Some r) i2) ≡ₚ r :: held i); [|by rewrite Hheld, <- Permutation_middle].
  destruct (bg_base _ _ _ _ _ Hbg) as (_ & <- & _). unfold held. destruct nm; cbn [install set_name set_value namercbuf valuercbuf nv_name_keep nv_value_keep olist app].
  - rewrite (bg_name _ _ _ _ _ Hbg). by destruct Hr as [-> _].
  - rewrite (bg_value _ _ _ _ _ Hbg). cbn [olist app]. by rewrite <- Permutation_middle.
Qed.

Lemma install_state nm huffman v i i2 r n : begins nm huffman v i i2 -> ready_for nm i n -> 0 <= v <= max_string ->
  Z.of_nat (length (base r)) = (if huffman then 2 else 1) * v + 1 -> state_ok (install nm (nghttp2_buf_wrap_init (base r)) (Some r) i2) n.
Proof.
  intros [] [_ Hr] Hv Hlb. set (i' := install nm _ _ i2). unfold max_string in Hv.
  assert (Hfill : filling (if huffman then 2 else 1) i' (nghttp2_buf_wrap_init (base r)) (Some r)).
  { unfold filling. replace (left i') with v by (by destruct nm). split; [done|].
    unfold wf_buf, nghttp2_buf_avail, nghttp2_buf_cap, nghttp2_buf_wrap_init, max_text, max_string. cbn [pos last bytes]. destruct huffman; lia. }
  assert (Hhuff : huffman = true -> huff_ok i').
  { intros Eh. unfold huff_ok. replace (huff_decode_ctx i') with (huff_decode_ctx i2) by (by destruct nm). rewrite (bg_huff0 Eh). split; [apply init_ok|done]. }
  unfold state_ok. replace (state i') with (state i2) by (by destruct nm). rewrite bg_state0. destruct nm.
  - destruct Hr as [_ Hr]. destruct huffman; cbn [reading_state]; (split; [exact bg_value0|]); (split; [cbn; congruence|]);
      [split; [exact Hfill|exact (Hhuff eq_refl)]|exact Hfill].
  - assert (Hname : name_ok i' n) by (unfold name_ok in *; cbn; by rewrite bg_opcode0, bg_index0, bg_name0).
    destruct huffman; cbn [reading_state]; (split; [exact Hname|]); [split; [exact Hfill|exact (Hhuff eq_refl)]|exact Hfill].
Qed.

Lemma install_means nm huffman v i i2 b r x : begins nm huffman v i i2 -> present b = [] ->
  rest_of (install nm b r i2) x = and_then nm (install nm b r i2) (parse_rest huffman NGHTTP2_HUFF_ACCEPTED [] v x).
Proof.
  intros [] Hp. rewrite (rest_of_reading nm huffman) by (destruct nm; exact bg_state0). f_equal. unfold rest_of_string.
  replace (if nm then namebuf _ else valuebuf _) with b by (by destruct nm). rewrite Hp.
  replace (left _) with v by (by destruct nm). replace (huff_decode_ctx _) with (huff_decode_ctx i2) by (by destruct nm).
  destruct huffman; [by rewrite bg_huff0|done].
Qed.

Lemma and_then_install nm huffman v i i2 b r p : begins nm huffman v i i2 -> and_then nm (install nm b r i2) p = and_then nm i p.
Proof.
  intros []. unfold and_then, then_value, the_value. destruct nm; apply andthen_ext; intros a r'.
  - f_equal. exact bg_mode0.
  - unfold mode_of, name_of_field in *. cbn. by rewrite bg_opcode0, bg_name0, bg_index0, bg_mode0.
Qed.

(** The block is allocated, and the string is read from here on. *)
Lemma string_begins nm huffman v i i2 h h' l input p rest r : begins nm huffman v i i2 -> base_ok i h l -> ready_for nm i (Z.of_nat (length l)) ->
  state i = length_state nm -> huffman_encoded i = huffman -> 0 <= v <= max_string -> p <> [] -> input = p ++ rest ->
  (forall x, rest_of_int i 7 max_string (input ++ x) = Done v (rest ++ x)) ->
  owned h' (r :: ptrs l ++ held i) -> spare h' = spare h -> (requests (hmem h) <= requests (hmem h'))%nat ->
  Z.of_nat (length (base r)) = (if huffman then 2 else 1) * v + 1 ->
  step_ok i h l input (Some (Break rest (negb nm), install nm (nghttp2_buf_wrap_init (base r)) (Some r) i2, h')).
Proof.
  intros Hbg Hb Hr Est Eh Hv Hp Ep Hx Ho Hsp Hq Hlb. set (i' := install nm _ _ i2).
  assert (Ectx : ctx i' = ctx i) by (rewrite <- (proj1 (bg_base _ _ _ _ _ Hbg)); by destruct nm).
  assert (Est' : state i' = reading_state nm huffman) by (rewrite <- (bg_state _ _ _ _ _ Hbg); by destruct nm).
  exists (Break rest (negb nm)), i', h', l. split; [done|]. split; [by eapply install_base|]. split; [by rewrite Ectx|].
  split; [unfold blocks_besides; lia|]. split; [done|]. cbn [outcome_ok]. split; [by exists p|].
  split; [pose proof (bg_keep _ _ _ _ _ Hbg); by destruct nm|]. split; [by eapply install_state|]. split; [by apply measure_read with p|].
  split; [unfold in_value; rewrite Est'; by destruct nm, huffman|]. left.
  split; [destruct (bg_base _ _ _ _ _ Hbg) as (_ & _ & H1 & H2 & _); split; destruct nm; done|]. split; [by rewrite Ectx|].
  split; [unfold starting; rewrite Est'; by destruct nm, huffman|]. intros x.
  rewrite (rest_of_length nm) by done. unfold rest_of_strlen. rewrite Hx, Eh. cbn [andthen].
  unfold i'. rewrite (install_means nm huffman v i), (and_then_install nm huffman v i) by done. done.
Qed.

Lemma read_strlen_spec nm i h l input : base_ok i h l -> no_keep i -> ready_for nm i (Z.of_nat (length l)) -> int_ok i ->
  state i = length_state nm -> input <> [] -> step_ok i h l input (read_strlen nm i h input).
Proof.
  intros Hb Hk Hready Hint Est Hin. pose proof Hready as [Hv Hr]. unfold read_strlen, state_read_strlen.
  assert (Hrest : forall i' x, state i' = length_state nm -> rest_of i' x = and_then nm i' (rest_of_strlen i' x)) by (intros i' x; apply rest_of_length).
  destruct (read_len_spec i input 7 max_string ltac:(lia) Hint Hin) as (rv & fin & n & s & E & Hcase).
  change (hd_inflate_read_len i input 7 NGHTTP2_HD_MAX_NV) with (hd_inflate_read_len i input 7 max_string). rewrite E. cbn [mbind option_bind].
  destruct (rest_of_int i 7 max_string input) as [v rest| |] eqn:Er.
  - destruct Hcase as (-> & -> & Hv' & Hrv & -> & (p & Hp & Ep) & Hx). pose proof Hv' as Hv2. unfold max_string in Hv2.
    rewrite (proj2 (Z.ltb_ge _ _)) by lia. cbn [negb left set_left huffman_encoded].
    set (huffman := huffman_encoded i) in *. set (size := if huffman then u32 (v * 2 + 1) else u32 (v + 1)).
    assert (Hsize : size = (if huffman then 2 else 1) * v + 1) by (unfold size; destruct huffman; rewrite u32_small by lia; lia).
    set (i2 := if huffman then set_state (reading_state nm true) (set_huff nghttp2_hd_huff_decode_context_init (set_left v s i))
               else set_state (reading_state nm false) (set_left v s i)).
    assert (Hbg : begins nm huffman v i i2) by (unfold i2; destruct huffman; by constructor).
    clearbody i2. pose proof (ctx_owned _ _ _ _ _ (bo_ctx _ _ _ Hb)) as Ho. pose proof (rcbuf_new_spec malloc_ok junk (Z.to_nat size) h _ Ho) as Hnew.
    destruct (nghttp2_rcbuf_new malloc_ok junk (Z.to_nat size) h) as [[rv' r] h'] eqn:Enew. destruct Hnew as (Hsp & Hq & Hcase).
    destruct Hcase as [(-> & Ho' & Ebase & _ & _)|(-> & Ho' & Hm)]; cbn [negb Z.eqb].
    + eapply string_begins; try done; [lia|]. rewrite Ebase, length_fresh_bytes. destruct huffman; lia.
    + pose proof (base_same _ _ _ _ (bg_base _ _ _ _ _ Hbg) Hb) as Hb2. do 2 eexists. exists h', l. split; [done|].
      destruct (bg_base _ _ _ _ _ Hbg) as (Ec & Eheld & _).
      split; [pose proof Hb2 as []; constructor; [apply ctx_heap with h (held i2); [done|by rewrite Eheld|lia]|done..]|].
      split; [by rewrite Ec|]. split; [unfold blocks_besides; lia|]. split; [lia|]. right. split; [done|].
      exists (requests (hmem h)). split; [lia|done].
  - destruct Hcase as (-> & Hrv & Hadv & Hint' & Hx). rewrite (proj2 (Z.ltb_ge _ _)) by lia. cbn [negb].
    apply step_same; [done|done|]. cbn [outcome_ok]. split; [done|]. split; [done|].
    split; [unfold state_ok; cbn [state set_left]; rewrite Est; destruct nm; cbn [length_state]; [destruct Hr; done|done]|].
    split; [unfold starting; cbn; rewrite Est; by destruct nm|]. do 2 (split; [done|]).
    split; [rewrite Hrest by done; by destruct nm|].
    intros x. rewrite !Hrest by done. unfold rest_of_strlen at 1. rewrite Hx. by destruct nm.
  - destruct Hcase as (-> & Hx). cbn. apply step_fail; [done|done|]. intros x. rewrite Hrest by done. unfold rest_of_strlen. rewrite Hx. by destruct nm.
Qed.

Definition check_state (nm : bool) : nghttp2_hd_inflate_state :=
  if nm then NGHTTP2_HD_STATE_NEWNAME_CHECK_NAMELEN else NGHTTP2_HD_STATE_CHECK_VALUELEN.

(** The first byte of a string. *)
Lemma check_strlen_spec nm i h l input : base_ok i h l -> no_keep i -> ready_for nm i (Z.of_nat (length l)) ->
  state i = check_state nm -> input <> [] -> step_ok i h l input (state_check_strlen (length_state nm) (read_strlen nm) i h input).
Proof.
  intros Hb Hk Hr Est Hin. destruct input as [|c input]; [done|]. unfold state_check_strlen. cbn [head mbind option_bind].
  set (i1 := set_left 0 0 _). assert (Hs : same_base i i1) by done.
  assert (Eh : huffman_encoded i1 = (128 <=? bval c)).
  { unfold i1, hd_inflate_set_huffman_encoded, byte_is. cbn [huffman_encoded set_left set_state set_encoded].
    by rewrite land_128, Z.leb_antisym. }
  apply step_ok_from with i1; [done|unfold idle, starting, in_value; cbn; rewrite Est; by destruct nm| |].
  - intros x. assert (E1 : rest_of i ((c :: input) ++ x) = and_then nm i (parse_string ((c :: input) ++ x)))
      by (unfold rest_of; rewrite Est; by destruct nm). rewrite E1, (rest_of_length nm) by done.
    assert (E2 : forall p, and_then nm i1 p = and_then nm i p) by (intros p; unfold and_then; by destruct nm). rewrite E2. f_equal.
    unfold rest_of_strlen, rest_of_int. rewrite Eh. cbn [app parse_string]. change (c :: input ++ x) with ((c :: input) ++ x).
    by rewrite parse_int_resume.
  - apply read_strlen_spec; [by apply base_same with i|done|by destruct nm|done|done|done].
Qed.

(** What reading a string leaves alone. *)
Definition same_fields (i i1 : nghttp2_hd_inflater) : Prop :=
  same_base i i1 /\ state i1 = state i /\ opcode i1 = opcode i /\ index i1 = index i /\
  namercbuf i1 = namercbuf i /\ valuercbuf i1 = valuercbuf i /\ namebuf i1 = namebuf i /\ valuebuf i1 = valuebuf i /\
  nv_name_keep i1 = nv_name_keep i /\ nv_value_keep i1 = nv_value_keep i /\ index_required i1 = index_required i /\ no_index i1 = no_index i.

Lemma present_last off b : wf_buf off b -> pos b = 0%nat -> length (present b) = last b.
Proof. intros Hw Hp. rewrite (present_length off) by done. unfold nghttp2_buf_len. lia. Qed.

Definition reader_of (huffman : bool) := if huffman then hd_inflate_read_huff else hd_inflate_read.

(** What [read] makes of a piece of a string. *)
Definition string_read (huffman : bool) (i : nghttp2_hd_inflater) (buf : nghttp2_buf) (input : list char) (rv : Z)
    (i1 : nghttp2_hd_inflater) (buf' : nghttp2_buf) : Prop :=
  match rest_of_string i huffman buf input with
  | Done s rest => 0 <= rv /\ left i1 = 0 /\ present buf' = s /\ rest = advance rv input /\ (0 < nghttp2_buf_avail buf')%nat /\
      (exists p, input = p ++ rest) /\ forall x, rest_of_string i huffman buf (input ++ x) = Done s (rest ++ x)
  | More => 0 <= rv /\ advance rv input = [] /\ 0 < left i1 /\ (if huffman then 2 else 1) * left i1 + 1 <= Z.of_nat (nghttp2_buf_avail buf') /\
      (huffman = true -> huff_ok i1) /\ forall x, rest_of_string i huffman buf (input ++ x) = rest_of_string i1 huffman buf' x
  | Malformed => rv = NGHTTP2_ERR_HEADER_COMP /\ forall x, rest_of_string i huffman buf (input ++ x) = Malformed
  end.

Lemma read_plain_spec i buf r input : filling 1 i buf r ->
  exists rv i1 buf', hd_inflate_read i buf input = Some (rv, i1, buf') /\ same_fields i i1 /\
    wf_buf 0 buf' /\ pos buf' = 0%nat /\ nghttp2_buf_cap buf' = nghttp2_buf_cap buf /\ string_read false i buf input rv i1 buf'.
Proof.
  intros (_ & Hw & Hp & Hl & Hav & _). unfold hd_inflate_read. set (len := Z.min _ _).
  assert (Hlt : length (take (Z.to_nat len) input) = Z.to_nat len) by (rewrite length_take; lia).
  destruct (cpymem_spec 0 buf (take (Z.to_nat len) input) Hw) as (buf' & E & Hw' & Hpr & Hc & Hp' & Hl'); [lia|].
  rewrite E. cbn [mbind option_bind]. do 3 eexists. split; [done|]. split; [done|]. split; [done|]. split; [congruence|]. split; [done|].
  assert (Hav' : Z.of_nat (nghttp2_buf_avail buf') = Z.of_nat (nghttp2_buf_avail buf) - len).
  { destruct Hw as (_ & Hw & _), Hw' as (_ & Hw' & _). unfold nghttp2_buf_avail in *. lia. }
  unfold string_read, rest_of_string. cbn [left set_left huff_decode_ctx]. destruct (Z.leb_spec (left i) (Z.of_nat (length input))) as [Hfin|Hmore].
  - assert (Elen : len = left i) by lia. unfold parse_rest at 1. rewrite (proj2 (Z.leb_le _ _)) by lia.
    split; [lia|]. split; [lia|]. split; [by rewrite Hpr, Elen|]. split; [by rewrite Elen|]. split; [lia|].
    split; [exists (take (Z.to_nat (left i)) input); by rewrite take_drop|]. intros x.
    rewrite parse_rest_done by lia. unfold parse_rest. by rewrite (proj2 (Z.leb_le _ _)) by lia.
  - assert (Elen : len = Z.of_nat (length input)) by lia. unfold parse_rest at 1. rewrite (proj2 (Z.leb_gt _ _)) by lia.
    split; [lia|]. split; [unfold advance; apply drop_ge; lia|]. split; [lia|]. split; [lia|]. split; [done|]. intros x.
    rewrite parse_rest_plain, Hpr, take_ge by lia. by rewrite Elen.
Qed.

Lemma read_huff_spec i buf r input : filling 2 i buf r -> huff_ok i ->
  exists rv i1 buf', hd_inflate_read_huff i buf input = Some (rv, i1, buf') /\ same_fields i i1 /\
    wf_buf 0 buf' /\ pos buf' = 0%nat /\ nghttp2_buf_cap buf' = nghttp2_buf_cap buf /\ string_read true i buf input rv i1 buf'.
Proof.
  intros (_ & Hw & Hp & Hl & Hav & _) (Hfs & Hne & _). unfold hd_inflate_read_huff. set (fin := left i <=? _).
  set (part := if fin then take (Z.to_nat (left i)) input else input).
  assert (Hpart : part = take (Z.to_nat (left i)) input).
  { unfold part, fin. destruct (Z.leb_spec (left i) (Z.of_nat (length input))); [done|]. symmetry. apply take_ge. lia. }
  assert (Hlp : Z.of_nat (length part) = Z.min (left i) (Z.of_nat (length input))) by (rewrite Hpart, length_take; lia).
  unfold nghttp2_hd_huff_decode. set (fs := ctx_fstate (huff_decode_ctx i)) in *.
  destruct (decode_bytes_spec 0 part fs buf Hfs Hw ltac:(lia)) as (fs' & buf' & o & E & Hfs' & _ & Hpr & Ho & _).
  destruct (decode_bytes_run part fs buf 0 fs' buf' Hw E) as (o' & Erun & Hw' & Hpr' & Hc & Hp'). rewrite Hpr in Hpr'. apply app_inv_head in Hpr'. subst o'.
  rewrite E. cbn [mbind option_bind].
  assert (Hav' : Z.of_nat (nghttp2_buf_avail buf) <= Z.of_nat (nghttp2_buf_avail buf') + 2 * Z.of_nat (length part)).
  { pose proof (present_last 0 buf Hw Hp) as L1. pose proof (present_last 0 buf' Hw' ltac:(congruence)) as L2. rewrite Hpr, length_app in L2.
    destruct Hw as (_ & Hw & _), Hw' as (_ & Hw' & _). unfold nghttp2_buf_avail in *. lia. }
  assert (Hparse : rest_of_string i true buf input = if fs' =? 256 then Malformed else if fin then
    (if has_flag fs' NGHTTP2_HUFF_ACCEPTED then Done (present buf ++ o) (drop (Z.to_nat (left i)) input) else Malformed) else More).
  { unfold rest_of_string, parse_rest. fold fs fin. rewrite <- Hpart, Erun. done. }
  assert (Hfin : fin = true -> left i <= Z.of_nat (length input)) by (unfold fin; lia).
  assert (Hnot : fin = false -> Z.of_nat (length input) < left i) by (unfold fin; lia).
  assert (Hflag : fs' = 256 -> has_flag fs' NGHTTP2_HUFF_ACCEPTED = false) by (by intros ->).
  unfold string_read. rewrite Hparse. clearbody fin. destruct (Z.eqb_spec fs' 256) as [Ed|Hd].
  - assert (Hmal : forall x, rest_of_string i true buf (input ++ x) = Malformed).
    { intros x. unfold rest_of_string. by apply parse_rest_stable. }
    rewrite (Hflag Ed). destruct fin; cbn [andb negb mbind option_bind].
    + do 3 eexists. split; [done|]. do 4 (split; [done || congruence|]). split; done.
    + rewrite (proj2 (Z.ltb_ge _ _)) by lia. unfold nghttp2_hd_huff_decode_failure_state. cbn [ctx_fstate]. rewrite (proj2 (Z.eqb_eq _ _) Ed).
      do 3 eexists. split; [done|]. do 4 (split; [done || congruence|]). split; done.
  - destruct fin; cbn [andb mbind option_bind].
    + specialize (Hfin eq_refl). destruct (has_flag fs' NGHTTP2_HUFF_ACCEPTED) eqn:Ef; cbn [negb mbind option_bind].
      * rewrite (proj2 (Z.ltb_ge _ _)) by lia. unfold nghttp2_hd_huff_decode_failure_state. cbn [ctx_fstate]. rewrite (proj2 (Z.eqb_neq _ _) Hd).
        do 3 eexists. split; [done|]. do 4 (split; [done || congruence|]). split; [lia|]. split; [cbn; lia|]. split; [done|].
        split; [unfold advance; f_equal; lia|]. split; [lia|]. split; [exists (take (Z.to_nat (left i)) input); by rewrite take_drop|].
        intros x. unfold rest_of_string in *. rewrite parse_rest_done by lia. by rewrite Hparse.
      * do 3 eexists. split; [done|]. do 4 (split; [done || congruence|]). split; [done|]. intros x. unfold rest_of_string. by apply parse_rest_stable.
    + specialize (Hnot eq_refl). rewrite (proj2 (Z.ltb_ge _ _)) by lia. unfold nghttp2_hd_huff_decode_failure_state. cbn [ctx_fstate]. rewrite (proj2 (Z.eqb_neq _ _) Hd).
      do 3 eexists. split; [done|]. do 4 (split; [done || congruence|]). split; [lia|]. split; [unfold advance; apply drop_ge; lia|].
      cbn [left set_left set_huff]. split; [lia|]. split; [lia|]. split; [intros _; split; [done|]; split; [by apply Z.eqb_neq|cbn; lia]|].
      intros x. unfold rest_of_string. rewrite parse_rest_huff by lia. cbn [ctx_fstate huff_decode_ctx set_left set_huff left]. fold fs.
      assert (Ein : part = input) by (rewrite Hpart; apply take_ge; lia). rewrite Ein in Erun. rewrite Erun. cbn [fst snd].
      rewrite (proj2 (Z.eqb_neq _ _) Hd), Hpr. by rewrite Ein.
Qed.

Lemma read_string_spec (huffman : bool) i buf r input : filling (if huffman then 2 else 1) i buf r -> (huffman = true -> huff_ok i) ->
  exists rv i1 buf', reader_of huffman i buf input = Some (rv, i1, buf') /\ same_fields i i1 /\
    wf_buf 0 buf' /\ pos buf' = 0%nat /\ nghttp2_buf_cap buf' = nghttp2_buf_cap buf /\ string_read huffman i buf input rv i1 buf'.
Proof. destruct huffman; intros Hf Hh; [by apply read_huff_spec with r; auto|by apply read_plain_spec with r]. Qed.

(** The string is complete: its block is the same. *)
Lemma finish_string_spec buf r : wf_buf 0 buf -> pos buf = 0%nat -> (0 < nghttp2_buf_avail buf)%nat ->
  Z.of_nat (nghttp2_buf_cap buf) <= max_text + 1 -> r <> None ->
  exists buf' r0 r', finish_string buf r = Some (buf', Some r') /\ r = Some r0 /\ addr r' = addr r0 /\
    nghttp2_rcbuf_get_buf r' = present buf /\ short r'.
Proof.
  intros Hw Hp Ha Hc Hr. destruct r as [r0|]; [|done]. unfold finish_string.
  destruct (hold_spec 0 buf NUL Hw Ha) as (buf' & E & Hw' & Hpr & Hc' & Hp' & Hl & _). rewrite E. cbn [mbind option_bind].
  exists buf', r0. eexists. split; [done|]. split; [done|]. split; [done|]. unfold nghttp2_rcbuf_get_buf, short, holds. cbn [len base addr].
  unfold nghttp2_buf_len, nghttp2_buf_avail, nghttp2_buf_cap in *. destruct Hw as (_ & Hw & _). rewrite Hp', Hp, Hl, Nat.sub_0_r.
  split; [|lia]. rewrite <- Hpr. unfold present, nghttp2_buf_len. by rewrite Hp', Hp, Hl, Nat.sub_0_r, drop_0.
Qed.

Lemma base_rename i i' h l r r' L : base_ok i h l -> ctx i' = ctx i -> same_limits i i' -> (flags_ok i -> flags_ok i') ->
  held i ≡ₚ r :: L -> held i' ≡ₚ r' :: L -> addr r' = addr r -> base_ok i' h l.
Proof.
  intros [] Ec [E1 E2] Hf Hh Hh' Ha. constructor; rewrite ?Ec, ?E1, ?E2; auto.
  apply ctx_heap with h (held i); [done| |done]. rewrite Hh', <- Permutation_middle. apply owned_same with r; [done|].
  rewrite Permutation_middle, <- Hh. apply (ctx_owned _ _ _ _ _ bo_ctx0).
Qed.

Lemma rest_of_string_nil (huffman : bool) i b : 0 < left i -> (huffman = true -> huff_ok i) -> rest_of_string i huffman b [] = More.
Proof.
  intros Hl Hh. unfold rest_of_string, parse_rest. cbn [length]. rewrite (proj2 (Z.leb_gt _ _)) by lia. rewrite take_nil.
  destruct huffman; [|done]. cbn [huff_run]. by rewrite (proj1 (proj2 (Hh eq_refl))).
Qed.

Lemma same_fields_set_buf nm i i1 b : same_fields i i1 -> same_base i (install nm b (if nm then namercbuf i1 else valuercbuf i1) i1).
Proof.
  intros ((E1 & E2 & E3 & E4 & E5) & Est & Eop & Eidx & Enm & Evl & _ & _ & Ek1 & Ek2 & _).
  unfold same_base, flags_ok in *. destruct nm; cbn; (split; [done|]); (split; [|done]); unfold held in *; cbn; congruence.
Qed.

(** The string is not complete: [i'] goes on with it. *)
Lemma read_almost (nm huffman : bool) i i1 h l input buf' rv : base_ok i h l -> no_keep i -> same_fields i i1 ->
  state i = reading_state nm huffman -> (if nm then valuercbuf i = None /\ opcode i = NGHTTP2_HD_OPCODE_NEWNAME else name_ok i (Z.of_nat (length l))) ->
  filling (if huffman then 2 else 1) i (if nm then namebuf i else valuebuf i) (if nm then namercbuf i else valuercbuf i) ->
  wf_buf 0 buf' -> pos buf' = 0%nat -> nghttp2_buf_cap buf' = nghttp2_buf_cap (if nm then namebuf i else valuebuf i) ->
  rest_of_string i huffman (if nm then namebuf i else valuebuf i) input = More ->
  string_read huffman i (if nm then namebuf i else valuebuf i) input rv i1 buf' ->
  step_ok i h l input (Some (AlmostOk (advance rv input), install nm buf' (if nm then namercbuf i1 else valuercbuf i1) i1, h)).
Proof.
  intros Hb Hk Hsf Est Hn Hf Hw Hp Hc Hmore Hread. unfold string_read in Hread. rewrite Hmore in Hread. destruct Hread as (_ & -> & Hl & Hav & Hh & Hx).
  pose proof Hsf as (Hs & Est1 & Eop & Eidx & Enm & Evl & _ & _ & Ek1 & Ek2 & Eir & Eni).
  set (r1 := if nm then namercbuf i1 else valuercbuf i1) in *. set (i' := install nm buf' r1 i1).
  assert (Est' : state i' = reading_state nm huffman) by (transitivity (state i1); [by destruct nm|by rewrite Est1]).
  assert (Hhuff : huffman = true -> huff_ok i') by (intros E; specialize (Hh E); unfold huff_ok in *; by destruct nm).
  assert (Hfill : filling (if huffman then 2 else 1) i' buf' r1).
  { destruct Hf as (Hr & _ & _ & _ & _ & Hcap). split; [unfold r1; rewrite Enm, Evl; by destruct nm|]. replace (left i') with (left i1) by (by destruct nm).
    rewrite Hc. repeat (split; [done || lia|]). done. }
  assert (Hrest : forall x, rest_of i' x = and_then nm i (rest_of_string i1 huffman buf' x)).
  { intros x. rewrite (rest_of_reading nm huffman) by done.
    assert (E1 : rest_of_string i' huffman (if nm then namebuf i' else valuebuf i') x = rest_of_string i1 huffman buf' x) by (by destruct nm). rewrite E1.
    unfold and_then, then_value, the_value, mode_of, name_of_field. destruct nm; apply andthen_ext; intros a r; cbn;
      rewrite ?Eir, ?Eni, ?Eop, ?Enm, ?Eidx; done. }
  apply step_same; [done|by apply same_fields_set_buf|]. cbn [outcome_ok]. split; [done|].
  split; [destruct Hk; split; destruct nm; cbn; congruence|].
  split.
  { unfold state_ok. rewrite Est'. destruct nm.
    - destruct Hn as [Hn1 Hn2]. assert (H1 : valuercbuf i' = None /\ opcode i' = NGHTTP2_HD_OPCODE_NEWNAME) by (split; cbn; congruence). destruct H1.
      destruct huffman; cbn [reading_state]; auto.
    - assert (H1 : name_ok i' (Z.of_nat (length l))) by (unfold name_ok in *; cbn; by rewrite Eop, Enm, Eidx).
      destruct huffman; cbn [reading_state]; auto. }
  split; [unfold starting; rewrite Est'; by destruct nm, huffman|]. destruct Hs as (Ec & _ & E3 & E4 & _).
  split; [split; destruct nm; done|]. split; [replace (ctx i') with (ctx i1) by (by destruct nm); by rewrite Ec|].
  split; [rewrite Hrest, rest_of_string_nil by done; by destruct nm|]. intros x. rewrite Hrest, (rest_of_reading nm huffman) by done. by rewrite Hx.
Qed.

(** The name. *)
Lemma read_name_spec huffman i h l input : base_ok i h l -> no_keep i -> state_ok i (Z.of_nat (length l)) ->
  state i = reading_state true huffman -> step_ok i h l input (state_read_name (reader_of huffman) i h input).
Proof.
  intros Hb Hk Hst Est. assert (Hs : (valuercbuf i = None /\ opcode i = NGHTTP2_HD_OPCODE_NEWNAME) /\
    filling (if huffman then 2 else 1) i (namebuf i) (namercbuf i) /\ (huffman = true -> huff_ok i)).
  { unfold state_ok in Hst. rewrite Est in Hst. destruct huffman; cbn [reading_state] in Hst; destruct Hst as (H1 & H2 & H3); [destruct H3 as [H3 H4]|]; (split; [done|]; split; [done|]); done. }
  destruct Hs as (Hn & Hf & Hh). unfold state_read_name.
  destruct (read_string_spec huffman i (namebuf i) (namercbuf i) input Hf Hh) as (rv & i1 & buf' & E & Hsf & Hw & Hp & Hc & Hread).
  rewrite E. cbn [mbind option_bind]. pose proof Hread as Hread'. unfold string_read in Hread'.
  assert (Hrest : forall x, rest_of i x = and_then true i (rest_of_string i huffman (namebuf i) x)) by (intros x; by apply (rest_of_reading true huffman)).
  destruct (rest_of_string i huffman (namebuf i) input) as [s rest| |] eqn:Er.
  - destruct Hread' as (Hrv & Hl & <- & -> & Hav & (p & Ep) & Hx). rewrite (proj2 (Z.ltb_ge _ _)) by lia. cbn [left set_name]. rewrite Hl. cbn [negb Z.eqb namebuf namercbuf set_name].
    pose proof Hsf as ((Ec & Eh & E3 & E4 & E5) & Est1 & Eop & Eidx & Enm & Evl & _ & _ & Ek1 & Ek2 & Eir & Eni). destruct Hf as (Hr & _ & _ & _ & _ & Hcap).
    destruct (finish_string_spec buf' (namercbuf i1) Hw Hp Hav ltac:(lia) ltac:(congruence)) as (buf2 & r0 & r' & -> & Er0 & Ead & Hget & Hshort).
    cbn [mbind option_bind fst snd]. set (i' := set_state _ _). exists (Break (advance rv input) false), i', h, l. split; [done|].
    split; [|split; [cbn; by rewrite Ec|split; [done|split; [done|]]]].
    { apply (base_rename i i' h l r0 r' (olist (valuercbuf i) ++ olist (nv_name_keep i) ++ olist (nv_value_keep i))); [done|done|split; cbn; congruence|..|done].
      - unfold flags_ok. cbn. by rewrite Eir, Eni.
      - unfold held. rewrite <- Enm, Er0. done.
      - unfold held. cbn. rewrite Evl, Ek1, Ek2. done. }
    cbn [outcome_ok]. split; [by exists p|]. split; [destruct Hk; split; cbn; congruence|].
    split; [split; [cbn; destruct Hn; congruence|left; split; [cbn; destruct Hn; congruence|by exists r']]|].
    split; [unfold measure, idle, starting, in_value; rewrite Est; cbn [state set_state i']; rewrite Ep at 2; rewrite length_app; destruct huffman; cbn; lia|].
    split; [done|]. left. split; [split; cbn; congruence|]. split; [cbn; by rewrite Ec|]. split; [done|]. intros x. rewrite Hrest, Hx.
    unfold rest_of, mode_of, name_of_field, and_then, then_value. cbn. rewrite Eir, Eni, Eop, Hget. by rewrite (proj2 Hn).
  - rewrite (proj2 (Z.ltb_ge _ _)) by lia. cbn [left set_name]. rewrite (proj2 (Z.eqb_neq (left i1) 0)) by lia. cbn [negb].
    by apply (read_almost true huffman).
  - destruct Hread' as (-> & Hx). cbn. apply step_fail; [done|by apply (same_fields_set_buf true)|]. intros x. rewrite Hrest, Hx. done.
Qed.

(** ** The field is complete *)

Lemma shorts_added max e l : shorts l -> short_entry e -> shorts (added max e l).
Proof. intros Hl He. apply (shorts_keep max (e :: l)). by constructor. Qed.

Lemma fields_added max e l : Forall (fun x => small (ent_nv x)) l -> small (ent_nv e) -> fields (added max e l) = fit max (field_of (ent_nv e) :: fields l).
Proof. intros Hl He. unfold added. by rewrite fields_keep by by constructor. Qed.

(** It enters the table if that is required. *)
Lemma index_field_spec i n h l rest : ctx_ok (ctx i) None h l rest -> tokens_ok l -> shorts l -> short (nv_name n) -> short (nv_value n) ->
  nv_name n ∈ rest -> nv_value n ∈ rest -> nv_token n = lookup_token (fst (field_of n)) ->
  (index_required i = true -> nv_flags n = NGHTTP2_NV_FLAG_NONE) ->
  exists rv c' h' l', index_field malloc_ok i n h = Some (rv, set_ctx c' i, h') /\ ctx_ok c' None h' l' rest /\ tokens_ok l' /\ shorts l' /\
    bad c' = bad (ctx i) /\ blocks_besides h' l' = blocks_besides h l /\ (requests (hmem h) <= requests (hmem h'))%nat /\
    (rv = 0 /\ table_of c' l' = (if index_required i then add_field (field_of n) (table_of (ctx i) l) else table_of (ctx i) l) \/
     rv = NGHTTP2_ERR_NOMEM /\ refused malloc_ok h h').
Proof.
  intros H Htok Hsh Hn Hv Hnr Hvr Ht Hfl. unfold index_field. destruct (index_required i).
  2: { exists 0, (ctx i), h, l. split; [by destruct i|]. repeat (split; [done|]). by left. }
  pose proof (short_small n Hn Hv) as Hsmall.
  destruct (table_add_spec malloc_ok _ _ _ _ _ n 0 H Hsmall Hnr Hvr) as (rv & c' & map' & h' & l' & -> & H' & Em & Eb & Hnone & Hbk & Hq & Hcase).
  cbn [mbind option_bind]. rewrite (proj2 Hnone eq_refl) in H'. exists rv, c', h', l'. split; [done|]. split; [done|].
  assert (Hl' : l' = keep (hd_table_bufsize_max (ctx i) - room_of n) l \/ exists e, ent_nv e = n /\ l' = added (hd_table_bufsize_max (ctx i)) e l).
  { destruct Hcase as [(_ & a & ->)|(_ & _ & ->)]; [right; eexists; by split; [|reflexivity]|by left]. }
  split; [destruct Hl' as [->|(e & He & ->)]; [by apply tokens_keep|apply tokens_added; [done|by rewrite He]]|].
  split; [destruct Hl' as [->|(e & He & ->)]; [by apply shorts_keep|apply shorts_added; [done|unfold short_entry; rewrite He; auto]]|].
  split; [done|]. split; [done|]. split; [done|]. destruct Hcase as [(-> & a & ->)|(-> & Href & _)]; [left|by right]. split; [done|].
  unfold table_of, add_field. cbn [t_max t_dyn]. rewrite Em. f_equal. by apply fields_added; [apply (ctx_small _ _ _ _ _ H)|].
Qed.

Lemma literal_flag nm vl t i : flag_of (HdNv nm vl t (literal_flags i)) = no_index i.
Proof. unfold flag_of, literal_flags. cbn. by destruct (no_index i). Qed.

Lemma literal_meaning i t nm s v : flags_ok i -> name_of t nm = Some s ->
  meaning t (Literal (mode_of i) nm v) = Some (if index_required i then add_field (s, v) t else t, [((s, v), no_index i)]).
Proof.
  intros Hf Hn. cbn [meaning]. rewrite Hn. cbn [mbind option_bind]. unfold mode_of, flags_ok in *.
  destruct (index_required i); [by rewrite Hf|]. by destruct (no_index i).
Qed.

(** What committing a field does: [n] is it. *)
Definition committed (i : nghttp2_hd_inflater) (h : heap) (l : list entry) (v : list char)
    (r : option (Z * option nghttp2_hd_nv * nghttp2_hd_inflater * heap)) : Prop :=
  exists rv n i' h' l', r = Some (rv, n, i', h') /\ base_ok i' h' l' /\ bad (ctx i') = bad (ctx i) /\ same_limits i i' /\
    blocks_besides h' l' = blocks_besides h l /\ (requests (hmem h) <= requests (hmem h'))%nat /\
    (rv = 0 /\ (exists n', n = Some n' /\ no_strings i' /\ alive n' i' l' /\ nv_token n' = lookup_token (fst (field_of n')) /\
       meaning (table_of (ctx i) l) (Literal (mode_of i) (name_of_field i) v) = Some (table_of (ctx i') l', [(field_of n', flag_of n')])) \/
     rv = NGHTTP2_ERR_NOMEM /\ refused malloc_ok h h').

Lemma commit_newname_spec i h l nm vl : base_ok i h l -> no_keep i -> opcode i = NGHTTP2_HD_OPCODE_NEWNAME ->
  namercbuf i = Some nm -> short nm -> valuercbuf i = Some vl -> short vl ->
  committed i h l (nghttp2_rcbuf_get_buf vl) (hd_inflate_commit_newname malloc_ok i h).
Proof.
  intros Hb [Hk1 Hk2] Hop Enm Hnm Evl Hvl. pose proof Hb as []. unfold hd_inflate_commit_newname. rewrite Enm, Evl. cbn [mbind option_bind].
  set (n := HdNv nm vl _ _). assert (Hheld : held i = [nm; vl]) by (unfold held; by rewrite Enm, Evl, Hk1, Hk2).
  destruct (index_field_spec i n h l (held i)) as (rv & c' & h' & l' & -> & H' & Ht' & Hs' & Eb & Hbk & Hq & Hcase); try done.
  { rewrite Hheld. constructor. } { rewrite Hheld. repeat constructor. } { intros E. cbn. unfold literal_flags. by rewrite (bo_flags0 E). }
  cbn [mbind option_bind]. destruct Hcase as [(-> & Et)|(-> & Href)]; cbn [negb Z.eqb].
  - do 3 eexists. exists h', l'. split; [done|]. set (i' := set_name _ _ _).
    split; [constructor; try done; unfold held; cbn; by rewrite <- Hheld|]. split; [done|]. split; [done|]. split; [done|]. split; [done|].
    left. split; [done|]. exists n. split; [done|]. split; [done|].
    split; [intros r Hr; split; [destruct Hr as [-> | ->]; [apply Hnm|apply Hvl]|right; apply elem_of_app; right; unfold held; cbn;
      destruct Hr as [-> | ->]; repeat constructor]|]. split; [done|].
    rewrite (literal_meaning i _ _ (nghttp2_rcbuf_get_buf nm)) by (done || (unfold name_of_field; by rewrite Hop, Enm)).
    unfold i'. cbn [ctx set_name set_value set_keep set_ctx]. rewrite Et. unfold n. by rewrite literal_flag.
  - do 3 eexists. exists h', l'. split; [done|]. split; [by constructor|]. repeat (split; [done|]). by right.
Qed.

Lemma commit_indname_spec i h l vl : base_ok i h l -> no_keep i -> opcode i = NGHTTP2_HD_OPCODE_INDNAME ->
  namercbuf i = None -> 0 <= index i < 61 + Z.of_nat (length l) -> valuercbuf i = Some vl -> short vl ->
  committed i h l (nghttp2_rcbuf_get_buf vl) (hd_inflate_commit_indname malloc_ok i h).
Proof.
  intros Hb [Hk1 Hk2] Hop Enm Hi Evl Hvl. pose proof Hb as []. unfold hd_inflate_commit_indname.
  destruct (table_get_ok i h l (index i) Hb Hi) as (e & -> & Ee & Hne & _ & _ & Hte & Hal). cbn [mbind option_bind].
  destruct (incref_any h _ (nv_name e) (ctx_owned _ _ _ _ _ bo_ctx0)) as (h1 & -> & Ho1 & Hsp1 & Hm1).
  { destruct Hal as [[? _]|[? _]]; [by left|right; apply elem_of_app; by left]. }
  cbn [mbind option_bind]. rewrite Evl. cbn [mbind option_bind]. set (n := HdNv (nv_name e) vl _ _).
  assert (Hheld : held i = [vl]) by (unfold held; by rewrite Enm, Evl, Hk1, Hk2).
  assert (H1 : ctx_ok (ctx i) None h1 l (nv_name e :: held i)).
  { apply ctx_heap with h (held i); [done|by rewrite <- Permutation_middle|by rewrite Hm1]. }
  destruct (index_field_spec i n h1 l (nv_name e :: held i)) as (rv & c' & h' & l' & -> & H' & Ht' & Hs' & Eb & Hbk & Hq & Hcase); try done.
  { constructor. } { rewrite Hheld. repeat constructor. } { intros E. cbn. unfold literal_flags. by rewrite (bo_flags0 E). }
  rewrite Hm1 in Hq. assert (Hbk1 : blocks_besides h1 l = blocks_besides h l) by (unfold blocks_besides; lia).
  cbn [mbind option_bind]. destruct Hcase as [(-> & Et)|(-> & Href)]; cbn [negb Z.eqb].
  - do 3 eexists. exists h', l'. split; [done|]. set (i' := set_value _ _ _).
    split; [constructor; try done; unfold held; cbn; rewrite Enm; cbn; by rewrite <- Hheld|].
    split; [done|]. split; [done|]. split; [congruence|]. split; [done|].
    left. split; [done|]. exists n. split; [done|]. split; [by split|].
    split; [intros r Hr; split; [destruct Hr as [-> | ->]; [apply Hne|apply Hvl]|right; apply elem_of_app; right; unfold held; cbn; rewrite Enm;
      destruct Hr as [-> | ->]; repeat constructor]|]. split; [done|].
    rewrite (literal_meaning i _ _ (fst (field_of e))).
    2: { done. }
    2: { unfold name_of_field. rewrite Hop. cbn [name_of t_dyn table_of]. by rewrite Ee. }
    unfold i'. cbn [ctx set_name set_value set_keep set_ctx]. rewrite Et. unfold n. by rewrite literal_flag.
  - destruct (decref_member h' (ptrs l') (held i) (nv_name e) (ctx_owned _ _ _ _ _ H')) as (h2 & -> & Ho2 & Hsp2 & Hq2). cbn [mbind option_bind].
    do 3 eexists. exists h2, l'. split; [done|]. split; [constructor; try done; cbn; apply ctx_heap with h' (nv_name e :: held i); [done|done|lia]|].
    split; [done|]. split; [done|]. split; [unfold blocks_besides in *; lia|]. split; [lia|]. right. split; [done|].
    destruct Href as (k & Hk & Hm). exists k. rewrite Hm1 in Hk. split; [lia|done].
Qed.

Lemma commit_spec i h l vl : base_ok i h l -> no_keep i -> name_ok i (Z.of_nat (length l)) -> valuercbuf i = Some vl -> short vl ->
  committed i h l (nghttp2_rcbuf_get_buf vl) (if bool_decide (opcode i = NGHTTP2_HD_OPCODE_NEWNAME)
    then hd_inflate_commit_newname malloc_ok i h else hd_inflate_commit_indname malloc_ok i h).
Proof.
  intros Hb Hk [(Hop & r & Hr & Hs)|(Hop & Hn & Hi)] Hv Hvl.
  - rewrite bool_decide_true by done. by apply commit_newname_spec with r.
  - rewrite bool_decide_false by by rewrite Hop. by apply commit_indname_spec.
Qed.

(** The value. *)
Lemma read_value_spec huffman i h l input : base_ok i h l -> no_keep i -> state_ok i (Z.of_nat (length l)) ->
  state i = reading_state false huffman -> step_ok i h l input (state_read_value malloc_ok (reader_of huffman) i h input).
Proof.
  intros Hb Hk Hst Est. assert (Hs : name_ok i (Z.of_nat (length l)) /\
    filling (if huffman then 2 else 1) i (valuebuf i) (valuercbuf i) /\ (huffman = true -> huff_ok i)).
  { unfold state_ok in Hst. rewrite Est in Hst. destruct huffman; cbn [reading_state] in Hst; destruct Hst as (H1 & H2); [destruct H2 as [H2 H3]|]; (split; [done|]; split; [done|]); done. }
  destruct Hs as (Hn & Hf & Hh). unfold state_read_value.
  destruct (read_string_spec huffman i (valuebuf i) (valuercbuf i) input Hf Hh) as (rv & i1 & buf' & E & Hsf & Hw & Hp & Hc & Hread).
  rewrite E. cbn [mbind option_bind]. pose proof Hread as Hread'. unfold string_read in Hread'.
  assert (Hrest : forall x, rest_of i x = and_then false i (rest_of_string i huffman (valuebuf i) x)) by (intros x; by apply (rest_of_reading false huffman)).
  destruct (rest_of_string i huffman (valuebuf i) input) as [s rest| |] eqn:Er.
  - destruct Hread' as (Hrv & Hl & <- & -> & Hav & (p & Ep) & Hx). rewrite (proj2 (Z.ltb_ge _ _)) by lia. cbn [left set_value]. rewrite Hl. cbn [negb Z.eqb valuebuf valuercbuf set_value].
    pose proof Hsf as ((Ec & Eh & E3 & E4 & E5) & Est1 & Eop & Eidx & Enm & Evl & _ & _ & Ek1 & Ek2 & Eir & Eni). destruct Hf as (Hr & _ & _ & _ & _ & Hcap).
    destruct (finish_string_spec buf' (valuercbuf i1) Hw Hp Hav ltac:(lia) ltac:(congruence)) as (buf2 & r0 & r' & -> & Er0 & Ead & Hget & Hshort).
    cbn [mbind option_bind fst snd]. set (i2 := set_value buf2 (Some r') _).
    assert (Hb2 : base_ok i2 h l).
    { apply (base_rename i i2 h l r0 r' (olist (namercbuf i) ++ olist (nv_name_keep i) ++ olist (nv_value_keep i))); [done|done|split; cbn; congruence|..|done].
      - unfold flags_ok. cbn. by rewrite Eir, Eni.
      - unfold held. rewrite <- Evl, Er0. cbn. by rewrite <- Permutation_middle.
      - unfold held. cbn. rewrite Enm, Ek1, Ek2. by rewrite <- Permutation_middle. }
    destruct (commit_spec i2 h l r' Hb2) as (rv2 & n & i' & h' & l' & -> & Hb' & Ebad & [El1 El2] & Hbk & Hq & Hcase).
    { destruct Hk. split; cbn; congruence. } { unfold name_ok in *. cbn. by rewrite Eop, Enm, Eidx. } { done. } { done. }
    cbn [mbind option_bind]. assert (Ebad' : bad (ctx i') = bad (ctx i)) by (rewrite Ebad; cbn; by rewrite Ec).
    destruct Hcase as [(-> & n' & -> & Hno & Hal & Htok & Hmean)|(-> & Href)]; cbn [negb Z.eqb mbind option_bind].
    + do 2 eexists. exists h', l'. split; [done|]. split; [by apply base_same with i'|]. do 3 (split; [done|]). cbn [outcome_ok].
      split; [by exists p|]. split; [done|]. split; [done|]. split; [split; cbn; rewrite ?El1, ?El2; cbn; congruence|].
      split; [done|]. split; [done|]. exists (Literal (mode_of i2) (name_of_field i2) (nghttp2_rcbuf_get_buf r')).
      split; [done|]. split; [rewrite <- Ec; exact Hmean|]. intros x. rewrite Hrest, Hx. unfold and_then, the_value. cbn [andthen].
      unfold mode_of, name_of_field. cbn. by rewrite Eir, Eni, Eop, Enm, Eidx, Hget.
    + do 2 eexists. exists h', l'. split; [done|]. split; [done|]. do 3 (split; [done|]). by right.
  - rewrite (proj2 (Z.ltb_ge _ _)) by lia. cbn [left set_value]. rewrite (proj2 (Z.eqb_neq (left i1) 0)) by lia. cbn [negb].
    by apply (read_almost false huffman).
  - destruct Hread' as (-> & Hx). cbn. apply step_fail; [done|by apply (same_fields_set_buf false)|]. intros x. rewrite Hrest, Hx. done.
Qed.

(** Every step of the machine, in every state. *)
Lemma inflate_step_spec i h l input : base_ok i h l -> no_keep i -> state_ok i (Z.of_nat (length l)) -> input <> [] \/ in_value i = true ->
  step_ok i h l input (inflate_step malloc_ok junk i h input).
Proof.
  intros Hb Hk Hs Hin. pose proof Hs as Hs'. unfold state_ok in Hs'. unfold inflate_step. cbv zeta.
  assert (Hne : in_value i = false -> input <> []) by (intros E; destruct Hin as [?|E']; [done|congruence]). unfold in_value in Hne.
  destruct (state i) eqn:Est.
  1-3: apply state_opcode_spec; [done|done|done|unfold starting; by rewrite Est|by apply Hne].
  - apply state_read_table_size_spec; auto.
  - apply state_read_index_spec; auto.
  - apply (check_strlen_spec true); auto. destruct Hs' as [[? ?] ?]. by split.
  - apply (read_strlen_spec true); auto; destruct Hs' as ([? ?] & ? & ?); [by split|done].
  - apply (read_name_spec true); auto.
  - apply (read_name_spec false); auto.
  - apply (check_strlen_spec false); auto.
  - apply (read_strlen_spec false); auto; destruct Hs' as (? & ? & ?); [by split|done].
  - apply (read_value_spec true); auto.
  - apply (read_value_spec false); auto.
Qed.

(** ** The loop *)

Lemma rest_of_nil i n : state_ok i n -> in_value i = false -> rest_of i [] = More.
Proof.
  unfold state_ok, in_value, rest_of. destruct (state i); try done; intros Hs _; unfold then_value.
  - destruct Hs as (_ & _ & Hf & Hh). destruct (Z.eq_dec (left i) 0) as [E|E].
    + unfold rest_of_string, parse_rest. rewrite E. change (take (Z.to_nat 0) []) with (@nil char). cbn -[Z.eqb]. destruct Hh as (_ & -> & Hacc). by rewrite (Hacc E).
    + destruct Hf as (_ & _ & _ & Hl & _). rewrite rest_of_string_nil; [done|lia|done].
  - destruct Hs as (_ & _ & Hf). destruct (Z.eq_dec (left i) 0) as [E|E].
    + unfold rest_of_string, parse_rest. by rewrite E.
    + destruct Hf as (_ & _ & _ & Hl & _). rewrite rest_of_string_nil; [done|lia|done].
Qed.

(** The reference decoder [a] has read [q] of a representation, and the machine is
    where that leads. *)
Record tracks (i : nghttp2_hd_inflater) (l : list entry) (a : decoder) (q input : list char) : Prop := {
  tr_table : dc_table a = table_of (ctx i) l;
  tr_settings : dc_settings a = settings_hd_table_bufsize_max i;
  tr_min : dc_min a = min_hd_table_bufsize_max i;
  tr_starting : starting i = true -> q = [] /\ dc_phase a = phase_of i;
  tr_inside : starting i = false -> q ++ input <> [];
  tr_rest : forall x, parse_next a (q ++ input ++ x) = rest_of i (input ++ x)
}.

Lemma parse_next_starting i h l a x : base_ok i h l -> dc_table a = table_of (ctx i) l -> dc_settings a = settings_hd_table_bufsize_max i ->
  dc_min a = min_hd_table_bufsize_max i -> dc_phase a = phase_of i -> starting i = true -> parse_next a x = rest_of i x.
Proof.
  intros Hb Ht Es Em Ep Hst. unfold parse_next. rewrite Ht, Es, Em, Ep. cbn [t_dyn table_of]. unfold fields. rewrite length_map.
  rewrite <- (max_index_eq i h l Hb). unfold rest_of, starting, limit in *. by destruct (state i).
Qed.

Lemma tracks_started i h l a input : base_ok i h l -> dc_table a = table_of (ctx i) l -> dc_settings a = settings_hd_table_bufsize_max i ->
  dc_min a = min_hd_table_bufsize_max i -> dc_phase a = phase_of i -> starting i = true -> tracks i l a [] input.
Proof.
  intros Hb Ht Es Em Ep Hst. constructor; [done..|congruence|]. intros x. cbn [app]. by apply parse_next_starting with h l.
Qed.

(** Between two calls. *)
Definition follows (i : nghttp2_hd_inflater) (l : list entry) (a : decoder) : Prop := tracks i l a (dc_pending a) [].

Definition pend (l : list char) (a : decoder) : decoder := Decoder (dc_table a) (dc_settings a) (dc_min a) (dc_phase a) l.

Lemma follows_pend i l a q : tracks i l a q [] -> follows i l (pend q a).
Proof. intros []. by constructor. Qed.

(** What the loop ends with is what the reference decoder says. *)
Definition loop_ok (i : nghttp2_hd_inflater) (h : heap) (input : list char) (d : option decoding)
    (o : outcome) (i' : nghttp2_hd_inflater) (h' : heap) (l' : list entry) : Prop :=
  match o with
  | Fail rv => rv = NGHTTP2_ERR_HEADER_COMP /\ d = Some Wrong \/ rv = NGHTTP2_ERR_NOMEM /\ refused malloc_ok h h'
  | Emit rest n =>
      (exists p, input = p ++ rest) /\ state i' = NGHTTP2_HD_STATE_OPCODE /\ no_strings i' /\ alive n i' l' /\
      nv_token n = lookup_token (fst (field_of n)) /\
      exists a', d = Some (Field (field_of n, flag_of n) rest a') /\ follows i' l' a'
  | Break rest _ | AlmostOk rest =>
      rest = [] /\ no_keep i' /\ state_ok i' (Z.of_nat (length l')) /\ rest_of i' [] = More /\
      (match o with AlmostOk _ => starting i' = false | _ => True end) /\
      exists a', d = Some (Waiting a') /\ follows i' l' a'
  end.

Lemma refused_mono h h1 h2 : (requests (hmem h) <= requests (hmem h1))%nat -> refused malloc_ok h1 h2 -> refused malloc_ok h h2.
Proof. intros Hq (k & Hk & Hm). exists k. split; [lia|done]. Qed.

Lemma loop_ok_from i h i1 h1 input rest p d o i' h' l' : (requests (hmem h) <= requests (hmem h1))%nat -> input = p ++ rest ->
  loop_ok i1 h1 rest d o i' h' l' -> loop_ok i h input d o i' h' l'.
Proof.
  intros Hq -> H. destruct o as [r b|rv|r|r n]; cbn in *; try done.
  - destruct H as [H|[H1 H2]]; [by left|right]. split; [done|]. by apply refused_mono with h1.
  - destruct H as ((p2 & ->) & H). split; [|done]. exists (p ++ p2). by rewrite app_assoc.
Qed.

Lemma decode_waiting f a l : parse_next a l = More -> (length l < f)%nat -> decode_from f a l = Some (Waiting (pend l a)).
Proof. intros E Hf. destruct f; [lia|]. cbn [decode_from]. by rewrite E. Qed.

Lemma inflate_loop_spec fuel : forall i h l input busy a q, base_ok i h l -> no_keep i -> state_ok i (Z.of_nat (length l)) ->
  (busy = true -> in_value i = true) -> (busy = false -> rest_of i [] = More) -> (measure i input < fuel)%nat -> tracks i l a q input ->
  exists o i' h' l', inflate_loop malloc_ok junk fuel i h input busy = Some (o, i', h') /\ base_ok i' h' l' /\ bad (ctx i') = bad (ctx i) /\
    blocks_besides h' l' = blocks_besides h l /\ (requests (hmem h) <= requests (hmem h'))%nat /\
    forall f, (length (q ++ input) < f)%nat -> loop_ok i h input (decode_from f a (q ++ input)) o i' h' l'.
Proof.
  induction fuel as [|fuel IH]; intros i h l input busy a q Hb Hk Hs Hbusy Hnb Hm Htr; [lia|]. cbn [inflate_loop].
  destruct (bool_decide (input = []) && negb busy) eqn:Eend.
  { apply andb_prop in Eend as [->%bool_decide_eq_true ->%negb_true_iff]. specialize (Hnb eq_refl).
    exists (Break [] false), i, h, l. split; [done|]. do 4 (split; [done|]). intros f Hf. rewrite app_nil_r in *.
    pose proof (tr_rest _ _ _ _ _ Htr []) as E. cbn [app] in E. rewrite app_nil_r, Hnb in E. rewrite decode_waiting by done.
    cbn. do 5 (split; [done|]). exists (pend q a). split; [done|]. by apply follows_pend. }
  assert (Hin : input <> [] \/ in_value i = true).
  { destruct (decide (input = [])) as [->|]; [right|by left]. apply Hbusy. by destruct busy. }
  destruct (inflate_step_spec i h l input Hb Hk Hs Hin) as (o & i1 & h1 & l1 & -> & Hb1 & Hbad & Hbk & Hq & Ho). cbn [mbind option_bind].
  assert (Hparse : forall x, parse_next a ((q ++ input) ++ x) = rest_of i (input ++ x)) by (intros x; rewrite <- app_assoc; apply Htr).
  assert (Hparse0 : parse_next a (q ++ input) = rest_of i (input ++ [])) by (by rewrite <- Hparse, app_nil_r).
  destruct o as [rest busy'|rv|rest|rest n]; cbn [outcome_ok] in Ho.
  - destruct Ho as ((p & ->) & Hk1 & Hs1 & Hm1 & -> & Hcase).
    assert (Hgo : forall a1 q1, tracks i1 l1 a1 q1 rest -> (forall f, (length (q ++ p ++ rest) < f)%nat ->
      exists f1, (length (q1 ++ rest) < f1)%nat /\ decode_from f a (q ++ p ++ rest) = decode_from f1 a1 (q1 ++ rest)) ->
      exists o i' h' l', inflate_loop malloc_ok junk fuel i1 h1 rest (in_value i1) = Some (o, i', h') /\ base_ok i' h' l' /\ bad (ctx i') = bad (ctx i) /\
        blocks_besides h' l' = blocks_besides h l /\ (requests (hmem h) <= requests (hmem h'))%nat /\
        forall f, (length (q ++ p ++ rest) < f)%nat -> loop_ok i h (p ++ rest) (decode_from f a (q ++ p ++ rest)) o i' h' l').
    { intros a1 q1 Htr1 Hdec. destruct (IH i1 h1 l1 rest (in_value i1) a1 q1) as (o & i' & h' & l' & E & Hb' & Hbad' & Hbk' & Hq' & Hl); try done;
        [by apply rest_of_nil with (Z.of_nat (length l1))|lia|].
      exists o, i', h', l'. split; [done|]. split; [done|]. split; [congruence|]. split; [congruence|]. split; [lia|]. intros f Hf.
      destruct (Hdec f Hf) as (f1 & Hf1 & ->). apply loop_ok_from with i1 h1 rest p; [done|done|]. by apply Hl. }
    destruct Hcase as [([El1 El2] & Et & Hst & Hmean)|(n & Est & Emin & Eset & Et & Hmean)].
    + apply (Hgo a (q ++ p)); [|intros f Hf; exists f; by rewrite <- app_assoc]. destruct Htr.
      constructor; rewrite ?Et, ?El1, ?El2; [done..| | |].
      * rewrite Hst. done.
      * intros _. rewrite <- app_assoc. destruct (starting i) eqn:E; [|by apply tr_inside0].
        destruct Hin as [Hin|Hin]; [|unfold starting, in_value in *; by destruct (state i)]. by destruct q.
      * intros x. rewrite <- Hmean, <- Hparse. by rewrite !app_assoc.
    + assert (Ep : parse_next a (q ++ p ++ rest) = Done (SizeUpdate n) rest) by (rewrite Hparse0, Hmean; by rewrite app_nil_r).
      apply (Hgo (decoder_next a (Table n (fit n (t_dyn (dc_table a)))) (SizeUpdate n)) []).
      * destruct Htr. apply tracks_started with h1; [done|cbn; by rewrite Et, tr_table0|cbn; congruence|cbn; congruence|unfold phase_of; by rewrite Est|unfold starting; by rewrite Est].
      * intros [|f] Hf; [lia|]. exists f. cbn [decode_from]. rewrite Ep. cbn [meaning app]. split; [|done].
        destruct (parse_repr_local _ _ _ _ _ _ Ep) as (p' & Hp' & Epp & _). rewrite Epp, length_app in Hf. destruct p'; [done|cbn in Hf; lia].
  - exists (Fail rv), i1, h1, l1. split; [done|]. do 4 (split; [done|]). intros f Hf. cbn. destruct Ho as [[-> Hmean]|Ho]; [left|by right].
    split; [done|]. destruct f; [lia|]. cbn [decode_from]. by rewrite Hparse0, Hmean.
  - destruct Ho as (-> & Hk1 & Hs1 & Hst & [El1 El2] & Et & Hmore & Hmean). exists (AlmostOk []), i1, h1, l1. split; [done|]. do 4 (split; [done|]).
    intros f Hf. rewrite decode_waiting by (done || by rewrite Hparse0, Hmean). cbn. do 5 (split; [done|]). exists (pend (q ++ input) a). split; [done|].
    apply follows_pend. destruct Htr. constructor; rewrite ?Et, ?El1, ?El2; [done..|by rewrite Hst| |].
    + intros _. rewrite app_nil_r. destruct (starting i) eqn:E; [|by apply tr_inside0].
      destruct Hin as [Hin|Hin]; [|unfold starting, in_value in *; by destruct (state i)]. by destruct q.
    + intros x. cbn [app]. by rewrite Hparse, Hmean.
  - destruct Ho as (Hp & Est & Hno & [El1 El2] & Hal & Htok & r & Hr & Hmean & Hx). exists (Emit rest n), i1, h1, l1. split; [done|]. do 4 (split; [done|]).
    intros f Hf. cbn. do 5 (split; [done|]). destruct f; [lia|]. cbn [decode_from]. rewrite Hparse0, Hx, app_nil_r.
    destruct Htr. rewrite tr_table0, Hmean. eexists. split; [done|].
    assert (Est' : starting i1 = true) by (unfold starting; by rewrite Est).
    unfold follows. replace (dc_pending _) with (@nil char) by (by destruct r).
    apply tracks_started with h1; [done|by destruct r|destruct r; cbn; congruence|destruct r; [cbn; congruence|cbn; congruence|done]|unfold phase_of; rewrite Est; by destruct r|done].
Qed.

(** ** A call *)

Definition inflater_ok (i : nghttp2_hd_inflater) (h : heap) (l : list entry) : Prop :=
  base_ok i h l /\ (bad (ctx i) = false -> state_ok i (Z.of_nat (length l)) /\ rest_of i [] = More).

Lemma keep_free_spec i h l : base_ok i h l -> exists h', hd_inflate_keep_free i h = Some (set_keep None None i, h') /\
  base_ok (set_keep None None i) h' l /\ blocks_besides h' l = blocks_besides h l /\ requests (hmem h') = requests (hmem h).
Proof.
  intros []. unfold hd_inflate_keep_free. pose proof (ctx_owned _ _ _ _ _ bo_ctx0) as Ho. unfold held in Ho.
  set (L := ptrs l ++ olist (namercbuf i) ++ olist (valuercbuf i)).
  assert (Ho1 : owned h (olist (nv_value_keep i) ++ olist (nv_name_keep i) ++ L)).
  { eapply owned_perm; [|exact Ho]. unfold L. solve_Permutation. }
  destruct (decref_opt _ _ _ Ho1) as (h1 & -> & Ho2 & Hs1 & Hq1). cbn [mbind option_bind].
  destruct (decref_opt _ _ _ Ho2) as (h2 & -> & Ho3 & Hs2 & Hq2). cbn [mbind option_bind]. exists h2. split; [done|].
  split; [constructor; try done|split; [unfold blocks_besides; lia|lia]]. apply ctx_heap with h (held i); [done| |lia].
  unfold held. cbn. rewrite app_nil_r. exact Ho3.
Qed.

Lemma set_keep_rest i n v x : rest_of (set_keep n v i) x = rest_of i x.
Proof. done. Qed.

Lemma follows_tracks i l a input : follows i l a -> tracks (set_keep None None i) l a (dc_pending a) input.
Proof.
  intros []. constructor; try done.
  - intros H E. apply (tr_inside0 H). destruct (dc_pending a); [done|discriminate].
  - intros x. rewrite set_keep_rest. apply (tr_rest0 (input ++ x)).
Qed.

(** The end of a block is acceptable in two states. *)
Lemma follows_complete i l a : follows i l a ->
  complete a = negb (negb (bool_decide (state i = NGHTTP2_HD_STATE_OPCODE)) && negb (bool_decide (state i = NGHTTP2_HD_STATE_INFLATE_START))).
Proof.
  intros []. unfold complete. destruct (starting i) eqn:E.
  - destruct (tr_starting0 eq_refl) as [Ep Eph]. rewrite Ep, Eph. unfold starting, phase_of in *. by destruct (state i).
  - specialize (tr_inside0 eq_refl). rewrite app_nil_r in tr_inside0. destruct (dc_pending a); [done|]. unfold starting in E.
    destruct (dc_phase a), (state i); done.
Qed.

Lemma bad_ok i h l : base_ok i h l -> inflater_ok (set_ctx (set_bad (ctx i)) i) h l.
Proof. intros []. split; [|done]. constructor; try done. by apply set_bad_ok. Qed.

Lemma state_opcode_ok i n : state i = NGHTTP2_HD_STATE_OPCODE -> no_strings i -> state_ok i n /\ rest_of i [] = More.
Proof. unfold state_ok, rest_of. by intros ->. Qed.

(** What a call returns: [d] is what the reference decoder says of the input. *)
Definition call_ok (final : bool) (input : list char) (d : option decoding) (rv : Z) (n : option nghttp2_hd_nv) (flags : Z)
    (i' : nghttp2_hd_inflater) (l' : list entry) : Prop :=
  match d with
  | None => False
  | Some (Field e rest a') =>
      (exists p, input = p ++ rest) /\ rv = Z.of_nat (length input - length rest) /\ flags = NGHTTP2_HD_INFLATE_EMIT /\
      (exists n', n = Some n' /\ (field_of n', flag_of n') = e /\ alive n' i' l' /\ nv_token n' = lookup_token (fst (field_of n'))) /\
      bad (ctx i') = false /\ follows i' l' a'
  | Some (Waiting a') =>
      n = None /\
      if final && negb (complete a') then rv = NGHTTP2_ERR_HEADER_COMP /\ flags = NGHTTP2_HD_INFLATE_NONE /\ bad (ctx i') = true
      else rv = Z.of_nat (length input) /\ flags = (if final then NGHTTP2_HD_INFLATE_FINAL else NGHTTP2_HD_INFLATE_NONE) /\
           bad (ctx i') = false /\ follows i' l' a'
  | Some Wrong => n = None /\ rv = NGHTTP2_ERR_HEADER_COMP /\ flags = NGHTTP2_HD_INFLATE_NONE /\ bad (ctx i') = true
  end.

(** A call is good: it ran out of memory, or does what it should. *)
Definition good_call (h : heap) (l : list entry) (final : bool) (input : list char) (d : option decoding)
    (r : option (Z * option nghttp2_hd_nv * Z * nghttp2_hd_inflater * heap)) : Prop :=
  exists rv n flags i' h' l', r = Some (rv, n, flags, i', h') /\
    inflater_ok i' h' l' /\ blocks_besides h' l' = blocks_besides h l /\ (requests (hmem h) <= requests (hmem h'))%nat /\
    (rv = NGHTTP2_ERR_NOMEM /\ n = None /\ flags = NGHTTP2_HD_INFLATE_NONE /\ bad (ctx i') = true /\ refused malloc_ok h h' \/
     call_ok final input d rv n flags i' l').

Lemma inflate_end_spec almost final i h l h0 l0 input a : base_ok i h l -> bad (ctx i) = false -> state_ok i (Z.of_nat (length l)) -> rest_of i [] = More ->
  (almost = true -> starting i = false) -> follows i l a -> blocks_besides h l = blocks_besides h0 l0 -> (requests (hmem h0) <= requests (hmem h))%nat ->
  good_call h0 l0 final input (Some (Waiting a)) (inflate_end almost final (Z.of_nat (length input)) i h).
Proof.
  intros Hb Hbad Hs Hm Halm Hfol Hbk Hq. unfold inflate_end. set (n1 := negb _ && negb _).
  assert (E : almost || n1 = negb (complete a)).
  { rewrite (follows_complete _ _ _ Hfol). fold n1. rewrite negb_involutive. destruct almost; [|done]. specialize (Halm eq_refl).
    unfold n1, starting in *. by destruct (state i). }
  rewrite E. destruct final; [destruct (complete a) eqn:Ec; cbn [negb]|].
  - do 5 eexists. exists l. split; [done|]. split; [by split|]. do 2 (split; [done|]). right. cbn. by rewrite Ec.
  - do 5 eexists. exists l. split; [done|]. split; [by apply bad_ok|]. do 2 (split; [done|]). right. cbn. by rewrite Ec.
  - do 5 eexists. exists l. split; [done|]. split; [by split|]. do 2 (split; [done|]). right. done.
Qed.

Lemma inflate_call_spec i h l a input final : inflater_ok i h l -> bad (ctx i) = false -> follows i l a ->
  good_call h l final input (decode_piece a input) (nghttp2_hd_inflate_hd_nv malloc_ok junk i h input final).
Proof.
  intros [Hb Hst] Hbad Hf. destruct (Hst Hbad) as [Hs Hmore]. unfold nghttp2_hd_inflate_hd_nv. rewrite Hbad.
  destruct (keep_free_spec i h l Hb) as (h1 & -> & Hb1 & Hbk1 & Hq1). cbn [mbind option_bind].
  destruct (inflate_loop_spec (inflate_fuel input) (set_keep None None i) h1 l input false a (dc_pending a)) as
    (o & i' & h' & l' & -> & Hb' & Hbad' & Hbk & Hq & Hl); try done.
  { unfold inflate_fuel, measure. destruct (idle _); lia. } { by apply follows_tracks. }
  specialize (Hl (S (length (dc_pending a ++ input))) ltac:(lia)). fold (decode_piece a input) in Hl. cbn [mbind option_bind].
  assert (Hbad2 : bad (ctx i') = false) by (by rewrite Hbad'). rewrite Hbk1 in Hbk. rewrite Hq1 in Hq.
  destruct o as [rest b|rv|rest|rest n]; cbn [loop_ok] in Hl.
  - destruct Hl as (-> & H2 & H3 & H4 & _ & a' & -> & H5). cbn [length]. rewrite Nat.sub_0_r. by apply inflate_end_spec with l'.
  - do 5 eexists. exists l'. split; [done|]. split; [by apply bad_ok|]. do 2 (split; [done|]).
    destruct Hl as [[-> ->]|[-> Href]]; [by right|left]. do 4 (split; [done|]). destruct Href as (k & Hk & Hm). exists k. split; [lia|done].
  - destruct Hl as (-> & H2 & H3 & H4 & H6 & a' & -> & H5). cbn [length]. rewrite Nat.sub_0_r. by apply inflate_end_spec with l'.
  - destruct Hl as (Hp & Est & Hno & Hal & Htok & a' & -> & Hfol). do 5 eexists. exists l'. split; [done|].
    split; [split; [done|]; intros _; by apply state_opcode_ok|]. do 2 (split; [done|]). right. cbn [call_ok]. do 3 (split; [done|]).
    split; [by exists n|]. done.
Qed.

(** The end of a block. *)
Definition decoder_end (a : decoder) : decoder := Decoder (dc_table a) (dc_settings a) (dc_min a) Starting [].

Lemma end_headers_spec i h l a : inflater_ok i h l -> bad (ctx i) = false -> follows i l a -> complete a = true ->
  exists i' h', nghttp2_hd_inflate_end_headers i h = Some (i', h') /\ inflater_ok i' h' l /\ bad (ctx i') = false /\
    blocks_besides h' l = blocks_besides h l /\ requests (hmem h') = requests (hmem h) /\ follows i' l (decoder_end a).
Proof.
  intros [Hb Hst] Hbad Hf Hc. destruct (Hst Hbad) as [Hs _]. unfold nghttp2_hd_inflate_end_headers.
  destruct (keep_free_spec i h l Hb) as (h1 & -> & Hb1 & Hbk1 & Hq1). cbn [mbind option_bind].
  rewrite (follows_complete _ _ _ Hf) in Hc. do 2 eexists. split; [done|].
  assert (Hno : no_strings i) by (unfold state_ok in Hs; by destruct (state i)).
  split; [split; [by apply base_same with (set_keep None None i)|done]|]. do 3 (split; [done|]).
  destruct Hf. apply tracks_started with h1; [by apply base_same with (set_keep None None i)|done..].
Qed.

(** The limit this end announces. *)
Definition decoder_limit (s : Z) (a : decoder) : decoder :=
  if s <? t_max (dc_table a) then Decoder (Table s (fit s (t_dyn (dc_table a)))) s s Expecting []
  else Decoder (dc_table a) s (dc_min a) (dc_phase a) [].

Definition between_blocks (a : decoder) : bool := match dc_phase a with Inside => false | _ => true end && bool_decide (dc_pending a = []).

Lemma follows_between i l a : follows i l a ->
  between_blocks a = bool_decide (state i = NGHTTP2_HD_STATE_EXPECT_TABLE_SIZE) || bool_decide (state i = NGHTTP2_HD_STATE_INFLATE_START).
Proof.
  intros []. unfold between_blocks. destruct (starting i) eqn:E.
  - destruct (tr_starting0 eq_refl) as [-> ->]. unfold starting, phase_of in *. by destruct (state i).
  - specialize (tr_inside0 eq_refl). rewrite app_nil_r in tr_inside0. rewrite (bool_decide_false (dc_pending a = [])) by done. rewrite andb_false_r.
    unfold starting in E. by destruct (state i).
Qed.

Lemma inflate_change_spec i h l a s : inflater_ok i h l -> bad (ctx i) = false -> follows i l a -> 0 <= s <= 2 ^ 30 ->
  exists rv i' h' l', nghttp2_hd_inflate_change_table_size i s h = Some (rv, i', h') /\ inflater_ok i' h' l' /\ bad (ctx i') = false /\
    blocks_besides h' l' = blocks_besides h l /\ requests (hmem h') = requests (hmem h) /\
    if between_blocks a then rv = 0 /\ follows i' l' (decoder_limit s a) else rv = NGHTTP2_ERR_INVALID_STATE /\ i' = i /\ l' = l.
Proof.
  intros [Hb Hst] Hbad Hf Hs. destruct (Hst Hbad) as [Hs1 Hmore]. unfold nghttp2_hd_inflate_change_table_size.
  rewrite <- (follows_between i l a Hf). destruct (between_blocks a) eqn:Eb; cbn [negb].
  2: { do 3 eexists. exists l. split; [done|]. split; [by split|]. done. }
  rewrite (follows_between i l a Hf) in Eb. destruct Hf.
  assert (Est : starting i = true) by (unfold starting; destruct (state i); done).
  assert (Hno : no_strings i) by (unfold state_ok, starting in *; by destruct (state i)).
  destruct (tr_starting0 Est) as [_ Eph]. unfold decoder_limit. rewrite tr_table0. cbn [t_max t_dyn table_of ctx set_limits].
  destruct (Z.ltb_spec s (hd_table_bufsize_max (ctx i))).
  - cbn [settings_hd_table_bufsize_max ctx set_ctx set_limits set_state min_hd_table_bufsize_max].
    pose proof Hb as []. destruct (shrink_spec _ _ _ _ _ (set_max_ok _ _ _ _ _ s bo_ctx0 Hs)) as (c' & map' & h' & -> & Hc' & (Em & En & Ebd) & Hnone & Hbk & Hq).
    rewrite (proj2 Hnone eq_refl) in Hc'. cbn [mbind option_bind]. cbn [hd_table_bufsize_max set_bufsize_max bad] in Em, Hc', Hbk, Ebd.
    do 3 eexists. exists (keep s l). split; [done|]. set (i' := set_ctx c' _).
    assert (Hb' : base_ok i' h' (keep s l)).
    { constructor; cbn; [exact Hc'|by apply tokens_keep|by apply shorts_keep|done|unfold UINT32_MAX; lia|done]. }
    split; [split; [done|done]|]. split; [cbn; by rewrite Ebd|]. split; [done|]. split; [done|]. split; [done|].
    apply tracks_started with h'; [done| |done..]. unfold table_of, i'. cbn. rewrite Em. f_equal. symmetry. apply fields_keep, (ctx_small _ _ _ _ _ bo_ctx0).
  - do 3 eexists. exists l. split; [done|]. set (i' := set_limits _ _ _).
    assert (Hb' : base_ok i' h l) by (destruct Hb; by constructor).
    assert (Hs' : state_ok i' (Z.of_nat (length l))) by (unfold state_ok, starting, i' in *; cbn; by destruct (state i)).
    assert (Hv : in_value i' = false) by (unfold in_value, starting, i' in *; cbn; by destruct (state i)).
    split; [split; [done|]; intros _; split; [done|by apply (rest_of_nil i' _ Hs' Hv)]|].
    split; [done|]. split; [done|]. split; [done|]. split; [done|]. apply tracks_started with h; done.
Qed.

(** ** Life cycle *)

Definition first_decoder : decoder :=
  Decoder (Table NGHTTP2_HD_DEFAULT_MAX_BUFFER_SIZE []) NGHTTP2_HD_DEFAULT_MAX_BUFFER_SIZE UINT32_MAX Starting [].

Lemma inflate_init_spec h : owned h [] -> exists rv i h', nghttp2_hd_inflate_init malloc_ok h = Some (rv, i, h') /\
  (rv = 0 /\ inflater_ok i h' [] /\ bad (ctx i) = false /\ follows i [] first_decoder /\ blocks_besides h' [] = spare h + 1 \/
   rv = NGHTTP2_ERR_NOMEM /\ refused malloc_ok h h' /\ owned h' [] /\ spare h' = spare h).
Proof.
  intros Ho. unfold nghttp2_hd_inflate_init. destruct (context_init_spec malloc_ok h [] Ho) as (rv & c & h' & -> & Hq & Hcase).
  cbn [mbind option_bind]. do 3 eexists. split; [done|]. destruct Hcase as [(-> & H & _ & Hsp & Em & Ebad)|(-> & Hr & Ho' & Hsp)]; [left|by right].
  split; [done|]. set (i := Inflater _ _ _ _ _ _ _ _ _ _ _ _ _ _ _ _ _ _).
  assert (Hb : base_ok i h' []).
  { constructor; [exact H|constructor|constructor|cbn; unfold NGHTTP2_HD_DEFAULT_MAX_BUFFER_SIZE; lia|cbn; unfold UINT32_MAX; lia|done]. }
  split; [split; [done|]; intros _; split; [by split|done]|]. split; [exact Ebad|].
  split; [|unfold blocks_besides; cbn [length]; lia]. apply (tracks_started i h' [] first_decoder []); [done| |done..].
  unfold table_of, i. cbn. by rewrite Em.
Qed.

Lemma inflate_free_spec i h l : inflater_ok i h l -> exists h', nghttp2_hd_inflate_free i h = Some h' /\ owned h' [] /\ spare h' = blocks_besides h l - 1.
Proof.
  intros [Hb _]. unfold nghttp2_hd_inflate_free. destruct (keep_free_spec i h l Hb) as (h1 & -> & Hb1 & Hbk1 & Hq1). cbn [mbind option_bind].
  cbn [valuercbuf namercbuf ctx set_keep].
  pose proof (bo_ctx _ _ _ Hb1) as H1. pose proof (ctx_owned _ _ _ _ _ H1) as Ho. unfold held in Ho. cbn in Ho. rewrite app_nil_r in Ho.
  assert (Ho1 : owned h1 (olist (valuercbuf i) ++ olist (namercbuf i) ++ ptrs l)) by (eapply owned_perm; [|exact Ho]; solve_Permutation).
  destruct (decref_opt _ _ _ Ho1) as (h2 & -> & Ho2 & Hs2 & Hq2). cbn [mbind option_bind].
  destruct (decref_opt _ _ _ Ho2) as (h3 & -> & Ho3 & Hs3 & Hq3). cbn [mbind option_bind].
  destruct (context_free_spec (ctx i) None h3 l []) as (h4 & -> & Ho4 & Hs4 & _).
  { apply ctx_heap with h1 (held (set_keep None None i)); [done|by rewrite app_nil_r|lia]. }
  exists h4. split; [done|]. split; [done|]. unfold blocks_besides in *. lia.
Qed.

(** ** Any input *)

(** An inflater that was initialised, and whatever happened to it since. *)
Definition in_use (i : nghttp2_hd_inflater) (h : heap) (l : list entry) : Prop :=
  inflater_ok i h l /\ (bad (ctx i) = false -> exists a, follows i l a).

Lemma call_in_use i h l input final : in_use i h l ->
  exists rv n flags i' h' l', nghttp2_hd_inflate_hd_nv malloc_ok junk i h input final = Some (rv, n, flags, i', h') /\
    in_use i' h' l' /\ blocks_besides h' l' = blocks_besides h l /\ rv <= Z.of_nat (length input) /\
    (rv < 0 -> bad (ctx i') = true /\ n = None) /\ (forall n', n = Some n' -> alive n' i' l').
Proof.
  intros [Hok Hf]. destruct (bad (ctx i)) eqn:Hbad.
  { unfold nghttp2_hd_inflate_hd_nv. rewrite Hbad. do 5 eexists. exists l. split; [done|]. split; [by split; [|intros; congruence]|].
    split; [done|]. split; [unfold NGHTTP2_ERR_HEADER_COMP; lia|]. done. }
  destruct (Hf eq_refl) as [a Ha]. destruct (inflate_call_spec i h l a input final Hok Hbad Ha) as (rv & n & flags & i' & h' & l' & E & Hok' & Hbk & _ & Hcall).
  exists rv, n, flags, i', h', l'. split; [done|].
  destruct Hcall as [(-> & -> & _ & Hb & _)|Hcall].
  { split; [split; [done|congruence]|]. split; [done|]. split; [unfold NGHTTP2_ERR_NOMEM; lia|]. by split. }
  unfold call_ok in Hcall. destruct (decode_piece a input) as [[e rest a'|a'|]|]; [| | |done].
  - destruct Hcall as ((p & ->) & -> & -> & (n' & -> & _ & Hal & _) & Hb & Hf'). split; [split; [done|by exists a']|]. split; [done|].
    split; [lia|]. split; [lia|]. by intros ? [= <-].
  - destruct Hcall as (-> & Hcall). destruct (final && negb (complete a')).
    + destruct Hcall as (-> & _ & Hb). split; [split; [done|congruence]|]. split; [done|]. split; [unfold NGHTTP2_ERR_HEADER_COMP; lia|]. by split.
    + destruct Hcall as (-> & _ & Hb & Hf'). split; [split; [done|by exists a']|]. split; [done|]. split; [lia|]. split; [lia|]. done.
  - destruct Hcall as (-> & -> & _ & Hb). split; [split; [done|congruence]|]. split; [done|]. split; [unfold NGHTTP2_ERR_HEADER_COMP; lia|]. by split.
Qed.

(** Calls with any pieces; what they return. *)
Fixpoint inflate_calls (i : nghttp2_hd_inflater) (h : heap) (cs : list (list char * bool)) : option (list Z * nghttp2_hd_inflater * heap) :=
  match cs with
  | [] => Some ([], i, h)
  | (input, final) :: cs =>
      r ← nghttp2_hd_inflate_hd_nv malloc_ok junk i h input final;
      let '(rv, _, _, i, h) := r in
      r ← inflate_calls i h cs;
      let '(rvs, i, h) := r in Some (rv :: rvs, i, h)
  end.

Lemma calls_in_use cs : forall i h l, in_use i h l -> exists rvs i' h' l', inflate_calls i h cs = Some (rvs, i', h') /\ in_use i' h' l' /\
  blocks_besides h' l' = blocks_besides h l /\ Forall2 (fun rv c => rv <= Z.of_nat (length (fst c))) rvs cs.
Proof.
  induction cs as [|[input final] cs IH]; intros i h l Hu; cbn [inflate_calls].
  - exists [], i, h, l. split; [done|]. split; [done|]. split; [done|constructor].
  - destruct (call_in_use i h l input final Hu) as (rv & n & flags & i1 & h1 & l1 & -> & Hu1 & Hbk1 & Hrv & _). cbn [mbind option_bind].
    destruct (IH i1 h1 l1 Hu1) as (rvs & i2 & h2 & l2 & -> & Hu2 & Hbk2 & Hrvs). cbn [mbind option_bind].
    do 3 eexists. exists l2. split; [done|]. split; [done|]. split; [congruence|]. by constructor.
Qed.

(** An allocated inflater is a new one, or nothing was taken. *)
Lemma inflate_new_spec h : owned h [] -> exists rv i h', nghttp2_hd_inflate_new2 malloc_ok h = Some (rv, i, h') /\
  match i with
  | Some i => rv = 0 /\ inflater_ok i h' [] /\ bad (ctx i) = false /\ follows i [] first_decoder /\ blocks_besides h' [] = spare h + 2
  | None => rv = NGHTTP2_ERR_NOMEM /\ owned h' [] /\ spare h' = spare h
  end.
Proof.
  intros Ho. unfold nghttp2_hd_inflate_new2, block_new, malloc. destruct (malloc_ok (requests (hmem h))) eqn:Em; cbn [negb].
  2: { do 3 eexists. split; [done|]. split; [done|]. split; [by apply owned_mem; [destruct h|cbn; lia]|done]. }
  set (h0 := Heap _ _). assert (Ho0 : owned h0 []) by (apply owned_mem; [by destruct h|cbn; lia]).
  assert (Hs0 : spare h0 = spare h + 1) by (unfold spare, h0; cbn; lia).
  destruct (inflate_init_spec h0 Ho0) as (rv & i & h' & -> & Hcase). cbn [mbind option_bind].
  destruct Hcase as [(-> & Hok & Hb & Hf & Hbk)|(-> & _ & Ho' & Hs')]; cbn [negb Z.eqb].
  - do 3 eexists. split; [done|]. cbn. split; [done|]. do 3 (split; [done|]). lia.
  - do 3 eexists. split; [done|]. cbn. split; [done|]. split; [by apply owned_mem|]. unfold spare, block_free in *. cbn. lia.
Qed.

(** ... and deleting it gives it back. *)
Lemma inflate_del_spec i h l : inflater_ok i h l -> exists h', nghttp2_hd_inflate_del i h = Some h' /\ owned h' [] /\ spare h' = blocks_besides h l - 2.
Proof.
  intros Hok. unfold nghttp2_hd_inflate_del. destruct (inflate_free_spec i h l Hok) as (h1 & -> & Ho & Hs). cbn [mbind option_bind].
  eexists. split; [done|]. split; [by apply owned_mem|]. unfold spare, block_free in *. cbn. lia.
Qed.

(** C31: the inflater is safe on all inputs: after its initialisation it may be called
    with any bytes, in pieces of any sizes, with [in_final] set or not, also after it
    has failed; every call returns, never reads or writes outside its input, its
    buffers and its tables, never uses a string that was given back, and takes no more
    bytes than there are; [nghttp2_hd_inflate_free] then gives back all the memory that
    was allocated since before the initialisation, no more and no less. *)
Theorem inflate_any_input h i h1 cs : owned h [] -> nghttp2_hd_inflate_init malloc_ok h = Some (0, i, h1) ->
  exists rvs i' h' h2, inflate_calls i h1 cs = Some (rvs, i', h') /\ nghttp2_hd_inflate_free i' h' = Some h2 /\
    owned h2 [] /\ refs h2 = ∅ /\ live (hmem h2) = live (hmem h) /\
    Forall2 (fun rv c => rv <= Z.of_nat (length (fst c))) rvs cs.
Proof.
  intros Ho Hi. destruct (inflate_init_spec h Ho) as (rv & i0 & h0 & E & Hcase). rewrite Hi in E. injection E as <- <- <-.
  destruct Hcase as [(_ & Hok & Hbad & Hf & Hbk)|(? & _)]; [|done].
  destruct (calls_in_use cs i h1 [] (conj Hok (fun _ => ex_intro _ _ Hf))) as (rvs & i' & h' & l' & -> & [Hok' _] & Hbk' & Hrvs).
  destruct (inflate_free_spec i' h' l' Hok') as (h2 & Efree & Ho2 & Hs). exists rvs, i', h', h2. split; [done|]. split; [done|]. split; [done|].
  assert (Hempty : forall h0, owned h0 [] -> refs h0 = ∅).
  { intros h0 [Hc _]. apply map_empty. intros a. by rewrite Hc. }
  split; [by apply Hempty|]. split; [|done]. unfold spare in *. rewrite (Hempty _ Ho2) in Hs. unfold spare in Hbk. rewrite (Hempty _ Ho) in Hbk.
  rewrite !map_size_empty in *. lia.
Qed.

(** C30: a call of the inflater is a call of the reference decoder.  If it has read the
    same bytes before, cut in whatever way, then on the next piece, of any bytes: when
    the decoder finds a field the inflater returns that field, marked if it must not be
    indexed, and the count of bytes up to its end, and both go on behind it with the same
    table; when the input ends inside a representation, or between two, all of it is
    taken, and with [in_final] it is an error unless the block is complete; and when the
    decoder says that no continuation makes sense, or the field refers to what is not in
    the tables or a size is over the limit, the inflater fails with
    [NGHTTP2_ERR_HEADER_COMP].  The one exception is [NGHTTP2_ERR_NOMEM], after the
    allocator has refused a request. *)
Theorem inflate_refines_decoder i h l a input final : inflater_ok i h l -> bad (ctx i) = false -> follows i l a ->
  exists rv n flags i' h' l', nghttp2_hd_inflate_hd_nv malloc_ok junk i h input final = Some (rv, n, flags, i', h') /\
    inflater_ok i' h' l' /\
    (rv = NGHTTP2_ERR_NOMEM /\ refused malloc_ok h h' \/
     match decode_piece a input with
     | None => False
     | Some (Field e rest a') =>
         (exists p, input = p ++ rest) /\ rv = Z.of_nat (length input - length rest) /\ flags = NGHTTP2_HD_INFLATE_EMIT /\
         (exists n', n = Some n' /\ (field_of n', flag_of n') = e /\ alive n' i' l' /\ nv_token n' = lookup_token (fst (field_of n'))) /\
         bad (ctx i') = false /\ follows i' l' a'
     | Some (Waiting a') =>
         if final && negb (complete a') then rv = NGHTTP2_ERR_HEADER_COMP /\ bad (ctx i') = true
         else rv = Z.of_nat (length input) /\ n = None /\
              flags = (if final then NGHTTP2_HD_INFLATE_FINAL else NGHTTP2_HD_INFLATE_NONE) /\ bad (ctx i') = false /\ follows i' l' a'
     | Some Wrong => rv = NGHTTP2_ERR_HEADER_COMP /\ n = None /\ bad (ctx i') = true
     end).
Proof.
  intros Hok Hbad Hf. destruct (inflate_call_spec i h l a input final Hok Hbad Hf) as (rv & n & flags & i' & h' & l' & E & Hok' & _ & _ & Hcall).
  exists rv, n, flags, i', h', l'. split; [done|]. split; [done|]. destruct Hcall as [(-> & _ & _ & _ & Href)|Hcall]; [by left|right].
  unfold call_ok in Hcall. destruct (decode_piece a input) as [[e rest a'|a'|]|]; [done| | |done].
  - destruct Hcall as (-> & Hcall). destruct (final && negb (complete a')); [by destruct Hcall as (-> & _ & ?)|]. by destruct Hcall as (-> & -> & ? & ?).
  - by destruct Hcall as (-> & -> & _ & ?).
Qed.
End Spec.

(** ** Witnesses *)

Definition no_heap : heap := Heap (Mem 0 0) ∅.

(** A new inflater, and the first request of RFC 7541, appendix C.4.1, cut in two. *)
Definition new_inflater : option (Z * nghttp2_hd_inflater * heap) := nghttp2_hd_inflate_init (fun _ => true) no_heap.
Definition first_request : list char :=
  map uint8 [0x82; 0x86; 0x84; 0x41; 0x8c; 0xf1; 0xe3; 0xc2; 0xe5; 0xf2; 0x3a; 0x6b; 0xa0; 0xab; 0x90; 0xf4; 0xff].

Lemma inflate_any_input_witness : exists i h1, new_inflater = Some (0, i, h1) /\
  exists rvs i' h' h2, inflate_calls (fun _ => true) (fun _ _ => NUL) i h1 [(take 7 first_request, false); (drop 7 first_request, true)] = Some (rvs, i', h') /\
    nghttp2_hd_inflate_free i' h' = Some h2 /\ owned h2 [] /\ refs h2 = ∅ /\ live (hmem h2) = live (hmem no_heap) /\
    Forall2 (fun rv c => rv <= Z.of_nat (length (fst c))) rvs [(take 7 first_request, false); (drop 7 first_request, true)].
Proof.
  eexists _, _. split; [vm_compute; reflexivity|].
  apply (inflate_any_input (fun _ => true) (fun _ _ => NUL) no_heap); [apply owned_nothing|vm_compute; reflexivity].
Defined.

Lemma inflate_refines_decoder_witness : exists i h, new_inflater = Some (0, i, h) /\
  exists rv n flags i' h' l', nghttp2_hd_inflate_hd_nv (fun _ => true) (fun _ _ => NUL) i h (drop 3 first_request) true = Some (rv, n, flags, i', h') /\
    inflater_ok i' h' l' /\
    (rv = NGHTTP2_ERR_NOMEM /\ refused (fun _ => true) h h' \/
     rv = 14 /\ flags = NGHTTP2_HD_INFLATE_EMIT /\ exists n', n = Some n' /\ field_of n' = (chars ":authority", chars "www.example.com")).
Proof.
  destruct (inflate_init_spec (fun _ => true) no_heap (owned_nothing _)) as (rv0 & i & h & E & Hcase).
  assert (E0 : rv0 = 0) by (vm_compute in E; by injection E as <- _ _). subst rv0. exists i, h. split; [exact E|].
  destruct Hcase as [(_ & Hok & Hbad & Hf & _)|(? & _)]; [|done].
  destruct (inflate_refines_decoder (fun _ => true) (fun _ _ => NUL) i h [] first_decoder (drop 3 first_request) true Hok Hbad Hf)
    as (rv & n & flags & i' & h' & l' & E1 & Hok' & Hcall). exists rv, n, flags, i', h', l'. split; [exact E1|]. split; [exact Hok'|].
  destruct Hcall as [?|Hcall]; [by left|right].
  assert (Ed : decode_piece first_decoder (drop 3 first_request) = Some (Field ((chars ":authority", chars "www.example.com"), false) []
    (Decoder (Table 4096 [(chars ":authority", chars "www.example.com")]) 4096 UINT32_MAX Inside []))) by (vm_compute; reflexivity).
  rewrite Ed in Hcall. destruct Hcall as (_ & -> & -> & (n' & -> & En & _) & _). split; [reflexivity|]. split; [reflexivity|].
  exists n'. split; [reflexivity|]. exact (f_equal fst En).
Defined.
