(* ===== verification/HdLink.v ===== *)
(** * HPACK: two ends of a connection

    A deflater and an inflater with memories of their own; header blocks go from one
    to the other, cut into pieces on the way, and between blocks the limit of the
    table may be changed at both ends (SETTINGS_HEADER_TABLE_SIZE and its
    acknowledgement).  The receiver is [inflate_header_block] of
    [examples/deflate.c].

    [hpack_link_correct]: every block that the deflater can write is received as it
    was sent, field by field and with the sensitive ones marked, in every order of
    blocks and changes, with every cut, and whatever the two allocators do: the
    receiver fails only for lack of memory. *)

From stdpp Require Import gmap list.
From S2P Require Import Prelude CLib NgBuf HpackInt Rcbuf HdTable HdTableSpec HdDeflate HdInflate Hpack HpackParse HdDeflateSpec HdInflateSpec.

Record link := Link {
  lk_d : nghttp2_hd_deflater; lk_o : output;
  lk_i : nghttp2_hd_inflater; lk_h : heap
}.

Inductive event :=
| SendBlock (nva : list nghttp2_nv) (cuts : list nat)
| ChangeLimit (s : Z).

Inductive report :=
| Delivered (out : list nghttp2_nv)
| SendFailed (rv : Z)
| ReceiveFailed
| LimitChanged (rv_deflater rv_inflater : Z).

Section Receiver.
Context (malloc_ok : nat -> bool) (junk : nat -> nat -> char).

(** [inflate_header_block]: its result, and the fields it prints. *)
Fixpoint inflate_header_block (fuel : nat) (i : nghttp2_hd_inflater) (h : heap) (input : list char) (final : bool)
  : option (Z * list nghttp2_nv * nghttp2_hd_inflater * heap) :=
  match fuel with
  | O => None
  | S fuel =>
      r ← nghttp2_hd_inflate_hd3 malloc_ok junk i h input final;
      let '(rv, n, inflate_flags, i, h) := r in
      if rv <? 0 then Some (-1, [], i, h) else
      let input := drop (Z.to_nat rv) input in
      let emit := negb (Z.land inflate_flags NGHTTP2_HD_INFLATE_EMIT =? 0) in
      out ← (if emit then n ← n; Some [n] else Some []);
      if negb (Z.land inflate_flags NGHTTP2_HD_INFLATE_FINAL =? 0) then
        r ← nghttp2_hd_inflate_end_headers i h;
        let '(i, h) := r in Some (0, out, i, h)
      else if negb emit && bool_decide (input = []) then Some (0, out, i, h)
      else
        r ← inflate_header_block fuel i h input final;
        let '(rv, more, i, h) := r in Some (rv, out ++ more, i, h)
  end.

(** Every turn but the last takes a byte. *)
Definition header_block_fuel (input : list char) : nat := S (length input).

(** A block that comes in pieces. *)
Fixpoint inflate_pieces (i : nghttp2_hd_inflater) (h : heap) (cuts : list nat) (block : list char)
  : option (Z * list nghttp2_nv * nghttp2_hd_inflater * heap) :=
  match cuts with
  | [] => inflate_header_block (header_block_fuel block) i h block true
  | n :: cuts =>
      r ← inflate_header_block (header_block_fuel (take n block)) i h (take n block) false;
      let '(rv, out, i, h) := r in
      if negb (rv =? 0) then Some (rv, out, i, h) else
      r ← inflate_pieces i h cuts (drop n block);
      let '(rv, more, i, h) := r in Some (rv, out ++ more, i, h)
  end.
End Receiver.

Section Link.
Context (malloc_ok1 malloc_ok2 : nat -> bool) (junk1 junk2 : nat -> nat -> char).

Definition send_block (nva : list nghttp2_nv) (cuts : list nat) (k : link) : option (report * link) :=
  let '(b, m) := nghttp2_bufs_reset (fst (lk_o k)) (hmem (snd (lk_o k))) in
  r ← nghttp2_hd_deflate_hd_bufs malloc_ok1 junk1 (lk_d k) nva (b, Heap m (refs (snd (lk_o k))));
  let '(rv, d, o) := r in
  if negb (rv =? 0) then Some (SendFailed rv, Link d o (lk_i k) (lk_h k)) else
  r ← inflate_pieces malloc_ok2 junk2 (lk_i k) (lk_h k) cuts (contents (fst o));
  let '(rv, out, i, h) := r in
  Some (if rv =? 0 then Delivered out else ReceiveFailed, Link d o i h).

Definition change_limit (s : Z) (k : link) : option (report * link) :=
  r ← nghttp2_hd_deflate_change_table_size (lk_d k) s (snd (lk_o k));
  let '(rv1, d, h1) := r in
  r ← nghttp2_hd_inflate_change_table_size (lk_i k) s (lk_h k);
  let '(rv2, i, h) := r in
  Some (LimitChanged rv1 rv2, Link d (fst (lk_o k), h1) i h).

Definition link_step (e : event) (k : link) : option (report * link) :=
  match e with SendBlock nva cuts => send_block nva cuts k | ChangeLimit s => change_limit s k end.

(** A failure ends the connection. *)
Fixpoint link_run (es : list event) (k : link) : option (list report * link) :=
  match es with
  | [] => Some ([], k)
  | e :: es =>
      r ← link_step e k;
      let '(rep, k) := r in
      match rep with
      | SendFailed _ | ReceiveFailed => Some ([rep], k)
      | _ => r ← link_run es k; Some (rep :: fst r, snd r)
      end
  end.
End Link.

(** ** The receiver *)

(** What the application sees of a field. *)
Definition received (n : nghttp2_nv) : emitted := ((name n, value n), negb (flags n =? NGHTTP2_NV_FLAG_NONE)).

Section ReceiverSpec.
Context (malloc_ok : nat -> bool) (junk : nat -> nat -> char).

(** A receiver that has not failed. *)
Definition receiving (i : nghttp2_hd_inflater) (h : heap) (l : list entry) (a : decoder) : Prop :=
  inflater_ok i h l /\ bad (ctx i) = false /\ follows i l a.

Lemma receiving_waiting i h l a : receiving i h l a -> waiting a.
Proof.
  intros ([_ Hs] & Hb & []). destruct (Hs Hb) as [_ Hm]. specialize (tr_rest []). cbn [app] in tr_rest. by rewrite app_nil_r, Hm in tr_rest.
Qed.

(** What the receiver makes of a piece, if the reference decoder reads it as [d]. *)
Definition received_ok (h : heap) (l : list entry) (final : bool) (d : option (list emitted * decoder))
    (r : option (Z * list nghttp2_nv * nghttp2_hd_inflater * heap)) : Prop :=
  exists rv out i' h' l', r = Some (rv, out, i', h') /\ inflater_ok i' h' l' /\ blocks_besides h' l' = blocks_besides h l /\
    (requests (hmem h) <= requests (hmem h'))%nat /\
    (rv = -1 /\ (refused malloc_ok h h' \/ match d with None => True | Some (_, a') => final && negb (complete a') = true end) \/
     rv = 0 /\ exists es a', d = Some (es, a') /\ map received out = es /\ (final = true -> complete a' = true) /\
       receiving i' h' l' (if final then decoder_end a' else a')).

Lemma inflate_header_block_spec fuel : forall i h l a input final, receiving i h l a -> (length input < fuel)%nat ->
  received_ok h l final (decode_fields fuel a input) (inflate_header_block malloc_ok junk fuel i h input final).
Proof.
  induction fuel as [|fuel IH]; intros i h l a input final Hr Hf; [lia|]. cbn [inflate_header_block decode_fields].
  pose proof (receiving_waiting _ _ _ _ Hr) as Hw. destruct Hr as (Hok & Hbad & Hfol).
  destruct (inflate_call_spec malloc_ok junk i h l a input final Hok Hbad Hfol) as (rv & n & fl & i1 & h1 & l1 & E & Hok1 & Hbk1 & Hq1 & Hcall).
  unfold nghttp2_hd_inflate_hd3. rewrite E. cbn [mbind option_bind].
  destruct Hcall as [(-> & -> & -> & _ & Href)|Hcall].
  { do 3 eexists. exists h1, l1. split; [done|]. do 3 (split; [done|]). left. split; [done|by left]. }
  destruct (decode_piece a input) as [[e rest a1|a1|]|] eqn:Ed; cbn [call_ok] in Hcall; [| | |done].
  - destruct Hcall as ((p & Ep) & -> & -> & (n' & -> & He & _) & Hbad1 & Hfol1).
    destruct (decode_piece_field _ _ _ _ _ Hw Ed) as [Hw1 Hl]. rewrite (proj2 (Z.ltb_ge _ _)) by lia.
    change (negb (Z.land NGHTTP2_HD_INFLATE_EMIT NGHTTP2_HD_INFLATE_EMIT =? 0)) with true.
    change (negb (Z.land NGHTTP2_HD_INFLATE_EMIT NGHTTP2_HD_INFLATE_FINAL =? 0)) with false. cbn [fmap option_fmap option_map mbind option_bind andb negb].
    assert (Hrest : drop (Z.to_nat (Z.of_nat (length input - length rest))) input = rest).
    { rewrite Nat2Z.id, Ep, length_app. apply drop_app_length'. lia. }
    rewrite Hrest. destruct (IH i1 h1 l1 a1 rest final (conj Hok1 (conj Hbad1 Hfol1)) ltac:(lia)) as (rv & out & i2 & h2 & l2 & -> & Hok2 & Hbk2 & Hq2 & Hcase).
    cbn [mbind option_bind]. do 3 eexists. exists h2, l2. split; [done|]. split; [done|]. split; [congruence|]. split; [lia|].
    destruct Hcase as [(-> & Hc)|(-> & es & a2 & -> & Hout & Hc & Hr2)]; [left|right]; (split; [done|]).
    + destruct Hc as [Hc|Hc]; [left; by apply refused_mono with h1|right]. destruct (decode_fields fuel a1 rest) as [[]|]; done.
    + cbn [mbind option_bind fst snd]. exists (e :: es), a2. split; [done|]. split; [|done]. cbn [map app]. rewrite Hout. f_equal. exact He.
  - destruct Hcall as (-> & Hcase). destruct (final && negb (complete a1)) eqn:Ef.
    { destruct Hcase as (-> & -> & _). do 3 eexists. exists h1, l1. split; [done|]. do 3 (split; [done|]). left. split; [done|]. by right. }
    destruct Hcase as (-> & -> & Hbad1 & Hfol1). rewrite (proj2 (Z.ltb_ge _ _)) by lia.
    rewrite drop_ge by lia. rewrite bool_decide_true by done.
    destruct final.
    + change (negb (Z.land NGHTTP2_HD_INFLATE_FINAL NGHTTP2_HD_INFLATE_EMIT =? 0)) with false.
      change (negb (Z.land NGHTTP2_HD_INFLATE_FINAL NGHTTP2_HD_INFLATE_FINAL =? 0)) with true. cbn [mbind option_bind].
      cbn [andb] in Ef. apply negb_false_iff in Ef.
      destruct (end_headers_spec i1 h1 l1 a1 Hok1 Hbad1 Hfol1 Ef) as (i2 & h2 & -> & Hok2 & Hbad2 & Hbk2 & Hq2 & Hfol2). cbn [mbind option_bind].
      do 3 eexists. exists h2, l1. split; [done|]. split; [done|]. split; [congruence|]. split; [lia|]. right. split; [done|].
      exists [], a1. done.
    + cbn. do 3 eexists. exists h1, l1. split; [done|]. do 3 (split; [done|]). right. split; [done|]. exists [], a1. done.
  - destruct Hcall as (-> & -> & -> & _). do 3 eexists. exists h1, l1. split; [done|]. do 3 (split; [done|]). left. split; [done|by right].
Qed.

(** However a block is cut, it is read as a whole. *)
Lemma inflate_pieces_spec cuts : forall i h l a block f, receiving i h l a -> (length block < f)%nat ->
  received_ok h l true (decode_fields f a block) (inflate_pieces malloc_ok junk i h cuts block).
Proof.
  induction cuts as [|n cuts IH]; intros i h l a block f Hr Hf; cbn [inflate_pieces].
  - rewrite (decode_fields_fuel f (header_block_fuel block)) by (unfold header_block_fuel; try lia; by eapply receiving_waiting).
    apply inflate_header_block_spec; [done|unfold header_block_fuel; lia].
  - pose proof (receiving_waiting _ _ _ _ Hr) as Hw. set (x := take n block). set (y := drop n block).
    assert (Ex : block = x ++ y) by (symmetry; apply take_drop). assert (Hlen : (length x <= length block)%nat) by (unfold x; rewrite length_take; lia).
    assert (Hleny : (length y <= length block)%nat) by (unfold y; rewrite length_drop; lia).
    destruct (inflate_header_block_spec (header_block_fuel x) i h l a x false Hr) as (rv & out & i1 & h1 & l1 & -> & Hok1 & Hbk1 & Hq1 & Hcase);
      [unfold header_block_fuel; lia|]. cbn [mbind option_bind].
    rewrite (decode_fields_fuel (header_block_fuel x) f) in Hcase by (unfold header_block_fuel; (done || lia)).
    rewrite Ex, decode_fields_app by (done || by rewrite <- Ex).
    destruct Hcase as [(-> & Hc)|(-> & es & a1 & Ed & Hout & _ & Hr1)].
    + cbn [negb Z.eqb Pos.eqb]. change (negb (-1 =? 0)) with true. cbn iota. do 3 eexists. exists h1, l1. split; [done|]. do 3 (split; [done|]).
      left. split; [done|]. destruct Hc as [Hc|Hc]; [by left|right]. destruct (decode_fields f a x) as [[]|]; done.
    + cbn [negb Z.eqb]. destruct (IH i1 h1 l1 a1 y f Hr1 ltac:(lia)) as (rv & more & i2 & h2 & l2 & -> & Hok2 & Hbk2 & Hq2 & Hcase).
      cbn [mbind option_bind]. rewrite Ed. cbn [mbind option_bind fst snd]. do 3 eexists. exists h2, l2. split; [done|]. split; [done|].
      split; [congruence|]. split; [lia|]. destruct Hcase as [(-> & Hc)|(-> & es2 & a2 & -> & Hout2 & Hc & Hr2)]; [left|right]; (split; [done|]).
      * destruct Hc as [Hc|Hc]; [left; by apply refused_mono with h1|right]. destruct (decode_fields f a1 y) as [[]|]; done.
      * cbn [mbind option_bind fst snd]. exists (es ++ es2), a2. split; [done|]. split; [by rewrite map_app, Hout, Hout2|]. done.
Qed.
End ReceiverSpec.

(** ** Both ends *)

Section LinkSpec.
Context (malloc_ok1 malloc_ok2 : nat -> bool) (junk1 junk2 : nat -> nat -> char).

(** The two ends are in step, between blocks: the table of the receiver is that of
    the sender once the updates that are due are made, and they will be accepted. *)
Record in_step (d : nghttp2_hd_deflater) (l : list entry) (a : decoder) : Prop := {
  is_table : announced d l (dc_table a);
  is_pending : dc_pending a = [];
  is_phase : dc_phase a = Starting \/ dc_phase a = Expecting /\ notify_table_size_change d = true;
  is_min : d_min_bufsize_max d <= dc_min a;
  is_quiet : notify_table_size_change d = false -> d_min_bufsize_max d = UINT32_MAX;
  is_due : notify_table_size_change d = true ->
    0 <= d_min_bufsize_max d /\ (d_min_bufsize_max d <= hd_table_bufsize_max (d_ctx d) \/ t_dyn (dc_table a) = []);
  is_max : hd_table_bufsize_max (d_ctx d) <= dc_settings a;
  is_limit : 0 <= deflate_hd_table_bufsize_max d
}.

Definition sender_ok (k : link) (l : list entry) : Prop :=
  deflater_ok (lk_d k) (snd (lk_o k)) l /\ ready (lk_o k) /\ bad (d_ctx (lk_d k)) = false.

Definition link_ok (k : link) (l1 l2 : list entry) (a : decoder) : Prop :=
  sender_ok k l1 /\ receiving (lk_i k) (lk_h k) l2 a /\ in_step (lk_d k) l1 a.

(** The blocks of memory that are neither the sender's nor the receiver's. *)
Definition outside (k : link) (l1 l2 : list entry) : Z * Z := (loose (lk_o k) l1, blocks_besides (lk_h k) l2).

Lemma reset_requests b m : requests (snd (nghttp2_bufs_reset b m)) = requests m.
Proof.
  unfold nghttp2_bufs_reset. destruct (reset_chunks _ _ _) as [kept [rest|]]; [|done]. cbn [snd]. revert m.
  induction rest as [|x rest IH]; intros m; [done|]. cbn [fold_left]. rewrite IH. unfold buf_chain_del, nghttp2_buf_free, free. done.
Qed.

(** The chain is emptied before a block. *)
Lemma reset_output o d l : ready o -> deflater_ok d (snd o) l ->
  let '(b, m) := nghttp2_bufs_reset (fst o) (hmem (snd o)) in
  let o' := (b, Heap m (refs (snd o))) in
  ready o' /\ contents b = [] /\ deflater_ok d (snd o') l /\ loose o' l = loose o l /\ requests m = requests (hmem (snd o)).
Proof.
  intros [W R] [H Ht]. pose proof (reset_spec (fst o) (hmem (snd o)) W) as Hs. pose proof (reset_requests (fst o) (hmem (snd o))) as Hq.
  destruct (nghttp2_bufs_reset (fst o) (hmem (snd o))) as [b m]. cbn [snd] in Hq. destruct Hs as (Hw & Hc & Ho & _ & _ & _ & Hr). cbv zeta. cbn [fst snd].
  split; [split; [done|by apply Hr]|]. split; [done|]. split.
  - split; [|done]. apply ctx_heap with (snd o) []; [done| |cbn; lia]. pose proof (ctx_owned _ _ _ _ _ H) as Hown. by apply owned_mem; [destruct (snd o)|lia].
  - split; [|done]. unfold loose. cbn [fst snd refs hmem]. by rewrite Ho.
Qed.

(** Every event is possible: the fields fit on the wire, the limit in 2^30. *)
Definition event_ok (e : event) : Prop :=
  match e with SendBlock nva _ => Forall sendable nva | ChangeLimit s => 0 <= s <= 2 ^ 30 end.

Lemma represents_fields nva rs : Forall2 represents nva rs -> Forall of_field rs.
Proof. induction 1 as [|n r nva rs [Hr _] _ IH]; by constructor. Qed.

Lemma updates_in_step d h l a : deflater_ok d h l -> in_step d l a -> updates_ok a (updates d) /\ Forall (fun n => n <= UINT32_MAX) (updates d).
Proof.
  intros [H _] []. pose proof (ctx_max _ _ _ _ _ H). unfold updates, updates_ok. destruct (notify_table_size_change d).
  - destruct (Z.ltb_spec (d_min_bufsize_max d) (hd_table_bufsize_max (d_ctx d))); cbn [app]; unfold UINT32_MAX.
    + split; [split; [by destruct is_phase0 as [->|[-> _]]|]; split; [lia|]; repeat constructor; lia|repeat constructor; lia].
    + split; [split; [by destruct is_phase0 as [->|[-> _]]|]; split; [lia|]; repeat constructor; lia|repeat constructor; lia].
  - split; [by destruct is_phase0 as [->|[_ ?]]|constructor].
Qed.

(** Sending a block. *)
Lemma send_block_spec nva cuts k l1 l2 a : link_ok k l1 l2 a -> Forall sendable nva ->
  exists rep k' l1' l2' a', send_block malloc_ok1 malloc_ok2 junk1 junk2 nva cuts k = Some (rep, k') /\ outside k' l1' l2' = outside k l1 l2 /\
    (requests (hmem (lk_h k)) <= requests (hmem (lk_h k')))%nat /\
    match rep with
    | Delivered out => map received out = map emission nva /\ link_ok k' l1' l2' a' /\ dc_table a' = table_of (d_ctx (lk_d k')) l1'
    | SendFailed rv => rv <> 0
    | ReceiveFailed => refused malloc_ok2 (lk_h k) (lk_h k')
    | LimitChanged _ _ => False
    end.
Proof.
  intros ((Hd & Hready & Hbad) & Hrec & Hstep) Hs. unfold send_block. pose proof (reset_output (lk_o k) (lk_d k) l1 Hready Hd) as Hreset.
  destruct (nghttp2_bufs_reset _ _) as [b m]. cbv zeta in Hreset. destruct Hreset as (Hready0 & Hempty & Hd0 & Hloose0 & _).
  set (o0 := (b, Heap m (refs (snd (lk_o k))))) in *.
  destruct (deflate_block_spec malloc_ok1 junk1 (lk_d k) o0 l1 (dc_table a) nva Hd0 Hready0 Hbad (is_table _ _ _ Hstep) Hs)
    as (rv & d' & o' & l1' & p & E & Hready' & Hc & Hd' & Hloose' & _ & _ & Hset & Hok). rewrite E. cbn [mbind option_bind].
  assert (Hout1 : loose o' l1' = loose (lk_o k) l1) by congruence. cbn [fst snd o0] in Hc. rewrite Hempty in Hc. cbn [app] in Hc.
  destruct (Z.eqb_spec rv 0) as [->|Hrv]; cbn [negb].
  2: { exists (SendFailed rv). eexists. exists l1', l2, a. split; [done|]. split; [unfold outside; cbn; by rewrite Hout1|]. by split; cbn. }
  destruct (Hok eq_refl) as (rs & Hp & Hf2 & Hm). destruct (updates_in_step _ _ _ _ Hd Hstep) as [Hu Hu32].
  destruct Hset as (Emax & Ebad & Elim & Ent & Emt & Emf).
  assert (Hph : dc_phase a <> Inside) by (by destruct (is_phase _ _ _ Hstep) as [->|[-> _]]).
  destruct (decode_block (updates (lk_d k)) rs p a (S (length p)) _ _ Hp (represents_fields _ _ Hf2) Hu Hu32 Hph (is_pending _ _ _ Hstep) Hm ltac:(lia)) as (ph & Hphase & Hdec).
  set (a1 := Decoder _ _ _ ph []) in Hdec.
  destruct (inflate_pieces_spec malloc_ok2 junk2 cuts (lk_i k) (lk_h k) l2 a p (S (length p)) Hrec ltac:(lia)) as (rv & out & i' & h' & l2' & Ei & Hi' & Hbk & Hq & Hcase).
  rewrite Hc, Ei. cbn [mbind option_bind]. rewrite Hdec in Hcase.
  assert (Hout : outside (Link d' o' i' h') l1' l2' = outside k l1 l2) by (unfold outside; cbn; by rewrite Hout1, Hbk).
  assert (Hcomp : complete a1 = true) by (by destruct ph).
  destruct Hcase as [(-> & [Href|Hno])|(-> & es & a2 & [= <- <-] & Hes & _ & Hrec')].
  - exists ReceiveFailed. eexists. exists l1', l2', a. split; [done|]. done.
  - rewrite Hcomp in Hno. done.
  - exists (Delivered out). eexists. exists l1', l2', (decoder_end a1). split; [done|]. split; [done|]. split; [done|]. split; [done|].
    split; [|done]. split; [by split|]. split; [done|]. cbn [lk_d].
    assert (Emin : d_min_bufsize_max d' = UINT32_MAX).
    { destruct (notify_table_size_change (lk_d k)) eqn:En; [by apply Emt|]. rewrite (Emf eq_refl). by apply (is_quiet _ _ _ Hstep). }
    constructor; cbn [decoder_end dc_table dc_pending dc_phase dc_min dc_settings a1].
    + unfold announced. by rewrite Ent.
    + done.
    + by left.
    + rewrite Emin. pose proof (is_min _ _ _ Hstep) as Hmin. unfold updates. destruct (notify_table_size_change (lk_d k)) eqn:En.
      * by destruct (_ <? _).
      * by rewrite <- (is_quiet _ _ _ Hstep En).
    + done.
    + by rewrite Ent.
    + rewrite Emax. apply (is_max _ _ _ Hstep).
    + rewrite Elim. apply (is_limit _ _ _ Hstep).
Qed.

(** Changing the limit at both ends. *)
Lemma change_limit_spec s k l1 l2 a : link_ok k l1 l2 a -> 0 <= s <= 2 ^ 30 ->
  exists k' l1' l2' a', change_limit s k = Some (LimitChanged 0 0, k') /\ outside k' l1' l2' = outside k l1 l2 /\
    requests (hmem (lk_h k')) = requests (hmem (lk_h k)) /\ link_ok k' l1' l2' a'.
Proof.
  intros ((Hd & Hready & Hbad) & (Hi & Hibad & Hfol) & Hstep) Hs. pose proof Hstep as []. unfold change_limit.
  destruct (deflate_change_spec (lk_d k) s (snd (lk_o k)) l1 (dc_table a) Hd is_table0 Hs is_limit0) as
    (d' & h1 & l1' & -> & Hd' & Hbk1 & Hq1 & Ebad & Elim & Ent & Emax & Emin & Efl); [intros En; apply is_due0, En|]. cbn [mbind option_bind].
  destruct (inflate_change_spec (lk_i k) (lk_h k) l2 a s Hi Hibad Hfol Hs) as (rv & i' & h' & l2' & -> & Hi' & Hibad' & Hbk2 & Hq2 & Hcase). cbn [mbind option_bind].
  assert (Ebet : between_blocks a = true).
  { unfold between_blocks. rewrite is_pending0, bool_decide_true by done. by destruct is_phase0 as [->|[-> _]]. }
  rewrite Ebet in Hcase. destruct Hcase as [-> Hfol']. eexists. exists l1', l2', (decoder_limit s a). split; [done|].
  split.
  { unfold outside. cbn. f_equal; [|done]. unfold loose, blocks_besides, spare, others in *. cbn [fst snd]. lia. }
  split; [done|]. split; [split; [done|]; split; [done|]; cbn; congruence|]. split; [done|]. cbn [lk_d].
  pose proof (ctx_max _ _ _ _ _ (proj1 Hd)) as Hmax.
  set (next := Z.min s (deflate_hd_table_bufsize_max (lk_d k))) in *. rewrite Emax in Emin, Efl.
  assert (Hnext : 0 <= next <= 2 ^ 30 /\ next <= s) by lia.
  assert (Hpos : 0 <= d_min_bufsize_max (lk_d k)).
  { destruct (notify_table_size_change (lk_d k)) eqn:En; [by apply is_due0|]. by rewrite is_quiet0. }
  assert (Hfit : fit (d_min_bufsize_max d') (t_dyn (dc_table a)) = fields l1').
  { rewrite Efl, Emin. unfold announced in is_table0. destruct (notify_table_size_change (lk_d k)) eqn:En.
    - destruct is_table0 as [<- _]. rewrite fit_fit. destruct (is_due0 eq_refl) as [_ [Hdue|Hdue]]; [f_equal; lia|by rewrite Hdue].
    - rewrite is_table0, is_quiet0 by done. cbn. f_equal. unfold UINT32_MAX. lia. }
  assert (Edyn : fit (d_min_bufsize_max d') (t_dyn (dc_table (decoder_limit s a))) = fields l1').
  { unfold decoder_limit. destruct (s <? _); cbn; [|done]. rewrite fit_fit, <- Hfit. f_equal. lia. }
  constructor.
  - unfold announced. rewrite Ent, Emax. split; [rewrite <- Edyn; f_equal; lia|unfold UINT32_MAX; lia].
  - unfold decoder_limit. by destruct (s <? _).
  - unfold decoder_limit. destruct (s <? _); cbn; [by right|]. destruct is_phase0 as [?|[? _]]; [by left|by right].
  - unfold decoder_limit. destruct (s <? _); cbn; lia.
  - by rewrite Ent.
  - intros _. rewrite Emax. split; [lia|]. left. lia.
  - rewrite Emax. unfold decoder_limit. destruct (s <? _); cbn; lia.
  - by rewrite Elim.
Qed.

(** An event that went well. *)
Definition went_well (e : event) (r : report) : Prop :=
  match e, r with
  | SendBlock nva _, Delivered out => map received out = map emission nva
  | ChangeLimit _, LimitChanged rv1 rv2 => rv1 = 0 /\ rv2 = 0
  | _, _ => False
  end.

(** How a connection may fail: the sender cannot write a block, or the receiver is
    refused memory. *)
Definition gave_up (k k' : link) (e : event) (r : report) : Prop :=
  match e, r with
  | SendBlock _ _, SendFailed rv => rv <> 0
  | SendBlock _ _, ReceiveFailed => refused malloc_ok2 (lk_h k) (lk_h k')
  | _, _ => False
  end.

Definition run_ok (k k' : link) (es : list event) (reps : list report) : Prop :=
  Forall2 went_well es reps /\ (exists l1 l2 a, link_ok k' l1 l2 a) \/
  exists es1 e es2 reps1 r, es = es1 ++ e :: es2 /\ reps = reps1 ++ [r] /\ Forall2 went_well es1 reps1 /\ gave_up k k' e r.

Lemma run_ok_cons k k1 k' e es r reps : (requests (hmem (lk_h k)) <= requests (hmem (lk_h k1)))%nat -> went_well e r ->
  run_ok k1 k' es reps -> run_ok k k' (e :: es) (r :: reps).
Proof.
  intros Hq Hw [[H1 H2]|(es1 & e1 & es2 & reps1 & r1 & -> & -> & H1 & H2)]; [left; split; [by constructor|done]|right].
  exists (e :: es1), e1, es2, (r :: reps1), r1. do 2 (split; [done|]). split; [by constructor|].
  destruct e1, r1; try done. cbn in *. by apply refused_mono with (lk_h k1).
Qed.

Lemma link_run_spec es : forall k l1 l2 a, link_ok k l1 l2 a -> Forall event_ok es ->
  exists reps k' l1' l2', link_run malloc_ok1 malloc_ok2 junk1 junk2 es k = Some (reps, k') /\ outside k' l1' l2' = outside k l1 l2 /\
    run_ok k k' es reps.
Proof.
  induction es as [|e es IH]; intros k l1 l2 a Hk Hes; cbn [link_run].
  { exists [], k, l1, l2. split; [done|]. split; [done|]. left. split; [constructor|]. by exists l1, l2, a. }
  inversion Hes as [|? ? He Hes']; subst. destruct e as [nva cuts|s]; cbn [link_step event_ok] in *.
  - destruct (send_block_spec nva cuts k l1 l2 a Hk He) as (rep & k1 & l1' & l2' & a' & -> & Hout & Hq & Hrep). cbn [mbind option_bind].
    destruct rep as [out|rv| |rv1 rv2]; [| | |done].
    + destruct Hrep as (Hr & Hk1 & _). destruct (IH k1 l1' l2' a' Hk1 Hes') as (reps & k' & l1'' & l2'' & -> & Hout' & Hrun). cbn [mbind option_bind fst snd].
      do 2 eexists. exists l1'', l2''. split; [done|]. split; [congruence|]. by apply run_ok_cons with k1.
    + do 2 eexists. exists l1', l2'. split; [done|]. split; [done|]. right. by exists [], (SendBlock nva cuts), es, [], (SendFailed rv).
    + do 2 eexists. exists l1', l2'. split; [done|]. split; [done|]. right. by exists [], (SendBlock nva cuts), es, [], ReceiveFailed.
  - destruct (change_limit_spec s k l1 l2 a Hk He) as (k1 & l1' & l2' & a' & -> & Hout & Hq & Hk1). cbn [mbind option_bind].
    destruct (IH k1 l1' l2' a' Hk1 Hes') as (reps & k' & l1'' & l2'' & -> & Hout' & Hrun). cbn [mbind option_bind fst snd].
    do 2 eexists. exists l1'', l2''. split; [done|]. split; [congruence|]. apply run_ok_cons with k1; [lia|done|done].
Qed.

(** A new connection. *)
Definition link_start (max : Z) (o : output) (h : heap) : option (Z * Z * link) :=
  r ← nghttp2_hd_deflate_init2 malloc_ok1 max (snd o);
  let '(rv1, d, h1) := r in
  r ← nghttp2_hd_inflate_init malloc_ok2 h;
  let '(rv2, i, h2) := r in
  Some (rv1, rv2, Link d (fst o, h1) i h2).

Lemma link_start_spec max o h k : 0 <= max <= 2 ^ 30 -> ready o -> owned (snd o) [] -> owned h [] ->
  link_start max o h = Some (0, 0, k) -> link_ok k [] [] first_decoder.
Proof.
  intros Hmax Hready Ho1 Ho2. unfold link_start.
  destruct (deflate_init_spec malloc_ok1 max (snd o) Hmax Ho1) as (rv1 & d & h1 & -> & H1). cbn [mbind option_bind].
  destruct (inflate_init_spec malloc_ok2 h Ho2) as (rv2 & i & h2 & -> & H2). cbn [mbind option_bind]. intros [= -> -> <-].
  destruct H1 as [(_ & Hd & Hbad & Elim & Emin & Emax & Ent & _)|(? & _)]; [|done].
  destruct H2 as [(_ & Hi & Hibad & Hfol & _)|(? & _)]; [|done].
  split; [split; [done|]; by split|]. split; [by split|]. cbn [lk_d]. unfold NGHTTP2_HD_DEFAULT_MAX_BUFFER_SIZE in *.
  constructor; cbn [first_decoder dc_table dc_pending dc_phase dc_min dc_settings t_dyn]; unfold NGHTTP2_HD_DEFAULT_MAX_BUFFER_SIZE.
  - unfold announced. rewrite Ent. destruct (Z.ltb_spec max 4096).
    + split; [done|]. rewrite Emin. unfold UINT32_MAX. lia.
    + unfold table_of. rewrite Emax. cbn. f_equal. lia.
  - done.
  - by left.
  - rewrite Emin. lia.
  - by intros _.
  - intros _. rewrite Emin. split; [unfold UINT32_MAX; lia|by right].
  - lia.
  - lia.
Qed.

(** C29: HPACK works: what the deflater sends the inflater receives.  On a new
    connection, for all sequences of header blocks and of changes of the table limit
    at both ends, every block that the deflater can write arrives as it was sent: the
    same fields in the same order, those that must not be indexed marked as such,
    however the block is cut into pieces on the way, and the tables of the two ends
    stay in step.  The inflater fails only when it is refused memory, and neither end
    loses a block of memory, reads or writes outside its buffers or tables, or
    miscounts a reference. *)
Theorem hpack_link_correct max o h k es : 0 <= max <= 2 ^ 30 -> ready o -> owned (snd o) [] -> owned h [] ->
  link_start max o h = Some (0, 0, k) -> Forall event_ok es ->
  exists reps k' l1 l2, link_run malloc_ok1 malloc_ok2 junk1 junk2 es k = Some (reps, k') /\ outside k' l1 l2 = outside k [] [] /\
    run_ok k k' es reps.
Proof.
  intros Hmax Hready Ho1 Ho2 Hk Hes. apply link_run_spec with first_decoder; [|done]. by apply link_start_spec with max o h.
Qed.
End LinkSpec.

(** ** A connection *)

Definition always : nat -> bool := fun _ => true.
Definition blank : nat -> nat -> char := fun _ _ => NUL.
Definition field_nv (n v : String.string) : nghttp2_nv := Nv (chars n) (chars v) NGHTTP2_NV_FLAG_NONE.
Definition secret_nv (n v : String.string) : nghttp2_nv := Nv (chars n) (chars v) NGHTTP2_NV_FLAG_NO_INDEX.

(** Two requests, the limit lowered and raised again between them. *)
Definition request1 : list nghttp2_nv :=
  [field_nv ":scheme" "https"; field_nv ":authority" "example.org"; field_nv "user-agent" "libnghttp2"; secret_nv "x-key" "0123456789"].
Definition request2 : list nghttp2_nv :=
  [field_nv ":scheme" "https"; field_nv ":authority" "example.org"; field_nv "user-agent" "libnghttp2"; field_nv "cookie" "a=b"].
Definition events : list event :=
  [SendBlock request1 [3%nat; 0%nat; 20%nat]; ChangeLimit 64; ChangeLimit 4096; SendBlock request2 [1%nat; 1%nat]; SendBlock request2 []].

Definition idle_heap : heap := Heap (Mem 0 0) ∅.
Definition started : option (Z * Z * link) := link_start always always 4096 (chain64, Heap (Mem 0 2) ∅) idle_heap.

Example delivered : 
  match started with
  | Some (0, 0, k) => fst <$> link_run always always blank blank events k
  | _ => None
  end = Some [Delivered request1; LimitChanged 0 0; LimitChanged 0 0;
              Delivered (take 3 request2 ++ [secret_nv "cookie" "a=b"]); Delivered (take 3 request2 ++ [secret_nv "cookie" "a=b"])].
Proof. vm_compute. reflexivity. Qed.

Lemma hpack_link_correct_witness : exists k, started = Some (0, 0, k) /\
  exists reps k' l1 l2, link_run always always blank blank events k = Some (reps, k') /\ outside k' l1 l2 = outside k [] [] /\
    run_ok always k k' events reps.
Proof.
  eexists. split; [vm_compute; reflexivity|].
  apply (hpack_link_correct always always blank blank 4096 (chain64, Heap (Mem 0 2) ∅) idle_heap);
    [lia| |apply owned_nothing|apply owned_nothing|vm_compute; reflexivity|].
  - apply chain64_ready.
  - repeat constructor; vm_compute; done.
Defined.
