(* ===== verification/NgHelper.v ===== *)
(** * The helpers of nghttp2: [nghttp2_helper.c]

    Integers in network byte order, the tables that say which characters a name, a
    value, a method, a path or an authority may have, and the arithmetic of the
    receiver's flow-control windows.  [nghttp2_cpymem] is part of NgBuf.v; the two
    functions from error codes to messages are left out.

    Bytes are read from a list; reading behind its end makes the result [None], and so
    does a failing [assert] or an overflow of a signed integer. *)

From stdpp Require Import list.
From S2P Require Import Prelude CLib NgBuf HuffTable Huffman HuffSpec HpackInt NgStream.

(** ** Network byte order *)

Definition nghttp2_put_uint16be (n : Z) : list char := [uint8 (Z.shiftr n 8); uint8 n].

Definition nghttp2_put_uint32be (n : Z) : list char := be32 n.

Definition nghttp2_get_uint16 (data : list char) : option Z :=
  match data with
  | a :: b :: _ => Some (bval a * 2 ^ 8 + bval b)
  | _ => None
  end.

Definition nghttp2_get_uint32 (data : list char) : option Z :=
  match data with
  | a :: b :: c :: d :: _ => Some (bval a * 2 ^ 24 + bval b * 2 ^ 16 + bval c * 2 ^ 8 + bval d)
  | _ => None
  end.

(** ** Characters *)

Definition DOWNCASE_TBL : list Z := [
  0; 1; 2; 3; 4; 5; 6; 7; 8; 9; 10; 11; 12; 13; 14; 15;
  16; 17; 18; 19; 20; 21; 22; 23; 24; 25; 26; 27; 28; 29; 30; 31;
  32; 33; 34; 35; 36; 37; 38; 39; 40; 41; 42; 43; 44; 45; 46; 47;
  48; 49; 50; 51; 52; 53; 54; 55; 56; 57; 58; 59; 60; 61; 62; 63;
  64; 97; 98; 99; 100; 101; 102; 103; 104; 105; 106; 107; 108; 109; 110; 111;
  112; 113; 114; 115; 116; 117; 118; 119; 120; 121; 122; 91; 92; 93; 94; 95;
  96; 97; 98; 99; 100; 101; 102; 103; 104; 105; 106; 107; 108; 109; 110; 111;
  112; 113; 114; 115; 116; 117; 118; 119; 120; 121; 122; 123; 124; 125; 126; 127;
  128; 129; 130; 131; 132; 133; 134; 135; 136; 137; 138; 139; 140; 141; 142; 143;
  144; 145; 146; 147; 148; 149; 150; 151; 152; 153; 154; 155; 156; 157; 158; 159;
  160; 161; 162; 163; 164; 165; 166; 167; 168; 169; 170; 171; 172; 173; 174; 175;
  176; 177; 178; 179; 180; 181; 182; 183; 184; 185; 186; 187; 188; 189; 190; 191;
  192; 193; 194; 195; 196; 197; 198; 199; 200; 201; 202; 203; 204; 205; 206; 207;
  208; 209; 210; 211; 212; 213; 214; 215; 216; 217; 218; 219; 220; 221; 222; 223;
  224; 225; 226; 227; 228; 229; 230; 231; 232; 233; 234; 235; 236; 237; 238; 239;
  240; 241; 242; 243; 244; 245; 246; 247; 248; 249; 250; 251; 252; 253; 254; 255
].

(** [tbl[c]] *)
Definition of_table {A} (tbl : list A) (c : char) : option A := tbl !! Z.to_nat (bval c).

Fixpoint nghttp2_downcase (s : list char) : option (list char) :=
  match s with
  | [] => Some []
  | c :: s => x ← of_table DOWNCASE_TBL c; s ← nghttp2_downcase s; Some (uint8 x :: s)
  end.

(** The loop of the checks: every character is marked in the table. *)
Fixpoint all_in (tbl : list Z) (s : list char) : option bool :=
  match s with
  | [] => Some true
  | c :: s => x ← of_table tbl c; if x =? 0 then Some false else all_in tbl s
  end.

Definition VALID_HD_NAME_CHARS : list Z := [
  0; 0; 0; 0; 0; 0; 0; 0; 0; 0; 0; 0; 0; 0; 0; 0; 0; 0; 0; 0; 0; 0; 0; 0; 0; 0; 0; 0; 0; 0; 0; 0;
  0; 1; 0; 1; 1; 1; 1; 1; 0; 0; 1; 1; 0; 1; 1; 0; 1; 1; 1; 1; 1; 1; 1; 1; 1; 1; 0; 0; 0; 0; 0; 0;
  0; 0; 0; 0; 0; 0; 0; 0; 0; 0; 0; 0; 0; 0; 0; 0; 0; 0; 0; 0; 0; 0; 0; 0; 0; 0; 0; 0; 0; 0; 1; 1;
  1; 1; 1; 1; 1; 1; 1; 1; 1; 1; 1; 1; 1; 1; 1; 1; 1; 1; 1; 1; 1; 1; 1; 1; 1; 1; 1; 0; 1; 0; 1; 0;
  0; 0; 0; 0; 0; 0; 0; 0; 0; 0; 0; 0; 0; 0; 0; 0; 0; 0; 0; 0; 0; 0; 0; 0; 0; 0; 0; 0; 0; 0; 0; 0;
  0; 0; 0; 0; 0; 0; 0; 0; 0; 0; 0; 0; 0; 0; 0; 0; 0; 0; 0; 0; 0; 0; 0; 0; 0; 0; 0; 0; 0; 0; 0; 0;
  0; 0; 0; 0; 0; 0; 0; 0; 0; 0; 0; 0; 0; 0; 0; 0; 0; 0; 0; 0; 0; 0; 0; 0; 0; 0; 0; 0; 0; 0; 0; 0;
  0; 0; 0; 0; 0; 0; 0; 0; 0; 0; 0; 0; 0; 0; 0; 0; 0; 0; 0; 0; 0; 0; 0; 0; 0; 0; 0; 0; 0; 0; 0; 0
].

Definition VALID_HD_VALUE_CHARS : list Z := [
  0; 0; 0; 0; 0; 0; 0; 0; 0; 1; 0; 0; 0; 0; 0; 0; 0; 0; 0; 0; 0; 0; 0; 0; 0; 0; 0; 0; 0; 0; 0; 0;
  1; 1; 1; 1; 1; 1; 1; 1; 1; 1; 1; 1; 1; 1; 1; 1; 1; 1; 1; 1; 1; 1; 1; 1; 1; 1; 1; 1; 1; 1; 1; 1;
  1; 1; 1; 1; 1; 1; 1; 1; 1; 1; 1; 1; 1; 1; 1; 1; 1; 1; 1; 1; 1; 1; 1; 1; 1; 1; 1; 1; 1; 1; 1; 1;
  1; 1; 1; 1; 1; 1; 1; 1; 1; 1; 1; 1; 1; 1; 1; 1; 1; 1; 1; 1; 1; 1; 1; 1; 1; 1; 1; 1; 1; 1; 1; 0;
  1; 1; 1; 1; 1; 1; 1; 1; 1; 1; 1; 1; 1; 1; 1; 1; 1; 1; 1; 1; 1; 1; 1; 1; 1; 1; 1; 1; 1; 1; 1; 1;
  1; 1; 1; 1; 1; 1; 1; 1; 1; 1; 1; 1; 1; 1; 1; 1; 1; 1; 1; 1; 1; 1; 1; 1; 1; 1; 1; 1; 1; 1; 1; 1;
  1; 1; 1; 1; 1; 1; 1; 1; 1; 1; 1; 1; 1; 1; 1; 1; 1; 1; 1; 1; 1; 1; 1; 1; 1; 1; 1; 1; 1; 1; 1; 1;
  1; 1; 1; 1; 1; 1; 1; 1; 1; 1; 1; 1; 1; 1; 1; 1; 1; 1; 1; 1; 1; 1; 1; 1; 1; 1; 1; 1; 1; 1; 1; 1
].

Definition VALID_METHOD_CHARS : list Z := [
  0; 0; 0; 0; 0; 0; 0; 0; 0; 0; 0; 0; 0; 0; 0; 0; 0; 0; 0; 0; 0; 0; 0; 0; 0; 0; 0; 0; 0; 0; 0; 0;
  0; 1; 0; 1; 1; 1; 1; 1; 0; 0; 1; 1; 0; 1; 1; 0; 1; 1; 1; 1; 1; 1; 1; 1; 1; 1; 0; 0; 0; 0; 0; 0;
  0; 1; 1; 1; 1; 1; 1; 1; 1; 1; 1; 1; 1; 1; 1; 1; 1; 1; 1; 1; 1; 1; 1; 1; 1; 1; 1; 0; 0; 0; 1; 1;
  1; 1; 1; 1; 1; 1; 1; 1; 1; 1; 1; 1; 1; 1; 1; 1; 1; 1; 1; 1; 1; 1; 1; 1; 1; 1; 1; 0; 1; 0; 1; 0;
  0; 0; 0; 0; 0; 0; 0; 0; 0; 0; 0; 0; 0; 0; 0; 0; 0; 0; 0; 0; 0; 0; 0; 0; 0; 0; 0; 0; 0; 0; 0; 0;
  0; 0; 0; 0; 0; 0; 0; 0; 0; 0; 0; 0; 0; 0; 0; 0; 0; 0; 0; 0; 0; 0; 0; 0; 0; 0; 0; 0; 0; 0; 0; 0;
  0; 0; 0; 0; 0; 0; 0; 0; 0; 0; 0; 0; 0; 0; 0; 0; 0; 0; 0; 0; 0; 0; 0; 0; 0; 0; 0; 0; 0; 0; 0; 0;
  0; 0; 0; 0; 0; 0; 0; 0; 0; 0; 0; 0; 0; 0; 0; 0; 0; 0; 0; 0; 0; 0; 0; 0; 0; 0; 0; 0; 0; 0; 0; 0
].

Definition VALID_PATH_CHARS : list Z := [
  0; 0; 0; 0; 0; 0; 0; 0; 0; 0; 0; 0; 0; 0; 0; 0; 0; 0; 0; 0; 0; 0; 0; 0; 0; 0; 0; 0; 0; 0; 0; 0;
  0; 1; 1; 1; 1; 1; 1; 1; 1; 1; 1; 1; 1; 1; 1; 1; 1; 1; 1; 1; 1; 1; 1; 1; 1; 1; 1; 1; 1; 1; 1; 1;
  1; 1; 1; 1; 1; 1; 1; 1; 1; 1; 1; 1; 1; 1; 1; 1; 1; 1; 1; 1; 1; 1; 1; 1; 1; 1; 1; 1; 1; 1; 1; 1;
  1; 1; 1; 1; 1; 1; 1; 1; 1; 1; 1; 1; 1; 1; 1; 1; 1; 1; 1; 1; 1; 1; 1; 1; 1; 1; 1; 1; 1; 1; 1; 0;
  1; 1; 1; 1; 1; 1; 1; 1; 1; 1; 1; 1; 1; 1; 1; 1; 1; 1; 1; 1; 1; 1; 1; 1; 1; 1; 1; 1; 1; 1; 1; 1;
  1; 1; 1; 1; 1; 1; 1; 1; 1; 1; 1; 1; 1; 1; 1; 1; 1; 1; 1; 1; 1; 1; 1; 1; 1; 1; 1; 1; 1; 1; 1; 1;
  1; 1; 1; 1; 1; 1; 1; 1; 1; 1; 1; 1; 1; 1; 1; 1; 1; 1; 1; 1; 1; 1; 1; 1; 1; 1; 1; 1; 1; 1; 1; 1;
  1; 1; 1; 1; 1; 1; 1; 1; 1; 1; 1; 1; 1; 1; 1; 1; 1; 1; 1; 1; 1; 1; 1; 1; 1; 1; 1; 1; 1; 1; 1; 1
].

Definition VALID_AUTHORITY_CHARS : list Z := [
  0; 0; 0; 0; 0; 0; 0; 0; 0; 0; 0; 0; 0; 0; 0; 0; 0; 0; 0; 0; 0; 0; 0; 0; 0; 0; 0; 0; 0; 0; 0; 0;
  0; 1; 0; 0; 1; 1; 1; 1; 1; 1; 1; 1; 1; 1; 1; 0; 1; 1; 1; 1; 1; 1; 1; 1; 1; 1; 1; 1; 0; 1; 0; 0;
  1; 1; 1; 1; 1; 1; 1; 1; 1; 1; 1; 1; 1; 1; 1; 1; 1; 1; 1; 1; 1; 1; 1; 1; 1; 1; 1; 1; 0; 1; 0; 1;
  0; 1; 1; 1; 1; 1; 1; 1; 1; 1; 1; 1; 1; 1; 1; 1; 1; 1; 1; 1; 1; 1; 1; 1; 1; 1; 1; 0; 0; 0; 1; 0;
  0; 0; 0; 0; 0; 0; 0; 0; 0; 0; 0; 0; 0; 0; 0; 0; 0; 0; 0; 0; 0; 0; 0; 0; 0; 0; 0; 0; 0; 0; 0; 0;
  0; 0; 0; 0; 0; 0; 0; 0; 0; 0; 0; 0; 0; 0; 0; 0; 0; 0; 0; 0; 0; 0; 0; 0; 0; 0; 0; 0; 0; 0; 0; 0;
  0; 0; 0; 0; 0; 0; 0; 0; 0; 0; 0; 0; 0; 0; 0; 0; 0; 0; 0; 0; 0; 0; 0; 0; 0; 0; 0; 0; 0; 0; 0; 0;
  0; 0; 0; 0; 0; 0; 0; 0; 0; 0; 0; 0; 0; 0; 0; 0; 0; 0; 0; 0; 0; 0; 0; 0; 0; 0; 0; 0; 0; 0; 0; 0
].

Definition nghttp2_check_header_name (name : list char) : option bool :=
  match name with
  | [] => Some false
  | c :: rest =>
      if Ascii.eqb c ":" then
        match rest with [] => Some false | _ => all_in VALID_HD_NAME_CHARS rest end
      else all_in VALID_HD_NAME_CHARS name
  end.

Definition nghttp2_check_header_value (value : list char) : option bool := all_in VALID_HD_VALUE_CHARS value.

(** Space or tab *)
Definition is_ws (c : char) : bool := Ascii.eqb c " " || Ascii.eqb c "009".

Definition nghttp2_check_header_value_rfc9113 (value : list char) : option bool :=
  match value with
  | [] => Some true
  | c :: _ =>
      l ← list.last value;
      if is_ws c || is_ws l then Some false else nghttp2_check_header_value value
  end.

Definition nghttp2_check_method (value : list char) : option bool :=
  match value with [] => Some false | _ => all_in VALID_METHOD_CHARS value end.

Definition nghttp2_check_path (value : list char) : option bool := all_in VALID_PATH_CHARS value.

Definition nghttp2_check_authority (value : list char) : option bool := all_in VALID_AUTHORITY_CHARS value.

(** ** Flow-control windows

    The four variables the functions are given pointers to: the size of the local
    window, the bytes received since the last WINDOW_UPDATE, what an earlier reduction
    still hides, and the change asked for, which becomes the increment to announce. *)
Record windows := Windows { w_local : Z; w_recv : Z; w_reduction : Z; w_delta : Z }.

Definition INT32_MAX : Z := 2 ^ 31 - 1.
Definition NGHTTP2_ERR_FLOW_CONTROL : Z := -524.

(** A signed addition or subtraction must not overflow. *)
Definition int32 (x : Z) : option Z := if in_int x then Some x else None.

(** The tail that the two functions share: [delta] bytes are announced, less what pays
    for an earlier reduction. *)
Definition pay_reduction (w : windows) (delta : Z) : option Z := int32 (Z.min (w_reduction w) delta).

Definition nghttp2_adjust_local_window_size (w : windows) : option (Z * windows) :=
  if 0 <? w_delta w then
    new_recv ← int32 (Z.max 0 (w_recv w) - w_delta w);
    if 0 <=? new_recv then Some (0, Windows (w_local w) new_recv (w_reduction w) (w_delta w)) else
    delta ← int32 (- new_recv);
    room ← int32 (NGHTTP2_MAX_WINDOW_SIZE - delta);
    if room <? w_local w then Some (NGHTTP2_ERR_FLOW_CONTROL, w) else
    local ← int32 (w_local w + delta);
    paid ← pay_reduction w delta;
    reduction ← int32 (w_reduction w - paid);
    recv ← (if w_recv w <? 0 then int32 (w_recv w + paid) else Some paid);
    delta ← int32 (w_delta w - paid);
    Some (0, Windows local recv reduction delta)
  else
    local ← int32 (w_local w + w_delta w);
    lower ← int32 (INT32_MIN - w_delta w);
    upper ← int32 (INT32_MAX + w_delta w);
    if (local <? 0) || (w_recv w <? lower) || (upper <? w_reduction w) then Some (NGHTTP2_ERR_FLOW_CONTROL, w) else
    recv ← int32 (w_recv w + w_delta w);
    reduction ← int32 (w_reduction w - w_delta w);
    Some (0, Windows local recv reduction 0).

Definition nghttp2_increase_local_window_size (w : windows) : option (Z * windows) :=
  if w_delta w <? 0 then None else
  room ← int32 (NGHTTP2_MAX_WINDOW_SIZE - w_delta w);
  if room <? w_local w then Some (NGHTTP2_ERR_FLOW_CONTROL, w) else
  local ← int32 (w_local w + w_delta w);
  paid ← pay_reduction w (w_delta w);
  reduction ← int32 (w_reduction w - paid);
  recv ← int32 (w_recv w + paid);
  delta ← int32 (w_delta w - paid);
  Some (0, Windows local recv reduction delta).

(** [local_window_size / 2] rounds towards zero. *)
Definition nghttp2_should_send_window_update (local_window_size recv_window_size : Z) : bool :=
  (0 <? recv_window_size) && (Z.quot local_window_size 2 <=? recv_window_size).

(** ** Byte order: the two directions *)

Lemma shiftr_div z k : 0 <= k -> Z.shiftr z k = z / 2 ^ k.
Proof. apply Z.shiftr_div_pow2. Qed.

Lemma get_put16 n r : 0 <= n < 2 ^ 16 -> nghttp2_get_uint16 (nghttp2_put_uint16be n ++ r) = Some n.
Proof. intros H. cbn -[Z.pow]. rewrite !HpackInt.bval_u8, !shiftr_div by lia. unfold u8. f_equal. Z.div_mod_to_equations. lia. Qed.

Lemma get_put32 n r : 0 <= n < 2 ^ 32 -> nghttp2_get_uint32 (nghttp2_put_uint32be n ++ r) = Some n.
Proof. intros H. cbn -[Z.pow]. rewrite !HpackInt.bval_u8, !shiftr_div by lia. unfold u8. f_equal. Z.div_mod_to_equations. lia. Qed.

Lemma length_put32 n : length (nghttp2_put_uint32be n) = 4%nat.
Proof. done. Qed.

Lemma get16_range data n : nghttp2_get_uint16 data = Some n -> 0 <= n < 2 ^ 16.
Proof.
  destruct data as [|a [|b data]]; [done|done|]. cbn -[Z.pow]. intros [= <-]. pose proof (bval_range a). pose proof (bval_range b). lia.
Qed.

Lemma get32_range data n : nghttp2_get_uint32 data = Some n -> 0 <= n < 2 ^ 32.
Proof.
  destruct data as [|a [|b [|c [|d data]]]]; [done..|]. cbn -[Z.pow]. intros [= <-].
  pose proof (bval_range a). pose proof (bval_range b). pose proof (bval_range c). pose proof (bval_range d). lia.
Qed.

(** Reading four bytes that were written is reading a number back: the bytes are
    determined by it. *)
Lemma put_get32 a b c d n : nghttp2_get_uint32 [a; b; c; d] = Some n -> nghttp2_put_uint32be n = [a; b; c; d].
Proof.
  cbn -[Z.pow]. intros [= <-]. pose proof (bval_range a). pose proof (bval_range b). pose proof (bval_range c). pose proof (bval_range d).
  unfold nghttp2_put_uint32be, be32. rewrite !shiftr_div by lia.
  assert (E : forall x y, x mod 256 = bval y -> uint8 x = y) by (intros x y Exy; by rewrite <- uint8_mod, Exy, uint8_bval).
  f_equal; [|f_equal; [|f_equal; [|f_equal]]]; apply E; Z.div_mod_to_equations; lia.
Qed.

(** ** The tables *)

Lemma of_table_some tbl c : length tbl = 256%nat -> exists x : Z, of_table tbl c = Some x.
Proof.
  intros H. unfold of_table. apply lookup_lt_is_Some_2. pose proof (bval_range c). lia.
Qed.

(** The check of a whole string, as a predicate on its characters. *)
Lemma all_in_spec tbl (P : char -> bool) s : (forall c, of_table tbl c = Some (if P c then 1 else 0)) -> all_in tbl s = Some (forallb P s).
Proof.
  intros H. induction s as [|c s IH]; [done|]. cbn [all_in forallb]. rewrite H. cbn [mbind option_bind]. by destruct (P c).
Qed.

Definition is_lower (c : char) : bool := (97 <=? bval c) && (bval c <=? 122).
Definition is_upper (c : char) : bool := (65 <=? bval c) && (bval c <=? 90).
Definition is_num (c : char) : bool := (48 <=? bval c) && (bval c <=? 57).

(** RFC 9110, section 5.6.2: [tchar]. *)
Definition is_tchar (c : char) : bool := is_lower c || is_upper c || is_num c || existsb (Ascii.eqb c) (chars "!#$%&'*+-.^_`|~").

(** RFC 3986, section 2: what an authority may hold, without the [@] of user
    information. *)
Definition is_authority_char (c : char) : bool := is_lower c || is_upper c || is_num c || existsb (Ascii.eqb c) (chars "-._~!$&'()*+,;=:[]%").

(** Every byte by computation. *)
Lemma every_char (P : char -> Prop) `{!forall c, Decision (P c)} :
  forallb (fun n => bool_decide (P (ascii_of_nat n))) (List.seq 0 256) = true -> forall c, P c.
Proof.
  intros Hall c. rewrite forallb_forall in Hall. specialize (Hall (nat_of_ascii c)). rewrite ascii_nat_embedding in Hall.
  apply (bool_decide_unpack _). apply Is_true_true, Hall, in_seq. pose proof (nat_ascii_bounded c). lia.
Qed.

Ltac by_every_char := match goal with |- forall c, @?P c => apply (every_char P) end; vm_compute; reflexivity.

Lemma downcase_char c : of_table DOWNCASE_TBL c = Some (if is_upper c then bval c + 32 else bval c).
Proof. revert c. by_every_char. Qed.

Lemma name_chars c : of_table VALID_HD_NAME_CHARS c = Some (if is_tchar c && negb (is_upper c) then 1 else 0).
Proof. revert c. by_every_char. Qed.

(** Field values: no control characters but the tab. *)
Lemma value_chars c : of_table VALID_HD_VALUE_CHARS c = Some (if ((32 <=? bval c) && negb (bval c =? 127)) || (bval c =? 9) then 1 else 0).
Proof. revert c. by_every_char. Qed.

Lemma method_chars c : of_table VALID_METHOD_CHARS c = Some (if is_tchar c then 1 else 0).
Proof. revert c. by_every_char. Qed.

(** Paths: printable characters and those beyond ASCII. *)
Lemma path_chars c : of_table VALID_PATH_CHARS c = Some (if (33 <=? bval c) && negb (bval c =? 127) then 1 else 0).
Proof. revert c. by_every_char. Qed.

(** A name: characters of a token but no capitals, a colon in front or not. *)
Lemma check_header_name_spec name : nghttp2_check_header_name name =
  Some match name with
       | [] => false
       | c :: rest =>
           if Ascii.eqb c ":" then negb (bool_decide (rest = [])) && forallb (fun c => is_tchar c && negb (is_upper c)) rest
           else forallb (fun c => is_tchar c && negb (is_upper c)) name
       end.
Proof.
  destruct name as [|c rest]; [done|]. unfold nghttp2_check_header_name.
  destruct (Ascii.eqb c ":"); [destruct rest; [done|]|]; apply all_in_spec, name_chars.
Qed.

Lemma downcase_spec s : nghttp2_downcase s = Some (map (fun c => if is_upper c then uint8 (bval c + 32) else c) s).
Proof.
  induction s as [|c s IH]; [done|]. cbn [nghttp2_downcase map]. rewrite downcase_char. cbn [mbind option_bind]. rewrite IH.
  cbn [mbind option_bind]. destruct (is_upper c); [done|]. by rewrite uint8_bval.
Qed.

(** ** Windows *)

(** The values the four variables can have: what a reduction took from the window is
    still accounted for, and the peer is never allowed more than the protocol's limit. *)
Definition windows_ok (w : windows) : Prop :=
  0 <= w_local w <= NGHTTP2_MAX_WINDOW_SIZE /\ - w_reduction w <= w_recv w <= w_local w /\ w_local w - w_recv w <= NGHTTP2_MAX_WINDOW_SIZE /\
  0 <= w_reduction w <= INT32_MAX /\ INT32_MIN <= w_delta w <= INT32_MAX.

(** What the peer may still send. *)
Definition credit (w : windows) : Z := w_local w - w_recv w.

Lemma int32_ok x : INT32_MIN <= x <= INT32_MAX -> int32 x = Some x.
Proof. unfold int32, in_int, INT32_MIN, INT32_MAX. intros H. by rewrite (proj2 (Z.leb_le _ _)), (proj2 (Z.ltb_lt _ _)) by lia. Qed.

Ltac window_arith := unfold windows_ok, credit, INT32_MIN, INT32_MAX, NGHTTP2_MAX_WINDOW_SIZE in *; cbn [w_local w_recv w_reduction w_delta] in *; lia.

(** No overflow; the increment that is left to announce is what the credit grows by. *)
Lemma adjust_spec w : windows_ok w -> exists rv w', nghttp2_adjust_local_window_size w = Some (rv, w') /\
  (rv = 0 /\ windows_ok w' /\ credit w' = credit w + w_delta w' /\ 0 <= w_delta w' <= Z.max 0 (w_delta w) /\
     (w_delta w <= 0 -> w_local w' = w_local w + w_delta w) \/
   rv = NGHTTP2_ERR_FLOW_CONTROL /\ w' = w /\
     (NGHTTP2_MAX_WINDOW_SIZE < w_local w + w_delta w \/ w_local w + w_delta w < 0 \/ w_recv w + w_delta w < INT32_MIN \/
      INT32_MAX < w_reduction w - w_delta w)).
Proof.
  intros H. unfold nghttp2_adjust_local_window_size, pay_reduction. destruct (Z.ltb_spec 0 (w_delta w)) as [Hd|Hd].
  - rewrite int32_ok by window_arith. cbn [mbind option_bind]. destruct (Z.leb_spec 0 (Z.max 0 (w_recv w) - w_delta w)) as [Hn|Hn].
    { do 2 eexists. split; [done|]. left. split; [done|]. split; window_arith. }
    rewrite (int32_ok (- _)) by window_arith. cbn [mbind option_bind]. rewrite (int32_ok (NGHTTP2_MAX_WINDOW_SIZE - _)) by window_arith. cbn [mbind option_bind].
    destruct (Z.ltb_spec (NGHTTP2_MAX_WINDOW_SIZE - - (Z.max 0 (w_recv w) - w_delta w)) (w_local w)) as [Hr|Hr].
    { do 2 eexists. split; [done|]. right. split; [done|]. split; [done|]. window_arith. }
    rewrite (int32_ok (w_local w + _)) by window_arith. cbn [mbind option_bind]. rewrite (int32_ok (Z.min _ _)) by window_arith. cbn [mbind option_bind].
    rewrite (int32_ok (w_reduction w - _)) by window_arith. cbn [mbind option_bind].
    destruct (Z.ltb_spec (w_recv w) 0) as [Hneg|Hpos].
    + rewrite (int32_ok (w_recv w + _)) by window_arith. cbn [mbind option_bind]. rewrite int32_ok by window_arith. cbn [mbind option_bind].
      do 2 eexists. split; [done|]. left. split; [done|]. split; window_arith.
    + cbn [mbind option_bind]. rewrite int32_ok by window_arith. cbn [mbind option_bind].
      do 2 eexists. split; [done|]. left. split; [done|]. split; window_arith.
  - destruct (Z.ltb_spec (w_local w + w_delta w) 0) as [Hl|Hl].
    { rewrite (int32_ok (w_local w + _)), (int32_ok (INT32_MIN - _)), (int32_ok (INT32_MAX + _)) by window_arith. cbn [mbind option_bind]. rewrite (proj2 (Z.ltb_lt _ 0)) by lia. cbn [orb].
      do 2 eexists. split; [done|]. right. split; [done|]. split; [done|]. window_arith. }
    rewrite (int32_ok (w_local w + _)), (int32_ok (INT32_MIN - _)), (int32_ok (INT32_MAX + _)) by window_arith. cbn [mbind option_bind]. rewrite (proj2 (Z.ltb_ge _ 0)) by lia. cbn [orb].
    destruct (Z.ltb_spec (w_recv w) (INT32_MIN - w_delta w)) as [Hr|Hr]; cbn [orb].
    { do 2 eexists. split; [done|]. right. split; [done|]. split; [done|]. window_arith. }
    destruct (Z.ltb_spec (INT32_MAX + w_delta w) (w_reduction w)) as [Hu|Hu].
    { do 2 eexists. split; [done|]. right. split; [done|]. split; [done|]. window_arith. }
    rewrite !int32_ok by window_arith. cbn [mbind option_bind]. do 2 eexists. split; [done|]. left. split; [done|]. split; window_arith.
Qed.

Lemma increase_spec w : windows_ok w -> 0 <= w_delta w -> exists rv w', nghttp2_increase_local_window_size w = Some (rv, w') /\
  (rv = 0 /\ windows_ok w' /\ credit w' = credit w + w_delta w' /\ 0 <= w_delta w' <= w_delta w /\ w_local w' = w_local w + w_delta w \/
   rv = NGHTTP2_ERR_FLOW_CONTROL /\ w' = w /\ NGHTTP2_MAX_WINDOW_SIZE < w_local w + w_delta w).
Proof.
  intros H Hd. unfold nghttp2_increase_local_window_size, pay_reduction. rewrite (proj2 (Z.ltb_ge _ _)) by done.
  rewrite (int32_ok (NGHTTP2_MAX_WINDOW_SIZE - _)) by window_arith. cbn [mbind option_bind]. destruct (Z.ltb_spec (NGHTTP2_MAX_WINDOW_SIZE - w_delta w) (w_local w)) as [Hr|Hr].
  { do 2 eexists. split; [done|]. right. split; [done|]. split; [done|]. lia. }
  rewrite (int32_ok (w_local w + _)) by window_arith. cbn [mbind option_bind]. rewrite (int32_ok (Z.min _ _)) by window_arith. cbn [mbind option_bind].
  rewrite (int32_ok (w_reduction w - _)) by window_arith. cbn [mbind option_bind]. rewrite (int32_ok (w_recv w + _)) by window_arith.
  cbn [mbind option_bind]. rewrite int32_ok by window_arith. cbn [mbind option_bind].
  do 2 eexists. split; [done|]. left. split; [done|]. split; window_arith.
Qed.
