(* ===== verification/NgFlow.v ===== *)
(** * The receiver's flow control: [nghttp2_session.c], [nghttp2_submit.c]

    The window of the connection (stream 0) on the receiving side: how many bytes the
    peer may send, what has been received, what the application has consumed, and when
    a WINDOW_UPDATE is queued.  The windows of the streams follow the same rules in
    functions of their own, and are not modelled; nor is the rest of the session.

    [flow_control_safe]: a peer that keeps to the windows it was told is never blamed,
    and is never told more than the protocol allows.  [flow_control_no_stall]: nor is it
    left without a window, when the application uses
    [nghttp2_session_set_local_window_size]; [submit_window_update_stalls]: with
    [nghttp2_submit_window_update] it can be. *)

From stdpp Require Import list.
From S2P Require Import Prelude CLib NgBuf HdInflate NgStream NgHelper.

(** ** The session, as far as this window is concerned *)

(** What is in [ob_reg]. *)
Inductive outbound_item :=
| WindowUpdate (window_size_increment : Z)
| Goaway (error_code : Z).

Record session := Session {
  s_local : Z;                 (* local_window_size *)
  s_recv : Z;                  (* recv_window_size *)
  s_reduction : Z;             (* recv_reduction *)
  s_consumed : Z;              (* consumed_size *)
  s_queued : bool;             (* window_update_queued *)
  s_no_auto : bool;            (* NGHTTP2_OPTMASK_NO_AUTO_WINDOW_UPDATE *)
  s_term : bool;               (* NGHTTP2_GOAWAY_TERM_ON_SEND *)
  s_ign_all : bool;            (* iframe.state is NGHTTP2_IB_IGN_ALL *)
  s_ob_reg : list outbound_item;
  s_mem : nghttp2_mem
}.

Definition set_windows (w : windows) (s : session) : session :=
  Session (w_local w) (w_recv w) (w_reduction w) (s_consumed s) (s_queued s) (s_no_auto s) (s_term s) (s_ign_all s) (s_ob_reg s) (s_mem s).
Definition windows_of (s : session) (delta : Z) : windows := Windows (s_local s) (s_recv s) (s_reduction s) delta.
Definition set_sizes (recv consumed : Z) (s : session) : session :=
  Session (s_local s) recv (s_reduction s) consumed (s_queued s) (s_no_auto s) (s_term s) (s_ign_all s) (s_ob_reg s) (s_mem s).
Definition set_update_queued (b : bool) (s : session) : session :=
  Session (s_local s) (s_recv s) (s_reduction s) (s_consumed s) b (s_no_auto s) (s_term s) (s_ign_all s) (s_ob_reg s) (s_mem s).
Definition set_end (term ign_all : bool) (s : session) : session :=
  Session (s_local s) (s_recv s) (s_reduction s) (s_consumed s) (s_queued s) (s_no_auto s) term ign_all (s_ob_reg s) (s_mem s).
Definition set_outbound (l : list outbound_item) (m : nghttp2_mem) (s : session) : session :=
  Session (s_local s) (s_recv s) (s_reduction s) (s_consumed s) (s_queued s) (s_no_auto s) (s_term s) (s_ign_all s) l m.

Definition NGHTTP2_ERR_FATAL : Z := -900.
Definition NGHTTP2_FLOW_CONTROL_ERROR : Z := 3.
Definition NGHTTP2_INITIAL_CONNECTION_WINDOW_SIZE : Z := 65535.

Definition nghttp2_is_fatal (lib_error_code : Z) : bool := lib_error_code <? NGHTTP2_ERR_FATAL.

Section Session.
Context (malloc_ok : nat -> bool).

(** An item is allocated and queued. *)
Definition add_item (item : outbound_item) (s : session) : Z * session :=
  let '(ok, m) := malloc malloc_ok (s_mem s) in
  if negb ok then (NGHTTP2_ERR_NOMEM, set_outbound (s_ob_reg s) m s)
  else (0, set_outbound (s_ob_reg s ++ [item]) m s).

Definition nghttp2_session_add_window_update (window_size_increment : Z) (s : session) : Z * session :=
  let '(rv, s) := add_item (WindowUpdate window_size_increment) s in
  if negb (rv =? 0) then (rv, s) else (0, set_update_queued true s).

Definition nghttp2_session_terminate_session (error_code : Z) (s : session) : Z * session :=
  if s_term s then (0, s) else
  let s := set_end (s_term s) true s in
  let '(rv, s) := add_item (Goaway error_code) s in
  if negb (rv =? 0) then (rv, s) else (0, set_end true (s_ign_all s) s).

Definition adjust_recv_window_size (recv_window_size delta local_window_size : Z) : option (Z * Z) :=
  a ← int32 (local_window_size - delta);
  b ← int32 (NGHTTP2_MAX_WINDOW_SIZE - delta);
  if (a <? recv_window_size) || (b <? recv_window_size) then Some (-1, recv_window_size) else
  recv ← int32 (recv_window_size + delta);
  Some (0, recv).

Definition nghttp2_session_update_recv_connection_window_size (delta_size : Z) (s : session) : option (Z * session) :=
  r ← adjust_recv_window_size (s_recv s) delta_size (s_local s);
  let '(rv, recv) := r in
  if negb (rv =? 0) then Some (nghttp2_session_terminate_session NGHTTP2_FLOW_CONTROL_ERROR s) else
  let s := set_sizes recv (s_consumed s) s in
  if negb (s_no_auto s) && negb (s_queued s) && nghttp2_should_send_window_update (s_local s) (s_recv s) then
    let '(rv, s) := nghttp2_session_add_window_update (s_recv s) s in
    if negb (rv =? 0) then Some (rv, s) else Some (0, set_sizes 0 (s_consumed s) s)
  else Some (0, s).

Definition session_update_connection_consumed_size (delta_size : Z) (s : session) : option (Z * session) :=
  if u32 (NGHTTP2_MAX_WINDOW_SIZE - delta_size) <? s_consumed s then
    Some (nghttp2_session_terminate_session NGHTTP2_FLOW_CONTROL_ERROR s) else
  consumed ← int32 (s_consumed s + delta_size);
  let s := set_sizes (s_recv s) consumed s in
  if s_queued s then Some (0, s) else
  let recv_size := Z.min (s_consumed s) (s_recv s) in
  if nghttp2_should_send_window_update (s_local s) recv_size then
    let '(rv, s) := nghttp2_session_add_window_update recv_size s in
    if negb (rv =? 0) then Some (rv, s) else Some (0, set_sizes (s_recv s - recv_size) (s_consumed s - recv_size) s)
  else Some (0, s).

Definition nghttp2_session_consume_connection (size : Z) (s : session) : option (Z * session) :=
  if negb (s_no_auto s) then Some (NGHTTP2_ERR_INVALID_STATE, s) else
  r ← session_update_connection_consumed_size size s;
  let '(rv, s) := r in
  if nghttp2_is_fatal rv then Some (rv, s) else Some (0, s).

(** [session_after_frame_sent1] of a WINDOW_UPDATE for the connection. *)
Definition after_window_update_sent (s : session) : option (Z * session) :=
  let s := set_update_queued false s in
  r ← (if s_no_auto s then session_update_connection_consumed_size 0 s
       else nghttp2_session_update_recv_connection_window_size 0 s);
  let '(rv, s) := r in
  if nghttp2_is_fatal rv then Some (rv, s) else Some (0, s).

(** The branches for [stream_id == 0] *)
Definition nghttp2_submit_window_update (window_size_increment : Z) (s : session) : option (Z * session) :=
  if window_size_increment =? 0 then Some (0, s) else
  r ← nghttp2_adjust_local_window_size (windows_of s window_size_increment);
  let '(rv, w) := r in
  let s := set_windows w s in
  if negb (rv =? 0) then Some (rv, s) else
  if 0 <? w_delta w then
    consumed ← int32 (s_consumed s - w_delta w);
    let s := set_sizes (s_recv s) (Z.max 0 consumed) s in
    Some (nghttp2_session_add_window_update (w_delta w) s)
  else Some (0, s).

Definition nghttp2_session_set_local_window_size (window_size : Z) (s : session) : option (Z * session) :=
  if window_size <? 0 then Some (NGHTTP2_ERR_INVALID_ARGUMENT, s) else
  window_size_increment ← int32 (window_size - s_local s);
  if window_size_increment =? 0 then Some (0, s) else
  if window_size_increment <? 0 then
    r ← nghttp2_adjust_local_window_size (windows_of s window_size_increment);
    let '(rv, w) := r in Some (rv, set_windows w s)
  else
  r ← nghttp2_increase_local_window_size (windows_of s window_size_increment);
  let '(rv, w) := r in
  let s := set_windows w s in
  if negb (rv =? 0) then Some (rv, s) else
  if 0 <? w_delta w then Some (nghttp2_session_add_window_update (w_delta w) s)
  else nghttp2_session_update_recv_connection_window_size 0 s.

Definition nghttp2_session_get_effective_recv_data_length (s : session) : Z := if s_recv s <? 0 then 0 else s_recv s.
Definition nghttp2_session_get_effective_local_window_size (s : session) : Z := s_local s.
Definition nghttp2_session_get_local_window_size (s : session) : option Z := int32 (s_local s - s_recv s).

(** ** A connection

    The session and a peer that sends no more than the windows it was told. *)

Inductive flow_op :=
| Data (n : Z)        (* the peer sends up to [n] bytes *)
| Consume (n : Z)     (* [nghttp2_session_consume_connection] *)
| Submit (n : Z)      (* [nghttp2_submit_window_update] *)
| SetWindow (n : Z)   (* [nghttp2_session_set_local_window_size] *)
| Send.               (* the next item of the queue is sent *)

(** The session, and what the peer may still send.  A session that is being torn down
    ignores what comes, and an empty DATA frame changes nothing. *)
Definition flow_step (op : flow_op) (x : session * Z) : option (Z * (session * Z)) :=
  let '(s, c) := x in
  match op with
  | Data n =>
      if s_ign_all s || (Z.min n c =? 0) then Some (0, (s, c - Z.min n c)) else
      r ← nghttp2_session_update_recv_connection_window_size (Z.min n c) s;
      Some (fst r, (snd r, c - Z.min n c))
  | Consume n => r ← nghttp2_session_consume_connection n s; Some (fst r, (snd r, c))
  | Submit n => r ← nghttp2_submit_window_update n s; Some (fst r, (snd r, c))
  | SetWindow n => r ← nghttp2_session_set_local_window_size n s; Some (fst r, (snd r, c))
  | Send =>
      match s_ob_reg s with
      | [] => Some (0, (s, c))
      | Goaway _ :: l => Some (0, (set_outbound l (free (s_mem s) false) s, c))
      | WindowUpdate n :: l =>
          r ← after_window_update_sent (set_outbound l (free (s_mem s) false) s);
          Some (fst r, (snd r, c + n))
      end
  end.

Fixpoint flow_run (ops : list flow_op) (x : session * Z) : option (list Z * (session * Z)) :=
  match ops with
  | [] => Some ([], x)
  | op :: ops => r ← flow_step op x; q ← flow_run ops (snd r); Some (fst r :: fst q, snd q)
  end.

Definition new_session (no_auto : bool) (m : nghttp2_mem) : session :=
  Session NGHTTP2_INITIAL_CONNECTION_WINDOW_SIZE 0 0 0 false no_auto false false [] m.

(** Arguments of the calls: sizes of data, and [int32_t]. *)
Definition op_ok (op : flow_op) : Prop :=
  match op with
  | Data n => 0 <= n
  | Consume n => 0 <= n <= NGHTTP2_MAX_WINDOW_SIZE
  | Submit n | SetWindow n => INT32_MIN <= n <= INT32_MAX
  | Send => True
  end.

(** ** What the peer was told *)

(** The increments that wait to be sent. *)
Fixpoint pending (l : list outbound_item) : Z :=
  match l with
  | [] => 0
  | WindowUpdate n :: l => n + pending l
  | Goaway _ :: l => pending l
  end.

Definition update_ok (item : outbound_item) : Prop :=
  match item with WindowUpdate n => 0 < n <= NGHTTP2_MAX_WINDOW_SIZE | Goaway _ => True end.

(** The windows; what the peer may send once all is sent is within what this side
    expects; increments are those the protocol allows. *)
Definition flow_inv (x : session * Z) : Prop :=
  let '(s, c) := x in
  windows_ok (windows_of s 0) /\ 0 <= s_consumed s <= NGHTTP2_MAX_WINDOW_SIZE /\
  0 <= c /\ c + pending (s_ob_reg s) <= s_local s - s_recv s /\ Forall update_ok (s_ob_reg s) /\
  (s_no_auto s = false -> s_ign_all s = false /\ Forall (fun item => exists n, item = WindowUpdate n) (s_ob_reg s)).

Lemma pending_app l1 l2 : pending (l1 ++ l2) = pending l1 + pending l2.
Proof. induction l1 as [|[n|e] l1 IH]; cbn; lia. Qed.

Lemma pending_nonneg l : Forall update_ok l -> 0 <= pending l.
Proof. induction 1 as [|[n|e] l H _ IH]; cbn in *; lia. Qed.

Lemma add_update_cases n s : exists m,
  nghttp2_session_add_window_update n s = (NGHTTP2_ERR_NOMEM, set_outbound (s_ob_reg s) m s) \/
  nghttp2_session_add_window_update n s = (0, set_update_queued true (set_outbound (s_ob_reg s ++ [WindowUpdate n]) m s)).
Proof.
  unfold nghttp2_session_add_window_update, add_item, malloc. destruct (malloc_ok _); cbn; eexists; [by right|by left].
Qed.

(** The invariant is about the windows, the queue and the two flags. *)
Lemma flow_inv_queue n l m s c : flow_inv (s, c) -> 0 < n <= NGHTTP2_MAX_WINDOW_SIZE -> l = s_ob_reg s ++ [WindowUpdate n] ->
  c + pending (s_ob_reg s) + n <= s_local s - s_recv s -> flow_inv (set_update_queued true (set_outbound l m s), c).
Proof.
  intros (Hw & Hc & H0 & _ & Hq & Ha) Hn -> Hle. split; [exact Hw|]. split; [exact Hc|]. split; [done|]. cbn. rewrite pending_app. cbn.
  split; [lia|]. split; [apply Forall_app; split; [done|by constructor]|]. intros Hauto. destruct (Ha Hauto) as [Hi Hf]. split; [done|].
  apply Forall_app. split; [done|]. constructor; [by eexists|done].
Qed.

Lemma flow_inv_mem m s c : flow_inv (s, c) -> flow_inv (set_outbound (s_ob_reg s) m s, c).
Proof. done. Qed.

(** Tearing down leaves the windows alone; it happens in the manual mode only. *)
Lemma terminate_inv e s c : flow_inv (s, c) -> s_no_auto s = true -> exists rv s', nghttp2_session_terminate_session e s = (rv, s') /\ flow_inv (s', c).
Proof.
  intros (Hw & Hc & H0 & Hle & Hq & _) Hno. unfold nghttp2_session_terminate_session, add_item, malloc.
  destruct (s_term s); [do 2 eexists; split; [done|]; split; [exact Hw|]; repeat (split; [done|]); intros; congruence|].
  cbn. destruct (malloc_ok _); cbn; do 2 eexists; (split; [done|]); unfold flow_inv; cbn; rewrite ?Hno, ?pending_app; cbn;
    (split; [exact Hw|]); (split; [exact Hc|]); (split; [done|]).
  - split; [lia|]. split; [|done]. apply Forall_app. split; [done|]. by constructor.
  - split; [lia|]. done.
Qed.

(** Data within the window is accepted. *)
Lemma update_recv_inv d s c : flow_inv (s, c) -> 0 <= d <= c ->
  exists rv s', nghttp2_session_update_recv_connection_window_size d s = Some (rv, s') /\ flow_inv (s', c - d) /\ s_no_auto s' = s_no_auto s.
Proof.
  intros Hinv Hd. destruct Hinv as (Hw & Hc & H0 & Hle & Hq & Ha). pose proof (pending_nonneg _ Hq) as Hp.
  unfold nghttp2_session_update_recv_connection_window_size, adjust_recv_window_size, windows_of in *.
  rewrite !int32_ok by window_arith. cbn [mbind option_bind]. rewrite !(proj2 (Z.ltb_ge _ _)) by window_arith. cbn [orb mbind option_bind Z.eqb negb].
  assert (Hinv' : flow_inv (set_sizes (s_recv s + d) (s_consumed s) s, c - d)).
  { unfold flow_inv, windows_of; cbn. repeat (split; [window_arith || assumption|]). done. }
  destruct (negb (s_no_auto _) && _ && _) eqn:E; [|by do 2 eexists; split; [done|]].
  apply andb_true_iff in E as [_ Es]. apply andb_true_iff in Es as [Es%Z.ltb_lt _]. cbn in Es.
  destruct (add_update_cases (s_recv (set_sizes (s_recv s + d) (s_consumed s) s)) (set_sizes (s_recv s + d) (s_consumed s) s)) as [m [-> | ->]];
    cbn [Z.eqb negb]; [by do 2 eexists; split; [done|]|].
  do 2 eexists. split; [done|]. split; [|done]. unfold flow_inv, windows_of; cbn. rewrite pending_app; cbn.
  split; [window_arith|]. split; [done|]. split; [lia|]. split; [window_arith|].
  split; [apply Forall_app; split; [done|]; constructor; [cbn; window_arith|done]|].
  intros Hauto. destruct (Ha Hauto) as [Hi Hf]. split; [done|]. apply Forall_app. split; [done|]. constructor; [by eexists|done].
Qed.

Lemma consumed_inv d s c : flow_inv (s, c) -> 0 <= d <= NGHTTP2_MAX_WINDOW_SIZE -> s_no_auto s = true ->
  exists rv s', session_update_connection_consumed_size d s = Some (rv, s') /\ flow_inv (s', c) /\ s_no_auto s' = s_no_auto s.
Proof.
  intros Hinv Hd Hno. unfold session_update_connection_consumed_size.
  destruct (Z.ltb_spec (u32 (NGHTTP2_MAX_WINDOW_SIZE - d)) (s_consumed s)) as [Hlt|Hge].
  { destruct (terminate_inv NGHTTP2_FLOW_CONTROL_ERROR s c Hinv Hno) as (rv & s' & E & H). rewrite E. do 2 eexists. split; [done|]. split; [done|].
    revert E. unfold nghttp2_session_terminate_session, add_item, malloc. destruct (s_term s); [by intros [= _ <-]|].
    cbn. destruct (malloc_ok _); cbn; by intros [= _ <-]. }
  destruct Hinv as (Hw & Hc & H0 & Hle & Hq & Ha). pose proof (pending_nonneg _ Hq) as Hp. unfold windows_of in *.
  assert (Hsmall : s_consumed s + d <= NGHTTP2_MAX_WINDOW_SIZE).
  { revert Hge. unfold u32. rewrite Z.mod_small by window_arith. lia. }
  rewrite int32_ok by window_arith. cbn [mbind option_bind].
  assert (Hinv' : flow_inv (set_sizes (s_recv s) (s_consumed s + d) s, c)) by (unfold flow_inv; cbn; repeat (split; [window_arith || assumption|]); done).
  destruct (s_queued _) eqn:Eq; [by do 2 eexists; split; [done|]|].
  destruct (nghttp2_should_send_window_update _ _) eqn:Es; [|by do 2 eexists; split; [done|]].
  apply andb_true_iff in Es as [Es%Z.ltb_lt _]. cbn [set_sizes s_consumed s_recv] in *.
  match goal with |- context [nghttp2_session_add_window_update ?n ?t] => destruct (add_update_cases n t) as [m [-> | ->]] end;
    cbn [Z.eqb negb]; [by do 2 eexists; split; [done|]|].
  do 2 eexists. split; [done|]. split; [|done]. unfold flow_inv, windows_of; cbn. rewrite pending_app; cbn.
  split; [window_arith|]. split; [lia|]. split; [lia|]. split; [window_arith|].
  split; [apply Forall_app; split; [done|]; constructor; [cbn; window_arith|done]|]. by rewrite Hno.
Qed.
Lemma flow_bounds s c : flow_inv (s, c) -> 0 <= s_local s <= NGHTTP2_MAX_WINDOW_SIZE /\ 0 <= s_consumed s <= NGHTTP2_MAX_WINDOW_SIZE /\ 0 <= c.
Proof. intros ((Hl & _) & Hc & H0 & _). by split. Qed.

(** New windows, of which [delta] is still to be announced. *)
Lemma new_windows_inv w n s c : flow_inv (s, c) -> windows_ok w -> credit w = credit (windows_of s n) + w_delta w -> 0 <= w_delta w ->
  flow_inv (set_windows w s, c) /\ c + pending (s_ob_reg s) + w_delta w <= w_local w - w_recv w.
Proof.
  intros (Hw & Hc & H0 & Hle & Hq & Ha) Hok Hcr Hd. unfold flow_inv, windows_of in *. cbn.
  split; [|window_arith]. split; [window_arith|]. split; [done|]. split; [done|]. split; [window_arith|]. done.
Qed.

Lemma windows_of_ok n s c : flow_inv (s, c) -> INT32_MIN <= n <= INT32_MAX -> windows_ok (windows_of s n).
Proof. intros (Hw & _) Hn. unfold windows_of in *. window_arith. Qed.

Lemma announce_inv w n consumed s c : flow_inv (s, c) -> windows_ok w -> credit w = credit (windows_of s n) + w_delta w -> 0 < w_delta w ->
  0 <= consumed <= NGHTTP2_MAX_WINDOW_SIZE ->
  exists rv s', nghttp2_session_add_window_update (w_delta w) (set_sizes (w_recv w) consumed (set_windows w s)) = (rv, s') /\
    flow_inv (s', c) /\ s_no_auto s' = s_no_auto s.
Proof.
  intros Hinv Hok Hcr Hd Hcons. destruct (new_windows_inv w n s c Hinv Hok Hcr) as [Hnew Hroom]; [lia|].
  assert (Hnew' : flow_inv (set_sizes (w_recv w) consumed (set_windows w s), c)).
  { destruct Hnew as (Hw & _ & Hrest). split; [exact Hw|]. split; [exact Hcons|]. exact Hrest. }
  match goal with |- context [nghttp2_session_add_window_update ?n ?t] => destruct (add_update_cases n t) as [m [-> | ->]] end;
    [by do 2 eexists|].
  do 2 eexists. split; [done|]. split; [|done]. eapply (flow_inv_queue (w_delta w)); [exact Hnew'| |done|exact Hroom].
  split; [done|]. window_arith.
Qed.

Lemma submit_inv n s c : flow_inv (s, c) -> INT32_MIN <= n <= INT32_MAX ->
  exists rv s', nghttp2_submit_window_update n s = Some (rv, s') /\ flow_inv (s', c) /\ s_no_auto s' = s_no_auto s.
Proof.
  intros Hinv Hn. unfold nghttp2_submit_window_update. destruct (n =? 0); [by do 2 eexists|].
  destruct (adjust_spec (windows_of s n)) as (rv & w & -> & [(-> & Hok & Hcr & Hd & _)|(-> & -> & _)]); [by eapply windows_of_ok| |];
    cbn [mbind option_bind].
  - cbn [Z.eqb negb]. destruct (Z.ltb_spec 0 (w_delta w)) as [Hpos|Hneg].
    + destruct (flow_bounds s c Hinv) as (_ & Hc & _).
      cbn [set_windows s_consumed s_recv]. rewrite int32_ok by window_arith. cbn [mbind option_bind].
      destruct (announce_inv w n (Z.max 0 (s_consumed s - w_delta w)) s c Hinv Hok Hcr Hpos) as (rv & s' & E & H); [lia|].
      do 2 eexists. split; [by f_equal; exact E|]. exact H.
    + do 2 eexists. split; [done|]. split; [|done]. apply (new_windows_inv w n s c Hinv Hok Hcr). lia.
  - do 2 eexists. split; [done|]. split; [|done]. by destruct s.
Qed.

Lemma set_window_inv n s c : flow_inv (s, c) -> INT32_MIN <= n <= INT32_MAX ->
  exists rv s', nghttp2_session_set_local_window_size n s = Some (rv, s') /\ flow_inv (s', c) /\ s_no_auto s' = s_no_auto s.
Proof.
  intros Hinv Hn. unfold nghttp2_session_set_local_window_size. destruct (Z.ltb_spec n 0) as [_|Hpos]; [by do 2 eexists|].
  destruct (flow_bounds s c Hinv) as (Hl & Hcons & H0).
  rewrite int32_ok by window_arith. cbn [mbind option_bind]. destruct (n - s_local s =? 0); [by do 2 eexists|].
  assert (Hok : windows_ok (windows_of s (n - s_local s))) by (eapply windows_of_ok; [done|window_arith]).
  destruct (Z.ltb_spec (n - s_local s) 0) as [Hlt|Hge].
  - destruct (adjust_spec _ Hok) as (rv & w & -> & [(-> & Hok' & Hcr & Hd & _)|(-> & -> & _)]); cbn [mbind option_bind];
      do 2 eexists; (split; [done|]); (split; [|done]); [|by destruct s].
    apply (new_windows_inv w _ s c Hinv Hok' Hcr). lia.
  - destruct (increase_spec _ Hok Hge) as (rv & w & -> & [(-> & Hok' & Hcr & Hd & _)|(-> & -> & _)]); cbn [mbind option_bind Z.eqb negb].
    + destruct (Z.ltb_spec 0 (w_delta w)) as [Hpos'|Hneg].
      * destruct (announce_inv w _ (s_consumed s) s c Hinv Hok' Hcr Hpos') as (rv & s' & E & H); [done|].
        do 2 eexists. split; [by f_equal; exact E|]. exact H.
      * destruct (new_windows_inv w _ s c Hinv Hok' Hcr) as [Hnew _]; [lia|].
        destruct (update_recv_inv 0 _ c Hnew) as (rv & s' & E & H & Ha); [by split|]. rewrite Z.sub_0_r in H. eauto.
    + do 2 eexists. split; [done|]. split; [|done]. by destruct s.
Qed.

Lemma sent_queue_inv n l m s c : flow_inv (s, c) -> s_ob_reg s = WindowUpdate n :: l -> flow_inv (set_update_queued false (set_outbound l m s), c + n).
Proof.
  intros (Hw & Hc & H0 & Hle & Hq & Ha) El. rewrite El in Hle, Hq. cbn in Hle. apply Forall_cons in Hq as [Hn Hq]. cbn in Hn.
  split; [exact Hw|]. split; [exact Hc|]. split; [lia|]. cbn. split; [lia|]. split; [done|]. intros Hauto. destruct (Ha Hauto) as [Hi Hf].
  split; [done|]. rewrite El in Hf. by apply Forall_cons in Hf as [_ ?].
Qed.

Lemma sent_inv n l m s c : flow_inv (s, c) -> s_ob_reg s = WindowUpdate n :: l ->
  exists rv s', after_window_update_sent (set_outbound l m s) = Some (rv, s') /\ flow_inv (s', c + n) /\ s_no_auto s' = s_no_auto s.
Proof.
  intros Hinv El. pose proof (sent_queue_inv n l m s c Hinv El) as Hinv'. destruct (flow_bounds _ _ Hinv') as (_ & _ & H0).
  unfold after_window_update_sent. cbn [s_no_auto set_update_queued set_outbound]. destruct (s_no_auto s) eqn:Hno.
  - destruct (consumed_inv 0 _ _ Hinv') as (rv & s' & E & H & Ha'); [done|done|]. rewrite E. cbn [mbind option_bind].
    destruct (nghttp2_is_fatal rv); do 2 eexists; (split; [done|]); (split; [done|]); cbn in Ha'; congruence.
  - destruct (update_recv_inv 0 _ _ Hinv') as (rv & s' & E & H & Ha'); [split; lia|]. rewrite E, Z.sub_0_r in *. cbn [mbind option_bind].
    destruct (nghttp2_is_fatal rv); do 2 eexists; (split; [done|]); (split; [done|]); cbn in Ha'; congruence.
Qed.
Lemma flow_step_inv op s c : flow_inv (s, c) -> op_ok op ->
  exists rv x', flow_step op (s, c) = Some (rv, x') /\ flow_inv x' /\ s_no_auto (fst x') = s_no_auto s.
Proof.
  intros Hinv Hop. destruct (flow_bounds s c Hinv) as (_ & _ & H0). unfold flow_step. destruct op as [n|n|n|n|].
  - cbn in Hop. destruct (s_ign_all s || (Z.min n c =? 0)).
    + do 2 eexists. split; [done|]. split; [|done]. destruct Hinv as (Hw & Hc & _ & Hle & Hrest).
      split; [exact Hw|]. split; [exact Hc|]. split; [lia|]. by split; [lia|].
    + destruct (update_recv_inv (Z.min n c) s c Hinv) as (rv & s' & E & H & Ha); [lia|]. rewrite E. cbn [mbind option_bind fst snd]. eauto.
  - unfold nghttp2_session_consume_connection. destruct (s_no_auto s) eqn:Hno; cbn [negb mbind option_bind fst snd]; [|by do 2 eexists].
    destruct (consumed_inv n s c Hinv Hop Hno) as (rv & s' & E & H & Ha). rewrite E. cbn [mbind option_bind].
    destruct (nghttp2_is_fatal rv); cbn [mbind option_bind fst snd]; do 2 eexists; (split; [done|]); (split; [done|]); cbn; congruence.
  - destruct (submit_inv n s c Hinv Hop) as (rv & s' & E & H & Ha). rewrite E. cbn [mbind option_bind fst snd]. eauto.
  - destruct (set_window_inv n s c Hinv Hop) as (rv & s' & E & H & Ha). rewrite E. cbn [mbind option_bind fst snd]. eauto.
  - destruct (s_ob_reg s) as [|[n|e] l] eqn:El; [by do 2 eexists| |].
    + destruct (sent_inv n l (free (s_mem s) false) s c Hinv El) as (rv & s' & E & H & Ha). rewrite E. cbn [mbind option_bind fst snd]. eauto.
    + do 2 eexists. split; [done|]. split; [|done]. destruct Hinv as (Hw & Hc & _ & Hle & Hq & Ha). rewrite El in *.
      split; [exact Hw|]. split; [exact Hc|]. split; [done|]. split; [exact Hle|]. split; [by apply Forall_cons in Hq as [_ ?]|].
      intros Hauto. destruct (Ha Hauto) as [_ Hf]. apply Forall_cons in Hf as [[k [=]] _].
Qed.

Lemma flow_run_inv ops : forall s c, flow_inv (s, c) -> Forall op_ok ops ->
  exists rvs x', flow_run ops (s, c) = Some (rvs, x') /\ flow_inv x' /\ s_no_auto (fst x') = s_no_auto s.
Proof.
  induction ops as [|op ops IH]; intros s c Hinv Hops; [by do 2 eexists|]. apply Forall_cons in Hops as [Hop Hops]. cbn [flow_run].
  destruct (flow_step_inv op s c Hinv Hop) as (rv & [s1 c1] & -> & H1 & Ha1). cbn [mbind option_bind snd].
  destruct (IH s1 c1 H1 Hops) as (rvs & x' & -> & H' & Ha'). cbn [mbind option_bind fst snd] in *. do 2 eexists. split; [done|]. split; [done|]. congruence.
Qed.

Lemma new_session_inv no_auto m : flow_inv (new_session no_auto m, NGHTTP2_INITIAL_CONNECTION_WINDOW_SIZE).
Proof.
  unfold flow_inv, windows_of, new_session, NGHTTP2_INITIAL_CONNECTION_WINDOW_SIZE. cbn. split; [window_arith|]. repeat (split; [window_arith|]). split; [by constructor|]. intros _. by split; [|constructor].
Qed.

(** C33: whatever the calls, the data and the allocator, no 32-bit window overflows (every
    run of operations ends with a result), the peer is never allowed more than this side
    expects, nor more than 2^31-1, every WINDOW_UPDATE has an increment that the
    protocol allows, and with automatic updates a peer that keeps to its window is
    never accused of a flow-control error. *)
Theorem flow_control_safe ops no_auto m : Forall op_ok ops ->
  exists rvs s c, flow_run ops (new_session no_auto m, NGHTTP2_INITIAL_CONNECTION_WINDOW_SIZE) = Some (rvs, (s, c)) /\
    0 <= c /\ c + pending (s_ob_reg s) <= s_local s - s_recv s <= NGHTTP2_MAX_WINDOW_SIZE /\ 0 <= s_local s <= NGHTTP2_MAX_WINDOW_SIZE /\
    nghttp2_session_get_local_window_size s = Some (s_local s - s_recv s) /\
    Forall update_ok (s_ob_reg s) /\
    (no_auto = false -> s_ign_all s = false /\ forall e, Goaway e ∉ s_ob_reg s).
Proof.
  intros Hops. destruct (flow_run_inv ops _ _ (new_session_inv no_auto m) Hops) as (rvs & [s c] & -> & Hinv & Hauto).
  destruct Hinv as (Hw & Hc & H0 & Hle & Hq & Ha). exists rvs, s, c. split; [done|]. split; [done|]. pose proof (pending_nonneg _ Hq) as Hp.
  unfold windows_of in Hw. split; [window_arith|]. split; [window_arith|]. split; [apply int32_ok; window_arith|]. split; [done|].
  intros ->. destruct (Ha Hauto) as [Hi Hf]. split; [done|]. intros e He. rewrite Forall_forall in Hf. by destruct (Hf _ He) as [k [=]].
Qed.

(** ** No stall

    With automatic updates and an allocator that does not fail, nothing that the peer
    may still send is lost: what it was told and what waits for it in the queue is what
    this side expects; and when nothing is queued, that is more than zero. *)

Definition flow_live (x : session * Z) : Prop :=
  let '(s, c) := x in
  s_no_auto s = false /\ c + pending (s_ob_reg s) = s_local s - s_recv s /\
  (if s_queued s then 0 < pending (s_ob_reg s) else 0 < s_local s -> 0 < s_local s - s_recv s).

Definition live_op (op : flow_op) : Prop := match op with Data _ | SetWindow _ | Send => True | Consume _ | Submit _ => False end.

Context (Hmalloc : forall n, malloc_ok n = true).

Lemma add_update_ok n s : exists m,
  nghttp2_session_add_window_update n s = (0, set_update_queued true (set_outbound (s_ob_reg s ++ [WindowUpdate n]) m s)).
Proof. unfold nghttp2_session_add_window_update, add_item, malloc. rewrite Hmalloc. by eexists. Qed.

(** The bytes are in the window: they are counted, and announced again if they are half
    of it and no announcement waits. *)
Lemma update_recv_auto d s c : flow_inv (s, c) -> 0 <= d <= c -> s_no_auto s = false ->
  exists s', nghttp2_session_update_recv_connection_window_size d s = Some (0, s') /\ s_local s' = s_local s /\ s_no_auto s' = false /\
    (s_queued s = false /\ 0 < s_recv s + d /\ s_recv s' = 0 /\ s_queued s' = true /\ s_ob_reg s' = s_ob_reg s ++ [WindowUpdate (s_recv s + d)] \/
     (s_queued s = false -> 0 < s_local s -> s_recv s + d < s_local s) /\ s_recv s' = s_recv s + d /\ s_queued s' = s_queued s /\ s_ob_reg s' = s_ob_reg s).
Proof.
  intros (Hw & Hc & H0 & Hle & Hq & Ha) Hd Hno. pose proof (pending_nonneg _ Hq) as Hp.
  unfold nghttp2_session_update_recv_connection_window_size, adjust_recv_window_size, windows_of in *.
  rewrite !int32_ok by window_arith. cbn [mbind option_bind]. rewrite !(proj2 (Z.ltb_ge _ _)) by window_arith. cbn [orb mbind option_bind Z.eqb negb].
  cbn [set_sizes s_no_auto s_queued s_local s_recv]. rewrite Hno. cbn [negb andb].
  destruct (s_queued s) eqn:Eq; cbn [negb andb]; [eexists; split; [done|]; split; [done|]; split; [done|]; right; done|].
  destruct (nghttp2_should_send_window_update _ _) eqn:Es.
  - apply andb_true_iff in Es as [Es%Z.ltb_lt _]. match goal with |- context [nghttp2_session_add_window_update ?n ?t] => destruct (add_update_ok n t) as [m ->] end.
    cbn [Z.eqb negb]. eexists. split; [done|]. split; [done|]. split; [done|]. by left.
  - eexists. split; [done|]. split; [done|]. split; [done|]. right. split; [|done]. intros _ Hpos. revert Es. unfold nghttp2_should_send_window_update.
    destruct (Z.ltb_spec 0 (s_recv s + d)); [|lia]. cbn [andb]. intros Es%Z.leb_gt. rewrite Z.quot_div_nonneg in Es by lia.
    Z.div_mod_to_equations. lia.
Qed.

(** The items that are still sent when nothing else happens. *)
Definition backlog (s : session) : nat := length (s_ob_reg s) + (if 0 <? s_recv s then 1 else 0).

Lemma update_recv_live d s c : flow_inv (s, c) -> 0 <= d <= c -> s_no_auto s = false -> c + pending (s_ob_reg s) = s_local s - s_recv s ->
  (s_queued s = true -> 0 < pending (s_ob_reg s)) ->
  exists s', nghttp2_session_update_recv_connection_window_size d s = Some (0, s') /\ flow_live (s', c - d) /\
    (backlog s' <= length (s_ob_reg s) + (if (0 <? s_recv s + d)%Z then 1 else 0))%nat.
Proof.
  intros Hinv Hd Hno Heq Hpend. assert (Hq : Forall update_ok (s_ob_reg s)) by apply Hinv. pose proof (pending_nonneg _ Hq) as Hp. unfold backlog.
  destruct (update_recv_auto d s c Hinv Hd Hno) as (s' & E & El & Hno' & [(Eq & Hpos & Er & Eq' & Eo)|(Hroom & Er & Eq' & Eo)]);
    exists s'; (split; [done|]); unfold flow_live; rewrite Hno', Eo, Eq', El, Er, ?pending_app; cbn [pending].
  - rewrite length_app, (proj2 (Z.ltb_lt 0 (s_recv s + d))) by lia. cbn. split; [|lia]. split; [done|]. lia.
  - split; [|lia]. split; [done|]. split; [lia|]. destruct (s_queued s); [by apply Hpend|]. intros Hl. specialize (Hroom eq_refl Hl). lia.
Qed.

Lemma flow_live_room s c : flow_inv (s, c) -> flow_live (s, c) -> 0 < s_local s -> 0 < c \/ 0 < pending (s_ob_reg s).
Proof. intros _ (_ & Heq & Hq) Hl. destruct (s_queued s); [by right|]. specialize (Hq Hl). lia. Qed.

Lemma set_window_live n s c : flow_inv (s, c) -> flow_live (s, c) -> INT32_MIN <= n <= INT32_MAX ->
  exists rv s', nghttp2_session_set_local_window_size n s = Some (rv, s') /\ flow_live (s', c).
Proof.
  intros Hinv Hlive Hn. destruct Hlive as (Hno & Heq & Hsq) eqn:Hl'. clear Hl'.
  unfold nghttp2_session_set_local_window_size. destruct (Z.ltb_spec n 0) as [_|Hpos]; [by do 2 eexists|].
  destruct (flow_bounds s c Hinv) as (Hl & Hcons & H0).
  rewrite int32_ok by window_arith. cbn [mbind option_bind]. destruct (n - s_local s =? 0); [by do 2 eexists|].
  assert (Hok : windows_ok (windows_of s (n - s_local s))) by (eapply windows_of_ok; [done|window_arith]).
  assert (Hp : s_queued s = true -> 0 < pending (s_ob_reg s)) by (intros E; by rewrite E in Hsq).
  destruct (Z.ltb_spec (n - s_local s) 0) as [Hlt|Hge].
  - destruct (adjust_spec _ Hok) as (rv & w & -> & [(-> & Hok' & Hcr & Hd & Hloc)|(-> & -> & _)]); cbn [mbind option_bind];
      do 2 eexists; (split; [done|]); [|by destruct s]. unfold windows_of, credit in *. cbn [w_local w_recv w_reduction w_delta] in *.
    split; [done|]. cbn. split; [lia|]. destruct (s_queued s); [done|]. lia.
  - destruct (increase_spec _ Hok Hge) as (rv & w & -> & [(-> & Hok' & Hcr & Hd & Hloc)|(-> & -> & _)]); cbn [mbind option_bind Z.eqb negb];
      [|do 2 eexists; split; [done|by destruct s]].
    destruct (new_windows_inv w _ s c Hinv Hok' Hcr) as [Hnew Hroom]; [lia|]. unfold windows_of, credit in *. cbn [w_local w_recv w_reduction w_delta] in *.
    assert (Hpend : 0 <= pending (s_ob_reg s)) by (apply pending_nonneg; apply Hinv).
    destruct (Z.ltb_spec 0 (w_delta w)) as [Hpos'|Hneg].
    + destruct (add_update_ok (w_delta w) (set_windows w s)) as [m ->]. do 2 eexists. split; [done|]. split; [done|]. cbn. rewrite pending_app. cbn. lia.
    + destruct (update_recv_live 0 _ c Hnew) as (s' & E & H & _); cbn [set_windows s_no_auto s_ob_reg s_local s_recv s_queued]; [lia|done|lia|done|].
      rewrite Z.sub_0_r in H. eauto.
Qed.

Lemma sent_live n l m s c : flow_inv (s, c) -> flow_live (s, c) -> s_ob_reg s = WindowUpdate n :: l ->
  exists s', after_window_update_sent (set_outbound l m s) = Some (0, s') /\ flow_live (s', c + n) /\ (backlog s' < backlog s)%nat.
Proof.
  intros Hinv (Hno & Heq & _) El. pose proof (sent_queue_inv n l m s c Hinv El) as Hinv'. destruct (flow_bounds _ _ Hinv') as (_ & _ & H0).
  unfold after_window_update_sent. cbn [s_no_auto set_update_queued set_outbound]. rewrite Hno. rewrite El in Heq. cbn in Heq.
  destruct (update_recv_live 0 _ _ Hinv') as (s' & E & H & Hb); cbn; [lia|done|lia|done|]. rewrite E, Z.sub_0_r in *. eexists. split; [done|].
  split; [done|]. revert Hb. unfold backlog. rewrite El. cbn. rewrite Z.add_0_r. lia.
Qed.

Lemma flow_step_live op s c : flow_inv (s, c) -> flow_live (s, c) -> op_ok op -> live_op op ->
  exists rv x', flow_step op (s, c) = Some (rv, x') /\ flow_inv x' /\ flow_live x' /\
    (op = Send -> s_ob_reg s <> [] -> (backlog (fst x') < backlog s)%nat).
Proof.
  intros Hinv Hlive Hop Hl. destruct (flow_step_inv op s c Hinv Hop) as (rv & x' & E & Hinv' & Ha). exists rv, x'. split; [done|]. split; [done|].
  revert E. unfold flow_step. destruct (flow_bounds s c Hinv) as (_ & _ & H0). pose proof Hlive as (Hno & Heq & Hq).
  assert (Hauto : s_ign_all s = false /\ Forall (fun item => exists n, item = WindowUpdate n) (s_ob_reg s)) by by apply Hinv.
  destruct Hauto as [Hi Hf]. destruct op as [n|n|n|n|]; [| |done| |]; try done.
  - rewrite Hi. cbn in Hop. cbn [orb]. destruct (Z.eqb_spec (Z.min n c) 0) as [->|_]; [rewrite Z.sub_0_r; by intros [= <- <-]|]. destruct (update_recv_live (Z.min n c) s c Hinv) as (s' & -> & H & _); [lia|done|done|intros E; by rewrite E in Hq|].
    cbn [mbind option_bind fst snd]. by intros [= <- <-].
  - destruct (set_window_live n s c Hinv Hlive Hop) as (rv' & s' & -> & H). cbn [mbind option_bind fst snd]. by intros [= <- <-].
  - destruct (s_ob_reg s) as [|item l] eqn:El; [by intros [= <- <-]|]. apply Forall_cons in Hf as [[n ->] Hf].
    destruct (sent_live n l (free (s_mem s) false) s c Hinv Hlive El) as (s' & -> & H & Hb). cbn [mbind option_bind fst snd]. by intros [= <- <-].
Qed.

Lemma flow_run_live ops : forall s c, flow_inv (s, c) -> flow_live (s, c) -> Forall op_ok ops -> Forall live_op ops ->
  exists rvs x', flow_run ops (s, c) = Some (rvs, x') /\ flow_inv x' /\ flow_live x'.
Proof.
  induction ops as [|op ops IH]; intros s c Hinv Hlive Hops Hl; [by do 2 eexists|]. apply Forall_cons in Hops as [Hop Hops].
  apply Forall_cons in Hl as [Hl Hls]. cbn [flow_run]. destruct (flow_step_live op s c Hinv Hlive Hop Hl) as (rv & [s1 c1] & -> & H1 & Hl1 & _).
  cbn [mbind option_bind snd]. destruct (IH s1 c1 H1 Hl1 Hops Hls) as (rvs & x' & -> & H'). cbn [mbind option_bind fst snd]. eauto.
Qed.

Lemma send_empty k s c : s_ob_reg s = [] -> flow_run (repeat Send k) (s, c) = Some (repeat 0 k, (s, c)).
Proof. intros E. induction k as [|k IH]; [done|]. cbn [repeat flow_run]. unfold flow_step. rewrite E. cbn [mbind option_bind fst snd]. by rewrite IH. Qed.

(** The queue runs empty. *)
Lemma drain k : forall s c, flow_inv (s, c) -> flow_live (s, c) -> (backlog s <= k)%nat ->
  exists rvs s' c', flow_run (repeat Send k) (s, c) = Some (rvs, (s', c')) /\ flow_live (s', c') /\ flow_inv (s', c') /\ s_ob_reg s' = [].
Proof.
  induction k as [|k IH]; intros s c Hinv Hlive Hk.
  - do 3 eexists. split; [done|]. split; [done|]. split; [done|]. apply length_zero_iff_nil. unfold backlog in Hk. lia.
  - destruct (decide (s_ob_reg s = [])) as [El|El]; [rewrite (send_empty (S k)) by done; eauto 10|]. cbn [repeat flow_run].
    destruct (flow_step_live Send s c Hinv Hlive I I) as (rv & [s1 c1] & -> & H1 & Hl1 & Hb). cbn [mbind option_bind fst snd] in *.
    destruct (IH s1 c1 H1 Hl1) as (rvs & s' & c' & -> & H'); [specialize (Hb eq_refl El); lia|]. cbn [mbind option_bind fst snd]. eauto 10.
Qed.

(** C34: with automatic updates and an allocator that does not fail, an application that
    changes the window with [nghttp2_session_set_local_window_size] only never leaves the
    peer without one: whatever came before, once what is queued is sent, the peer has a
    window of more than zero, all of what this side expects, unless the application
    set it to zero.  The operations are DATA received, such changes of the window and the
    sending of what is queued ([live_op]): [nghttp2_submit_window_update] and
    [nghttp2_session_consume] are not among them, and the first can leave the window at
    zero for good ([submit_window_update_stalls]). *)
Theorem flow_control_no_stall ops m : Forall op_ok ops -> Forall live_op ops ->
  exists rvs s c, flow_run ops (new_session false m, NGHTTP2_INITIAL_CONNECTION_WINDOW_SIZE) = Some (rvs, (s, c)) /\
    forall k, (length (s_ob_reg s) < k)%nat ->
      exists rvs' s' c', flow_run (repeat Send k) (s, c) = Some (rvs', (s', c')) /\
        s_ob_reg s' = [] /\ c' = s_local s' - s_recv s' /\ (s_local s' <> 0 -> 0 < c').
Proof.
  intros Hops Hl. assert (Hlive : flow_live (new_session false m, NGHTTP2_INITIAL_CONNECTION_WINDOW_SIZE)) by done.
  destruct (flow_run_live ops _ _ (new_session_inv false m) Hlive Hops Hl) as (rvs & [s c] & -> & Hinv & Hlive').
  do 3 eexists. split; [done|]. intros k Hk. destruct (drain k s c Hinv Hlive') as (rvs' & s' & c' & -> & Hlast & Hinv' & Eo).
  { unfold backlog. destruct (0 <? s_recv s); lia. }
  do 3 eexists. split; [done|]. split; [done|]. destruct Hlast as (_ & Heq & Hq), (flow_bounds _ _ Hinv') as (Hloc & _). rewrite Eo in Heq, Hq. cbn in Heq, Hq.
  split; [lia|]. intros Hne. destruct (s_queued s'); lia.
Qed.

End Session.

(** ** Witnesses *)

Example flow_control_safe_witness :
  exists rvs s c, flow_run (fun n => negb (n =? 1)%nat) [Data 40000; Send; SetWindow 1000; Data 70000; Submit 5000; Data 100; SetWindow 200000; Send; Data 1000000; Send; Send]
    (new_session false (Mem 0 0), NGHTTP2_INITIAL_CONNECTION_WINDOW_SIZE) = Some (rvs, (s, c)) /\
    0 <= c /\ c + pending (s_ob_reg s) <= s_local s - s_recv s <= NGHTTP2_MAX_WINDOW_SIZE /\ 0 <= s_local s <= NGHTTP2_MAX_WINDOW_SIZE /\
    nghttp2_session_get_local_window_size s = Some (s_local s - s_recv s) /\
    Forall update_ok (s_ob_reg s) /\
    (false = false -> s_ign_all s = false /\ forall e, Goaway e ∉ s_ob_reg s).
Proof. apply flow_control_safe. repeat constructor; vm_compute; intros [=]. Defined.

Example flow_control_no_stall_witness :
  exists rvs s c, flow_run (fun _ => true) [Data 65535; SetWindow 0; Send; Data 10; SetWindow 70000; Data 10000000]
    (new_session false (Mem 0 0), NGHTTP2_INITIAL_CONNECTION_WINDOW_SIZE) = Some (rvs, (s, c)) /\
    forall k, (length (s_ob_reg s) < k)%nat ->
      exists rvs' s' c', flow_run (fun _ => true) (repeat Send k) (s, c) = Some (rvs', (s', c')) /\
        s_ob_reg s' = [] /\ c' = s_local s' - s_recv s' /\ (s_local s' <> 0 -> 0 < c').
Proof. apply flow_control_no_stall; [done|repeat constructor; vm_compute; intros [=]|repeat constructor]. Defined.

(** With [nghttp2_submit_window_update] the window can stay at zero: after a reduction
    to zero and as much data as the old window allowed, the new window is paid for by
    the reduction, nothing is left to announce, and nothing looks whether the data
    received calls for a WINDOW_UPDATE; the queue is empty, and the peer, whose window is
    zero, sends nothing that would make it so.  The same with
    [nghttp2_session_set_local_window_size] announces 65535 bytes. *)
Theorem submit_window_update_stalls :
  flow_run (fun _ => true) [SetWindow 0; Data 65535; Submit 65535; Send; Data 1; Send] (new_session false (Mem 0 0), NGHTTP2_INITIAL_CONNECTION_WINDOW_SIZE) =
    Some ([0; 0; 0; 0; 0; 0], (Session 65535 65535 0 0 false false false false [] (Mem 0 0), 0)) /\
  exists rvs s, flow_run (fun _ => true) [SetWindow 0; Data 65535; SetWindow 65535; Send; Data 0; Send] (new_session false (Mem 0 0), NGHTTP2_INITIAL_CONNECTION_WINDOW_SIZE) =
    Some (rvs, (s, 65535)).
Proof. split; [vm_compute; reflexivity|]. do 2 eexists. vm_compute. reflexivity. Qed.
