(* ===== verification/NgFrame.v ===== *)
(** * The frames of HTTP/2: [nghttp2_frame.c], [nghttp2_priority_spec.c]

    Every frame is a header of nine bytes and a payload.  A frame to send is written
    into a chain of buffers ([nghttp2_bufs], NgBuf.v) whose chunks leave room for the
    header (and a byte more, for padding) in front of the payload; a frame received is
    read from the bytes of its payload.

    A struct whose pointers lead to memory of its own (SETTINGS, GOAWAY, ALTSVC,
    ORIGIN, PRIORITY_UPDATE) holds the bytes; NULL is the empty list, and the blocks are
    counted by the allocator.  The functions that free them only free one block, and
    are left out.  A failing [assert], reading behind the end of a payload and writing
    outside a block make the result [None]. *)

From stdpp Require Import list sorting.
From S2P Require Import Prelude CLib NgStream NgBuf Huffman HpackInt Rcbuf HdStatic HdTable HdDeflate NgHelper.

(** ** Constants: [nghttp2.h], [nghttp2_frame.h] *)

Definition NGHTTP2_DATA : Z := 0.
Definition NGHTTP2_HEADERS : Z := 1.
Definition NGHTTP2_PRIORITY : Z := 2.
Definition NGHTTP2_RST_STREAM : Z := 3.
Definition NGHTTP2_SETTINGS : Z := 4.
Definition NGHTTP2_PUSH_PROMISE : Z := 5.
Definition NGHTTP2_PING : Z := 6.
Definition NGHTTP2_GOAWAY : Z := 7.
Definition NGHTTP2_WINDOW_UPDATE : Z := 8.
Definition NGHTTP2_CONTINUATION : Z := 9.
Definition NGHTTP2_ALTSVC : Z := 10.
Definition NGHTTP2_ORIGIN : Z := 12.
Definition NGHTTP2_PRIORITY_UPDATE : Z := 16.

Definition NGHTTP2_FLAG_NONE : Z := 0.
Definition NGHTTP2_FLAG_END_STREAM : Z := 1.
Definition NGHTTP2_FLAG_END_HEADERS : Z := 4.
Definition NGHTTP2_FLAG_ACK : Z := 1.
Definition NGHTTP2_FLAG_PADDED : Z := 8.
Definition NGHTTP2_FLAG_PRIORITY : Z := 32.

Definition NGHTTP2_SETTINGS_HEADER_TABLE_SIZE : Z := 1.
Definition NGHTTP2_SETTINGS_ENABLE_PUSH : Z := 2.
Definition NGHTTP2_SETTINGS_MAX_CONCURRENT_STREAMS : Z := 3.
Definition NGHTTP2_SETTINGS_INITIAL_WINDOW_SIZE : Z := 4.
Definition NGHTTP2_SETTINGS_MAX_FRAME_SIZE : Z := 5.
Definition NGHTTP2_SETTINGS_MAX_HEADER_LIST_SIZE : Z := 6.
Definition NGHTTP2_SETTINGS_ENABLE_CONNECT_PROTOCOL : Z := 8.
Definition NGHTTP2_SETTINGS_NO_RFC7540_PRIORITIES : Z := 9.

Definition NGHTTP2_ERR_FRAME_SIZE_ERROR : Z := -522.
Definition NGHTTP2_FRAME_SIZE_ERROR : Z := 6.

Definition NGHTTP2_STREAM_ID_MASK : Z := 2 ^ 31 - 1.
Definition NGHTTP2_WINDOW_SIZE_INCREMENT_MASK : Z := 2 ^ 31 - 1.
Definition NGHTTP2_FRAME_HDLEN : nat := 9.
Definition NGHTTP2_PRIORITY_SPECLEN : nat := 5.
Definition NGHTTP2_FRAME_SETTINGS_ENTRY_LENGTH : nat := 6.
Definition NGHTTP2_MAX_FRAME_SIZE_MAX : Z := 2 ^ 24 - 1.
Definition NGHTTP2_MAX_FRAME_SIZE_MIN : Z := 2 ^ 14.

(** ** [nghttp2_priority_spec] *)

Record nghttp2_priority_spec := PriSpec { pri_stream_id : Z; pri_weight : Z; pri_exclusive : bool }.

Definition NGHTTP2_DEFAULT_WEIGHT : Z := 16.
Definition NGHTTP2_MIN_WEIGHT : Z := 1.
Definition NGHTTP2_MAX_WEIGHT : Z := 256.

Definition nghttp2_priority_spec_init (stream_id weight exclusive : Z) : nghttp2_priority_spec :=
  PriSpec stream_id weight (negb (exclusive =? 0)).

Definition nghttp2_priority_spec_default_init : nghttp2_priority_spec := PriSpec 0 NGHTTP2_DEFAULT_WEIGHT false.

Definition nghttp2_priority_spec_check_default (p : nghttp2_priority_spec) : bool :=
  (pri_stream_id p =? 0) && (pri_weight p =? NGHTTP2_DEFAULT_WEIGHT) && negb (pri_exclusive p).

Definition nghttp2_priority_spec_normalize_weight (p : nghttp2_priority_spec) : nghttp2_priority_spec :=
  if pri_weight p <? NGHTTP2_MIN_WEIGHT then PriSpec (pri_stream_id p) NGHTTP2_MIN_WEIGHT (pri_exclusive p)
  else if NGHTTP2_MAX_WEIGHT <? pri_weight p then PriSpec (pri_stream_id p) NGHTTP2_MAX_WEIGHT (pri_exclusive p)
  else p.

(** ** The frames *)

Record nghttp2_frame_hd := FrameHd { hd_length : Z; hd_stream_id : Z; hd_type : Z; hd_flags : Z; hd_reserved : Z }.

Definition set_hd_length (n : Z) (hd : nghttp2_frame_hd) : nghttp2_frame_hd :=
  FrameHd n (hd_stream_id hd) (hd_type hd) (hd_flags hd) (hd_reserved hd).
Definition set_hd_type (t : Z) (hd : nghttp2_frame_hd) : nghttp2_frame_hd :=
  FrameHd (hd_length hd) (hd_stream_id hd) t (hd_flags hd) (hd_reserved hd).
Definition set_hd_flags (f : Z) (hd : nghttp2_frame_hd) : nghttp2_frame_hd :=
  FrameHd (hd_length hd) (hd_stream_id hd) (hd_type hd) f (hd_reserved hd).

(** [hd.flags & flag] *)
Definition flag_set (hd : nghttp2_frame_hd) (flag : Z) : bool := negb (Z.land (hd_flags hd) flag =? 0).

Record nghttp2_settings_entry := Iv { settings_id : Z; iv_value : Z }.

Record nghttp2_headers := Headers { h_hd : nghttp2_frame_hd; h_padlen : Z; h_pri : nghttp2_priority_spec; h_nva : list nghttp2_nv; h_cat : Z }.
Record nghttp2_push_promise := PushPromise { p_hd : nghttp2_frame_hd; p_padlen : Z; p_nva : list nghttp2_nv; promised_stream_id : Z; p_reserved : Z }.

(** The other members of the union [nghttp2_frame]. *)
Inductive nghttp2_frame :=
| Data (hd : nghttp2_frame_hd) (padlen : Z)
| Priority (hd : nghttp2_frame_hd) (pri_spec : nghttp2_priority_spec)
| RstStream (hd : nghttp2_frame_hd) (error_code : Z)
| Settings (hd : nghttp2_frame_hd) (iv : list nghttp2_settings_entry)
| Ping (hd : nghttp2_frame_hd) (opaque_data : list char)
| Goaway (hd : nghttp2_frame_hd) (last_stream_id error_code : Z) (opaque_data : list char) (reserved : Z)
| WindowUpdate (hd : nghttp2_frame_hd) (window_size_increment : Z) (reserved : Z)
| Altsvc (hd : nghttp2_frame_hd) (origin field_value : list char)
| Origin (hd : nghttp2_frame_hd) (ov : list (list char))
| PriorityUpdate (hd : nghttp2_frame_hd) (stream_id : Z) (field_value : list char).

Definition frame_hd (f : nghttp2_frame) : nghttp2_frame_hd :=
  match f with
  | Data hd _ | Priority hd _ | RstStream hd _ | Settings hd _ | Ping hd _ | Goaway hd _ _ _ _ | WindowUpdate hd _ _ | Altsvc hd _ _ | Origin hd _
  | PriorityUpdate hd _ _ => hd
  end.

(** *** Making them *)

Definition nghttp2_frame_hd_init (length type flags stream_id : Z) : nghttp2_frame_hd := FrameHd length stream_id type flags 0.

Definition nghttp2_frame_headers_init (flags stream_id cat : Z) (pri_spec : option nghttp2_priority_spec) (nva : list nghttp2_nv) : nghttp2_headers :=
  Headers (nghttp2_frame_hd_init 0 NGHTTP2_HEADERS flags stream_id) 0 (default nghttp2_priority_spec_default_init pri_spec) nva cat.

Definition nghttp2_frame_priority_init (stream_id : Z) (pri_spec : nghttp2_priority_spec) : nghttp2_frame :=
  Priority (nghttp2_frame_hd_init (Z.of_nat NGHTTP2_PRIORITY_SPECLEN) NGHTTP2_PRIORITY NGHTTP2_FLAG_NONE stream_id) pri_spec.

Definition nghttp2_frame_rst_stream_init (stream_id error_code : Z) : nghttp2_frame :=
  RstStream (nghttp2_frame_hd_init 4 NGHTTP2_RST_STREAM NGHTTP2_FLAG_NONE stream_id) error_code.

Definition nghttp2_frame_settings_init (flags : Z) (iv : list nghttp2_settings_entry) : nghttp2_frame :=
  Settings (nghttp2_frame_hd_init (Z.of_nat (length iv * NGHTTP2_FRAME_SETTINGS_ENTRY_LENGTH)) NGHTTP2_SETTINGS flags 0) iv.

Definition nghttp2_frame_push_promise_init (flags stream_id promised_stream_id : Z) (nva : list nghttp2_nv) : nghttp2_push_promise :=
  PushPromise (nghttp2_frame_hd_init 0 NGHTTP2_PUSH_PROMISE flags stream_id) 0 nva promised_stream_id 0.

(** [opaque_data]: the eight bytes, if they are given. *)
Definition nghttp2_frame_ping_init (flags : Z) (opaque_data : option (list char)) : nghttp2_frame :=
  Ping (nghttp2_frame_hd_init 8 NGHTTP2_PING flags 0) (match opaque_data with Some l => take 8 l | None => zeros 8 end).

Definition nghttp2_frame_goaway_init (last_stream_id error_code : Z) (opaque_data : list char) : nghttp2_frame :=
  Goaway (nghttp2_frame_hd_init (8 + Z.of_nat (length opaque_data)) NGHTTP2_GOAWAY NGHTTP2_FLAG_NONE 0) last_stream_id error_code opaque_data 0.

Definition nghttp2_frame_window_update_init (flags stream_id window_size_increment : Z) : nghttp2_frame :=
  WindowUpdate (nghttp2_frame_hd_init 4 NGHTTP2_WINDOW_UPDATE flags stream_id) window_size_increment 0.

Definition nghttp2_frame_trail_padlen (hd : nghttp2_frame_hd) (padlen : Z) : Z :=
  if padlen =? 0 then 0 else padlen - (if flag_set hd NGHTTP2_FLAG_PADDED then 1 else 0).

Definition nghttp2_frame_data_init (flags stream_id : Z) : nghttp2_frame := Data (nghttp2_frame_hd_init 0 NGHTTP2_DATA flags stream_id) 0.

Definition nghttp2_frame_altsvc_init (stream_id : Z) (origin field_value : list char) : nghttp2_frame :=
  Altsvc (nghttp2_frame_hd_init (Z.of_nat (2 + length origin + length field_value)) NGHTTP2_ALTSVC NGHTTP2_FLAG_NONE stream_id) origin field_value.

Definition nghttp2_frame_origin_init (ov : list (list char)) : nghttp2_frame :=
  let payloadlen := fold_left (fun n o => (n + (2 + length o))%nat) ov 0%nat in
  Origin (nghttp2_frame_hd_init (Z.of_nat payloadlen) NGHTTP2_ORIGIN NGHTTP2_FLAG_NONE 0) ov.

Definition nghttp2_frame_priority_update_init (stream_id : Z) (field_value : list char) : nghttp2_frame :=
  PriorityUpdate (nghttp2_frame_hd_init (Z.of_nat (4 + length field_value)) NGHTTP2_PRIORITY_UPDATE NGHTTP2_FLAG_NONE 0) stream_id field_value.

(** ** Bytes *)

(** The nine bytes: the type overwrites the last byte of the shifted length. *)
Definition nghttp2_frame_pack_frame_hd (hd : nghttp2_frame_hd) : list char :=
  take 3 (nghttp2_put_uint32be (u32 (Z.shiftl (hd_length hd) 8))) ++ [uint8 (hd_type hd); uint8 (hd_flags hd)] ++
  nghttp2_put_uint32be (u32 (hd_stream_id hd)).

Definition nghttp2_frame_unpack_frame_hd (buf : list char) : option nghttp2_frame_hd :=
  n ← nghttp2_get_uint32 buf;
  t ← buf !! 3%nat;
  f ← buf !! 4%nat;
  s ← nghttp2_get_uint32 (drop 5 buf);
  Some (FrameHd (Z.shiftr n 8) (Z.land s NGHTTP2_STREAM_ID_MASK) (bval t) (bval f) 0).

Definition nghttp2_frame_pack_priority_spec (p : nghttp2_priority_spec) : list char :=
  match nghttp2_put_uint32be (u32 (pri_stream_id p)) with
  | c :: l => (if pri_exclusive p then orc c (uint8 128) else c) :: l ++ [uint8 (pri_weight p - 1)]
  | [] => []
  end.

Definition nghttp2_frame_unpack_priority_spec (payload : list char) : option nghttp2_priority_spec :=
  n ← nghttp2_get_uint32 payload;
  c ← payload !! 0%nat;
  w ← payload !! 4%nat;
  Some (nghttp2_priority_spec_init (Z.land n NGHTTP2_STREAM_ID_MASK) (bval w + 1) (if Z.land (bval c) 128 =? 0 then 0 else 1)).

Definition nghttp2_frame_pack_settings_payload (iv : list nghttp2_settings_entry) : list char :=
  concat (map (fun e => nghttp2_put_uint16be (u16 (settings_id e)) ++ nghttp2_put_uint32be (iv_value e)) iv).

Definition nghttp2_frame_unpack_settings_entry (payload : list char) : option nghttp2_settings_entry :=
  i ← nghttp2_get_uint16 payload;
  v ← nghttp2_get_uint32 (drop 2 payload);
  Some (Iv i v).

(** *** Writing into a buffer *)

(** Bytes stored at an offset of a block. *)
Definition poke (off : nat) (p : list char) (b : nghttp2_buf) : option nghttp2_buf :=
  if (off + length p <=? nghttp2_buf_cap b)%nat
  then Some (Buf (take off (bytes b) ++ p ++ drop (off + length p) (bytes b)) (pos b) (last b) (mark b)) else None.

(** [pos -= n], not in front of the block. *)
Definition pos_back (n : nat) (b : nghttp2_buf) : option nghttp2_buf :=
  if (n <=? pos b)%nat then Some (Buf (bytes b) (pos b - n) (last b) (mark b)) else None.

(** [pos -= NGHTTP2_FRAME_HDLEN], and the header is stored there. *)
Definition put_frame_hd (hd : nghttp2_frame_hd) (b : nghttp2_buf) : option nghttp2_buf :=
  b ← pos_back NGHTTP2_FRAME_HDLEN b;
  poke (pos b) (nghttp2_frame_pack_frame_hd hd) b.

(** The buffer of the chunk at [i]. *)
Definition on_chunk (i : nat) (f : nghttp2_buf -> option nghttp2_buf) (b : nghttp2_bufs) : option nghttp2_bufs :=
  buf ← chain b !! i;
  buf' ← f buf;
  Some (set_chain (<[i := buf']> (chain b)) b).

(** ** Frames of a fixed or small size

    They are written into the first chunk. *)

(** The header, and a payload behind what is there. *)
Definition put_frame (hd : nghttp2_frame_hd) (payload : list char) (buf : nghttp2_buf) : option nghttp2_buf :=
  buf ← put_frame_hd hd buf; cpymem buf payload.

(** [assert(bufs->head == bufs->cur)], and that there is room for [n] bytes. *)
Definition pack_fixed (n : nat) (hd : nghttp2_frame_hd) (payload : list char) (b : nghttp2_bufs) : option nghttp2_bufs :=
  if negb (cur b =? 0)%nat then None else
  buf ← chain b !! 0%nat;
  if (nghttp2_buf_avail buf <? n)%nat then None else
  on_chunk 0 (put_frame hd payload) b.

Definition nghttp2_frame_pack_priority (hd : nghttp2_frame_hd) (p : nghttp2_priority_spec) (b : nghttp2_bufs) : option nghttp2_bufs :=
  pack_fixed NGHTTP2_PRIORITY_SPECLEN hd (nghttp2_frame_pack_priority_spec p) b.

Definition nghttp2_frame_unpack_priority_payload (hd : nghttp2_frame_hd) (payload : list char) : option nghttp2_frame :=
  p ← nghttp2_frame_unpack_priority_spec payload; Some (Priority hd p).

Definition nghttp2_frame_pack_rst_stream (hd : nghttp2_frame_hd) (error_code : Z) (b : nghttp2_bufs) : option nghttp2_bufs :=
  pack_fixed 4 hd (nghttp2_put_uint32be error_code) b.

Definition nghttp2_frame_unpack_rst_stream_payload (hd : nghttp2_frame_hd) (payload : list char) : option nghttp2_frame :=
  e ← nghttp2_get_uint32 payload; Some (RstStream hd e).

Definition nghttp2_frame_pack_settings (hd : nghttp2_frame_hd) (iv : list nghttp2_settings_entry) (b : nghttp2_bufs) : option (Z * nghttp2_bufs) :=
  if negb (cur b =? 0)%nat then None else
  buf ← chain b !! 0%nat;
  if Z.of_nat (nghttp2_buf_avail buf) <? hd_length hd then Some (NGHTTP2_ERR_FRAME_SIZE_ERROR, b) else
  b ← on_chunk 0 (put_frame hd (nghttp2_frame_pack_settings_payload iv)) b;
  Some (0, b).

Definition nghttp2_frame_unpack_settings_payload (hd : nghttp2_frame_hd) (iv : list nghttp2_settings_entry) : nghttp2_frame := Settings hd iv.

Definition nghttp2_frame_pack_ping (hd : nghttp2_frame_hd) (opaque_data : list char) (b : nghttp2_bufs) : option nghttp2_bufs :=
  pack_fixed 8 hd opaque_data b.

Definition nghttp2_frame_unpack_ping_payload (hd : nghttp2_frame_hd) (payload : list char) : option nghttp2_frame :=
  if (length payload <? 8)%nat then None else Some (Ping hd (take 8 payload)).

Definition nghttp2_frame_pack_window_update (hd : nghttp2_frame_hd) (window_size_increment : Z) (b : nghttp2_bufs) : option nghttp2_bufs :=
  pack_fixed 4 hd (nghttp2_put_uint32be (u32 window_size_increment)) b.

Definition nghttp2_frame_unpack_window_update_payload (hd : nghttp2_frame_hd) (payload : list char) : option nghttp2_frame :=
  n ← nghttp2_get_uint32 payload; Some (WindowUpdate hd (Z.land n NGHTTP2_WINDOW_SIZE_INCREMENT_MASK) 0).

Definition nghttp2_frame_pack_origin (hd : nghttp2_frame_hd) (ov : list (list char)) (b : nghttp2_bufs) : option (Z * nghttp2_bufs) :=
  buf ← chain b !! 0%nat;
  if Z.of_nat (nghttp2_buf_avail buf) <? hd_length hd then Some (NGHTTP2_ERR_FRAME_SIZE_ERROR, b) else
  b ← on_chunk 0 (fun buf =>
        buf ← put_frame hd (concat (map (fun o => nghttp2_put_uint16be (u16 (Z.of_nat (length o))) ++ o) ov)) buf;
        if Z.of_nat (nghttp2_buf_len buf) =? Z.of_nat NGHTTP2_FRAME_HDLEN + hd_length hd then Some buf else None) b;
  Some (0, b).

(** The loop that counts the origins: how many there are, and their bytes with the
    terminators; a failure. *)
Fixpoint count_origins (fuel : nat) (p : list char) (nov len : nat) : option (Z + nat * nat) :=
  match fuel, p with
  | _, [] => Some (inr (nov, len))
  | S fuel, _ =>
      if (length p <? 2)%nat then Some (inl NGHTTP2_ERR_FRAME_SIZE_ERROR) else
      n ← nghttp2_get_uint16 p;
      let originlen := Z.to_nat n in
      let p := drop 2 p in
      if (originlen =? 0)%nat then count_origins fuel p nov len else
      if (length p <? originlen)%nat then Some (inl NGHTTP2_ERR_FRAME_SIZE_ERROR) else
      count_origins fuel (drop originlen p) (S nov) (len + (originlen + 1))
  | O, _ => None
  end.

(** The loop that copies them. *)
Fixpoint copy_origins (fuel : nat) (p : list char) : option (list (list char)) :=
  match fuel, p with
  | _, [] => Some []
  | S fuel, _ =>
      n ← nghttp2_get_uint16 p;
      let originlen := Z.to_nat n in
      let p := drop 2 p in
      if (originlen =? 0)%nat then copy_origins fuel p else
      if (length p <? originlen)%nat then None else
      ov ← copy_origins fuel (drop originlen p);
      Some (take originlen p :: ov)
  | O, _ => None
  end.

(** ** Frames with memory of their own *)

Section Alloc.
Context (malloc_ok : nat -> bool) (junk : nat -> nat -> char).

(** The entries; each turn of both loops of [nghttp2_frame_unpack_origin_payload] takes
    two bytes at least. *)
Definition nghttp2_frame_unpack_origin_payload (hd : nghttp2_frame_hd) (payload : list char) (m : nghttp2_mem)
  : option (Z * option nghttp2_frame * nghttp2_mem) :=
  r ← count_origins (length payload) payload 0 0;
  match r with
  | inl rv => Some (rv, None, m)
  | inr (nov, _) =>
      if (nov =? 0)%nat then Some (0, Some (Origin hd []), m) else
      let '(ok, m) := malloc malloc_ok m in
      if negb ok then Some (NGHTTP2_ERR_NOMEM, None, m) else
      ov ← copy_origins (length payload) payload;
      Some (0, Some (Origin hd ov), m)
  end.

(** The loop over the entries at the offsets of multiples of six. *)
Fixpoint unpack_settings_entries (niv : nat) (payload : list char) : option (list nghttp2_settings_entry) :=
  match niv with
  | O => Some []
  | S niv =>
      e ← nghttp2_frame_unpack_settings_entry payload;
      l ← unpack_settings_entries niv (drop NGHTTP2_FRAME_SETTINGS_ENTRY_LENGTH payload);
      Some (e :: l)
  end.

Definition nghttp2_frame_unpack_settings_payload2 (payload : list char) (m : nghttp2_mem)
  : option (Z * list nghttp2_settings_entry * nghttp2_mem) :=
  let niv := (length payload / NGHTTP2_FRAME_SETTINGS_ENTRY_LENGTH)%nat in
  if (niv =? 0)%nat then Some (0, [], m) else
  let '(ok, m) := malloc malloc_ok m in
  if negb ok then Some (NGHTTP2_ERR_NOMEM, [], m) else
  l ← unpack_settings_entries niv payload;
  Some (0, l, m).

Definition nghttp2_frame_pack_goaway (hd : nghttp2_frame_hd) (last_stream_id error_code : Z) (opaque_data : list char)
    (b : nghttp2_bufs) (m : nghttp2_mem) : option (Z * nghttp2_bufs * nghttp2_mem) :=
  if negb (cur b =? 0)%nat then None else
  b ← on_chunk 0 (put_frame hd (nghttp2_put_uint32be (u32 last_stream_id) ++ nghttp2_put_uint32be error_code)) b;
  r ← nghttp2_bufs_add malloc_ok junk opaque_data b m;
  let '(rv, b, m) := r in
  Some (if rv =? NGHTTP2_ERR_BUFFER_ERROR then NGHTTP2_ERR_FRAME_SIZE_ERROR else rv, b, m).

Definition nghttp2_frame_unpack_goaway_payload (hd : nghttp2_frame_hd) (payload var_gift_payload : list char) : option nghttp2_frame :=
  s ← nghttp2_get_uint32 payload;
  e ← nghttp2_get_uint32 (drop 4 payload);
  Some (Goaway hd (Z.land s NGHTTP2_STREAM_ID_MASK) e var_gift_payload 0).

Definition nghttp2_frame_unpack_goaway_payload2 (hd : nghttp2_frame_hd) (payload : list char) (m : nghttp2_mem)
  : option (Z * option nghttp2_frame * nghttp2_mem) :=
  let var_gift_payload := drop 8 payload in
  if (length var_gift_payload =? 0)%nat then
    f ← nghttp2_frame_unpack_goaway_payload hd payload []; Some (0, Some f, m)
  else
    let '(ok, m) := malloc malloc_ok m in
    if negb ok then Some (NGHTTP2_ERR_NOMEM, None, m) else
    f ← nghttp2_frame_unpack_goaway_payload hd payload var_gift_payload;
    Some (0, Some f, m).

(** [assert(rv == 0)] *)
Definition must_add (data : list char) (bm : nghttp2_bufs * nghttp2_mem) : option (nghttp2_bufs * nghttp2_mem) :=
  r ← nghttp2_bufs_add malloc_ok junk data (fst bm) (snd bm);
  let '(rv, b, m) := r in if rv =? 0 then Some (b, m) else None.

Definition nghttp2_frame_pack_altsvc (hd : nghttp2_frame_hd) (origin field_value : list char) (b : nghttp2_bufs) (m : nghttp2_mem)
  : option (nghttp2_bufs * nghttp2_mem) :=
  buf ← chain b !! 0%nat;
  if (nghttp2_buf_avail buf <? 2 + length origin + length field_value)%nat then None else
  b ← on_chunk 0 (put_frame hd (nghttp2_put_uint16be (u16 (Z.of_nat (length origin))))) b;
  bm ← must_add origin (b, m);
  must_add field_value bm.

(** [payload]: the block of [payloadlen] bytes, which the frame takes over.  An origin
    that ends behind it makes [field_value] a pointer outside of the block. *)
Definition nghttp2_frame_unpack_altsvc_payload (hd : nghttp2_frame_hd) (origin_len : nat) (payload : list char) : option nghttp2_frame :=
  if (length payload <? origin_len)%nat then None else Some (Altsvc hd (take origin_len payload) (drop origin_len payload)).

Definition nghttp2_frame_unpack_altsvc_payload2 (hd : nghttp2_frame_hd) (payload : list char) (m : nghttp2_mem)
  : option (Z * option nghttp2_frame * nghttp2_mem) :=
  if (length payload <? 2)%nat then Some (NGHTTP2_FRAME_SIZE_ERROR, None, m) else
  n ← nghttp2_get_uint16 payload;
  let '(ok, m) := malloc malloc_ok m in
  if negb ok then Some (NGHTTP2_ERR_NOMEM, None, m) else
  f ← nghttp2_frame_unpack_altsvc_payload hd (Z.to_nat n) (drop 2 payload);
  Some (0, Some f, m).

Definition nghttp2_frame_pack_priority_update (hd : nghttp2_frame_hd) (stream_id : Z) (field_value : list char) (b : nghttp2_bufs) (m : nghttp2_mem)
  : option (nghttp2_bufs * nghttp2_mem) :=
  buf ← chain b !! 0%nat;
  if (nghttp2_buf_avail buf <? 4 + length field_value)%nat then None else
  b ← on_chunk 0 (put_frame hd (nghttp2_put_uint32be (u32 stream_id))) b;
  must_add field_value (b, m).

Definition nghttp2_frame_unpack_priority_update_payload (hd : nghttp2_frame_hd) (payload : list char) : option nghttp2_frame :=
  if (length payload <? 4)%nat then None else
  s ← nghttp2_get_uint32 payload;
  Some (PriorityUpdate hd (Z.land s NGHTTP2_STREAM_ID_MASK) (if (4 <? length payload)%nat then drop 4 payload else [])).

Definition nghttp2_frame_iv_copy (iv : list nghttp2_settings_entry) (m : nghttp2_mem) : option (list nghttp2_settings_entry) * nghttp2_mem :=
  if (length iv =? 0)%nat then (None, m) else
  let '(ok, m) := malloc malloc_ok m in
  (if ok then Some iv else None, m).

(** ** Header fields *)

(** [memcmp] of the first [n] bytes. *)
Fixpoint memcmp (a b : list char) (n : nat) : Z :=
  match n, a, b with
  | S n, x :: a, y :: b => if bval x =? bval y then memcmp a b n else if bval x <? bval y then -1 else 1
  | _, _, _ => 0
  end.

Definition nghttp2_nv_equal (a b : nghttp2_nv) : bool :=
  if negb (length (name a) =? length (name b))%nat || negb (length (value a) =? length (value b))%nat then false else
  if negb (memcmp (name a) (name b) (length (name a)) =? 0) then false else
  if negb (memcmp (value a) (value b) (length (value a)) =? 0) then false else true.

Definition bytes_compar (a b : list char) : Z :=
  if (length a =? length b)%nat then memcmp a b (length a) else
  if (length a <? length b)%nat then
    let rv := memcmp a b (length a) in if rv =? 0 then -1 else rv
  else
    let rv := memcmp a b (length b) in if rv =? 0 then 1 else rv.

Definition nghttp2_nv_compare_name (lhs rhs : nghttp2_nv) : Z := bytes_compar (name lhs) (name rhs).

Definition nv_compar (a b : nghttp2_nv) : Z :=
  let rv := bytes_compar (name a) (name b) in
  if rv =? 0 then bytes_compar (value a) (value b) else rv.

Definition nv_le (a b : nghttp2_nv) : Prop := nv_compar a b <= 0.
#[export] Instance nv_le_dec a b : Decision (nv_le a b) := decide (nv_compar a b <= 0).

(** [qsort]; the order of fields that compare equal is not determined. *)
Definition nghttp2_nv_array_sort (nva : list nghttp2_nv) : list nghttp2_nv := merge_sort nv_le nva.

Definition NGHTTP2_NV_FLAG_NO_COPY_NAME : Z := 2.
Definition NGHTTP2_NV_FLAG_NO_COPY_VALUE : Z := 4.

(** A field as it is copied: a name that is copied is put in lower case; one that is
    not remains the application's. *)
Definition copy_nv (n : nghttp2_nv) : option nghttp2_nv :=
  nm ← (if Z.land (flags n) NGHTTP2_NV_FLAG_NO_COPY_NAME =? 0 then nghttp2_downcase (name n) else Some (name n));
  Some (Nv nm (value n) (flags n)).

Definition nghttp2_nv_array_copy (nva : list nghttp2_nv) (m : nghttp2_mem) : option (Z * list nghttp2_nv * nghttp2_mem) :=
  if (length nva =? 0)%nat then Some (0, [], m) else
  let '(ok, m) := malloc malloc_ok m in
  if negb ok then Some (NGHTTP2_ERR_NOMEM, [], m) else
  l ← mapM copy_nv nva;
  Some (0, l, m).

Definition nghttp2_iv_check (iv : list nghttp2_settings_entry) : bool :=
  forallb (fun e =>
    let i := settings_id e in let v := iv_value e in
    if (i =? NGHTTP2_SETTINGS_ENABLE_PUSH) || (i =? NGHTTP2_SETTINGS_ENABLE_CONNECT_PROTOCOL) || (i =? NGHTTP2_SETTINGS_NO_RFC7540_PRIORITIES)
    then (v =? 0) || (v =? 1)
    else if i =? NGHTTP2_SETTINGS_INITIAL_WINDOW_SIZE then v <=? NGHTTP2_MAX_WINDOW_SIZE
    else if i =? NGHTTP2_SETTINGS_MAX_FRAME_SIZE then (NGHTTP2_MAX_FRAME_SIZE_MIN <=? v) && (v <=? NGHTTP2_MAX_FRAME_SIZE_MAX)
    else true) iv.

(** *** HEADERS, PUSH_PROMISE and CONTINUATION *)

Definition nghttp2_frame_priority_len (hd : nghttp2_frame_hd) : nat := if flag_set hd NGHTTP2_FLAG_PRIORITY then NGHTTP2_PRIORITY_SPECLEN else 0.

Definition nghttp2_frame_headers_payload_nv_offset (f : nghttp2_headers) : nat := nghttp2_frame_priority_len (h_hd f).

(** The header of a frame whose payload is in the buffer. *)
Definition put_own_hd (hd : nghttp2_frame_hd) (buf : nghttp2_buf) : option nghttp2_buf :=
  put_frame_hd (set_hd_length (Z.of_nat (nghttp2_buf_len buf)) hd) buf.

(** The loop from [ci] to [ce]: [n] chunks. *)
Fixpoint put_continuations (n ci : nat) (hd : nghttp2_frame_hd) (b : nghttp2_bufs) : option nghttp2_bufs :=
  match n with
  | O => Some b
  | S n => b ← on_chunk ci (put_own_hd hd) b; put_continuations n (S ci) hd b
  end.

Definition frame_pack_headers_shared (b : nghttp2_bufs) (frame_hd : nghttp2_frame_hd) : option nghttp2_bufs :=
  let several := negb (cur b =? 0)%nat in
  let hd := if several then set_hd_flags (Z.land (hd_flags frame_hd) (Z.lnot NGHTTP2_FLAG_END_HEADERS)) frame_hd else frame_hd in
  b ← on_chunk 0 (put_own_hd hd) b;
  if negb several then Some b else
  let hd := set_hd_flags NGHTTP2_FLAG_NONE (set_hd_type NGHTTP2_CONTINUATION hd) in
  b ← put_continuations (cur b - 1) 1 hd b;
  on_chunk (cur b) (put_own_hd (set_hd_flags NGHTTP2_FLAG_END_HEADERS hd)) b.

(** [pos += nv_offset; last = pos], inside the block. *)
Definition skip_front (n : nat) (buf : nghttp2_buf) : option nghttp2_buf :=
  if (pos buf + n <=? nghttp2_buf_cap buf)%nat then Some (Buf (bytes buf) (pos buf + n) (pos buf + n) (mark buf)) else None.

(** The header block of a frame, [nv_offset] bytes behind the start of the payload. *)
Definition deflate_payload (nv_offset : nat) (nva : list nghttp2_nv) (d : nghttp2_hd_deflater) (o : output) : option (Z * nghttp2_hd_deflater * output) :=
  if negb (cur (fst o) =? 0)%nat then None else
  b ← on_chunk 0 (skip_front nv_offset) (fst o);
  r ← nghttp2_hd_deflate_hd_bufs malloc_ok junk d nva (b, snd o);
  let '(rv, d, o) := r in
  let rv := if rv =? NGHTTP2_ERR_BUFFER_ERROR then NGHTTP2_ERR_HEADER_COMP else rv in
  b ← on_chunk 0 (pos_back nv_offset) (fst o);
  Some (rv, d, (b, snd o)).

Definition nghttp2_frame_pack_headers (f : nghttp2_headers) (d : nghttp2_hd_deflater) (o : output)
  : option (Z * nghttp2_headers * nghttp2_hd_deflater * output) :=
  r ← deflate_payload (nghttp2_frame_headers_payload_nv_offset f) (h_nva f) d o;
  let '(rv, d, o) := r in
  if negb (rv =? 0) then Some (rv, f, d, o) else
  b ← (if flag_set (h_hd f) NGHTTP2_FLAG_PRIORITY
       then on_chunk 0 (fun buf => poke (pos buf) (nghttp2_frame_pack_priority_spec (h_pri f)) buf) (fst o) else Some (fst o));
  let hd := set_hd_length (Z.of_nat (nghttp2_bufs_len b)) (h_hd f) in
  b ← frame_pack_headers_shared b hd;
  Some (0, Headers hd 0 (h_pri f) (h_nva f) (h_cat f), d, (b, snd o)).

Definition nghttp2_frame_pack_push_promise (f : nghttp2_push_promise) (d : nghttp2_hd_deflater) (o : output)
  : option (Z * nghttp2_push_promise * nghttp2_hd_deflater * output) :=
  r ← deflate_payload 4 (p_nva f) d o;
  let '(rv, d, o) := r in
  if negb (rv =? 0) then Some (rv, f, d, o) else
  b ← on_chunk 0 (fun buf => poke (pos buf) (nghttp2_put_uint32be (u32 (promised_stream_id f))) buf) (fst o);
  let hd := set_hd_length (Z.of_nat (nghttp2_bufs_len b)) (p_hd f) in
  b ← frame_pack_headers_shared b hd;
  Some (0, PushPromise hd 0 (p_nva f) (promised_stream_id f) (p_reserved f), d, (b, snd o)).

(** The header block itself is left for the inflater. *)
Definition nghttp2_frame_unpack_headers_payload (f : nghttp2_headers) (payload : list char) : option nghttp2_headers :=
  p ← (if flag_set (h_hd f) NGHTTP2_FLAG_PRIORITY then nghttp2_frame_unpack_priority_spec payload else Some nghttp2_priority_spec_default_init);
  Some (Headers (h_hd f) (h_padlen f) p [] (h_cat f)).

Definition nghttp2_frame_unpack_push_promise_payload (f : nghttp2_push_promise) (payload : list char) : option nghttp2_push_promise :=
  s ← nghttp2_get_uint32 payload;
  Some (PushPromise (p_hd f) (p_padlen f) [] (Z.land s NGHTTP2_STREAM_ID_MASK) (p_reserved f)).
End Alloc.

(** ** Padding *)

Definition frame_set_pad (padlen : Z) (framehd_only : bool) (buf : nghttp2_buf) : option nghttp2_buf :=
  let framehd := take NGHTTP2_FRAME_HDLEN (drop (pos buf) (bytes buf)) in
  buf ← pos_back 1 buf;
  buf ← poke (pos buf) framehd buf;
  f ← bytes buf !! (pos buf + 4)%nat;
  buf ← poke (pos buf + 4) [orc f (uint8 NGHTTP2_FLAG_PADDED)] buf;
  n ← nghttp2_get_uint32 (drop (pos buf) (bytes buf));
  t ← bytes buf !! (pos buf + 3)%nat;
  let newlen := Z.shiftr n 8 + padlen in
  buf ← poke (pos buf) (nghttp2_put_uint32be (u32 (Z.shiftl newlen 8 + bval t))) buf;
  if framehd_only then Some buf else
  let trail_padlen := padlen - 1 in
  buf ← poke (pos buf + NGHTTP2_FRAME_HDLEN) [uint8 trail_padlen] buf;
  cpymem buf (zeros (Z.to_nat trail_padlen)).

Definition nghttp2_frame_add_pad (b : nghttp2_bufs) (hd : nghttp2_frame_hd) (padlen : Z) (framehd_only : bool) : option (nghttp2_bufs * nghttp2_frame_hd) :=
  if padlen =? 0 then Some (b, hd) else
  buf ← chain b !! 0%nat;
  if Z.of_nat (nghttp2_buf_avail buf) <? padlen - 1 then None else
  b ← on_chunk 0 (frame_set_pad padlen framehd_only) b;
  Some (b, set_hd_flags (Z.lor (hd_flags hd) NGHTTP2_FLAG_PADDED) (set_hd_length (hd_length hd + padlen) hd)).
