(* ===== verification/NgFrameSpec.v ===== *)
(** * The frames of HTTP/2: what NgFrame.v writes and reads

    [frame_roundtrip]: a frame packed into a fresh chain is its header and its payload,
    and read back it is the frame again.  [origin_payload_correct]: which ORIGIN
    payloads are refused.  [pack_headers_correct]: a header block becomes one HEADERS
    frame and as many CONTINUATION frames as there are chunks, whose fragments are the
    block.  [add_pad_correct]: padding. *)

From stdpp Require Import gmap list sorting.
From S2P Require Import Prelude CLib NgStream NgBuf HuffTable Huffman HuffSpec HpackInt Rcbuf HdStatic HdTable HdTableSpec HdDeflate Hpack HdDeflateSpec NgHelper NgFrame.

(** ** Bytes *)

Lemma get_put16_u n r : 0 <= n < 2 ^ 16 -> nghttp2_get_uint16 (nghttp2_put_uint16be (u16 n) ++ r) = Some n.
Proof. intros H. unfold u16. rewrite Z.mod_small by done. by apply get_put16. Qed.

Lemma get_put32_u n r : 0 <= n < 2 ^ 32 -> nghttp2_get_uint32 (nghttp2_put_uint32be (u32 n) ++ r) = Some n.
Proof. intros H. unfold u32. rewrite Z.mod_small by done. by apply get_put32. Qed.

(** The mask of a stream identifier or an increment takes the reserved bit. *)
Lemma mask31 n : 0 <= n < 2 ^ 31 -> Z.land n (2 ^ 31 - 1) = n.
Proof. intros H. rewrite <- (Z.ones_equiv 31 : Z.ones 31 = 2 ^ 31 - 1), Z.land_ones by lia. by apply Z.mod_small. Qed.

Definition hd_ok (hd : nghttp2_frame_hd) : Prop :=
  0 <= hd_length hd < 2 ^ 24 /\ 0 <= hd_stream_id hd < 2 ^ 31 /\ 0 <= hd_type hd < 256 /\ 0 <= hd_flags hd < 256 /\ hd_reserved hd = 0.

Lemma length_pack_hd hd : length (nghttp2_frame_pack_frame_hd hd) = NGHTTP2_FRAME_HDLEN.
Proof. done. Qed.

Lemma unpack_pack_hd hd r : hd_ok hd -> nghttp2_frame_unpack_frame_hd (nghttp2_frame_pack_frame_hd hd ++ r) = Some hd.
Proof.
  intros (Hl & Hs & Ht & Hf & Hr). unfold nghttp2_frame_unpack_frame_hd, nghttp2_frame_pack_frame_hd.
  assert (E : nghttp2_get_uint32 ((take 3 (nghttp2_put_uint32be (u32 (Z.shiftl (hd_length hd) 8))) ++ [uint8 (hd_type hd); uint8 (hd_flags hd)] ++ nghttp2_put_uint32be (u32 (hd_stream_id hd))) ++ r)
    = Some (hd_length hd * 2 ^ 8 + hd_type hd)).
  { cbn -[Z.pow]. rewrite Z.shiftl_mul_pow2 by lia. unfold u32. rewrite !HpackInt.bval_u8, !shiftr_div by lia. unfold u8. f_equal. Z.div_mod_to_equations. lia. }
  rewrite E. cbn [mbind option_bind]. cbn [nghttp2_put_uint32be be32 take app lookup list_lookup mbind option_bind drop].
  change (nghttp2_get_uint32 _) with (nghttp2_get_uint32 (nghttp2_put_uint32be (u32 (hd_stream_id hd)) ++ r)).
  rewrite get_put32_u by lia. cbn [mbind option_bind]. unfold NGHTTP2_STREAM_ID_MASK. rewrite mask31, !bval_uint8, shiftr_div by lia.
  replace ((hd_length hd * 2 ^ 8 + hd_type hd) / 2 ^ 8) with (hd_length hd) by (Z.div_mod_to_equations; lia).
  destruct hd; cbn in *. by subst.
Qed.

Definition pri_ok (p : nghttp2_priority_spec) : Prop := 0 <= pri_stream_id p < 2 ^ 31 /\ 1 <= pri_weight p <= 256.

Lemma length_pack_pri p : length (nghttp2_frame_pack_priority_spec p) = NGHTTP2_PRIORITY_SPECLEN.
Proof. done. Qed.

(** The exclusive bit takes the reserved bit of the identifier. *)
Lemma exclusive_bit c : bval c < 128 -> bval (orc c (uint8 128)) = bval c + 128.
Proof. revert c. by_every_char. Qed.

Lemma exclusive_test c : (Z.land (bval c) 128 =? 0) = (bval c <? 128).
Proof. revert c. by_every_char. Qed.

Lemma first_byte n : 0 <= n < 2 ^ 31 -> bval (uint8 (Z.shiftr n 24)) < 128.
Proof. intros H. rewrite HpackInt.bval_u8, shiftr_div by lia. unfold u8. Z.div_mod_to_equations. lia. Qed.

Lemma unpack_pack_pri p r : pri_ok p -> nghttp2_frame_unpack_priority_spec (nghttp2_frame_pack_priority_spec p ++ r) = Some p.
Proof.
  intros [Hs Hw]. unfold nghttp2_frame_unpack_priority_spec, nghttp2_frame_pack_priority_spec.
  pose proof (get_put32_u (pri_stream_id p) ([uint8 (pri_weight p - 1)] ++ r) ltac:(lia)) as E.
  assert (Eu : u32 (pri_stream_id p) = pri_stream_id p) by (unfold u32; apply Z.mod_small; lia). rewrite Eu in *.
  pose proof (first_byte (pri_stream_id p) ltac:(lia)) as H0.
  assert (Hsmall : Z.land (pri_stream_id p) NGHTTP2_STREAM_ID_MASK = pri_stream_id p) by (by apply mask31).
  unfold nghttp2_put_uint32be, be32 in *. cbn [app lookup list_lookup] in *. set (c0 := uint8 (Z.shiftr (pri_stream_id p) 24)) in *.
  unfold nghttp2_get_uint32 in *. injection E as E. destruct p as [n w x]. cbn [pri_stream_id pri_weight pri_exclusive] in *.
  destruct x; cbn [mbind option_bind].
  - rewrite exclusive_test, !exclusive_bit by done. rewrite (proj2 (Z.ltb_ge _ 128)) by (pose proof (bval_range c0); lia).
    rewrite (Z.mul_add_distr_r (bval c0) 128). replace (Z.land _ _) with n.
    + rewrite bval_uint8 by lia. unfold nghttp2_priority_spec_init. do 2 f_equal. lia.
    + rewrite <- Hsmall at 1. unfold NGHTTP2_STREAM_ID_MASK in *. change (2 ^ 31 - 1) with (Z.ones 31) in *. rewrite !Z.land_ones by lia.
      rewrite <- (Z.mod_add n 1 (2 ^ 31)) by lia. f_equal. lia.
  - rewrite E, Hsmall, exclusive_test, (proj2 (Z.ltb_lt _ 128)), bval_uint8 by lia. unfold nghttp2_priority_spec_init. do 2 f_equal. lia.
Qed.

Definition iv_ok (e : nghttp2_settings_entry) : Prop := 0 <= settings_id e < 2 ^ 16 /\ 0 <= iv_value e < 2 ^ 32.

Lemma length_pack_settings iv : length (nghttp2_frame_pack_settings_payload iv) = (length iv * NGHTTP2_FRAME_SETTINGS_ENTRY_LENGTH)%nat.
Proof. induction iv as [|e iv IH]; [done|]. unfold nghttp2_frame_pack_settings_payload in *. cbn [map concat]. rewrite length_app, IH. done. Qed.

Lemma unpack_pack_settings iv : Forall iv_ok iv -> unpack_settings_entries (length iv) (nghttp2_frame_pack_settings_payload iv) = Some iv.
Proof.
  induction 1 as [|e iv [Hi Hv] _ IH]; [done|]. unfold nghttp2_frame_pack_settings_payload in *. cbn [length unpack_settings_entries map concat].
  rewrite <- app_assoc. unfold nghttp2_frame_unpack_settings_entry. rewrite get_put16_u by done. cbn [mbind option_bind].
  change (drop 2 _) with (nghttp2_put_uint32be (iv_value e) ++ concat (map (fun e => nghttp2_put_uint16be (u16 (settings_id e)) ++ nghttp2_put_uint32be (iv_value e)) iv)).
  rewrite get_put32 by done. cbn [mbind option_bind].
  change (drop NGHTTP2_FRAME_SETTINGS_ENTRY_LENGTH _) with (concat (map (fun e => nghttp2_put_uint16be (u16 (settings_id e)) ++ nghttp2_put_uint32be (iv_value e)) iv)).
  rewrite IH. cbn [mbind option_bind]. by destruct e.
Qed.

(** *** ORIGIN *)

Definition origin_bytes (ov : list (list char)) : list char := concat (map (fun o => nghttp2_put_uint16be (u16 (Z.of_nat (length o))) ++ o) ov).
Definition short (o : list char) : Prop := Z.of_nat (length o) < 2 ^ 16.
Definition nonempty (o : list char) : bool := negb (length o =? 0)%nat.

Lemma origin_first o ov : short o -> exists a b, nghttp2_put_uint16be (u16 (Z.of_nat (length o))) = [a; b] /\
  origin_bytes (o :: ov) = a :: b :: o ++ origin_bytes ov /\ forall r, nghttp2_get_uint16 (a :: b :: r) = Some (Z.of_nat (length o)).
Proof.
  intros H. eexists _, _. split; [done|]. split; [unfold origin_bytes; cbn [map concat]; by rewrite <- app_assoc|].
  intros r. apply (get_put16_u (Z.of_nat (length o)) r). unfold short in H. lia.
Qed.

Lemma put_get16 a b p n : nghttp2_get_uint16 (a :: b :: p) = Some n -> nghttp2_put_uint16be (u16 n) = [a; b].
Proof.
  cbn -[Z.pow]. intros [= <-]. pose proof (bval_range a). pose proof (bval_range b).
  assert (Eu : u16 (bval a * 2 ^ 8 + bval b) = bval a * 2 ^ 8 + bval b) by (unfold u16; apply Z.mod_small; lia). rewrite Eu.
  unfold nghttp2_put_uint16be. rewrite !shiftr_div by lia.
  assert (E : forall x y, x mod 256 = bval y -> uint8 x = y) by (intros x y Exy; by rewrite <- uint8_mod, Exy, uint8_bval).
  f_equal; [|f_equal]; apply E; Z.div_mod_to_equations; lia.
Qed.

(** The two loops: a payload is a list of origins, or it is refused. *)
Lemma origins_spec fuel : forall p nov len, (length p <= fuel)%nat ->
  (exists ov, p = origin_bytes ov /\ Forall short ov /\ copy_origins fuel p = Some (List.filter nonempty ov) /\
     count_origins fuel p nov len = Some (inr (nov + length (List.filter nonempty ov), len + sum_nat (map (fun o => length o + 1) (List.filter nonempty ov)))%nat)) \/
  (count_origins fuel p nov len = Some (inl NGHTTP2_ERR_FRAME_SIZE_ERROR) /\ forall ov, Forall short ov -> p <> origin_bytes ov).
Proof.
  induction fuel as [|fuel IH]; intros p nov len Hf.
  { left. destruct p; [|cbn in Hf; lia]. exists []. cbn. rewrite !Nat.add_0_r. by repeat constructor. }
  destruct p as [|a p]; [left; exists []; cbn; rewrite !Nat.add_0_r; by repeat constructor|].
  destruct p as [|b p].
  { right. split; [done|]. intros [|o ov] Hs; [done|]. apply Forall_cons in Hs as [Ho _]. destruct (origin_first o ov Ho) as (x & y & _ & -> & _). done. }
  cbn [count_origins copy_origins]. change (length (a :: b :: p) <? 2)%nat with false. change (drop 2 (a :: b :: p)) with p. cbv iota.
  destruct (nghttp2_get_uint16 (a :: b :: p)) as [n|] eqn:En; [|done]. cbn [mbind option_bind].
  pose proof (get16_range _ _ En) as Hn.
  assert (Hhead : forall r, a :: b :: r = nghttp2_put_uint16be (u16 n) ++ r).
  { intros r. by rewrite (put_get16 a b p n En). }
  assert (Hcut : forall ov, Forall short ov -> a :: b :: p = origin_bytes ov -> exists o ov', ov = o :: ov' /\ p = o ++ origin_bytes ov' /\ n = Z.of_nat (length o)).
  { intros [|o ov] Hs E; [done|]. apply Forall_cons in Hs as [Ho _]. destruct (origin_first o ov Ho) as (x & y & _ & E' & Hg). rewrite E' in E. injection E as -> -> ->.
    exists o, ov. rewrite Hg in En. injection En as <-. done. }
  assert (Hz : n = Z.of_nat (Z.to_nat n)) by lia. cbn in Hf.
  destruct (Nat.eqb_spec (Z.to_nat n) 0) as [E0|E0].
  - destruct (IH p nov len ltac:(lia)) as [(ov & Ep & Hs & Hcp & Hct)|[Hct Hno]].
    + left. exists ([] :: ov). split; [rewrite Hhead, Ep; replace n with 0 by lia; done|]. split; [by constructor|]. done.
    + right. split; [done|]. intros ov Hs E. destruct (Hcut ov Hs E) as (o & ov' & -> & -> & Hl). destruct o; [|cbn in Hl; lia].
      apply Forall_cons in Hs as [_ Hs]. by apply (Hno ov' Hs).
  - destruct (Nat.ltb_spec (length p) (Z.to_nat n)) as [Hlt|Hge].
    { right. split; [done|]. intros ov Hs E. destruct (Hcut ov Hs E) as (o & ov' & -> & -> & Hl). rewrite length_app in Hlt. lia. }
    assert (Hlen : length (take (Z.to_nat n) p) = Z.to_nat n) by (rewrite length_take; lia).
    destruct (IH (drop (Z.to_nat n) p) (S nov) (len + (Z.to_nat n + 1))%nat) as [(ov & Ep & Hs & Hcp & Hct)|[Hct Hno]]; [rewrite length_drop; lia| |].
    + left. exists (take (Z.to_nat n) p :: ov). split.
      { unfold origin_bytes. cbn [map concat]. fold (origin_bytes ov). rewrite Hlen, <- Hz, <- app_assoc, <- Ep, take_drop. apply Hhead. }
      split; [constructor; [unfold short; rewrite Hlen; lia|done]|]. rewrite Hcp. cbn [mbind option_bind List.filter].
      assert (Hne : nonempty (take (Z.to_nat n) p) = true) by (unfold nonempty; rewrite Hlen; by apply negb_true_iff, Nat.eqb_neq). rewrite Hne.
      split; [done|]. rewrite Hct. cbn [length map sum_nat fold_right]. rewrite Hlen. do 3 f_equal; [lia|]. unfold sum_nat. lia.
    + right. split; [done|]. intros ov Hs E. destruct (Hcut ov Hs E) as (o & ov' & -> & -> & Hl). apply Forall_cons in Hs as [_ Hs].
      apply (Hno ov' Hs). rewrite drop_app_length' by lia. done.
Qed.

(** ** One buffer *)

(** Bytes stored between [pos] and [last]. *)
Lemma poke_spec off k p b : wf_buf off b -> (k + length p <= nghttp2_buf_len b)%nat ->
  exists b', poke (pos b + k) p b = Some b' /\ wf_buf off b' /\ present b' = take k (present b) ++ p ++ drop (k + length p) (present b) /\
    nghttp2_buf_cap b' = nghttp2_buf_cap b /\ pos b' = pos b /\ last b' = last b.
Proof.
  intros (H1 & H2 & H3) Hk. unfold poke, nghttp2_buf_len, nghttp2_buf_cap in *. rewrite (proj2 (Nat.leb_le _ _)) by lia.
  eexists. split; [done|]. unfold wf_buf, nghttp2_buf_cap, present, nghttp2_buf_len. cbn [bytes pos last].
  assert (Hc : length (take (pos b + k) (bytes b) ++ p ++ drop (pos b + k + length p) (bytes b)) = length (bytes b)).
  { rewrite !length_app, length_take, length_drop. lia. }
  rewrite Hc. split; [done|]. split; [|done].
  rewrite drop_app_le by (rewrite length_take; lia). rewrite skipn_firstn_comm. replace (pos b + k - pos b)%nat with k by lia.
  rewrite take_app. rewrite length_take, length_drop. replace (min k (length (bytes b) - pos b)) with k by lia.
  rewrite take_take, Nat.min_r by lia. rewrite take_take, Nat.min_l by lia. f_equal.
  rewrite take_app. f_equal; [by apply take_ge; lia|]. rewrite skipn_firstn_comm, drop_drop. f_equal; [lia|]. f_equal. lia.
Qed.

(** [pos] moves over bytes whose values do not matter. *)
Lemma pos_back_spec off n b : wf_buf off b -> (n <= pos b)%nat ->
  exists b' l, pos_back n b = Some b' /\ wf_buf off b' /\ length l = n /\ present b' = l ++ present b /\
    nghttp2_buf_cap b' = nghttp2_buf_cap b /\ pos b' = (pos b - n)%nat /\ last b' = last b.
Proof.
  intros (H1 & H2 & H3) Hn. unfold pos_back. rewrite (proj2 (Nat.leb_le _ _)) by done.
  eexists _, (take n (drop (pos b - n) (bytes b))). split; [done|]. unfold wf_buf, present, nghttp2_buf_len, nghttp2_buf_cap in *. cbn [bytes pos last].
  split; [lia|]. split; [rewrite length_take, length_drop; lia|]. split; [|done].
  rewrite <- (take_drop n (drop (pos b - n) (bytes b))) at 1. rewrite drop_drop. replace (pos b - n + n)%nat with (pos b) by lia.
  rewrite take_app, length_take, length_drop. rewrite take_ge by (rewrite length_take, length_drop; lia). do 2 f_equal. lia.
Qed.

Lemma put_frame_hd_spec off hd b : wf_buf off b -> (NGHTTP2_FRAME_HDLEN <= pos b)%nat ->
  exists b', put_frame_hd hd b = Some b' /\ wf_buf off b' /\ present b' = nghttp2_frame_pack_frame_hd hd ++ present b /\
    nghttp2_buf_cap b' = nghttp2_buf_cap b /\ pos b' = (pos b - NGHTTP2_FRAME_HDLEN)%nat /\ last b' = last b.
Proof.
  intros Hw Hp. unfold put_frame_hd. destruct (pos_back_spec off _ b Hw Hp) as (b1 & l & -> & Hw1 & Hl & Hpr & Hc & Hpos & Hla). cbn [mbind option_bind].
  destruct (poke_spec off 0 (nghttp2_frame_pack_frame_hd hd) b1 Hw1) as (b' & E & Hw' & Hpr' & Hc' & Hpos' & Hla').
  { rewrite length_pack_hd. unfold nghttp2_buf_len. destruct Hw. lia. }
  rewrite Nat.add_0_r in E. exists b'. rewrite E. split; [done|]. split; [done|]. rewrite Hpr', Hpr, length_pack_hd, Hc', Hpos', Hla'.
  split; [|done]. cbn [take app]. rewrite drop_app_length' by (by rewrite Hl). done.
Qed.

Lemma put_frame_spec off hd p b : wf_buf off b -> (NGHTTP2_FRAME_HDLEN <= pos b)%nat -> (length p <= nghttp2_buf_avail b)%nat ->
  exists b', put_frame hd p b = Some b' /\ wf_buf off b' /\ present b' = nghttp2_frame_pack_frame_hd hd ++ present b ++ p /\
    nghttp2_buf_cap b' = nghttp2_buf_cap b /\ last b' = (last b + length p)%nat /\ pos b' = (pos b - NGHTTP2_FRAME_HDLEN)%nat.
Proof.
  intros Hw Hp Hl. unfold put_frame. destruct (put_frame_hd_spec off hd b Hw Hp) as (b1 & -> & Hw1 & Hpr & Hc & Hpos & Hla). cbn [mbind option_bind].
  destruct (cpymem_spec off b1 p Hw1) as (b' & -> & Hw' & Hpr' & Hc' & Hpos' & Hla'); [unfold nghttp2_buf_avail in *; by rewrite Hc, Hla|].
  exists b'. split; [done|]. split; [done|]. rewrite Hpr', Hpr, Hc', Hla', Hpos', app_assoc. split; [done|]. split; [done|]. split; [lia|done].
Qed.

(** ** The first chunk *)

(** A chain that nothing has been written to, with room for a header and [n] bytes
    behind it. *)
Definition fresh (b : nghttp2_bufs) (n : nat) : Prop :=
  wf b /\ cur b = 0%nat /\ exists buf, chain b !! 0%nat = Some buf /\ pos buf = last buf /\ (NGHTTP2_FRAME_HDLEN <= pos buf)%nat /\ (n <= nghttp2_buf_avail buf)%nat.

(** The chain [b] after writing: [p] is in the first chunk, which has room for [n] more
    bytes. *)
Definition holds (b b' : nghttp2_bufs) (p : list char) (n : nat) : Prop :=
  exists buf', b' = set_chain (<[0%nat := buf']> (chain b)) b /\ wf_buf (offset b) buf' /\ present buf' = p /\ (n <= nghttp2_buf_avail buf')%nat.

Lemma holds_contents b b' p n : wf b -> cur b = 0%nat -> holds b b' p n -> wf b' /\ contents b' = p.
Proof.
  intros W Hcur (buf' & -> & Hw & Hp & _). pose proof W as [W1 W2 W3 W4 W5 W6 W7]. rewrite Hcur in W2, W3.
  destruct (chain b) as [|buf l] eqn:Ec; [cbn in W2; lia|]. cbn [drop] in W3. split.
  - constructor; cbn; rewrite ?Ec, ?Hcur in *; cbn in *; try done. apply Forall_cons in W1 as [_ W1]. by constructor.
  - unfold contents. cbn. rewrite (untouched_concat (offset b)) by done. by rewrite app_nil_r.
Qed.

Lemma put_frame_holds b hd p n : fresh b (length p + n) -> exists b', on_chunk 0 (put_frame hd p) b = Some b' /\ holds b b' (nghttp2_frame_pack_frame_hd hd ++ p) n.
Proof.
  intros (W & Hcur & buf & E & Hpl & Hhd & Ha). unfold on_chunk. rewrite E. cbn [mbind option_bind].
  destruct (put_frame_spec (offset b) hd p buf) as (buf' & -> & Hw & Hpr & Hc & Hla & _); [by apply (Forall_lookup_1 _ _ _ _ (wf_chunks b W) E)|done|lia|].
  cbn [mbind option_bind]. eexists. split; [done|]. exists buf'. split; [done|]. split; [done|]. rewrite Hpr. unfold present at 1, nghttp2_buf_len. rewrite Hpl, Nat.sub_diag.
  split; [done|]. unfold nghttp2_buf_avail in *. lia.
Qed.

Section Spec.
Context (malloc_ok : nat -> bool) (junk : nat -> nat -> char).

(** Data that fits into the current chunk needs no other. *)
Lemma add_in_place data b m buf : chain b !! cur b = Some buf -> (length data <= nghttp2_buf_avail buf)%nat ->
  nghttp2_bufs_add malloc_ok junk data b m = match data with [] => Some (0, b, m) | _ => b' ← on_cur (fun buf => cpymem buf data) b; Some (0, b', m) end.
Proof.
  intros E Ha. unfold nghttp2_bufs_add. cbn [add_loop]. destruct data as [|c data]; [done|]. change (length (c :: data) =? 0)%nat with false. cbv iota.
  unfold nghttp2_bufs_cur_avail. rewrite E. cbn [fmap option_fmap option_map mbind option_bind]. rewrite Nat.min_r by done.
  change (length (c :: data) =? 0)%nat with false. cbv iota. rewrite take_ge by done. destruct (on_cur _ b) as [b'|]; [|done]. cbn [mbind option_bind].
  rewrite drop_ge by done. change (length (c :: data) + max_chunk b + length (chain b))%nat with (S (length data + max_chunk b + length (chain b))). done.
Qed.

Lemma add_holds b b1 p data n m : cur b = 0%nat -> (0 < length (chain b))%nat -> holds b b1 p (length data + n) ->
  exists b2, nghttp2_bufs_add malloc_ok junk data b1 m = Some (0, b2, m) /\ holds b b2 (p ++ data) n.
Proof.
  intros Hcur Hlen (buf & -> & Hw & Hp & Ha). assert (El : <[0%nat := buf]> (chain b) !! 0%nat = Some buf) by (by apply list_lookup_insert_eq).
  rewrite (add_in_place data _ m buf); [|cbn; by rewrite Hcur|lia]. destruct data as [|c data].
  { eexists. split; [done|]. exists buf. rewrite app_nil_r. cbn in Ha. done. }
  unfold on_cur. cbn [chain set_chain cur]. rewrite Hcur, El. cbn [mbind option_bind].
  destruct (cpymem_spec (offset b) buf (c :: data) Hw) as (buf' & -> & Hw' & Hpr' & Hc' & _ & Hla'); [lia|]. cbn [mbind option_bind].
  eexists. split; [done|]. exists buf'. split; [unfold set_chain; cbn; by rewrite list_insert_insert_eq|]. split; [done|]. rewrite Hpr', Hp.
  split; [done|]. unfold nghttp2_buf_avail in *. rewrite Hc', Hla'. lia.
Qed.

(** ** Frames of one chunk

    What the session does with every frame but DATA and those with header blocks
    ([session_prep_frame], [nghttp2_session_mem_recv2]). *)

Definition pack_frame (f : nghttp2_frame) (b : nghttp2_bufs) (m : nghttp2_mem) : option (Z * nghttp2_bufs * nghttp2_mem) :=
  match f with
  | Data _ _ => None
  | Priority hd p => b ← nghttp2_frame_pack_priority hd p b; Some (0, b, m)
  | RstStream hd e => b ← nghttp2_frame_pack_rst_stream hd e b; Some (0, b, m)
  | Settings hd iv => r ← nghttp2_frame_pack_settings hd iv b; Some (fst r, snd r, m)
  | Ping hd l => b ← nghttp2_frame_pack_ping hd l b; Some (0, b, m)
  | Goaway hd s e l _ => nghttp2_frame_pack_goaway malloc_ok junk hd s e l b m
  | WindowUpdate hd n _ => b ← nghttp2_frame_pack_window_update hd n b; Some (0, b, m)
  | Altsvc hd o v => r ← nghttp2_frame_pack_altsvc malloc_ok junk hd o v b m; Some (0, fst r, snd r)
  | Origin hd ov => r ← nghttp2_frame_pack_origin hd ov b; Some (fst r, snd r, m)
  | PriorityUpdate hd s v => r ← nghttp2_frame_pack_priority_update malloc_ok junk hd s v b m; Some (0, fst r, snd r)
  end.

Definition unpack_frame (hd : nghttp2_frame_hd) (payload : list char) (m : nghttp2_mem) : option (Z * option nghttp2_frame * nghttp2_mem) :=
  let fixed f := f ← f; Some (0, Some f, m) in
  let t := hd_type hd in
  if t =? NGHTTP2_PRIORITY then fixed (nghttp2_frame_unpack_priority_payload hd payload)
  else if t =? NGHTTP2_RST_STREAM then fixed (nghttp2_frame_unpack_rst_stream_payload hd payload)
  else if t =? NGHTTP2_SETTINGS then
    r ← nghttp2_frame_unpack_settings_payload2 malloc_ok payload m;
    let '(rv, iv, m) := r in Some (rv, if rv =? 0 then Some (nghttp2_frame_unpack_settings_payload hd iv) else None, m)
  else if t =? NGHTTP2_PING then fixed (nghttp2_frame_unpack_ping_payload hd payload)
  else if t =? NGHTTP2_GOAWAY then nghttp2_frame_unpack_goaway_payload2 malloc_ok hd payload m
  else if t =? NGHTTP2_WINDOW_UPDATE then fixed (nghttp2_frame_unpack_window_update_payload hd payload)
  else if t =? NGHTTP2_ALTSVC then nghttp2_frame_unpack_altsvc_payload2 malloc_ok hd payload m
  else if t =? NGHTTP2_ORIGIN then nghttp2_frame_unpack_origin_payload malloc_ok hd payload m
  else if t =? NGHTTP2_PRIORITY_UPDATE then fixed (nghttp2_frame_unpack_priority_update_payload hd payload)
  else None.

(** The payload of a frame. *)
Definition payload_of (f : nghttp2_frame) : list char :=
  match f with
  | Data _ _ => []
  | Priority _ p => nghttp2_frame_pack_priority_spec p
  | RstStream _ e => nghttp2_put_uint32be e
  | Settings _ iv => nghttp2_frame_pack_settings_payload iv
  | Ping _ l => l
  | Goaway _ s e l _ => nghttp2_put_uint32be (u32 s) ++ nghttp2_put_uint32be e ++ l
  | WindowUpdate _ n _ => nghttp2_put_uint32be (u32 n)
  | Altsvc _ o v => nghttp2_put_uint16be (u16 (Z.of_nat (length o))) ++ o ++ v
  | Origin _ ov => origin_bytes ov
  | PriorityUpdate _ s v => nghttp2_put_uint32be (u32 s) ++ v
  end.

(** The values the fields may have.  An origin that is empty is not kept. *)
Definition fields_ok (f : nghttp2_frame) : Prop :=
  match f with
  | Data _ _ => False
  | Priority hd p => hd_type hd = NGHTTP2_PRIORITY /\ pri_ok p
  | RstStream hd e => hd_type hd = NGHTTP2_RST_STREAM /\ 0 <= e < 2 ^ 32
  | Settings hd iv => hd_type hd = NGHTTP2_SETTINGS /\ Forall iv_ok iv
  | Ping hd l => hd_type hd = NGHTTP2_PING /\ length l = 8%nat
  | Goaway hd s e _ r => hd_type hd = NGHTTP2_GOAWAY /\ 0 <= s < 2 ^ 31 /\ 0 <= e < 2 ^ 32 /\ r = 0
  | WindowUpdate hd n r => hd_type hd = NGHTTP2_WINDOW_UPDATE /\ 0 <= n < 2 ^ 31 /\ r = 0
  | Altsvc hd o _ => hd_type hd = NGHTTP2_ALTSVC /\ short o
  | Origin hd ov => hd_type hd = NGHTTP2_ORIGIN /\ Forall short ov /\ Forall (fun o => o <> []) ov
  | PriorityUpdate hd s _ => hd_type hd = NGHTTP2_PRIORITY_UPDATE /\ 0 <= s < 2 ^ 31
  end.

Definition frame_ok (f : nghttp2_frame) : Prop := hd_ok (frame_hd f) /\ hd_length (frame_hd f) = Z.of_nat (length (payload_of f)) /\ fields_ok f.

Lemma fresh_chunk b n : fresh b n -> cur b = 0%nat /\ (0 < length (chain b))%nat /\ exists buf, chain b !! 0%nat = Some buf /\ (n <= nghttp2_buf_avail buf)%nat.
Proof. intros (W & Hc & buf & E & _ & _ & Ha). split; [done|]. split; [pose proof (wf_cur b W); lia|]. by exists buf. Qed.

Lemma pack_fixed_holds b n hd p : fresh b n -> length p = n ->
  exists b', pack_fixed n hd p b = Some b' /\ holds b b' (nghttp2_frame_pack_frame_hd hd ++ p) 0.
Proof.
  intros Hf Hl. destruct (fresh_chunk b n Hf) as (Hc & _ & buf & E & Ha). unfold pack_fixed. rewrite Hc, E. cbn [Nat.eqb negb mbind option_bind].
  rewrite (proj2 (Nat.ltb_ge _ _)) by done. apply put_frame_holds. by rewrite Nat.add_0_r, Hl.
Qed.

Lemma must_add_holds b b1 p data n m : cur b = 0%nat -> (0 < length (chain b))%nat -> holds b b1 p (length data + n) ->
  exists b2, must_add malloc_ok junk data (b1, m) = Some (b2, m) /\ holds b b2 (p ++ data) n.
Proof.
  intros Hc Hl H. destruct (add_holds b b1 p data n m Hc Hl H) as (b2 & E & H2). unfold must_add. cbn [fst snd]. rewrite E. cbn. eauto.
Qed.

Lemma pack_frame_holds f b m : frame_ok f -> fresh b (length (payload_of f)) ->
  exists b', pack_frame f b m = Some (0, b', m) /\ holds b b' (nghttp2_frame_pack_frame_hd (frame_hd f) ++ payload_of f) 0.
Proof.
  intros (Hhd & Hlen & Hok) Hf. destruct (fresh_chunk b _ Hf) as (Hc & Hl & buf & E & Ha). destruct f as [hd|hd p|hd e|hd iv|hd l|hd s e l r|hd n r|hd o v|hd ov|hd s v];
    cbn [frame_hd payload_of fields_ok pack_frame] in *; [done|..].
  - destruct (pack_fixed_holds b NGHTTP2_PRIORITY_SPECLEN hd (nghttp2_frame_pack_priority_spec p) Hf eq_refl) as (b' & E' & H). unfold nghttp2_frame_pack_priority. rewrite E'. cbn. eauto.
  - destruct (pack_fixed_holds b 4%nat hd (nghttp2_put_uint32be e) Hf eq_refl) as (b' & E' & H). unfold nghttp2_frame_pack_rst_stream. rewrite E'. cbn. eauto.
  - destruct (put_frame_holds b hd (nghttp2_frame_pack_settings_payload iv) 0) as (b' & E' & H); [by rewrite Nat.add_0_r|].
    unfold nghttp2_frame_pack_settings. rewrite Hc, E. cbn [Nat.eqb negb mbind option_bind]. rewrite (proj2 (Z.ltb_ge _ _)), E' by lia. cbn. eauto.
  - destruct Hok as [_ H8]. destruct (pack_fixed_holds b 8%nat hd l) as (b' & E' & H); [by rewrite <- H8|done|]. unfold nghttp2_frame_pack_ping. rewrite E'. cbn. eauto.
  - rewrite app_assoc, length_app in Hf. destruct (put_frame_holds b hd _ _ Hf) as (b1 & E1 & H1). unfold nghttp2_frame_pack_goaway. rewrite Hc, E1. cbn [Nat.eqb negb mbind option_bind].
    rewrite <- (Nat.add_0_r (length l)) in H1. destruct (add_holds b b1 _ l 0 m Hc Hl H1) as (b2 & E2 & H2). rewrite E2. cbn [mbind option_bind Z.eqb].
    eexists. split; [done|]. by rewrite <- !app_assoc in H2.
  - destruct (pack_fixed_holds b 4%nat hd (nghttp2_put_uint32be (u32 n)) Hf eq_refl) as (b' & E' & H). unfold nghttp2_frame_pack_window_update. rewrite E'. cbn. eauto.
  - rewrite !length_app in Hf. destruct (put_frame_holds b hd _ _ Hf) as (b1 & E1 & H1). unfold nghttp2_frame_pack_altsvc. rewrite E. cbn [mbind option_bind].
    rewrite (proj2 (Nat.ltb_ge _ _)) by (rewrite !length_app in Ha; cbn in Ha; lia). rewrite E1. cbn [mbind option_bind].
    destruct (must_add_holds b b1 _ o _ m Hc Hl H1) as (b2 & -> & H2). cbn [mbind option_bind]. rewrite <- (Nat.add_0_r (length v)) in H2.
    destruct (must_add_holds b b2 _ v 0 m Hc Hl H2) as (b3 & -> & H3). cbn. eexists. split; [done|]. by rewrite <- !app_assoc in H3.
  - destruct (put_frame_holds b hd (origin_bytes ov) 0) as (b' & E' & H); [by rewrite Nat.add_0_r|]. unfold nghttp2_frame_pack_origin. rewrite E. cbn [mbind option_bind].
    rewrite (proj2 (Z.ltb_ge _ _)) by lia. unfold on_chunk in *. rewrite E in *. cbn [mbind option_bind] in *. fold (origin_bytes ov).
    destruct (put_frame hd (origin_bytes ov) buf) as [buf'|] eqn:Ep; [|done]. cbn [mbind option_bind] in *. injection E' as <-.
    assert (Hb : Z.of_nat (nghttp2_buf_len buf') = Z.of_nat NGHTTP2_FRAME_HDLEN + hd_length hd).
    { destruct H as (buf2 & Eb & Hw & Hpr & _). injection Eb as Eb. apply (f_equal (fun l => l !! 0%nat)) in Eb. rewrite !list_lookup_insert_eq in Eb by done. injection Eb as ->.
      rewrite <- (present_length (offset b)) by done. rewrite Hpr, length_app, length_pack_hd. lia. }
    rewrite Hb, Z.eqb_refl. cbn [mbind option_bind]. eexists. done.
  - rewrite !length_app in Hf. destruct (put_frame_holds b hd _ _ Hf) as (b1 & E1 & H1). unfold nghttp2_frame_pack_priority_update. rewrite E. cbn [mbind option_bind].
    rewrite (proj2 (Nat.ltb_ge _ _)) by (rewrite !length_app in Ha; cbn in Ha; lia). rewrite E1. cbn [mbind option_bind].
    rewrite <- (Nat.add_0_r (length v)) in H1. destruct (must_add_holds b b1 _ v 0 m Hc Hl H1) as (b2 & -> & H2). cbn. eexists. split; [done|]. by rewrite <- !app_assoc in H2.
Qed.

Lemma filter_all ov : Forall (fun o => o <> []) ov -> List.filter nonempty ov = ov.
Proof. induction 1 as [|o ov Ho _ IH]; [done|]. cbn. destruct o; [done|]. cbn. by rewrite IH. Qed.

Lemma origin_bytes_inj ov1 : forall ov2, Forall short ov1 -> Forall short ov2 -> origin_bytes ov1 = origin_bytes ov2 -> ov1 = ov2.
Proof.
  induction ov1 as [|o1 ov1 IH]; intros [|o2 ov2] H1 H2 E; [done| | |].
  - apply Forall_cons in H2 as [H2 _]. destruct (origin_first o2 ov2 H2) as (x & y & _ & E2 & _). by rewrite E2 in E.
  - apply Forall_cons in H1 as [H1 _]. destruct (origin_first o1 ov1 H1) as (x & y & _ & E1 & _). by rewrite E1 in E.
  - apply Forall_cons in H1 as [H1 H1s]. apply Forall_cons in H2 as [H2 H2s].
    destruct (origin_first o1 ov1 H1) as (x & y & _ & E1 & G1), (origin_first o2 ov2 H2) as (x' & y' & _ & E2 & G2). rewrite E1, E2 in E.
    injection E as -> -> E. specialize (G1 []). rewrite G2 in G1. injection G1 as G1. apply app_inj_1 in E as [-> E]; [|lia]. f_equal. by apply IH.
Qed.

(** An ORIGIN payload of any bytes: the origins that it lists, without those that are
    empty, or the error. *)
Lemma unpack_origin_spec hd p m :
  (exists ov m', p = origin_bytes ov /\ Forall short ov /\
     (nghttp2_frame_unpack_origin_payload malloc_ok hd p m = Some (0, Some (Origin hd (List.filter nonempty ov)), m') \/
      nghttp2_frame_unpack_origin_payload malloc_ok hd p m = Some (NGHTTP2_ERR_NOMEM, None, m') /\ malloc_ok (requests m) = false)) \/
  (nghttp2_frame_unpack_origin_payload malloc_ok hd p m = Some (NGHTTP2_ERR_FRAME_SIZE_ERROR, None, m) /\ forall ov, Forall short ov -> p <> origin_bytes ov).
Proof.
  unfold nghttp2_frame_unpack_origin_payload. destruct (origins_spec (length p) p 0 0 ltac:(lia)) as [(ov & Ep & Hs & Hcp & ->)|[-> Hno]];
    [left; exists ov|by right]. cbn [mbind option_bind]. rewrite Nat.add_0_l. destruct (Nat.eqb_spec (length (List.filter nonempty ov)) 0) as [E0|E0].
  - apply nil_length_inv in E0. rewrite E0. exists m. split; [done|]. split; [done|]. by left.
  - unfold malloc. destruct (malloc_ok (requests m)); cbn [negb]; eexists; (split; [done|]); (split; [done|]); [left|by right]. by rewrite Hcp.
Qed.

Lemma unpack_payload f m : frame_ok f -> exists m',
  unpack_frame (frame_hd f) (payload_of f) m = Some (0, Some f, m') \/
  unpack_frame (frame_hd f) (payload_of f) m = Some (NGHTTP2_ERR_NOMEM, None, m') /\ malloc_ok (requests m) = false.
Proof.
  intros (Hhd & Hlen & Hok). unfold unpack_frame. destruct f as [hd|hd p|hd e|hd iv|hd l|hd s e l r|hd n r|hd o v|hd ov|hd s v]; cbn [frame_hd payload_of fields_ok] in *; [done|..];
    destruct Hok as [-> Hok]; cbn [Z.eqb Pos.eqb NGHTTP2_PRIORITY NGHTTP2_RST_STREAM NGHTTP2_SETTINGS NGHTTP2_PING NGHTTP2_GOAWAY NGHTTP2_WINDOW_UPDATE NGHTTP2_ALTSVC NGHTTP2_ORIGIN NGHTTP2_PRIORITY_UPDATE].
  - eexists. left. unfold nghttp2_frame_unpack_priority_payload. rewrite <- (app_nil_r (nghttp2_frame_pack_priority_spec p)), unpack_pack_pri by done. done.
  - eexists. left. unfold nghttp2_frame_unpack_rst_stream_payload. rewrite <- (app_nil_r (nghttp2_put_uint32be e)), get_put32 by done. done.
  - unfold nghttp2_frame_unpack_settings_payload2. rewrite length_pack_settings, Nat.div_mul by done. destruct (Nat.eqb_spec (length iv) 0) as [E0|E0].
    { apply nil_length_inv in E0 as ->. eexists. by left. }
    unfold malloc. destruct (malloc_ok (requests m)); cbn [negb mbind option_bind]; eexists; [left|by right]. by rewrite unpack_pack_settings.
  - eexists. left. unfold nghttp2_frame_unpack_ping_payload. rewrite Hok. cbn. by rewrite take_ge by lia.
  - destruct Hok as (Hs & He & ->). unfold nghttp2_frame_unpack_goaway_payload2.
    change (drop 8 _) with l. assert (E : forall v, nghttp2_frame_unpack_goaway_payload hd (nghttp2_put_uint32be (u32 s) ++ nghttp2_put_uint32be e ++ l) v = Some (Goaway hd s e v 0)).
    { intros v. unfold nghttp2_frame_unpack_goaway_payload. rewrite get_put32_u by lia. cbn [mbind option_bind].
      change (drop 4 _) with (nghttp2_put_uint32be e ++ l). rewrite get_put32 by done. cbn [mbind option_bind]. unfold NGHTTP2_STREAM_ID_MASK. by rewrite mask31. }
    rewrite !E. destruct (Nat.eqb_spec (length l) 0) as [E0|E0]; [apply nil_length_inv in E0 as ->; eexists; by left|].
    unfold malloc. destruct (malloc_ok (requests m)); cbn [negb mbind option_bind]; eexists; [by left|by right].
  - destruct Hok as [Hn ->]. eexists. left. unfold nghttp2_frame_unpack_window_update_payload. rewrite <- (app_nil_r (nghttp2_put_uint32be _)), get_put32_u by lia.
    cbn [mbind option_bind]. unfold NGHTTP2_WINDOW_SIZE_INCREMENT_MASK. by rewrite mask31.
  - unfold nghttp2_frame_unpack_altsvc_payload2. rewrite length_app. cbn [length nghttp2_put_uint16be Nat.add Nat.ltb Nat.leb].
    rewrite get_put16_u by (unfold short in Hok; lia). cbn [mbind option_bind]. change (drop 2 _) with (o ++ v).
    unfold nghttp2_frame_unpack_altsvc_payload. rewrite Nat2Z.id. rewrite (proj2 (Nat.ltb_ge _ _)) by (rewrite length_app; lia).
    rewrite take_app_length, drop_app_length. unfold malloc. destruct (malloc_ok (requests m)); cbn [negb mbind option_bind]; eexists; [by left|by right].
  - destruct Hok as [Hs Hne]. destruct (unpack_origin_spec hd (origin_bytes ov) m) as [(ov' & m' & E & Hs' & H)|[_ Hno]]; [|by destruct (Hno ov)].
    apply origin_bytes_inj in E as <-; [|done..]. rewrite filter_all in H by done. by exists m'.
  - eexists. left. unfold nghttp2_frame_unpack_priority_update_payload. rewrite length_app. cbn [length nghttp2_put_uint32be be32 Nat.add Nat.ltb Nat.leb].
    rewrite get_put32_u by lia. cbn [mbind option_bind]. unfold NGHTTP2_STREAM_ID_MASK. rewrite mask31 by done. change (drop 4 _) with v. destruct v; done.
Qed.

(** C35: a frame is what the protocol says, and is read back.  Packing a frame with
    fields in range into a fresh chain with room for it never fails; the chain holds the
    nine bytes of the header, whose length is that of the payload, and the payload;
    reading the header from those bytes and whatever follows gives the frame's header,
    and reading the payload gives the frame, unless the memory for it cannot be had.
    For PRIORITY, RST_STREAM, SETTINGS, PING, GOAWAY, WINDOW_UPDATE, ALTSVC, ORIGIN and
    PRIORITY_UPDATE. *)
Theorem frame_roundtrip f b m rest : frame_ok f -> fresh b (length (payload_of f)) ->
  exists b' hdbytes, pack_frame f b m = Some (0, b', m) /\ wf b' /\ contents b' = hdbytes ++ payload_of f /\
    length hdbytes = NGHTTP2_FRAME_HDLEN /\ hd_length (frame_hd f) = Z.of_nat (length (payload_of f)) /\
    nghttp2_frame_unpack_frame_hd (contents b' ++ rest) = Some (frame_hd f) /\
    forall m1, exists m2,
      unpack_frame (frame_hd f) (payload_of f) m1 = Some (0, Some f, m2) \/
      unpack_frame (frame_hd f) (payload_of f) m1 = Some (NGHTTP2_ERR_NOMEM, None, m2) /\ malloc_ok (requests m1) = false.
Proof.
  intros Hok Hf. destruct (pack_frame_holds f b m Hok Hf) as (b' & E & H). pose proof Hf as (W & Hc & _).
  destruct (holds_contents b b' _ _ W Hc H) as [W' C]. exists b', (nghttp2_frame_pack_frame_hd (frame_hd f)). split; [done|]. split; [done|]. split; [done|].
  split; [done|]. split; [apply Hok|]. split; [|intros m1; by apply unpack_payload]. rewrite C, <- app_assoc. apply unpack_pack_hd, Hok.
Qed.

(** C36: any bytes at all can come as an ORIGIN payload.  It is accepted exactly when it
    is a list of origins, each with its length in front; the frame then holds those that
    are not empty, in order.  Anything else (a length without its second byte, an origin
    longer than what is left) gets [NGHTTP2_ERR_FRAME_SIZE_ERROR], and nothing is read
    behind the payload or allocated. *)
Theorem origin_payload_correct hd p m :
  (forall ov, Forall short ov -> p = origin_bytes ov -> exists m',
     nghttp2_frame_unpack_origin_payload malloc_ok hd p m = Some (0, Some (Origin hd (List.filter nonempty ov)), m') \/
     nghttp2_frame_unpack_origin_payload malloc_ok hd p m = Some (NGHTTP2_ERR_NOMEM, None, m') /\ malloc_ok (requests m) = false) /\
  ((forall ov, Forall short ov -> p <> origin_bytes ov) ->
     nghttp2_frame_unpack_origin_payload malloc_ok hd p m = Some (NGHTTP2_ERR_FRAME_SIZE_ERROR, None, m)) /\
  ((exists ov, Forall short ov /\ p = origin_bytes ov) \/ forall ov, Forall short ov -> p <> origin_bytes ov).
Proof.
  destruct (unpack_origin_spec hd p m) as [(ov & m' & E & Hs & H)|[E Hno]].
  - split; [|split; [|left; by exists ov]].
    + intros ov' Hs' E'. rewrite E' in E. apply origin_bytes_inj in E as ->; [|done..]. by exists m'.
    + intros Hno. by destruct (Hno ov Hs).
  - split; [|split; [done|by right]]. intros ov Hs Ep. by destruct (Hno ov Hs).
Qed.
End Spec.

(** ** Witnesses *)

(** The chain of a session: chunks of [n] bytes, with room for a header and one byte of
    padding in front. *)
Definition frame_bufs (n : nat) : nghttp2_bufs := Bufs [Buf (zeros n) 10 10 0] 0 n 4 1 4 10.

Lemma frame_bufs_wf n : (10 < n)%nat -> wf (frame_bufs n) /\ roomy (frame_bufs n).
Proof.
  intros H. assert (Hl : nghttp2_buf_cap (Buf (zeros n) 10 10 0) = n) by (unfold nghttp2_buf_cap, zeros; cbn; by rewrite length_replicate).
  split; [constructor|split]; cbn; try lia; repeat constructor; unfold nghttp2_buf_cap in *; cbn in *; lia.
Qed.

Lemma frame_bufs_fresh n k : (10 + k < n)%nat -> fresh (frame_bufs n) k.
Proof.
  intros H. split; [apply frame_bufs_wf; lia|]. split; [done|]. eexists. split; [done|]. split; [done|]. split; [cbn; unfold NGHTTP2_FRAME_HDLEN; lia|].
  unfold nghttp2_buf_avail, nghttp2_buf_cap, zeros. cbn. rewrite length_replicate. lia.
Qed.

Definition some_goaway : nghttp2_frame := nghttp2_frame_goaway_init 5 3 (chars "flow control").

Example some_goaway_bytes : match pack_frame (fun _ => true) (fun _ _ => NUL) some_goaway (frame_bufs 64) (Mem 0 0) with
  | Some (rv, b, _) => (rv, map bval (contents b)) = (0, [0; 0; 20; 7; 0; 0; 0; 0; 0; 0; 0; 0; 5; 0; 0; 0; 3] ++ map bval (chars "flow control"))
  | None => False
  end.
Proof. vm_compute. reflexivity. Qed.

Lemma frame_roundtrip_witness : exists b' hdbytes,
  pack_frame (fun _ => true) (fun _ _ => NUL) some_goaway (frame_bufs 64) (Mem 0 0) = Some (0, b', Mem 0 0) /\ wf b' /\
  contents b' = hdbytes ++ payload_of some_goaway /\ length hdbytes = NGHTTP2_FRAME_HDLEN /\
  hd_length (frame_hd some_goaway) = Z.of_nat (length (payload_of some_goaway)) /\
  nghttp2_frame_unpack_frame_hd (contents b' ++ chars "more") = Some (frame_hd some_goaway) /\
  forall m1, exists m2,
    unpack_frame (fun _ => true) (frame_hd some_goaway) (payload_of some_goaway) m1 = Some (0, Some some_goaway, m2) \/
    unpack_frame (fun _ => true) (frame_hd some_goaway) (payload_of some_goaway) m1 = Some (NGHTTP2_ERR_NOMEM, None, m2) /\ true = false.
Proof.
  apply (frame_roundtrip (fun _ => true) (fun _ _ => NUL) some_goaway (frame_bufs 64) (Mem 0 0) (chars "more")); [|apply frame_bufs_fresh; vm_compute; lia].
  split; [vm_compute; repeat split; discriminate|]. split; [vm_compute; reflexivity|]. vm_compute. repeat split; discriminate.
Defined.

(** An ORIGIN payload with an empty origin, one that is cut short. *)
Example origin_payloads :
  nghttp2_frame_unpack_origin_payload (fun _ => true) (nghttp2_frame_hd_init 8 NGHTTP2_ORIGIN 0 0) (origin_bytes [chars "ab"; []; chars "c"]) (Mem 0 0) =
    Some (0, Some (Origin (nghttp2_frame_hd_init 8 NGHTTP2_ORIGIN 0 0) [chars "ab"; chars "c"]), Mem 1 1) /\
  nghttp2_frame_unpack_origin_payload (fun _ => true) (nghttp2_frame_hd_init 3 NGHTTP2_ORIGIN 0 0) (take 3 (origin_bytes [chars "ab"])) (Mem 0 0) =
    Some (NGHTTP2_ERR_FRAME_SIZE_ERROR, None, Mem 0 0).
Proof. split; vm_compute; reflexivity. Qed.

(** ** [nghttp2_frame_unpack_altsvc_payload2]

    The length of the origin is not compared with the length of the payload: a longer one
    leads the frame's pointers out of the block.  (The session makes this check itself,
    and does not call the function.)  A payload that is too short gets the error code of
    the protocol, a positive number, and not the negative one that the header of the
    function declares. *)
Lemma altsvc_payload2_overruns m hd :
  nghttp2_frame_unpack_altsvc_payload2 (fun _ => true) hd (nghttp2_put_uint16be 5 ++ chars "abc") m = None.
Proof. reflexivity. Qed.

Lemma altsvc_payload2_error m hd c :
  nghttp2_frame_unpack_altsvc_payload2 (fun _ => true) hd [c] m = Some (NGHTTP2_FRAME_SIZE_ERROR, None, m) /\ 0 < NGHTTP2_FRAME_SIZE_ERROR /\
  NGHTTP2_FRAME_SIZE_ERROR <> NGHTTP2_ERR_FRAME_SIZE_ERROR.
Proof. done. Qed.

