(* ===== verification/NgPadSpec.v ===== *)
(** * Padded frames

    [add_pad_correct]: what [nghttp2_frame_add_pad] makes of a frame in the chain.  The
    header is rewritten in place, byte by byte; [pad_header] follows it. *)

From stdpp Require Import gmap list.
From S2P Require Import Prelude CLib NgStream NgBuf HuffTable Huffman HuffSpec HpackInt Rcbuf HdStatic HdTable HdTableSpec HdDeflate Hpack HdDeflateSpec NgHelper NgFrame NgFrameSpec.

Lemma buf_split off b : wf_buf off b -> drop (pos b) (bytes b) = present b ++ drop (last b) (bytes b).
Proof.
  intros (H1 & H2 & _). unfold present, nghttp2_buf_len. rewrite <- (take_drop (last b - pos b) (drop (pos b) (bytes b))) at 1. rewrite drop_drop. do 2 f_equal. lia.
Qed.

Lemma put32_type n t : 0 <= n < 2 ^ 24 -> 0 <= t < 256 ->
  nghttp2_put_uint32be (u32 (Z.shiftl n 8 + t)) = take 3 (nghttp2_put_uint32be (u32 (Z.shiftl n 8))) ++ [uint8 t].
Proof.
  intros Hn Ht. rewrite Z.shiftl_mul_pow2 by lia. unfold u32. rewrite !Z.mod_small by lia. unfold nghttp2_put_uint32be, be32. cbn [take app].
  rewrite !shiftr_div by lia.
  assert (E : forall x y, x mod 256 = y mod 256 -> uint8 x = uint8 y) by (intros x y Exy; by rewrite <- uint8_mod, Exy, uint8_mod).
  f_equal; [|f_equal; [|f_equal; [|f_equal]]]; apply E; Z.div_mod_to_equations; lia.
Qed.

(** A frame as it is padded. *)
Definition padded_hd (hd : nghttp2_frame_hd) (padlen : Z) : nghttp2_frame_hd :=
  set_hd_flags (Z.lor (hd_flags hd) NGHTTP2_FLAG_PADDED) (set_hd_length (hd_length hd + padlen) hd).

Definition padded (payload : list char) (padlen : Z) : list char := uint8 (padlen - 1) :: payload ++ zeros (Z.to_nat (padlen - 1)).

Lemma get_length hd r : 0 <= hd_length hd < 2 ^ 24 -> 0 <= hd_type hd < 256 ->
  nghttp2_get_uint32 ((take 3 (nghttp2_put_uint32be (u32 (Z.shiftl (hd_length hd) 8))) ++ [uint8 (hd_type hd)]) ++ r) = Some (Z.shiftl (hd_length hd) 8 + hd_type hd).
Proof.
  intros Hl Ht. rewrite <- put32_type by done. rewrite get_put32_u; [done|]. rewrite Z.shiftl_mul_pow2 by lia. lia.
Qed.

Lemma buf_byte_at off b k : wf_buf off b -> (k < length (present b))%nat -> bytes b !! (pos b + k)%nat = present b !! k.
Proof. intros Hw Hk. rewrite <- lookup_drop, (buf_split off b Hw), lookup_app_l by done. done. Qed.

(** The header moves to the front by a byte, and changes there. *)
Lemma pad_header off hd padlen buf payload : wf_buf off buf -> (1 <= pos buf)%nat -> present buf = nghttp2_frame_pack_frame_hd hd ++ payload ->
  hd_ok hd -> 1 <= padlen -> hd_length hd + padlen < 2 ^ 24 ->
  exists y buf', frame_set_pad padlen true buf = Some buf' /\ wf_buf off buf' /\
    present buf' = nghttp2_frame_pack_frame_hd (padded_hd hd padlen) ++ y :: payload /\ nghttp2_buf_cap buf' = nghttp2_buf_cap buf /\ last buf' = last buf /\
    frame_set_pad padlen false buf = (buf ← poke (pos buf' + NGHTTP2_FRAME_HDLEN) [uint8 (padlen - 1)] buf'; cpymem buf (zeros (Z.to_nat (padlen - 1)))).
Proof.
  intros Hw Hp Hpr (Hl & Hs & Ht & Hf & Hr) Hpad Hsum. unfold frame_set_pad.
  rewrite (buf_split off buf Hw), Hpr, <- app_assoc, take_app_length' by done.
  destruct (pos_back_spec off 1 buf Hw Hp) as (b1 & x & -> & Hw1 & Hx & Hpr1 & Hc1 & Hpos1 & Hla1). cbn [mbind option_bind].
  destruct x as [|x [|]]; [done| |done]. rewrite Hpr in Hpr1.
  assert (L1 : (9 + length payload + 1 <= nghttp2_buf_len b1)%nat).
  { rewrite <- (present_length off), Hpr1 by done. cbn [length app]. rewrite length_app, length_pack_hd. unfold NGHTTP2_FRAME_HDLEN. lia. }
  destruct (poke_spec off 0 (nghttp2_frame_pack_frame_hd hd) b1 Hw1) as (b2 & E2 & Hw2 & Hpr2 & Hc2 & Hpos2 & Hla2); [rewrite length_pack_hd; unfold NGHTTP2_FRAME_HDLEN; lia|].
  rewrite Nat.add_0_r in E2. rewrite E2. cbn [mbind option_bind]. rewrite Hpr1, take_0 in Hpr2. cbn [app Nat.add] in Hpr2. rewrite length_pack_hd in Hpr2.
  set (y := uint8 (u32 (hd_stream_id hd))). change (drop NGHTTP2_FRAME_HDLEN (x :: nghttp2_frame_pack_frame_hd hd ++ payload)) with (y :: payload) in Hpr2.
  assert (P2 : length (present b2) = (10 + length payload)%nat) by (rewrite Hpr2, length_app, length_pack_hd; cbn; lia).
  assert (B2 : bytes b2 !! (pos b2 + 4)%nat = Some (uint8 (hd_flags hd))) by (rewrite (buf_byte_at off b2), Hpr2 by (done || lia); done).
  rewrite B2. cbn [mbind option_bind]. set (F := orc (uint8 (hd_flags hd)) (uint8 NGHTTP2_FLAG_PADDED)).
  destruct (poke_spec off 4 [F] b2 Hw2) as (b3 & E3 & Hw3 & Hpr3 & Hc3 & Hpos3 & Hla3); [rewrite <- (present_length off) by done; cbn; lia|].
  rewrite E3. cbn [mbind option_bind]. rewrite Hpr2 in Hpr3.
  set (sid := nghttp2_put_uint32be (u32 (hd_stream_id hd))) in *.
  assert (Hpr3' : present b3 = (take 3 (nghttp2_put_uint32be (u32 (Z.shiftl (hd_length hd) 8))) ++ [uint8 (hd_type hd)]) ++ F :: sid ++ y :: payload) by (by rewrite Hpr3).
  clear Hpr3. assert (P3 : length (present b3) = (10 + length payload)%nat) by (rewrite Hpr3'; cbn; lia).
  assert (B3 : bytes b3 !! (pos b3 + 3)%nat = Some (uint8 (hd_type hd))) by (rewrite (buf_byte_at off b3), Hpr3' by (done || lia); done).
  rewrite B3, (buf_split off b3 Hw3), Hpr3', <- app_assoc, get_length by done. cbn [mbind option_bind].
  cbn [mbind option_bind]. rewrite bval_uint8 by done.
  assert (Es : Z.shiftr (Z.shiftl (hd_length hd) 8 + hd_type hd) 8 = hd_length hd).
  { rewrite Z.shiftl_mul_pow2, shiftr_div by lia. Z.div_mod_to_equations. lia. }
  rewrite Es, put32_type by lia.
  destruct (poke_spec off 0 (take 3 (nghttp2_put_uint32be (u32 (Z.shiftl (hd_length hd + padlen) 8))) ++ [uint8 (hd_type hd)]) b3 Hw3) as (b4 & E4 & Hw4 & Hpr4 & Hc4 & Hpos4 & Hla4);
    [rewrite <- (present_length off) by done; cbn; lia|].
  rewrite Nat.add_0_r in E4. rewrite E4. cbn [mbind option_bind]. exists y, b4. split; [done|]. split; [done|].
  split; [|split; [congruence|split; [congruence|done]]]. rewrite Hpr4, Hpr3', take_0. cbn [app]. unfold nghttp2_frame_pack_frame_hd, padded_hd, set_hd_flags, set_hd_length.
  cbn [hd_length hd_type hd_flags hd_stream_id]. rewrite <- !app_assoc. f_equal. cbn [app]. f_equal.
  change (drop _ _) with (F :: sid ++ y :: payload). unfold F, orc. by rewrite !bval_uint8.
Qed.

(** Padding.  A frame at the front of the chain, with a byte before it and room
    behind it, becomes the frame that RFC 9113 calls padded: the length grows by the
    padding, PADDED is set, the payload begins with the length of the zeros at its end,
    which is what [nghttp2_frame_trail_padlen] says; between the two is the payload as
    it was.  The chunks behind it stay. *)
Theorem add_pad_correct b hd0 hd payload padlen buf : wf b -> chain b !! 0%nat = Some buf -> (1 <= pos buf)%nat ->
  present buf = nghttp2_frame_pack_frame_hd hd0 ++ payload -> hd_ok hd0 -> 1 <= padlen <= 256 -> hd_length hd0 + padlen < 2 ^ 24 ->
  padlen - 1 <= Z.of_nat (nghttp2_buf_avail buf) ->
  exists b' buf', nghttp2_frame_add_pad b hd padlen false = Some (b', padded_hd hd padlen) /\
    chain b' = <[0%nat := buf']> (chain b) /\ wf_buf (offset b) buf' /\
    present buf' = nghttp2_frame_pack_frame_hd (padded_hd hd0 padlen) ++ uint8 (padlen - 1) :: payload ++ zeros (Z.to_nat (padlen - 1)) /\
    nghttp2_frame_unpack_frame_hd (present buf') = Some (padded_hd hd0 padlen) /\
    (hd_length hd0 = Z.of_nat (length payload) -> hd_length (padded_hd hd0 padlen) = Z.of_nat (length (uint8 (padlen - 1) :: payload ++ zeros (Z.to_nat (padlen - 1))))) /\
    nghttp2_frame_trail_padlen (padded_hd hd0 padlen) padlen = bval (uint8 (padlen - 1)).
Proof.
  intros W E Hpos Hpr Hhd Hpad Hsum Ha. pose proof (Forall_lookup_1 _ _ _ _ (wf_chunks b W) E) as Hw. unfold nghttp2_frame_add_pad.
  rewrite (proj2 (Z.eqb_neq _ _)), E by lia. cbn [mbind option_bind]. rewrite (proj2 (Z.ltb_ge _ _)) by lia. unfold on_chunk. rewrite E. cbn [mbind option_bind].
  destruct (pad_header (offset b) hd0 padlen buf payload Hw Hpos Hpr Hhd ltac:(lia) Hsum) as (y & b1 & _ & Hw1 & Hpr1 & Hc1 & Hla1 & ->).
  assert (P1 : length (present b1) = (10 + length payload)%nat) by (rewrite Hpr1, length_app, length_pack_hd; cbn; lia).
  destruct (poke_spec (offset b) NGHTTP2_FRAME_HDLEN [uint8 (padlen - 1)] b1 Hw1) as (b2 & -> & Hw2 & Hpr2 & Hc2 & _ & Hla2);
    [rewrite <- (present_length (offset b)), P1 by done; cbn; lia|]. cbn [mbind option_bind].
  destruct (cpymem_spec (offset b) b2 (zeros (Z.to_nat (padlen - 1))) Hw2) as (b3 & -> & Hw3 & Hpr3 & _).
  { unfold zeros, nghttp2_buf_avail in *. rewrite length_replicate, Hc2, Hc1, Hla2, Hla1. lia. }
  cbn [mbind option_bind]. eexists _, b3. split; [done|]. split; [done|]. split; [done|].
  assert (Hfinal : present b3 = nghttp2_frame_pack_frame_hd (padded_hd hd0 padlen) ++ uint8 (padlen - 1) :: payload ++ zeros (Z.to_nat (padlen - 1))).
  { rewrite Hpr3, Hpr2, Hpr1. rewrite take_app_length' by done. rewrite <- !app_assoc. f_equal. }
  assert (Hhd' : hd_ok (padded_hd hd0 padlen)).
  { destruct Hhd as (Hl & Hs & Ht & Hf & Hr). unfold hd_ok, padded_hd, set_hd_flags, set_hd_length. cbn [hd_length hd_stream_id hd_type hd_flags hd_reserved].
    split; [lia|]. split; [done|]. split; [done|]. split; [|done]. rewrite <- (bval_uint8 _ Hf). clear. generalize (uint8 (hd_flags hd0)). by_every_char. }
  split; [done|]. split; [rewrite Hfinal; by apply unpack_pack_hd|]. split.
  - intros Hl. unfold padded_hd. cbn [hd_length set_hd_flags set_hd_length length]. rewrite length_app. unfold zeros. rewrite length_replicate. lia.
  - rewrite bval_uint8 by lia. unfold nghttp2_frame_trail_padlen. rewrite (proj2 (Z.eqb_neq _ _)) by lia.
    assert (Ef : flag_set (padded_hd hd0 padlen) NGHTTP2_FLAG_PADDED = true).
    { destruct Hhd as (_ & _ & _ & Hf & _). unfold flag_set, padded_hd. cbn [hd_flags set_hd_flags]. rewrite <- (bval_uint8 _ Hf). clear. generalize (uint8 (hd_flags hd0)). by_every_char. }
    by rewrite Ef.
Qed.

(** ** Witness: an empty HEADERS frame with four bytes of payload, padded by 7 *)

Definition some_headers_hd : nghttp2_frame_hd := nghttp2_frame_hd_init 4 NGHTTP2_HEADERS 4 1.
Definition framed_bufs : nghttp2_bufs :=
  Bufs [Buf (NUL :: nghttp2_frame_pack_frame_hd some_headers_hd ++ chars "abcd" ++ zeros 20) 1 14 0] 0 34 4 1 4 10.

Lemma add_pad_correct_witness : exists b' buf', nghttp2_frame_add_pad framed_bufs some_headers_hd 7 false = Some (b', padded_hd some_headers_hd 7) /\
  chain b' = [buf'] /\ wf_buf 10 buf' /\
  present buf' = nghttp2_frame_pack_frame_hd (padded_hd some_headers_hd 7) ++ uint8 6 :: chars "abcd" ++ zeros 6 /\
  nghttp2_frame_unpack_frame_hd (present buf') = Some (padded_hd some_headers_hd 7) /\
  (4 = 4 -> hd_length (padded_hd some_headers_hd 7) = 11) /\ nghttp2_frame_trail_padlen (padded_hd some_headers_hd 7) 7 = 6.
Proof.
  refine (add_pad_correct framed_bufs some_headers_hd some_headers_hd (chars "abcd") 7 _ _ eq_refl _ _ _ _ _ _).
  - constructor; cbn; try lia; repeat constructor; cbn; lia.
  - cbn. lia.
  - vm_compute. reflexivity.
  - vm_compute. repeat split; discriminate.
  - lia.
  - vm_compute. reflexivity.
  - vm_compute. discriminate.
Defined.

