(* ===== verification/NgHeadersSpec.v ===== *)
(** * Header blocks in frames: HEADERS, PUSH_PROMISE and CONTINUATION

    [pack_headers_correct]: what [nghttp2_frame_pack_headers] leaves in the chain is one
    HEADERS frame and as many CONTINUATION frames as there are chunks, and their
    payloads are the priority, if there is one, and the header block of HdDeflateSpec.v. *)

From stdpp Require Import gmap list.
From S2P Require Import Prelude CLib NgStream NgBuf HuffTable Huffman HuffSpec HpackInt Rcbuf HdStatic HdTable HdTableSpec HdDeflate Hpack HdDeflateSpec NgHelper NgFrame NgFrameSpec.

(** ** The reader's side

    The frames in a sequence of bytes. *)

Fixpoint read_frames (fuel : nat) (l : list char) : option (list (nghttp2_frame_hd * list char)) :=
  match fuel, l with
  | _, [] => Some []
  | S fuel, _ =>
      hd ← nghttp2_frame_unpack_frame_hd l;
      let rest := drop NGHTTP2_FRAME_HDLEN l in
      let n := Z.to_nat (hd_length hd) in
      if (length rest <? n)%nat then None else
      fs ← read_frames fuel (drop n rest);
      Some ((hd, take n rest) :: fs)
  | O, _ => None
  end.

Definition frame_bytes (x : nghttp2_frame_hd * list char) : list char := nghttp2_frame_pack_frame_hd (fst x) ++ snd x.

Definition well_framed (x : nghttp2_frame_hd * list char) : Prop := hd_ok (fst x) /\ hd_length (fst x) = Z.of_nat (length (snd x)).

Lemma read_frame fuel l : l <> [] -> read_frames (S fuel) l =
  (hd ← nghttp2_frame_unpack_frame_hd l;
   if (length (drop NGHTTP2_FRAME_HDLEN l) <? Z.to_nat (hd_length hd))%nat then None else
   fs ← read_frames fuel (drop (Z.to_nat (hd_length hd)) (drop NGHTTP2_FRAME_HDLEN l));
   Some ((hd, take (Z.to_nat (hd_length hd)) (drop NGHTTP2_FRAME_HDLEN l)) :: fs)).
Proof. by destruct l. Qed.

Lemma read_frames_spec fs : forall fuel, Forall well_framed fs -> (length fs <= fuel)%nat -> read_frames fuel (concat (map frame_bytes fs)) = Some fs.
Proof.
  induction fs as [|[hd p] fs IH]; intros fuel Hw Hf; [by destruct fuel|]. destruct fuel as [|fuel]; [cbn in Hf; lia|].
  apply Forall_cons in Hw as [[Hhd Hl] Hw]. cbn [fst snd] in *. cbn [map concat]. set (rest := concat (map frame_bytes fs)).
  assert (E : frame_bytes (hd, p) ++ rest = nghttp2_frame_pack_frame_hd hd ++ p ++ rest) by (unfold frame_bytes; cbn [fst snd]; by rewrite <- app_assoc).
  rewrite E. rewrite read_frame by done. rewrite unpack_pack_hd by done. cbn [mbind option_bind].
  rewrite !drop_app_length' by done. rewrite Hl, Nat2Z.id. rewrite (proj2 (Nat.ltb_ge _ _)) by (rewrite length_app; lia).
  rewrite drop_app_length, take_app_length. unfold rest. rewrite IH; [done|done|cbn in Hf; lia].
Qed.

(** ** The chunks *)

(** The header of the frame in chunk [i] of [0 .. c]. *)
Definition hd_at (hd : nghttp2_frame_hd) (c i : nat) (n : Z) : nghttp2_frame_hd :=
  FrameHd n (hd_stream_id hd) (if (i =? 0)%nat then hd_type hd else NGHTTP2_CONTINUATION)
    (if (i =? 0)%nat then (if (c =? 0)%nat then hd_flags hd else Z.land (hd_flags hd) (Z.lnot NGHTTP2_FLAG_END_HEADERS))
     else if (i =? c)%nat then NGHTTP2_FLAG_END_HEADERS else NGHTTP2_FLAG_NONE) (hd_reserved hd).

Definition placed (off : nat) (b : nghttp2_bufs) : Prop :=
  Forall (wf_buf off) (chain b) /\ forall i buf, chain b !! i = Some buf -> (i <= cur b)%nat -> (NGHTTP2_FRAME_HDLEN <= pos buf)%nat.

(** [buf'] is [buf] with the bytes [p] in front. *)
Definition with_front (off : nat) (p : list char) (buf buf' : nghttp2_buf) : Prop :=
  wf_buf off buf' /\ present buf' = p ++ present buf /\ nghttp2_buf_cap buf' = nghttp2_buf_cap buf.

Lemma put_own_hd_spec off hd buf : wf_buf off buf -> (NGHTTP2_FRAME_HDLEN <= pos buf)%nat ->
  exists buf', put_own_hd hd buf = Some buf' /\ with_front off (nghttp2_frame_pack_frame_hd (set_hd_length (Z.of_nat (length (present buf))) hd)) buf buf'.
Proof.
  intros Hw Hp. unfold put_own_hd. rewrite (present_length off) by done.
  destruct (put_frame_hd_spec off (set_hd_length (Z.of_nat (nghttp2_buf_len buf)) hd) buf Hw Hp) as (buf' & E & H1 & H2 & H3 & _). by exists buf'.
Qed.

Lemma on_chunk_spec i f b buf buf' : chain b !! i = Some buf -> f buf = Some buf' -> on_chunk i f b = Some (set_chain (<[i := buf']> (chain b)) b).
Proof. intros E Ef. unfold on_chunk. rewrite E. cbn [mbind option_bind]. by rewrite Ef. Qed.

(** The chunks of [l'] are those of [l], with headers in front of the [n] from [ci] on. *)
Definition headed (off ci n : nat) (hd : nghttp2_frame_hd) (l l' : list nghttp2_buf) : Prop :=
  length l' = length l /\ (forall i, ~ (ci <= i < ci + n)%nat -> l' !! i = l !! i) /\
  forall i buf, (ci <= i < ci + n)%nat -> l !! i = Some buf ->
    exists buf', l' !! i = Some buf' /\ with_front off (nghttp2_frame_pack_frame_hd (set_hd_length (Z.of_nat (length (present buf))) hd)) buf buf'.

Lemma headed_one off i hd b buf : chain b !! i = Some buf -> wf_buf off buf -> (NGHTTP2_FRAME_HDLEN <= pos buf)%nat ->
  exists l', on_chunk i (put_own_hd hd) b = Some (set_chain l' b) /\ headed off i 1 hd (chain b) l'.
Proof.
  intros E Hw Hp. destruct (put_own_hd_spec off hd buf Hw Hp) as (buf' & Ef & Hf). eexists. split; [by apply (on_chunk_spec i _ b buf buf')|].
  split; [apply length_insert|]. split.
  - intros j Hj. apply list_lookup_insert_ne. lia.
  - intros j buf2 Hj E2. replace j with i in * by lia. rewrite E in E2. injection E2 as <-. exists buf'. split; [|done].
    apply list_lookup_insert_eq. by eapply lookup_lt_Some.
Qed.

Lemma headed_lookup off ci n hd l l' i : headed off ci n hd l l' -> ~ (ci <= i < ci + n)%nat -> l' !! i = l !! i.
Proof. intros (_ & H & _). apply H. Qed.

Lemma headed_app off ci n1 n2 hd l1 l2 l3 : headed off ci n1 hd l1 l2 -> headed off (ci + n1) n2 hd l2 l3 -> headed off ci (n1 + n2) hd l1 l3.
Proof.
  intros (L1 & N1 & H1) (L2 & N2 & H2). split; [congruence|]. split.
  - intros i Hi. rewrite N2, N1 by lia. done.
  - intros i buf Hi E. destruct (Nat.lt_ge_cases i (ci + n1)) as [Hlt|Hge].
    + destruct (H1 i buf ltac:(lia) E) as (buf' & E' & Hf). exists buf'. by rewrite N2 by lia.
    + apply (H2 i buf); [lia|]. by rewrite N1 by lia.
Qed.

Lemma put_continuations_spec off hd n : forall ci b, (ci + n <= length (chain b))%nat ->
  (forall i buf, (ci <= i < ci + n)%nat -> chain b !! i = Some buf -> wf_buf off buf /\ (NGHTTP2_FRAME_HDLEN <= pos buf)%nat) ->
  exists l', put_continuations n ci hd b = Some (set_chain l' b) /\ headed off ci n hd (chain b) l'.
Proof.
  induction n as [|n IH]; intros ci b Hl Hb; cbn [put_continuations].
  { exists (chain b). split; [by destruct b|]. split; [done|]. split; [done|]. intros. lia. }
  destruct (lookup_lt_is_Some_2 (chain b) ci ltac:(lia)) as [buf E]. destruct (Hb ci buf ltac:(lia) E) as [Hw Hp].
  destruct (headed_one off ci hd b buf E Hw Hp) as (l1 & -> & H1). cbn [mbind option_bind].
  destruct (IH (S ci) (set_chain l1 b)) as (l2 & -> & H2).
  - destruct H1 as (L1 & _). cbn. lia.
  - intros i buf2 Hi E2. cbn in E2. rewrite (headed_lookup _ _ _ _ _ _ i H1) in E2 by lia. apply (Hb i); [lia|done].
  - exists l2. split; [done|]. change (S n) with (1 + n)%nat. apply headed_app with l1; [done|]. by rewrite Nat.add_1_r.
Qed.

Definition front_at (hd : nghttp2_frame_hd) (c i : nat) (buf : nghttp2_buf) : list char :=
  if (i <=? c)%nat then nghttp2_frame_pack_frame_hd (hd_at hd c i (Z.of_nat (length (present buf)))) else [].

(** What [frame_pack_headers_shared] does to the chunks. *)
Definition all_headed (off : nat) (hd : nghttp2_frame_hd) (c : nat) (l l' : list nghttp2_buf) : Prop :=
  length l' = length l /\ (forall i, (c < i)%nat -> l' !! i = l !! i) /\
  forall i buf, l !! i = Some buf -> exists buf', l' !! i = Some buf' /\ with_front off (front_at hd c i buf) buf buf'.

Lemma shared_spec off hd b : placed off b -> (cur b < length (chain b))%nat ->
  exists l', frame_pack_headers_shared b hd = Some (set_chain l' b) /\ all_headed off hd (cur b) (chain b) l'.
Proof.
  intros [Hw Hp] Hc. unfold frame_pack_headers_shared. destruct (lookup_lt_is_Some_2 (chain b) 0 ltac:(lia)) as [buf0 E0].
  assert (Hbuf : forall i buf, chain b !! i = Some buf -> wf_buf off buf) by (intros i buf Eb; exact (Forall_lookup_1 _ _ _ _ Hw Eb)).
  destruct (Nat.eqb_spec (cur b) 0) as [Hz|Hz]; cbn [negb].
  - destruct (headed_one off 0 hd b buf0 E0 (Hbuf _ _ E0) (Hp 0%nat buf0 E0 ltac:(lia))) as (l' & -> & L & N & H). cbn [mbind option_bind].
    exists l'. split; [done|]. split; [done|]. split; [intros i Hi; apply N; lia|]. intros i buf E. unfold front_at. rewrite Hz. destruct i as [|i].
    + destruct (H 0%nat buf ltac:(lia) E) as (buf' & E' & Hf). by exists buf'.
    + exists buf. rewrite N by lia. split; [done|]. split; [by eapply Hbuf|done].
  - set (hd0 := set_hd_flags (Z.land (hd_flags hd) (Z.lnot NGHTTP2_FLAG_END_HEADERS)) hd).
    destruct (headed_one off 0 hd0 b buf0 E0 (Hbuf _ _ E0) (Hp 0%nat buf0 E0 ltac:(lia))) as (l1 & -> & H1). cbn [mbind option_bind].
    set (hd1 := set_hd_flags NGHTTP2_FLAG_NONE (set_hd_type NGHTTP2_CONTINUATION hd0)). cbn [cur set_chain].
    destruct (put_continuations_spec off hd1 (cur b - 1) 1 (set_chain l1 b)) as (l2 & -> & H2).
    { destruct H1 as (L1 & _). cbn. lia. }
    { intros i buf Hi E. cbn in E. rewrite (headed_lookup _ _ _ _ _ _ i H1) in E by lia. split; [by eapply Hbuf|]. apply (Hp i buf E). lia. }
    cbn [mbind option_bind chain set_chain cur] in *. destruct (lookup_lt_is_Some_2 (chain b) (cur b) Hc) as [buf2 E2].
    assert (E2' : l2 !! cur b = Some buf2) by (rewrite (headed_lookup _ _ _ _ _ _ _ H2), (headed_lookup _ _ _ _ _ _ _ H1) by lia; done).
    destruct (headed_one off (cur b) (set_hd_flags NGHTTP2_FLAG_END_HEADERS hd1) (set_chain l2 (set_chain l1 b)) buf2 E2' (Hbuf _ _ E2) (Hp _ _ E2 ltac:(lia))) as (l3 & -> & H3).
    exists l3. split; [done|]. cbn [chain set_chain] in H3.
    split; [destruct H1 as (L1 & _), H2 as (L2 & _), H3 as (L3 & _); congruence|].
    assert (Hsame : forall i, (cur b < i)%nat -> l3 !! i = chain b !! i).
    { intros i Hi. by rewrite (headed_lookup _ _ _ _ _ _ i H3), (headed_lookup _ _ _ _ _ _ i H2), (headed_lookup _ _ _ _ _ _ i H1) by lia. }
    split; [done|]. intros i buf E. unfold front_at.
    destruct (Nat.leb_spec i (cur b)) as [Hle|Hgt].
    + destruct (Nat.eq_dec i (cur b)) as [->|Hne].
      * destruct H3 as (_ & _ & H3). destruct (H3 (cur b) buf ltac:(lia)) as (buf' & E' & Hf); [congruence|]. exists buf'. split; [done|].
        unfold hd_at. rewrite (proj2 (Nat.eqb_neq (cur b) 0%nat)), Nat.eqb_refl by done. done.
      * rewrite (headed_lookup _ _ _ _ _ _ i H3) by lia. destruct (Nat.eq_dec i 0%nat) as [->|Hi].
        -- rewrite (headed_lookup _ _ _ _ _ _ 0%nat H2) by lia. destruct H1 as (_ & _ & H1). destruct (H1 0%nat buf ltac:(lia) E) as (buf' & E' & Hf). exists buf'. split; [done|].
           unfold hd_at. rewrite (proj2 (Nat.eqb_neq (cur b) 0%nat)) by done. done.
        -- destruct H2 as (_ & _ & H2). destruct (H2 i buf ltac:(lia)) as (buf' & E' & Hf); [rewrite (headed_lookup _ _ _ _ _ _ i H1) by lia; done|]. exists buf'. split; [done|].
           unfold hd_at. rewrite (proj2 (Nat.eqb_neq i 0%nat)), (proj2 (Nat.eqb_neq i (cur b))) by done. done.
    + exists buf. rewrite Hsame by done.
      split; [done|]. split; [by eapply Hbuf|done].
Qed.

Lemma list_lookup_map {A B} (f : A -> B) (l : list A) i : map f l !! i = f <$> l !! i.
Proof. apply list_lookup_fmap. Qed.

(** The frames in the chain. *)
Definition chunk_frames (hd : nghttp2_frame_hd) (c : nat) (l : list nghttp2_buf) : list (nghttp2_frame_hd * list char) :=
  imap (fun i buf => (hd_at hd c i (Z.of_nat (length (present buf))), present buf)) (take (S c) l).

Lemma all_headed_contents off hd c l l' : (c < length l)%nat -> all_headed off hd c l l' -> concat (map present (drop (S c) l)) = [] ->
  concat (map present l') = concat (map frame_bytes (chunk_frames hd c l)).
Proof.
  intros Hc (Hlen & _ & H) Htail. rewrite <- (take_drop (S c) l'), map_app, concat_app.
  assert (E1 : map present (take (S c) l') = map frame_bytes (chunk_frames hd c l)).
  { apply list_eq. intros i. rewrite !list_lookup_map. unfold chunk_frames. rewrite list_lookup_imap.
    destruct (Nat.lt_ge_cases i (S c)) as [Hi|Hi].
    - rewrite !lookup_take_lt by done. destruct (lookup_lt_is_Some_2 l i ltac:(lia)) as [buf E]. destruct (H i buf E) as (buf' & E' & _ & Hpr & _).
      rewrite E, E'. cbn. rewrite Hpr. unfold front_at. rewrite (proj2 (Nat.leb_le _ _)) by lia. done.
    - rewrite !lookup_take_ge by done. done. }
  assert (E2 : map present (drop (S c) l') = map present (drop (S c) l)).
  { apply list_eq. intros i. rewrite !list_lookup_map, !lookup_drop. destruct (l !! (S c + i)%nat) as [buf|] eqn:E.
    - destruct (H _ buf E) as (buf' & -> & _ & Hpr & _). cbn. rewrite Hpr. unfold front_at. rewrite (proj2 (Nat.leb_gt _ _)) by lia. done.
    - rewrite (lookup_ge_None_2 l'); [done|]. rewrite Hlen. by apply lookup_ge_None. }
  by rewrite E1, E2, Htail, app_nil_r.
Qed.

(** ** Chains with a header block *)

(** All but the front of the chunks stays. *)
Lemma wf_fronts b l' : wf b -> length l' = length (chain b) -> (forall i, (cur b < i)%nat -> l' !! i = chain b !! i) -> Forall (wf_buf (offset b)) l' ->
  wf (set_chain l' b).
Proof.
  intros [W1 W2 W3 W4 W5 W6 W7] Hl Hs Hw. constructor; cbn; rewrite ?Hl; try done.
  assert (E : drop (S (cur b)) l' = drop (S (cur b)) (chain b)) by (apply list_eq; intros i; rewrite !lookup_drop; apply Hs; lia). by rewrite E.
Qed.

Lemma blocks_caps l l' : map nghttp2_buf_cap l' = map nghttp2_buf_cap l -> blocks l' = blocks l.
Proof.
  revert l'. induction l as [|x l IH]; intros [|x' l'] E; [done..|]. cbn in E. injection E as Ex El.
  change (blocks_of x' + blocks l' = blocks_of x + blocks l). rewrite (IH l' El). unfold blocks_of. by rewrite Ex.
Qed.

(** A chain whose chunks up to [cur] hold the payloads [p], with room in front. *)
Record staged (b : nghttp2_bufs) (p : list char) : Prop := {
  st_wf : wf b;
  st_room : forall i buf, chain b !! i = Some buf -> (i <= cur b)%nat -> (NGHTTP2_FRAME_HDLEN <= pos buf)%nat;
  st_small : Forall (fun buf => Z.of_nat (nghttp2_buf_cap buf) < 2 ^ 24) (chain b);
  st_contents : contents b = p
}.

Lemma contents_cons b buf : chain b !! 0%nat = Some buf -> contents b = present buf ++ concat (map present (tail (chain b))).
Proof. unfold contents. destruct (chain b); [done|]. by intros [= ->]. Qed.

Lemma contents_upto b : wf b -> concat (map present (drop (S (cur b)) (chain b))) = [].
Proof. intros W. apply (untouched_concat (offset b)), (wf_tail b W). Qed.

(** Bytes in front of the first chunk are taken over, or replaced. *)
Lemma on_first_chunk b f buf buf' : wf b -> chain b !! 0%nat = Some buf -> f buf = Some buf' -> wf_buf (offset b) buf' -> nghttp2_buf_cap buf' = nghttp2_buf_cap buf ->
  exists b', on_chunk 0 f b = Some b' /\ wf b' /\ contents b' = present buf' ++ concat (map present (tail (chain b))) /\
    blocks (chain b') = blocks (chain b) /\ cur b' = cur b /\ (offset b' = offset b /\ chunk_length b' = chunk_length b) /\ chain b' !! 0%nat = Some buf' /\
    map nghttp2_buf_cap (chain b') = map nghttp2_buf_cap (chain b) /\ forall i, i <> 0%nat -> chain b' !! i = chain b !! i.
Proof.
  intros W E Ef Hw Hcap. eexists. split; [by apply (on_chunk_spec 0 f b buf buf')|]. assert (Hl : (0 < length (chain b))%nat) by (by eapply lookup_lt_Some).
  assert (Hcaps : map nghttp2_buf_cap (<[0%nat:=buf']> (chain b)) = map nghttp2_buf_cap (chain b)).
  { destruct (chain b); [done|]. cbn in *. injection E as ->. by rewrite Hcap. }
  split; [|split; [|split; [by apply blocks_caps|]]].
  - apply wf_fronts; [done|apply length_insert|intros i Hi; apply list_lookup_insert_ne; lia|].
    apply Forall_insert; [apply (wf_chunks b W)|done].
  - unfold contents. cbn. destruct (chain b); [done|]. done.
  - cbn. split; [done|]. split; [done|]. split; [by apply list_lookup_insert_eq|]. split; [done|]. intros i Hi. by apply list_lookup_insert_ne.
Qed.

Lemma caps_small l l' : map nghttp2_buf_cap l' = map nghttp2_buf_cap l -> Forall (fun buf => Z.of_nat (nghttp2_buf_cap buf) < 2 ^ 24) l ->
  Forall (fun buf => Z.of_nat (nghttp2_buf_cap buf) < 2 ^ 24) l'.
Proof.
  intros E H. apply (Forall_map nghttp2_buf_cap (fun n => Z.of_nat n < 2 ^ 24)). rewrite E. by apply (Forall_map nghttp2_buf_cap (fun n => Z.of_nat n < 2 ^ 24)).
Qed.

(** A chain to begin a header block in, [nv] bytes behind the start of the payload. *)
Definition blank_chain (nv : nat) (b : nghttp2_bufs) : Prop :=
  wf b /\ roomy b /\ cur b = 0%nat /\ (NGHTTP2_FRAME_HDLEN <= offset b)%nat /\
  (exists buf, chain b !! 0%nat = Some buf /\ untouched (offset b) buf /\ (offset b + nv < nghttp2_buf_cap buf)%nat) /\
  Forall (fun buf => Z.of_nat (nghttp2_buf_cap buf) < 2 ^ 24) (chain b) /\ Z.of_nat (chunk_length b) < 2 ^ 24.

Lemma skip_front_spec off nv buf : wf_buf off buf -> untouched off buf -> (off + nv < nghttp2_buf_cap buf)%nat ->
  exists buf', skip_front nv buf = Some buf' /\ wf_buf off buf' /\ present buf' = [] /\ nghttp2_buf_cap buf' = nghttp2_buf_cap buf /\ pos buf' = (off + nv)%nat.
Proof.
  intros (H1 & H2 & H3) [U1 U2] Hc. unfold skip_front. rewrite U1. rewrite (proj2 (Nat.leb_le _ _)) by lia. eexists. split; [done|].
  unfold wf_buf, present, nghttp2_buf_len, nghttp2_buf_cap in *. cbn. rewrite Nat.sub_diag. split; [lia|]. done.
Qed.

Lemma skip_blank nv b : blank_chain nv b ->
  exists b1, on_chunk 0 (skip_front nv) b = Some b1 /\ wf b1 /\ roomy b1 /\ contents b1 = [] /\ blocks (chain b1) = blocks (chain b) /\
    offset b1 = offset b /\ chunk_length b1 = chunk_length b /\ Forall (fun buf => Z.of_nat (nghttp2_buf_cap buf) < 2 ^ 24) (chain b1) /\
    forall i buf, chain b1 !! i = Some buf -> pos buf = (if (i =? 0)%nat then offset b + nv else offset b)%nat.
Proof.
  intros (W & [R1 R2] & Hcur & Hoff & (buf & E & U & Hc) & Hsm & Hcl).
  destruct (skip_front_spec (offset b) nv buf) as (buf1 & Ef & Hw1 & Hp1 & Hc1 & Hpos1); [by apply (Forall_lookup_1 _ _ _ _ (wf_chunks b W) E)|done..|].
  destruct (on_first_chunk b (skip_front nv) buf buf1 W E Ef Hw1 Hc1) as (b1 & -> & W1 & C1 & B1 & Hcur1 & [O1 L1] & E1 & Hcaps & Hrest).
  pose proof (wf_tail b W) as Ht. rewrite Hcur in Ht. exists b1. split; [done|]. split; [done|]. split.
  { split; [|by rewrite O1, L1]. rewrite O1. apply (Forall_map nghttp2_buf_cap (fun n => offset b < n)%nat). rewrite Hcaps.
    by apply (Forall_map nghttp2_buf_cap (fun n => offset b < n)%nat). }
  assert (Et : drop 1 (chain b) = tail (chain b)) by by destruct (chain b). rewrite Et in Ht.
  split; [rewrite C1, Hp1; cbn; by apply (untouched_concat (offset b))|]. do 3 (split; [done|]). split; [by apply (caps_small (chain b))|].
  intros i x Ei. destruct i as [|i]; [rewrite E1 in Ei; by injection Ei as <-|]. rewrite Hrest in Ei by done. cbn.
  destruct (chain b) as [|y l]; [done|]. cbn in Ei, Ht. by apply (Forall_lookup_1 _ _ _ _ Ht Ei).
Qed.

(** Where the chunks are after writing. *)
Lemma places_after nv b b1 b2 : blank_chain nv b -> places b1 b2 -> offset b1 = offset b -> chunk_length b1 = chunk_length b ->
  Forall (fun buf => Z.of_nat (nghttp2_buf_cap buf) < 2 ^ 24) (chain b1) ->
  (forall i buf, chain b1 !! i = Some buf -> pos buf = (if (i =? 0)%nat then offset b + nv else offset b)%nat) -> (0 < length (chain b1))%nat ->
  forall i buf, chain b2 !! i = Some buf -> pos buf = (if (i =? 0)%nat then offset b + nv else offset b)%nat /\ Z.of_nat (nghttp2_buf_cap buf) < 2 ^ 24.
Proof.
  intros (_ & _ & _ & _ & _ & _ & Hcl) (_ & _ & k & Hpl) O1 L1 Hsm Hpos Hne i buf E.
  assert (Ep : map place (chain b2) !! i = Some (place buf)) by (by rewrite list_lookup_map, E). rewrite Hpl in Ep.
  destruct (Nat.lt_ge_cases i (length (chain b1))) as [Hi|Hi].
  - rewrite lookup_app_l in Ep by (by rewrite length_map). rewrite list_lookup_map in Ep. destruct (chain b1 !! i) as [x|] eqn:Ex; [|done].
    cbn in Ep. injection Ep as Ep1 Ep2. rewrite <- Ep1, <- Ep2. split; [by apply Hpos|]. exact (Forall_lookup_1 _ _ _ _ Hsm Ex).
  - rewrite lookup_app_r in Ep by (by rewrite length_map). apply lookup_replicate in Ep as [Ep _]. injection Ep as Ep1 Ep2. rewrite Ep1, Ep2, O1, L1.
    rewrite (proj2 (Nat.eqb_neq i 0%nat)) by lia. done.
Qed.

(** *** The prefix of the payload, and the headers *)

Lemma write_prefix b front p pre buf : staged b (front ++ p) -> length front = length pre -> chain b !! 0%nat = Some buf -> (length pre <= nghttp2_buf_len buf)%nat ->
  exists b', on_chunk 0 (fun buf => poke (pos buf) pre buf) b = Some b' /\ staged b' (pre ++ p) /\ blocks (chain b') = blocks (chain b) /\
    exists buf' rest, chain b' !! 0%nat = Some buf' /\ present buf' = pre ++ rest.
Proof.
  intros [W Hroom Hsm Hc] Hf E Hl. pose proof (Forall_lookup_1 _ _ _ _ (wf_chunks b W) E) as Hw.
  destruct (poke_spec (offset b) 0 pre buf Hw) as (buf' & Ef & Hw' & Hpr & Hcap & Hpos & _); [lia|]. rewrite Nat.add_0_r in Ef.
  destruct (on_first_chunk b (fun buf => poke (pos buf) pre buf) buf buf' W E Ef Hw' Hcap) as (b' & -> & W' & C' & B' & Hcur' & [O' L'] & E' & Hcaps & Hrest).
  eexists. split; [done|]. split; [|split; [done|exists buf', (drop (0 + length pre) (present buf)); split; [done|]; by rewrite Hpr, take_0]]. constructor; [done| |by apply (caps_small (chain b))|].
  - intros i x Ei Hi. rewrite Hcur' in Hi. destruct i as [|i]; [rewrite E' in Ei; injection Ei as <-; rewrite Hpos; by apply (Hroom 0%nat)|].
    rewrite Hrest in Ei by done. by apply (Hroom (S i)).
  - rewrite C', Hpr, take_0. cbn [app]. rewrite <- app_assoc. f_equal. cbn [Nat.add]. rewrite (contents_cons b buf E) in Hc.
    apply (f_equal (drop (length pre))) in Hc. rewrite (drop_app_length' front) in Hc by done. rewrite <- Hc. rewrite drop_app_le; [done|].
    by rewrite (present_length (offset b)).
Qed.

Definition block_hd_ok (hd : nghttp2_frame_hd) : Prop :=
  0 <= hd_stream_id hd < 2 ^ 31 /\ 0 <= hd_type hd < 256 /\ 0 <= hd_flags hd < 256 /\ hd_reserved hd = 0.

Lemma clear_end f : 0 <= f < 256 -> 0 <= Z.land f (Z.lnot NGHTTP2_FLAG_END_HEADERS) < 256 /\
  Z.land (Z.land f (Z.lnot NGHTTP2_FLAG_END_HEADERS)) NGHTTP2_FLAG_END_HEADERS = 0 /\
  Z.land (Z.land f (Z.lnot NGHTTP2_FLAG_END_HEADERS)) NGHTTP2_FLAG_PRIORITY = Z.land f NGHTTP2_FLAG_PRIORITY /\
  Z.land (Z.land f (Z.lnot NGHTTP2_FLAG_END_HEADERS)) NGHTTP2_FLAG_END_STREAM = Z.land f NGHTTP2_FLAG_END_STREAM.
Proof. intros H. rewrite <- (bval_uint8 f H). generalize (uint8 f). by_every_char. Qed.

Lemma hd_at_ok hd c i n : block_hd_ok hd -> 0 <= n < 2 ^ 24 -> hd_ok (hd_at hd c i n).
Proof.
  intros (Hs & Ht & Hf & Hr) Hn. unfold hd_ok, hd_at. cbn [hd_length hd_stream_id hd_type hd_flags hd_reserved]. split; [done|]. split; [done|].
  split; [by destruct (i =? 0)%nat|]. split; [|done]. destruct (i =? 0)%nat; [destruct (c =? 0)%nat; [done|by apply clear_end]|by destruct (i =? c)%nat].
Qed.

(** END_HEADERS on the last frame and no other. *)
Lemma hd_at_end hd c i n : block_hd_ok hd -> flag_set hd NGHTTP2_FLAG_END_HEADERS = true -> (i <= c)%nat ->
  flag_set (hd_at hd c i n) NGHTTP2_FLAG_END_HEADERS = (i =? c)%nat.
Proof.
  intros (_ & _ & Hf & _) He Hi. unfold flag_set, hd_at in *. cbn [hd_flags]. destruct (Nat.eqb_spec i 0) as [->|Hi0].
  - destruct (Nat.eqb_spec c 0) as [->|Hc0]; [done|]. destruct (clear_end _ Hf) as (_ & -> & _). symmetry. by apply Nat.eqb_neq.
  - by destruct (Nat.eqb_spec i c).
Qed.

Lemma headers_of b hd p : staged b p -> block_hd_ok hd ->
  exists b' frames, frame_pack_headers_shared b hd = Some b' /\ wf b' /\ blocks (chain b') = blocks (chain b) /\
    contents b' = concat (map frame_bytes frames) /\ concat (map snd frames) = p /\ Forall well_framed frames /\ length frames = S (cur b) /\
    (forall buf, chain b !! 0%nat = Some buf -> snd <$> frames !! 0%nat = Some (present buf)) /\
    forall i hd' p', frames !! i = Some (hd', p') -> hd' = hd_at hd (cur b) i (Z.of_nat (length p')).
Proof.
  intros [W Hroom Hsm Hc] Hhd. pose proof (wf_cur b W) as Hcur.
  destruct (shared_spec (offset b) hd b) as (l' & -> & Hall); [split; [apply (wf_chunks b W)|done]|done|]. pose proof Hall as (Hlen & Hsame & Hfront).
  assert (Hw' : Forall (wf_buf (offset b)) l').
  { apply Forall_lookup. intros i x Ei. destruct (lookup_lt_is_Some_2 (chain b) i) as [buf E]; [rewrite <- Hlen; by eapply lookup_lt_Some|].
    destruct (Hfront i buf E) as (buf' & E' & Hw & _). rewrite Ei in E'. by injection E' as ->. }
  assert (Hcaps : map nghttp2_buf_cap l' = map nghttp2_buf_cap (chain b)).
  { apply list_eq. intros i. rewrite !list_lookup_map. destruct (chain b !! i) as [buf|] eqn:E.
    - destruct (Hfront i buf E) as (buf' & -> & _ & _ & Hcap). cbn. by rewrite Hcap.
    - rewrite (lookup_ge_None_2 l'); [done|]. rewrite Hlen. by apply lookup_ge_None. }
  assert (Hpay : map snd (chunk_frames hd (cur b) (chain b)) = map present (take (S (cur b)) (chain b))).
  { unfold chunk_frames. apply list_eq. intros i. rewrite !list_lookup_map, list_lookup_imap. by destruct (take (S (cur b)) (chain b) !! i). }
  eexists _, (chunk_frames hd (cur b) (chain b)). split; [done|]. split; [by apply wf_fronts|]. split; [by apply blocks_caps|].
  split; [unfold contents; cbn; apply (all_headed_contents (offset b)); [done..|by apply contents_upto]|].
  split.
  { rewrite Hpay, <- Hc. unfold contents. rewrite <- (take_drop (S (cur b)) (chain b)) at 2. rewrite map_app, concat_app, contents_upto by done. by rewrite app_nil_r. }
  split; [|split; [unfold chunk_frames; rewrite length_imap, length_take; lia|split]].
  - apply Forall_lookup. intros i [hd' p'] Ei. unfold chunk_frames in Ei. rewrite list_lookup_imap in Ei.
    destruct (take (S (cur b)) (chain b) !! i) as [buf|] eqn:E; [|done]. cbn in Ei. injection Ei as <- <-. apply lookup_take_Some in E as [E _].
    split; [|done]. cbn [fst]. apply hd_at_ok; [done|]. pose proof (Forall_lookup_1 _ _ _ _ (wf_chunks b W) E) as Hwb. rewrite (present_length (offset b)) by done.
    pose proof (Forall_lookup_1 _ _ _ _ Hsm E) as Hb. cbn in Hb. destruct Hwb as (_ & Hle & _). unfold nghttp2_buf_len. lia.
  - intros buf E. unfold chunk_frames. rewrite list_lookup_imap, lookup_take_lt by lia. by rewrite E.
  - intros i hd' p' Ei. unfold chunk_frames in Ei. rewrite list_lookup_imap in Ei. destruct (take (S (cur b)) (chain b) !! i) as [buf|]; [|done].
    cbn in Ei. by injection Ei as <- <-.
Qed.

Section Spec.
Context (malloc_ok : nat -> bool) (junk : nat -> nat -> char).

Lemma deflate_payload_spec nv nva d o l t : blank_chain nv (fst o) -> deflater_ok d (snd o) l -> bad (d_ctx d) = false -> announced d l t ->
  Forall sendable nva ->
  exists rv d' o' l' p front buf, deflate_payload malloc_ok junk nv nva d o = Some (rv, d', o') /\
    staged (fst o') (front ++ p) /\ length front = nv /\ chain (fst o') !! 0%nat = Some buf /\ (nv <= nghttp2_buf_len buf)%nat /\
    deflater_ok d' (snd o') l' /\ loose o' l' = loose o l /\ bad (d_ctx d') = negb (rv =? 0) /\
    (rv = 0 -> exists rs, reprs_bytes (map SizeUpdate (updates d) ++ rs) p /\ Forall2 represents nva rs /\
       meanings t (map SizeUpdate (updates d) ++ rs) = Some (table_of (d_ctx d') l', map emission nva)).
Proof.
  intros Hb Hd Hbad Ha Hs. destruct o as [b h]. cbn [fst snd] in *. pose proof Hb as (W & _ & Hcur & Hoff & _).
  unfold deflate_payload. cbn [fst snd]. rewrite Hcur. cbn [Nat.eqb negb].
  destruct (skip_blank nv b Hb) as (b1 & -> & W1 & R1 & C1 & B1 & O1 & L1 & Hsm & Hpos). cbn [mbind option_bind].
  destruct (deflate_block_spec malloc_ok junk d (b1, h) l t nva Hd (conj W1 R1) Hbad Ha Hs)
    as (rv & d' & [b2 h2] & l' & p & -> & [W2 R2] & C2 & Hd2 & Hl2 & _ & Hpl & (_ & Hb2 & _) & Hok). cbn [mbind option_bind fst snd] in *.
  assert (Hne1 : (0 < length (chain b1))%nat) by (pose proof (wf_cur b1 W1); lia). assert (Hne2 : (0 < length (chain b2))%nat) by (pose proof (wf_cur b2 W2); lia).
  pose proof (places_after nv b b1 b2 Hb Hpl O1 L1 Hsm Hpos Hne1) as Hat. assert (O2 : offset b2 = offset b) by (destruct Hpl as [-> _]; done).
  destruct (lookup_lt_is_Some_2 (chain b2) 0%nat Hne2) as [buf E]. destruct (Hat 0%nat buf E) as [Hp0 _]. cbn in Hp0.
  destruct (pos_back_spec (offset b2) nv buf) as (buf' & front & Ef & Hw' & Hfl & Hpr & Hcap & Hpos' & Hla'); [by apply (Forall_lookup_1 _ _ _ _ (wf_chunks b2 W2) E)|lia|].
  destruct (on_first_chunk b2 (pos_back nv) buf buf' W2 E Ef Hw' Hcap) as (b3 & -> & W3 & C3 & B3 & Hcur3 & [O3 L3] & E3 & Hcaps & Hrest).
  cbn [mbind option_bind].
  assert (Hsm2 : Forall (fun buf => Z.of_nat (nghttp2_buf_cap buf) < 2 ^ 24) (chain b2)) by (apply Forall_lookup; intros i x Ei; by apply (Hat i)).
  assert (Hst : staged b3 (front ++ p)).
  { constructor; [done| |by apply (caps_small (chain b2))|].
    - intros i x Ei _. destruct i as [|i]; [rewrite E3 in Ei; injection Ei as <-; lia|]. rewrite Hrest in Ei by done. destruct (Hat _ _ Ei) as [-> _]. done.
    - rewrite C3, Hpr, <- app_assoc. f_equal. rewrite <- (contents_cons b2 buf) by done. by rewrite C2, C1. }
  assert (Hrv : ((if rv =? NGHTTP2_ERR_BUFFER_ERROR then NGHTTP2_ERR_HEADER_COMP else rv) =? 0) = (rv =? 0)) by (by destruct (Z.eqb_spec rv NGHTTP2_ERR_BUFFER_ERROR) as [->|]).
  do 2 eexists. exists (b3, h2), l', p, front, buf'. split; [done|]. cbn [fst snd]. split; [done|]. split; [done|]. split; [done|].
  split; [unfold nghttp2_buf_len; pose proof (Forall_lookup_1 _ _ _ _ (wf_chunks b2 W2) E) as (Hle & _); lia|].
  split; [done|]. split; [revert Hl2; unfold loose, others; cbn [fst snd]; lia|]. split; [by rewrite Hrv|]. intros E0. apply Hok.
  rewrite E0 in Hrv. by apply Z.eqb_eq.
Qed.

(** The priority in front of the header block, if the frame has one. *)
Definition prefix_of (f : nghttp2_headers) : list char := if flag_set (h_hd f) NGHTTP2_FLAG_PRIORITY then nghttp2_frame_pack_priority_spec (h_pri f) else [].

Lemma length_prefix f : length (prefix_of f) = nghttp2_frame_headers_payload_nv_offset f.
Proof. unfold prefix_of, nghttp2_frame_headers_payload_nv_offset, nghttp2_frame_priority_len. by destruct (flag_set _ _). Qed.

Lemma put_prefix f b front p buf : staged b (front ++ p) -> length front = nghttp2_frame_headers_payload_nv_offset f -> chain b !! 0%nat = Some buf ->
  (nghttp2_frame_headers_payload_nv_offset f <= nghttp2_buf_len buf)%nat ->
  exists b', (if flag_set (h_hd f) NGHTTP2_FLAG_PRIORITY then on_chunk 0 (fun buf => poke (pos buf) (nghttp2_frame_pack_priority_spec (h_pri f)) buf) b else Some b) = Some b' /\
    staged b' (prefix_of f ++ p) /\ blocks (chain b') = blocks (chain b) /\ exists buf' rest, chain b' !! 0%nat = Some buf' /\ present buf' = prefix_of f ++ rest.
Proof.
  intros Hst Hl E Hle. rewrite <- length_prefix in Hl, Hle. unfold prefix_of in *. destruct (flag_set _ _).
  - by apply (write_prefix b front p _ buf).
  - apply nil_length_inv in Hl as ->. exists b. split; [done|]. split; [done|]. split; [done|]. by exists buf, (present buf).
Qed.

(** What the receiver of a frame learns of a header block. *)
Lemma unpack_headers_prefix f c n rest padlen x cat : block_hd_ok (h_hd f) -> pri_ok (h_pri f) ->
  nghttp2_frame_unpack_headers_payload (Headers (hd_at (h_hd f) c 0 n) padlen x [] cat) (prefix_of f ++ rest) =
    Some (Headers (hd_at (h_hd f) c 0 n) padlen (if flag_set (h_hd f) NGHTTP2_FLAG_PRIORITY then h_pri f else nghttp2_priority_spec_default_init) [] cat).
Proof.
  intros (_ & _ & Hf & _) Hp. unfold nghttp2_frame_unpack_headers_payload, prefix_of. cbn [h_hd].
  assert (E : flag_set (hd_at (h_hd f) c 0 n) NGHTTP2_FLAG_PRIORITY = flag_set (h_hd f) NGHTTP2_FLAG_PRIORITY).
  { unfold flag_set, hd_at. cbn [hd_flags Nat.eqb]. destruct (c =? 0)%nat; [done|]. by destruct (clear_end _ Hf) as (_ & _ & -> & _). }
  rewrite E. destruct (flag_set (h_hd f) _); [|done]. by rewrite unpack_pack_pri.
Qed.

(** C37: a header block on the wire.  Packing HEADERS into a blank chain gives what the
    reader of the connection finds to be one HEADERS frame and CONTINUATION frames of
    the same stream, each with the length of its payload, END_HEADERS on the last and no
    other; the payloads, put together, are the priority of the frame, if it has one, and
    a header block that encodes the fields, as [deflate_block_correct] says; from the
    first payload the priority is read back.  Or it fails, and the deflater is [bad];
    in both cases the chain, the tables and the counts stay right. *)
Theorem pack_headers_correct f d o l t : blank_chain (nghttp2_frame_headers_payload_nv_offset f) (fst o) ->
  block_hd_ok (h_hd f) -> hd_type (h_hd f) = NGHTTP2_HEADERS -> flag_set (h_hd f) NGHTTP2_FLAG_END_HEADERS = true -> pri_ok (h_pri f) ->
  deflater_ok d (snd o) l -> bad (d_ctx d) = false -> announced d l t -> Forall sendable (h_nva f) ->
  exists rv f' d' o' l', nghttp2_frame_pack_headers malloc_ok junk f d o = Some (rv, f', d', o') /\
    wf (fst o') /\ deflater_ok d' (snd o') l' /\ loose o' l' = loose o l /\ bad (d_ctx d') = negb (rv =? 0) /\
    (rv = 0 -> exists frames block rs, read_frames (length frames) (contents (fst o')) = Some frames /\
       concat (map snd frames) = prefix_of f ++ block /\
       reprs_bytes (map SizeUpdate (updates d) ++ rs) block /\
       meanings t (map SizeUpdate (updates d) ++ rs) = Some (table_of (d_ctx d') l', map emission (h_nva f)) /\
       (exists hd0 p0, frames !! 0%nat = Some (hd0, p0) /\
          nghttp2_frame_unpack_headers_payload (Headers hd0 0 nghttp2_priority_spec_default_init [] (h_cat f)) p0 =
            Some (Headers hd0 0 (if flag_set (h_hd f) NGHTTP2_FLAG_PRIORITY then h_pri f else nghttp2_priority_spec_default_init) [] (h_cat f))) /\
       forall i hd' p', frames !! i = Some (hd', p') ->
         hd_stream_id hd' = hd_stream_id (h_hd f) /\ hd_type hd' = (if (i =? 0)%nat then NGHTTP2_HEADERS else NGHTTP2_CONTINUATION) /\
         hd_length hd' = Z.of_nat (length p') /\ flag_set hd' NGHTTP2_FLAG_END_HEADERS = (S i =? length frames)%nat).
Proof.
  intros Hb Hhd Hty Hend Hpri Hd Hbad Ha Hs. unfold nghttp2_frame_pack_headers.
  destruct (deflate_payload_spec _ (h_nva f) d o l t Hb Hd Hbad Ha Hs) as (rv & d' & [b1 h1] & l' & p & front & buf & -> & Hst & Hfl & E & Hle & Hd' & Hl' & Hbad' & Hok).
  cbn [mbind option_bind fst snd] in *. destruct (Z.eqb_spec rv 0) as [->|Hne]; cbn [negb] in *.
  2: { exists rv, f, d', (b1, h1), l'. split; [done|]. split; [apply Hst|]. split; [done|]. split; [done|]. split; [|done]. by rewrite (proj2 (Z.eqb_neq _ _)). }
  destruct (put_prefix f b1 front p buf Hst Hfl E Hle) as (b2 & -> & Hst2 & B2 & buf2 & rest & E2 & Hp2). cbn [mbind option_bind].
  set (hd := set_hd_length (Z.of_nat (nghttp2_bufs_len b2)) (h_hd f)).
  destruct (headers_of b2 hd _ Hst2 Hhd) as (b3 & frames & -> & W3 & B3 & C3 & Hcat & Hwf & Hlen & H0 & Hat). cbn [mbind option_bind].
  do 2 eexists. exists d', (b3, h1), l'. split; [done|]. cbn [fst snd]. split; [done|]. split; [done|].
  split; [rewrite <- Hl'; unfold loose, others; cbn [fst snd]; lia|]. split; [done|]. intros _.
  destruct (Hok eq_refl) as (rs & Hrs & _ & Hm). exists frames, p, rs. split; [rewrite C3; by apply read_frames_spec|]. do 3 (split; [done|]). split.
  - specialize (H0 buf2 E2). destruct (frames !! 0%nat) as [[hd0 p0]|] eqn:Ef; [|done]. cbn in H0. injection H0 as ->.
    exists hd0, (present buf2). split; [done|]. rewrite (Hat _ _ _ Ef), Hp2. by apply (unpack_headers_prefix f).
  - intros i hd' p' Ei. pose proof (lookup_lt_Some _ _ _ Ei) as Hi. rewrite (Hat _ _ _ Ei). split; [done|]. split; [cbn; by rewrite Hty|]. split; [done|].
    rewrite hd_at_end by (done || lia). rewrite Hlen. done.
Qed.
End Spec.

(** ** Witness: a block of three frames *)

Definition some_priority : nghttp2_priority_spec := PriSpec 3 200 true.
Definition some_headers : nghttp2_headers :=
  nghttp2_frame_headers_init (NGHTTP2_FLAG_END_STREAM + NGHTTP2_FLAG_END_HEADERS + NGHTTP2_FLAG_PRIORITY) 5 0 (Some some_priority) some_fields.

Lemma frame_bufs_blank : blank_chain 5 (frame_bufs 20).
Proof.
  destruct (frame_bufs_wf 20) as [W R]; [lia|]. split; [done|]. split; [done|]. split; [done|]. split; [cbn; unfold NGHTTP2_FRAME_HDLEN; lia|].
  split; [eexists; split; [done|]; split; [done|]; vm_compute; lia|]. split; [repeat constructor; vm_compute; done|vm_compute; done].
Qed.

(** What is on the wire: types, flags and lengths of the frames. *)
Example some_headers_frames :
  match nghttp2_hd_deflate_init2 (fun _ => true) 4096 (Heap (Mem 0 2) ∅) with
  | Some (_, d, h) =>
      match nghttp2_frame_pack_headers (fun _ => true) (fun _ _ => NUL) some_headers d (frame_bufs 20, h) with
      | Some (rv, _, _, o) =>
          (rv, option_map (map (fun x => (hd_type (fst x), hd_flags (fst x), hd_length (fst x)))) (read_frames 4 (contents (fst o)))) =
          (0, Some [(1, 33, 10); (9, 0, 10); (9, 4, 7)])
      | None => False
      end
  | None => False
  end.
Proof. vm_compute. reflexivity. Qed.


Lemma pack_headers_correct_witness : exists d m, nghttp2_hd_deflate_init2 (fun _ => true) 4096 (Heap (Mem 0 2) ∅) = Some (0, d, Heap m ∅) /\
  exists rv f' d' o' l', nghttp2_frame_pack_headers (fun _ => true) (fun _ _ => NUL) some_headers d (frame_bufs 20, Heap m ∅) = Some (rv, f', d', o') /\
    wf (fst o') /\ bad (d_ctx d') = negb (rv =? 0) /\
    (rv = 0 -> exists frames block rs, read_frames (length frames) (contents (fst o')) = Some frames /\
       concat (map snd frames) = nghttp2_frame_pack_priority_spec some_priority ++ block /\ reprs_bytes rs block /\
       meanings (Table 4096 []) rs = Some (table_of (d_ctx d') l', map emission some_fields) /\
       forall i hd' p', frames !! i = Some (hd', p') ->
         hd_stream_id hd' = 5 /\ hd_type hd' = (if (i =? 0)%nat then NGHTTP2_HEADERS else NGHTTP2_CONTINUATION) /\
         hd_length hd' = Z.of_nat (length p') /\ flag_set hd' NGHTTP2_FLAG_END_HEADERS = (S i =? length frames)%nat).
Proof.
  destruct (deflate_init_spec (fun _ => true) 4096 (Heap (Mem 0 2) ∅) ltac:(lia) (owned_nothing _)) as (rv & d & h & E & Hcase).
  pose proof E as E0. vm_compute in E0. injection E0 as E1 E2 E3. destruct Hcase as [(_ & Hok & Hbad & _ & Emin & Emax & Ent & _)|(Hno & _)]; [|rewrite Hno in E1; discriminate E1].
  assert (Ha : announced d [] (Table 4096 [])) by (unfold announced, table_of; by rewrite Ent, Emax).
  subst rv h. exists d, (Mem 1 3). split; [exact E|].
  destruct (pack_headers_correct (fun _ => true) (fun _ _ => NUL) some_headers d (frame_bufs 20, Heap (Mem 1 3) ∅) [] (Table 4096 []) frame_bufs_blank)
    as (rv & f' & d' & o' & l' & Eh & Hwf & _ & _ & Hb & Hrs); [vm_compute; repeat split; discriminate|vm_compute; reflexivity|vm_compute; reflexivity|
    vm_compute; repeat split; discriminate|exact Hok|exact Hbad|exact Ha|repeat constructor; vm_compute; done|].
  exists rv, f', d', o', l'. split; [exact Eh|]. split; [exact Hwf|]. split; [exact Hb|]. intros Hrv. destruct (Hrs Hrv) as (fs & block & rs & H1 & H2 & H3 & H4 & _ & H5).
  unfold updates in H3, H4. rewrite Ent in H3, H4. exists fs, block, rs. by repeat (split; [assumption|]).
Defined.
