(* ===== verification/Sfparse.v ===== *)
(** * Structured field values: [sfparse.c]

    The parser of RFC 9651 that nghttp2 carries along: items, lists, dictionaries, inner
    lists and parameters, read one by one.  What is left of the text is a list of
    characters; the string that a value points to is the list of its bytes.

    Reading behind the end of the text makes the result undefined, and so does a failing
    assert.  The build is the one without AVX2, whose functions [find_char_*] skip what
    the loops modelled here would have skipped. *)

From stdpp Require Import list.
From S2P Require Import Prelude CLib NgBuf NgHelper.

(** ** Constants and data *)

Definition SFPARSE_ERR_PARSE : Z := -1.
Definition SFPARSE_ERR_EOF : Z := -2.

Definition SFPARSE_STATE_DICT : Z := 8.
Definition SFPARSE_STATE_LIST : Z := 16.
Definition SFPARSE_STATE_ITEM : Z := 24.
Definition SFPARSE_STATE_INNER_LIST : Z := 4.
Definition SFPARSE_STATE_BEFORE : Z := 0.
Definition SFPARSE_STATE_BEFORE_PARAMS : Z := 1.
Definition SFPARSE_STATE_PARAMS : Z := 2.
Definition SFPARSE_STATE_AFTER : Z := 3.
Definition SFPARSE_STATE_OP_MASK : Z := 3.
Definition SFPARSE_STATE_INITIAL : Z := 0.

Definition SFPARSE_SET_STATE_AFTER (name : Z) : Z := Z.lor name SFPARSE_STATE_AFTER.
Definition SFPARSE_SET_STATE_BEFORE_PARAMS (name : Z) : Z := Z.lor name SFPARSE_STATE_BEFORE_PARAMS.
Definition SFPARSE_SET_STATE_INNER_LIST_BEFORE (name : Z) : Z := Z.lor (Z.lor name SFPARSE_STATE_INNER_LIST) SFPARSE_STATE_BEFORE.

(** The bytes from [base] on *)
Abbreviation sfparse_vec := (list char).

(** The type, the flags and the union of a value; [escaped] is the flag
    [SFPARSE_VALUE_FLAG_ESCAPED_STRING]. *)
Inductive sfparse_value :=
| SfBoolean (boolean : bool)
| SfInteger (integer : Z)
| SfDecimal (numer denom : Z)
| SfString (escaped : bool) (vec : sfparse_vec)
| SfToken (vec : sfparse_vec)
| SfByteseq (vec : sfparse_vec)
| SfInnerList
| SfDate (integer : Z)
| SfDispstring (vec : sfparse_vec).

Record sfparse_parser := Parser { pos : list char; op_state : Z }.

Definition set_pos (t : list char) (p : sfparse_parser) : sfparse_parser := Parser t (op_state p).
Definition set_op_state (v : Z) (p : sfparse_parser) : sfparse_parser := Parser (pos p) v.

(** ** The parser's monad: an error code or a value; [None] is undefined behaviour *)

Definition Sf (A : Type) : Type := sfparse_parser -> option ((Z + A) * sfparse_parser).

#[export] Instance Sf_monad : Monad Sf := {
  ret A a := fun p => Some (inr a, p);
  bind A B m f := fun p =>
    match m p with
    | Some (inr a, p) => f a p
    | Some (inl rv, p) => Some (inl rv, p)
    | None => None
    end
}.

Definition fail {A} (rv : Z) : Sf A := fun p => Some (inl rv, p).
Definition undefined {A} : Sf A := fun _ => None.
Definition get : Sf sfparse_parser := fun p => Some (inr p, p).
Definition put (f : sfparse_parser -> sfparse_parser) : Sf unit := fun p => Some (inr tt, f p).

(** [*sfp->pos] *)
Definition peek : Sf char := fun p => match pos p with c :: _ => Some (inr c, p) | [] => None end.
(** [++sfp->pos] *)
Definition advance : Sf unit := fun p => match pos p with _ :: t => Some (inr tt, set_pos t p) | [] => None end.
(** The characters from [base] to the position *)
Definition since (base : list char) : Sf sfparse_vec := fun p => Some (inr (take (length base - length (pos p)) base), p).
(** A loop over the characters: where it stops, and with what. *)
Definition scan {A} (f : list char -> (Z + A) * list char) : Sf A := fun p => let '(r, t) := f (pos p) in Some (r, set_pos t p).

Definition scan_partial {A} (f : list char -> option ((Z + A) * list char)) : Sf A := fun p =>
  match f (pos p) with Some (r, t) => Some (r, set_pos t p) | None => None end.

Definition parser_eof : Sf bool := fun p => Some (inr match pos p with [] => true | _ => false end, p).
(** [parser_eof(sfp) || *sfp->pos != c], negated *)
Definition at_char (c : char) : Sf bool := fun p => Some (inr match pos p with x :: _ => Ascii.eqb x c | [] => false end, p).

(** [for (; !parser_eof(sfp) && f( *sfp->pos); ++sfp->pos)] *)
Fixpoint drop_while (f : char -> bool) (t : list char) : list char :=
  match t with c :: t' => if f c then drop_while f t' else t | [] => [] end.
Definition skip_while (f : char -> bool) : Sf unit := put (fun p => set_pos (drop_while f (pos p)) p).

Definition parser_discard_ows : Sf unit := skip_while is_ws.
Definition parser_discard_sp : Sf unit := skip_while (fun c => Ascii.eqb c " ").

Definition parser_set_op_state (op : Z) : Sf unit := put (fun p => set_op_state (Z.lor (Z.ldiff (op_state p) SFPARSE_STATE_OP_MASK) op) p).
Definition parser_unset_inner_list_state : Sf unit := put (fun p => set_op_state (Z.ldiff (op_state p) SFPARSE_STATE_INNER_LIST) p).

(** ** Keys and values *)

Definition dquote : char := "034".
Definition backslash : char := "092".

Definition key_start (c : char) : bool := Ascii.eqb c "*" || is_lower c.
Definition key_char (c : char) : bool := existsb (Ascii.eqb c) (chars "_-.*") || is_num c || is_lower c.

Definition parser_key : Sf sfparse_vec :=
  c <- peek ;;
  if negb (key_start c) then fail SFPARSE_ERR_PARSE else
  base <- get ;;
  advance ;;
  skip_while key_char ;;
  since (pos base).

(** The two loops over digits: [len] and [value] *)
Fixpoint number_digits (len value : Z) (t : list char) : (Z + Z * Z) * list char :=
  match t with
  | c :: t' =>
      if is_num c then
        if 15 <? len + 1 then (inl SFPARSE_ERR_PARSE, t)
        else number_digits (len + 1) (value * 10 + (bval c - 48)) t'
      else (inr (len, value), t)
  | [] => (inr (len, value), t)
  end.

Definition parser_number : Sf sfparse_value :=
  c <- peek ;;
  sign <- (if Ascii.eqb c "-" then
             advance ;;
             eof <- parser_eof ;;
             if eof then fail SFPARSE_ERR_PARSE else ret (-1)
           else ret 1) ;;
  let! (len, value) := scan (number_digits 0 0) in
  if len =? 0 then fail SFPARSE_ERR_PARSE else
  point <- at_char "." ;;
  if negb point then ret (SfInteger (value * sign)) else
  if 12 <? len then fail SFPARSE_ERR_PARSE else
  advance ;;
  let! (len', value) := scan (number_digits len value) in
  if (len =? len') || (3 <? len' - len) then fail SFPARSE_ERR_PARSE else
  ret (SfDecimal (value * sign) (if len' - len =? 1 then 10 else if len' - len =? 2 then 100 else 1000)).

Definition parser_date : Sf sfparse_value :=
  c <- peek ;;
  if negb (Ascii.eqb c "@") then undefined else
  advance ;;
  eof <- parser_eof ;;
  if eof then fail SFPARSE_ERR_PARSE else
  val <- parser_number ;;
  match val with SfInteger n => ret (SfDate n) | _ => fail SFPARSE_ERR_PARSE end.

(** [X20_21_CASES], [X23_5B_CASES], [X5D_7E_CASES] *)
Definition string_char (c : char) : bool := (32 <=? bval c) && (bval c <=? 126) && negb (Ascii.eqb c dquote) && negb (Ascii.eqb c backslash).

(** The loop over a string, up to its end *)
Fixpoint string_loop (escaped : bool) (t : list char) : (Z + bool) * list char :=
  match t with
  | [] => (inl SFPARSE_ERR_PARSE, t)
  | c :: t' =>
      if string_char c then string_loop escaped t'
      else if Ascii.eqb c backslash then
        match t' with
        | [] => (inl SFPARSE_ERR_PARSE, t')
        | d :: t'' => if Ascii.eqb d dquote || Ascii.eqb d backslash then string_loop true t'' else (inl SFPARSE_ERR_PARSE, t')
        end
      else if Ascii.eqb c dquote then (inr escaped, t)
      else (inl SFPARSE_ERR_PARSE, t)
  end.

Definition parser_string : Sf sfparse_value :=
  c <- peek ;;
  if negb (Ascii.eqb c dquote) then undefined else
  advance ;;
  base <- get ;;
  escaped <- scan (string_loop false) ;;
  v <- since (pos base) ;;
  advance ;;
  ret (SfString escaped v).

(** [TOKEN_CASES] *)
Definition token_char (c : char) : bool := existsb (Ascii.eqb c) (chars "!#$%&'*+-./:^_`|~") || is_num c || is_upper c || is_lower c.

Definition parser_token : Sf sfparse_value :=
  base <- get ;;
  advance ;;
  skip_while token_char ;;
  v <- since (pos base) ;;
  ret (SfToken v).

Definition base64_char (c : char) : bool := Ascii.eqb c "+" || Ascii.eqb c "/" || is_num c || is_upper c || is_lower c.

(** The loop over a byte sequence; [n] is [sfp->pos - base]. *)
Fixpoint byteseq_loop (n : Z) (t : list char) : (Z + unit) * list char :=
  match t with
  | [] => (inl SFPARSE_ERR_PARSE, t)
  | c :: t' =>
      if base64_char c then byteseq_loop (n + 1) t'
      else if Ascii.eqb c "=" then
        let ending t := match t with x :: _ => if Ascii.eqb x ":" then (inr tt, t) else (inl SFPARSE_ERR_PARSE, t) | [] => (inl SFPARSE_ERR_PARSE, t) end in
        if Z.land n 3 =? 2 then
          match t' with
          | [] => (inl SFPARSE_ERR_PARSE, t')
          | d :: t'' => ending (if Ascii.eqb d "=" then t'' else t')
          end
        else if Z.land n 3 =? 3 then ending t'
        else (inl SFPARSE_ERR_PARSE, t)
      else if Ascii.eqb c ":" then if Z.land n 3 =? 1 then (inl SFPARSE_ERR_PARSE, t) else (inr tt, t)
      else (inl SFPARSE_ERR_PARSE, t)
  end.

Definition parser_byteseq : Sf sfparse_value :=
  c <- peek ;;
  if negb (Ascii.eqb c ":") then undefined else
  advance ;;
  base <- get ;;
  scan (byteseq_loop 0) ;;
  v <- since (pos base) ;;
  advance ;;
  ret (SfByteseq v).

Definition parser_boolean : Sf sfparse_value :=
  c <- peek ;;
  if negb (Ascii.eqb c "?") then undefined else
  advance ;;
  eof <- parser_eof ;;
  if eof then fail SFPARSE_ERR_PARSE else
  c <- peek ;;
  if Ascii.eqb c "0" then advance ;; ret (SfBoolean false)
  else if Ascii.eqb c "1" then advance ;; ret (SfBoolean true)
  else fail SFPARSE_ERR_PARSE.

(** The digit of [pctdecode]: [DIGIT_CASES], [LCHEXALPHA_CASES] *)
Definition hex_digit (b : char) : option Z :=
  if is_num b then Some (bval b - 48) else if (97 <=? bval b) && (bval b <=? 102) then Some (bval b - 97 + 10) else None.

(** The byte that two digits are; [None] is -1. *)
Definition pctdecode (a b : char) : option Z :=
  h ← hex_digit a;
  l ← hex_digit b;
  Some (Z.lor (u8 (Z.shiftl h 4)) l).

(** *** The automaton for UTF-8 *)

Definition UTF8_ACCEPT : Z := 0.
Definition UTF8_REJECT : Z := 12.

Definition utf8d : list Z := [
  0; 0; 0; 0; 0; 0; 0; 0; 0; 0; 0; 0; 0; 0; 0; 0; 0; 0; 0; 0; 0; 0; 0; 0; 0; 0; 0; 0; 0; 0; 0; 0;
  0; 0; 0; 0; 0; 0; 0; 0; 0; 0; 0; 0; 0; 0; 0; 0; 0; 0; 0; 0; 0; 0; 0; 0; 0; 0; 0; 0; 0; 0; 0; 0;
  0; 0; 0; 0; 0; 0; 0; 0; 0; 0; 0; 0; 0; 0; 0; 0; 0; 0; 0; 0; 0; 0; 0; 0; 0; 0; 0; 0; 0; 0; 0; 0;
  0; 0; 0; 0; 0; 0; 0; 0; 0; 0; 0; 0; 0; 0; 0; 0; 0; 0; 0; 0; 0; 0; 0; 0; 0; 0; 0; 0; 0; 0; 0; 0;
  1; 1; 1; 1; 1; 1; 1; 1; 1; 1; 1; 1; 1; 1; 1; 1; 9; 9; 9; 9; 9; 9; 9; 9; 9; 9; 9; 9; 9; 9; 9; 9;
  7; 7; 7; 7; 7; 7; 7; 7; 7; 7; 7; 7; 7; 7; 7; 7; 7; 7; 7; 7; 7; 7; 7; 7; 7; 7; 7; 7; 7; 7; 7; 7;
  8; 8; 2; 2; 2; 2; 2; 2; 2; 2; 2; 2; 2; 2; 2; 2; 2; 2; 2; 2; 2; 2; 2; 2; 2; 2; 2; 2; 2; 2; 2; 2;
  10; 3; 3; 3; 3; 3; 3; 3; 3; 3; 3; 3; 3; 4; 3; 3; 11; 6; 6; 6; 5; 8; 8; 8; 8; 8; 8; 8; 8; 8; 8; 8;
  0; 12; 24; 36; 60; 96; 84; 12; 12; 12; 48; 72; 12; 12; 12; 12; 12; 12; 12; 12; 12; 12; 12; 12;
  12; 0; 12; 12; 12; 12; 12; 0; 12; 0; 12; 12; 12; 24; 12; 12; 12; 12; 12; 24; 12; 24; 12; 12;
  12; 12; 12; 12; 12; 12; 12; 24; 12; 12; 12; 12; 12; 24; 12; 12; 12; 12; 12; 12; 12; 24; 12; 12;
  12; 12; 12; 12; 12; 12; 12; 36; 12; 36; 12; 12; 12; 36; 12; 12; 12; 12; 12; 36; 12; 36; 12; 12;
  12; 36; 12; 12; 12; 12; 12; 12; 12; 12; 12; 12
].

Definition utf8_decode (state byte : Z) : option Z := class ← utf8d !! Z.to_nat byte; utf8d !! Z.to_nat (256 + state + class).

(** The loop over a display string, up to its end; [None] is a read outside [utf8d]. *)
Fixpoint dispstring_loop (state : Z) (t : list char) : option ((Z + unit) * list char) :=
  match t with
  | [] => Some (inl SFPARSE_ERR_PARSE, t)
  | c :: t' =>
      if negb ((32 <=? bval c) && (bval c <=? 126)) then Some (inl SFPARSE_ERR_PARSE, t)
      else if Ascii.eqb c "%" then
        match t' with
        | a :: b :: t'' =>
            match pctdecode a b with
            | None => Some (inl SFPARSE_ERR_PARSE, t')
            | Some x =>
                s ← utf8_decode state x;
                if s =? UTF8_REJECT then Some (inl SFPARSE_ERR_PARSE, t'') else dispstring_loop s t''
            end
        | _ => Some (inl SFPARSE_ERR_PARSE, t')
        end
      else if Ascii.eqb c dquote then if negb (state =? UTF8_ACCEPT) then Some (inl SFPARSE_ERR_PARSE, t) else Some (inr tt, t)
      else if negb (state =? UTF8_ACCEPT) then Some (inl SFPARSE_ERR_PARSE, t) else dispstring_loop state t'
  end.

Definition parser_dispstring : Sf sfparse_value :=
  c <- peek ;;
  if negb (Ascii.eqb c "%") then undefined else
  advance ;;
  q <- at_char dquote ;;
  if negb q then fail SFPARSE_ERR_PARSE else
  advance ;;
  base <- get ;;
  scan_partial (dispstring_loop UTF8_ACCEPT) ;;
  v <- since (pos base) ;;
  advance ;;
  ret (SfDispstring v).

Definition parser_bare_item : Sf sfparse_value :=
  c <- peek ;;
  if Ascii.eqb c dquote then parser_string
  else if Ascii.eqb c "-" || is_num c then parser_number
  else if Ascii.eqb c "@" then parser_date
  else if Ascii.eqb c ":" then parser_byteseq
  else if Ascii.eqb c "?" then parser_boolean
  else if Ascii.eqb c "*" || is_upper c || is_lower c then parser_token
  else if Ascii.eqb c "%" then parser_dispstring
  else fail SFPARSE_ERR_PARSE.

(** ** Parameters and inner lists *)

(** [for (;;)] over calls of [m], up to [SFPARSE_ERR_EOF]; [again] is the next round. *)
Definition until_eof {A} (m : Sf A) (again : Sf unit) : Sf unit := fun p =>
  match m p with
  | Some (inr _, p) => again p
  | Some (inl rv, p) => if rv =? SFPARSE_ERR_EOF then Some (inr tt, p) else if rv =? SFPARSE_ERR_PARSE then Some (inl rv, p) else None
  | None => None
  end.

Definition op : Sf Z := fun p => Some (inr (Z.land (op_state p) SFPARSE_STATE_OP_MASK), p).

(** A parameter, after the first [switch]: the value that a parameter without one has
    is true. *)
Definition param_next : Sf (sfparse_vec * sfparse_value) :=
  more <- at_char ";" ;;
  if negb more then parser_set_op_state SFPARSE_STATE_AFTER ;; fail SFPARSE_ERR_EOF else
  advance ;;
  parser_discard_sp ;;
  eof <- parser_eof ;;
  if eof then fail SFPARSE_ERR_PARSE else
  key <- parser_key ;;
  eq <- at_char "=" ;;
  if negb eq then ret (key, SfBoolean true) else
  advance ;;
  eof <- parser_eof ;;
  if eof then fail SFPARSE_ERR_PARSE else
  v <- parser_bare_item ;;
  ret (key, v).

(** An inner list, after the first [switch] *)
Definition inner_list_next : Sf sfparse_value :=
  c <- peek ;;
  if Ascii.eqb c ")" then
    advance ;;
    parser_unset_inner_list_state ;;
    parser_set_op_state SFPARSE_STATE_BEFORE_PARAMS ;;
    fail SFPARSE_ERR_EOF
  else
  v <- parser_bare_item ;;
  parser_set_op_state SFPARSE_STATE_BEFORE_PARAMS ;;
  ret v.

(** The functions call each other: [parser_skip_inner_list] calls
    [sfparse_parser_inner_list], that [parser_skip_params], that [sfparse_parser_param],
    and that [parser_skip_inner_list] again.  Here the first three are given the last;
    the fuel bounds the rounds of the loops. *)

Definition param_with (skip_inner_list : Sf unit) : Sf (sfparse_vec * sfparse_value) :=
  o <- op ;;
  (if o =? SFPARSE_STATE_BEFORE then skip_inner_list ;; parser_set_op_state SFPARSE_STATE_PARAMS
   else if o =? SFPARSE_STATE_BEFORE_PARAMS then parser_set_op_state SFPARSE_STATE_PARAMS
   else if o =? SFPARSE_STATE_PARAMS then ret tt
   else undefined) ;;
  param_next.

Fixpoint skip_params_with (skip_inner_list : Sf unit) (fuel : nat) : Sf unit :=
  match fuel with
  | O => undefined
  | S fuel => until_eof (param_with skip_inner_list) (skip_params_with skip_inner_list fuel)
  end.

Definition inner_list_with (skip_inner_list : Sf unit) (fuel : nat) : Sf sfparse_value :=
  o <- op ;;
  (if o =? SFPARSE_STATE_BEFORE then
     parser_discard_sp ;;
     eof <- parser_eof ;;
     if eof then fail SFPARSE_ERR_PARSE else ret tt
   else
     (if o =? SFPARSE_STATE_BEFORE_PARAMS then skip_params_with skip_inner_list fuel else if o =? SFPARSE_STATE_AFTER then ret tt else undefined) ;;
     eof <- parser_eof ;;
     if eof then fail SFPARSE_ERR_PARSE else
     c <- peek ;;
     if Ascii.eqb c " " then
       parser_discard_sp ;;
       eof <- parser_eof ;;
       if eof then fail SFPARSE_ERR_PARSE else ret tt
     else if Ascii.eqb c ")" then ret tt
     else fail SFPARSE_ERR_PARSE) ;;
  inner_list_next.

Fixpoint parser_skip_inner_list (fuel : nat) : Sf unit :=
  match fuel with
  | O => undefined
  | S fuel => until_eof (inner_list_with (parser_skip_inner_list fuel) fuel) (parser_skip_inner_list fuel)
  end.

Definition sfparse_parser_param (fuel : nat) : Sf (sfparse_vec * sfparse_value) := param_with (parser_skip_inner_list fuel).
Definition parser_skip_params (fuel : nat) : Sf unit := skip_params_with (parser_skip_inner_list fuel) fuel.
Definition sfparse_parser_inner_list (fuel : nat) : Sf sfparse_value := inner_list_with (parser_skip_inner_list fuel) fuel.

(** ** Dictionaries, lists and items *)

Definition parser_next_key_or_item : Sf unit :=
  parser_discard_ows ;;
  eof <- parser_eof ;;
  if eof then fail SFPARSE_ERR_EOF else
  c <- peek ;;
  if negb (Ascii.eqb c ",") then fail SFPARSE_ERR_PARSE else
  advance ;;
  parser_discard_ows ;;
  eof <- parser_eof ;;
  if eof then fail SFPARSE_ERR_PARSE else ret tt.

Definition to_state (v : Z) : Sf unit := put (set_op_state v).

(** The end that dictionaries, lists and items share: an inner list or a bare item. *)
Definition member_value (kind : Z) : Sf sfparse_value :=
  c <- peek ;;
  if Ascii.eqb c "(" then
    advance ;;
    to_state (SFPARSE_SET_STATE_INNER_LIST_BEFORE kind) ;;
    ret SfInnerList
  else
  v <- parser_bare_item ;;
  to_state (SFPARSE_SET_STATE_BEFORE_PARAMS kind) ;;
  ret v.

Definition parser_dict_value : Sf sfparse_value :=
  eq <- at_char "=" ;;
  if negb eq then to_state (SFPARSE_SET_STATE_BEFORE_PARAMS SFPARSE_STATE_DICT) ;; ret (SfBoolean true) else
  advance ;;
  eof <- parser_eof ;;
  if eof then fail SFPARSE_ERR_PARSE else member_value SFPARSE_STATE_DICT.

(** The first [switch] of the dictionary's and the list's function: the way to the next
    member. *)
Definition next_member (fuel : nat) (kind : Z) : Sf unit :=
  p <- get ;;
  if op_state p =? SFPARSE_STATE_INITIAL then
    parser_discard_sp ;;
    eof <- parser_eof ;;
    if eof then fail SFPARSE_ERR_EOF else ret tt
  else if op_state p =? SFPARSE_SET_STATE_INNER_LIST_BEFORE kind then
    parser_skip_inner_list fuel ;; parser_skip_params fuel ;; parser_next_key_or_item
  else if op_state p =? SFPARSE_SET_STATE_BEFORE_PARAMS kind then parser_skip_params fuel ;; parser_next_key_or_item
  else if op_state p =? SFPARSE_SET_STATE_AFTER kind then parser_next_key_or_item
  else undefined.

Definition sfparse_parser_dict (fuel : nat) : Sf (sfparse_vec * sfparse_value) :=
  next_member fuel SFPARSE_STATE_DICT ;;
  key <- parser_key ;;
  v <- parser_dict_value ;;
  ret (key, v).

Definition sfparse_parser_list (fuel : nat) : Sf sfparse_value :=
  next_member fuel SFPARSE_STATE_LIST ;;
  member_value SFPARSE_STATE_LIST.

(** What follows the item: nothing but spaces. *)
Definition item_end : Sf unit :=
  parser_discard_sp ;;
  eof <- parser_eof ;;
  if negb eof then fail SFPARSE_ERR_PARSE else fail SFPARSE_ERR_EOF.

(** The [switch] of the item's function *)
Definition item_next (fuel : nat) : Sf unit :=
  p <- get ;;
  if op_state p =? SFPARSE_STATE_INITIAL then
    parser_discard_sp ;;
    eof <- parser_eof ;;
    if eof then fail SFPARSE_ERR_PARSE else ret tt
  else if op_state p =? SFPARSE_SET_STATE_INNER_LIST_BEFORE SFPARSE_STATE_ITEM then
    parser_skip_inner_list fuel ;; parser_skip_params fuel ;; item_end
  else if op_state p =? SFPARSE_SET_STATE_BEFORE_PARAMS SFPARSE_STATE_ITEM then parser_skip_params fuel ;; item_end
  else if op_state p =? SFPARSE_SET_STATE_AFTER SFPARSE_STATE_ITEM then item_end
  else undefined.

Definition sfparse_parser_item (fuel : nat) : Sf sfparse_value :=
  item_next fuel ;;
  member_value SFPARSE_STATE_ITEM.

Definition sfparse_parser_init (data : list char) : sfparse_parser := Parser data SFPARSE_STATE_INITIAL.

(** ** The strings of values, decoded

    [memchr] finds the next escape, [memcpy] copies up to it: here one character after
    the other.  [None] is a read outside the string, a failing assert or a byte that is
    left unset. *)

Fixpoint sfparse_unescape (src : sfparse_vec) : option (list char) :=
  match src with
  | [] => Some []
  | c :: t =>
      if Ascii.eqb c backslash then match t with d :: t' => l ← sfparse_unescape t'; Some (d :: l) | [] => None end
      else l ← sfparse_unescape t; Some (c :: l)
  end.

Fixpoint sfparse_pctdecode (src : sfparse_vec) : option (list char) :=
  match src with
  | [] => Some []
  | c :: t =>
      if Ascii.eqb c "%" then
        match t with a :: b :: t' => x ← pctdecode a b; l ← sfparse_pctdecode t'; Some (uint8 x :: l) | _ => None end
      else l ← sfparse_pctdecode t; Some (c :: l)
  end.

Definition index_tbl : list Z := [
  -1; -1; -1; -1; -1; -1; -1; -1; -1; -1; -1; -1; -1; -1; -1; -1; -1; -1; -1;
  -1; -1; -1; -1; -1; -1; -1; -1; -1; -1; -1; -1; -1; -1; -1; -1; -1; -1; -1;
  -1; -1; -1; -1; -1; 62; -1; -1; -1; 63; 52; 53; 54; 55; 56; 57; 58; 59; 60;
  61; -1; -1; -1; -1; -1; -1; -1; 0; 1; 2; 3; 4; 5; 6; 7; 8; 9; 10;
  11; 12; 13; 14; 15; 16; 17; 18; 19; 20; 21; 22; 23; 24; 25; -1; -1; -1; -1;
  -1; -1; 26; 27; 28; 29; 30; 31; 32; 33; 34; 35; 36; 37; 38; 39; 40; 41; 42;
  43; 44; 45; 46; 47; 48; 49; 50; 51; -1; -1; -1; -1; -1; -1; -1; -1; -1; -1;
  -1; -1; -1; -1; -1; -1; -1; -1; -1; -1; -1; -1; -1; -1; -1; -1; -1; -1; -1;
  -1; -1; -1; -1; -1; -1; -1; -1; -1; -1; -1; -1; -1; -1; -1; -1; -1; -1; -1;
  -1; -1; -1; -1; -1; -1; -1; -1; -1; -1; -1; -1; -1; -1; -1; -1; -1; -1; -1;
  -1; -1; -1; -1; -1; -1; -1; -1; -1; -1; -1; -1; -1; -1; -1; -1; -1; -1; -1;
  -1; -1; -1; -1; -1; -1; -1; -1; -1; -1; -1; -1; -1; -1; -1; -1; -1; -1; -1;
  -1; -1; -1; -1; -1; -1; -1; -1; -1; -1; -1; -1; -1; -1; -1; -1; -1; -1; -1;
  -1; -1; -1; -1; -1; -1; -1; -1; -1
].

(** The index of the next character, which must not be -1 *)
Definition base64_index (t : list char) (i : nat) : option Z := c ← t !! i; x ← of_table index_tbl c; if x =? -1 then None else Some x.

(** The loop over the groups of four characters *)
Fixpoint base64_groups (k : nat) (t : list char) : option (list char) :=
  match k with
  | O => Some []
  | S k =>
      a ← base64_index t 0; b ← base64_index t 1; c ← base64_index t 2; d ← base64_index t 3;
      let n := Z.shiftl a 18 + Z.shiftl b 12 + Z.shiftl c 6 + d in
      l ← base64_groups k (drop 4 t);
      Some (uint8 (Z.shiftr n 16) :: uint8 (Z.shiftr n 8) :: uint8 n :: l)
  end.

(** The bytes of the last group, of [left] characters that are not padding *)
Definition base64_rest (left : Z) (t : list char) : option (list char) :=
  if left =? 2 then
    a ← base64_index t 0; b ← base64_index t 1;
    Some [uint8 (Z.lor (u8 (Z.shiftl a 2)) (u8 (Z.shiftr b 4)))]
  else if left =? 3 then
    a ← base64_index t 0; b ← base64_index t 1; c ← base64_index t 2;
    let n := Z.shiftl a 10 + Z.shiftl b 4 + Z.shiftr c 2 in
    Some [uint8 (Z.shiftr n 8); uint8 n]
  else Some [].

Definition is_padding (c : option char) : bool := match c with Some c => Ascii.eqb c "=" | None => false end.

(** The characters of the last group, if it is not whole or has padding *)
Definition last_group (src : sfparse_vec) : Z :=
  let left := Z.land (Z.of_nat (length src)) 3 in
  if (left =? 0) && is_padding (src !! (length src - 1)%nat) then 4 else left.

(** Those that are not padding: the first [switch (left)] *)
Definition without_padding (left : Z) (src : sfparse_vec) : Z :=
  if left =? 3 then if is_padding (src !! (length src - 1)%nat) then 2 else 3
  else if left =? 4 then if is_padding (src !! (length src - 2)%nat) then 2 else 3
  else left.

Definition sfparse_base64decode (src : sfparse_vec) : option (list char) :=
  if (length src =? 0)%nat then Some [] else
  let left := last_group src in
  let stop := (length src - Z.to_nat left)%nat in
  l ← base64_groups (stop / 4) src;
  if left =? 1 then None else
  l' ← base64_rest (without_padding left src) (drop stop src);
  Some (l ++ l').
