(* ===== verification/SfparseGrammar.v ===== *)
(** * Structured field values: the grammar of RFC 9651

    The grammar as functions on texts ([bare_item], [params], [inner], [events]), which
    give all that a field value says in one list, up to its end or its first error; the
    functions of [sfparse.c] that read one value read what the grammar says
    ([bare_item_gives]), the automaton for UTF-8 among them.

    The grammar is that of the RFC but for one thing, in which it follows the code: at
    the top of a text that is read as an item, [sfparse_parser_item] accepts an inner
    list ([member_text], for all three kinds), where section 4.2.3 of the RFC has a bare
    item only; the caller sees the type [SFPARSE_TYPE_INNER_LIST] and has to refuse it. *)

From stdpp Require Import list.
From S2P Require Import Prelude CLib NgBuf HuffTable Huffman HuffSpec HpackInt NgHelper Sfparse.

(** ** The grammar *)

Fixpoint take_while (f : char -> bool) (t : list char) : list char :=
  match t with c :: t' => if f c then c :: take_while f t' else [] | [] => [] end.

(** The number that a row of digits says, after [n] *)
Definition decimal (n : Z) (v : list char) : Z := fold_left (fun n c => 10 * n + (bval c - 48)) v n.

Definition drop_sp : list char -> list char := drop_while (fun c => Ascii.eqb c " ").
Definition drop_ows : list char -> list char := drop_while is_ws.

(** Each is what it reads and the rest of the text. *)
Definition key (t : list char) : option (list char * list char) :=
  match t with
  | c :: t' => if key_start c then Some (c :: take_while key_char t', drop_while key_char t') else None
  | [] => None
  end.

Definition unsigned (sign : Z) (t : list char) : option (sfparse_value * list char) :=
  let ds := take_while is_num t in
  if (length ds =? 0)%nat then None else
  match drop_while is_num t with
  | c :: r =>
      if Ascii.eqb c "." then
        let fs := take_while is_num r in
        if (length ds <=? 12)%nat && (1 <=? length fs)%nat && (length fs <=? 3)%nat
        then Some (SfDecimal (sign * decimal 0 (ds ++ fs)) (10 ^ Z.of_nat (length fs)), drop_while is_num r)
        else None
      else if (length ds <=? 15)%nat then Some (SfInteger (sign * decimal 0 ds), c :: r) else None
  | [] => if (length ds <=? 15)%nat then Some (SfInteger (sign * decimal 0 ds), []) else None
  end.

Definition number (t : list char) : option (sfparse_value * list char) :=
  match t with
  | c :: r => if Ascii.eqb c "-" then unsigned (-1) r else unsigned 1 t
  | [] => None
  end.

(** What is between the quotes *)
Fixpoint quoted (t : list char) : option (list char * list char) :=
  match t with
  | [] => None
  | c :: t' =>
      if Ascii.eqb c dquote then Some ([], t')
      else if Ascii.eqb c backslash then
        match t' with
        | d :: t'' => if Ascii.eqb d dquote || Ascii.eqb d backslash then '(b, r) ← quoted t''; Some (c :: d :: b, r) else None
        | [] => None
        end
      else if (32 <=? bval c) && (bval c <=? 126) then '(b, r) ← quoted t'; Some (c :: b, r)
      else None
  end.

(** Base64 in colons, with its padding or without *)
Definition byteseq (t : list char) : option (list char * list char) :=
  let b := take_while base64_char t in
  let n := (length b mod 4)%nat in
  match drop_while base64_char t with
  | c :: r =>
      if Ascii.eqb c ":" then if (n =? 1)%nat then None else Some (b, r)
      else if Ascii.eqb c "=" && ((n =? 2)%nat || (n =? 3)%nat) then
        match r with
        | d :: r =>
            if Ascii.eqb d ":" then Some (b ++ chars "=", r)
            else if Ascii.eqb d "=" && (n =? 2)%nat then
              match r with e :: r => if Ascii.eqb e ":" then Some (b ++ chars "==", r) else None | [] => None end
            else None
        | [] => None
        end
      else None
  | [] => None
  end.

(** UTF-8 (RFC 3629, section 4) *)
Definition between (a b x : Z) : bool := (a <=? x) && (x <=? b).
Definition utf8_tail : Z -> bool := between 128 191.
Definition utf8_second (a : Z) : Z -> bool :=
  if a =? 224 then between 160 191 else if a =? 237 then between 128 159 else
  if a =? 240 then between 144 191 else if a =? 244 then between 128 143 else utf8_tail.
Fixpoint utf8 (l : list Z) : bool :=
  match l with
  | [] => true
  | a :: l =>
      if between 0 127 a then utf8 l else
      match l with
      | [] => false
      | b :: l =>
          if between 194 223 a then utf8_tail b && utf8 l else
          match l with
          | [] => false
          | c :: l =>
              if between 224 239 a then utf8_second a b && (utf8_tail c && utf8 l) else
              match l with
              | [] => false
              | d :: l => between 240 244 a && (utf8_second a b && (utf8_tail c && (utf8_tail d && utf8 l)))
              end
          end
      end
  end.

(** Display strings: the text between the quotes, and the bytes it stands for *)
Fixpoint display (t : list char) : option (list char * list Z * list char) :=
  match t with
  | [] => None
  | c :: t' =>
      if Ascii.eqb c dquote then Some ([], [], t')
      else if Ascii.eqb c "%" then
        match t' with
        | a :: b :: t'' => x ← pctdecode a b; '(s, l, r) ← display t''; Some (c :: a :: b :: s, x :: l, r)
        | _ => None
        end
      else if (32 <=? bval c) && (bval c <=? 126) then '(s, l, r) ← display t'; Some (c :: s, bval c :: l, r)
      else None
  end.

Definition bare_item (t : list char) : option (sfparse_value * list char) :=
  match t with
  | [] => None
  | c :: t' =>
      if Ascii.eqb c dquote then '(b, r) ← quoted t'; Some (SfString (existsb (Ascii.eqb backslash) b) b, r)
      else if Ascii.eqb c "-" || is_num c then number t
      else if Ascii.eqb c "@" then '(v, r) ← number t'; match v with SfInteger n => Some (SfDate n, r) | _ => None end
      else if Ascii.eqb c ":" then '(b, r) ← byteseq t'; Some (SfByteseq b, r)
      else if Ascii.eqb c "?" then
        match t' with d :: r => if Ascii.eqb d "0" then Some (SfBoolean false, r) else if Ascii.eqb d "1" then Some (SfBoolean true, r) else None | [] => None end
      else if Ascii.eqb c "*" || is_upper c || is_lower c then Some (SfToken (c :: take_while token_char t'), drop_while token_char t')
      else if Ascii.eqb c "%" then
        match t' with
        | d :: t'' => if Ascii.eqb d dquote then '(s, l, r) ← display t''; if utf8 l then Some (SfDispstring s, r) else None else None
        | [] => None
        end
      else None
  end.

(** *** What a field value says, one thing after the other *)

Inductive event :=
| Member (key : list char) (v : sfparse_value)
| Param (key : list char) (v : sfparse_value)
| Item (v : sfparse_value)
| EndParams | EndInner | EndAll | Bad.

(** The events of a part of the text, and what follows it if there was no error *)
Abbreviation part := (list event * option (list char))%type.

Definition bad : part := ([Bad], None).
Definition says (e : event) (p : part) : part := (e :: fst p, snd p).
Definition andthen (p : part) (k : list char -> part) : part :=
  match snd p with Some r => (fst p ++ fst (k r), snd (k r)) | None => p end.

Definition starts (c : char) (t : list char) : bool := match t with x :: _ => Ascii.eqb x c | [] => false end.

(** [= value], or true where it is left out *)
Definition opt_value (t : list char) : option (sfparse_value * list char) :=
  if starts "=" t then bare_item (tail t) else Some (SfBoolean true, t).

Definition param (t : list char) : option (list char * sfparse_value * list char) :=
  '(k, t) ← key (drop_sp t); '(v, t) ← opt_value t; Some (k, v, t).

Fixpoint params_upto (n : nat) (t : list char) : part :=
  match n with
  | O => bad
  | S n =>
      if starts ";" t then
        match param (tail t) with Some (k, v, r) => says (Param k v) (params_upto n r) | None => bad end
      else ([EndParams], Some t)
  end.
Definition params (t : list char) : part := params_upto (S (length t)) t.

(** An inner list, at an item or at its end *)
Fixpoint inner_upto (n : nat) (t : list char) : part :=
  match n with
  | O => bad
  | S n =>
      if starts ")" t then ([EndInner], Some (tail t)) else
      match bare_item t with
      | None => bad
      | Some (v, r) =>
          says (Item v) (andthen (params r) (fun r =>
            if starts " " r then inner_upto n (drop_sp r) else if starts ")" r then inner_upto n r else bad))
      end
  end.
Definition inner (t : list char) : part := inner_upto (S (length t)) t.

(** What follows the value of a member: the items of an inner list, the parameters *)
Definition attached (v : sfparse_value) (r : list char) : part :=
  match v with SfInnerList => andthen (inner (drop_sp r)) params | _ => params r end.

Inductive kind := Dict | List_ | Item_.

(** A member: key and value in a dictionary, a value in the others *)
Definition member_text (t : list char) : option (sfparse_value * list char) :=
  if starts "(" t then Some (SfInnerList, tail t) else bare_item t.
Definition member (k : kind) (t : list char) : option (list char * sfparse_value * list char) :=
  match k with
  | Dict => '(key, t) ← key t; '(v, t) ← (if starts "=" t then member_text (tail t) else Some (SfBoolean true, t)); Some (key, v, t)
  | _ => '(v, t) ← member_text t; Some ([], v, t)
  end.

Fixpoint members_upto (k : kind) (n : nat) (t : list char) : part :=
  match n with
  | O => bad
  | S n =>
      match member k t with
      | None => bad
      | Some (key, v, r) =>
          says (Member key v) (andthen (attached v r) (fun r =>
            match k with
            | Item_ => match drop_sp r with [] => ([EndAll], None) | _ => bad end
            | _ =>
                let r := drop_ows r in
                match r with
                | [] => ([EndAll], None)
                | _ => if starts "," r then match drop_ows (tail r) with [] => bad | t => members_upto k n t end else bad
                end
            end))
      end
  end.

(** All that a field value says *)
Definition events (k : kind) (t : list char) : list event :=
  match drop_sp t with
  | [] => match k with Item_ => [Bad] | _ => [EndAll] end
  | t => fst (members_upto k (S (length t)) t)
  end.

(** ** The loops of the parser *)

Lemma take_drop_while f t : take_while f t ++ drop_while f t = t.
Proof. induction t as [|c t IH]; [done|]. cbn. destruct (f c); [|done]. cbn. by rewrite IH. Qed.

Lemma drop_while_le f t : (length (drop_while f t) <= length t)%nat.
Proof. induction t as [|c t IH]; [done|]. cbn. destruct (f c); cbn; lia. Qed.

Lemma since_take (b r : list char) : take (length (b ++ r) - length r) (b ++ r) = b.
Proof. rewrite length_app, Nat.add_sub. apply take_app_length'. done. Qed.

Lemma length_take_while f t : (length (take_while f t) + length (drop_while f t) = length t)%nat.
Proof. by rewrite <- length_app, take_drop_while. Qed.

(** What a function of the parser does: a value and what is left, or a parse error. *)
Definition gives {A} (m : Sf A) (p : sfparse_parser) (r : option (A * list char)) : Prop :=
  match r with
  | Some (a, t) => m p = Some (inr a, set_pos t p)
  | None => exists p', m p = Some (inl SFPARSE_ERR_PARSE, p')
  end.

Lemma gives_bind {A B} (m : Sf A) (f : A -> Sf B) p r r' : gives m p r ->
  match r with Some (a, t) => gives (f a) (set_pos t p) r' | None => r' = None end -> gives (bind m f) p r'.
Proof.
  destruct r as [[a t]|]; cbn.
  - intros E H. unfold gives in *. cbn. rewrite E. destruct r' as [[b t']|]; [|done]. by rewrite H.
  - intros [p' E] ->. cbn. rewrite E. by exists p'.
Qed.

Ltac sf := cbv beta iota zeta delta [bind ret Sf_monad fail undefined get put peek advance since scan scan_partial parser_eof at_char skip_while pos op_state set_pos set_op_state negb].

Lemma skip_since f (b t : list char) st : (skip_while f ;; since (b ++ t)) (Parser t st) = Some (inr (b ++ take_while f t), Parser (drop_while f t) st).
Proof.
  sf. assert (E : b ++ t = (b ++ take_while f t) ++ drop_while f t) by (by rewrite <- app_assoc, take_drop_while).
  rewrite E, since_take. done.
Qed.

Lemma key_gives st t : t <> [] -> gives parser_key (Parser t st) (key t).
Proof.
  intros Ht. destruct t as [|c t]; [done|]. unfold parser_key, key, gives. sf. destruct (key_start c); sf; [|by eexists].
  apply (skip_since key_char [c] t st).
Qed.

Lemma digits_spec t : forall len value, 0 <= len <= 15 ->
  let ds := take_while is_num t in
  if len + Z.of_nat (length ds) <=? 15
  then number_digits len value t = (inr (len + Z.of_nat (length ds), decimal value ds), drop_while is_num t)
  else exists t', number_digits len value t = (inl SFPARSE_ERR_PARSE, t').
Proof.
  induction t as [|c t IH]; intros len value Hlen; cbn [take_while number_digits drop_while].
  { cbn. rewrite Z.add_0_r. by rewrite (proj2 (Z.leb_le _ _)) by lia. }
  destruct (is_num c); [|cbn; rewrite Z.add_0_r; by rewrite (proj2 (Z.leb_le _ _)) by lia].
  cbn [length]. destruct (Z.ltb_spec 15 (len + 1)).
  - rewrite (proj2 (Z.leb_gt _ _)) by lia. by eexists.
  - replace (len + Z.of_nat (S (length (take_while is_num t)))) with (len + 1 + Z.of_nat (length (take_while is_num t))) by lia.
    specialize (IH (len + 1) (value * 10 + (bval c - 48)) ltac:(lia)). replace (value * 10 + (bval c - 48)) with (10 * value + (bval c - 48)) in * by lia. exact IH.
Qed.

(** The digits, once the sign is read *)
Definition number_rest (sign : Z) : Sf sfparse_value :=
  let! (len, value) := scan (number_digits 0 0) in
  if len =? 0 then fail SFPARSE_ERR_PARSE else
  point <- at_char "." ;;
  if negb point then ret (SfInteger (value * sign)) else
  if 12 <? len then fail SFPARSE_ERR_PARSE else
  advance ;;
  let! (len', value) := scan (number_digits len value) in
  if (len =? len') || (3 <? len' - len) then fail SFPARSE_ERR_PARSE else
  ret (SfDecimal (value * sign) (if len' - len =? 1 then 10 else if len' - len =? 2 then 100 else 1000)).

Lemma number_rest_gives st sign t : gives (number_rest sign) (Parser t st) (unsigned sign t).
Proof.
  unfold number_rest, unsigned. set (ds := take_while is_num t). pose proof (digits_spec t 0 0 ltac:(lia)) as H. cbv zeta in H. fold ds in H. rewrite Z.add_0_l in H.
  destruct (Z.leb_spec (Z.of_nat (length ds)) 15) as [Hle|Hgt].
  2: { destruct H as [t' H]. assert (E : unsigned sign t = None).
       { unfold unsigned. fold ds. destruct (length ds =? 0)%nat; [done|]. rewrite (proj2 (Nat.leb_gt (length ds) 12)), (proj2 (Nat.leb_gt (length ds) 15)) by lia.
         destruct (drop_while is_num t) as [|c r]; [done|]. by destruct (Ascii.eqb c "."). }
       unfold unsigned in E. fold ds in E. rewrite E. unfold gives. sf. rewrite H. by eexists. }
  unfold gives. sf. rewrite H. destruct (Nat.eqb_spec (length ds) 0) as [E0|E0].
  { rewrite E0. cbn. by eexists. }
  rewrite (proj2 (Z.eqb_neq _ _)) by lia. sf. rewrite (proj2 (Nat.leb_le (length ds) 15)) by lia.
  destruct (drop_while is_num t) as [|c r]; sf; [by rewrite Z.mul_comm|]. destruct (Ascii.eqb c "."); sf; [|by rewrite Z.mul_comm].
  destruct (Nat.leb_spec (length ds) 12) as [H12|H12]; [|rewrite (proj2 (Z.ltb_lt _ _)) by lia; by eexists].
  rewrite (proj2 (Z.ltb_ge _ _)) by lia. sf. cbn [andb]. set (fs := take_while is_num r). pose proof (digits_spec r (Z.of_nat (length ds)) (decimal 0 ds) ltac:(lia)) as H'. cbv zeta in H'. fold fs in H'.
  assert (Ed : decimal (decimal 0 ds) fs = decimal 0 (ds ++ fs)) by (unfold decimal; by rewrite fold_left_app). rewrite Ed in H'.
  destruct (Z.leb_spec (Z.of_nat (length ds) + Z.of_nat (length fs)) 15) as [Hf|Hf].
  2: { destruct H' as [t' ->]. rewrite (proj2 (Nat.leb_gt (length fs) 3)), andb_false_r by lia. by eexists. }
  rewrite H'. replace (Z.of_nat (length ds) + Z.of_nat (length fs) - Z.of_nat (length ds)) with (Z.of_nat (length fs)) by lia.
  destruct (Nat.leb_spec 1 (length fs)) as [H1|H1]; cbn [andb].
  2: { rewrite (proj2 (Z.eqb_eq _ _)) by lia. by eexists. }
  rewrite (proj2 (Z.eqb_neq _ _)) by lia. cbn [orb]. destruct (Nat.leb_spec (length fs) 3) as [H3|H3].
  2: { rewrite (proj2 (Z.ltb_lt _ _)) by lia. by eexists. }
  rewrite (proj2 (Z.ltb_ge _ _)) by lia. sf. rewrite (Z.mul_comm sign).
  assert (C : length fs = 1%nat \/ length fs = 2%nat \/ length fs = 3%nat) by lia. by destruct C as [->|[->| ->]].
Qed.

Lemma number_gives st t : t <> [] -> gives parser_number (Parser t st) (number t).
Proof.
  intros Ht. destruct t as [|c t]; [done|]. unfold number. pose proof (number_rest_gives st (-1) t) as H1. pose proof (number_rest_gives st 1 (c :: t)) as H2.
  change (parser_number (Parser (c :: t) st)) with (parser_number (Parser (c :: t) st)).
  unfold gives, parser_number in *. sf. unfold number_rest in H1, H2. destruct (Ascii.eqb c "-"); sf; [|exact H2].
  destruct t as [|d t]; [by eexists|exact H1].
Qed.

Lemma quoted_spec t : forall escaped,
  match quoted t with
  | Some (b, r) => string_loop escaped t = (inr (escaped || existsb (Ascii.eqb backslash) b), dquote :: r) /\ t = b ++ dquote :: r
  | None => exists t', string_loop escaped t = (inl SFPARSE_ERR_PARSE, t')
  end.
Proof.
  assert (Hind : forall n t, (length t <= n)%nat -> forall escaped, match quoted t with
    | Some (b, r) => string_loop escaped t = (inr (escaped || existsb (Ascii.eqb backslash) b), dquote :: r) /\ t = b ++ dquote :: r
    | None => exists t', string_loop escaped t = (inl SFPARSE_ERR_PARSE, t') end); [|by apply (Hind (length t))].
  clear t. induction n as [|n IH]; intros [|c t] Hn escaped; cbn [quoted string_loop]; try (by eexists); cbn [length] in Hn; [lia|].
  unfold string_char. destruct (Ascii.eqb_spec c dquote) as [->|Hq]; cbn [negb andb]; [by rewrite orb_false_r|]. rewrite andb_true_r.
  destruct (Ascii.eqb_spec c backslash) as [->|Hb]; cbn [negb andb].
  - destruct t as [|d t]; [by eexists|]. destruct (Ascii.eqb d dquote || Ascii.eqb d backslash); [|by eexists]. specialize (IH t ltac:(cbn [length] in Hn; lia) true).
    destruct (quoted t) as [[b r]|]; [|done]. destruct IH as [E Et]. cbn [mbind option_bind]. rewrite E, Et. split; [|done]. cbn [existsb orb]. by rewrite !orb_true_r.
  - rewrite andb_true_r. destruct ((32 <=? bval c) && (bval c <=? 126)); [|by eexists]. specialize (IH t ltac:(lia) escaped).
    destruct (quoted t) as [[b r]|]; [|done]. destruct IH as [E Et]. cbn [mbind option_bind]. rewrite E, Et. split; [|done]. cbn [existsb].
    rewrite (proj2 (Ascii.eqb_neq backslash c)) by done. done.
Qed.

Lemma string_gives st t : gives parser_string (Parser (dquote :: t) st) ('(b, r) ← quoted t; Some (SfString (existsb (Ascii.eqb backslash) b) b, r)).
Proof.
  unfold parser_string, gives. sf. rewrite Ascii.eqb_refl. sf. pose proof (quoted_spec t false) as H. destruct (quoted t) as [[b r]|]; cbn [mbind option_bind].
  - destruct H as [-> Et]. rewrite Et, since_take. done.
  - destruct H as [t' ->]. by eexists.
Qed.

Lemma token_gives st c t : gives parser_token (Parser (c :: t) st) (Some (SfToken (c :: take_while token_char t), drop_while token_char t)).
Proof.
  assert (E : take (length (c :: t) - length (drop_while token_char t)) (c :: t) = c :: take_while token_char t).
  { rewrite <- (take_drop_while token_char t) at 1 3. rewrite app_comm_cons. apply since_take. }
  unfold gives, parser_token. sf. by rewrite E.
Qed.

Lemma byteseq_spec b t : forall n, 0 <= n -> Forall (fun c => base64_char c = true) b -> byteseq_loop n (b ++ t) = byteseq_loop (n + Z.of_nat (length b)) t.
Proof.
  intros n Hn Hb. revert n Hn. induction Hb as [|c b Hc Hb IH]; intros n Hn; [cbn; by rewrite Z.add_0_r|].
  cbn [app byteseq_loop]. rewrite Hc, IH by lia. f_equal. cbn [length]. lia.
Qed.

Lemma land3 n : Z.land (Z.of_nat n) 3 = Z.of_nat (n mod 4).
Proof. change 3 with (Z.ones 2). rewrite Z.land_ones by lia. rewrite Nat2Z.inj_mod. done. Qed.

Lemma span f t : exists b r, t = b ++ r /\ take_while f t = b /\ drop_while f t = r /\ Forall (fun c => f c = true) b /\ match r with c :: _ => f c = false | [] => True end.
Proof.
  exists (take_while f t), (drop_while f t). split; [by rewrite take_drop_while|]. split; [done|]. split; [done|]. induction t as [|c t IH]; [done|].
  cbn [take_while drop_while]. destruct (f c) eqn:E; [|done]. destruct IH. split; [by constructor|done].
Qed.

Lemma byteseq_gives st t : gives parser_byteseq (Parser (":"%char :: t) st) ('(b, r) ← byteseq t; Some (SfByteseq b, r)).
Proof.
  destruct (span base64_char t) as (b & r & Et & Eb & Er & Hb & Hr). unfold parser_byteseq, gives, byteseq. sf. cbn [Ascii.eqb Bool.eqb].
  rewrite Eb, Er, Et, byteseq_spec by (done || lia). rewrite Z.add_0_l. clear Et Eb Er Hb.
  destruct r as [|c r]; cbn [byteseq_loop mbind option_bind]; [by eexists|].
  rewrite Hr, land3. destruct (Ascii.eqb_spec c "=") as [->|Hc]; cbn [andb].
  2: { destruct (Ascii.eqb_spec c ":") as [->|]; [|cbn; by eexists]. destruct (Nat.eqb_spec (length b mod 4) 1) as [->|H1]; [cbn; by eexists|].
       rewrite (proj2 (Z.eqb_neq _ _)) by lia. cbn [mbind option_bind]. by rewrite since_take. }
  cbn [Ascii.eqb Bool.eqb].
  assert (Hsince : forall x r, take (length (b ++ "="%char :: x ++ r) - length r) (b ++ "="%char :: x ++ r) = b ++ "="%char :: x).
  { intros x q. change ("="%char :: x ++ q) with (("="%char :: x) ++ q). rewrite app_assoc. apply since_take. }
  destruct (Nat.eqb_spec (length b mod 4) 2) as [->|H2]; cbn [orb].
  - destruct r as [|d r]; [by eexists|]. change (Z.of_nat 2 =? 2) with true. destruct (Ascii.eqb_spec d "=") as [->|Hd]; cbn [andb Ascii.eqb Bool.eqb].
    + destruct r as [|e r]; [by eexists|]. destruct (Ascii.eqb_spec e ":") as [->|]; [|by eexists]. cbn [mbind option_bind].
      pose proof (Hsince ["="%char] (":"%char :: r)) as H. cbn [app] in H. sf. by rewrite H.
    + destruct (Ascii.eqb_spec d ":") as [->|]; [|by eexists]. cbn [mbind option_bind]. pose proof (Hsince [] (":"%char :: r)) as H. cbn [app] in H. sf. by rewrite H.
  - rewrite (proj2 (Z.eqb_neq _ 2)) by lia. destruct (Nat.eqb_spec (length b mod 4) 3) as [->|H3]; [|rewrite (proj2 (Z.eqb_neq _ 3)) by lia; by eexists].
    change (Z.of_nat 3 =? 3) with true. change (3 =? 2)%nat with false. destruct r as [|d r]; [by eexists|]. rewrite andb_false_r.
    destruct (Ascii.eqb_spec d ":") as [->|]; [|by eexists]. cbn [mbind option_bind]. pose proof (Hsince [] (":"%char :: r)) as H. cbn [app] in H. sf. by rewrite H.
Qed.

Lemma boolean_gives st t : gives parser_boolean (Parser ("?"%char :: t) st)
  match t with d :: r => if Ascii.eqb d "0" then Some (SfBoolean false, r) else if Ascii.eqb d "1" then Some (SfBoolean true, r) else None | [] => None end.
Proof.
  unfold parser_boolean, gives. destruct t as [|d r]; sf; cbn [Ascii.eqb Bool.eqb]; [by eexists|]. destruct (Ascii.eqb d "0"); sf; [done|]. destruct (Ascii.eqb d "1"); sf; [done|]. by eexists.
Qed.

Lemma date_gives st t : gives parser_date (Parser ("@"%char :: t) st) ('(v, r) ← number t; match v with SfInteger n => Some (SfDate n, r) | _ => None end).
Proof.
  assert (E : parser_date (Parser ("@"%char :: t) st) =
    match t with [] => Some (inl SFPARSE_ERR_PARSE, Parser t st) | _ => (val <- parser_number ;; match val with SfInteger n => ret (SfDate n) | _ => fail SFPARSE_ERR_PARSE end) (Parser t st) end) by (by destruct t).
  destruct t as [|d t]; [by exists (Parser [] st)|]. pose proof (number_gives st (d :: t) ltac:(done)) as H. unfold gives in *. rewrite E. sf.
  destruct (number (d :: t)) as [[v r]|]; cbn [mbind option_bind].
  - rewrite H. destruct v; sf; try done; by eexists.
  - destruct H as [p' ->]. by eexists.
Qed.

(** *** UTF-8: the automaton accepts what the definition says *)

(** What a state still waits for: the tests that the next bytes must pass. *)
Definition pending (s : Z) : list (Z -> bool) :=
  if s =? 24 then [utf8_tail] else if s =? 36 then [utf8_tail; utf8_tail] else
  if s =? 48 then [utf8_second 224; utf8_tail] else if s =? 60 then [utf8_second 237; utf8_tail] else
  if s =? 72 then [utf8_second 240; utf8_tail; utf8_tail] else if s =? 84 then [utf8_tail; utf8_tail; utf8_tail] else
  if s =? 96 then [utf8_second 244; utf8_tail; utf8_tail] else [].
Definition states : list Z := [0; 24; 36; 48; 60; 72; 84; 96].

Fixpoint utf8_after (tests : list (Z -> bool)) (l : list Z) : bool :=
  match tests with
  | [] => utf8 l
  | f :: tests => match l with x :: l => f x && utf8_after tests l | [] => false end
  end.

Lemma every_byte (P : Z -> bool) : forallb (fun n => P (Z.of_nat n)) (List.seq 0 256) = true -> forall x, 0 <= x < 256 -> P x = true.
Proof.
  intros H x Hx. rewrite forallb_forall in H. specialize (H (Z.to_nat x)). rewrite Z2Nat.id in H by lia. apply H, in_seq. lia.
Qed.

Ltac by_bytes := match goal with |- forall y, _ -> @?E y = true => apply (every_byte E); by vm_compute end.

Definition first_state (x : Z) : Z :=
  if between 0 127 x then 0 else if between 194 223 x then 24 else if x =? 224 then 48 else if x =? 237 then 60 else
  if between 225 239 x then 36 else if x =? 240 then 72 else if x =? 244 then 96 else if between 241 243 x then 84 else UTF8_REJECT.

Lemma decode_first x : 0 <= x < 256 -> utf8_decode 0 x = Some (first_state x).
Proof. intros Hx. apply (bool_decide_eq_true_1 (utf8_decode 0 x = Some (first_state x))). revert x Hx. by_bytes. Qed.

Lemma decode_next s f tests x : In s states -> pending s = f :: tests -> 0 <= x < 256 ->
  exists s', utf8_decode s x = Some s' /\ if f x then In s' states /\ pending s' = tests else s' = UTF8_REJECT.
Proof.
  intros Hs Hp Hx.
  assert (H : forall (g : Z -> bool) n, (forall y, 0 <= y < 256 -> bool_decide (utf8_decode s y = Some (if g y then n else UTF8_REJECT)) = true) ->
    In n states -> pending s = g :: pending n -> exists s', utf8_decode s x = Some s' /\ if f x then In s' states /\ pending s' = tests else s' = UTF8_REJECT).
  { intros g n Hall Hn Hg. rewrite Hp in Hg. injection Hg as -> ->. specialize (Hall x Hx). apply bool_decide_eq_true_1 in Hall. eexists. split; [exact Hall|]. by destruct (g x). }
  destruct Hs as [<-|[<-|[<-|[<-|[<-|[<-|[<-|[<-|[]]]]]]]]]; [done|..].
  - apply (H utf8_tail 0); [by_bytes|cbn; tauto|done].
  - apply (H utf8_tail 24); [by_bytes|cbn; tauto|done].
  - apply (H (utf8_second 224) 24); [by_bytes|cbn; tauto|done].
  - apply (H (utf8_second 237) 24); [by_bytes|cbn; tauto|done].
  - apply (H (utf8_second 240) 36); [by_bytes|cbn; tauto|done].
  - apply (H utf8_tail 36); [by_bytes|cbn; tauto|done].
  - apply (H (utf8_second 244) 36); [by_bytes|cbn; tauto|done].
Qed.

Lemma utf8_first x l : utf8 (x :: l) = if first_state x =? UTF8_REJECT then false else utf8_after (pending (first_state x)) l.
Proof.
  unfold first_state. cbn [utf8]. destruct (between 0 127 x) eqn:E1; [done|].
  destruct (between 194 223 x) eqn:E2; [by destruct l|].
  assert (Hcase : x = 224 \/ x = 237 \/ between 225 239 x = true /\ x <> 237 \/ x = 240 \/ x = 244 \/ between 241 243 x = true \/ (between 224 239 x = false /\ between 240 244 x = false)).
  { unfold between. lia. }
  destruct Hcase as [->|[->|[[H Hn]|[->|[->|[H|[H1 H2]]]]]]]; try (destruct l as [|b [|c [|d l]]]; cbn -[utf8_second]; rewrite ?andb_false_r; done).
  - assert (H' : between 224 239 x = true) by (unfold between in *; lia). rewrite (proj2 (Z.eqb_neq x 224)), (proj2 (Z.eqb_neq x 237)), H by (unfold between in *; lia).
    assert (Hs : utf8_second x = utf8_tail) by (unfold utf8_second; rewrite !(proj2 (Z.eqb_neq x _)) by (unfold between in *; lia); done).
    destruct l as [|b [|c l]]; cbn [utf8_after pending Z.eqb Pos.eqb UTF8_REJECT]; rewrite ?H', ?Hs; try done. cbn. by rewrite andb_false_r.
  - assert (H' : between 224 239 x = false /\ between 225 239 x = false /\ between 240 244 x = true) by (unfold between in *; lia). destruct H' as (H1 & H2 & H3).
    rewrite H2, H. rewrite !(proj2 (Z.eqb_neq x _)) by (unfold between in *; lia).
    assert (Hs : utf8_second x = utf8_tail) by (unfold utf8_second; rewrite !(proj2 (Z.eqb_neq x _)) by (unfold between in *; lia); done).
    destruct l as [|b [|c [|d l]]]; rewrite ?H1, ?H3, ?Hs; cbn; rewrite ?andb_false_r; done.
  - rewrite !(proj2 (Z.eqb_neq x _)) by (unfold between in *; lia). replace (between 225 239 x) with false by (unfold between in *; lia). replace (between 241 243 x) with false by (unfold between in *; lia).
    destruct l as [|b [|c [|d l]]]; rewrite ?H1, ?H2; done.
Qed.

Lemma hex_range c h : hex_digit c = Some h -> 0 <= h < 16.
Proof.
  unfold hex_digit, is_num. destruct ((48 <=? bval c) && (bval c <=? 57)) eqn:E; [intros H; injection H; lia|].
  destruct ((97 <=? bval c) && (bval c <=? 102)) eqn:E'; [intros H; injection H; lia|done].
Qed.

Lemma pctdecode_range a b x : pctdecode a b = Some x -> 0 <= x < 256.
Proof.
  unfold pctdecode. destruct (hex_digit a) as [h|] eqn:Ea; [|done]. cbn [mbind option_bind]. destruct (hex_digit b) as [l|] eqn:Eb; [|done]. cbn [mbind option_bind]. intros [= <-].
  apply hex_range in Ea. apply hex_range in Eb. assert (E : u8 (Z.shiftl h 4) = Z.shiftl h 4) by (unfold u8; rewrite Z.shiftl_mul_pow2 by lia; apply Z.mod_small; lia).
  rewrite E, Z.lor_comm, lor_add by lia. lia.
Qed.

(** A state other than the first waits for bytes beyond ASCII. *)
Lemma pending_high s f tests x : In s states -> pending s = f :: tests -> 0 <= x < 128 -> f x = false.
Proof.
  intros Hs Hp Hx. repeat destruct Hs as [<-|Hs]; try done; injection Hp as <- <-; unfold utf8_second, utf8_tail, between; cbn [Z.eqb Pos.eqb]; unfold utf8_tail, between; lia.
Qed.

Lemma first_state_states x : first_state x = UTF8_REJECT \/ In (first_state x) states.
Proof. unfold first_state. repeat (case_match; [right; cbn; tauto|]). by left. Qed.

Lemma display_spec n : forall t s, (length t <= n)%nat -> In s states ->
  match display t with
  | Some (raw, bytes, r) =>
      if utf8_after (pending s) bytes then dispstring_loop s t = Some (inr tt, dquote :: r) /\ t = raw ++ dquote :: r
      else exists t', dispstring_loop s t = Some (inl SFPARSE_ERR_PARSE, t')
  | None => exists t', dispstring_loop s t = Some (inl SFPARSE_ERR_PARSE, t')
  end.
Proof.
  induction n as [|n IH]; intros [|c t] s Hn Hs; cbn [display dispstring_loop]; try (by eexists); cbn [length] in Hn; [lia|].
  assert (Hacc : (s =? UTF8_ACCEPT) = match pending s with [] => true | _ => false end) by (repeat destruct Hs as [<-|Hs]; done).
  destruct (Ascii.eqb_spec c dquote) as [->|Hq].
  { change ((32 <=? bval dquote) && (bval dquote <=? 126)) with true. change (Ascii.eqb dquote "%") with false. cbn [negb]. rewrite Hacc.
    destruct (pending s); cbn [utf8_after utf8 negb]; [done|by eexists]. }
  destruct (Ascii.eqb_spec c "%") as [->|Hp].
  { cbn [negb]. change ((32 <=? bval "%") && (bval "%" <=? 126)) with true. cbn [negb]. destruct t as [|a [|b t]]; [by eexists..|].
    destruct (pctdecode a b) as [x|] eqn:Ex; cbn [mbind option_bind]; [|by eexists]. apply pctdecode_range in Ex. specialize (IH t).
    assert (Hstep : exists s', utf8_decode s x = Some s' /\ (s' = UTF8_REJECT \/ In s' states) /\
      forall l, utf8_after (pending s) (x :: l) = if s' =? UTF8_REJECT then false else utf8_after (pending s') l).
    { destruct (pending s) as [|f tests] eqn:Ep.
      - assert (s = 0) as -> by (apply Z.eqb_eq in Hacc; done). exists (first_state x). split; [by apply decode_first|]. split; [|apply utf8_first].
        apply first_state_states.
      - destruct (decode_next s f tests x Hs Ep Ex) as (s' & E & H). exists s'. split; [exact E|]. cbn [utf8_after]. destruct (f x).
        + destruct H as [Hs' <-]. split; [by right|]. intros l. cbn [andb]. repeat destruct Hs' as [<-|Hs']; done.
        + subst s'. split; [by left|]. done. }
    destruct Hstep as (s' & E & Hs' & Hafter). rewrite E. cbn [mbind option_bind]. destruct (Z.eqb_spec s' UTF8_REJECT) as [->|Hr].
    { destruct (display t) as [[[raw bytes] r]|]; cbn [mbind option_bind]; [rewrite Hafter|]; by eexists. }
    destruct Hs' as [->|Hs']; [done|]. specialize (IH s' ltac:(cbn [length] in Hn; lia) Hs'). destruct (display t) as [[[raw bytes] r]|]; [|done].
    cbn [mbind option_bind]. rewrite Hafter. destruct (utf8_after (pending s') bytes); [|done]. destruct IH as [-> ->]. done. }
  destruct ((32 <=? bval c) && (bval c <=? 126)) eqn:Hc; cbn [negb]; [|by eexists]. rewrite Hacc.
  specialize (IH t s ltac:(lia) Hs). destruct (pending s) as [|f tests] eqn:Ep; cbn [negb].
  - destruct (display t) as [[[raw bytes] r]|]; [|done]. cbn [mbind option_bind utf8_after utf8] in *. unfold between at 1. rewrite (proj2 (Z.leb_le 0 (bval c))), (proj2 (Z.leb_le (bval c) 127)) by lia.
    cbn [andb]. destruct (utf8 bytes); [|done]. destruct IH as [-> ->]. done.
  - assert (Hf : f (bval c) = false) by (apply (pending_high s f tests); [done..|lia]).
    destruct (display t) as [[[raw bytes] r]|]; cbn [mbind option_bind utf8_after]; rewrite ?Hf; by eexists.
Qed.

Lemma dispstring_gives st t : gives parser_dispstring (Parser ("%"%char :: t) st)
  match t with d :: t => if Ascii.eqb d dquote then '(s, l, r) ← display t; if utf8 l then Some (SfDispstring s, r) else None else None | [] => None end.
Proof.
  unfold parser_dispstring, gives. sf. cbn [Ascii.eqb Bool.eqb]. destruct t as [|d t]; [by eexists|]. destruct (Ascii.eqb d dquote); [|by eexists].
  pose proof (display_spec (length t) t 0 ltac:(lia) ltac:(by left)) as H. change UTF8_ACCEPT with 0. destruct (display t) as [[[raw bytes] r]|]; cbn [mbind option_bind].
  - change (utf8_after (pending 0) bytes) with (utf8 bytes) in H. destruct (utf8 bytes).
    + destruct H as [-> Et]. rewrite Et, since_take. done.
    + destruct H as [t' ->]. by eexists.
  - destruct H as [t' ->]. by eexists.
Qed.

Lemma bare_item_gives st t : t <> [] -> gives parser_bare_item (Parser t st) (bare_item t).
Proof.
  intros Ht. destruct t as [|c t]; [done|]. unfold gives, parser_bare_item, bare_item. cbn [bind Sf_monad peek pos].
  destruct (Ascii.eqb_spec c dquote) as [->|]; [apply (string_gives st t)|].
  destruct (Ascii.eqb c "-" || is_num c); [by apply (number_gives st (c :: t))|].
  destruct (Ascii.eqb_spec c "@") as [->|]; [apply (date_gives st t)|].
  destruct (Ascii.eqb_spec c ":") as [->|]; [apply (byteseq_gives st t)|].
  destruct (Ascii.eqb_spec c "?") as [->|]; [apply (boolean_gives st t)|].
  destruct (Ascii.eqb c "*" || is_upper c || is_lower c); [apply (token_gives st c t)|].
  destruct (Ascii.eqb_spec c "%") as [->|]; [apply (dispstring_gives st t)|]. by eexists.
Qed.

(** ** Every value takes at least a character *)

Lemma key_length t k r : key t = Some (k, r) -> (length r < length t)%nat.
Proof. destruct t as [|c t]; [done|]. cbn [key]. destruct (key_start c); [|done]. intros [= _ <-]. pose proof (drop_while_le key_char t). cbn [length]. lia. Qed.

Lemma unsigned_length sign t v r : unsigned sign t = Some (v, r) -> (length r < length t)%nat /\ v <> SfInnerList.
Proof.
  unfold unsigned. pose proof (length_take_while is_num t) as H. destruct (Nat.eqb_spec (length (take_while is_num t)) 0); [done|].
  destruct (drop_while is_num t) as [|c q]; cbn [length] in H.
  - destruct (_ <=? _)%nat; [|done]. intros [= <- <-]. split; [cbn; lia|done].
  - destruct (Ascii.eqb c "."); [destruct (_ && _)|destruct (_ <=? _)%nat]; try done; intros [= <- <-]; (split; [|done]).
    + pose proof (drop_while_le is_num q). lia.
    + cbn [length]. lia.
Qed.

Lemma number_length t v r : number t = Some (v, r) -> (length r < length t)%nat /\ v <> SfInnerList.
Proof.
  destruct t as [|c t]; [done|]. cbn [number]. destruct (Ascii.eqb c "-"); intros H; apply unsigned_length in H; [|done]. cbn [length]. split; [lia|apply H].
Qed.

Lemma byteseq_length t b r : byteseq t = Some (b, r) -> (length r < length t)%nat.
Proof.
  unfold byteseq. pose proof (length_take_while base64_char t) as H. destruct (drop_while base64_char t) as [|c q]; [done|]. cbn [length] in H.
  destruct (Ascii.eqb c ":"); [destruct (_ =? _)%nat; [done|]; intros [= _ <-]; lia|]. destruct (_ && _); [|done]. destruct q as [|d q]; [done|]. cbn [length] in H.
  destruct (Ascii.eqb d ":"); [intros [= _ <-]; lia|]. destruct (_ && _); [|done]. destruct q as [|e q]; [done|]. cbn [length] in H. destruct (Ascii.eqb e ":"); [|done]. intros [= _ <-]. lia.
Qed.

Lemma display_length n : forall t s l r, (length t <= n)%nat -> display t = Some (s, l, r) -> (length r < length t)%nat.
Proof.
  induction n as [|n IH]; intros [|c t] s l r Hn; cbn [length] in Hn; [done|lia|done|]. cbn [display length]. destruct (Ascii.eqb c dquote); [intros [= _ _ <-]; lia|].
  destruct (Ascii.eqb c "%").
  - destruct t as [|a [|b t]]; [done..|]. destruct (pctdecode a b); [|done]. cbn [mbind option_bind]. destruct (display t) as [[[s' l'] r']|] eqn:E; [|done].
    intros [= _ _ <-]. apply IH in E; cbn [length] in *; lia.
  - destruct (_ && _); [|done]. destruct (display t) as [[[s' l'] r']|] eqn:E; [|done]. intros [= _ _ <-]. apply IH in E; lia.
Qed.

Lemma bare_item_length t v r : bare_item t = Some (v, r) -> (length r < length t)%nat /\ v <> SfInnerList.
Proof.
  destruct t as [|c t]; [done|]. cbn [bare_item]. destruct (Ascii.eqb c dquote).
  { pose proof (quoted_spec t false) as H. destruct (quoted t) as [[b q]|]; [|done]. intros [= <- <-]. destruct H as [_ ->]. cbn [length]. rewrite length_app. cbn [length]. split; [lia|done]. }
  destruct (Ascii.eqb c "-" || is_num c); [apply number_length|]. destruct (Ascii.eqb c "@").
  { destruct (number t) as [[w q]|] eqn:E; [|done]. apply number_length in E. cbn [mbind option_bind]. destruct w; try done. intros [= <- <-]. cbn [length]. split; [lia|done]. }
  destruct (Ascii.eqb c ":").
  { destruct (byteseq t) as [[b q]|] eqn:E; [|done]. intros [= <- <-]. apply byteseq_length in E. cbn [length]. split; [lia|done]. }
  destruct (Ascii.eqb c "?").
  { destruct t as [|d t]; [done|]. destruct (Ascii.eqb d "0"); [|destruct (Ascii.eqb d "1"); [|done]]; intros [= <- <-]; cbn [length]; (split; [lia|done]). }
  destruct (_ || _); [intros [= <- <-]; pose proof (drop_while_le token_char t); cbn [length]; (split; [lia|done])|].
  destruct (Ascii.eqb c "%"); [|done]. destruct t as [|d t]; [done|]. destruct (Ascii.eqb d dquote); [|done].
  destruct (display t) as [[[s l] q]|] eqn:E; [|done]. cbn [mbind option_bind]. destruct (utf8 l); [|done]. intros [= <- <-]. apply (display_length (length t)) in E; [|lia]. cbn [length]. split; [lia|done].
Qed.

Lemma tail_length (t : list char) : (length (tail t) <= length t)%nat.
Proof. destruct t; cbn; lia. Qed.

Lemma opt_value_length t v r : opt_value t = Some (v, r) -> (length r <= length t)%nat.
Proof.
  unfold opt_value. destruct (starts "=" t); [|intros [= _ <-]; lia]. intros H. apply bare_item_length in H. pose proof (tail_length t). lia.
Qed.

Lemma param_length t k v r : param t = Some (k, v, r) -> (length r < length t)%nat.
Proof.
  unfold param. destruct (key (drop_sp t)) as [[k' t1]|] eqn:E; [|done]. cbn [mbind option_bind]. destruct (opt_value t1) as [[v' t2]|] eqn:E2; [|done]. intros [= _ _ <-].
  apply key_length in E. apply opt_value_length in E2. pose proof (drop_while_le (fun c => Ascii.eqb c " ") t). unfold drop_sp in E. lia.
Qed.

(** ** Parts of the text: enough fuel, and what they leave *)

Lemma params_enough n : forall m t, (length t < n)%nat -> (length t < m)%nat -> params_upto n t = params_upto m t.
Proof.
  induction n as [|n IH]; intros [|m] t Hn Hm; try lia. cbn [params_upto]. destruct (starts ";" t); [|done].
  destruct (param (tail t)) as [[[k v] r]|] eqn:E; [|done]. apply param_length in E. pose proof (tail_length t). by rewrite (IH m) by lia.
Qed.

Lemma params_eq t : params t =
  if starts ";" t then match param (tail t) with Some (k, v, r) => says (Param k v) (params r) | None => bad end else ([EndParams], Some t).
Proof.
  unfold params at 1. cbn [params_upto]. destruct (starts ";" t); [|done]. destruct (param (tail t)) as [[[k v] r]|] eqn:E; [|done].
  apply param_length in E. pose proof (tail_length t). unfold params. by rewrite (params_enough (length t) (S (length r))) by lia.
Qed.

Lemma params_length n : forall t r, (length t <= n)%nat -> snd (params t) = Some r -> (length r <= length t)%nat.
Proof.
  induction n as [|n IH]; intros t r Hn; rewrite params_eq; destruct (starts ";" t) eqn:Es; cbn [snd]; try (intros [= <-]; lia).
  - destruct t; [done|cbn in Hn; lia].
  - destruct (param (tail t)) as [[[k v] q]|] eqn:E; [|done]. apply param_length in E. pose proof (tail_length t). cbn [says snd]. intros H'. apply IH in H'; lia.
Qed.

(** What may follow an item of an inner list *)
Definition inner_cont (r : list char) : part := if starts " " r then inner (drop_sp r) else if starts ")" r then inner r else bad.

Lemma continue_ext p k k' : (forall r, snd p = Some r -> k r = k' r) -> andthen p k = andthen p k'.
Proof. unfold andthen. destruct (snd p) as [r|]; [|done]. intros H. by rewrite (H r eq_refl). Qed.

Lemma inner_enough n : forall m t, (length t < n)%nat -> (length t < m)%nat -> inner_upto n t = inner_upto m t.
Proof.
  induction n as [|n IH]; intros [|m] t Hn Hm; try lia. cbn [inner_upto]. destruct (starts ")" t); [done|].
  destruct (bare_item t) as [[v r]|] eqn:E; [|done]. apply bare_item_length in E as [E _]. f_equal. apply continue_ext. intros q Hq. apply (params_length (length r)) in Hq; [|done].
  pose proof (drop_while_le (fun c => Ascii.eqb c " ") q). unfold drop_sp. by rewrite !(IH m) by lia.
Qed.

Lemma inner_eq t : inner t =
  if starts ")" t then ([EndInner], Some (tail t)) else
  match bare_item t with None => bad | Some (v, r) => says (Item v) (andthen (params r) inner_cont) end.
Proof.
  unfold inner at 1. cbn [inner_upto]. destruct (starts ")" t); [done|]. destruct (bare_item t) as [[v r]|] eqn:E; [|done].
  apply bare_item_length in E as [E _]. f_equal. apply continue_ext. intros q Hq. apply (params_length (length r)) in Hq; [|done].
  pose proof (drop_while_le (fun c => Ascii.eqb c " ") q). unfold inner_cont, inner, drop_sp.
  by rewrite (inner_enough (length t) (S (length (drop_while (fun c => Ascii.eqb c " ") q)))), (inner_enough (length t) (S (length q))) by lia.
Qed.

Lemma andthen_snd p k r : snd (andthen p k) = Some r -> exists q, snd p = Some q /\ snd (k q) = Some r.
Proof. unfold andthen. destruct (snd p) as [q|] eqn:E; [|by rewrite E]. cbn [snd]. eauto. Qed.

Lemma inner_length n : forall t r, (length t <= n)%nat -> snd (inner t) = Some r -> (length r <= length t)%nat.
Proof.
  induction n as [|n IH]; intros t r Hn; rewrite inner_eq; destruct (starts ")" t) eqn:Es; cbn [snd].
  - intros [= <-]. apply tail_length.
  - destruct t; [done|cbn in Hn; lia].
  - intros [= <-]. apply tail_length.
  - destruct (bare_item t) as [[v q]|] eqn:E; [|done]. apply bare_item_length in E as [E _]. cbn [says snd]. intros H. apply andthen_snd in H as (q' & H1 & H2).
    apply (params_length (length q)) in H1; [|done]. unfold inner_cont in H2. pose proof (drop_while_le (fun c => Ascii.eqb c " ") q').
    destruct (starts " " q'); [apply IH in H2; unfold drop_sp in *; lia|]. destruct (starts ")" q'); [apply IH in H2; lia|done].
Qed.
