(* ===== verification/SfparseSpec.v ===== *)
(** * Structured field values: [sfparse.c] as an iterator over the grammar

    [sfparse_refines]: whatever calls a client makes, it gets the next member, parameter
    or item of the list of events of the grammar, and what it does not ask for is
    skipped. *)

From stdpp Require Import list.
From S2P Require Import Prelude CLib NgBuf NgHelper Sfparse SfparseGrammar.

(** ** States *)

Definition code (k : kind) : Z := match k with Dict => SFPARSE_STATE_DICT | List_ => SFPARSE_STATE_LIST | Item_ => SFPARSE_STATE_ITEM end.
Definition ops : list Z := [SFPARSE_STATE_BEFORE; SFPARSE_STATE_BEFORE_PARAMS; SFPARSE_STATE_PARAMS; SFPARSE_STATE_AFTER].

(** The state of a parser of kind [k], inside an inner list or not *)
Definition at_op (k : kind) (i : bool) (o : Z) : Z := Z.lor (Z.lor (code k) (if i then SFPARSE_STATE_INNER_LIST else 0)) o.

Ltac all_states := intros; repeat match goal with H : In _ ops |- _ => repeat destruct H as [<-|H]; try contradiction end; by repeat match goal with k : kind |- _ => destruct k | i : bool |- _ => destruct i end.

Lemma at_op_op k i o : In o ops -> Z.land (at_op k i o) SFPARSE_STATE_OP_MASK = o.
Proof. all_states. Qed.

Lemma at_op_set k i o o' : In o ops -> In o' ops -> Z.lor (Z.ldiff (at_op k i o) SFPARSE_STATE_OP_MASK) o' = at_op k i o'.
Proof. all_states. Qed.

Lemma at_op_leave k i o : In o ops -> Z.ldiff (at_op k i o) SFPARSE_STATE_INNER_LIST = at_op k false o.
Proof. all_states. Qed.

#[local] Hint Extern 1 (In _ ops) => (cbn; tauto) : core.

Lemma set_op_at k i o o' t : In o ops -> In o' ops -> parser_set_op_state o' (Parser t (at_op k i o)) = Some (inr tt, Parser t (at_op k i o')).
Proof. intros H H'. unfold parser_set_op_state, put. cbn [op_state]. by rewrite at_op_set. Qed.

(** Comparisons of constants *)
Ltac consts := repeat match goal with
  | |- context [?a =? ?b] => is_const a; is_const b; let v := eval vm_compute in (a =? b) in change (a =? b) with v
  end; cbn match.

(** ** The functions of the parser read the parts *)

Lemma at_char_starts c p : at_char c p = Some (inr (starts c (pos p)), p).
Proof. unfold at_char, starts. by destruct (pos p). Qed.

(** A function that skips a part, and the state after it *)
Definition skips (m : Sf unit) (p : sfparse_parser) (st : Z) (q : part) : Prop :=
  match snd q with
  | Some r => m p = Some (inr tt, Parser r st)
  | None => exists p', m p = Some (inl SFPARSE_ERR_PARSE, p')
  end.

Lemma starts_tail c t : starts c t = true -> t = c :: tail t.
Proof. destruct t as [|x t]; [done|]. cbn. destruct (Ascii.eqb_spec x c) as [->|]; done. Qed.

Lemma param_next_spec k i t : param_next (Parser t (at_op k i SFPARSE_STATE_PARAMS)) =
    Some (inl SFPARSE_ERR_EOF, Parser t (at_op k i SFPARSE_STATE_AFTER)) /\ starts ";" t = false \/
  starts ";" t = true /\ gives param_next (Parser t (at_op k i SFPARSE_STATE_PARAMS)) ('(key, v, r) ← param (tail t); Some ((key, v), r)).
Proof.
  set (st := at_op k i SFPARSE_STATE_PARAMS). unfold param_next. cbn [bind Sf_monad]. rewrite at_char_starts. cbn [pos]. destruct (starts ";" t) eqn:Es; cbn [negb].
  - right. split; [done|]. apply starts_tail in Es. unfold gives. cbn [bind Sf_monad]. rewrite at_char_starts. cbn [pos]. rewrite Es. cbn [starts Ascii.eqb Bool.eqb negb tail]. generalize (tail t). clear t Es. intros t.
    cbv beta iota delta [advance bind Sf_monad pos set_pos op_state]. unfold parser_discard_sp, skip_while, put. cbv beta iota delta [pos set_pos op_state]. unfold param. fold (drop_sp t). destruct (drop_sp t) as [|c u] eqn:Eu; [by eexists|].
    cbv beta iota delta [parser_eof pos bind Sf_monad set_pos op_state]. pose proof (key_gives st (c :: u) ltac:(done)) as Hk. unfold gives in Hk. destruct (key (c :: u)) as [[kk t1]|]; cbn [mbind option_bind].
    2: { destruct Hk as [p' ->]. by eexists. }
    rewrite Hk. rewrite at_char_starts. cbv beta iota delta [pos set_pos op_state]. unfold opt_value. destruct (starts "=" t1) eqn:E1; cbn [negb mbind option_bind ret]; [|done].
    apply starts_tail in E1. destruct t1 as [|x t1]; [done|]. injection E1 as ->. cbn [tail advance pos]. unfold set_pos. cbn [op_state parser_eof pos]. destruct t1 as [|d t1]; [by eexists|].
    pose proof (bare_item_gives st (d :: t1) ltac:(done)) as Hv. unfold gives in Hv. destruct (bare_item (d :: t1)) as [[v r]|]; cbn [mbind option_bind].
    + by rewrite Hv.
    + destruct Hv as [p' ->]. by eexists.
  - left. split; [|done]. cbn [bind Sf_monad]. unfold st. by rewrite set_op_at by auto.
Qed.

(** A call where parameters may come *)
Lemma param_call skip k i o t : o = SFPARSE_STATE_BEFORE_PARAMS \/ o = SFPARSE_STATE_PARAMS ->
  param_with skip (Parser t (at_op k i o)) = param_next (Parser t (at_op k i SFPARSE_STATE_PARAMS)).
Proof.
  intros Ho. assert (Hin : In o ops) by (destruct Ho as [->| ->]; cbn; tauto). unfold param_with, op. cbn [bind Sf_monad op_state]. rewrite at_op_op by done.
  destruct Ho as [->| ->]; cbn [Z.eqb Pos.eqb SFPARSE_STATE_BEFORE_PARAMS SFPARSE_STATE_BEFORE SFPARSE_STATE_PARAMS ret]; [|done]. by rewrite set_op_at by auto.
Qed.

Lemma skip_params_spec skip k i n : forall o t, (length t + 1 <= n)%nat -> o = SFPARSE_STATE_BEFORE_PARAMS \/ o = SFPARSE_STATE_PARAMS ->
  skips (skip_params_with skip n) (Parser t (at_op k i o)) (at_op k i SFPARSE_STATE_AFTER) (params t).
Proof.
  induction n as [|n IH]; intros o t Hn Ho; [lia|]. cbn [skip_params_with]. unfold skips, until_eof. rewrite param_call by done. rewrite params_eq.
  destruct (param_next_spec k i t) as [[E Es]|[Es H]]; rewrite Es.
  - by rewrite E.
  - unfold gives in H. destruct (param (tail t)) as [[[kk v] r]|] eqn:Ep; cbn [mbind option_bind] in H.
    + rewrite H. apply param_length in Ep. apply starts_tail in Es. rewrite Es in Hn. cbn [length] in Hn. apply (IH SFPARSE_STATE_PARAMS r); [lia|by right].
    + destruct H as [p' ->]. by eexists.
Qed.

(** The step of an inner list: its end, an item, or an error *)
Lemma inner_list_next_spec k o t : In o ops -> t <> [] ->
  inner_list_next (Parser t (at_op k true o)) = Some (inl SFPARSE_ERR_EOF, Parser (tail t) (at_op k false SFPARSE_STATE_BEFORE_PARAMS)) /\ starts ")" t = true \/
  starts ")" t = false /\
    match bare_item t with
    | Some (v, r) => inner_list_next (Parser t (at_op k true o)) = Some (inr v, Parser r (at_op k true SFPARSE_STATE_BEFORE_PARAMS))
    | None => exists p', inner_list_next (Parser t (at_op k true o)) = Some (inl SFPARSE_ERR_PARSE, p')
    end.
Proof.
  intros Ho Ht. destruct t as [|c t]; [done|]. unfold inner_list_next. cbn [bind Sf_monad peek pos starts]. destruct (Ascii.eqb c ")").
  - left. split; [|done]. cbv beta iota delta [advance bind Sf_monad pos set_pos op_state tail]. unfold parser_unset_inner_list_state, put. cbv beta iota delta [op_state set_op_state pos]. rewrite at_op_leave by done. by rewrite set_op_at by auto.
  - right. split; [done|]. pose proof (bare_item_gives (at_op k true o) (c :: t) ltac:(done)) as Hv. unfold gives in Hv. destruct (bare_item (c :: t)) as [[v r]|].
    + rewrite Hv. cbv beta iota delta [set_pos op_state]. by rewrite set_op_at by auto.
    + destruct Hv as [p' ->]. by eexists.
Qed.

(** A call of the inner list: where the position is before it, and what comes next. *)
Definition inner_call (m : Sf sfparse_value) (p : sfparse_parser) (k : kind) (t : list char) : Prop :=
  if starts ")" t then m p = Some (inl SFPARSE_ERR_EOF, Parser (tail t) (at_op k false SFPARSE_STATE_BEFORE_PARAMS)) else
  match bare_item t with
  | Some (v, r) => m p = Some (inr v, Parser r (at_op k true SFPARSE_STATE_BEFORE_PARAMS))
  | None => exists p', m p = Some (inl SFPARSE_ERR_PARSE, p')
  end.

Lemma inner_first skip n k t : inner_call (inner_list_with skip n) (Parser t (at_op k true SFPARSE_STATE_BEFORE)) k (drop_sp t).
Proof.
  unfold inner_call, inner_list_with. cbn [bind Sf_monad]. unfold op. cbn [op_state]. rewrite at_op_op by auto. cbn [Z.eqb SFPARSE_STATE_BEFORE].
  unfold parser_discard_sp, skip_while, put. cbv beta iota delta [bind Sf_monad pos set_pos op_state]. fold (drop_sp t). destruct (drop_sp t) as [|c u]; [by eexists|]. cbn [parser_eof pos ret].
  destruct (inner_list_next_spec k SFPARSE_STATE_BEFORE (c :: u)) as [[E ->]|[-> E]]; [auto|done|done|]. destruct (bare_item (c :: u)) as [[v r]|]; exact E.
Qed.

(** After an item and its parameters *)
Definition cont_pos (t : list char) : list char := if starts " " t then drop_sp t else if starts ")" t then t else [].

Lemma inner_cont_eq t : inner_cont t = inner (cont_pos t).
Proof. unfold inner_cont, cont_pos. destruct (starts " " t); [done|]. by destruct (starts ")" t). Qed.

Lemma inner_after skip n k t : inner_call (inner_list_with skip n) (Parser t (at_op k true SFPARSE_STATE_AFTER)) k (cont_pos t).
Proof.
  unfold inner_call, inner_list_with, op, parser_discard_sp. sf. rewrite at_op_op by auto.
  consts. sf. destruct t as [|c t]; [by eexists|]. sf. unfold cont_pos. cbn [starts].
  destruct (Ascii.eqb c " ") eqn:Ec.
  - fold (drop_sp (c :: t)). destruct (drop_sp (c :: t)) as [|d u]; [by eexists|]. sf.
    destruct (inner_list_next_spec k SFPARSE_STATE_AFTER (d :: u)) as [[E ->]|[-> E]]; [auto|done|done|]. destruct (bare_item (d :: u)) as [[v r]|]; exact E.
  - destruct (Ascii.eqb c ")") eqn:Ec'; [|by eexists]. cbn [starts]. rewrite Ec'. sf.
    destruct (inner_list_next_spec k SFPARSE_STATE_AFTER (c :: t)) as [[E _]|[E _]]; [auto|done|exact E|]. cbn [starts] in E. by rewrite Ec' in E.
Qed.

Lemma inner_before_params skip n k t : (length t + 1 <= n)%nat ->
  match snd (params t) with
  | Some r => inner_list_with skip n (Parser t (at_op k true SFPARSE_STATE_BEFORE_PARAMS)) = inner_list_with skip n (Parser r (at_op k true SFPARSE_STATE_AFTER))
  | None => exists p', inner_list_with skip n (Parser t (at_op k true SFPARSE_STATE_BEFORE_PARAMS)) = Some (inl SFPARSE_ERR_PARSE, p')
  end.
Proof.
  intros Hn. pose proof (skip_params_spec skip k true n SFPARSE_STATE_BEFORE_PARAMS t ltac:(lia) ltac:(by left)) as H. unfold skips in H.
  unfold inner_list_with, op. sf. destruct (snd (params t)) as [r|]; rewrite !at_op_op by auto; consts; sf.
  - by rewrite H.
  - destruct H as [p' ->]. by eexists.
Qed.

(** An inner list as a whole, from its beginning or after an item *)
Lemma skip_inner_round n k p t :
  inner_call (inner_list_with (parser_skip_inner_list n) n) p k t ->
  (forall t', (length t' < length t)%nat -> skips (parser_skip_inner_list n) (Parser t' (at_op k true SFPARSE_STATE_BEFORE_PARAMS)) (at_op k false SFPARSE_STATE_BEFORE_PARAMS) (andthen (params t') inner_cont)) ->
  skips (parser_skip_inner_list (S n)) p (at_op k false SFPARSE_STATE_BEFORE_PARAMS) (inner t).
Proof.
  intros H IH. unfold inner_call in H. rewrite inner_eq. unfold skips. cbn [parser_skip_inner_list]. unfold until_eof. destruct (starts ")" t); [by rewrite H|].
  destruct (bare_item t) as [[v r]|] eqn:E; [|destruct H as [p' ->]; by eexists]. rewrite H. apply bare_item_length in E as [E _]. apply (IH r E).
Qed.

Lemma cont_pos_length t : (length (cont_pos t) <= length t)%nat.
Proof. unfold cont_pos. pose proof (drop_while_le (fun c => Ascii.eqb c " ") t). unfold drop_sp. destruct (starts " " t); [lia|]. destruct (starts ")" t); cbn; lia. Qed.

Lemma skip_inner_after n k : forall t, (length t + 2 <= n)%nat ->
  skips (parser_skip_inner_list n) (Parser t (at_op k true SFPARSE_STATE_BEFORE_PARAMS)) (at_op k false SFPARSE_STATE_BEFORE_PARAMS) (andthen (params t) inner_cont).
Proof.
  induction n as [|n IH]; intros t Hn; [lia|]. pose proof (inner_before_params (parser_skip_inner_list n) n k t ltac:(lia)) as H. unfold andthen. destruct (snd (params t)) as [r|] eqn:Er.
  - pose proof (params_length (length t) t r ltac:(lia) Er) as Hr. pose proof (cont_pos_length r) as Hc.
    assert (Hs : skips (parser_skip_inner_list (S n)) (Parser t (at_op k true SFPARSE_STATE_BEFORE_PARAMS)) (at_op k false SFPARSE_STATE_BEFORE_PARAMS) (inner (cont_pos r))).
    { apply skip_inner_round; [|intros t' Ht'; apply IH; lia]. unfold inner_call. rewrite H. apply inner_after. }
    unfold skips in *. cbn [snd]. by rewrite inner_cont_eq.
  - unfold skips. rewrite Er. cbn [parser_skip_inner_list]. unfold until_eof. destruct H as [p' ->]. by eexists.
Qed.

Lemma drop_sp_length t : (length (drop_sp t) <= length t)%nat.
Proof. apply drop_while_le. Qed.

Lemma skip_inner_first n k t : (length t + 2 <= n)%nat ->
  skips (parser_skip_inner_list n) (Parser t (at_op k true SFPARSE_STATE_BEFORE)) (at_op k false SFPARSE_STATE_BEFORE_PARAMS) (inner (drop_sp t)).
Proof.
  intros Hn. destruct n as [|n]; [lia|]. pose proof (drop_sp_length t). apply skip_inner_round; [apply inner_first|]. intros t' Ht'. apply skip_inner_after. lia.
Qed.

(** ** Members *)

(** What follows a member and all that is attached to it *)
Definition next_text (k : kind) (r : list char) : part :=
  match k with
  | Item_ => match drop_sp r with [] => ([EndAll], None) | _ => bad end
  | _ =>
      match drop_ows r with
      | [] => ([EndAll], None)
      | u => if starts "," u then match drop_ows (tail u) with [] => bad | t => members_upto k (S (length t)) t end else bad
      end
  end.

Lemma member_length k t key v r : member k t = Some (key, v, r) -> (length r < length t)%nat /\ (v = SfInnerList -> starts "(" t = true \/ k = Dict).
Proof.
  assert (Htext : forall t v r, member_text t = Some (v, r) -> (length r < length t)%nat /\ (v = SfInnerList -> starts "(" t = true)).
  { clear. intros t v r. unfold member_text. destruct (starts "(" t) eqn:E; [intros [= <- <-]; apply starts_tail in E; rewrite E; cbn; split; [lia|done]|].
    intros H. apply bare_item_length in H as [H Hv]. done. }
  unfold member. destruct k.
  - destruct (SfparseGrammar.key t) as [[kk t1]|] eqn:E; [|done]. apply key_length in E. cbn [mbind option_bind].
    destruct (starts "=" t1) eqn:E1; [|intros [= _ _ <-]; split; [lia|by right]]. destruct (member_text (tail t1)) as [[v' t2]|] eqn:E2; [|done]. intros [= _ _ <-]. apply Htext in E2 as [E2 _].
    pose proof (tail_length t1). split; [lia|by right].
  - destruct (member_text t) as [[v' t2]|] eqn:E2; [|done]. intros [= _ <- <-]. apply Htext in E2 as [E2 H2]. split; [done|]. intros Hv. left. by apply H2.
  - destruct (member_text t) as [[v' t2]|] eqn:E2; [|done]. intros [= _ <- <-]. apply Htext in E2 as [E2 H2]. split; [done|]. intros Hv. left. by apply H2.
Qed.

Lemma attached_length v t r : snd (attached v t) = Some r -> (length r <= length t)%nat.
Proof.
  assert (Hp : snd (params t) = Some r -> (length r <= length t)%nat) by by apply (params_length (length t)).
  destruct v; cbn [attached]; try exact Hp. intros H. apply andthen_snd in H as (q & H1 & H2). pose proof (drop_sp_length t).
  apply (inner_length (length (drop_sp t))) in H1; [|done]. apply (params_length (length q)) in H2; lia.
Qed.

Lemma members_enough k n : forall m t, (length t < n)%nat -> (length t < m)%nat -> members_upto k n t = members_upto k m t.
Proof.
  induction n as [|n IH]; intros [|m] t Hn Hm; try lia. cbn [members_upto]. destruct (member k t) as [[[key v] r]|] eqn:E; [|done]. apply member_length in E as [E _].
  f_equal. apply continue_ext. intros q Hq. apply attached_length in Hq.
  assert (Hrec : forall x u, drop_ows q = x :: u -> match drop_ows (tail (x :: u)) with [] => bad | t => members_upto k n t end = match drop_ows (tail (x :: u)) with [] => bad | t => members_upto k m t end).
  { intros x u Eu. pose proof (drop_while_le is_ws q) as Hq'. pose proof (drop_while_le is_ws u) as Hu. unfold drop_ows in *. rewrite Eu in Hq'. cbn [tail length] in *.
    destruct (drop_while is_ws u) as [|y w]; [done|]. cbn [length] in Hu. apply IH; cbn [length]; lia. }
  destruct k; try done; destruct (drop_ows q) as [|x u] eqn:Eu; try done; destruct (starts "," (x :: u)); try done; by apply (Hrec x u).
Qed.

Lemma members_eq k t : members_upto k (S (length t)) t =
  match member k t with None => bad | Some (key, v, r) => says (Member key v) (andthen (attached v r) (next_text k)) end.
Proof.
  cbn [members_upto]. destruct (member k t) as [[[key v] r]|] eqn:E; [|done]. apply member_length in E as [E _].
  f_equal. apply continue_ext. intros q Hq. apply attached_length in Hq. unfold next_text.
  assert (Hrec : forall x u, drop_ows q = x :: u -> match drop_ows (tail (x :: u)) with [] => bad | w => members_upto k (length t) w end = match drop_ows (tail (x :: u)) with [] => bad | w => members_upto k (S (length w)) w end).
  { intros x u Eu. pose proof (drop_while_le is_ws q) as Hq'. pose proof (drop_while_le is_ws u) as Hu. unfold drop_ows in *. rewrite Eu in Hq'. cbn [tail length] in *.
    destruct (drop_while is_ws u) as [|y w]; [done|]. cbn [length] in Hu. apply members_enough; cbn [length]; lia. }
  destruct k; try done; destruct (drop_ows q) as [|x u] eqn:Eu; try done; destruct (starts "," (x :: u)); try done; by apply (Hrec x u).
Qed.

(** ** The iterator: the calls a client can make, and what they mean *)

Inductive call := NextMember | NextParam | NextItem.

(** Where a client is: before the first member, at an inner list, before, in or after
    parameters (of an item of an inner list, or of a member), or done. *)
Inductive phase := Start | AtInner | AtParams (i : bool) | InParams (i : bool) | AfterParams (i : bool) | Stopped.

Definition is_member (e : event) : bool := match e with Member _ _ | EndAll => true | _ => false end.
Definition is_item (e : event) : bool := match e with Item _ | EndInner => true | _ => false end.
Definition is_end_inner (e : event) : bool := match e with EndInner => true | _ => false end.
Definition is_bad (e : event) : bool := match e with Bad => true | _ => false end.

(** Events that are not asked for are skipped, errors never. *)
Fixpoint until (f : event -> bool) (l : list event) : list event :=
  match l with e :: l' => if f e || is_bad e then l else until f l' | [] => [] end.

Definition phase_after (i : bool) (e : event) : phase :=
  match e with
  | Member _ SfInnerList => AtInner
  | Member _ _ => AtParams false
  | Param _ _ => InParams i
  | EndParams => AfterParams i
  | Item _ => AtParams true
  | EndInner => AtParams false
  | EndAll | Bad => Stopped
  end.

Definition head_event (i : bool) (l : list event) : option (event * phase * list event) :=
  match l with e :: l => Some (e, phase_after i e, l) | [] => None end.

(** A call, where it is allowed *)
Definition iterate (c : call) (ph : phase) (l : list event) : option (event * phase * list event) :=
  match c, ph with
  | NextMember, (Start | AtInner | AtParams false | AfterParams false) => head_event false (until is_member l)
  | NextParam, AtInner => match until is_end_inner l with EndInner :: l => head_event false l | l => head_event false l end
  | NextParam, (AtParams i | InParams i) => head_event i l
  | NextItem, (AtInner | AtParams true | AfterParams true) => head_event true (until is_item l)
  | _, _ => None
  end.

(** The answers to a list of calls, up to the end or an error; [None] if a call is not
    allowed. *)
Fixpoint walk (cs : list call) (ph : phase) (l : list event) : option (list event) :=
  match cs with
  | [] => Some []
  | c :: cs =>
      r ← iterate c ph l;
      let '(e, ph, l) := r in
      match ph with Stopped => Some [e] | _ => es ← walk cs ph l; Some (e :: es) end
  end.

(** The same with the parser: what a result means *)
Definition answer {A} (ok : A -> event) (eof : event) (r : option ((Z + A) * sfparse_parser)) : option (event * sfparse_parser) :=
  match r with
  | Some (inr a, p) => Some (ok a, p)
  | Some (inl rv, p) => if rv =? SFPARSE_ERR_EOF then Some (eof, p) else if rv =? SFPARSE_ERR_PARSE then Some (Bad, p) else None
  | None => None
  end.

Definition do_call (k : kind) (fuel : nat) (c : call) (p : sfparse_parser) : option (event * sfparse_parser) :=
  match c with
  | NextMember =>
      match k with
      | Dict => answer (fun kv => Member (fst kv) (snd kv)) EndAll (sfparse_parser_dict fuel p)
      | List_ => answer (Member []) EndAll (sfparse_parser_list fuel p)
      | Item_ => answer (Member []) EndAll (sfparse_parser_item fuel p)
      end
  | NextParam => answer (fun kv => Param (fst kv) (snd kv)) EndParams (sfparse_parser_param fuel p)
  | NextItem => answer Item EndInner (sfparse_parser_inner_list fuel p)
  end.

Fixpoint run (k : kind) (fuel : nat) (cs : list call) (p : sfparse_parser) : option (list event) :=
  match cs with
  | [] => Some []
  | c :: cs =>
      r ← do_call k fuel c p;
      let '(e, p) := r in
      match e with EndAll | Bad => Some [e] | _ => es ← run k fuel cs p; Some (e :: es) end
  end.

(** ** Skipping events *)

Lemma continue_assoc p k k' : andthen (andthen p k) k' = andthen p (fun r => andthen (k r) k').
Proof.
  unfold andthen. destruct (snd p) as [r|] eqn:E; cbn [fst snd]; [|by rewrite E]. destruct (snd (k r)) as [q|] eqn:E'; cbn [fst snd]; [by rewrite app_assoc|by rewrite E'].
Qed.

Lemma andthen_says e p k : andthen (says e p) k = says e (andthen p k).
Proof. unfold andthen, says. cbn [fst snd]. destruct (snd p) eqn:E; cbn [fst snd]; by rewrite ?E. Qed.

(** No event of the part is one that [f] looks for; an error is its last one. *)
Definition quiet (f : event -> bool) (p : part) : Prop :=
  match snd p with
  | Some _ => Forall (fun e => f e || is_bad e = false) (fst p)
  | None => exists l, fst p = l ++ [Bad] /\ Forall (fun e => f e || is_bad e = false) l
  end.

Lemma until_quiet f l l' : Forall (fun e => f e || is_bad e = false) l -> until f (l ++ l') = until f l'.
Proof. induction 1 as [|e l He Hl IH]; [done|]. cbn [app until]. by rewrite He. Qed.

Lemma until_part f p k : quiet f p -> until f (fst (andthen p k)) = match snd p with Some r => until f (fst (k r)) | None => [Bad] end.
Proof.
  unfold quiet, andthen. destruct (snd p) as [r|].
  - cbn [fst]. apply until_quiet.
  - intros (l & -> & Hl). rewrite until_quiet by done. cbn. by rewrite orb_true_r.
Qed.

Lemma quiet_bad f : quiet f bad.
Proof. exists []. split; [done|constructor]. Qed.

Lemma quiet_says f e p : f e || is_bad e = false -> quiet f p -> quiet f (says e p).
Proof.
  unfold quiet, says. cbn [fst snd]. intros He. destruct (snd p); [by constructor|]. intros (l & -> & Hl). exists (e :: l). split; [done|]. by constructor.
Qed.

Lemma quiet_params f n : (forall k v, f (Param k v) = false) -> f EndParams = false -> forall t, (length t <= n)%nat -> quiet f (params t).
Proof.
  intros Hp He. induction n as [|n IH]; intros t Hn; rewrite params_eq; destruct (starts ";" t) eqn:Es.
  - destruct t; [done|cbn in Hn; lia].
  - repeat constructor. by rewrite He.
  - destruct (param (tail t)) as [[[k v] r]|] eqn:E; [|apply quiet_bad]. apply param_length in E. apply quiet_says; [by rewrite Hp|]. apply IH. pose proof (tail_length t).
    apply starts_tail in Es. rewrite Es in Hn. cbn [length] in Hn. lia.
  - repeat constructor. by rewrite He.
Qed.

Lemma inner_head t k : fst (andthen (inner t) k) =
  if starts ")" t then EndInner :: fst (k (tail t)) else
  match bare_item t with
  | Some (v, r) => Item v :: fst (andthen (params r) (fun r => andthen (inner (cont_pos r)) k))
  | None => [Bad]
  end.
Proof.
  rewrite inner_eq. destruct (starts ")" t); [done|]. destruct (bare_item t) as [[v r]|]; [|done]. rewrite andthen_says, continue_assoc. cbn [says fst].
  do 2 f_equal. apply continue_ext. intros q _. by rewrite inner_cont_eq.
Qed.

(** An inner list is skipped by who looks for something else. *)
Lemma until_inner f n k : (forall v, f (Item v) = false) -> (forall k v, f (Param k v) = false) -> f EndParams = false -> forall t, (length t <= n)%nat ->
  until f (fst (andthen (inner t) k)) = match snd (inner t) with Some r => until f (EndInner :: fst (k r)) | None => [Bad] end.
Proof.
  intros Hi Hp He. induction n as [|n IH]; intros t Hn; rewrite inner_head, inner_eq; destruct (starts ")" t) eqn:Es; try done.
  - destruct t; [cbn; by rewrite orb_true_r|cbn in Hn; lia].
  - destruct (bare_item t) as [[v r]|] eqn:E; [|cbn; by rewrite orb_true_r]. apply bare_item_length in E as [E _]. cbn [until is_bad says snd]. rewrite Hi. cbn [orb].
    rewrite until_part by (apply (quiet_params _ (length r)); [done|done|lia]). unfold andthen at 2. destruct (snd (params r)) as [q|] eqn:Eq; [|by rewrite Eq]. cbn [snd]. rewrite inner_cont_eq. apply IH.
    apply (params_length (length r)) in Eq; [|done]. pose proof (cont_pos_length q). lia.
Qed.

(** ** The way to the next member *)

(** Where the next member begins, or what there is instead *)
Definition next_pos (k : kind) (r : list char) : event + list char :=
  match k with
  | Item_ => inl match drop_sp r with [] => EndAll | _ => Bad end
  | _ => match drop_ows r with
         | [] => inl EndAll
         | u => if starts "," u then match drop_ows (tail u) with [] => inl Bad | t => inr t end else inl Bad
         end
  end.

Lemma next_text_eq k r : next_text k r = match next_pos k r with inl e => ([e], None) | inr t => members_upto k (S (length t)) t end.
Proof.
  unfold next_text, next_pos. destruct k; [| |by destruct (drop_sp r)]; destruct (drop_ows r) as [|x u]; try done; destruct (starts "," (x :: u)); try done; by destruct (drop_ows (tail (x :: u))).
Qed.

Lemma next_pos_length k r t : next_pos k r = inr t -> t <> [] /\ (length t <= length r)%nat.
Proof.
  unfold next_pos. pose proof (drop_while_le is_ws r) as H1.
  destruct k; [| |done]; unfold drop_ows; destruct (drop_while is_ws r) as [|x u]; try done; (destruct (starts "," (x :: u)); [|done]); cbn [tail length] in *;
    pose proof (drop_while_le is_ws u) as H2; (destruct (drop_while is_ws u) as [|y w]; [done|]); intros [= <-]; (split; [done|]); cbn [length] in *; lia.
Qed.

Definition next_end (k : kind) : Sf unit := match k with Item_ => item_end | _ => parser_next_key_or_item end.

Definition code_of (e : event) : Z := match e with Bad => SFPARSE_ERR_PARSE | _ => SFPARSE_ERR_EOF end.

Lemma next_end_spec k r st :
  match next_pos k r with
  | inl e => exists p', next_end k (Parser r st) = Some (inl (code_of e), p')
  | inr t => next_end k (Parser r st) = Some (inr tt, Parser t st)
  end.
Proof.
  assert (Hkey : match (match drop_ows r with [] => inl EndAll | u => if starts "," u then match drop_ows (tail u) with [] => inl Bad | t => inr t end else inl Bad end) with
    | inl e => exists p', parser_next_key_or_item (Parser r st) = Some (inl (code_of e), p') | inr t => parser_next_key_or_item (Parser r st) = Some (inr tt, Parser t st) end).
  { unfold parser_next_key_or_item, parser_discard_ows. sf. fold (drop_ows r). destruct (drop_ows r) as [|c u]; [by eexists|]. sf. cbn [starts tail].
    destruct (Ascii.eqb c ","); sf; [|by eexists]. fold (drop_ows u). destruct (drop_ows u) as [|d w]; [by eexists|]. done. }
  destruct k; [exact Hkey|exact Hkey|]. unfold next_pos, next_end, item_end, parser_discard_sp. sf. fold (drop_sp r). destruct (drop_sp r); by eexists.
Qed.

(** ** A member *)

Definition take_member (k : kind) : Sf (sfparse_vec * sfparse_value) :=
  match k with
  | Dict => key <- parser_key ;; v <- parser_dict_value ;; ret (key, v)
  | _ => v <- member_value (code k) ;; ret ([], v)
  end.

(** The state after a member *)
Definition member_state (k : kind) (v : sfparse_value) : Z :=
  match v with SfInnerList => at_op k true SFPARSE_STATE_BEFORE | _ => at_op k false SFPARSE_STATE_BEFORE_PARAMS end.

Lemma take_member_spec k t st : t <> [] ->
  match member k t with
  | Some (key, v, r) => take_member k (Parser t st) = Some (inr (key, v), Parser r (member_state k v))
  | None => exists p', take_member k (Parser t st) = Some (inl SFPARSE_ERR_PARSE, p')
  end.
Proof.
  assert (Htext : forall k t st, t <> [] -> match member_text t with
    | Some (v, r) => member_value (code k) (Parser t st) = Some (inr v, Parser r (member_state k v))
    | None => exists p', member_value (code k) (Parser t st) = Some (inl SFPARSE_ERR_PARSE, p') end).
  { clear. intros k t st Ht. destruct t as [|c t]; [done|]. unfold member_text, member_value, to_state. cbn [bind Sf_monad peek pos starts tail]. destruct (Ascii.eqb c "("); [by destruct k|].
    pose proof (bare_item_gives st (c :: t) ltac:(done)) as H. unfold gives in H. destruct (bare_item (c :: t)) as [[v r]|] eqn:E; [|destruct H as [p' ->]; by eexists].
    rewrite H. apply bare_item_length in E as [_ E]. destruct v; try done; by destruct k. }
  intros Ht. unfold member, take_member. destruct k.
  - pose proof (key_gives st t Ht) as H. unfold gives in H. cbn [bind Sf_monad]. destruct (key t) as [[kk t1]|]; cbn [mbind option_bind]; [|destruct H as [p' ->]; by eexists]. rewrite H.
    unfold parser_dict_value. cbn [bind Sf_monad]. unfold set_pos. cbn [op_state]. rewrite at_char_starts. cbn [pos]. destruct (starts "=" t1) eqn:E1; cbn [negb mbind option_bind]; [|done].
    destruct t1 as [|x t1]; [done|]. cbn [tail advance pos]. unfold set_pos. cbn [op_state bind Sf_monad parser_eof pos]. destruct t1 as [|c t1]; [by eexists|]. specialize (Htext Dict (c :: t1) st ltac:(done)).
    destruct (member_text (c :: t1)) as [[v r]|]; cbn [mbind option_bind].
    + change (code Dict) with SFPARSE_STATE_DICT in Htext. by rewrite Htext.
    + destruct Htext as [p' E]. change (code Dict) with SFPARSE_STATE_DICT in E. rewrite E. by eexists.
  - specialize (Htext List_ t st Ht). cbn [bind Sf_monad]. destruct (member_text t) as [[v r]|]; cbn [mbind option_bind]; [by rewrite Htext|]. destruct Htext as [p' ->]. by eexists.
  - specialize (Htext Item_ t st Ht). cbn [bind Sf_monad]. destruct (member_text t) as [[v r]|]; cbn [mbind option_bind]; [by rewrite Htext|]. destruct Htext as [p' ->]. by eexists.
Qed.

(** ** The parser is the iterator *)

Definition enter (k : kind) (n : nat) : Sf unit := match k with Item_ => item_next n | _ => next_member n (code k) end.

Lemma member_call k n p : do_call k n NextMember p = answer (fun kv => Member (fst kv) (snd kv)) EndAll ((enter k n ;; take_member k) p).
Proof.
  destruct k; cbn [do_call enter code].
  - unfold sfparse_parser_dict. cbn [bind Sf_monad]. by destruct (next_member n SFPARSE_STATE_DICT p) as [[[rv|u] q]|].
  - unfold sfparse_parser_list. cbn [bind Sf_monad take_member code]. destruct (next_member n SFPARSE_STATE_LIST p) as [[[rv|u] q]|]; [done| |done].
    by destruct (member_value SFPARSE_STATE_LIST q) as [[[rv|v] q']|].
  - unfold sfparse_parser_item. cbn [bind Sf_monad take_member code]. destruct (item_next n p) as [[[rv|u] q]|]; [done| |done].
    by destruct (member_value SFPARSE_STATE_ITEM q) as [[[rv|v] q']|].
Qed.

Definition op_of (ph : phase) : Z :=
  match ph with
  | AtParams _ => SFPARSE_STATE_BEFORE_PARAMS
  | InParams _ => SFPARSE_STATE_PARAMS
  | AfterParams _ => SFPARSE_STATE_AFTER
  | _ => SFPARSE_STATE_BEFORE
  end.

(** The state of the parser in a phase, and the events that are still to come *)
Definition state_at (k : kind) (ph : phase) : Z :=
  match ph with
  | Start | Stopped => SFPARSE_STATE_INITIAL
  | AtInner => at_op k true SFPARSE_STATE_BEFORE
  | AtParams i | InParams i | AfterParams i => at_op k i (op_of ph)
  end.

Definition after_member (k : kind) (t : list char) : part := andthen (params t) (next_text k).
Definition after_item (k : kind) (t : list char) : part := andthen (inner (cont_pos t)) (after_member k).

Definition to_come (k : kind) (ph : phase) (t : list char) : list event :=
  match ph with
  | Start => events k t
  | AtInner => fst (andthen (inner (drop_sp t)) (after_member k))
  | AtParams false | InParams false => fst (after_member k t)
  | AfterParams false => fst (next_text k t)
  | AtParams true | InParams true => fst (andthen (params t) (after_item k))
  | AfterParams true => fst (after_item k t)
  | Stopped => []
  end.

(** The call does what the iterator does. *)
Definition agrees (k : kind) (n : nat) (t : list char) (i : bool) (l : list event) (r : option (event * sfparse_parser)) : Prop :=
  exists e p l', l = e :: l' /\ r = Some (e, p) /\
    match phase_after i e with
    | Stopped => e = EndAll \/ e = Bad
    | ph => exists t', p = Parser t' (state_at k ph) /\ l' = to_come k ph t' /\ (length t' + (if is_member e then 1 else 0) <= length t)%nat /\ e <> EndAll /\ e <> Bad
    end.

Lemma agrees_bad k n t i p l : agrees k n t i (Bad :: l) (Some (Bad, p)).
Proof. exists Bad, p, l. split; [done|]. split; [done|]. by right. Qed.

Lemma agrees_next k n t i e t' l st : phase_after i e <> Stopped -> st = state_at k (phase_after i e) -> l = to_come k (phase_after i e) t' -> (length t' + (if is_member e then 1 else 0) <= length t)%nat -> e <> EndAll -> e <> Bad ->
  agrees k n t i (e :: l) (Some (e, Parser t' st)).
Proof.
  intros Hph -> -> Hl H1 H2. do 3 eexists. split; [done|]. split; [done|]. destruct (phase_after i e); [..|done]; eexists; repeat (split; [done|]); done.
Qed.

(** *** Parameters *)

Lemma to_come_params k i t ph : ph = AtParams i \/ ph = InParams i -> to_come k ph t = fst (andthen (params t) (fun r => (to_come k (AfterParams i) r, None))).
Proof.
  assert (H : forall p f g, (forall r, fst (f r) = fst (g r)) -> fst (andthen p f) = fst (andthen p g)).
  { clear. intros p f g H. unfold andthen. destruct (snd p); [|done]. cbn [fst]. by rewrite H. }
  intros [-> | ->]; destruct i; by apply H.
Qed.

Lemma param_agrees k n i o t : o = SFPARSE_STATE_BEFORE_PARAMS \/ o = SFPARSE_STATE_PARAMS ->
  agrees k n t i (fst (andthen (params t) (fun r => (to_come k (AfterParams i) r, None))))
    (answer (fun kv => Param (fst kv) (snd kv)) EndParams (param_next (Parser t (at_op k i SFPARSE_STATE_PARAMS)))).
Proof.
  intros Ho. rewrite params_eq. destruct (param_next_spec k i t) as [[E Es]|[Es H]]; rewrite Es.
  - rewrite E. apply agrees_next; try done. cbn. lia.
  - unfold gives in H. pose proof (tail_length t). destruct (param (tail t)) as [[[kk v] r]|] eqn:Ep; cbn [mbind option_bind] in H.
    + rewrite H. apply param_length in Ep. rewrite andthen_says. cbn [says fst]. apply agrees_next; try done; [|cbn [is_member]; lia]. cbn [phase_after]. symmetry. apply to_come_params. by right.
    + destruct H as [p' ->]. apply agrees_bad.
Qed.

(** *** Items of an inner list *)

Lemma item_agrees m p k n t u : inner_call m p k u -> (length u <= length t)%nat ->
  agrees k n t true (until is_item (fst (andthen (inner u) (after_member k)))) (answer Item EndInner (m p)).
Proof.
  unfold inner_call. intros H Hu. rewrite inner_head. pose proof (tail_length u). destruct (starts ")" u).
  - rewrite H. cbn [until is_item orb]. apply agrees_next; try done. cbn [is_member]. lia.
  - destruct (bare_item u) as [[v r]|] eqn:E; [|destruct H as [p' ->]; apply agrees_bad]. rewrite H. apply bare_item_length in E as [E _]. cbn [until is_item orb].
    apply agrees_next; try done. cbn [is_member]. lia.
Qed.

Lemma next_item k n ph t : (length t + 2 <= n)%nat -> ph = AtInner \/ ph = AtParams true \/ ph = AfterParams true ->
  agrees k n t true (until is_item (to_come k ph t)) (do_call k n NextItem (Parser t (state_at k ph))).
Proof.
  intros Hn Hph. cbn [do_call]. unfold sfparse_parser_inner_list. destruct Hph as [->|[->| ->]]; cbn [to_come state_at op_of].
  - apply item_agrees; [apply inner_first|apply drop_sp_length].
  - rewrite until_part by (apply (quiet_params _ (length t)); [done|done|lia]). pose proof (inner_before_params (parser_skip_inner_list n) n k t ltac:(lia)) as H.
    destruct (snd (params t)) as [r|] eqn:Er; [|destruct H as [p' ->]; apply agrees_bad]. rewrite H. apply (params_length (length t)) in Er; [|lia].
    apply item_agrees; [apply inner_after|]. pose proof (cont_pos_length r). lia.
  - apply item_agrees; [apply inner_after|apply cont_pos_length].
Qed.

(** *** Members *)

Lemma member_agrees k n t u st : u <> [] -> (length u <= length t)%nat ->
  agrees k n t false (until is_member (fst (members_upto k (S (length u)) u))) (answer (fun kv => Member (fst kv) (snd kv)) EndAll (take_member k (Parser u st))).
Proof.
  intros Hu Hl. rewrite members_eq. pose proof (take_member_spec k u st Hu) as H. destruct (member k u) as [[[key v] r]|] eqn:E; [|destruct H as [p' ->]; apply agrees_bad].
  rewrite H. apply member_length in E as [E _]. cbn [says fst until is_member orb snd answer].
  apply agrees_next; try done; [by destruct v|by destruct v| |cbn [is_member]; lia]. destruct v; cbn [phase_after to_come attached]; try done. by rewrite continue_assoc.
Qed.

Lemma next_agrees k n t r st : (length r <= length t)%nat ->
  agrees k n t false (until is_member (fst (next_text k r))) (answer (fun kv => Member (fst kv) (snd kv)) EndAll ((next_end k ;; take_member k) (Parser r st))).
Proof.
  intros Hr. rewrite next_text_eq. pose proof (next_end_spec k r st) as H. cbn [bind Sf_monad]. destruct (next_pos k r) as [e|u] eqn:E.
  - destruct H as [p' ->]. assert (He : e = EndAll \/ e = Bad).
    { unfold next_pos in E. destruct k; [| |injection E as <-; destruct (drop_sp r); tauto];
      (destruct (drop_ows r) as [|x w]; [injection E as <-; tauto|]); (destruct (starts "," (x :: w)); [|injection E as <-; tauto]); destruct (drop_ows (tail (x :: w))); [injection E as <-; tauto|done| injection E as <-; tauto|done]. }
    destruct He as [-> | ->]; [|apply agrees_bad]. exists EndAll, p', []. split; [done|]. split; [done|]. by left.
  - rewrite H. apply next_pos_length in E as [E1 E2]. apply member_agrees; [done|lia].
Qed.

(** The way through an inner list, parameters and the separator, by state *)
Lemma enter_at k n t :
  (enter k n ;; take_member k) (Parser t (at_op k true SFPARSE_STATE_BEFORE)) = (parser_skip_inner_list n ;; parser_skip_params n ;; next_end k ;; take_member k) (Parser t (at_op k true SFPARSE_STATE_BEFORE)) /\
  (enter k n ;; take_member k) (Parser t (at_op k false SFPARSE_STATE_BEFORE_PARAMS)) = (parser_skip_params n ;; next_end k ;; take_member k) (Parser t (at_op k false SFPARSE_STATE_BEFORE_PARAMS)) /\
  (enter k n ;; take_member k) (Parser t (at_op k false SFPARSE_STATE_AFTER)) = (next_end k ;; take_member k) (Parser t (at_op k false SFPARSE_STATE_AFTER)).
Proof.
  assert (Hassoc : forall A B C (a : Sf A) (b : Sf B) (c : Sf C) p, ((a ;; b) ;; c) p = (a ;; b ;; c) p).
  { intros A B C a b c p. cbn [bind Sf_monad]. by destruct (a p) as [[[rv|x] q]|]. }
  assert (Hassoc3 : forall A B C D (a : Sf A) (b : Sf B) (c : Sf C) (d : Sf D) p, ((a ;; b ;; c) ;; d) p = (a ;; b ;; c ;; d) p).
  { intros A B C D a b c d p. cbn [bind Sf_monad]. destruct (a p) as [[[rv|x] q]|]; [done| |done]. by destruct (b q) as [[[rv|y] q']|]. }
  split; [|split].
  - rewrite <- Hassoc3. cbn [bind Sf_monad]. by destruct k.
  - rewrite <- Hassoc. cbn [bind Sf_monad]. by destruct k.
  - cbn [bind Sf_monad]. by destruct k.
Qed.

Lemma next_member_agrees k n ph t : (length t + 2 <= n)%nat -> ph = Start \/ ph = AtInner \/ ph = AtParams false \/ ph = AfterParams false ->
  agrees k n t false (until is_member (to_come k ph t)) (do_call k n NextMember (Parser t (state_at k ph))).
Proof.
  intros Hn Hph. rewrite member_call.
  assert (Hafter : forall r, (length r <= length t)%nat -> agrees k n t false (until is_member (fst (after_member k r)))
    (answer (fun kv => Member (fst kv) (snd kv)) EndAll ((parser_skip_params n ;; next_end k ;; take_member k) (Parser r (at_op k false SFPARSE_STATE_BEFORE_PARAMS))))).
  { intros r Hr. unfold after_member. rewrite until_part by (apply (quiet_params _ (length r)); [done|done|lia]).
    pose proof (skip_params_spec (parser_skip_inner_list n) k false n SFPARSE_STATE_BEFORE_PARAMS r ltac:(lia) ltac:(by left)) as H. unfold skips in H. fold (parser_skip_params n) in H. destruct (snd (params r)) as [q|] eqn:Eq.
    - apply (params_length (length r)) in Eq; [|lia]. cbn [bind Sf_monad] in *. rewrite H. apply next_agrees. lia.
    - cbn [bind Sf_monad]. destruct H as [p' ->]. apply agrees_bad. }
  destruct Hph as [->|[->|[->| ->]]]; cbn [to_come state_at op_of].
  - assert (E : enter k n (Parser t SFPARSE_STATE_INITIAL) = match drop_sp t with [] => Some (inl (match k with Item_ => SFPARSE_ERR_PARSE | _ => SFPARSE_ERR_EOF end), Parser [] SFPARSE_STATE_INITIAL) | u => Some (inr tt, Parser u SFPARSE_STATE_INITIAL) end).
    { unfold enter, next_member, item_next, parser_discard_sp. destruct k; sf; consts; sf; fold (drop_sp t); by destruct (drop_sp t). }
    cbn [bind Sf_monad]. rewrite E. unfold events. pose proof (drop_sp_length t). destruct (drop_sp t) as [|c u].
    + destruct k; [exists EndAll, (Parser [] 0), []; split; [done|]; split; [done|]; by left..|apply agrees_bad].
    + apply member_agrees; [done|lia].
  - replace ((enter k n ;; take_member k) (Parser t (at_op k true SFPARSE_STATE_BEFORE))) with
      ((parser_skip_inner_list n ;; parser_skip_params n ;; next_end k ;; take_member k) (Parser t (at_op k true SFPARSE_STATE_BEFORE))) by (symmetry; apply enter_at).
    pose proof (skip_inner_first n k t ltac:(lia)) as H. unfold skips in H. rewrite (until_inner _ (length (drop_sp t))) by done. cbn [until is_member is_bad orb].
    destruct (snd (inner (drop_sp t))) as [r|] eqn:Er.
    + apply (inner_length (length (drop_sp t))) in Er; [|done]. pose proof (drop_sp_length t). cbn [bind Sf_monad] in *. rewrite H. apply Hafter. lia.
    + cbn [bind Sf_monad]. destruct H as [p' ->]. apply agrees_bad.
  - replace ((enter k n ;; take_member k) (Parser t (at_op k false SFPARSE_STATE_BEFORE_PARAMS))) with
      ((parser_skip_params n ;; next_end k ;; take_member k) (Parser t (at_op k false SFPARSE_STATE_BEFORE_PARAMS))) by (symmetry; apply enter_at).
    apply Hafter. lia.
  - replace ((enter k n ;; take_member k) (Parser t (at_op k false SFPARSE_STATE_AFTER))) with
      ((next_end k ;; take_member k) (Parser t (at_op k false SFPARSE_STATE_AFTER))) by (symmetry; apply enter_at).
    apply next_agrees. lia.
Qed.

Lemma agrees_le k n r t i l x : agrees k n r i l x -> (length r <= length t)%nat -> agrees k n t i l x.
Proof.
  intros (e & p & l' & -> & -> & H) Hr. do 3 eexists. split; [done|]. split; [done|]. destruct (phase_after i e); [..|done]; (destruct H as (t' & -> & -> & H1 & H2); eexists; (split; [done|]); (split; [done|]); split; [lia|done]).
Qed.

Lemma next_param k n ph i t : (length t + 2 <= n)%nat -> ph = AtInner /\ i = false \/ ph = AtParams i \/ ph = InParams i ->
  agrees k n t i (match ph with AtInner => match until is_end_inner (to_come k ph t) with EndInner :: l => l | l => l end | _ => to_come k ph t end)
    (do_call k n NextParam (Parser t (state_at k ph))).
Proof.
  intros Hn Hph. cbn [do_call]. unfold sfparse_parser_param. destruct Hph as [[-> ->]|Hph].
  - cbn [to_come state_at]. rewrite (until_inner _ (length (drop_sp t))) by done. cbn [until is_end_inner is_bad orb].
    pose proof (skip_inner_first n k t ltac:(lia)) as H. unfold skips in H.
    assert (E : param_with (parser_skip_inner_list n) (Parser t (at_op k true SFPARSE_STATE_BEFORE)) =
      (parser_skip_inner_list n ;; parser_set_op_state SFPARSE_STATE_PARAMS ;; param_next) (Parser t (at_op k true SFPARSE_STATE_BEFORE))).
    { unfold param_with, op. cbn [bind Sf_monad op_state]. rewrite at_op_op by auto. consts. cbn beta.
      by destruct (parser_skip_inner_list n _) as [[[rv|u] q]|]. }
    rewrite E. cbn [bind Sf_monad]. destruct (snd (inner (drop_sp t))) as [r|] eqn:Er; [|destruct H as [p' ->]; apply agrees_bad].
    apply (inner_length (length (drop_sp t))) in Er; [|done]. pose proof (drop_sp_length t). rewrite H, set_op_at by auto.
    change (fst (after_member k r)) with (to_come k (AtParams false) r). rewrite (to_come_params k false r) by by left. apply (agrees_le _ _ r); [|lia].
    apply (param_agrees k n false SFPARSE_STATE_PARAMS r). by right.
  - assert (Hto : match ph with AtInner => match until is_end_inner (to_come k ph t) with EndInner :: l => l | l => l end | _ => to_come k ph t end = to_come k ph t) by (by destruct Hph as [-> | ->]).
    rewrite Hto, (to_come_params k i t ph Hph).
    assert (E : param_with (parser_skip_inner_list n) (Parser t (state_at k ph)) = param_next (Parser t (at_op k i SFPARSE_STATE_PARAMS))).
    { destruct Hph as [-> | ->]; apply param_call; [by left|by right]. }
    rewrite E. apply (param_agrees k n i SFPARSE_STATE_PARAMS t). by right.
Qed.

(** ** One call, and all of them *)

Lemma call_agrees k n c ph t e ph' l' : (length t + 2 <= n)%nat -> iterate c ph (to_come k ph t) = Some (e, ph', l') ->
  exists i l, ph' = phase_after i e /\ l = e :: l' /\ agrees k n t i l (do_call k n c (Parser t (state_at k ph))).
Proof.
  intros Hn Hi.
  assert (Hhead : forall i l, head_event i l = Some (e, ph', l') -> ph' = phase_after i e /\ l = e :: l').
  { intros i [|x l]; [done|]. by intros [= -> <- ->]. }
  destruct c.
  - assert (Hph : ph = Start \/ ph = AtInner \/ ph = AtParams false \/ ph = AfterParams false) by (destruct ph as [| |[]|[]|[]|]; try done; tauto).
    assert (H : head_event false (until is_member (to_come k ph t)) = Some (e, ph', l')) by (by destruct Hph as [->|[->|[->| ->]]]).
    destruct (Hhead _ _ H) as [-> E]. do 2 eexists. split; [done|]. split; [exact E|]. by apply next_member_agrees.
  - assert (Hph : exists i, (ph = AtInner /\ i = false \/ ph = AtParams i \/ ph = InParams i) /\
      head_event i (match ph with AtInner => match until is_end_inner (to_come k ph t) with EndInner :: l => l | l => l end | _ => to_come k ph t end) = Some (e, ph', l')).
    { destruct ph as [| |i|i|i|]; try done; [exists false|exists i; tauto..]. split; [tauto|]. cbn [iterate] in Hi. by destruct (until is_end_inner _) as [|[]]. }
    destruct Hph as (i & Hph & H). destruct (Hhead _ _ H) as [-> E]. do 2 eexists. split; [done|]. split; [exact E|]. by apply next_param.
  - assert (Hph : ph = AtInner \/ ph = AtParams true \/ ph = AfterParams true) by (destruct ph as [| |[]|[]|[]|]; try done; tauto).
    assert (H : head_event true (until is_item (to_come k ph t)) = Some (e, ph', l')) by (by destruct Hph as [->|[->| ->]]).
    destruct (Hhead _ _ H) as [-> E]. do 2 eexists. split; [done|]. split; [exact E|]. by apply next_item.
Qed.

Lemma run_walk k n cs : forall ph t l, (length t + 2 <= n)%nat -> walk cs ph (to_come k ph t) = Some l -> run k n cs (Parser t (state_at k ph)) = Some l.
Proof.
  induction cs as [|c cs IH]; intros ph t l Hn Hw; [done|]. cbn [walk] in Hw. destruct (iterate c ph (to_come k ph t)) as [[[e ph'] l']|] eqn:Ei; [|done]. cbn [mbind option_bind] in Hw.
  destruct (call_agrees k n c ph t e ph' l' Hn Ei) as (i & l0 & -> & -> & e0 & p & l1 & E0 & Ec & H). injection E0 as <- <-. cbn [run]. rewrite Ec. cbn [mbind option_bind].
  destruct (phase_after i e) eqn:Ep; try (destruct H as (t' & -> & -> & Hle & Hne & Hnb); rewrite <- Ep in *; rewrite Ep in Hw;
    destruct (walk cs _ _) as [es|] eqn:Ew; [|done]; cbn [mbind option_bind] in Hw; rewrite <- Ep in Ew; apply IH in Ew; [|lia]; destruct e; try done; by rewrite Ew).
  by destruct H as [-> | ->].
Qed.

(** C39: The parser of structured fields is an iterator over the grammar of RFC 9651.
    For every text, as a dictionary, a list or an item, and all calls that a client may
    make (the next member, the next parameter, the next item of an inner list, in every
    order that the interface allows), the answers are the events of the grammar, in
    order, what is not asked for being skipped: a member with its key and value, a
    parameter, an item, the ends of those, or the error, where there is one.  No call
    reads behind the text or fails an assert, and the loops of a call end after as
    many rounds as the text has characters, and two.  An order that the interface does
    not allow (a parameter asked for before any member, an item of an inner list outside
    of one: undefined, or an assert, in the code) is not covered: there [walk] has no
    answer.  In one place the grammar is that of the code and not of RFC 9651: a text
    that is an item may be an inner list (see [SfparseGrammar]). *)
Theorem sfparse_refines k t cs l : walk cs Start (events k t) = Some l -> run k (length t + 2) cs (sfparse_parser_init t) = Some l.
Proof. intros H. by apply (run_walk k _ cs Start t l). Qed.

Lemma sfparse_refines_witness :
  let t := chars "u=1, a=(x 2.5;q);p=:YQ==:, i" in
  run Dict (length t + 2) [NextMember; NextMember; NextItem; NextItem; NextParam; NextParam; NextItem; NextParam; NextParam; NextMember; NextMember] (sfparse_parser_init t) =
    Some [Member (chars "u") (SfInteger 1); Member (chars "a") SfInnerList; Item (SfToken (chars "x")); Item (SfDecimal 25 10); Param (chars "q") (SfBoolean true); EndParams; EndInner;
          Param (chars "p") (SfByteseq (chars "YQ==")); EndParams; Member (chars "i") (SfBoolean true); EndAll] /\
  run Dict (length t + 2) [NextMember; NextMember; NextMember; NextParam; NextMember] (sfparse_parser_init t) =
    Some [Member (chars "u") (SfInteger 1); Member (chars "a") SfInnerList; Member (chars "i") (SfBoolean true); EndParams; EndAll].
Proof. split; apply sfparse_refines; vm_compute; reflexivity. Defined.
