(* ===== verification/SfparseText.v ===== *)
(** * Structured field values: strings written and read back

    [sf_values_roundtrip]: every string of printable characters, every row of bytes and
    every UTF-8 string, written as RFC 9651 (section 4.1) writes it, is read by
    [sfparse.c] as one value, from which its three decoders give back the string. *)

From stdpp Require Import list.
From S2P Require Import Prelude CLib NgBuf HuffTable Huffman HuffSpec HpackInt NgHelper Sfparse SfparseGrammar.

(** ** Writing *)

Fixpoint escape (s : list char) : list char :=
  match s with
  | [] => []
  | c :: s => if Ascii.eqb c dquote || Ascii.eqb c backslash then backslash :: c :: escape s else c :: escape s
  end.

Definition alphabet : list char := chars "ABCDEFGHIJKLMNOPQRSTUVWXYZabcdefghijklmnopqrstuvwxyz0123456789+/".
Definition sextet (n : Z) : char := nth (Z.to_nat n) alphabet "A"%char.

(** RFC 4648, section 4, with the padding or without *)
Fixpoint base64 (pad : bool) (l : list char) : list char :=
  match l with
  | [] => []
  | [x] => sextet (bval x / 4) :: sextet (bval x mod 4 * 16) :: if pad then chars "==" else []
  | [x; y] => sextet (bval x / 4) :: sextet (bval x mod 4 * 16 + bval y / 16) :: sextet (bval y mod 16 * 4) :: if pad then chars "=" else []
  | x :: y :: z :: l =>
      sextet (bval x / 4) :: sextet (bval x mod 4 * 16 + bval y / 16) :: sextet (bval y mod 16 * 4 + bval z / 64) :: sextet (bval z mod 64) :: base64 pad l
  end.

Definition hex (n : Z) : char := nth (Z.to_nat n) (chars "0123456789abcdef") "0"%char.
Definition plain (c : char) : bool := (32 <=? bval c) && (bval c <=? 126) && negb (Ascii.eqb c dquote) && negb (Ascii.eqb c "%").
Fixpoint percent (l : list char) : list char :=
  match l with
  | [] => []
  | c :: l => if plain c then c :: percent l else "%"%char :: hex (bval c / 16) :: hex (bval c mod 16) :: percent l
  end.

(** ** Strings *)

Lemma quoted_escape s r : Forall (fun c => 32 <= bval c <= 126) s -> quoted (escape s ++ dquote :: r) = Some (escape s, r) /\ sfparse_unescape (escape s) = Some s.
Proof.
  induction 1 as [|c s Hc Hs [IH1 IH2]]; [done|]. cbn [escape].
  destruct (Ascii.eqb_spec c dquote) as [->|Hq]; [|destruct (Ascii.eqb_spec c backslash) as [->|Hb]].
  - cbn [orb app quoted Ascii.eqb Bool.eqb dquote backslash]. split; [by rewrite IH1|]. cbn [sfparse_unescape Ascii.eqb Bool.eqb backslash]. by rewrite IH2.
  - cbn [orb app quoted Ascii.eqb Bool.eqb dquote backslash]. split; [by rewrite IH1|]. cbn [sfparse_unescape Ascii.eqb Bool.eqb backslash]. by rewrite IH2.
  - cbn [orb app quoted sfparse_unescape]. rewrite (proj2 (Ascii.eqb_neq _ _) Hq), (proj2 (Ascii.eqb_neq _ _) Hb), IH2.
    rewrite (proj2 (Z.leb_le 32 _)), (proj2 (Z.leb_le _ 126)) by lia. cbn [andb]. by rewrite IH1.
Qed.

(** ** Byte sequences *)

Lemma sextet_spec n : 0 <= n < 64 -> base64_char (sextet n) = true /\ of_table index_tbl (sextet n) = Some n.
Proof.
  intros H. assert (E : (base64_char (sextet n) && bool_decide (of_table index_tbl (sextet n) = Some n)) = true).
  { assert (Hall : forallb (fun i => base64_char (sextet (Z.of_nat i)) && bool_decide (of_table index_tbl (sextet (Z.of_nat i)) = Some (Z.of_nat i))) (List.seq 0 64) = true) by by vm_compute.
    rewrite forallb_forall in Hall. specialize (Hall (Z.to_nat n)). rewrite Z2Nat.id in Hall by lia. apply Hall, in_seq. lia. }
  apply andb_true_iff in E as [E1 E2]. split; [done|]. by apply bool_decide_eq_true_1 in E2.
Qed.

Lemma index_sextet t i n : t !! i = Some (sextet n) -> 0 <= n < 64 -> base64_index t i = Some n.
Proof.
  intros Ht Hn. unfold base64_index. rewrite Ht. cbn [mbind option_bind]. rewrite (proj2 (sextet_spec n Hn)). cbn [mbind option_bind]. by rewrite (proj2 (Z.eqb_neq _ _)) by lia.
Qed.

Lemma three_steps {A} (P : list A -> Prop) : P [] -> (forall x, P [x]) -> (forall x y, P [x; y]) -> (forall x y z l, P l -> P (x :: y :: z :: l)) -> forall l, P l.
Proof.
  intros H0 H1 H2 H3 l. assert (H : forall n l, (length l <= n)%nat -> P l); [|by apply (H (length l))]. clear l.
  induction n as [|n IH]; intros [|x [|y [|z l]]] Hn; try done; [cbn in Hn; lia..|]. apply H3, IH. cbn in Hn. lia.
Qed.

(** The characters of an encoding: those of the alphabet, then the padding *)
Lemma base64_shape pad l : exists b p, base64 pad l = b ++ p /\ Forall (fun c => base64_char c = true) b /\
  (p = [] /\ (length b mod 4 <> 1)%nat \/ p = chars "==" /\ (length b mod 4 = 2)%nat \/ p = chars "=" /\ (length b mod 4 = 3)%nat).
Proof.
  induction l as [|x|x y|x y z l (b & p & E & Hb & Hp)] using three_steps.
  - exists [], []. split; [done|]. split; [done|]. by left.
  - exists [sextet (bval x / 4); sextet (bval x mod 4 * 16)], (if pad then chars "==" else []). pose proof (bval_range x).
    split; [done|]. split; [repeat constructor; apply sextet_spec; Z.div_mod_to_equations; lia|]. destruct pad; [right; by left|by left].
  - exists [sextet (bval x / 4); sextet (bval x mod 4 * 16 + bval y / 16); sextet (bval y mod 16 * 4)], (if pad then chars "=" else []). pose proof (bval_range x). pose proof (bval_range y).
    split; [done|]. split; [repeat constructor; apply sextet_spec; Z.div_mod_to_equations; lia|]. destruct pad; [right; by right|by left].
  - pose proof (bval_range x). pose proof (bval_range y). pose proof (bval_range z). cbn [base64]. rewrite E. eexists (_ :: _ :: _ :: _ :: b), p. split; [done|]. split.
    + repeat (constructor; [apply sextet_spec; Z.div_mod_to_equations; lia|]). done.
    + cbn [length]. replace (S (S (S (S (length b))))) with (length b + 1 * 4)%nat by lia. by rewrite Nat.Div0.mod_add.
Qed.

Lemma span_app f (b r : list char) : Forall (fun c => f c = true) b -> match r with c :: _ => f c = false | [] => True end -> take_while f (b ++ r) = b /\ drop_while f (b ++ r) = r.
Proof.
  intros Hb Hr. induction Hb as [|c b Hc Hb [IH1 IH2]]; cbn [app take_while drop_while].
  - destruct r as [|c r]; [done|]. cbn. by rewrite Hr.
  - rewrite Hc. by rewrite IH1, IH2.
Qed.

Lemma byteseq_base64 pad l r : byteseq (base64 pad l ++ ":"%char :: r) = Some (base64 pad l, r).
Proof.
  destruct (base64_shape pad l) as (b & p & -> & Hb & Hp). rewrite <- app_assoc. unfold byteseq.
  destruct (span_app base64_char b (p ++ ":"%char :: r) Hb) as [E1 E2]; [by destruct Hp as [[-> _]|[[-> _]|[-> _]]]|]. rewrite E1, E2.
  destruct Hp as [[-> H]|[[-> H]|[-> H]]]; cbn [app chars String.list_ascii_of_string Ascii.eqb Bool.eqb andb].
  - rewrite (proj2 (Nat.eqb_neq _ _)) by done. by rewrite app_nil_r.
  - by rewrite H.
  - by rewrite H.
Qed.

(** Three bytes in a group *)
Lemma group_bytes x y z l k t : base64_groups k t = Some l ->
  base64_groups (S k) (sextet (bval x / 4) :: sextet (bval x mod 4 * 16 + bval y / 16) :: sextet (bval y mod 16 * 4 + bval z / 64) :: sextet (bval z mod 64) :: t) = Some (x :: y :: z :: l).
Proof.
  intros H. pose proof (bval_range x). pose proof (bval_range y). pose proof (bval_range z). cbn [base64_groups skipn].
  rewrite (index_sextet _ 0 (bval x / 4)), (index_sextet _ 1 (bval x mod 4 * 16 + bval y / 16)), (index_sextet _ 2 (bval y mod 16 * 4 + bval z / 64)), (index_sextet _ 3 (bval z mod 64))
    by (done || (Z.div_mod_to_equations; lia)). cbn [mbind option_bind]. change (drop 0 t) with t. rewrite H. cbn [mbind option_bind].
  rewrite !Z.shiftl_mul_pow2, !Z.shiftr_div_pow2 by lia.
  assert (Hb : forall n c, n mod 256 = bval c -> uint8 n = c) by (intros n c E; by rewrite <- uint8_mod, E, uint8_bval).
  f_equal. f_equal; [|f_equal; [|f_equal]]; apply Hb; Z.div_mod_to_equations; lia.
Qed.

(** An encoding: whole groups, and what is left *)
Lemma base64_split pad l : exists k q l0 rest, base64 pad l = q ++ base64 pad rest /\ length q = (4 * k)%nat /\ l = l0 ++ rest /\ (length rest < 3)%nat /\
  Forall (fun c => base64_char c = true) q /\ forall u, base64_groups k (q ++ u) = Some l0.
Proof.
  induction l as [|x|x y|x y z l (k & q & l0 & rest & E & Hq & El & Hr & Hc & Hg)] using three_steps.
  - exists 0%nat, [], [], []. repeat (split; [done || (cbn; lia)|]). done.
  - exists 0%nat, [], [], [x]. repeat (split; [done || (cbn; lia)|]). done.
  - exists 0%nat, [], [], [x; y]. repeat (split; [done || (cbn; lia)|]). done.
  - pose proof (bval_range x). pose proof (bval_range y). pose proof (bval_range z). cbn [base64]. rewrite E.
    eexists (S k), (_ :: _ :: _ :: _ :: q), (x :: y :: z :: l0), rest. split; [done|]. split; [cbn [length]; lia|]. split; [by rewrite El|]. split; [done|]. split.
    + repeat (constructor; [apply sextet_spec; Z.div_mod_to_equations; lia|]). done.
    + intros u. cbn [app]. by apply group_bytes.
Qed.

Lemma decode_split q t k l0 left : length q = (4 * k)%nat -> base64_groups k (q ++ t) = Some l0 ->
  last_group (q ++ t) = Z.of_nat (length t) -> without_padding (Z.of_nat (length t)) (q ++ t) = left -> length t <> 1%nat ->
  sfparse_base64decode (q ++ t) = (l' ← base64_rest left t; Some (l0 ++ l')).
Proof.
  intros Hq Hg Hl Hw H1. unfold sfparse_base64decode. rewrite Hl, Hw, length_app, Nat2Z.id, Nat.add_sub, Hq, (Nat.mul_comm 4), Nat.div_mul, Hg by lia.
  rewrite (Nat.mul_comm k), <- Hq, drop_app_length, (proj2 (Z.eqb_neq (Z.of_nat (length t)) 1)) by lia. cbn [mbind option_bind].
  destruct (Nat.eqb_spec (length q + length t) 0) as [E|E]; [|done]. destruct q; [|cbn in E; lia]. destruct t; [|cbn in E; lia]. cbn in Hq. destruct k; [|lia].
  injection Hg as <-. cbn in Hw. by subst left.
Qed.

(** Which case it is, from the characters of the last group. *)
Lemma group_cases q t k : length q = (4 * k)%nat -> Forall (fun c => base64_char c = true) q ->
  let padding i := is_padding (t !! i) in
  match length t with
  | 0%nat => last_group (q ++ t) = 0 /\ without_padding 0 (q ++ t) = 0
  | 2%nat => last_group (q ++ t) = 2 /\ without_padding 2 (q ++ t) = 2
  | 3%nat => last_group (q ++ t) = 3 /\ without_padding 3 (q ++ t) = if padding 2%nat then 2 else 3
  | 4%nat => padding 3%nat = true -> last_group (q ++ t) = 4 /\ without_padding 4 (q ++ t) = if padding 2%nat then 2 else 3
  | _ => True
  end.
Proof.
  intros Hq Hc padding. unfold last_group, without_padding. rewrite length_app, Hq.
  assert (Hmod : forall n, Z.land (Z.of_nat (4 * k + n)) 3 = Z.of_nat (n mod 4)) by (intros n; rewrite land3; f_equal; rewrite Nat.add_comm, Nat.mul_comm; apply Nat.Div0.mod_add).
  assert (Hat : forall i, (q ++ t) !! (4 * k + i)%nat = t !! i) by (intros i; rewrite lookup_app_r by lia; f_equal; lia).
  rewrite Hmod. destruct (length t) as [|[|[|[|[|n]]]]] eqn:E; try done; cbn [Nat.modulo Nat.divmod snd Nat.sub Z.of_nat Pos.of_succ_nat Pos.succ Z.eqb Pos.eqb andb].
  - apply nil_length_inv in E. subst t. rewrite app_nil_r, Nat.add_0_r. assert (Hp : is_padding (q !! (4 * k - 1)%nat) = false).
    { destruct (q !! (4 * k - 1)%nat) as [c|] eqn:Ec; [|done]. apply (Forall_lookup_1 _ _ _ _ Hc) in Ec. cbn. destruct (Ascii.eqb_spec c "=") as [->|]; done. }
    by rewrite Hp.
  - replace (4 * k + 3 - 1)%nat with (4 * k + 2)%nat by lia. by rewrite Hat.
  - replace (4 * k + 4 - 1)%nat with (4 * k + 3)%nat by lia. replace (4 * k + 4 - 2)%nat with (4 * k + 2)%nat by lia. rewrite !Hat. intros Hp. unfold padding in *. by rewrite Hp.
Qed.

Lemma base64_decode pad l : sfparse_base64decode (base64 pad l) = Some l.
Proof.
  destruct (base64_split pad l) as (k & q & l0 & rest & -> & Hq & -> & Hr & Hc & Hg). pose proof (group_cases q (base64 pad rest) k Hq Hc) as H. cbv zeta in H.
  assert (Hb : forall n c, n mod 256 = bval c -> uint8 n = c) by (intros n c E; by rewrite <- uint8_mod, E, uint8_bval).
  assert (Heq : forall n, 0 <= n < 64 -> Ascii.eqb (sextet n) "=" = false).
  { intros n Hn. pose proof (proj1 (sextet_spec n Hn)) as E. by destruct (Ascii.eqb_spec (sextet n) "=") as [E'|]; [rewrite E' in E|]. }
  destruct rest as [|x [|y [|z rest]]]; cbn [length] in Hr; [..|lia].
  - change (base64 pad []) with (@nil char) in *. rewrite (decode_split q [] k l0 0) by (done || apply H). done.
  - pose proof (bval_range x) as Hx.
    assert (E : base64_rest 2 (base64 pad [x]) = Some [x]).
    { unfold base64_rest. cbn [Z.eqb Pos.eqb base64]. rewrite (index_sextet _ 0 (bval x / 4)), (index_sextet _ 1 (bval x mod 4 * 16)) by (done || (Z.div_mod_to_equations; lia)). cbn [mbind option_bind].
      rewrite Z.shiftl_mul_pow2, Z.shiftr_div_pow2 by lia. do 2 f_equal. apply Hb. unfold u8.
      replace (Z.lor _ _) with (bval x); [by rewrite Z.mod_small by lia|]. rewrite Z.lor_comm.
      replace ((bval x / 4 * 2 ^ 2) mod 2 ^ 8) with (Z.shiftl (bval x / 4) 2) by (rewrite Z.shiftl_mul_pow2 by lia; Z.div_mod_to_equations; lia).
      rewrite lor_add by (Z.div_mod_to_equations; lia). Z.div_mod_to_equations; lia. }
    destruct pad; rewrite (decode_split q _ k l0 2); try done; try (by apply H); by rewrite E.
  - pose proof (bval_range x) as Hx. pose proof (bval_range y) as Hy.
    assert (E : base64_rest 3 (base64 pad [x; y]) = Some [x; y]).
    { unfold base64_rest. cbn [Z.eqb Pos.eqb base64]. rewrite (index_sextet _ 0 (bval x / 4)), (index_sextet _ 1 (bval x mod 4 * 16 + bval y / 16)), (index_sextet _ 2 (bval y mod 16 * 4)) by (done || (Z.div_mod_to_equations; lia)).
      cbn [mbind option_bind]. rewrite !Z.shiftl_mul_pow2, !Z.shiftr_div_pow2 by lia. do 2 f_equal; [|f_equal]; apply Hb; Z.div_mod_to_equations; lia. }
    assert (H2 : is_padding (base64 pad [x; y] !! 2%nat) = false) by (cbn; apply Heq; Z.div_mod_to_equations; lia). rewrite H2 in H.
    destruct pad; rewrite (decode_split q _ k l0 3); try done; try (by apply H); by rewrite E.
Qed.

(** ** Display strings *)

Lemma hex_pair c : pctdecode (hex (bval c / 16)) (hex (bval c mod 16)) = Some (bval c).
Proof. revert c. by_every_char. Qed.

Lemma display_percent l r : display (percent l ++ dquote :: r) = Some (percent l, map bval l, r) /\ sfparse_pctdecode (percent l) = Some l.
Proof.
  induction l as [|c l [IH1 IH2]]; [done|]. cbn [percent map]. destruct (plain c) eqn:Hp.
  - unfold plain in Hp. apply andb_true_iff in Hp as [Hp H2]. apply andb_true_iff in Hp as [Hp H1]. apply negb_true_iff in H1, H2. cbn [app display sfparse_pctdecode]. rewrite H1, H2, Hp, IH1, IH2. done.
  - cbn [app display sfparse_pctdecode]. change (Ascii.eqb "%" dquote) with false. rewrite Ascii.eqb_refl, !hex_pair. cbn [mbind option_bind]. rewrite IH1, IH2. cbn [mbind option_bind]. by rewrite uint8_bval.
Qed.

(** ** All three *)

(** A text that is read as one value, whose string decodes to [s] *)
Definition reads_as (text : list char) (v : list char -> sfparse_value) (decode : sfparse_vec -> option (list char)) (s : list char) : Prop :=
  forall r st, exists b, parser_bare_item (Parser (text ++ r) st) = Some (inr (v b), Parser r st) /\ decode b = Some s.

Lemma reads_as_grammar text v decode s b : text <> [] -> (forall r, bare_item (text ++ r) = Some (v b, r)) -> decode b = Some s -> reads_as text v decode s.
Proof.
  intros Ht H Hd r st. exists b. split; [|done]. pose proof (bare_item_gives st (text ++ r)) as G. unfold gives in G. rewrite H in G. apply G. by destruct text.
Qed.

Lemma existsb_escape s : existsb (Ascii.eqb backslash) (escape s) = existsb (fun c => Ascii.eqb c dquote || Ascii.eqb c backslash) s.
Proof.
  induction s as [|c s IH]; [done|]. cbn [escape existsb]. destruct (Ascii.eqb_spec c dquote) as [->|Hq]; [done|]. destruct (Ascii.eqb_spec c backslash) as [->|Hb]; [done|].
  cbn [orb existsb]. rewrite IH. by rewrite (proj2 (Ascii.eqb_neq backslash c)) by done.
Qed.

(** C40: Strings survive the way through a structured field.  What RFC 9651 writes for a
    string of printable characters (quotes and backslashes escaped), for any row of
    bytes (Base64, with the padding or without) and for any UTF-8 string (a display
    string, in which every byte that cannot stand for itself is percent-encoded) is read
    by the parser as one value of that kind, whatever follows it; and the decoder for
    the kind, given the string that the value points to, gives back what was written. *)
Theorem sf_values_roundtrip :
  (forall s, Forall (fun c => 32 <= bval c <= 126) s ->
     reads_as (dquote :: escape s ++ [dquote]) (SfString (existsb (fun c => Ascii.eqb c dquote || Ascii.eqb c backslash) s)) sfparse_unescape s) /\
  (forall pad l, reads_as (":"%char :: base64 pad l ++ chars ":") SfByteseq sfparse_base64decode l) /\
  (forall l, utf8 (map bval l) = true -> reads_as ("%"%char :: dquote :: percent l ++ [dquote]) SfDispstring sfparse_pctdecode l).
Proof.
  split; [|split].
  - intros s Hs. destruct (quoted_escape s [] Hs) as [_ Hd]. apply (reads_as_grammar _ _ _ _ (escape s)); [done| |done]. intros r. cbn [app]. rewrite <- app_assoc. cbn [bare_item app]. rewrite Ascii.eqb_refl.
    rewrite (proj1 (quoted_escape s r Hs)). cbn [mbind option_bind]. by rewrite existsb_escape.
  - intros pad l. apply (reads_as_grammar _ _ _ _ (base64 pad l)); [done| |apply base64_decode]. intros r. cbn [app]. rewrite <- app_assoc.
    change (bare_item (":"%char :: base64 pad l ++ chars ":" ++ r)) with ('(b, r) ← byteseq (base64 pad l ++ ":"%char :: r); Some (SfByteseq b, r)). by rewrite byteseq_base64.
  - intros l Hl. destruct (display_percent l []) as [_ Hd]. apply (reads_as_grammar _ _ _ _ (percent l)); [done| |done]. intros r. cbn [app]. rewrite <- app_assoc.
    change (bare_item ("%"%char :: dquote :: percent l ++ [dquote] ++ r)) with ('(s, l, r) ← display (percent l ++ dquote :: r); if utf8 l then Some (SfDispstring s, r) else None).
    rewrite (proj1 (display_percent l r)). cbn [mbind option_bind]. by rewrite Hl.
Qed.

Lemma sf_values_roundtrip_witness :
  reads_as (dquote :: escape (dquote :: chars "a\b") ++ [dquote]) (SfString true) sfparse_unescape (dquote :: chars "a\b") /\
  reads_as (chars ":aGVsbG8=:") SfByteseq sfparse_base64decode (chars "hello") /\
  reads_as ("%"%char :: dquote :: chars "f%c3%bc" ++ [dquote]) SfDispstring sfparse_pctdecode (map uint8 [102; 195; 188]).
Proof.
  destruct sf_values_roundtrip as (H1 & H2 & H3). split; [|split].
  - apply (H1 (dquote :: chars "a\b")). repeat constructor; vm_compute; discriminate.
  - apply (H2 true (chars "hello")).
  - apply (H3 (map uint8 [102; 195; 188])). vm_compute. reflexivity.
Defined.
