(* ===== verification/NgHttp.v ===== *)
(** * The semantics of HTTP in HTTP/2: [nghttp2_http.c]

    Which header fields a request, a response or a trailer may have (RFC 9113, section
    8), and the length that a message announces.  A field is its name, its value and the
    token of its name; a stream remembers in [http_flags] what it has seen.

    Reading behind the end of a string makes the result [None], and so does the assert. *)

From stdpp Require Import list.
From S2P Require Import Prelude CLib NgBuf HdStatic HdTable NgFrame NgHelper NgStream Sfparse.

(** ** Constants: [nghttp2.h], [nghttp2_int.h], [nghttp2_stream.h] *)

Definition NGHTTP2_ERR_HTTP_HEADER : Z := -531.
Definition NGHTTP2_ERR_IGN_HTTP_HEADER : Z := -105.
Definition NGHTTP2_ERR_REMOVE_HTTP_HEADER : Z := -106.

Definition NGHTTP2_STREAM_FLAG_NO_RFC9113_LEADING_AND_TRAILING_WS_VALIDATION : Z := 64.

Definition NGHTTP2_HTTP_FLAG__AUTHORITY : Z := 1.
Definition NGHTTP2_HTTP_FLAG__PATH : Z := Z.shiftl 1 1.
Definition NGHTTP2_HTTP_FLAG__METHOD : Z := Z.shiftl 1 2.
Definition NGHTTP2_HTTP_FLAG__SCHEME : Z := Z.shiftl 1 3.
Definition NGHTTP2_HTTP_FLAG_HOST : Z := Z.shiftl 1 4.
Definition NGHTTP2_HTTP_FLAG__STATUS : Z := Z.shiftl 1 5.
Definition NGHTTP2_HTTP_FLAG_REQ_HEADERS : Z := Z.lor (Z.lor NGHTTP2_HTTP_FLAG__METHOD NGHTTP2_HTTP_FLAG__PATH) NGHTTP2_HTTP_FLAG__SCHEME.
Definition NGHTTP2_HTTP_FLAG_PSEUDO_HEADER_DISALLOWED : Z := Z.shiftl 1 6.
Definition NGHTTP2_HTTP_FLAG_METH_CONNECT : Z := Z.shiftl 1 7.
Definition NGHTTP2_HTTP_FLAG_METH_HEAD : Z := Z.shiftl 1 8.
Definition NGHTTP2_HTTP_FLAG_METH_OPTIONS : Z := Z.shiftl 1 9.
Definition NGHTTP2_HTTP_FLAG_METH_UPGRADE_WORKAROUND : Z := Z.shiftl 1 10.
Definition NGHTTP2_HTTP_FLAG_METH_ALL : Z :=
  Z.lor (Z.lor (Z.lor NGHTTP2_HTTP_FLAG_METH_CONNECT NGHTTP2_HTTP_FLAG_METH_HEAD) NGHTTP2_HTTP_FLAG_METH_OPTIONS) NGHTTP2_HTTP_FLAG_METH_UPGRADE_WORKAROUND.
Definition NGHTTP2_HTTP_FLAG_PATH_REGULAR : Z := Z.shiftl 1 11.
Definition NGHTTP2_HTTP_FLAG_PATH_ASTERISK : Z := Z.shiftl 1 12.
Definition NGHTTP2_HTTP_FLAG_SCHEME_HTTP : Z := Z.shiftl 1 13.
Definition NGHTTP2_HTTP_FLAG_EXPECT_FINAL_RESPONSE : Z := Z.shiftl 1 14.
Definition NGHTTP2_HTTP_FLAG__PROTOCOL : Z := Z.shiftl 1 15.
Definition NGHTTP2_HTTP_FLAG_PRIORITY : Z := Z.shiftl 1 16.
Definition NGHTTP2_HTTP_FLAG_BAD_PRIORITY : Z := Z.shiftl 1 17.

Definition INT64_MAX : Z := 2 ^ 63 - 1.

(** ** The fields of a stream that belong to HTTP *)

Definition set_content_length (v : Z) (s : nghttp2_stream) : nghttp2_stream :=
  Stream (state s) v (recv_content_length s) (cycle s) (seq s) (closed_next s) (stream_user_data s) (item s) (last_writelen s) (stream_id s) (remote_window_size s) (recv_window_size s) (consumed_size s) (recv_reduction s) (local_window_size s) (pending_penalty s) (status_code s) (http_flags s) (flags s) (shut_flags s) (queued s) (window_update_queued s) (extpri s) (http_extpri s).
Definition set_recv_content_length (v : Z) (s : nghttp2_stream) : nghttp2_stream :=
  Stream (state s) (content_length s) v (cycle s) (seq s) (closed_next s) (stream_user_data s) (item s) (last_writelen s) (stream_id s) (remote_window_size s) (recv_window_size s) (consumed_size s) (recv_reduction s) (local_window_size s) (pending_penalty s) (status_code s) (http_flags s) (flags s) (shut_flags s) (queued s) (window_update_queued s) (extpri s) (http_extpri s).
Definition set_status_code (v : Z) (s : nghttp2_stream) : nghttp2_stream :=
  Stream (state s) (content_length s) (recv_content_length s) (cycle s) (seq s) (closed_next s) (stream_user_data s) (item s) (last_writelen s) (stream_id s) (remote_window_size s) (recv_window_size s) (consumed_size s) (recv_reduction s) (local_window_size s) (pending_penalty s) v (http_flags s) (flags s) (shut_flags s) (queued s) (window_update_queued s) (extpri s) (http_extpri s).
Definition set_http_flags (v : Z) (s : nghttp2_stream) : nghttp2_stream :=
  Stream (state s) (content_length s) (recv_content_length s) (cycle s) (seq s) (closed_next s) (stream_user_data s) (item s) (last_writelen s) (stream_id s) (remote_window_size s) (recv_window_size s) (consumed_size s) (recv_reduction s) (local_window_size s) (pending_penalty s) (status_code s) v (flags s) (shut_flags s) (queued s) (window_update_queued s) (extpri s) (http_extpri s).
Definition set_http_extpri (v : Z) (s : nghttp2_stream) : nghttp2_stream :=
  Stream (state s) (content_length s) (recv_content_length s) (cycle s) (seq s) (closed_next s) (stream_user_data s) (item s) (last_writelen s) (stream_id s) (remote_window_size s) (recv_window_size s) (consumed_size s) (recv_reduction s) (local_window_size s) (pending_penalty s) (status_code s) (http_flags s) (flags s) (shut_flags s) (queued s) (window_update_queued s) (extpri s) v.

Definition add_http_flag (flag : Z) (s : nghttp2_stream) : nghttp2_stream := set_http_flags (Z.lor (http_flags s) flag) s.

(** ** Strings *)

Definition downcase (c : char) : Z := if (65 <=? bval c) && (bval c <=? 90) then bval c - 65 + 97 else bval c.

(** [memieq] of the [n] bytes of both. *)
Fixpoint memieq (a b : list char) (n : nat) : option bool :=
  match n, a, b with
  | O, _, _ => Some true
  | S n, x :: a, y :: b => if negb (downcase x =? downcase y) then Some false else memieq a b n
  | _, _, _ => None
  end.

Definition lstrieq (a b : list char) : option bool := if (length a =? length b)%nat then memieq a b (length b) else Some false.

(** [lstreq] *)
Definition lstreq (a b : list char) : bool := (length a =? length b)%nat && (memcmp a b (length b) =? 0).

(** The loop of [parse_uint] *)
Fixpoint parse_digits (s : list char) (n : Z) : Z :=
  match s with
  | [] => n
  | c :: s =>
      if (48 <=? bval c) && (bval c <=? 57) then
        if INT64_MAX / 10 <? n then -1 else
        let n := n * 10 in
        if INT64_MAX - (bval c - 48) <? n then -1 else
        parse_digits s (n + (bval c - 48))
      else -1
  end.

Definition parse_uint (s : list char) : Z := match s with [] => -1 | _ => parse_digits s 0 end.

Definition first_is (s : list char) (c : char) : bool := match s with x :: _ => Ascii.eqb x c | [] => false end.

Definition check_scheme (value : list char) : bool :=
  match value with
  | [] => false
  | c :: rest =>
      (is_upper c || is_lower c) &&
      forallb (fun c => is_upper c || is_lower c || is_num c || Ascii.eqb c "+" || Ascii.eqb c "-" || Ascii.eqb c ".") rest
  end.

Definition lws (s : list char) : bool := forallb (fun c => Ascii.eqb c " " || Ascii.eqb c "009") s.

Definition http_VALID_AUTHORITY_CHARS : list Z := [
  0; 0; 0; 0; 0; 0; 0; 0; 0; 0; 0; 0; 0; 0; 0; 0; 0; 0; 0; 0; 0; 0; 0; 0; 0; 0; 0; 0; 0; 0; 0; 0;
  0; 1; 0; 0; 1; 1; 1; 1; 1; 1; 1; 1; 1; 1; 1; 0; 1; 1; 1; 1; 1; 1; 1; 1; 1; 1; 1; 1; 0; 1; 0; 0;
  0; 1; 1; 1; 1; 1; 1; 1; 1; 1; 1; 1; 1; 1; 1; 1; 1; 1; 1; 1; 1; 1; 1; 1; 1; 1; 1; 1; 0; 1; 0; 1;
  0; 1; 1; 1; 1; 1; 1; 1; 1; 1; 1; 1; 1; 1; 1; 1; 1; 1; 1; 1; 1; 1; 1; 1; 1; 1; 1; 0; 0; 0; 1; 0;
  0; 0; 0; 0; 0; 0; 0; 0; 0; 0; 0; 0; 0; 0; 0; 0; 0; 0; 0; 0; 0; 0; 0; 0; 0; 0; 0; 0; 0; 0; 0; 0;
  0; 0; 0; 0; 0; 0; 0; 0; 0; 0; 0; 0; 0; 0; 0; 0; 0; 0; 0; 0; 0; 0; 0; 0; 0; 0; 0; 0; 0; 0; 0; 0;
  0; 0; 0; 0; 0; 0; 0; 0; 0; 0; 0; 0; 0; 0; 0; 0; 0; 0; 0; 0; 0; 0; 0; 0; 0; 0; 0; 0; 0; 0; 0; 0;
  0; 0; 0; 0; 0; 0; 0; 0; 0; 0; 0; 0; 0; 0; 0; 0; 0; 0; 0; 0; 0; 0; 0; 0; 0; 0; 0; 0; 0; 0; 0; 0
].

Definition check_authority (value : list char) : option bool := all_in http_VALID_AUTHORITY_CHARS value.

(** ** Priorities *)

Definition NGHTTP2_EXTPRI_URGENCY_HIGH : Z := 0.

(** The body of the loop: a member of the dictionary *)
Definition priority_member (key : sfparse_vec) (val : sfparse_value) (pri : nghttp2_extpri) : option nghttp2_extpri :=
  if negb (length key =? 1)%nat then Some pri else
  if first_is key "i" then
    match val with SfBoolean b => Some (Extpri (urgency pri) b) | _ => None end
  else if first_is key "u" then
    match val with
    | SfInteger n => if (n <? NGHTTP2_EXTPRI_URGENCY_HIGH) || (NGHTTP2_EXTPRI_URGENCY_LOW <? n) then None else Some (Extpri n (inc pri))
    | _ => None
    end
  else Some pri.

(** [for (;;)]: what is returned and, at the end, [pri]; [depth] is the fuel of the
    parser's functions, [fuel] bounds the rounds. *)
Fixpoint priority_loop (fuel depth : nat) (sfp : sfparse_parser) (pri : nghttp2_extpri) : option (Z * nghttp2_extpri) :=
  match fuel with
  | O => None
  | S fuel =>
      match sfparse_parser_dict depth sfp with
      | None => None
      | Some (inl rv, _) => if rv =? SFPARSE_ERR_EOF then Some (0, pri) else Some (NGHTTP2_ERR_INVALID_ARGUMENT, pri)
      | Some (inr (key, val), sfp) =>
          match priority_member key val pri with
          | None => Some (NGHTTP2_ERR_INVALID_ARGUMENT, pri)
          | Some pri => priority_loop fuel depth sfp pri
          end
      end
  end.

(** A round reads at least a character. *)
Definition nghttp2_http_parse_priority (dest : nghttp2_extpri) (value : list char) : option (Z * nghttp2_extpri) :=
  r ← priority_loop (S (length value)) (length value + 2) (sfparse_parser_init value) dest;
  let '(rv, pri) := r in
  if rv =? 0 then Some (0, pri) else Some (rv, dest).

(** ** Fields *)

Definition check_pseudo_header (s : nghttp2_stream) (value : list char) (flag : Z) : bool * nghttp2_stream :=
  if has (http_flags s) flag || (length value =? 0)%nat then (false, s) else (true, add_http_flag flag s).

Definition expect_response_body (s : nghttp2_stream) : bool :=
  negb (has (http_flags s) NGHTTP2_HTTP_FLAG_METH_HEAD) && negb (Z.quot (status_code s) 100 =? 1) && negb (status_code s =? 304) && negb (status_code s =? 204).

Definition check_path (s : nghttp2_stream) : bool :=
  negb (has (http_flags s) NGHTTP2_HTTP_FLAG_SCHEME_HTTP) ||
  (has (http_flags s) NGHTTP2_HTTP_FLAG_PATH_REGULAR ||
   (has (http_flags s) NGHTTP2_HTTP_FLAG_METH_OPTIONS && has (http_flags s) NGHTTP2_HTTP_FLAG_PATH_ASTERISK)).

(** Fields that have no place in HTTP/2 *)
Definition disallowed (token : Z) : bool :=
  (token =? NGHTTP2_TOKEN_CONNECTION) || (token =? NGHTTP2_TOKEN_KEEP_ALIVE) || (token =? NGHTTP2_TOKEN_PROXY_CONNECTION) ||
  (token =? NGHTTP2_TOKEN_TRANSFER_ENCODING) || (token =? NGHTTP2_TOKEN_UPGRADE).

Definition http_error (s : nghttp2_stream) : option (Z * nghttp2_stream) := Some (NGHTTP2_ERR_HTTP_HEADER, s).
Definition http_ok (s : nghttp2_stream) : option (Z * nghttp2_stream) := Some (0, s).

(** A pseudo field that may come once, and what is noted about it *)
Definition once (s : nghttp2_stream) (value : list char) (flag : Z) (k : nghttp2_stream -> option (Z * nghttp2_stream)) : option (Z * nghttp2_stream) :=
  let '(ok, s) := check_pseudo_header s value flag in if negb ok then http_error s else k s.

Definition on_method (value : list char) (s : nghttp2_stream) : option (Z * nghttp2_stream) :=
  if lstreq (chars "HEAD") value then http_ok (add_http_flag NGHTTP2_HTTP_FLAG_METH_HEAD s)
  else if lstreq (chars "CONNECT") value then
    if Z.even (stream_id s) then http_error s else http_ok (add_http_flag NGHTTP2_HTTP_FLAG_METH_CONNECT s)
  else if lstreq (chars "OPTIONS") value then http_ok (add_http_flag NGHTTP2_HTTP_FLAG_METH_OPTIONS s)
  else http_ok s.

Definition on_path (value : list char) (s : nghttp2_stream) : option (Z * nghttp2_stream) :=
  if first_is value "/" then http_ok (add_http_flag NGHTTP2_HTTP_FLAG_PATH_REGULAR s)
  else if (length value =? 1)%nat && first_is value "*" then http_ok (add_http_flag NGHTTP2_HTTP_FLAG_PATH_ASTERISK s)
  else http_ok s.

Definition on_scheme (value : list char) (s : nghttp2_stream) : option (Z * nghttp2_stream) :=
  a ← lstrieq (chars "http") value;
  b ← lstrieq (chars "https") value;
  if a || b then http_ok (add_http_flag NGHTTP2_HTTP_FLAG_SCHEME_HTTP s) else http_ok s.

Definition on_content_length (value : list char) (s : nghttp2_stream) : option (Z * nghttp2_stream) :=
  if negb (content_length s =? -1) then http_error s else
  let s := set_content_length (parse_uint value) s in
  if content_length s =? -1 then http_error s else http_ok s.

Definition on_te (value : list char) (s : nghttp2_stream) : option (Z * nghttp2_stream) :=
  a ← lstrieq (chars "trailers") value; if negb a then http_error s else http_ok s.

Definition on_priority (value : list char) (trailer : bool) (s : nghttp2_stream) : option (Z * nghttp2_stream) :=
  if negb trailer && Z.odd (stream_id s) && negb (has (http_flags s) NGHTTP2_HTTP_FLAG_BAD_PRIORITY) then
    r ← nghttp2_http_parse_priority (nghttp2_extpri_from_uint8 (http_extpri s)) value;
    let '(rv, e) := r in
    if rv =? 0 then http_ok (add_http_flag NGHTTP2_HTTP_FLAG_PRIORITY (set_http_extpri (nghttp2_extpri_to_uint8 e) s))
    else http_ok (add_http_flag NGHTTP2_HTTP_FLAG_BAD_PRIORITY (set_http_flags (clear (http_flags s) NGHTTP2_HTTP_FLAG_PRIORITY) s))
  else http_ok s.

(** The two ends that the functions for requests and responses share *)
Definition pseudo_misplaced (s : nghttp2_stream) (name : list char) (trailer : bool) : bool :=
  first_is name ":" && (trailer || has (http_flags s) NGHTTP2_HTTP_FLAG_PSEUDO_HEADER_DISALLOWED).

Definition after_field (name : list char) (r : option (Z * nghttp2_stream)) : option (Z * nghttp2_stream) :=
  r ← r;
  let '(rv, s) := r in
  if negb (rv =? 0) then Some (rv, s) else
  if negb (first_is name ":") then http_ok (add_http_flag NGHTTP2_HTTP_FLAG_PSEUDO_HEADER_DISALLOWED s) else http_ok s.

Definition http_request_on_header (s : nghttp2_stream) (name value : list char) (token : Z) (trailer connect_protocol : bool) : option (Z * nghttp2_stream) :=
  if pseudo_misplaced s name trailer then http_error s else
  after_field name (
    if token =? NGHTTP2_TOKEN__AUTHORITY then once s value NGHTTP2_HTTP_FLAG__AUTHORITY http_ok
    else if token =? NGHTTP2_TOKEN__METHOD then once s value NGHTTP2_HTTP_FLAG__METHOD (on_method value)
    else if token =? NGHTTP2_TOKEN__PATH then once s value NGHTTP2_HTTP_FLAG__PATH (on_path value)
    else if token =? NGHTTP2_TOKEN__SCHEME then once s value NGHTTP2_HTTP_FLAG__SCHEME (on_scheme value)
    else if token =? NGHTTP2_TOKEN__PROTOCOL then
      if negb connect_protocol then http_error s else once s value NGHTTP2_HTTP_FLAG__PROTOCOL http_ok
    else if token =? NGHTTP2_TOKEN_HOST then once s value NGHTTP2_HTTP_FLAG_HOST http_ok
    else if token =? NGHTTP2_TOKEN_CONTENT_LENGTH then on_content_length value s
    else if disallowed token then http_error s
    else if token =? NGHTTP2_TOKEN_TE then on_te value s
    else if token =? NGHTTP2_TOKEN_PRIORITY then on_priority value trailer s
    else if first_is name ":" then http_error s else http_ok s).

Definition on_status (value : list char) (s : nghttp2_stream) : option (Z * nghttp2_stream) :=
  if negb (length value =? 3)%nat then http_error s else
  let s := set_status_code (parse_uint value) s in
  if (status_code s =? -1) || (status_code s =? 101) then http_error s else http_ok s.

Definition on_response_length (value : list char) (s : nghttp2_stream) : option (Z * nghttp2_stream) :=
  if status_code s =? 204 then
    if negb (content_length s =? -1) then http_error s else
    a ← lstrieq (chars "0") value;
    if negb a then http_error s else Some (NGHTTP2_ERR_REMOVE_HTTP_HEADER, set_content_length 0 s)
  else if Z.quot (status_code s) 100 =? 1 then http_error s
  else if (Z.quot (status_code s) 100 =? 2) && has (http_flags s) NGHTTP2_HTTP_FLAG_METH_CONNECT then Some (NGHTTP2_ERR_REMOVE_HTTP_HEADER, s)
  else on_content_length value s.

Definition http_response_on_header (s : nghttp2_stream) (name value : list char) (token : Z) (trailer : bool) : option (Z * nghttp2_stream) :=
  if pseudo_misplaced s name trailer then http_error s else
  after_field name (
    if token =? NGHTTP2_TOKEN__STATUS then once s value NGHTTP2_HTTP_FLAG__STATUS (on_status value)
    else if token =? NGHTTP2_TOKEN_CONTENT_LENGTH then on_response_length value s
    else if disallowed token then http_error s
    else if token =? NGHTTP2_TOKEN_TE then on_te value s
    else if first_is name ":" then http_error s else http_ok s).

(** A field that is left out still ends the pseudo fields. *)
Definition ignore_field (s : nghttp2_stream) : option (Z * nghttp2_stream) :=
  Some (NGHTTP2_ERR_IGN_HTTP_HEADER, add_http_flag NGHTTP2_HTTP_FLAG_PSEUDO_HEADER_DISALLOWED s).

(** Whether the value is one its field may have: [no_ws] is the stream's flag, [strict]
    says that it is a request that is received. *)
Definition value_ok (no_ws strict : bool) (token : Z) (value : list char) : option bool :=
  let regular := if no_ws then nghttp2_check_header_value value else nghttp2_check_header_value_rfc9113 value in
  if token =? NGHTTP2_TOKEN__METHOD then nghttp2_check_method value
  else if token =? NGHTTP2_TOKEN__PATH then nghttp2_check_path value
  else if (token =? NGHTTP2_TOKEN__AUTHORITY) || (token =? NGHTTP2_TOKEN_HOST) then
    if strict then check_authority value else regular
  else if token =? NGHTTP2_TOKEN__SCHEME then Some (check_scheme value)
  else if (token =? NGHTTP2_TOKEN__PROTOCOL) && (no_ws && lws value) then Some false
  else regular.

(** [server] and [pending_enable_connect_protocol] are the session's, [type] the frame's. *)
Definition nghttp2_http_on_header (server pending_enable_connect_protocol : bool) (type : Z)
    (s : nghttp2_stream) (name value : list char) (token : Z) (trailer : bool) : option (Z * nghttp2_stream) :=
  ok ← nghttp2_check_header_name name;
  if negb ok then
    if first_is name ":" then http_error s
    else if existsb is_upper name then http_error s
    else ignore_field s
  else
  let strict := server || (type =? NGHTTP2_PUSH_PROMISE) in
  rv ← value_ok (has (flags s) NGHTTP2_STREAM_FLAG_NO_RFC9113_LEADING_AND_TRAILING_WS_VALIDATION) strict token value;
  if negb rv then
    if (length name =? 0)%nat then None
    else if first_is name ":" then http_error s
    else ignore_field s
  else if strict then http_request_on_header s name value token trailer (server && pending_enable_connect_protocol)
  else http_response_on_header s name value token trailer.

(** ** The end of a header block *)

Definition nghttp2_http_on_request_headers (s : nghttp2_stream) (type : Z) : Z * nghttp2_stream :=
  let f := http_flags s in
  let checked :=
    if negb (has f NGHTTP2_HTTP_FLAG__PROTOCOL) && has f NGHTTP2_HTTP_FLAG_METH_CONNECT then
      if has f (Z.lor NGHTTP2_HTTP_FLAG__SCHEME NGHTTP2_HTTP_FLAG__PATH) || negb (has f NGHTTP2_HTTP_FLAG__AUTHORITY) then None
      else Some (set_content_length (-1) s)
    else
      if negb (Z.land f NGHTTP2_HTTP_FLAG_REQ_HEADERS =? NGHTTP2_HTTP_FLAG_REQ_HEADERS) ||
         negb (has f (Z.lor NGHTTP2_HTTP_FLAG__AUTHORITY NGHTTP2_HTTP_FLAG_HOST)) then None else
      if has f NGHTTP2_HTTP_FLAG__PROTOCOL && (negb (has f NGHTTP2_HTTP_FLAG_METH_CONNECT) || negb (has f NGHTTP2_HTTP_FLAG__AUTHORITY)) then None else
      if negb (check_path s) then None else Some s in
  match checked with
  | None => (-1, s)
  | Some s =>
      if type =? NGHTTP2_PUSH_PROMISE
      then (0, set_content_length (-1) (set_http_flags (Z.land (http_flags s) NGHTTP2_HTTP_FLAG_METH_ALL) s)) else (0, s)
  end.

Definition nghttp2_http_on_response_headers (s : nghttp2_stream) : Z * nghttp2_stream :=
  if negb (has (http_flags s) NGHTTP2_HTTP_FLAG__STATUS) then (-1, s) else
  if Z.quot (status_code s) 100 =? 1 then
    (0, set_status_code (-1) (set_content_length (-1)
          (set_http_flags (Z.lor (Z.land (http_flags s) NGHTTP2_HTTP_FLAG_METH_ALL) NGHTTP2_HTTP_FLAG_EXPECT_FINAL_RESPONSE) s)))
  else
  let s := set_http_flags (clear (http_flags s) NGHTTP2_HTTP_FLAG_EXPECT_FINAL_RESPONSE) s in
  if negb (expect_response_body s) then (0, set_content_length 0 s)
  else if has (http_flags s) (Z.lor NGHTTP2_HTTP_FLAG_METH_CONNECT NGHTTP2_HTTP_FLAG_METH_UPGRADE_WORKAROUND) then (0, set_content_length (-1) s)
  else (0, s).

Definition nghttp2_http_on_trailer_headers (frame_flags : Z) : Z := if Z.land frame_flags NGHTTP2_FLAG_END_STREAM =? 0 then -1 else 0.

Definition nghttp2_http_on_remote_end_stream (s : nghttp2_stream) : Z :=
  if has (http_flags s) NGHTTP2_HTTP_FLAG_EXPECT_FINAL_RESPONSE then -1
  else if negb (content_length s =? -1) && negb (content_length s =? recv_content_length s) then -1
  else 0.

(** The count is an [int64_t]: an overflow is undefined. *)
Definition nghttp2_http_on_data_chunk (s : nghttp2_stream) (n : Z) : option (Z * nghttp2_stream) :=
  if negb (in_int64 (recv_content_length s + n)) then None else
  let s := set_recv_content_length (recv_content_length s + n) s in
  Some (if has (http_flags s) NGHTTP2_HTTP_FLAG_EXPECT_FINAL_RESPONSE ||
     (negb (content_length s =? -1) && (content_length s <? recv_content_length s)) then (-1, s) else (0, s)).

(** [nva]: the fields of the HEADERS or PUSH_PROMISE frame that is sent. *)
Fixpoint nghttp2_http_record_request_method (nva : list nghttp2_nv) (s : nghttp2_stream) : nghttp2_stream :=
  match nva with
  | [] => s
  | n :: nva =>
      if negb (lstreq (chars ":method") (name n)) then nghttp2_http_record_request_method nva s
      else if lstreq (chars "CONNECT") (value n) then add_http_flag NGHTTP2_HTTP_FLAG_METH_CONNECT s
      else if lstreq (chars "HEAD") (value n) then add_http_flag NGHTTP2_HTTP_FLAG_METH_HEAD s
      else s
  end.
