(* ===== verification/NgPrioritySpec.v ===== *)
(** * The priority field of a request: [nghttp2_http_parse_priority]

    [parse_priority_spec]: what the function makes of a value is said by the members of
    the value as a dictionary of RFC 9651 (RFC 9218, section 4). *)

From stdpp Require Import list.
From S2P Require Import Prelude CLib NgBuf NgHelper NgStream Sfparse SfparseGrammar SfparseSpec NgFrame NgHttp.

(** Urgency [u], an integer from 0 to 7, and [i], a boolean; other members say nothing,
    and the last one counts.  [None] where the text is no dictionary, or one of the two
    has another value. *)
Definition parameter (key : list char) (v : sfparse_value) (pri : nghttp2_extpri) : option nghttp2_extpri :=
  if bool_decide (key = chars "u") then
    match v with SfInteger n => if (0 <=? n) && (n <=? 7) then Some (Extpri n (inc pri)) else None | _ => None end
  else if bool_decide (key = chars "i") then
    match v with SfBoolean b => Some (Extpri (urgency pri) b) | _ => None end
  else Some pri.

Fixpoint priority_of (l : list event) (pri : nghttp2_extpri) : option nghttp2_extpri :=
  match l with
  | Member key v :: l => pri ← parameter key v pri; priority_of l pri
  | EndAll :: _ => Some pri
  | Bad :: _ | [] => None
  | _ :: l => priority_of l pri
  end.

Lemma priority_of_until l pri : priority_of (until is_member l) pri = priority_of l pri.
Proof. induction l as [|e l IH]; [done|]. cbn [until]. by destruct e. Qed.

Lemma priority_member_eq key v pri : priority_member key v pri = parameter key v pri.
Proof.
  unfold priority_member, parameter. destruct (Nat.eqb_spec (length key) 1) as [E|E]; cbn [negb].
  - destruct key as [|c [|d key]]; try done. cbn [first_is]. change (chars "u") with ["u"%char]. change (chars "i") with ["i"%char].
    destruct (Ascii.eqb_spec c "i") as [->|Hi]; [by rewrite bool_decide_eq_false_2, bool_decide_eq_true_2|].
    destruct (Ascii.eqb_spec c "u") as [->|Hu].
    + rewrite bool_decide_eq_true_2 by done. destruct v; try done. unfold NGHTTP2_EXTPRI_URGENCY_HIGH, NGHTTP2_EXTPRI_URGENCY_LOW.
      destruct (Z.ltb_spec integer 0), (Z.ltb_spec 7 integer), (Z.leb_spec 0 integer), (Z.leb_spec integer 7); try lia; done.
    + by rewrite !bool_decide_eq_false_2 by (intros [= ->]; done).
  - by rewrite !bool_decide_eq_false_2 by (intros ->; done).
Qed.

Lemma priority_loop_spec n depth : forall ph t pri, (length t < n)%nat -> (length t + 2 <= depth)%nat -> ph = Start \/ ph = AtInner \/ ph = AtParams false ->
  exists rv pri', priority_loop n depth (Parser t (state_at Dict ph)) pri = Some (rv, pri') /\
    match priority_of (to_come Dict ph t) pri with Some q => rv = 0 /\ pri' = q | None => rv = NGHTTP2_ERR_INVALID_ARGUMENT end.
Proof.
  induction n as [|n IH]; intros ph t pri Hn Hd Hph; [lia|].
  destruct (next_member_agrees Dict depth ph t Hd ltac:(tauto)) as (e & p & l & El & Ec & H). rewrite <- priority_of_until, El. cbn [priority_loop]. cbn [do_call] in Ec.
  assert (He : e = EndAll \/ e = Bad \/ exists key v, e = Member key v).
  { clear -El. induction (to_come Dict ph t) as [|x l' IH]; [done|]. cbn [until] in El. destruct x; cbn [is_member is_bad orb] in El; try (by apply IH); injection El as <- _; eauto. }
  destruct (sfparse_parser_dict depth (Parser t (state_at Dict ph))) as [[[rv|[key v]] q]|]; [| |done]; cbn [answer] in Ec.
  - destruct (Z.eqb_spec rv SFPARSE_ERR_EOF) as [->|Hrv]; [injection Ec as <- <-; by do 2 eexists|]. destruct (rv =? SFPARSE_ERR_PARSE); [|done]. injection Ec as <- <-. by do 2 eexists.
  - injection Ec as <- <-. cbn [fst snd priority_of phase_after] in *. rewrite priority_member_eq. destruct (parameter key v pri) as [pri'|]; cbn [mbind option_bind]; [|by do 2 eexists].
    assert (Hnext : exists ph t', q = Parser t' (state_at Dict ph) /\ l = to_come Dict ph t' /\ (length t' + 1 <= length t)%nat /\ (ph = AtInner \/ ph = AtParams false)).
    { destruct v; destruct H as (t' & -> & -> & Hl & _); do 2 eexists; (split; [reflexivity|]); (split; [done|]); (split; [done|]); tauto. }
    destruct Hnext as (ph' & t' & -> & -> & Hl & Hph'). apply IH; [lia..|tauto].
Qed.

(** What the function returns: for every value, without undefined behaviour *)
Lemma parse_priority_spec dest value : nghttp2_http_parse_priority dest value =
  Some match priority_of (events Dict value) dest with Some pri => (0, pri) | None => (NGHTTP2_ERR_INVALID_ARGUMENT, dest) end.
Proof.
  unfold nghttp2_http_parse_priority. destruct (priority_loop_spec (S (length value)) (length value + 2) Start value dest ltac:(lia) ltac:(lia) ltac:(tauto)) as (rv & pri & E & H).
  cbn [state_at to_come] in *. unfold sfparse_parser_init. rewrite E. cbn [mbind option_bind]. destruct (priority_of _ _) as [q|]; [by destruct H as [-> ->]|by subst rv].
Qed.
