(* ===== verification/NgHttpSpec.v ===== *)
(** * Requests: what the handlers of [nghttp2_http.c] compute

    The handlers run over the fields of a request, its DATA frames and its end
    ([accepts]), and what they compute, as a function of the list of fields:
    [request_ok], which still speaks of tokens and of what was seen before.  The
    rules it amounts to are in [NgHttpRules]. *)

From stdpp Require Import list.
From S2P Require Import Prelude CLib NgBuf HuffTable Huffman HuffSpec HpackInt HdStatic HdTable NgFrame NgHelper NgStream Sfparse SfparseGrammar SfparseSpec NgHttp NgPrioritySpec.

(** ** A message, as it comes *)

Record hfield := HField { fname : list char; fvalue : list char }.
Definition token (f : hfield) : Z := lookup_token (fname f).

Section Spec.
(** The session's setting, and the stream's flag. *)
Context (connect_protocol no_ws : bool).

(** The fields of a request, one after the other ([inflate_header_block] of the session,
    with callbacks that do not interfere): [None] if a field ends the stream. *)
Fixpoint on_fields (s : nghttp2_stream) (fs : list hfield) : option (option nghttp2_stream) :=
  match fs with
  | [] => Some (Some s)
  | f :: fs =>
      r ← nghttp2_http_on_header true connect_protocol NGHTTP2_HEADERS s (fname f) (fvalue f) (token f) false;
      if fst r =? NGHTTP2_ERR_HTTP_HEADER then Some None else on_fields (snd r) fs
  end.

Fixpoint on_chunks (s : nghttp2_stream) (ns : list Z) : option (option nghttp2_stream) :=
  match ns with
  | [] => Some (Some s)
  | n :: ns => '(rv, s) ← nghttp2_http_on_data_chunk s n; if rv =? 0 then on_chunks s ns else Some None
  end.

(** A whole request: fields, data, the end. *)
Definition accepts (s : nghttp2_stream) (fs : list hfield) (ns : list Z) : option bool :=
  r ← on_fields s fs;
  match r with
  | None => Some false
  | Some s =>
      let '(rv, s) := nghttp2_http_on_request_headers s NGHTTP2_HEADERS in
      if negb (rv =? 0) then Some false else
      r ← on_chunks s ns;
      Some match r with Some s => nghttp2_http_on_remote_end_stream s =? 0 | None => false end
  end.

(** ** What the fields amount to *)

Definition pseudo (f : hfield) : bool := first_is (fname f) ":".

Definition name_char (c : char) : bool := is_tchar c && negb (is_upper c).
Definition name_ok (f : hfield) : bool :=
  match fname f with
  | [] => false
  | c :: rest => if Ascii.eqb c ":" then negb (bool_decide (rest = [])) && forallb name_char rest else forallb name_char (fname f)
  end.

Definition text_char (c : char) : bool := ((32 <=? bval c) && negb (bval c =? 127)) || (bval c =? 9).
Definition text_ok (v : list char) : bool :=
  (no_ws || match v with [] => true | c :: _ => negb (is_ws c) && negb (is_ws (List.last v c)) end) && forallb text_char v.

(** Whether the value is of the form that the field asks for. *)
Definition value_fine (f : hfield) : bool :=
  let t := token f in let v := fvalue f in
  if t =? NGHTTP2_TOKEN__METHOD then negb (bool_decide (v = [])) && forallb is_tchar v
  else if t =? NGHTTP2_TOKEN__PATH then forallb (fun c => (33 <=? bval c) && negb (bval c =? 127)) v
  else if (t =? NGHTTP2_TOKEN__AUTHORITY) || (t =? NGHTTP2_TOKEN_HOST) then forallb is_authority_char v
  else if t =? NGHTTP2_TOKEN__SCHEME then check_scheme v
  else if (t =? NGHTTP2_TOKEN__PROTOCOL) && (no_ws && lws v) then false
  else text_ok v.

(** The values a [content-length] can have *)
Definition length_ok (v : list char) : bool := negb (bool_decide (v = [])) && forallb is_num v && (decimal 0 v <=? INT64_MAX).

(** A field is taken, left out (a regular field of the wrong form), or it makes the
    request malformed. *)
Definition taken (f : hfield) : bool := name_ok f && value_fine f.
Definition harmless (f : hfield) : bool := taken f || negb (pseudo f) && (name_ok f || negb (existsb is_upper (fname f))).

Definition is_field (t : Z) (f : hfield) : bool := taken f && (token f =? t).
Definition same_ci (a b : list char) : bool := bool_decide (map downcase a = map downcase b).

(** What a field that is taken must satisfy after the fields [seen]: pseudo fields and
    [host] come once and are not empty, [:protocol] only where the setting allows it, one
    [content-length], and none of the fields that belong to the connection. *)
Definition field_rule (seen : list hfield) (f : hfield) : bool :=
  let t := token f in let v := fvalue f in
  let single := negb (existsb (is_field t) seen) in
  if (t =? NGHTTP2_TOKEN__AUTHORITY) || (t =? NGHTTP2_TOKEN__METHOD) || (t =? NGHTTP2_TOKEN__PATH) || (t =? NGHTTP2_TOKEN__SCHEME) || (t =? NGHTTP2_TOKEN_HOST)
  then single && negb (bool_decide (v = []))
  else if t =? NGHTTP2_TOKEN__PROTOCOL then connect_protocol && (single && negb (bool_decide (v = [])))
  else if t =? NGHTTP2_TOKEN_CONTENT_LENGTH then single && length_ok v
  else if disallowed t then false
  else if t =? NGHTTP2_TOKEN_TE then same_ci v (chars "trailers")
  else (t =? NGHTTP2_TOKEN_PRIORITY) || negb (pseudo f).

(** Pseudo fields come before the others. *)
Definition in_order (seen : list hfield) (f : hfield) : bool := negb (pseudo f && existsb (fun g => negb (pseudo g)) seen).

Definition field_ok (seen : list hfield) (f : hfield) : bool := harmless f && (negb (taken f) || in_order seen f && field_rule seen f).

Fixpoint fields_ok (seen fs : list hfield) : bool :=
  match fs with [] => true | f :: fs => field_ok seen f && fields_ok (seen ++ [f]) fs end.

Definition method_is (m : String.string) (f : hfield) : bool := is_field NGHTTP2_TOKEN__METHOD f && bool_decide (fvalue f = chars m).
Definition path_regular (f : hfield) : bool := is_field NGHTTP2_TOKEN__PATH f && first_is (fvalue f) "/".
Definition path_asterisk (f : hfield) : bool := is_field NGHTTP2_TOKEN__PATH f && bool_decide (fvalue f = chars "*").
Definition scheme_http (f : hfield) : bool :=
  is_field NGHTTP2_TOKEN__SCHEME f && (same_ci (fvalue f) (chars "http") || same_ci (fvalue f) (chars "https")).

Definition is_connect (fs : list hfield) : bool := existsb (method_is "CONNECT") fs && negb (existsb (is_field NGHTTP2_TOKEN__PROTOCOL) fs).

(** The fields a request must have. *)
Definition complete (fs : list hfield) : bool :=
  let h t := existsb (is_field t) fs in
  if is_connect fs then negb (h NGHTTP2_TOKEN__SCHEME) && negb (h NGHTTP2_TOKEN__PATH) && h NGHTTP2_TOKEN__AUTHORITY
  else
    h NGHTTP2_TOKEN__METHOD && h NGHTTP2_TOKEN__PATH && h NGHTTP2_TOKEN__SCHEME && (h NGHTTP2_TOKEN__AUTHORITY || h NGHTTP2_TOKEN_HOST) &&
    (negb (h NGHTTP2_TOKEN__PROTOCOL) || existsb (method_is "CONNECT") fs && h NGHTTP2_TOKEN__AUTHORITY) &&
    (negb (existsb scheme_http fs) || existsb path_regular fs || existsb (method_is "OPTIONS") fs && existsb path_asterisk fs).

(** The length that the fields announce. *)
Definition announced_length (fs : list hfield) : Z :=
  if is_connect fs then -1 else
  match List.find (is_field NGHTTP2_TOKEN_CONTENT_LENGTH) fs with Some f => decimal 0 (fvalue f) | None => -1 end.

Definition request_ok (fs : list hfield) (ns : list Z) : bool :=
  fields_ok [] fs && complete fs && ((announced_length fs =? -1) || (announced_length fs =? fold_right Z.add 0 ns)).
End Spec.

(** ** The checks on single fields *)

Lemma authority_chars c : of_table http_VALID_AUTHORITY_CHARS c = Some (if is_authority_char c then 1 else 0).
Proof. revert c. by_every_char. Qed.

Lemma memcmp_eq a : forall b, length a = length b -> (memcmp a b (length b) =? 0) = bool_decide (b = a).
Proof.
  induction a as [|x a IH]; intros [|y b] H; try done. injection H as H. cbn [length memcmp].
  destruct (Z.eqb_spec (bval x) (bval y)) as [E|E].
  - apply (f_equal Z.to_nat), bval_inj in E. subst y. rewrite IH by done. apply bool_decide_ext. split; [by intros ->|by intros [= ->]].
  - rewrite bool_decide_eq_false_2 by (intros [= -> _]; done). by destruct (_ <? _).
Qed.

Lemma lstreq_spec m v : lstreq m v = bool_decide (v = m).
Proof.
  unfold lstreq. destruct (Nat.eqb_spec (length m) (length v)) as [E|E]; [by apply memcmp_eq|].
  by rewrite bool_decide_eq_false_2 by (intros ->; done).
Qed.

Lemma memieq_spec a : forall b, length a = length b -> memieq a b (length b) = Some (same_ci b a).
Proof.
  induction a as [|x a IH]; intros [|y b] H; try done. injection H as H. cbn [length memieq].
  destruct (Z.eqb_spec (downcase x) (downcase y)) as [E|E]; cbn [negb].
  - rewrite IH by done. f_equal. unfold same_ci. apply bool_decide_ext. cbn [map]. rewrite E. split; [by intros ->|by intros [= ->]].
  - f_equal. symmetry. apply bool_decide_eq_false_2. cbn [map]. intros [= E' _]. done.
Qed.

Lemma lstrieq_spec m v : lstrieq m v = Some (same_ci v m).
Proof.
  unfold lstrieq. destruct (Nat.eqb_spec (length m) (length v)) as [E|E]; [by apply memieq_spec|].
  f_equal. symmetry. apply bool_decide_eq_false_2. intros E'. apply (f_equal length) in E'. rewrite !length_map in E'. done.
Qed.

Lemma decimal_ge v : forall n, 0 <= n -> forallb is_num v = true -> n <= decimal n v.
Proof.
  induction v as [|c v IH]; intros n Hn Hd; [done|]. cbn [forallb] in Hd. apply andb_true_iff in Hd as [Hc Hd]. unfold is_num in Hc.
  apply andb_true_iff in Hc as [Hc _]. apply Z.leb_le in Hc. cbn [decimal fold_left]. specialize (IH (10 * n + (bval c - 48))).
  unfold decimal in IH. etransitivity; [|apply IH; [lia|done]]. lia.
Qed.

Lemma parse_digits_spec v : forall n, 0 <= n <= INT64_MAX ->
  parse_digits v n = if forallb is_num v && (decimal n v <=? INT64_MAX) then decimal n v else -1.
Proof.
  induction v as [|c v IH]; intros n Hn; cbn [parse_digits forallb].
  { cbn. by rewrite (proj2 (Z.leb_le _ _)) by lia. }
  change ((48 <=? bval c) && (bval c <=? 57)) with (is_num c). destruct (is_num c) eqn:Hc; [|done]. cbn [andb].
  unfold is_num in Hc. apply andb_true_iff in Hc as [H1 H2]. apply Z.leb_le in H1, H2.
  change (decimal n (c :: v)) with (decimal (10 * n + (bval c - 48)) v).
  pose proof (fun H => decimal_ge v (10 * n + (bval c - 48)) ltac:(lia) H) as Hge.
  assert (Hover : INT64_MAX < 10 * n + (bval c - 48) -> -1 = if forallb is_num v && (decimal (10 * n + (bval c - 48)) v <=? INT64_MAX) then decimal (10 * n + (bval c - 48)) v else -1).
  { intros Ho. destruct (forallb is_num v); [|done]. specialize (Hge eq_refl). cbn [andb]. by rewrite (proj2 (Z.leb_gt _ _)) by lia. }
  unfold INT64_MAX in *. change ((2 ^ 63 - 1) / 10) with 922337203685477580.
  destruct (Z.ltb_spec 922337203685477580 n); [apply Hover; lia|]. destruct (Z.ltb_spec (2 ^ 63 - 1 - (bval c - 48)) (n * 10)); [apply Hover; lia|].
  replace (n * 10 + (bval c - 48)) with (10 * n + (bval c - 48)) by lia. apply IH. lia.
Qed.

Lemma parse_uint_spec v : parse_uint v = if length_ok v then decimal 0 v else -1.
Proof.
  unfold parse_uint, length_ok. destruct v as [|c v]; [done|]. rewrite parse_digits_spec by (unfold INT64_MAX; lia).
  rewrite bool_decide_eq_false_2 by done. done.
Qed.

Lemma length_ok_range v : length_ok v = true -> 0 <= decimal 0 v.
Proof. unfold length_ok. intros H. apply andb_true_iff in H as [H _]. apply andb_true_iff in H as [_ H]. apply decimal_ge; [lia|done]. Qed.

Lemma check_name_spec f : nghttp2_check_header_name (fname f) = Some (name_ok f).
Proof. apply check_header_name_spec. Qed.

Lemma last_opt {A} (l : list A) d : forall x, list.last (x :: l) = Some (List.last (x :: l) d).
Proof. induction l as [|y l IH]; intros x; [done|]. apply IH. Qed.

Lemma value_ok_spec no_ws f : value_ok no_ws true (token f) (fvalue f) = Some (value_fine no_ws f).
Proof.
  assert (Hregular : (if no_ws then nghttp2_check_header_value (fvalue f) else nghttp2_check_header_value_rfc9113 (fvalue f)) = Some (text_ok no_ws (fvalue f))).
  { unfold text_ok, nghttp2_check_header_value_rfc9113, nghttp2_check_header_value. destruct no_ws; cbn [orb andb]; [apply all_in_spec, value_chars|].
    destruct (fvalue f) as [|c v]; [done|]. rewrite (last_opt _ c). cbn [mbind option_bind]. rewrite <- negb_orb. destruct (is_ws c || _); [done|]. apply all_in_spec, value_chars. }
  unfold value_ok, value_fine. rewrite Hregular. destruct (_ =? _).
  { unfold nghttp2_check_method. destruct (fvalue f); [done|]. rewrite bool_decide_eq_false_2 by done. apply all_in_spec, method_chars. }
  destruct (_ =? _); [apply all_in_spec, path_chars|]. destruct (_ || _); [apply all_in_spec, authority_chars|]. destruct (_ =? _); [done|]. by destruct (_ && _).
Qed.

(** ** What a stream remembers *)

Lemma has_lor x a b : has (Z.lor x a) b = has x b || has a b.
Proof.
  unfold has. rewrite Z.land_lor_distr_l, <- negb_andb. f_equal.
  destruct (Z.eqb_spec (Z.lor (Z.land x b) (Z.land a b)) 0) as [E|E].
  - apply Z.lor_eq_0_iff in E as [-> ->]. done.
  - symmetry. apply andb_false_iff. destruct (Z.eqb_spec (Z.land x b) 0) as [E1|]; [|by left]. right. apply Z.eqb_neq. intros E2. apply E. by rewrite E1, E2.
Qed.

Lemma has_either x a b : has x (Z.lor a b) = has x a || has x b.
Proof. unfold has. rewrite !(Z.land_comm x). apply has_lor. Qed.

Lemma has_clear x a b : Z.land a b = 0 -> has (clear x a) b = has x b.
Proof.
  intros H. unfold has, clear. do 2 f_equal. apply Z.bits_inj'. intros n Hn. rewrite !Z.land_spec, Z.ldiff_spec.
  assert (E : Z.testbit (Z.land a b) n = false) by (rewrite H; apply Z.bits_0). rewrite Z.land_spec in E.
  destruct (Z.testbit x n), (Z.testbit a n), (Z.testbit b n); done.
Qed.

Lemma covers_lor x a b : (Z.land x (Z.lor a b) =? Z.lor a b) = (Z.land x a =? a) && (Z.land x b =? b).
Proof.
  assert (Hsub : forall a b, Z.land x (Z.lor a b) = Z.lor a b -> Z.land x a = a).
  { clear. intros a b H. apply Z.bits_inj'. intros n Hn. apply (f_equal (fun z => Z.testbit z n)) in H.
    rewrite Z.land_spec, Z.lor_spec in H. rewrite Z.land_spec. destruct (Z.testbit x n), (Z.testbit a n), (Z.testbit b n); done. }
  destruct (Z.eqb_spec (Z.land x (Z.lor a b)) (Z.lor a b)) as [E|E]; symmetry.
  - rewrite (Hsub a b E), (Hsub b a) by (by rewrite (Z.lor_comm b)). by rewrite !Z.eqb_refl.
  - apply andb_false_iff. destruct (Z.eqb_spec (Z.land x a) a) as [Ea|]; [|by left]. right. apply Z.eqb_neq. intros Eb. apply E.
    by rewrite Z.land_lor_distr_r, Ea, Eb.
Qed.

Lemma covers_bit x k : 0 <= k -> (Z.land x (Z.shiftl 1 k) =? Z.shiftl 1 k) = has x (Z.shiftl 1 k).
Proof.
  intros Hk. unfold has. rewrite Z.shiftl_1_l, Z.land_comm. pose proof (Z.pow_pos_nonneg 2 k ltac:(lia) Hk).
  assert (E : Z.land (2 ^ k) x = if Z.testbit x k then 2 ^ k else 0).
  { apply Z.bits_inj'. intros n Hn. rewrite Z.land_spec, Z.pow2_bits_eqb by done. destruct (Z.eqb_spec k n) as [<-|Hne].
    - destruct (Z.testbit x k); [by rewrite Z.pow2_bits_true|by rewrite Z.bits_0].
    - destruct (Z.testbit x k); [by rewrite Z.pow2_bits_false|by rewrite Z.bits_0]. }
  rewrite E. destruct (Z.testbit x k); [rewrite Z.eqb_refl|]; destruct (Z.eqb_spec (2 ^ k) 0); try lia; try done.
Qed.

Section Request.
Context (connect_protocol no_ws : bool).

Abbreviation is_field := (is_field no_ws).
Abbreviation method_is := (method_is no_ws).
Abbreviation taken := (taken no_ws).

(** The flags, and which fields set them. *)
Definition noted : list (Z * (hfield -> bool)) := [
  (NGHTTP2_HTTP_FLAG__AUTHORITY, is_field NGHTTP2_TOKEN__AUTHORITY);
  (NGHTTP2_HTTP_FLAG__PATH, is_field NGHTTP2_TOKEN__PATH);
  (NGHTTP2_HTTP_FLAG__METHOD, is_field NGHTTP2_TOKEN__METHOD);
  (NGHTTP2_HTTP_FLAG__SCHEME, is_field NGHTTP2_TOKEN__SCHEME);
  (NGHTTP2_HTTP_FLAG_HOST, is_field NGHTTP2_TOKEN_HOST);
  (NGHTTP2_HTTP_FLAG__PROTOCOL, is_field NGHTTP2_TOKEN__PROTOCOL);
  (NGHTTP2_HTTP_FLAG_METH_CONNECT, method_is "CONNECT");
  (NGHTTP2_HTTP_FLAG_METH_OPTIONS, method_is "OPTIONS");
  (NGHTTP2_HTTP_FLAG_PATH_REGULAR, path_regular no_ws);
  (NGHTTP2_HTTP_FLAG_PATH_ASTERISK, path_asterisk no_ws);
  (NGHTTP2_HTTP_FLAG_SCHEME_HTTP, scheme_http no_ws);
  (NGHTTP2_HTTP_FLAG_EXPECT_FINAL_RESPONSE, fun _ => false)].

(** What stays, what a field adds to the flags and to the length. *)
Record gains (f : hfield) (s s' : nghttp2_stream) : Prop := {
  g_id : stream_id s' = stream_id s;
  g_flags : flags s' = flags s;
  g_recv : recv_content_length s' = recv_content_length s;
  g_length : content_length s' = if is_field NGHTTP2_TOKEN_CONTENT_LENGTH f then decimal 0 (fvalue f) else content_length s;
  g_noted : Forall (fun p => has (http_flags s') (fst p) = has (http_flags s) (fst p) || snd p f) noted
}.

(** A field is taken if [ok], and ends the stream otherwise. *)
Definition outcome (ok : bool) (Q : nghttp2_stream -> Prop) (r : option (Z * nghttp2_stream)) : Prop :=
  exists rv s', r = Some (rv, s') /\ if ok then rv = 0 /\ Q s' else rv = NGHTTP2_ERR_HTTP_HEADER.

Definition keeps_order (s s' : nghttp2_stream) : Prop :=
  has (http_flags s') NGHTTP2_HTTP_FLAG_PSEUDO_HEADER_DISALLOWED = has (http_flags s) NGHTTP2_HTTP_FLAG_PSEUDO_HEADER_DISALLOWED.

Abbreviation done_by ok f s := (outcome ok (fun s' => gains f s s' /\ keeps_order s s')).

(** Conditions on constants. *)
Ltac ground := repeat match goal with
  | |- context [has ?a ?b] => is_const a; is_const b; let v := eval vm_compute in (has a b) in change (has a b) with v
  | |- context [?a =? ?b] => is_const a; is_const b; let v := eval vm_compute in (a =? b) in change (a =? b) with v
  | |- context [bool_decide (chars ?a = chars ?b)] => let v := eval vm_compute in (bool_decide (chars a = chars b)) in change (bool_decide (chars a = chars b)) with v
  | |- context [first_is (chars ?a) ?b] => let v := eval vm_compute in (first_is (chars a) b) in change (first_is (chars a) b) with v
  end.

(** What the field is, given its token. *)
Lemma is_field_of t f : taken f = true -> is_field t f = (token f =? t).
Proof. unfold NgHttpSpec.is_field. by intros ->. Qed.

Lemma outcome_ok (Q : nghttp2_stream -> Prop) s : Q s -> outcome true Q (http_ok s).
Proof. intros H. by exists 0, s. Qed.

Lemma outcome_error (Q : nghttp2_stream -> Prop) s : outcome false Q (http_error s).
Proof. by exists NGHTTP2_ERR_HTTP_HEADER, s. Qed.

Lemma once_spec ok Q s v flag k : outcome ok Q (k (add_http_flag flag s)) ->
  outcome (negb (has (http_flags s) flag) && negb (bool_decide (v = [])) && ok) Q (once s v flag k).
Proof.
  intros H. unfold once, check_pseudo_header. destruct (has (http_flags s) flag); [apply outcome_error|]. cbn [negb orb andb].
  destruct v; [apply outcome_error|]. rewrite bool_decide_eq_false_2 by done. done.
Qed.

(** One flag: what the field is, its token known ([Ht]) and what else is known of it. *)
Ltac one_flag Hf Ht :=
  cbn [fst snd]; unfold NgHttpSpec.method_is, path_regular, path_asterisk, scheme_http; rewrite ?(is_field_of _ _ Hf), ?Ht, ?has_lor, ?has_clear by reflexivity;
  repeat match goal with H : ?b = ?v |- context [?b] => lazymatch type of b with bool => rewrite H | list char => rewrite H end end;
  ground; cbn [orb andb]; rewrite ?orb_false_r, ?orb_true_r, ?andb_false_r; try done.
Ltac gained Hf Ht :=
  apply outcome_ok; split; [constructor; try done; [by rewrite (is_field_of _ _ Hf), Ht|]|unfold keeps_order];
  cbn [http_flags add_http_flag set_http_flags]; [repeat (apply Forall_cons; split; [one_flag Hf Ht|]); apply Forall_nil; done|one_flag Hf Ht].

Section Field.
Context (f : hfield) (s : nghttp2_stream) (Hf : taken f = true).

(** A pseudo field of which only the presence is noted. *)
Lemma plain_spec t flag : token f = t -> In (flag, t) [(NGHTTP2_HTTP_FLAG__AUTHORITY, NGHTTP2_TOKEN__AUTHORITY); (NGHTTP2_HTTP_FLAG__PROTOCOL, NGHTTP2_TOKEN__PROTOCOL); (NGHTTP2_HTTP_FLAG_HOST, NGHTTP2_TOKEN_HOST)] ->
  done_by true f s (http_ok (add_http_flag flag s)).
Proof. intros Ht [[= <- <-]|[[= <- <-]|[[= <- <-]|[]]]]; gained Hf Ht. Qed.

Lemma on_method_spec : token f = NGHTTP2_TOKEN__METHOD -> Z.even (stream_id s) = false ->
  done_by true f s (on_method (fvalue f) (add_http_flag NGHTTP2_HTTP_FLAG__METHOD s)).
Proof.
  intros Ht Hodd. unfold on_method. rewrite !lstreq_spec. cbn [stream_id add_http_flag set_http_flags]. rewrite Hodd.
  destruct (bool_decide (fvalue f = chars "HEAD")) eqn:H1; [apply bool_decide_eq_true_1 in H1; gained Hf Ht|].
  destruct (bool_decide (fvalue f = chars "CONNECT")) eqn:H2; [apply bool_decide_eq_true_1 in H2; gained Hf Ht|].
  destruct (bool_decide (fvalue f = chars "OPTIONS")) eqn:H3; [apply bool_decide_eq_true_1 in H3|]; gained Hf Ht.
Qed.

Lemma on_path_spec : token f = NGHTTP2_TOKEN__PATH -> done_by true f s (on_path (fvalue f) (add_http_flag NGHTTP2_HTTP_FLAG__PATH s)).
Proof.
  intros Ht. unfold on_path.
  assert (E : (length (fvalue f) =? 1)%nat && first_is (fvalue f) "*" = bool_decide (fvalue f = chars "*")).
  { change (chars "*") with ["*"%char]. destruct (fvalue f) as [|c [|d v]]; cbn [length Nat.eqb andb first_is]; symmetry.
    - by apply bool_decide_eq_false_2.
    - destruct (Ascii.eqb_spec c "*") as [->|Hc]; [done|]. apply bool_decide_eq_false_2. by intros [= ->].
    - by apply bool_decide_eq_false_2. }
  rewrite E. destruct (first_is (fvalue f) "/") eqn:H1.
  - assert (H2 : bool_decide (fvalue f = chars "*") = false) by (apply bool_decide_eq_false_2; by intros Hv; rewrite Hv in H1). gained Hf Ht.
  - destruct (bool_decide (fvalue f = chars "*")) eqn:H2; gained Hf Ht.
Qed.

Lemma on_scheme_spec : token f = NGHTTP2_TOKEN__SCHEME -> done_by true f s (on_scheme (fvalue f) (add_http_flag NGHTTP2_HTTP_FLAG__SCHEME s)).
Proof.
  intros Ht. unfold on_scheme. rewrite !lstrieq_spec. cbn [mbind option_bind].
  destruct (same_ci (fvalue f) (chars "http") || same_ci (fvalue f) (chars "https")) eqn:H1; gained Hf Ht.
Qed.

Lemma on_content_length_spec : token f = NGHTTP2_TOKEN_CONTENT_LENGTH ->
  done_by ((content_length s =? -1) && length_ok (fvalue f)) f s (on_content_length (fvalue f) s).
Proof.
  intros Ht. unfold on_content_length. destruct (content_length s =? -1); [|apply outcome_error]. cbn [negb andb content_length set_content_length].
  rewrite parse_uint_spec. destruct (length_ok (fvalue f)) eqn:Hl; [|apply outcome_error]. pose proof (length_ok_range _ Hl).
  rewrite (proj2 (Z.eqb_neq _ _)) by lia. gained Hf Ht.
Qed.

Lemma on_te_spec : token f = NGHTTP2_TOKEN_TE -> done_by (same_ci (fvalue f) (chars "trailers")) f s (on_te (fvalue f) s).
Proof.
  intros Ht. unfold on_te. rewrite lstrieq_spec. cbn [mbind option_bind]. destruct (same_ci _ _); [gained Hf Ht|apply outcome_error].
Qed.

Lemma on_priority_spec : token f = NGHTTP2_TOKEN_PRIORITY -> done_by true f s (on_priority (fvalue f) false s).
Proof.
  intros Ht. unfold on_priority. destruct (_ && _); [|gained Hf Ht]. rewrite parse_priority_spec. cbn [mbind option_bind].
  destruct (priority_of _ _); gained Hf Ht.
Qed.
End Field.

(** The stream after the fields [seen]. *)
Record remembers (seen : list hfield) (s : nghttp2_stream) : Prop := {
  r_id : Z.even (stream_id s) = false;
  r_ws : has (flags s) NGHTTP2_STREAM_FLAG_NO_RFC9113_LEADING_AND_TRAILING_WS_VALIDATION = no_ws;
  r_recv : recv_content_length s = 0;
  r_length : content_length s = match List.find (is_field NGHTTP2_TOKEN_CONTENT_LENGTH) seen with Some g => decimal 0 (fvalue g) | None => -1 end;
  r_none : (content_length s =? -1) = negb (existsb (is_field NGHTTP2_TOKEN_CONTENT_LENGTH) seen);
  r_order : has (http_flags s) NGHTTP2_HTTP_FLAG_PSEUDO_HEADER_DISALLOWED = existsb (fun g => negb (pseudo g)) seen;
  r_noted : Forall (fun p => has (http_flags s) (fst p) = existsb (snd p) seen) noted
}.

Lemma noted_at seen s b P : remembers seen s -> In (b, P) noted -> has (http_flags s) b = existsb P seen.
Proof. intros H Hin. pose proof (r_noted _ _ H) as Hall. rewrite List.Forall_forall in Hall. apply (Hall _ Hin). Qed.

Section Step.
Context (seen : list hfield) (f : hfield) (s : nghttp2_stream) (Hseen : remembers seen s) (Hf : taken f = true).

(** The branch of a token: the rule of the specification is the condition of the code. *)
Ltac rule Ht :=
  unfold field_rule; rewrite Ht; unfold disallowed; ground; cbn [orb];
  repeat match goal with |- context [existsb ?P seen] => rewrite <- (noted_at seen s _ P Hseen) by (cbn; tauto) end; rewrite <- ?(r_none _ _ Hseen).

Lemma request_rule : done_by (field_rule connect_protocol no_ws seen f) f s (
    if token f =? NGHTTP2_TOKEN__AUTHORITY then once s (fvalue f) NGHTTP2_HTTP_FLAG__AUTHORITY http_ok
    else if token f =? NGHTTP2_TOKEN__METHOD then once s (fvalue f) NGHTTP2_HTTP_FLAG__METHOD (on_method (fvalue f))
    else if token f =? NGHTTP2_TOKEN__PATH then once s (fvalue f) NGHTTP2_HTTP_FLAG__PATH (on_path (fvalue f))
    else if token f =? NGHTTP2_TOKEN__SCHEME then once s (fvalue f) NGHTTP2_HTTP_FLAG__SCHEME (on_scheme (fvalue f))
    else if token f =? NGHTTP2_TOKEN__PROTOCOL then
      if negb connect_protocol then http_error s else once s (fvalue f) NGHTTP2_HTTP_FLAG__PROTOCOL http_ok
    else if token f =? NGHTTP2_TOKEN_HOST then once s (fvalue f) NGHTTP2_HTTP_FLAG_HOST http_ok
    else if token f =? NGHTTP2_TOKEN_CONTENT_LENGTH then on_content_length (fvalue f) s
    else if disallowed (token f) then http_error s
    else if token f =? NGHTTP2_TOKEN_TE then on_te (fvalue f) s
    else if token f =? NGHTTP2_TOKEN_PRIORITY then on_priority (fvalue f) false s
    else if first_is (fname f) ":" then http_error s else http_ok s).
Proof.
  destruct (Z.eqb_spec (token f) NGHTTP2_TOKEN__AUTHORITY) as [Ht|H1].
  { rule Ht. rewrite <- (andb_true_r (_ && _)). apply once_spec, (plain_spec f s Hf _ _ Ht). cbn; tauto. }
  destruct (Z.eqb_spec (token f) NGHTTP2_TOKEN__METHOD) as [Ht|H2].
  { rule Ht. rewrite <- (andb_true_r (_ && _)). apply once_spec, (on_method_spec f s Hf Ht), Hseen. }
  destruct (Z.eqb_spec (token f) NGHTTP2_TOKEN__PATH) as [Ht|H3].
  { rule Ht. rewrite <- (andb_true_r (_ && _)). apply once_spec, (on_path_spec f s Hf Ht). }
  destruct (Z.eqb_spec (token f) NGHTTP2_TOKEN__SCHEME) as [Ht|H4].
  { rule Ht. rewrite <- (andb_true_r (_ && _)). apply once_spec, (on_scheme_spec f s Hf Ht). }
  destruct (Z.eqb_spec (token f) NGHTTP2_TOKEN__PROTOCOL) as [Ht|H5].
  { rule Ht. destruct connect_protocol; cbn [negb andb]; [|apply outcome_error].
    rewrite <- (andb_true_r (_ && _)). apply once_spec, (plain_spec f s Hf _ _ Ht). cbn; tauto. }
  destruct (Z.eqb_spec (token f) NGHTTP2_TOKEN_HOST) as [Ht|H6].
  { rule Ht. rewrite <- (andb_true_r (_ && _)). apply once_spec, (plain_spec f s Hf _ _ Ht). cbn; tauto. }
  destruct (Z.eqb_spec (token f) NGHTTP2_TOKEN_CONTENT_LENGTH) as [Ht|H7].
  { rule Ht. apply (on_content_length_spec f s Hf Ht). }
  apply Z.eqb_neq in H1, H2, H3, H4, H5, H6, H7. unfold field_rule. rewrite H1, H2, H3, H4, H5, H6, H7. cbn [orb].
  destruct (disallowed (token f)); [apply outcome_error|].
  destruct (Z.eqb_spec (token f) NGHTTP2_TOKEN_TE) as [Ht|H8]; [apply (on_te_spec f s Hf Ht)|].
  destruct (Z.eqb_spec (token f) NGHTTP2_TOKEN_PRIORITY) as [Ht|H9]; [apply (on_priority_spec f s Hf Ht)|].
  unfold pseudo. destruct (first_is (fname f) ":"); [apply outcome_error|]. gained Hf H7.
Qed.

(** The fields are remembered one more: what [gains] says, and the order of the rest. *)
Lemma remembers_taken s' : field_rule connect_protocol no_ws seen f = true -> gains f s s' ->
  has (http_flags s') NGHTTP2_HTTP_FLAG_PSEUDO_HEADER_DISALLOWED = has (http_flags s) NGHTTP2_HTTP_FLAG_PSEUDO_HEADER_DISALLOWED || negb (pseudo f) ->
  remembers (seen ++ [f]) s'.
Proof.
  intros Hrule [Gi Gf Gr Gl Gn] Go. destruct Hseen as [Ri Rw Rr Rl Rc Ro Rn].
  assert (Hfirst : is_field NGHTTP2_TOKEN_CONTENT_LENGTH f = true -> existsb (is_field NGHTTP2_TOKEN_CONTENT_LENGTH) seen = false /\ 0 <= decimal 0 (fvalue f)).
  { intros E. rewrite is_field_of in E by done. apply Z.eqb_eq in E. unfold field_rule in Hrule. rewrite E in Hrule.
    change (negb (existsb (is_field NGHTTP2_TOKEN_CONTENT_LENGTH) seen) && length_ok (fvalue f) = true) in Hrule.
    apply andb_true_iff in Hrule as [Hs Hl]. split; [by apply negb_true_iff|by apply length_ok_range]. }
  assert (Hfind : forall P : hfield -> bool, List.find P (seen ++ [f]) = match List.find P seen with Some g => Some g | None => if P f then Some f else None end).
  { intros P. clear. induction seen as [|g l IH]; [done|]. cbn [app List.find]. by destruct (P g). }
  assert (Hnone : forall P : hfield -> bool, existsb P seen = false -> List.find P seen = None).
  { intros P. clear. induction seen as [|g l IH]; [done|]. cbn [existsb List.find]. by destruct (P g). }
  constructor; rewrite ?Gi, ?Gf, ?Gr; try done.
  - rewrite Hfind, Gl. destruct (is_field NGHTTP2_TOKEN_CONTENT_LENGTH f) eqn:E; [by rewrite Hnone by apply Hfirst, eq_refl|]. rewrite Rl. by destruct (List.find _ _).
  - rewrite existsb_app, Gl. cbn [existsb]. destruct (is_field NGHTTP2_TOKEN_CONTENT_LENGTH f) eqn:E.
    + rewrite orb_true_r. apply Z.eqb_neq. pose proof (proj2 (Hfirst eq_refl)). lia.
    + by rewrite !orb_false_r.
  - rewrite existsb_app, Go, Ro. cbn [existsb]. by rewrite orb_false_r.
  - rewrite List.Forall_forall in *. intros p Hp. rewrite (Gn p Hp), (Rn p Hp), existsb_app. cbn [existsb]. by rewrite orb_false_r.
Qed.

Lemma request_header : outcome (in_order seen f && field_rule connect_protocol no_ws seen f) (remembers (seen ++ [f]))
  (http_request_on_header s (fname f) (fvalue f) (token f) false connect_protocol).
Proof.
  unfold http_request_on_header, pseudo_misplaced, in_order. rewrite (r_order _ _ Hseen). cbn [orb]. change (first_is (fname f) ":") with (pseudo f).
  destruct (pseudo f && _); [apply outcome_error|]. cbn [negb andb].
  pose proof request_rule as (rv & s' & E & H). change (first_is (fname f) ":") with (pseudo f) in E. rewrite E. unfold after_field. cbn [mbind option_bind].
  destruct (field_rule connect_protocol no_ws seen f) eqn:Hrule; [|subst rv; by exists NGHTTP2_ERR_HTTP_HEADER, s'].
  destruct H as (-> & Hg & Ho). cbn [Z.eqb negb]. unfold keeps_order in Ho. change (first_is (fname f) ":") with (pseudo f).
  destruct (pseudo f) eqn:Hp; cbn [negb]; apply outcome_ok, remembers_taken; try done.
  - by rewrite Ho, Hp, orb_false_r.
  - destruct Hg as [Gi Gf Gr Gl Gn]. constructor; try done. cbn [http_flags add_http_flag set_http_flags].
    rewrite List.Forall_forall in *. intros p Hin. rewrite has_lor, <- (Gn p Hin).
    repeat destruct Hin as [<-|Hin]; try by rewrite orb_false_r. done.
  - cbn [http_flags add_http_flag set_http_flags]. rewrite has_lor, Hp. by rewrite !orb_true_r.
Qed.
End Step.

(** A field that is left out counts as a regular field, and as nothing else. *)
Lemma ignored seen f s : remembers seen s -> taken f = false -> pseudo f = false -> remembers (seen ++ [f]) (add_http_flag NGHTTP2_HTTP_FLAG_PSEUDO_HEADER_DISALLOWED s).
Proof.
  intros [Ri Rw Rr Rl Rc Ro Rn] Hf Hp.
  assert (Hnot : forall t, is_field t f = false) by (intros t; unfold NgHttpSpec.is_field; by rewrite Hf).
  assert (Hfind : List.find (is_field NGHTTP2_TOKEN_CONTENT_LENGTH) (seen ++ [f]) = List.find (is_field NGHTTP2_TOKEN_CONTENT_LENGTH) seen).
  { clear -Hnot. induction seen as [|g l IH]; cbn [app List.find]; [by rewrite Hnot|]. by destruct (is_field _ g). }
  constructor; cbn [stream_id flags recv_content_length content_length http_flags add_http_flag set_http_flags]; try done.
  - by rewrite Hfind.
  - rewrite existsb_app. cbn [existsb]. by rewrite Hnot, !orb_false_r.
  - rewrite existsb_app, has_lor. cbn [existsb]. rewrite Hp. by rewrite !orb_true_r.
  - rewrite List.Forall_forall in *. intros p Hp'. rewrite existsb_app, has_lor, (Rn p Hp'). cbn [existsb].
    unfold noted, NgHttpSpec.method_is, path_regular, path_asterisk, scheme_http in Hp'. repeat destruct Hp' as [<-|Hp']; cbn [fst snd]; rewrite ?Hnot; try done.
Qed.

(** One field. *)
Lemma on_header seen f s : remembers seen s -> exists rv s',
  nghttp2_http_on_header true connect_protocol NGHTTP2_HEADERS s (fname f) (fvalue f) (token f) false = Some (rv, s') /\
  (rv =? NGHTTP2_ERR_HTTP_HEADER) = negb (field_ok connect_protocol no_ws seen f) /\ (field_ok connect_protocol no_ws seen f = true -> remembers (seen ++ [f]) s').
Proof.
  intros Hs. unfold nghttp2_http_on_header. rewrite check_name_spec. cbn [mbind option_bind].
  unfold field_ok, harmless. change (first_is (fname f) ":") with (pseudo f).
  destruct (name_ok f) eqn:Hn; cbn [negb].
  - rewrite (r_ws _ _ Hs). cbn [orb]. rewrite value_ok_spec. cbn [mbind option_bind andb].
    destruct (value_fine no_ws f) eqn:Hv; cbn [negb].
    + assert (Hf : taken f = true) by (unfold NgHttpSpec.taken; by rewrite Hn, Hv). rewrite Hf. cbn [orb negb andb].
      destruct (request_header seen f s Hs Hf) as (rv & s' & E & H). do 2 eexists. split; [exact E|].
      destruct (_ && _); [|subst rv; done]. destruct H as [-> H]. done.
    + assert (Hf : taken f = false) by (unfold NgHttpSpec.taken; by rewrite Hn, Hv). rewrite Hf.
      assert (Hlen : (length (fname f) =? 0)%nat = false) by (unfold name_ok in Hn; by destruct (fname f)). rewrite Hlen.
      destruct (pseudo f) eqn:Hp; cbn [orb negb andb]; [by do 2 eexists|]. do 2 eexists. split; [done|]. split; [done|]. intros _. by apply ignored.
  - assert (Hf : taken f = false) by (unfold NgHttpSpec.taken; by rewrite Hn). rewrite Hf.
    destruct (pseudo f) eqn:Hp; cbn [orb negb andb]; [by do 2 eexists|]. destruct (existsb is_upper (fname f)); cbn [negb andb]; [by do 2 eexists|].
    do 2 eexists. split; [done|]. split; [done|]. intros _. by apply ignored.
Qed.

Lemma on_fields_spec fs : forall seen s, remembers seen s -> exists r, on_fields connect_protocol s fs = Some r /\
  if fields_ok connect_protocol no_ws seen fs then exists s', r = Some s' /\ remembers (seen ++ fs) s' else r = None.
Proof.
  induction fs as [|f fs IH]; intros seen s Hs; cbn [on_fields fields_ok].
  { eexists. split; [done|]. exists s. by rewrite app_nil_r. }
  destruct (on_header seen f s Hs) as (rv & s' & E & Erv & H). rewrite E. cbn [mbind option_bind fst snd]. rewrite Erv.
  destruct (field_ok connect_protocol no_ws seen f); cbn [negb andb]; [|by exists None].
  destruct (IH (seen ++ [f]) s' (H eq_refl)) as (r & Er & Hr). exists r. split; [done|]. by rewrite <- app_assoc in Hr.
Qed.

(** The end of the fields. *)
Lemma on_request_headers_spec seen s : remembers seen s ->
  nghttp2_http_on_request_headers s NGHTTP2_HEADERS =
    if complete no_ws seen then (0, set_content_length (announced_length no_ws seen) s) else (-1, s).
Proof.
  intros Hs.
  assert (Hset : set_content_length (content_length s) s = s) by (by destruct s).
  unfold nghttp2_http_on_request_headers, complete, announced_length, is_connect, check_path.
  change NGHTTP2_HTTP_FLAG_REQ_HEADERS with (Z.lor (Z.lor NGHTTP2_HTTP_FLAG__METHOD NGHTTP2_HTTP_FLAG__PATH) NGHTTP2_HTTP_FLAG__SCHEME).
  rewrite !covers_lor, !has_either, (covers_bit _ 2 ltac:(lia) : (Z.land _ NGHTTP2_HTTP_FLAG__METHOD =? _) = has _ NGHTTP2_HTTP_FLAG__METHOD),
    (covers_bit _ 1 ltac:(lia) : (Z.land _ NGHTTP2_HTTP_FLAG__PATH =? _) = has _ NGHTTP2_HTTP_FLAG__PATH),
    (covers_bit _ 3 ltac:(lia) : (Z.land _ NGHTTP2_HTTP_FLAG__SCHEME =? _) = has _ NGHTTP2_HTTP_FLAG__SCHEME).
  rewrite <- (r_length _ _ Hs). repeat match goal with |- context [existsb ?P seen] => rewrite <- (noted_at seen s _ P Hs) by (cbn; tauto) end.
  ground. repeat match goal with |- context [has ?a ?b] => destruct (has a b); cbn [negb andb orb]; rewrite ?Hset; try done end.
Qed.

(** The data: what arrives is compared with what was announced, chunk by chunk. *)
Lemma on_chunks_spec ns : forall s, Forall (fun n => 0 <= n) ns -> has (http_flags s) NGHTTP2_HTTP_FLAG_EXPECT_FINAL_RESPONSE = false -> 0 <= recv_content_length s ->
  recv_content_length s + fold_right Z.add 0 ns < 2 ^ 63 ->
  exists r, on_chunks s ns = Some r /\
  match r with Some s' => nghttp2_http_on_remote_end_stream s' =? 0 | None => false end =
  ((content_length s =? -1) || (content_length s =? recv_content_length s + fold_right Z.add 0 ns)).
Proof.
  assert (Hsum : forall ns, Forall (fun n => 0 <= n) ns -> 0 <= fold_right Z.add 0 ns).
  { clear. induction 1 as [|n ns Hn Hns IH]; cbn [fold_right]; lia. }
  induction ns as [|n ns IH]; intros s Hns Hf Hr Hb; cbn [on_chunks fold_right] in *.
  { eexists. split; [done|]. unfold nghttp2_http_on_remote_end_stream. rewrite Hf, Z.add_0_r. destruct (content_length s =? -1); [done|]. by destruct (_ =? recv_content_length s). }
  apply Forall_cons in Hns as [Hn Hns]. specialize (Hsum ns Hns). unfold nghttp2_http_on_data_chunk.
  replace (in_int64 (recv_content_length s + n)) with true by (symmetry; apply andb_true_intro; split; [apply Z.leb_le|apply Z.ltb_lt]; lia). cbn [negb mbind option_bind].
  cbn [http_flags set_recv_content_length content_length recv_content_length]. rewrite Hf. cbn [orb].
  destruct (negb (content_length s =? -1) && (content_length s <? recv_content_length s + n)) eqn:E; cbn [Z.eqb].
  - eexists. split; [done|]. apply andb_true_iff in E as [E1 E2]. apply negb_true_iff in E1. apply Z.ltb_lt in E2. rewrite E1. symmetry. apply Z.eqb_neq. lia.
  - destruct (IH (set_recv_content_length (recv_content_length s + n) s)) as (r & -> & H); [done|done|cbn; lia..|].
    exists r. split; [done|]. rewrite H. cbn [content_length recv_content_length set_recv_content_length]. by rewrite Z.add_assoc.
Qed.
End Request.

(** What the handlers accept, with the tokens and the flags of the code. *)
Lemma accepts_request_ok connect_protocol no_ws s fs ns :
  http_flags s = 0 -> content_length s = -1 -> recv_content_length s = 0 -> Z.odd (stream_id s) = true ->
  has (flags s) NGHTTP2_STREAM_FLAG_NO_RFC9113_LEADING_AND_TRAILING_WS_VALIDATION = no_ws -> Forall (fun n => 0 <= n) ns ->
  fold_right Z.add 0 ns < 2 ^ 63 ->
  accepts connect_protocol s fs ns = Some (request_ok connect_protocol no_ws fs ns).
Proof.
  intros Hf Hc Hr Hodd Hws Hns Hb.
  assert (Hs : remembers no_ws [] s).
  { constructor; rewrite ?Hc, ?Hf; try done; [by rewrite <- Z.negb_odd, Hodd|]. repeat (apply Forall_cons; split; [done|]). by apply Forall_nil. }
  unfold accepts, request_ok. destruct (on_fields_spec connect_protocol no_ws fs [] s Hs) as (r & E & H). rewrite E. cbn [mbind option_bind].
  destruct (fields_ok _ _ _ _); [|by rewrite H]. destruct H as (s' & -> & H). rewrite app_nil_l in H. rewrite (on_request_headers_spec no_ws fs s' H).
  destruct (complete no_ws fs); cbn [negb andb Z.eqb]; [|done].
  assert (Hdata : recv_content_length s' = 0 /\ has (http_flags s') NGHTTP2_HTTP_FLAG_EXPECT_FINAL_RESPONSE = false).
  { split; [apply H|]. rewrite (noted_at no_ws fs s' _ (fun _ => false) H) by (cbn; tauto). clear. by induction fs. }
  match goal with |- context [on_chunks ?t ns] => destruct (on_chunks_spec ns t) as (r' & -> & Hr') end;
    cbn [http_flags content_length recv_content_length set_content_length]; [done|apply Hdata|lia..|].
  cbn [mbind option_bind]. rewrite Hr'. cbn [http_flags content_length recv_content_length set_content_length]. by rewrite (proj1 Hdata).
Qed.
