(* ===== verification/NgHttpRules.v ===== *)
(** * Requests: the rules [nghttp2_http.c] enforces

    [request_correct]: a server accepts exactly the requests that keep a list of
    rules, [request_rules], which speaks of names and values only.  The rules are
    those of RFC 9113 (sections 8.1.1, 8.2 and 8.3.1) and RFC 8441, with these
    differences, which are the source's:
    - a regular field whose name or value has the wrong form does not make the
      request malformed: if its name has no capital letter it is left out
      ([left_out]; RFC 9113, 8.2.1, calls the request malformed);
    - an authority is asked for whatever the scheme is, and [:path] must not be
      empty whatever the scheme is (RFC 9113, 8.3.1, asks for both with http and
      https);
    - [:path] and the authority are only checked character by character, not
      against the grammar of RFC 3986;
    - with [no_ws], white space around a value is allowed. *)

From stdpp Require Import list.
From S2P Require Import Prelude CLib NgBuf HuffTable Huffman HuffSpec HpackInt HdStatic HdTable NgFrame NgHelper NgStream Sfparse SfparseGrammar SfparseSpec NgHttp NgPrioritySpec NgHttpSpec.

(** ** Characters and words *)

Definition one_of (s : String.string) (c : char) : bool := existsb (Ascii.eqb c) (chars s).
Definition small (c : char) : bool := one_of "abcdefghijklmnopqrstuvwxyz" c.
Definition capital (c : char) : bool := one_of "ABCDEFGHIJKLMNOPQRSTUVWXYZ" c.
Definition numeral (c : char) : bool := one_of "0123456789" c.
(** RFC 9110, section 5.6.2 *)
Definition token_mark (c : char) : bool := one_of "!#$%&'*+-.^_`|~" c.
Definition blank (c : char) : bool := (nat_of_ascii c =? 32)%nat || (nat_of_ascii c =? 9)%nat.
Definition control (c : char) : bool := (nat_of_ascii c <? 32)%nat || (nat_of_ascii c =? 127)%nat.

Definition nonempty (v : list char) : bool := match v with [] => false | _ => true end.
Definition in_lower_case (v : list char) : list char :=
  map (fun c => if capital c then ascii_of_nat (nat_of_ascii c + 32) else c) v.
Definition says (word : String.string) (v : list char) : bool := bool_decide (in_lower_case v = chars word).

(** ** One field *)

Definition called (n : String.string) (f : hfield) : bool := bool_decide (fname f = chars n).
Definition pseudo_field (f : hfield) : bool := match fname f with c :: _ => Ascii.eqb c ":" | [] => false end.

(** RFC 9113, section 8.2.1: a token in lower case, with a colon in front or not *)
Definition name_form (n : list char) : bool :=
  let body := match n with c :: rest => if Ascii.eqb c ":" then rest else n | [] => n end in
  nonempty body && forallb (fun c => small c || numeral c || token_mark c) body.

Definition method_form (v : list char) : bool :=
  nonempty v && forallb (fun c => small c || capital c || numeral c || token_mark c) v.
Definition path_form (v : list char) : bool := forallb (fun c => negb (control c || blank c)) v.
Definition authority_form (v : list char) : bool :=
  forallb (fun c => small c || capital c || numeral c || one_of "-._~%!$&'()*+,;=:[]" c) v.
(** RFC 3986, section 3.1 *)
Definition scheme_form (v : list char) : bool :=
  match v with
  | [] => false
  | c :: rest => (small c || capital c) && forallb (fun c => small c || capital c || numeral c || one_of "+-." c) rest
  end.
(** RFC 9110, section 5.5 *)
Definition text_form (no_ws : bool) (v : list char) : bool :=
  forallb (fun c => negb (control c) || blank c) v &&
  (no_ws || match v with [] => true | c :: _ => negb (blank c) && negb (blank (List.last v c)) end).
(** A number that the receiver can count *)
Definition length_form (v : list char) : bool := nonempty v && forallb numeral v && (decimal 0 v <=? INT64_MAX).

Definition value_form (no_ws : bool) (f : hfield) : bool :=
  if called ":method" f then method_form (fvalue f)
  else if called ":path" f then path_form (fvalue f)
  else if called ":authority" f || called "host" f then authority_form (fvalue f)
  else if called ":scheme" f then scheme_form (fvalue f)
  else if called ":protocol" f && no_ws && forallb blank (fvalue f) then false
  else text_form no_ws (fvalue f).

Section Rules.
(** SETTINGS_ENABLE_CONNECT_PROTOCOL, and the option that tolerates white space. *)
Context (connect_protocol no_ws : bool).

Definition valid (f : hfield) : bool := name_form (fname f) && value_form no_ws f.

(** Wrong, and left out: a regular field of the wrong form. *)
Definition left_out (f : hfield) : bool :=
  negb (valid f) && negb (pseudo_field f) && (name_form (fname f) || negb (existsb capital (fname f))).

(** The pseudo fields of a request *)
Definition request_pseudo : list String.string := [":method"; ":scheme"; ":path"; ":authority"; ":protocol"]%string.
(** Fields that must not be empty *)
Definition filled : list String.string := (request_pseudo ++ ["host"%string]).
(** Fields that come at most once *)
Definition single : list String.string := (filled ++ ["content-length"%string]).
(** RFC 9113, section 8.2.2 *)
Definition of_connection : list String.string :=
  ["connection"; "keep-alive"; "proxy-connection"; "transfer-encoding"; "upgrade"]%string.

Definition among (ns : list String.string) (f : hfield) : bool := existsb (fun n => called n f) ns.

(** What every valid field must satisfy *)
Definition field_rules (f : hfield) : bool :=
  implb (pseudo_field f) (among request_pseudo f) &&
  implb (among filled f) (nonempty (fvalue f)) &&
  implb (called ":protocol" f) connect_protocol &&
  implb (called "content-length" f) (length_form (fvalue f)) &&
  implb (called "te" f) (says "trailers" (fvalue f)) &&
  negb (among of_connection f).

Definition times (n : String.string) (fs : list hfield) : nat := length (List.filter (called n) fs).
Definition has_field (n : String.string) (fs : list hfield) : bool := existsb (called n) fs.
Definition with_value (n v : String.string) (fs : list hfield) : bool :=
  existsb (fun f => called n f && bool_decide (fvalue f = chars v)) fs.

(** The pseudo fields come before the regular ones. *)
Fixpoint pseudo_first (fs : list hfield) : bool :=
  match fs with
  | [] => true
  | f :: fs => if pseudo_field f then pseudo_first fs else forallb (fun g => negb (pseudo_field g)) fs
  end.

(** CONNECT without [:protocol] names a host, not a resource. *)
Definition plain_connect (fs : list hfield) : bool :=
  with_value ":method" "CONNECT" fs && negb (has_field ":protocol" fs).

Definition web_scheme (fs : list hfield) : bool :=
  existsb (fun f => called ":scheme" f && (says "http" (fvalue f) || says "https" (fvalue f))) fs.
Definition slash_path (fs : list hfield) : bool :=
  existsb (fun f => called ":path" f && match fvalue f with c :: _ => Ascii.eqb c "/" | [] => false end) fs.

(** The fields a request must have *)
Definition has_control_data (fs : list hfield) : bool :=
  if plain_connect fs
  then has_field ":authority" fs && negb (has_field ":scheme" fs) && negb (has_field ":path" fs)
  else
    has_field ":method" fs && has_field ":scheme" fs && has_field ":path" fs &&
    (has_field ":authority" fs || has_field "host" fs) &&
    implb (has_field ":protocol" fs) (with_value ":method" "CONNECT" fs && has_field ":authority" fs) &&
    implb (web_scheme fs) (slash_path fs || with_value ":method" "OPTIONS" fs && with_value ":path" "*" fs).

(** The data is as long as announced; what a plain CONNECT announces does not count. *)
Definition length_kept (fs : list hfield) (ns : list Z) : bool :=
  plain_connect fs ||
  forallb (fun f => implb (called "content-length" f) (decimal 0 (fvalue f) =? fold_right Z.add 0 ns)) fs.

Definition request_rules (fs : list hfield) (ns : list Z) : bool :=
  let vs := List.filter valid fs in
  forallb (fun f => valid f || left_out f) fs && pseudo_first fs &&
  forallb (fun n => (times n vs <=? 1)%nat) single && forallb field_rules vs &&
  has_control_data vs && length_kept vs ns.
End Rules.

(** ** They are what the handlers compute *)

Lemma one_char_classes c :
  small c = is_lower c /\ capital c = is_upper c /\ numeral c = is_num c /\ blank c = is_ws c.
Proof.
  assert (H : forall c, Bool.eqb (small c) (is_lower c) && Bool.eqb (capital c) (is_upper c) &&
    Bool.eqb (numeral c) (is_num c) && Bool.eqb (blank c) (is_ws c) = true) by by_every_char.
  specialize (H c). rewrite !andb_true_iff, !eqb_true_iff in H. tauto.
Qed.

Lemma mixed_char_classes c :
  (small c || numeral c || token_mark c) = name_char c /\
  (small c || capital c || numeral c || token_mark c) = is_tchar c /\
  negb (control c || blank c) = ((33 <=? bval c) && negb (bval c =? 127)) /\
  (small c || capital c || numeral c || one_of "-._~%!$&'()*+,;=:[]" c) = is_authority_char c /\
  (negb (control c) || blank c) = text_char c.
Proof.
  assert (H : forall c, Bool.eqb (small c || numeral c || token_mark c) (name_char c) &&
    Bool.eqb (small c || capital c || numeral c || token_mark c) (is_tchar c) &&
    Bool.eqb (negb (control c || blank c)) ((33 <=? bval c) && negb (bval c =? 127)) &&
    Bool.eqb (small c || capital c || numeral c || one_of "-._~%!$&'()*+,;=:[]" c) (is_authority_char c) &&
    Bool.eqb (negb (control c) || blank c) (text_char c) = true) by by_every_char.
  specialize (H c). rewrite !andb_true_iff, !eqb_true_iff in H. tauto.
Qed.

Lemma forallb_same {A} (P Q : A -> bool) l : (forall x, P x = Q x) -> forallb P l = forallb Q l.
Proof. intros H. induction l as [|x l IH]; [done|]. cbn. by rewrite H, IH. Qed.

Lemma existsb_same {A} (P Q : A -> bool) l : (forall x, P x = Q x) -> existsb P l = existsb Q l.
Proof. intros H. induction l as [|x l IH]; [done|]. cbn. by rewrite H, IH. Qed.

Lemma nonempty_spec v : nonempty v = negb (bool_decide (v = [])).
Proof. destruct v; [done|]. by rewrite bool_decide_eq_false_2. Qed.

Lemma name_form_spec f : name_form (fname f) = name_ok f.
Proof.
  unfold name_form, name_ok. destruct (fname f) as [|c rest]; [done|].
  assert (H : forall l, forallb (fun c => small c || numeral c || token_mark c) l = forallb name_char l)
    by (intros l; apply forallb_same; intros x; apply mixed_char_classes).
  rewrite H. by destruct (Ascii.eqb c ":"); [rewrite nonempty_spec|].
Qed.

Lemma length_form_spec v : length_form v = length_ok v.
Proof.
  unfold length_form, length_ok. rewrite nonempty_spec. do 2 f_equal.
  apply forallb_same. intros c. apply one_char_classes.
Qed.

Lemma scheme_form_spec v : scheme_form v = check_scheme v.
Proof.
  destruct v as [|c rest]; [done|]. cbn [scheme_form check_scheme].
  destruct (one_char_classes c) as (-> & -> & _). rewrite (orb_comm (is_lower c)). f_equal.
  apply forallb_same. intros x. destruct (one_char_classes x) as (-> & -> & -> & _).
  unfold one_of, chars. cbn [list_ascii_of_string existsb]. rewrite orb_false_r, (orb_comm (is_lower x)), !orb_assoc. done.
Qed.

Lemma text_form_spec no_ws v : text_form no_ws v = text_ok no_ws v.
Proof.
  unfold text_form, text_ok. rewrite andb_comm. f_equal.
  - f_equal. destruct v as [|c v]; [done|]. by rewrite !(proj2 (proj2 (proj2 (one_char_classes _)))).
  - apply forallb_same. intros c. apply mixed_char_classes.
Qed.

Lemma lower_case_char c : bval (if capital c then ascii_of_nat (nat_of_ascii c + 32) else c) = downcase c.
Proof. apply Z.eqb_eq. revert c. by_every_char. Qed.

#[local] Instance bval_Inj : Inj (=) (=) bval.
Proof. intros c d E. apply bval_inj. by rewrite E. Qed.

Lemma says_spec word v :
  (forall c, In c (chars word) -> is_upper c = false) -> says word v = same_ci v (chars word).
Proof.
  intros Hw. unfold says, same_ci. apply bool_decide_ext.
  assert (H1 : map downcase v = map bval (in_lower_case v)).
  { unfold in_lower_case. rewrite map_map. apply map_ext. intros c. symmetry. apply lower_case_char. }
  assert (H2 : map downcase (chars word) = map bval (chars word)).
  { apply map_ext_in. intros c Hc. apply Hw in Hc. unfold downcase, is_upper in *. by rewrite Hc. }
  rewrite H1, H2. split; [by intros ->|]. apply (inj (fmap bval)).
Qed.

(** A token stands for its name. *)
Lemma token_called t n f :
  existsb (fun p => (fst p =? t) && String.eqb (snd p) n) token_names = true -> (token f =? t) = called n f.
Proof.
  intros H. apply existsb_exists in H as ([t' n'] & Hin & H). apply andb_prop in H as [E1%Z.eqb_eq E2%String.eqb_eq].
  cbn [fst snd] in *. subst t' n'. apply list_elem_of_In, lookup_token_names in Hin as [Hl H0]. unfold token, called.
  destruct (decide (fname f = chars n)) as [E|E].
  - rewrite E, Hl, Z.eqb_refl. symmetry. by apply bool_decide_eq_true_2.
  - rewrite (bool_decide_eq_false_2 _ E). apply Z.eqb_neq. intros Et. apply E, lookup_token_inj; [congruence|lia].
Qed.

Ltac by_names := repeat match goal with
  | |- context [token ?f =? ?t] =>
      let n := eval vm_compute in (match List.find (fun p => fst p =? t) token_names with Some p => snd p | None => EmptyString end) in
      rewrite (token_called t n f eq_refl)
  end.

Lemma value_form_spec no_ws f : value_form no_ws f = value_fine no_ws f.
Proof.
  unfold value_form, value_fine, method_form, path_form, authority_form. by_names.
  rewrite nonempty_spec, scheme_form_spec, text_form_spec.
  rewrite !(forallb_same _ _ _ (fun c => proj1 (proj2 (mixed_char_classes c)))).
  rewrite !(forallb_same _ _ _ (fun c => proj1 (proj2 (proj2 (mixed_char_classes c))))).
  rewrite !(forallb_same _ _ _ (fun c => proj1 (proj2 (proj2 (proj2 (mixed_char_classes c)))))).
  rewrite (forallb_same _ _ _ (fun c => proj2 (proj2 (proj2 (one_char_classes c))))).
  rewrite <- andb_assoc. done.
Qed.

Lemma valid_spec no_ws f : valid no_ws f = taken no_ws f.
Proof. unfold valid, taken. by rewrite name_form_spec, value_form_spec. Qed.

Section Fields.
Context (connect_protocol no_ws : bool).
Abbreviation valid := (valid no_ws).

(** A valid field of the name. *)
Definition stands (n : String.string) (f : hfield) : bool := valid f && called n f.

Lemma is_field_called t n f :
  existsb (fun p => (fst p =? t) && String.eqb (snd p) n) token_names = true ->
  is_field no_ws t f = stands n f.
Proof. intros H. unfold is_field, stands. by rewrite valid_spec, (token_called t n f H). Qed.

Lemma has_called t n l :
  existsb (fun p => (fst p =? t) && String.eqb (snd p) n) token_names = true ->
  existsb (is_field no_ws t) l = existsb (stands n) l.
Proof. intros H. apply existsb_same. intros f. by apply is_field_called. Qed.

Lemma stands_filter n l : existsb (stands n) l = has_field n (List.filter valid l).
Proof.
  unfold has_field. induction l as [|f l IH]; [done|]. cbn [existsb List.filter]. unfold stands at 1.
  destruct (valid f); cbn [existsb andb]; by rewrite IH.
Qed.

(** What a known name decides. *)
Ltac known_name := repeat match goal with
  | |- context [called ?a (HField (chars ?n) ?v)] =>
      let b := eval vm_compute in (called a (HField (chars n) v)) in change (called a (HField (chars n) v)) with b
  | |- context [pseudo_field (HField (chars ?n) ?v)] =>
      let b := eval vm_compute in (pseudo_field (HField (chars n) v)) in change (pseudo_field (HField (chars n) v)) with b
  | |- context [pseudo (HField (chars ?n) ?v)] => change (pseudo (HField (chars n) v)) with (pseudo_field (HField (chars n) v))
  | |- context [token (HField (chars ?n) ?v)] =>
      let t := eval vm_compute in (token (HField (chars n) v)) in change (token (HField (chars n) v)) with t
  | |- context [?a =? ?b] => let v := eval vm_compute in (a =? b) in lazymatch v with true => idtac | false => idtac end; change (a =? b) with v
  | |- context [is_field no_ws ?t] =>
      let n := eval vm_compute in (match List.find (fun p => fst p =? t) token_names with Some p => snd p | None => EmptyString end) in
      rewrite (has_called t n _ eq_refl)
  end.

(** One case: the name is [n]. *)
Ltac one_name n := match goal with |- context [HField ?nm ?v] =>
  destruct (decide (nm = chars n)) as [->|?];
  [known_name; cbn [andb orb negb implb]; repeat match goal with |- context [existsb ?P ?l] => destruct (existsb P l) end;
   cbn [andb orb negb implb]; rewrite ?andb_true_r, ?andb_false_r; try done;
   match goal with |- context [nonempty ?v] => by destruct connect_protocol, (nonempty v) end|] end.

(** The rule for a field is what the others leave of its name, and its own. *)
Lemma field_rule_spec seen f :
  field_rule connect_protocol no_ws seen f =
    forallb (fun n => negb (called n f && existsb (stands n) seen)) single && field_rules connect_protocol f.
Proof.
  unfold field_rule, disallowed. cbv zeta. rewrite <- length_form_spec, <- nonempty_spec.
  rewrite <- (says_spec "trailers") by (by intros c [<-|[<-|[<-|[<-|[<-|[<-|[<-|[<-|[]]]]]]]]]).
  unfold field_rules, among, single, filled, of_connection, request_pseudo. cbn [app forallb existsb].
  destruct f as [nm v]. cbn [fvalue].
  one_name ":authority"%string. one_name ":method"%string. one_name ":path"%string.
  one_name ":scheme"%string. one_name ":protocol"%string. one_name "host"%string.
  one_name "content-length"%string. one_name "connection"%string. one_name "keep-alive"%string.
  one_name "proxy-connection"%string. one_name "transfer-encoding"%string. one_name "upgrade"%string.
  one_name "te"%string. one_name "priority"%string.
  by_names. unfold called. cbn [fname].
  rewrite !bool_decide_eq_false_2 by done. cbn [andb orb negb implb].
  change (pseudo (HField nm v)) with (pseudo_field (HField nm v)).
  by destruct (pseudo_field (HField nm v)).
Qed.

(** The fields that are to come, after the fields [seen]. *)
Definition order_after (seen fs : list hfield) : bool :=
  if existsb (fun g => negb (pseudo_field g)) seen
  then forallb (fun g => negb (pseudo_field g)) fs else pseudo_first fs.
Definition once_after (seen fs : list hfield) (n : String.string) : bool :=
  (times n (List.filter valid fs) <=? if existsb (stands n) seen then 0 else 1)%nat.

Lemma order_after_cons seen f fs :
  order_after seen (f :: fs) = in_order seen f && order_after (seen ++ [f]) fs.
Proof.
  unfold order_after, in_order. change (existsb (fun g => negb (pseudo g)) seen) with
    (existsb (fun g => negb (pseudo_field g)) seen). change (pseudo f) with (pseudo_field f).
  rewrite existsb_app. cbn [existsb pseudo_first forallb].
  destruct (existsb _ seen), (pseudo_field f); done.
Qed.

Lemma once_after_cons seen f fs n :
  once_after seen (f :: fs) n =
    implb (valid f) (negb (called n f && existsb (stands n) seen)) && once_after (seen ++ [f]) fs n.
Proof.
  unfold once_after, times. rewrite existsb_app. cbn [existsb List.filter].
  change (stands n f) with (valid f && called n f).
  destruct (valid f); cbn [implb andb orb List.filter]; [|by rewrite orb_false_r].
  rewrite orb_false_r. destruct (called n f); cbn [andb negb length]; [|by rewrite orb_false_r].
  rewrite orb_true_r. by destruct (existsb (stands n) seen).
Qed.

Lemma forallb_both {A} (P Q : A -> bool) l : forallb (fun x => P x && Q x) l = forallb P l && forallb Q l.
Proof. induction l as [|x l IH]; [done|]. cbn. rewrite IH. by destruct (P x), (Q x), (forallb P l). Qed.

Lemma harmless_spec f : harmless no_ws f = valid f || left_out no_ws f.
Proof.
  unfold harmless, left_out. rewrite <- valid_spec, name_form_spec.
  rewrite (existsb_same capital is_upper) by (intros c; apply one_char_classes).
  change (pseudo f) with (pseudo_field f). by destruct (valid f), (pseudo_field f).
Qed.

Lemma fields_spec fs : forall seen,
  fields_ok connect_protocol no_ws seen fs =
    forallb (fun f => valid f || left_out no_ws f) fs && order_after seen fs &&
    forallb (once_after seen fs) single && forallb (field_rules connect_protocol) (List.filter valid fs).
Proof.
  induction fs as [|f fs IH]; intros seen.
  { assert (Ho : forallb (once_after seen []) single = true).
    { apply forallb_forall. intros n _. unfold once_after. by destruct (existsb _ seen). }
    cbn [fields_ok List.filter]. rewrite Ho. unfold order_after. by destruct (existsb _ seen). }
  cbn [fields_ok forallb List.filter]. unfold field_ok. rewrite harmless_spec, <- valid_spec, IH, order_after_cons.
  rewrite (forallb_same (once_after seen (f :: fs)) _ _ (once_after_cons seen f fs)), forallb_both.
  rewrite field_rule_spec. destruct (valid f) eqn:Hv; cbn [orb andb negb implb forallb].
  - set (a := forallb _ single). destruct (in_order seen f), a, (field_rules connect_protocol f); cbn [andb];
      rewrite ?andb_false_r, ?andb_true_r; done.
  - assert (Ht : forallb (fun _ : String.string => true) single = true) by done. rewrite Ht. cbn [andb].
    unfold left_out. rewrite Hv. cbn [negb andb].
    change (in_order seen f) with (negb (pseudo_field f && existsb (fun g => negb (pseudo g)) seen)).
    destruct (pseudo_field f); [done|]. cbn [negb andb]. by rewrite andb_true_r, !andb_assoc.
Qed.

(** The fields that must be there. *)
Lemma method_is_spec m fs : existsb (method_is no_ws m) fs = with_value ":method" m (List.filter valid fs).
Proof.
  unfold with_value. induction fs as [|f fs IH]; [done|]. cbn [existsb List.filter]. rewrite IH.
  unfold method_is at 1. rewrite (is_field_called _ ":method"%string) by done. unfold stands.
  by destruct (valid f).
Qed.
(** A condition on the value of a field. *)
Lemma exists_value n P fs (Q : hfield -> bool) :
  (forall f, Q f = stands n f && P (fvalue f)) ->
  existsb Q fs = existsb (fun f => called n f && P (fvalue f)) (List.filter valid fs).
Proof.
  intros HQ. induction fs as [|f fs IH]; [done|]. cbn [existsb List.filter]. rewrite IH, HQ. unfold stands.
  by destruct (valid f).
Qed.

Lemma scheme_http_spec fs : existsb (scheme_http no_ws) fs = web_scheme (List.filter valid fs).
Proof.
  apply (exists_value _ (fun v => says "http" v || says "https" v)). intros f. unfold scheme_http.
  rewrite (is_field_called _ ":scheme"%string) by done. f_equal.
  by rewrite !says_spec by (cbn; intros c Hc; repeat destruct Hc as [<-|Hc]; done).
Qed.

Lemma path_spec fs :
  existsb (path_regular no_ws) fs = slash_path (List.filter valid fs) /\
  existsb (path_asterisk no_ws) fs = with_value ":path" "*" (List.filter valid fs).
Proof.
  split.
  - apply (exists_value _ (fun v => match v with c :: _ => Ascii.eqb c "/" | [] => false end)). intros f.
    unfold path_regular. by rewrite (is_field_called _ ":path"%string).
  - pose (P := fun v : list char => bool_decide (v = chars "*")). apply (exists_value _ P). intros f.
    unfold path_asterisk. by rewrite (is_field_called _ ":path"%string).
Qed.

Lemma is_connect_spec fs : is_connect no_ws fs = plain_connect (List.filter valid fs).
Proof.
  unfold is_connect, plain_connect. by rewrite method_is_spec, (has_called _ ":protocol"%string), stands_filter.
Qed.

Lemma complete_spec fs : complete no_ws fs = has_control_data (List.filter valid fs).
Proof.
  unfold complete, has_control_data. destruct (path_spec fs) as [E1 E2].
  rewrite is_connect_spec, !method_is_spec, scheme_http_spec, E1, E2.
  rewrite !(has_called _ ":scheme"%string), !(has_called _ ":path"%string), !(has_called _ ":authority"%string),
    !(has_called _ ":method"%string), !(has_called _ "host"%string), !(has_called _ ":protocol"%string), !stands_filter by done.
  set (vs := List.filter valid fs).
  destruct (plain_connect vs), (has_field ":scheme" vs), (has_field ":path" vs), (has_field ":authority" vs),
    (has_field ":method" vs), (has_field "host" vs), (has_field ":protocol" vs), (web_scheme vs),
    (slash_path vs); reflexivity.
Qed.

(** At most one field announces a length. *)
Lemma length_kept_spec fs ns :
  Forall (fun n => 0 <= n) ns -> (times "content-length" (List.filter valid fs) <= 1)%nat ->
  forallb (field_rules connect_protocol) (List.filter valid fs) = true ->
  (announced_length no_ws fs =? -1) || (announced_length no_ws fs =? fold_right Z.add 0 ns) =
    length_kept (List.filter valid fs) ns.
Proof.
  intros Hns H1 Hr. unfold announced_length, length_kept. rewrite is_connect_spec.
  destruct (plain_connect _); [done|]. cbn [orb].
  assert (Hf : List.find (is_field no_ws NGHTTP2_TOKEN_CONTENT_LENGTH) fs =
               List.find (called "content-length") (List.filter valid fs)).
  { clear. induction fs as [|f fs IH]; [done|]. cbn [List.find List.filter].
    rewrite (is_field_called _ "content-length"%string) by done. unfold stands.
    destruct (valid f); cbn [andb List.find]; [by rewrite IH|done]. }
  rewrite Hf. clear Hf. revert H1 Hr. unfold times. generalize (List.filter valid fs) as vs.
  induction vs as [|f vs IH]; intros H1 Hr; [done|]. cbn [List.filter List.find forallb] in *.
  apply andb_prop in Hr as [Hf Hr]. destruct (called "content-length" f) eqn:Ef; [|by apply IH].
  cbn [length implb] in *. assert (E0 : List.filter (called "content-length") vs = []) by (destruct (List.filter _ vs); [done|cbn in H1; lia]).
  assert (Hrest : forallb (fun f => implb (called "content-length" f) (decimal 0 (fvalue f) =? fold_right Z.add 0 ns)) vs = true).
  { clear -E0. induction vs as [|g vs IH]; [done|]. cbn in *. by destruct (called _ g); [|apply IH]. }
  rewrite Hrest, andb_true_r. assert (Hl : length_ok (fvalue f) = true).
  { unfold field_rules in Hf. rewrite Ef, length_form_spec in Hf. cbn [implb] in Hf. crush_hyps. done. }
  apply length_ok_range in Hl. destruct (Z.eqb_spec (decimal 0 (fvalue f)) (-1)); [lia|done].
Qed.

Lemma request_rules_spec fs ns : Forall (fun n => 0 <= n) ns ->
  request_ok connect_protocol no_ws fs ns = request_rules connect_protocol no_ws fs ns.
Proof.
  intros Hns. unfold request_ok, request_rules. cbv zeta. rewrite fields_spec, complete_spec.
  change (order_after [] fs) with (pseudo_first fs).
  change (once_after [] fs) with (fun n => (times n (List.filter valid fs) <=? 1)%nat). 
  destruct (forallb (fun n => (times n (List.filter valid fs) <=? 1)%nat) single) eqn:Hs;
    [|by rewrite !andb_false_r].
  destruct (forallb (field_rules connect_protocol) (List.filter valid fs)) eqn:Hr; [|by rewrite !andb_false_r].
  rewrite length_kept_spec; [done|exact Hns| |exact Hr].
  apply forallb_forall with (x := "content-length"%string) in Hs; [by apply Nat.leb_le|]. cbn. tauto.
Qed.
End Fields.

(** C38: a server accepts exactly the requests that keep [request_rules].  For all
    fields in all orders, and all sizes of DATA frames, the handlers that see the
    fields one after the other, the end of the fields, the data and the end of the
    stream never read outside the strings, and let the request pass if and only if:
    every field is valid, its name and value having the form its name asks for, or it
    is a regular field without a capital in its name and is left out; pseudo fields
    come before the regular ones, left out or not; and of the valid fields, the five
    pseudo fields of a request, [host] and [content-length] come at most once, the
    first six are not empty, there is no other pseudo field and none of the fields of
    a connection, [te] says [trailers], [:protocol] comes with the setting and with
    CONNECT; [:method], [:path], [:scheme] and an authority are there, or for a plain
    CONNECT only [:authority]; the path of an http URI starts with a slash, or is an
    asterisk with OPTIONS; and the data is as long as the one [content-length] says.
    These are RFC 9113's rules but for the four differences listed at the top of the
    file.  The sizes together are those of a stream of less than 2^63 bytes, which the
    count of the code can hold. *)
Theorem request_correct connect_protocol no_ws s fs ns :
  http_flags s = 0 -> content_length s = -1 -> recv_content_length s = 0 -> Z.odd (stream_id s) = true ->
  has (flags s) NGHTTP2_STREAM_FLAG_NO_RFC9113_LEADING_AND_TRAILING_WS_VALIDATION = no_ws -> Forall (fun n => 0 <= n) ns ->
  fold_right Z.add 0 ns < 2 ^ 63 ->
  accepts connect_protocol s fs ns = Some (request_rules connect_protocol no_ws fs ns).
Proof. intros. rewrite <- request_rules_spec by done. by apply accepts_request_ok. Qed.

Definition sample_request : list hfield := map (fun p => HField (chars (fst p)) (chars (snd p)))
  [(":method", "POST"); (":scheme", "https"); (":path", "/upload?name=x"); (":authority", "example.org:8080");
   ("content-length", "12"); ("te", "Trailers"); ("priority", "u=2, i"); ("bad name", "left out"); ("user-agent", "demo 1.0")]%string.

(** A stream as the session makes it. *)
Lemma request_correct_witness :
  let s := nghttp2_stream_init 3 0 NGHTTP2_STREAM_OPENED 65535 65535 0 in
  accepts false s sample_request [5; 7] = Some true /\
  accepts false s sample_request [5; 8] = Some false /\
  accepts false s (sample_request ++ [HField (chars ":path") (chars "/")]) [5; 7] = Some false.
Proof.
  cbv zeta. split; [|split].
  - rewrite (request_correct _ false); [by vm_compute|done..|by repeat constructor|by vm_compute].
  - rewrite (request_correct _ false); [by vm_compute|done..|by repeat constructor|by vm_compute].
  - rewrite (request_correct _ false); [by vm_compute|done..|by repeat constructor|by vm_compute].
Defined.

(** What nghttp2 lets pass and RFC 9113 does not, and the other way round: a name with a
    space in it is left out, but a capital letter is an error; an authority is asked for
    with any scheme. *)
Example differences :
  let req scheme more := map (fun p => HField (chars (fst p)) (chars (snd p)))
    ((":method", "GET") :: (":scheme", scheme) :: (":path", "/") :: more)%string in
  request_rules false false (req "http" [(":authority", "h"); ("bad name", "x")])%string [] = true /\
  request_rules false false (req "http" [(":authority", "h"); ("Bad name", "x")])%string [] = false /\
  request_rules false false (req "coap" [])%string [] = false.
Proof. vm_compute. by split_and!. Qed.
